(* ===== verification/_CoqProject ===== *)
-Q . S2P
Prelude.v
Const.v
Dll.v
LinkedList.v
PM.v
BuddyHeap.v
PageTable.v
Timer.v
SpinLock.v
Sched.v
SchedInv.v
SchedSafe.v
Sync.v
Crt.v
HandleTable.v
Rtc.v
HashSet.v
Process.v
DiskCache.v
Bytes.v
ExFat.v
Folder.v
UserMem.v
FileIO.v
Requests.v
Phys.v
VSpace.v
VSpaceInv.v
VSpaceOps.v
ProcSpace.v
KernelSpace.v
Packet.v
Kdb.v
KdbSafe.v
Ps2.v
Service.v
