(* ===== verification/Prelude.v ===== *)
(** * COFUOS: a verification library of the kernel and its run-time

    COFUOS is a small 64-bit operating system: a kernel in C++ with its own page allocator, address
    spaces, heap, threads, synchronisation objects, timer and exFAT file system, and a run-time library
    with applications on top of it.  This library translates its core into Rocq and proves what makes
    each part correct.  File names below are relative to [src/].

    ** How code becomes definitions

    A C++ function becomes a function on an explicit state that answers an [outcome]: [Ok] with a result,
    [Bug] where the code stops the machine ([assert], which is active since [NDEBUG] is not defined,
    [bugcheck], [THROW], or an access through a pointer to nothing), and [NoFuel] where a loop has not
    finished within the bound of the model.  A theorem that an operation answers [Ok] therefore says that
    it ends, that every assertion in it holds and that every pointer it follows is valid.  Integers are [Z],
    with [w8] .. [w64] where a store can wrap around.  Code that is not under [src/], and hardware, is an
    argument of the definitions: memory maps of the firmware, registers, whether a page can be had.

    ** The files

    - [Const]: the layout constants of kernel/util/include/constant.hpp.
    - [Dll]: chains of nodes in a store, shared by the containers that link nodes by pointers.
    - [LinkedList]: util/include/linked_list.hpp, pointer by pointer; it refines sequences.
    - [PM]: kernel/memory/pm.cpp, the physical page allocator: construction from the memory map, allocation,
      reservation and release, and the safety of any client that keeps its obligations.
    - [BuddyHeap]: util/include/buddy_heap.hpp, the buddy allocator of kernel and user heaps.
    - [PageTable]: the low-level methods of kernel/memory/vm.cpp, which keep the free runs of a page
      table in the table itself, as a list sorted by size.
    - [Timer]: kernel/dev/timer.cpp, the delta queue of timed callbacks; it refines a map of due times.
    - [SpinLock]: kernel/sync/spin_lock.cpp under every interleaving of its accesses.
    - [Sched], [SchedInv], [SchedSafe]: kernel/process/thread.cpp, waitable.cpp, core_state.cpp: threads,
      wait queues, the scheduler and the collector of one core; their invariant; what holds of every operation.
    - [Sync]: kernel/sync/semaphore.cpp, event.cpp, rwlock.cpp, pipe.cpp, over the state of [Sched].
    - [Crt]: app/libuos/uoscrt.cpp: strings, numbers and formatted output of the applications.
    - [HandleTable]: the handle table of kernel/process/process.cpp; it refines a row of slots.
    - [Rtc]: kernel/dev/rtc.cpp, the clock and its calendar.
    - [HashSet]: util/include/hash_set.hpp; it simulates a finite map.
    - [Process]: the life of a process, the table of processes and the named objects, over [HashSet]
      (kernel/process/process.cpp, kernel/interface/object.cpp).
    - [DiskCache]: kernel/filesystem/disk_interface.cpp, the slots between the disk and its users, with
      failing commands; its users see one disk.
    - [Bytes]: little-endian words in rows of bytes.
    - [ExFat]: kernel/filesystem/exfat.cpp, the FAT, the bitmap and the chains of clusters.
    - [Folder]: kernel/filesystem/instance.cpp, names, the reader of folders and the change of a record.
    - [UserMem]: kernel/memory/user_vspace.cpp, the copies to and from a process; they are copies byte by byte.
    - [FileIO]: kernel/filesystem/worker.cpp, what a worker thread does for a file: reads, writes and growth.
    - [Requests]: kernel/filesystem/file.cpp and worker.cpp, the commands between the user of a file and the
      worker threads, as steps of both sides.
    - [Phys]: the interface of the page allocator to the address spaces, with [PM] as its instance.
    - [VSpace]: the rest of kernel/memory/vm.cpp, user_vspace.cpp and kernel_vspace.cpp: the walks over three levels,
      directories and tables made on the way, and every operation of both kinds of address spaces.
    - [VSpaceInv], [VSpaceOps]: the invariant of an address space, and what each operation does to it.
    - [ProcSpace]: the space of a process from its constructor to its destructor, next to other users of the allocator.
    - [KernelSpace]: [map_view] under every interleaving of its accesses, and the constructor of the kernel's space.
    - [Packet]: the serial line of kernel/exception/kdb.cpp, its packets and their checksums.
    - [Kdb], [KdbSafe]: the kernel debugger: its commands, breakpoints and messages; what they do.
    - [Ps2]: kernel/dev/ps_2.cpp, the ring of bytes between interrupt handler and thread, the recognition of a device, the
      decoding of a keyboard.
    - [Service]: kernel/interface/service.cpp, the test of a caller's buffer, the services that hand data out, and the stack of a
      new thread.

    ** How the parts meet

    The containers are shown once to be sequences ([LinkedList]) and sets ([HashSet]) and are used as such
    above.  [Sync] runs on the scheduler of [Sched], whose callbacks come from the timer of [Timer].  [ExFat]
    and [Folder] use the disk as [DiskCache] shows it to its users: sectors, some of which cannot be read,
    and the slots the thread at work holds; a thread that waits for a slot it holds itself, or writes
    through a slot outside the sectors it marked with [upgrade], is a [Bug] there.  [FileIO] puts [ExFat],
    [Folder] and the copies of [UserMem] together, and [Requests] has the threads that call it.  [UserMem] sees an address
    space through the class [UserSpace] (the entry of each page); [VSpace] sees the allocator through the class [Phys], works
    on single tables with [PageTable], and [ProcSpace] shows that it is a [UserSpace].  [Kdb] looks addresses up with a
    parameter, the [peek] of the address space that an address belongs to.  The
    locks are leaves: each public operation of a locked object is one step, and [SpinLock] shows
    that holders exclude one another.

    ** What is shown

    Safety of clients: whatever sequence of legal calls is made, no assertion fails and no resource is
    handed out twice ([PM], [BuddyHeap], [PageTable], [ProcSpace], [SchedSafe], [Sync], [Process], [Requests]),
    a file that grows touches no other file ([ExFat]), views of pages and holders of locks exclude one another ([KernelSpace],
    [SpinLock]), and whatever the debugger sends is answered ([KdbSafe]).  All or nothing: a reservation, a commit
    or a release of an address space does the whole range or leaves it as it was, and the end of a space gives every page back ([ProcSpace]).  Refinement of
    an abstract description: [LinkedList], [Timer], [HandleTable], [HashSet], [DiskCache], the
    chains of clusters, the pipe.  Equivalence with a
    reference: [snprintf], the calendar, names of files, the walk over three levels, the copies to and from a process.
    Round trips: printing and reading numbers, allocation and release, the sizes of a file in its folder, the mark of a volume
    in use, committed memory that is written and read, packets over a line that damages some, memory through the debugger, keys through the codes of a keyboard.  Liveness: a timer fires on its tick.  Boundaries and
    errors: the limit of a semaphore, refused reservations, and the inputs on which the code is wrong.

    ** Bounds and fuel

    Loops over a list or a counter are structural.  The others take as fuel a bound on their length that
    their theorem shows to be enough: the number of threads for queues, the bitmap for searches, the
    512 entries of a table (513 where the condition of the loop is tested once more), the clusters of a chain, the 2048 slots of a
    handle table, the length of a format for [printf], the pages a copy can touch, the bytes of a request.  A loop that waits for
    the serial line takes the bytes that are going to arrive, and is not finished when they are used up.

    ** Not modelled

    Drivers that only move data between ports and memory, the handlers of processor exceptions, the boot loaders and assembly
    files, the shell and the applications (input, output and system calls throughout), and the host tools.  The other
    services check their arguments as those of [Service] do and call the objects modelled here.  The search for a path in the file system stops at one folder:
    the reader of folders is modelled, the walk along a path is not.  The lock of an address space makes one operation one
    step, and the flush of the processor's translation cache has no state here. *)

From stdpp Require Export base tactics option list gmap sets numbers strings sorting.
From Stdlib Require Export ZArith Lia Bool.

#[global] Open Scope Z_scope.

(** ** Outcomes

    [assert] and [bugcheck] (src/kernel/util/include/assert.hpp) and the [THROW] of the containers
    (src/util/include/container.hpp) all stop the machine: they are the outcome [Bug].
    A loop that the model bounds by fuel answers [NoFuel] when the fuel is used up, so that running
    out of fuel is never confused with a stop of the machine. *)
Inductive outcome (A : Type) : Type :=
  | Ok (a : A)
  | Bug
  | NoFuel.
Arguments Ok {A} _.
Arguments Bug {A}.
Arguments NoFuel {A}.

(** Sequencing: a stop of the machine, or an exhausted loop bound, ends the computation. *)
Definition obind {A B} (m : outcome A) (f : A -> outcome B) : outcome B :=
  match m with Ok a => f a | Bug => Bug | NoFuel => NoFuel end.

(** [assert(b)]: continue when [b] holds, stop the machine otherwise. *)
Definition ensure (b : bool) : outcome unit := if b then Ok tt else Bug.

(** Dereference of a pointer: nothing is mapped behind it, the machine stops. *)
Definition deref {A} (o : option A) : outcome A :=
  match o with Some a => Ok a | None => Bug end.

Declare Scope cof_scope.
Delimit Scope cof_scope with cof.
Notation "'assert!' b ; k" := (obind (ensure b) (fun _ => k))
  (at level 10, b at level 99, k at level 200, only parsing) : cof_scope.
Notation "'let!' x := m ; k" := (obind m (fun x => k))
  (at level 10, x pattern, m at level 99, k at level 200, only parsing) : cof_scope.
#[global] Open Scope cof_scope.

Create HintDb cof discriminated.

Lemma bind_Ok {A B} (a : A) (f : A -> outcome B) : obind (Ok a) f = f a.
Proof. reflexivity. Qed.

Lemma bind_Ok_inv {A B} (m : outcome A) (f : A -> outcome B) b :
  obind m f = Ok b -> exists a, m = Ok a /\ f a = Ok b.
Proof. destruct m; cbn; intros; try discriminate; eauto. Qed.

Lemma ensure_true b : b = true -> ensure b = Ok tt.
Proof. intros ->. reflexivity. Qed.

Lemma ensure_decide P `{Decision P} : P -> ensure (bool_decide P) = Ok tt.
Proof. intros HP. unfold ensure. rewrite bool_decide_eq_true_2; auto. Qed.

Lemma ensure_Ok_inv b u : ensure b = Ok u -> b = true.
Proof. destruct b; [done|discriminate]. Qed.

Lemma deref_Some {A} (o : option A) a : o = Some a -> deref o = Ok a.
Proof. intros ->. reflexivity. Qed.

(** ** Machine words *)

(** [wrap w x]: the value a [w]-bit unsigned integer holds after [x] is stored into it. *)
Definition wrap (w x : Z) : Z := x mod 2 ^ w.
Abbreviation w8 x := (wrap 8 x).
Abbreviation w16 x := (wrap 16 x).
Abbreviation w32 x := (wrap 32 x).
Abbreviation w64 x := (wrap 64 x).

Lemma wrap_range w x : 0 <= w -> 0 <= wrap w x < 2 ^ w.
Proof. intros. unfold wrap. apply Z.mod_pos_bound. apply Z.pow_pos_nonneg; lia. Qed.

Lemma wrap_small w x : 0 <= x < 2 ^ w -> wrap w x = x.
Proof. intros. unfold wrap. by apply Z.mod_small. Qed.

Lemma wrap_wrap w x : 0 <= w -> wrap w (wrap w x) = wrap w x.
Proof. intros. apply wrap_small. by apply wrap_range. Qed.

Lemma wrap_succ_pred w x : 0 <= x < 2 ^ w -> wrap w (wrap w (x + 1) - 1) = x.
Proof.
  intros. unfold wrap. rewrite Zminus_mod_idemp_l.
  replace (x + 1 - 1) with x by lia. by apply Z.mod_small.
Qed.

(** Conversion of a boolean to the integer C++ makes of it. *)
Definition b2z (b : bool) : Z := if b then 1 else 0.

(** Truth of an integer used as a condition. *)
Definition truth (x : Z) : bool := negb (x =? 0).

Lemma truth_pos x : 0 < x -> truth x = true.
Proof. intros. unfold truth. apply negb_true_iff, Z.eqb_neq. lia. Qed.

(** [align_down] and [align_up] of src/util/include/util.hpp, at the width [w] of their type. *)
Definition align_down (w value align : Z) : Z :=
  Z.land value (wrap w (Z.lnot (align - 1))).
Definition align_up (w value align : Z) : Z :=
  align_down w (wrap w (value + align - 1)) align.

Lemma land_low_mask x k : 0 <= k -> Z.land x (2 ^ k - 1) = x mod 2 ^ k.
Proof.
  intros. rewrite <- Z.land_ones by lia. f_equal. rewrite Z.ones_equiv. lia.
Qed.

Lemma align_down_pow2 w value k :
  0 <= k < w -> 0 <= value < 2 ^ w ->
  align_down w value (2 ^ k) = value / 2 ^ k * 2 ^ k.
Proof.
  intros Hk Hv. unfold align_down, wrap.
  rewrite <- Z.shiftr_div_pow2, <- Z.shiftl_mul_pow2 by lia.
  rewrite <- Z.land_ones by lia.
  apply Z.bits_inj'. intros i Hi.
  rewrite !Z.land_spec, Z.shiftl_spec, Z.testbit_ones_nonneg by lia.
  rewrite Z.lnot_spec by lia.
  replace (2 ^ k - 1) with (Z.ones k) by (rewrite Z.ones_equiv; lia).
  rewrite Z.testbit_ones_nonneg by lia.
  destruct (Z.ltb_spec i k); cbn.
  - rewrite andb_false_r. rewrite Z.testbit_neg_r by lia. done.
  - rewrite Z.shiftr_spec by lia. replace (i - k + k) with i by lia.
    destruct (Z.ltb_spec i w); cbn; [by rewrite andb_true_r|].
    rewrite andb_false_r. symmetry.
    destruct (Z.eq_dec value 0) as [->|]; [apply Z.testbit_0_l|].
    apply Z.bits_above_log2; [lia|].
    apply Z.lt_le_trans with w; [|lia]. apply Z.log2_lt_pow2; lia.
Qed.

Lemma align_up_pow2 w value k :
  0 <= k < w -> 0 <= value -> value + 2 ^ k - 1 < 2 ^ w ->
  align_up w value (2 ^ k) = (value + 2 ^ k - 1) / 2 ^ k * 2 ^ k.
Proof.
  intros Hk Hv Hm. unfold align_up.
  assert (0 < 2 ^ k) by (apply Z.pow_pos_nonneg; lia).
  rewrite wrap_small by lia. apply align_down_pow2; lia.
Qed.

(** ** Sorted lists *)

Lemma ssorted_app {A} (R : relation A) l1 l2 :
  StronglySorted R (l1 ++ l2) <->
  StronglySorted R l1 /\ StronglySorted R l2 /\ (forall a b, a ∈ l1 -> b ∈ l2 -> R a b).
Proof.
  induction l1 as [|x l1 IH]; cbn.
  - split; [|tauto]. intros Hs. split; [constructor|]. split; [done|].
    intros a b Ha. by apply elem_of_nil in Ha.
  - split.
    + intros Hs. inversion Hs as [|? ? Hs' Hf]; subst. apply IH in Hs' as (H1 & H2 & H3).
      rewrite Forall_forall in Hf. split; [|split; [done|]].
      * constructor; [done|]. apply Forall_forall. intros y Hy. apply Hf, elem_of_app. by left.
      * intros a b Ha Hb. apply elem_of_cons in Ha as [->|Ha]; [|by apply H3].
        apply Hf, elem_of_app. by right.
    + intros (H1 & H2 & H3). inversion H1 as [|? ? H1' Hf]; subst. constructor.
      * apply IH. split; [done|]. split; [done|]. intros a b Ha Hb. apply H3; [by right|done].
      * apply Forall_app. split; [done|]. apply Forall_forall. intros y Hy. apply H3; [by left|done].
Qed.

(** ** Tactics *)

(** Split conjunctions and existentials, substitute equations, discard absurd branches. *)
Ltac norm :=
  repeat match goal with
  | H : _ /\ _ |- _ => destruct H
  | H : exists _, _ |- _ => destruct H
  | H : Ok _ = Ok _ |- _ => injection H as H
  | H : Some _ = Some _ |- _ => injection H as H
  | H : (_, _) = (_, _) |- _ => injection H as ? ?
  | H : ensure _ = Ok _ |- _ => apply ensure_Ok_inv in H
  | H : obind _ _ = Ok _ |- _ => apply bind_Ok_inv in H
  | H : Bug = Ok _ |- _ => discriminate H
  | H : NoFuel = Ok _ |- _ => discriminate H
  | H : None = Some _ |- _ => discriminate H
  | H : Some _ = None |- _ => discriminate H
  end; subst.

(** Turn the boolean comparisons of the code into the propositions they decide. *)
Ltac bool_norm :=
  repeat match goal with
  | H : (_ && _)%bool = true |- _ => apply andb_true_iff in H; destruct H
  | H : (_ || _)%bool = false |- _ => apply orb_false_iff in H; destruct H
  | H : negb _ = true |- _ => apply negb_true_iff in H
  | H : negb _ = false |- _ => apply negb_false_iff in H
  | H : (_ <? _) = true |- _ => apply Z.ltb_lt in H
  | H : (_ <? _) = false |- _ => apply Z.ltb_ge in H
  | H : (_ <=? _) = true |- _ => apply Z.leb_le in H
  | H : (_ <=? _) = false |- _ => apply Z.leb_gt in H
  | H : (_ =? _) = true |- _ => apply Z.eqb_eq in H
  | H : (_ =? _) = false |- _ => apply Z.eqb_neq in H
  | H : bool_decide _ = true |- _ => apply bool_decide_eq_true in H
  | H : bool_decide _ = false |- _ => apply bool_decide_eq_false in H
  end.

(** Linear arithmetic with divisions and remainders by literals. *)
Ltac dlia := Z.to_euclidean_division_equations; lia.

(** Case analysis on the conditional that heads the goal. *)
Ltac case_if :=
  match goal with
  | |- context [if ?b then _ else _] =>
      match type of b with bool => let E := fresh "E" in destruct b eqn:E end
  end.
