(* ===== verification/Const.v ===== *)
(** * Constants of the machine layout (src/kernel/util/include/constant.hpp) *)

From S2P Require Import Prelude.

Definition PAGE_SIZE : Z := 0x1000.
Definition PAGE_MASK : Z := 0x0FFF.
Definition SECTOR_SIZE : Z := 0x200.
Definition SECTOR_MASK : Z := 0x1FF.

Definition HIGHADDR (x : Z) : Z := Z.lor 0xFFFF800000000000 (w64 x).
Definition LOWADDR (x : Z) : Z := Z.land 0x00007FFFFFFFFFFF (w64 x).
Definition IS_HIGHADDR (x : Z) : bool := Z.land (w64 x) (HIGHADDR 0) =? HIGHADDR 0.

Definition DIRECT_MAP_TOP : Z := 0xA000.
Definition BOOT_AREA_TOP : Z := 0x10000.
Definition PMMBMP_BASE : Z := HIGHADDR 0x00400000.
Definition PMMBMP_PT_PBASE : Z := DIRECT_MAP_TOP.

Definition PAGE_XD : Z := 2 ^ 63.
Definition PAGE_GLOBAL : Z := 0x100.
Definition PAGE_CD : Z := 0x10.
Definition PAGE_WT : Z := 0x08.
Definition PAGE_USER : Z := 0x04.
Definition PAGE_WRITE : Z := 0x02.
Definition PAGE_PRESENT : Z := 0x01.

(** The masks are the remainders they stand for. *)
Lemma land_PAGE_MASK x : Z.land x PAGE_MASK = x mod PAGE_SIZE.
Proof. exact (land_low_mask x 12 ltac:(lia)). Qed.

Lemma land_SECTOR_MASK x : Z.land x SECTOR_MASK = x mod SECTOR_SIZE.
Proof. exact (land_low_mask x 9 ltac:(lia)). Qed.
