(* ===== verification/Dll.v ===== *)
(** * Doubly linked chains in a store

    [linked_list] (src/util/include/linked_list.hpp) and [buddy_heap]
    (src/util/include/buddy_heap.hpp) both keep chains of nodes linked by [prev] and [next]
    pointers.  This file holds what they share: the node, the reads and writes through a pointer,
    and the segment predicate [seg] that says which nodes a chain runs through. *)

From S2P Require Import Prelude.

Section dll.
Context {K : Type} `{Countable K} {T : Type}.

Record node := Node { n_prev : option K; n_next : option K; n_data : T }.

Abbreviation mem := (gmap K node).

(** Writes through a pointer: [p->prev = v] and [p->next = v]. *)
Definition set_prev (p : K) (v : option K) (m : mem) : outcome mem :=
  let! nd := deref (m !! p); Ok (<[p := Node v (n_next nd) (n_data nd)]> m).
Definition set_next (p : K) (v : option K) (m : mem) : outcome mem :=
  let! nd := deref (m !! p); Ok (<[p := Node (n_prev nd) v (n_data nd)]> m).

(** Where a chain starts, and where it ends, when [d] stands before or after it. *)
Definition hd_or (l : list (K * T)) (d : option K) : option K :=
  match l with [] => d | (k, _) :: _ => Some k end.
Definition last_or (d : option K) (l : list (K * T)) : option K :=
  match last l with Some (k, _) => Some k | None => d end.

(** [seg m p l n]: the nodes [l] are chained in [m], [p] stands before the first and [n] after
    the last. *)
Fixpoint seg (m : mem) (p : option K) (l : list (K * T)) (n : option K) : Prop :=
  match l with
  | [] => True
  | (k, x) :: l' => m !! k = Some (Node p (hd_or l' n) x) /\ seg m (Some k) l' n
  end.

Lemma hd_or_app l1 l2 d : hd_or (l1 ++ l2) d = hd_or l1 (hd_or l2 d).
Proof. destruct l1 as [|[??]?]; reflexivity. Qed.

Lemma last_or_snoc d l k x : last_or d (l ++ [(k, x)]) = Some k.
Proof. unfold last_or. by rewrite last_snoc. Qed.

Lemma last_or_cons d k x l : last_or d ((k, x) :: l) = last_or (Some k) l.
Proof.
  unfold last_or. destruct l as [|y l] using rev_ind; [done|].
  rewrite app_comm_cons, !last_snoc. done.
Qed.

Lemma last_or_app d l1 l2 : last_or d (l1 ++ l2) = last_or (last_or d l1) l2.
Proof.
  revert d. induction l1 as [|[k x] l1 IH]; intros d; [done|].
  cbn [app]. by rewrite !last_or_cons, IH.
Qed.

Lemma seg_app m p l1 l2 n :
  seg m p (l1 ++ l2) n <-> seg m p l1 (hd_or l2 n) /\ seg m (last_or p l1) l2 n.
Proof.
  revert p. induction l1 as [|[k x] l1 IH]; intros p; cbn [app seg].
  - unfold last_or; cbn. tauto.
  - rewrite last_or_cons, hd_or_app, IH. tauto.
Qed.

Lemma seg_frame (m m' : mem) p l n :
  (forall k, k ∈ l.*1 -> m' !! k = m !! k) -> seg m p l n -> seg m' p l n.
Proof.
  revert p. induction l as [|[k x] l IH]; intros p Hf Hs; [done|].
  cbn in *. destruct Hs as [Hk Hs]. split.
  - rewrite Hf by set_solver. done.
  - apply IH; [|done]. intros. apply Hf. set_solver.
Qed.

Lemma seg_insert m p l n k v : k ∉ l.*1 -> seg m p l n -> seg (<[k := v]> m) p l n.
Proof.
  intros Hk. apply seg_frame. intros k' Hk'. rewrite lookup_insert_ne; [done|].
  set_solver.
Qed.

Lemma seg_delete m p l n k : k ∉ l.*1 -> seg m p l n -> seg (delete k m) p l n.
Proof.
  intros Hk. apply seg_frame. intros k' Hk'. rewrite lookup_delete_ne; [done|].
  set_solver.
Qed.

Lemma seg_lookup m p l1 k x l2 n :
  seg m p (l1 ++ (k, x) :: l2) n -> m !! k = Some (Node (last_or p l1) (hd_or l2 n) x).
Proof. rewrite seg_app. cbn. tauto. Qed.

Lemma seg_in_dom m p l n k : seg m p l n -> k ∈ l.*1 -> is_Some (m !! k).
Proof.
  revert p. induction l as [|[k' x] l IH]; intros p Hs Hk; cbn in *; [set_solver|].
  destruct Hs as [H1 H2]. apply elem_of_cons in Hk as [->|Hk]; eauto.
Qed.

(** Redirecting what stands after a non-empty chain. *)
Lemma seg_set_next_last m p l k x n n' :
  k ∉ l.*1 -> seg m p (l ++ [(k, x)]) n ->
  exists m', set_next k n' m = Ok m' /\ seg m' p (l ++ [(k, x)]) n' /\
    (forall j, j <> k -> m' !! j = m !! j).
Proof.
  intros Hk Hs. pose proof (seg_lookup _ _ _ _ _ _ _ Hs) as Hl.
  apply seg_app in Hs as [Hs _].
  unfold set_next. rewrite Hl. cbn. eexists. split; [done|]. split.
  - apply seg_app. split.
    + apply seg_insert; [done|]. done.
    + cbn. by rewrite lookup_insert_eq.
  - intros j Hj. by rewrite lookup_insert_ne by congruence.
Qed.

(** Redirecting what stands before a non-empty chain. *)
Lemma seg_set_prev_first m p k x l n p' :
  k ∉ l.*1 -> seg m p ((k, x) :: l) n ->
  exists m', set_prev k p' m = Ok m' /\ seg m' p' ((k, x) :: l) n /\
    (forall j, j <> k -> m' !! j = m !! j).
Proof.
  intros Hk [Hl Hs]. unfold set_prev. rewrite Hl. cbn. eexists. split; [done|]. split.
  - split; [by rewrite lookup_insert_eq|]. by apply seg_insert.
  - intros j Hj. by rewrite lookup_insert_ne by congruence.
Qed.

(** Writes through a pointer that may be null. *)
Definition fix_prev (o : option K) (v : option K) (m : mem) : outcome mem :=
  match o with Some k => set_prev k v m | None => Ok m end.
Definition fix_next (o : option K) (v : option K) (m : mem) : outcome mem :=
  match o with Some k => set_next k v m | None => Ok m end.

Lemma seg_fix_prev m p l n p' d :
  NoDup l.*1 -> seg m p l n ->
  exists m', fix_prev (hd_or l None) p' m = Ok m' /\ seg m' p' l n /\
    (forall j, hd_or l d <> Some j \/ l = [] -> m' !! j = m !! j).
Proof.
  intros Hd Hs. destruct l as [|[k x] l]; [by exists m|].
  destruct (seg_set_prev_first m p k x l n p') as (m' & E & Hs' & Hf);
    [by apply NoDup_cons in Hd as [? _]|done|].
  exists m'. split; [done|]. split; [done|]. intros j [Hj|Hj]; [|done]. apply Hf.
  cbn in Hj. congruence.
Qed.

Lemma seg_fix_next m p l n n' :
  NoDup l.*1 -> seg m p l n ->
  exists m', fix_next (last_or None l) n' m = Ok m' /\ seg m' p l n' /\
    (forall j, j ∉ l.*1 -> m' !! j = m !! j).
Proof.
  intros Hd Hs. destruct l as [|[k x] l _] using rev_ind; [by exists m|].
  destruct (seg_set_next_last m p l k x n n') as (m' & E & Hs' & Hf); [|done|].
  { rewrite fmap_app in Hd. apply NoDup_app in Hd as (_ & Hd & _). intros Hk.
    by apply (Hd k Hk), list_elem_of_singleton. }
  rewrite last_or_snoc. exists m'. split; [done|]. split; [done|]. intros j Hj. apply Hf.
  intros ->. apply Hj. rewrite fmap_app. apply elem_of_app. right. by left.
Qed.

Lemma hd_or_elem (l : list (K * T)) k : hd_or l None = Some k -> k ∈ l.*1.
Proof. destruct l as [|[]]; cbn; [done|]. intros [= ->]. by left. Qed.

Lemma last_or_elem (l : list (K * T)) k : last_or None l = Some k -> k ∈ l.*1.
Proof.
  destruct l as [|[k' x] l _] using rev_ind; [done|]. rewrite last_or_snoc. intros [= ->].
  rewrite fmap_app. apply elem_of_app. right. by left.
Qed.

(** Taking one node out of a chain: its neighbours are redirected to each other. *)
Lemma seg_unlink m l1 k x l2 :
  NoDup (l1 ++ (k, x) :: l2).*1 -> seg m None (l1 ++ (k, x) :: l2) None ->
  exists m1 m2, fix_prev (hd_or l2 None) (last_or None l1) m = Ok m1 /\
    fix_next (last_or None l1) (hd_or l2 None) m1 = Ok m2 /\
    seg m2 None (l1 ++ l2) None /\
    (forall j, j ∉ l2.*1 -> m1 !! j = m !! j) /\
    (forall j, j ∉ l1.*1 -> m2 !! j = m1 !! j).
Proof.
  intros Hd Hs. apply seg_app in Hs as [Hs1 [_ Hs2]].
  rewrite fmap_app in Hd. apply NoDup_app in Hd as (Hd1 & Hd12 & Hd2).
  cbn [fmap list_fmap fst] in Hd2. apply NoDup_cons in Hd2 as [Hk2 Hd2].
  destruct (seg_fix_prev m _ l2 None (last_or None l1) None Hd2 Hs2) as (m1 & E1 & Hs2' & Hf1).
  assert (Hf1' : forall j, j ∉ l2.*1 -> m1 !! j = m !! j).
  { intros j Hj. apply Hf1. destruct l2 as [|[k2 x2] l2]; [by right|left]. cbn.
    intros [= ->]. apply Hj. by left. }
  assert (Hs1' : seg m1 None l1 (Some k)).
  { apply (seg_frame m); [|done]. intros j Hj. apply Hf1'. intros Hj2. apply (Hd12 j Hj).
    cbn. by right. }
  destruct (seg_fix_next m1 None l1 (Some k) (hd_or l2 None) Hd1 Hs1') as (m2 & E2 & Hs1'' & Hf2).
  exists m1, m2. split; [done|]. split; [done|]. split; [|done].
  apply seg_app. split; [done|]. apply (seg_frame m1); [|done]. intros j Hj. apply Hf2.
  intros Hj1. apply (Hd12 j Hj1). cbn. by right.
Qed.

(** Putting a node that is not in a chain between two parts of it. *)
Lemma seg_link m l1 k x l2 :
  NoDup (l1 ++ l2).*1 -> k ∉ (l1 ++ l2).*1 -> seg m None (l1 ++ l2) None ->
  exists m1 m2,
    fix_prev (hd_or l2 None) (Some k) (<[k := Node (last_or None l1) (hd_or l2 None) x]> m) = Ok m1 /\
    fix_next (last_or None l1) (Some k) m1 = Ok m2 /\
    seg m2 None (l1 ++ (k, x) :: l2) None /\
    (forall j, j <> k -> j ∉ l2.*1 -> m1 !! j = m !! j) /\
    (forall j, j ∉ l1.*1 -> m2 !! j = m1 !! j).
Proof.
  intros Hd Hk Hs. apply seg_app in Hs as [Hs1 Hs2].
  rewrite fmap_app in Hd, Hk. apply NoDup_app in Hd as (Hd1 & Hd12 & Hd2).
  apply not_elem_of_app in Hk as [Hk1 Hk2].
  set (m0 := <[k := _]> m).
  assert (Hs2' : seg m0 (last_or None l1) l2 None) by (by apply seg_insert).
  destruct (seg_fix_prev m0 _ l2 None (Some k) None Hd2 Hs2') as (m1 & E1 & Hs2'' & Hf1).
  assert (Hf1' : forall j, j ∉ l2.*1 -> m1 !! j = m0 !! j).
  { intros j Hj. apply Hf1. destruct l2 as [|[k2 x2] l2]; [by right|left]. cbn.
    intros [= ->]. apply Hj. by left. }
  assert (Hs1' : seg m1 None l1 (hd_or l2 None)).
  { apply (seg_frame m); [|done]. intros j Hj. rewrite Hf1' by (by apply Hd12).
    unfold m0. rewrite lookup_insert_ne; [done|]. by intros ->. }
  destruct (seg_fix_next m1 None l1 _ (Some k) Hd1 Hs1') as (m2 & E2 & Hs1'' & Hf2).
  exists m1, m2. split; [done|]. split; [done|]. split; [|split; [|done]].
  - apply seg_app. split; [done|]. cbn [seg]. split.
    + rewrite Hf2 by done. rewrite Hf1' by done. unfold m0. by rewrite lookup_insert_eq.
    + apply (seg_frame m1); [|done]. intros j Hj. apply Hf2. intros Hj1.
      by apply (Hd12 j).
  - intros j Hj Hj2. rewrite Hf1' by done. unfold m0. by rewrite lookup_insert_ne.
Qed.
End dll.

Arguments node : clear implicits.
Arguments Node {K T} _ _ _.
