(* ===== verification/LinkedList.v ===== *)
(** * The doubly linked list (src/util/include/linked_list.hpp)

    Lists and nodes live in one store, as in the program: a node is moved from one list to another
    by [get_node]/[put_node]/[splice] without being copied, and an iterator is the address of its
    list with the address of a node.  [lrep] relates the store to the sequence of nodes a list
    holds; the theorems say what each operation does to that sequence, that every [assert] of the
    code holds, and that the nodes of other lists are left alone. *)

From S2P Require Import Prelude Dll.

Abbreviation loc := positive.

(** The fields of a [linked_list] object. *)
Record llist := LList { head : option loc; tail : option loc; count : Z }.

(** An [iterator_base]: the list it belongs to and the node it points to. *)
Record iterator := Iter { owner : option loc; ptr : option loc }.

Section linked_list.
Context {T : Type}.

Record store := Store { nodes : gmap loc (node loc T); lists : gmap loc llist }.

Definition list_at (s : store) (this : loc) : outcome llist := deref (lists s !! this).
Definition put_list (this : loc) (l : llist) (s : store) : store :=
  Store (nodes s) (<[this := l]> (lists s)).
Definition on_nodes (f : gmap loc (node loc T) -> outcome (gmap loc (node loc T)))
  (s : store) : outcome store := let! m := f (nodes s); Ok (Store m (lists s)).

Definition set_head (this : loc) (v : option loc) (s : store) : outcome store :=
  let! l := list_at s this; Ok (put_list this (LList v (tail l) (count l)) s).
Definition set_tail (this : loc) (v : option loc) (s : store) : outcome store :=
  let! l := list_at s this; Ok (put_list this (LList (head l) v (count l)) s).
(** [count] is a [dword]: it wraps. *)
Definition set_count (this : loc) (d : Z) (s : store) : outcome store :=
  let! l := list_at s this; Ok (put_list this (LList (head l) (tail l) (w32 (count l + d))) s).

Definition is_null (p : option loc) : bool := match p with None => true | Some _ => false end.
Definition ptr_eq (p q : option loc) : bool := bool_decide (p = q).

(** ** Iterators *)

(** [iterator_base::operator++] *)
Definition iter_incr (it : iterator) (s : store) : outcome iterator :=
  match ptr it with
  | None => Bug
  | Some p => let! nd := deref (nodes s !! p); Ok (Iter (owner it) (n_next nd))
  end.

(** [iterator_base::operator--] *)
Definition iter_decr (it : iterator) (s : store) : outcome iterator :=
  let from_tail :=
    match owner it with
    | None => Bug
    | Some o =>
        let! l := list_at s o;
        if truth (count l) then Ok (Iter (owner it) (tail l)) else Bug
    end in
  match ptr it with
  | None => from_tail
  | Some p =>
      let! nd := deref (nodes s !! p);
      match n_prev nd with
      | Some q => Ok (Iter (owner it) (Some q))
      | None => from_tail
      end
  end.

(** [iterator_base::operator==]: comparing iterators of different lists stops the machine. *)
Definition iter_eq (a b : iterator) : outcome bool :=
  if ptr_eq (owner a) (owner b) then Ok (ptr_eq (ptr a) (ptr b)) else Bug.

(** [iterator_base::operator*] *)
Definition iter_deref (it : iterator) (s : store) : outcome T :=
  match ptr it with
  | None => Bug
  | Some p => let! nd := deref (nodes s !! p); Ok (n_data nd)
  end.

Definition begin_ (this : loc) (s : store) : outcome iterator :=
  let! l := list_at s this; Ok (Iter (Some this) (head l)).
Definition end_ (this : loc) : iterator := Iter (Some this) None.

Definition size (this : loc) (s : store) : outcome Z :=
  let! l := list_at s this; Ok (count l).
Definition empty (this : loc) (s : store) : outcome bool :=
  let! l := list_at s this; Ok (count l =? 0).

(** [front] and [back]: the payload of the first and of the last node. *)
Definition front (this : loc) (s : store) : outcome T :=
  let! l := list_at s this;
  if truth (count l) then
    assert! (negb (is_null (head l)) && negb (is_null (tail l)));
    let! p := deref (head l); let! nd := deref (nodes s !! p); Ok (n_data nd)
  else Bug.
Definition back (this : loc) (s : store) : outcome T :=
  let! l := list_at s this;
  if truth (count l) then
    assert! (negb (is_null (head l)) && negb (is_null (tail l)));
    let! p := deref (tail l); let! nd := deref (nodes s !! p); Ok (n_data nd)
  else Bug.

(** ** Linking and unlinking *)

(** [put_node]: link the node [cur] before the position [it]. *)
Definition put_node (this : loc) (it : iterator) (cur : loc) (s : store) : outcome store :=
  if negb (ptr_eq (owner it) (Some this)) then Bug else
  let! s :=
    match ptr it with
    | Some pos =>
        let! np := deref (nodes s !! pos);
        let! s := on_nodes (set_prev cur (n_prev np)) s;
        let! s := on_nodes (set_next cur (Some pos)) s;
        let! np := deref (nodes s !! pos);
        let! s :=
          match n_prev np with
          | Some pp => on_nodes (set_next pp (Some cur)) s
          | None =>
              let! l := list_at s this;
              assert! ptr_eq (Some pos) (head l);
              set_head this (Some cur) s
          end;
        on_nodes (set_prev pos (Some cur)) s
    | None =>
        let! s := on_nodes (set_next cur None) s;
        let! l := list_at s this;
        if truth (count l) then
          assert! (negb (is_null (head l)) && negb (is_null (tail l)));
          let! t := deref (tail l);
          let! nt := deref (nodes s !! t);
          assert! is_null (n_next nt);
          let! s := on_nodes (set_next t (Some cur)) s;
          let! s := on_nodes (set_prev cur (Some t)) s;
          set_tail this (Some cur) s
        else
          assert! (is_null (head l) && is_null (tail l));
          let! s := on_nodes (set_prev cur None) s;
          let! s := set_tail this (Some cur) s;
          set_head this (Some cur) s
    end;
  set_count this 1 s.

(** [get_node]: unlink the node the iterator points to and hand it over. *)
Definition get_node (this : loc) (it : iterator) (s : store) : outcome (loc * store) :=
  if negb (ptr_eq (owner it) (Some this)) then Bug else
  match ptr it with
  | None => Bug
  | Some pos =>
      let! np := deref (nodes s !! pos);
      let! s :=
        match n_prev np with
        | Some pp => on_nodes (set_next pp (n_next np)) s
        | None =>
            let! l := list_at s this;
            assert! ptr_eq (Some pos) (head l);
            set_head this (n_next np) s
        end;
      let! np := deref (nodes s !! pos);
      let! s :=
        match n_next np with
        | Some pn => on_nodes (set_prev pn (n_prev np)) s
        | None =>
            let! l := list_at s this;
            assert! ptr_eq (Some pos) (tail l);
            set_tail this (n_prev np) s
        end;
      let! s := set_count this (-1) s;
      Ok (pos, s)
  end.

(** [new node(args)]: a fresh node, not linked yet; [delete]: its memory goes away. *)
Definition new_node (x : T) (s : store) : loc * store :=
  let p := fresh (dom (nodes s)) in
  (p, Store (<[p := Node None None x]> (nodes s)) (lists s)).
Definition delete_node (p : loc) (s : store) : store := Store (delete p (nodes s)) (lists s).

(** ** The operations built on them *)

Definition push_back (this : loc) (x : T) (s : store) : outcome store :=
  let (p, s) := new_node x s in put_node this (end_ this) p s.
Definition push_front (this : loc) (x : T) (s : store) : outcome store :=
  let (p, s) := new_node x s in
  let! it := begin_ this s; put_node this it p s.
Definition insert (this : loc) (pos : iterator) (x : T) (s : store)
  : outcome (iterator * store) :=
  let (p, s) := new_node x s in
  let! s := put_node this pos p s; Ok (Iter (Some this) (Some p), s).

Definition pop_back (this : loc) (s : store) : outcome store :=
  let! l := list_at s this;
  if truth (count l) then
    assert! (negb (is_null (head l)) && negb (is_null (tail l)));
    let! cur := deref (tail l);
    let! nt := deref (nodes s !! cur);
    assert! is_null (n_next nt);
    let! s :=
      match n_prev nt with
      | Some pp =>
          assert! (1 <? count l);
          let! np := deref (nodes s !! pp);
          assert! ptr_eq (n_next np) (Some cur);
          let! s := set_tail this (Some pp) s;
          on_nodes (set_next pp None) s
      | None =>
          assert! (count l =? 1);
          assert! ptr_eq (head l) (tail l);
          let! s := set_tail this None s;
          set_head this None s
      end;
    set_count this (-1) (delete_node cur s)
  else Bug.

Definition pop_front (this : loc) (s : store) : outcome store :=
  let! l := list_at s this;
  if truth (count l) then
    assert! (negb (is_null (head l)) && negb (is_null (tail l)));
    let! cur := deref (head l);
    let! nh := deref (nodes s !! cur);
    assert! is_null (n_prev nh);
    let! s :=
      match n_next nh with
      | Some pn =>
          assert! (1 <? count l);
          let! nn := deref (nodes s !! pn);
          assert! ptr_eq (n_prev nn) (Some cur);
          let! s := set_head this (Some pn) s;
          on_nodes (set_prev pn None) s
      | None =>
          assert! (count l =? 1);
          assert! ptr_eq (head l) (tail l);
          let! s := set_tail this None s;
          set_head this None s
      end;
    set_count this (-1) (delete_node cur s)
  else Bug.

(** [while(count) pop_back();] the fuel is the value of [count]. *)
Fixpoint clear_loop (fuel : nat) (this : loc) (s : store) : outcome store :=
  let! l := list_at s this;
  if truth (count l) then
    match fuel with
    | O => NoFuel
    | S fuel => let! s := pop_back this s; clear_loop fuel this s
    end
  else Ok s.
Definition clear (this : loc) (s : store) : outcome store :=
  let! l := list_at s this; clear_loop (Z.to_nat (count l)) this s.

Definition erase (this : loc) (pos : iterator) (s : store) : outcome (iterator * store) :=
  if negb (ptr_eq (owner pos) (Some this)) then Bug else
  let! e := iter_eq pos (end_ this);
  if e then Bug else
  let! l := list_at s this;
  assert! (truth (count l) && negb (is_null (head l)) && negb (is_null (tail l)));
  let! p := deref (ptr pos);
  let! nd := deref (nodes s !! p);
  let next := n_next nd in
  let! r := get_node this pos s;
  let s := delete_node (fst r) (snd r) in
  let! l := list_at s this;
  assert! (truth (count l) || (is_null (head l) && is_null (tail l)));
  Ok (Iter (Some this) next, s).

Definition splice (this : loc) (pos : iterator) (other : loc) (it : iterator) (s : store)
  : outcome store :=
  if negb (ptr_eq (owner pos) (Some this)) then Bug else
  if negb (ptr_eq (owner it) (Some other)) then Bug else
  let! e := iter_eq it (end_ other);
  if e then Bug else
  let! l := list_at s other;
  assert! (truth (count l) && negb (is_null (head l)) && negb (is_null (tail l)));
  let! r := get_node other it s;
  put_node this pos (fst r) (snd r).

(** The move constructor: a fresh (zero) list swaps its fields with [other]. *)
Definition move_from (this other : loc) (s : store) : outcome store :=
  let! o := list_at s other;
  Ok (put_list other (LList None None 0) (put_list this o s)).

(** The copy constructor: [for (const auto& ele : other) push_back(ele);] *)
Fixpoint copy_loop (fuel : nat) (this : loc) (it : iterator) (s : store) : outcome store :=
  match ptr it with
  | None => Ok s
  | Some _ =>
      match fuel with
      | O => NoFuel
      | S fuel =>
          let! x := iter_deref it s;
          let! s := push_back this x s;
          let! it := iter_incr it s;
          copy_loop fuel this it s
      end
  end.
Definition copy_from (this other : loc) (s : store) : outcome store :=
  let s := put_list this (LList None None 0) s in
  let! o := list_at s other;
  let! it := begin_ other s;
  copy_loop (Z.to_nat (count o)) this it s.
End linked_list.

Arguments store : clear implicits.

(** ** What a list holds *)

Section specs.
Context {T : Type}.
Implicit Types (s : store T) (l : list (loc * T)).

(** [lrep s this l]: the list object at [this] holds the nodes [l], in this order. *)
Definition lrep s (this : loc) l : Prop :=
  lists s !! this = Some (LList (hd_or l None) (last_or None l) (Z.of_nat (length l))) /\
  seg (nodes s) None l None /\ NoDup l.*1 /\ Z.of_nat (length l) < 2 ^ 32.

(** Only the list [this] and the nodes in [X] may differ between the two stores. *)
Definition frame (this : loc) (X : loc -> Prop) s s' : Prop :=
  (forall k, ~ X k -> nodes s' !! k = nodes s !! k) /\
  (forall o, o <> this -> lists s' !! o = lists s !! o).

Lemma frame_lrep this X s s' o l :
  frame this X s s' -> o <> this -> (forall k, k ∈ l.*1 -> ~ X k) ->
  lrep s o l -> lrep s' o l.
Proof.
  intros [Hn Hl] Ho HX (H1 & H2 & H3 & H4). repeat split; try done.
  - by rewrite Hl.
  - eapply seg_frame; [|done]. intros. apply Hn. auto.
Qed.

(** Evaluate the code on a store whose lookups are known. *)
Lemma ptr_eq_refl p : ptr_eq p p = true.
Proof. unfold ptr_eq. by rewrite bool_decide_eq_true_2. Qed.

Lemma truth_nil {A} : truth (Z.of_nat (length (@nil A))) = false.
Proof. done. Qed.

Lemma len1_eqb {A} : (Z.of_nat (S (length (@nil A))) =? 1) = true.
Proof. done. Qed.

Lemma last_or_nil (d : option loc) : last_or d (@nil (loc * T)) = d.
Proof. done. Qed.

Lemma truth_length {A} (x : A) (l1 : list A) : truth (Z.of_nat (length (x :: l1))) = true.
Proof. unfold truth. apply negb_true_iff, Z.eqb_neq. cbn [length]. lia. Qed.

Ltac run_step :=
  first
    [ progress cbn [obind ensure deref negb andb orb is_null nodes lists head tail count owner ptr
                    n_prev n_next n_data hd_or seg fst snd]
    | rewrite ptr_eq_refl
    | rewrite truth_length
    | rewrite truth_nil
    | rewrite len1_eqb
    | rewrite last_or_nil
    | rewrite last_or_snoc
    | progress unfold set_head, set_tail, set_count, put_list, list_at, on_nodes,
        set_prev, set_next, delete_node
    | rewrite lookup_insert_eq
    | rewrite lookup_insert_ne by congruence
    | match goal with H : ?m !! ?k = Some _ |- context [?m !! ?k] => rewrite H end ].
Ltac run := repeat run_step.

Lemma wrap_len_succ (n : nat) : Z.of_nat (S n) < 2 ^ 32 -> w32 (Z.of_nat n + 1) = Z.of_nat (S n).
Proof. intros. rewrite wrap_small; lia. Qed.

Lemma wrap_len_pred (n : nat) : Z.of_nat (S n) < 2 ^ 32 -> w32 (Z.of_nat (S n) + -1) = Z.of_nat n.
Proof. intros. rewrite wrap_small; lia. Qed.

Lemma nodup_middle l1 c (x : T) l2 :
  NoDup (l1 ++ (c, x) :: l2).*1 <-> c ∉ (l1 ++ l2).*1 /\ NoDup (l1 ++ l2).*1.
Proof. rewrite <- Permutation_middle. cbn. apply NoDup_cons. Qed.

Lemma elem_middle l1 c (x : T) l2 k :
  k ∈ (l1 ++ (c, x) :: l2).*1 <-> k = c \/ k ∈ (l1 ++ l2).*1.
Proof. rewrite <- Permutation_middle. cbn. apply elem_of_cons. Qed.

Lemma length_middle l1 (a : loc * T) l2 :
  length (l1 ++ a :: l2) = S (length (l1 ++ l2)).
Proof. rewrite !length_app. cbn. lia. Qed.

Lemma elem_app_fst l1 l2 (k : loc) :
  k ∈ (l1 ++ l2 : list (loc * T)).*1 <-> k ∈ l1.*1 \/ k ∈ l2.*1.
Proof. rewrite fmap_app. apply elem_of_app. Qed.

Ltac frame_tac :=
  split; cbn [nodes lists];
  [ let k := fresh "k" in let Hk := fresh "Hk" in
    intros k Hk; rewrite ?elem_middle, ?elem_app_fst in Hk; cbn in Hk;
    rewrite ?lookup_insert_ne; set_solver
  | intros; rewrite ?lookup_insert_ne; auto ].
Ltac seg_ins := repeat (apply seg_insert; [set_solver|]); try done.

Lemma put_node_end s this l cur p0 n0 x :
  lrep s this l -> Z.of_nat (S (length l)) < 2 ^ 32 -> cur ∉ l.*1 ->
  nodes s !! cur = Some (Node p0 n0 x) ->
  exists s', put_node this (end_ this) cur s = Ok s' /\ lrep s' this (l ++ [(cur, x)]) /\
    frame this (fun k => k = cur \/ k ∈ l.*1) s s'.
Proof.
  intros (Hl & Hs & Hnd & _) Hlen Hcur Hc.
  destruct l as [|[t y] l _] using rev_ind.
  - unfold put_node, end_. rewrite last_or_nil in Hl. run.
    eexists. split; [done|]. repeat split; cbn; try set_solver; run; try done.
    + apply NoDup_singleton.
    + intros k Hk. rewrite !lookup_insert_ne; auto.
    + intros o Ho. rewrite !lookup_insert_ne; auto.
  - rewrite fmap_app in Hcur, Hnd. cbn in Hcur.
    assert (Hct : cur <> t) by set_solver.
    apply NoDup_app in Hnd as (Hnd & Hd & _).
    assert (Hnt : nodes s !! t = Some (Node (last_or None l) None y)) by
      (eapply (seg_lookup _ _ l t y [] None); eassumption).
    rewrite last_or_snoc in Hl.
    assert (Hh : is_null (hd_or (l ++ [(t, y)]) None) = false) by (by destruct l as [|[]]).
    unfold put_node, end_. run.
    assert (truth (Z.of_nat (length (l ++ [(t, y)]))) = true) as ->.
    { rewrite length_app. unfold truth. apply negb_true_iff, Z.eqb_neq. cbn. lia. }
    rewrite Hh. run.
    eexists. split; [done|]. repeat split; cbn.
    + rewrite lookup_insert_eq. rewrite last_or_snoc, hd_or_app.
      rewrite !length_app in *. cbn [length] in *. f_equal. f_equal.
      * destruct l as [|[]]; done.
      * rewrite wrap_small; lia.
    + apply seg_app in Hs as [Hs _]. apply seg_app. split; cycle 1.
      { rewrite last_or_snoc. cbn. run. done. }
      apply seg_app. split; cycle 1.
      { cbn. run. done. }
      cbn in Hs |- *. repeat (apply seg_insert; [set_solver|]). done.
    + rewrite fmap_app. apply NoDup_app. split; [|split].
      * rewrite fmap_app. apply NoDup_app; split; [done|split; [done|]].
        apply NoDup_singleton.
      * rewrite fmap_app. cbn. intros k Hk. set_solver.
      * apply NoDup_singleton.
    + rewrite !length_app in *. cbn in *. lia.
    + intros k Hk. rewrite fmap_app in Hk. rewrite !lookup_insert_ne; set_solver.
    + intros o Ho. rewrite !lookup_insert_ne; auto.
Qed.

Lemma put_node_mid s this l1 pos y l2 cur p0 n0 x :
  lrep s this (l1 ++ (pos, y) :: l2) ->
  Z.of_nat (S (length (l1 ++ (pos, y) :: l2))) < 2 ^ 32 ->
  cur ∉ (l1 ++ (pos, y) :: l2).*1 ->
  nodes s !! cur = Some (Node p0 n0 x) ->
  exists s', put_node this (Iter (Some this) (Some pos)) cur s = Ok s' /\
    lrep s' this (l1 ++ (cur, x) :: (pos, y) :: l2) /\
    frame this (fun k => k = cur \/ k ∈ (l1 ++ (pos, y) :: l2).*1) s s'.
Proof.
  intros (Hl & Hs & Hnd & _) Hlen Hcur Hc.
  pose proof (seg_lookup _ _ _ _ _ _ _ Hs) as Hpos.
  assert (Hcp : cur <> pos) by (intros ->; apply Hcur, elem_middle; auto).
  pose proof Hnd as [Hpn _]%nodup_middle.
  pose proof Hs as [Hs1 [_ Hs2]]%seg_app.
  assert (Hfin : NoDup (l1 ++ (cur, x) :: (pos, y) :: l2).*1) by (apply nodup_middle; auto).
  rewrite last_or_app, last_or_cons in Hl. cbn [hd_or] in *.
  destruct l1 as [|[pp z] l1 _] using rev_ind.
  - rewrite last_or_nil in *. cbn [app] in *. cbn in Hcur.
    unfold put_node. run.
    eexists. split; [done|]. split; [split; [|split; [|split]]|split]; cbn.
    + rewrite lookup_insert_eq, !last_or_cons, wrap_small by (cbn in *; lia).
      do 2 f_equal. cbn. lia.
    + run. split; [done|split; [done|]]. seg_ins.
    + done.
    + done.
    + intros k Hk. rewrite !lookup_insert_ne; set_solver.
    + intros o Ho. rewrite !lookup_insert_ne; auto.
  - rewrite last_or_snoc in *. rewrite elem_middle, !elem_app_fst in Hcur.
    rewrite !elem_app_fst in Hpn. cbn in Hcur, Hpn.
    assert (Hcpp : cur <> pp) by set_solver.
    assert (Hppos : pp <> pos) by set_solver.
    pose proof Hs1 as [Hs11 [Hpp _]]%seg_app. cbn [hd_or] in *.
    rewrite <- app_assoc in Hnd. apply nodup_middle in Hnd as [Hppn _].
    rewrite elem_middle, !elem_app_fst in Hppn.
    assert (Hh : hd_or ((l1 ++ [(pp, z)]) ++ (pos, y) :: l2) None =
                 hd_or ((l1 ++ [(pp, z)]) ++ (cur, x) :: (pos, y) :: l2) None)
      by (by destruct l1 as [|[]]).
    unfold put_node. run.
    eexists. split; [done|]. split; [split; [|split; [|split]]|split]; cbn [nodes lists].
    + rewrite lookup_insert_eq, !last_or_app, !last_or_cons, Hh.
      rewrite wrap_len_succ by done. by rewrite !length_middle.
    + apply seg_app. split; [|split; [|split]].
      * apply seg_app. split.
        -- cbn [hd_or] in *. seg_ins.
        -- cbn [hd_or seg]. run. done.
      * rewrite last_or_snoc. run. done.
      * run. done.
      * seg_ins.
    + done.
    + by rewrite !length_middle in *.
    + intros k Hk. rewrite elem_middle, !elem_app_fst in Hk. cbn in Hk.
      rewrite !lookup_insert_ne; set_solver.
    + intros o Ho. rewrite !lookup_insert_ne; auto.
Qed.

Lemma get_node_spec s this l1 pos x l2 :
  lrep s this (l1 ++ (pos, x) :: l2) ->
  exists s', get_node this (Iter (Some this) (Some pos)) s = Ok (pos, s') /\
    lrep s' this (l1 ++ l2) /\ (exists p n, nodes s' !! pos = Some (Node p n x)) /\
    frame this (fun k => k ∈ (l1 ++ (pos, x) :: l2).*1) s s'.
Proof.
  intros (Hl & Hs & Hnd & Hlen).
  pose proof (seg_lookup _ _ _ _ _ _ _ Hs) as Hpos.
  pose proof Hnd as [Hpn Hnd2]%nodup_middle. rewrite !elem_app_fst in Hpn.
  pose proof Hs as [Hs1 [_ Hs2]]%seg_app.
  rewrite length_middle in Hl, Hlen. rewrite last_or_app, last_or_cons in Hl.
  destruct l1 as [|[pp z] l1 _] using rev_ind.
  - cbn [hd_or app] in *. rewrite last_or_nil in *.
    destruct l2 as [|[pn y] l2]; unfold get_node; run.
    + eexists. split; [done|]. split; [split; [|split; [|split]]|split].
      * cbn. by rewrite lookup_insert_eq.
      * done.
      * done.
      * done.
      * cbn. eauto.
      * split; cbn; [done|]. intros. by rewrite !lookup_insert_ne.
    + rewrite !last_or_cons in *. cbn in Hpn, Hnd2.
      assert (pn <> pos) by set_solver. run.
      destruct Hs2 as [Hpnl Hs2]. run.
      apply NoDup_cons in Hnd2 as [Hpn2 Hnd2].
      eexists. split; [done|]. split; [split; [|split; [|split]]|split]; cbn [nodes lists].
      * run. rewrite last_or_cons, wrap_len_pred by done. done.
      * split; [by run|]. seg_ins.
      * by apply NoDup_cons.
      * lia.
      * run. eauto.
      * frame_tac.
  - rewrite last_or_snoc in *. cbn [hd_or] in *.
    rewrite elem_app_fst in Hpn. cbn in Hpn. assert (Hppos : pp <> pos) by set_solver.
    pose proof Hs1 as [Hs11 [Hpp _]]%seg_app. cbn [hd_or] in *.
    assert (Hh : hd_or ((l1 ++ [(pp, z)]) ++ (pos, x) :: l2) None =
                 hd_or ((l1 ++ [(pp, z)]) ++ l2) None) by (by destruct l1 as [|[]]).
    pose proof Hnd2 as Hnd3. rewrite <- app_assoc in Hnd2.
    apply nodup_middle in Hnd2 as [Hppn Hnd2].
    rewrite !elem_app_fst in Hppn.
    destruct l2 as [|[pn y] l2]; unfold get_node; run.
    + eexists. split; [done|]. split; [split; [|split; [|split]]|split]; cbn [nodes lists].
      * run. rewrite wrap_len_pred by done. by rewrite Hh, app_nil_r, last_or_snoc.
      * rewrite app_nil_r. apply seg_app. split; [cbn [hd_or]; seg_ins|]. cbn. by run.
      * done.
      * lia.
      * run. eauto.
      * frame_tac.
    + destruct Hs2 as [Hpnl Hs2]. cbn in Hppn, Hpn.
      assert (pn <> pos) by set_solver. assert (pn <> pp) by set_solver. run.
      pose proof Hnd3 as [Hpn3 _]%nodup_middle. rewrite !elem_app_fst in Hpn3.
      eexists. split; [done|]. split; [split; [|split; [|split]]|split]; cbn [nodes lists].
      * run. rewrite wrap_len_pred by done. by rewrite Hh, !last_or_app, !last_or_cons.
      * apply seg_app. split; [apply seg_app; split; [cbn [hd_or]; seg_ins|]|].
        -- cbn. by run.
        -- cbn [seg]. split; [rewrite last_or_snoc; by run|]. seg_ins.
      * done.
      * lia.
      * run. eauto.
      * frame_tac.
Qed.

(** Both positions [put_node] can be given, as one statement. *)
Lemma put_node_at s this l1 l2 cur p0 n0 x :
  lrep s this (l1 ++ l2) -> Z.of_nat (S (length (l1 ++ l2))) < 2 ^ 32 ->
  cur ∉ (l1 ++ l2).*1 -> nodes s !! cur = Some (Node p0 n0 x) ->
  exists s', put_node this (Iter (Some this) (hd_or l2 None)) cur s = Ok s' /\
    lrep s' this (l1 ++ (cur, x) :: l2) /\
    frame this (fun k => k = cur \/ k ∈ (l1 ++ l2).*1) s s'.
Proof.
  destruct l2 as [|[pos y] l2]; intros; [|eapply put_node_mid; eassumption].
  rewrite app_nil_r in *. eapply put_node_end; eassumption.
Qed.

Lemma lrep_in_dom s this l k : lrep s this l -> k ∈ l.*1 -> k ∈ dom (nodes s).
Proof. intros (_ & Hs & _) Hk. apply elem_of_dom. eapply seg_in_dom; eassumption. Qed.

(** [new node] followed by [put_node]. *)
Lemma insert_new s this l1 l2 x :
  lrep s this (l1 ++ l2) -> Z.of_nat (S (length (l1 ++ l2))) < 2 ^ 32 ->
  let p := fst (new_node x s) in
  exists s', put_node this (Iter (Some this) (hd_or l2 None)) p (snd (new_node x s)) = Ok s' /\
    lrep s' this (l1 ++ (p, x) :: l2) /\ p ∉ dom (nodes s) /\
    frame this (fun k => k = p \/ k ∈ (l1 ++ l2).*1) s s'.
Proof.
  intros Hr Hlen p.
  assert (Hp : p ∉ dom (nodes s)) by (apply is_fresh).
  assert (Hf : frame this (fun k => k = p) s (snd (new_node x s))).
  { split; cbn; [|done]. intros k Hk. by rewrite lookup_insert_ne by congruence. }
  assert (Hpl : p ∉ (l1 ++ l2).*1) by (intros Hin; eapply Hp, lrep_in_dom; eassumption).
  destruct (put_node_at (snd (new_node x s)) this l1 l2 p None None x)
    as (s' & H1 & H2 & [Hn Hl]).
  - destruct Hr as (H1 & H2 & H3 & H4). repeat split; try done.
    cbn. apply seg_insert; done.
  - done.
  - done.
  - cbn. by rewrite lookup_insert_eq.
  - exists s'. split; [done|split; [done|split; [done|split]]].
    + intros k Hk. rewrite Hn by done. apply Hf. intros ->. auto.
    + intros o Ho. by rewrite Hl.
Qed.

Lemma begin_spec s this l :
  lrep s this l -> begin_ this s = Ok (Iter (Some this) (hd_or l None)).
Proof. intros (Hl & _). unfold begin_. by run. Qed.

(** Dropping the unlinked node. *)
Lemma delete_unlinked s this l p (X : loc -> Prop) s0 :
  lrep s this l -> p ∉ l.*1 -> X p -> frame this X s0 s ->
  lrep (delete_node p s) this l /\ frame this X s0 (delete_node p s).
Proof.
  intros (H1 & H2 & H3 & H4) Hp HX [Hn Hl]. split.
  - repeat split; try done. by apply seg_delete.
  - split; [|done]. intros k Hk. cbn. rewrite lookup_delete_ne; [auto|]. intros ->. done.
Qed.

Lemma erase_spec s this l1 p x l2 :
  lrep s this (l1 ++ (p, x) :: l2) ->
  exists s', erase this (Iter (Some this) (Some p)) s
               = Ok (Iter (Some this) (hd_or l2 None), s') /\
    lrep s' this (l1 ++ l2) /\ frame this (fun k => k ∈ (l1 ++ (p, x) :: l2).*1) s s'.
Proof.
  intros Hr. pose proof Hr as (Hl & Hs & Hnd & Hlen).
  pose proof (seg_lookup _ _ _ _ _ _ _ Hs) as Hp.
  destruct (get_node_spec _ _ _ _ _ _ Hr) as (s' & Hg & Hr' & (p0 & n0 & Hp') & Hf).
  assert (Hnl : p ∉ (l1 ++ l2).*1) by (apply nodup_middle in Hnd; tauto).
  destruct (delete_unlinked s' this (l1 ++ l2) p _ s Hr' Hnl
              (proj2 (elem_middle l1 p x l2 p) (or_introl eq_refl)) Hf)
    as [Hr'' Hf''].
  exists (delete_node p s'). split; [|done].
  unfold erase, iter_eq, end_. run.
  assert (truth (Z.of_nat (length (l1 ++ (p, x) :: l2))) = true) as ->.
  { rewrite length_middle. unfold truth. apply negb_true_iff, Z.eqb_neq. lia. }
  assert (is_null (hd_or (l1 ++ (p, x) :: l2) None) = false) as -> by (by destruct l1 as [|[]]).
  rewrite last_or_app, last_or_cons.
  assert (is_null (last_or (Some p) l2) = false) as ->.
  { destruct l2 as [|[q y] l2 _] using rev_ind; [done|]. by rewrite last_or_snoc. }
  run. rewrite Hg. run.
  destruct Hr'' as (Hl' & _). cbn in Hl'.
  change (ptr_eq (Some p) None) with false. cbn [delete_node lists]. run.
  destruct (l1 ++ l2) eqn:E; [|rewrite truth_length]; run; done.
Qed.

Lemma pop_back_spec s this l p x :
  lrep s this (l ++ [(p, x)]) ->
  exists s', pop_back this s = Ok s' /\ lrep s' this l /\
    frame this (fun k => k ∈ (l ++ [(p, x)]).*1) s s'.
Proof.
  intros Hr. pose proof Hr as (Hl & Hs & Hnd & Hlen).
  pose proof (seg_lookup _ _ _ _ _ _ _ Hs) as Hp. cbn [hd_or] in Hp.
  rewrite last_or_snoc in Hl. rewrite length_middle, app_nil_r in *.
  apply nodup_middle in Hnd as [Hpl Hnd]. rewrite app_nil_r in *.
  unfold pop_back. run.
  assert (truth (Z.of_nat (S (length l))) = true) as -> by
    (unfold truth; apply negb_true_iff, Z.eqb_neq; lia).
  assert (Hh : hd_or (l ++ [(p, x)]) None = hd_or l (Some p)) by (by destruct l as [|[]]).
  rewrite Hh in *. apply seg_app in Hs as [Hs _]. cbn [hd_or] in Hs.
  destruct l as [|[pp z] l _] using rev_ind.
  - rewrite last_or_nil in Hp. run.
    eexists. split; [done|]. split; [split; [|split; [|split]]|]; cbn [nodes lists].
    + run. done.
    + done.
    + done.
    + cbn in *. lia.
    + split; cbn; [|intros; rewrite !lookup_insert_ne; auto].
      intros k Hk. rewrite lookup_delete_ne; [done|]. set_solver.
  - rewrite last_or_snoc in Hp. rewrite elem_app_fst in Hpl. cbn in Hpl.
    assert (pp <> p) by set_solver. run.
    apply nodup_middle in Hnd as Hnd'. rewrite app_nil_r in Hnd'. destruct Hnd' as [Hpp Hnd'].
    apply seg_app in Hs as [Hs1 [Hpl' _]]. cbn [hd_or] in *.
    assert (is_null (hd_or (l ++ [(pp, z)]) (Some p)) = false) as -> by (by destruct l as [|[]]).
    assert ((1 <? Z.of_nat (S (length (l ++ [(pp, z)])))) = true) as ->.
    { apply Z.ltb_lt. rewrite length_app. cbn. lia. }
    run.
    eexists. split; [done|]. split; [split; [|split; [|split]]|]; cbn [nodes lists delete_node].
    + run. rewrite wrap_len_pred by done. do 2 f_equal.
      by destruct l as [|[]].
    + apply seg_delete; [rewrite elem_app_fst; cbn; done|]. apply seg_app. cbn. split; [|run; done].
      seg_ins.
    + done.
    + lia.
    + split; cbn; [|intros; rewrite !lookup_insert_ne; auto].
      intros k Hk. rewrite !elem_app_fst in Hk. cbn in Hk.
      rewrite lookup_delete_ne, lookup_insert_ne; set_solver.
Qed.

Lemma pop_front_spec s this l p x :
  lrep s this ((p, x) :: l) ->
  exists s', pop_front this s = Ok s' /\ lrep s' this l /\
    frame this (fun k => k ∈ ((p, x) :: l).*1) s s'.
Proof.
  intros (Hl & [Hp Hs] & Hnd & Hlen).
  rewrite last_or_cons in Hl. cbn [fmap list_fmap fst] in Hnd.
  apply NoDup_cons in Hnd as [Hpl Hnd].
  assert (Hlast : is_null (last_or (Some p) l) = false).
  { destruct l as [|[q y] l' _] using rev_ind; [done|]. by rewrite last_or_snoc. }
  unfold pop_front. run. rewrite Hlast. run.
  destruct l as [|[pn y] l].
  - rewrite last_or_nil in *. run. change (Z.of_nat (length [(p, x)]) =? 1) with true. run.
    eexists. split; [done|]. split; [split; [|split; [|split]]|]; cbn [nodes lists].
    + run. done.
    + done.
    + done.
    + cbn in *. lia.
    + split; cbn; [|intros; rewrite !lookup_insert_ne; auto].
      intros k Hk. rewrite lookup_delete_ne; [done|]. set_solver.
  - rewrite last_or_cons in *. cbn in Hpl. assert (pn <> p) by set_solver.
    destruct Hs as [Hpn Hs]. run.
    assert ((1 <? Z.of_nat (length ((p, x) :: (pn, y) :: l))) = true) as ->.
    { apply Z.ltb_lt. cbn [length]. lia. }
    run. cbn [fmap list_fmap fst] in Hnd. apply NoDup_cons in Hnd as [Hpnl Hnd].
    eexists. split; [done|]. split; [split; [|split; [|split]]|]; cbn [nodes lists delete_node].
    + run. rewrite last_or_cons. cbn [length] in *. by rewrite wrap_len_pred.
    + apply seg_delete; [cbn; done|]. split; [by run|]. seg_ins.
    + cbn. by apply NoDup_cons.
    + cbn [length] in *. lia.
    + split; cbn; [|intros; rewrite !lookup_insert_ne; auto].
      intros k Hk. rewrite lookup_delete_ne, lookup_insert_ne; set_solver.
Qed.

Lemma pop_back_nil s this : lrep s this [] -> pop_back this s = Bug.
Proof. intros (Hl & _). unfold pop_back. by run. Qed.

Lemma pop_front_nil s this : lrep s this [] -> pop_front this s = Bug.
Proof. intros (Hl & _). unfold pop_front. by run. Qed.

Lemma clear_loop_spec s this l fuel :
  lrep s this l -> (length l <= fuel)%nat ->
  exists s', clear_loop fuel this s = Ok s' /\ lrep s' this [] /\
    frame this (fun k => k ∈ l.*1) s s'.
Proof.
  revert s fuel. induction l as [|[p x] l IH] using rev_ind; intros s fuel Hr Hf.
  - exists s. split; [|repeat split; try apply Hr].
    destruct Hr as (Hl & _). destruct fuel; cbn; by run.
  - rewrite length_app in Hf. cbn in Hf. destruct fuel as [|fuel]; [lia|].
    destruct (pop_back_spec _ _ _ _ _ Hr) as (s1 & H1 & H2 & H3).
    destruct (IH s1 fuel H2 ltac:(lia)) as (s2 & H4 & H5 & H6).
    exists s2. split; [|split; [done|]].
    + destruct Hr as (Hl & _). cbn. run. rewrite length_middle, app_nil_r.
      assert (truth (Z.of_nat (S (length l))) = true) as -> by
        (unfold truth; apply negb_true_iff, Z.eqb_neq; lia).
      by rewrite H1.
    + split; intros k Hk; [rewrite (proj1 H6), (proj1 H3)|rewrite (proj2 H6), (proj2 H3)];
        try done. intros Hin. apply Hk. rewrite elem_app_fst. auto.
Qed.

(** Walking an iterator forward from the first node. *)
Fixpoint advance (n : nat) (it : iterator) s : outcome iterator :=
  match n with
  | O => Ok it
  | S n => let! it := iter_incr it s; advance n it s
  end.

Lemma advance_spec s o p l1 l2 :
  seg (nodes s) p (l1 ++ l2) None ->
  advance (length l1) (Iter o (hd_or (l1 ++ l2) None)) s = Ok (Iter o (hd_or l2 None)).
Proof.
  revert p. induction l1 as [|[k x] l1 IH]; intros p Hs; [done|].
  destruct Hs as [Hk Hs]. cbn [length advance app]. unfold iter_incr. run. eauto.
Qed.

Lemma advance_past s o p l n :
  seg (nodes s) p l None -> (length l < n)%nat ->
  advance n (Iter o (hd_or l None)) s = Bug.
Proof.
  revert p n. induction l as [|[k x] l IH]; intros p n Hs Hn.
  - destruct n; [cbn in Hn; lia|]. done.
  - destruct n as [|n]; [cbn in Hn; lia|]. destruct Hs as [Hk Hs].
    cbn [advance]. unfold iter_incr. run. cbn in Hn. eapply IH; [done|lia].
Qed.
End specs.

(** ** Refinement: any sequence of operations on any number of lists

    The abstract state maps the address of a list to the sequence of payloads it holds.  Positions
    are counted from the first node, as an iterator that starts at [begin()] reaches them. *)
Section refinement.
Context {T : Type}.

Inductive list_op :=
  | PushBack (o : loc) (x : T)
  | PushFront (o : loc) (x : T)
  | PopBack (o : loc)
  | PopFront (o : loc)
  | Insert (o : loc) (i : nat) (x : T)
  | Erase (o : loc) (i : nat)
  | Splice (o : loc) (i : nat) (other : loc) (j : nat)
  | Clear (o : loc).

Definition iter_at (o : loc) (i : nat) (s : store T) : outcome iterator :=
  let! it := begin_ o s; advance i it s.

Definition exec_op (op : list_op) (s : store T) : outcome (store T) :=
  match op with
  | PushBack o x => push_back o x s
  | PushFront o x => push_front o x s
  | PopBack o => pop_back o s
  | PopFront o => pop_front o s
  | Insert o i x => let! it := iter_at o i s; let! r := insert o it x s; Ok (snd r)
  | Erase o i => let! it := iter_at o i s; let! r := erase o it s; Ok (snd r)
  | Splice o i other j =>
      let! pos := iter_at o i s; let! it := iter_at other j s; splice o pos other it s
  | Clear o => clear o s
  end.

(** The sequence operations; [None]: the code stops the machine. *)
Definition seq_insert (i : nat) (x : T) (l : list T) : option (list T) :=
  if (i <=? length l)%nat then Some (take i l ++ x :: drop i l) else None.
Definition seq_erase (i : nat) (l : list T) : option (list T) :=
  if (i <? length l)%nat then Some (take i l ++ drop (S i) l) else None.

Definition upd (A : gmap loc (list T)) (o : loc) (f : list T -> option (list T)) :=
  l ← A !! o; l' ← f l; Some (<[o := l']> A).

Definition abs_op (op : list_op) (A : gmap loc (list T)) : option (gmap loc (list T)) :=
  match op with
  | PushBack o x => upd A o (fun l => Some (l ++ [x]))
  | PushFront o x => upd A o (fun l => Some (x :: l))
  | PopBack o => upd A o (fun l => match l with [] => None | _ => Some (removelast l) end)
  | PopFront o => upd A o (fun l => match l with [] => None | _ :: l' => Some l' end)
  | Insert o i x => upd A o (seq_insert i x)
  | Erase o i => upd A o (seq_erase i)
  | Splice o i other j =>
      l ← A !! other; x ← l !! j;
      A ← upd A o (seq_insert i x); upd A other (seq_erase j)
  | Clear o => upd A o (fun _ => Some [])
  end.

Fixpoint exec_run (ops : list list_op) (s : store T) : outcome (store T) :=
  match ops with
  | [] => Ok s
  | op :: ops => let! s := exec_op op s; exec_run ops s
  end.
Fixpoint abs_run (ops : list list_op) (A : gmap loc (list T)) : option (gmap loc (list T)) :=
  match ops with
  | [] => Some A
  | op :: ops => A ← abs_op op A; abs_run ops A
  end.

(** Every list keeps fewer than [2^32] elements, the lists an operation names exist, and a splice
    moves a node between two different lists. *)
Definition fits (A : gmap loc (list T)) : Prop :=
  forall o l, A !! o = Some l -> Z.of_nat (length l) < 2 ^ 32.
Definition op_ok (op : list_op) (A : gmap loc (list T)) : Prop :=
  match op with
  | PushBack o _ | PushFront o _ | PopBack o | PopFront o | Insert o _ _ | Erase o _ | Clear o =>
      is_Some (A !! o)
  | Splice o i other j => is_Some (A !! o) /\ is_Some (A !! other) /\ o <> other
  end /\ (forall A', abs_op op A = Some A' -> fits A').
Fixpoint run_ok (ops : list list_op) (A : gmap loc (list T)) : Prop :=
  match ops with
  | [] => True
  | op :: ops => op_ok op A /\ (forall A', abs_op op A = Some A' -> run_ok ops A')
  end.

(** The nodes of every list, list by list; no node is in two lists. *)
Definition world (s : store T) (W : gmap loc (list (loc * T))) : Prop :=
  (forall o l, W !! o = Some l -> lrep s o l) /\
  (forall o o' l l' k, W !! o = Some l -> W !! o' = Some l' -> k ∈ l.*1 -> k ∈ l'.*1 -> o = o').
Definition rel (s : store T) (A : gmap loc (list T)) : Prop :=
  exists W, world s W /\ A = (fun l => l.*2) <$> W.
End refinement.
Arguments list_op : clear implicits.

Section simulation.
Context {T : Type}.
Implicit Types (s : store T) (W : gmap loc (list (loc * T))) (A : gmap loc (list T)).

Lemma world_update s s' W o l' (X : loc -> Prop) :
  world s W -> lrep s' o l' -> frame o X s s' ->
  (forall o1 l1 k, o1 <> o -> W !! o1 = Some l1 -> k ∈ l1.*1 -> ~ X k /\ k ∉ l'.*1) ->
  world s' (<[o := l']> W).
Proof.
  intros [Hr Hd] Hr' Hf Hout. split.
  - intros o1 l1 H1. destruct (decide (o1 = o)) as [->|Hne].
    + rewrite lookup_insert_eq in H1. by simplify_eq.
    + rewrite lookup_insert_ne in H1 by done. eapply frame_lrep; eauto.
      intros k Hk. by eapply Hout.
  - intros o1 o2 l1 l2 k H1 H2 Hk1 Hk2.
    destruct (decide (o1 = o)) as [->|Hne1], (decide (o2 = o)) as [->|Hne2]; try done.
    + rewrite lookup_insert_eq in H1. rewrite lookup_insert_ne in H2 by done. simplify_eq.
      by destruct (Hout o2 l2 k).
    + rewrite lookup_insert_eq in H2. rewrite lookup_insert_ne in H1 by done. simplify_eq.
      by destruct (Hout o1 l1 k).
    + rewrite lookup_insert_ne in H1, H2 by done. eauto.
Qed.

(** What the nodes of another list cannot be. *)
Lemma world_other s W o l o1 l1 k :
  world s W -> W !! o = Some l -> o1 <> o -> W !! o1 = Some l1 -> k ∈ l1.*1 ->
  ~ (k ∈ l.*1 \/ k ∉ dom (nodes s)).
Proof.
  intros [Hr Hd] Ho Hne H1 Hk [Hin|Hnd]; [eauto|].
  apply Hnd. eapply lrep_in_dom; eauto.
Qed.

Lemma rel_update s s' W o l l' (X : loc -> Prop) :
  world s W -> W !! o = Some l -> lrep s' o l' -> frame o X s s' ->
  (forall k, X k -> k ∈ l.*1 \/ k ∉ dom (nodes s)) ->
  (forall k, k ∈ l'.*1 -> k ∈ l.*1 \/ k ∉ dom (nodes s)) ->
  rel s' (<[o := l'.*2]> ((fun l => l.*2) <$> W)).
Proof.
  intros Hw Ho Hr Hf HX Hl. exists (<[o := l']> W). split; [|by rewrite fmap_insert].
  eapply world_update; [done|done|done|].
  intros o1 l1 k Hne H1 Hk.
  pose proof (world_other _ _ _ _ _ _ _ Hw Ho Hne H1 Hk). split; eauto.
Qed.

Lemma iter_at_spec s o (l1 l2 : list (loc * T)) i :
  lrep s o (l1 ++ l2) -> length l1 = i ->
  iter_at o i s = Ok (Iter (Some o) (hd_or l2 None)).
Proof.
  intros Hr <-. unfold iter_at. rewrite (begin_spec _ _ _ Hr). cbn.
  eapply advance_spec. apply Hr.
Qed.

Lemma iter_at_past s o (l : list (loc * T)) i :
  lrep s o l -> (length l < i)%nat -> iter_at o i s = Bug.
Proof.
  intros Hr Hi. unfold iter_at. rewrite (begin_spec _ _ _ Hr). cbn.
  eapply advance_past; [apply Hr|done].
Qed.

Lemma split_at {B} (l : list B) i :
  (i <= length l)%nat -> l = take i l ++ drop i l /\ length (take i l) = i.
Proof. intros. rewrite take_drop, length_take. split; [done|lia]. Qed.

Lemma insert_step s W o (l : list (loc * T)) i x :
  world s W -> W !! o = Some l -> (i <= length l)%nat -> Z.of_nat (S (length l)) < 2 ^ 32 ->
  exists it r, iter_at o i s = Ok it /\ insert o it x s = Ok r /\
    rel (snd r) (<[o := take i l.*2 ++ x :: drop i l.*2]> ((fun l => l.*2) <$> W)).
Proof.
  intros Hw Ho Hi Hlen. destruct (split_at l i Hi) as [Hsp Hli].
  pose proof (proj1 Hw _ _ Ho) as Hr. rewrite Hsp in Hr, Hlen.
  destruct (insert_new s o (take i l) (drop i l) x Hr Hlen) as (s' & H1 & H2 & H3 & H4).
  eexists _, _. split; [|split].
  - by eapply iter_at_spec.
  - unfold insert. rewrite (surjective_pairing (new_node x s)). rewrite H1. done.
  - cbn [snd].
    replace (take i l.*2 ++ x :: drop i l.*2)
      with (take i l ++ (fst (new_node x s), x) :: drop i l).*2
      by (by rewrite fmap_app, fmap_cons, !fmap_take, !fmap_drop).
    rewrite <- Hsp in H4.
    eapply rel_update; [done|done|done|done| |].
    + intros k [->|Hk]; auto.
    + intros k. rewrite elem_middle. rewrite <- Hsp. intros [->|]; auto.
Qed.

Lemma push_back_step s W o (l : list (loc * T)) x :
  world s W -> W !! o = Some l -> Z.of_nat (S (length l)) < 2 ^ 32 ->
  exists s', push_back o x s = Ok s' /\ rel s' (<[o := l.*2 ++ [x]]> ((fun l => l.*2) <$> W)).
Proof.
  intros Hw Ho Hlen. pose proof (proj1 Hw _ _ Ho) as Hr.
  rewrite <- (app_nil_r l) in Hr, Hlen.
  destruct (insert_new s o l [] x Hr Hlen) as (s' & H1 & H2 & H3 & H4).
  rewrite app_nil_r in H4.
  exists s'. split.
  - unfold push_back. by rewrite (surjective_pairing (new_node x s)).
  - replace (l.*2 ++ [x]) with (l ++ [(fst (new_node x s), x)]).*2 by (by rewrite fmap_app).
    eapply rel_update; [done|done|done|done| |].
    + intros k [->|Hk]; auto.
    + intros k. rewrite elem_middle, app_nil_r. intros [->|]; auto.
Qed.

Lemma push_front_step s W o (l : list (loc * T)) x :
  world s W -> W !! o = Some l -> Z.of_nat (S (length l)) < 2 ^ 32 ->
  exists s', push_front o x s = Ok s' /\ rel s' (<[o := x :: l.*2]> ((fun l => l.*2) <$> W)).
Proof.
  intros Hw Ho Hlen. pose proof (proj1 Hw _ _ Ho) as Hr.
  destruct (insert_new s o [] l x Hr Hlen) as (s' & H1 & H2 & H3 & H4).
  exists s'. split.
  - unfold push_front. rewrite (surjective_pairing (new_node x s)).
    unfold begin_, list_at. cbn [new_node snd lists].
    destruct Hr as (-> & _). cbn. exact H1.
  - replace (x :: l.*2) with ((fst (new_node x s), x) :: l).*2 by done.
    eapply rel_update; [done|done|done|done| |].
    + intros k [->|Hk]; auto.
    + intros k Hk. apply (elem_middle [] _ x l) in Hk as [->|]; auto.
Qed.

(** An operation that only removes nodes of one list. *)
Lemma shrink_step s s' W o (l l' : list (loc * T)) :
  world s W -> W !! o = Some l -> lrep s' o l' -> frame o (fun k => k ∈ l.*1) s s' ->
  (forall k, k ∈ l'.*1 -> k ∈ l.*1) ->
  rel s' (<[o := l'.*2]> ((fun l => l.*2) <$> W)).
Proof. intros. eapply rel_update; eauto. Qed.

Lemma erase_step s W o (l : list (loc * T)) i :
  world s W -> W !! o = Some l -> (i < length l)%nat ->
  exists it r, iter_at o i s = Ok it /\ erase o it s = Ok r /\
    rel (snd r) (<[o := take i l.*2 ++ drop (S i) l.*2]> ((fun l => l.*2) <$> W)).
Proof.
  intros Hw Ho Hi. destruct (split_at l i ltac:(lia)) as [Hsp Hli].
  destruct (lookup_lt_is_Some_2 l i Hi) as [[p x] Hx].
  rewrite (drop_S l (p, x) i Hx) in Hsp.
  pose proof (proj1 Hw _ _ Ho) as Hr. rewrite Hsp in Hr.
  destruct (erase_spec _ _ _ _ _ _ Hr) as (s' & H1 & H2 & H3).
  eexists _, _. split; [|split].
  - by eapply iter_at_spec.
  - done.
  - cbn [snd]. replace (take i l.*2 ++ drop (S i) l.*2) with (take i l ++ drop (S i) l).*2
      by (by rewrite fmap_app, fmap_take, fmap_drop).
    rewrite <- Hsp in H3. eapply shrink_step; [done|done|done|done|].
    intros k Hk. rewrite Hsp. rewrite elem_middle. auto.
Qed.

Lemma splice_step s W o (l : list (loc * T)) i other (m : list (loc * T)) j x :
  world s W -> W !! o = Some l -> W !! other = Some m -> o <> other ->
  (i <= length l)%nat -> m.*2 !! j = Some x -> Z.of_nat (S (length l)) < 2 ^ 32 ->
  exists pos it s', iter_at o i s = Ok pos /\ iter_at other j s = Ok it /\
    splice o pos other it s = Ok s' /\
    rel s' (<[other := take j m.*2 ++ drop (S j) m.*2]>
             (<[o := take i l.*2 ++ x :: drop i l.*2]> ((fun l => l.*2) <$> W))).
Proof.
  intros Hw Ho Hm Hne Hi Hx Hlen.
  destruct (split_at l i Hi) as [Hsp Hli].
  rewrite list_lookup_fmap in Hx. destruct (m !! j) as [[p x']|] eqn:Hp; [|done].
  cbn in Hx. injection Hx as ->.
  assert (Hj : (j < length m)%nat) by (by eapply lookup_lt_Some).
  destruct (split_at m j ltac:(lia)) as [Hspm Hlj]. rewrite (drop_S m (p, x) j Hp) in Hspm.
  pose proof (proj1 Hw _ _ Ho) as Hr. pose proof (proj1 Hw _ _ Hm) as Hrm.
  assert (Hdis : forall k, k ∈ l.*1 -> k ∈ m.*1 -> False).
  { intros k Hk1 Hk2. apply Hne. eapply (proj2 Hw); eauto. }
  assert (Hpm : p ∈ m.*1) by (rewrite Hspm; apply elem_middle; auto).
  assert (Hsub : forall k, k ∈ (take j m ++ drop (S j) m).*1 -> k ∈ m.*1).
  { intros k Hk. rewrite Hspm. apply elem_middle. auto. }
  rewrite Hspm in Hrm.
  destruct (get_node_spec _ _ _ _ _ _ Hrm) as (s1 & G1 & G2 & (p0 & n0 & G3) & G4).
  rewrite <- Hspm in G4.
  assert (Hr1 : lrep s1 o (take i l ++ drop i l)).
  { rewrite take_drop. eapply frame_lrep; eauto. }
  rewrite Hsp in Hlen.
  assert (Hpl : p ∉ (take i l ++ drop i l).*1).
  { rewrite take_drop. intros Hin. apply (Hdis p Hin). rewrite Hspm, elem_middle. auto. }
  destruct (put_node_at s1 o _ _ p p0 n0 x Hr1 Hlen Hpl G3) as (s2 & P1 & P2 & P3).
  eexists _, _, s2. split; [|split; [|split]].
  - rewrite Hsp in Hr. by eapply iter_at_spec.
  - by eapply iter_at_spec.
  - unfold splice. cbn [owner hd_or]. rewrite !ptr_eq_refl. cbn [negb].
    unfold iter_eq, end_. cbn [owner ptr]. rewrite ptr_eq_refl. cbn [obind].
    change (ptr_eq (Some p) None) with false.
    destruct Hrm as (Hlm & _). unfold list_at. rewrite Hlm. cbn [obind deref head tail count].
    rewrite last_or_app, last_or_cons, length_middle.
    assert (is_null (hd_or (take j m ++ (p, x) :: drop (S j) m) None) = false) as ->
      by (by destruct (take j m) as [|[]]).
    assert (is_null (last_or (Some p) (drop (S j) m)) = false) as ->.
    { destruct (drop (S j) m) as [|[q y] l2 _] using rev_ind; [done|]. by rewrite last_or_snoc. }
    assert (truth (Z.of_nat (S (length (take j m ++ drop (S j) m)))) = true) as ->
      by (unfold truth; apply negb_true_iff, Z.eqb_neq; lia).
    cbn [andb negb ensure obind]. rewrite G1. cbn. done.
  - exists (<[o := take i l ++ (p, x) :: drop i l]> (<[other := take j m ++ drop (S j) m]> W)).
    split.
    + rewrite take_drop in P3.
      assert (Hout : forall o1 l1 k, o1 <> o -> o1 <> other -> W !! o1 = Some l1 -> k ∈ l1.*1 ->
                k <> p /\ k ∉ l.*1 /\ k ∉ m.*1).
      { intros o1 l1 k H1 H2 H3 Hk.
        pose proof (world_other _ _ _ _ _ _ _ Hw Ho H1 H3 Hk).
        pose proof (world_other _ _ _ _ _ _ _ Hw Hm H2 H3 Hk).
        split; [|split]; [|auto|auto].
        intros ->. auto. }
      eapply (world_update s1 s2 _ o); [|done|exact P3|].
      * eapply (world_update s s1 W other); [done|done|done|].
        intros o1 l1 k H1 H3 Hk.
        pose proof (world_other _ _ _ _ _ _ _ Hw Hm H1 H3 Hk). split; [auto|].
        intros Hin%Hsub. auto.
      * intros o1 l1 k H1 H3 Hk. rewrite elem_middle, take_drop.
        destruct (decide (o1 = other)) as [->|Hno].
        -- rewrite lookup_insert_eq in H3. simplify_eq.
           assert (k ∈ m.*1) by auto.
           assert (k <> p).
           { intros ->. destruct Hrm as (_ & _ & Hnd & _). apply nodup_middle in Hnd. tauto. }
           split; intros [?|?]; eauto.
        -- rewrite lookup_insert_ne in H3 by done.
           destruct (Hout _ _ _ H1 Hno H3 Hk) as (? & ? & ?). split; intros [?|?]; auto.
    + rewrite !fmap_insert, insert_insert_ne by done.
      by rewrite !fmap_app, fmap_cons, !fmap_take, !fmap_drop.
Qed.

Lemma erase_end s o : erase o (Iter (Some o) None) s = Bug.
Proof. unfold erase, iter_eq, end_. cbn. rewrite ptr_eq_refl. done. Qed.

Lemma splice_end s o pos other : splice o pos other (Iter (Some other) None) s = Bug.
Proof.
  unfold splice, iter_eq, end_. cbn. rewrite ptr_eq_refl. by destruct (negb _).
Qed.

Lemma iter_at_end s o (l : list (loc * T)) i :
  lrep s o l -> (length l <= i)%nat -> iter_at o i s = Bug \/ iter_at o i s = Ok (end_ o).
Proof.
  intros Hr Hi. destruct (decide (i = length l)) as [->|].
  - right. eapply (iter_at_spec s o l []); [by rewrite app_nil_r|done].
  - left. eapply iter_at_past; [done|lia].
Qed.

(** What one operation does: the abstract operation, or a stop of the machine. *)
Definition refines (op : list_op T) s A : Prop :=
  match abs_op op A with
  | Some A' => exists s', exec_op op s = Ok s' /\ rel s' A'
  | None => exec_op op s = Bug
  end.

Lemma abs_lookup W o l : W !! o = Some l -> ((fun l => l.*2) <$> W) !! o = Some l.*2.
Proof. intros H. by rewrite lookup_fmap, H. Qed.

Lemma upd_Some A o l f : A !! o = Some l -> upd A o f = (l' ← f l; Some (<[o := l']> A)).
Proof. intros H. unfold upd. by rewrite H. Qed.

Lemma fits_insert A o l : fits (<[o := l]> A) -> Z.of_nat (length l) < 2 ^ 32.
Proof. intros H. eapply H. apply lookup_insert_eq. Qed.

Lemma refines_insert s W o l i x :
  world s W -> W !! o = Some l -> op_ok (Insert o i x) ((fun l => l.*2) <$> W) ->
  refines (Insert o i x) s ((fun l => l.*2) <$> W).
Proof.
  intros Hw Ho [_ Hfit]. unfold refines. cbn [abs_op exec_op] in *. unfold upd in *.
  rewrite (abs_lookup _ _ _ Ho) in *. cbn [mbind option_bind] in *. unfold seq_insert in *.
  rewrite length_fmap in *. destruct (Nat.leb_spec i (length l)) as [Hi|Hi]; cbn [mbind option_bind] in *.
  - specialize (Hfit _ eq_refl). apply fits_insert in Hfit.
    rewrite <- !fmap_take, <- !fmap_drop, !length_app in Hfit. cbn in Hfit.
    rewrite !length_fmap, length_take, length_drop in Hfit.
    destruct (insert_step s W o l i x Hw Ho Hi ltac:(lia)) as (it & r & H1 & H2 & H3).
    exists (snd r). by rewrite H1; cbn [obind]; rewrite H2.
  - rewrite (iter_at_past s o l) by (try apply Hw; auto). done.
Qed.

Lemma refines_erase s W o l i :
  world s W -> W !! o = Some l -> refines (Erase o i) s ((fun l => l.*2) <$> W).
Proof.
  intros Hw Ho. unfold refines. cbn [abs_op exec_op]. unfold upd.
  rewrite (abs_lookup _ _ _ Ho). cbn [mbind option_bind]. unfold seq_erase.
  rewrite length_fmap. destruct (Nat.ltb_spec i (length l)) as [Hi|Hi]; cbn [mbind option_bind].
  - destruct (erase_step s W o l i Hw Ho Hi) as (it & r & H1 & H2 & H3).
    exists (snd r). by rewrite H1; cbn [obind]; rewrite H2.
  - destruct (iter_at_end s o l i (proj1 Hw _ _ Ho) Hi) as [-> | ->]; [done|].
    cbn. by rewrite erase_end.
Qed.

Lemma refines_splice s W o i other j :
  world s W -> op_ok (Splice o i other j) ((fun l => l.*2) <$> W) ->
  refines (Splice o i other j) s ((fun l => l.*2) <$> W).
Proof.
  intros Hw [(Ho & Hm & Hne) Hfit]. unfold refines.
  rewrite !lookup_fmap in Ho, Hm.
  destruct (W !! o) as [l|] eqn:Hol; [|by destruct Ho].
  destruct (W !! other) as [m|] eqn:Hom; [|by destruct Hm].
  pose proof (proj1 Hw _ _ Hol) as Hr. pose proof (proj1 Hw _ _ Hom) as Hrm.
  cbn [abs_op exec_op] in *. rewrite (abs_lookup _ _ _ Hom) in *. cbn [mbind option_bind] in *.
  destruct (m.*2 !! j) as [x|] eqn:Hx; cbn [mbind option_bind] in *.
  - assert (Hj : (j < length m)%nat) by (apply lookup_lt_Some in Hx; by rewrite length_fmap in Hx).
    rewrite (upd_Some _ _ _ _ (abs_lookup _ _ _ Hol)) in Hfit |- *. unfold seq_insert in *. rewrite length_fmap in *.
    destruct (Nat.leb_spec i (length l)) as [Hi|Hi]; cbn [mbind option_bind] in *.
    + assert (Heq : forall v, <[o := v]> ((fun l0 : list (loc * T) => l0.*2) <$> W) !! other
                = Some m.*2) by (intros; by rewrite lookup_insert_ne, (abs_lookup _ _ _ Hom)).
      rewrite (upd_Some _ _ _ _ (Heq _)) in Hfit |- *. unfold seq_erase in *. rewrite length_fmap in *.
      destruct (Nat.ltb_spec j (length m)) as [_|]; [|lia]. cbn [mbind option_bind] in *.
      specialize (Hfit _ eq_refl o). rewrite lookup_insert_ne, lookup_insert_eq in Hfit by done.
      specialize (Hfit _ eq_refl).
      rewrite <- fmap_take, <- fmap_drop, length_app in Hfit. cbn in Hfit.
      rewrite !length_fmap, length_take, length_drop in Hfit.
      destruct (splice_step s W o l i other m j x Hw Hol Hom Hne Hi Hx ltac:(lia))
        as (pos & it & s' & H1 & H2 & H3 & H4).
      exists s'. by rewrite H1; cbn [obind]; rewrite H2; cbn [obind]; rewrite H3.
    + by rewrite (iter_at_past s o l) by done.
  - apply lookup_ge_None in Hx. rewrite length_fmap in Hx.
    destruct (decide (i <= length l)%nat) as [Hi|Hi].
    + destruct (split_at l i Hi) as [Hsp Hli]. rewrite Hsp in Hr.
      rewrite (iter_at_spec s o _ _ i Hr Hli). cbn [obind].
      destruct (iter_at_end s other m j Hrm Hx) as [-> | ->]; [done|].
      cbn [obind]. apply splice_end.
    + by rewrite (iter_at_past s o l) by (done || lia).
Qed.

Lemma refines_pop_back s W o l :
  world s W -> W !! o = Some l -> refines (PopBack o) s ((fun l => l.*2) <$> W).
Proof.
  intros Hw Ho. unfold refines. cbn [abs_op exec_op]. unfold upd.
  rewrite (abs_lookup _ _ _ Ho). cbn [mbind option_bind].
  pose proof (proj1 Hw _ _ Ho) as Hr.
  destruct l as [|[p x] l _] using rev_ind; cbn [mbind option_bind].
  - cbn. by apply pop_back_nil.
  - destruct (pop_back_spec _ _ _ _ _ Hr) as (s' & H1 & H2 & H3).
    rewrite fmap_app. cbn [fmap list_fmap snd].
    destruct (l.*2 ++ [x]) as [|y ys] eqn:E; [by destruct (l.*2)|].
    rewrite <- E, removelast_last. exists s'. split; [done|].
    eapply shrink_step; eauto. intros k. rewrite elem_app_fst. auto.
Qed.

Lemma refines_pop_front s W o l :
  world s W -> W !! o = Some l -> refines (PopFront o) s ((fun l => l.*2) <$> W).
Proof.
  intros Hw Ho. unfold refines. cbn [abs_op exec_op]. unfold upd.
  rewrite (abs_lookup _ _ _ Ho). pose proof (proj1 Hw _ _ Ho) as Hr.
  destruct l as [|[p x] l]; cbn.
  - by apply pop_front_nil.
  - destruct (pop_front_spec _ _ _ _ _ Hr) as (s' & H1 & H2 & H3).
    exists s'. split; [done|]. eapply shrink_step; eauto. intros k. set_solver.
Qed.

Lemma refines_clear s W o l :
  world s W -> W !! o = Some l -> refines (Clear o) s ((fun l => l.*2) <$> W).
Proof.
  intros Hw Ho. unfold refines. cbn [abs_op exec_op]. unfold upd.
  rewrite (abs_lookup _ _ _ Ho). cbn.
  pose proof (proj1 Hw _ _ Ho) as Hr.
  destruct (clear_loop_spec s o l (Z.to_nat (Z.of_nat (length l))) Hr ltac:(lia))
    as (s' & H1 & H2 & H3).
  exists s'. split.
  - unfold clear, list_at. destruct Hr as (-> & _). done.
  - change [] with (@nil (loc * T)).*2. eapply shrink_step; eauto. intros k. set_solver.
Qed.

Lemma refines_push s W o l x :
  world s W -> W !! o = Some l ->
  (op_ok (PushBack o x) ((fun l => l.*2) <$> W) ->
     refines (PushBack o x) s ((fun l => l.*2) <$> W)) /\
  (op_ok (PushFront o x) ((fun l => l.*2) <$> W) ->
     refines (PushFront o x) s ((fun l => l.*2) <$> W)).
Proof.
  intros Hw Ho.
  split; intros [_ Hfit]; unfold refines; cbn [abs_op exec_op] in *; unfold upd in *;
    rewrite (abs_lookup _ _ _ Ho) in *; cbn in *;
    specialize (Hfit _ eq_refl); apply fits_insert in Hfit.
  - rewrite length_app, length_fmap in Hfit. cbn in Hfit.
    apply push_back_step; [done|done|lia].
  - cbn in Hfit. rewrite length_fmap in Hfit. apply push_front_step; [done|done|lia].
Qed.

Lemma refines_op op s A : rel s A -> op_ok op A -> refines op s A.
Proof.
  intros (W & Hw & ->) Hok. pose proof Hok as [Hin _].
  destruct op as [o x|o x|o|o|o i x|o i|o i other j|o]; [..|by apply refines_splice|];
    cbn in Hin; rewrite lookup_fmap in Hin; destruct (W !! o) as [l|] eqn:Ho;
    try (by destruct Hin).
  - eapply refines_push; eauto.
  - eapply refines_push; eauto.
  - eapply refines_pop_back; eauto.
  - eapply refines_pop_front; eauto.
  - eapply refines_insert; eauto.
  - eapply refines_erase; eauto.
  - eapply refines_clear; eauto.
Qed.

(**  Refinement of the linked lists: as long as no list reaches [2^32] elements, any sequence
    of pushes, pops, insertions, erasures, splices and clears, on any number of lists that share
    one store, does to the lists what it does to sequences; no [assert] of the code fails, and the
    machine stops exactly when the sequence operation is undefined (a pop of an empty list, a
    position past the end). *)
Theorem linked_list_refines ops s A :
  rel s A -> run_ok ops A ->
  match abs_run ops A with
  | Some A' => exists s', exec_run ops s = Ok s' /\ rel s' A'
  | None => exec_run ops s = Bug
  end.
Proof.
  revert s A. induction ops as [|op ops IH]; intros s A Hrel Hok; [by exists s|].
  destruct Hok as [Hop Hok]. pose proof (refines_op op s A Hrel Hop) as Hstep.
  cbn [abs_run exec_run]. unfold refines in Hstep.
  destruct (abs_op op A) as [A'|] eqn:E; cbn [mbind option_bind].
  - destruct Hstep as (s' & -> & Hrel'). cbn [obind]. apply IH; auto.
  - by rewrite Hstep.
Qed.
End simulation.

(** A concrete run: two lists, pushes on both, a splice from one into the other, an insertion in the
    middle and a removal. *)
Section witness.
Lemma fits_dec (A : gmap loc (list nat)) : Decision (fits A).
Proof. change (Decision (map_Forall (fun _ l => Z.of_nat (length l) < 2 ^ 32) A)). apply _. Defined.

Definition w_store : store nat :=
  Store ∅ {[ 1%positive := LList None None 0; 2%positive := LList None None 0 ]}.
Definition w_abs : gmap loc (list nat) := {[ 1%positive := []; 2%positive := [] ]}.
Definition w_ops : list (list_op nat) :=
  [ PushBack 1%positive 10%nat; PushBack 1%positive 20%nat; PushFront 2%positive 5%nat;
    Splice 2%positive 1 1%positive 0; Insert 2%positive 1 7%nat; PopBack 1%positive ].

Lemma w_rel : rel w_store w_abs.
Proof.
  exists {[ 1%positive := []; 2%positive := [] ]}. split; [|reflexivity].
  assert (Hnil : forall o (l : list (loc * nat)),
    ({[ 1%positive := []; 2%positive := [] ]} : gmap loc (list (loc * nat))) !! o = Some l -> l = []).
  { intros o l H. apply lookup_insert_Some in H as [[_ <-]|[_ H]]; [done|].
    by apply lookup_singleton_Some in H as [_ <-]. }
  split.
  - intros o l H. pose proof (Hnil _ _ H) as ->.
    split; [|split; [done|split; [constructor|done]]].
    apply lookup_insert_Some in H as [[<- _]|[_ H]]; [reflexivity|].
    apply lookup_singleton_Some in H as [<- _]. reflexivity.
  - intros o o' l l' k H _ Hk. rewrite (Hnil _ _ H) in Hk. set_solver.
Qed.

Ltac run_ok_step :=
  split; [split; [vm_compute; repeat split; eauto; discriminate|]|];
  [ intros ? H; vm_compute in H; injection H as <-;
    apply (@bool_decide_eq_true_1 _ (fits_dec _)); vm_compute; reflexivity
  | intros ? H; vm_compute in H; injection H as <- ].

Lemma w_run_ok : run_ok w_ops w_abs.
Proof. unfold w_ops. do 6 run_ok_step. exact I. Qed.

Lemma linked_list_refines_witness :
  abs_run w_ops w_abs = Some {[ 1%positive := []; 2%positive := [5; 7; 10]%nat ]} /\
  match abs_run w_ops w_abs with
  | Some A' => exists s', exec_run w_ops w_store = Ok s' /\ rel s' A'
  | None => exec_run w_ops w_store = Bug
  end.
Proof.
  split; [vm_compute; reflexivity|].
  exact (linked_list_refines w_ops w_store w_abs w_rel w_run_ok).
Defined.
End witness.
