(* ===== verification/PM.v ===== *)
(** * The physical page allocator (src/kernel/memory/pm.cpp, src/kernel/memory/include/pm.hpp)

    The bitmap at [PMMBMP_BASE] has one byte per physical page and is as large as a whole number of
    bitmap pages; [bmp] holds its bytes, and a read past its mapped pages stops the machine.
    [BLOCK] keeps the two bits the code uses.  Every operation but [critical_check] runs under the
    object's lock, so it is one step of the model.

    Page numbers and counters stay far below the width of their [qword] (the constructor stops the
    machine above 12 million pages), so only the two limits, which are [word]s, are wrapped. *)

From S2P Require Import Prelude Const.

Module PM.

(** ** State *)

(** [struct BLOCK]: [solid] is clear on an entry that a free entry of its bitmap page follows. *)
Record BLOCK := Blk { solid : bool; free : bool }.

Inductive MODE := NONE | MUST_SUCCEED | TAKE.
#[export] Instance MODE_eq_dec : EqDecision MODE.
Proof. solve_decision. Defined.

(** [critical_callback]: the address of a function, [None] for [nullptr]. *)
Record pm := Pm {
  soft_critical_limit : Z;
  hard_critical_limit : Z;
  bmp_size : Z;
  total : Z;
  used : Z;
  reserved : Z;
  next : Z;
  callback : option Z;
  userdata : Z;
  bmp : gmap Z BLOCK
}.

Definition set_used (v : Z) (p : pm) : pm :=
  Pm (soft_critical_limit p) (hard_critical_limit p) (bmp_size p) (total p) v (reserved p)
     (next p) (callback p) (userdata p) (bmp p).
Definition set_reserved (v : Z) (p : pm) : pm :=
  Pm (soft_critical_limit p) (hard_critical_limit p) (bmp_size p) (total p) (used p) v
     (next p) (callback p) (userdata p) (bmp p).
Definition set_next (v : Z) (p : pm) : pm :=
  Pm (soft_critical_limit p) (hard_critical_limit p) (bmp_size p) (total p) (used p) (reserved p)
     v (callback p) (userdata p) (bmp p).
Definition set_bmp (v : gmap Z BLOCK) (p : pm) : pm :=
  Pm (soft_critical_limit p) (hard_critical_limit p) (bmp_size p) (total p) (used p) (reserved p)
     (next p) (callback p) (userdata p) v.

Definition capacity (p : pm) : Z := total p.
Definition available (p : pm) : outcome Z :=
  assert! used p + reserved p <=? total p;
  Ok (total p - used p - reserved p).
Definition get_critical_limit (p : pm) : Z := soft_critical_limit p.
Definition bmp_page_count (p : pm) : Z := Z.shiftr (align_up 64 (bmp_size p) PAGE_SIZE) 12.

(** ** Operations *)

Section operations.
(** The function a registered callback points to: it is given the allocator and the user data. *)
Variable invoke : Z -> pm -> Z -> outcome pm.

Definition set_mp_count (count : Z) (p : pm) : outcome pm :=
  if truth (hard_critical_limit p) then Bug
  else Ok (Pm (soft_critical_limit p) (w16 (4 * count)) (bmp_size p) (total p) (used p)
              (reserved p) (next p) (callback p) (userdata p) (bmp p)).

Definition set_critical_callback (cb : option Z) (ud : Z) (p : pm) : outcome pm :=
  match callback p with
  | Some _ => Bug
  | None => Ok (Pm (soft_critical_limit p) (hard_critical_limit p) (bmp_size p) (total p) (used p)
                   (reserved p) (next p) cb ud (bmp p))
  end.

Definition critical_check (p : pm) : outcome pm :=
  if total p <=? used p + reserved p + soft_critical_limit p then
    match callback p with
    | Some cb => invoke cb p (userdata p)
    | None => Ok p
    end
  else Ok p.

(** The search for a bitmap page with a free entry, from [page] round to [next]. *)
Fixpoint find_page (fuel : nat) (p : pm) (page : Z) : outcome Z :=
  match fuel with
  | O => NoFuel
  | S fuel =>
      assert! page <? bmp_page_count p;
      let! cur := deref (bmp p !! (page * PAGE_SIZE));
      if solid cur && negb (free cur) then
        let page := if page + 1 =? bmp_page_count p then 0 else page + 1 in
        if page =? next p then Bug else find_page fuel p page
      else Ok page
  end.

(** The binary search for the first solid entry of the bitmap page that starts at [base]. *)
Fixpoint find_solid (fuel : nat) (b : gmap Z BLOCK) (base head tail : Z) : outcome (Z * Z) :=
  if head + 1 <? tail then
    match fuel with
    | O => NoFuel
    | S fuel =>
        let mid := (head + tail) / 2 in
        let! cur := deref (b !! (base + mid));
        if solid cur then find_solid fuel b base head mid else find_solid fuel b base mid tail
    end
  else Ok (head, tail).

(** [while(head)]: the entries below the page that was taken become solid, down to the next free
    one. *)
Fixpoint set_solid_down (head : nat) (base : Z) (b : gmap Z BLOCK) : outcome (gmap Z BLOCK) :=
  match head with
  | O => Ok b
  | S head =>
      let! cur := deref (b !! (base + Z.of_nat head));
      assert! negb (solid cur);
      let b := <[base + Z.of_nat head := Blk true (free cur)]> b in
      if free cur then Ok b else set_solid_down head base b
  end.

Definition allocate_locked (mode : MODE) (p : pm) : outcome (Z * pm) :=
  if bool_decide (mode = NONE) && (total p <=? used p + reserved p + hard_critical_limit p)
  then Ok (0, p)
  else
    let! page := find_page (S (Z.to_nat (bmp_page_count p))) p (next p);
    let p := set_next page p in
    let base := page * PAGE_SIZE in
    let! (head, tail) := find_solid 12 (bmp p) base 0 PAGE_SIZE;
    assert! head + 1 =? tail;
    assert! tail <? PAGE_SIZE;
    let! cur := deref (bmp p !! (base + head));
    let head := if solid cur then head else head + 1 in
    assert! head <? PAGE_SIZE;
    let res_page := base + head in
    assert! res_page <? bmp_size p;
    let! res_stat := deref (bmp p !! res_page);
    assert! solid res_stat && free res_stat;
    let b := <[res_page := Blk (solid res_stat) false]> (bmp p) in
    let! b := set_solid_down (Z.to_nat head) base b;
    let p := set_bmp b p in
    assert! used p + reserved p <? total p;
    let! p := (if bool_decide (mode = TAKE) then
                 assert! truth (reserved p); Ok (set_reserved (reserved p - 1) p)
               else Ok p);
    Ok (Z.shiftl res_page 12, set_used (used p + 1) p).

Definition allocate (mode : MODE) (p : pm) : outcome (Z * pm) :=
  let! p := critical_check p; allocate_locked mode p.

Definition reserve_locked (page_count : Z) (p : pm) : bool * pm :=
  if used p + reserved p + page_count + hard_critical_limit p <? total p
  then (true, set_reserved (reserved p + page_count) p)
  else (false, p).

Definition reserve (page_count : Z) (p : pm) : outcome (bool * pm) :=
  let! p := critical_check p; Ok (reserve_locked page_count p).

(** [while(page & PAGE_MASK)]: the entries below a released page are no longer solid. *)
Fixpoint clear_solid_down (fuel : nat) (page : Z) (b : gmap Z BLOCK) : outcome (gmap Z BLOCK) :=
  if truth (Z.land page PAGE_MASK) then
    match fuel with
    | O => NoFuel
    | S fuel =>
        let page := page - 1 in
        let! cur := deref (b !! page);
        if solid cur then clear_solid_down fuel page (<[page := Blk false (free cur)]> b)
        else Ok b
    end
  else Ok b.

Definition release (pa : Z) (p : pm) : outcome pm :=
  assert! Z.land pa PAGE_MASK =? 0;
  let page := Z.shiftr pa 12 in
  assert! page <? bmp_size p;
  let! cur := deref (bmp p !! page);
  if free cur then Bug
  else
    let b := <[page := Blk (solid cur) true]> (bmp p) in
    let! _ := (if page + 1 =? PAGE_SIZE then assert! solid cur; Ok tt else Ok tt);
    let! b := clear_solid_down (Z.to_nat PAGE_SIZE) page b;
    let p := set_bmp b p in
    assert! truth (used p);
    Ok (set_used (used p - 1) p).
End operations.

(** [check_integrity] of the PM_TEST build: the entries of one bitmap page, then all pages. *)
Fixpoint check_page (n : nat) (i : Z) (b : gmap Z BLOCK) (base : Z) (pierce : bool) (found : Z)
  : outcome (bool * Z) :=
  match n with
  | O => Ok (pierce, found)
  | S n =>
      let! cur := deref (b !! (base + i));
      if pierce then
        let! pierce := (if solid cur then
                          if free cur || (i =? 0) then Ok false else Bug
                        else Ok true);
        check_page n (i + 1) b base pierce (if free cur then found + 1 else found)
      else if free cur || negb (solid cur) then Bug
      else check_page n (i + 1) b base pierce found
  end.

Fixpoint check_pages (n : nat) (page : Z) (b : gmap Z BLOCK) (found : Z) : outcome Z :=
  match n with
  | O => Ok found
  | S n =>
      let! (pierce, found) := check_page (Z.to_nat PAGE_SIZE) 0 b (page * PAGE_SIZE) true found;
      if pierce then Bug else check_pages n (page + 1) b found
  end.

Definition check_integrity (p : pm) : outcome unit :=
  let! found := check_pages (Z.to_nat (bmp_page_count p)) 0 (bmp p) 0;
  if found + used p =? total p then Ok tt else Bug.

(** ** Construction *)

(** [struct PMMSCAN]: an entry of the memory map the loader left at [PMMSCAN_BASE]. *)
Record PMMSCAN := Scan { s_base : Z; s_len : Z; s_type : Z }.

(** The tables the constructor maps the bitmap with. *)
Record tables := Tables { pdt0 : gmap Z Z; bmp_pt : gmap Z Z }.

(** The first usable range above 1 MB that holds the bitmap; 0 when there is none. *)
Fixpoint find_bmp_pbase (scan : list PMMSCAN) (page_count : Z) : outcome Z :=
  match scan with
  | [] => Bug
  | it :: scan =>
      if s_type it =? 0 then Ok 0
      else if s_base it <? 0x100000 then find_bmp_pbase scan page_count
      else if negb (s_type it =? 1) then find_bmp_pbase scan page_count
      else
        let aligned_base := align_up 64 (s_base it) PAGE_SIZE in
        if w64 (s_base it + s_len it) <? aligned_base then find_bmp_pbase scan page_count
        else
          let aligned_size :=
            align_down 64 (w64 (s_base it + s_len it - aligned_base)) PAGE_SIZE in
          if aligned_size <? page_count * PAGE_SIZE then find_bmp_pbase scan page_count
          else Ok aligned_base
  end.

(** The two loops that fill the page directory and the page tables of the bitmap. *)
Fixpoint fill_pdt (n : nat) (i pdt_off : Z) (pdt : gmap Z Z) : outcome (gmap Z Z) :=
  match n with
  | O => Ok pdt
  | S n =>
      let data := Z.lor 0x8000000000000103 (PMMBMP_PT_PBASE + i * PAGE_SIZE) in
      let! old := deref (pdt !! (pdt_off + i));
      assert! old =? 0;
      fill_pdt n (i + 1) pdt_off (<[pdt_off + i := data]> pdt)
  end.

Definition pdt_limit : Z := Z.shiftr (BOOT_AREA_TOP - DIRECT_MAP_TOP) 12.

Fixpoint fill_pt (n : nat) (i page_count bmp_pbase : Z) (pt : gmap Z Z) : outcome (gmap Z Z) :=
  match n with
  | O => Ok pt
  | S n =>
      assert! i <? pdt_limit * PAGE_SIZE / 8;
      let data := if i <? page_count
                  then Z.lor 0x8000000000000103 (bmp_pbase + i * PAGE_SIZE) else 0 in
      fill_pt n (i + 1) page_count bmp_pbase (<[i := data]> pt)
  end.

(** [zeromemory] over the first [n] entries. *)
Fixpoint zero_bmp (n : nat) : gmap Z BLOCK :=
  match n with
  | O => ∅
  | S n => <[Z.of_nat n := Blk false false]> (zero_bmp n)
  end.

(** [while(aligned_count--)]: [n] entries from [index] become free. *)
Fixpoint free_run (n : nat) (index bmp_size : Z) (total : Z) (b : gmap Z BLOCK)
  : outcome (Z * gmap Z BLOCK) :=
  match n with
  | O => Ok (total, b)
  | S n =>
      assert! index <? bmp_size;
      let! cur := deref (b !! index);
      if free cur then free_run n (index + 1) bmp_size total b
      else free_run n (index + 1) bmp_size (total + 1) (<[index := Blk (solid cur) true]> b)
  end.

Fixpoint scan_fill (scan : list PMMSCAN) (bmp_size total : Z) (b : gmap Z BLOCK)
  : outcome (Z * gmap Z BLOCK) :=
  match scan with
  | [] => Bug
  | it :: scan =>
      if s_type it =? 0 then Ok (total, b)
      else if negb (s_type it =? 1) || (s_len it =? 0) then scan_fill scan bmp_size total b
      else
        let aligned_base := align_up 64 (s_base it) PAGE_SIZE in
        if w64 (s_base it + s_len it) <? aligned_base then scan_fill scan bmp_size total b
        else
          let aligned_count := Z.shiftr
            (align_down 64 (w64 (s_base it + s_len it - aligned_base)) PAGE_SIZE) 12 in
          let! (total, b) :=
            free_run (Z.to_nat aligned_count) (aligned_base / PAGE_SIZE) bmp_size total b;
          scan_fill scan bmp_size total b
  end.

(** [n] entries from [index] are taken; the loops over kernel and bitmap pages check the index,
    the loop over the low pages does not. *)
Fixpoint take_run (n : nat) (index bmp_size : Z) (check : bool) (b : gmap Z BLOCK)
  : outcome (gmap Z BLOCK) :=
  match n with
  | O => Ok b
  | S n =>
      assert! negb check || (index <? bmp_size);
      let! cur := deref (b !! index);
      take_run n (index + 1) bmp_size check (<[index := Blk (solid cur) false]> b)
  end.

(** The solid bits of one bitmap page, from its last entry down to its last free one. *)
Fixpoint solid_run (off : nat) (base : Z) (b : gmap Z BLOCK) : outcome (gmap Z BLOCK) :=
  match off with
  | O => Ok b
  | S off =>
      let! cur := deref (b !! (base + Z.of_nat off));
      let b := <[base + Z.of_nat off := Blk true (free cur)]> b in
      if free cur then Ok b else solid_run off base b
  end.

Fixpoint build_solid (n : nat) (i : Z) (b : gmap Z BLOCK) : outcome (gmap Z BLOCK) :=
  match n with
  | O => Ok b
  | S n =>
      let! b := solid_run (Z.to_nat PAGE_SIZE) (i * PAGE_SIZE) b;
      build_solid n (i + 1) b
  end.

(** [PM::PM]: from the memory map, [sysinfo->PMM_avl_top] and [sysinfo->kernel_page]. *)
Definition construct (scan : list PMMSCAN) (PMM_avl_top kernel_page : Z) (t : tables)
  : outcome (pm * tables) :=
  let bmp_size := Z.shiftr PMM_avl_top 12 in
  let page_count := Z.shiftr (align_up 64 bmp_size PAGE_SIZE) 12 in
  let pdt_count := Z.shiftr (align_up 64 page_count (PAGE_SIZE / 8)) 9 in
  if pdt_limit <? pdt_count then Bug
  else
    let! bmp_pbase := find_bmp_pbase scan page_count;
    if bmp_pbase =? 0 then Bug
    else
      let! pdt := fill_pdt (Z.to_nat pdt_count) 0 (Z.shiftr (LOWADDR PMMBMP_BASE) 21) (pdt0 t);
      let! pt := fill_pt (Z.to_nat (pdt_count * PAGE_SIZE / 8)) 0 page_count bmp_pbase (bmp_pt t);
      let b := zero_bmp (Z.to_nat (page_count * PAGE_SIZE)) in
      let! (total, b) := scan_fill scan bmp_size 0 b;
      let direct_map_count := Z.shiftr DIRECT_MAP_TOP 12 in
      let boot_area_count := Z.shiftr BOOT_AREA_TOP 12 in
      let! b := take_run (Z.to_nat (direct_map_count + pdt_count)) 0 bmp_size false b;
      let! b := take_run (Z.to_nat kernel_page) boot_area_count bmp_size true b;
      let! b := take_run (Z.to_nat page_count) (Z.shiftr bmp_pbase 12) bmp_size true b;
      let used := direct_map_count + pdt_count + page_count + kernel_page in
      assert! used <? total;
      let! b := build_solid (Z.to_nat page_count) 0 b;
      Ok (Pm (w16 (Z.min (Z.max (w32 (total / 64)) 0x10) 0x1000)) 0 bmp_size total used 0 0
             None 0 b,
          Tables pdt pt).

(** [PM::peek]: [count] bytes from physical address [paddr], page by page through a [map_view];
    [phys] is what the mapped window shows. *)
Fixpoint peek (fuel : nat) (phys : Z -> Z) (page off count : Z) : outcome (list Z) :=
  if truth count then
    match fuel with
    | O => NoFuel
    | S fuel =>
        let len := Z.min (PAGE_SIZE - off) count in
        let! rest := peek fuel phys (w64 (page + PAGE_SIZE)) 0 (count - len);
        Ok (map (fun i => phys (page + (off + i))) (seqZ 0 len) ++ rest)
    end
  else Ok [].

Definition peek_top (phys : Z -> Z) (paddr count : Z) : outcome (list Z) :=
  let off := Z.land paddr PAGE_MASK in
  peek (Z.to_nat count) phys (paddr - off) off count.

(** ** The free pages a bitmap shows *)

Definition freeb (b : gmap Z BLOCK) (i : Z) : bool :=
  match b !! i with Some x => free x | None => false end.

Definition free_pages (b : gmap Z BLOCK) : gset Z :=
  dom (filter (fun ix => free ix.2 = true) b).

Lemma elem_free_pages b i : i ∈ free_pages b <-> freeb b i = true.
Proof.
  unfold free_pages, freeb. rewrite elem_of_dom. split.
  - intros [x Hx]. apply map_lookup_filter_Some in Hx as [-> Hx]. done.
  - destruct (b !! i) as [x|] eqn:E; [|done]. intros Hx. exists x.
    by apply map_lookup_filter_Some.
Qed.

Lemma free_pages_ext b b' : (forall i, freeb b' i = freeb b i) -> free_pages b' = free_pages b.
Proof. intros Hf. apply set_eq. intros i. by rewrite !elem_free_pages, Hf. Qed.

Lemma freeb_insert b i x j : freeb (<[i := x]> b) j = if decide (i = j) then free x else freeb b j.
Proof. unfold freeb. rewrite lookup_insert. by case_decide. Qed.

Lemma freeb_insert_same b i x s : b !! i = Some x ->
  forall j, freeb (<[i := Blk s (free x)]> b) j = freeb b j.
Proof.
  intros Hx j. rewrite freeb_insert. case_decide; [|done]. subst. unfold freeb. by rewrite Hx.
Qed.

Lemma free_pages_take b i x : b !! i = Some x -> free_pages (<[i := Blk (solid x) false]> b)
  = free_pages b ∖ {[i]}.
Proof.
  intros Hx. apply set_eq. intros j. rewrite elem_of_difference, !elem_free_pages, freeb_insert.
  rewrite elem_of_singleton. case_decide; cbn; intuition congruence.
Qed.

Lemma free_pages_give b i x : b !! i = Some x -> free_pages (<[i := Blk (solid x) true]> b)
  = {[i]} ∪ free_pages b.
Proof.
  intros Hx. apply set_eq. intros j. rewrite elem_of_union, !elem_free_pages, freeb_insert.
  rewrite elem_of_singleton. case_decide; cbn; intuition congruence.
Qed.

(** ** Invariant *)

(** One bitmap page: all its entries are mapped, and exactly the entries that no free entry of the
    page follows are solid. *)
Definition page_ok (b : gmap Z BLOCK) (base : Z) : Prop :=
  forall k, 0 <= k < PAGE_SIZE -> exists x, b !! (base + k) = Some x /\
    (solid x = true <-> forall j, k < j < PAGE_SIZE -> freeb b (base + j) = false).

Definition page_free (b : gmap Z BLOCK) (base : Z) : Prop :=
  exists k, 0 <= k < PAGE_SIZE /\ freeb b (base + k) = true.

Record inv (p : pm) : Prop := {
  inv_bmp_size : 0 < bmp_size p < 2 ^ 52;
  inv_pages : forall pg, 0 <= pg < bmp_page_count p -> page_ok (bmp p) (pg * PAGE_SIZE);
  inv_free : forall i, freeb (bmp p) i = true -> 0 <= i < bmp_size p;
  inv_count : used p + Z.of_nat (size (free_pages (bmp p))) = total p;
  inv_used : 0 <= used p;
  inv_reserved : 0 <= reserved p;
  inv_bound : used p + reserved p <= total p;
  inv_next : 0 <= next p < bmp_page_count p;
  inv_hard : 0 <= hard_critical_limit p;
  inv_soft : 0 <= soft_critical_limit p
}.

Lemma bmp_page_count_eq p : 0 < bmp_size p < 2 ^ 52 ->
  bmp_page_count p = (bmp_size p + 4095) / 4096.
Proof.
  intros Hs. unfold bmp_page_count. change PAGE_SIZE with (2 ^ 12).
  rewrite (align_up_pow2 64 (bmp_size p) 12) by lia.
  rewrite Z.shiftr_div_pow2 by lia. rewrite Z.div_mul by lia.
  change (2 ^ 12) with 4096. f_equal. lia.
Qed.

Lemma page_ok_solid_mono b base k k' x x' :
  page_ok b base -> 0 <= k < k' -> k' < PAGE_SIZE ->
  b !! (base + k) = Some x -> b !! (base + k') = Some x' -> solid x = true -> solid x' = true.
Proof.
  intros Hp Hk Hk' Hx Hx' Hs.
  destruct (Hp k) as (y & Hy & Hy'); [lia|]. destruct (Hp k') as (y' & Hz & Hz'); [lia|].
  rewrite Hx in Hy. rewrite Hx' in Hz. norm. apply Hz'. intros j Hj. apply Hy'; [done|]. lia.
Qed.

(** ** The search for a page *)

Lemma find_page_skip p pg x :
  page_ok (bmp p) (pg * PAGE_SIZE) -> bmp p !! (pg * PAGE_SIZE) = Some x ->
  (solid x && negb (free x) = true <-> ~ page_free (bmp p) (pg * PAGE_SIZE)).
Proof.
  intros Hp Hx. destruct (Hp 0) as (y & Hy & Hs); [unfold PAGE_SIZE; lia|].
  rewrite Z.add_0_r in Hy. rewrite Hx in Hy. norm. split.
  - intros Hb [k [Hk Hf]]. bool_norm. destruct (decide (k = 0)) as [->|].
    + unfold freeb in Hf. rewrite Z.add_0_r, Hx in Hf. congruence.
    + rewrite (proj1 Hs) in Hf; [done|done|lia].
  - intros Hn. apply andb_true_iff. split.
    + apply Hs. intros j Hj. destruct (freeb _ _) eqn:E; [|done]. destruct Hn. exists j.
      split; [lia|done].
    + apply negb_true_iff. destruct (free y) eqn:E; [|done]. destruct Hn. exists 0.
      split; [unfold PAGE_SIZE; lia|]. unfold freeb. by rewrite Z.add_0_r, Hx.
Qed.

(** The bitmap page [d] steps after [next], going round. *)
Definition after_next (p : pm) (d : Z) : Z :=
  if next p + d <? bmp_page_count p then next p + d else next p + d - bmp_page_count p.

Lemma after_next_range p d : 0 <= next p < bmp_page_count p -> 0 <= d < bmp_page_count p ->
  0 <= after_next p d < bmp_page_count p.
Proof. intros. unfold after_next. case_if; bool_norm; lia. Qed.

Lemma after_next_succ p d : 0 <= next p < bmp_page_count p -> 0 <= d < bmp_page_count p ->
  (if after_next p d + 1 =? bmp_page_count p then 0 else after_next p d + 1)
  = after_next p (d + 1).
Proof.
  intros. unfold after_next.
  destruct (Z.ltb_spec (next p + d) (bmp_page_count p)),
    (Z.ltb_spec (next p + (d + 1)) (bmp_page_count p)); case_if; bool_norm; lia.
Qed.

Lemma after_next_surj p pg : 0 <= next p < bmp_page_count p -> 0 <= pg < bmp_page_count p ->
  exists d, 0 <= d < bmp_page_count p /\ after_next p d = pg.
Proof.
  intros. destruct (decide (next p <= pg)).
  - exists (pg - next p). unfold after_next. case_if; bool_norm; lia.
  - exists (pg - next p + bmp_page_count p). unfold after_next. case_if; bool_norm; lia.
Qed.

Lemma find_page_loop p fuel d :
  inv p -> 0 <= d < bmp_page_count p -> (Z.to_nat (bmp_page_count p - d) <= fuel)%nat ->
  (forall e, 0 <= e < d -> ~ page_free (bmp p) (after_next p e * PAGE_SIZE)) ->
  match find_page fuel p (after_next p d) with
  | Ok pg => exists d', 0 <= d' < bmp_page_count p /\ pg = after_next p d' /\
      page_free (bmp p) (pg * PAGE_SIZE) /\
      forall e, 0 <= e < d' -> ~ page_free (bmp p) (after_next p e * PAGE_SIZE)
  | Bug => forall e, 0 <= e < bmp_page_count p -> ~ page_free (bmp p) (after_next p e * PAGE_SIZE)
  | NoFuel => False
  end.
Proof.
  intros Hi. revert d. induction fuel as [|fuel IH]; intros d Hd Hf Hno; [lia|].
  cbn [find_page]. pose proof (inv_next _ Hi) as Hn.
  pose proof (after_next_range p d Hn Hd) as Hr.
  rewrite ensure_true by (apply Z.ltb_lt; lia). cbn [obind].
  destruct (inv_pages _ Hi _ Hr 0) as (x & Hx & _); [unfold PAGE_SIZE; lia|].
  rewrite Z.add_0_r in Hx. rewrite Hx. cbn [deref obind].
  pose proof (find_page_skip p _ x (inv_pages _ Hi _ Hr) Hx) as Hs.
  destruct (solid x && negb (free x)) eqn:E.
  - rewrite after_next_succ by done.
    assert (Hno' : forall e, 0 <= e < d + 1 -> ~ page_free (bmp p) (after_next p e * PAGE_SIZE)).
    { intros e He. destruct (decide (e = d)) as [->|]; [by apply Hs|apply Hno; lia]. }
    destruct (decide (d + 1 = bmp_page_count p)) as [Hl|Hl].
    + replace (after_next p (d + 1) =? next p) with true.
      * intros e He. apply Hno'. lia.
      * symmetry. apply Z.eqb_eq. unfold after_next. case_if; bool_norm; lia.
    + replace (after_next p (d + 1) =? next p) with false.
      * apply IH; [lia|lia|done].
      * symmetry. apply Z.eqb_neq. unfold after_next. case_if; bool_norm; lia.
  - exists d. split; [done|]. split; [done|]. split; [|done].
    destruct (decide (Exists (fun k => freeb (bmp p) (after_next p d * PAGE_SIZE + k) = true)
                (seqZ 0 PAGE_SIZE))) as [Hex|Hex].
    + apply Exists_exists in Hex as (k & Hk & Hf'). apply elem_of_seqZ in Hk. exists k.
      split; [lia|done].
    + exfalso. enough (false = true) by done. apply Hs. intros (k & Hk & Hk'). apply Hex.
      apply Exists_exists. exists k. split; [apply elem_of_seqZ; lia|done].
Qed.

Lemma find_page_spec p : inv p ->
  match find_page (S (Z.to_nat (bmp_page_count p))) p (next p) with
  | Ok pg => 0 <= pg < bmp_page_count p /\ page_free (bmp p) (pg * PAGE_SIZE) /\
      exists d, 0 <= d < bmp_page_count p /\ pg = after_next p d /\
      forall e, 0 <= e < d -> ~ page_free (bmp p) (after_next p e * PAGE_SIZE)
  | Bug => free_pages (bmp p) = ∅
  | NoFuel => False
  end.
Proof.
  intros Hi. pose proof (inv_next _ Hi) as Hn.
  pose proof (find_page_loop p (S (Z.to_nat (bmp_page_count p))) 0 Hi) as H.
  assert (after_next p 0 = next p) as Ha by (unfold after_next; case_if; bool_norm; lia).
  rewrite Ha in H. specialize (H ltac:(lia) ltac:(lia) ltac:(intros; lia)).
  destruct (find_page _ _ _) as [pg| |]; [|..]; [|clear Ha|done].
  - destruct H as (d & Hd & -> & Hf & Hno). split; [by apply after_next_range|].
    split; [done|]. eauto.
  - apply set_eq. intros i. rewrite elem_free_pages. split; [|set_solver].
    intros Hf. pose proof (inv_free _ Hi _ Hf) as Hb. exfalso.
    pose proof (inv_bmp_size _ Hi) as Hbs. rewrite (bmp_page_count_eq _ Hbs) in H, Hn.
    destruct (after_next_surj p (i / PAGE_SIZE)) as (d & Hd & He).
    + by rewrite (bmp_page_count_eq _ Hbs).
    + rewrite (bmp_page_count_eq _ Hbs). unfold PAGE_SIZE. dlia.
    + rewrite (bmp_page_count_eq _ Hbs) in Hd. apply (H d Hd). rewrite He.
      exists (i mod PAGE_SIZE). unfold PAGE_SIZE in *. split; [dlia|].
      replace (i / 4096 * 4096 + i mod 4096) with i by dlia. done.
Qed.

(** ** Taking the highest free page of a bitmap page *)

Lemma find_solid_spec b base fuel head tail :
  page_ok b base -> 0 <= head < tail -> tail <= PAGE_SIZE -> tail - head <= 2 ^ Z.of_nat fuel ->
  (head = 0 \/ exists x, b !! (base + head) = Some x /\ solid x = false) ->
  (tail = PAGE_SIZE \/ exists x, b !! (base + tail) = Some x /\ solid x = true) ->
  exists h, find_solid fuel b base head tail = Ok (h, h + 1) /\ 0 <= h < PAGE_SIZE /\
    (h = 0 \/ exists x, b !! (base + h) = Some x /\ solid x = false) /\
    (h + 1 = PAGE_SIZE \/ exists x, b !! (base + (h + 1)) = Some x /\ solid x = true).
Proof.
  intros Hp. revert head tail. induction fuel as [|fuel IH]; intros head tail Hh Ht Hf H1 H2.
  - cbn in Hf. assert (tail = head + 1) as -> by lia. exists head. cbn [find_solid].
    rewrite Z.ltb_irrefl. split; [done|]. split; [lia|]. done.
  - cbn [find_solid]. case_if; bool_norm.
    2: { assert (tail = head + 1) as -> by lia. exists head. split; [done|]. split; [lia|]. done. }
    rewrite Nat2Z.inj_succ, Z.pow_succ_r in Hf by lia.
    destruct (Hp ((head + tail) / 2)) as (x & Hx & _); [dlia|].
    rewrite Hx. cbn [deref obind]. destruct (solid x) eqn:Es.
    + apply IH; [dlia|dlia|dlia|done|]. eauto.
    + apply IH; [dlia|done|dlia| |done]. eauto.
Qed.

Lemma set_solid_down_spec base h b :
  Z.of_nat h <= PAGE_SIZE ->
  (forall k, 0 <= k < PAGE_SIZE -> exists x, b !! (base + k) = Some x /\
     if decide (k < Z.of_nat h) then solid x = false else solid x = true /\ free x = false) ->
  exists b', set_solid_down h base b = Ok b' /\ page_ok b' base /\
    (forall i, freeb b' i = freeb b i) /\
    (forall i, ~ (base <= i < base + PAGE_SIZE) -> b' !! i = b !! i).
Proof.
  revert b. induction h as [|h IH]; intros b Hh Hb.
  - exists b. split; [done|]. split; [|done]. intros k Hk.
    destruct (Hb k Hk) as (x & Hx & Hs). rewrite decide_False in Hs by lia.
    exists x. split; [done|]. split; [|tauto]. intros _ j Hj.
    destruct (Hb j) as (y & Hy & Hs'); [lia|]. rewrite decide_False in Hs' by lia.
    unfold freeb. rewrite Hy. tauto.
  - cbn [set_solid_down]. destruct (Hb (Z.of_nat h)) as (x & Hx & Hs); [lia|].
    rewrite decide_True in Hs by lia. rewrite Hx. cbn [deref obind].
    rewrite ensure_true by (by rewrite Hs). cbn [obind].
    pose proof (freeb_insert_same b _ _ true Hx) as Hsame.
    destruct (free x) eqn:Ef.
    + eexists. split; [done|]. split; [|split; [done|]].
      2: { intros i Hi. rewrite lookup_insert_ne; [done|]. lia. }
      intros k Hk. destruct (Hb k Hk) as (y & Hy & Hs').
      destruct (decide (k = Z.of_nat h)) as [->|Hn].
      * rewrite lookup_insert_eq. eexists. split; [done|]. split; [|done]. intros _ j Hj.
        rewrite Hsame. destruct (Hb j) as (z & Hz & Hz'); [lia|].
        rewrite decide_False in Hz' by lia. unfold freeb. rewrite Hz. tauto.
      * rewrite lookup_insert_ne by lia. exists y. split; [done|].
        case_decide.
        -- rewrite Hs'. split; [done|]. intros Hj. specialize (Hj (Z.of_nat h) ltac:(lia)).
           rewrite Hsame in Hj. unfold freeb in Hj. rewrite Hx in Hj. congruence.
        -- split; [|tauto]. intros _ j Hj. rewrite Hsame.
           destruct (Hb j) as (z & Hz & Hz'); [lia|].
           rewrite decide_False in Hz' by lia. unfold freeb. rewrite Hz. tauto.
    + destruct (IH (<[base + Z.of_nat h := Blk true false]> b)) as (b' & E & Hok & Hf & Ho).
      * lia.
      * intros k Hk. destruct (decide (k = Z.of_nat h)) as [->|Hn].
        -- rewrite lookup_insert_eq. eexists. split; [done|]. by rewrite decide_False by lia.
        -- rewrite lookup_insert_ne by lia. destruct (Hb k Hk) as (y & Hy & Hs').
           exists y. split; [done|]. repeat case_decide; try lia; done.
      * exists b'. split; [done|]. split; [done|]. split.
        -- intros i. rewrite Hf. done.
        -- intros i Hi. rewrite Ho by done. rewrite lookup_insert_ne; [done|lia].
Qed.

(** A bitmap page with a free entry has a highest one; it is the first solid entry. *)
Lemma highest_free b base : page_ok b base -> page_free b base ->
  exists h x, find_solid 12 b base 0 PAGE_SIZE = Ok (h, h + 1) /\ 0 <= h /\ h + 1 < PAGE_SIZE /\
    b !! (base + h) = Some x /\
    let k := if solid x then h else h + 1 in
    0 <= k < PAGE_SIZE /\ b !! (base + k) = Some (Blk true true) /\
    (forall j, k < j < PAGE_SIZE -> freeb b (base + j) = false) /\
    (forall j y, 0 <= j < k -> b !! (base + j) = Some y -> solid y = false).
Proof.
  intros Hp Hfree.
  destruct (find_solid_spec b base 12 0 PAGE_SIZE Hp) as (h & E & Hh & H1 & H2).
  { unfold PAGE_SIZE. lia. } { lia. } { unfold PAGE_SIZE. cbn. lia. } { by left. } { by left. }
  assert (Hlast : h + 1 < PAGE_SIZE).
  { destruct (decide (h + 1 < PAGE_SIZE)); [done|]. exfalso.
    assert (h = PAGE_SIZE - 1) as Hl by lia.
    destruct H1 as [|(x & Hx & Hs)]; [unfold PAGE_SIZE in *; lia|].
    destruct (Hp h Hh) as (y & Hy & Hy'). rewrite Hx in Hy. norm.
    enough (solid y = true) by congruence. apply Hy'. intros. lia. }
  destruct H2 as [|(x1 & Hx1 & Hs1)]; [lia|].
  destruct (Hp h Hh) as (x & Hx & Hxs). exists h, x.
  split; [done|]. split; [lia|]. split; [done|]. split; [done|].
  assert (Hk : let k := if solid x then h else h + 1 in
    exists y, b !! (base + k) = Some y /\ solid y = true /\
      forall j y, 0 <= j < k -> b !! (base + j) = Some y -> solid y = false).
  { cbn. destruct (solid x) eqn:Es.
    - exists x. split; [done|]. split; [done|]. intros j y Hj Hy. exfalso.
      destruct H1 as [->|(z & Hz & Hs)]; [lia|]. congruence.
    - exists x1. split; [done|]. split; [done|]. intros j y Hj Hy.
      destruct (decide (j = h)) as [->|]; [congruence|].
      destruct (solid y) eqn:Ey; [|done].
      rewrite (page_ok_solid_mono b base j h y x Hp) in Es; [done|lia|lia|done|done|done]. }
  cbn in Hk |- *. set (k := if solid x then h else h + 1) in *.
  assert (0 <= k < PAGE_SIZE) as Hkr by (unfold k; destruct (solid x); lia).
  destruct Hk as (y & Hy & Hsy & Hlow). split; [done|].
  destruct (Hp k Hkr) as (z & Hz & Hzs). rewrite Hy in Hz. injection Hz as <-.
  assert (Habove : forall j, k < j < PAGE_SIZE -> freeb b (base + j) = false) by (by apply Hzs).
  split; [|done]. rewrite Hy. destruct y as [s f]. cbn in Hsy. subst s. do 2 f_equal.
  destruct f; [done|]. exfalso. destruct Hfree as (k' & Hk' & Hf').
  destruct (Z.lt_trichotomy k' k) as [Hlt|[->|Hgt]].
  - destruct (Hp (k - 1)) as (u & Hu & Hus); [lia|].
    enough (solid u = true) as Eu by (rewrite (Hlow (k - 1) u) in Eu; [done|lia|done]).
    apply Hus. intros j Hj. destruct (decide (j = k)) as [->|]; [|apply Habove; lia].
    unfold freeb. by rewrite Hy.
  - unfold freeb in Hf'. rewrite Hy in Hf'. done.
  - rewrite Habove in Hf' by lia. done.
Qed.

(** Clearing that entry and marking the entries below restores the bitmap page. *)
Lemma take_highest b base k :
  page_ok b base -> 0 <= k < PAGE_SIZE -> b !! (base + k) = Some (Blk true true) ->
  (forall j, k < j < PAGE_SIZE -> freeb b (base + j) = false) ->
  (forall j y, 0 <= j < k -> b !! (base + j) = Some y -> solid y = false) ->
  exists b', set_solid_down (Z.to_nat k) base (<[base + k := Blk true false]> b) = Ok b' /\
    page_ok b' base /\ free_pages b' = free_pages b ∖ {[base + k]} /\
    (forall i, ~ (base <= i < base + PAGE_SIZE) -> b' !! i = b !! i).
Proof.
  intros Hp Hk Hb Habove Hlow.
  destruct (set_solid_down_spec base (Z.to_nat k) (<[base + k := Blk true false]> b))
    as (b' & E & Hok & Hf & Ho).
  - lia.
  - intros j Hj. rewrite Z2Nat.id by lia.
    destruct (decide (j = k)) as [->|].
    + rewrite lookup_insert_eq. eexists. split; [done|]. by rewrite decide_False by lia.
    + rewrite lookup_insert_ne by lia. destruct (Hp j Hj) as (y & Hy & Hys).
      exists y. split; [done|]. case_decide; [apply (Hlow j); [lia|done]|].
      split.
      * apply Hys. intros. apply Habove. lia.
      * pose proof (Habove j ltac:(lia)) as Hfj. unfold freeb in Hfj. by rewrite Hy in Hfj.
  - exists b'. split; [done|]. split; [done|]. split.
    + rewrite (free_pages_ext _ _ Hf). apply (free_pages_take b (base + k) _ Hb).
    + intros i Hi. rewrite Ho by done. rewrite lookup_insert_ne; [done|lia].
Qed.

Lemma page_ok_frame b b' base : (forall i, base <= i < base + PAGE_SIZE -> b' !! i = b !! i) ->
  page_ok b base -> page_ok b' base.
Proof.
  intros Hf Hp k Hk. destruct (Hp k Hk) as (x & Hx & Hs). exists x. rewrite Hf by lia.
  split; [done|]. rewrite Hs. split; intros Hj j Hj'; specialize (Hj j Hj');
    unfold freeb in *; rewrite Hf in *; [done|lia|done|lia].
Qed.

(** Pages other than the one a change is confined to keep their entries. *)
Lemma page_ok_other (b b' : gmap Z BLOCK) pg pg' :
  (forall i, ~ (pg * PAGE_SIZE <= i < pg * PAGE_SIZE + PAGE_SIZE) -> b' !! i = b !! i) ->
  (pg' = pg -> page_ok b' (pg * PAGE_SIZE)) -> page_ok b (pg' * PAGE_SIZE) ->
  page_ok b' (pg' * PAGE_SIZE).
Proof.
  intros Ho Hs Hp. destruct (decide (pg' = pg)) as [->|]; [auto|].
  eapply page_ok_frame; [|done]. intros i Hi. apply Ho. unfold PAGE_SIZE in *. lia.
Qed.

(** ** Allocation and release *)

(** What one allocation does to the set of free pages and the counters: the page taken is the
    highest free one of its bitmap page, and no bitmap page between [next] and that one has a free
    page. *)
Record taken (mode : MODE) (p : pm) (page : Z) (p' : pm) : Prop := {
  taken_was_free : page ∈ free_pages (bmp p);
  taken_free : free_pages (bmp p') = free_pages (bmp p) ∖ {[page]};
  taken_highest : forall j, page < j -> j / PAGE_SIZE = page / PAGE_SIZE ->
    j ∉ free_pages (bmp p);
  taken_first : exists d, 0 <= d < bmp_page_count p /\ page / PAGE_SIZE = after_next p d /\
    forall e, 0 <= e < d -> forall j, j / PAGE_SIZE = after_next p e -> j ∉ free_pages (bmp p);
  taken_next : next p' = page / PAGE_SIZE;
  taken_used : used p' = used p + 1;
  taken_reserved : reserved p' = reserved p - b2z (bool_decide (mode = TAKE));
  taken_room : used p + reserved p < total p;
  taken_had_reserved : mode = TAKE -> reserved p <> 0;
  taken_total : total p' = total p;
  taken_callback : callback p' = callback p;
  taken_hard : hard_critical_limit p' = hard_critical_limit p
}.

Lemma not_page_free b pg j :
  ~ page_free b (pg * PAGE_SIZE) -> j / PAGE_SIZE = pg -> j ∉ free_pages b.
Proof.
  intros Hn <- Hj. apply elem_free_pages in Hj. apply Hn. exists (j mod PAGE_SIZE).
  unfold PAGE_SIZE in *. split; [dlia|].
  by replace (j / 4096 * 4096 + j mod 4096) with j by dlia.
Qed.

Lemma size_take (s : gset Z) i : i ∈ s -> Z.of_nat (size (s ∖ {[i]})) = Z.of_nat (size s) - 1.
Proof.
  intros Hi. rewrite size_difference by set_solver. rewrite size_singleton.
  assert (size s <> 0%nat) by (intros H%size_empty_inv; set_solver). lia.
Qed.

Lemma size_give (s : gset Z) i : i ∉ s -> Z.of_nat (size ({[i]} ∪ s)) = Z.of_nat (size s) + 1.
Proof. intros Hi. rewrite size_union by set_solver. rewrite size_singleton. lia. Qed.

Lemma allocate_locked_spec mode p : inv p ->
  match allocate_locked mode p with
  | Ok (pa, p') =>
      if bool_decide (mode = NONE) && (total p <=? used p + reserved p + hard_critical_limit p)
      then pa = 0 /\ p' = p
      else exists page, pa = page * PAGE_SIZE /\ taken mode p page p' /\ inv p'
  | Bug => (mode = NONE -> used p + reserved p + hard_critical_limit p < total p) /\
    (used p + reserved p = total p \/ mode = TAKE /\ reserved p = 0)
  | NoFuel => False
  end.
Proof.
  intros Hi. unfold allocate_locked.
  destruct (bool_decide (mode = NONE) && _) eqn:Eref; [done|].
  assert (Href : mode = NONE -> used p + reserved p + hard_critical_limit p < total p).
  { intros ->. rewrite bool_decide_eq_true_2 in Eref by done. cbn [andb] in Eref.
    by bool_norm. }
  clear Eref.
  pose proof (find_page_spec p Hi) as Hfind.
  destruct (find_page _ p (next p)) as [pg| |]; [| |done].
  2: { cbn [obind]. split; [done|]. left. pose proof (inv_count _ Hi) as Hc.
       rewrite Hfind, size_empty in Hc. pose proof (inv_bound _ Hi).
       pose proof (inv_reserved _ Hi). lia. }
  destruct Hfind as (Hpg & Hfree & d & Hd & Hpgd & Hskip). cbn [obind].
  pose proof (inv_pages _ Hi pg Hpg) as Hpok.
  destruct (highest_free _ _ Hpok Hfree) as (h & x & Eh & Hh0 & Hh1 & Hx & Hk).
  cbn [bmp set_next]. rewrite Eh. cbn [obind].
  rewrite ensure_true by (apply Z.eqb_eq; lia). cbn [obind].
  rewrite ensure_true by (apply Z.ltb_lt; lia). cbn [obind].
  rewrite Hx. cbn [deref obind]. cbn in Hk.
  set (k := if solid x then h else h + 1) in *.
  destruct Hk as (Hkr & Hkb & Habove & Hlow).
  rewrite ensure_true by (apply Z.ltb_lt; lia). cbn [obind].
  assert (Hkf : pg * PAGE_SIZE + k ∈ free_pages (bmp p)).
  { apply elem_free_pages. unfold freeb. by rewrite Hkb. }
  pose proof (inv_free _ Hi _ (proj1 (elem_free_pages _ _) Hkf)) as Hkbs.
  cbn [bmp_size set_next].
  rewrite ensure_true by (apply Z.ltb_lt; lia). cbn [obind].
  rewrite Hkb. cbn [deref obind ensure solid free andb].
  destruct (take_highest _ _ k Hpok Hkr Hkb Habove Hlow) as (b' & Eb & Hok' & Hfp & Hoth).
  rewrite Eb. cbn [obind used reserved total set_bmp set_next].
  destruct (used p + reserved p <? total p) eqn:Eroom; cbn [ensure obind].
  2: { bool_norm. split; [done|]. left. pose proof (inv_bound _ Hi). lia. }
  bool_norm.
  destruct (decide (mode = TAKE /\ reserved p = 0)) as [[Hm Hr]|Htake].
  { rewrite bool_decide_eq_true_2 by done.
    replace (truth (reserved p)) with false by (unfold truth; by rewrite Hr).
    cbn [ensure obind]. split; [done|]. by right. }
  set (p2 := if bool_decide (mode = TAKE) then set_reserved (reserved p - 1)
                 (set_bmp b' (set_next pg p)) else set_bmp b' (set_next pg p)).
  assert (E2 : (if bool_decide (mode = TAKE) then
                 assert! truth (reserved p);
                 Ok (set_reserved (reserved p - 1) (set_bmp b' (set_next pg p)))
               else Ok (set_bmp b' (set_next pg p))) = Ok p2).
  { unfold p2. case_bool_decide; [|done]. rewrite ensure_true; [done|].
    unfold truth. apply negb_true_iff, Z.eqb_neq. intros ?. by apply Htake. }
  rewrite E2. cbn [obind]. rewrite Z.shiftl_mul_pow2 by lia.
  assert (Hb2 : bmp p2 = b' /\ used p2 = used p /\ total p2 = total p /\ next p2 = pg /\
    reserved p2 = reserved p - b2z (bool_decide (mode = TAKE)) /\
    bmp_size p2 = bmp_size p /\ soft_critical_limit p2 = soft_critical_limit p /\
    hard_critical_limit p2 = hard_critical_limit p /\ callback p2 = callback p).
  { unfold p2. case_bool_decide; cbn; repeat split; lia. }
  destruct Hb2 as (E1 & Eu & Et & En & Er & Ebs & Es & Ehd & Ecb).
  exists (pg * PAGE_SIZE + k). split; [done|].
  assert (Hdiv : (pg * PAGE_SIZE + k) / PAGE_SIZE = pg) by (unfold PAGE_SIZE in *; dlia).
  split.
  - constructor; cbn [set_used bmp used reserved total next callback hard_critical_limit];
      rewrite ?E1, ?Eu, ?Et, ?En, ?Er, ?Hdiv; try done.
    + intros j Hj Hg Hin. apply elem_free_pages in Hin.
      assert (Hfj : freeb (bmp p) (pg * PAGE_SIZE + (j - pg * PAGE_SIZE)) = false).
      { apply Habove. unfold PAGE_SIZE in *. dlia. }
      replace (pg * PAGE_SIZE + (j - pg * PAGE_SIZE)) with j in Hfj by lia. congruence.
    + exists d. split; [done|]. split; [done|]. intros e He j Hj.
      eapply not_page_free; [|done]. by apply Hskip.
    + intros Hm Hr. by apply Htake.
  - assert (Hpc : bmp_page_count (set_used (used p2 + 1) p2) = bmp_page_count p).
    { unfold bmp_page_count. cbn [set_used bmp_size]. by rewrite Ebs. }
    constructor; rewrite ?Hpc;
      cbn [set_used bmp bmp_size used reserved total next hard_critical_limit
           soft_critical_limit]; rewrite ?E1, ?Eu, ?Et, ?En, ?Er, ?Ebs, ?Es, ?Ehd.
    + apply (inv_bmp_size _ Hi).
    + intros pg' Hpg'. eapply (page_ok_other (bmp p)); [done|done|]. by apply (inv_pages _ Hi).
    + intros i Hif. apply (inv_free _ Hi). apply elem_free_pages. apply elem_free_pages in Hif.
      rewrite Hfp in Hif. by apply elem_of_difference in Hif as [? _].
    + rewrite Hfp, size_take by done. pose proof (inv_count _ Hi). lia.
    + pose proof (inv_used _ Hi). lia.
    + pose proof (inv_reserved _ Hi). case_bool_decide; cbn; [|lia].
      destruct (decide (reserved p = 0)); [by destruct Htake|]. lia.
    + case_bool_decide; cbn; lia.
    + done.
    + apply (inv_hard _ Hi).
    + apply (inv_soft _ Hi).
Qed.

Lemma clear_solid_down_spec b base k fuel :
  (exists pg, base = pg * PAGE_SIZE) -> 0 <= k < PAGE_SIZE -> (Z.to_nat k <= fuel)%nat ->
  (forall j, 0 <= j < k -> exists x, b !! (base + j) = Some x) ->
  (forall j j' x x', 0 <= j < j' -> j' < k -> b !! (base + j) = Some x ->
     b !! (base + j') = Some x' -> solid x = true -> solid x' = true) ->
  exists b', clear_solid_down fuel (base + k) b = Ok b' /\
    (forall i, freeb b' i = freeb b i) /\
    (forall i, ~ (base <= i < base + k) -> b' !! i = b !! i) /\
    (forall j, 0 <= j < k -> exists x, b' !! (base + j) = Some x /\ solid x = false).
Proof.
  intros [pg ->]. revert k b. induction fuel as [|fuel IH]; intros k b Hk Hf Hb Hm.
  all: cbn [clear_solid_down]; rewrite land_PAGE_MASK; unfold truth.
  all: assert (Hmod : (pg * PAGE_SIZE + k) mod PAGE_SIZE = k) by (unfold PAGE_SIZE in *; dlia).
  all: rewrite Hmod; destruct (k =? 0) eqn:Ek; bool_norm; cbn [negb].
  1, 3: exists b; split; [done|]; split; [done|]; split; [done|]; lia.
  { lia. }
  destruct (Hb (k - 1)) as (x & Hx); [lia|].
  replace (pg * PAGE_SIZE + k - 1) with (pg * PAGE_SIZE + (k - 1)) by lia.
  rewrite Hx. cbn [deref obind]. destruct (solid x) eqn:Es.
  - destruct (IH (k - 1) (<[pg * PAGE_SIZE + (k - 1) := Blk false (free x)]> b))
      as (b' & E & Hfr & Ho & Hc).
    + lia.
    + lia.
    + intros j Hj. rewrite lookup_insert_ne by lia. apply Hb. lia.
    + intros j j' y y' Hj Hj' Hy Hy'. rewrite lookup_insert_ne in Hy, Hy' by lia.
      eapply Hm; [..|exact Hy|exact Hy']; lia.
    + exists b'. split; [done|]. split; [|split].
      * intros i. rewrite Hfr. by apply freeb_insert_same.
      * intros i Hi. rewrite Ho by lia. rewrite lookup_insert_ne; [done|lia].
      * intros j Hj. destruct (decide (j = k - 1)) as [->|]; [|apply Hc; lia].
        rewrite Ho by lia. rewrite lookup_insert_eq. eauto.
  - exists b. split; [done|]. split; [done|]. split; [done|]. intros j Hj.
    destruct (Hb j Hj) as (y & Hy). exists y. split; [done|].
    destruct (decide (j = k - 1)) as [->|]; [congruence|].
    destruct (solid y) eqn:Ey; [|done].
    rewrite (Hm j (k - 1) y x) in Es; [done|lia|lia|done|done|done].
Qed.

(** The page [i] becomes free: its bitmap page stays well formed. *)
Lemma give_page b pg k x b' :
  page_ok b (pg * PAGE_SIZE) -> 0 <= k < PAGE_SIZE ->
  b !! (pg * PAGE_SIZE + k) = Some x ->
  (forall i, freeb b' i = freeb (<[pg * PAGE_SIZE + k := Blk (solid x) true]> b) i) ->
  (forall i, ~ (pg * PAGE_SIZE <= i < pg * PAGE_SIZE + k) ->
     b' !! i = <[pg * PAGE_SIZE + k := Blk (solid x) true]> b !! i) ->
  (forall j, 0 <= j < k -> exists y, b' !! (pg * PAGE_SIZE + j) = Some y /\ solid y = false) ->
  page_ok b' (pg * PAGE_SIZE).
Proof.
  intros Hp Hk Hx Hf Ho Hc j Hj. destruct (Z.lt_trichotomy j k) as [Hlt|[->|Hgt]].
  - destruct (Hc j) as (y & Hy & Hs); [lia|]. exists y. split; [done|]. rewrite Hs.
    split; [done|]. intros Hall. specialize (Hall k ltac:(lia)).
    rewrite Hf, freeb_insert, decide_True in Hall by done. done.
  - rewrite Ho by lia. rewrite lookup_insert_eq. eexists. split; [done|]. cbn [solid].
    destruct (Hp k Hk) as (y & Hy & Hs). rewrite Hx in Hy. norm. rewrite Hs.
    split; intros Hall i Hi; specialize (Hall i Hi);
      rewrite Hf, freeb_insert, decide_False in * by lia; done.
  - rewrite Ho by lia. rewrite lookup_insert_ne by lia.
    destruct (Hp j Hj) as (y & Hy & Hs). exists y. split; [done|]. rewrite Hs.
    split; intros Hall i Hi; specialize (Hall i Hi);
      rewrite Hf, freeb_insert, decide_False in * by lia; done.
Qed.

Lemma release_spec pa p : inv p -> 0 <= pa ->
  match release pa p with
  | Ok p' => exists page, pa = page * PAGE_SIZE /\ page < bmp_size p /\
    page ∉ free_pages (bmp p) /\ free_pages (bmp p') = {[page]} ∪ free_pages (bmp p) /\
    p' = set_used (used p - 1) (set_bmp (bmp p') p) /\ 0 < used p /\ inv p'
  | Bug => pa mod PAGE_SIZE <> 0 \/ bmp_size p <= pa / PAGE_SIZE \/
      pa / PAGE_SIZE ∈ free_pages (bmp p) \/ used p = 0
  | NoFuel => False
  end.
Proof.
  intros Hi Hpa. unfold release. rewrite land_PAGE_MASK.
  destruct (pa mod PAGE_SIZE =? 0) eqn:Ea; cbn [ensure obind]; bool_norm; [|by left].
  rewrite Z.shiftr_div_pow2 by lia. change (2 ^ 12) with PAGE_SIZE.
  destruct (pa / PAGE_SIZE <? bmp_size p) eqn:Eb; cbn [ensure obind]; bool_norm;
    [|right; left; lia].
  set (page := pa / PAGE_SIZE) in *.
  assert (Hpage : pa = page * PAGE_SIZE) by (unfold page, PAGE_SIZE in *; dlia).
  set (pg := page / PAGE_SIZE). set (k := page mod PAGE_SIZE).
  assert (Hpgk : page = pg * PAGE_SIZE + k) by (unfold pg, k, PAGE_SIZE; dlia).
  assert (Hkr : 0 <= k < PAGE_SIZE) by (unfold k, PAGE_SIZE; dlia).
  assert (Hpg : 0 <= pg < bmp_page_count p).
  { rewrite (bmp_page_count_eq _ (inv_bmp_size _ Hi)).
    pose proof (inv_bmp_size _ Hi). unfold pg, page, PAGE_SIZE in *. dlia. }
  pose proof (inv_pages _ Hi pg Hpg) as Hpok.
  destruct (Hpok k Hkr) as (x & Hx & Hxs). rewrite <- Hpgk in Hx. rewrite Hx.
  cbn [deref obind].
  destruct (free x) eqn:Ef.
  { right. right. left. apply elem_free_pages. unfold freeb. by rewrite Hx. }
  assert (Hassert : (if page + 1 =? PAGE_SIZE then assert! solid x; Ok tt else Ok tt) = Ok tt).
  { case_if; [|done]. bool_norm. rewrite ensure_true; [done|]. apply Hxs.
    intros j Hj. unfold pg, k, PAGE_SIZE in *. dlia. }
  assert (Hp0 : 0 <= page) by (unfold page, PAGE_SIZE; dlia).
  clearbody k pg page. rewrite Hassert. cbn [obind].
  destruct (clear_solid_down_spec (<[page := Blk (solid x) true]> (bmp p)) (pg * PAGE_SIZE) k
              (Z.to_nat PAGE_SIZE)) as (b' & E & Hf & Ho & Hc); [eauto|done|lia|..].
  { intros j Hj. rewrite lookup_insert_ne by lia. destruct (Hpok j) as (y & Hy & _); [lia|].
    eauto. }
  { intros j j' y y' Hj Hj' Hy Hy' Hs. rewrite lookup_insert_ne in Hy, Hy' by lia.
    eapply (page_ok_solid_mono _ _ j j'); [exact Hpok|lia|lia|done..]. }
  rewrite <- Hpgk in E. rewrite E. cbn [obind used set_bmp].
  unfold truth. destruct (used p =? 0) eqn:Eu; cbn [negb ensure obind]; bool_norm; [by auto|].
  assert (Hnf : page ∉ free_pages (bmp p)).
  { rewrite elem_free_pages. unfold freeb. rewrite Hx. congruence. }
  assert (Hfree' : free_pages b' = {[page]} ∪ free_pages (bmp p)).
  { rewrite (free_pages_ext _ _ Hf). by apply free_pages_give. }
  pose proof (inv_used _ Hi).
  exists page. split; [done|]. split; [done|]. split; [done|]. split; [done|]. split; [done|].
  split; [lia|].
  assert (Hpc : bmp_page_count (set_used (used p - 1) (set_bmp b' p)) = bmp_page_count p) by done.
  constructor; rewrite ?Hpc;
    cbn [set_used set_bmp bmp bmp_size used reserved total next hard_critical_limit
         soft_critical_limit].
  - apply (inv_bmp_size _ Hi).
  - intros pg' Hpg'. eapply (page_ok_other (bmp p) _ pg).
    + intros i Hi'. rewrite Ho by lia. rewrite lookup_insert_ne; [done|lia].
    + intros _. rewrite Hpgk in Hx, Hf, Ho.
      by eapply give_page.
    + by apply (inv_pages _ Hi).
  - intros i Hif. apply elem_free_pages in Hif. rewrite Hfree' in Hif.
    apply elem_of_union in Hif as [Hif|Hif].
    + apply elem_of_singleton in Hif as ->. lia.
    + by apply (inv_free _ Hi), elem_free_pages.
  - rewrite Hfree', size_give by done.
    pose proof (inv_count _ Hi). lia.
  - lia.
  - apply (inv_reserved _ Hi).
  - pose proof (inv_bound _ Hi). lia.
  - apply (inv_next _ Hi).
  - apply (inv_hard _ Hi).
  - apply (inv_soft _ Hi).
Qed.

(** ** The integrity check *)

(** Number of free entries among [n] from [lo]. *)
Fixpoint cnt (b : gmap Z BLOCK) (lo : Z) (n : nat) : Z :=
  match n with
  | O => 0
  | S n => b2z (freeb b lo) + cnt b (lo + 1) n
  end.

Lemma cnt_app b lo n m : cnt b lo (n + m) = cnt b lo n + cnt b (lo + Z.of_nat n) m.
Proof.
  revert lo. induction n as [|n IH]; intros lo; cbn [cnt Nat.add].
  - rewrite Z.add_0_r. done.
  - rewrite IH. replace (lo + Z.of_nat (S n)) with (lo + 1 + Z.of_nat n) by lia. lia.
Qed.

Lemma cnt_none b lo n : (forall i, lo <= i < lo + Z.of_nat n -> freeb b i = false) -> cnt b lo n = 0.
Proof.
  revert lo. induction n as [|n IH]; intros lo Hf; cbn [cnt]; [done|].
  rewrite Hf, IH by (lia || intros; apply Hf; lia). done.
Qed.

Lemma cnt_ext b b' lo n : (forall i, lo <= i < lo + Z.of_nat n -> freeb b i = freeb b' i) ->
  cnt b lo n = cnt b' lo n.
Proof.
  revert lo. induction n as [|n IH]; intros lo Hf; cbn [cnt]; [done|].
  rewrite Hf, IH by (lia || intros; apply Hf; lia). done.
Qed.

Lemma cnt_size b lo n : (forall i, freeb b i = true -> lo <= i < lo + Z.of_nat n) ->
  cnt b lo n = Z.of_nat (size (free_pages b)).
Proof.
  intros Hf.
  assert (Hg : forall n lo, cnt b lo n =
    Z.of_nat (size (filter (fun i => lo <= i < lo + Z.of_nat n) (free_pages b)))).
  { clear. intros n. induction n as [|n IH]; intros lo; cbn [cnt].
    - replace (filter _ _) with (∅ : gset Z); [by rewrite size_empty|].
      apply set_eq. intros i. rewrite elem_of_filter. split; [set_solver|lia].
    - rewrite IH. destruct (freeb b lo) eqn:E; cbn [b2z].
      + replace (filter (fun i => lo <= i < lo + Z.of_nat (S n)) (free_pages b))
          with ({[lo]} ∪ filter (fun i => lo + 1 <= i < lo + 1 + Z.of_nat n) (free_pages b)).
        * rewrite size_give; [lia|]. rewrite elem_of_filter. lia.
        * apply set_eq. intros i. rewrite elem_of_union, elem_of_singleton, !elem_of_filter.
          rewrite !elem_free_pages. split.
          -- intros [->|[? ?]]; (split; [lia|done]).
          -- intros [? ?]. destruct (decide (i = lo)); [by left|]. right. split; [lia|done].
      + rewrite Z.add_0_l. f_equal. f_equal. apply set_eq. intros i. rewrite !elem_of_filter, !elem_free_pages.
        split; intros [? Hi]; (split; [|done]); destruct (decide (i = lo)); try lia; congruence. }
  rewrite Hg. f_equal. f_equal. apply set_eq. intros i. rewrite elem_of_filter.
  split; [tauto|]. intros Hi. split; [|done]. by apply Hf, elem_free_pages.
Qed.

Lemma check_page_solid b base n i found r :
  check_page n i b base false found = Ok r <->
  r = (false, found) /\ forall k, i <= k < i + Z.of_nat n ->
    b !! (base + k) = Some (Blk true false).
Proof.
  revert i. induction n as [|n IH]; intros i; cbn [check_page].
  - split; [intros [= <-]; split; [done|lia]|]. by intros [-> _].
  - destruct (b !! (base + i)) as [[s f]|] eqn:E; cbn [deref obind solid free].
    + destruct f, s; cbn [orb negb].
      1,2,4: split; [done|]; intros [_ Hk]; rewrite (Hk i) in E by lia; congruence.
      rewrite IH. split; intros [Hr Hk]; (split; [done|]); intros k Hk'.
      * destruct (decide (k = i)) as [->|]; [done|]. apply Hk. lia.
      * apply Hk. lia.
    + split; [done|]. intros [_ Hk]. rewrite (Hk i) in E by lia. congruence.
Qed.

(** The shape [check_page] looks for among the entries [i .. i+n-1]: entries that are not solid,
    then one that is (free, or the first of the page), then entries that are solid and used. *)
Definition page_shape (b : gmap Z BLOCK) (base i : Z) (n : nat) : Prop :=
  exists s x, i <= s < i + Z.of_nat n /\ b !! (base + s) = Some x /\ solid x = true /\
    (free x = true \/ s = 0) /\
    (forall k, i <= k < s -> exists y, b !! (base + k) = Some y /\ solid y = false) /\
    (forall k, s < k < i + Z.of_nat n -> b !! (base + k) = Some (Blk true false)).

Lemma check_page_pierce b base n i found r :
  check_page n i b base true found = Ok (false, r) <->
  page_shape b base i n /\ r = found + cnt b (base + i) n.
Proof.
  revert i found. induction n as [|n IH]; intros i found; cbn [check_page].
  { split; [done|]. intros [(s & x & Hs & _) _]. lia. }
  destruct (b !! (base + i)) as [[s f]|] eqn:E; cbn [deref obind solid free].
  2: { split; [done|]. intros [(s & x & Hs & Hx & _ & _ & Hlow & _) _].
       destruct (decide (s = i)) as [->|]; [congruence|].
       destruct (Hlow i) as (y & Hy & _); [lia|]. congruence. }
  assert (Efree : freeb b (base + i) = f) by (unfold freeb; by rewrite E).
  cbn [cnt]. rewrite Efree. replace (base + i + 1) with (base + (i + 1)) by lia.
  destruct s.
  - destruct (f || (i =? 0)) eqn:Ef; cbn [obind].
    + rewrite check_page_solid. split.
      * intros [[= ->] Hk]. split.
        -- exists i, (Blk true f). split; [lia|]. split; [done|]. split; [done|].
           split; [apply orb_true_iff in Ef as [->|]; [by left|right; lia]|].
           split; [lia|]. intros k Hk'. apply Hk. lia.
        -- rewrite cnt_none; [destruct f; cbn; lia|]. intros j Hj. unfold freeb.
           replace j with (base + (j - base)) by lia. rewrite Hk by lia. done.
      * intros [(s & x & Hs & Hx & Hsx & Hfx & Hlow & Hhigh) ->].
        assert (s = i) as ->.
        { destruct (decide (s = i)); [done|]. destruct (Hlow i) as (y & Hy & Hy'); [lia|].
          rewrite E in Hy. norm. done. }
        rewrite cnt_none.
        -- split; [f_equal; destruct f; cbn; lia|]. intros k Hk. apply Hhigh. lia.
        -- intros j Hj. unfold freeb. replace j with (base + (j - base)) by lia.
           rewrite Hhigh by lia. done.
    + split; [done|]. intros [(s & x & Hs & Hx & Hsx & Hfx & Hlow & Hhigh) _].
      apply orb_false_iff in Ef as [-> Ei]. apply Z.eqb_neq in Ei.
      destruct (decide (s = i)) as [->|].
      * rewrite E in Hx. norm. cbn in Hfx. destruct Hfx; done.
      * destruct (Hlow i) as (y & Hy & Hy'); [lia|]. rewrite E in Hy. norm. done.
  - cbn [obind]. rewrite IH. split.
    + intros [(s & x & Hs & Hx & Hsx & Hfx & Hlow & Hhigh) ->]. split; [|destruct f; cbn; lia].
      exists s, x. split; [lia|]. split; [done|]. split; [done|]. split; [done|].
      split; [|intros; apply Hhigh; lia]. intros k Hk. destruct (decide (k = i)) as [->|].
      * eauto.
      * apply Hlow. lia.
    + intros [(s & x & Hs & Hx & Hsx & Hfx & Hlow & Hhigh) ->]. split; [|destruct f; cbn; lia].
      assert (s <> i) by (intros ->; rewrite E in Hx; norm; done).
      exists s, x. split; [lia|]. split; [done|]. split; [done|]. split; [done|].
      split; [intros; apply Hlow; lia|intros; apply Hhigh; lia].
Qed.

Lemma page_shape_ok b base : page_shape b base 0 (Z.to_nat PAGE_SIZE) <-> page_ok b base.
Proof.
  unfold page_shape. rewrite Z2Nat.id by (unfold PAGE_SIZE; lia). split.
  - intros (s & x & Hs & Hx & Hsx & Hfx & Hlow & Hhigh) k Hk.
    destruct (Z.lt_trichotomy k s) as [Hlt|[->|Hgt]].
    + destruct (Hlow k) as (y & Hy & Hy'); [lia|]. exists y. split; [done|]. rewrite Hy'.
      split; [done|]. intros Hj. specialize (Hj s ltac:(lia)). unfold freeb in Hj.
      rewrite Hx in Hj. destruct Hfx; [congruence|lia].
    + exists x. split; [done|]. split; [|done]. intros _ j Hj. unfold freeb.
      by rewrite Hhigh by lia.
    + exists (Blk true false). split; [apply Hhigh; lia|]. split; [|done]. intros _ j Hj.
      unfold freeb. by rewrite Hhigh by lia.
  - intros Hp.
    assert (Hdec : page_free b base \/ ~ page_free b base).
    { destruct (decide (Exists (fun k => freeb b (base + k) = true) (seqZ 0 PAGE_SIZE)))
        as [Hex|Hex].
      - left. apply Exists_exists in Hex as (k & Hk & Hf). apply elem_of_seqZ in Hk.
        exists k. split; [lia|done].
      - right. intros (k & Hk & Hf). apply Hex, Exists_exists. exists k.
        split; [apply elem_of_seqZ; lia|done]. }
    destruct Hdec as [Hf|Hn].
    + destruct (highest_free _ _ Hp Hf) as (h & x & _ & _ & _ & _ & Hk). cbn in Hk.
      set (k := if solid x then h else h + 1) in *. clearbody k.
      destruct Hk as (Hk & Hb & Habove & Hlow). exists k, (Blk true true).
      split; [lia|]. split; [done|]. split; [done|]. split; [by left|]. split.
      * intros j Hj. destruct (Hp j) as (y & Hy & _); [lia|]. exists y. split; [done|].
        eapply Hlow; [|done]. lia.
      * intros j Hj. destruct (Hp j) as (y & Hy & Hys); [lia|]. rewrite Hy.
        pose proof (Habove j ltac:(lia)) as Hfj. unfold freeb in Hfj. rewrite Hy in Hfj.
        assert (solid y = true) by (apply Hys; intros; apply Habove; lia).
        destruct y; cbn in *; congruence.
    + assert (Hall : forall k, 0 <= k < PAGE_SIZE -> b !! (base + k) = Some (Blk true false)).
      { assert (Hfk : forall k, 0 <= k < PAGE_SIZE -> freeb b (base + k) = false).
        { intros k Hk. destruct (freeb b (base + k)) eqn:E; [|done]. destruct Hn.
          exists k. done. }
        intros k Hk. destruct (Hp k Hk) as (y & Hy & Hys). rewrite Hy.
        pose proof (Hfk k Hk) as Hf. unfold freeb in Hf. rewrite Hy in Hf.
        assert (solid y = true) by (apply Hys; intros; apply Hfk; lia).
        destruct y; cbn in *; congruence. }
      exists 0, (Blk true false). split; [unfold PAGE_SIZE; lia|].
      split; [apply Hall; unfold PAGE_SIZE; lia|]. split; [done|]. split; [by right|].
      split; [lia|]. intros. apply Hall. lia.
Qed.

Lemma check_pages_spec b n pg found r :
  check_pages n pg b found = Ok r <->
  (forall g, pg <= g < pg + Z.of_nat n -> page_ok b (g * PAGE_SIZE)) /\
  r = found + cnt b (pg * PAGE_SIZE) (n * Z.to_nat PAGE_SIZE).
Proof.
  revert pg found. induction n as [|n IH]; intros pg found; cbn [check_pages].
  { cbn [cnt Nat.mul]. split; [intros [= ->]; split; lia|]. intros [_ ->]. f_equal. lia. }
  cbn [Nat.mul]. rewrite cnt_app.
  rewrite ?Z2Nat.id by (unfold PAGE_SIZE; lia).
  replace (pg * PAGE_SIZE + PAGE_SIZE) with ((pg + 1) * PAGE_SIZE) by lia.
  pose proof (check_page_pierce b (pg * PAGE_SIZE) (Z.to_nat PAGE_SIZE) 0 found) as Hc.
  rewrite Z.add_0_r in Hc. setoid_rewrite page_shape_ok in Hc.
  destruct (check_page _ _ _ _ _ _) as [[[] f']| |] eqn:E; cbn [obind].
  1, 3, 4: split; [done|]; intros [Hg _];
    specialize (proj2 (Hc _) (conj (Hg pg ltac:(lia)) eq_refl)); done.
  destruct (proj1 (Hc f') eq_refl) as [Hok ->]. rewrite IH. split.
  - intros [Hg ->]. split; [|lia]. intros g Hg'. destruct (decide (g = pg)) as [->|]; [done|].
    apply Hg. lia.
  - intros [Hg ->]. split; [|lia]. intros g Hg'. apply Hg. lia.
Qed.

Lemma check_integrity_spec p :
  (forall i, freeb (bmp p) i = true -> 0 <= i < bmp_page_count p * PAGE_SIZE) ->
  0 <= bmp_page_count p ->
  check_integrity p = Ok tt <->
  (forall pg, 0 <= pg < bmp_page_count p -> page_ok (bmp p) (pg * PAGE_SIZE)) /\
  used p + Z.of_nat (size (free_pages (bmp p))) = total p.
Proof.
  intros Hr Hc. unfold check_integrity.
  pose proof (check_pages_spec (bmp p) (Z.to_nat (bmp_page_count p)) 0 0) as Hs.
  rewrite (cnt_size _ (0 * PAGE_SIZE)) in Hs.
  2: { intros i Hi. apply Hr in Hi. unfold PAGE_SIZE in *. lia. }
  rewrite Z2Nat.id, !Z.add_0_l in Hs by done.
  destruct (check_pages _ _ _ _) as [f| |] eqn:E; cbn [obind].
  - destruct (proj1 (Hs f) eq_refl) as [Hp ->]. destruct (_ =? _) eqn:Et; bool_norm.
    + split; [|done]. intros _. split; [done|]. lia.
    + split; [done|]. intros [_ Hu]. lia.
  - split; [done|]. intros [Hp _]. discriminate (proj2 (Hs _) (conj Hp eq_refl)).
  - split; [done|]. intros [Hp _]. discriminate (proj2 (Hs _) (conj Hp eq_refl)).
Qed.

(** A state that passes the check and whose counters fit satisfies the invariant. *)
Lemma inv_check p :
  check_integrity p = Ok tt ->
  (0 <? bmp_size p) && (bmp_size p <? 2 ^ 52) && (0 <=? used p) && (0 <=? reserved p) &&
  (used p + reserved p <=? total p) && (0 <=? next p) && (next p <? bmp_page_count p) &&
  (0 <=? hard_critical_limit p) && (0 <=? soft_critical_limit p) = true ->
  map_Forall (fun i x => free x = true -> 0 <= i < bmp_size p) (bmp p) -> inv p.
Proof.
  intros Hc Hb Hf. bool_norm.
  assert (Hf' : forall i, freeb (bmp p) i = true -> 0 <= i < bmp_size p).
  { intros i Hi. unfold freeb in Hi. destruct (bmp p !! i) eqn:E; [|done]. by eapply Hf. }
  assert (Hpc : bmp_page_count p = (bmp_size p + 4095) / 4096)
    by (apply bmp_page_count_eq; lia).
  apply check_integrity_spec in Hc as [Hp Hcnt].
  - by constructor.
  - intros i Hi. apply Hf' in Hi. rewrite Hpc. unfold PAGE_SIZE. dlia.
  - lia.
Qed.

(** ** Construction *)

(** The pages of [n] from [i]. *)
Definition run (i n : Z) : gset Z := list_to_set (seqZ i n).

Lemma elem_run i n j : j ∈ run i n <-> i <= j < i + n.
Proof. unfold run. rewrite elem_of_list_to_set, elem_of_seqZ. lia. Qed.

Lemma size_run i n : 0 <= n -> Z.of_nat (size (run i n)) = n.
Proof.
  intros. unfold run. rewrite size_list_to_set by apply NoDup_seqZ. rewrite length_seqZ. lia.
Qed.

(** Whole pages of a range of the memory map, and all pages of its usable ranges. *)
Definition range_pages (it : PMMSCAN) : gset Z :=
  let first := (s_base it + 4095) / 4096 in
  run first ((s_base it + s_len it) / 4096 - first).

Fixpoint usable (scan : list PMMSCAN) : gset Z :=
  match scan with
  | [] => ∅
  | it :: scan =>
      if s_type it =? 0 then ∅
      else if s_type it =? 1 then range_pages it ∪ usable scan else usable scan
  end.

(** The memory map ends with an entry of type 0, and its ranges lie below the top the loader
    reported. *)
Fixpoint scan_ok (scan : list PMMSCAN) (bmp_size : Z) : bool :=
  match scan with
  | [] => false
  | it :: scan =>
      if s_type it =? 0 then true
      else (0 <=? s_base it) && (0 <=? s_len it) && (s_base it + s_len it + 4095 <? 2 ^ 64) &&
           ((s_base it + s_len it) / 4096 <=? bmp_size) && scan_ok scan bmp_size
  end.

(** The aligned range the code computes from an entry. *)
Lemma range_align it :
  0 <= s_base it -> 0 <= s_len it -> s_base it + s_len it + 4095 < 2 ^ 64 ->
  align_up 64 (s_base it) PAGE_SIZE = (s_base it + 4095) / 4096 * 4096 /\
  w64 (s_base it + s_len it) = s_base it + s_len it /\
  (align_up 64 (s_base it) PAGE_SIZE <= s_base it + s_len it ->
   align_down 64 (w64 (s_base it + s_len it - align_up 64 (s_base it) PAGE_SIZE)) PAGE_SIZE =
   ((s_base it + s_len it) / 4096 - (s_base it + 4095) / 4096) * 4096).
Proof.
  intros Hb Hl Ht. change PAGE_SIZE with (2 ^ 12).
  rewrite (align_up_pow2 64 (s_base it) 12) by lia. change (2 ^ 12) with 4096 at 1 2 3 4.
  split; [f_equal; f_equal; lia|]. rewrite wrap_small by lia. split; [done|].
  intros Hle. rewrite wrap_small by dlia. rewrite align_down_pow2 by dlia.
  change (2 ^ 12) with 4096 in *. dlia.
Qed.

Lemma zero_bmp_lookup n i :
  zero_bmp n !! i = if decide (0 <= i < Z.of_nat n) then Some (Blk false false) else None.
Proof.
  induction n as [|n IH]; cbn [zero_bmp].
  - rewrite lookup_empty. rewrite decide_False by lia. done.
  - rewrite lookup_insert, IH. repeat case_decide; try lia; done.
Qed.

(** A bitmap of [N] mapped entries, none of them solid yet. *)
Definition raw (b : gmap Z BLOCK) (N : Z) : Prop :=
  (forall i, 0 <= i < N -> exists x, b !! i = Some x) /\
  (forall i x, b !! i = Some x -> solid x = false).

Lemma raw_insert b N i f : raw b N -> raw (<[i := Blk false f]> b) N.
Proof.
  intros [H1 H2]. split.
  - intros j Hj. rewrite lookup_insert. case_decide; eauto.
  - intros j x. rewrite lookup_insert. case_decide; [by intros [= <-]|apply H2].
Qed.

Lemma free_run_spec n index bs total b N :
  raw b N -> bs <= N -> 0 <= index -> index + Z.of_nat n <= bs ->
  total = Z.of_nat (size (free_pages b)) ->
  exists b', free_run n index bs total b = Ok (Z.of_nat (size (free_pages b')), b') /\ raw b' N /\
    free_pages b' = free_pages b ∪ run index (Z.of_nat n).
Proof.
  revert index total b. induction n as [|n IH]; intros index total b Hr Hbs Hi Hn Ht;
    cbn [free_run].
  - exists b. split; [by subst|]. split; [done|]. apply set_eq. intros j.
    rewrite elem_of_union, elem_run. split; [by left|intros [|]; [done|lia]].
  - rewrite ensure_true by (apply Z.ltb_lt; lia). cbn [obind].
    destruct (proj1 Hr index) as [[s f] Hx]; [lia|]. rewrite Hx. cbn [deref obind free solid].
    assert (s = false) as -> by (apply (proj2 Hr _ _ Hx)).
    destruct f.
    + destruct (IH (index + 1) total b) as (b' & E & Hr' & Hf); [done|done|lia|lia|done|].
      exists b'. split; [done|]. split; [done|]. rewrite Hf. apply set_eq. intros j.
      rewrite !elem_of_union, !elem_run, elem_free_pages. split; [intros [|]; [by left|right; lia]|].
      intros [|Hj]; [by left|]. destruct (decide (j = index)) as [->|]; [|right; lia].
      left. unfold freeb. by rewrite Hx.
    + pose proof (free_pages_give b index _ Hx) as Hg. cbn [solid] in Hg.
      assert (Hnf : index ∉ free_pages b) by (rewrite elem_free_pages; unfold freeb; by rewrite Hx).
      destruct (IH (index + 1) (total + 1) (<[index := Blk false true]> b))
        as (b' & E & Hr' & Hf); [by apply raw_insert|done|lia|lia| |].
      { rewrite Hg, size_give by done. lia. }
      exists b'. split; [done|]. split; [done|]. rewrite Hf, Hg. apply set_eq. intros j.
      rewrite !elem_of_union, !elem_run, elem_of_singleton. split.
      * intros [[->|]|]; [right; lia|by left|right; lia].
      * intros [|Hj]; [by left; right|]. destruct (decide (j = index)) as [->|];
          [by left; left|right; lia].
Qed.

Lemma scan_fill_spec scan bs total b N :
  scan_ok scan bs = true -> raw b N -> bs <= N -> total = Z.of_nat (size (free_pages b)) ->
  exists b', scan_fill scan bs total b = Ok (Z.of_nat (size (free_pages b')), b') /\ raw b' N /\
    free_pages b' = free_pages b ∪ usable scan.
Proof.
  revert total b. induction scan as [|it scan IH]; intros total b Hs Hr Hbs Ht; [done|].
  cbn [scan_ok scan_fill usable] in *. destruct (s_type it =? 0).
  { exists b. split; [by subst|]. split; [done|]. by rewrite (right_id_L ∅ (∪)). }
  bool_norm.
  destruct (range_align it) as (Ea & Ew & Ed); [lia|lia|lia|]. rewrite Ew, Ea in *.
  assert (Hskip : range_pages it = ∅ \/ s_len it <> 0 /\
    (s_base it + 4095) / 4096 * 4096 <= s_base it + s_len it).
  { destruct (decide ((s_base it + 4095) / 4096 * 4096 <= s_base it + s_len it /\
      s_len it <> 0)) as [|Hn]; [tauto|]. left. apply set_eq. intros j.
    unfold range_pages. rewrite elem_run. split; [|set_solver]. dlia. }
  destruct (s_type it =? 1); cbn [negb orb].
  2: { by apply IH. }
  destruct (s_len it =? 0) eqn:El; bool_norm.
  { destruct Hskip as [->|[? ?]]; [|done]. rewrite (left_id_L ∅ (∪)). by apply IH. }
  destruct (_ <? _) eqn:Elt; bool_norm.
  { destruct Hskip as [->|[? ?]]; [|lia]. rewrite (left_id_L ∅ (∪)). by apply IH. }
  rewrite Ed by lia. rewrite Z.shiftr_div_pow2 by lia. change (2 ^ 12) with 4096.
  rewrite Z.div_mul by lia.
  replace ((s_base it + 4095) / 4096 * 4096 / PAGE_SIZE) with ((s_base it + 4095) / 4096)
    by (unfold PAGE_SIZE; dlia).
  set (n := (s_base it + s_len it) / 4096 - (s_base it + 4095) / 4096).
  assert (0 <= n) by (unfold n; dlia).
  destruct (free_run_spec (Z.to_nat n) ((s_base it + 4095) / 4096) bs total b N)
    as (b1 & E1 & Hr1 & Hf1); [done|done|dlia|unfold n; dlia|done|].
  rewrite E1. cbn [obind].
  destruct (IH (Z.of_nat (size (free_pages b1))) b1) as (b2 & E2 & Hr2 & Hf2);
    [done|done|done|reflexivity|].
  exists b2. split; [done|]. split; [done|]. rewrite Hf2, Hf1, Z2Nat.id by done.
  unfold range_pages. fold n. by rewrite assoc_L by apply _.
Qed.

Lemma take_run_spec n index bs check b N :
  raw b N -> bs <= N -> 0 <= index -> index + Z.of_nat n <= N ->
  (check = true -> index + Z.of_nat n <= bs) ->
  exists b', take_run n index bs check b = Ok b' /\ raw b' N /\
    free_pages b' = free_pages b ∖ run index (Z.of_nat n).
Proof.
  revert index b. induction n as [|n IH]; intros index b Hr Hbs Hi Hn Hc; cbn [take_run].
  - exists b. split; [done|]. split; [done|]. apply set_eq. intros j.
    rewrite elem_of_difference, elem_run. split; [split; [done|lia]|tauto].
  - rewrite ensure_true.
    2: { destruct check; [|done]. cbn [negb orb]. apply Z.ltb_lt. specialize (Hc eq_refl). lia. }
    cbn [obind]. destruct (proj1 Hr index) as [x Hx]; [lia|]. rewrite Hx. cbn [deref obind].
    rewrite (proj2 Hr _ _ Hx).
    destruct (IH (index + 1) (<[index := Blk false false]> b)) as (b' & E & Hr' & Hf);
      [by apply raw_insert|done|lia|lia|intros; specialize (Hc ltac:(done)); lia|].
    exists b'. split; [done|]. split; [done|]. rewrite Hf.
    pose proof (free_pages_take b index _ Hx) as Ht. rewrite (proj2 Hr _ _ Hx) in Ht.
    rewrite Ht. apply set_eq. intros j.
    rewrite !elem_of_difference, !elem_run, elem_of_singleton. split.
    + intros [[? ?] ?]. split; [done|lia].
    + intros [? ?]. split; [split; [done|lia]|lia].
Qed.

Lemma solid_run_eq base off b :
  (forall k, 0 <= k < Z.of_nat off -> exists x, b !! (base + k) = Some x /\ solid x = false) ->
  solid_run off base b = set_solid_down off base b.
Proof.
  revert b. induction off as [|off IH]; intros b Hb; cbn [solid_run set_solid_down]; [done|].
  destruct (Hb (Z.of_nat off)) as (x & Hx & Hs); [lia|]. rewrite Hx. cbn [deref obind].
  rewrite Hs. cbn [negb ensure obind]. destruct (free x); [done|]. apply IH.
  intros k Hk. rewrite lookup_insert_ne by lia. apply Hb. lia.
Qed.

Lemma build_solid_spec n i b :
  0 <= i ->
  (forall g, 0 <= g < i -> page_ok b (g * PAGE_SIZE)) ->
  (forall j, i * PAGE_SIZE <= j < (i + Z.of_nat n) * PAGE_SIZE ->
     exists x, b !! j = Some x /\ solid x = false) ->
  exists b', build_solid n i b = Ok b' /\ free_pages b' = free_pages b /\
    forall g, 0 <= g < i + Z.of_nat n -> page_ok b' (g * PAGE_SIZE).
Proof.
  revert i b. induction n as [|n IH]; intros i b Hi Hp Hb; cbn [build_solid].
  - exists b. split; [done|]. split; [done|]. intros g Hg. apply Hp. lia.
  - assert (Hz : 0 < PAGE_SIZE) by (unfold PAGE_SIZE; lia).
    assert (Hn : Z.of_nat (S n) = Z.of_nat n + 1) by lia. rewrite Hn in *.
    rewrite solid_run_eq.
    2: { intros k Hk. apply Hb. unfold PAGE_SIZE in *. lia. }
    destruct (set_solid_down_spec (i * PAGE_SIZE) (Z.to_nat PAGE_SIZE) b) as (b1 & E & Hok & Hf & Ho).
    { lia. }
    { intros k Hk. destruct (Hb (i * PAGE_SIZE + k)) as (x & Hx & Hs);
        [unfold PAGE_SIZE in *; lia|].
      exists x. split; [done|]. by rewrite decide_True by lia. }
    rewrite E. cbn [obind]. destruct (IH (i + 1) b1) as (b2 & E2 & Hf2 & Hp2).
    + lia.
    + intros g Hg. destruct (decide (g = i)) as [->|]; [done|].
      apply (page_ok_other b b1 i g Ho); [done|]. apply Hp. lia.
    + intros j Hj. rewrite Ho by (unfold PAGE_SIZE in *; lia). apply Hb.
      unfold PAGE_SIZE in *. lia.
    + exists b2. split; [done|]. split; [by rewrite Hf2, (free_pages_ext _ _ Hf)|].
      intros g Hg. apply Hp2. lia.
Qed.

Lemma find_bmp_pbase_spec scan bs pc pb :
  scan_ok scan bs = true -> 0 < pc -> find_bmp_pbase scan pc = Ok pb -> pb <> 0 ->
  exists q, pb = q * 4096 /\ 256 <= q /\ q + pc <= bs /\ run q pc ⊆ usable scan.
Proof.
  intros Hs Hpc. induction scan as [|it scan IH]; intros Hf Hpb; [done|].
  cbn [scan_ok find_bmp_pbase usable] in *. destruct (s_type it =? 0) eqn:E0; [norm; done|].
  bool_norm. destruct (range_align it) as (Ea & Ew & Ed); [lia|lia|lia|]. rewrite Ew, Ea in *.
  assert (Hrest : find_bmp_pbase scan pc = Ok pb ->
    exists q, pb = q * 4096 /\ 256 <= q /\ q + pc <= bs /\
      run q pc ⊆ (if s_type it =? 1 then range_pages it ∪ usable scan else usable scan)).
  { intros Hf'. destruct (IH H0 Hf' Hpb) as (q & ? & ? & ? & Hsub). exists q.
    split; [done|]. split; [done|]. split; [done|]. case_if; [|done].
    etrans; [exact Hsub|]. apply union_subseteq_r. }
  destruct (s_base it <? 0x100000) eqn:E1; [by apply Hrest|].
  destruct (s_type it =? 1) eqn:E2; cbn [negb] in Hf; [|by apply Hrest].
  destruct (_ <? _) eqn:E3 in Hf; [by apply Hrest|]. bool_norm. rewrite Ed in Hf by lia.
  destruct (_ <? _) eqn:E4 in Hf; [by apply Hrest|]. norm. bool_norm.
  exists ((s_base it + 4095) / 4096). split; [done|]. split; [dlia|].
  unfold PAGE_SIZE in *. split; [dlia|].
  intros j Hj. apply elem_run in Hj. apply elem_of_union. left. unfold range_pages.
  apply elem_run. dlia.
Qed.

Lemma fill_pdt_spec n i off pdt :
  (forall k, i <= k < i + Z.of_nat n -> pdt !! (off + k) = Some 0) ->
  exists pdt', fill_pdt n i off pdt = Ok pdt' /\
    (forall k, i <= k < i + Z.of_nat n ->
       pdt' !! (off + k) = Some (Z.lor 0x8000000000000103 (PMMBMP_PT_PBASE + k * PAGE_SIZE))) /\
    (forall j, ~ (off + i <= j < off + i + Z.of_nat n) -> pdt' !! j = pdt !! j).
Proof.
  revert i pdt. induction n as [|n IH]; intros i pdt Hz; cbn [fill_pdt].
  - exists pdt. split; [done|]. split; [lia|done].
  - rewrite Hz by lia. cbn [deref obind ensure Z.eqb].
    destruct (IH (i + 1) (<[off + i := Z.lor 0x8000000000000103
      (PMMBMP_PT_PBASE + i * PAGE_SIZE)]> pdt)) as (pdt' & E & Hin & Hout).
    + intros k Hk. rewrite lookup_insert_ne by lia. apply Hz. lia.
    + exists pdt'. split; [done|]. split.
      * intros k Hk. destruct (decide (k = i)) as [->|]; [|apply Hin; lia].
        rewrite Hout by lia. by rewrite lookup_insert_eq.
      * intros j Hj. rewrite Hout by lia. rewrite lookup_insert_ne; [done|lia].
Qed.

Lemma fill_pt_spec n i pc pb pt :
  0 <= i -> i + Z.of_nat n <= pdt_limit * PAGE_SIZE / 8 ->
  exists pt', fill_pt n i pc pb pt = Ok pt' /\
    (forall k, i <= k < i + Z.of_nat n -> pt' !! k = Some
       (if k <? pc then Z.lor 0x8000000000000103 (pb + k * PAGE_SIZE) else 0)) /\
    (forall k, ~ (i <= k < i + Z.of_nat n) -> pt' !! k = pt !! k).
Proof.
  revert i pt. induction n as [|n IH]; intros i pt Hi Hn; cbn [fill_pt].
  - exists pt. split; [done|]. split; [lia|done].
  - rewrite ensure_true by (apply Z.ltb_lt; lia). cbn [obind].
    destruct (IH (i + 1) (<[i := if i <? pc then Z.lor 0x8000000000000103 (pb + i * PAGE_SIZE)
      else 0]> pt)) as (pt' & E & Hin & Hout); [lia|lia|].
    exists pt'. split; [done|]. split.
    + intros k Hk. destruct (decide (k = i)) as [->|]; [|apply Hin; lia].
      rewrite Hout by lia. by rewrite lookup_insert_eq.
    + intros k Hk. rewrite Hout by lia. rewrite lookup_insert_ne; [done|lia].
Qed.

(** What the constructor is given: a memory map below [PMM_avl_top] with a range for the bitmap
    above 1 MB and room for the low pages and the kernel, and a page directory whose entries for
    the bitmap are empty. *)
Record bootable (scan : list PMMSCAN) (PMM_avl_top kernel_page : Z) (t : tables) (pb : Z) : Prop := {
  boot_top : 4096 <= PMM_avl_top < 2 ^ 52;
  boot_scan : scan_ok scan (PMM_avl_top / 4096) = true;
  boot_pdt_count : ((PMM_avl_top / 4096 + 4095) / 4096 + 511) / 512 <= pdt_limit;
  boot_pbase : find_bmp_pbase scan ((PMM_avl_top / 4096 + 4095) / 4096) = Ok pb;
  boot_pbase_nz : pb <> 0;
  boot_kernel : 0 <= kernel_page <= 240;
  boot_low : run 0 (10 + ((PMM_avl_top / 4096 + 4095) / 4096 + 511) / 512) ⊆ usable scan;
  boot_kernel_pages : run 16 kernel_page ⊆ usable scan;
  boot_pdt : forall k, 0 <= k < pdt_limit -> pdt0 t !! (2 + k) = Some 0;
  boot_room : 10 + ((PMM_avl_top / 4096 + 4095) / 4096 + 511) / 512 +
    (PMM_avl_top / 4096 + 4095) / 4096 + kernel_page < Z.of_nat (size (usable scan))
}.

Lemma size_difference_sub (X Y : gset Z) : Y ⊆ X ->
  Z.of_nat (size (X ∖ Y)) = Z.of_nat (size X) - Z.of_nat (size Y).
Proof.
  intros H. rewrite size_difference by done. pose proof (subseteq_size _ _ H). lia.
Qed.

Lemma construct_spec scan top kp t pb : bootable scan top kp t pb ->
  let bs := top / 4096 in
  let pc := (bs + 4095) / 4096 in
  let pdtc := (pc + 511) / 512 in
  exists p t', construct scan top kp t = Ok (p, t') /\ inv p /\
    free_pages (bmp p) = usable scan ∖ (run 0 (10 + pdtc) ∪ run 16 kp ∪ run (pb / 4096) pc) /\
    total p = Z.of_nat (size (usable scan)) /\ used p = 10 + pdtc + pc + kp /\
    reserved p = 0 /\ hard_critical_limit p = 0 /\ callback p = None /\ bmp_size p = bs /\
    (forall k, 0 <= k < pdtc -> pdt0 t' !! (2 + k) =
       Some (Z.lor 0x8000000000000103 (PMMBMP_PT_PBASE + k * PAGE_SIZE))) /\
    (forall k, 0 <= k < pc -> bmp_pt t' !! k =
       Some (Z.lor 0x8000000000000103 (pb + k * PAGE_SIZE))).
Proof.
  intros [Htop Hscan Hpdtc Hpb Hpb0 Hkp Hlow Hkern Hpdt Hroom] bs pc pdtc.
  assert (Hlim : pdt_limit = 6) by reflexivity. rewrite Hlim in *.
  fold bs in Hscan, Hpb, Hlow, Hroom, Hpdtc. fold pc in Hpb, Hlow, Hroom, Hpdtc.
  fold pdtc in Hlow, Hroom, Hpdtc.
  assert (Hbs : 0 < bs < 2 ^ 40) by (unfold bs; dlia).
  assert (Hpc : 0 < pc) by (unfold pc; dlia).
  assert (Hpdtc' : 0 < pdtc <= 6) by (unfold pdtc in *; dlia).
  unfold construct. cbv zeta.
  replace (Z.shiftr top 12) with bs by (symmetry; apply Z.shiftr_div_pow2; lia).
  assert (Epc : Z.shiftr (align_up 64 bs PAGE_SIZE) 12 = pc).
  { change PAGE_SIZE with (2 ^ 12). rewrite (align_up_pow2 64 bs 12) by lia.
    rewrite Z.shiftr_div_pow2, Z.div_mul by lia. unfold pc. f_equal. lia. }
  assert (Epd : Z.shiftr (align_up 64 pc (PAGE_SIZE / 8)) 9 = pdtc).
  { change (PAGE_SIZE / 8) with (2 ^ 9). rewrite (align_up_pow2 64 pc 9) by (unfold pc; dlia).
    rewrite Z.shiftr_div_pow2, Z.div_mul by lia. unfold pdtc. f_equal. lia. }
  rewrite Epc, Epd. rewrite Hlim. replace (6 <? pdtc) with false by (symmetry; apply Z.ltb_ge; lia).
  rewrite Hpb. cbn [obind].
  replace (pb =? 0) with false by (symmetry; by apply Z.eqb_neq).
  destruct (find_bmp_pbase_spec _ _ _ _ Hscan Hpc Hpb Hpb0) as (q & -> & Hq & Hqb & Hqu).
  change (Z.shiftr (LOWADDR PMMBMP_BASE) 21) with 2.
  destruct (fill_pdt_spec (Z.to_nat pdtc) 0 2 (pdt0 t)) as (pdt & E1 & Hpdt' & _).
  { intros k Hk. apply Hpdt. lia. }
  rewrite E1. cbn [obind].
  destruct (fill_pt_spec (Z.to_nat (pdtc * PAGE_SIZE / 8)) 0 pc (q * 4096) (bmp_pt t))
    as (pt & E2 & Hpt & _); [lia|rewrite Hlim; unfold PAGE_SIZE; dlia|].
  rewrite E2. cbn [obind].
  set (N := pc * PAGE_SIZE).
  assert (HN : bs <= N) by (unfold N, pc, PAGE_SIZE; dlia).
  assert (Hz : raw (zero_bmp (Z.to_nat N)) N).
  { split.
    - intros i Hi. rewrite zero_bmp_lookup, decide_True by lia. eauto.
    - intros i x. rewrite zero_bmp_lookup. case_decide; [by intros [= <-]|done]. }
  assert (Hz0 : free_pages (zero_bmp (Z.to_nat N)) = ∅).
  { apply set_eq. intros i. rewrite elem_free_pages. unfold freeb. rewrite zero_bmp_lookup.
    split; [by case_decide|set_solver]. }
  destruct (scan_fill_spec scan bs 0 (zero_bmp (Z.to_nat N)) N Hscan Hz HN)
    as (b1 & E3 & Hr1 & Hf1); [by rewrite Hz0, size_empty|].
  rewrite Hz0, (left_id_L ∅ (∪)) in Hf1. rewrite E3, Hf1. cbn [obind].
  change (Z.shiftr DIRECT_MAP_TOP 12) with 10. change (Z.shiftr BOOT_AREA_TOP 12) with 16.
  assert (HN2 : 4096 <= N) by (unfold N, PAGE_SIZE; lia).
  destruct (take_run_spec (Z.to_nat (10 + pdtc)) 0 bs false b1 N) as (b2 & E4 & Hr2 & Hf2);
    [done|done|lia|lia|done|]. rewrite E4. cbn [obind].
  assert (Hkbs : 16 + kp <= bs) by lia.
  destruct (take_run_spec (Z.to_nat kp) 16 bs true b2 N) as (b3 & E5 & Hr3 & Hf3);
    [done|done|lia|lia|lia|]. rewrite E5. cbn [obind].
  replace (Z.shiftr (q * 4096) 12) with q
    by (rewrite Z.shiftr_div_pow2 by lia; change (2 ^ 12) with 4096; by rewrite Z.div_mul by lia).
  destruct (take_run_spec (Z.to_nat pc) q bs true b3 N) as (b4 & E6 & Hr4 & Hf4);
    [done|done|lia|lia|lia|]. rewrite E6. cbn [obind].
  rewrite ensure_true by (apply Z.ltb_lt; lia). cbn [obind].
  destruct (build_solid_spec (Z.to_nat pc) 0 b4) as (b5 & E7 & Hf5 & Hp5); [lia|lia| |].
  { intros j Hj. destruct (proj1 Hr4 j) as [x Hx]; [unfold N; lia|].
    exists x. split; [done|]. by apply (proj2 Hr4 _ _ Hx). }
  rewrite E7. cbn [obind]. rewrite Z.div_mul by lia.
  assert (Hfree : free_pages b5 = usable scan ∖ (run 0 (10 + pdtc) ∪ run 16 kp ∪ run q pc)).
  { rewrite Hf5, Hf4, Hf3, Hf2, Hf1, !Z2Nat.id by lia. apply set_eq. intros j.
    rewrite !elem_of_difference, !elem_of_union. tauto. }
  assert (Hdis1 : run 0 (10 + pdtc) ## run 16 kp).
  { intros j Hj Hj'. apply elem_run in Hj, Hj'. lia. }
  assert (Hdis2 : run 0 (10 + pdtc) ∪ run 16 kp ## run q pc).
  { intros j Hj Hj'. apply elem_of_union in Hj. rewrite !elem_run in Hj.
    apply elem_run in Hj'. lia. }
  assert (Hsize : Z.of_nat (size (free_pages b5)) =
    Z.of_nat (size (usable scan)) - (10 + pdtc + pc + kp)).
  { rewrite Hfree, size_difference_sub.
    - rewrite size_union, size_union by done. pose proof (size_run 0 (10 + pdtc) ltac:(lia)).
      pose proof (size_run 16 kp ltac:(lia)). pose proof (size_run q pc ltac:(lia)). lia.
    - apply union_subseteq. split; [apply union_subseteq; by split|exact Hqu]. }
  eexists _, _. split; [reflexivity|].
  split; [|cbn; rewrite Hfree; repeat (split; [done|])].
  2: { split; intros k Hk; [apply Hpdt'; lia|]. rewrite Hpt.
       - by replace (k <? pc) with true by (symmetry; apply Z.ltb_lt; lia).
       - unfold pdtc, PAGE_SIZE. dlia. }
  set (soft := w16 _). assert (0 <= soft) by (apply wrap_range; lia). clearbody soft.
  apply Build_inv; cbn [bmp_size bmp used reserved total next hard_critical_limit
                        soft_critical_limit]; try lia.
  - intros pg. rewrite bmp_page_count_eq by (cbn [bmp_size]; lia). cbn [bmp_size]. fold pc.
    intros Hpg. apply Hp5. lia.
  - intros i Hi. apply elem_free_pages in Hi. rewrite Hfree in Hi.
    apply elem_of_difference in Hi as [Hi _]. clear -Hscan Hi.
    induction scan as [|it scan IH]; cbn [scan_ok usable] in *; [done|].
    destruct (s_type it =? 0); [set_solver|]. bool_norm. destruct (s_type it =? 1).
    + apply elem_of_union in Hi as [Hi|Hi]; [|by apply IH].
      unfold range_pages in Hi. apply elem_run in Hi. dlia.
    + by apply IH.
  - rewrite bmp_page_count_eq by (cbn [bmp_size]; lia). cbn [bmp_size]. fold pc. lia.
Qed.

(** ** Clients *)

(** What the other parts of the kernel do with the allocator: ask for a page and give up when
    there is none, reserve pages and take reserved ones, give back a page they hold. *)
Inductive pm_op :=
  | op_allocate
  | op_reserve (n : Z)
  | op_take
  | op_release (page : Z).

(** One client operation; [out] is the set of pages clients hold.  A client takes a reserved page
    only when it has reserved one and gives back only what it holds.  Being handed a page that a
    client already holds is the error [Bug]. *)
Definition client_step (invoke : Z -> pm -> Z -> outcome pm) (op : pm_op) (st : gset Z * pm)
  : outcome (gset Z * pm) :=
  let '(out, p) := st in
  match op with
  | op_allocate =>
      let! (pa, p) := allocate invoke NONE p;
      if pa =? 0 then Ok (out, p)
      else assert! bool_decide (pa / PAGE_SIZE ∉ out); Ok ({[pa / PAGE_SIZE]} ∪ out, p)
  | op_reserve n => let! (_, p) := reserve invoke (Z.max 0 n) p; Ok (out, p)
  | op_take =>
      if reserved p =? 0 then Ok (out, p)
      else
        let! (pa, p) := allocate invoke TAKE p;
        assert! bool_decide (pa / PAGE_SIZE ∉ out); Ok ({[pa / PAGE_SIZE]} ∪ out, p)
  | op_release page =>
      if bool_decide (page ∈ out) then
        let! p := release (page * PAGE_SIZE) p; Ok (out ∖ {[page]}, p)
      else Ok (out, p)
  end.

Fixpoint client_run (invoke : Z -> pm -> Z -> outcome pm) (ops : list pm_op) (st : gset Z * pm)
  : outcome (gset Z * pm) :=
  match ops with
  | [] => Ok st
  | op :: ops => let! st := client_step invoke op st; client_run invoke ops st
  end.

Record client_inv (st : gset Z * pm) : Prop := {
  cl_inv : inv st.2;
  cl_callback : callback st.2 = None;
  cl_disjoint : st.1 ## free_pages (bmp st.2);
  cl_used : Z.of_nat (size st.1) <= used st.2;
  cl_room : used st.2 + reserved st.2 < total st.2;
  cl_hard : 0 < hard_critical_limit st.2;
  cl_zero : 0 ∉ free_pages (bmp st.2) /\ 0 ∉ st.1;
  cl_range : forall i, i ∈ st.1 -> 0 <= i < bmp_size st.2
}.

Lemma critical_check_none invoke p : callback p = None -> critical_check invoke p = Ok p.
Proof. intros Hc. unfold critical_check. rewrite Hc. by case_if. Qed.

Lemma taken_bmp_size mode p page p' invoke :
  callback p = None -> allocate invoke mode p = Ok (page, p') -> bmp_size p' = bmp_size p.
Proof.
  intros Hc. unfold allocate. rewrite critical_check_none by done. cbn [obind].
  unfold allocate_locked. intros H. destruct (_ && _); [by norm|]. norm.
  repeat match goal with x : (Z * Z)%type |- _ => destruct x end. norm.
  destruct (bool_decide (mode = TAKE)); norm; done.
Qed.

(** A page that is taken joins the pages clients hold. *)
Lemma client_take mode out p pa p' invoke :
  client_inv (out, p) -> allocate invoke mode p = Ok (pa, p') ->
  (mode = NONE -> used p + reserved p + hard_critical_limit p < total p) ->
  (mode = MUST_SUCCEED -> used p + reserved p + 1 < total p) -> ~ (mode = TAKE /\ reserved p = 0) ->
  pa <> 0 /\ pa / PAGE_SIZE ∉ out /\ client_inv ({[pa / PAGE_SIZE]} ∪ out, p').
Proof.
  intros [Hi Hc Hd Hu Hr Hh [Hz Hz'] Hg] Ha Hn Hm Ht. cbn [fst snd] in *.
  pose proof (taken_bmp_size _ _ _ _ _ Hc Ha) as Hbs.
  unfold allocate in Ha. rewrite critical_check_none in Ha by done. cbn [obind] in Ha.
  pose proof (allocate_locked_spec mode p Hi) as Hs. rewrite Ha in Hs.
  destruct (bool_decide (mode = NONE) && _) eqn:Eref.
  { bool_norm. specialize (Hn ltac:(done)). lia. }
  destruct Hs as (page & -> & Htk & Hi').
  assert (Hpg : page * PAGE_SIZE / PAGE_SIZE = page) by (apply Z.div_mul; done).
  rewrite Hpg. destruct Htk.
  assert (Hout : page ∉ out) by (intros Ho; by apply (Hd page)).
  assert (page <> 0) by congruence.
  split; [unfold PAGE_SIZE; lia|]. split; [done|].
  assert (Hroom : used p' + reserved p' < total p').
  { rewrite taken_used0, taken_reserved0, taken_total0.
    destruct mode; [specialize (Hn eq_refl)|specialize (Hm eq_refl)|]; case_bool_decide; try done; cbn [b2z]; lia. }
  constructor; cbn [fst snd]; rewrite ?taken_callback0, ?taken_hard0, ?taken_free0; try done.
  - intros i Hi1 Hi2. apply elem_of_difference in Hi2 as [Hi2 Hi3].
    apply elem_of_union in Hi1 as [Hi1|Hi1]; [done|]. by apply (Hd i).
  - rewrite size_give by done. lia.
  - rewrite elem_of_difference, elem_of_union, elem_of_singleton. split; [tauto|].
    intros [?|?]; [congruence|done].
  - intros i Hii. rewrite Hbs. apply elem_of_union in Hii as [Hii|Hii]; [|by apply Hg].
    apply elem_of_singleton in Hii as ->. by apply (inv_free _ Hi), elem_free_pages.
Qed.

Lemma client_step_ok invoke op st : client_inv st ->
  exists st', client_step invoke op st = Ok st' /\ client_inv st'.
Proof.
  destruct st as [out p]. intros Hcl. pose proof Hcl as [Hi Hc Hd Hu Hr Hh [Hz Hz'] Hg].
  cbn [fst snd] in *. destruct op as [|n| |page]; cbn [client_step].
  - pose proof (allocate_locked_spec NONE p Hi) as Hs.
    assert (Ea : allocate invoke NONE p = allocate_locked NONE p).
    { unfold allocate. by rewrite critical_check_none. }
    destruct (allocate_locked NONE p) as [[pa p']| |] eqn:E; [| |done].
    + rewrite Ea. cbn [obind].
      destruct (total p <=? used p + reserved p + hard_critical_limit p) eqn:Et.
      * cbn [andb bool_decide decide_rel] in Hs. rewrite bool_decide_eq_true_2 in Hs by done.
        destruct Hs as [-> ->]. eauto.
      * bool_norm. destruct (client_take NONE out p pa p' invoke) as (Hpa & Hout & Hcl');
          [done|done|done|done|by intros [? _]|].
        replace (pa =? 0) with false by (symmetry; by apply Z.eqb_neq).
        rewrite ensure_decide by done. cbn [obind]. eauto.
    + destruct Hs as [_ [?|[? _]]]; [lia|done].
  - unfold reserve. rewrite critical_check_none by done. cbn [obind]. unfold reserve_locked.
    destruct (_ <? _) eqn:E; [|eauto]. bool_norm. eexists. split; [done|].
    constructor; cbn [fst snd set_reserved bmp callback used reserved total
      hard_critical_limit bmp_size]; try done; try lia.
    destruct Hi. constructor; cbn [set_reserved bmp callback used reserved total next
      hard_critical_limit soft_critical_limit bmp_size]; try done; lia.
  - destruct (reserved p =? 0) eqn:Er; [eauto|]. bool_norm.
    pose proof (allocate_locked_spec TAKE p Hi) as Hs.
    assert (Ea : allocate invoke TAKE p = allocate_locked TAKE p).
    { unfold allocate. by rewrite critical_check_none. }
    destruct (allocate_locked TAKE p) as [[pa p']| |] eqn:E; [| |done].
    + rewrite Ea. cbn [obind].
      destruct (client_take TAKE out p pa p' invoke) as (Hpa & Hout & Hcl');
        [done|done|done|done|by intros [_ ?]|].
      rewrite ensure_decide by done. cbn [obind]. eauto.
    + destruct Hs as [_ [?|[_ ?]]]; [lia|done].
  - case_bool_decide as Hin; [|eauto]. pose proof (Hg _ Hin) as Hrange.
    pose proof (release_spec (page * PAGE_SIZE) p Hi ltac:(unfold PAGE_SIZE; lia)) as Hs.
    assert (Hdiv : page * PAGE_SIZE / PAGE_SIZE = page) by (by apply Z.div_mul).
    destruct (release _ p) as [p'| |] eqn:E; [| |done]; cbn [obind].
    + destruct Hs as (page' & Hpp & Hb & Hnf & Hfree & Hp' & Hu0 & Hi').
      assert (page' = page) as -> by (unfold PAGE_SIZE in *; lia).
      eexists. split; [done|].
      assert (Hsz : Z.of_nat (size (out ∖ {[page]})) = Z.of_nat (size out) - 1)
        by (by apply size_take).
      constructor; cbn [fst snd]; rewrite ?Hfree; try rewrite Hp'; cbn [set_used set_bmp bmp callback
        used reserved total hard_critical_limit bmp_size]; try done; try lia.
      * by rewrite <- Hp'.
      * intros i Hi1 Hi2. apply elem_of_difference in Hi1 as [Hi1 Hi3].
        apply elem_of_union in Hi2 as [?|?]; [done|by apply (Hd i)].
      * split; [|by intros [? _]%elem_of_difference].
        intros [Hz0%elem_of_singleton|?]%elem_of_union; [congruence|done].
      * intros i [Hi1 _]%elem_of_difference. by apply Hg.
    + exfalso. rewrite Hdiv in Hs. destruct Hs as [Hs|[Hs|[Hs|Hs]]].
      * apply Hs. by apply Z.mod_mul.
      * lia.
      * by apply (Hd page).
      * assert (size out = 0%nat) as Hz0%size_empty_inv by lia. set_solver.
Qed.

(** ** Properties *)

(** C2. Allocation.  On a well-formed allocator with no callback registered, [allocate] refuses
    with 0 exactly when the mode is NONE and the hard limit is reached; otherwise it stops the
    machine exactly when every page is used or reserved, or a reserved page is taken when none is
    reserved; otherwise it returns the address of a free page: the highest free one of the first
    bitmap page, going round from [next], that has one.  That page leaves the free set, nothing
    else does, the counters follow and the allocator stays well formed. *)
Theorem allocate_correct invoke mode p :
  inv p -> callback p = None ->
  match allocate invoke mode p with
  | Ok (pa, p') =>
      if bool_decide (mode = NONE) && (total p <=? used p + reserved p + hard_critical_limit p)
      then pa = 0 /\ p' = p
      else exists page, pa = page * PAGE_SIZE /\ taken mode p page p' /\ inv p'
  | Bug => (mode = NONE -> used p + reserved p + hard_critical_limit p < total p) /\
      (used p + reserved p = total p \/ mode = TAKE /\ reserved p = 0)
  | NoFuel => False
  end.
Proof.
  intros Hi Hc. unfold allocate. rewrite critical_check_none by done. cbn [obind].
  by apply allocate_locked_spec.
Qed.

(** A small allocator: 4096 pages, of which 30 to 109 are free. *)
Definition demo : pm :=
  match free_run 80 30 4096 0 (zero_bmp (Z.to_nat PAGE_SIZE)) with
  | Ok (_, b) =>
      match solid_run (Z.to_nat PAGE_SIZE) 0 b with
      | Ok b => Pm 16 4 4096 100 20 0 0 None 0 b
      | _ => Pm 0 0 0 0 0 0 0 None 0 ∅
      end
  | _ => Pm 0 0 0 0 0 0 0 None 0 ∅
  end.

Definition no_callback (cb : Z) (p : pm) (ud : Z) : outcome pm := Ok p.

(** What the examples below need of it, by computation. *)
Definition demo_facts (p : pm) : bool :=
  (0 <? bmp_size p) && (bmp_size p <? 2 ^ 52) && (0 <=? used p) && (0 <=? reserved p) &&
  (used p + reserved p <=? total p) && (0 <=? next p) && (next p <? bmp_page_count p) &&
  (0 <=? hard_critical_limit p) && (0 <=? soft_critical_limit p) &&
  bool_decide (callback p = None) && (used p + reserved p <? total p) &&
  (0 <? hard_critical_limit p) && (bmp_size p =? 4096) && (bmp_page_count p =? 1) &&
  negb (freeb (bmp p) 0) &&
  bool_decide (map_Forall (fun i x => free x = true -> 0 <= i < bmp_size p) (bmp p)) &&
  (match allocate no_callback NONE p with Ok (a, _) => a =? 109 * PAGE_SIZE | _ => false end) &&
  (match allocate no_callback MUST_SUCCEED p with Ok _ => true | _ => false end) &&
  negb (total p <=? used p + reserved p + hard_critical_limit p) &&
  (match release (20 * PAGE_SIZE) p with Ok _ => true | _ => false end) &&
  (match release (40 * PAGE_SIZE) p with Bug => true | _ => false end).

Lemma demo_ok : exists p, demo_facts p = true /\ check_integrity p = Ok tt.
Proof. exists demo. split; vm_compute; reflexivity. Qed.

Lemma demo_inv p : demo_facts p = true -> check_integrity p = Ok tt -> inv p.
Proof.
  intros H Hc. unfold demo_facts in H. bool_norm. apply inv_check; [done| |done].
  repeat (apply andb_true_iff; split); first [by apply Z.ltb_lt|by apply Z.leb_le].
Qed.

Theorem allocate_correct_witness :
  exists p, match allocate no_callback NONE p with
  | Ok (pa, p') => pa = 109 * PAGE_SIZE /\ taken NONE p 109 p' /\ inv p'
  | _ => False
  end.
Proof.
  destruct demo_ok as (p & Hd & Hi). exists p.
  pose proof (allocate_correct no_callback NONE p (demo_inv p Hd Hi)) as H.
  unfold demo_facts in Hd. bool_norm. specialize (H ltac:(assumption)).
  destruct (allocate no_callback NONE p) as [[pa p']| |]; [|discriminate|discriminate].
  assert (Hpa : pa = 109 * PAGE_SIZE) by (apply Z.eqb_eq; assumption).
  replace (bool_decide (NONE = NONE) && _) with false in H
    by (symmetry; apply andb_false_iff; right; apply Z.leb_gt; assumption).
  destruct H as (page & Hp & Ht & Hi'). split; [exact Hpa|].
  replace page with 109 in Ht by (unfold PAGE_SIZE in *; lia). exact (conj Ht Hi').
Defined.

(** Release.  On a well-formed allocator [release] stops the machine exactly for an address
    that is not page aligned, a page outside the bitmap, a page that is already free (a double
    release) or when no page is used; otherwise the page joins the free set, nothing else changes
    there, [used] drops by one and the allocator stays well formed. *)
Theorem release_correct pa p :
  inv p -> 0 <= pa ->
  match release pa p with
  | Ok p' => exists page, pa = page * PAGE_SIZE /\ page < bmp_size p /\
      page ∉ free_pages (bmp p) /\ free_pages (bmp p') = {[page]} ∪ free_pages (bmp p) /\
      p' = set_used (used p - 1) (set_bmp (bmp p') p) /\ 0 < used p /\ inv p'
  | Bug => pa mod PAGE_SIZE <> 0 \/ bmp_size p <= pa / PAGE_SIZE \/
      pa / PAGE_SIZE ∈ free_pages (bmp p) \/ used p = 0
  | NoFuel => False
  end.
Proof. apply release_spec. Qed.

Theorem release_correct_witness :
  exists p, match release (20 * PAGE_SIZE) p with
  | Ok p' => free_pages (bmp p') = {[20]} ∪ free_pages (bmp p) /\ inv p'
  | _ => False
  end /\ release (40 * PAGE_SIZE) p = Bug.
Proof.
  destruct demo_ok as (p & Hd & Hi). exists p.
  pose proof (release_correct (20 * PAGE_SIZE) p (demo_inv p Hd Hi) ltac:(discriminate)) as H.
  unfold demo_facts in Hd. bool_norm.
  destruct (release (40 * PAGE_SIZE) p) as [?| |]; [discriminate| |discriminate].
  split; [|reflexivity].
  destruct (release (20 * PAGE_SIZE) p) as [p'| |]; [|discriminate|discriminate].
  destruct H as (page & Hp & _ & _ & Hf & _ & _ & Hi').
  replace page with 20 in Hf by (unfold PAGE_SIZE in *; lia). exact (conj Hf Hi').
Defined.

(** Round trip.  Giving back the page an allocation returned succeeds and restores the set of
    free pages and the number of used ones. *)
Theorem allocate_release invoke mode p pa p' :
  inv p -> callback p = None -> allocate invoke mode p = Ok (pa, p') ->
  (mode = NONE -> used p + reserved p + hard_critical_limit p < total p) ->
  exists p'', release pa p' = Ok p'' /\ inv p'' /\
    free_pages (bmp p'') = free_pages (bmp p) /\ used p'' = used p /\
    reserved p'' = reserved p - b2z (bool_decide (mode = TAKE)).
Proof.
  intros Hi Hc Ha Hn. pose proof (taken_bmp_size _ _ _ _ _ Hc Ha) as Hbs.
  unfold allocate in Ha. rewrite critical_check_none in Ha by done.
  cbn [obind] in Ha. pose proof (allocate_locked_spec mode p Hi) as Hs. rewrite Ha in Hs.
  destruct (bool_decide (mode = NONE) && _) eqn:Er.
  { bool_norm. specialize (Hn ltac:(done)). lia. }
  destruct Hs as (page & -> & Ht & Hi'). destruct Ht.
  pose proof (inv_free _ Hi _ (proj1 (elem_free_pages _ _) taken_was_free0)) as Hr.
  assert (Hdiv : page * PAGE_SIZE / PAGE_SIZE = page) by (by apply Z.div_mul).
  pose proof (release_spec (page * PAGE_SIZE) p' Hi' ltac:(unfold PAGE_SIZE; lia)) as Hs.
  destruct (release _ p') as [p''| |]; [| |done].
  - destruct Hs as (page' & Hp & _ & _ & Hf & Hp'' & _ & Hi''). exists p''.
    assert (page' = page) as -> by (unfold PAGE_SIZE in *; lia).
    split; [done|]. split; [done|]. split; [|rewrite Hp''; cbn; lia].
    rewrite Hf, taken_free0. apply set_eq. intros i.
    rewrite elem_of_union, elem_of_difference, elem_of_singleton.
    split; [by intros [->|[? _]]|]. intros. destruct (decide (i = page)); tauto.
  - exfalso. rewrite Hdiv in Hs. destruct Hs as [Hs|[Hs|[Hs|Hs]]].
    + apply Hs. by apply Z.mod_mul.
    + lia.
    + rewrite taken_free0 in Hs. apply elem_of_difference in Hs as [_ Hs].
      by apply Hs, elem_of_singleton.
    + pose proof (inv_used _ Hi). lia.
Qed.

Theorem allocate_release_witness :
  exists p pa p' p'', allocate no_callback MUST_SUCCEED p = Ok (pa, p') /\
    release pa p' = Ok p'' /\ free_pages (bmp p'') = free_pages (bmp p).
Proof.
  destruct demo_ok as (p & Hd & Hi). exists p.
  pose proof (demo_inv p Hd Hi) as Hinv. unfold demo_facts in Hd. bool_norm.
  destruct (allocate no_callback MUST_SUCCEED p) as [[pa p']| |] eqn:E;
    [|discriminate|discriminate].
  destruct (allocate_release no_callback MUST_SUCCEED p pa p' Hinv ltac:(assumption) E)
    as (p'' & Hr & _ & Hf & _); [intros Hx; discriminate Hx|].
  exists pa, p', p''. split; [reflexivity|]. exact (conj Hr Hf).
Defined.

(** C1. Safety for clients.  Whatever sequence of requests, reservations, takes of reserved pages
    and releases of held pages the clients make, the allocator never stops the machine, never
    hands out a page that a client holds (nor page 0), and stays well formed: in particular every
    reserved page can be taken. *)
Theorem client_safe invoke ops st : client_inv st ->
  exists st', client_run invoke ops st = Ok st' /\ client_inv st'.
Proof.
  revert st. induction ops as [|op ops IH]; intros st Hst; cbn [client_run]; [eauto|].
  destruct (client_step_ok invoke op st Hst) as (st1 & E & Hst1). rewrite E. cbn [obind].
  by apply IH.
Qed.

Theorem client_safe_witness :
  exists p st', client_run no_callback
    [op_reserve 3; op_allocate; op_take; op_release 109; op_allocate; op_take; op_take]
    (∅, p) = Ok st' /\ client_inv st'.
Proof.
  destruct demo_ok as (p & Hd & Hi). exists p. apply client_safe.
  pose proof (demo_inv p Hd Hi) as Hinv. unfold demo_facts in Hd. bool_norm.
  constructor; cbn [fst snd].
  - exact Hinv.
  - assumption.
  - intros i Hin. exfalso. revert Hin. apply not_elem_of_empty.
  - rewrite size_empty. assumption.
  - assumption.
  - assumption.
  - split; [|apply not_elem_of_empty]. rewrite elem_free_pages. congruence.
  - intros i Hin. exfalso. revert Hin. apply not_elem_of_empty.
Defined.

(** The integrity check of the test build accepts exactly the bitmaps whose solid bits are
    right on every bitmap page and whose free entries and used pages add up to the total. *)
Theorem check_integrity_correct p :
  0 <= bmp_page_count p ->
  (forall i, freeb (bmp p) i = true -> 0 <= i < bmp_page_count p * PAGE_SIZE) ->
  check_integrity p = Ok tt <->
  (forall pg, 0 <= pg < bmp_page_count p -> page_ok (bmp p) (pg * PAGE_SIZE)) /\
  used p + Z.of_nat (size (free_pages (bmp p))) = total p.
Proof. intros H1 H2. by apply check_integrity_spec. Qed.

Theorem check_integrity_correct_witness :
  exists p, check_integrity p = Ok tt /\
  forall pg, 0 <= pg < bmp_page_count p -> page_ok (bmp p) (pg * PAGE_SIZE).
Proof.
  destruct demo_ok as (p & Hd & Hi). exists p. split; [exact Hi|].
  pose proof (demo_inv p Hd Hi) as Hinv. unfold demo_facts in Hd. bool_norm.
  apply check_integrity_correct; [lia| |exact Hi]. intros i Hif.
  pose proof (inv_free p Hinv i Hif). unfold PAGE_SIZE. lia.
Defined.

(** C38. Construction.  From a memory map the loader could have left, the constructor succeeds, the
    allocator is well formed, its free pages are the usable pages less the boot pages, the kernel
    image and the bitmap itself, and the page tables it fills map the bitmap. *)
Theorem construct_correct scan top kp t pb : bootable scan top kp t pb ->
  let bs := top / 4096 in
  let pc := (bs + 4095) / 4096 in
  let pdtc := (pc + 511) / 512 in
  exists p t', construct scan top kp t = Ok (p, t') /\ inv p /\
    free_pages (bmp p) = usable scan ∖ (run 0 (10 + pdtc) ∪ run 16 kp ∪ run (pb / 4096) pc) /\
    total p = Z.of_nat (size (usable scan)) /\ used p = 10 + pdtc + pc + kp /\
    reserved p = 0 /\ hard_critical_limit p = 0 /\ callback p = None /\ bmp_size p = bs /\
    (forall k, 0 <= k < pdtc -> pdt0 t' !! (2 + k) =
       Some (Z.lor 0x8000000000000103 (PMMBMP_PT_PBASE + k * PAGE_SIZE))) /\
    (forall k, 0 <= k < pc -> bmp_pt t' !! k =
       Some (Z.lor 0x8000000000000103 (pb + k * PAGE_SIZE))).
Proof. apply construct_spec. Qed.

(** A machine with little more than 1 MB. *)
Definition demo_scan : list PMMSCAN :=
  [Scan 0 0x9F000 1; Scan 0x9F000 0x61000 2; Scan 0x100000 0x40000 1; Scan 0 0 0].
Definition demo_tables : tables :=
  Tables (list_to_map ((fun i => (i, 0)) <$> seqZ 2 6)) ∅.

Theorem construct_correct_witness :
  exists p t', construct demo_scan 0x140000 100 demo_tables = Ok (p, t') /\ inv p /\
    used p = 112.
Proof.
  destruct (construct_correct demo_scan 0x140000 100 demo_tables 0x100000) as
    (p & t' & H1 & H2 & _ & _ & H3 & _).
  - constructor.
    + split; vm_compute; [discriminate|reflexivity].
    + vm_compute. reflexivity.
    + vm_compute. discriminate.
    + vm_compute. reflexivity.
    + discriminate.
    + split; vm_compute; discriminate.
    + apply (bool_decide_unpack _). vm_compute. exact I.
    + apply (bool_decide_unpack _). vm_compute. exact I.
    + intros k Hk. change pdt_limit with 6 in Hk.
      assert (Hc : k = 0 \/ k = 1 \/ k = 2 \/ k = 3 \/ k = 4 \/ k = 5) by lia.
      destruct Hc as [->|[->|[->|[->|[->| ->]]]]]; vm_compute; reflexivity.
    + vm_compute. reflexivity.
  - exists p, t'. split; [exact H1|]. split; [exact H2|]. rewrite H3. reflexivity.
Defined.

(** A reserved page cannot be taken once every page is used or reserved: the assertion
    [used + reserved < total] counts the reserved page itself. *)
Lemma take_reserved_stops invoke p :
  inv p -> callback p = None -> 0 < reserved p -> used p + reserved p = total p ->
  free_pages (bmp p) <> ∅ /\ allocate invoke TAKE p = Bug.
Proof.
  intros Hi Hc Hr Hu. split.
  - intros He. pose proof (inv_count _ Hi) as Hn. rewrite He, size_empty in Hn. lia.
  - unfold allocate. rewrite critical_check_none by done. cbn [obind].
    pose proof (allocate_locked_spec TAKE p Hi) as Hs.
    destruct (allocate_locked TAKE p) as [[pa p']| |]; [|done|done].
    rewrite bool_decide_eq_false_2 in Hs by done. cbn [andb] in Hs.
    destruct Hs as (page & _ & Ht & _). destruct Ht. lia.
Qed.

(** [peek] copies exactly the [count] bytes of physical memory from [paddr], whatever page
    boundaries they cross. *)
Theorem peek_correct phys paddr count :
  0 <= paddr -> 0 <= count -> paddr + count + PAGE_SIZE <= 2 ^ 64 ->
  peek_top phys paddr count = Ok (phys <$> seqZ paddr count).
Proof.
  intros Hp Hc Hb. unfold peek_top. rewrite land_PAGE_MASK.
  assert (Hgen : forall fuel page off count, 0 <= page -> 0 <= off < PAGE_SIZE -> 0 <= count ->
    page + off + count + PAGE_SIZE <= 2 ^ 64 -> (Z.to_nat count <= fuel)%nat ->
    peek fuel phys page off count = Ok (phys <$> seqZ (page + off) count)).
  { clear. intros fuel. induction fuel as [|fuel IH]; intros page off count Hp Ho Hc Hb Hf;
      cbn [peek]; unfold truth; destruct (count =? 0) eqn:E; bool_norm; cbn [negb].
    1, 3: subst; reflexivity.
    { lia. }
    assert (HP : PAGE_SIZE = 4096) by done.
    set (len := Z.min (PAGE_SIZE - off) count).
    rewrite (wrap_small 64 (page + PAGE_SIZE)) by lia.
    destruct (decide (len = count)) as [El|El].
    - rewrite El, Z.sub_diag.
      replace (peek fuel phys (page + PAGE_SIZE) 0 0) with (Ok (A:=list Z) [])
        by (destruct fuel; reflexivity).
      cbn [obind]. rewrite app_nil_r. f_equal. apply list_eq. intros i.
      rewrite !list_lookup_fmap. destruct (decide (Z.of_nat i < count)).
      + rewrite !lookup_seqZ_lt by lia. cbn. f_equal. f_equal. lia.
      + rewrite !lookup_seqZ_ge by lia. done.
    - assert (Hlen : len = PAGE_SIZE - off) by lia. rewrite IH by lia. cbn [obind]. f_equal.
      replace (page + PAGE_SIZE + 0) with (page + off + len) by lia.
      replace count with (len + (count - len)) at 2 by lia.
      rewrite seqZ_app by lia. rewrite fmap_app. f_equal. apply list_eq. intros i.
      rewrite !list_lookup_fmap. destruct (decide (Z.of_nat i < len)).
      + rewrite !lookup_seqZ_lt by lia. cbn. f_equal. f_equal. lia.
      + rewrite !lookup_seqZ_ge by lia. done. }
  assert (0 < PAGE_SIZE) by done.
  pose proof (Z.mod_pos_bound paddr PAGE_SIZE ltac:(done)) as Hm.
  pose proof (Z.mod_le paddr PAGE_SIZE Hp ltac:(done)).
  rewrite Hgen; [|lia..]. by replace (paddr - paddr mod PAGE_SIZE + paddr mod PAGE_SIZE) with paddr by lia.
Qed.

Theorem peek_correct_witness :
  peek_top (fun a => a mod 256) 4094 4 = Ok [254; 255; 0; 1].
Proof. exact (peek_correct (fun a => a mod 256) 4094 4 ltac:(lia) ltac:(lia) ltac:(vm_compute; discriminate)). Defined.
End PM.
