(* ===== verification/BuddyHeap.v ===== *)
(** * The buddy allocator (src/util/include/buddy_heap.hpp)

    Kernel and user heaps are instances of the template [buddy_heap<bot,top,M>].  A free block
    holds the two pointers of a [node] at its own address; [pool] has one chain per block order,
    sorted by address.  Memory is a store from addresses to nodes: a block that is handed out keeps
    whatever its bytes hold.  The lock makes every public operation one step. *)

From S2P Require Import Prelude Const Dll.

Module BuddyHeap.

Abbreviation mem := (gmap Z (node Z unit)).

Record heap := Heap { hmem : mem; pool : gmap Z (option Z); cap_size : Z }.

Section heap.
(** The template arguments: orders run from [bot] to [top - 1]. *)
Variables bot top : Z.

(** ** Operations *)

Definition block_mask (sh : Z) : Z := w64 (Z.shiftl 1 sh) - 1.
Definition block_size (sh : Z) : Z := w64 (Z.shiftl 1 sh).
Definition block_index (sh : Z) : Z := sh - bot.
Definition block_diff (a b : Z) : Z := Z.lxor a b.

(** [category(sz)]: the order of a block that holds [sz] bytes, [top] when there is none. *)
Fixpoint category_loop (fuel : nat) (res sz : Z) : outcome Z :=
  match fuel with
  | O => NoFuel
  | S fuel =>
      let res := res - 1 in
      if truth (Z.land sz (w64 (Z.lnot (block_mask res)))) then
        let res := if truth (Z.land sz (block_mask res)) then res + 1 else res in
        assert! res <? top; Ok res
      else if bot <? res then category_loop fuel res sz
      else assert! res =? bot; Ok res
  end.

Definition category (sz : Z) : outcome Z :=
  assert! truth sz;
  if block_size (top - 1) <? sz then Ok top
  else category_loop (Z.to_nat (top - bot)) top sz.

(** [category(ptr,sz)]: the order of the largest block that starts at [ptr] and fits [sz]. *)
Fixpoint category_range_loop (fuel : nat) (base sz cur res : Z) : outcome Z :=
  if cur <? top then
    match fuel with
    | O => NoFuel
    | S fuel =>
        if truth (Z.land base (block_mask cur)) then Ok res
        else if sz <? block_size cur then Ok res
        else category_range_loop fuel base sz (cur + 1) cur
    end
  else Ok res.

Definition category_range (ptr sz : Z) : outcome Z :=
  assert! truth ptr && truth sz;
  category_range_loop (Z.to_nat (top - bot)) ptr sz bot top.

(** The place of [block] in a chain: the nodes before and after it. *)
Fixpoint find_place (fuel : nat) (m : mem) (block : Z) (prev cur : option Z)
  : outcome (option Z * option Z) :=
  match cur with
  | Some c =>
      if c <? block then
        match fuel with
        | O => NoFuel
        | S fuel =>
            let! nd := deref (m !! c);
            assert! bool_decide (n_prev nd = prev);
            find_place fuel m block (Some c) (n_next nd)
        end
      else Ok (prev, cur)
  | None => Ok (prev, cur)
  end.

Definition is_buddy (o : option Z) (block sh : Z) : bool :=
  match o with Some a => block_diff a block =? block_size sh | None => false end.

(** [p->prev == v] and [p->next == v] for a pointer that may be null. *)
Definition prev_is (o : option Z) (v : option Z) (m : mem) : outcome unit :=
  match o with
  | Some a => let! nd := deref (m !! a); assert! bool_decide (n_prev nd = v); Ok tt
  | None => Ok tt
  end.
Definition next_is (o : option Z) (v : option Z) (m : mem) : outcome unit :=
  match o with
  | Some a => let! nd := deref (m !! a); assert! bool_decide (n_next nd = v); Ok tt
  | None => Ok tt
  end.

(** The buddy leaves its chain: its neighbours, or the pool, are redirected. *)
Definition unlink_buddy (h : heap) (index : Z) (head : option Z) (buddy : Z) : outcome heap :=
  let! nd := deref (hmem h !! buddy);
  let! _ := prev_is (n_next nd) (Some buddy) (hmem h);
  let! m := fix_prev (n_next nd) (n_prev nd) (hmem h);
  let! nd := deref (m !! buddy);
  match n_prev nd with
  | Some p =>
      let! _ := next_is (Some p) (Some buddy) m;
      let! m := fix_next (Some p) (n_next nd) m;
      Ok (Heap m (pool h) (cap_size h))
  | None =>
      assert! bool_decide (head = Some buddy);
      Ok (Heap m (<[index := n_next nd]> (pool h)) (cap_size h))
  end.

(** The block enters its chain between [prev] and [cur]. *)
Definition link_block (h : heap) (index : Z) (head prev cur : option Z) (block : Z)
  : outcome heap :=
  let m := <[block := Node prev cur tt]> (hmem h) in
  let! m := fix_prev cur (Some block) m;
  match prev with
  | Some p =>
      let! m := fix_next (Some p) (Some block) m;
      Ok (Heap m (pool h) (cap_size h))
  | None =>
      assert! bool_decide (head = cur);
      Ok (Heap m (<[index := Some block]> (pool h)) (cap_size h))
  end.

(** [put(ptr,sh)]: insert a free block, merging it with its buddy as long as that one is free. *)
Fixpoint put (fuel : nat) (h : heap) (block sh : Z) : outcome (bool * heap) :=
  match fuel with
  | O => NoFuel
  | S fuel =>
      if negb (Z.land block (block_mask sh) =? 0) then Ok (false, h)
      else
        let index := block_index sh in
        let! head := deref (pool h !! index);
        let! (prev, cur) := find_place (S (size (hmem h))) (hmem h) block None head;
        let! _ := next_is prev cur (hmem h);
        let! _ := prev_is cur prev (hmem h);
        let buddy_block :=
          if sh + 1 <? top then
            if is_buddy prev block sh then prev
            else if is_buddy cur block sh then cur
            else None
          else None in
        match buddy_block with
        | Some buddy =>
            let! h := unlink_buddy h index head buddy;
            put fuel h (Z.min block buddy) (sh + 1)
        | None =>
            let! h := link_block h index head prev cur block;
            Ok (true, h)
        end
  end.

Definition put_block (h : heap) (ptr sh : Z) : outcome (bool * heap) :=
  put (Z.to_nat (top - sh)) h ptr sh.

(** [get(sh)]: take a block of order [sh], splitting a larger one when there is none. *)
Fixpoint get (fuel : nat) (h : heap) (sh : Z) : outcome (option Z * heap) :=
  match fuel with
  | O => NoFuel
  | S fuel =>
      if top <=? sh then Ok (None, h)
      else
        let index := block_index sh in
        let! head := deref (pool h !! index);
        match head with
        | Some cur =>
            let! nd := deref (hmem h !! cur);
            assert! bool_decide (n_prev nd = None);
            assert! Z.land cur (block_mask sh) =? 0;
            let! m :=
              match n_next nd with
              | Some nx =>
                  let! _ := prev_is (Some nx) (Some cur) (hmem h);
                  fix_prev (Some nx) None (hmem h)
              | None => Ok (hmem h)
              end;
            let! nd := deref (m !! cur);
            Ok (Some cur, Heap m (<[index := n_next nd]> (pool h)) (cap_size h))
        | None =>
            let! (cur, h) := get fuel h (sh + 1);
            match cur with
            | None => Ok (None, h)
            | Some cur =>
                let! (_, h) := put_block h (w64 (cur + block_size sh)) sh;
                Ok (Some cur, h)
            end
        end
  end.

Definition get_block (h : heap) (sh : Z) : outcome (option Z * heap) :=
  get (S (Z.to_nat (top - sh))) h sh.

Definition capacity (h : heap) : Z := cap_size h.

Fixpoint max_size_loop (fuel : nat) (h : heap) (i res : Z) : outcome Z :=
  if i <? top then
    match fuel with
    | O => NoFuel
    | S fuel =>
        let! head := deref (pool h !! block_index i);
        max_size_loop fuel h (i + 1) (match head with Some _ => i | None => res end)
    end
  else Ok res.

Definition max_size (h : heap) : outcome Z :=
  let! res := max_size_loop (Z.to_nat (top - bot)) h bot top;
  Ok (if res =? top then 0 else block_size res).

Definition release (h : heap) (ptr sz : Z) : outcome (bool * heap) :=
  if ptr =? 0 then Ok (false, h)
  else
    let! sh := category sz;
    if top <=? sh then Ok (false, h) else put_block h ptr sh.

(** [expand(ptr,len)]: cut a range into the largest aligned blocks and insert them. *)
Fixpoint expand_loop (fuel : nat) (h : heap) (cur len : Z) (res : bool) : outcome (bool * heap) :=
  if block_size bot <=? len then
    match fuel with
    | O => NoFuel
    | S fuel =>
        let! sh := category_range cur len;
        if top <=? sh then Ok (res, h)
        else
          let size := block_size sh in
          assert! size <=? len;
          assert! Z.land cur (block_mask sh) =? 0;
          let! (ok, h) := put_block h cur sh;
          if ok then
            expand_loop fuel (Heap (hmem h) (pool h) (w64 (cap_size h + size)))
              (w64 (cur + size)) (len - size) true
          else Ok (false, h)
    end
  else Ok (res, h).

Definition expand (h : heap) (ptr len : Z) : outcome (bool * heap) :=
  if (ptr =? 0) || (len =? 0) then Ok (false, h)
  else
    let base := ptr in
    let aligned_base := align_up 64 base (block_size bot) in
    if len <=? w64 (aligned_base - base) then Ok (false, h)
    else
      let len := len - w64 (aligned_base - base) in
      expand_loop (Z.to_nat (len / block_size bot) + 1) h aligned_base len false.

(** The expander registered with the heap, when there is one: given the wanted size it returns the
    address of new memory (0 when there is none) and its size; [W] is what it works on. *)
Section allocate.
Context {W : Type}.
Variable callback : option (W -> Z -> outcome (Z * Z * W)).

Fixpoint allocate (fuel : nat) (w : W) (h : heap) (req : Z) : outcome (option Z * W * heap) :=
  match fuel with
  | O => NoFuel
  | S fuel =>
      let! sh := category req;
      if top <=? sh then Ok (None, w, h)
      else
        let! (ptr, h) := get_block h sh;
        match ptr, callback with
        | Some _, _ | _, None => Ok (ptr, w, h)
        | None, Some cb =>
            let new_size := Z.max req (Z.max (cap_size h) 0x4000) in
            let! (new_block, new_size, w) := cb w new_size;
            let! (ok, h) := expand h new_block new_size;
            if ok then allocate fuel w h req else Ok (None, w, h)
        end
  end.
End allocate.

(** The expander of the kernel heap (src/kernel/global.cpp) and of the user heap
    (src/app/libuos/crt_heap.cpp): reserve and commit whole pages, falling back to one page.  The
    three functions are the virtual memory services of the kernel or the system calls. *)
Section expander.
Context {W : Type}.
Variable vm_reserve : W -> Z -> Z -> outcome (Z * W).
Variable vm_commit : W -> Z -> Z -> outcome (bool * W).
Variable vm_release : W -> Z -> Z -> outcome W.

Fixpoint expander_loop (fuel : nat) (w : W) (req_size : Z) : outcome (Z * Z * W) :=
  match fuel with
  | O => NoFuel
  | S fuel =>
      let req_page := req_size / PAGE_SIZE in
      let! (ptr, w) := vm_reserve w 0 req_page;
      if truth ptr then
        let! (ok, w) := vm_commit w ptr req_page;
        if ok then Ok (ptr, req_size, w)
        else
          let! w := vm_release w ptr req_page;
          if req_page <=? 1 then Ok (0, req_size, w) else expander_loop fuel w PAGE_SIZE
      else if req_page <=? 1 then Ok (0, req_size, w) else expander_loop fuel w PAGE_SIZE
  end.

Definition heap_expander (w : W) (req_size : Z) : outcome (Z * Z * W) :=
  expander_loop 2 w (align_up 64 (Z.max req_size PAGE_SIZE) PAGE_SIZE).
End expander.

(** ** Arithmetic of blocks *)

Hypothesis orders : 4 <= bot < top /\ top <= 63.

Lemma block_size_eq sh : 0 <= sh < 64 -> block_size sh = 2 ^ sh.
Proof.
  intros. unfold block_size. rewrite Z.shiftl_1_l. apply wrap_small.
  split; [lia|]. apply Z.pow_lt_mono_r; lia.
Qed.

Lemma land_block_mask x sh : 0 <= sh < 64 -> Z.land x (block_mask sh) = x mod 2 ^ sh.
Proof.
  intros. unfold block_mask. fold (block_size sh). rewrite block_size_eq by done.
  apply land_low_mask. lia.
Qed.

Lemma pow2_pos k : 0 <= k -> 0 < 2 ^ k.
Proof. intros. apply Z.pow_pos_nonneg; lia. Qed.

Lemma pow2_split k : 0 <= k -> 2 ^ (k + 1) = 2 * 2 ^ k.
Proof. intros. rewrite Z.pow_add_r by lia. lia. Qed.

Lemma lxor_1_even k : 0 <= k -> Z.lxor (2 * k) 1 = 2 * k + 1.
Proof.
  intros. rewrite <- Z.add_nocarry_lxor; [done|].
  change 1 with (2 ^ 1 - 1). rewrite land_low_mask by lia. change (2 ^ 1) with 2. dlia.
Qed.

(** Two blocks of order [sh] are buddies: the lower one starts a block of order [sh + 1] that the
    upper one completes. *)
Lemma buddy_iff sh a b :
  0 <= sh -> 0 <= a < b -> a mod 2 ^ sh = 0 -> b mod 2 ^ sh = 0 ->
  block_diff a b = 2 ^ sh <-> b = a + 2 ^ sh /\ a mod 2 ^ (sh + 1) = 0.
Proof.
  intros Hsh Hab Ha Hb. pose proof (pow2_pos sh Hsh) as Hp. unfold block_diff.
  apply Z.mod_divide in Ha as [x ->]; [|lia]. apply Z.mod_divide in Hb as [y ->]; [|lia].
  assert (Hx : 0 <= x < y) by nia.
  assert (Hl : Z.lxor (x * 2 ^ sh) (y * 2 ^ sh) = Z.lxor x y * 2 ^ sh).
  { rewrite <- !Z.shiftl_mul_pow2 by lia. by rewrite Z.shiftl_lxor. }
  rewrite Hl, pow2_split by lia.
  replace (x * 2 ^ sh) with (2 ^ sh * x) by lia.
  replace (2 * 2 ^ sh) with (2 ^ sh * 2) by lia.
  rewrite Z.mul_mod_distr_l by lia.
  destruct (Z.Even_or_Odd x) as [[k ->]|[k ->]].
  - split.
    + intros He. assert (Hxy : Z.lxor (2 * k) y = 1) by nia.
      assert (y = 2 * k + 1) as ->.
      { rewrite <- lxor_1_even by lia. rewrite <- Hxy, <- Z.lxor_assoc, Z.lxor_nilpotent.
        by rewrite Z.lxor_0_l. }
      split; [lia|]. replace (2 * k) with (k * 2) by lia. by rewrite Z.mod_mul, Z.mul_0_r by lia.
    + intros [He _]. assert (y = 2 * k + 1) as -> by nia.
      rewrite <- (lxor_1_even k), <- Z.lxor_assoc, Z.lxor_nilpotent, Z.lxor_0_l by lia. lia.
  - split.
    + intros He. assert (Hxy : Z.lxor (2 * k + 1) y = 1) by nia.
      assert (Hy : y = 2 * k).
      { rewrite <- (lxor_1_even k) in Hxy by lia.
        assert (Hy : Z.lxor (2 * k) (Z.lxor (Z.lxor (2 * k) 1) y) = Z.lxor (2 * k) 1) by congruence.
        rewrite <- !Z.lxor_assoc, Z.lxor_nilpotent, Z.lxor_0_l in Hy.
        assert (Hy' : Z.lxor 1 (Z.lxor 1 y) = Z.lxor 1 (Z.lxor (2 * k) 1)) by congruence.
        rewrite (Z.lxor_comm (2 * k) 1), <- !Z.lxor_assoc, !Z.lxor_nilpotent, !Z.lxor_0_l in Hy'.
        done. }
      lia.
    + intros [_ He]. exfalso.
      replace (2 * k + 1) with (1 + k * 2) in He by lia. rewrite Z.mod_add in He by lia.
      change (1 mod 2) with 1 in He. lia.
Qed.

(** ** The two size classes *)

Lemma above_mask x res : 0 <= res < 64 -> 0 <= x < 2 ^ 64 ->
  truth (Z.land x (w64 (Z.lnot (block_mask res)))) = (2 ^ res <=? x).
Proof.
  intros Hr Hx. unfold block_mask. fold (block_size res). rewrite block_size_eq by done.
  fold (align_down 64 x (2 ^ res)). rewrite align_down_pow2 by lia.
  pose proof (pow2_pos res ltac:(lia)). unfold truth.
  destruct (Z.leb_spec (2 ^ res) x).
  - apply negb_true_iff, Z.eqb_neq.
    pose proof (Z.div_le_lower_bound x (2 ^ res) 1 ltac:(lia) ltac:(lia)). nia.
  - rewrite Z.div_small by lia. done.
Qed.

Lemma category_loop_spec fuel res sz :
  bot < res <= top -> (Z.to_nat (res - bot) <= fuel)%nat -> 0 < sz < 2 ^ res ->
  sz <= 2 ^ (top - 1) ->
  exists sh, category_loop fuel res sz = Ok sh /\ bot <= sh < top /\ sz <= 2 ^ sh /\
    (sh = bot \/ 2 ^ (sh - 1) < sz).
Proof.
  destruct orders as [Ho1 Ho2]. revert res. induction fuel as [|fuel IH]; intros res Hr Hf Hsz Hmax;
    cbn [category_loop]; [lia|].
  assert (Hpow : 2 ^ res = 2 * 2 ^ (res - 1)) by (rewrite <- pow2_split by lia; f_equal; lia).
  assert (Hlim : 2 ^ res < 2 ^ 64) by (apply Z.pow_lt_mono_r; lia).
  rewrite above_mask, land_block_mask by lia.
  destruct (Z.leb_spec (2 ^ (res - 1)) sz) as [Hge|Hlt].
  - unfold truth. destruct (sz mod 2 ^ (res - 1) =? 0) eqn:Em; cbn [negb]; bool_norm.
    + assert (sz = 2 ^ (res - 1)).
      { pose proof (pow2_pos (res - 1) ltac:(lia)).
        apply Z.mod_divide in Em as [q Hq]; [|lia]. assert (q = 1) by nia. nia. }
      rewrite ensure_true by (apply Z.ltb_lt; lia). exists (res - 1).
      split; [done|]. split; [lia|]. split; [lia|]. right. subst sz. apply Z.pow_lt_mono_r; lia.
    + assert (res - 1 + 1 <> top).
      { intros E. assert (Hsz' : sz = 2 ^ (res - 1)).
        { replace (top - 1) with (res - 1) in Hmax by lia. lia. }
        apply Em. subst sz. apply Z.mod_same. pose proof (pow2_pos (res - 1) ltac:(lia)). lia. }
      rewrite ensure_true by (apply Z.ltb_lt; lia). exists (res - 1 + 1).
      split; [done|]. split; [lia|]. replace (res - 1 + 1) with res by lia. split; [lia|].
      right. assert (sz <> 2 ^ (res - 1)); [|lia].
      intros ->. apply Em. apply Z.mod_same. pose proof (pow2_pos (res - 1) ltac:(lia)). lia.
  - destruct (Z.ltb_spec bot (res - 1)).
    + apply IH; lia.
    + rewrite ensure_true by (apply Z.eqb_eq; lia). exists (res - 1).
      split; [done|]. split; [lia|]. split; [lia|]. left. lia.
Qed.

Lemma category_spec sz : 0 < sz < 2 ^ 64 ->
  exists sh, category sz = Ok sh /\
    if decide (sz <= 2 ^ (top - 1))
    then bot <= sh < top /\ sz <= 2 ^ sh /\ (sh = bot \/ 2 ^ (sh - 1) < sz)
    else sh = top.
Proof.
  destruct orders as [Ho1 Ho2]. intros Hsz. unfold category.
  rewrite ensure_true by (unfold truth; apply negb_true_iff, Z.eqb_neq; lia). cbn [obind].
  rewrite block_size_eq by lia. case_decide as Hd.
  - replace (2 ^ (top - 1) <? sz) with false by (symmetry; by apply Z.ltb_ge).
    destruct (category_loop_spec (Z.to_nat (top - bot)) top sz) as (sh & E & H); [lia|lia| |done|].
    { split; [lia|]. assert (2 ^ (top - 1) < 2 ^ top) by (apply Z.pow_lt_mono_r; lia). lia. }
    eauto.
  - replace (2 ^ (top - 1) <? sz) with true by (symmetry; apply Z.ltb_lt; lia). eauto.
Qed.

Lemma category_range_loop_spec fuel base sz cur res :
  bot <= cur <= top -> (Z.to_nat (top - cur) <= fuel)%nat -> 0 < base ->
  (cur = bot /\ res = top \/ bot <= res /\ res = cur - 1 /\ base mod 2 ^ res = 0 /\ 2 ^ res <= sz) ->
  exists sh, category_range_loop fuel base sz cur res = Ok sh /\
    (sh = top /\ (base mod 2 ^ bot <> 0 \/ sz < 2 ^ bot) \/
     bot <= sh < top /\ base mod 2 ^ sh = 0 /\ 2 ^ sh <= sz /\
     (sh + 1 < top -> base mod 2 ^ (sh + 1) <> 0 \/ sz < 2 ^ (sh + 1))).
Proof.
  destruct orders as [Ho1 Ho2]. revert cur res.
  induction fuel as [|fuel IH]; intros cur res Hc Hf Hb Hr; cbn [category_range_loop].
  all: destruct (Z.ltb_spec cur top); [try lia|].
  1, 3: exists res; split; [done|]; right; destruct Hr as [?|(? & ? & ? & ?)]; [lia|];
    split; [lia|]; split; [done|]; split; [done|lia].
  rewrite land_block_mask, block_size_eq by lia. unfold truth.
  destruct (base mod 2 ^ cur =? 0) eqn:Em; cbn [negb]; bool_norm.
  - destruct (Z.ltb_spec sz (2 ^ cur)).
    + exists res. split; [done|]. destruct Hr as [[-> ->]|(? & -> & ? & ?)]; [by left; auto|right].
      split; [lia|]. split; [done|]. split; [done|]. intros _. right.
      by replace (cur - 1 + 1) with cur by lia.
    + apply IH; [lia|lia|lia|]. right. split; [lia|]. split; [lia|]. done.
  - exists res. split; [done|]. destruct Hr as [[-> ->]|(? & -> & ? & ?)]; [by left; auto|right].
    split; [lia|]. split; [done|]. split; [done|]. intros _. left.
    by replace (cur - 1 + 1) with cur by lia.
Qed.

(** ** Free lists and the memory they cover *)

(** [fl sh] is the list of addresses of the free blocks of order [sh]. *)
Abbreviation freelists := (Z -> list Z).

Definition upd (fl : freelists) (sh : Z) (l : list Z) : freelists :=
  fun s => if decide (s = sh) then l else fl s.

Lemma upd_eq fl sh l : upd fl sh l sh = l.
Proof. unfold upd. by rewrite decide_True by done. Qed.
Lemma upd_ne fl sh l s : s <> sh -> upd fl sh l s = fl s.
Proof. intros. unfold upd. by rewrite decide_False by done. Qed.

Definition ns (l : list Z) : list (Z * unit) := (fun a => (a, tt)) <$> l.

Lemma ns_keys l : (ns l).*1 = l.
Proof. induction l as [|a l IH]; cbn; [done|]. by f_equal. Qed.
Lemma ns_app l1 l2 : ns (l1 ++ l2) = ns l1 ++ ns l2.
Proof. apply fmap_app. Qed.

(** Byte [x] belongs to a free block. *)
Definition covers (fl : freelists) (x : Z) : Prop :=
  exists sh b, bot <= sh < top /\ b ∈ fl sh /\ b <= x < b + 2 ^ sh.

(** No byte of the block of order [sh] at [p] is free. *)
Definition apart (fl : freelists) (p sh : Z) : Prop :=
  forall x, p <= x < p + 2 ^ sh -> ~ covers fl x.

(** The pool shows the free lists. *)
Record rep (h : heap) (fl : freelists) : Prop := {
  rep_pool : forall sh, bot <= sh < top -> pool h !! (sh - bot) = Some (hd_or (ns (fl sh)) None);
  rep_seg : forall sh, bot <= sh < top -> seg (hmem h) None (ns (fl sh)) None
}.

(** The free blocks: every list sorted, every block aligned and inside the address space, no two
    overlap, and no two buddies below the largest order are free together. *)
Record geo (fl : freelists) : Prop := {
  geo_sorted : forall sh, bot <= sh < top -> StronglySorted Z.lt (fl sh);
  geo_block : forall sh a, bot <= sh < top -> a ∈ fl sh ->
    0 < a /\ a mod 2 ^ sh = 0 /\ a + 2 ^ sh <= 2 ^ 64;
  geo_disj : forall s1 a s2 b, bot <= s1 < top -> bot <= s2 < top -> a ∈ fl s1 -> b ∈ fl s2 ->
    (s1 = s2 /\ a = b) \/ a + 2 ^ s1 <= b \/ b + 2 ^ s2 <= a;
  geo_coal : forall sh a, bot <= sh -> sh + 1 < top -> a ∈ fl sh ->
    a mod 2 ^ (sh + 1) = 0 -> a + 2 ^ sh ∉ fl sh
}.

Record wf (h : heap) (fl : freelists) : Prop := { wf_rep : rep h fl; wf_geo : geo fl }.

Lemma apart_iff fl p sh : 0 <= sh ->
  apart fl p sh <-> forall s b, bot <= s < top -> b ∈ fl s -> p + 2 ^ sh <= b \/ b + 2 ^ s <= p.
Proof.
  destruct orders as [Ho1 Ho2]. intros Hsh. pose proof (pow2_pos sh Hsh). split.
  - intros Ha s b Hs Hb. pose proof (pow2_pos s ltac:(lia)).
    destruct (decide (p + 2 ^ sh <= b)); [by left|]. destruct (decide (b + 2 ^ s <= p)); [by right|].
    exfalso. apply (Ha (Z.max p b)); [lia|]. exists s, b. split; [done|]. split; [done|]. lia.
  - intros Hd x Hx (s & b & Hs & Hb & Hx'). destruct (Hd s b Hs Hb); lia.
Qed.

Lemma sorted_nodup l : StronglySorted Z.lt l -> NoDup l.
Proof.
  induction 1 as [|a l Hs IH Hf]; [constructor|]. constructor; [|done].
  intros Hin. rewrite Forall_forall in Hf. specialize (Hf _ Hin). lia.
Qed.

(** A block belongs to one list only. *)
Lemma fl_disjoint fl s1 s2 a : geo fl -> bot <= s1 < top -> bot <= s2 < top ->
  a ∈ fl s1 -> a ∈ fl s2 -> s1 = s2.
Proof.
  destruct orders as [Ho1 Ho2]. intros Hg H1 H2 Ha Hb.
  destruct (geo_disj _ Hg s1 a s2 a H1 H2 Ha Hb) as [[? _]|[?|?]]; [done| |].
  - pose proof (pow2_pos s1 ltac:(lia)). lia.
  - pose proof (pow2_pos s2 ltac:(lia)). lia.
Qed.

(** Replacing one chain. *)
Lemma rep_upd h fl sh l m' pool' c :
  rep h fl -> bot <= sh < top ->
  pool' !! (sh - bot) = Some (hd_or (ns l) None) ->
  (forall i, i <> sh - bot -> pool' !! i = pool h !! i) ->
  seg m' None (ns l) None ->
  (forall s k, bot <= s < top -> s <> sh -> k ∈ fl s -> m' !! k = hmem h !! k) ->
  rep (Heap m' pool' c) (upd fl sh l).
Proof.
  intros [Hp Hs] Hsh Hhd Hoth Hseg Hm. constructor; intros s Hs'; cbn [pool hmem].
  - destruct (decide (s = sh)) as [->|Hn]; [by rewrite upd_eq|].
    rewrite upd_ne, Hoth by lia. by apply Hp.
  - destruct (decide (s = sh)) as [->|Hn]; [by rewrite upd_eq|].
    rewrite upd_ne by done. apply (seg_frame (hmem h)); [|by apply Hs].
    intros k Hk. rewrite ns_keys in Hk. by eapply Hm.
Qed.

(** The place of an address in a sorted list. *)
Lemma sorted_split (l : list Z) p : StronglySorted Z.lt l ->
  exists l1 l2, l = l1 ++ l2 /\ (forall a, a ∈ l1 -> a < p) /\ (forall a, a ∈ l2 -> p <= a).
Proof.
  induction 1 as [|x l Hs IH Hf].
  - exists [], []. split; [done|]. split; intros a Ha; by apply elem_of_nil in Ha.
  - destruct (decide (x < p)).
    + destruct IH as (l1 & l2 & -> & H1 & H2). exists (x :: l1), l2.
      split; [done|]. split; [|done]. intros a Ha. apply elem_of_cons in Ha as [->|Ha]; auto.
    + exists [], (x :: l). split; [done|]. split; intros a Ha; [by apply elem_of_nil in Ha|].
      apply elem_of_cons in Ha as [->|Ha]; [lia|]. rewrite Forall_forall in Hf.
      specialize (Hf _ Ha). lia.
Qed.

Lemma find_place_spec m p l1 l2 p0 fuel :
  seg m p0 (ns (l1 ++ l2)) None ->
  (forall a, a ∈ l1 -> a < p) -> (forall a, a ∈ l2 -> p <= a) -> (length l1 <= fuel)%nat ->
  find_place fuel m p p0 (hd_or (ns (l1 ++ l2)) None) =
    Ok (last_or p0 (ns l1), hd_or (ns l2) None).
Proof.
  intros Hs H1 H2 Hf. revert p0 fuel Hs Hf.
  induction l1 as [|a l1 IH]; intros p0 fuel Hs Hf.
  - cbn [app]. destruct l2 as [|b l2]; [by destruct fuel|].
    cbn [ns fmap list_fmap hd_or]. assert (E : (b <? p) = false)
      by (apply Z.ltb_ge, H2; by left).
    destruct fuel; cbn [find_place]; by rewrite E.
  - cbn [app ns fmap list_fmap hd_or] in *. destruct fuel as [|fuel]; [cbn in Hf; lia|].
    cbn [find_place]. replace (a <? p) with true
      by (symmetry; apply Z.ltb_lt, H1; by left).
    destruct Hs as [Ha Hs]. rewrite Ha. cbn [deref obind n_prev n_next].
    rewrite ensure_decide by done. cbn [obind]. rewrite last_or_cons.
    apply IH; [intros; apply H1; by right|done|cbn in Hf; lia].
Qed.

Lemma chain_length m p l n : NoDup l -> seg m p (ns l) n -> (length l <= size m)%nat.
Proof.
  intros Hd Hs. assert (list_to_set l ⊆ dom m).
  { intros k Hk. apply elem_of_list_to_set in Hk. apply elem_of_dom.
    eapply seg_in_dom; [done|]. by rewrite ns_keys. }
  rewrite <- (size_list_to_set (C:=gset Z) l) by done. rewrite <- size_dom.
  by apply subseteq_size.
Qed.

(** Geometry: taking a block out of its list. *)
Lemma geo_del fl sh l1 b l2 : geo fl -> bot <= sh < top -> fl sh = l1 ++ b :: l2 ->
  geo (upd fl sh (l1 ++ l2)).
Proof.
  intros [Hs Hb Hd Hc] Hsh Hl.
  assert (Hsub : forall s a, a ∈ upd fl sh (l1 ++ l2) s -> a ∈ fl s).
  { intros s a. unfold upd. case_decide; [subst|done]. rewrite Hl, !elem_of_app, elem_of_cons.
    tauto. }
  constructor.
  - intros s Hs'. unfold upd. case_decide; [subst|by apply Hs].
    specialize (Hs sh Hsh). rewrite Hl in Hs. apply ssorted_app in Hs as (H1 & H2 & H3).
    apply ssorted_app. split; [done|]. split; [by inversion H2|]. intros x y Hx Hy. apply H3; [done|]. by right.
  - intros s a Hs' Ha. by apply Hb, Hsub.
  - intros s1 a s2 a' H1 H2 Ha Ha'. apply Hd; auto.
  - intros s a H1 H2 Ha Hm Hin. by apply (Hc s a H1 H2); auto.
Qed.

Lemma covers_del fl sh l1 b l2 x : geo fl -> bot <= sh < top -> fl sh = l1 ++ b :: l2 ->
  covers fl x <-> covers (upd fl sh (l1 ++ l2)) x \/ b <= x < b + 2 ^ sh.
Proof.
  intros Hg Hsh Hl. split.
  - intros (s & a & Hs & Ha & Hx). destruct (decide (s = sh)) as [->|].
    + rewrite Hl, elem_of_app, elem_of_cons in Ha.
      destruct (decide (a = b)) as [->|]; [by right|]. left. exists sh, a. rewrite upd_eq.
      split; [done|]. split; [|done]. apply elem_of_app. naive_solver.
    + left. exists s, a. by rewrite upd_ne.
  - intros [(s & a & Hs & Ha & Hx)|Hx].
    + exists s, a. split; [done|]. split; [|done]. unfold upd in Ha. case_decide; [subst|done].
      rewrite Hl, elem_of_app, elem_of_cons. apply elem_of_app in Ha. tauto.
    + exists sh, b. split; [done|]. split; [|done]. rewrite Hl, elem_of_app, elem_of_cons. tauto.
Qed.

(** The block taken out is apart from the rest. *)
Lemma apart_del fl sh l1 b l2 : geo fl -> bot <= sh < top -> fl sh = l1 ++ b :: l2 ->
  apart (upd fl sh (l1 ++ l2)) b sh.
Proof.
  destruct orders as [Ho1 Ho2]. intros Hg Hsh Hl. apply apart_iff; [lia|]. intros s a Hs Ha.
  assert (Hbin : b ∈ fl sh) by (rewrite Hl, elem_of_app, elem_of_cons; tauto).
  assert (Hain : a ∈ fl s).
  { unfold upd in Ha. case_decide; [subst|done]. rewrite Hl, elem_of_app, elem_of_cons.
    apply elem_of_app in Ha. tauto. }
  destruct (geo_disj _ Hg sh b s a Hsh Hs Hbin Hain) as [[<- <-]|[?|?]]; [|by left|by right].
  exfalso. rewrite upd_eq in Ha. pose proof (sorted_nodup _ (geo_sorted _ Hg sh Hsh)) as Hn.
  rewrite Hl in Hn. apply NoDup_app in Hn as (_ & Hn & Hn'). apply NoDup_cons in Hn' as [Hn' _].
  apply elem_of_app in Ha as [Ha|Ha]; [|done]. apply (Hn b Ha). by left.
Qed.

(** Geometry: inserting a block that has no free buddy. *)
Lemma geo_ins fl sh l1 p l2 :
  geo fl -> bot <= sh < top -> fl sh = l1 ++ l2 ->
  (forall a, a ∈ l1 -> a < p) -> (forall a, a ∈ l2 -> p <= a) ->
  0 < p -> p mod 2 ^ sh = 0 -> p + 2 ^ sh <= 2 ^ 64 -> apart fl p sh ->
  (sh + 1 < top -> p mod 2 ^ (sh + 1) = 0 -> p + 2 ^ sh ∉ fl sh) ->
  (sh + 1 < top -> (p - 2 ^ sh) mod 2 ^ (sh + 1) = 0 -> p - 2 ^ sh ∉ fl sh) ->
  geo (upd fl sh (l1 ++ p :: l2)).
Proof.
  destruct orders as [Ho1 Ho2]. intros Hg Hsh Hl H1 H2 Hp Hm Hb Ha Hc1 Hc2.
  pose proof (pow2_pos sh ltac:(lia)) as Hpos.
  assert (Hnin : p ∉ fl sh).
  { intros Hin. apply (Ha p); [lia|]. exists sh, p. split; [done|]. split; [done|]. lia. }
  assert (Hin : forall s a, a ∈ upd fl sh (l1 ++ p :: l2) s -> (s = sh /\ a = p) \/ a ∈ fl s).
  { intros s a. unfold upd. case_decide; [subst|tauto]. rewrite Hl, !elem_of_app, elem_of_cons.
    tauto. }
  rewrite apart_iff in Ha by lia.
  constructor.
  - intros s Hs. unfold upd. case_decide; [subst|by apply Hg].
    pose proof (geo_sorted _ Hg sh Hsh) as Hs'. rewrite Hl in Hs'.
    apply ssorted_app in Hs' as (S1 & S2 & S3). apply ssorted_app. split; [done|]. split.
    + constructor; [done|]. apply Forall_forall. intros a Ha'. specialize (H2 a Ha').
      assert (a <> p); [|lia]. intros ->. apply Hnin. rewrite Hl, elem_of_app. by right.
    + intros a b Ha' Hb'. apply elem_of_cons in Hb' as [->|Hb']; auto.
  - intros s a Hs Ha'. apply Hin in Ha' as [[-> ->]|Ha']; [done|]. by apply Hg.
  - intros s1 a s2 b S1 S2 A B. apply Hin in A as [[-> ->]|A]; apply Hin in B as [[-> ->]|B].
    + by left.
    + right. by apply Ha.
    + right. destruct (Ha s1 a S1 A); [by right|by left].
    + by apply Hg.
  - intros s a S1 S2 A M B.
    apply Hin in A as [[-> ->]|A]; apply Hin in B as [[E B]|B].
    + lia.
    + by apply Hc1.
    + subst s. replace a with (p - 2 ^ sh) in * by lia. by apply Hc2.
    + by apply (geo_coal _ Hg s a).
Qed.

Lemma covers_ins fl sh l1 p l2 x : bot <= sh < top -> fl sh = l1 ++ l2 ->
  covers (upd fl sh (l1 ++ p :: l2)) x <-> covers fl x \/ p <= x < p + 2 ^ sh.
Proof.
  intros Hsh Hl. split.
  - intros (s & a & Hs & Ha & Hx). destruct (decide (s = sh)) as [->|].
    + rewrite upd_eq, elem_of_app, elem_of_cons in Ha.
      destruct (decide (a = p)) as [->|]; [by right|]. left. exists sh, a.
      split; [done|]. split; [|done]. rewrite Hl, elem_of_app. naive_solver.
    + rewrite upd_ne in Ha by done. left. by exists s, a.
  - intros [(s & a & Hs & Ha & Hx)|Hx].
    + exists s, a. split; [done|]. split; [|done]. unfold upd. case_decide; [subst|done].
      rewrite Hl, elem_of_app in Ha. rewrite elem_of_app, elem_of_cons. tauto.
    + exists sh, p. split; [done|]. split; [|done]. rewrite upd_eq, elem_of_app, elem_of_cons. tauto.
Qed.

(** ** Inserting and taking blocks *)

Lemma next_is_ok m l1 l2 : seg m None (ns l1 ++ ns l2) None ->
  next_is (last_or None (ns l1)) (hd_or (ns l2) None) m = Ok tt.
Proof.
  intros Hs. destruct l1 as [|a l1 _] using rev_ind; [done|].
  rewrite ns_app in *. cbn [ns fmap list_fmap] in *. rewrite last_or_snoc. cbn [next_is].
  rewrite <- app_assoc in Hs. apply seg_lookup in Hs. rewrite Hs. cbn [deref obind n_next].
  by rewrite ensure_decide.
Qed.

Lemma prev_is_ok m l1 l2 n : seg m None (ns l1 ++ ns l2) n ->
  prev_is (hd_or (ns l2) None) (last_or None (ns l1)) m = Ok tt.
Proof.
  intros Hs. destruct l2 as [|a l2]; [done|]. cbn [ns fmap list_fmap hd_or prev_is] in *.
  apply seg_lookup in Hs. rewrite Hs. cbn [deref obind n_prev]. by rewrite ensure_decide.
Qed.

Lemma unlink_buddy_spec h fl sh la b lb :
  rep h fl -> geo fl -> bot <= sh < top -> fl sh = la ++ b :: lb ->
  exists h', unlink_buddy h (sh - bot) (hd_or (ns (fl sh)) None) b = Ok h' /\
    rep h' (upd fl sh (la ++ lb)) /\ cap_size h' = cap_size h /\
    (forall k, k ∉ la -> k ∉ lb -> hmem h' !! k = hmem h !! k).
Proof.
  intros Hr Hg Hsh Hl. pose proof (rep_seg _ _ Hr sh Hsh) as Hs.
  pose proof (sorted_nodup _ (geo_sorted _ Hg sh Hsh)) as Hn. rewrite Hl in Hs, Hn.
  rewrite ns_app in Hs. cbn [ns fmap list_fmap] in Hs. fold (ns lb) in Hs.
  assert (Hn' : NoDup (ns la ++ (b, tt) :: ns lb).*1).
  { rewrite fmap_app. cbn [fmap list_fmap fst]. by rewrite !ns_keys. }
  destruct (seg_unlink _ _ _ _ _ Hn' Hs) as (m1 & m2 & E1 & E2 & Hs2 & Hf1 & Hf2).
  rewrite !ns_keys in *. apply NoDup_app in Hn as (_ & Hab & Hbb).
  apply NoDup_cons in Hbb as [Hbb _].
  assert (Hba : b ∉ la) by (intros Hx; apply (Hab b Hx); by left).
  pose proof (seg_lookup _ _ _ _ _ _ _ Hs) as Hbn.
  unfold unlink_buddy. rewrite Hbn. cbn [deref obind n_next n_prev].
  assert (Hpi : prev_is (hd_or (ns lb) None) (Some b) (hmem h) = Ok tt).
  { pose proof (prev_is_ok (hmem h) (la ++ [b]) lb None) as Hp.
    rewrite ns_app in Hp. cbn [ns fmap list_fmap] in Hp. rewrite last_or_snoc in Hp.
    apply Hp. by rewrite <- app_assoc. }
  rewrite Hpi. cbn [obind]. rewrite E1. cbn [obind]. rewrite Hf1 by done. rewrite Hbn.
  cbn [deref obind n_next n_prev].
  assert (Hupd : forall pool' c, pool' !! (sh - bot) = Some (hd_or (ns (la ++ lb)) None) ->
    (forall i, i <> sh - bot -> pool' !! i = pool h !! i) ->
    rep (Heap m2 pool' c) (upd fl sh (la ++ lb))).
  { intros pool' c H1 H2. apply (rep_upd h); [done|done|done|done|by rewrite ns_app|].
    intros s k Hs' Hne Hk. rewrite Hf2, Hf1; [done| |].
    - intros Hx. apply Hne. eapply fl_disjoint; [done|done|exact Hsh|done|].
      rewrite Hl, elem_of_app, elem_of_cons. tauto.
    - intros Hx. apply Hne. eapply fl_disjoint; [done|done|exact Hsh|done|].
      rewrite Hl, elem_of_app. tauto. }
  assert (Hmem : forall k, k ∉ la -> k ∉ lb -> m2 !! k = hmem h !! k).
  { intros k H1 H2. by rewrite Hf2, Hf1. }
  destruct la as [|p la _] using rev_ind.
  - cbn in E2. injection E2 as <-. cbn [ns fmap list_fmap last_or last].
    unfold last_or; cbn [last]. rewrite Hl. cbn [app ns fmap list_fmap hd_or].
    rewrite ensure_decide by done. cbn [obind]. eexists. split; [done|].
    split; [|by split]. apply Hupd; [by rewrite lookup_insert_eq|].
    intros i Hi. by rewrite lookup_insert_ne.
  - rewrite ns_app in *. cbn [ns fmap list_fmap] in *. rewrite last_or_snoc in *.
    pose proof (next_is_ok m1 (la ++ [p]) (b :: lb)) as Hni.
    rewrite !ns_app in Hni. cbn [ns fmap list_fmap hd_or] in Hni. rewrite last_or_snoc in Hni.
    assert (Hp1 : m1 !! p = hmem h !! p).
    { apply Hf1. intros Hx. apply (Hab p); [rewrite elem_of_app; right; by left|by right]. }
    assert (Hni' : next_is (Some p) (Some b) m1 = Ok tt).
    { cbn [next_is]. rewrite Hp1. rewrite <- app_assoc in Hs. apply seg_lookup in Hs.
      rewrite Hs. cbn [deref obind n_next hd_or app]. by rewrite ensure_decide. }
    rewrite Hni'. cbn [obind]. rewrite E2. cbn [obind]. eexists. split; [done|].
    split; [|by split]. apply Hupd; [|done].
    rewrite (rep_pool _ _ Hr sh Hsh), Hl. rewrite !ns_app. by destruct la.
Qed.

Lemma link_block_spec h fl sh l1 p l2 :
  rep h fl -> geo fl -> bot <= sh < top -> fl sh = l1 ++ l2 -> p ∉ fl sh ->
  (forall s, bot <= s < top -> p ∉ fl s) ->
  exists h', link_block h (sh - bot) (hd_or (ns (fl sh)) None) (last_or None (ns l1))
      (hd_or (ns l2) None) p = Ok h' /\
    rep h' (upd fl sh (l1 ++ p :: l2)) /\ cap_size h' = cap_size h /\
    (forall k, k <> p -> k ∉ fl sh -> hmem h' !! k = hmem h !! k).
Proof.
  intros Hr Hg Hsh Hl Hp Hp'. pose proof (rep_seg _ _ Hr sh Hsh) as Hs.
  pose proof (sorted_nodup _ (geo_sorted _ Hg sh Hsh)) as Hn. rewrite Hl in Hs, Hn, Hp.
  rewrite ns_app in Hs.
  destruct (seg_link (hmem h) (ns l1) p tt (ns l2)) as (m1 & m2 & E1 & E2 & Hs2 & Hf1 & Hf2);
    [by rewrite fmap_app, !ns_keys|by rewrite fmap_app, !ns_keys|done|].
  rewrite !ns_keys in *.
  unfold link_block. rewrite E1. cbn [obind].
  assert (Hmem : forall k, k <> p -> k ∉ l1 -> k ∉ l2 -> m2 !! k = hmem h !! k).
  { intros k H0 H1 H2. by rewrite Hf2, Hf1. }
  assert (Hupd : forall pool' c, pool' !! (sh - bot) = Some (hd_or (ns (l1 ++ p :: l2)) None) ->
    (forall i, i <> sh - bot -> pool' !! i = pool h !! i) ->
    rep (Heap m2 pool' c) (upd fl sh (l1 ++ p :: l2))).
  { intros pool' c H1 H2. apply (rep_upd h); [done|done|done|done|by rewrite ns_app|].
    intros s k Hs' Hne Hk. apply Hmem.
    - intros ->. by apply (Hp' s).
    - intros Hx. apply Hne. eapply fl_disjoint; [done|done|exact Hsh|done|].
      rewrite Hl, elem_of_app. tauto.
    - intros Hx. apply Hne. eapply fl_disjoint; [done|done|exact Hsh|done|].
      rewrite Hl, elem_of_app. tauto. }
  assert (Hmem' : forall k, k <> p -> k ∉ fl sh -> m2 !! k = hmem h !! k).
  { intros k H0 H1. rewrite Hl, elem_of_app in H1. apply Hmem; tauto. }
  destruct l1 as [|q l1 _] using rev_ind.
  - cbn in E2. injection E2 as <-. unfold last_or. cbn [ns fmap list_fmap last].
    rewrite Hl. cbn [app]. rewrite ensure_decide by done. cbn [obind].
    eexists. split; [done|]. split; [|by split; [|intros; apply Hmem'; [|rewrite Hl]]].
    apply Hupd; [by rewrite lookup_insert_eq|]. intros i Hi. by rewrite lookup_insert_ne.
  - rewrite ns_app in *. cbn [ns fmap list_fmap] in *. rewrite last_or_snoc in *.
    rewrite E2. cbn [obind]. eexists. split; [done|]. split; [|by split].
    apply Hupd; [|done]. rewrite (rep_pool _ _ Hr sh Hsh), Hl. rewrite !ns_app. by destruct l1.
Qed.

(** A block in the lists that touches [p .. p+2^sh-1] would be covered. *)
Lemma apart_not_in fl p sh s : apart fl p sh -> 0 <= sh -> bot <= s < top -> p ∉ fl s.
Proof.
  intros Ha Hsh Hs Hin. pose proof (pow2_pos sh Hsh). pose proof (pow2_pos s ltac:(lia)).
  apply (Ha p); [lia|]. exists s, p. split; [done|]. split; [done|]. lia.
Qed.

Lemma above_apart fl p sh a : apart fl p sh -> bot <= sh < top -> a ∈ fl sh -> p <= a ->
  p + 2 ^ sh <= a.
Proof.
  destruct orders as [Ho1 Ho2]. intros Ha Hsh Hin Hle.
  rewrite apart_iff in Ha by lia. pose proof (pow2_pos sh ltac:(lia)).
  destruct (Ha sh a Hsh Hin); lia.
Qed.

Lemma below_apart fl p sh a : apart fl p sh -> bot <= sh < top -> a ∈ fl sh -> a < p ->
  a + 2 ^ sh <= p.
Proof.
  destruct orders as [Ho1 Ho2]. intros Ha Hsh Hin Hle.
  rewrite apart_iff in Ha by lia. pose proof (pow2_pos sh ltac:(lia)).
  destruct (Ha sh a Hsh Hin); lia.
Qed.

(** The buddy found in a sorted list is the neighbour on the right side. *)
Lemma no_buddy_above fl p sh l1 l2 :
  geo fl -> apart fl p sh -> bot <= sh < top -> fl sh = l1 ++ l2 -> 0 < p -> p mod 2 ^ sh = 0 ->
  (forall a, a ∈ l1 -> a < p) -> (forall a, a ∈ l2 -> p <= a) ->
  is_buddy (hd_or (ns l2) None) p sh = false ->
  p mod 2 ^ (sh + 1) = 0 -> p + 2 ^ sh ∉ fl sh.
Proof.
  destruct orders as [Ho1 Ho2]. intros Hg Ha Hsh Hl Hp Hm H1 H2 Hb Hm' Hin.
  pose proof (pow2_pos sh ltac:(lia)) as Hpos. pose proof Hin as Hin'.
  rewrite Hl in Hin. apply elem_of_app in Hin as [Hin|Hin]; [specialize (H1 _ Hin); lia|].
  destruct l2 as [|c l2]; [by apply elem_of_nil in Hin|]. cbn [ns fmap list_fmap hd_or is_buddy] in Hb.
  assert (Hc : c ∈ fl sh) by (rewrite Hl, elem_of_app, elem_of_cons; tauto).
  pose proof (above_apart _ _ _ _ Ha Hsh Hc (H2 c ltac:(by left))) as Hge.
  assert (c = p + 2 ^ sh) as ->.
  { pose proof (geo_sorted _ Hg sh Hsh) as Hs. rewrite Hl in Hs.
    apply ssorted_app in Hs as (_ & Hs & _). inversion Hs as [|? ? _ Hf]; subst.
    apply elem_of_cons in Hin as [<-|Hin]; [done|]. rewrite Forall_forall in Hf.
    specialize (Hf _ Hin). lia. }
  apply Z.eqb_neq in Hb. apply Hb. unfold block_diff. rewrite Z.lxor_comm.
  rewrite block_size_eq by lia. apply buddy_iff; [lia|lia|done| |done].
  by apply (geo_block _ Hg sh).
Qed.

Lemma no_buddy_below fl p sh l1 l2 :
  geo fl -> apart fl p sh -> bot <= sh < top -> fl sh = l1 ++ l2 -> 0 < p -> p mod 2 ^ sh = 0 ->
  (forall a, a ∈ l1 -> a < p) -> (forall a, a ∈ l2 -> p <= a) ->
  is_buddy (last_or None (ns l1)) p sh = false ->
  (p - 2 ^ sh) mod 2 ^ (sh + 1) = 0 -> p - 2 ^ sh ∉ fl sh.
Proof.
  destruct orders as [Ho1 Ho2]. intros Hg Ha Hsh Hl Hp Hm H1 H2 Hb Hm' Hin.
  pose proof (pow2_pos sh ltac:(lia)) as Hpos. pose proof Hin as Hin'.
  rewrite Hl in Hin. apply elem_of_app in Hin as [Hin|Hin]; [|specialize (H2 _ Hin); lia].
  destruct l1 as [|c l1 _] using rev_ind; [by apply elem_of_nil in Hin|].
  rewrite ns_app in Hb. cbn [ns fmap list_fmap] in Hb. rewrite last_or_snoc in Hb.
  cbn [is_buddy] in Hb.
  assert (Hc : c ∈ fl sh).
  { rewrite Hl, elem_of_app. left. apply elem_of_app. right. by left. }
  pose proof (below_apart _ _ _ _ Ha Hsh Hc
    (H1 c ltac:(apply elem_of_app; right; by left))) as Hge.
  assert (c = p - 2 ^ sh) as ->.
  { pose proof (geo_sorted _ Hg sh Hsh) as Hs. rewrite Hl in Hs.
    apply ssorted_app in Hs as (Hs & _ & _). apply ssorted_app in Hs as (_ & _ & Hs).
    apply elem_of_app in Hin as [Hin|Hin].
    - specialize (Hs _ c Hin ltac:(by left)). lia.
    - by apply list_elem_of_singleton in Hin. }
  apply Z.eqb_neq in Hb. apply Hb.
  rewrite block_size_eq by lia. apply buddy_iff; [lia| | |done|].
  - pose proof (geo_block _ Hg sh _ Hsh Hc). lia.
  - by apply (geo_block _ Hg sh _ Hsh Hc).
  - split; [lia|done].
Qed.

Lemma mod_add_same a k : 0 <= k -> a mod 2 ^ k = 0 -> (a + 2 ^ k) mod 2 ^ k = 0.
Proof.
  intros Hk Ha. pose proof (pow2_pos k Hk). rewrite <- (Z.mul_1_l (2 ^ k)) at 1.
  by rewrite Z.mod_add by lia.
Qed.

(** The buddy [put] merges with. *)
Lemma find_buddy fl p sh l1 l2 :
  geo fl -> apart fl p sh -> bot <= sh < top -> fl sh = l1 ++ l2 -> 0 < p -> p mod 2 ^ sh = 0 ->
  (forall a, a ∈ l1 -> a < p) -> (forall a, a ∈ l2 -> p <= a) ->
  let buddy_block :=
    if sh + 1 <? top then
      if is_buddy (last_or None (ns l1)) p sh then last_or None (ns l1)
      else if is_buddy (hd_or (ns l2) None) p sh then hd_or (ns l2) None else None
    else None in
  match buddy_block with
  | Some b => sh + 1 < top /\ (exists la lb, fl sh = la ++ b :: lb) /\
      Z.min p b mod 2 ^ (sh + 1) = 0 /\ (p = b + 2 ^ sh \/ b = p + 2 ^ sh)
  | None =>
      (sh + 1 < top -> p mod 2 ^ (sh + 1) = 0 -> p + 2 ^ sh ∉ fl sh) /\
      (sh + 1 < top -> (p - 2 ^ sh) mod 2 ^ (sh + 1) = 0 -> p - 2 ^ sh ∉ fl sh)
  end.
Proof.
  destruct orders as [Ho1 Ho2]. intros Hg Ha Hsh Hl Hp Hm H1 H2. cbv zeta.
  pose proof (pow2_pos sh ltac:(lia)) as Hpos.
  destruct (Z.ltb_spec (sh + 1) top); [|split; lia].
  destruct (is_buddy (last_or None (ns l1)) p sh) eqn:E1.
  - destruct l1 as [|b l1 _] using rev_ind; [done|].
    rewrite ns_app in *. cbn [ns fmap list_fmap] in *. rewrite last_or_snoc in *.
    cbn [is_buddy] in E1. apply Z.eqb_eq in E1. rewrite block_size_eq in E1 by lia.
    assert (Hb : b ∈ fl sh) by (rewrite Hl, !elem_of_app; left; right; by left).
    pose proof (geo_block _ Hg sh _ Hsh Hb) as (Hb0 & Hbm & _).
    pose proof (H1 b ltac:(apply elem_of_app; right; by left)) as Hlt.
    apply buddy_iff in E1 as [-> Hm']; [|lia|lia|done|done].
    split; [done|]. split; [exists l1, l2; by rewrite Hl, <- app_assoc|].
    split; [by rewrite Z.min_r by lia|by left].
  - destruct (is_buddy (hd_or (ns l2) None) p sh) eqn:E2.
    + destruct l2 as [|b l2]; [done|]. cbn [ns fmap list_fmap hd_or is_buddy] in *.
      apply Z.eqb_eq in E2. rewrite block_size_eq in E2 by lia.
      assert (Hb : b ∈ fl sh) by (rewrite Hl, elem_of_app, elem_of_cons; tauto).
      pose proof (geo_block _ Hg sh _ Hsh Hb) as (Hb0 & Hbm & _).
      pose proof (above_apart _ _ _ _ Ha Hsh Hb (H2 b ltac:(by left))) as Hge.
      unfold block_diff in E2. rewrite Z.lxor_comm in E2.
      apply buddy_iff in E2 as [-> Hm']; [|lia|lia|done|done].
      split; [done|]. split; [by exists l1, l2|]. split; [by rewrite Z.min_l by lia|by right].
    + split; intros _ Hmm; [by eapply no_buddy_above|by eapply no_buddy_below].
Qed.

(** The block of order [s] at [b] lies in a free block that is at least as large. *)
Definition kept (fl : freelists) (s b : Z) : Prop :=
  exists s' b', s <= s' < top /\ b' ∈ fl s' /\ b' <= b /\ b + 2 ^ s <= b' + 2 ^ s'.

Lemma kept_in fl s b : s < top -> b ∈ fl s -> kept fl s b.
Proof. intros Hs Hb. exists s, b. split; [lia|]. split; [done|]. lia. Qed.

Lemma put_spec fuel h fl p sh :
  wf h fl -> bot <= sh < top -> (Z.to_nat (top - sh) <= fuel)%nat ->
  0 < p -> p mod 2 ^ sh = 0 -> p + 2 ^ sh <= 2 ^ 64 -> apart fl p sh ->
  exists h' fl', put fuel h p sh = Ok (true, h') /\ wf h' fl' /\ cap_size h' = cap_size h /\
    (forall x, covers fl' x <-> covers fl x \/ p <= x < p + 2 ^ sh) /\
    (forall k, ~ covers fl' k -> hmem h' !! k = hmem h !! k) /\
    (forall s b, bot <= s < top -> b ∈ fl s \/ (s = sh /\ b = p) -> kept fl' s b).
Proof.
  destruct orders as [Ho1 Ho2]. revert h fl p sh.
  induction fuel as [|fuel IH]; intros h fl p sh [Hr Hg] Hsh Hf Hp Hm Hb Ha; [lia|].
  cbn [put]. rewrite land_block_mask, Hm by lia. cbn [Z.eqb negb].
  pose proof (pow2_pos sh ltac:(lia)) as Hpos.
  unfold block_index. rewrite (rep_pool _ _ Hr sh Hsh). cbn [deref obind].
  destruct (sorted_split (fl sh) p (geo_sorted _ Hg sh Hsh)) as (l1 & l2 & Hl & H1 & H2).
  pose proof (rep_seg _ _ Hr sh Hsh) as Hs. rewrite Hl in Hs.
  pose proof (chain_length _ _ _ _ (sorted_nodup _ (geo_sorted _ Hg sh Hsh)) (rep_seg _ _ Hr sh Hsh))
    as Hlen.
  assert (Hfind : find_place (S (size (hmem h))) (hmem h) p None (hd_or (ns (fl sh)) None) =
    Ok (last_or None (ns l1), hd_or (ns l2) None)).
  { rewrite Hl in Hlen |- *. apply find_place_spec; [done|done|done|].
    rewrite length_app in Hlen. lia. }
  rewrite Hfind. cbn [obind]. rewrite ns_app in Hs. rewrite next_is_ok, (prev_is_ok _ _ _ None) by done.
  cbn [obind].
  pose proof (find_buddy fl p sh l1 l2 Hg Ha Hsh Hl Hp Hm H1 H2) as Hbuddy. cbv zeta in Hbuddy.
  destruct (if sh + 1 <? top then _ else None) as [b|].
  - destruct Hbuddy as (Hsh1 & (la & lb & Hlb) & Hmin & Hcase).
    destruct (unlink_buddy_spec h fl sh la b lb Hr Hg Hsh Hlb) as (h1 & E1 & Hr1 & Hc1 & Hm1).
    rewrite E1. cbn [obind].
    assert (Hbin : b ∈ fl sh) by (rewrite Hlb, elem_of_app, elem_of_cons; tauto).
    pose proof (geo_block _ Hg sh b Hsh Hbin) as (Hb0 & Hbm & Hbb).
    pose proof (pow2_split sh ltac:(lia)) as H2p.
    destruct (IH h1 (upd fl sh (la ++ lb)) (Z.min p b) (sh + 1)) as (h' & fl' & E & Hwf & Hcap & Hcov & Hmem & Hkept).
    + constructor; [done|]. by apply (geo_del fl sh la b lb).
    + lia.
    + lia.
    + lia.
    + done.
    + lia.
    + intros x Hx Hcx. pose proof (apart_del fl sh la b lb Hg Hsh Hlb) as Hab.
      destruct (decide (b <= x < b + 2 ^ sh)); [by apply (Hab x)|].
      apply (Ha x); [lia|]. apply (covers_del fl sh la b lb x Hg Hsh Hlb). by left.
    + exists h', fl'. split; [done|]. split; [done|]. split; [congruence|]. split.
      * intros x. rewrite Hcov, (covers_del fl sh la b lb x Hg Hsh Hlb). split.
        -- intros [?|?]; [by left; left|]. destruct (decide (b <= x < b + 2 ^ sh));
             [by left; right|right; lia].
        -- intros [[?|?]|?]; [by left|right; lia|right; lia].
      * split.
        { intros k Hk. rewrite Hmem by done. apply Hm1.
          -- intros Hin. apply Hk. apply Hcov. left. exists sh, k. rewrite upd_eq, elem_of_app.
             split; [done|]. split; [by left|lia].
          -- intros Hin. apply Hk. apply Hcov. left. exists sh, k. rewrite upd_eq, elem_of_app.
             split; [done|]. split; [by right|lia]. }
        assert (Hmerged : kept fl' (sh + 1) (Z.min p b)) by (apply Hkept; [lia|by right]).
        intros s a Hs0 Hsa. destruct (decide (s = sh /\ (a = p \/ a = b))) as [[-> Hab]|Hno].
        { destruct Hmerged as (s' & b' & ? & ? & ? & ?). exists s', b'.
          split; [lia|]. split; [done|]. lia. }
        apply Hkept; [done|]. left. destruct Hsa as [Hsa|[-> ->]]; [|by destruct Hno; auto].
        unfold upd. case_decide; [subst|done]. rewrite Hlb in Hsa.
        apply elem_of_app in Hsa as [?|Hsa]; [apply elem_of_app; by left|].
        apply elem_of_cons in Hsa as [->|?]; [by destruct Hno; auto|apply elem_of_app; by right].
  - destruct Hbuddy as [Hc1 Hc2].
    destruct (link_block_spec h fl sh l1 p l2 Hr Hg Hsh Hl) as (h1 & E1 & Hr1 & Hcap & Hm1).
    { apply (apart_not_in fl p sh sh); [done|lia|done]. }
    { intros s Hs'. apply (apart_not_in fl p sh s); [done|lia|done]. }
    rewrite E1. cbn [obind]. eexists _, _. split; [done|].
    pose proof (fun x => covers_ins fl sh l1 p l2 x Hsh Hl) as Hcov.
    split; [|split; [done|split; [done|split]]].
    + constructor; [done|]. by apply geo_ins.
    + intros k Hk. rewrite Hcov in Hk. apply Hm1.
      * intros ->. apply Hk. right. lia.
      * intros Hin. apply Hk. left. exists sh, k. split; [done|]. split; [done|lia].
    + intros s a Hs0 Hsa. apply kept_in; [lia|]. unfold upd. case_decide as Hd.
      * subst s. rewrite elem_of_app, elem_of_cons. destruct Hsa as [Hsa|[_ ->]]; [|tauto].
        rewrite Hl, elem_of_app in Hsa. tauto.
      * destruct Hsa as [?|[? _]]; [done|by subst].
Qed.

Lemma put_block_spec h fl p sh :
  wf h fl -> bot <= sh < top -> 0 < p -> p mod 2 ^ sh = 0 -> p + 2 ^ sh <= 2 ^ 64 ->
  apart fl p sh ->
  exists h' fl', put_block h p sh = Ok (true, h') /\ wf h' fl' /\ cap_size h' = cap_size h /\
    (forall x, covers fl' x <-> covers fl x \/ p <= x < p + 2 ^ sh) /\
    (forall k, ~ covers fl' k -> hmem h' !! k = hmem h !! k) /\
    (forall s b, bot <= s < top -> b ∈ fl s \/ (s = sh /\ b = p) -> kept fl' s b).
Proof. intros. by apply put_spec. Qed.

(** What [get(sh)] answers: nothing when no block of order [sh] or more is free (and then nothing
    changes), otherwise an aligned block that was free and no longer is. *)
Definition got (h : heap) (fl : freelists) (sh : Z) (r : option Z * heap) : Prop :=
  match r with
  | (None, h') => h' = h /\ forall s, sh <= s < top -> fl s = []
  | (Some p, h') => exists fl', wf h' fl' /\ cap_size h' = cap_size h /\
      0 < p /\ p mod 2 ^ sh = 0 /\ p + 2 ^ sh <= 2 ^ 64 /\ apart fl' p sh /\
      (forall x, covers fl x <-> covers fl' x \/ p <= x < p + 2 ^ sh) /\
      (forall k, ~ covers fl k -> hmem h' !! k = hmem h !! k)
  end.

Lemma get_head h fl sh a l : wf h fl -> bot <= sh < top -> fl sh = a :: l ->
  exists m', (match hd_or (ns l) None with
     | Some nx => let! _ := prev_is (Some nx) (Some a) (hmem h); fix_prev (Some nx) None (hmem h)
     | None => Ok (hmem h) end) = Ok m' /\
   hmem h !! a = Some (Node None (hd_or (ns l) None) tt) /\
   m' !! a = Some (Node None (hd_or (ns l) None) tt) /\
   rep (Heap m' (<[sh - bot := hd_or (ns l) None]> (pool h)) (cap_size h)) (upd fl sh l) /\
   (forall k, k ∉ fl sh -> m' !! k = hmem h !! k).
Proof.
  intros [Hr Hg] Hsh Hl. pose proof (rep_seg _ _ Hr sh Hsh) as Hs.
  pose proof (sorted_nodup _ (geo_sorted _ Hg sh Hsh)) as Hn. rewrite Hl in Hs, Hn.
  apply NoDup_cons in Hn as [Hn1 Hn2]. cbn [ns fmap list_fmap] in Hs. destruct Hs as [Ha Hs].
  destruct (seg_fix_prev (hmem h) (Some a) (ns l) None None None) as (m' & E & Hs' & Hf);
    [by rewrite ns_keys|done|]. exists m'.
  assert (Hf' : forall k, k ∉ l -> m' !! k = hmem h !! k).
  { intros k Hk. apply Hf. destruct l as [|b l]; [by right|left]. cbn. intros [= ->].
    apply Hk. by left. }
  split.
  { destruct l as [|b l]; [done|]. cbn [ns fmap list_fmap hd_or] in *. cbn [seg] in Hs.
    destruct Hs as [Hb _]. cbn [prev_is]. rewrite Hb. cbn [deref obind n_prev].
    rewrite ensure_decide by done. done. }
  split; [done|]. split; [by rewrite Hf'|]. split.
  - apply (rep_upd h); [done|done|by rewrite lookup_insert_eq| |done|].
    + intros i Hi. by rewrite lookup_insert_ne.
    + intros s k Hs1 Hne Hk. apply Hf'. intros Hin. apply Hne.
      eapply (fl_disjoint fl _ _ k); [done|done|exact Hsh|done|]. rewrite Hl. by right.
  - intros k Hk. apply Hf'. intros Hin. apply Hk. rewrite Hl. by right.
Qed.

Lemma get_spec fuel h fl sh :
  wf h fl -> bot <= sh <= top -> (Z.to_nat (top - sh) < fuel)%nat ->
  exists r, get fuel h sh = Ok r /\ got h fl sh r.
Proof.
  destruct orders as [Ho1 Ho2]. revert h sh.
  induction fuel as [|fuel IH]; intros h sh Hwf Hsh Hf; [lia|]. cbn [get].
  destruct (Z.leb_spec top sh).
  { eexists. split; [done|]. cbn. split; [done|]. lia. }
  pose proof Hwf as [Hr Hg]. pose proof (pow2_pos sh ltac:(lia)) as Hpos.
  unfold block_index. rewrite (rep_pool _ _ Hr sh) by lia. cbn [deref obind].
  destruct (fl sh) as [|a l] eqn:Hl.
  - cbn [ns fmap list_fmap hd_or].
    destruct (IH h (sh + 1) Hwf) as ([[p|] h1] & E & Hgot); [lia|lia| |].
    + rewrite E. cbn [obind]. destruct Hgot as (fl1 & Hwf1 & Hc1 & Hp & Hm & Hb & Ha & Hcov & Hmem).
      rewrite pow2_split in * by lia.
      assert (Hdiv : p mod 2 ^ sh = 0).
      { apply Z.mod_divide in Hm as [q ->]; [|lia].
        replace (q * (2 * 2 ^ sh)) with (q * 2 * 2 ^ sh) by lia. apply Z.mod_mul. lia. }
      rewrite block_size_eq, wrap_small by lia.
      destruct (put_block_spec h1 fl1 (p + 2 ^ sh) sh) as (h2 & fl2 & E2 & Hwf2 & Hc2 & Hcov2 & Hmem2 & _).
      * done.
      * lia.
      * lia.
      * apply mod_add_same; [lia|done].
      * lia.
      * intros x Hx. apply Ha. rewrite pow2_split by lia. lia.
      * rewrite E2. cbn [obind]. eexists. split; [done|]. exists fl2.
        split; [done|]. split; [congruence|]. split; [lia|]. split; [done|]. split; [lia|].
        split; [|split].
        -- intros x Hx Hcx. apply Hcov2 in Hcx as [Hcx|Hcx]; [|lia].
           apply (Ha x); [|done]. rewrite pow2_split by lia. lia.
        -- intros x. rewrite Hcov, Hcov2. split.
           ++ intros [?|?]; [by left; left|]. destruct (decide (x < p + 2 ^ sh));
                [right; lia|left; right; lia].
           ++ intros [[?|?]|?]; [by left|right; lia|right; lia].
        -- intros k Hk. rewrite Hcov in Hk. rewrite Hmem2, Hmem.
           ++ done.
           ++ by rewrite Hcov.
           ++ rewrite Hcov2. intros [?|?]; apply Hk; [by left|right; lia].
    + rewrite E. cbn [obind]. destruct Hgot as [-> Hnone]. eexists. split; [done|]. cbn.
      split; [done|]. intros s Hs. destruct (decide (s = sh)) as [->|]; [done|]. apply Hnone. lia.
  - cbn [ns fmap list_fmap hd_or]. fold (ns l).
    destruct (get_head h fl sh a l Hwf) as (m' & Em & Ha & Ha' & Hrep & Hmem); [lia|done|].
    rewrite Ha. cbn [deref obind n_prev n_next].
    assert (Hin : a ∈ fl sh) by (rewrite Hl; by left).
    destruct (geo_block _ Hg sh a ltac:(lia) Hin) as (Hb1 & Hb2 & Hb3).
    rewrite ensure_decide by done. cbn [obind]. rewrite land_block_mask, Hb2 by lia.
    cbn [Z.eqb ensure obind].
    rewrite Em. cbn [obind]. rewrite Ha'. cbn [deref obind n_next].
    eexists. split; [done|]. exists (upd fl sh l).
    assert (Hl' : fl sh = [] ++ a :: l) by done.
    pose proof (fun x => covers_del fl sh [] a l x Hg ltac:(lia) Hl') as Hcov. cbn [app] in Hcov.
    split; [constructor; [done|]|].
    { by apply (geo_del fl sh [] a l); [done|lia|]. }
    split; [done|]. split; [done|]. split; [done|]. split; [done|].
    split; [by apply (apart_del fl sh [] a l); [done|lia|]|]. split; [done|].
    intros k Hk. cbn [hmem]. apply Hmem. intros Hin'. apply Hk. exists sh, k.
    split; [lia|]. split; [done|lia].
Qed.

Lemma get_block_spec h fl sh : wf h fl -> bot <= sh < top ->
  exists r, get_block h sh = Ok r /\ got h fl sh r.
Proof. intros. apply get_spec; [done|lia|lia]. Qed.

Lemma category_range_spec ptr sz : 0 < ptr -> 0 < sz ->
  exists sh, category_range ptr sz = Ok sh /\
    (sh = top /\ (ptr mod 2 ^ bot <> 0 \/ sz < 2 ^ bot) \/
     bot <= sh < top /\ ptr mod 2 ^ sh = 0 /\ 2 ^ sh <= sz /\
     (sh + 1 < top -> ptr mod 2 ^ (sh + 1) <> 0 \/ sz < 2 ^ (sh + 1))).
Proof.
  intros Hp Hs. unfold category_range. rewrite ensure_true.
  - cbn [obind]. apply category_range_loop_spec; [lia|lia|done|by left].
  - unfold truth. apply andb_true_iff. split; apply negb_true_iff, Z.eqb_neq; lia.
Qed.

Lemma rep_cap h fl c : rep h fl -> rep (Heap (hmem h) (pool h) c) fl.
Proof. intros [H1 H2]. by constructor. Qed.

Lemma expand_loop_spec fuel h fl cur len res :
  wf h fl -> 0 < cur -> cur mod 2 ^ bot = 0 -> 0 <= len -> cur + len <= 2 ^ 64 ->
  (Z.to_nat (len / 2 ^ bot) < fuel)%nat -> (forall x, cur <= x < cur + len -> ~ covers fl x) ->
  let taken := len / 2 ^ bot * 2 ^ bot in
  0 <= cap_size h -> cap_size h + taken < 2 ^ 64 ->
  exists h' fl', expand_loop fuel h cur len res = Ok (res || (0 <? taken), h') /\ wf h' fl' /\
    cap_size h' = cap_size h + taken /\
    (forall x, covers fl' x <-> covers fl x \/ cur <= x < cur + taken) /\
    (forall k, ~ covers fl' k -> hmem h' !! k = hmem h !! k) /\
    (forall s b, bot <= s < top -> b ∈ fl s \/ (b = cur /\ cur mod 2 ^ s = 0 /\ 2 ^ s <= len) ->
       kept fl' s b).
Proof.
  destruct orders as [Ho1 Ho2]. pose proof (pow2_pos bot ltac:(lia)) as Hpb. revert h fl cur len res.
  induction fuel as [|fuel IH]; intros h fl cur len res Hwf Hc Hm Hl Hb Hf Hfree taken Hcap Hcap2;
    [lia|].
  cbn [expand_loop]. rewrite block_size_eq by lia. destruct (Z.leb_spec (2 ^ bot) len) as [Hge|Hlt].
  2: { assert (Ht : taken = 0) by (unfold taken; by rewrite Z.div_small by lia).
       rewrite Ht. exists h, fl. rewrite orb_false_r. split; [done|]. split; [done|].
       split; [lia|]. split; [|split; [done|]].
       - intros x. split; [by left|intros [?|?]; [done|lia]].
       - intros s b Hs [Hb'|(-> & _ & Hle)]; [by apply kept_in; [lia|]|].
         assert (2 ^ bot <= 2 ^ s) by (apply Z.pow_le_mono_r; lia). lia. }
  destruct (category_range_spec cur len) as (sh & E & Hsh); [done|lia|].
  rewrite E. cbn [obind].
  destruct Hsh as [[_ [?|?]]|(Hsh & Hmod & Hle & Hbig)]; [done|lia|].
  replace (top <=? sh) with false by (symmetry; apply Z.leb_gt; lia).
  pose proof (pow2_pos sh ltac:(lia)) as Hpos.
  rewrite block_size_eq by lia. rewrite ensure_true by (by apply Z.leb_le). cbn [obind].
  rewrite land_block_mask, Hmod by lia. cbn [Z.eqb ensure obind].
  destruct (put_block_spec h fl cur sh Hwf Hsh Hc Hmod) as (h1 & fl1 & E1 & Hwf1 & Hc1 & Hcov1 & Hmem1 & Hk1);
    [lia|intros x Hx; apply Hfree; lia|].
  (* every aligned block at [cur] that fits lies in the one inserted *)
  assert (Hfirst : forall s, bot <= s < top -> cur mod 2 ^ s = 0 -> 2 ^ s <= len -> s <= sh).
  { intros s Hs Hms Hls. destruct (decide (s <= sh)); [done|exfalso].
    assert (Hsp : 2 ^ s = 2 ^ (s - (sh + 1)) * 2 ^ (sh + 1))
      by (rewrite <- Z.pow_add_r by lia; f_equal; lia).
    pose proof (pow2_pos (s - (sh + 1)) ltac:(lia)).
    pose proof (pow2_pos (sh + 1) ltac:(lia)).
    destruct (Hbig ltac:(lia)) as [Hb'|Hb'].
    - apply Hb'. apply Z.mod_divide in Hms as [q ->]; [|lia]. rewrite Hsp, Z.mul_assoc.
      apply Z.mod_mul. lia.
    - nia. }
  rewrite E1. cbn [obind]. rewrite Hc1.
  assert (Hq : exists q, 2 ^ sh = q * 2 ^ bot /\ 0 < q).
  { exists (2 ^ (sh - bot)). split; [|apply pow2_pos; lia].
    rewrite <- Z.pow_add_r by lia. f_equal. lia. }
  destruct Hq as (q & Hq & Hq0).
  assert (Htk : taken = 2 ^ sh + (len - 2 ^ sh) / 2 ^ bot * 2 ^ bot).
  { unfold taken. rewrite Hq. replace (len - q * 2 ^ bot) with (len + (- q) * 2 ^ bot) by lia.
    rewrite Z.div_add by lia. lia. }
  assert (Hrest : 0 <= (len - 2 ^ sh) / 2 ^ bot * 2 ^ bot).
  { apply Z.mul_nonneg_nonneg; [|lia]. apply Z.div_pos; lia. }
  assert (Hdm : (len - 2 ^ sh) / 2 ^ bot * 2 ^ bot <= len - 2 ^ sh).
  { pose proof (Z.mul_div_le (len - 2 ^ sh) (2 ^ bot) Hpb). lia. }
  rewrite (wrap_small 64 (cap_size h + 2 ^ sh)) by lia.
  set (h2 := Heap (hmem h1) (pool h1) (cap_size h + 2 ^ sh)).
  destruct (decide (len = 2 ^ sh)) as [->|Hne].
  { (* the range is used up *)
    rewrite Z.sub_diag in *. destruct fuel as [|fuel]; cbn [expand_loop].
    { exfalso. assert (1 <= 2 ^ sh / 2 ^ bot) by (apply Z.div_le_lower_bound; lia). lia. }
    rewrite block_size_eq by lia.
    replace (2 ^ bot <=? 0) with false by (symmetry; apply Z.leb_gt; lia).
    assert (Ht : taken = 2 ^ sh) by (rewrite Htk, Z.div_0_l by lia; lia).
    exists h2, fl1. rewrite Ht. replace (0 <? 2 ^ sh) with true by (symmetry; by apply Z.ltb_lt).
    rewrite orb_true_r. split; [done|].
    split; [destruct Hwf1; constructor; [by apply rep_cap|done]|]. split; [done|].
    split; [done|]. split; [done|]. intros s b Hs [?|(-> & Hms & Hls)]; [apply Hk1; auto|].
    pose proof (Hfirst s Hs Hms Hls).
    assert (2 ^ s <= 2 ^ sh) by (apply Z.pow_le_mono_r; lia). destruct (Hk1 sh cur Hsh ltac:(by right))
      as (s' & b' & ? & ? & ? & ?). exists s', b'. split; [lia|]. split; [done|].
    split; [done|]. lia. }
  rewrite (wrap_small 64 (cur + 2 ^ sh)) by lia.
  destruct (IH h2 fl1 (cur + 2 ^ sh) (len - 2 ^ sh) true) as (h3 & fl3 & E3 & Hwf3 & Hc3 & Hcov3 & Hmem3 & Hk3).
  - destruct Hwf1. constructor; [by apply rep_cap|done].
  - lia.
  - rewrite Hq. by rewrite Z.mod_add by lia.
  - lia.
  - lia.
  - assert ((len - 2 ^ sh) / 2 ^ bot < len / 2 ^ bot); [|lia].
    assert (len / 2 ^ bot = q + (len - 2 ^ sh) / 2 ^ bot) by (unfold taken in Htk; nia). lia.
  - intros x Hx Hcx. apply Hcov1 in Hcx as [Hcx|Hcx]; [|lia]. apply (Hfree x); [lia|done].
  - unfold h2. cbn [cap_size]. lia.
  - unfold h2. cbn [cap_size]. lia.
  - exists h3, fl3. rewrite E3. rewrite orb_true_l.
    replace (0 <? taken) with true by (symmetry; apply Z.ltb_lt; lia). rewrite orb_true_r.
    split; [done|]. split; [done|]. split; [rewrite Hc3; unfold h2; cbn [cap_size]; lia|].
    split; [|split].
    + intros x. rewrite Hcov3, Hcov1. split.
      * intros [[?|?]|?]; [by left|right; lia|right; lia].
      * intros [?|?]; [by left; left|]. destruct (decide (x < cur + 2 ^ sh));
          [left; right; lia|right; lia].
    + intros k Hk. rewrite Hmem3 by done. unfold h2. cbn [hmem]. apply Hmem1.
      intros Hck. apply Hk. apply Hcov3. by left.
    + intros s b Hs Hsb.
      assert (H1 : kept fl1 s b).
      { destruct Hsb as [?|(-> & Hms & Hls)]; [apply Hk1; auto|].
        pose proof (Hfirst s Hs Hms Hls).
    assert (2 ^ s <= 2 ^ sh) by (apply Z.pow_le_mono_r; lia). destruct (Hk1 sh cur Hsh ltac:(by right))
          as (s' & b' & ? & ? & ? & ?). exists s', b'. split; [lia|]. split; [done|].
        split; [done|]. lia. }
      destruct H1 as (s1 & b1 & H11 & H12 & H13 & H14).
      destruct (Hk3 s1 b1 ltac:(lia) ltac:(by left)) as (s2 & b2 & H21 & H22 & H23 & H24).
      exists s2, b2. split; [lia|]. split; [done|]. lia.
Qed.

Lemma expand_spec h fl ptr len :
  wf h fl -> 0 < ptr -> 0 < len -> ptr + len <= 2 ^ 64 -> ptr + 2 ^ bot <= 2 ^ 64 ->
  (forall x, ptr <= x < ptr + len -> ~ covers fl x) ->
  let start := (ptr + 2 ^ bot - 1) / 2 ^ bot * 2 ^ bot in
  let taken := Z.max 0 (ptr + len - start) / 2 ^ bot * 2 ^ bot in
  0 <= cap_size h -> cap_size h + taken < 2 ^ 64 ->
  exists h' fl', expand h ptr len = Ok (0 <? taken, h') /\ wf h' fl' /\
    cap_size h' = cap_size h + taken /\
    (forall x, covers fl' x <-> covers fl x \/ start <= x < start + taken) /\
    (forall k, ~ covers fl' k -> hmem h' !! k = hmem h !! k) /\
    (forall s b, bot <= s < top ->
       b ∈ fl s \/ (b = ptr /\ ptr mod 2 ^ s = 0 /\ 2 ^ s <= len) -> kept fl' s b).
Proof.
  destruct orders as [Ho1 Ho2]. pose proof (pow2_pos bot ltac:(lia)) as Hpb.
  intros Hwf Hp Hl Hb Hb' Hfree start taken Hc Hc'.
  assert (Hst : ptr <= start < ptr + 2 ^ bot).
  { unfold start. pose proof (Z.div_mod (ptr + 2 ^ bot - 1) (2 ^ bot) ltac:(lia)).
    pose proof (Z.mod_pos_bound (ptr + 2 ^ bot - 1) (2 ^ bot) Hpb). lia. }
  assert (Hsm : start mod 2 ^ bot = 0) by (by apply Z.mod_mul; lia).
  assert (Hsm' : forall s, bot <= s -> ptr mod 2 ^ s = 0 -> start = ptr).
  { intros s Hs Hm. assert (Hmb : ptr mod 2 ^ bot = 0).
    { apply Z.mod_divide in Hm as [q ->]; [|pose proof (pow2_pos s ltac:(lia)); lia].
      replace (2 ^ s) with (2 ^ (s - bot) * 2 ^ bot) by (rewrite <- Z.pow_add_r by lia; f_equal; lia).
      rewrite Z.mul_assoc. apply Z.mod_mul. lia. }
    apply Z.mod_divide in Hmb as [q Hq]; [|lia]. apply Z.mod_divide in Hsm as [r Hr]; [|lia].
    clear - Hst Hq Hr Hpb. clearbody start. assert (r = q) by nia. lia. }
  unfold expand. replace ((ptr =? 0) || (len =? 0)) with false
    by (symmetry; apply orb_false_iff; split; apply Z.eqb_neq; lia).
  rewrite block_size_eq, align_up_pow2 by lia. fold start.
  rewrite wrap_small by lia.
  assert (Hkeep : start - ptr >= len -> forall s b, bot <= s < top ->
    b ∈ fl s \/ (b = ptr /\ ptr mod 2 ^ s = 0 /\ 2 ^ s <= len) -> kept fl s b).
  { intros Hge s b Hs [?|(-> & Hm & Hle)]; [by apply kept_in; [lia|]|].
    rewrite (Hsm' s) in Hge by (lia || done). lia. }
  destruct (Z.leb_spec len (start - ptr)).
  { assert (Ht : taken = 0) by (unfold taken; rewrite Z.max_l by lia; by rewrite Z.div_0_l by lia).
    rewrite Ht. exists h, fl. split; [done|]. split; [done|]. split; [lia|].
    split; [|split; [done|apply Hkeep; lia]]. intros x. split; [by left|intros [?|?]; [done|lia]]. }
  assert (Ht : taken = (len - (start - ptr)) / 2 ^ bot * 2 ^ bot)
    by (unfold taken; do 2 f_equal; lia).
  rewrite Ht in *.
  destruct (expand_loop_spec (Z.to_nat ((len - (start - ptr)) / 2 ^ bot) + 1) h fl start
    (len - (start - ptr)) false) as (h' & fl' & E & Hwf' & Hc1 & Hcov & Hmem & Hk);
    [done|lia|done|lia|lia|lia|intros x Hx; apply Hfree; lia|lia|done|].
  exists h', fl'. rewrite E, orb_false_l. split; [done|]. split; [done|]. split; [done|].
  split; [done|]. split; [done|]. intros s b Hs [?|(-> & Hm & Hle)]; [apply Hk; auto|].
  apply Hk; [done|]. right. assert (start = ptr) as -> by (eapply Hsm'; [|done]; lia).
  split; [done|]. split; [done|]. lia.
Qed.

(** ** Interfaces and clients *)

Lemma max_size_loop_spec h fl fuel i res : rep h fl -> bot <= i <= top ->
  (Z.to_nat (top - i) <= fuel)%nat ->
  exists r, max_size_loop fuel h i res = Ok r /\
    ((forall s, i <= s < top -> fl s = []) /\ r = res \/
     i <= r < top /\ fl r <> [] /\ forall s, r < s < top -> fl s = []).
Proof.
  intros Hr. revert i res. induction fuel as [|fuel IH]; intros i res Hi Hf; cbn [max_size_loop].
  all: destruct (Z.ltb_spec i top); [try lia|].
  2, 1: idtac.
  all: try (exists res; split; [done|]; left; split; [lia|done]).
  unfold block_index. rewrite (rep_pool _ _ Hr i) by lia. cbn [deref obind].
  destruct (IH (i + 1) (match hd_or (ns (fl i)) None with Some _ => i | None => res end))
    as (r & E & H'); [lia|lia|]. exists r. split; [done|].
  destruct H' as [[Hnone ->]|(Hr1 & Hr2 & Hr3)].
  - destruct (fl i) as [|a l] eqn:El; cbn.
    + left. split; [|done]. intros s Hs. destruct (decide (s = i)) as [->|]; [done|].
      apply Hnone. lia.
    + right. split; [lia|]. split; [by rewrite El|]. intros s Hs. apply Hnone. lia.
  - right. split; [lia|]. done.
Qed.

(** What the users of a heap do: allocate, write into memory they hold, release with the size
    they asked for.  [held] maps the address of each block that is handed out to its order. *)
Inductive heap_op :=
  | op_allocate (req : Z)
  | op_write (x : Z) (nd : node Z unit)
  | op_release (ptr sz : Z).

Definition valid_size (sz : Z) : bool := (0 <? sz) && (sz <? 2 ^ 64).

Definition client_step (op : heap_op) (st : gmap Z Z * heap) : outcome (gmap Z Z * heap) :=
  let '(held, h) := st in
  match op with
  | op_allocate req =>
      if valid_size req then
        let! (r, _, h) := allocate (W:=unit) None 1 tt h req;
        match r with
        | Some p =>
            let! sh := category req;
            assert! bool_decide (map_Forall
              (fun q s => p + 2 ^ sh <= q \/ q + 2 ^ s <= p) held);
            assert! req <=? 2 ^ sh;
            Ok (<[p := sh]> held, h)
        | None => Ok (held, h)
        end
      else Ok st
  | op_write x nd =>
      if bool_decide (map_Exists (fun p s => p <= x < p + 2 ^ s) held)
      then Ok (held, Heap (<[x := nd]> (hmem h)) (pool h) (cap_size h)) else Ok st
  | op_release ptr sz =>
      match held !! ptr with
      | Some sh =>
          if valid_size sz then
            let! c := category sz;
            if c =? sh then
              let! (ok, h) := release h ptr sz;
              assert! ok;
              Ok (delete ptr held, h)
            else Ok st
          else Ok st
      | None => Ok st
      end
  end.

Fixpoint client_run (ops : list heap_op) (st : gmap Z Z * heap) : outcome (gmap Z Z * heap) :=
  match ops with
  | [] => Ok st
  | op :: ops => let! st := client_step op st; client_run ops st
  end.

(** The bytes of [region] are either free or held, never both, and held blocks do not overlap. *)
Record client_inv (region : Z -> Prop) (st : gmap Z Z * heap) : Prop := {
  cl_wf : exists fl, wf st.2 fl /\
    (forall p s, st.1 !! p = Some s -> apart fl p s) /\
    (forall x, region x <->
       covers fl x \/ exists p s, st.1 !! p = Some s /\ p <= x < p + 2 ^ s);
  cl_block : forall p s, st.1 !! p = Some s ->
    bot <= s < top /\ 0 < p /\ p mod 2 ^ s = 0 /\ p + 2 ^ s <= 2 ^ 64;
  cl_apart : forall p1 s1 p2 s2, st.1 !! p1 = Some s1 -> st.1 !! p2 = Some s2 ->
    p1 = p2 \/ p1 + 2 ^ s1 <= p2 \/ p2 + 2 ^ s2 <= p1
}.

(** Writing outside the free blocks changes nothing for the heap. *)
Lemma rep_write h fl x nd : wf h fl -> ~ covers fl x ->
  wf (Heap (<[x := nd]> (hmem h)) (pool h) (cap_size h)) fl.
Proof.
  destruct orders as [Ho1 Ho2]. intros [[Hp Hs] Hg] Hx. constructor; [|done].
  constructor; cbn [hmem pool]; [done|]. intros s Hs'. apply seg_insert; [|by apply Hs].
  rewrite ns_keys. intros Hin. apply Hx. exists s, x. split; [done|]. split; [done|].
  pose proof (pow2_pos s ltac:(lia)). lia.
Qed.

Lemma valid_size_iff sz : valid_size sz = true <-> 0 < sz < 2 ^ 64.
Proof. unfold valid_size. rewrite andb_true_iff, !Z.ltb_lt. done. Qed.

Lemma allocate_none h fl req : wf h fl -> 0 < req < 2 ^ 64 ->
  exists sh r, category req = Ok sh /\ bot <= sh <= top /\
    (sh < top -> req <= 2 ^ sh) /\ (sh = top -> 2 ^ (top - 1) < req) /\
    allocate (W:=unit) None 1 tt h req = Ok (r.1, tt, r.2) /\
    (sh = top -> r = (None, h)) /\ (sh < top -> got h fl sh r).
Proof.
  intros Hwf Hreq. destruct (category_spec req Hreq) as (sh & E & Hsh).
  cbn [allocate]. rewrite E. cbn [obind]. case_decide as Hd.
  - destruct Hsh as (Hr & Hle & _). replace (top <=? sh) with false by (symmetry; apply Z.leb_gt; lia).
    destruct (get_block_spec h fl sh Hwf Hr) as (r & Eg & Hgot). exists sh, r. rewrite Eg.
    destruct r as [[p|] h']; cbn [obind fst snd]; (split; [done|]); (split; [lia|]);
      (split; [done|]); (split; [lia|]); (split; [done|]); (split; [lia|done]).
  - subst sh. replace (top <=? top) with true by (symmetry; by apply Z.leb_le).
    exists top, (None, h). split; [done|]. split; [lia|]. split; [lia|]. split; [lia|].
    split; [done|]. split; [done|lia].
Qed.

Lemma heap_step_ok region op st : client_inv region st ->
  exists st', client_step op st = Ok st' /\ client_inv region st'.
Proof.
  destruct orders as [Ho1 Ho2].
  destruct st as [held h]. intros Hcl. pose proof Hcl as [(fl & Hwf & Hap & Hreg) Hblk Hdis].
  cbn [fst snd] in *. destruct op as [req|x nd|ptr sz]; cbn [client_step].
  - destruct (valid_size req) eqn:Ev; [|eauto]. apply valid_size_iff in Ev.
    destruct (allocate_none h fl req Hwf Ev) as (sh & [r h'] & E & Hr & Hle & _ & Ea & Htop & Hgot).
    cbn [fst snd] in *. rewrite Ea. cbn [obind]. destruct r as [p|].
    2: { eexists. split; [done|]. destruct (decide (sh = top)) as [->|].
         - by injection (Htop eq_refl) as ->.
         - destruct Hgot as [-> _]; [lia|done]. }
    assert (Hsh : bot <= sh < top).
    { split; [lia|]. destruct (decide (sh = top)) as [->|]; [|lia].
      by injection (Htop eq_refl). }
    destruct (Hgot ltac:(lia)) as (fl' & Hwf' & Hc & Hp & Hm & Hb & Ha & Hcov & Hmem).
    pose proof (pow2_pos sh ltac:(lia)) as Hpos.
    assert (Hnew : forall q s, held !! q = Some s -> p + 2 ^ sh <= q \/ q + 2 ^ s <= p).
    { intros q s Hq. pose proof (Hap q s Hq) as Haq. destruct (Hblk q s Hq) as (Hs & _).
      pose proof (pow2_pos s ltac:(lia)).
      destruct (decide (p + 2 ^ sh <= q)); [by left|].
      destruct (decide (q + 2 ^ s <= p)); [by right|]. exfalso.
      apply (Haq (Z.max p q)); [lia|]. apply Hcov. right. lia. }
    rewrite E. cbn [obind]. rewrite ensure_decide by (intros q s Hq; by apply Hnew).
    cbn [obind]. rewrite ensure_true by (apply Z.leb_le, Hle; lia). cbn [obind].
    eexists. split; [done|].
    assert (Hfresh : held !! p = None).
    { destruct (held !! p) as [s|] eqn:El; [|done]. destruct (Hblk p s El) as (Hs & _).
      pose proof (pow2_pos s ltac:(lia)). destruct (Hnew p s El); lia. }
    constructor; cbn [fst snd].
    + exists fl'. split; [done|]. split.
      * intros q s. rewrite lookup_insert. case_decide; [by intros [= <-]; subst|].
        intros Hq y Hy Hcy. apply (Hap q s Hq y Hy). apply Hcov. by left.
      * intros y. rewrite Hreg, Hcov. split.
        -- intros [[?|?]|(q & s & Hq & ?)]; [by left| |].
           ++ right. exists p, sh. by rewrite lookup_insert_eq.
           ++ right. exists q, s. rewrite lookup_insert_ne; [done|congruence].
        -- intros [?|(q & s & Hq & ?)]; [by left; left|]. rewrite lookup_insert in Hq.
           case_decide; [injection Hq as <-; subst; left; by right|right; by exists q, s].
    + intros q s. rewrite lookup_insert. case_decide; [intros [= <-]; by subst|apply Hblk].
    + intros q1 s1 q2 s2. rewrite !lookup_insert. repeat case_decide; subst.
      * by left.
      * intros [= <-] Hq. right. by apply Hnew.
      * intros Hq [= <-]. right. destruct (Hnew _ _ Hq); [by right|by left].
      * by apply Hdis.
  - case_bool_decide as Hex; [|eauto]. destruct Hex as (p & s & Hp & Hx).
    eexists. split; [done|]. constructor; cbn [fst snd]; [|done|done].
    exists fl. split; [|done]. apply rep_write; [done|]. by apply (Hap p s Hp).
  - destruct (held !! ptr) as [sh|] eqn:El; [|eauto].
    destruct (valid_size sz) eqn:Ev; [|eauto]. apply valid_size_iff in Ev.
    destruct (category_spec sz Ev) as (c & E & _). rewrite E. cbn [obind].
    destruct (Z.eqb_spec c sh) as [->|]; [|eauto].
    destruct (Hblk ptr sh El) as (Hs & Hp & Hm & Hb).
    destruct (put_block_spec h fl ptr sh Hwf Hs Hp Hm Hb (Hap _ _ El))
      as (h' & fl' & Ep & Hwf' & Hc & Hcov & Hmem & _).
    unfold release. replace (ptr =? 0) with false by (symmetry; apply Z.eqb_neq; lia).
    rewrite E. cbn [obind]. replace (top <=? sh) with false by (symmetry; apply Z.leb_gt; lia).
    rewrite Ep. cbn [obind ensure]. eexists. split; [done|].
    constructor; cbn [fst snd].
    + exists fl'. split; [done|]. split.
      * intros q s. rewrite lookup_delete. case_decide as Hd; [done|]. intros Hq y Hy Hcy.
        apply Hcov in Hcy as [Hcy|Hcy]; [by apply (Hap q s Hq y Hy)|].
        destruct (Hdis _ _ _ _ Hq El) as [?|[?|?]]; [congruence|lia|lia].
      * intros y. rewrite Hreg, Hcov. split.
        -- intros [?|(q & s & Hq & ?)]; [by left; left|].
           destruct (decide (q = ptr)) as [->|].
           ++ left. right. rewrite El in Hq. by injection Hq as <-.
           ++ right. exists q, s. rewrite lookup_delete_ne; [done|congruence].
        -- intros [[?|?]|(q & s & Hq & ?)]; [by left|right; by exists ptr, sh|].
           rewrite lookup_delete in Hq. case_decide; [done|]. right. by exists q, s.
    + intros q s. rewrite lookup_delete. case_decide; [done|apply Hblk].
    + intros q1 s1 q2 s2. rewrite !lookup_delete. repeat case_decide; [done..|]. by apply Hdis.
Qed.

(** ** Growing the heap *)

Section grow.
Context {W : Type}.
Variable vm_reserve : W -> Z -> Z -> outcome (Z * W).
Variable vm_commit : W -> Z -> Z -> outcome (bool * W).
Variable vm_release : W -> Z -> Z -> outcome W.

(** What the heap relies on: the services return, and pages that were reserved and committed are
    page aligned and not yet in the heap. *)
Definition vm_promise (fl : freelists) : Prop :=
  (forall w n, exists p w', vm_reserve w 0 n = Ok (p, w')) /\
  (forall w p n, exists w', vm_release w p n = Ok w') /\
  (forall w n p w1, vm_reserve w 0 n = Ok (p, w1) -> p <> 0 ->
     exists b w2, vm_commit w1 p n = Ok (b, w2) /\
       (b = true -> 0 < p /\ p mod PAGE_SIZE = 0 /\ p + n * PAGE_SIZE <= 2 ^ 64 /\
          forall x, p <= x < p + n * PAGE_SIZE -> ~ covers fl x)).

Definition granted (fl : freelists) (limit p n : Z) : Prop :=
  0 < p /\ p mod PAGE_SIZE = 0 /\ n mod PAGE_SIZE = 0 /\ PAGE_SIZE <= n <= limit /\
  p + n <= 2 ^ 64 /\ forall x, p <= x < p + n -> ~ covers fl x.

Lemma expander_loop_spec fl fuel w req limit : vm_promise fl ->
  (req = PAGE_SIZE /\ (1 <= fuel)%nat \/ (2 <= fuel)%nat) ->
  req mod PAGE_SIZE = 0 -> PAGE_SIZE <= req <= limit ->
  exists p n w', expander_loop vm_reserve vm_commit vm_release fuel w req = Ok (p, n, w') /\
    (p = 0 \/ granted fl limit p n).
Proof.
  intros (Hr & Hl & Hc). revert w req. induction fuel as [|fuel IH]; intros w req Hf Hm Hge; [lia|].
  assert (Hreq : req / PAGE_SIZE * PAGE_SIZE = req) by (unfold PAGE_SIZE in *; dlia).
  cbn [expander_loop]. destruct (Hr w (req / PAGE_SIZE)) as (p & w1 & Er). rewrite Er. cbn [obind].
  assert (Hnext : forall w, exists p n w', (if req / PAGE_SIZE <=? 1 then Ok (0, req, w)
      else expander_loop vm_reserve vm_commit vm_release fuel w PAGE_SIZE) = Ok (p, n, w') /\
      (p = 0 \/ granted fl limit p n)).
  { intros w'. destruct (Z.leb_spec (req / PAGE_SIZE) 1); [exists 0, req, w'; auto|].
    apply IH; [|by unfold PAGE_SIZE|unfold PAGE_SIZE in *; lia].
    left. split; [done|]. destruct Hf as [[-> _]|]; [|lia]. unfold PAGE_SIZE in *. dlia. }
  unfold truth. destruct (Z.eqb_spec p 0) as [->|Hp]; cbn [negb]; [apply Hnext|].
  destruct (Hc w _ p w1 Er Hp) as (b & w2 & Ec & Hb). rewrite Ec. cbn [obind].
  destruct b.
  - destruct (Hb eq_refl) as (H1 & H2 & H3 & H4). rewrite Hreq in *.
    exists p, req, w2. split; [done|]. right. by split.
  - destruct (Hl w2 p (req / PAGE_SIZE)) as (w3 & El). rewrite El. cbn [obind]. apply Hnext.
Qed.

Hypothesis small : top <= 13.

Lemma allocate_grow_spec w h fl req :
  wf h fl -> 0 < req < 2 ^ 64 -> vm_promise fl -> 0 <= cap_size h < 2 ^ 62 ->
  exists r w' h', allocate (Some (heap_expander vm_reserve vm_commit vm_release)) 2 w h req
      = Ok (r, w', h') /\
    match r with
    | None => h' = h /\
        (2 ^ (top - 1) < req \/ exists sh, category req = Ok sh /\ forall s, sh <= s < top -> fl s = [])
    | Some p => exists sh fl' (grant : Z -> Prop), category req = Ok sh /\ bot <= sh < top /\
        req <= 2 ^ sh /\ 0 < p /\ p mod 2 ^ sh = 0 /\ wf h' fl' /\ apart fl' p sh /\
        (forall x, grant x -> ~ covers fl x) /\
        (forall x, covers fl' x \/ p <= x < p + 2 ^ sh <-> covers fl x \/ grant x)
    end.
Proof.
  destruct orders as [Ho1 Ho2]. intros Hwf Hreq Hprom Hcap.
  destruct (category_spec req Hreq) as (sh & E & Hsh). cbn [allocate]. rewrite E. cbn [obind].
  destruct (Z.leb_spec top sh) as [Htop|Htop].
  { eexists _, _, _. split; [done|]. split; [done|]. left. case_decide; lia. }
  case_decide as Hmax; [|lia]. destruct Hsh as (Hr & Hle & _).
  destruct (get_block_spec h fl sh Hwf Hr) as ([[p|] h1] & Eg & Hgot); rewrite Eg; cbn [obind].
  - eexists _, _, _. split; [done|].
    destruct Hgot as (fl' & Hwf' & _ & Hp & Hm & _ & Ha & Hcov & _).
    exists sh, fl', (fun _ => False). repeat (split; [done|]). intros x. rewrite Hcov. tauto.
  - destruct Hgot as [-> Hnone].
    set (want := Z.max req (Z.max (cap_size h) 0x4000)).
    assert (Hwant : 0x4000 <= want < 2 ^ 62 \/ want < 2 ^ 62).
    { right. unfold want. assert (req <= 2 ^ 62); [|].
      { etrans; [exact Hmax|]. apply Z.pow_le_mono_r; lia. }
      assert (2 ^ (top - 1) <= 2 ^ 12) by (apply Z.pow_le_mono_r; lia).
      change (2 ^ 12) with 4096 in *. lia. }
    assert (Hw0 : 0x4000 <= want < 2 ^ 62) by (unfold want in *; lia). clear Hwant.
    unfold heap_expander. change PAGE_SIZE with (2 ^ 12) at 2 3.
    rewrite Z.max_l by (unfold PAGE_SIZE; lia).
    rewrite align_up_pow2 by lia. change (2 ^ 12) with 4096.
    destruct (expander_loop_spec fl 2 w ((want + 4096 - 1) / 4096 * 4096) (2 ^ 62 + 4096) Hprom)
      as (p & n & w1 & Ee & Hpn); [by right|by apply Z.mod_mul|unfold PAGE_SIZE; dlia|].
    rewrite Ee. cbn [obind]. destruct (decide (p = 0)) as [->|Hp0].
    { unfold expand. cbn [Z.eqb orb obind]. eexists _, _, _. split; [done|]. split; [done|].
      right. by exists sh. }
    destruct Hpn as [|(Hp & Hpm & Hnm & Hn & Hpn & Hfresh)]; [done|].
    assert (Hdiv : forall x s, x mod PAGE_SIZE = 0 -> 0 <= s <= 12 -> x mod 2 ^ s = 0).
    { intros x s Hx Hs. apply Z.mod_divide in Hx as [q ->]; [|by unfold PAGE_SIZE].
      change PAGE_SIZE with (2 ^ 12). replace 12 with (12 - s + s) by lia.
      rewrite Z.pow_add_r, Z.mul_assoc by lia. apply Z.mod_mul.
      pose proof (pow2_pos s ltac:(lia)). lia. }
    assert (Hbs : 2 ^ bot <= 4096) by (change 4096 with (2 ^ 12); apply Z.pow_le_mono_r; lia).
    pose proof (pow2_pos bot ltac:(lia)) as Hpb. unfold PAGE_SIZE in Hn.
    assert (Hstart : (p + 2 ^ bot - 1) / 2 ^ bot * 2 ^ bot = p).
    { specialize (Hdiv p bot Hpm ltac:(lia)). apply Z.mod_divide in Hdiv as [q ->]; [|lia].
      replace (q * 2 ^ bot + 2 ^ bot - 1) with (2 ^ bot - 1 + q * 2 ^ bot) by lia.
      rewrite Z.div_add by lia. rewrite Z.div_small by lia. lia. }
    assert (Htaken : Z.max 0 (p + n - p) / 2 ^ bot * 2 ^ bot = n).
    { rewrite Z.max_r by lia. replace (p + n - p) with n by lia.
      specialize (Hdiv n bot Hnm ltac:(lia)). apply Z.mod_divide in Hdiv as [q ->]; [|lia].
      by rewrite Z.div_mul by lia. }
    pose proof (expand_spec h fl p n Hwf Hp ltac:(lia) Hpn ltac:(lia) Hfresh) as Hexp.
    cbv zeta in Hexp. rewrite Hstart, Htaken in Hexp.
    destruct Hexp as (h2 & fl2 & Ex & Hwf2 & Hc2 & Hcov2 & _ & Hkept); [lia|lia|].
    rewrite Ex. replace (0 <? n) with true by (symmetry; apply Z.ltb_lt; lia). cbn [obind].
    replace (top <=? sh) with false by (symmetry; by apply Z.leb_gt).
    destruct (get_block_spec h2 fl2 sh Hwf2 Hr) as ([[q|] h3] & Eg2 & Hgot2); rewrite Eg2;
      cbn [obind].
    + eexists _, _, _. split; [done|].
      destruct Hgot2 as (fl3 & Hwf3 & _ & Hq & Hqm & _ & Ha & Hcov & _).
      exists sh, fl3, (fun x => p <= x < p + n). repeat (split; [done|]).
      intros x. rewrite <- Hcov. apply Hcov2.
    + exfalso. destruct Hgot2 as [_ Hempty].
      destruct (Hkept (top - 1) p) as (s' & b' & Hs' & Hb' & _); [lia| |].
      * right. split; [done|]. split; [apply Hdiv; [done|lia]|].
        etrans; [apply (Z.pow_le_mono_r 2 (top - 1) 12); lia|]. change (2 ^ 12) with 4096. lia.
      * rewrite Hempty in Hb' by lia. by apply elem_of_nil in Hb'.
Qed.
End grow.
End heap.

(** ** Properties *)

(** C3. Safety of a heap for its users.  Whatever sequence of allocations, writes into held blocks
    and releases (with a size of the class they were allocated with) the users make, no assertion
    of the heap fails; a block handed out is large enough and overlaps no block that is held; free
    and held blocks together are always exactly the bytes the heap was given. *)
Theorem heap_client_safe bot top region ops st :
  4 <= bot < top /\ top <= 63 -> client_inv bot top region st ->
  exists st', client_run bot top ops st = Ok st' /\ client_inv bot top region st'.
Proof.
  intros Ho. revert st. induction ops as [|op ops IH]; intros st Hst; cbn [client_run]; [eauto|].
  destruct (heap_step_ok bot top Ho region op st Hst) as (st1 & E & Hst1). rewrite E.
  cbn [obind]. by apply IH.
Qed.

(** A heap with no memory. *)
Definition empty_heap (bot top : Z) : heap :=
  Heap ∅ (list_to_map ((fun i => (i, None)) <$> seqZ 0 (top - bot))) 0.

Lemma empty_wf bot top : 4 <= bot < top /\ top <= 63 -> wf bot top (empty_heap bot top) (fun _ => []).
Proof.
  intros Ho. constructor; constructor.
  - intros sh Hsh. cbn. apply elem_of_list_to_map.
    + rewrite <- list_fmap_compose. apply NoDup_fmap_2; [intros ?? [=]; done|]. apply NoDup_seqZ.
    + apply list_elem_of_fmap. exists (sh - bot). split; [done|]. apply elem_of_seqZ. lia.
  - done.
  - constructor.
  - intros sh a _ Ha. by apply elem_of_nil in Ha.
  - intros s1 a s2 b _ _ Ha. by apply elem_of_nil in Ha.
  - intros sh a _ _ Ha. by apply elem_of_nil in Ha.
Qed.

Lemma demo_heap : exists h, client_inv 4 12 (fun x => 0x10000 <= x < 0x11000) (∅, h) /\
  expand 4 12 (empty_heap 4 12) 0x10000 0x1000 = Ok (true, h).
Proof.
  destruct (expand_spec 4 12 ltac:(lia) (empty_heap 4 12) (fun _ => []) 0x10000 0x1000) as
    (h & fl & E & Hwf & _ & Hcov & _).
  - apply empty_wf. lia.
  - lia.
  - lia.
  - lia.
  - lia.
  - intros x _ (s & b & _ & Hb & _). by apply elem_of_nil in Hb.
  - done.
  - vm_compute. done.
  - exists h. split; [|exact E]. constructor; cbn [fst snd].
    + exists fl. split; [exact Hwf|]. split; [intros p s; by rewrite lookup_empty|].
      intros x. rewrite Hcov. change (0x10000 + 2 ^ 4 - 1) with 65551.
      replace (65551 / 2 ^ 4 * 2 ^ 4) with 0x10000 by (vm_compute; reflexivity).
      replace (Z.max 0 (0x10000 + 0x1000 - 0x10000) / 2 ^ 4 * 2 ^ 4) with 0x1000
        by (vm_compute; reflexivity).
      split.
      * intros Hx. left. right. lia.
      * intros [[(s & b & _ & Hb & _)|Hx]|(p & s & Hp & _)]; [by apply elem_of_nil in Hb|lia|].
        by rewrite lookup_empty in Hp.
    + intros p s. by rewrite lookup_empty.
    + intros p1 s1 p2 s2. by rewrite lookup_empty.
Qed.

Theorem heap_client_safe_witness :
  exists h st', client_run 4 12 [op_allocate 24; op_allocate 100; op_write 0x10004 (Node None None tt);
      op_release 0x10000 20; op_allocate 2048] (∅, h) = Ok st' /\
    client_inv 4 12 (fun x => 0x10000 <= x < 0x11000) st'.
Proof.
  destruct demo_heap as (h & Hinv & _). exists h. apply heap_client_safe; [lia|exact Hinv].
Defined.

(** Allocation with an expander.  A request is refused only when it is larger than the largest
    block, or when no free block is large enough and the expander got no memory; then the heap is
    unchanged.  Otherwise the block returned is aligned, large enough, and what is free afterwards
    together with it is exactly what was free before together with what the expander granted.  One
    expansion is always enough: the recursion ends after the second attempt. *)
Theorem heap_allocate {W} vm_reserve vm_commit vm_release bot top (w : W) h fl req :
  4 <= bot < top /\ top <= 63 -> top <= 13 -> wf bot top h fl -> 0 < req < 2 ^ 64 ->
  vm_promise bot top vm_reserve vm_commit vm_release fl -> 0 <= cap_size h < 2 ^ 62 ->
  exists r w' h',
    allocate bot top (Some (heap_expander vm_reserve vm_commit vm_release)) 2 w h req
      = Ok (r, w', h') /\
    match r with
    | None => h' = h /\ (2 ^ (top - 1) < req \/
        exists sh, category bot top req = Ok sh /\ forall s, sh <= s < top -> fl s = [])
    | Some p => exists sh fl' (grant : Z -> Prop), category bot top req = Ok sh /\
        bot <= sh < top /\ req <= 2 ^ sh /\ 0 < p /\ p mod 2 ^ sh = 0 /\ wf bot top h' fl' /\
        apart bot top fl' p sh /\ (forall x, grant x -> ~ covers bot top fl x) /\
        (forall x, covers bot top fl' x \/ p <= x < p + 2 ^ sh <->
           covers bot top fl x \/ grant x)
    end.
Proof. intros Ho Hs Hwf Hreq Hp Hc. by apply allocate_grow_spec. Qed.

(** Virtual memory services that hand out addresses from a counter. *)
Definition demo_reserve (w : Z) (_ n : Z) : outcome (Z * Z) :=
  if w + n * PAGE_SIZE <=? 2 ^ 40 then Ok (w, w + Z.max 0 n * PAGE_SIZE) else Ok (0, w).
Definition demo_commit (w p n : Z) : outcome (bool * Z) :=
  Ok ((0 <? p) && (p mod PAGE_SIZE =? 0) && (p + n * PAGE_SIZE <=? 2 ^ 64), w).
Definition demo_release (w p n : Z) : outcome Z := Ok w.

Theorem heap_allocate_witness :
  exists r w' h', allocate 4 12 (Some (heap_expander demo_reserve demo_commit demo_release)) 2
    0x100000 (empty_heap 4 12) 100 = Ok (r, w', h') /\ r = Some 0x100000.
Proof.
  destruct (heap_allocate demo_reserve demo_commit demo_release 4 12 0x100000 (empty_heap 4 12)
    (fun _ => []) 100) as (r & w' & h' & E & _).
  - lia.
  - lia.
  - apply empty_wf. lia.
  - lia.
  - split; [|split].
    + intros w n. unfold demo_reserve. destruct (_ <=? _); eauto.
    + intros w p n. unfold demo_release. eauto.
    + intros w n p w1 _ _. eexists _, _. split; [reflexivity|]. intros Hb. bool_norm.
      split; [done|]. split; [done|]. split; [done|]. intros x _ (s & b & _ & Hb' & _).
      by apply elem_of_nil in Hb'.
  - vm_compute. split; [discriminate|reflexivity].
  - exists r, w', h'. split; [exact E|].
    assert (Hv : match allocate 4 12 (Some (heap_expander demo_reserve demo_commit demo_release)) 2
      0x100000 (empty_heap 4 12) 100 with Ok (Some p, _, _) => p =? 0x100000 | _ => false end = true)
      by (vm_compute; reflexivity).
    rewrite E in Hv. destruct r; [|discriminate]. apply Z.eqb_eq in Hv. by subst.
Defined.

(** [max_size] is exact: without an expander a request is granted exactly when a block of its
    class is no larger than the largest free block [max_size] reports. *)
Theorem heap_max_size bot top h fl req :
  4 <= bot < top /\ top <= 63 -> wf bot top h fl -> 0 < req < 2 ^ 64 ->
  exists m sh r w' h', max_size bot top h = Ok m /\ category bot top req = Ok sh /\
    allocate bot top (W:=unit) None 1 tt h req = Ok (r, w', h') /\
    ((exists p, r = Some p) <-> sh < top /\ 2 ^ sh <= m).
Proof.
  intros Ho Hwf Hreq. destruct (allocate_none bot top Ho h fl req Hwf Hreq)
    as (sh & [r h'] & E & Hr & _ & _ & Ea & Htop & Hgot). cbn [fst snd] in *.
  destruct (max_size_loop_spec bot top h fl (Z.to_nat (top - bot)) bot top (wf_rep _ _ _ _ Hwf))
    as (j & Em & Hj); [lia|lia|].
  unfold max_size. rewrite Em. cbn [obind].
  eexists _, sh, r, tt, h'. split; [reflexivity|]. split; [done|]. split; [done|].
  assert (Hsome : (exists p, r = Some p) <-> sh < top /\ exists s, sh <= s < top /\ fl s <> []).
  { destruct (decide (sh = top)) as [->|Hne].
    - injection (Htop eq_refl) as -> ->. split; [by intros [? ?]|lia].
    - specialize (Hgot ltac:(lia)). destruct r as [p|].
      + split; [|eauto]. intros _. split; [lia|].
        destruct Hgot as (fl' & _ & _ & Hp & _ & _ & _ & Hcov & _).
        destruct (decide (Exists (fun s => fl s <> []) (seqZ sh (top - sh)))) as [Hex|Hno].
        * apply Exists_exists in Hex as (s & Hs & Hf). apply elem_of_seqZ in Hs. exists s.
          split; [lia|done].
        * exfalso. destruct (get_block_spec bot top Ho h fl sh Hwf ltac:(lia)) as ([r2 h2] & Eg & Hg2).
          cbn [allocate] in Ea. rewrite E in Ea. cbn [obind] in Ea.
          replace (top <=? sh) with false in Ea by (symmetry; apply Z.leb_gt; lia).
          rewrite Eg in Ea. cbn [obind] in Ea.
          assert (Hall : forall s, sh <= s < top -> fl s = []).
          { intros s Hs. destruct (fl s) eqn:Ef; [done|]. exfalso. apply Hno. apply Exists_exists.
            exists s. split; [apply elem_of_seqZ; lia|by rewrite Ef]. }
          unfold get_block in Eg. clear Hg2.
          assert (Hnone : forall fuel sh', (Z.to_nat (top - sh') < fuel)%nat -> sh <= sh' <= top ->
            get bot top fuel h sh' = Ok (None, h)).
          { clear -Ho Hwf Hall Hr Hne. intros fuel. induction fuel as [|fuel IH]; intros sh' Hf Hs; [lia|].
            cbn [get]. destruct (Z.leb_spec top sh'); [done|]. unfold block_index.
            rewrite (rep_pool _ _ _ _ (wf_rep _ _ _ _ Hwf)) by lia. rewrite (Hall sh') by lia.
            cbn [ns fmap list_fmap hd_or deref obind]. rewrite IH by lia. done. }
          rewrite Hnone in Eg by lia. injection Eg as <- <-. by injection Ea.
      + split; [by intros [? ?]|]. intros (_ & s & Hs & Hf). destruct Hgot as [_ Hempty].
        by rewrite Hempty in Hf. }
  rewrite Hsome. split; intros [Hs H]; (split; [done|]).
  - destruct H as (s & Hs' & Hf). destruct Hj as [[Hnone ->]|(Hj1 & Hj2 & Hj3)].
    + destruct Hf. apply Hnone. lia.
    + replace (j =? top) with false by (symmetry; apply Z.eqb_neq; lia).
      rewrite block_size_eq by lia. apply Z.pow_le_mono_r; [lia|].
      destruct (decide (s <= j)); [lia|]. destruct Hf. apply Hj3. lia.
  - destruct Hj as [[Hnone ->]|(Hj1 & Hj2 & Hj3)].
    + rewrite Z.eqb_refl in H. pose proof (pow2_pos sh ltac:(lia)). lia.
    + replace (j =? top) with false in H by (symmetry; apply Z.eqb_neq; lia).
      rewrite block_size_eq in H by lia. exists j. split; [|done].
      split; [|lia]. apply Z.pow_le_mono_r_iff in H; lia.
Qed.

Theorem heap_max_size_witness :
  exists m sh r w' h', max_size 4 12 (empty_heap 4 12) = Ok m /\ category 4 12 100 = Ok sh /\
    allocate 4 12 (W:=unit) None 1 tt (empty_heap 4 12) 100 = Ok (r, w', h') /\
    ((exists p, r = Some p) <-> sh < 12 /\ 2 ^ sh <= m).
Proof. apply (heap_max_size 4 12 _ (fun _ => [])); [lia|apply empty_wf; lia|lia]. Defined.

(** [expand] gives the heap exactly the aligned part of the range: nothing before it, nothing
    after it, and reports whether there was any; the largest aligned block at its start becomes
    available as a whole. *)
Theorem heap_expand bot top h fl ptr len :
  4 <= bot < top /\ top <= 63 -> wf bot top h fl -> 0 < ptr -> 0 < len -> ptr + len <= 2 ^ 64 ->
  ptr + 2 ^ bot <= 2 ^ 64 -> (forall x, ptr <= x < ptr + len -> ~ covers bot top fl x) ->
  let start := (ptr + 2 ^ bot - 1) / 2 ^ bot * 2 ^ bot in
  let taken := Z.max 0 (ptr + len - start) / 2 ^ bot * 2 ^ bot in
  0 <= cap_size h -> cap_size h + taken < 2 ^ 64 ->
  exists h' fl', expand bot top h ptr len = Ok (0 <? taken, h') /\ wf bot top h' fl' /\
    cap_size h' = cap_size h + taken /\
    (forall x, covers bot top fl' x <-> covers bot top fl x \/ start <= x < start + taken) /\
    (forall k, ~ covers bot top fl' k -> hmem h' !! k = hmem h !! k) /\
    (forall s b, bot <= s < top ->
       b ∈ fl s \/ (b = ptr /\ ptr mod 2 ^ s = 0 /\ 2 ^ s <= len) -> kept top fl' s b).
Proof. intros Ho Hwf H1 H2 H3 H4 H5 start taken H6 H7. by apply expand_spec. Qed.

Theorem heap_expand_witness :
  exists h' fl', expand 4 12 (empty_heap 4 12) 0x10008 0x1000 = Ok (true, h') /\
    wf 4 12 h' fl' /\ cap_size h' = 0xFF0.
Proof.
  destruct (heap_expand 4 12 (empty_heap 4 12) (fun _ => []) 0x10008 0x1000) as
    (h' & fl' & E & Hwf & Hc & _).
  - lia.
  - apply empty_wf. lia.
  - lia.
  - lia.
  - lia.
  - lia.
  - intros x _ (s & b & _ & Hb & _). by apply elem_of_nil in Hb.
  - vm_compute. discriminate.
  - vm_compute. reflexivity.
  - exists h', fl'. split; [exact E|]. split; [exact Hwf|]. rewrite Hc. vm_compute. reflexivity.
Defined.
End BuddyHeap.
