(* ===== verification/PageTable.v ===== *)
(** * Free blocks of a page table (src/kernel/memory/vm.cpp, the low-level methods)

    The entries of a page table that are neither present nor preserved are free address space.
    A maximal run of free entries is a block; its description is written into the entries
    themselves: the first holds the block that follows it in the list ([NEXT]), the second the block
    before it ([PREV]), the third its size ([SIZE]), every other one its distance from the first
    ([OFF]).  The list is sorted by size; the entry of the page directory holds its head and a
    rounded-down size of its largest block.

    A table is a map from indices 0..511 to entries; the test [(qword)pt & PAGE_MASK] of the code,
    which finds the end of the table, compares the index with 512. *)

From S2P Require Import Prelude Const Dll.

Module PageTable.

(** ** Data *)

Inductive pte_type := OFF | SIZE | PREV | NEXT.
#[export] Instance pte_type_eq_dec : EqDecision pte_type.
Proof. solve_decision. Defined.

(** [struct PTE]. *)
Record PTE := Pte {
  present : bool; write : bool; user : bool; wt : bool; cd : bool; accessed : bool; dirty : bool;
  pat : bool; global : bool;
  type : pte_type; valid : bool;
  page_addr : Z;
  data : Z; preserve : bool; bypass : bool;
  xd : bool
}.

(** [struct PDTE]. *)
Record PDTE := Pdte {
  d_present : bool; d_write : bool; d_user : bool; d_wt : bool; d_cd : bool; d_accessed : bool;
  d_ps : bool;
  remain : Z;
  pt_addr : Z;
  head : Z; d_bypass : bool;
  d_xd : bool
}.

(** [struct BLOCK]. *)
Record BLOCK := Block {
  self : Z; next : Z; prev : Z; size : Z; next_valid : bool; prev_valid : bool
}.

Abbreviation table := (gmap Z PTE).

Definition is_free (e : PTE) : bool := negb (present e) && negb (preserve e).

(** Assignments to the fields of an entry; [data] is nine bits wide. *)
Definition set_link (ty : pte_type) (d : Z) (v : bool) (e : PTE) : PTE :=
  Pte (present e) (write e) (user e) (wt e) (cd e) (accessed e) (dirty e) (pat e) (global e)
      ty v (page_addr e) (wrap 9 d) (preserve e) (bypass e) (xd e).
Definition set_preserve (b : bool) (e : PTE) : PTE :=
  Pte (present e) (write e) (user e) (wt e) (cd e) (accessed e) (dirty e) (pat e) (global e)
      (type e) (valid e) (page_addr e) (data e) b (bypass e) (xd e).
Definition set_page (p : bool) (a : Z) (e : PTE) : PTE :=
  Pte p (write e) (user e) (wt e) (cd e) (accessed e) (dirty e) (pat e) (global e)
      (type e) (valid e) a (data e) (preserve e) (bypass e) (xd e).

Definition set_remain (r : Z) (p : PDTE) : PDTE :=
  Pdte (d_present p) (d_write p) (d_user p) (d_wt p) (d_cd p) (d_accessed p) (d_ps p)
       r (pt_addr p) (head p) (d_bypass p) (d_xd p).
Definition set_head (h : Z) (p : PDTE) : PDTE :=
  Pdte (d_present p) (d_write p) (d_user p) (d_wt p) (d_cd p) (d_accessed p) (d_ps p)
       (remain p) (pt_addr p) (wrap 9 h) (d_bypass p) (d_xd p).

Definition set_size (n : Z) (b : BLOCK) : BLOCK :=
  Block (self b) (next b) (prev b) n (next_valid b) (prev_valid b).
Definition set_self (s : Z) (b : BLOCK) : BLOCK :=
  Block s (next b) (prev b) (size b) (next_valid b) (prev_valid b).
Definition set_next (n : Z) (v : bool) (b : BLOCK) : BLOCK :=
  Block (self b) n (prev b) (size b) v (prev_valid b).
Definition set_prev (p : Z) (v : bool) (b : BLOCK) : BLOCK :=
  Block (self b) (next b) p (size b) (next_valid b) v.

(** ** Reading and writing the description of a block *)

(** [0 == ((qword)pt & PAGE_MASK) || pt->present || pt->preserve]: the run ends before [pt]. *)
Definition run_ends (t : table) (pt : Z) : outcome bool :=
  if pt =? 512 then Ok true
  else let! e := deref (t !! pt); Ok (present e || preserve e).

(** The loop over the [OFF] entries in the debug build. *)
Fixpoint check_off (n : nat) (t : table) (pt i : Z) : outcome unit :=
  match n with
  | O => Ok tt
  | S n =>
      let pt := pt + 1 in
      assert! negb (pt =? 512);
      let! e := deref (t !! pt);
      assert! is_free e;
      assert! bool_decide (type e = OFF);
      assert! valid e && (data e =? i);
      check_off n t pt (i + 1)
  end.

(** The first half of [BLOCK::get(pt)]: from any entry of a block to its first one. *)
Definition get_self (t : table) (pt : Z) : outcome Z :=
  let! e := deref (t !! pt);
  assert! is_free e;
  match type e with
  | OFF =>
      assert! valid e;
      assert! (2 <? data e) && (data e <=? pt);
      Ok (pt - data e)
  | SIZE =>
      assert! valid e;
      assert! (data e =? 3) && (2 <=? pt);
      Ok (pt - 2)
  | PREV =>
      assert! 1 <=? pt;
      Ok (pt - 1)
  | NEXT => Ok pt
  end.

(** The second half: the description from the first entry on; [b] is the object before the call,
    whose [prev] is kept when the block has one page. *)
Definition get_at (b : BLOCK) (t : table) (self : Z) : outcome BLOCK :=
  let! e := deref (t !! self);
  assert! is_free e;
  assert! bool_decide (type e = NEXT);
  let next := data e in
  let next_valid := valid e in
  let! stop := run_ends t (self + 1);
  if stop then Ok (Block self next (prev b) 1 next_valid false)
  else
    let! e := deref (t !! (self + 1));
    assert! bool_decide (type e = PREV);
    let prev := data e in
    let prev_valid := valid e in
    let! stop := run_ends t (self + 2);
    if stop then Ok (Block self next prev 2 next_valid prev_valid)
    else
      let! e := deref (t !! (self + 2));
      assert! bool_decide (type e = SIZE) && valid e;
      let size := data e + 1 in
      assert! 2 <? size;
      let! _ := check_off (Z.to_nat (size - 3)) t (self + 2) 3;
      Ok (Block self next prev size next_valid prev_valid).

Definition get (b : BLOCK) (t : table) (pt : Z) : outcome BLOCK :=
  let! self := get_self t pt; get_at b t self.

(** Write one entry of a free block. *)
Definition put_entry (t : table) (pt : Z) (ty : pte_type) (d : Z) (v : bool) : outcome table :=
  let! e := deref (t !! pt);
  assert! is_free e;
  Ok (<[pt := set_link ty d v e]> t).

Fixpoint put_off (n : nat) (t : table) (pt i : Z) : outcome table :=
  match n with
  | O => Ok t
  | S n =>
      let pt := pt + 1 in
      assert! negb (pt =? 512);
      let! t := put_entry t pt OFF i true;
      put_off n t pt (i + 1)
  end.

(** [BLOCK::put(pt)]. *)
Definition put (b : BLOCK) (t : table) (pt : Z) : outcome table :=
  assert! self b =? pt;
  assert! truth (size b);
  let! t := put_entry t pt NEXT (next b) (next_valid b);
  if size b =? 1 then Ok t
  else
    assert! negb (pt + 1 =? 512);
    let! t := put_entry t (pt + 1) PREV (prev b) (prev_valid b);
    if size b =? 2 then Ok t
    else
      assert! negb (pt + 2 =? 512);
      let! t := put_entry t (pt + 2) SIZE (size b - 1) true;
      let! t := put_off (Z.to_nat (size b - 3)) t (pt + 2) 3;
      let! stop := run_ends t (pt + size b);
      assert! stop; Ok t.

(** ** The list of blocks *)

(** The rounded size of the largest block. *)
Definition get_max_size (pdt : PDTE) : Z :=
  if remain pdt <? 8 then
    if truth (remain pdt) then w16 (Z.shiftl 1 (remain pdt - 1)) else 0
  else w16 (64 + 56 * (remain pdt - 7)).

Fixpoint bit_length (fuel : nat) (max_size remain : Z) : outcome Z :=
  if truth max_size then
    match fuel with
    | O => NoFuel
    | S fuel => bit_length fuel (Z.shiftr max_size 1) (remain + 1)
    end
  else Ok remain.

Definition put_max_size (pdt : PDTE) (max_size : Z) : outcome PDTE :=
  if 64 + 56 <=? max_size then Ok (set_remain (wrap 4 (7 + (max_size - 64) / 56)) pdt)
  else
    let! r := bit_length 16 max_size 0;
    Ok (set_remain (wrap 4 r) pdt).

(** The walk over the one-page blocks at the front of the list; a one-page block has no room for
    the link to the block before it. *)
Fixpoint resolve_loop (fuel : nat) (t : table) (prev_block block : BLOCK) : outcome BLOCK :=
  match fuel with
  | O => NoFuel
  | S fuel =>
      let! prev_block := get prev_block t (next prev_block);
      assert! size prev_block =? 1;
      if next_valid prev_block && (next prev_block =? self block)
      then Ok (set_prev (self prev_block) true block)
      else if next_valid prev_block then resolve_loop fuel t prev_block block else Bug
  end.

(** Local objects that the code leaves uninitialised. *)
Definition no_block : BLOCK := Block 0 0 0 0 false false.

Definition resolve_prior (pdt : PDTE) (t : table) (block : BLOCK) : outcome BLOCK :=
  assert! truth (size block);
  assert! truth (get_max_size pdt);
  if head pdt =? self block then assert! negb (prev_valid block); Ok block
  else if 1 <? size block then assert! prev_valid block; Ok block
  else resolve_loop 512 t (set_next (head pdt) false no_block) block.

(** [erase], first half: the block before, or the head of the list, skips the block; the size of
    the block before is the largest if nothing follows. *)
Definition unlink_before (pdt : PDTE) (t : table) (block : BLOCK) : outcome (PDTE * table * Z) :=
  if prev_valid block then
    let! prev_block := get no_block t (prev block);
    assert! next_valid prev_block && (next prev_block =? self block);
    let prev_block := set_next (next block) (next_valid block) prev_block in
    let! t := put prev_block t (self prev_block);
    Ok (pdt, t, size prev_block)
  else
    assert! head pdt =? self block;
    Ok (set_head (next block) pdt, t, 0).

(** [erase], second half: the block after skips it backwards, when it has room for that link. *)
Definition unlink_after (pdt : PDTE) (t : table) (block : BLOCK) (max_size : Z)
  : outcome (table * Z) :=
  if next_valid block then
    let! next_block := get no_block t (next block);
    let! t :=
      (if 1 <? size next_block then
         assert! prev_valid next_block && (prev next_block =? self block);
         let next_block := set_prev (prev block) (prev_valid block) next_block in
         put next_block t (self next_block)
       else Ok t);
    Ok (t, Z.max (size next_block) (get_max_size pdt))
  else Ok (t, max_size).

Definition erase (pdt : PDTE) (t : table) (block : BLOCK) : outcome (PDTE * table) :=
  let! (pdt, t, max_size) := unlink_before pdt t block;
  let! (t, max_size) := unlink_after pdt t block max_size;
  let! pdt := put_max_size pdt max_size;
  Ok (pdt, t).

(** The two loops of [insert]: towards smaller and towards larger blocks; a size of 0 stands for no
    block. *)
Fixpoint shift_left (fuel : nat) (t : table) (block prev_block next_block : BLOCK)
  : outcome (BLOCK * BLOCK) :=
  match fuel with
  | O => NoFuel
  | S fuel =>
      assert! negb (truth (size prev_block) && truth (size next_block)) ||
              (size prev_block <=? size next_block);
      if truth (size prev_block) && (size block <? size prev_block) then
        let next_block := prev_block in
        if negb (prev_valid next_block) then Ok (set_size 0 prev_block, next_block)
        else
          let! prev_block := get prev_block t (prev next_block);
          shift_left fuel t block prev_block next_block
      else Ok (prev_block, next_block)
  end.

Fixpoint shift_right (fuel : nat) (t : table) (block prev_block next_block : BLOCK)
  : outcome (BLOCK * BLOCK) :=
  match fuel with
  | O => NoFuel
  | S fuel =>
      assert! negb (truth (size prev_block) && truth (size next_block)) ||
              (size prev_block <=? size next_block);
      if truth (size next_block) && (size next_block <? size block) then
        let prev_block := next_block in
        if negb (next_valid prev_block) then Ok (prev_block, set_size 0 next_block)
        else
          let! next_block := get next_block t (next prev_block);
          shift_right fuel t block prev_block next_block
      else Ok (prev_block, next_block)
  end.

(** The block enters the list between the two blocks found: first the block after it ... *)
Definition link_after (pdt : PDTE) (t : table) (block next_block : BLOCK)
  : outcome (PDTE * table * BLOCK) :=
  if truth (size next_block) then
    assert! size block <=? size next_block;
    let block := set_next (self next_block) true block in
    let next_block := set_prev (self block) true next_block in
    let! t := put next_block t (self next_block);
    Ok (pdt, t, block)
  else
    let block := set_next (next block) false block in
    let! pdt := put_max_size pdt (size block);
    Ok (pdt, t, block).

(** ... then the block before it, or the head of the list. *)
Definition link_before (pdt : PDTE) (t : table) (block prev_block next_block : BLOCK)
  : outcome (PDTE * table * BLOCK) :=
  if truth (size prev_block) then
    assert! size prev_block <=? size block;
    let block := set_prev (self prev_block) true block in
    let prev_block := set_next (self block) true prev_block in
    let! t := put prev_block t (self prev_block);
    Ok (pdt, t, block)
  else
    let block := set_prev (prev block) false block in
    assert! (size next_block =? 0) || (head pdt =? self next_block);
    Ok (set_head (self block) pdt, t, block).

Definition link (pdt : PDTE) (t : table) (block prev_block next_block : BLOCK)
  : outcome (PDTE * table) :=
  let! (pdt, t, block) := link_after pdt t block next_block;
  let! (pdt, t, block) := link_before pdt t block prev_block next_block;
  let! t := put block t (self block);
  Ok (pdt, t).

Definition insert (pdt : PDTE) (t : table) (block : BLOCK) : outcome (PDTE * table) :=
  if size block =? 0 then Ok (pdt, t)
  else
    let block :=
      if negb (prev_valid block) && negb (next_valid block) && truth (get_max_size pdt)
      then set_next (head pdt) true block else block in
    let! prev_block :=
      (if prev_valid block then get no_block t (prev block) else Ok (set_size 0 no_block));
    let! next_block :=
      (if next_valid block then get no_block t (next block) else Ok (set_size 0 no_block));
    let! (prev_block, next_block) :=
      (if truth (size prev_block) && (size block <? size prev_block)
       then shift_left 514 t block prev_block next_block
       else shift_right 514 t block prev_block next_block);
    link pdt t block prev_block next_block.

(** ** Reserving and releasing pages *)

(** [count] free entries from [i] become preserved. *)
Fixpoint preserve_run (n : nat) (t : table) (i : Z) : outcome table :=
  match n with
  | O => Ok t
  | S n =>
      let! e := deref (t !! i);
      assert! is_free e;
      preserve_run n (<[i := set_preserve true e]> t) (i + 1)
  end.

(** The search of [imp_reserve_any]: the first, hence smallest, block that is large enough. *)
Fixpoint find_block (fuel : nat) (t : table) (b : BLOCK) (cur count : Z) : outcome BLOCK :=
  match fuel with
  | O => NoFuel
  | S fuel =>
      let! block := get b t cur;
      assert! self block =? cur;
      if count <=? size block then Ok block
      else if next_valid block then find_block fuel t block (next block) count
      else Bug
  end.

Definition imp_reserve_any (pdt : PDTE) (t : table) (base_addr count : Z)
  : outcome (Z * PDTE * table) :=
  assert! truth count;
  assert! d_present pdt && negb (d_bypass pdt);
  if get_max_size pdt <? count then Ok (0, pdt, t)
  else
    let! block := find_block 512 t no_block (head pdt) count;
    let! block := resolve_prior pdt t block;
    let! (pdt, t) := erase pdt t block;
    let allocated_block := self block + size block - count in
    assert! allocated_block + count <=? 0x200;
    let! t := preserve_run (Z.to_nat count) t allocated_block;
    let block := set_size (size block - count) block in
    let! (pdt, t) := insert pdt t block;
    Ok (w64 (base_addr + Z.shiftl allocated_block 12), pdt, t).

Definition imp_reserve_fixed (pdt : PDTE) (t : table) (index count : Z)
  : outcome (bool * PDTE * table) :=
  assert! truth count && (index + count <=? 0x200);
  assert! d_present pdt && negb (d_bypass pdt) && (0 <? get_max_size pdt);
  let! e := deref (t !! index);
  if present e || preserve e then Ok (false, pdt, t)
  else
    let! b0 := get no_block t index;
    assert! self b0 <=? index;
    if self b0 + size b0 <? index + count then Ok (false, pdt, t)
    else
      let! b0 := resolve_prior pdt t b0;
      let! (pdt, t) := erase pdt t b0;
      let! t := preserve_run (Z.to_nat count) t index;
      let size1 := size b0 + self b0 - (index + count) in
      let b1 := Block (index + count) 0 0 size1 false false in
      let b0 := set_size (index - self b0) b0 in
      let '(b0, b1) :=
        if size b0 <? size b1
        then (set_self (self b1) (set_size (size b1) b0), set_self (self b0) (set_size (size b0) b1))
        else (b0, b1) in
      let! (pdt, t) := insert pdt t b0;
      let! (pdt, t) := insert pdt t b1;
      Ok (true, pdt, t).

Definition entry_free (t : table) (i : Z) : outcome bool :=
  let! e := deref (t !! i); Ok (is_free e).

(** [release_page]: what [pm.release] does to the state [S] outside this table when a mapped page
    goes away. *)
Section release.
Context {S : Type}.
Variable release_page : Z -> S -> outcome S.

(** The loop of [imp_release] over the entries; [used_pages] is the counter of the object. *)
Fixpoint release_run (n : nat) (t : table) (i used_pages : Z) (s : S)
  : outcome (table * Z * S) :=
  match n with
  | O => Ok (t, used_pages, s)
  | Datatypes.S n =>
      let! cur := deref (t !! i);
      assert! negb (bypass cur);
      if present cur && truth (page_addr cur) then
        let! s := release_page (Z.shiftl (page_addr cur) 12) s;
        let cur := set_preserve false (set_page false 0 cur) in
        release_run n (<[i := cur]> t) (i + 1) (w64 (used_pages - 1)) s
      else if negb (preserve cur) then Bug
      else release_run n (<[i := set_preserve false cur]> t) (i + 1) used_pages s
  end.

(** The block the released pages join: with the free block before, with the one after, or both. *)
Definition merge_neighbours (pdt : PDTE) (t : table) (index count : Z)
  : outcome (BLOCK * PDTE * table) :=
  let! has_prior := (if truth index then entry_free t (index - 1) else Ok false);
  let! has_after := (if index + count <? 0x200 then entry_free t (index + count) else Ok false);
  if has_prior then
    if has_after then
      let! block := get no_block t (index + count);
      let! block := resolve_prior pdt t block;
      let removed_size := size block in
      let! (pdt, t) := erase pdt t block;
      let! block := get block t (index - 1);
      let! block := resolve_prior pdt t block;
      let! (pdt, t) := erase pdt t block;
      Ok (set_size (size block + (removed_size + count)) block, pdt, t)
    else
      let! block := get no_block t (index - 1);
      let! block := resolve_prior pdt t block;
      let! (pdt, t) := erase pdt t block;
      Ok (set_size (size block + count) block, pdt, t)
  else if has_after then
    let! block := get no_block t (index + count);
    let! block := resolve_prior pdt t block;
    let! (pdt, t) := erase pdt t block;
    Ok (set_self index (set_size (count + size block) block), pdt, t)
  else Ok (Block index 0 0 count false false, pdt, t).

Definition imp_release (pdt : PDTE) (t : table) (base_addr count used_pages : Z) (s : S)
  : outcome (PDTE * table * Z * S) :=
  assert! truth count && truth base_addr;
  let index := Z.land (Z.shiftr base_addr 12) 0x1FF in
  assert! index + count <=? 0x200;
  assert! d_present pdt && negb (d_bypass pdt);
  let! (block, pdt, t) := merge_neighbours pdt t index count;
  let! (t, used_pages, s) := release_run (Z.to_nat count) t index used_pages s;
  let! (pdt, t) := insert pdt t block;
  Ok (pdt, t, used_pages, s).
End release.

(** ** The self-check of the test build *)

(** The first loop: the set of free entries and their number. *)
Fixpoint scan_free (n : nat) (t : table) (i : Z) (free_map : gset Z) (free_count : Z)
  : outcome (gset Z * Z) :=
  match n with
  | O => Ok (free_map, free_count)
  | S n =>
      let! e := deref (t !! i);
      if is_free e then
        assert! negb (bypass e);
        scan_free n t (i + 1) ({[i]} ∪ free_map) (free_count + 1)
      else scan_free n t (i + 1) free_map free_count
  end.

Fixpoint strike (n : nat) (i : Z) (free_map : gset Z) : outcome (gset Z) :=
  match n with
  | O => Ok free_map
  | S n => assert! bool_decide (i ∈ free_map); strike n (i + 1) (free_map ∖ {[i]})
  end.

Definition taken (t : table) (i : Z) : outcome unit :=
  let! e := deref (t !! i); assert! present e || preserve e; Ok tt.

(** The loop over the list of blocks. *)
Fixpoint check_blocks (fuel : nat) (t : table) (block : BLOCK) (last_size last_block : Z)
    (free_map : gset Z) (free_count : Z) : outcome (Z * gset Z * Z) :=
  match fuel with
  | O => NoFuel
  | S fuel =>
      assert! truth (size block);
      assert! negb (size block =? 1) || negb (prev_valid block);
      assert! negb (prev_valid block) || (prev block =? last_block);
      assert! last_size <=? size block;
      assert! size block <=? free_count;
      let free_count := free_count - size block in
      let! free_map := strike (Z.to_nat (size block)) (self block) free_map;
      let! _ := (if truth (self block) then taken t (self block - 1) else Ok tt);
      let! _ := (if self block + size block <? 0x200 then taken t (self block + size block)
                 else Ok tt);
      let last_size := size block in
      let last_block := self block in
      if negb (next_valid block) then Ok (last_size, free_map, free_count)
      else
        let! block := get block t (next block);
        check_blocks fuel t block last_size last_block free_map free_count
  end.

(** [remain] is written and compared with its old value. *)
Definition check_integrity (pdt : PDTE) (t : table) : outcome PDTE :=
  let! (free_map, free_count) := scan_free (Z.to_nat 0x200) t 0 ∅ 0;
  if get_max_size pdt =? 0 then assert! free_count =? 0; Ok pdt
  else
    let! block := get no_block t (head pdt);
    assert! negb (prev_valid block);
    let! (last_size, free_map, free_count) := check_blocks 513 t block 0 0 free_map free_count;
    assert! free_count =? 0;
    assert! bool_decide (free_map = ∅);
    let origin_remain := remain pdt in
    let! pdt := put_max_size pdt last_size;
    assert! remain pdt =? origin_remain;
    Ok pdt.

(** ** A new table *)

(** The page that [new_pt] has cleared. *)
Definition zero_pte : PTE :=
  Pte false false false false false false false false false OFF false 0 0 false false false.
Definition zero_pdte : PDTE :=
  Pdte false false false false false false false 0 0 0 false false.
Definition zero_table : table := gset_to_gmap zero_pte (list_to_set (seqZ 0 512)).

(** The assignments [new_pt] makes once the page at [phy_addr] is mapped. *)
Definition init_pt (phy_addr : Z) : outcome (PDTE * table) :=
  let pdt := Pdte false true true false false false false 0 (Z.shiftr phy_addr 12) 0 false false in
  let! pdt := put_max_size pdt 0x200;
  let pdt := Pdte true (d_write pdt) (d_user pdt) (d_wt pdt) (d_cd pdt) (d_accessed pdt) (d_ps pdt)
               (remain pdt) (pt_addr pdt) (head pdt) (d_bypass pdt) (d_xd pdt) in
  let! t := put (Block 0 0 0 0x200 false false) zero_table 0;
  Ok (pdt, t).

(** ** What the entries of a block say *)

(** A link: absent, or the index of a block. *)
Definition lnk (o : option Z) (d : Z) (v : bool) : Prop :=
  match o with Some x => v = true /\ d = x | None => v = false end.

(** An entry with its link fields forgotten. *)
Definition core (e : PTE) : PTE := set_link NEXT 0 false e.

Definition freeb (t : table) (i : Z) : bool :=
  match t !! i with Some e => is_free e | None => false end.

Definition entry (t : table) (i : Z) (ty : pte_type) (P : Z -> bool -> Prop) : Prop :=
  exists e, t !! i = Some e /\ is_free e = true /\ type e = ty /\ P (data e) (valid e).

(** The block of [n] pages from [s], with [p] before it and [x] after it in the list. *)
Record enc (t : table) (s n : Z) (p x : option Z) : Prop := {
  enc_range : 0 <= s /\ 1 <= n /\ s + n <= 512;
  enc_next : entry t s NEXT (lnk x);
  enc_prev : 2 <= n -> entry t (s + 1) PREV (lnk p);
  enc_size : 3 <= n -> entry t (s + 2) SIZE (fun d v => v = true /\ d = n - 1);
  enc_off : forall i, 3 <= i < n -> entry t (s + i) OFF (fun d v => v = true /\ d = i);
  enc_end : s + n < 512 -> exists e, t !! (s + n) = Some e /\ is_free e = false
}.

(** What [get] makes of it: the link to the block before is not known for a one-page block. *)
Record descr (b : BLOCK) (s n : Z) (p x : option Z) : Prop := {
  de_self : self b = s;
  de_size : size b = n;
  de_next : lnk x (next b) (next_valid b);
  de_prev : if n =? 1 then prev_valid b = false else lnk p (prev b) (prev_valid b)
}.

Lemma is_free_core e : is_free (core e) = is_free e.
Proof. reflexivity. Qed.

Lemma freeb_core t t' i : core <$> t' !! i = core <$> t !! i -> freeb t' i = freeb t i.
Proof.
  unfold freeb. destruct (t' !! i) as [e'|], (t !! i) as [e|]; cbn; intros H; try done.
  injection H as H. rewrite <- is_free_core, <- (is_free_core e).
  unfold core, is_free, set_link in *. cbn. destruct e, e'; cbn in *. congruence.
Qed.

Lemma run_ends_true t i : (i < 512 -> exists e, t !! i = Some e /\ is_free e = false) -> i <= 512 ->
  run_ends t i = Ok true.
Proof.
  intros He Hi. unfold run_ends. destruct (Z.eqb_spec i 512); [done|].
  destruct He as (e & -> & Hf); [lia|]. cbn [deref obind]. f_equal.
  unfold is_free in Hf. destruct (present e), (preserve e); done.
Qed.

Lemma run_ends_false t i ty P : i < 512 -> entry t i ty P -> run_ends t i = Ok false.
Proof.
  intros Hi (e & He & Hf & _). unfold run_ends. destruct (Z.eqb_spec i 512); [lia|].
  rewrite He. cbn [deref obind]. f_equal. unfold is_free in Hf.
  destruct (present e), (preserve e); done.
Qed.

Lemma check_off_ok t s n m i :
  (forall j, 3 <= j < n -> entry t (s + j) OFF (fun d v => v = true /\ d = j)) ->
  3 <= i -> i + Z.of_nat m = n -> s + n <= 512 ->
  check_off m t (s + i - 1) i = Ok tt.
Proof.
  intros He. revert i. induction m as [|m IH]; intros i Hi Hm Hn; cbn [check_off]; [done|].
  replace (s + i - 1 + 1) with (s + i) by lia.
  rewrite ensure_true by (apply negb_true_iff, Z.eqb_neq; lia). cbn [obind].
  destruct (He i) as (e & Hl & Hf & Ht & Hv & Hd); [lia|]. rewrite Hl. cbn [deref obind].
  rewrite ensure_true by done. cbn [obind]. rewrite ensure_decide by done. cbn [obind].
  rewrite ensure_true by (apply andb_true_iff; split; [done|by apply Z.eqb_eq]). cbn [obind].
  replace (s + i) with (s + (i + 1) - 1) by lia. apply IH; lia.
Qed.

(** Reading a block through its first entry. *)
Lemma get_at_spec b t s n p x : enc t s n p x ->
  exists b', get_at b t s = Ok b' /\ descr b' s n p x.
Proof.
  intros [Hr Hn Hp Hs Ho He].
  destruct Hn as (e0 & E0 & F0 & T0 & L0). unfold get_at. rewrite E0. cbn [deref obind].
  rewrite ensure_true by done. cbn [obind].
  rewrite ensure_decide by done. cbn [obind].
  destruct (decide (n = 1)) as [->|Hn1].
  { rewrite run_ends_true by (done || lia). cbn [obind]. eexists. split; [done|]. by constructor. }
  destruct (Hp ltac:(lia)) as (e1 & E1 & F1 & T1 & L1).
  rewrite (run_ends_false t (s + 1) PREV (lnk p)) by (lia || by exists e1). cbn [obind].
  rewrite E1. cbn [deref obind]. rewrite ensure_decide by done. cbn [obind].
  destruct (decide (n = 2)) as [->|Hn2].
  { rewrite run_ends_true by (done || lia). cbn [obind]. eexists. split; [done|]. by constructor. }
  destruct (Hs ltac:(lia)) as (e2 & E2 & F2 & T2 & L2 & D2).
  rewrite (run_ends_false t (s + 2) SIZE (fun d v => v = true /\ d = n - 1))
    by (lia || by exists e2). cbn [obind].
  rewrite E2. cbn [deref obind]. rewrite T2, L2, D2.
  rewrite ensure_true by (apply andb_true_iff; split; [by apply bool_decide_eq_true|done]).
  cbn [obind].
  rewrite ensure_true by (apply Z.ltb_lt; lia). cbn [obind].
  replace (n - 1 + 1) with n by lia.
  assert (Hc : check_off (Z.to_nat (n - 3)) t (s + 2) 3 = Ok tt).
  { replace (s + 2) with (s + 3 - 1) by lia. apply (check_off_ok t s n); [done|lia|lia|lia]. }
  rewrite Hc. cbn [obind]. eexists. split; [done|].
  constructor; cbn; [done|done|done|]. by rewrite (proj2 (Z.eqb_neq n 1)).
Qed.

(** Reading a block through any of its entries: the third one answers only for a block of four
    pages, because the assertion there compares the size with 3. *)
Lemma get_any b t s n p x k : enc t s n p x -> s <= k < s + n ->
  (k <> s + 2 \/ n = 4) -> exists b', get b t k = Ok b' /\ descr b' s n p x.
Proof.
  intros Henc Hk Hthird. destruct (get_at_spec b t s n p x Henc) as (b' & E & Hd).
  exists b'. split; [|done]. unfold get.
  assert (Hself : get_self t k = Ok s); [|by rewrite Hself].
  destruct Henc as [Hr Hn Hp Hs Ho He]. unfold get_self.
  destruct (decide (k = s)) as [->|Hk0].
  { destruct Hn as (e0 & E0 & F0 & T0 & _). rewrite E0. cbn [deref obind]. by rewrite F0, T0. }
  destruct (decide (k = s + 1)) as [->|Hk1].
  { destruct (Hp ltac:(lia)) as (e1 & E1 & F1 & T1 & _).
    rewrite E1. cbn [deref obind]. rewrite F1. cbn [ensure obind]. rewrite T1.
    rewrite ensure_true by (apply Z.leb_le; lia). cbn [obind]. f_equal. lia. }
  destruct (decide (k = s + 2)) as [->|Hk2].
  { destruct (Hs ltac:(lia)) as (e2 & E2 & F2 & T2 & L2 & D2).
    rewrite E2. cbn [deref obind]. rewrite F2. cbn [ensure obind]. rewrite T2, L2, D2.
    cbn [ensure obind].
    rewrite ensure_true by (apply andb_true_iff; split; [apply Z.eqb_eq|apply Z.leb_le]; lia).
    cbn [obind]. f_equal. lia. }
  destruct (Ho (k - s) ltac:(lia)) as (e3 & E3 & F3 & T3 & L3 & D3).
  replace (s + (k - s)) with k in E3 by lia. rewrite E3. cbn [deref obind]. rewrite F3.
  cbn [ensure obind]. rewrite T3, L3, D3. cbn [ensure obind].
  rewrite ensure_true by (apply andb_true_iff; split; [apply Z.ltb_lt|apply Z.leb_le]; lia).
  cbn [obind]. f_equal. lia.
Qed.

Lemma get_first b t s n p x : enc t s n p x -> exists b', get b t s = Ok b' /\ descr b' s n p x.
Proof. intros Henc. pose proof (enc_range _ _ _ _ _ Henc). apply get_any; [done|lia|lia]. Qed.

Lemma get_third b t s n p x : enc t s n p x -> 3 <= n -> n <> 4 -> get b t (s + 2) = Bug.
Proof.
  intros [Hr Hn Hp Hs Ho He] H3 H4. destruct (Hs H3) as (e2 & E2 & F2 & T2 & L2 & D2).
  unfold get, get_self. rewrite E2. cbn [deref obind]. rewrite F2. cbn [ensure obind].
  rewrite T2, L2, D2. cbn [ensure obind]. replace (n - 1 =? 3) with false by (symmetry; apply Z.eqb_neq; lia). done.
Qed.

(** ** Writing a block *)

(** [t'] is [t] with the link fields of the entries [s .. s+n-1] changed. *)
Definition relinked (t t' : table) (s n : Z) : Prop :=
  (forall i, ~ (s <= i < s + n) -> t' !! i = t !! i) /\
  (forall i, core <$> t' !! i = core <$> t !! i).

Lemma core_set_link ty d v e : core (set_link ty d v e) = core e.
Proof. reflexivity. Qed.

Lemma put_entry_spec (t : table) i ty d v e : t !! i = Some e -> is_free e = true ->
  put_entry t i ty d v = Ok (<[i := set_link ty d v e]> t).
Proof. intros He Hf. unfold put_entry. rewrite He. cbn [deref obind]. by rewrite Hf. Qed.

Lemma core_insert (t : table) i ty d v e j : t !! i = Some e ->
  core <$> <[i := set_link ty d v e]> t !! j = core <$> t !! j.
Proof.
  intros He. rewrite lookup_insert. case_decide; [subst|done]. rewrite He. cbn.
  by rewrite core_set_link.
Qed.

Lemma freeb_true t i : freeb t i = true -> exists e, t !! i = Some e /\ is_free e = true.
Proof. unfold freeb. destruct (t !! i); [eauto|done]. Qed.

Lemma put_off_spec m t s i n :
  (forall j, s + i <= j < s + n -> freeb t j = true) -> 3 <= i -> i + Z.of_nat m = n ->
  s + n <= 512 -> 0 <= s ->
  exists t', put_off m t (s + i - 1) i = Ok t' /\
    (forall j, i <= j < n -> entry t' (s + j) OFF (fun d v => v = true /\ d = j)) /\
    (forall j, ~ (s + i <= j < s + n) -> t' !! j = t !! j) /\
    (forall j, core <$> t' !! j = core <$> t !! j).
Proof.
  revert t i. induction m as [|m IH]; intros t i Hf Hi Hm Hn Hs; cbn [put_off].
  { exists t. split; [done|]. split; [lia|]. done. }
  replace (s + i - 1 + 1) with (s + i) by lia.
  rewrite ensure_true by (apply negb_true_iff, Z.eqb_neq; lia). cbn [obind].
  destruct (freeb_true t (s + i)) as (e & He & Hfe); [apply Hf; lia|].
  rewrite (put_entry_spec _ _ _ _ _ e) by done. cbn [obind].
  set (t1 := <[s + i := _]> t).
  assert (Hc1 : forall j, core <$> t1 !! j = core <$> t !! j) by (intros; by apply core_insert).
  destruct (IH t1 (i + 1)) as (t' & E & Hent & Hout & Hc).
  - intros j Hj. rewrite (freeb_core t) by done. apply Hf. lia.
  - lia.
  - lia.
  - done.
  - done.
  - replace (s + (i + 1) - 1) with (s + i) in E by lia. rewrite E. exists t'. split; [done|].
    split; [|split].
    + intros j Hj. destruct (decide (j = i)) as [->|]; [|apply Hent; lia].
      exists (set_link OFF i true e). rewrite Hout by lia. unfold t1. rewrite lookup_insert_eq.
      split; [done|]. split; [done|]. split; [done|]. cbn. split; [done|].
      rewrite wrap_small; [done|]. change (2 ^ 9) with 512. lia.
    + intros j Hj. rewrite Hout by lia. unfold t1. by rewrite lookup_insert_ne by lia.
    + intros j. by rewrite Hc, Hc1.
Qed.

Lemma lnk_wrap o d v : lnk o d v -> (forall x, o = Some x -> 0 <= x < 512) -> lnk o (wrap 9 d) v.
Proof.
  destruct o as [x|]; [|done]. intros [-> ->] Hx. split; [done|]. apply wrap_small.
  change (2 ^ 9) with 512. by apply Hx.
Qed.

(** [put] writes a block whose entries are free. *)
Lemma put_run_spec b t s n p x :
  self b = s -> size b = n -> lnk x (next b) (next_valid b) ->
  (n <> 1 -> lnk p (prev b) (prev_valid b)) ->
  (forall y, x = Some y -> 0 <= y < 512) -> (forall y, p = Some y -> 0 <= y < 512) ->
  0 <= s -> 1 <= n -> s + n <= 512 -> (forall i, s <= i < s + n -> freeb t i = true) ->
  (s + n < 512 -> exists e, t !! (s + n) = Some e /\ is_free e = false) ->
  exists t', put b t s = Ok t' /\ enc t' s n p x /\ relinked t t' s n.
Proof.
  intros Es En Hx Hp Hxr Hpr Hs Hn Hsn Hf Hend. unfold put. rewrite Es, En.
  rewrite ensure_true by (by apply Z.eqb_eq). cbn [obind].
  rewrite ensure_true by (apply truth_pos; lia). cbn [obind].
  destruct (freeb_true t s) as (e0 & E0 & F0); [apply Hf; lia|].
  rewrite (put_entry_spec _ _ _ _ _ e0) by done. cbn [obind].
  set (t1 := <[s := _]> t).
  assert (Hc1 : forall j, core <$> t1 !! j = core <$> t !! j) by (intros; by apply core_insert).
  assert (Hent0 : entry t1 s NEXT (lnk x)).
  { exists (set_link NEXT (next b) (next_valid b) e0). unfold t1. rewrite lookup_insert_eq.
    split; [done|]. split; [done|]. split; [done|]. by apply lnk_wrap. }
  destruct (Z.eqb_spec n 1) as [->|Hn1].
  { exists t1. split; [done|]. split; [constructor; try lia|].
    - done.
    - intros Hlt. destruct (Hend Hlt) as (e & He & Hfe). exists e. unfold t1.
      rewrite lookup_insert_ne by lia. done.
    - split; [|done]. intros i Hi. unfold t1. by rewrite lookup_insert_ne by lia. }
  rewrite ensure_true by (apply negb_true_iff, Z.eqb_neq; lia). cbn [obind].
  destruct (freeb_true t1 (s + 1)) as (e1 & E1 & F1);
    [rewrite (freeb_core t) by done; apply Hf; lia|].
  rewrite (put_entry_spec _ _ _ _ _ e1) by done. cbn [obind].
  set (t2 := <[s + 1 := _]> t1).
  assert (Hc2 : forall j, core <$> t2 !! j = core <$> t !! j).
  { intros j. rewrite <- Hc1. by apply core_insert. }
  assert (Hent1 : entry t2 (s + 1) PREV (lnk p)).
  { exists (set_link PREV (prev b) (prev_valid b) e1). unfold t2. rewrite lookup_insert_eq.
    split; [done|]. split; [done|]. split; [done|]. apply lnk_wrap; [by apply Hp|done]. }
  assert (Hent0' : entry t2 s NEXT (lnk x)).
  { destruct Hent0 as (e & He & H). exists e. unfold t2. by rewrite lookup_insert_ne by lia. }
  destruct (Z.eqb_spec n 2) as [->|Hn2].
  { exists t2. split; [done|]. split; [constructor; try lia|].
    - done.
    - done.
    - intros Hlt. destruct (Hend Hlt) as (e & He & Hfe). exists e. unfold t2, t1.
      rewrite !lookup_insert_ne by lia. done.
    - split; [|done]. intros i Hi. unfold t2, t1. by rewrite !lookup_insert_ne by lia. }
  rewrite ensure_true by (apply negb_true_iff, Z.eqb_neq; lia). cbn [obind].
  destruct (freeb_true t2 (s + 2)) as (e2 & E2 & F2);
    [rewrite (freeb_core t) by done; apply Hf; lia|].
  rewrite (put_entry_spec _ _ _ _ _ e2) by done. cbn [obind].
  set (t3 := <[s + 2 := _]> t2).
  assert (Hc3 : forall j, core <$> t3 !! j = core <$> t !! j).
  { intros j. rewrite <- Hc2. by apply core_insert. }
  destruct (put_off_spec (Z.to_nat (n - 3)) t3 s 3 n) as (t4 & E4 & Hoff & Hout & Hc4);
    [|lia|lia|lia|lia|].
  { intros j Hj. rewrite (freeb_core t) by done. apply Hf. lia. }
  replace (s + 3 - 1) with (s + 2) in E4 by lia. rewrite E4. cbn [obind].
  assert (Hend4 : s + n < 512 -> exists e, t4 !! (s + n) = Some e /\ is_free e = false).
  { intros Hlt. destruct (Hend Hlt) as (e & He & Hfe). exists e. rewrite Hout by lia.
    unfold t3, t2, t1. rewrite !lookup_insert_ne by lia. done. }
  rewrite run_ends_true by (done || lia). cbn [ensure obind]. exists t4. split; [done|].
  split; [constructor|split].
  - lia.
  - destruct Hent0' as (e & He & H). exists e. rewrite Hout by lia. unfold t3.
    by rewrite lookup_insert_ne by lia.
  - intros _. destruct Hent1 as (e & He & H). exists e. rewrite Hout by lia. unfold t3.
    by rewrite lookup_insert_ne by lia.
  - intros _. exists (set_link SIZE (n - 1) true e2). rewrite Hout by lia. unfold t3.
    rewrite lookup_insert_eq. split; [done|]. split; [done|]. split; [done|]. cbn.
    split; [done|]. apply wrap_small. change (2 ^ 9) with 512. lia.
  - intros i Hi. by apply Hoff.
  - done.
  - intros i Hi. rewrite Hout by lia. unfold t3, t2, t1. by rewrite !lookup_insert_ne by lia.
  - intros i. by rewrite Hc4.
Qed.

(** ** The list of blocks *)

Abbreviation blocks := (list (Z * Z)).

(** [chain t p L x]: the blocks [L] are linked in [t]; [p] stands before the first and [x] after the
    last. *)
Fixpoint chain (t : table) (p : option Z) (L : blocks) (x : option Z) : Prop :=
  match L with
  | [] => True
  | (s, n) :: L => enc t s n p (hd_or L x) /\ chain t (Some s) L x
  end.

Definition pages (L : blocks) (i : Z) : Prop := exists s n, (s, n) ∈ L /\ s <= i < s + n.

Definition apart (a b : Z * Z) : Prop := a.1 + a.2 <= b.1 \/ b.1 + b.2 <= a.1.

Fixpoint disj (L : blocks) : Prop :=
  match L with [] => True | b :: L => (forall c, c ∈ L -> apart b c) /\ disj L end.

Lemma apart_sym a b : apart a b -> apart b a.
Proof. unfold apart. tauto. Qed.

Lemma disj_app A B : disj (A ++ B) <->
  disj A /\ disj B /\ (forall a b, a ∈ A -> b ∈ B -> apart a b).
Proof.
  induction A as [|a A IH]; cbn.
  - split; [|tauto]. intros H. split; [done|]. split; [done|]. intros ? ? Ha.
    by apply elem_of_nil in Ha.
  - rewrite IH. split.
    + intros [H1 (H2 & H3 & H4)]. split; [split; [|done]|split; [done|]].
      * intros c Hc. apply H1, elem_of_app. by left.
      * intros x b Hx Hb. apply elem_of_cons in Hx as [->|Hx]; [|by apply H4].
        apply H1, elem_of_app. by right.
    + intros [[H1 H2] [H3 H4]]. split.
      * intros c Hc. apply elem_of_app in Hc as [Hc|Hc]; [by apply H1|]. apply H4; [by left|done].
      * split; [done|]. split; [done|]. intros x b Hx Hb. apply H4; [by right|done].
Qed.

Lemma chain_app t p A B x : chain t p (A ++ B) x <->
  chain t p A (hd_or B x) /\ chain t (last_or p A) B x.
Proof.
  revert p. induction A as [|[s n] A IH]; intros p; cbn [app chain].
  - unfold last_or. cbn. tauto.
  - rewrite last_or_cons, hd_or_app, IH. tauto.
Qed.

Lemma chain_enc t p A s n B x : chain t p (A ++ (s, n) :: B) x ->
  enc t s n (last_or p A) (hd_or B x).
Proof. rewrite chain_app. cbn. tauto. Qed.

Lemma chain_in t p L x s n : chain t p L x -> (s, n) ∈ L ->
  exists p' x', enc t s n p' x'.
Proof.
  intros Hc Hin. apply list_elem_of_split in Hin as (A & B & ->). apply chain_enc in Hc. eauto.
Qed.

Lemma chain_range t p L x s n : chain t p L x -> (s, n) ∈ L -> 0 <= s /\ 1 <= n /\ s + n <= 512.
Proof. intros Hc Hin. destruct (chain_in _ _ _ _ _ _ Hc Hin) as (? & ? & He). apply He. Qed.

Lemma enc_frame (t t' : table) s n p x :
  (forall i, s <= i < s + n -> t' !! i = t !! i) ->
  (s + n < 512 -> freeb t' (s + n) = freeb t (s + n) /\ is_Some (t' !! (s + n))) ->
  enc t s n p x -> enc t' s n p x.
Proof.
  intros Hf He [Hr H0 H1 H2 H3 H4].
  assert (Hent : forall i ty P, s <= i < s + n -> entry t i ty P -> entry t' i ty P).
  { intros i ty P Hi (e & E & H). exists e. by rewrite Hf. }
  constructor; [done|apply Hent; [lia|done]| | | |].
  - intros. apply Hent; [lia|auto].
  - intros. apply Hent; [lia|auto].
  - intros. apply Hent; [lia|auto].
  - intros Hlt. destruct (H4 Hlt) as (e & E & Hfe). destruct (He Hlt) as [He1 [e' E']].
    exists e'. split; [done|]. unfold freeb in He1. rewrite E, E' in He1. congruence.
Qed.

Lemma core_is_Some (t t' : table) i : core <$> t' !! i = core <$> t !! i -> is_Some (t !! i) ->
  is_Some (t' !! i).
Proof. intros H [e E]. rewrite E in H. destruct (t' !! i); [eauto|done]. Qed.

Lemma chain_frame (t t' : table) p L x :
  (forall i, pages L i -> t' !! i = t !! i) -> (forall i, core <$> t' !! i = core <$> t !! i) ->
  chain t p L x -> chain t' p L x.
Proof.
  intros Hf Hc. revert p. induction L as [|[s n] L IH]; intros p Hch; cbn [chain] in *; [done|].
  destruct Hch as [He Hch]. split.
  - apply (enc_frame t); [|intros Hlt; split; [by apply freeb_core|]|done].
    + intros i Hi. apply Hf. exists s, n. split; [by left|done].
    + apply (core_is_Some t); [done|]. destruct (enc_end _ _ _ _ _ He Hlt) as (e & E & _). eauto.
  - apply IH; [|done]. intros i (s' & n' & Hin & Hi). apply Hf. exists s', n'.
    split; [by right|done].
Qed.

(** A block does not depend on what stands before it when it has one page. *)
Lemma enc_one t s p p' x : enc t s 1 p x -> enc t s 1 p' x.
Proof. intros [Hr H0 H1 H2 H3 H4]. constructor; try done; lia. Qed.

Lemma entries_free t s n p x i : enc t s n p x -> s <= i < s + n -> freeb t i = true.
Proof.
  intros [Hr H0 H1 H2 H3 H4] Hi.
  assert (Hent : forall j ty P, entry t j ty P -> freeb t j = true).
  { intros j ty P (e & E & F & _). unfold freeb. by rewrite E. }
  destruct (decide (i = s)) as [->|]; [eauto|].
  destruct (decide (i = s + 1)) as [->|]; [eapply Hent, H1; lia|].
  destruct (decide (i = s + 2)) as [->|]; [eapply Hent, H2; lia|].
  replace i with (s + (i - s)) by lia. eapply Hent, H3. lia.
Qed.

(** Redirecting what stands after the last block of a chain. *)
Lemma chain_fix_last t p A s n x b y v x' :
  chain t p (A ++ [(s, n)]) x -> disj (A ++ [(s, n)]) ->
  descr b s n (last_or p A) x -> lnk x' y v -> (forall z, x' = Some z -> 0 <= z < 512) ->
  (forall z, p = Some z -> 0 <= z < 512) ->
  exists t', put (set_next y v b) t s = Ok t' /\ chain t' p (A ++ [(s, n)]) x' /\ relinked t t' s n.
Proof.
  intros Hc Hd [D1 D2 D3 D4] Hl Hx Hp. pose proof (chain_enc _ _ _ _ _ _ _ Hc) as He.
  pose proof (enc_range _ _ _ _ _ He) as Hr.
  destruct (put_run_spec (set_next y v b) t s n (last_or p A) x') as (t' & E & He' & Hrel).
  - done.
  - done.
  - done.
  - intros Hn. rewrite (proj2 (Z.eqb_neq n 1)) in D4 by done. done.
  - done.
  - intros z Hz. destruct A as [|[a m] A _] using rev_ind; [by apply Hp|].
    rewrite last_or_snoc in Hz. injection Hz as <-.
    destruct (chain_range _ _ _ _ a m Hc) as (? & ? & ?); [|lia].
    rewrite <- app_assoc. apply elem_of_app. right. by left.
  - lia.
  - lia.
  - lia.
  - intros i Hi. by eapply entries_free.
  - apply He.
  - exists t'. split; [done|]. split; [|done]. apply chain_app. split; [|by split].
    apply chain_app in Hc as [Hc _]. apply disj_app in Hd as (_ & _ & Hd). destruct Hrel as [Hr1 Hr2].
    cbn [hd_or] in *. apply (chain_frame t); [|done|done]. intros i (a & m & Hin & Hi).
    apply Hr1. destruct (Hd (a, m) (s, n) Hin ltac:(by left)); cbn in *; lia.
Qed.

(** Redirecting what stands before the first block. *)
Lemma chain_fix_first t p s n B x b y v p' :
  chain t p ((s, n) :: B) x -> disj ((s, n) :: B) -> n <> 1 ->
  descr b s n p (hd_or B x) -> lnk p' y v -> (forall z, p' = Some z -> 0 <= z < 512) ->
  (forall z, x = Some z -> 0 <= z < 512) ->
  exists t', put (set_prev y v b) t s = Ok t' /\ chain t' p' ((s, n) :: B) x /\ relinked t t' s n.
Proof.
  intros [He Hc] [Hd _] Hn [D1 D2 D3 D4] Hl Hp Hx. pose proof (enc_range _ _ _ _ _ He) as Hr.
  destruct (put_run_spec (set_prev y v b) t s n p' (hd_or B x)) as (t' & E & He' & Hrel).
  - done.
  - done.
  - done.
  - done.
  - intros z Hz. destruct B as [|[a m] B]; [by apply Hx|]. cbn in Hz. injection Hz as <-.
    destruct (chain_range _ _ _ _ a m Hc) as (? & ? & ?); [by left|lia].
  - done.
  - lia.
  - lia.
  - lia.
  - intros i Hi. by eapply entries_free.
  - apply He.
  - exists t'. split; [done|]. split; [|done]. split; [done|]. destruct Hrel as [Hr1 Hr2].
    apply (chain_frame t); [|done|done]. intros i (a & m & Hin & Hi).
    apply Hr1. destruct (Hd (a, m) Hin); cbn in *; lia.
Qed.

Lemma chain_one t p p' s B x : chain t p ((s, 1) :: B) x -> chain t p' ((s, 1) :: B) x.
Proof. intros [He Hc]. split; [by eapply enc_one|done]. Qed.

(** ** The size of the largest block *)

Definition largest (L : blocks) : Z := match last L with Some (_, n) => n | None => 0 end.

Lemma largest_snoc L s n : largest (L ++ [(s, n)]) = n.
Proof. unfold largest. by rewrite last_snoc. Qed.

Lemma largest_app_cons A b B : largest (A ++ b :: B) = largest (b :: B).
Proof. unfold largest. rewrite last_app_cons. done. Qed.

Definition rem_of (m : Z) : Z :=
  if 64 + 56 <=? m then wrap 4 (7 + (m - 64) / 56)
  else match bit_length 16 m 0 with Ok r => wrap 4 r | _ => 0 end.

Definition max_of (r : Z) : Z :=
  if r <? 8 then if truth r then w16 (Z.shiftl 1 (r - 1)) else 0 else w16 (64 + 56 * (r - 7)).

Lemma get_max_size_eq pdt : get_max_size pdt = max_of (remain pdt).
Proof. reflexivity. Qed.

(** The facts about the rounding are finite: they are checked for every size. *)
Definition merge_ok (M m : Z) : bool := rem_of (Z.max m (max_of (rem_of M))) =? rem_of M.
Definition rounding_ok (M : Z) : bool :=
  (max_of (rem_of M) <=? M) && (Bool.eqb (max_of (rem_of M) =? 0) (M =? 0)) &&
  (0 <=? max_of (rem_of M)) && forallb (merge_ok M) (seqZ 0 (M + 1)) &&
  (match bit_length 16 M 0 with Ok _ => true | _ => false end).

Lemma rounding : forallb rounding_ok (seqZ 0 513) = true.
Proof. vm_compute. reflexivity. Qed.

Lemma in_seqZ_forallb P n x : forallb P (seqZ 0 n) = true -> 0 <= x < n -> P x = true.
Proof.
  intros H Hx. rewrite forallb_forall in H. apply H, list_elem_of_In, elem_of_seqZ. lia.
Qed.

Lemma rounding_at M : 0 <= M <= 512 ->
  max_of (rem_of M) <= M /\ (max_of (rem_of M) = 0 <-> M = 0) /\ 0 <= max_of (rem_of M) /\
  (forall m, 0 <= m <= M -> rem_of (Z.max m (max_of (rem_of M))) = rem_of M) /\
  (exists r, bit_length 16 M 0 = Ok r).
Proof.
  intros HM. pose proof (in_seqZ_forallb _ _ M rounding ltac:(lia)) as H.
  unfold rounding_ok in H. bool_norm.
  split; [done|]. split; [|split; [done|split]].
  - match goal with H : Bool.eqb _ _ = true |- _ => apply eqb_prop in H; rename H into He end.
    rewrite <- !Z.eqb_eq. by rewrite He.
  - intros m Hm. match goal with H : forallb _ _ = true |- _ =>
      apply (in_seqZ_forallb _ _ m) in H; [|lia] end.
    unfold merge_ok in *. by bool_norm.
  - destruct (bit_length 16 M 0); [eauto|done|done].
Qed.

Lemma put_max_size_spec pdt m : 0 <= m <= 512 -> put_max_size pdt m = Ok (set_remain (rem_of m) pdt).
Proof.
  intros Hm. unfold put_max_size, rem_of. destruct (_ <=? m); [done|].
  destruct (rounding_at m Hm) as (_ & _ & _ & _ & r & ->). done.
Qed.

(** ** The invariant of the list *)

Definition by_size (a b : Z * Z) : Prop := a.2 <= b.2.

Record listed (pdt : PDTE) (t : table) (L : blocks) : Prop := {
  ls_chain : chain t None L None;
  ls_sorted : StronglySorted by_size L;
  ls_disj : disj L;
  ls_head : forall s n L', L = (s, n) :: L' -> head pdt = s;
  ls_remain : remain pdt = rem_of (largest L)
}.

(** Only the list head and the rounded size may differ. *)
Definition same_pdt (p p' : PDTE) : Prop := set_head 0 (set_remain 0 p) = set_head 0 (set_remain 0 p').

Lemma largest_range pdt t L : listed pdt t L -> 0 <= largest L <= 512.
Proof.
  intros Hl. unfold largest. destruct L as [|[s n] L _] using rev_ind; [cbn; lia|].
  rewrite last_snoc. destruct (chain_range _ _ _ _ s n (ls_chain _ _ _ Hl)); [|lia].
  apply elem_of_app. right. by left.
Qed.

Lemma largest_max pdt t L s n : listed pdt t L -> (s, n) ∈ L -> n <= largest L.
Proof.
  intros Hl Hin. unfold largest. destruct L as [|[s' n'] L _] using rev_ind;
    [by apply elem_of_nil in Hin|].
  rewrite last_snoc. pose proof (ls_sorted _ _ _ Hl) as Hs. apply ssorted_app in Hs as (_ & _ & Hs).
  apply elem_of_app in Hin as [Hin|Hin].
  - apply (Hs (s, n) (s', n') Hin). by left.
  - apply list_elem_of_singleton in Hin. injection Hin as <- <-. done.
Qed.

Lemma max_size_zero pdt t L : listed pdt t L -> get_max_size pdt = 0 <-> L = [].
Proof.
  intros Hl. rewrite get_max_size_eq, (ls_remain _ _ _ Hl).
  destruct (rounding_at _ (largest_range _ _ _ Hl)) as (_ & Hz & _). rewrite Hz.
  destruct L as [|[s n] L]; [done|]. split; [|done]. intros H0.
  pose proof (largest_max _ _ _ s n Hl ltac:(by left)) as Hm.
  destruct (chain_range _ _ _ _ s n (ls_chain _ _ _ Hl)) as (? & ? & ?); [by left|]. lia.
Qed.

(** A description that also knows the block before it. *)
Definition full (b : BLOCK) (s n : Z) (p x : option Z) : Prop :=
  self b = s /\ size b = n /\ lnk x (next b) (next_valid b) /\ lnk p (prev b) (prev_valid b).

Lemma full_descr b s n p x : full b s n p x -> n <> 1 -> descr b s n p x.
Proof. intros (H1 & H2 & H3 & H4) Hn. constructor; try done. by rewrite (proj2 (Z.eqb_neq n 1)). Qed.

Lemma sorted_del A (b : Z * Z) B : StronglySorted by_size (A ++ b :: B) ->
  StronglySorted by_size (A ++ B).
Proof.
  rewrite !ssorted_app. intros (H1 & H2 & H3). split; [done|]. split; [by inversion H2|].
  intros x y Hx Hy. apply H3; [done|by right].
Qed.

Lemma disj_del A b B : disj (A ++ b :: B) -> disj (A ++ B) /\ (forall c, c ∈ A ++ B -> apart b c).
Proof.
  rewrite !disj_app. cbn. intros (H1 & [H2 H3] & H4). split.
  - split; [done|]. split; [done|]. intros x y Hx Hy. apply H4; [done|by right].
  - intros c Hc. apply elem_of_app in Hc as [Hc|Hc]; [|by apply H2].
    apply apart_sym, H4; [done|by left].
Qed.

Lemma self_unique A s n B s' n' : disj (A ++ (s, n) :: B) -> 1 <= n -> 1 <= n' ->
  (s', n') ∈ A ++ B -> s' <> s.
Proof. intros [_ H]%disj_del Hn Hn' Hin ->. destruct (H _ Hin); cbn in *; lia. Qed.

Lemma last_or_range t p L x z : chain t p L x -> last_or None L = Some z -> 0 <= z < 512.
Proof.
  intros Hc Hz. destruct L as [|[a m] L _] using rev_ind; [done|]. rewrite last_or_snoc in Hz.
  injection Hz as <-. destruct (chain_range _ _ _ _ a m Hc); [|lia]. apply elem_of_app. right.
  by left.
Qed.

Lemma hd_or_range t p L x z : chain t p L x -> hd_or L None = Some z -> 0 <= z < 512.
Proof.
  intros Hc Hz. destruct L as [|[a m] L]; [done|]. injection Hz as <-.
  destruct (chain_range _ _ _ _ a m Hc); [by left|lia].
Qed.

Lemma relinked_trans_core t1 t2 t3 s n s' n' : relinked t1 t2 s n -> relinked t2 t3 s' n' ->
  forall i, core <$> t3 !! i = core <$> t1 !! i.
Proof. intros [_ H1] [_ H2] i. by rewrite H2. Qed.

(** The first half of [erase]: what follows the block before, or the head. *)
Lemma erase_before pdt t A s n B b :
  listed pdt t (A ++ (s, n) :: B) -> full b s n (last_or None A) (hd_or B None) ->
  exists pdt' t',
    unlink_before pdt t b = Ok (pdt', t', largest A) /\
    chain t' None A (hd_or B None) /\
    (forall i, ~ pages A i -> t' !! i = t !! i) /\ (forall i, core <$> t' !! i = core <$> t !! i) /\
    same_pdt pdt pdt' /\ remain pdt' = remain pdt /\
    (A = [] -> forall z, hd_or B None = Some z -> head pdt' = z) /\ (A <> [] -> pdt' = pdt).
Proof.
  intros Hl (F1 & F2 & F3 & F4). unfold unlink_before. pose proof (ls_chain _ _ _ Hl) as Hc.
  pose proof (ls_disj _ _ _ Hl) as Hd. pose proof (chain_enc _ _ _ _ _ _ _ Hc) as He.
  apply chain_app in Hc as [HcA HcB]. cbn [hd_or chain] in HcA, HcB. destruct HcB as [_ HcB].
  destruct A as [|[ps pn] A _] using rev_ind.
  - change (prev_valid b = false) in F4. rewrite F4, F1.
    rewrite (ls_head _ _ _ Hl s n B) by done. rewrite Z.eqb_refl. cbn [ensure obind].
    eexists _, _. split; [done|]. split; [done|]. split; [done|]. split; [done|].
    split; [done|]. split; [done|]. split; [|done]. intros _ z Hz. cbn [head set_head].
    rewrite Hz in F3. destruct F3 as [_ ->]. apply wrap_small. change (2 ^ 9) with 512.
    by eapply hd_or_range.
  - rewrite last_or_snoc in F4. destruct F4 as [-> ->].
    pose proof (chain_enc _ _ _ _ _ _ _ HcA) as Hep.
    destruct (get_first no_block t ps pn _ _ Hep) as (pb & Eg & Hp). rewrite Eg. cbn [obind].
    destruct Hp as [P1 P2 P3 P4]. cbn [hd_or] in P3. destruct P3 as [P3 P3'].
    rewrite P3, P3', F1, Z.eqb_refl. cbn [andb ensure obind].
    destruct (chain_fix_last t None A ps pn (Some s) pb (next b) (next_valid b) (hd_or B None))
      as (t' & E & Hc' & [Hr1 Hr2]).
    + done.
    + rewrite disj_app in Hd. by destruct Hd as (? & _).
    + constructor; [done|done|by split|done].
    + done.
    + intros z Hz. by eapply hd_or_range.
    + done.
    + assert (Hself : self (set_next (next b) (next_valid b) pb) = ps) by done.
      rewrite Hself, E. cbn [obind]. eexists _, t'. rewrite largest_snoc.
      split; [by cbn; rewrite P2|]. split; [done|]. split.
      { intros i Hi. apply Hr1. intros Hin. apply Hi. exists ps, pn. split; [|done].
        apply elem_of_app. right. by left. }
      split; [done|]. split; [done|]. split; [done|]. split; [|done]. by destruct A.
Qed.

Lemma erase_block_spec pdt t A s n B b :
  listed pdt t (A ++ (s, n) :: B) -> full b s n (last_or None A) (hd_or B None) ->
  exists pdt' t', erase pdt t b = Ok (pdt', t') /\ listed pdt' t' (A ++ B) /\
    (forall i, ~ pages (A ++ B) i -> t' !! i = t !! i) /\
    (forall i, core <$> t' !! i = core <$> t !! i) /\ same_pdt pdt pdt'.
Proof.
  intros Hl Hf. destruct (erase_before pdt t A s n B b Hl Hf) as
    (pdt1 & t1 & E1 & HcA & Hout1 & Hcore1 & Hsame1 & Hrem1 & Hhead1 & Hpdt1).
  unfold erase. rewrite E1. cbn [obind]. clear E1.
  destruct Hf as (F1 & F2 & F3 & F4).
  pose proof (ls_chain _ _ _ Hl) as Hc. pose proof (chain_enc _ _ _ _ _ _ _ Hc) as He.
  pose proof (largest_range _ _ _ Hl) as Hlr. pose proof (enc_range _ _ _ _ _ He) as Hsn.
  assert (HcA0 : chain t None A (Some s)) by (apply chain_app in Hc as [? _]; done).
  assert (HcB0 : chain t (Some s) B None) by (apply chain_app in Hc as [_ [_ ?]]; done).
  destruct (disj_del _ _ _ (ls_disj _ _ _ Hl)) as [Hd Hap].
  assert (HdB : disj B) by (apply disj_app in Hd; tauto).
  assert (HdAB : forall a c, a ∈ A -> c ∈ B -> apart a c) by (apply disj_app in Hd; tauto).
  assert (HcB : chain t1 (Some s) B None).
  { apply (chain_frame t); [|done|done]. intros i (s1 & n1 & Hin1 & Hi1). apply Hout1.
    intros (s2 & n2 & Hin2 & Hi2). destruct (HdAB _ _ Hin2 Hin1); cbn in *; lia. }
  assert (HlrA : 0 <= largest A <= 512).
  { unfold largest. destruct A as [|[a m] A _] using rev_ind; [cbn; lia|]. rewrite last_snoc.
    destruct (chain_range _ _ _ _ a m HcA0); [|lia]. apply elem_of_app. right. by left. }
  (* the second half *)
  assert (Hsecond : exists t2 m,
    unlink_after pdt1 t1 b (largest A) = Ok (t2, m) /\
    chain t2 (last_or None A) B None /\ (forall i, ~ pages B i -> t2 !! i = t1 !! i) /\
    (forall i, core <$> t2 !! i = core <$> t1 !! i) /\
    0 <= m <= 512 /\ rem_of m = rem_of (largest (A ++ B))).
  { unfold unlink_after. destruct B as [|[ns nn] B].
    - change (next_valid b = false) in F3. rewrite F3. exists t1, (largest A).
      split; [done|]. split; [done|]. split; [done|]. split; [done|]. split; [done|].
      by rewrite app_nil_r.
    - destruct F3 as [-> ->]. pose proof HcB as [Hen HcB']. cbn [hd_or] in Hen.
      destruct (get_first no_block t1 ns nn _ _ Hen) as (nb & Eg & Hn). rewrite Eg. cbn [obind].
      pose proof Hn as [N1 N2 N3 N4].
      assert (Hmax : largest (A ++ (ns, nn) :: B) = largest (A ++ (s, n) :: (ns, nn) :: B)).
      { by rewrite !largest_app_cons. }
      assert (Hm : 0 <= Z.max nn (get_max_size pdt1) <= 512 /\
        rem_of (Z.max nn (get_max_size pdt1)) = rem_of (largest (A ++ (ns, nn) :: B))).
      { rewrite Hmax, get_max_size_eq, Hrem1, (ls_remain _ _ _ Hl).
        assert (Hnn : nn <= largest (A ++ (s, n) :: (ns, nn) :: B)).
        { eapply largest_max; [done|]. apply elem_of_app. right. right. by left. }
        pose proof (enc_range _ _ _ _ _ Hen).
        destruct (rounding_at _ Hlr) as (R1 & R2 & R3 & R4 & _).
        split; [lia|]. apply R4. lia. }
      rewrite N2. destruct (Z.ltb_spec 1 nn) as [Hlt|Hge].
      + rewrite (proj2 (Z.eqb_neq nn 1)) in N4 by lia. cbn in N4. destruct N4 as [N4 N4'].
        rewrite N4, N4', F1, Z.eqb_refl. cbn [andb ensure obind].
        destruct (chain_fix_first t1 (Some s) ns nn B None nb (prev b) (prev_valid b) (last_or None A))
          as (t2 & E & Hc2 & [Hr1 Hr2]).
        * by split.
        * done.
        * lia.
        * done.
        * done.
        * intros z Hz. by apply (last_or_range _ _ _ _ _ HcA).
        * done.
        * assert (Hself : self (set_prev (prev b) (prev_valid b) nb) = ns) by done.
          rewrite Hself, E. cbn [obind]. exists t2, (Z.max nn (get_max_size pdt1)).
          split; [done|]. split; [done|]. split; [|by split].
          intros i Hi. apply Hr1. intros Hin. apply Hi. exists ns, nn. split; [by left|done].
      + pose proof (enc_range _ _ _ _ _ Hen). assert (nn = 1) as -> by lia.
        cbn [obind]. exists t1, (Z.max 1 (get_max_size pdt1)). split; [done|].
        split; [by eapply chain_one|]. split; [done|]. split; [done|]. done. }
  destruct Hsecond as (t2 & m & E2 & HcB2 & Hout2 & Hcore2 & Hm & Hrem). rewrite E2. cbn [obind].
  rewrite put_max_size_spec by done. cbn [obind]. eexists _, t2. split; [done|].
  assert (Hcore : forall i, core <$> t2 !! i = core <$> t !! i) by (intros; by rewrite Hcore2).
  split; [|split; [|split; [done|]]].
  - constructor.
    + apply chain_app. split; [|done]. apply (chain_frame t1); [|done|done].
      intros i (s1 & n1 & Hin1 & Hi1). apply Hout2. intros (s2 & n2 & Hin2 & Hi2).
      destruct (HdAB _ _ Hin1 Hin2); cbn in *; lia.
    + by eapply sorted_del, ls_sorted.
    + done.
    + intros s' n' L' HL. cbn [head set_remain]. destruct A as [|[a k] A].
      * apply Hhead1; [done|]. cbn in HL. by rewrite HL.
      * rewrite Hpdt1 by done. cbn in HL. injection HL as <- <- _.
        by eapply (ls_head _ _ _ Hl).
    + cbn [remain set_remain]. done.
  - intros i Hi. rewrite Hout2, Hout1; [done| |].
    + intros (s1 & n1 & Hin & Hi1). apply Hi. exists s1, n1. split; [|done]. apply elem_of_app.
      by left.
    + intros (s1 & n1 & Hin & Hi1). apply Hi. exists s1, n1. split; [|done]. apply elem_of_app.
      by right.
  - unfold same_pdt in *. by rewrite Hsame1.
Qed.

(** [resolve_prior] completes the description of a block that was read from the table. *)
Lemma length_blocks t p L x : chain t p L x -> disj L -> (length L <= 512)%nat.
Proof.
  intros Hc Hd.
  assert (Hnd : NoDup L.*1).
  { clear -Hc Hd. assert (Hr : forall s n, (s, n) ∈ L -> 1 <= n)
      by (intros s n Hin; destruct (chain_range _ _ _ _ s n Hc Hin) as (? & ? & ?); lia).
    clear Hc. induction L as [|[s n] L IH]; cbn; [constructor|]. destruct Hd as [Hd1 Hd2].
    constructor; [|apply IH; [done|intros; eapply Hr; by right]].
    intros Hin. apply list_elem_of_fmap in Hin as ([s' n'] & E & Hin). cbn in E. subst s'.
    pose proof (Hr s n ltac:(by left)). pose proof (Hr s n' ltac:(by right)).
    destruct (Hd1 _ Hin); cbn in *; lia. }
  assert (Hsub : list_to_set (C:=gset Z) L.*1 ⊆ list_to_set (seqZ 0 512)).
  { intros s Hs. apply elem_of_list_to_set in Hs. apply list_elem_of_fmap in Hs as ([s' n'] & -> & Hin).
    apply elem_of_list_to_set, elem_of_seqZ. destruct (chain_range _ _ _ _ s' n' Hc Hin). cbn. lia. }
  apply subseteq_size in Hsub. rewrite !size_list_to_set in Hsub by (done || apply NoDup_seqZ).
  rewrite length_seqZ, length_fmap in Hsub. lia.
Qed.

Lemma resolve_loop_spec t A s n B pb b fuel p0 :
  chain t p0 (A ++ (s, n) :: B) None -> A <> [] -> disj (A ++ (s, n) :: B) ->
  (forall a m, (a, m) ∈ A -> m = 1) -> self b = s -> 1 <= n ->
  Some (next pb) = hd_or A None -> (length A <= fuel)%nat ->
  exists z, last_or None A = Some z /\ resolve_loop fuel t pb b = Ok (set_prev z true b).
Proof.
  revert pb p0 fuel. induction A as [|[a m] A IH]; intros pb p0 fuel Hc Hne Hd Hone Hb Hn Hnext Hfuel;
    [done|].
  destruct fuel as [|fuel]; [cbn in Hfuel; lia|]. cbn [resolve_loop].
  pose proof Hc as [Hea HcA]. cbn [hd_or] in Hnext. injection Hnext as Hnext. rewrite Hnext.
  destruct (get_first pb t a m _ _ Hea) as (pb' & Eg & [P1 P2 P3 _]). rewrite Eg. cbn [obind].
  rewrite (Hone a m ltac:(by left)) in P2. rewrite P2. cbn [Z.eqb Pos.eqb ensure obind].
  rewrite last_or_cons. destruct A as [|[a2 m2] A].
  - cbn [app hd_or] in P3. destruct P3 as [P3 P3']. rewrite P3, P3', Hb, Z.eqb_refl. cbn [andb].
    exists a. split; [done|]. by rewrite P1.
  - cbn [app hd_or] in P3. destruct P3 as [P3 P3']. rewrite P3, P3', Hb.
    assert (a2 <> s).
    { apply (self_unique ((a, m) :: (a2, m2) :: A) s n B a2 m2 Hd Hn).
      - rewrite (Hone a2 m2); [done|right; by left].
      - cbn. right. by left. }
    replace (a2 =? s) with false by (symmetry; by apply Z.eqb_neq). cbn [andb].
    destruct (IH pb' (Some a) fuel) as (z & Hz & E).
    + done.
    + done.
    + by destruct Hd.
    + intros a' m' Hin. apply (Hone a' m'). by right.
    + done.
    + done.
    + cbn. by rewrite P3'.
    + cbn in *. lia.
    + exists z. split; [|done]. rewrite last_or_cons in Hz |- *. done.
Qed.

Lemma resolve_prior_spec pdt t A s n B b :
  listed pdt t (A ++ (s, n) :: B) -> descr b s n (last_or None A) (hd_or B None) ->
  exists b', resolve_prior pdt t b = Ok b' /\ full b' s n (last_or None A) (hd_or B None).
Proof.
  intros Hl [D1 D2 D3 D4]. pose proof (ls_chain _ _ _ Hl) as Hc.
  pose proof (chain_enc _ _ _ _ _ _ _ Hc) as He. pose proof (enc_range _ _ _ _ _ He) as Hr.
  unfold resolve_prior. rewrite D1, D2.
  rewrite ensure_true by (apply truth_pos; lia). cbn [obind].
  rewrite ensure_true.
  2: { unfold truth. apply negb_true_iff, Z.eqb_neq. rewrite (max_size_zero _ _ _ Hl).
       by destruct A. }
  cbn [obind]. destruct A as [|[a m] A].
  { rewrite (ls_head _ _ _ Hl s n B) by done. rewrite Z.eqb_refl.
    assert (Hpv : prev_valid b = false) by (by destruct (n =? 1)).
    rewrite Hpv. cbn [negb ensure obind]. exists b. split; [done|]. by split. }
  assert (Hhd : head pdt = a) by (by eapply (ls_head _ _ _ Hl)).
  assert (Hm : 1 <= m) by (destruct (chain_range _ _ _ _ a m Hc); [by left|lia]).
  assert (Hne : a <> s).
  { apply (self_unique ((a, m) :: A) s n B a m (ls_disj _ _ _ Hl)); [lia|done|by left]. }
  rewrite Hhd. replace (a =? s) with false by (symmetry; by apply Z.eqb_neq).
  destruct (Z.ltb_spec 1 n) as [Hlt|Hge].
  - rewrite (proj2 (Z.eqb_neq n 1)) in D4 by lia. rewrite last_or_cons in D4 |- *.
    destruct (last_or (Some a) A) as [z|] eqn:Ez.
    + destruct D4 as [D4 D4']. rewrite D4. cbn [ensure obind]. exists b. split; [done|].
      split; [done|]. split; [done|]. split; [done|]. by split.
    + exfalso. destruct A as [|[? ?] ? _] using rev_ind; [done|by rewrite last_or_snoc in Ez].
  - assert (n = 1) as -> by lia.
    destruct (resolve_loop_spec t ((a, m) :: A) s 1 B (set_next a false no_block) b 512 None)
      as (z & Hz & E).
    + done.
    + done.
    + apply Hl.
    + intros a' m' Hin. pose proof (ls_sorted _ _ _ Hl) as Hs. apply ssorted_app in Hs as (_ & _ & Hs).
      specialize (Hs (a', m') (s, 1) Hin ltac:(by left)). unfold by_size in Hs. cbn in Hs.
      destruct (chain_range _ _ _ _ a' m' Hc); [apply elem_of_app; by left|]. lia.
    + done.
    + lia.
    + done.
    + pose proof (length_blocks _ _ _ _ Hc (ls_disj _ _ _ Hl)) as Hlen.
      rewrite length_app in Hlen. lia.
    + rewrite E. eexists. split; [done|]. rewrite Hz. split; [done|]. split; [done|].
      split; [done|]. by split.
Qed.

(** ** Inserting a block *)

(** The object [pb] describes the last block of [A] (size 0: there is none), [nb] the first of [B];
    [A ++ B] is the list. *)
Definition prev_obj (pb : BLOCK) (A B : blocks) : Prop :=
  (A = [] /\ size pb = 0) \/
  exists A0 s n, A = A0 ++ [(s, n)] /\ descr pb s n (last_or None A0) (hd_or B None).
Definition next_obj (nb : BLOCK) (A B : blocks) : Prop :=
  (B = [] /\ size nb = 0) \/
  exists s n B0, B = (s, n) :: B0 /\ descr nb s n (last_or None A) (hd_or B0 None).

Lemma order_assert t A B pb nb :
  chain t None (A ++ B) None -> StronglySorted by_size (A ++ B) -> prev_obj pb A B -> next_obj nb A B ->
  negb (truth (size pb) && truth (size nb)) || (size pb <=? size nb) = true.
Proof.
  intros Hc Hs [[-> Hp]|(A0 & ps & pn & -> & Hp)] Hn.
  - by rewrite Hp.
  - destruct Hn as [[-> Hn]|(ns & nn & B0 & -> & Hn)].
    + rewrite Hn. by rewrite andb_false_r.
    + destruct Hp as [_ -> _ _], Hn as [_ -> _ _]. apply orb_true_iff. right. apply Z.leb_le.
      apply ssorted_app in Hs as (_ & _ & Hs). apply (Hs (ps, pn) (ns, nn)); [|by left].
      apply elem_of_app. right. by left.
Qed.

Lemma shift_right_spec t b n A B pb nb fuel :
  size b = n -> chain t None (A ++ B) None -> StronglySorted by_size (A ++ B) ->
  prev_obj pb A B -> next_obj nb A B -> (forall c, c ∈ A -> c.2 <= n) -> (length B < fuel)%nat ->
  exists A' B' pb' nb', shift_right fuel t b pb nb = Ok (pb', nb') /\ A' ++ B' = A ++ B /\
    prev_obj pb' A' B' /\ next_obj nb' A' B' /\
    (forall c, c ∈ A' -> c.2 <= n) /\ (forall c, c ∈ B' -> n <= c.2).
Proof.
  intros Hb. revert A pb nb fuel. induction B as [|[s m] B IH];
    intros A pb nb fuel Hc Hs Hp Hn HA Hfuel; (destruct fuel as [|fuel]; [cbn in Hfuel; lia|]);
    cbn [shift_right]; rewrite (order_assert _ _ _ _ _ Hc Hs Hp Hn); cbn [ensure obind].
  - destruct Hn as [[_ Hn]|(? & ? & ? & ? & _)]; [|done]. rewrite Hn. cbn [truth Z.eqb negb andb].
    exists A, [], pb, nb. split; [done|]. split; [done|]. split; [done|]. split; [by left|].
    split; [done|]. intros c Hcin. by apply elem_of_nil in Hcin.
  - destruct Hn as [[? _]|(s' & m' & B0 & [= <- <- <-] & Hn)]; [done|].
    pose proof Hn as [N1 N2 N3 N4]. rewrite N2, Hb.
    assert (Hm : 0 <= s /\ 1 <= m /\ s + m <= 512).
    { eapply chain_range; [done|]. apply elem_of_app. right. by left. }
    rewrite (truth_pos m) by lia. cbn [andb].
    destruct (Z.ltb_spec m n) as [Hlt|Hge].
    + replace (A ++ (s, m) :: B) with ((A ++ [(s, m)]) ++ B) in * by (by rewrite <- app_assoc).
      assert (Hp' : prev_obj nb (A ++ [(s, m)]) B) by (right; by exists A, s, m).
      assert (HA' : forall c, c ∈ A ++ [(s, m)] -> c.2 <= n).
      { intros c Hin. apply elem_of_app in Hin as [Hin|Hin]; [by apply HA|].
        apply list_elem_of_singleton in Hin as ->. cbn. lia. }
      destruct B as [|[s2 m2] B].
      * change (next_valid nb = false) in N3. rewrite N3. cbn [negb].
        exists (A ++ [(s, m)]), [], nb, (set_size 0 nb). split; [done|]. split; [done|].
        split; [done|]. split; [by left|]. split; [done|]. intros c Hin. by apply elem_of_nil in Hin.
      * cbn [hd_or] in N3. destruct N3 as [N3 N3']. rewrite N3, N3'. cbn [negb].
        pose proof (chain_enc _ _ _ _ _ _ _ Hc) as He.
        destruct (get_first nb t s2 m2 _ _ He) as (nb' & Eg & Hd). rewrite Eg. cbn [obind].
        apply IH; [done|done|done| |done|cbn in *; lia].
        right. by exists s2, m2, B.
    + exists A, ((s, m) :: B), pb, nb. split; [done|]. split; [done|]. split; [done|].
      split; [right; by exists s, m, B|]. split; [done|]. intros c Hin.
      apply elem_of_cons in Hin as [->|Hin]; [done|].
      apply ssorted_app in Hs as (_ & Hs & _). inversion Hs as [|? ? _ Hf]; subst.
      rewrite Forall_forall in Hf. specialize (Hf _ Hin). unfold by_size in Hf. cbn in Hf. lia.
Qed.

Lemma shift_left_spec t b n A B pb nb fuel :
  size b = n -> 1 <= n -> chain t None (A ++ B) None -> StronglySorted by_size (A ++ B) ->
  prev_obj pb A B -> next_obj nb A B -> (forall c, c ∈ B -> n <= c.2) -> (length A < fuel)%nat ->
  exists A' B' pb' nb', shift_left fuel t b pb nb = Ok (pb', nb') /\ A' ++ B' = A ++ B /\
    prev_obj pb' A' B' /\ next_obj nb' A' B' /\
    (forall c, c ∈ A' -> c.2 <= n) /\ (forall c, c ∈ B' -> n <= c.2).
Proof.
  intros Hb Hn1. revert B pb nb fuel. induction A as [|[s m] A IH] using rev_ind;
    intros B pb nb fuel Hc Hs Hp Hn HB Hfuel; (destruct fuel as [|fuel]; [cbn in Hfuel; lia|]);
    cbn [shift_left]; rewrite (order_assert _ _ _ _ _ Hc Hs Hp Hn); cbn [ensure obind].
  - destruct Hp as [[_ Hp]|(? & ? & ? & ? & _)]; [|by destruct x].
    rewrite Hp. cbn [truth Z.eqb negb andb]. exists [], B, pb, nb. split; [done|]. split; [done|].
    split; [by left|]. split; [done|]. split; [|done]. intros c Hin. by apply elem_of_nil in Hin.
  - destruct Hp as [[? _]|(A0 & s' & m' & Heq & Hp)]; [by destruct A|].
    apply app_inj_tail in Heq as [<- [= <- <-]].
    pose proof Hp as [P1 P2 P3 P4]. rewrite P2, Hb.
    assert (Hm : 0 <= s /\ 1 <= m /\ s + m <= 512).
    { eapply chain_range; [done|]. rewrite !elem_of_app. left. right. by left. }
    rewrite (truth_pos m) by lia.
    cbn [andb]. destruct (Z.ltb_spec n m) as [Hlt|Hge].
    + rewrite (proj2 (Z.eqb_neq m 1)) in P4 by lia.
      replace ((A ++ [(s, m)]) ++ B) with (A ++ (s, m) :: B) in * by (by rewrite <- app_assoc).
      assert (Hn' : next_obj pb A ((s, m) :: B)) by (right; by exists s, m, B).
      assert (HB' : forall c, c ∈ (s, m) :: B -> n <= c.2).
      { intros c Hin. apply elem_of_cons in Hin as [->|Hin]; [cbn; lia|by apply HB]. }
      destruct A as [|[s2 m2] A _] using rev_ind.
      * change (prev_valid pb = false) in P4. rewrite P4. cbn [negb].
        exists [], ((s, m) :: B), (set_size 0 pb), pb. split; [done|]. split; [done|].
        split; [by left|]. split; [done|]. split; [|done]. intros c Hin. by apply elem_of_nil in Hin.
      * rewrite last_or_snoc in P4. destruct P4 as [P4 P4']. rewrite P4, P4'. cbn [negb].
        rewrite <- app_assoc in Hc. pose proof (chain_enc _ _ _ _ _ _ _ Hc) as He.
        rewrite app_assoc in Hc. cbn [app] in Hc.
        destruct (get_first pb t s2 m2 _ _ He) as (pb' & Eg & Hd). rewrite Eg. cbn [obind].
        apply IH; [by rewrite <- app_assoc in Hc |- *|done| |done|done|].
        -- right. exists A, s2, m2. by split.
        -- rewrite length_app in Hfuel. cbn in Hfuel. lia.
    + exists (A ++ [(s, m)]), B, pb, nb. split; [done|]. split; [done|].
      split; [right; by exists A, s, m|]. split; [done|]. split; [|done]. intros c Hin.
      apply elem_of_app in Hin as [Hin|Hin].
      * apply ssorted_app in Hs as (Hs & _ & _). apply ssorted_app in Hs as (_ & _ & Hs).
        specialize (Hs c (s, m) Hin ltac:(by left)). unfold by_size in Hs. cbn in Hs. lia.
      * apply list_elem_of_singleton in Hin as ->. done.
Qed.

Lemma same_pdt_refl p : same_pdt p p.
Proof. done. Qed.
Lemma same_pdt_trans p q r : same_pdt p q -> same_pdt q r -> same_pdt p r.
Proof. unfold same_pdt. congruence. Qed.

Lemma link_spec pdt t A B s n b pb nb :
  listed pdt t (A ++ B) -> self b = s -> size b = n -> 0 <= s -> 1 <= n -> s + n <= 512 ->
  (forall i, s <= i < s + n -> freeb t i = true) ->
  (s + n < 512 -> exists e, t !! (s + n) = Some e /\ is_free e = false) ->
  (forall c, c ∈ A ++ B -> apart (s, n) c) ->
  prev_obj pb A B -> next_obj nb A B ->
  (forall c, c ∈ A -> c.2 <= n) -> (forall c, c ∈ B -> n <= c.2) ->
  (* the size recorded is right when a block follows *)
  exists pdt' t', link pdt t b pb nb = Ok (pdt', t') /\ listed pdt' t' (A ++ (s, n) :: B) /\
    (forall i, core <$> t' !! i = core <$> t !! i) /\ same_pdt pdt pdt'.
Proof.
  intros Hl Hbs Hbn Hs Hn Hsn Hf Hend Hap Hp Hnx HA HB.
  pose proof (ls_chain _ _ _ Hl) as Hc. pose proof (ls_disj _ _ _ Hl) as Hd.
  pose proof Hc as Hc'. apply chain_app in Hc' as [HcA HcB].
  pose proof Hd as Hd'. apply disj_app in Hd' as (HdA & HdB & HdAB).
  unfold link.
  (* the block after *)
  assert (Hfirst : exists pdt1 t1 b1,
    link_after pdt t b nb = Ok (pdt1, t1, b1) /\
    chain t1 (Some s) B None /\ self b1 = s /\ size b1 = n /\
    lnk (hd_or B None) (next b1) (next_valid b1) /\
    (forall i, ~ pages B i -> t1 !! i = t !! i) /\ (forall i, core <$> t1 !! i = core <$> t !! i) /\
    same_pdt pdt pdt1 /\ head pdt1 = head pdt /\ remain pdt1 = rem_of (largest (A ++ (s, n) :: B))).
  { unfold link_after. destruct Hnx as [[-> Hnx]|(ns & nn & B0 & -> & Hnx)].
    - rewrite Hnx. cbn [truth Z.eqb negb]. rewrite put_max_size_spec by (cbn; rewrite Hbn; lia).
      cbn [obind]. eexists _, t, _. split; [done|]. split; [done|]. cbn.
      split; [done|]. split; [done|]. split; [done|]. split; [done|]. split; [done|].
      split; [done|]. split; [done|]. by rewrite largest_snoc, Hbn.
    - pose proof Hnx as [N1 N2 N3 N4]. destruct HcB as [Hen HcB0].
      pose proof (enc_range _ _ _ _ _ Hen) as Hnr.
      rewrite N2, Hbn. rewrite (truth_pos nn) by lia.
      pose proof (HB (ns, nn) ltac:(by left)) as Hge. cbn in Hge.
      rewrite ensure_true by (by apply Z.leb_le). cbn [obind].
      assert (Hb1 : self (set_next (self nb) true b) = s) by done. rewrite Hb1. clear Hb1.
      assert (Hput : exists t1, put (set_prev s true nb) t ns = Ok t1 /\
        chain t1 (Some s) ((ns, nn) :: B0) None /\ relinked t t1 ns nn).
      { destruct (decide (nn = 1)) as [->|Hne].
        - destruct (put_run_spec (set_prev s true nb) t ns 1 None (hd_or B0 None))
            as (t1 & E & He1 & Hr1 & Hr2); try done; try lia.
          + intros z Hz. by apply (hd_or_range _ _ _ _ _ HcB0).
          + intros i Hi. by eapply entries_free.
          + apply Hen.
          + exists t1. split; [done|]. split; [|done]. split; [by eapply enc_one|].
            destruct HdB as [HdB _].
            apply (chain_frame t); [|done|done]. intros i (a & m & Hin & Hi). apply Hr1.
            destruct (HdB _ Hin); cbn in *; lia.
        - apply (chain_fix_first t (last_or None A) ns nn B0 None nb s true (Some s)); try done.
          intros z [= <-]. lia. }
      destruct Hput as (t1 & E & Hc1 & Hr1 & Hr2).
      assert (Hself : self (set_prev s true nb) = ns) by done. rewrite Hself, E. cbn [obind].
      eexists pdt, t1, _. split; [done|]. split; [done|]. cbn. split; [done|]. split; [done|].
      split; [done|]. split.
      { intros i Hi. apply Hr1. intros Hin. apply Hi. exists ns, nn. split; [by left|done]. }
      split; [done|]. split; [done|]. split; [done|].
      rewrite (ls_remain _ _ _ Hl). f_equal. by rewrite !largest_app_cons. }
  destruct Hfirst as (pdt1 & t1 & b1 & E1 & HcB1 & Hb1s & Hb1n & Hb1x & Hout1 & Hcore1 & Hsame1
    & Hhead1 & Hrem1).
  rewrite E1. cbn [obind]. clear E1.
  assert (HcA1 : chain t1 None A (hd_or B None)).
  { apply (chain_frame t); [|done|done]. intros i (s1 & n1 & Hin1 & Hi1). apply Hout1.
    intros (s2 & n2 & Hin2 & Hi2). destruct (HdAB _ _ Hin1 Hin2); cbn in *; lia. }
  (* the block before *)
  assert (Hsecond : exists pdt2 t2 b2,
    link_before pdt1 t1 b1 pb nb = Ok (pdt2, t2, b2) /\
    chain t2 None A (Some s) /\ full b2 s n (last_or None A) (hd_or B None) /\
    (forall i, ~ pages A i -> t2 !! i = t1 !! i) /\ (forall i, core <$> t2 !! i = core <$> t1 !! i) /\
    same_pdt pdt1 pdt2 /\ remain pdt2 = remain pdt1 /\
    (A = [] -> head pdt2 = s) /\ (A <> [] -> pdt2 = pdt1)).
  { unfold link_before. destruct Hp as [[-> Hp]|(A0 & ps & pn & -> & Hp)].
    - rewrite Hp. cbn [truth Z.eqb negb]. rewrite ensure_true.
      2: { destruct Hnx as [[-> Hnx]|(ns & nn & B0 & -> & Hnx)]; [by rewrite Hnx|].
           apply orb_true_iff. right. apply Z.eqb_eq. rewrite Hhead1.
           destruct Hnx as [-> _ _ _]. by eapply (ls_head _ _ _ Hl). }
      cbn [obind]. eexists _, t1, _. split; [done|]. split; [done|]. split; [by split|].
      split; [done|]. split; [done|]. split; [done|]. split; [done|]. split; [|done].
      intros _. cbn. rewrite Hb1s. apply wrap_small. change (2 ^ 9) with 512. lia.
    - pose proof Hp as [P1 P2 P3 P4]. pose proof (chain_enc _ _ _ _ _ _ _ HcA1) as Hep.
      pose proof (enc_range _ _ _ _ _ Hep) as Hpr.
      rewrite P2, Hb1n. rewrite (truth_pos pn) by lia.
      assert (Hle : pn <= n).
      { apply (HA (ps, pn)). apply elem_of_app. right. by left. }
      rewrite ensure_true by (by apply Z.leb_le). cbn [obind].
      assert (Hb2 : self (set_prev (self pb) true b1) = s) by done. rewrite Hb2. clear Hb2.
      destruct (chain_fix_last t1 None A0 ps pn (hd_or B None) pb s true (Some s))
        as (t2 & E & Hc2 & Hr1 & Hr2); try done.
      { intros z [= <-]. lia. }
      assert (Hself : self (set_next s true pb) = ps) by done. rewrite Hself, E. cbn [obind].
      eexists pdt1, t2, _. split; [done|]. split; [done|]. split.
      { split; [done|]. split; [done|]. split; [done|]. rewrite last_or_snoc. by split. }
      split.
      { intros i Hi. apply Hr1. intros Hin. apply Hi. exists ps, pn. split; [|done].
        apply elem_of_app. right. by left. }
      split; [done|]. split; [done|]. split; [done|]. split; [by destruct A0|done]. }
  destruct Hsecond as (pdt2 & t2 & b2 & E2 & HcA2 & (Q1 & Q2 & Q3 & Q4) & Hout2 & Hcore2 & Hsame2
    & Hrem2 & Hhead2 & Hpdt2).
  rewrite E2. cbn [obind]. clear E2. rewrite Q1.
  assert (Hcore02 : forall i, core <$> t2 !! i = core <$> t !! i) by (intros; by rewrite Hcore2).
  assert (HcB2 : chain t2 (Some s) B None).
  { apply (chain_frame t1); [|done|done]. intros i (s1 & n1 & Hin1 & Hi1). apply Hout2.
    intros (s2 & n2 & Hin2 & Hi2). destruct (HdAB _ _ Hin2 Hin1); cbn in *; lia. }
  destruct (put_run_spec b2 t2 s n (last_or None A) (hd_or B None)) as (t3 & E3 & He3 & Hr1 & Hr2);
    [done|done|done|done| | |done|done|done| | |].
  { intros z Hz. by apply (hd_or_range _ _ _ _ _ HcB2). }
  { intros z Hz. by apply (last_or_range _ _ _ _ _ HcA2). }
  { intros i Hi. rewrite (freeb_core t) by done. by apply Hf. }
  { intros Hlt. destruct (Hend Hlt) as (e & E & Hfe).
    destruct (core_is_Some t t2 (s + n) (Hcore02 _)) as [e' E']; [eauto|].
    exists e'. split; [done|]. pose proof (freeb_core t t2 (s + n) (Hcore02 _)) as Hfc.
    unfold freeb in Hfc. rewrite E, E' in Hfc. congruence. }
  rewrite E3. cbn [obind]. eexists pdt2, t3. split; [done|].
  assert (Hcore3 : forall i, core <$> t3 !! i = core <$> t !! i) by (intros; by rewrite Hr2).
  assert (Hfr : forall L, (forall c, c ∈ L -> apart (s, n) c) -> forall i, pages L i -> t3 !! i = t2 !! i).
  { intros L HL i (a & m & Hin & Hi). apply Hr1. destruct (HL _ Hin); cbn in *; lia. }
  split; [|split; [done|by eapply same_pdt_trans]].
  constructor.
  - apply chain_app. cbn [hd_or chain]. split; [|split; [done|]].
    + apply (chain_frame t2); [|done|done]. apply Hfr. intros c Hin. apply Hap, elem_of_app. by left.
    + apply (chain_frame t2); [|done|done]. apply Hfr. intros c Hin. apply Hap, elem_of_app. by right.
  - pose proof (ls_sorted _ _ _ Hl) as Hso. apply ssorted_app in Hso as (S1 & S2 & S3).
    apply ssorted_app. split; [done|]. split.
    + constructor; [done|]. apply Forall_forall. intros c Hin. by apply HB.
    + intros a c Ha Hin. apply elem_of_cons in Hin as [->|Hin]; [by apply HA|by apply S3].
  - apply disj_app. split; [done|]. split.
    + split; [|done]. intros c Hin. apply Hap, elem_of_app. by right.
    + intros a c Ha Hin. apply elem_of_cons in Hin as [->|Hin]; [|by apply HdAB].
      apply apart_sym, Hap, elem_of_app. by left.
  - intros s' n' L' HL. destruct A as [|[a m] A].
    + cbn in HL. injection HL as <- <- _. by apply Hhead2.
    + cbn in HL. injection HL as <- <- _. rewrite Hpdt2, Hhead1 by done.
      by eapply (ls_head _ _ _ Hl).
  - by rewrite Hrem2.
Qed.

(** The links of the block are a hint: neighbours in the list, or nothing. *)
Definition hint (b : BLOCK) (L : blocks) : Prop :=
  (prev_valid b = false /\ next_valid b = false) \/
  exists A B, L = A ++ B /\ lnk (last_or None A) (prev b) (prev_valid b) /\
    lnk (hd_or B None) (next b) (next_valid b).

Lemma insert_spec pdt t L b :
  listed pdt t L -> 0 <= self b -> 0 <= size b -> self b + size b <= 512 -> hint b L ->
  (forall i, self b <= i < self b + size b -> freeb t i = true) ->
  (self b + size b < 512 -> exists e, t !! (self b + size b) = Some e /\ is_free e = false) ->
  (forall c, c ∈ L -> apart (self b, size b) c) ->
  exists pdt' t' L', insert pdt t b = Ok (pdt', t') /\ listed pdt' t' L' /\
    (forall i, pages L' i <-> pages L i \/ self b <= i < self b + size b) /\
    (forall i, core <$> t' !! i = core <$> t !! i) /\ same_pdt pdt pdt' /\
    (size b <> 0 -> exists A B, L = A ++ B /\ L' = A ++ (self b, size b) :: B) /\
    (size b = 0 -> L' = L).
Proof.
  intros Hl Hs Hn Hsn Hh Hf Hend Hap. unfold insert.
  destruct (Z.eqb_spec (size b) 0) as [E0|Hne].
  { rewrite E0. exists pdt, t, L. split; [done|]. split; [done|]. split; [|done].
    intros i. split; [by left|intros [?|?]; [done|lia]]. }
  pose proof (ls_chain _ _ _ Hl) as Hc.
  (* the hint, completed by the head of the list *)
  assert (Hadj : exists b1 A B, (if negb (prev_valid b) && negb (next_valid b) && truth (get_max_size pdt)
      then set_next (head pdt) true b else b) = b1 /\ L = A ++ B /\
    lnk (last_or None A) (prev b1) (prev_valid b1) /\ lnk (hd_or B None) (next b1) (next_valid b1) /\
    self b1 = self b /\ size b1 = size b).
  { pose proof (max_size_zero _ _ _ Hl) as Hz. destruct (negb (prev_valid b) && _ && _) eqn:E.
    - bool_norm. exists (set_next (head pdt) true b), [], L. split; [done|]. split; [done|].
      split; [done|]. split; [|done]. destruct L as [|[s n] L].
      + exfalso. rewrite (proj2 Hz) in * by done. done.
      + cbn. split; [done|]. by eapply (ls_head _ _ _ Hl).
    - destruct Hh as [[H1 H2]|(A & B & -> & H1 & H2)]; [|by exists b, A, B].
      rewrite H1, H2 in E. cbn [negb andb] in E. unfold truth in E. bool_norm.
      rewrite (proj1 Hz E). by exists b, [], []. }
  destruct Hadj as (b1 & A & B & -> & -> & Hp & Hx & Hb1 & Hb2).
  (* the two neighbours of the hint *)
  assert (Hpb : exists pb, (if prev_valid b1 then get no_block t (prev b1)
      else Ok (set_size 0 no_block)) = Ok pb /\ prev_obj pb A B).
  { destruct A as [|[a m] A _] using rev_ind.
    - change (prev_valid b1 = false) in Hp. rewrite Hp. eexists. split; [done|]. by left.
    - rewrite last_or_snoc in Hp. destruct Hp as [-> ->].
      rewrite <- app_assoc in Hc. pose proof (chain_enc _ _ _ _ _ _ _ Hc) as He.
      destruct (get_first no_block t a m _ _ He) as (pb & Eg & Hd). exists pb.
      split; [done|]. right. exists A, a, m. by split. }
  destruct Hpb as (pb & -> & Hpb). cbn [obind].
  assert (Hnb : exists nb, (if next_valid b1 then get no_block t (next b1)
      else Ok (set_size 0 no_block)) = Ok nb /\ next_obj nb A B).
  { destruct B as [|[a m] B].
    - change (next_valid b1 = false) in Hx. rewrite Hx. eexists. split; [done|]. by left.
    - destruct Hx as [-> ->]. pose proof (chain_enc _ _ _ _ _ _ _ Hc) as He.
      destruct (get_first no_block t a m _ _ He) as (nb & Eg & Hd). exists nb.
      split; [done|]. right. exists a, m, B. by split. }
  destruct Hnb as (nb & -> & Hnb). cbn [obind].
  (* the place *)
  pose proof (length_blocks _ _ _ _ Hc (ls_disj _ _ _ Hl)) as Hlen. rewrite length_app in Hlen.
  pose proof (ls_sorted _ _ _ Hl) as Hso.
  assert (Hshift : exists A' B' pb' nb',
    (if truth (size pb) && (size b1 <? size pb) then shift_left 514 t b1 pb nb
     else shift_right 514 t b1 pb nb) = Ok (pb', nb') /\ A' ++ B' = A ++ B /\
    prev_obj pb' A' B' /\ next_obj nb' A' B' /\
    (forall c, c ∈ A' -> c.2 <= size b) /\ (forall c, c ∈ B' -> size b <= c.2)).
  { destruct (truth (size pb) && (size b1 <? size pb)) eqn:E.
    - bool_norm. destruct Hpb as [[_ Hz]|(A0 & ps & pn & -> & Hd)]; [by rewrite Hz in *|].
      apply shift_left_spec; try done; try lia.
      + right. by exists A0, ps, pn.
      + intros c Hin. apply ssorted_app in Hso as (_ & _ & Hso).
        specialize (Hso (ps, pn) c ltac:(apply elem_of_app; right; by left) Hin).
        unfold by_size in Hso. cbn in Hso. destruct Hd as [_ Hd2 _ _]. lia.
    - apply shift_right_spec; try done; [|lia].
      intros c Hin. destruct Hpb as [[-> _]|(A0 & ps & pn & -> & Hd)];
        [by apply elem_of_nil in Hin|].
      assert (Hpn : 1 <= pn).
      { destruct (chain_range _ _ _ _ ps pn Hc) as (? & ? & ?); [|lia].
        rewrite !elem_of_app. left. right. by left. }
      destruct Hd as [_ Hd2 _ _]. rewrite Hd2, truth_pos in E by lia. cbn [andb] in E. bool_norm.
      apply ssorted_app in Hso as (Hso & _ & _). apply ssorted_app in Hso as (_ & _ & Hso).
      apply elem_of_app in Hin as [Hin|Hin].
      + specialize (Hso c (ps, pn) Hin ltac:(by left)). unfold by_size in Hso. cbn in Hso. lia.
      + apply list_elem_of_singleton in Hin as ->. cbn. lia. }
  destruct Hshift as (A' & B' & pb' & nb' & -> & HAB & Hpb' & Hnb' & HA & HB). cbn [obind].
  rewrite <- HAB in *.
  destruct (link_spec pdt t A' B' (self b) (size b) b1 pb' nb') as (pdt' & t' & E & Hl' & Hcore & Hsame);
    try done; try lia.
  exists pdt', t', (A' ++ (self b, size b) :: B'). split; [done|]. split; [done|].
  split; [|split; [done|split; [done|split; [intros _; by exists A', B'|done]]]].
  intros i. split.
  - intros (s & n & Hin & Hi). apply elem_of_app in Hin as [Hin|Hin].
    + left. exists s, n. split; [|done]. apply elem_of_app. by left.
    + apply elem_of_cons in Hin as [[= -> ->]|Hin]; [by right|]. left. exists s, n.
      split; [|done]. apply elem_of_app. by right.
  - intros [(s & n & Hin & Hi)|Hi].
    + exists s, n. split; [|done]. apply elem_of_app in Hin as [Hin|Hin]; apply elem_of_app;
        [by left|right; by right].
    + exists (self b), (size b). split; [|done]. apply elem_of_app. right. by left.
Qed.

(** ** The invariant of a page table *)

(** All 512 entries exist, and the listed blocks are exactly the free entries. *)
Record pt_inv (pdt : PDTE) (t : table) (L : blocks) : Prop := {
  pi_listed : listed pdt t L;
  pi_entries : forall i, 0 <= i < 512 -> is_Some (t !! i);
  pi_free : forall i, freeb t i = true <-> pages L i
}.

Lemma pages_app A B i : pages (A ++ B) i <-> pages A i \/ pages B i.
Proof.
  unfold pages. setoid_rewrite elem_of_app. split.
  - intros (s & n & [H|H] & Hi); [left|right]; by exists s, n.
  - intros [(s & n & H & Hi)|(s & n & H & Hi)]; exists s, n; tauto.
Qed.

Lemma pages_cons s n L i : pages ((s, n) :: L) i <-> s <= i < s + n \/ pages L i.
Proof.
  unfold pages. setoid_rewrite elem_of_cons. split.
  - intros (s' & n' & [[= -> ->]|H] & Hi); [by left|right; by exists s', n'].
  - intros [Hi|(s' & n' & H & Hi)]; [exists s, n|exists s', n']; tauto.
Qed.

(** Entries before and after a block are not free: blocks are maximal runs. *)
Lemma block_end pdt t A s n B : pt_inv pdt t (A ++ (s, n) :: B) -> s + n < 512 ->
  exists e, t !! (s + n) = Some e /\ is_free e = false.
Proof. intros [Hl _ _] Hlt. by apply (chain_enc _ _ _ _ _ _ _ (ls_chain _ _ _ Hl)). Qed.

Lemma preserve_run_spec n t i :
  (forall j, i <= j < i + Z.of_nat n -> freeb t j = true) ->
  exists t', preserve_run n t i = Ok t' /\
    forall j, t' !! j = if decide (i <= j < i + Z.of_nat n) then set_preserve true <$> t !! j else t !! j.
Proof.
  revert t i. induction n as [|n IH]; intros t i Hf; cbn [preserve_run].
  { exists t. split; [done|]. intros j. by rewrite decide_False by lia. }
  destruct (freeb_true t i) as (e & E & Hfe); [apply Hf; lia|]. rewrite E. cbn [deref obind].
  rewrite Hfe. cbn [ensure obind].
  destruct (IH (<[i := set_preserve true e]> t) (i + 1)) as (t' & E' & Ht').
  - intros j Hj. unfold freeb. rewrite lookup_insert_ne by lia. apply Hf. lia.
  - exists t'. split; [done|]. intros j. rewrite Ht'. rewrite lookup_insert.
    destruct (decide (i = j)) as [->|].
    + rewrite decide_False by lia. rewrite decide_True by lia. by rewrite E.
    + repeat case_decide; try lia; done.
Qed.

Lemma find_block_spec t A B pb cur count fuel p0 :
  chain t p0 (A ++ B) None -> (forall c, c ∈ A -> c.2 < count) ->
  (forall s n B', B = (s, n) :: B' -> count <= n) -> B <> [] ->
  hd_or (A ++ B) None = Some cur -> (length A < fuel)%nat ->
  exists b s n B', B = (s, n) :: B' /\ find_block fuel t pb cur count = Ok b /\
    descr b s n (last_or p0 A) (hd_or B' None).
Proof.
  revert pb cur fuel p0. induction A as [|[a m] A IH]; intros pb cur fuel p0 Hc HA HB Hne Hcur Hf;
    (destruct fuel as [|fuel]; [cbn in Hf; lia|]); cbn [find_block].
  - destruct B as [|[s n] B]; [done|]. cbn [app hd_or] in *. injection Hcur as <-.
    destruct Hc as [He _]. destruct (get_first pb t s n _ _ He) as (b & Eg & Hd). rewrite Eg.
    cbn [obind]. pose proof Hd as [D1 D2 _ _]. rewrite D1, Z.eqb_refl. cbn [ensure obind].
    rewrite D2. rewrite (proj2 (Z.leb_le count n)) by (by eapply HB).
    exists b, s, n, B. split; [done|]. split; [done|]. done.
  - cbn [app hd_or] in *. injection Hcur as <-. destruct Hc as [He Hc].
    destruct (get_first pb t a m _ _ He) as (b & Eg & Hd). rewrite Eg.
    cbn [obind]. pose proof Hd as [D1 D2 D3 _]. rewrite D1, Z.eqb_refl. cbn [ensure obind].
    rewrite D2. pose proof (HA (a, m) ltac:(by left)) as Hlt. cbn in Hlt.
    rewrite (proj2 (Z.leb_gt count m)) by lia.
    destruct (hd_or (A ++ B) None) as [z|] eqn:Ez.
    + destruct D3 as [-> ->]. rewrite last_or_cons.
      apply IH; [done|intros; apply HA; by right|done|done|done|cbn in Hf; lia].
    + exfalso. rewrite hd_or_app in Ez. destruct A as [|[]]; [|done]. by destruct B as [|[]].
Qed.

(** The first block of a sorted list that is large enough. *)
Lemma split_by_size (L : blocks) count : StronglySorted by_size L ->
  exists A B, L = A ++ B /\ (forall c, c ∈ A -> c.2 < count) /\ (forall c, c ∈ B -> count <= c.2).
Proof.
  induction 1 as [|[s n] L Hs IH Hf].
  - exists [], []. split; [done|]. split; intros c Hin; by apply elem_of_nil in Hin.
  - destruct (decide (n < count)).
    + destruct IH as (A & B & -> & HA & HB). exists ((s, n) :: A), B. split; [done|].
      split; [|done]. intros c Hin. apply elem_of_cons in Hin as [->|Hin]; [done|by apply HA].
    + exists [], ((s, n) :: L). split; [done|]. split; [intros c Hin; by apply elem_of_nil in Hin|].
      intros c Hin. apply elem_of_cons in Hin as [->|Hin]; [cbn; lia|].
      rewrite Forall_forall in Hf. specialize (Hf _ Hin). unfold by_size in Hf. cbn in Hf. lia.
Qed.

(** ** Reserving *)

Lemma chain_frame_ends (t t' : table) p L x :
  (forall i, pages L i -> t' !! i = t !! i) ->
  (forall s n, (s, n) ∈ L -> s + n < 512 -> exists e, t' !! (s + n) = Some e /\ is_free e = false) ->
  chain t p L x -> chain t' p L x.
Proof.
  revert p. induction L as [|[s n] L IH]; intros p Hf He Hch; cbn [chain] in *; [done|].
  destruct Hch as [Hen Hch]. split.
  - destruct (enc_range _ _ _ _ _ Hen) as (? & ? & ?).
    apply (enc_frame t); [|intros Hlt|done].
    + intros i Hi. apply Hf. exists s, n. split; [by left|done].
    + destruct (He s n ltac:(by left) Hlt) as (e & E & Hfe).
      destruct (enc_end _ _ _ _ _ Hen Hlt) as (e' & E' & Hfe').
      unfold freeb. rewrite E, E', Hfe, Hfe'. eauto.
  - apply IH; [|intros; apply He; [by right|done]|done].
    intros i (s' & n' & Hin & Hi). apply Hf. exists s', n'. split; [by right|done].
Qed.

Lemma core_set_preserve b e : core (set_preserve b e) = set_preserve b (core e).
Proof. reflexivity. Qed.

(** The entries [a .. a+count-1] are preserved now; otherwise only links changed. *)
Definition reserved (t t' : table) (a count : Z) : Prop :=
  forall j, core <$> t' !! j =
    if decide (a <= j < a + count) then set_preserve true <$> (core <$> t !! j) else core <$> t !! j.

Lemma listed_preserve pdt t t' L a count :
  listed pdt t L ->
  (forall j, t' !! j = if decide (a <= j < a + count) then set_preserve true <$> t !! j else t !! j) ->
  (forall i, a <= i < a + count -> ~ pages L i) -> listed pdt t' L.
Proof.
  intros [Hc Hs Hd Hh Hr] Ht Hn. constructor; try done. apply (chain_frame_ends t); [| |done].
  - intros i Hi. rewrite Ht. rewrite decide_False; [done|]. intros Hin. by apply (Hn i).
  - intros s n Hin Hlt. destruct (chain_in _ _ _ _ _ _ Hc Hin) as (p' & x' & He).
    destruct (enc_end _ _ _ _ _ He Hlt) as (e & E & Hfe). rewrite Ht, E. case_decide; [|eauto].
    eexists. split; [done|]. unfold is_free. cbn. by rewrite andb_false_r.
Qed.

Lemma in_middle {A : Type} (A0 B0 : list A) x : x ∈ A0 ++ x :: B0.
Proof. apply elem_of_app. right. by left. Qed.

(** Taking a block out of the list and preserving part of its entries. *)
Lemma carve pdt t A s n B b a count :
  pt_inv pdt t (A ++ (s, n) :: B) -> full b s n (last_or None A) (hd_or B None) ->
  s <= a -> 1 <= count -> a + count <= s + n ->
  exists pdt1 t1 t2, erase pdt t b = Ok (pdt1, t1) /\
    preserve_run (Z.to_nat count) t1 a = Ok t2 /\ listed pdt1 t2 (A ++ B) /\ same_pdt pdt pdt1 /\
    reserved t t2 a count /\
    (forall i, freeb t2 i = if decide (a <= i < a + count) then false else freeb t i) /\
    (forall c, c ∈ A ++ B -> apart (s, n) c).
Proof.
  intros [Hl Hent Hfree] Hf Hsa Hcnt Han.
  destruct (erase_block_spec _ _ _ _ _ _ _ Hl Hf) as (pdt1 & t1 & E1 & Hl1 & Hout1 & Hcore1 & Hsame1).
  destruct (disj_del _ _ _ (ls_disj _ _ _ Hl)) as [_ Hap].
  assert (Hin : forall i, s <= i < s + n -> freeb t1 i = true).
  { intros i Hi. rewrite (freeb_core t) by done. apply Hfree. exists s, n.
    split; [apply in_middle|done]. }
  destruct (preserve_run_spec (Z.to_nat count) t1 a) as (t2 & E2 & Ht2); [intros j Hj; apply Hin; lia|].
  rewrite Z2Nat.id in Ht2 by lia.
  assert (Hres : reserved t t2 a count).
  { intros j. rewrite Ht2, <- Hcore1. case_decide; [|done].
    rewrite <- !option_fmap_compose. done. }
  exists pdt1, t1, t2. split; [done|]. split; [done|]. split.
  { apply (listed_preserve _ t1 _ _ a count); [done|done|].
    intros i Hi (s' & n' & Hin' & Hi'). destruct (Hap _ Hin'); cbn in *; lia. }
  split; [done|]. split; [done|]. split; [|done].
  intros i. unfold freeb. rewrite Ht2. case_decide.
  - destruct (t1 !! i); [|done]. cbn. unfold is_free. cbn. by rewrite andb_false_r.
  - apply (freeb_core t t1), Hcore1.
Qed.

Lemma reserved_core t t2 t3 a count : reserved t t2 a count ->
  (forall i, core <$> t3 !! i = core <$> t2 !! i) -> reserved t t3 a count.
Proof. intros H1 H2 j. by rewrite H2, H1. Qed.

Lemma reserved_entries t t' a count : reserved t t' a count ->
  (forall i, 0 <= i < 512 -> is_Some (t !! i)) -> forall i, 0 <= i < 512 -> is_Some (t' !! i).
Proof.
  intros Hr He i Hi. specialize (Hr i). destruct (He i Hi) as [e E]. rewrite E in Hr. cbn in Hr.
  destruct (t' !! i); [eauto|]. by case_decide.
Qed.

Lemma imp_reserve_any_spec pdt t L base count :
  pt_inv pdt t L -> 1 <= count -> d_present pdt = true -> d_bypass pdt = false ->
  if get_max_size pdt <? count
  then imp_reserve_any pdt t base count = Ok (0, pdt, t)
  else exists a pdt' t' L', imp_reserve_any pdt t base count = Ok (w64 (base + Z.shiftl a 12), pdt', t') /\
    0 <= a /\ a + count <= 512 /\ (forall i, a <= i < a + count -> freeb t i = true) /\
    reserved t t' a count /\ pt_inv pdt' t' L' /\ same_pdt pdt pdt'.
Proof.
  intros Hinv Hcnt Hdp Hdb. pose proof Hinv as [Hl Hent Hfree]. unfold imp_reserve_any.
  rewrite (truth_pos count), Hdp, Hdb by lia. cbn [ensure andb negb obind].
  destruct (Z.ltb_spec (get_max_size pdt) count) as [Hlt|Hge]; [done|].
  pose proof (ls_sorted _ _ _ Hl) as Hso. destruct (split_by_size L count Hso) as (A & B & -> & HA & HB).
  assert (HBne : B <> []).
  { intros ->. rewrite app_nil_r in *.
    assert (Hlg : get_max_size pdt <= largest A).
    { rewrite get_max_size_eq, (ls_remain _ _ _ Hl). by apply rounding_at, (largest_range pdt t). }
    unfold largest in Hlg. destruct A as [|[s n] A _] using rev_ind; [cbn in Hlg; lia|].
    rewrite last_snoc in Hlg. specialize (HA (s, n) ltac:(apply in_middle)). cbn in HA. lia. }
  pose proof (ls_chain _ _ _ Hl) as Hc.
  pose proof (length_blocks _ _ _ _ Hc (ls_disj _ _ _ Hl)) as Hlen. rewrite length_app in Hlen.
  destruct (find_block_spec t A B no_block (head pdt) count 512 None) as
    (b & s & n & B' & -> & Ef & Hd).
  - done.
  - done.
  - intros s n B' ->. by apply (HB (s, n)); left.
  - done.
  - rewrite hd_or_app. destruct A as [|[a m] A].
    + destruct B as [|[a m] B]; [done|]. cbn. f_equal. symmetry. by eapply (ls_head _ _ _ Hl).
    + cbn. f_equal. symmetry. by eapply (ls_head _ _ _ Hl).
  - destruct B; [done|]. cbn in Hlen. lia.
  - rewrite Ef. cbn [obind].
    destruct (resolve_prior_spec _ _ _ _ _ _ _ Hl Hd) as (b' & Er & Hfull). rewrite Er. cbn [obind].
    pose proof (HB (s, n) ltac:(by left)) as Hn. cbn in Hn.
    destruct (chain_range _ _ _ _ s n Hc ltac:(apply in_middle)) as (Hs & _ & Hsn).
    pose proof Hfull as (F1 & F2 & F3 & F4). 
    destruct (carve _ _ _ _ _ _ _ (s + n - count) count Hinv Hfull) as
      (pdt1 & t1 & t2 & E1 & E2 & Hl2 & Hsame & Hres & Hfr & Hap); [lia|lia|lia|].
    rewrite E1. cbn [obind]. rewrite F1, F2.
    rewrite ensure_true by (apply Z.leb_le; lia). cbn [obind]. rewrite E2. cbn [obind].
    assert (Hins : self (set_size (n - count) b') = s /\ size (set_size (n - count) b') = n - count)
      by (by split). destruct Hins as [I1 I2].
    destruct (insert_spec pdt1 t2 (A ++ B') (set_size (n - count) b')) as
      (pdt3 & t3 & L' & E3 & Hl3 & Hpg & Hcore3 & Hsame3 & _); rewrite ?I1, ?I2; try done; try lia.
    + right. exists A, B'. split; [done|]. cbn. by split.
    + intros i Hi. rewrite Hfr, decide_False by lia. apply Hfree. exists s, n.
      split; [apply in_middle|lia].
    + intros _. pose proof (Hres (s + (n - count))) as Hr. rewrite decide_True in Hr by lia.
      destruct (Hent (s + (n - count)) ltac:(lia)) as [e E]. rewrite E in Hr. cbn in Hr.
      destruct (t2 !! (s + (n - count))) as [e'|] eqn:E'; [|done]. exists e'. split; [done|].
      pose proof (Hfr (s + (n - count))) as Hx. rewrite decide_True in Hx by lia.
      unfold freeb in Hx. by rewrite E' in Hx.
    + intros c Hin. specialize (Hap c Hin). unfold apart in *. cbn in *. lia.
    + rewrite E3. cbn [obind]. exists (s + n - count), pdt3, t3, L'.
      split; [done|]. split; [lia|]. split; [lia|]. split.
      { intros i Hi. apply Hfree. exists s, n. split; [apply in_middle|lia]. }
      assert (Hres3 : reserved t t3 (s + n - count) count) by (by eapply reserved_core).
      split; [done|]. split; [|by eapply same_pdt_trans].
      constructor; [done|by eapply reserved_entries|].
      intros i. rewrite (freeb_core t2 t3), Hfr, Hpg, I1, I2 by done.
      rewrite pages_app.
      specialize (Hfree i). rewrite pages_app, pages_cons in Hfree.
      case_decide as Hd'.
      * split; [done|]. intros [Hp|Hp]; [|lia]. exfalso.
        rewrite <- pages_app in Hp. destruct Hp as (s' & n' & Hin & Hi).
        specialize (Hap _ Hin). unfold apart in Hap. cbn in Hap. lia.
      * rewrite Hfree. split; [intros [?|[?|?]]; [tauto|right; lia|tauto]|].
        intros [[?|?]|?]; [tauto|tauto|right; left; lia].
Qed.

(** Page [i] is the third of a free block that does not have four pages: [get] stops there. *)
Definition third_page (L : blocks) (i : Z) : Prop :=
  exists s n, (s, n) ∈ L /\ i = s + 2 /\ 3 <= n /\ n <> 4.

(** Inserting the two remainders of a block around the pages that were taken. *)
Lemma insert_pieces pdt t t2 A B s n a count hb :
  listed pdt t2 (A ++ B) -> reserved t t2 a count ->
  (forall i, 0 <= i < 512 -> is_Some (t !! i)) ->
  (forall i, freeb t2 i = if decide (a <= i < a + count) then false else freeb t i) ->
  (forall i, freeb t i = true <-> pages (A ++ (s, n) :: B) i) ->
  (forall c, c ∈ A ++ B -> apart (s, n) c) ->
  (s + n < 512 -> exists e, t2 !! (s + n) = Some e /\ is_free e = false) ->
  0 <= s -> s <= a -> 1 <= count -> a + count <= s + n -> s + n <= 512 ->
  lnk (last_or None A) (prev hb) (prev_valid hb) -> lnk (hd_or B None) (next hb) (next_valid hb) ->
  forall b0 b1,
    prev b0 = prev hb -> prev_valid b0 = prev_valid hb -> next b0 = next hb ->
    next_valid b0 = next_valid hb -> prev_valid b1 = false -> next_valid b1 = false ->
    (self b0 = s /\ size b0 = a - s /\ self b1 = a + count /\ size b1 = s + n - (a + count) \/
     self b1 = s /\ size b1 = a - s /\ self b0 = a + count /\ size b0 = s + n - (a + count)) ->
  exists pdt3 t3 pdt4 t4 L', insert pdt t2 b0 = Ok (pdt3, t3) /\ insert pdt3 t3 b1 = Ok (pdt4, t4) /\
    reserved t t4 a count /\ pt_inv pdt4 t4 L' /\ same_pdt pdt pdt4.
Proof.
  intros Hl Hres Hent Hfr Hfree Hap Hend Hs Hsa Hcnt Han Hsn Hp Hx b0 b1 P1 P2 P3 P4 P5 P6 Hpos.
  assert (Hnf : exists e, t2 !! a = Some e /\ is_free e = false).
  { destruct (Hent a) as [e E]; [lia|]. specialize (Hres a). rewrite decide_True, E in Hres by lia.
    cbn in Hres. destruct (t2 !! a) as [e'|] eqn:E'; [|done]. exists e'. split; [done|].
    specialize (Hfr a). rewrite decide_True in Hfr by lia. unfold freeb in Hfr. by rewrite E' in Hfr. }
  assert (Hin : forall i, s <= i < s + n -> ~ (a <= i < a + count) -> freeb t2 i = true).
  { intros i Hi Hna. rewrite Hfr, decide_False by done. apply Hfree. exists s, n.
    split; [apply in_middle|done]. }
  assert (Hends : forall b, (self b = s /\ size b = a - s \/ self b = a + count /\ size b = s + n - (a + count)) ->
    self b + size b < 512 -> exists e, t2 !! (self b + size b) = Some e /\ is_free e = false).
  { intros b [[-> ->]|[-> ->]] Hlt.
    - by replace (s + (a - s)) with a by lia.
    - replace (a + count + (s + n - (a + count))) with (s + n) in * by lia. by apply Hend. }
  destruct (insert_spec pdt t2 (A ++ B) b0) as (pdt3 & t3 & L3 & E3 & Hl3 & Hpg3 & Hcore3 & Hsame3 & HL3 & HL3').
  - done.
  - lia.
  - lia.
  - lia.
  - right. exists A, B. by rewrite P1, P2, P3, P4.
  - intros i Hi. apply Hin; lia.
  - apply Hends. destruct Hpos as [?|?]; [left|right]; tauto.
  - intros c Hc. specialize (Hap c Hc). unfold apart in *. cbn in *. lia.
  - destruct (insert_spec pdt3 t3 L3 b1) as (pdt4 & t4 & L4 & E4 & Hl4 & Hpg4 & Hcore4 & Hsame4 & _).
    + done.
    + lia.
    + lia.
    + lia.
    + by left.
    + intros i Hi. rewrite (freeb_core t2 t3) by done. apply Hin; lia.
    + intros Hlt. destruct (Hends b1 ltac:(destruct Hpos; [right|left]; tauto) Hlt) as (e & E & Hfe).
      destruct (core_is_Some t2 t3 (self b1 + size b1) (Hcore3 _)) as [e' E']; [eauto|].
      exists e'. split; [done|]. pose proof (freeb_core t2 t3 _ (Hcore3 (self b1 + size b1))) as Hx'.
      unfold freeb in Hx'. rewrite E, E' in Hx'. congruence.
    + intros c Hc.
      assert (Hc' : c ∈ A ++ B \/ c = (self b0, size b0) /\ size b0 <> 0).
      { destruct (decide (size b0 = 0)) as [Hz|Hz].
        - left. by rewrite <- (HL3' Hz).
        - destruct (HL3 Hz) as (A' & B' & HAB & ->). rewrite HAB.
          apply elem_of_app in Hc as [Hc|Hc]; [left; apply elem_of_app; by left|].
          apply elem_of_cons in Hc as [->|Hc]; [by right|left; apply elem_of_app; by right]. }
      destruct Hc' as [Hc'|[-> Hz]].
      * specialize (Hap c Hc'). unfold apart in *. cbn in *. lia.
      * unfold apart. cbn. lia.
    + exists pdt3, t3, pdt4, t4, L4. split; [done|]. split; [done|].
      assert (Hres4 : reserved t t4 a count).
      { eapply reserved_core; [exact Hres|]. intros i. by rewrite Hcore4. }
      split; [done|]. split; [|by eapply same_pdt_trans].
      constructor; [done|by eapply reserved_entries|].
      intros i. rewrite (freeb_core t3 t4), (freeb_core t2 t3), Hfr, Hpg4, Hpg3 by done.
      specialize (Hfree i). rewrite pages_app, pages_cons in Hfree. rewrite pages_app.
      case_decide as Hd'.
      * split; [done|]. intros Hor. exfalso.
        assert (Hp' : pages A i \/ pages B i) by (destruct Hor as [[?|?]|?]; [done|lia|lia]).
        rewrite <- pages_app in Hp'. destruct Hp' as (s' & n' & Hin' & Hi).
        specialize (Hap _ Hin'). unfold apart in Hap. cbn in Hap. lia.
      * rewrite Hfree. split.
        -- intros [?|[?|?]]; [tauto| |tauto]. destruct Hpos as [(? & ? & ? & ?)|(? & ? & ? & ?)];
             destruct (decide (i < a)); (try (right; lia)); left; right; lia.
        -- intros [[[?|?]|?]|?]; [tauto|tauto| |]; right; left; lia.
Qed.

Lemma imp_reserve_fixed_spec pdt t L index count :
  pt_inv pdt t L -> L <> [] -> 0 <= index -> 1 <= count -> index + count <= 512 ->
  d_present pdt = true -> d_bypass pdt = false -> ~ third_page L index ->
  if bool_decide (Forall (fun i => freeb t i = true) (seqZ index count))
  then exists pdt' t' L', imp_reserve_fixed pdt t index count = Ok (true, pdt', t') /\
    reserved t t' index count /\ pt_inv pdt' t' L' /\ same_pdt pdt pdt'
  else imp_reserve_fixed pdt t index count = Ok (false, pdt, t).
Proof.
  intros Hinv Hne Hi Hcnt Hic Hdp Hdb Hthird. pose proof Hinv as [Hl Hent Hfree].
  unfold imp_reserve_fixed. rewrite (truth_pos count), (proj2 (Z.leb_le _ _)), Hdp, Hdb by lia.
  cbn [ensure andb negb obind].
  assert (Hgm : 0 < get_max_size pdt).
  { pose proof (max_size_zero _ _ _ Hl) as Hz.
    rewrite get_max_size_eq, (ls_remain _ _ _ Hl) in Hz |- *.
    destruct (rounding_at _ (largest_range _ _ _ Hl)) as (_ & _ & H0 & _).
    destruct (decide (max_of (rem_of (largest L)) = 0)) as [E|]; [by apply Hz in E|lia]. }
  rewrite (proj2 (Z.ltb_lt _ _)) by lia. cbn [ensure obind].
  destruct (Hent index ltac:(lia)) as [e E]. rewrite E. cbn [deref obind].
  case_bool_decide as Hall.
  - rewrite Forall_forall in Hall.
    assert (Hall' : forall i, index <= i < index + count -> freeb t i = true)
      by (intros i Hi'; apply Hall, elem_of_seqZ; lia).
    pose proof (Hall' index ltac:(lia)) as Hf0. pose proof Hf0 as Hpg. apply Hfree in Hpg.
    destruct Hpg as (s & n & Hin & Hsi). 
    unfold freeb in Hf0. rewrite E in Hf0. unfold is_free in Hf0.
    assert (Hnf : present e || preserve e = false) by (destruct (present e), (preserve e); done).
    rewrite Hnf.
    apply list_elem_of_split in Hin as (A & B & ->).
    pose proof (chain_enc _ _ _ _ _ _ _ (ls_chain _ _ _ Hl)) as He.
    pose proof (enc_range _ _ _ _ _ He) as Hr.
    destruct (get_any no_block t s n _ _ index He Hsi) as (b & Eg & Hd).
    { destruct (decide (index = s + 2)) as [->|]; [|by left]. right.
      destruct (decide (n = 4)); [done|]. destruct Hthird. exists s, n.
      split; [apply in_middle|]. split; [done|]. split; [lia|done]. }
    rewrite Eg. cbn [obind]. pose proof Hd as [D1 D2 _ _]. rewrite D1.
    rewrite ensure_true by (apply Z.leb_le; lia). cbn [obind]. rewrite D2.
    assert (Hfit : index + count <= s + n).
    { destruct (decide (index + count <= s + n)); [done|]. exfalso.
      destruct (block_end _ _ _ _ _ _ Hinv) as (e' & E' & Hfe'); [lia|].
      pose proof (Hall' (s + n) ltac:(lia)) as Hx. unfold freeb in Hx. rewrite E' in Hx. congruence. }
    rewrite (proj2 (Z.ltb_ge _ _)) by lia.
    destruct (resolve_prior_spec _ _ _ _ _ _ _ Hl Hd) as (b' & Er & Hfull). rewrite Er. cbn [obind].
    destruct (carve _ _ _ _ _ _ _ index count Hinv Hfull) as
      (pdt1 & t1 & t2 & E1 & E2 & Hl2 & Hsame & Hres & Hfr & Hap); [lia|lia|lia|].
    rewrite E1. cbn [obind]. rewrite E2. cbn [obind]. pose proof Hfull as (F1 & F2 & F3 & F4).
    rewrite F1, F2. cbn [size set_size].
    assert (Hend2 : s + n < 512 -> exists e, t2 !! (s + n) = Some e /\ is_free e = false).
    { intros Hlt. destruct (block_end _ _ _ _ _ _ Hinv Hlt) as (e' & E' & Hfe').
      specialize (Hres (s + n)). rewrite decide_False, E' in Hres by lia. cbn in Hres.
      destruct (t2 !! (s + n)) as [e2|] eqn:Ee2; [|done]. exists e2. split; [done|].
      specialize (Hfr (s + n)). rewrite decide_False in Hfr by lia. unfold freeb in Hfr.
      rewrite E', Ee2 in Hfr. congruence. }
    pose proof (fun b0 b1 => insert_pieces pdt1 t t2 A B s n index count b' Hl2 Hres Hent Hfr Hfree Hap Hend2
      ltac:(lia) ltac:(lia) Hcnt Hfit ltac:(lia) F4 F3 b0 b1) as Hpieces.
    assert (Hsz : n + s - (index + count) = s + n - (index + count)) by lia.
    destruct (index - s <? n + s - (index + count)).
    + edestruct (Hpieces
        (set_self (self (Block (index + count) 0 0 (n + s - (index + count)) false false))
          (set_size (size (Block (index + count) 0 0 (n + s - (index + count)) false false))
            (set_size (index - s) b')))
        (set_self (self (set_size (index - s) b'))
          (set_size (size (set_size (index - s) b'))
            (Block (index + count) 0 0 (n + s - (index + count)) false false))))
        as (pdt3 & t3 & pdt4 & t4 & L' & E3 & E4 & Hres4 & Hinv4 & Hsame4); try done.
      { right. cbn. rewrite F1, Hsz. done. }
      cbn [self size set_self set_size] in E3, E4 |- *. rewrite E3. cbn [obind]. rewrite E4. cbn [obind]. exists pdt4, t4, L'.
      split; [done|]. split; [done|]. split; [done|]. by eapply same_pdt_trans.
    + edestruct (Hpieces (set_size (index - s) b')
        (Block (index + count) 0 0 (n + s - (index + count)) false false))
        as (pdt3 & t3 & pdt4 & t4 & L' & E3 & E4 & Hres4 & Hinv4 & Hsame4); try done.
      { left. cbn. rewrite F1, Hsz. done. }
      rewrite E3. cbn [obind]. rewrite E4. cbn [obind]. exists pdt4, t4, L'.
      split; [done|]. split; [done|]. split; [done|]. by eapply same_pdt_trans.
  - destruct (present e || preserve e) eqn:Epp; [done|].
    assert (Hf0 : freeb t index = true).
    { unfold freeb. rewrite E. unfold is_free. by destruct (present e), (preserve e). }
    pose proof Hf0 as Hpg. apply Hfree in Hpg. destruct Hpg as (s & n & Hin & Hsi).
    apply list_elem_of_split in Hin as (A & B & ->).
    pose proof (chain_enc _ _ _ _ _ _ _ (ls_chain _ _ _ Hl)) as He.
    destruct (get_any no_block t s n _ _ index He Hsi) as (b & Eg & [D1 D2 _ _]).
    { destruct (decide (index = s + 2)) as [->|]; [|by left]. right.
      destruct (decide (n = 4)); [done|]. destruct Hthird. exists s, n.
      split; [apply in_middle|]. split; [done|]. split; [lia|done]. }
    rewrite Eg. cbn [obind]. rewrite D1. rewrite ensure_true by (apply Z.leb_le; lia). cbn [obind].
    rewrite D2. rewrite (proj2 (Z.ltb_lt _ _)); [done|].
    destruct (decide (s + n < index + count)); [done|]. exfalso. apply Hall. apply Forall_forall.
    intros i Hi'. apply elem_of_seqZ in Hi'. apply Hfree. exists s, n. split; [apply in_middle|lia].
Qed.

Lemma imp_reserve_fixed_third pdt t L index count :
  pt_inv pdt t L -> 0 <= index -> 1 <= count -> index + count <= 512 ->
  third_page L index -> imp_reserve_fixed pdt t index count = Bug.
Proof.
  intros Hinv Hi Hcnt Hic (s & n & Hin & -> & H3 & H4). pose proof Hinv as [Hl Hent Hfree].
  destruct (chain_in _ _ _ _ _ _ (ls_chain _ _ _ Hl) Hin) as (p' & x' & He).
  assert (Hne : L <> []) by (intros ->; by apply elem_of_nil in Hin).
  unfold imp_reserve_fixed, ensure. case_if; cbn [obind]; [|done]. case_if; cbn [obind]; [|done].
  assert (Hf : freeb t (s + 2) = true) by (apply Hfree; exists s, n; split; [done|lia]).
  destruct (freeb_true _ _ Hf) as (e0 & Ee & Hfe). rewrite Ee. cbn [deref obind].
  unfold is_free in Hfe. destruct (present e0), (preserve e0); try done. cbn [orb].
  by rewrite (get_third no_block t s n p' x' He H3 H4).
Qed.

(** ** Releasing *)

Definition mapped (e : PTE) : bool := present e && truth (page_addr e).

(** An entry that [imp_release] accepts: mapped to a page, or reserved and not present. *)
Definition releasable (e : PTE) : bool :=
  negb (bypass e) && (mapped e || (negb (present e) && preserve e)).

Definition released_entry (e : PTE) : PTE :=
  if mapped e then set_preserve false (set_page false 0 e) else set_preserve false e.

Lemma releasable_not_free e : releasable e = true -> is_free e = false.
Proof.
  unfold releasable, mapped, is_free.
  destruct (present e), (preserve e), (bypass e); cbn; intros [=]; done.
Qed.

Lemma released_entry_free e : releasable e = true -> is_free (released_entry e) = true.
Proof.
  unfold releasable, released_entry, mapped, is_free.
  destruct (bypass e), (present e) eqn:E, (truth (page_addr e)), (preserve e); cbn;
    intros [=]; cbn; rewrite ?E; done.
Qed.

(** The pages that go away, lowest entry first. *)
Fixpoint mapped_pages (n : nat) (t : table) (i : Z) : list Z :=
  match n with
  | O => []
  | S n =>
      match t !! i with
      | Some e => if mapped e then Z.shiftl (page_addr e) 12 :: mapped_pages n t (i + 1)
                  else mapped_pages n t (i + 1)
      | None => []
      end
  end.

Lemma mapped_pages_ext n t t' i : (forall j, i <= j < i + Z.of_nat n -> t' !! j = t !! j) ->
  mapped_pages n t' i = mapped_pages n t i.
Proof.
  revert i. induction n as [|n IH]; intros i He; cbn [mapped_pages]; [done|].
  rewrite He by lia. destruct (t !! i) as [e|]; [|done]. rewrite IH; [done|].
  intros j Hj. apply He. lia.
Qed.

Lemma mapped_pages_core n t t1 i : (forall j, core <$> t1 !! j = core <$> t !! j) ->
  mapped_pages n t1 i = mapped_pages n t i.
Proof.
  intros Hc. revert i. induction n as [|n IH]; intros i; cbn [mapped_pages]; [done|].
  rewrite IH. pose proof (Hc i) as Hci. destruct (t !! i) as [e|], (t1 !! i) as [e'|]; try done.
  injection Hci as Hci. unfold mapped, core, set_link in *. destruct e, e'. cbn in *. by simplify_eq.
Qed.

Section release_run_proofs.
Context {S : Type}.
Variable release_page : Z -> S -> outcome S.

Fixpoint release_all (l : list Z) (s : S) : outcome S :=
  match l with [] => Ok s | pa :: l => let! s := release_page pa s; release_all l s end.

Lemma release_run_spec n t i used s s' :
  (forall j, i <= j < i + Z.of_nat n -> exists e, t !! j = Some e /\ releasable e = true) ->
  release_all (mapped_pages n t i) s = Ok s' ->
  exists t', release_run release_page n t i (w64 used) s =
      Ok (t', w64 (used - Z.of_nat (length (mapped_pages n t i))), s') /\
    forall j, t' !! j = if decide (i <= j < i + Z.of_nat n) then released_entry <$> t !! j else t !! j.
Proof.
  revert t i used s. induction n as [|n IH]; intros t i used s He Hr; cbn [release_run mapped_pages] in *.
  { injection Hr as <-. exists t. rewrite Z.sub_0_r. split; [done|]. intros j.
    by rewrite decide_False by lia. }
  destruct (He i ltac:(lia)) as (e & E & Hrel). rewrite E in Hr |- *. cbn [deref obind].
  pose proof Hrel as Hrel'. unfold releasable in Hrel'. apply andb_true_iff in Hrel' as [Hb Hor].
  rewrite Hb. cbn [ensure obind]. fold (mapped e). 
  assert (Hstep : forall t1, t1 = <[i := released_entry e]> t -> forall used1 s1,
    release_all (mapped_pages n t (i + 1)) s1 = Ok s' ->
    exists t', release_run release_page n t1 (i + 1) (w64 used1) s1 =
      Ok (t', w64 (used1 - Z.of_nat (length (mapped_pages n t (i + 1)))), s') /\
    forall j, t' !! j = if decide (i <= j < i + Z.of_nat (Datatypes.S n))
                        then released_entry <$> t !! j else t !! j).
  { intros t1 -> used1 s1 Hr1.
    assert (Hext : mapped_pages n (<[i := released_entry e]> t) (i + 1) = mapped_pages n t (i + 1)).
    { apply mapped_pages_ext. intros j Hj. by rewrite lookup_insert_ne by lia. }
    destruct (IH (<[i := released_entry e]> t) (i + 1) used1 s1) as (t' & E' & Ht').
    - intros j Hj. destruct (He j ltac:(lia)) as (e' & E1 & E2). exists e'.
      by rewrite lookup_insert_ne by lia.
    - by rewrite Hext.
    - rewrite Hext in E'. exists t'. split; [done|]. intros j. rewrite Ht', lookup_insert.
      destruct (decide (i = j)) as [->|].
      + rewrite decide_False, decide_True by lia. by rewrite E.
      + repeat case_decide; try lia; done. }
  unfold released_entry in Hstep. destruct (mapped e) eqn:Em.
  - cbn [release_all] in Hr. apply bind_Ok_inv in Hr as (s1 & E1 & Hr). rewrite E1. cbn [obind].
    destruct (Hstep _ eq_refl (used - 1) s1 Hr) as (t' & E' & Ht'). exists t'. split; [|done].
    replace (w64 (w64 used - 1)) with (w64 (used - 1))
      by (unfold wrap; by rewrite Zminus_mod_idemp_l).
    rewrite E'. cbn [length]. do 4 f_equal. lia.
  - cbn [orb] in Hor. apply andb_true_iff in Hor as [_ Hp]. rewrite Hp. cbn [negb].
    apply Hstep; [done|done].
Qed.

End release_run_proofs.

(** The free blocks next to the released pages. *)
Lemma prior_block pdt t L index :
  pt_inv pdt t L -> 0 <= index < 512 -> freeb t index = false -> 0 < index -> freeb t (index - 1) = true ->
  exists A s n B, L = A ++ (s, n) :: B /\ s + n = index.
Proof.
  intros Hinv Hi Hnf Hi0 Hf. pose proof Hinv as [_ _ Hfree]. apply Hfree in Hf as (s & n & Hin & Hs).
  apply list_elem_of_split in Hin as (A & B & ->). exists A, s, n, B. split; [done|].
  destruct (decide (s + n = index)); [done|]. exfalso.
  assert (freeb t index = true); [|congruence]. apply Hfree. exists s, n.
  split; [apply in_middle|lia].
Qed.

Lemma after_block pdt t L e :
  pt_inv pdt t L -> freeb t (e - 1) = false -> freeb t e = true ->
  exists A n B, L = A ++ (e, n) :: B.
Proof.
  intros Hinv Hnf Hf. pose proof Hinv as [_ _ Hfree]. apply Hfree in Hf as (s & n & Hin & Hs).
  apply list_elem_of_split in Hin as (A & B & ->). exists A, n, B.
  assert (s = e) as ->; [|done]. destruct (decide (s = e)); [done|]. exfalso.
  assert (freeb t (e - 1) = true); [|congruence]. apply Hfree. exists s, n.
  split; [apply in_middle|lia].
Qed.

(** What [merge_neighbours] leaves: the list [L1] without the neighbours, and a block that covers
    them and the released pages. *)
Definition merged (pdt : PDTE) (t : table) (L : blocks) (index count : Z)
    (b : BLOCK) (pdt1 : PDTE) (t1 : table) : Prop :=
  exists L1, listed pdt1 t1 L1 /\ same_pdt pdt pdt1 /\
    (forall i, core <$> t1 !! i = core <$> t !! i) /\ hint b L1 /\
    0 <= self b <= index /\ index + count <= self b + size b <= 512 /\
    (forall c, c ∈ L1 -> apart (self b, size b) c) /\
    (forall i, pages L i <-> pages L1 i \/
       (self b <= i < self b + size b /\ ~ (index <= i < index + count))) /\
    (self b + size b < 512 -> freeb t (self b + size b) = false) /\
    (0 < self b -> freeb t (self b - 1) = false).

Lemma block_start pdt t A s n B :
  pt_inv pdt t (A ++ (s, n) :: B) -> 0 < s -> freeb t (s - 1) = false.
Proof.
  intros Hinv Hs. pose proof Hinv as [Hl _ Hfree].
  destruct (freeb t (s - 1)) eqn:E; [|done]. exfalso. apply Hfree in E as (s' & n' & Hin & Hs').
  assert (Hc : freeb t s = true).
  { apply Hfree. exists s, n. split; [apply in_middle|].
    pose proof (chain_range _ _ _ _ s n (ls_chain _ _ _ Hl) (in_middle _ _ _)). lia. }
  assert (Hlt : s' + n' = s).
  { pose proof (chain_range _ _ _ _ s n (ls_chain _ _ _ Hl) (in_middle _ _ _)).
    assert (Ho : (s', n') = (s, n) \/ (s', n') ∈ A ++ B).
    { rewrite !elem_of_app, elem_of_cons in *. tauto. }
    destruct Ho as [[= -> ->]|Ho]; [lia|].
    pose proof (proj2 (disj_del _ _ _ (ls_disj _ _ _ Hl)) _ Ho) as Ha. unfold apart in Ha. cbn in Ha. lia. }
  apply list_elem_of_split in Hin as (A' & B' & HL). rewrite HL in Hinv.
  pose proof (chain_range _ _ _ _ s n (ls_chain _ _ _ Hl) (in_middle _ _ _)).
  destruct (block_end _ _ _ _ _ _ Hinv ltac:(lia)) as (e & E & Hfe).
  rewrite Hlt in E. unfold freeb in Hc. rewrite E in Hc. congruence.
Qed.

Lemma take_out pdt t A s n B b k :
  listed pdt t (A ++ (s, n) :: B) -> s <= k < s + n -> (k <> s + 2 \/ n = 4) ->
  exists b1 b2 pdt1 t1, get b t k = Ok b1 /\ resolve_prior pdt t b1 = Ok b2 /\
    erase pdt t b2 = Ok (pdt1, t1) /\ listed pdt1 t1 (A ++ B) /\
    (forall i, core <$> t1 !! i = core <$> t !! i) /\ same_pdt pdt pdt1 /\
    full b2 s n (last_or None A) (hd_or B None) /\
    (forall i, pages (A ++ (s, n) :: B) i <-> pages (A ++ B) i \/ s <= i < s + n) /\
    (forall c, c ∈ A ++ B -> apart (s, n) c).
Proof.
  intros Hl Hk H3. pose proof (chain_enc _ _ _ _ _ _ _ (ls_chain _ _ _ Hl)) as He.
  destruct (get_any b t s n _ _ k He Hk H3) as (b1 & Eg & Hd).
  destruct (resolve_prior_spec _ _ _ _ _ _ _ Hl Hd) as (b2 & Er & Hf).
  destruct (erase_block_spec _ _ _ _ _ _ _ Hl Hf) as (pdt1 & t1 & E1 & Hl1 & _ & Hc1 & Hs1).
  exists b1, b2, pdt1, t1. split; [done|]. split; [done|]. split; [done|]. split; [done|].
  split; [done|]. split; [done|]. split; [done|]. split.
  - intros i. rewrite !pages_app, pages_cons. tauto.
  - apply (proj2 (disj_del _ _ _ (ls_disj _ _ _ Hl))).
Qed.

(** The page before is the last of a free block of exactly three pages. *)
Definition three_before (L : blocks) (index : Z) : Prop := exists s, (s, 3) ∈ L /\ s + 3 = index.

Lemma merge_neighbours_spec pdt t L index count :
  pt_inv pdt t L -> 0 <= index -> 1 <= count -> index + count <= 512 ->
  (forall i, index <= i < index + count -> freeb t i = false) -> ~ three_before L index ->
  exists b pdt1 t1, merge_neighbours pdt t index count = Ok (b, pdt1, t1) /\
    merged pdt t L index count b pdt1 t1.
Proof.
  intros Hinv Hi Hcnt Hic Hnf Hno. pose proof Hinv as [Hl Hent Hfree]. pose proof Hinv as Hinv0.
  unfold merge_neighbours.
  assert (Hpr : (if truth index then entry_free t (index - 1) else Ok false) =
    Ok (bool_decide (0 < index) && freeb t (index - 1))).
  { case_bool_decide as H0.
    - rewrite truth_pos by done. unfold entry_free, freeb. destruct (Hent (index - 1)) as [e ->];
        [lia|done].
    - assert (index = 0) as -> by lia. done. }
  assert (Haf : (if index + count <? 0x200 then entry_free t (index + count) else Ok false) =
    Ok (bool_decide (index + count < 512) && freeb t (index + count))).
  { destruct (Z.ltb_spec (index + count) 0x200).
    - rewrite bool_decide_eq_true_2 by done. unfold entry_free, freeb.
      destruct (Hent (index + count)) as [e ->]; [lia|done].
    - by rewrite bool_decide_eq_false_2 by lia. }
  rewrite Hpr, Haf. cbn [obind]. clear Hpr Haf.
  assert (Hafter : bool_decide (index + count < 512) && freeb t (index + count) = true ->
    exists A n B, L = A ++ (index + count, n) :: B).
  { intros Hb. apply andb_true_iff in Hb as [_ Hb]. eapply after_block; [done| |done].
    apply Hnf. lia. }
  assert (Hnoafter : bool_decide (index + count < 512) && freeb t (index + count) = false ->
    index + count < 512 -> freeb t (index + count) = false).
  { intros Hb Hlt. by rewrite bool_decide_eq_true_2 in Hb by done. }
  destruct (bool_decide (0 < index) && freeb t (index - 1)) eqn:Eprior.
  - apply andb_true_iff in Eprior as [H0%bool_decide_eq_true Hfp].
    destruct (prior_block pdt t L index Hinv ltac:(lia) (Hnf index ltac:(lia)) H0 Hfp)
      as (A & s & n & B & HL & Hsn).
    assert (Hn3 : n <> 3).
    { intros ->. apply Hno. exists s. split; [rewrite HL; apply in_middle|done]. }
    assert (Hrange : 0 <= s /\ 1 <= n /\ s + n <= 512).
    { eapply chain_range; [apply (ls_chain _ _ _ Hl)|]. rewrite HL. apply in_middle. }
    destruct (bool_decide (index + count < 512) && freeb t (index + count)) eqn:Eafter.
    + destruct (Hafter eq_refl) as (A' & n' & B' & HL').
      rewrite HL' in Hl. assert (Hr' : 0 <= index + count /\ 1 <= n' /\ index + count + n' <= 512).
      { eapply chain_range; [apply (ls_chain _ _ _ Hl)|]. apply in_middle. }
      destruct (take_out pdt t A' (index + count) n' B' no_block (index + count) Hl) as
        (b1 & b2 & pdt1 & t1 & E1 & E2 & E3 & Hl1 & Hc1 & Hs1 & Hf1 & Hp1 & Hap1); [lia|lia|].
      rewrite E1. cbn [obind]. rewrite E2. cbn [obind]. rewrite E3. cbn [obind].
      destruct Hf1 as (F1 & F2 & F3 & F4).
      assert (Hin : (s, n) ∈ A' ++ B').
      { assert (Hin : (s, n) ∈ A' ++ (index + count, n') :: B') by (rewrite <- HL', HL; apply in_middle).
        apply elem_of_app in Hin as [?|Hin]; [apply elem_of_app; by left|].
        apply elem_of_cons in Hin as [[= ? ?]|?]; [lia|apply elem_of_app; by right]. }
      apply list_elem_of_split in Hin as (A2 & B2 & HL2). rewrite HL2 in Hl1.
      destruct (take_out pdt1 t1 A2 s n B2 b2 (index - 1) Hl1) as
        (c1 & c2 & pdt2 & t2 & G1 & G2 & G3 & Hl2 & Hc2 & Hs2 & Hf2 & Hp2 & Hap2); [lia|lia|].
      rewrite G1. cbn [obind]. rewrite G2. cbn [obind]. rewrite G3. cbn [obind].
      destruct Hf2 as (Q1 & Q2 & Q3 & Q4).
      eexists _, pdt2, t2. split; [done|]. exists (A2 ++ B2). cbn. rewrite Q1, Q2, F2.
      split; [done|]. split; [by eapply same_pdt_trans|].
      split; [intros; by rewrite Hc2|]. split; [right; by exists A2, B2|].
      split; [lia|]. split; [lia|]. split; [|split; [|split]].
      * intros c Hc. assert (Hc' : c ∈ A' ++ B').
        { rewrite HL2. apply elem_of_app in Hc as [?|?]; apply elem_of_app; [by left|right; by right]. }
        specialize (Hap1 c Hc'). specialize (Hap2 c Hc). unfold apart in *. cbn in *.
        destruct (chain_range _ _ _ _ c.1 c.2 (ls_chain _ _ _ Hl2)) as (? & ? & ?); [by destruct c|].
        destruct (decide (index <= c.1 < index + count)) as [Hx|]; [|lia]. exfalso.
        specialize (Hnf _ Hx). assert (freeb t c.1 = true); [|congruence].
        apply Hfree. rewrite HL', Hp1. left. exists c.1, c.2. split; [by destruct c|lia].
      * intros i. rewrite HL', Hp1, HL2, Hp2. split.
        -- intros [[?|?]|?]; [by left|right; lia|right; lia].
        -- intros [?|[? ?]]; [by left; left|]. destruct (decide (i < index)); [left; right; lia|right; lia].
      * intros Hlt. replace (s + (n + (n' + count))) with (index + count + n') in * by lia.
        rewrite HL' in Hinv. destruct (block_end _ _ _ _ _ _ Hinv Hlt) as (e & E & Hfe).
        unfold freeb. by rewrite E.
      * rewrite HL in Hinv0. apply (block_start _ _ _ _ _ _ Hinv0).
    + rewrite HL in Hl. destruct (take_out pdt t A s n B no_block (index - 1) Hl) as
        (b1 & b2 & pdt1 & t1 & E1 & E2 & E3 & Hl1 & Hc1 & Hs1 & Hf1 & Hp1 & Hap1); [lia|lia|].
      rewrite E1. cbn [obind]. rewrite E2. cbn [obind]. rewrite E3. cbn [obind].
      destruct Hf1 as (F1 & F2 & F3 & F4).
      eexists _, pdt1, t1. split; [done|]. exists (A ++ B). cbn. rewrite F1, F2.
      split; [done|]. split; [done|]. split; [done|]. split; [right; by exists A, B|].
      split; [lia|]. split; [lia|].
      assert (Hsep : forall i, pages (A ++ B) i -> ~ (index <= i < index + count)).
      { intros i Hp Hi'. specialize (Hnf i Hi'). assert (freeb t i = true); [|congruence].
        apply Hfree. rewrite HL, Hp1. by left. }
      split; [|split; [|split]].
      * intros c Hc. specialize (Hap1 c Hc). unfold apart in *. cbn in *.
        destruct (chain_range _ _ _ _ c.1 c.2 (ls_chain _ _ _ Hl1)) as (? & ? & ?); [by destruct c|].
        destruct (decide (c.1 + c.2 <= s)); [by right|]. left.
        destruct (decide (index + count <= c.1)); [lia|]. exfalso.
        apply (Hsep c.1); [exists c.1, c.2; split; [by destruct c|lia]|lia].
      * intros i. rewrite HL, Hp1. split.
        -- intros [?|?]; [by left|right; lia].
        -- intros [?|[? ?]]; [by left|right; lia].
      * intros Hlt. replace (s + (n + count)) with (index + count) in * by lia. by apply Hnoafter.
      * rewrite HL in Hinv. apply (block_start _ _ _ _ _ _ Hinv).
  - destruct (bool_decide (index + count < 512) && freeb t (index + count)) eqn:Eafter.
    + destruct (Hafter eq_refl) as (A & n & B & HL). rewrite HL in Hl.
      assert (Hr : 0 <= index + count /\ 1 <= n /\ index + count + n <= 512).
      { eapply chain_range; [apply (ls_chain _ _ _ Hl)|]. apply in_middle. }
      destruct (take_out pdt t A (index + count) n B no_block (index + count) Hl) as
        (b1 & b2 & pdt1 & t1 & E1 & E2 & E3 & Hl1 & Hc1 & Hs1 & Hf1 & Hp1 & Hap1); [lia|lia|].
      rewrite E1. cbn [obind]. rewrite E2. cbn [obind]. rewrite E3. cbn [obind].
      destruct Hf1 as (F1 & F2 & F3 & F4).
      eexists _, pdt1, t1. split; [done|]. exists (A ++ B). cbn. rewrite F2.
      split; [done|]. split; [done|]. split; [done|]. split; [right; by exists A, B|].
      split; [lia|]. split; [lia|].
      assert (Hsep : forall i, pages (A ++ B) i -> ~ (index <= i < index + count)).
      { intros i Hp Hi'. specialize (Hnf i Hi'). assert (freeb t i = true); [|congruence].
        apply Hfree. rewrite HL, Hp1. by left. }
      split; [|split; [|split]].
      * intros c Hc. specialize (Hap1 c Hc). unfold apart in *. cbn in *.
        destruct (chain_range _ _ _ _ c.1 c.2 (ls_chain _ _ _ Hl1)) as (? & ? & ?); [by destruct c|].
        destruct (decide (index + count + n <= c.1)); [left; lia|]. right.
        destruct (decide (c.1 + c.2 <= index)); [done|]. exfalso.
        apply (Hsep (Z.max index c.1)); [exists c.1, c.2; split; [by destruct c|lia]|lia].
      * intros i. rewrite HL, Hp1. split.
        -- intros [?|?]; [by left|right; lia].
        -- intros [?|[? ?]]; [by left|right; lia].
      * intros Hlt. replace (index + (count + n)) with (index + count + n) in * by lia.
        rewrite HL in Hinv. destruct (block_end _ _ _ _ _ _ Hinv Hlt) as (e & E & Hfe).
        unfold freeb. by rewrite E.
      * intros H0. by rewrite bool_decide_eq_true_2 in Eprior by done.
    + eexists _, pdt, t. split; [done|]. exists L. cbn. split; [done|]. split; [done|].
      split; [done|]. split; [by left|]. split; [lia|]. split; [lia|]. split; [|split; [|split]].
      * intros c Hc. unfold apart. cbn.
        destruct (chain_range _ _ _ _ c.1 c.2 (ls_chain _ _ _ Hl)) as (? & ? & ?); [by destruct c|].
        destruct (decide (c.1 + c.2 <= index)); [by right|].
        destruct (decide (index + count <= c.1)); [by left|]. exfalso.
        assert (Hfi : freeb t (Z.max index c.1) = true).
        { apply Hfree. exists c.1, c.2. split; [by destruct c|lia]. }
        rewrite Hnf in Hfi by lia. done.
      * intros i. split; [by left|]. intros [?|[? ?]]; [done|lia].
      * by apply Hnoafter.
      * intros H0. by rewrite bool_decide_eq_true_2 in Eprior by done.
Qed.

Section release_proofs.
Context {S : Type}.
Variable release_page : Z -> S -> outcome S.

Lemma imp_release_spec pdt t L base count used s s' :
  let index := Z.land (Z.shiftr base 12) 0x1FF in
  pt_inv pdt t L -> 0 < base -> 1 <= count -> index + count <= 512 ->
  d_present pdt = true -> d_bypass pdt = false ->
  (forall j, index <= j < index + count -> exists e, t !! j = Some e /\ releasable e = true) ->
  ~ three_before L index ->
  release_all release_page (mapped_pages (Z.to_nat count) t index) s = Ok s' ->
  exists pdt' t' L', imp_release release_page pdt t base count (w64 used) s =
      Ok (pdt', t', w64 (used - Z.of_nat (length (mapped_pages (Z.to_nat count) t index))), s') /\
    pt_inv pdt' t' L' /\ same_pdt pdt pdt' /\
    (forall j, core <$> t' !! j = if decide (index <= j < index + count)
       then core ∘ released_entry <$> t !! j else core <$> t !! j).
Proof.
  intros index Hinv Hb Hcnt Hic Hdp Hdb Hrel Hno Hs. pose proof Hinv as [Hl Hent Hfree].
  assert (Hi : 0 <= index).
  { unfold index. apply Z.land_nonneg. by right. }
  unfold imp_release. rewrite (truth_pos count), (truth_pos base) by lia. cbn [ensure andb obind].
  fold index. rewrite (proj2 (Z.leb_le _ _)) by lia. cbn [ensure obind].
  rewrite Hdp, Hdb. cbn [ensure andb negb obind].
  assert (Hnf : forall i, index <= i < index + count -> freeb t i = false).
  { intros i Hi'. destruct (Hrel i Hi') as (e & E & Hr). unfold freeb. rewrite E.
    by apply releasable_not_free. }
  destruct (merge_neighbours_spec pdt t L index count Hinv Hi Hcnt Hic Hnf Hno)
    as (b & pdt1 & t1 & Em & (L1 & Hl1 & Hs1 & Hc1 & Hh & Hself & Hsize & Hap & Hpg & Hend & Hstart)).
  rewrite Em. cbn [obind].
  (* entries that are neither free nor relinked are untouched: go through the core *)
  assert (Hsame : forall i, ~ pages L i -> core <$> t1 !! i = core <$> t !! i) by (intros; apply Hc1).
  assert (Hrel1 : forall j, index <= j < index + Z.of_nat (Z.to_nat count) ->
    exists e, t1 !! j = Some e /\ releasable e = true).
  { intros j Hj. destruct (Hrel j ltac:(lia)) as (e & E & Hr).
    pose proof (Hc1 j) as Hcj. rewrite E in Hcj. destruct (t1 !! j) as [e'|]; [|done].
    exists e'. split; [done|]. injection Hcj as Hcj.
    unfold releasable, mapped, core, set_link in *. destruct e, e'. cbn in *. by simplify_eq. }
  assert (Hmp : mapped_pages (Z.to_nat count) t1 index = mapped_pages (Z.to_nat count) t index).
  { by apply mapped_pages_core. }
  destruct (release_run_spec release_page (Z.to_nat count) t1 index used s s' Hrel1) as (t2 & E2 & Ht2);
    [by rewrite Hmp|].
  rewrite E2, Hmp. cbn [obind]. rewrite Z2Nat.id in Ht2 by lia.
  assert (Hfr2 : forall i, freeb t2 i = true <-> index <= i < index + count \/ freeb t i = true).
  { intros i. unfold freeb at 1. rewrite Ht2. case_decide as Hd.
    - destruct (Hrel1 i ltac:(lia)) as (e & E & Hr). rewrite E. cbn.
      rewrite released_entry_free by done. split; [by left|done].
    - fold (freeb t1 i). rewrite (freeb_core t t1) by done. split; [by right|intros [?|?]; [lia|done]]. }
  assert (Hl2 : listed pdt1 t2 L1).
  { destruct Hl1 as [H1 H2 H3 H4 H5]. constructor; try done. apply (chain_frame_ends t1); [| |done].
    - intros i (s1 & n1 & Hin & Hi1). rewrite Ht2, decide_False; [done|].
      specialize (Hap _ Hin). unfold apart in Hap. cbn in Hap. lia.
    - intros s1 n1 Hin Hlt. destruct (chain_in _ _ _ _ _ _ H1 Hin) as (p' & x' & He).
      destruct (enc_end _ _ _ _ _ He Hlt) as (e & E & Hfe). exists e. split; [|done].
      rewrite Ht2, decide_False; [done|]. specialize (Hap _ Hin). unfold apart in Hap. cbn in Hap.
      pose proof (enc_range _ _ _ _ _ He) as Hr1.
      intros Hin'. assert (s1 + n1 = self b) as Heq by lia.
      assert (Hfx : freeb t (self b - 1) = true).
      { apply Hfree, Hpg. left. exists s1, n1. split; [done|lia]. }
      rewrite Hstart in Hfx by lia. done. }
  destruct (insert_spec pdt1 t2 L1 b) as (pdt3 & t3 & L3 & E3 & Hl3 & Hpg3 & Hcore3 & Hsame3 & _);
    try done; try lia.
  - intros i Hi'. apply Hfr2. destruct (decide (index <= i < index + count)); [by left|right].
    apply Hfree, Hpg. right. lia.
  - intros Hlt. pose proof (Hend Hlt) as Hf'.
    destruct (Hent (self b + size b) ltac:(lia)) as [e E].
    destruct (core_is_Some t t1 (self b + size b) (Hc1 _)) as [e' E']; [eauto|].
    exists e'. rewrite Ht2, decide_False by lia. split; [done|].
    pose proof (freeb_core t t1 _ (Hc1 (self b + size b))) as Hx. unfold freeb in Hx, Hf'.
    rewrite E in Hx, Hf'. rewrite E' in Hx. congruence.
  - rewrite E3. cbn [obind]. exists pdt3, t3, L3. split; [done|]. split; [|split].
    + constructor; [done| |].
      * intros i Hi'. apply (core_is_Some t2); [done|]. rewrite Ht2.
        assert (is_Some (t1 !! i)) as [e E] by (apply (core_is_Some t); [done|by apply Hent]).
        rewrite E. case_decide; eauto.
      * intros i. rewrite (freeb_core t2 t3), Hfr2, Hpg3, Hfree, Hpg by done. split.
        -- intros [?|[?|?]]; [right; lia|by left|right; tauto].
        -- intros [?|?]; [tauto|]. destruct (decide (index <= i < index + count)); [by left|tauto].
    + by eapply same_pdt_trans.
    + intros j. rewrite Hcore3, Ht2. case_decide as Hd; [|apply Hc1].
      pose proof (Hc1 j) as Hcj. destruct (t !! j) as [e|], (t1 !! j) as [e'|]; try done.
      injection Hcj as Hcj. cbn. f_equal.
      unfold released_entry, mapped, core, set_preserve, set_page, set_link in *.
      destruct e, e'. cbn in *. simplify_eq. by repeat case_match.
Qed.
End release_proofs.

(** ** A new table *)

Lemma zero_table_lookup i : 0 <= i < 512 -> zero_table !! i = Some zero_pte.
Proof.
  intros Hi. apply lookup_gset_to_gmap_Some. split; [|done].
  apply elem_of_list_to_set, elem_of_seqZ. lia.
Qed.

Lemma zero_table_dom i e : zero_table !! i = Some e -> 0 <= i < 512.
Proof.
  intros H. apply lookup_gset_to_gmap_Some in H as [H _].
  apply elem_of_list_to_set, elem_of_seqZ in H. lia.
Qed.

Lemma core_zero e : core e = core zero_pte -> bypass e = false /\ is_free e = true.
Proof. destruct e. unfold core, set_link, is_free. cbn. intros [=]. by subst. Qed.

Lemma init_pt_spec phy_addr : exists pdt t, init_pt phy_addr = Ok (pdt, t) /\
  pt_inv pdt t [(0, 512)] /\ d_present pdt = true /\ d_bypass pdt = false /\
  pt_addr pdt = Z.shiftr phy_addr 12 /\
  (forall i e, t !! i = Some e -> core e = core zero_pte).
Proof.
  unfold init_pt. rewrite put_max_size_spec by lia. cbn [obind].
  destruct (put_run_spec (Block 0 0 0 0x200 false false) zero_table 0 512 None None)
    as (t & E & He & Ho & Hc).
  1,2,3,4: reflexivity.
  1,2: intros y [=].
  1,2,3: lia.
  { intros i Hi. unfold freeb. by rewrite zero_table_lookup by lia. }
  { lia. }
  rewrite E. cbn [obind]. eexists _, t. split; [done|].
  assert (Hz : forall i e, t !! i = Some e -> core e = core zero_pte /\ is_free e = true /\ 0 <= i < 512).
  { intros i e Hi. specialize (Hc i). rewrite Hi in Hc.
    destruct (zero_table !! i) as [z|] eqn:Ez; [|done].
    pose proof (zero_table_dom _ _ Ez) as Hr. rewrite zero_table_lookup in Ez by done.
    injection Ez as <-. apply (inj Some) in Hc. destruct (core_zero e Hc) as [? ?].
    split; [done|]. split; [done|lia]. }
  clear E.
  split; [|split; [done|split; [done|split; [done|]]]].
  - constructor.
    + constructor; try done.
      * by repeat constructor.
      * split; [|done]. intros c Hin. by apply elem_of_nil in Hin.
      * by intros s n L' [= <- <- _].
    + intros i Hi. apply (core_is_Some zero_table); [done|]. rewrite zero_table_lookup by lia. eauto.
    + intros i. unfold freeb. split.
      * destruct (t !! i) as [e|] eqn:Ei; [|done]. intros _. destruct (Hz _ _ Ei) as (_ & _ & ?).
        exists 0, 512. split; [by left|lia].
      * intros (s & n & Hin & Hi). apply list_elem_of_singleton in Hin as [= -> ->].
        destruct (core_is_Some zero_table t i) as [e Ei]; [done|rewrite zero_table_lookup by lia; eauto|].
        rewrite Ei. by apply (Hz i).
  - intros i e Hi. destruct (Hz _ _ Hi) as (? & ? & _). done.
Qed.

(** ** The self-check *)

Lemma scan_free_spec n t i m c :
  (forall j, i <= j < i + Z.of_nat n -> exists e, t !! j = Some e /\ (is_free e = true -> bypass e = false)) ->
  (forall j, j ∈ m -> j < i) -> c = Z.of_nat (base.size m) ->
  exists m', scan_free n t i m c = Ok (m', Z.of_nat (base.size m')) /\
    forall j, j ∈ m' <-> j ∈ m \/ (i <= j < i + Z.of_nat n /\ freeb t j = true).
Proof.
  revert i m c. induction n as [|n IH]; intros i m c He Hm ->; cbn [scan_free].
  { exists m. split; [done|]. intros j. split; [by left|intros [?|[? _]]; [done|lia]]. }
  destruct (He i ltac:(lia)) as (e & E & Hb). rewrite E. cbn [deref obind].
  destruct (is_free e) eqn:Ef.
  - rewrite Hb by done. cbn [negb ensure obind].
    destruct (IH (i + 1) ({[i]} ∪ m) (Z.of_nat (base.size m) + 1)) as (m' & E' & Hm').
    + intros j Hj. apply He. lia.
    + intros j [->%elem_of_singleton|Hj]%elem_of_union; [lia|]. specialize (Hm _ Hj). lia.
    + rewrite size_union_alt, size_singleton, difference_disjoint_L.
      * lia.
      * apply disjoint_singleton_r. intros Hi. specialize (Hm _ Hi). lia.
    + exists m'. split; [done|]. intros j. rewrite Hm', elem_of_union, elem_of_singleton. split.
      * intros [[->|?]|[? ?]]; [right|by left|right; split; [lia|done]].
        split; [lia|]. unfold freeb. by rewrite E.
      * intros [?|[? ?]]; [by left; right|]. destruct (decide (j = i)); [by left; left|].
        right. split; [lia|done].
  - destruct (IH (i + 1) m (Z.of_nat (base.size m))) as (m' & E' & Hm'); [| |done|].
    + intros j Hj. apply He. lia.
    + intros j Hj. specialize (Hm _ Hj). lia.
    + exists m'. split; [done|]. intros j. rewrite Hm'. split.
      * intros [?|[? ?]]; [by left|right; split; [lia|done]].
      * intros [?|[? Hf]]; [by left|]. destruct (decide (j = i)) as [->|].
        -- unfold freeb in Hf. rewrite E in Hf. congruence.
        -- right. split; [lia|done].
Qed.

Lemma strike_spec n i (m : gset Z) : (forall j, i <= j < i + Z.of_nat n -> j ∈ m) ->
  exists m', strike n i m = Ok m' /\ (forall j, j ∈ m' <-> j ∈ m /\ ~ (i <= j < i + Z.of_nat n)) /\
    Z.of_nat (base.size m) = Z.of_nat (base.size m') + Z.of_nat n.
Proof.
  revert i m. induction n as [|n IH]; intros i m Hm; cbn [strike].
  { exists m. split; [done|]. split; [|lia]. intros j. split; [|tauto]. intros; split; [done|lia]. }
  assert (Hi : i ∈ m) by (apply Hm; lia). rewrite bool_decide_eq_true_2 by done. cbn [ensure obind].
  destruct (IH (i + 1) (m ∖ {[i]})) as (m' & E & Hm' & Hs).
  - intros j Hj. apply elem_of_difference. rewrite elem_of_singleton. split; [apply Hm|]; lia.
  - exists m'. split; [done|]. split.
    + intros j. rewrite Hm', elem_of_difference, elem_of_singleton. split.
      * intros [[? ?] ?]. split; [done|lia].
      * intros [? ?]. repeat split; [done|lia|lia].
    + rewrite size_difference, size_singleton in Hs by (by apply singleton_subseteq_l).
      assert (0 < base.size m)%nat; [|lia].
      apply size_pos_elem_of_2 with i || (destruct (base.size m) eqn:Ez; [|lia];
        apply size_empty_inv in Ez; by apply Ez in Hi).
Qed.

Lemma taken_ok t i : freeb t i = false -> is_Some (t !! i) -> taken t i = Ok tt.
Proof.
  intros Hf [e E]. unfold taken, freeb in *. rewrite E in *. cbn [deref obind].
  unfold is_free in Hf. by destruct (present e), (preserve e).
Qed.

Lemma check_blocks_spec pdt t A s n B b ls lb m c fuel :
  pt_inv pdt t (A ++ (s, n) :: B) -> descr b s n (last_or None A) (hd_or B None) ->
  (length B < fuel)%nat -> ls <= n -> (A <> [] -> last_or None A = Some lb) ->
  (forall i, i ∈ m <-> pages ((s, n) :: B) i) -> c = Z.of_nat (base.size m) ->
  check_blocks fuel t b ls lb m c = Ok (largest ((s, n) :: B), ∅, 0).
Proof.
  revert A s n b ls lb m c fuel. induction B as [|[s' n'] B IH];
    intros A s n b ls lb m c fuel Hinv Hd Hfu Hls Hlb Hm ->;
    (destruct fuel as [|fuel]; [cbn in Hfu; lia|]); cbn [check_blocks];
    pose proof Hinv as [Hl Hent Hfree];
    pose proof (chain_range _ _ _ _ s n (ls_chain _ _ _ Hl) (in_middle _ _ _)) as Hr;
    destruct Hd as [D1 D2 D3 D4]; rewrite D1, D2, truth_pos by lia; cbn [ensure obind].
  all: assert (H1 : (negb (n =? 1) || negb (prev_valid b) = true) /\
      (negb (prev_valid b) || (prev b =? lb) = true)).
  1,3: destruct (Z.eqb_spec n 1); [by rewrite D4|];
      destruct A as [|x A]; [cbn in D4; by rewrite D4|]; rewrite Hlb in D4 by done;
      destruct D4 as [-> ->]; by rewrite Z.eqb_refl.
  all: destruct H1 as [-> ->]; rewrite (proj2 (Z.leb_le ls n)) by lia; cbn [ensure obind].
  all: destruct (strike_spec (Z.to_nat n) s m) as (m' & Es & Hm' & Hsz);
    [intros j Hj; apply Hm, pages_cons; left; lia|]; rewrite Z2Nat.id in * by lia;
    rewrite (proj2 (Z.leb_le n (Z.of_nat (base.size m)))) by lia; cbn [ensure obind]; rewrite Es; cbn [obind].
  all: assert (Hst : (if truth s then taken t (s - 1) else Ok tt) = Ok tt).
  1,3: destruct (decide (s = 0)) as [->|]; [done|]; rewrite truth_pos by lia;
      apply taken_ok; [apply (block_start _ _ _ _ _ _ Hinv); lia|apply Hent; lia].
  all: rewrite Hst; cbn [obind].
  all: assert (Hen : (if s + n <? 512 then taken t (s + n) else Ok tt) = Ok tt).
  1,3: destruct (Z.ltb_spec (s + n) 512); [|done]; apply taken_ok; [|apply Hent; lia];
      destruct (block_end _ _ _ _ _ _ Hinv) as (e & E & Hf); [done|]; unfold freeb; by rewrite E.
  all: rewrite Hen; cbn [obind].
  - cbn in D3. rewrite D3. cbn [negb].
    assert (m' = ∅) as ->.
    { apply set_eq. intros i. split; [|by intros ?%elem_of_empty].
      rewrite Hm', Hm, pages_cons. intros [[?|(? & ? & ?%elem_of_nil & _)] ?]; done. }
    rewrite size_empty in Hsz. cbn [largest last]. unfold largest. cbn. do 3 f_equal. lia.
  - cbn in D3. destruct D3 as [-> D3]. cbn [negb]. rewrite D3.
    assert (Hinv' : pt_inv pdt t ((A ++ [(s, n)]) ++ (s', n') :: B)) by by rewrite <- app_assoc.
    pose proof (chain_enc _ _ _ _ _ _ _ (ls_chain _ _ _ (pi_listed _ _ _ Hinv'))) as He.
    destruct (get_first b _ _ _ _ _ He) as (b' & Eg & Hd'). rewrite Eg. cbn [obind].
    rewrite (IH (A ++ [(s, n)]) s' n' b'); [done|done|done|cbn in Hfu; lia| | | |lia].
    + pose proof (ls_sorted _ _ _ Hl) as Hso. apply ssorted_app in Hso as (_ & Hso & _).
      apply StronglySorted_inv in Hso as [_ Hso]. apply Forall_cons in Hso as [Hso _]. done.
    + intros _. unfold last_or. by rewrite last_snoc.
    + intros i. rewrite Hm', Hm, pages_cons. split; [tauto|]. intros Hp. split; [by right|].
      destruct Hp as (s1 & n1 & Hin & Hi).
      pose proof (proj2 (disj_del _ _ _ (ls_disj _ _ _ Hl)) (s1, n1)) as Ha.
      unfold apart in Ha. cbn in Ha.
      assert ((s1, n1) ∈ A ++ (s', n') :: B) as Hx by (apply elem_of_app; by right).
      specialize (Ha Hx). lia.
Qed.

Lemma pt_check_integrity_spec pdt t L :
  pt_inv pdt t L -> (forall i e, 0 <= i < 512 -> t !! i = Some e -> is_free e = true -> bypass e = false) ->
  check_integrity pdt t = Ok pdt.
Proof.
  intros Hinv Hby. pose proof Hinv as [Hl Hent Hfree]. unfold check_integrity.
  destruct (scan_free_spec (Z.to_nat 0x200) t 0 ∅ 0) as (m & Es & Hm).
  { intros j Hj. destruct (Hent j) as [e E]; [lia|]. exists e. split; [done|]. apply (Hby j); [lia|done]. }
  { intros j Hj. by apply elem_of_empty in Hj. }
  { by rewrite size_empty. }
  rewrite Es. cbn [obind].
  assert (Hm2 : forall i, i ∈ m <-> pages L i).
  { intros i. rewrite Hm, <- Hfree. split; [intros [?%elem_of_empty|[_ ?]]; done|].
    intros Hf. right. split; [|done]. apply Hfree in Hf as (s & n & Hin & Hi).
    pose proof (chain_range _ _ _ _ _ _ (ls_chain _ _ _ Hl) Hin). lia. }
  pose proof (max_size_zero _ _ _ Hl) as Hz.
  destruct (Z.eqb_spec (get_max_size pdt) 0) as [E0|Hne].
  - apply Hz in E0 as ->. assert (m = ∅) as ->.
    { apply set_eq. intros i. rewrite Hm2. split; [intros (? & ? & ?%elem_of_nil & _); done|].
      by intros ?%elem_of_empty. }
    by rewrite size_empty.
  - destruct L as [|[s n] L]; [by destruct Hne; apply Hz|].
    rewrite (ls_head _ _ _ Hl s n L eq_refl).
    pose proof (chain_enc _ _ [] _ _ _ _ (ls_chain _ _ _ Hl)) as He.
    destruct (get_first no_block _ _ _ _ _ He) as (b & Eg & Hd). rewrite Eg. cbn [obind].
    assert (Hpv : prev_valid b = false).
    { pose proof (de_prev _ _ _ _ _ Hd) as Hp. by destruct (n =? 1). }
    rewrite Hpv. cbn [negb ensure obind].
    pose proof (length_blocks _ _ _ _ (ls_chain _ _ _ Hl) (ls_disj _ _ _ Hl)) as Hlen.
    pose proof (chain_range _ _ _ _ s n (ls_chain _ _ _ Hl) (in_middle [] _ _)) as Hr.
    rewrite (check_blocks_spec pdt t [] s n L b); try done; [|cbn in Hlen; lia|lia].
    cbn [obind ensure Z.eqb]. rewrite bool_decide_eq_true_2 by done. cbn [ensure obind].
    rewrite put_max_size_spec by apply (largest_range _ _ _ Hl). cbn [obind].
    change (remain (set_remain ?r pdt)) with r.
    rewrite <- (ls_remain _ _ _ Hl), Z.eqb_refl. cbn [ensure obind].
    f_equal. by destruct pdt.
Qed.

(** ** Every use of a table *)

(** The entry on which [get] stops the machine: the third of a free block that has other than four
    pages. *)
Definition third_entry (t : table) (i : Z) : bool :=
  match t !! i with
  | Some e => is_free e && bool_decide (type e = SIZE) && negb (data e =? 3)
  | None => false
  end.

(** [commit] of an address space gives a reserved entry its page: the assignments of its callback. *)
Definition commit_pte (is_user : bool) (page : Z) (e : PTE) : PTE :=
  Pte true true is_user (wt e) (cd e) (accessed e) (dirty e) false (global e)
      (type e) (valid e) page (data e) (preserve e) (bypass e) true.
Definition commit_entry (t : table) (i : Z) (is_user : bool) (page : Z) : outcome table :=
  let! e := deref (t !! i);
  assert! preserve e && negb (bypass e) && negb (present e);
  Ok (<[i := commit_pte is_user page e]> t).

(** What the address spaces do with a table. *)
Inductive pt_op :=
  | OpAny (count : Z)
  | OpFixed (index count : Z)
  | OpCommit (index : Z) (is_user : bool) (page : Z)
  | OpRelease (index count : Z).

(** The conditions their callers establish. *)
Definition allowed (pdt : PDTE) (t : table) (o : pt_op) : bool :=
  match o with
  | OpAny count => 1 <=? count
  | OpFixed index count =>
      (0 <? get_max_size pdt) && (0 <=? index) && (1 <=? count) && (index + count <=? 512) &&
      negb (third_entry t index)
  | OpCommit index is_user page =>
      match t !! index with
      | Some e => (0 <=? index) && (index <? 512) && preserve e && negb (bypass e) && negb (present e)
      | None => false
      end
  | OpRelease index count =>
      (0 <=? index) && (1 <=? count) && (index + count <=? 512) &&
      forallb (fun j => match t !! j with Some e => releasable e | None => false end)
        (seqZ index count) &&
      negb (third_entry t (index - 1))
  end.

(** The table stands at the second 2M region of an address space; the pages that are given back are
    logged. *)
Definition exec (o : pt_op) (pdt : PDTE) (t : table) (log : list Z)
  : outcome (PDTE * table * list Z) :=
  match o with
  | OpAny count => let! (_, pdt, t) := imp_reserve_any pdt t 0x200000 count; Ok (pdt, t, log)
  | OpFixed index count => let! (_, pdt, t) := imp_reserve_fixed pdt t index count; Ok (pdt, t, log)
  | OpCommit index is_user page => let! t := commit_entry t index is_user page; Ok (pdt, t, log)
  | OpRelease index count =>
      let! (pdt, t, _, log) :=
        imp_release (fun pa log => Ok (pa :: log)) pdt t (0x200000 + Z.shiftl index 12) count 0 log;
      Ok (pdt, t, log)
  end.

Inductive reachable : PDTE -> table -> list Z -> Prop :=
  | reach_new phy_addr pdt t : init_pt phy_addr = Ok (pdt, t) -> reachable pdt t []
  | reach_step o pdt t log pdt' t' log' :
      reachable pdt t log -> allowed pdt t o = true -> exec o pdt t log = Ok (pdt', t', log') ->
      reachable pdt' t' log'.

(** The invariant with what the self-check and the operations ask beside it. *)
Record pt_ok (pdt : PDTE) (t : table) (L : blocks) : Prop := {
  po_inv : pt_inv pdt t L;
  po_present : d_present pdt = true;
  po_bypass : d_bypass pdt = false;
  po_free : forall i e, t !! i = Some e -> is_free e = true -> bypass e = false
}.

Lemma third_entry_spec pdt t L i : pt_inv pdt t L -> third_entry t i = false -> ~ third_page L i.
Proof.
  intros [Hl _ _] Ht (s & n & Hin & -> & H3 & H4).
  destruct (chain_in _ _ _ _ _ _ (ls_chain _ _ _ Hl) Hin) as (p & x & He).
  destruct (enc_size _ _ _ _ _ He H3) as (e & E & Hf & Hty & _ & Hd).
  unfold third_entry in Ht. rewrite E, Hf, Hty, Hd in Ht. cbn in Ht.
  destruct (Z.eqb_spec (n - 1) 3); [lia|done].
Qed.

Lemma three_before_spec pdt t L i : pt_inv pdt t L -> third_entry t (i - 1) = false -> ~ three_before L i.
Proof.
  intros Hinv Ht (s & Hin & <-). eapply third_entry_spec; [done..|].
  exists s, 3. split; [done|]. lia.
Qed.

Lemma same_pdt_flags p q : same_pdt p q -> d_present q = d_present p /\ d_bypass q = d_bypass p.
Proof. unfold same_pdt, set_head, set_remain. destruct p, q. cbn. by intros [=]. Qed.

Lemma core_flags e e' : core e = core e' ->
  bypass e = bypass e' /\ is_free e = is_free e'.
Proof. unfold core, set_link, is_free. destruct e, e'. cbn. intros [=]. by subst. Qed.

(** An entry of the new table comes from one of the old, possibly changed by [f]. *)
Lemma pt_ok_step pdt t L pdt' t' L' (f : Z -> PTE -> PTE) :
  pt_ok pdt t L -> pt_inv pdt' t' L' -> same_pdt pdt pdt' ->
  (forall j, core <$> t' !! j = core ∘ f j <$> t !! j) ->
  (forall j e, t !! j = Some e -> is_free (f j e) = true -> is_free e = false -> bypass (f j e) = false) ->
  (forall j e, bypass (f j e) = bypass e) ->
  pt_ok pdt' t' L'.
Proof.
  intros [H1 H2 H3 H4] Hinv Hs Hc Hf Hb. destruct (same_pdt_flags _ _ Hs) as [E1 E2].
  constructor; [done|congruence|congruence|]. intros i e E Hfe.
  pose proof (Hc i) as Hi. rewrite E in Hi. destruct (t !! i) as [e0|] eqn:E0; [|done].
  apply (inj Some) in Hi. destruct (core_flags _ _ Hi) as [Hb' Hf']. rewrite Hb'.
  destruct (is_free e0) eqn:Ef0.
  - rewrite Hb. by apply (H4 i).
  - apply (Hf i e0); [done|congruence|done].
Qed.

Lemma reserved_step pdt t L pdt' t' L' a count :
  pt_ok pdt t L -> pt_inv pdt' t' L' -> same_pdt pdt pdt' -> reserved t t' a count -> pt_ok pdt' t' L'.
Proof.
  intros Hok Hinv Hs Hr.
  eapply (pt_ok_step _ _ _ _ _ _ (fun j e => if decide (a <= j < a + count) then set_preserve true e else e));
    [done..| | |].
  - intros j. rewrite Hr. case_decide; destruct (t !! j); done.
  - intros j e _. case_decide; [|congruence]. unfold is_free, set_preserve. cbn.
    by rewrite andb_false_r.
  - intros j e. by case_decide.
Qed.

(** An entry that is taken is replaced by another that is: the free runs do not notice. *)
Lemma entry_change pdt t L i e e' : pt_ok pdt t L -> 0 <= i < 512 -> t !! i = Some e -> is_free e = false -> is_free e' = false -> pt_ok pdt (<[i := e']> t) L.
Proof.
  intros Hok Hi E Hfe Hfe'. pose proof (po_inv _ _ _ Hok) as Hinv. pose proof Hinv as [Hl Hent Hfree].
  assert (Hnf : freeb t i = false) by (unfold freeb; by rewrite E).
  set (t' := <[i := e']> t).
  assert (Hfr : forall j, freeb t' j = freeb t j).
  { intros j. unfold t', freeb. destruct (decide (i = j)) as [->|]; [by rewrite lookup_insert_eq, E, Hfe|by rewrite lookup_insert_ne]. }
  assert (Hout : forall j, j <> i -> t' !! j = t !! j) by (intros; by apply lookup_insert_ne).
  constructor; [constructor|apply Hok|apply Hok|].
  - destruct Hl as [H1 H2 H3 H4 H5]. constructor; try done.
    apply (chain_frame_ends t); [| |done].
    + intros j Hj. apply Hout. intros ->. assert (freeb t i = true) by (by apply Hfree). congruence.
    + intros s n Hin Hlt. destruct (chain_in _ _ _ _ _ _ H1 Hin) as (p & x & Henc).
      destruct (enc_end _ _ _ _ _ Henc Hlt) as (e1 & E1 & Hf1).
      destruct (decide (s + n = i)) as [->|]; [|exists e1; by rewrite Hout].
      exists e'. split; [apply lookup_insert_eq|done].
  - intros j Hj. unfold t'. rewrite lookup_insert. case_decide; [eauto|by apply Hent].
  - intros j. rewrite Hfr. apply Hfree.
  - intros j e1. unfold t'. rewrite lookup_insert. case_decide; [intros [= <-]; congruence|apply (po_free _ _ _ Hok)].
Qed.

Lemma commit_entry_spec pdt t L i u page e :
  pt_ok pdt t L -> 0 <= i < 512 -> t !! i = Some e ->
  preserve e && negb (bypass e) && negb (present e) = true ->
  exists t', commit_entry t i u page = Ok t' /\ pt_ok pdt t' L.
Proof.
  intros Hok Hi E He. unfold commit_entry. rewrite E. cbn [deref obind]. rewrite He. cbn [ensure obind].
  eexists. split; [done|]. apply andb_true_iff in He as [[Hp Hb]%andb_true_iff _].
  apply (entry_change pdt t L i e); try done. unfold is_free. rewrite Hp. by rewrite andb_false_r.
Qed.

Lemma region_index index : 0 <= index < 512 ->
  Z.land (Z.shiftr (0x200000 + Z.shiftl index 12) 12) 0x1FF = index.
Proof.
  intros Hi. change 0x1FF with (Z.ones 9). rewrite Z.land_ones by lia.
  rewrite Z.shiftl_mul_pow2, Z.shiftr_div_pow2 by lia. change (2 ^ 12) with 4096.
  change (2 ^ 9) with 512. dlia.
Qed.

Lemma release_all_log l log :
  release_all (fun pa log => Ok (pa :: log)) l log = Ok (rev l ++ log).
Proof.
  revert log. induction l as [|x l IH]; intros log; cbn; [done|]. by rewrite IH, <- app_assoc.
Qed.

Lemma releasable_run (t : table) index count :
  forallb (fun j => match t !! j with Some e => releasable e | None => false end)
    (seqZ index count) = true ->
  forall j, index <= j < index + count -> exists e, t !! j = Some e /\ releasable e = true.
Proof.
  intros H j Hj. rewrite forallb_forall in H. specialize (H j).
  assert (In j (seqZ index count)) as Hin by (apply list_elem_of_In, elem_of_seqZ; lia).
  specialize (H Hin). destruct (t !! j) as [e|]; [by exists e|done].
Qed.

Lemma release_step pdt t L pdt' t' L' index count :
  pt_ok pdt t L -> pt_inv pdt' t' L' -> same_pdt pdt pdt' ->
  (forall j, index <= j < index + count -> exists e, t !! j = Some e /\ releasable e = true) ->
  (forall j, core <$> t' !! j = if decide (index <= j < index + count)
       then core ∘ released_entry <$> t !! j else core <$> t !! j) -> pt_ok pdt' t' L'.
Proof.
  intros Hok Hinv Hs Hr Hc.
  eapply (pt_ok_step _ _ _ _ _ _ (fun j e => if decide (index <= j < index + count) then released_entry e else e));
    [done..| | |].
  - intros j. rewrite Hc. case_decide; destruct (t !! j); done.
  - intros j e E. case_decide as Hd; [|congruence]. intros _ _. destruct (Hr j Hd) as (e' & E' & Hr').
    assert (e' = e) as -> by congruence. unfold releasable in Hr'.
    apply andb_true_iff in Hr' as [Hb _]. apply negb_true_iff in Hb. rewrite <- Hb.
    unfold released_entry. by case_match.
  - intros j e. case_decide; [|done]. unfold released_entry. by case_match.
Qed.

Lemma exec_ok o pdt t log L : pt_ok pdt t L -> allowed pdt t o = true ->
  exists pdt' t' log' L', exec o pdt t log = Ok (pdt', t', log') /\ pt_ok pdt' t' L'.
Proof.
  intros Hok Ha. pose proof (po_inv _ _ _ Hok) as Hinv.
  pose proof (po_present _ _ _ Hok) as Hp. pose proof (po_bypass _ _ _ Hok) as Hb.
  destruct o as [count|index count|index u page|index count]; cbn [exec allowed] in *.
  - apply Z.leb_le in Ha. pose proof (imp_reserve_any_spec pdt t L 0x200000 count Hinv Ha Hp Hb) as H.
    destruct (get_max_size pdt <? count).
    + rewrite H. cbn [obind]. by exists pdt, t, log, L.
    + destruct H as (a & pdt' & t' & L' & E & _ & _ & _ & Hr & Hinv' & Hs). rewrite E. cbn [obind].
      exists pdt', t', log, L'. split; [done|]. by eapply reserved_step.
  - bool_norm. assert (Hne : L <> []).
    { intros ->. pose proof (proj2 (max_size_zero _ _ _ (pi_listed _ _ _ Hinv)) eq_refl). lia. }
    pose proof (imp_reserve_fixed_spec pdt t L index count Hinv Hne) as Hfx.
    assert (Ht : ~ third_page L index) by (eapply third_entry_spec; done).
    specialize (Hfx ltac:(done) ltac:(done) ltac:(done) Hp Hb Ht). destruct (bool_decide _).
    + destruct Hfx as (pdt' & t' & L' & E & Hr & Hinv' & Hs). rewrite E. cbn [obind].
      exists pdt', t', log, L'. split; [done|]. by eapply reserved_step.
    + rewrite Hfx. cbn [obind]. by exists pdt, t, log, L.
  - destruct (t !! index) as [e|] eqn:E; [|done].
    destruct (commit_entry_spec pdt t L index u page e Hok) as (t' & E' & Hok').
    + bool_norm. lia.
    + done.
    + bool_norm. by rewrite !andb_true_iff, !negb_true_iff.
    + rewrite E'. cbn [obind]. by exists pdt, t', log, L.
  - bool_norm. match goal with H : forallb _ _ = true |- _ => pose proof (releasable_run _ _ _ H) as Hr end.
    assert (Ht : ~ three_before L index) by (eapply three_before_spec; done).
    pose proof (imp_release_spec (fun pa log => Ok (pa :: log)) pdt t L (0x200000 + Z.shiftl index 12) count 0 log) as Hrel.
    cbn zeta in Hrel. rewrite region_index in Hrel by lia.
    assert (0 < 0x200000 + Z.shiftl index 12) by (rewrite Z.shiftl_mul_pow2 by lia; lia).
    destruct (Hrel (rev (mapped_pages (Z.to_nat count) t index) ++ log)) as (pdt' & t' & L' & E & Hinv' & Hs & Hc);
      [done..|apply release_all_log|].
    rewrite wrap_small in E at 1 by lia. rewrite E. cbn [obind].
    eexists pdt', t', _, L'. split; [done|]. by eapply release_step.
Qed.

(** ** The properties *)

Lemma reachable_ok pdt t log : reachable pdt t log -> exists L, pt_ok pdt t L.
Proof.
  induction 1 as [pa pdt t E|o pdt t log pdt' t' log' _ (L & Hok) Ha E].
  - destruct (init_pt_spec pa) as (pdt0 & t0 & E0 & Hinv & Hp & Hb & _ & Hf).
    rewrite E in E0. injection E0 as <- <-. exists [(0, 512)]. clear E. constructor; [exact Hinv|exact Hp|exact Hb|].
    intros i e Hi _. by apply core_zero, (Hf i e).
  - destruct (exec_ok o pdt t log L Hok Ha) as (pdt1 & t1 & log1 & L1 & E1 & Hok1).
    rewrite E in E1. injection E1 as <- <- <-. by exists L1.
Qed.

(** C4. A page table from its creation on: whatever reservations, commits and releases the address
    space makes of it, no assertion of the table's methods fails, every operation returns, and the
    self-check of the test build accepts the result: list and entries describe exactly the maximal
    runs of free entries, sorted by size, and the directory entry holds the rounded largest size. *)
Theorem page_table_safe pdt t log o :
  reachable pdt t log -> allowed pdt t o = true ->
  check_integrity pdt t = Ok pdt /\
  exists pdt' t' log', exec o pdt t log = Ok (pdt', t', log') /\ check_integrity pdt' t' = Ok pdt'.
Proof.
  intros Hr Ha. apply reachable_ok in Hr as (L & Hok).
  assert (Hch : forall pdt t L, pt_ok pdt t L -> check_integrity pdt t = Ok pdt).
  { intros pdt0 t0 L0 [H1 _ _ H4]. eapply pt_check_integrity_spec; [done|]. intros i e _. apply H4. }
  destruct (exec_ok o pdt t log L Hok Ha) as (pdt1 & t1 & log1 & L1 & E1 & Hok1).
  split; [by eapply Hch|]. exists pdt1, t1, log1. split; [done|]. by eapply Hch.
Qed.

(** [imp_reserve_any] is refused, without a change, exactly when the rounded size of the largest
    block is below the request; it never is for a table with a larger block that the rounding does not
    hide.  Otherwise the address returned is that of [count] free pages inside the table: they are
    reserved now, every other page keeps its state, and the invariant holds again. *)
Theorem reserve_any_correct pdt t L base count :
  pt_inv pdt t L -> 1 <= count -> d_present pdt = true -> d_bypass pdt = false ->
  get_max_size pdt = max_of (rem_of (largest L)) /\ get_max_size pdt <= largest L /\
  if get_max_size pdt <? count
  then imp_reserve_any pdt t base count = Ok (0, pdt, t)
  else exists a pdt' t' L', imp_reserve_any pdt t base count = Ok (w64 (base + Z.shiftl a 12), pdt', t') /\
    0 <= a /\ a + count <= 512 /\ (forall i, a <= i < a + count -> freeb t i = true) /\
    reserved t t' a count /\ pt_inv pdt' t' L' /\ same_pdt pdt pdt'.
Proof.
  intros Hinv Hc Hp Hb. pose proof (pi_listed _ _ _ Hinv) as Hl.
  rewrite get_max_size_eq, (ls_remain _ _ _ Hl). split; [done|].
  split; [apply rounding_at, (largest_range _ _ _ Hl)|].
  rewrite <- (ls_remain _ _ _ Hl). apply (imp_reserve_any_spec pdt t L base count Hinv Hc Hp Hb).
Qed.

(** [imp_reserve_fixed] reserves exactly the pages asked for when all are free, and answers
    false without a change when one is not; but it stops the machine, whatever the request, when the
    first page is the third of a free block that has not exactly four pages. *)
Theorem reserve_fixed_correct pdt t L index count :
  pt_inv pdt t L -> L <> [] -> 0 <= index -> 1 <= count -> index + count <= 512 ->
  d_present pdt = true -> d_bypass pdt = false ->
  (third_page L index -> imp_reserve_fixed pdt t index count = Bug) /\
  (~ third_page L index ->
   if bool_decide (Forall (fun i => freeb t i = true) (seqZ index count))
   then exists pdt' t' L', imp_reserve_fixed pdt t index count = Ok (true, pdt', t') /\
     reserved t t' index count /\ pt_inv pdt' t' L' /\ same_pdt pdt pdt'
   else imp_reserve_fixed pdt t index count = Ok (false, pdt, t)).
Proof.
  intros Hinv Hne Hi Hc Hic Hp Hb. split.
  - by apply imp_reserve_fixed_third.
  - by apply imp_reserve_fixed_spec.
Qed.

(** [imp_release] gives back exactly the pages named: those with a physical page return it to the
    page allocator, lowest first, and are counted out of [used_pages]; all become free, merged with the
    free blocks on both sides, and every other entry keeps its state.  The block before must not have
    exactly three pages. *)
Theorem pt_release_correct {S} (release_page : Z -> S -> outcome S) pdt t L base count used s s' :
  let index := Z.land (Z.shiftr base 12) 0x1FF in
  pt_inv pdt t L -> 0 < base -> 1 <= count -> index + count <= 512 ->
  d_present pdt = true -> d_bypass pdt = false ->
  (forall j, index <= j < index + count -> exists e, t !! j = Some e /\ releasable e = true) ->
  ~ three_before L index ->
  release_all release_page (mapped_pages (Z.to_nat count) t index) s = Ok s' ->
  exists pdt' t' L', imp_release release_page pdt t base count (w64 used) s =
      Ok (pdt', t', w64 (used - Z.of_nat (length (mapped_pages (Z.to_nat count) t index))), s') /\
    pt_inv pdt' t' L' /\ same_pdt pdt pdt' /\
    (forall j, core <$> t' !! j = if decide (index <= j < index + count)
       then core ∘ released_entry <$> t !! j else core <$> t !! j).
Proof. apply imp_release_spec. Qed.

(** ** A concrete table *)

(** Pages 8 and 9 of a new table are reserved. *)
Definition demo : outcome (PDTE * table * list Z) :=
  let! (pdt, t) := init_pt 0x5000; exec (OpFixed 8 2) pdt t [].

Definition demo_facts (x : outcome (PDTE * table * list Z)) : bool :=
  match x with
  | Ok (pdt, t, log) =>
      allowed pdt t (OpRelease 8 1) && allowed pdt t (OpCommit 9 false 7) && (get_max_size pdt =? 456)
  | _ => false
  end.

Lemma pt_demo_ok : demo_facts demo = true.
Proof. vm_compute. reflexivity. Qed.

Lemma demo_state : exists pdt t, reachable pdt t [] /\ allowed pdt t (OpRelease 8 1) = true /\
  allowed pdt t (OpCommit 9 false 7) = true.
Proof.
  pose proof pt_demo_ok as H. unfold demo in H.
  destruct (init_pt 0x5000) as [[pdt t]| |] eqn:E; cbn [obind] in H; [|done|done].
  destruct (exec (OpFixed 8 2) pdt t []) as [[[pdt1 t1] log1]| |] eqn:E1; [|done|done].
  assert (Hlog : log1 = []).
  { cbn [exec] in E1. apply bind_Ok_inv in E1 as ([[? ?] ?] & _ & [= _ _ <-]). reflexivity. }
  subst log1. unfold demo_facts in H. bool_norm. exists pdt1, t1. split; [|split; assumption].
  eapply (reach_step (OpFixed 8 2)); [exact (reach_new _ _ _ E)| |exact E1]. clear E1.
  destruct (init_pt_spec 0x5000) as (pdt0 & t0 & E0 & Hinv & _).
  rewrite E in E0. injection E0 as <- <-. clear E.
  pose proof (max_size_zero _ _ _ (pi_listed _ _ _ Hinv)) as Hz.
  cbn [allowed]. assert (Hm : 0 < get_max_size pdt).
  { rewrite get_max_size_eq, (ls_remain _ _ _ (pi_listed _ _ _ Hinv)). vm_compute. done. }
  rewrite (proj2 (Z.ltb_lt _ _) Hm). cbn [andb Z.leb Z.add Z.compare Pos.compare Pos.add].
  destruct (third_entry t 8) eqn:Et; [|done]. exfalso.
  pose proof (enc_off _ _ _ _ _ (chain_enc _ _ [] _ _ _ _ (ls_chain _ _ _ (pi_listed _ _ _ Hinv))) 8) as He.
  destruct He as (e & E8 & _ & Hty & _); [lia|]. change (0 + 8) with 8 in E8. unfold third_entry in Et.
  rewrite E8, Hty in Et. by rewrite andb_false_r in Et.
Qed.

Lemma page_table_safe_witness : exists pdt t,
  check_integrity pdt t = Ok pdt /\
  exists pdt' t' log', exec (OpRelease 8 1) pdt t [] = Ok (pdt', t', log') /\
    check_integrity pdt' t' = Ok pdt'.
Proof.
  destruct demo_state as (pdt & t & Hr & Ha & _). exists pdt, t.
  apply (page_table_safe pdt t [] (OpRelease 8 1) Hr Ha).
Defined.

Lemma reserve_any_correct_witness : exists pdt t,
  init_pt 0x5000 = Ok (pdt, t) /\ get_max_size pdt = 512 /\
  exists a pdt' t', imp_reserve_any pdt t 0x200000 100 = Ok (w64 (0x200000 + Z.shiftl a 12), pdt', t') /\
    reserved t t' a 100.
Proof.
  destruct (init_pt_spec 0x5000) as (pdt & t & E & Hinv & Hp & Hb & _). exists pdt, t.
  split; [exact E|]. clear E.
  destruct (reserve_any_correct pdt t [(0, 512)] 0x200000 100 Hinv ltac:(lia) Hp Hb) as (Hm & _ & H).
  assert (Hm' : get_max_size pdt = 512) by (rewrite Hm; vm_compute; reflexivity).
  split; [exact Hm'|]. rewrite Hm' in H. cbn [Z.ltb Z.compare Pos.compare Pos.compare_cont] in H.
  destruct H as (a & pdt' & t' & L' & E' & _ & _ & _ & Hr & _). by exists a, pdt', t'.
Defined.

Lemma reserve_fixed_correct_witness : exists pdt t,
  init_pt 0x5000 = Ok (pdt, t) /\ imp_reserve_fixed pdt t 2 1 = Bug /\
  exists pdt' t', imp_reserve_fixed pdt t 8 2 = Ok (true, pdt', t') /\ reserved t t' 8 2.
Proof.
  destruct (init_pt_spec 0x5000) as (pdt & t & E & Hinv & Hp & Hb & _). exists pdt, t.
  split; [exact E|]. clear E. assert (Hne : [(0, 512)] <> @nil (Z * Z)) by discriminate. split.
  - apply (reserve_fixed_correct pdt t [(0, 512)] 2 1 Hinv Hne); try lia; try done.
    exists 0, 512. split; [by left|lia].
  - destruct (reserve_fixed_correct pdt t [(0, 512)] 8 2 Hinv Hne) as [_ H]; try lia; try done.
    rewrite bool_decide_eq_true_2 in H.
    + destruct H as (pdt' & t' & L' & E' & Hr & _).
      * intros (s & n & [= -> ->]%list_elem_of_singleton & ? & _). lia.
      * by exists pdt', t'.
    + apply Forall_forall. intros i Hi%elem_of_seqZ. apply (pi_free _ _ _ Hinv).
      exists 0, 512. split; [by left|lia].
Defined.

Lemma pt_release_correct_witness : exists pdt t pdt' t',
  imp_release (fun pa (l : list Z) => Ok (pa :: l)) pdt t 0x208000 1 (w64 5) [] = Ok (pdt', t', w64 5, []).
Proof.
  destruct (init_pt_spec 0x5000) as (pdt0 & t0 & _ & Hinv & Hp & Hb & _ & Hz).
  assert (Hne : [(0, 512)] <> @nil (Z * Z)) by discriminate.
  pose proof (imp_reserve_fixed_spec pdt0 t0 [(0, 512)] 8 1 Hinv Hne ltac:(lia) ltac:(lia) ltac:(lia) Hp Hb) as H.
  rewrite bool_decide_eq_true_2 in H.
  2: { apply Forall_forall. intros i Hi%elem_of_seqZ. apply (pi_free _ _ _ Hinv).
       exists 0, 512. split; [by left|lia]. }
  destruct H as (pdt & t & L & _ & Hr & Hinv' & Hs).
  { intros (s & n & [= -> ->]%list_elem_of_singleton & ? & _). lia. }
  destruct (same_pdt_flags _ _ Hs) as [Hp' Hb'].
  exists pdt, t.
  assert (H8 : exists e, t !! 8 = Some e /\ releasable e = true /\ mapped e = false).
  { destruct (pi_entries _ _ _ Hinv 8 ltac:(lia)) as [e0 E0]. destruct (core_zero _ (Hz _ _ E0)) as [Hby Hf].
    pose proof (Hr 8) as H8. rewrite decide_True, E0 in H8 by lia.
    destruct (t !! 8) as [e|]; [|done]. exists e. split; [done|]. apply (inj Some) in H8.
    unfold releasable, mapped, is_free, core, set_preserve, set_link in *. destruct e, e0. cbn in *.
    injection H8 as ?. subst. apply andb_true_iff in Hf as [Hf _]. apply negb_true_iff in Hf. by subst. }
  destruct H8 as (e & E8 & Hrel & Hm).
  assert (Hmp : mapped_pages (Z.to_nat 1) t 8 = []).
  { change (Z.to_nat 1) with 1%nat. cbn [mapped_pages]. by rewrite E8, Hm. }
  destruct (pt_release_correct (fun pa (l : list Z) => Ok (pa :: l)) pdt t L 0x208000 1 5 [] [])
    as (pdt' & t' & L' & E' & _); try done; try lia; try congruence.
  - intros j Hj. change (Z.land (Z.shiftr 0x208000 12) 0x1FF) with 8 in Hj.
    assert (j = 8) as -> by lia. by exists e.
  - intros (s & Hin & Hsn). change (Z.land (Z.shiftr 0x208000 12) 0x1FF) with 8 in Hsn.
    destruct (third_entry t 7) eqn:E7.
    + pose proof (Hr 7) as H7. rewrite decide_False in H7 by lia.
      assert (s = 5) as -> by lia.
      assert (Hf4 : freeb t 4 = true).
      { rewrite (freeb_core t0 t 4) by (rewrite Hr, decide_False by lia; done).
        apply (pi_free _ _ _ Hinv). exists 0, 512. split; [by left|lia]. }
      apply list_elem_of_split in Hin as (A & B & ->).
      pose proof (block_start _ _ _ _ _ _ Hinv' ltac:(lia)) as H4. change (5 - 1) with 4 in H4. congruence.
    + eapply (three_before_spec pdt t L 8); [done|done|]. by exists s.
  - change (Z.land (Z.shiftr 0x208000 12) 0x1FF) with 8. by rewrite Hmp.
  - exists pdt', t'. rewrite E'. change (Z.land (Z.shiftr 0x208000 12) 0x1FF) with 8. by rewrite Hmp.
Defined.
End PageTable.
