(* ===== verification/Timer.v ===== *)
(** * The timer (src/kernel/dev/timer.cpp, src/kernel/dev/include/timer.hpp)

    Pending callbacks stand in a delta queue: [diff_tick] of an entry counts from the moment the entry
    before it is due.  A ticket that is not in [record] any more was cancelled and its entry is dropped
    when it comes to the front.  Callbacks run with the timer locked and do not call back into it; the
    model returns the calls made, in order.  The linked list is a list ([LinkedList.v]), the hash set
    [record] a finite set of tickets. *)

From S2P Require Import Prelude.

Module Timer.

Definition heartbeat_us : Z := 1000.
Definition heartbeat_hz : Z := (1000 * 1000) / heartbeat_us.

(** [queue_type]. *)
Record entry := Entry { ticket : Z; diff_tick : Z; func : Z; arg : Z; interval : Z }.

Record basic_timer := Timer {
  beat_counter : Z; running_us : Z; conductor : Z;
  record : gset Z;
  delta_queue : list entry
}.

Definition set_diff (d : Z) (e : entry) : entry := Entry (ticket e) d (func e) (arg e) (interval e).

(** A call of a callback: function, ticket, argument. *)
Abbreviation call := (Z * Z * Z)%type.

(** The search of [wait] and of the second loop of [step] for the place of [e]. *)
Fixpoint place (q : list entry) (delta : Z) (e : entry) : list entry :=
  match q with
  | [] => [set_diff delta e]
  | it :: q' =>
      if delta <=? diff_tick it
      then set_diff delta e :: set_diff (diff_tick it - delta) it :: q'
      else it :: place q' (delta - diff_tick it) e
  end.

Definition wait (us func arg : Z) (repeat : bool) (t : basic_timer) : Z * basic_timer :=
  let ticket := w64 (conductor t + 1) in
  let total_tick := Z.max (us / heartbeat_us) 1 in
  let e := Entry ticket total_tick func arg (if repeat then total_tick else 0) in
  (ticket, Timer (beat_counter t) (running_us t) ticket ({[ticket]} ∪ record t)
             (place (delta_queue t) total_tick e)).

Definition cancel (ticket : Z) (t : basic_timer) : bool * basic_timer :=
  if bool_decide (ticket ∈ record t)
  then (true, Timer (beat_counter t) (running_us t) (conductor t) (record t ∖ {[ticket]})
                (delta_queue t))
  else (false, t).

(** The first loop of [step]. *)
Fixpoint fire (q : list entry) (count : Z) (rec : gset Z) (periodic_list : list entry)
  : list entry * gset Z * list entry * list call :=
  match q with
  | [] => ([], rec, periodic_list, [])
  | cur :: q' =>
      if count <? diff_tick cur
      then (set_diff (diff_tick cur - count) cur :: q', rec, periodic_list, [])
      else
        let count := count - diff_tick cur in
        if bool_decide (ticket cur ∈ rec) then
          let '(q'', rec', periodic', calls) :=
            (if interval cur =? 0
             then fire q' count (rec ∖ {[ticket cur]}) periodic_list
             else fire q' count rec
                    (set_diff (if count <? interval cur then interval cur - count else 0) cur
                       :: periodic_list)) in
          (q'', rec', periodic', (func cur, ticket cur, arg cur) :: calls)
        else fire q' count rec periodic_list
  end.

(** The second loop of [step]. *)
Fixpoint requeue (periodic_list q : list entry) : list entry :=
  match periodic_list with
  | [] => q
  | cur :: periodic_list => requeue periodic_list (place q (diff_tick cur) cur)
  end.

Definition step (count : Z) (t : basic_timer) : outcome (basic_timer * list call) :=
  assert! truth count;
  let '(q, rec, periodic_list, calls) := fire (delta_queue t) count (record t) [] in
  Ok (Timer (beat_counter t) (running_us t) (conductor t) rec (requeue periodic_list q), calls).

Definition add_running (us : Z) (t : basic_timer) : basic_timer :=
  Timer (beat_counter t) (w64 (running_us t + us)) (conductor t) (record t) (delta_queue t).
Definition set_beat (b : Z) (t : basic_timer) : basic_timer :=
  Timer b (running_us t) (conductor t) (record t) (delta_queue t).

(** The heartbeats a second lacked. *)
Definition adjust_tick (t : basic_timer) : Z :=
  if beat_counter t <? heartbeat_hz then heartbeat_hz - beat_counter t else 0.

Definition on_second (t : basic_timer) : outcome (basic_timer * list call) :=
  let adjust_tick := adjust_tick t in
  let t := set_beat 0 t in
  let t := add_running (heartbeat_us * adjust_tick) t in
  if truth adjust_tick then step adjust_tick t else Ok (t, []).

Definition on_timer (t : basic_timer) : outcome (basic_timer * list call) :=
  let t := set_beat (w32 (beat_counter t + 1)) t in
  let t := add_running heartbeat_us t in
  step 1 t.

(** ** The queue as deadlines *)

(** What an entry says beside its place in the queue. *)
Record job := Job { j_ticket : Z; j_func : Z; j_arg : Z; j_interval : Z }.
Definition job_of (e : entry) : job := Job (ticket e) (func e) (arg e) (interval e).

(** The jobs with the number of ticks from now at which they are due. *)
Fixpoint dues (base : Z) (q : list entry) : list (Z * job) :=
  match q with
  | [] => []
  | e :: q => (base + diff_tick e, job_of e) :: dues (base + diff_tick e) q
  end.

Definition diffs_ok (q : list entry) : Prop := Forall (fun e => 0 <= diff_tick e) q.

Lemma dues_shift b c q : dues (b + c) q = (fun x => (x.1 + c, x.2)) <$> dues b q.
Proof.
  revert b. induction q as [|e q IH]; intros b; cbn; [done|].
  rewrite <- IH. f_equal; [f_equal; lia|f_equal; lia].
Qed.

Lemma dues_lower b q : diffs_ok q -> Forall (fun x => b <= x.1) (dues b q).
Proof.
  intros Hq. revert b. induction Hq as [|e q He Hq IH]; intros b; cbn; constructor; cbn; [lia|].
  eapply Forall_impl; [apply IH|]. cbn. lia.
Qed.

Lemma dues_sorted b q : diffs_ok q -> StronglySorted (fun x y => x.1 <= y.1) (dues b q).
Proof.
  intros Hq. revert b. induction Hq as [|e q He Hq IH]; intros b; cbn; constructor; [done|].
  eapply Forall_impl; [by apply dues_lower|]. done.
Qed.

Lemma dues_set_diff b d e q : dues b (set_diff d e :: q) = (b + d, job_of e) :: dues (b + d) q.
Proof. reflexivity. Qed.

(** [place] inserts a job before the first one that is not due earlier, and moves no other. *)
Lemma place_spec b q d e : 0 <= d -> diffs_ok q ->
  diffs_ok (place q d e) /\
  exists D1 D2, dues b q = D1 ++ D2 /\ dues b (place q d e) = D1 ++ (b + d, job_of e) :: D2 /\
    Forall (fun x => x.1 < b + d) D1 /\ Forall (fun x => b + d <= x.1) D2.
Proof.
  intros Hd Hq. revert b d Hd. induction Hq as [|it q Hit Hq IH]; intros b d Hd; cbn [place].
  - split; [by constructor|]. exists [], []. by rewrite dues_set_diff.
  - destruct (Z.leb_spec d (diff_tick it)).
    + split; [constructor; [done|]; constructor; [cbn; lia|done]|].
      exists [], (dues b (it :: q)). split; [done|]. rewrite !dues_set_diff. cbn [dues app].
      replace (b + d + (diff_tick it - d)) with (b + diff_tick it) by lia.
      split; [done|]. split; [constructor|].
      constructor; [cbn; lia|]. eapply Forall_impl; [by apply dues_lower|]. cbn. lia.
    + destruct (IH (b + diff_tick it) (d - diff_tick it)) as (Hok & D1 & D2 & E & E' & H1 & H2); [lia|].
      split; [by constructor|]. exists ((b + diff_tick it, job_of it) :: D1), D2. cbn [dues].
      rewrite E, E'. replace (b + diff_tick it + (d - diff_tick it)) with (b + d) in * by lia.
      split; [done|]. split; [done|]. split; [|done]. constructor; [cbn; lia|done].
Qed.

Lemma place_perm b q d e : 0 <= d -> diffs_ok q ->
  diffs_ok (place q d e) /\ dues b (place q d e) ≡ₚ (b + d, job_of e) :: dues b q.
Proof.
  intros Hd Hq. destruct (place_spec b q d e Hd Hq) as (Hok & D1 & D2 & -> & -> & _).
  split; [done|]. symmetry. apply Permutation_middle.
Qed.

(** ** One step *)

Definition tickets (D : list (Z * job)) : list Z := (fun x => j_ticket x.2) <$> D.

Definition live (rec : gset Z) (x : Z * job) : Prop := j_ticket x.2 ∈ rec.
#[export] Instance live_dec rec x : Decision (live rec x) := decide (j_ticket x.2 ∈ rec).

(** The jobs that come to the front within [count] ticks. *)
Definition expired (count : Z) (D : list (Z * job)) : list (Z * job) :=
  filter (fun x => x.1 <= count) D.
Definition waiting (count : Z) (D : list (Z * job)) : list (Z * job) :=
  (fun x => (x.1 - count, x.2)) <$> filter (fun x => count < x.1) D.
(** The calls of the jobs that were not cancelled, earliest first. *)
Definition calls_of (rec : gset Z) (D : list (Z * job)) : list call :=
  (fun x => (j_func x.2, j_ticket x.2, j_arg x.2)) <$> filter (live rec) D.
(** When a periodic job that was due [d] ticks from the start is due again. *)
Definition again (count : Z) (x : Z * job) : Z * job :=
  (Z.max 0 (j_interval x.2 - (count - x.1)), x.2).
Definition renewed (rec : gset Z) (count : Z) (D : list (Z * job)) : list (Z * job) :=
  again count <$> filter (fun x => live rec x /\ j_interval x.2 <> 0) D.
Definition one_shots (rec : gset Z) (D : list (Z * job)) : gset Z :=
  list_to_set (tickets (filter (fun x => live rec x /\ j_interval x.2 = 0) D)).

Lemma tickets_app D D' : tickets (D ++ D') = tickets D ++ tickets D'.
Proof. apply fmap_app. Qed.

Lemma filter_none {A} (P : A -> Prop) `{forall x, Decision (P x)} l :
  Forall (fun x => ~ P x) l -> filter P l = [].
Proof. induction 1 as [|x l Hx _ IH]; [done|]. by rewrite filter_cons_False. Qed.

Lemma filter_all {A} (P : A -> Prop) `{forall x, Decision (P x)} l :
  Forall P l -> filter P l = l.
Proof. induction 1 as [|x l Hx _ IH]; [done|]. by rewrite filter_cons_True, IH. Qed.

Lemma list_filter_ext {A} (P Q : A -> Prop) `{forall x, Decision (P x)} `{forall x, Decision (Q x)} l :
  Forall (fun x => P x <-> Q x) l -> filter P l = filter Q l.
Proof.
  induction 1 as [|x l Hx _ IH]; [done|]. destruct (decide (P x)).
  - rewrite !filter_cons_True by tauto. by rewrite IH.
  - rewrite !filter_cons_False by tauto. done.
Qed.

Definition shift (c : Z) (D : list (Z * job)) : list (Z * job) := (fun x => (x.1 + c, x.2)) <$> D.

Lemma filter_shift P Q c D `{forall x, Decision (P x)} `{forall x, Decision (Q x)} :
  (forall x, P (x.1 + c, x.2) <-> Q x) -> filter P (shift c D) = shift c (filter Q D).
Proof.
  intros Hpq. induction D as [|x D IH]; [done|]. cbn [shift fmap list_fmap].
  destruct (decide (Q x)).
  - rewrite (filter_cons_True P), (filter_cons_True Q) by (rewrite ?Hpq; assumption).
    cbn. f_equal. exact IH.
  - rewrite (filter_cons_False P), (filter_cons_False Q) by (rewrite ?Hpq; assumption). exact IH.
Qed.

Lemma expired_shift count c D : expired count (shift c D) = shift c (expired (count - c) D).
Proof. apply filter_shift. cbn. lia. Qed.

Lemma waiting_shift count c D : waiting count (shift c D) = waiting (count - c) D.
Proof.
  unfold waiting.
  pose proof (filter_shift (fun x => count < x.1) (fun x => count - c < x.1) c D ltac:(cbn; lia)) as ->.
  unfold shift. rewrite <- list_fmap_compose. apply list_fmap_ext. intros i x _. cbn. f_equal. lia.
Qed.

Lemma calls_of_shift rec c D : calls_of rec (shift c D) = calls_of rec D.
Proof.
  unfold calls_of. pose proof (filter_shift (live rec) (live rec) c D ltac:(done)) as ->.
  unfold shift. by rewrite <- list_fmap_compose.
Qed.

Lemma renewed_shift rec count c D : renewed rec count (shift c D) = renewed rec (count - c) D.
Proof.
  unfold renewed. pose proof (filter_shift (fun x => live rec x /\ j_interval x.2 <> 0)
    (fun x => live rec x /\ j_interval x.2 <> 0) c D ltac:(done)) as ->.
  unfold shift. rewrite <- list_fmap_compose. apply list_fmap_ext. intros i x _.
  unfold again. cbn. f_equal. lia.
Qed.

Lemma one_shots_shift rec c D : one_shots rec (shift c D) = one_shots rec D.
Proof.
  unfold one_shots. pose proof (filter_shift (fun x => live rec x /\ j_interval x.2 = 0)
    (fun x => live rec x /\ j_interval x.2 = 0) c D ltac:(done)) as ->.
  unfold tickets, shift. by rewrite <- list_fmap_compose.
Qed.

Lemma tickets_shift c D : tickets (shift c D) = tickets D.
Proof. unfold tickets, shift. by rewrite <- list_fmap_compose. Qed.

Lemma dues_0_shift c q : dues c q = shift c (dues 0 q).
Proof. apply (dues_shift 0 c). Qed.

(** Taking a ticket out of the record changes nothing for jobs with other tickets. *)
Lemma live_other rec t x : j_ticket x.2 <> t -> live (rec ∖ {[t]}) x <-> live rec x.
Proof. unfold live. rewrite elem_of_difference, elem_of_singleton. tauto. Qed.

Lemma others (t : Z) (D : list (Z * job)) : t ∉ tickets D -> Forall (fun x => j_ticket x.2 <> t) D.
Proof.
  intros Ht. apply Forall_forall. intros x Hx E. apply Ht, list_elem_of_fmap. by exists x.
Qed.

Lemma expired_tickets t count D : t ∉ tickets D -> t ∉ tickets (expired count D).
Proof.
  intros Ht (x & -> & Hx)%list_elem_of_fmap. apply Ht, list_elem_of_fmap. exists x.
  split; [done|]. by apply list_elem_of_filter in Hx as [_ ?].
Qed.

Lemma drop_ticket rec t count D : t ∉ tickets D ->
  calls_of (rec ∖ {[t]}) D = calls_of rec D /\ renewed (rec ∖ {[t]}) count D = renewed rec count D /\
  one_shots (rec ∖ {[t]}) D = one_shots rec D.
Proof.
  intros Ht%others. unfold calls_of, renewed, one_shots.
  split; [|split]; do 2 f_equal; apply list_filter_ext; (eapply Forall_impl; [exact Ht|]);
    intros x Hx; cbv beta; pose proof (live_other rec t x Hx); tauto.
Qed.

(** The entries of the list of periodic jobs, each with the ticks until it is due again. *)
Definition entries (P : list entry) : list (Z * job) := (fun e => (diff_tick e, job_of e)) <$> P.

Lemma one_shots_cons rec x D : one_shots rec (x :: D) =
  if decide (live rec x /\ j_interval x.2 = 0) then {[j_ticket x.2]} ∪ one_shots rec D
  else one_shots rec D.
Proof. unfold one_shots. rewrite filter_cons. by case_decide. Qed.

Lemma renewed_cons rec count x D : renewed rec count (x :: D) =
  if decide (live rec x /\ j_interval x.2 <> 0) then again count x :: renewed rec count D
  else renewed rec count D.
Proof. unfold renewed. rewrite filter_cons. by case_decide. Qed.

Lemma calls_cons rec x D : calls_of rec (x :: D) =
  if decide (live rec x) then (j_func x.2, j_ticket x.2, j_arg x.2) :: calls_of rec D
  else calls_of rec D.
Proof. unfold calls_of. rewrite filter_cons. by case_decide. Qed.

Lemma fire_spec q count rec per : diffs_ok q -> NoDup (tickets (dues 0 q)) ->
  0 <= count -> exists q' P,
  fire q count rec per = (q', rec ∖ one_shots rec (expired count (dues 0 q)), P ++ per,
    calls_of rec (expired count (dues 0 q))) /\
  diffs_ok q' /\ dues 0 q' = waiting count (dues 0 q) /\ diffs_ok P /\
  entries P ≡ₚ renewed rec count (expired count (dues 0 q)).
Proof.
  intros Hq. revert count rec per.
  induction Hq as [|cur q Hc Hq IH]; intros count rec per Hnd Hcount; cbn [fire].
  { exists [], []. split; [|split; [constructor|split; [done|split; [constructor|done]]]].
    unfold one_shots. cbn. by rewrite difference_empty_L. }
  destruct (Z.ltb_spec count (diff_tick cur)) as [Hlt|Hge].
  - assert (Hall : Forall (fun x => count < x.1) (dues 0 (cur :: q))).
    { cbn [dues]. constructor; [cbn; lia|]. eapply Forall_impl; [by apply dues_lower|]. cbn. lia. }
    assert (expired count (dues 0 (cur :: q)) = []) as ->.
    { apply filter_none. eapply Forall_impl; [exact Hall|]. cbn. lia. }
    eexists _, []. split; [cbn; unfold one_shots; cbn; by rewrite difference_empty_L|].
    split; [constructor; [cbn; lia|done]|]. split; [|split; [constructor|done]].
    unfold waiting. rewrite (filter_all _ _ Hall). rewrite dues_set_diff. cbn [dues fmap list_fmap fst snd].
    f_equal. rewrite (dues_0_shift (0 + _)), (dues_0_shift (0 + diff_tick cur)).
    unfold shift. rewrite <- list_fmap_compose. apply list_fmap_ext. intros i x _. cbn. f_equal. lia.
  - assert (HD : dues 0 (cur :: q) = (diff_tick cur, job_of cur) :: shift (diff_tick cur) (dues 0 q)).
    { cbn [dues]. rewrite Z.add_0_l. by rewrite (dues_0_shift (diff_tick cur)). }
    rewrite HD in *. set (D := dues 0 q) in *. set (d := diff_tick cur) in *.
    assert (Hexp : expired count ((d, job_of cur) :: shift d D) =
      (d, job_of cur) :: shift d (expired (count - d) D)).
    { unfold expired at 1. rewrite filter_cons_True by (cbn; lia). f_equal. apply expired_shift. }
    assert (Hwait : waiting count ((d, job_of cur) :: shift d D) = waiting (count - d) D).
    { rewrite <- (waiting_shift count d D). unfold waiting.
      by rewrite (filter_cons_False _ (d, job_of cur)) by (cbn; lia). }
    rewrite Hexp, Hwait. cbn [tickets fmap list_fmap snd] in Hnd. apply NoDup_cons in Hnd as [Hni Hnd].
    fold (tickets (shift d D)) in Hni, Hnd. rewrite tickets_shift in Hni, Hnd.
    set (E := expired (count - d) D) in *.
    assert (HE : ticket cur ∉ tickets E) by (by apply expired_tickets).
    destruct (drop_ticket rec (ticket cur) (count - d) E HE) as (Hc1 & Hc2 & Hc3).
    rewrite one_shots_cons, calls_cons, renewed_cons, one_shots_shift, calls_of_shift, renewed_shift.
    change (live rec (d, job_of cur)) with (ticket cur ∈ rec). cbn [snd job_of j_interval j_ticket j_func j_arg].
    case_bool_decide as Hl.
    + rewrite (decide_True _ _ Hl). destruct (Z.eqb_spec (interval cur) 0) as [Hi|Hi].
      * rewrite (decide_True (P := _ /\ interval cur = 0)), (decide_False (P := _ /\ interval cur <> 0)) by tauto.
        destruct (IH (count - d) (rec ∖ {[ticket cur]}) per Hnd ltac:(lia)) as (q' & P & -> & H1 & H2 & H3 & H4).
        fold E. fold E in H4. rewrite Hc1, Hc3. rewrite Hc2 in H4.
        exists q', P. rewrite difference_difference_l_L. done.
      * rewrite (decide_False (P := _ /\ interval cur = 0)), (decide_True (P := _ /\ interval cur <> 0)) by tauto.
        set (e' := set_diff _ cur).
        destruct (IH (count - d) rec (e' :: per) Hnd ltac:(lia)) as (q' & P & -> & H1 & H2 & H3 & H4).
        fold E. fold E in H4. exists q', (P ++ [e']). rewrite <- app_assoc.
        split; [done|]. split; [done|]. split; [done|]. split.
        { apply Forall_app. split; [done|]. constructor; [|done]. cbn. case_if; bool_norm; lia. }
        unfold entries. rewrite fmap_app. cbn [fmap list_fmap]. rewrite Permutation_app_comm.
        fold (entries P). rewrite H4. cbn [app]. unfold again. cbn.
        replace (Z.max 0 (interval cur - (count - d)))
          with (if count - d <? interval cur then interval cur - (count - d) else 0); [done|].
        destruct (Z.ltb_spec (count - d) (interval cur)); lia.
    + rewrite (decide_False _ _ Hl), (decide_False (P := _ /\ interval cur = 0)),
        (decide_False (P := _ /\ interval cur <> 0)) by tauto.
      destruct (IH (count - d) rec per Hnd ltac:(lia)) as (q' & P & -> & H1 & H2 & H3 & H4).
      exists q', P. done.
Qed.

Lemma requeue_spec P q : diffs_ok P -> diffs_ok q ->
  diffs_ok (requeue P q) /\ dues 0 (requeue P q) ≡ₚ dues 0 q ++ entries P.
Proof.
  intros HP. revert q. induction HP as [|e P He HP IH]; intros q Hq; cbn [requeue].
  - by rewrite app_nil_r.
  - destruct (place_perm 0 q (diff_tick e) e He Hq) as [Hok Hp].
    destruct (IH _ Hok) as [Hok' Hp']. split; [done|]. rewrite Hp', Hp. cbn [entries fmap list_fmap].
    rewrite Z.add_0_l. apply Permutation_middle.
Qed.

(** ** The timer as a whole *)

Abbreviation pending t := (dues 0 (delta_queue t)).

Record timer_inv (t : basic_timer) : Prop := {
  ti_diffs : diffs_ok (delta_queue t);
  ti_nodup : NoDup (tickets (pending t));
  ti_record : forall tk, tk ∈ record t -> tk ∈ tickets (pending t);
  ti_old : forall tk, tk ∈ tickets (pending t) -> tk <= conductor t;
  ti_conductor : 0 <= conductor t;
  ti_interval : Forall (fun x => 0 <= j_interval x.2) (pending t);
  ti_beat : 0 <= beat_counter t
}.

Lemma tickets_sub (P : Z * job -> Prop) `{forall x, Decision (P x)} (f : Z * job -> Z * job) D :
  (forall x, (f x).2 = x.2) -> tickets (f <$> filter P D) = tickets (filter P D).
Proof.
  intros Hf. unfold tickets. rewrite <- list_fmap_compose. apply list_fmap_ext. intros i x _. cbn.
  by rewrite Hf.
Qed.

Lemma unique_ticket D x y : NoDup (tickets D) -> x ∈ D -> y ∈ D -> j_ticket x.2 = j_ticket y.2 -> x = y.
Proof.
  intros Hnd Hx Hy E. apply list_elem_of_lookup in Hx as [i Hi]. apply list_elem_of_lookup in Hy as [j Hj].
  assert (i = j) as ->; [|congruence].
  eapply NoDup_lookup; [exact Hnd| |]; unfold tickets; rewrite list_lookup_fmap.
  - rewrite Hi. reflexivity.
  - rewrite Hj. cbn. by rewrite E.
Qed.

Lemma elem_tickets tk D : tk ∈ tickets D <-> exists x, x ∈ D /\ j_ticket x.2 = tk.
Proof. unfold tickets. rewrite list_elem_of_fmap. split; intros (x & ? & ?); by exists x. Qed.

Lemma elem_expired count D x : x ∈ expired count D <-> x.1 <= count /\ x ∈ D.
Proof. unfold expired. by rewrite list_elem_of_filter. Qed.

Lemma elem_waiting count D d j : (d, j) ∈ waiting count D <-> (d + count, j) ∈ D /\ 0 < d.
Proof.
  unfold waiting. rewrite list_elem_of_fmap. split.
  - intros ([d' j'] & [= -> ->] & [Hlt Hin]%list_elem_of_filter). cbn in *.
    replace (d' - count + count) with d' by lia. split; [done|lia].
  - intros [Hin Hd]. exists (d + count, j). cbn. split; [f_equal; lia|].
    apply list_elem_of_filter. cbn. split; [lia|done].
Qed.

Lemma elem_renewed rec count D y : y ∈ renewed rec count (expired count D) <->
  exists x, x ∈ D /\ x.1 <= count /\ live rec x /\ j_interval x.2 <> 0 /\ y = again count x.
Proof.
  unfold renewed, expired. rewrite list_elem_of_fmap. split.
  - intros (x & -> & [[Hl Hi] [Hc Hin]%list_elem_of_filter]%list_elem_of_filter). by exists x.
  - intros (x & Hin & Hc & Hl & Hi & ->). exists x. split; [done|].
    apply list_elem_of_filter. split; [done|]. by apply list_elem_of_filter.
Qed.

Lemma elem_one_shots rec count D tk : tk ∈ one_shots rec (expired count D) <->
  exists x, x ∈ D /\ x.1 <= count /\ live rec x /\ j_interval x.2 = 0 /\ j_ticket x.2 = tk.
Proof.
  unfold one_shots, expired. rewrite elem_of_list_to_set, elem_tickets. split.
  - intros (x & [[Hl Hi] [Hc Hin]%list_elem_of_filter]%list_elem_of_filter & Ht). by exists x.
  - intros (x & Hin & Hc & Hl & Hi & Ht). exists x. split; [|done].
    apply list_elem_of_filter. split; [done|]. by apply list_elem_of_filter.
Qed.

Lemma next_nodup rec count D : NoDup (tickets D) ->
  NoDup (tickets (waiting count D ++ renewed rec count (expired count D))).
Proof.
  intros Hnd. rewrite tickets_app.
  assert (Hw : tickets (waiting count D) = tickets (filter (fun x => count < x.1) D)).
  { apply (tickets_sub (fun x => count < x.1) (fun x => (x.1 - count, x.2)) D). done. }
  assert (Hr : tickets (renewed rec count (expired count D)) =
    tickets (filter (fun x => live rec x /\ j_interval x.2 <> 0) (expired count D))).
  { apply (tickets_sub (fun x => live rec x /\ j_interval x.2 <> 0) (again count) (expired count D)). done. }
  rewrite Hw, Hr.
  assert (Hsub : forall P (H : forall x, Decision (P x)) D, sublist (tickets (filter P D)) (tickets D)).
  { intros P H D'. apply fmap_sublist, sublist_filter. }
  apply NoDup_app. split; [|split].
  - apply (sublist_NoDup _ (tickets D)); [done|]. apply Hsub.
  - intros tk (x & [Hc Hx]%list_elem_of_filter & E)%elem_tickets
      (y & [_ [Hc' Hy]%elem_expired]%list_elem_of_filter & E')%elem_tickets.
    assert (x = y) as -> by (eapply unique_ticket; [done..|congruence]). lia.
  - apply (sublist_NoDup _ (tickets (expired count D))); [|apply Hsub].
    apply (sublist_NoDup _ (tickets D)); [done|]. apply Hsub.
Qed.

Lemma step_spec count t : timer_inv t -> 0 < count ->
  exists t', step count t = Ok (t', calls_of (record t) (expired count (pending t))) /\
    timer_inv t' /\
    pending t' ≡ₚ waiting count (pending t) ++ renewed (record t) count (expired count (pending t)) /\
    record t' = record t ∖ one_shots (record t) (expired count (pending t)) /\
    StronglySorted (fun x y => x.1 <= y.1) (pending t') /\
    conductor t' = conductor t /\ beat_counter t' = beat_counter t /\ running_us t' = running_us t.
Proof.
  intros [H1 H2 H3 H4 H5 H6 H7] Hc. unfold step. rewrite truth_pos by done. cbn [ensure obind].
  destruct (fire_spec (delta_queue t) count (record t) [] H1 H2 ltac:(lia))
    as (q' & P & E & Hq' & Hd & HP & Hper). rewrite E, app_nil_r.
  destruct (requeue_spec P q' HP Hq') as [Hok Hp]. rewrite Hd, Hper in Hp.
  eexists. split; [done|]. cbn [record delta_queue conductor beat_counter running_us].
  split; [|split; [done|split; [done|split; [by apply dues_sorted|done]]]].
  constructor; cbn [record delta_queue conductor beat_counter]; try done.
  - unfold tickets. rewrite Hp. by apply next_nodup.
  - intros tk [Hin Hno]%elem_of_difference. pose proof (H3 tk Hin) as (x & Hx & Ht)%elem_tickets.
    unfold tickets. rewrite Hp. apply elem_tickets. destruct x as [d j].
    destruct (decide (count < d)).
    + exists (d - count, j). split; [|done]. apply elem_of_app. left. apply elem_waiting.
      split; [by replace (d - count + count) with d by lia|lia].
    + exists (again count (d, j)). split; [|done]. apply elem_of_app. right. apply elem_renewed.
      exists (d, j). split; [done|]. split; [cbn; lia|]. unfold live. cbn. cbn in Ht. subst tk.
      split; [done|]. split; [|done]. intros Hz. apply Hno, elem_one_shots. exists (d, j).
      cbn. split; [done|]. split; [lia|]. done.
  - intros tk Htk. unfold tickets in Htk. rewrite Hp in Htk. apply elem_tickets in Htk as (x & Hx & <-).
    apply H4, elem_tickets. apply elem_of_app in Hx as [Hx|Hx].
    + destruct x as [d j]. apply elem_waiting in Hx as [Hx _]. by eexists.
    + apply elem_renewed in Hx as (y & Hy & _ & _ & _ & ->). by exists y.
  - rewrite Hp. rewrite Forall_forall in H6. apply Forall_forall. intros x [Hx|Hx]%elem_of_app.
    + destruct x as [d j]. apply elem_waiting in Hx as [Hx _]. apply (H6 _ Hx).
    + apply elem_renewed in Hx as (y & Hy & _ & _ & _ & ->). apply (H6 _ Hy).
Qed.

Lemma wait_spec us f a rep t : timer_inv t -> conductor t + 1 < 2 ^ 64 -> 0 <= us ->
  let k := Z.max (us / heartbeat_us) 1 in let tk := conductor t + 1 in
  exists t', wait us f a rep t = (tk, t') /\ timer_inv t' /\ tk ∉ tickets (pending t) /\
    record t' = {[tk]} ∪ record t /\ conductor t' = tk /\ beat_counter t' = beat_counter t /\
    running_us t' = running_us t /\
    exists D1 D2, pending t = D1 ++ D2 /\
      pending t' = D1 ++ (k, Job tk f a (if rep then k else 0)) :: D2 /\
      Forall (fun x => x.1 < k) D1 /\ Forall (fun x => k <= x.1) D2.
Proof.
  intros [H1 H2 H3 H4 H5 H6 H7] Hcon Hus k tk. unfold wait. rewrite wrap_small by lia. fold k tk.
  assert (Hnew : tk ∉ tickets (pending t)) by (intros ?%H4; lia).
  set (e := Entry tk k f a (if rep then k else 0)).
  destruct (place_spec 0 (delta_queue t) k e ltac:(lia) H1) as (Hok & D1 & D2 & E & E' & Hlt & Hge).
  rewrite Z.add_0_l in *. eexists. split; [done|]. cbn [record delta_queue conductor beat_counter running_us].
  assert (Hperm : dues 0 (place (delta_queue t) k e) ≡ₚ (k, job_of e) :: pending t).
  { rewrite E, E'. symmetry. apply Permutation_middle. }
  split; [|do 5 (split; [done|]); exists D1, D2; done].
  constructor; cbn [record delta_queue conductor beat_counter]; try done; try lia.
  - unfold tickets. rewrite Hperm. cbn. by constructor.
  - intros tk' Ht. unfold tickets. rewrite Hperm. cbn. apply elem_of_union in Ht as [->%elem_of_singleton|Ht];
      [by left|right; by apply H3].
  - intros tk' Ht. unfold tickets in Ht. rewrite Hperm in Ht. cbn in Ht.
    apply elem_of_cons in Ht as [->|Ht]; [done|]. apply H4 in Ht. lia.
  - rewrite Hperm. constructor; [|done]. cbn. destruct rep; lia.
Qed.

(** ** Histories *)

Inductive timer_op :=
  | OpWait (us func arg : Z) (repeat : bool)
  | OpCancel (ticket : Z)
  | OpBeat
  | OpSecond.

(** One operation: the timer, the calls it made and the ticks that passed. *)
Definition exec (o : timer_op) (t : basic_timer) : outcome (basic_timer * list call * Z) :=
  match o with
  | OpWait us f a rep => Ok ((wait us f a rep t).2, [], 0)
  | OpCancel tk => Ok ((cancel tk t).2, [], 0)
  | OpBeat => let! (t, calls) := on_timer t; Ok (t, calls, 1)
  | OpSecond => let ticks := adjust_tick t in let! (t, calls) := on_second t; Ok (t, calls, ticks)
  end.

Fixpoint run (ops : list timer_op) (t : basic_timer) : outcome (basic_timer * list call * Z) :=
  match ops with
  | [] => Ok (t, [], 0)
  | o :: ops =>
      let! (t, calls, ticks) := exec o t;
      let! (t, calls', ticks') := run ops t;
      Ok (t, calls ++ calls', ticks + ticks')
  end.

Definition op_ok (o : timer_op) : Prop := match o with OpWait us _ _ _ => 0 <= us | _ => True end.

(** The calls with ticket [tk]. *)
Definition calls_with (tk : Z) (calls : list call) : list call := filter (fun c => c.1.2 = tk) calls.

(** The one-shot job [j] is due in [d] ticks, or, with [d] not positive, was called and is gone. *)
Definition tracked (t : basic_timer) (tk f a d : Z) : Prop :=
  if 0 <? d then (d, Job tk f a 0) ∈ pending t /\ tk ∈ record t
  else tk ∉ tickets (pending t) /\ tk <= conductor t.

Lemma timer_inv_fields t b r : timer_inv t -> 0 <= b ->
  timer_inv (Timer b r (conductor t) (record t) (delta_queue t)).
Proof. intros [H1 H2 H3 H4 H5 H6 _] Hb. by constructor. Qed.

Lemma calls_with_expired tk rec count D : calls_with tk (calls_of rec (expired count D)) =
  (fun x => (j_func x.2, j_ticket x.2, j_arg x.2)) <$>
    filter (live rec) (expired count (filter (fun x => j_ticket x.2 = tk) D)).
Proof.
  unfold calls_with, calls_of, expired. induction D as [|x D IH]; [done|].
  repeat (rewrite !filter_cons; repeat case_decide; cbn [fmap list_fmap]); try done; try (cbn in *; tauto).
  by f_equal.
Qed.

Lemma only_ticket D x : NoDup (tickets D) -> x ∈ D -> filter (fun y => j_ticket y.2 = j_ticket x.2) D = [x].
Proof.
  intros Hnd Hx. apply list_elem_of_split in Hx as (A & B & ->). rewrite filter_app.
  rewrite tickets_app in Hnd. cbn in Hnd. apply NoDup_app in Hnd as (_ & Hdisj & Hnd).
  apply NoDup_cons in Hnd as [Hni _]. rewrite filter_cons_True by done.
  rewrite !filter_none; [done| |].
  - apply others in Hni. exact Hni.
  - apply others. intros Hin. apply (Hdisj _ Hin). by left.
Qed.

Lemma no_ticket tk D : tk ∉ tickets D -> filter (fun y => j_ticket y.2 = tk) D = [].
Proof. intros Hn. apply filter_none. by apply others. Qed.

Lemma step_tracked count t tk f a d : timer_inv t -> 0 < count -> tracked t tk f a d ->
  exists t' calls, step count t = Ok (t', calls) /\ timer_inv t' /\ tracked t' tk f a (d - count) /\
    calls_with tk calls = (if (0 <? d) && (d <=? count) then [(f, tk, a)] else []) /\
    conductor t' = conductor t /\ beat_counter t' = beat_counter t.
Proof.
  intros Hinv Hc Htr. destruct (step_spec count t Hinv Hc) as (t' & E & Hinv' & Hp & Hr & _ & Hcon & Hb & _).
  eexists t', _. split; [done|]. split; [done|]. rewrite calls_with_expired.
  pose proof (ti_nodup _ Hinv) as Hnd. unfold tracked in *.
  assert (Htk : forall x, x ∈ tickets (pending t') <->
    x ∈ tickets (waiting count (pending t) ++ renewed (record t) count (expired count (pending t)))).
  { intros x. unfold tickets. by rewrite Hp. }
  destruct (Z.ltb_spec 0 d) as [Hd|Hd].
  - destruct Htr as [Hin Hrec].
    pose proof (only_ticket (pending t) (d, Job tk f a 0) Hnd Hin) as Hf. cbn in Hf. rewrite Hf.
    destruct (Z.leb_spec d count) as [Hdc|Hdc]; cbn [andb].
    + rewrite (proj2 (Z.ltb_ge 0 (d - count))) by lia. split; [|split; [|done]].
      * rewrite Hcon, Htk. split; [|by apply (ti_old _ Hinv), elem_tickets; eexists].
        intros (x & Hx & Ht)%elem_tickets.
        assert (Hy : forall y, y ∈ pending t -> j_ticket y.2 = tk -> y = (d, Job tk f a 0)).
        { intros y Hy Hyt. by eapply unique_ticket. }
        apply elem_of_app in Hx as [Hx|Hx].
        -- destruct x as [dx jx]. apply elem_waiting in Hx as [Hx Hpos].
           apply Hy in Hx; [|done]. injection Hx as ? ?. lia.
        -- apply elem_renewed in Hx as (y & Hyin & _ & _ & Hi & ->). apply Hy in Hyin; [|done].
           by subst y.
      * unfold expired. rewrite filter_cons_True by done. by rewrite filter_cons_True.
    + rewrite (proj2 (Z.ltb_lt 0 (d - count))) by lia. split; [|split; [|done]].
      * split.
        -- rewrite Hp. apply elem_of_app. left. apply elem_waiting.
           split; [by replace (d - count + count) with d by lia|lia].
        -- rewrite Hr. apply elem_of_difference. split; [done|].
           intros (x & Hx & Hxc & _ & _ & Ht)%elem_one_shots.
           assert (x = (d, Job tk f a 0)) as -> by (by eapply unique_ticket). cbn in Hxc. lia.
      * unfold expired. rewrite filter_cons_False by (cbn; lia). done.
  - destruct Htr as [Hn Hle]. rewrite (no_ticket _ _ Hn). cbn [andb].
    rewrite (proj2 (Z.ltb_ge 0 (d - count))) by lia. split; [|split; [done|done]].
    rewrite Hcon, Htk. split; [|done]. intros (x & Hx & Ht)%elem_tickets. apply Hn, elem_tickets.
    apply elem_of_app in Hx as [Hx|Hx].
    + destruct x as [dx jx]. apply elem_waiting in Hx as [Hx _]. by eexists.
    + apply elem_renewed in Hx as (y & Hy & _ & _ & _ & ->). by exists y.
Qed.

Lemma exec_tracked o t tk f a d : timer_inv t -> op_ok o -> conductor t + 1 < 2 ^ 64 ->
  o <> OpCancel tk -> tracked t tk f a d ->
  exists t' calls ticks, exec o t = Ok (t', calls, ticks) /\ timer_inv t' /\ 0 <= ticks /\
    tracked t' tk f a (d - ticks) /\
    calls_with tk calls = (if (0 <? d) && (d <=? ticks) then [(f, tk, a)] else []) /\
    conductor t <= conductor t' <= conductor t + 1.
Proof.
  intros Hinv Ho Hcon Hnc Htr.
  assert (Hnone : (if (0 <? d) && (d <=? 0) then [(f, tk, a)] else []) = []).
  { destruct (Z.ltb_spec 0 d), (Z.leb_spec d 0); try done. lia. }
  destruct o as [us g b rep|tk'| |]; cbn [exec] in *.
  - destruct (wait_spec us g b rep t Hinv Hcon Ho) as (t' & E & Hinv' & Hnew & Hr & Hcn & _ & _ & D1 & D2 & HD & HD' & _).
    rewrite E. eexists t', [], 0. split; [done|]. split; [done|]. split; [done|].
    rewrite Z.sub_0_r, Hnone. split; [|split; [done|lia]]. unfold tracked in *.
    destruct (0 <? d).
    + destruct Htr as [Hin Hrec]. rewrite HD', Hr. split; [|apply elem_of_union; by right].
      rewrite HD in Hin. apply elem_of_app in Hin as [?|?]; apply elem_of_app; [by left|right; by right].
    + destruct Htr as [Hn Hle]. rewrite HD', Hcn. split; [|lia]. rewrite HD in Hn.
      rewrite tickets_app in *. cbn. rewrite elem_of_app, elem_of_cons in *. intros [?|[->|?]]; [tauto|lia|].
      tauto.
  - assert (Hne : tk <> tk') by congruence.
    assert (Hcase : exists rec, (cancel tk' t).2 = Timer (beat_counter t) (running_us t) (conductor t) rec (delta_queue t)
      /\ (forall x, x ∈ rec -> x ∈ record t) /\ (tk ∈ record t -> tk ∈ rec)).
    { unfold cancel. case_bool_decide.
      - eexists. split; [done|]. split; [by intros x [? _]%elem_of_difference|].
        intros ?. by apply elem_of_difference; rewrite elem_of_singleton.
      - exists (record t). split; [by destruct t|done]. }
    destruct Hcase as (rec & -> & Hs & Hk). eexists _, [], 0. split; [done|].
    destruct Hinv as [H1 H2 H3 H4 H5 H6 H7]. rewrite Z.sub_0_r, Hnone.
    split; [constructor; cbn; try done; intros x Hx; by apply H3, Hs|]. split; [done|].
    split; [|split; [done|cbn; lia]]. unfold tracked in *. cbn. destruct (0 <? d); [|done].
    split; [apply Htr|apply Hk, Htr].
  - unfold on_timer. set (t1 := add_running _ _).
    assert (H1 : timer_inv t1) by (apply (timer_inv_fields t); [done|apply wrap_range; lia]).
    destruct (step_tracked 1 t1 tk f a d H1 ltac:(lia) Htr) as (t' & calls & E & Hinv' & Htr' & Hcl & Hcn & _).
    rewrite E. cbn [obind]. exists t', calls, 1. rewrite Hcn. cbn. split; [done|].
    split; [done|]. split; [done|]. split; [done|]. split; [done|lia].
  - unfold on_second. set (t1 := add_running _ _).
    assert (H1 : timer_inv t1) by (by apply (timer_inv_fields t)).
    assert (Ha : 0 <= adjust_tick t) by (unfold adjust_tick; case_if; bool_norm; lia).
    destruct (decide (adjust_tick t = 0)) as [E0|].
    + rewrite E0. cbn [truth Z.eqb negb obind]. eexists t1, [], 0. split; [done|].
      split; [done|]. split; [done|]. rewrite Z.sub_0_r, Hnone. split; [done|]. split; [done|cbn; lia].
    + rewrite truth_pos by lia.
      destruct (step_tracked (adjust_tick t) t1 tk f a d H1 ltac:(lia) Htr) as (t' & calls & E & Hinv' & Htr' & Hcl & Hcn & _).
      rewrite E. cbn [obind]. exists t', calls, (adjust_tick t). rewrite Hcn. cbn. split; [done|].
      split; [done|]. split; [done|]. split; [done|]. split; [done|lia].
Qed.

Lemma run_tracked ops t tk f a d : timer_inv t -> Forall op_ok ops -> OpCancel tk ∉ ops ->
  conductor t + Z.of_nat (length ops) < 2 ^ 64 -> tracked t tk f a d ->
  exists t' calls ticks, run ops t = Ok (t', calls, ticks) /\ timer_inv t' /\ 0 <= ticks /\
    calls_with tk calls = (if (0 <? d) && (d <=? ticks) then [(f, tk, a)] else []).
Proof.
  revert t d. induction ops as [|o ops IH]; intros t d Hinv Hok Hnc Hlen Htr; cbn [run].
  - exists t, [], 0. split; [done|]. split; [done|]. split; [done|].
    destruct (Z.ltb_spec 0 d), (Z.leb_spec d 0); try done. lia.
  - apply Forall_cons in Hok as [Ho Hok]. apply not_elem_of_cons in Hnc as [Hnc1 Hnc2].
    cbn [length] in Hlen.
    destruct (exec_tracked o t tk f a d Hinv Ho ltac:(lia) ltac:(congruence) Htr)
      as (t1 & c1 & k1 & E1 & Hinv1 & Hk1 & Htr1 & Hc1 & Hcon).
    rewrite E1. cbn [obind].
    destruct (IH t1 (d - k1) Hinv1 Hok Hnc2 ltac:(lia) Htr1) as (t2 & c2 & k2 & E2 & Hinv2 & Hk2 & Hc2).
    rewrite E2. cbn [obind]. eexists t2, _, _. split; [done|]. split; [done|]. split; [lia|].
    unfold calls_with in *. rewrite filter_app, Hc1, Hc2.
    destruct (Z.ltb_spec 0 d), (Z.leb_spec d k1), (Z.ltb_spec 0 (d - k1)), (Z.leb_spec (d - k1) k2),
      (Z.leb_spec d (k1 + k2)); cbn; try done; lia.
Qed.

(** ** The properties *)

(** One step of the timer implements its specification on deadlines: with [count] ticks passed,
    exactly the jobs due within them and not cancelled are called, in the order in which they are due;
    the others are due [count] ticks earlier; a periodic job is due again its interval after it was
    due (at once, if that has passed too); the tickets of the one-shot jobs leave the record; and the
    queue is again sorted by deadline. *)
Theorem step_refines count t : timer_inv t -> 0 < count ->
  exists t', step count t = Ok (t', calls_of (record t) (expired count (pending t))) /\
    timer_inv t' /\
    pending t' ≡ₚ waiting count (pending t) ++ renewed (record t) count (expired count (pending t)) /\
    record t' = record t ∖ one_shots (record t) (expired count (pending t)) /\
    StronglySorted (fun x y => x.1 <= y.1) (pending t') /\
    conductor t' = conductor t /\ beat_counter t' = beat_counter t /\ running_us t' = running_us t.
Proof. apply step_spec. Qed.

(** C18. A one-shot callback is called exactly once, and exactly when its time has come: after [wait]
    returned a ticket, any sequence of further waits, cancellations of other tickets, heartbeats and
    seconds ends normally, and it has called the callback once if at least max(us / 1000, 1) ticks have
    passed, and not at all otherwise. *)
Theorem one_shot_fires us f a t ops : timer_inv t -> 0 <= us -> Forall op_ok ops ->
  conductor t + 1 + Z.of_nat (length ops) < 2 ^ 64 ->
  let '(tk, t1) := wait us f a false t in
  OpCancel tk ∉ ops ->
  exists t' calls ticks, run ops t1 = Ok (t', calls, ticks) /\
    calls_with tk calls = if Z.max (us / heartbeat_us) 1 <=? ticks then [(f, tk, a)] else [].
Proof.
  intros Hinv Hus Hok Hlen.
  destruct (wait_spec us f a false t Hinv ltac:(lia) Hus) as (t1 & E & Hinv1 & Hnew & Hr & Hcon & _ & _ & D1 & D2 & _ & HD & _).
  rewrite E. intros Hnc. set (k := Z.max (us / heartbeat_us) 1) in *.
  destruct (run_tracked ops t1 (conductor t + 1) f a k Hinv1 Hok Hnc) as (t2 & calls & ticks & E2 & _ & _ & Hc).
  - rewrite Hcon. lia.
  - unfold tracked. rewrite (proj2 (Z.ltb_lt 0 k)) by lia. rewrite HD, Hr. split.
    + apply elem_of_app. right. by left.
    + apply elem_of_union. left. by apply elem_of_singleton.
  - exists t2, calls, ticks. split; [done|]. rewrite Hc, (proj2 (Z.ltb_lt 0 k)) by lia. done.
Qed.

(** ** A concrete timer *)

Definition new_timer : basic_timer := Timer 0 0 0 ∅ [].

Lemma new_timer_inv : timer_inv new_timer.
Proof.
  constructor; cbn; try done; try (by constructor);
    intros tk Hin; by apply elem_of_empty in Hin || apply elem_of_nil in Hin.
Qed.

Definition demo : basic_timer := (wait 2000 7 8 true (wait 3000 5 6 false new_timer).2).2.

Lemma timer_demo_inv : timer_inv demo.
Proof.
  destruct (wait_spec 3000 5 6 false new_timer new_timer_inv ltac:(cbn; lia) ltac:(lia))
    as (t1 & E1 & H1 & _ & _ & Hc1 & _).
  destruct (wait_spec 2000 7 8 true t1 H1 ltac:(rewrite Hc1; cbn; lia) ltac:(lia)) as (t2 & E2 & H2 & _).
  unfold demo. rewrite E1. cbn [snd]. by rewrite E2.
Qed.

Lemma step_refines_witness : exists t', timer_inv demo /\ 0 < 2 /\
  step 2 demo = Ok (t', [(7, 2, 8)]) /\ record t' = {[1; 2]}.
Proof.
  destruct (step_refines 2 demo timer_demo_inv ltac:(lia)) as (t' & E & _ & _ & Hr & _).
  exists t'. split; [exact timer_demo_inv|]. split; [lia|]. split.
  - rewrite E. f_equal.
  - rewrite Hr. apply (bool_decide_unpack _). vm_compute. exact I.
Defined.

Lemma one_shot_fires_witness :
  exists t' calls ticks, run [OpBeat; OpCancel 1; OpBeat; OpSecond] (wait 2000 7 8 false demo).2 = Ok (t', calls, ticks) /\
    calls_with 3 calls = [(7, 3, 8)].
Proof.
  pose proof (one_shot_fires 2000 7 8 demo [OpBeat; OpCancel 1; OpBeat; OpSecond] timer_demo_inv
    ltac:(lia) ltac:(by repeat constructor) ltac:(vm_compute; reflexivity)) as H.
  destruct (wait 2000 7 8 false demo) as [tk t1] eqn:E.
  assert (tk = 3) as -> by (injection E as <- _; reflexivity).
  destruct H as (t' & calls & ticks & Er & Hc).
  { intros Hin. repeat (apply elem_of_cons in Hin as [?|Hin]; [congruence|]). by apply elem_of_nil in Hin. }
  exists t', calls, ticks. split; [exact Er|]. rewrite Hc.
  assert (Ht : ticks = 1000).
  { injection E as <-. vm_compute in Er. injection Er as _ _ <-. reflexivity. }
  by rewrite Ht.
Defined.
End Timer.
