(* ===== verification/SpinLock.v ===== *)
(** * The spin lock (src/kernel/sync/spin_lock.cpp), under interleaving

    The lock is one word: 0 when free, [x_value] when held exclusively, otherwise the number of shared
    holders.  Any number of agents (a processor, or one of several nested holders on a processor) run
    [lock], [try_lock] and [unlock]; one step of the model is one access to the word, so every
    interleaving of their reads, [cmpxchg] and [xchg] is a sequence of steps. *)

From S2P Require Import Prelude.

Module SpinLock.

Definition x_value : Z := 0x80000000.
Definition s_limit : Z := 0x40.
Definition spin_timeout : Z := 0x4000.

Inductive MODE := EXCLUSIVE | SHARED.
#[export] Instance MODE_eq_dec : EqDecision MODE.
Proof. solve_decision. Defined.

(** Where an agent is.  [retry] is the counter of the loop of [lock], [None] in a plain [try_lock];
    [cur] is the value read before.  [mode] in the states of [unlock] is a ghost: the mode the agent
    holds, which the code does not look at; so is [held] after a timeout, where the machine stops. *)
Inductive pc :=
  | Idle
  | Try (mode : MODE) (retry : option Z)
  | TryShared (retry : option Z) (cur : Z)
  | Locked (mode : MODE)
  | LockedAgain
  | Held (mode : MODE)
  | Unlock (mode : MODE)
  | UnlockExclusive (mode : MODE)
  | UnlockShared (mode : MODE) (cnt cur : Z)
  | UnlockRead (mode : MODE) (cnt : Z)
  | Timeout (held : option MODE).

(** [cmpxchg(dst,xchg,cmp)]: the old value, and the word afterwards. *)
Definition cmpxchg (word new cmp : Z) : Z * Z :=
  if word =? cmp then (word, new) else (word, word).

(** After an attempt of [try_lock]: [lock] tries again and counts, [try_lock] returns. *)
Definition attempt (mode : MODE) (retry : option Z) (success : bool) : pc :=
  if success then match retry with Some _ => Locked mode | None => Held mode end
  else match retry with
       | None => Idle
       | Some cnt => if spin_timeout <? cnt then Timeout None else Try mode (Some (cnt + 1))
       end.

(** One access of an agent to the word. *)
Definition agent_step (p : pc) (word : Z) : outcome (pc * Z) :=
  match p with
  | Try EXCLUSIVE retry =>
      let '(old, word) := cmpxchg word x_value 0 in
      Ok (attempt EXCLUSIVE retry (0 =? old), word)
  | Try SHARED retry =>
      let cur := word in
      if x_value <=? cur then assert! cur =? x_value; Ok (attempt SHARED retry false, word)
      else if s_limit <=? cur then Bug
      else Ok (TryShared retry cur, word)
  | TryShared retry cur =>
      let '(old, word) := cmpxchg word (cur + 1) cur in
      Ok (attempt SHARED retry (cur =? old), word)
  | Locked EXCLUSIVE => assert! x_value =? word; Ok (Held EXCLUSIVE, word)
  | Locked SHARED => assert! truth word; Ok (LockedAgain, word)
  | LockedAgain => assert! word <? s_limit; Ok (Held SHARED, word)
  | Unlock mode =>
      let cur := word in
      if cur =? 0 then Bug
      else if x_value <=? cur then assert! cur =? x_value; Ok (UnlockExclusive mode, word)
      else Ok (UnlockShared mode 0 cur, word)
  | UnlockExclusive mode =>
      let '(tmp, word) := (word, 0) in
      assert! x_value =? tmp; Ok (Idle, word)
  | UnlockShared mode cnt cur =>
      let '(old, word) := cmpxchg word (cur - 1) cur in
      if cur =? old then Ok (Idle, word) else Ok (UnlockRead mode cnt, word)
  | UnlockRead mode cnt =>
      let cur := word in
      if cnt <? spin_timeout then Ok (UnlockShared mode (cnt + 1) cur, word)
      else Ok (Timeout (Some mode), word)
  | Idle | Held _ | Timeout _ => Ok (p, word)
  end.

(** The word and the agents. *)
Record world := World { word : Z; agents : list pc }.

Inductive step : world -> world -> Prop :=
  | step_lock i mode w l : l !! i = Some Idle ->
      step (World w l) (World w (<[i := Try mode (Some 0)]> l))
  | step_try_lock i mode w l : l !! i = Some Idle ->
      step (World w l) (World w (<[i := Try mode None]> l))
  | step_unlock i mode w l : l !! i = Some (Held mode) ->
      step (World w l) (World w (<[i := Unlock mode]> l))
  | step_agent i p w l p' w' : l !! i = Some p -> agent_step p w = Ok (p', w') ->
      step (World w l) (World w' (<[i := p']> l)).

Inductive reachable (n : nat) : world -> Prop :=
  | reach_start : reachable n (World 0 (replicate n Idle))
  | reach_step s s' : reachable n s -> step s s' -> reachable n s'.

(** ** Who holds the lock *)

Definition holds (p : pc) : option MODE :=
  match p with
  | Locked m | Held m | Unlock m | UnlockExclusive m | UnlockShared m _ _ | UnlockRead m _ => Some m
  | LockedAgain => Some SHARED
  | Timeout m => m
  | _ => None
  end.

Definition is_exclusive (p : pc) : Z := match holds p with Some EXCLUSIVE => 1 | _ => 0 end.
Definition is_shared (p : pc) : Z := match holds p with Some SHARED => 1 | _ => 0 end.

Fixpoint count (f : pc -> Z) (l : list pc) : Z := match l with [] => 0 | p :: l => f p + count f l end.

Lemma count_insert f l i p p' : l !! i = Some p -> count f (<[i := p']> l) = count f l - f p + f p'.
Proof.
  revert i. induction l as [|q l IH]; intros [|i] H; [done|done| |].
  - injection H as ->. change (f p' + count f l = f p + count f l - f p + f p'). lia.
  - change (f q + count f (<[i := p']> l) = f q + count f l - f p + f p').
    rewrite (IH i H). lia.
Qed.

Lemma count_range f l : (forall p, 0 <= f p <= 1) -> 0 <= count f l <= Z.of_nat (length l).
Proof. intros Hf. induction l as [|q l IH]; cbn; [lia|]. specialize (Hf q). lia. Qed.

Lemma count_ge f l i p : (forall p, 0 <= f p) -> l !! i = Some p -> f p <= count f l.
Proof.
  intros Hf. revert i. induction l as [|q l IH]; intros [|i] H; cbn in *; [done|done| |].
  - injection H as ->. assert (0 <= count f l); [|lia].
    clear -Hf. induction l as [|q l IH]; cbn; [lia|]. specialize (Hf q). lia.
  - specialize (IH i H). specialize (Hf q). lia.
Qed.

Lemma count_ge2 f l i j p q : (forall p, 0 <= f p) -> f Idle = 0 -> i <> j -> l !! i = Some p -> l !! j = Some q ->
  f p + f q <= count f l.
Proof.
  intros Hf Hidle Hij Hi Hj. set (l' := <[i := Idle]> l).
  assert (E : count f l' = count f l - f p + f Idle) by (by apply count_insert).
  assert (Hj' : l' !! j = Some q) by (unfold l'; by rewrite list_lookup_insert_ne).
  pose proof (count_ge f (<[j := Idle]> l') i Idle Hf) as Hge.
  pose proof (count_insert f l' j q Idle Hj') as E'.
  assert (Hi' : <[j := Idle]> l' !! i = Some Idle).
  { rewrite list_lookup_insert_ne by done. apply list_lookup_insert_eq.
    by eapply lookup_lt_Some. }
  specialize (Hge Hi'). lia.
Qed.

(** The agents' own knowledge, and the word they share. *)
Definition pc_ok (p : pc) : Prop :=
  match p with
  | UnlockExclusive m => m = EXCLUSIVE
  | UnlockShared m _ cur => m = SHARED /\ 1 <= cur <= s_limit
  | UnlockRead m _ => m = SHARED
  | TryShared _ cur => 0 <= cur < s_limit
  | _ => True
  end.

Record inv (s : world) : Prop := {
  inv_pc : Forall pc_ok (agents s);
  inv_one : count is_exclusive (agents s) <= 1;
  inv_alone : count is_exclusive (agents s) = 1 -> count is_shared (agents s) = 0;
  inv_word : word s = if count is_exclusive (agents s) =? 1 then x_value
                      else count is_shared (agents s);
  inv_limit : count is_shared (agents s) <= s_limit
}.

Lemma flags_range p : 0 <= is_exclusive p <= 1 /\ 0 <= is_shared p <= 1.
Proof. unfold is_exclusive, is_shared. destruct (holds p) as [[]|]; lia. Qed.

(** The lock as one agent sees it. *)
Lemma inv_move s i p p' w' : inv s -> agents s !! i = Some p -> pc_ok p' ->
  is_exclusive p' <= is_exclusive p \/ (count is_exclusive (agents s) = 0 /\ count is_shared (agents s) = 0) ->
  is_shared p' <= is_shared p \/
    (count is_exclusive (agents s) = 0 /\ is_exclusive p' = 0 /\ count is_shared (agents s) < s_limit) ->
  is_exclusive p' + is_shared p' <= 1 ->
  w' = (if count is_exclusive (agents s) - is_exclusive p + is_exclusive p' =? 1 then x_value
        else count is_shared (agents s) - is_shared p + is_shared p') ->
  inv (World w' (<[i := p']> (agents s))).
Proof.
  intros [H1 H2 H3 H4 H5] Hi Hok Hx Hs Hb ->.
  pose proof (count_range is_exclusive (agents s) (fun p => proj1 (flags_range p))).
  pose proof (count_range is_shared (agents s) (fun p => proj2 (flags_range p))).
  pose proof (count_ge is_exclusive _ _ _ (fun p => proj1 (proj1 (flags_range p))) Hi).
  pose proof (count_ge is_shared _ _ _ (fun p => proj1 (proj2 (flags_range p))) Hi).
  destruct (flags_range p), (flags_range p').
  constructor; cbn [word agents]; rewrite ?(count_insert _ _ _ _ p' Hi); try lia.
  apply Forall_insert; done.
Qed.

Lemma reachable_length n s : reachable n s -> length (agents s) = n.
Proof.
  induction 1 as [|s s' _ IH Hs]; [apply length_replicate|].
  destruct Hs; cbn in *; by rewrite length_insert.
Qed.

(** A step of an agent: unless the machine stops, the invariant holds again; and with fewer than
    [s_limit] agents it never stops. *)
Lemma agent_ok s i p : inv s -> agents s !! i = Some p ->
  match agent_step p (word s) with
  | Ok (p', w') => inv (World w' (<[i := p']> (agents s)))
  | Bug => s_limit <= Z.of_nat (length (agents s))
  | NoFuel => False
  end.
Proof.
  intros Hinv Hi. pose proof Hinv as [H1 H2 H3 H4 H5].
  pose proof (count_range is_exclusive (agents s) (fun p => proj1 (flags_range p))) as Hrx.
  pose proof (count_range is_shared (agents s) (fun p => proj2 (flags_range p))) as Hrs.
  pose proof (count_ge is_exclusive _ _ _ (fun p => proj1 (proj1 (flags_range p))) Hi) as Hgx.
  pose proof (count_ge is_shared _ _ _ (fun p => proj1 (proj2 (flags_range p))) Hi) as Hgs.
  assert (Hpc : pc_ok p) by (eapply Forall_lookup_1; [exact H1|done]).
  set (X := count is_exclusive (agents s)) in *. set (S := count is_shared (agents s)) in *.
  assert (Hw : (X = 1 /\ S = 0 /\ word s = x_value) \/ (X = 0 /\ word s = S)).
  { destruct (Z.eqb_spec X 1); [left; auto|right; lia]. }
  assert (Hmove : forall p' w', pc_ok p' ->
    is_exclusive p' <= is_exclusive p \/ (X = 0 /\ S = 0) ->
    is_shared p' <= is_shared p \/ (X = 0 /\ is_exclusive p' = 0 /\ S < s_limit) ->
    is_exclusive p' + is_shared p' <= 1 ->
    (X - is_exclusive p + is_exclusive p' = 1 /\ w' = x_value \/
     X - is_exclusive p + is_exclusive p' <> 1 /\ w' = S - is_shared p + is_shared p') ->
    inv (World w' (<[i := p']> (agents s)))).
  { intros p' w' ? ? ? ? Hw'. eapply inv_move; try done. fold X S.
    destruct (Z.eqb_spec (X - is_exclusive p + is_exclusive p') 1); lia. }
  clearbody X S. unfold s_limit, x_value in *.
  destruct p as [|[] retry|retry cur|[]| |m|[]|m|m cnt cur|m cnt|held]; cbn [agent_step] in *.
  all: cbn [pc_ok] in Hpc; unfold s_limit in Hpc.
  - apply Hmove; cbn; try lia.
  - unfold cmpxchg. destruct (Z.eqb_spec (word s) 0) as [E|E].
    + rewrite E. cbn [Z.eqb]. apply Hmove; destruct retry; cbn; unfold x_value, s_limit; try done; lia.
    + rewrite (proj2 (Z.eqb_neq 0 (word s))) by lia. unfold attempt.
      apply Hmove; destruct retry; try case_if; cbn; unfold x_value, s_limit; try done; lia.
  - unfold x_value. destruct (Z.leb_spec 0x80000000 (word s)).
    + rewrite ensure_true by (apply Z.eqb_eq; lia). cbn [obind]. unfold attempt.
      apply Hmove; destruct retry; try case_if; cbn; unfold x_value, s_limit; try done; lia.
    + unfold s_limit. destruct (Z.leb_spec 0x40 (word s)); [lia|]. apply Hmove; cbn; unfold s_limit; lia.
  - unfold cmpxchg. destruct (Z.eqb_spec (word s) cur) as [E|E].
    + rewrite <- E, Z.eqb_refl. apply Hmove; destruct retry; cbn; unfold x_value, s_limit; try done; lia.
    + rewrite (proj2 (Z.eqb_neq cur (word s))) by lia. unfold attempt.
      apply Hmove; destruct retry; try case_if; cbn; unfold x_value, s_limit; try done; lia.
  - cbn in Hgx. unfold x_value. rewrite ensure_true by (apply Z.eqb_eq; lia). cbn [obind].
    apply Hmove; cbn; unfold x_value, s_limit; lia.
  - cbn in Hgs. rewrite (truth_pos (word s)) by lia. cbn [ensure obind].
    apply Hmove; cbn; unfold x_value, s_limit; try done; lia.
  - cbn in Hgs. unfold s_limit. destruct (Z.ltb_spec (word s) 0x40); cbn [ensure obind]; [|lia].
    apply Hmove; cbn; unfold x_value, s_limit; try done; lia.
  - apply Hmove; try done; destruct m; cbn; lia.
  - cbn in Hgx. rewrite (proj2 (Z.eqb_neq (word s) 0)) by lia. unfold x_value.
    rewrite (proj2 (Z.leb_le _ _)) by lia. rewrite ensure_true by (apply Z.eqb_eq; lia). cbn [obind].
    apply Hmove; cbn; unfold x_value, s_limit; try done; lia.
  - cbn in Hgs. rewrite (proj2 (Z.eqb_neq (word s) 0)) by lia. unfold x_value.
    rewrite (proj2 (Z.leb_gt _ _)) by lia. apply Hmove; cbn; unfold x_value, s_limit; try done; try (split; [done|]); lia.
  - cbn in Hpc. subst m. cbn in Hgx. unfold x_value. rewrite ensure_true by (apply Z.eqb_eq; lia).
    cbn [obind]. apply Hmove; cbn; unfold x_value, s_limit; lia.
  - destruct Hpc as [-> Hcur]. cbn in Hgs. unfold cmpxchg. destruct (Z.eqb_spec (word s) cur) as [E|E].
    + rewrite <- E, Z.eqb_refl. apply Hmove; cbn; unfold x_value, s_limit; lia.
    + rewrite (proj2 (Z.eqb_neq cur (word s))) by lia.
      apply Hmove; cbn; unfold x_value, s_limit; try done; lia.
  - subst m. cbn in Hgs.
    destruct (cnt <? spin_timeout); apply Hmove; cbn; unfold x_value, s_limit; try done;
      try (split; [done|]); lia.
  - apply Hmove; try done; destruct held as [[]|]; cbn; unfold x_value, s_limit; lia.
Qed.

Lemma start_inv n : inv (World 0 (replicate n Idle)).
Proof.
  assert (H : forall f, f Idle = 0 -> count f (replicate n Idle) = 0).
  { intros f Hf. induction n as [|m IH]; cbn; [done|]. rewrite Hf, IH. done. }
  constructor; cbn [word agents]; rewrite ?(H is_exclusive), ?(H is_shared) by done; try done.
  by apply Forall_replicate.
Qed.

Lemma step_inv s s' : inv s -> step s s' -> inv s'.
Proof.
  intros Hinv Hs. destruct Hs as [i mode w l Hi|i mode w l Hi|i mode w l Hi|i p w l p' w' Hi E].
  1,2,3: pose proof Hinv as [H1 H2 H3 H4 H5];
    apply (inv_move (World w l) i _ _ w Hinv Hi); try done; try (destruct mode; cbn; lia).
  1,2: destruct mode; cbn in *; rewrite !Z.add_0_r, !Z.sub_0_r; exact H4.
  1: destruct mode; cbn in *; [rewrite Z.sub_add|rewrite Z.sub_0_r, Z.add_0_r];
    cbn in *; rewrite ?Z.sub_0_r, ?Z.add_0_r, ?Z.sub_add; exact H4.
  pose proof (agent_ok (World w l) i p Hinv Hi) as H. cbn [word agents] in H. by rewrite E in H.
Qed.

Lemma reachable_inv n s : reachable n s -> inv s.
Proof. induction 1 as [|s s' _ IH Hs]; [apply start_inv|by eapply step_inv]. Qed.

(** ** The properties *)

(** C16. Mutual exclusion under every interleaving.  Whatever the agents call and however their
    accesses to the word interleave: when one holds the lock exclusively nobody else holds it in any
    mode; the word always tells the truth about the holders; and with fewer than [s_limit] agents no
    assertion and no [bugcheck] of the lock other than the timeout ever stops the machine. *)
Theorem spin_lock_exclusion n s i j p q :
  reachable n s -> agents s !! i = Some p -> agents s !! j = Some q -> i <> j ->
  (holds p = Some EXCLUSIVE -> holds q = None) /\
  word s = (if count is_exclusive (agents s) =? 1 then x_value else count is_shared (agents s)) /\
  (Z.of_nat n < s_limit -> exists p' w', agent_step p (word s) = Ok (p', w')).
Proof.
  intros Hr Hi Hj Hij. pose proof (reachable_inv n s Hr) as Hinv. pose proof Hinv as [H1 H2 H3 H4 H5].
  split; [|split; [done|]].
  - intros Hp. assert (Hxp : is_exclusive p = 1) by (unfold is_exclusive; by rewrite Hp).
    pose proof (count_ge2 is_exclusive _ _ _ _ _ (fun p => proj1 (proj1 (flags_range p))) eq_refl Hij Hi Hj) as Hx.
    pose proof (count_ge is_exclusive _ _ _ (fun p => proj1 (proj1 (flags_range p))) Hi) as Hx1.
    pose proof (count_ge is_shared _ _ _ (fun p => proj1 (proj2 (flags_range p))) Hj) as Hs.
    destruct (flags_range q) as [Hq1 Hq2].
    assert (is_exclusive q = 0 /\ is_shared q = 0) as [Q1 Q2] by lia.
    unfold is_exclusive, is_shared in Q1, Q2. destruct (holds q) as [[]|]; done.
  - intros Hn. pose proof (agent_ok s i p Hinv Hi) as H.
    rewrite (reachable_length n s Hr) in H. destruct (agent_step p (word s)) as [[p' w']| |]; [eauto|lia|done].
Qed.

(** Two agents: the first holds the lock exclusively, the second has tried to share it. *)
Lemma spin_lock_exclusion_witness :
  exists s, agents s = [Held EXCLUSIVE; Try SHARED (Some 1)] /\ word s = x_value /\
    exists p' w', agent_step (Try SHARED (Some 1)) (word s) = Ok (p', w').
Proof.
  assert (Hr : reachable 2 (World x_value [Held EXCLUSIVE; Try SHARED (Some 1)])).
  { eapply reach_step. eapply reach_step. eapply reach_step. eapply reach_step. eapply reach_step.
    - apply reach_start.
    - apply (step_lock 0%nat EXCLUSIVE). reflexivity.
    - eapply (step_agent 0%nat); reflexivity.
    - eapply (step_agent 0%nat); reflexivity.
    - apply (step_lock 1%nat SHARED). reflexivity.
    - exact (step_agent 1%nat (Try SHARED (Some 0)) x_value [Held EXCLUSIVE; Try SHARED (Some 0)]
        (Try SHARED (Some 1)) x_value eq_refl eq_refl). }
  eexists. split; [|split].
  3: exact (proj2 (proj2 (spin_lock_exclusion 2 _ 1 0 _ _ Hr eq_refl eq_refl ltac:(done))) ltac:(done)).
  all: reflexivity.
Defined.
End SpinLock.
