(* ===== verification/Sched.v ===== *)
(** * Threads and the scheduler of one core
    (src/kernel/process/thread.cpp, waitable.cpp, core_state.cpp, include/thread.hpp, waitable.hpp,
    core_state.hpp; [event::signal_one] of src/kernel/sync/event.cpp)

    Threads are linked by their single [next] pointer into one of many queues: a ready queue of the
    scheduler, the wait queue of an object, or the queue of the garbage collector.  The state holds the
    threads, the heads and tails of the queues, the object locks that are held and the timer.  The core
    runs with interrupts disabled in all this code, so each operation is one function, up to the switch
    to the next thread.  The locks of the scheduler, the garbage collector and the timer are leaves
    (taken and released inside one queue operation) and are left out; the object locks are not, since
    taking one twice stops the machine. *)

From S2P Require Import Prelude Timer.

Module Sched.

Inductive STATE := READY | RUNNING | WAITING | STOPPED.
#[export] Instance STATE_eq_dec : EqDecision STATE.
Proof. solve_decision. Defined.

Inductive REASON := NONE | PASSED | NOTIFY | TIMEOUT | ABANDON.
#[export] Instance REASON_eq_dec : EqDecision REASON.
Proof. solve_decision. Defined.

(** [critical]: the bits CRITICAL and KILL. *)
Record thread := Thread {
  state : STATE; crit : bool; crit_kill : bool;
  priority : Z; reason : REASON; slice : Z;
  next : option Z; wait_for : option Z; timer_ticket : Z
}.

Record thread_queue := Queue { head : option Z; tail : option Z }.

(** The queues: one for each priority, the wait queue of each object, and the collector's. *)
Inductive qid := Ready (level : Z) | Wait (obj : Z) | Collect.
#[export] Instance qid_eq_dec : EqDecision qid.
Proof. solve_decision. Defined.
#[export] Instance qid_countable : Countable qid.
Proof.
  refine (inj_countable'
    (fun q => match q with Ready i => inl (inl i) | Wait w => inl (inr w) | Collect => inr tt end)
    (fun s => match s with inl (inl i) => Ready i | inl (inr w) => Wait w | inr tt => Collect end) _).
  by intros [].
Defined.

Record kernel := Kernel {
  threads : gmap Z thread;
  queues : gmap qid thread_queue;
  locked : gset Z;
  this_thread : Z;
  gc_ptr : option Z;
  in_irq : bool;
  th_gc : Z;
  gc_event : Z;
  timer : Timer.basic_timer
}.

Definition max_slice : Z := 8.
Definition max_priority : Z := 0x10.

(** ** Field updates *)

Definition set_state_field (s : STATE) (t : thread) : thread :=
  Thread s (crit t) (crit_kill t) (priority t) (reason t) (slice t) (next t) (wait_for t) (timer_ticket t).
Definition set_crit (c kill : bool) (t : thread) : thread :=
  Thread (state t) c kill (priority t) (reason t) (slice t) (next t) (wait_for t) (timer_ticket t).
Definition set_priority_field (p : Z) (t : thread) : thread :=
  Thread (state t) (crit t) (crit_kill t) p (reason t) (slice t) (next t) (wait_for t) (timer_ticket t).
Definition set_reason (r : REASON) (t : thread) : thread :=
  Thread (state t) (crit t) (crit_kill t) (priority t) r (slice t) (next t) (wait_for t) (timer_ticket t).
Definition set_slice (v : Z) (t : thread) : thread :=
  Thread (state t) (crit t) (crit_kill t) (priority t) (reason t) v (next t) (wait_for t) (timer_ticket t).
Definition set_next (n : option Z) (t : thread) : thread :=
  Thread (state t) (crit t) (crit_kill t) (priority t) (reason t) (slice t) n (wait_for t) (timer_ticket t).
Definition set_wait (w : option Z) (ticket : Z) (t : thread) : thread :=
  Thread (state t) (crit t) (crit_kill t) (priority t) (reason t) (slice t) (next t) w ticket.

Definition set_threads (m : gmap Z thread) (k : kernel) : kernel :=
  Kernel m (queues k) (locked k) (this_thread k) (gc_ptr k) (in_irq k) (th_gc k) (gc_event k) (timer k).
Definition set_queue (q : qid) (v : thread_queue) (k : kernel) : kernel :=
  Kernel (threads k) (<[q := v]> (queues k)) (locked k) (this_thread k) (gc_ptr k) (in_irq k)
    (th_gc k) (gc_event k) (timer k).
Definition set_locked (l : gset Z) (k : kernel) : kernel :=
  Kernel (threads k) (queues k) l (this_thread k) (gc_ptr k) (in_irq k) (th_gc k) (gc_event k) (timer k).
Definition set_this (t : Z) (k : kernel) : kernel :=
  Kernel (threads k) (queues k) (locked k) t (gc_ptr k) (in_irq k) (th_gc k) (gc_event k) (timer k).
Definition set_gc_ptr (g : option Z) (k : kernel) : kernel :=
  Kernel (threads k) (queues k) (locked k) (this_thread k) g (in_irq k) (th_gc k) (gc_event k) (timer k).
Definition set_timer (t : Timer.basic_timer) (k : kernel) : kernel :=
  Kernel (threads k) (queues k) (locked k) (this_thread k) (gc_ptr k) (in_irq k) (th_gc k) (gc_event k) t.

Definition get_thread (t : Z) (k : kernel) : outcome thread := deref (threads k !! t).

(** Assignment to fields of the thread at [t]. *)
Definition update (t : Z) (f : thread -> thread) (k : kernel) : outcome kernel :=
  let! th := get_thread t k; Ok (set_threads (<[t := f th]> (threads k)) k).

(** Object locks; taking a held one spins until the timeout stops the machine. *)
Definition is_locked (o : Z) (k : kernel) : bool := bool_decide (o ∈ locked k).
Definition lock (o : Z) (k : kernel) : outcome kernel :=
  assert! negb (is_locked o k); Ok (set_locked ({[o]} ∪ locked k) k).
Definition unlock (o : Z) (k : kernel) : outcome kernel :=
  assert! is_locked o k; Ok (set_locked (locked k ∖ {[o]}) k).

(** A thread that does not run, or runs below an interrupt, has a saved context. *)
Definition has_context (t : Z) (k : kernel) : bool := in_irq k || negb (t =? this_thread k).

(** ** [thread_queue] *)

Definition is_null {A} (o : option A) : bool := match o with None => true | Some _ => false end.

Definition queue_put (q : qid) (th : Z) (k : kernel) : outcome kernel :=
  let! k := update th (set_next None) k;
  let! tq := deref (queues k !! q);
  match tail tq with
  | Some t =>
      assert! negb (is_null (head tq));
      let! last := get_thread t k;
      assert! is_null (next last);
      let! k := update t (set_next (Some th)) k;
      Ok (set_queue q (Queue (head tq) (Some th)) k)
  | None =>
      assert! is_null (head tq);
      Ok (set_queue q (Queue (Some th) (Some th)) k)
  end.

Definition queue_get (q : qid) (k : kernel) : outcome (option Z * kernel) :=
  let! tq := deref (queues k !! q);
  match head tq with
  | Some th =>
      assert! negb (is_null (tail tq));
      let! t := get_thread th k;
      let! tl :=
        (if is_null (next t) then assert! bool_decide (head tq = tail tq); Ok None
         else Ok (tail tq));
      let k := set_queue q (Queue (next t) tl) k in
      let! k := update th (set_next None) k;
      Ok (Some th, k)
  | None => assert! is_null (tail tq); Ok (None, k)
  end.

(** ** The scheduler *)

(** [scheduler::get]: the first thread of the first non-empty queue below [level]. *)
Fixpoint sched_get_loop (n : nat) (i : Z) (k : kernel) : outcome (option Z * kernel) :=
  match n with
  | O => Ok (None, k)
  | S n =>
      let! (th, k) := queue_get (Ready i) k;
      match th with
      | Some th => Ok (Some th, k)
      | None => sched_get_loop n (i + 1) k
      end
  end.

Definition sched_get (level : Z) (k : kernel) : outcome (option Z * kernel) :=
  sched_get_loop (Z.to_nat (Z.min level max_priority)) 0 k.

Definition sched_put (th : Z) (k : kernel) : outcome kernel :=
  assert! is_locked th k;
  let! t := get_thread th k;
  assert! bool_decide (state t = READY);
  assert! priority t <? max_priority;
  queue_put (Ready (priority t)) th k.

(** ** Waitables and threads *)

(** The search of [waitable::cancel] for the entry before [th]. *)
Fixpoint find_prev (fuel : nat) (prev : option Z) (th : Z) (k : kernel) : outcome (option Z) :=
  match fuel with
  | O => NoFuel
  | S fuel =>
      match prev with
      | None => Ok None
      | Some p =>
          let! t := get_thread p k;
          if bool_decide (next t = Some th) then Ok (Some p) else find_prev fuel (next t) th k
      end
  end.

(** [waitable::cancel]: takes [th] out of the wait queue of [w]. *)
Definition cancel (w th : Z) (k : kernel) : outcome kernel :=
  let! k := lock w k;
  let! tq := deref (queues k !! Wait w);
  let! k :=
    (if bool_decide (head tq = Some th) then let! (_, k) := queue_get (Wait w) k; Ok k
     else
       let! prev := find_prev (S (size (threads k))) (head tq) th k;
       match prev with
       | None => Bug
       | Some prev =>
           let! t := get_thread th k;
           match next t with
           | Some n => update prev (set_next (Some n)) k
           | None =>
               assert! bool_decide (tail tq = Some th);
               let! k := update prev (set_next None) k;
               Ok (set_queue (Wait w) (Queue (head tq) (Some prev)) k)
           end
       end);
  unlock w k.

Definition timer_cancel (ticket : Z) (k : kernel) : kernel :=
  set_timer (Timer.cancel ticket (timer k)).2 k.

(** [thread::set_state(READY,arg)] for a waiting thread: how the wait ended. *)
Definition end_wait (th : Z) (t : thread) (r : REASON) (k : kernel) : outcome kernel :=
  let! k :=
    (match r with
     | ABANDON =>
         let! w := deref (wait_for t);
         let! k := cancel w th k;
         Ok (if truth (timer_ticket t) then timer_cancel (timer_ticket t) k else k)
     | NOTIFY =>
         let! _ := deref (wait_for t);
         Ok (if truth (timer_ticket t) then timer_cancel (timer_ticket t) k else k)
     | TIMEOUT =>
         assert! truth (timer_ticket t);
         match wait_for t with Some w => cancel w th k | None => Ok k end
     | _ => Bug
     end);
  update th (fun t => set_wait None 0 (set_reason r t)) k.

Definition to_ready (th : Z) (r : REASON) (k : kernel) : outcome (bool * kernel) :=
  assert! is_locked th k;
  let! t := get_thread th k;
  if bool_decide (state t = STOPPED) then Ok (false, k)
  else
    let! k := (if bool_decide (state t = WAITING) then end_wait th t r k else Ok k);
    let! k := update th (set_state_field READY) k;
    Ok (true, k).

Definition to_running (th : Z) (k : kernel) : outcome (bool * kernel) :=
  assert! is_locked th k;
  let! t := get_thread th k;
  if bool_decide (state t = STOPPED) then Ok (false, k)
  else
    assert! bool_decide (state t = READY);
    let! k := update th (set_state_field RUNNING) k;
    Ok (true, k).

Definition to_waiting (th ticket : Z) (obj : option Z) (k : kernel) : outcome (bool * kernel) :=
  assert! is_locked th k;
  let! t := get_thread th k;
  if bool_decide (state t = STOPPED) then Ok (false, k)
  else
    assert! bool_decide (state t = RUNNING);
    assert! truth ticket || negb (is_null obj);
    assert! is_null (wait_for t) && (timer_ticket t =? 0);
    let! k := update th (fun t => set_state_field WAITING (set_wait obj ticket t)) k;
    Ok (true, k).

(** [gc_service::put] and [thread::on_stop]. *)
Definition gc_put (th : Z) (k : kernel) : outcome kernel :=
  let! t := get_thread th k;
  assert! bool_decide (state t = STOPPED);
  queue_put Collect th k.

Definition on_stop (th : Z) (k : kernel) : outcome kernel :=
  assert! is_locked th k;
  let! t := get_thread th k;
  assert! bool_decide (state t = STOPPED);
  assert! is_null (wait_for t) && (timer_ticket t =? 0);
  let! k := gc_put th k;
  unlock th k.

(** [waitable::imp_notify], [event::signal_one] on [w], and [gc_service::signal]: they call each
    other. *)
Fixpoint imp_notify (fuel : nat) (th : option Z) (r : REASON) (count : Z) (need_gc : bool) (k : kernel)
  : outcome (Z * kernel) :=
  match fuel with
  | O => NoFuel
  | S fuel =>
      match th with
      | None =>
          if need_gc then let! k := gc_signal fuel None k; Ok (count, k) else Ok (count, k)
      | Some th =>
          let! t := get_thread th k;
          let next := next t in
          let! k := lock th k;
          let! (ok, k) := to_ready th r k;
          if ok then
            let! k := sched_put th k;
            let! k := unlock th k;
            imp_notify fuel next r (count + 1) need_gc k
          else
            let! k := on_stop th k;
            imp_notify fuel next r count true k
      end
  end
with signal_one (fuel : nat) (w : Z) (k : kernel) : outcome (bool * kernel) :=
  match fuel with
  | O => NoFuel
  | S fuel =>
      let! k := lock w k;
      let! (th, k) := queue_get (Wait w) k;
      let! k := unlock w k;
      match th with
      | None => Ok (false, k)
      | Some th =>
          let! (n, k) := imp_notify fuel (Some th) NOTIFY 0 false k;
          if n =? 0 then signal_one fuel w k else Ok (true, k)
      end
  end
with gc_signal (fuel : nat) (target : option Z) (k : kernel) : outcome kernel :=
  match fuel with
  | O => NoFuel
  | S fuel =>
      if bool_decide (target = Some (th_gc k)) then Ok k
      else let! (_, k) := signal_one fuel (gc_event k) k; Ok k
  end.

(** Enough for every thread to be woken. *)
Definition fuel_of (k : kernel) : nat := size (threads k) + 4.

(** [waitable::notify]: the lock of [w] is held before and released inside. *)
Definition notify (w : Z) (r : REASON) (k : kernel) : outcome (Z * kernel) :=
  assert! is_locked w k;
  let! tq := deref (queues k !! Wait w);
  let k := set_queue (Wait w) (Queue None None) k in
  let! k := unlock w k;
  imp_notify (fuel_of k) (head tq) r 0 false k.

(** ** Switching *)

(** [this_core::irq_switch_to] with [target] in [data]. *)
Definition irq_switch_to (target : Z) (k : kernel) : outcome kernel :=
  let cur := this_thread k in
  let! c := get_thread cur k;
  let need_gc := bool_decide (state c = STOPPED) in
  let gc_th := gc_ptr k in
  let! k :=
    (match gc_th with
     | Some g =>
         let! k := lock g k;
         let! k := on_stop g k;
         Ok (if need_gc then k else set_gc_ptr None k)
     | None => Ok k
     end);
  let k := if need_gc then set_gc_ptr (Some cur) k else k in
  assert! is_locked target k;
  let! k := (if is_null gc_th then Ok k else gc_signal (fuel_of k) (Some target) k);
  let k := set_this target k in
  unlock target k.

(** [this_core::switch_to]; the trap of a thread without a saved context ends in the same place. *)
Definition switch_to (th : Z) (k : kernel) : outcome kernel :=
  assert! is_locked th k && has_context th k;
  let! t := get_thread th k;
  assert! bool_decide (state t = RUNNING);
  irq_switch_to th k.

(** The loops that look for a thread that still may run: stopped ones go to the collector. *)
Fixpoint pick (fuel : nat) (level : Z) (need_gc : bool) (k : kernel) : outcome (option Z * bool * kernel) :=
  match fuel with
  | O => NoFuel
  | S fuel =>
      let! (th, k) := sched_get level k;
      match th with
      | None => Ok (None, need_gc, k)
      | Some th =>
          let! k := lock th k;
          let! (ok, k) := to_running th k;
          if ok then Ok (Some th, need_gc, k)
          else let! k := on_stop th k; pick fuel level true k
      end
  end.

Definition gc_signal_if (b : bool) (target : option Z) (k : kernel) : outcome kernel :=
  if b then gc_signal (fuel_of k) target k else Ok k.

(** [core_manager::preempt]. In an interrupt the switch returns, and a stopped thread that gave way to
    a thread of lower priority meets the [bugcheck] after it. *)
Definition preempt (lower : bool) (k : kernel) : outcome kernel :=
  let this := this_thread k in
  let! t := get_thread this k;
  let! (next_thread, need_gc, k) := pick (fuel_of k) (priority t + b2z lower) false k;
  let! k := gc_signal_if need_gc next_thread k;
  match next_thread with
  | Some n =>
      assert! is_locked n k;
      let! k := lock this k;
      let! (ok, k) := to_ready this NONE k;
      let! k := (if ok then sched_put this k else Ok k);
      let! k := unlock this k;
      switch_to n k
  | None =>
      let! t := get_thread this k;
      if bool_decide (state t = STOPPED) then
        let! (next_thread, need_gc, k) := pick (fuel_of k) max_priority false k;
        match next_thread with
        | None => Bug
        | Some n =>
            let! k := gc_signal_if need_gc (Some n) k;
            let returns := has_context this k in
            let! k := switch_to n k;
            if returns then Bug else Ok k
        end
      else Ok k
  end.

(** [core_manager::on_timer]: the time slice of the running thread. *)
Definition core_on_timer (k : kernel) : outcome kernel :=
  let this := this_thread k in
  assert! has_context this k;
  let! t := get_thread this k;
  if bool_decide (state t = STOPPED) then preempt true k
  else
    assert! bool_decide (state t = RUNNING);
    assert! slice t <=? max_slice;
    if truth (slice t) then
      let! k := update this (set_slice (slice t - 1)) k; preempt false k
    else
      let! k := update this (set_slice max_slice) k; preempt true k.

(** The function the timer is given for waits and sleeps, [waitable::on_timer]. *)
Definition ON_TIMER : Z := 1.

Definition timer_wait (us arg : Z) (k : kernel) : Z * kernel :=
  let '(ticket, tm) := Timer.wait us ON_TIMER arg false (timer k) in (ticket, set_timer tm k).

(** [waitable::on_timer]. *)
Definition on_timer (ticket th : Z) (k : kernel) : outcome kernel :=
  let! t := get_thread th k;
  if negb (timer_ticket t =? ticket) then Ok k
  else
    let! k := lock th k;
    let! (ok, k) := to_ready th TIMEOUT k;
    if negb ok then let! k := on_stop th k; gc_signal (fuel_of k) None k
    else
      let this := this_thread k in
      let! t := get_thread th k;
      let! c := get_thread this k;
      if priority t <? priority c then
        let! (ok, k) := to_running th k;
        if negb ok then Bug
        else
          let! k := lock this k;
          let! (ok, k) := to_ready this NONE k;
          let! k :=
            (if ok then let! k := update this (set_slice max_slice) k; sched_put this k else Ok k);
          let! k := unlock this k;
          switch_to th k
      else
        let! k := sched_put th k;
        unlock th k.

(** The loop of [imp_wait]: the object waited for may itself be a ready thread; it is put back later. *)
Fixpoint pick_other (fuel : nat) (w : Z) (put_back : option Z) (need_gc : bool) (k : kernel)
  : outcome (Z * option Z * bool * kernel) :=
  match fuel with
  | O => NoFuel
  | S fuel =>
      let! (th, k) := sched_get max_priority k;
      match th with
      | None => Bug
      | Some th =>
          if th =? w then pick_other fuel w (Some th) need_gc k
          else
            let! k := lock th k;
            let! (ok, k) := to_running th k;
            if ok then Ok (th, put_back, need_gc, k)
            else let! k := on_stop th k; pick_other fuel w put_back true k
      end
  end.

(** [waitable::imp_wait] on [w], whose lock is held before; up to the switch.  When the thread runs
    again it returns its [reason]. *)
Definition imp_wait (w us : Z) (k : kernel) : outcome kernel :=
  assert! is_locked w k;
  let this := this_thread k in
  assert! negb (has_context this k);
  assert! negb (this =? w);
  let! (n, put_back, need_gc, k) := pick_other (fuel_of k) w None false k;
  let! k := gc_signal_if need_gc (Some n) k;
  let! k := update n (set_slice max_slice) k;
  let! k := lock this k;
  let '(ticket, k) := if truth us then timer_wait us this k else (0, k) in
  let! (ok, k) := to_waiting this ticket (Some w) k;
  let! k :=
    (if ok then let! k := update this (set_slice max_slice) k; queue_put (Wait w) this k
     else Ok (if truth ticket then timer_cancel ticket k else k));
  let! k := unlock this k;
  let! k := match put_back with Some p => sched_put p k | None => Ok k end;
  let! k := unlock w k;
  switch_to n k.

(** [waitable::wait] without a callback, and [thread::wait] on a thread. *)
Definition wait (w us : Z) (k : kernel) : outcome kernel :=
  let! k := lock w k; imp_wait w us k.

Definition thread_wait (th us : Z) (k : kernel) : outcome kernel :=
  let! t := get_thread th k;
  if bool_decide (state t = STOPPED) then Ok k else wait th us k.

(** [thread::sleep]. *)
Definition sleep (us : Z) (k : kernel) : outcome kernel :=
  let this := this_thread k in
  assert! negb (has_context this k);
  if us =? 0 then
    let! k := update this (set_slice max_slice) k; preempt true k
  else
    let! (next_thread, need_gc, k) := pick (fuel_of k) max_priority false k;
    match next_thread with
    | None => Bug
    | Some n =>
        let! k := gc_signal_if need_gc None k;
        let! k := lock this k;
        let '(ticket, k) := timer_wait us this k in
        let! (ok, k) := to_waiting this ticket None k;
        let k := if ok then k else timer_cancel ticket k in
        let! k := unlock this k;
        switch_to n k
    end.

Definition hold (th : Z) (k : kernel) : outcome kernel :=
  let! k := lock th k;
  let! t := get_thread th k;
  assert! negb (crit t) && negb (crit_kill t);
  let! k := update th (set_crit true false) k;
  unlock th k.

(** [thread::drop] of the running thread. *)
Definition drop (k : kernel) : outcome kernel :=
  let this := this_thread k in
  let! k := lock this k;
  let! t := get_thread this k;
  assert! crit t;
  let! k := update this (set_crit false (crit_kill t)) k;
  if negb (crit_kill t) then unlock this k
  else
    assert! bool_decide (state t = RUNNING);
    let! k := update this (set_state_field STOPPED) k;
    let! k := unlock this k;
    preempt true k.

(** [thread::kill]. *)
Definition kill (th : Z) (k : kernel) : outcome kernel :=
  let this := this_thread k in
  let kill_self := th =? this in
  let! k := lock th k;
  let! t := get_thread th k;
  if crit t then
    assert! negb kill_self;
    let! k := update th (set_crit true true) k;
    unlock th k
  else
    let! k := update th (set_state_field STOPPED) k;
    assert! negb kill_self || bool_decide (state t = RUNNING);
    let! k :=
      (if bool_decide (state t = WAITING) then
         let! k :=
           (match wait_for t with
            | Some w => let! k := cancel w th k; update th (fun t => set_wait None (timer_ticket t) t) k
            | None => Ok k
            end);
         let! k :=
           (if truth (timer_ticket t)
            then update th (fun t => set_wait (wait_for t) 0 t) (timer_cancel (timer_ticket t) k)
            else Ok k);
         if kill_self then unlock th k
         else let! k := on_stop th k; gc_signal (fuel_of k) None k
       else unlock th k);
    if kill_self then preempt true k else Ok k.

(** [thread::set_priority]. *)
Definition set_priority (th val : Z) (k : kernel) : outcome (bool * kernel) :=
  if max_priority <=? val then Ok (false, k)
  else let! k := update th (set_priority_field val) k; Ok (true, k).

(** The collector takes the next stopped thread. *)
Definition gc_take (k : kernel) : outcome (option Z * kernel) := queue_get Collect k.
End Sched.
