(* ===== verification/SchedInv.v ===== *)
(** * The scheduler: the invariant and what every operation does to it

    Every thread is in at most one queue, and in the one its state says: a ready thread in a ready
    queue, a thread that waits for an object in that object's queue.  A stopped thread may still stand
    in a ready queue; it goes to the collector when it comes to the front. *)

From S2P Require Import Prelude Timer Sched.

Module SchedInv.
Import Sched.

(** ** Queues as lists *)

Fixpoint chain (m : gmap Z thread) (h : option Z) (l : list Z) : Prop :=
  match l with
  | [] => h = None
  | x :: l => h = Some x /\ exists t, m !! x = Some t /\ chain m (next t) l
  end.

Definition qrep (m : gmap Z thread) (tq : thread_queue) (l : list Z) : Prop :=
  chain m (head tq) l /\ tail tq = last l.

Abbreviation queues_of := (qid -> list Z).
Definition upd (Q : queues_of) (q : qid) (l : list Z) : queues_of :=
  fun q' => if decide (q' = q) then l else Q q'.

Lemma qupd_eq Q q l : upd Q q l q = l.
Proof. unfold upd. by rewrite decide_True. Qed.
Lemma qupd_ne Q q l q' : q' <> q -> upd Q q l q' = Q q'.
Proof. intros. unfold upd. by rewrite decide_False. Qed.

Definition queued (Q : queues_of) (x : Z) : Prop := exists q, x ∈ Q q.

(** The links of the threads of [l] are as before. *)
Definition same_links (m m' : gmap Z thread) (l : list Z) : Prop :=
  forall x, x ∈ l -> next <$> m' !! x = next <$> m !! x.

Lemma qchain_frame m m' h l : same_links m m' l -> chain m h l -> chain m' h l.
Proof.
  revert h. induction l as [|x l IH]; intros h Hs; cbn; [done|].
  intros (-> & t & E & Hc). split; [done|].
  pose proof (Hs x ltac:(by left)) as Hx. rewrite E in Hx.
  destruct (m' !! x) as [t'|]; [|done]. injection Hx as Hx. exists t'. split; [done|].
  rewrite Hx. apply IH; [|done]. intros y Hy. apply Hs. by right.
Qed.

Lemma qrep_frame m m' tq l : same_links m m' l -> qrep m tq l -> qrep m' tq l.
Proof. intros Hs [H1 H2]. split; [by eapply qchain_frame|done]. Qed.

Lemma chain_elem m h l x : chain m h l -> x ∈ l -> is_Some (m !! x).
Proof.
  revert h. induction l as [|y l IH]; intros h Hc Hx; [by apply elem_of_nil in Hx|].
  destruct Hc as (-> & t & E & Hc). apply elem_of_cons in Hx as [->|Hx]; [eauto|by eapply IH].
Qed.

Lemma qchain_app m h l1 x l2 : chain m h (l1 ++ x :: l2) ->
  exists t, m !! x = Some t /\ chain m (next t) l2 /\ (l1 = [] -> h = Some x).
Proof.
  revert h. induction l1 as [|y l1 IH]; intros h; cbn.
  - intros (-> & t & E & Hc). by exists t.
  - intros (-> & t & E & Hc). destruct (IH _ Hc) as (t' & E' & Hc' & _). by exists t'.
Qed.

(** Changing the link of the last thread before [l2]. *)
Lemma chain_relink m h l1 p t l2 n l2' : NoDup (l1 ++ [p]) -> p ∉ l2' ->
  chain m h (l1 ++ p :: l2) -> m !! p = Some t -> chain (<[p := set_next n t]> m) n l2' ->
  chain (<[p := set_next n t]> m) h (l1 ++ p :: l2').
Proof.
  revert h. induction l1 as [|y l1 IH]; intros h Hnd Hp Hc E Hn; cbn in *.
  - destruct Hc as (-> & _). split; [done|]. exists (set_next n t). by rewrite lookup_insert_eq.
  - destruct Hc as (-> & t' & E' & Hc). split; [done|]. apply NoDup_cons in Hnd as [Hy Hnd].
    exists t'. rewrite lookup_insert_ne; [|by intros ->; apply Hy, elem_of_app; right; left].
    split; [done|]. by apply IH.
Qed.

(** ** The invariant *)

Record wfq (k : kernel) (Q : queues_of) : Prop := {
  wq_rep : forall q tq, queues k !! q = Some tq -> qrep (threads k) tq (Q q);
  wq_none : forall q, queues k !! q = None -> Q q = [];
  wq_nodup : forall q, NoDup (Q q);
  wq_disj : forall q1 q2 x, x ∈ Q q1 -> x ∈ Q q2 -> q1 = q2
}.

(** What the place of a thread in a queue says about it. *)
Definition fits (q : qid) (t : thread) : Prop :=
  match q with
  | Ready i => 0 <= i < max_priority /\ (state t = READY \/ state t = STOPPED) /\
      wait_for t = None /\ timer_ticket t = 0
  | Wait w => state t = WAITING /\ wait_for t = Some w
  | Collect => state t = STOPPED /\ wait_for t = None /\ timer_ticket t = 0
  end.

(** What the state of a thread that nobody has in hand says about its place. *)
Definition placed (Q : queues_of) (x : Z) (t : thread) : Prop :=
  match state t with
  | READY => exists i, x ∈ Q (Ready i)
  | RUNNING => False
  | WAITING => match wait_for t with Some w => x ∈ Q (Wait w) | None => timer_ticket t <> 0 /\ ~ queued Q x end
  | STOPPED => wait_for t = None /\ timer_ticket t = 0
  end.

(** The bounds of the fields. *)
Definition good (t : thread) : Prop := 0 <= priority t < max_priority /\ 0 <= slice t <= max_slice.

(** Fields that no place depends on. *)
Definition quiet (t t' : thread) : Prop :=
  state t' = state t /\ wait_for t' = wait_for t /\ timer_ticket t' = timer_ticket t /\ next t' = next t /\ good t'.

(** [H]: the threads an operation has in hand; between operations, the running one. [idle] is the
    idle thread, which is always ready or running. *)
Record kinv (idle : Z) (k : kernel) (Q : queues_of) (H : gset Z) : Prop := {
  ki_wfq : wfq k Q;
  ki_fits : forall q x, x ∈ Q q -> exists t, threads k !! x = Some t /\ fits q t;
  ki_placed : forall x t, threads k !! x = Some t -> x ∉ H -> placed Q x t;
  ki_good : forall x t, threads k !! x = Some t -> good t;
  ki_hand : forall x, x ∈ H -> is_Some (threads k !! x) /\ ~ queued Q x;
  ki_gc : forall g, gc_ptr k = Some g -> g ∉ H /\ ~ queued Q g /\
    exists t, threads k !! g = Some t /\ state t = STOPPED;
  ki_idle : idle ∉ H -> exists t, threads k !! idle = Some t /\ state t = READY;
  ki_ready : forall i, 0 <= i < max_priority -> is_Some (queues k !! Ready i);
  ki_collect : is_Some (queues k !! Collect);
  ki_event : is_Some (queues k !! Wait (gc_event k));
  ki_object : threads k !! gc_event k = None;
  ki_self : forall x, x ∉ Q (Wait x)
}.

(** What an operation leaves alone: everything but threads, queues and what is said otherwise. *)
Definition rest (k k' : kernel) : Prop :=
  this_thread k' = this_thread k /\ gc_ptr k' = gc_ptr k /\ in_irq k' = in_irq k /\
  th_gc k' = th_gc k /\ gc_event k' = gc_event k /\
  Timer.conductor (timer k') = Timer.conductor (timer k) /\
  forall q, is_Some (queues k !! q) -> is_Some (queues k' !! q).

(** The threads are the same but for their links. *)
Definition relinked (k k' : kernel) : Prop :=
  forall x, set_next None <$> threads k' !! x = set_next None <$> threads k !! x.

Lemma rest_refl k : rest k k.
Proof. unfold rest. auto 10. Qed.
Lemma rest_trans k1 k2 k3 : rest k1 k2 -> rest k2 k3 -> rest k1 k3.
Proof.
  intros (A1 & A2 & A3 & A4 & A5 & A6 & A7) (B1 & B2 & B3 & B4 & B5 & B6 & B7). unfold rest.
  rewrite B1, B2, B3, B4, B5, B6. auto 10.
Qed.

(** Steps that leave the queues alone. *)
Lemma rest_same k k' : this_thread k' = this_thread k -> gc_ptr k' = gc_ptr k -> in_irq k' = in_irq k ->
  th_gc k' = th_gc k -> gc_event k' = gc_event k -> Timer.conductor (timer k') = Timer.conductor (timer k) ->
  queues k' = queues k -> rest k k'.
Proof. intros. unfold rest. repeat (split; [done|]). congruence. Qed.

Lemma rest_queue k k' q v : rest k k' -> rest k (set_queue q v k').
Proof.
  intros (A1 & A2 & A3 & A4 & A5 & A6 & A7). unfold rest. cbn. repeat (split; [done|]).
  intros q' Hq%A7. rewrite lookup_insert. case_decide; eauto.
Qed.

Lemma rest_threads k k' m : rest k k' -> rest k (set_threads m k').
Proof. done. Qed.
#[local] Hint Resolve rest_refl rest_threads rest_queue : core.
Lemma relinked_refl k : relinked k k.
Proof. done. Qed.
Lemma relinked_trans k1 k2 k3 : relinked k1 k2 -> relinked k2 k3 -> relinked k1 k3.
Proof. intros H1 H2 x. by rewrite H2. Qed.

Lemma relinked_lookup k k' x t : relinked k k' -> threads k !! x = Some t ->
  exists t', threads k' !! x = Some t' /\ set_next None t' = set_next None t.
Proof.
  intros Hr E. specialize (Hr x). rewrite E in Hr. destruct (threads k' !! x) as [t'|]; [|done].
  exists t'. split; [done|]. by apply (inj Some) in Hr.
Qed.

Lemma relinked_lookup' k k' x t' : relinked k k' -> threads k' !! x = Some t' ->
  exists t, threads k !! x = Some t /\ set_next None t' = set_next None t.
Proof.
  intros Hr E. specialize (Hr x). rewrite E in Hr. destruct (threads k !! x) as [t|]; [|done].
  exists t. split; [done|]. by apply (inj Some) in Hr.
Qed.

(** The fields beside the link. *)
Lemma set_next_fields t t' : set_next None t' = set_next None t ->
  state t' = state t /\ priority t' = priority t /\ wait_for t' = wait_for t /\
  timer_ticket t' = timer_ticket t /\ reason t' = reason t /\ slice t' = slice t /\
  crit t' = crit t /\ crit_kill t' = crit_kill t.
Proof. destruct t, t'. cbn. intros [=]. by subst. Qed.

Lemma fits_next q t t' : set_next None t' = set_next None t -> fits q t -> fits q t'.
Proof.
  intros (H1 & _ & H3 & H4 & _)%set_next_fields. destruct q; cbn; rewrite H1, H3, ?H4; done.
Qed.

Lemma update_ok t th f k : threads k !! t = Some th ->
  update t f k = Ok (set_threads (<[t := f th]> (threads k)) k).
Proof. intros E. unfold update, get_thread. by rewrite E. Qed.

(** Rebuilding the invariant when only links changed. *)
Lemma kinv_relinked idle k k' Q Q' H H' :
  kinv idle k Q H -> relinked k k' -> rest k k' -> wfq k' Q' ->
  (forall q x, x ∈ Q' q -> x ∈ Q q \/ exists t, threads k !! x = Some t /\ fits q t) ->
  (forall x t, threads k !! x = Some t -> x ∉ H' -> placed Q x t \/ x ∈ H -> placed Q' x t) ->
  (forall x, x ∈ H' -> is_Some (threads k !! x) /\ ~ queued Q' x) ->
  (forall x, ~ queued Q x -> x ∉ H -> x ∉ H' /\ ~ queued Q' x) ->
  (idle ∉ H' -> idle ∈ H -> exists t, threads k !! idle = Some t /\ state t = READY) ->
  (forall x, x ∈ Q' (Wait x) -> x ∈ Q (Wait x)) ->
  kinv idle k' Q' H'.
Proof.
  intros [I1 I2 I3 I4 I5 I6 I7 I8 I9 I10 I11 I12] Hl (R1 & R2 & R3 & R4 & R5 & R6 & Hq) Hw Hf Hp Hh Hgc Hid Hsf.
  constructor; try done.
  - intros q x Hx. destruct (Hf q x Hx) as [Hx'|(t & E & Ht)].
    + destruct (I2 q x Hx') as (t & E & Ht). destruct (relinked_lookup _ _ _ _ Hl E) as (t' & E' & Et).
      exists t'. split; [done|]. by eapply fits_next.
    + destruct (relinked_lookup _ _ _ _ Hl E) as (t' & E' & Et). exists t'. split; [done|].
      by eapply fits_next.
  - intros x t' E' Hx. destruct (relinked_lookup' _ _ _ _ Hl E') as (t & E & Et).
    assert (Hpl : placed Q' x t).
    { apply (Hp x t E Hx). destruct (decide (x ∈ H)); [by right|left; by apply I3]. }
    destruct (set_next_fields _ _ Et) as (F1 & _ & F3 & F4 & _). unfold placed in *.
    by rewrite F1, F3, F4.
  - intros x t' E'. destruct (relinked_lookup' _ _ _ _ Hl E') as (t & E & Et).
    destruct (set_next_fields _ _ Et) as (_ & F2 & _ & _ & _ & F6 & _). unfold good. rewrite F2, F6. by apply (I4 x).
  - intros x Hx. destruct (Hh x Hx) as [[t E] Hn]. split; [|done].
    destruct (relinked_lookup _ _ _ _ Hl E) as (t' & E' & _). eauto.
  - intros g. rewrite R2. intros Hg. destruct (I6 g Hg) as (Hg1 & Hg2 & t & E & Est).
    destruct (Hgc g Hg2 Hg1) as [Hg1' Hg2']. split; [done|]. split; [done|].
    destruct (relinked_lookup _ _ _ _ Hl E) as (t' & E' & Et). exists t'. split; [done|].
    destruct (set_next_fields _ _ Et) as (F1 & _). congruence.
  - intros Hi. assert (exists t, threads k !! idle = Some t /\ state t = READY) as (t & E & Est).
    { destruct (decide (idle ∈ H)); [by apply Hid|by apply I7]. }
    destruct (relinked_lookup _ _ _ _ Hl E) as (t' & E' & Et). exists t'. split; [done|].
    destruct (set_next_fields _ _ Et) as (F1 & _). congruence.
  - intros i Hi. by apply Hq, I8.
  - by apply Hq.
  - rewrite R5. by apply Hq.
  - rewrite R5. destruct (threads k' !! gc_event k) as [t'|] eqn:E; [|done].
    destruct (relinked_lookup' _ _ _ _ Hl E) as (t & E' & _). congruence.
  - intros x Hx. apply (I12 x), Hsf, Hx.
Qed.

(** ** The queue operations *)

Lemma same_links_insert m x t t' l : m !! x = Some t -> x ∉ l -> same_links m (<[x := t']> m) l.
Proof. intros E Hx y Hy. rewrite lookup_insert_ne; [done|]. by intros ->. Qed.

Lemma wfq_frame k k' Q : wfq k Q -> queues k' = queues k ->
  (forall q, same_links (threads k) (threads k') (Q q)) -> wfq k' Q.
Proof.
  intros [W1 W2 W3 W4] Hq Hs. constructor; try done; rewrite Hq; [|done].
  intros q tq E. eapply qrep_frame; [apply Hs|]. by apply W1.
Qed.

(** The links of the other queues do not matter for [q]. *)
Lemma wfq_upd k m q tq l Q : wfq k Q -> qrep m tq l -> NoDup l ->
  (forall q', q' <> q -> same_links (threads k) m (Q q')) ->
  (forall x, x ∈ l -> forall q', q' <> q -> x ∉ Q q') ->
  wfq (set_queue q tq (set_threads m k)) (upd Q q l).
Proof.
  intros [W1 W2 W3 W4] Hr Hnd Hs Hd. constructor; cbn.
  - intros q' tq'. rewrite lookup_insert. case_decide as E.
    + intros [= <-]. subst q'. by rewrite qupd_eq.
    + intros E'. rewrite qupd_ne by congruence. eapply qrep_frame; [apply Hs; congruence|]. by apply W1.
  - intros q'. rewrite lookup_insert. case_decide as E; [done|]. intros E'.
    rewrite qupd_ne by congruence. by apply W2.
  - intros q'. destruct (decide (q' = q)) as [->|]; [by rewrite qupd_eq|]. by rewrite qupd_ne.
  - intros q1 q2 x. unfold upd. repeat case_decide; subst; try done; intros H1 H2.
    + exfalso. by eapply Hd.
    + exfalso. by eapply Hd.
    + by eapply W4.
Qed.

Lemma relinked_next k q tq x t n : threads k !! x = Some t ->
  relinked k (set_queue q tq (set_threads (<[x := set_next n t]> (threads k)) k)).
Proof.
  intros E y. cbn. rewrite lookup_insert. case_decide; [subst|done]. rewrite E. by destruct t.
Qed.

Lemma last_Some_inv {A} (l : list A) x : last l = Some x -> exists l', l = l' ++ [x].
Proof. intros H. apply last_Some in H as [l' ->]. by exists l'. Qed.

Lemma put_raw k Q q tq x t : wfq k Q -> queues k !! q = Some tq -> threads k !! x = Some t ->
  ~ queued Q x -> exists k', queue_put q x k = Ok k' /\ wfq k' (upd Q q (Q q ++ [x])) /\
    relinked k k' /\ rest k k' /\ locked k' = locked k /\
    (forall y, y ∉ Q q -> y <> x -> threads k' !! y = threads k !! y).
Proof.
  intros Hw Eq E Hn. pose proof Hw as [W1 W2 W3 W4]. destruct (W1 q tq Eq) as [Hc Hl].
  unfold queue_put. rewrite (update_ok x t) by done. cbn [obind set_threads queues threads]. rewrite Eq.
  cbn [deref obind]. set (m1 := <[x := set_next None t]> (threads k)).
  assert (Hxq : forall q', x ∉ Q q') by (intros q' Hx; apply Hn; by exists q').
  assert (Hs1 : forall q', same_links (threads k) m1 (Q q')).
  { intros q'. eapply same_links_insert; [done|apply Hxq]. }
  assert (Hnd : NoDup (Q q ++ [x])).
  { apply NoDup_app. split; [apply W3|]. split; [|apply NoDup_singleton].
    intros y Hy ->%list_elem_of_singleton. by apply (Hxq q). }
  assert (Hdisj : forall y, y ∈ Q q ++ [x] -> forall q', q' <> q -> y ∉ Q q').
  { intros y [Hy| ->%list_elem_of_singleton]%elem_of_app q' Hne Hy'; [|by apply (Hxq q')].
    apply Hne. by eapply W4. }
  destruct (tail tq) as [z|] eqn:Et.
  - symmetry in Hl. destruct (last_Some_inv _ _ Hl) as [l' El].
    assert (Hhd : is_null (head tq) = false).
    { rewrite El in Hc. destruct l' as [|y l']; cbn in Hc; destruct Hc as [-> _]; done. }
    rewrite Hhd. cbn [negb ensure obind].
    pose proof (Hc) as Hc0. rewrite El in Hc. destruct (qchain_app _ _ _ _ _ Hc) as (tz & Ez & Hnz & _). cbn in Hnz.
    assert (Hzx : z <> x). { intros ->. apply (Hxq q). rewrite El. apply elem_of_app. right. by left. }
    assert (Ez1 : m1 !! z = Some tz) by (unfold m1; by rewrite lookup_insert_ne).
    unfold get_thread. cbn [threads set_threads]. rewrite Ez1. cbn [deref obind]. rewrite Hnz. cbn [is_null ensure obind].
    rewrite (update_ok z tz) by done. cbn [obind].
    set (m2 := <[z := set_next (Some x) tz]> m1).
    eexists. split; [done|]. split; [|split; [|split; [auto|split; [done|]]]].
    + change (set_queue q _ _) with (set_queue q (Queue (head tq) (Some x)) (set_threads m2 k)).
      apply wfq_upd; [done| |done| |done].
      * split; [|cbn; by rewrite last_snoc]. cbn [head]. rewrite El, <- app_assoc. cbn [app].
        eapply (chain_relink m1 _ l' z tz []); [by rewrite <- El| | |done|].
        -- intros ->%list_elem_of_singleton. done.
        -- rewrite <- El. eapply qchain_frame; [apply Hs1|done].
        -- cbn. split; [done|]. exists (set_next None t). unfold m2. rewrite lookup_insert_ne by done.
           unfold m1. by rewrite lookup_insert_eq.
      * intros q' Hq' y Hy. unfold m2. rewrite lookup_insert_ne; [by apply (Hs1 q')|].
        intros ->. apply (Hdisj y ltac:(rewrite El, <- app_assoc; apply elem_of_app; right; by left) q' Hq' Hy).
    + intros y. cbn. unfold m2. rewrite lookup_insert. case_decide as Hy.
      * subst y. rewrite Ez. by destruct tz.
      * unfold m1. rewrite lookup_insert. case_decide; [subst y; rewrite E; by destruct t|done].
    + intros y Hy Hyx. cbn. unfold m2, m1. rewrite lookup_insert_ne; [by rewrite lookup_insert_ne|].
      intros ->. apply Hy. rewrite El. apply elem_of_app. right. by left.
  - symmetry in Hl. apply last_None in Hl. rewrite Hl in Hc. cbn in Hc. rewrite Hc.
    cbn [is_null ensure obind]. eexists. split; [done|]. split; [|split; [|split; [auto|split; [done|]]]].
    + change (set_queue q _ _) with (set_queue q (Queue (Some x) (Some x)) (set_threads m1 k)).
      apply wfq_upd; [done| |done|intros; apply Hs1|done].
      rewrite Hl. split; [|done]. cbn. split; [done|]. exists (set_next None t).
      unfold m1. by rewrite lookup_insert_eq.
    + by apply relinked_next.
    + intros y Hy Hyx. cbn. unfold m1. by rewrite lookup_insert_ne.
Qed.

Lemma put_ok idle k Q H q x t : kinv idle k Q H -> x ∈ H -> is_Some (queues k !! q) ->
  threads k !! x = Some t -> fits q t -> (x = idle -> state t = READY) -> q <> Wait x ->
  exists k', queue_put q x k = Ok k' /\ kinv idle k' (upd Q q (Q q ++ [x])) (H ∖ {[x]}) /\
    relinked k k' /\ rest k k' /\ locked k' = locked k /\
    (forall y, y ∉ Q q -> y <> x -> threads k' !! y = threads k !! y).
Proof.
  intros Hk Hx [tq Eq] E Hf Hid Hqx. pose proof Hk as [I1 I2 I3 I4 I5 I6 I7 I8 I9 I10 I11 I12].
  destruct (I5 x Hx) as [_ Hn].
  destruct (put_raw k Q q tq x t I1 Eq E Hn) as (k' & Ek & Hw & Hr & Hrest & Hl & Hlinks).
  exists k'. split; [done|]. split; [|done].
  assert (Hmono : forall q' y, y ∈ Q q' -> y ∈ upd Q q (Q q ++ [x]) q').
  { intros q' y Hy. unfold upd. case_decide; [subst; apply elem_of_app; by left|done]. }
  assert (Hnew : forall y, queued (upd Q q (Q q ++ [x])) y -> y = x \/ queued Q y).
  { intros y [q' Hy]. unfold upd in Hy. case_decide; [|right; by exists q'].
    apply elem_of_app in Hy as [Hy| ->%list_elem_of_singleton]; [right; by exists q|by left]. }
  apply (kinv_relinked idle k k' Q _ H _ Hk Hr Hrest Hw).
  - intros q' y Hy. unfold upd in Hy. case_decide; [|by left]. subst q'.
    apply elem_of_app in Hy as [Hy| ->%list_elem_of_singleton]; [by left|right; by exists t].
  - intros y ty Ey Hy Hor. destruct (decide (y = x)) as [->|Hne].
    + assert (ty = t) as -> by congruence. assert (Hxin : x ∈ upd Q q (Q q ++ [x]) q).
      { rewrite qupd_eq. apply elem_of_app. right. by left. }
      unfold placed. destruct q as [i|w|]; cbn in Hf.
      * destruct Hf as (_ & [->| ->] & Hw1 & Hw2); [by exists i|done].
      * destruct Hf as [-> ->]. done.
      * destruct Hf as (-> & ? & ?). done.
    + destruct Hor as [Hp|Hp]; [|by rewrite not_elem_of_difference, elem_of_singleton in Hy; destruct Hy].
      unfold placed in *. destruct (state ty); try done.
      * destruct Hp as [i Hp]. exists i. by apply Hmono.
      * destruct (wait_for ty) as [w|]; [by apply Hmono|]. destruct Hp as [Hp1 Hp2]. split; [done|].
        intros [?|?]%Hnew; done.
  - intros y [Hy Hne]%elem_of_difference. rewrite elem_of_singleton in Hne. destruct (I5 y Hy) as [Hs Hq'].
    split; [done|]. intros [?|?]%Hnew; done.
  - intros y Hy1 Hy2. split; [by intros [? _]%elem_of_difference|].
    intros [->|?]%Hnew; done.
  - intros Hi1 Hi2. assert (idle = x) as <-.
    { destruct (decide (idle = x)); [done|]. destruct Hi1. apply elem_of_difference.
      by rewrite elem_of_singleton. }
    exists t. split; [done|]. by apply Hid.
  - intros y Hy. unfold upd in Hy. case_decide as Ey; [|done].
    apply elem_of_app in Hy as [Hy| ->%list_elem_of_singleton]; [by rewrite Ey|by destruct Hqx].
Qed.

(** A thread leaves its queue and is in hand. *)
Lemma kinv_take idle k k' Q H q x l : kinv idle k Q H -> x ∈ Q q -> relinked k k' -> rest k k' ->
  wfq k' (upd Q q l) ->
  (forall y, y ∈ l <-> y ∈ Q q /\ y <> x) -> kinv idle k' (upd Q q l) ({[x]} ∪ H).
Proof.
  intros Hk Hx Hr Hrest Hw Hl. pose proof Hk as [I1 I2 I3 I4 I5 I6 I7 I8 I9 I10 I11 I12].
  assert (Hsub : forall q' y, y ∈ upd Q q l q' -> y ∈ Q q' /\ y <> x).
  { intros q' y Hy. unfold upd in Hy. case_decide as Hd; [subst; by apply Hl|]. split; [done|].
    intros ->. apply Hd. by eapply (wq_disj _ _ I1). }
  assert (Hkeep : forall q' y, y <> x -> y ∈ Q q' -> y ∈ upd Q q l q').
  { intros q' y Hne Hy. unfold upd. case_decide; [subst; by apply Hl|done]. }
  apply (kinv_relinked idle k k' Q _ H _ Hk Hr Hrest Hw).
  - intros q' y Hy. left. by apply Hsub.
  - intros y ty Ey Hy Hor. apply not_elem_of_union in Hy as [Hne Hy]. rewrite elem_of_singleton in Hne.
    destruct Hor as [Hp|?]; [|done]. unfold placed in *. destruct (state ty); try done.
    + destruct Hp as [i Hp]. exists i. by apply Hkeep.
    + destruct (wait_for ty) as [w|]; [by apply Hkeep|]. destruct Hp as [Hp1 Hp2]. split; [done|].
      intros [q' Hy']. apply Hp2. exists q'. by apply Hsub.
  - intros y Hy. apply elem_of_union in Hy as [->%elem_of_singleton|Hy].
    + split; [by destruct (I2 _ _ Hx) as (t & -> & _)|]. intros [q' Hy]. by apply Hsub in Hy as [_ ?].
    + destruct (I5 y Hy) as [Hs Hn]. split; [done|]. intros [q' Hy']. apply Hn. exists q'. by apply Hsub.
  - intros y Hn Hh. split.
    + intros [->%elem_of_singleton|?]%elem_of_union; [|done]. apply Hn. by exists q.
    + intros [q' Hy']. apply Hn. exists q'. by apply Hsub.
  - intros Hi1 Hi2. destruct Hi1. apply elem_of_union. by right.
  - intros y Hy. by apply Hsub.
Qed.

Lemma get_raw k Q q tq x l : wfq k Q -> queues k !! q = Some tq -> Q q = x :: l ->
  exists k', queue_get q k = Ok (Some x, k') /\ wfq k' (upd Q q l) /\
    relinked k k' /\ rest k k' /\ locked k' = locked k /\
    (exists t, threads k !! x = Some t /\ threads k' = <[x := set_next None t]> (threads k)).
Proof.
  intros Hw Eq El. pose proof Hw as [W1 W2 W3 W4]. destruct (W1 q tq Eq) as [Hc Hl].
  rewrite El in Hc. destruct Hc as (Hh & t & E & Hc).
  pose proof (W3 q) as Hnd. rewrite El in Hnd. apply NoDup_cons in Hnd as [Hxl Hnd].
  unfold queue_get. rewrite Eq. cbn [deref obind]. rewrite Hh.
  assert (Htl : is_null (tail tq) = false).
  { rewrite Hl, El. destruct (last_is_Some (x :: l)) as [_ [z Hz]]; [done|]. by rewrite Hz. }
  rewrite Htl. cbn [negb ensure obind]. unfold get_thread. rewrite E. cbn [deref obind].
  set (m1 := <[x := set_next None t]> (threads k)).
  assert (Hs : forall q', q' <> q -> same_links (threads k) m1 (Q q')).
  { intros q' Hq'. eapply same_links_insert; [done|]. intros Hx. apply Hq'. eapply W4; [done|].
    rewrite El. by left. }
  assert (Hsl : same_links (threads k) m1 l) by (by eapply same_links_insert).
  assert (Hdisj : forall y, y ∈ l -> forall q', q' <> q -> y ∉ Q q').
  { intros y Hy q' Hne Hy'. apply Hne. eapply W4; [done|]. rewrite El. by right. }
  assert (Htail : exists tl, (if is_null (next t) then assert! bool_decide (Some x = tail tq); Ok None
    else Ok (tail tq)) = Ok tl /\ tl = last l).
  { rewrite Hl, El. destruct l as [|y l].
    - cbn in Hc. rewrite Hc. cbn. rewrite bool_decide_eq_true_2 by done. by eexists.
    - destruct Hc as [-> _]. cbn [is_null]. by eexists. }
  destruct Htail as (tl & -> & Htl'). cbn [obind]. rewrite (update_ok x t) by done. cbn [obind].
  eexists. split; [done|]. split; [|split; [|split; [auto|split; [done|by exists t]]]].
  - change (wfq (set_queue q (Queue (next t) tl) (set_threads m1 k)) (upd Q q l)).
    apply wfq_upd; try done. split; [|done]. by eapply qchain_frame.
  - intros y. cbn. fold m1. unfold m1. rewrite lookup_insert. case_decide; [subst|done]. rewrite E. by destruct t.
Qed.

Lemma get_ok idle k Q H q x l : kinv idle k Q H -> is_Some (queues k !! q) -> Q q = x :: l ->
  exists k', queue_get q k = Ok (Some x, k') /\ kinv idle k' (upd Q q l) ({[x]} ∪ H) /\
    relinked k k' /\ rest k k' /\ locked k' = locked k /\
    (exists t, threads k !! x = Some t /\ threads k' = <[x := set_next None t]> (threads k)).
Proof.
  intros Hk [tq Eq] El. destruct (get_raw k Q q tq x l (ki_wfq _ _ _ _ Hk) Eq El)
    as (k' & Ek & Hw & Hr & Hrest & Hl & Ht).
  exists k'. split; [done|]. split; [|done]. apply (kinv_take idle k k' Q H q x l); try done.
  - rewrite El. by left.
  - pose proof (wq_nodup _ _ (ki_wfq _ _ _ _ Hk) q) as Hnd. rewrite El in *.
    apply NoDup_cons in Hnd as [Hx _]. intros y. rewrite elem_of_cons. split; [|intros [[?|?] ?]; done].
    intros Hy. split; [by right|]. by intros ->.
Qed.

Lemma get_empty idle k Q H q : kinv idle k Q H -> is_Some (queues k !! q) -> Q q = [] ->
  queue_get q k = Ok (None, k).
Proof.
  intros Hk [tq Eq] El. destruct (wq_rep _ _ (ki_wfq _ _ _ _ Hk) q tq Eq) as [Hc Hl].
  rewrite El in *. cbn in Hc, Hl. unfold queue_get. rewrite Eq. cbn [deref obind]. rewrite Hc, Hl. done.
Qed.

Lemma lock_ok o k : o ∉ locked k -> lock o k = Ok (set_locked ({[o]} ∪ locked k) k).
Proof. intros Hn. unfold lock, is_locked. by rewrite bool_decide_eq_false_2. Qed.

Lemma unlock_ok o k : o ∈ locked k -> unlock o k = Ok (set_locked (locked k ∖ {[o]}) k).
Proof. intros Hn. unfold unlock, is_locked. by rewrite bool_decide_eq_true_2. Qed.

Lemma kinv_locked idle k Q H L : kinv idle k Q H -> kinv idle (set_locked L k) Q H.
Proof.
  intros [I1 I2 I3 I4 I5 I6 I7 I8 I9 I10 I11 I12]. constructor; try done. by destruct I1.
Qed.

(** ** [cancel] *)

Lemma chain_find_prev m h l1 x l2 k fuel : threads k = m -> chain m h (l1 ++ x :: l2) -> NoDup (l1 ++ x :: l2) ->
  l1 <> [] -> (length l1 < fuel)%nat ->
  exists l1' p, l1 = l1' ++ [p] /\ find_prev fuel h x k = Ok (Some p).
Proof.
  intros <-. revert h fuel. induction l1 as [|y l1 IH]; intros h fuel Hc Hnd Hne Hfu; [done|].
  destruct fuel as [|fuel]; [cbn in Hfu; lia|]. cbn in Hc. destruct Hc as (-> & t & E & Hc).
  cbn [find_prev]. unfold get_thread. rewrite E. cbn [deref obind].
  destruct l1 as [|z l1].
  - cbn in Hc. destruct Hc as (Hn & _). rewrite bool_decide_eq_true_2 by done. by exists [], y.
  - pose proof Hc as Hc0. cbn in Hc. destruct Hc as (Hn & _). rewrite bool_decide_eq_false_2.
    + destruct (IH (next t) fuel Hc0) as (l1' & p & Ep & Ef); [|done|cbn in *; lia|].
      * by apply NoDup_cons in Hnd as [_ ?].
      * exists (y :: l1'), p. rewrite Ep. done.
    + rewrite Hn. intros [= ->]. cbn in Hnd. apply NoDup_cons in Hnd as [_ Hnd].
      apply NoDup_cons in Hnd as [Hnd _]. apply Hnd, elem_of_app. right. by left.
Qed.

Lemma queue_length k Q q : wfq k Q -> (length (Q q) <= size (threads k))%nat.
Proof.
  intros [W1 W2 W3 W4]. rewrite <- (size_list_to_set (C := gset Z) (Q q)) by done.
  rewrite <- size_dom. apply subseteq_size. intros x Hx%elem_of_list_to_set.
  destruct (queues k !! q) as [tq|] eqn:E; [|by rewrite (W2 q E) in Hx; apply elem_of_nil in Hx].
  destruct (W1 q tq E) as [Hc _]. apply elem_of_dom. by eapply chain_elem.
Qed.

Lemma elem_of_without {A} (l1 l2 : list A) x y : NoDup (l1 ++ x :: l2) ->
  y ∈ l1 ++ l2 <-> y ∈ l1 ++ x :: l2 /\ y <> x.
Proof.
  intros (_ & Hd & Hnd)%NoDup_app. apply NoDup_cons in Hnd as [Hx2 _].
  rewrite !elem_of_app, elem_of_cons. split; [|tauto]. intros [Hy|Hy]; (split; [tauto|]); intros ->.
  - apply (Hd x Hy). by left.
  - done.
Qed.

Lemma wfq_locked k Q L : wfq k Q -> wfq (set_locked L k) Q.
Proof. by intros []. Qed.

Lemma cancel_raw k Q w x l1 l2 : wfq k Q -> w ∉ locked k -> Q (Wait w) = l1 ++ x :: l2 ->
  exists k', cancel w x k = Ok k' /\ wfq k' (upd Q (Wait w) (l1 ++ l2)) /\
    relinked k k' /\ rest k k' /\ locked k' = locked k.
Proof.
  intros Hk Hw El. unfold cancel. rewrite lock_ok by done. cbn [obind].
  set (k1 := set_locked ({[w]} ∪ locked k) k).
  assert (Hwf : wfq k1 Q) by (by apply wfq_locked). pose proof Hwf as [W1 W2 W3 W4].
  assert (exists tq, queues k1 !! Wait w = Some tq) as [tq Eq].
  { destruct (queues k1 !! Wait w) as [tq|] eqn:E; [by exists tq|]. pose proof (W2 _ E) as E'.
    rewrite El in E'. by destruct l1. }
  rewrite Eq. cbn [deref obind]. destruct (W1 _ _ Eq) as [Hc Hlast]. rewrite El in Hc.
  pose proof (W3 (Wait w)) as Hnd. rewrite El in Hnd.
  assert (Hunlock : forall k2, locked k2 = locked k1 -> unlock w k2 = Ok (set_locked (locked k) k2)).
  { intros k2 E2. rewrite unlock_ok, E2; [|rewrite E2; apply elem_of_union; left; by apply elem_of_singleton].
    do 2 f_equal. unfold k1. cbn. apply set_eq. intros y.
    rewrite elem_of_difference, elem_of_union, elem_of_singleton. split; [tauto|].
    intros Hy. split; [by right|]. by intros ->. }
  assert (Hmem : forall y, y ∈ l1 ++ l2 <-> y ∈ Q (Wait w) /\ y <> x).
  { intros y. rewrite El. by apply elem_of_without. }
  destruct (qchain_app _ _ _ _ _ Hc) as (t & E & Hc2 & Hh).
  destruct (decide (l1 = [])) as [->|Hne].
  - rewrite (Hh eq_refl). rewrite bool_decide_eq_true_2 by done. cbn [app] in *.
    destruct (get_raw k1 Q (Wait w) tq x l2 Hwf Eq El) as (k2 & -> & Hk2 & Hr & Hrest & Hlk & _).
    cbn [obind]. rewrite Hunlock by done. eexists. split; [done|]. split; [by apply wfq_locked|].
    done.
  - rewrite bool_decide_eq_false_2.
    2: { intros Hx. destruct l1 as [|y l1]; [done|]. cbn in Hc. destruct Hc as [Hy _].
         rewrite Hy in Hx. injection Hx as ->. apply NoDup_app in Hnd as (_ & Hd & _).
         apply (Hd x); [by left|by left]. }
    pose proof (queue_length k1 Q (Wait w) Hwf) as Hlen. rewrite El, length_app in Hlen. cbn in Hlen.
    destruct (chain_find_prev (threads k1) _ l1 x l2 k1 (S (size (threads k1))) eq_refl Hc Hnd Hne)
      as (l1' & p & -> & Ef); [cbn in *; lia|]. change (threads k1) with (threads k) in *.
    rewrite Ef. cbn [obind].
    unfold get_thread. change (threads k1) with (threads k). rewrite E. cbn [deref obind].
    rewrite <- app_assoc in Hc. cbn [app] in Hc. destruct (qchain_app _ _ _ _ _ Hc) as (tp & Ep & Hcp & _).
    assert (Hpx : p <> x).
    { intros ->. apply NoDup_app in Hnd as (_ & Hd & _). apply (Hd x); [apply elem_of_app; right; by left|by left]. }
    assert (Hndl : NoDup (l1' ++ [p]) /\ p ∉ l2).
    { apply NoDup_app in Hnd as (Hn1 & Hd & Hn2). split; [done|]. intros Hp2.
      apply (Hd p); [apply elem_of_app; right; by left|by right]. }
    destruct Hndl as [Hndl Hpl2].
    set (n := next t) in *. set (m1 := <[p := set_next n tp]> (threads k)).
    assert (Hupd : update p (set_next n) k1 = Ok (set_threads m1 k1)) by (exact (update_ok p tp (set_next n) k1 Ep)).
    set (tq' := Queue (head tq) (if is_null n then Some p else tail tq)).
    assert (Hkt : wfq (set_queue (Wait w) tq' (set_threads m1 k1)) (upd Q (Wait w) ((l1' ++ [p]) ++ l2))).
    { apply wfq_upd; [done| | | |].
      - split.
        + cbn [head tq']. rewrite <- app_assoc. cbn [app].
            apply (chain_relink (threads k) _ l1' p tp (x :: l2)); try done.
            eapply qchain_frame; [|exact Hc2]. by eapply same_links_insert.
        + cbn [tail tq']. rewrite Hlast, El. destruct l2 as [|y l2].
          * cbn in Hc2. rewrite Hc2. cbn [is_null]. by rewrite app_nil_r, last_snoc.
          * cbn in Hc2. destruct Hc2 as [-> _]. cbn [is_null]. rewrite !last_app_cons. done.
      - apply NoDup_app in Hnd as (Hn1 & Hd & Hn2). apply NoDup_cons in Hn2 as [_ Hn2].
          apply NoDup_app. split; [done|]. split; [|done]. intros y Hy Hy2. apply (Hd y Hy). by right.
      - intros q' Hq'. eapply same_links_insert; [done|]. intros Hp. apply Hq'. eapply W4; [done|].
          rewrite El. apply elem_of_app. left. apply elem_of_app. right. by left.
      - intros y Hy q' Hq' Hy'. apply Hmem in Hy as [Hy _]. apply Hq'. by eapply W4. }
    assert (Hrr : rest k (set_queue (Wait w) tq' (set_threads m1 k1))) by (apply rest_queue, rest_threads; by apply rest_same).
    assert (Hrl : relinked k (set_queue (Wait w) tq' (set_threads m1 k1))) by exact (relinked_next k1 _ _ p tp n Ep).
    destruct n as [nx|] eqn:En.
    + assert (Etq : set_threads m1 k1 = set_queue (Wait w) tq' (set_threads m1 k1)).
      { unfold tq', set_queue. cbn. rewrite insert_id; [done|]. etrans; [exact Eq|]. by destruct tq. }
      rewrite Hupd. cbn [obind]. rewrite Hunlock by done. eexists. split; [done|].
      rewrite Etq. split; [by apply wfq_locked|]. done.
    + assert (Hl2 : l2 = []) by (destruct l2; [done|by destruct Hc2]).
      assert (Htl : tail tq = Some x) by (rewrite Hlast, El, Hl2; apply last_snoc).
      rewrite bool_decide_eq_true_2 by done. cbn [ensure obind].
      rewrite Hupd. cbn [obind]. rewrite Hunlock by done. eexists. split; [done|].
      split; [by apply wfq_locked|]. done.
Qed.

Lemma cancel_ok idle k Q H w x l1 l2 : kinv idle k Q H -> w ∉ locked k -> Q (Wait w) = l1 ++ x :: l2 ->
  exists k', cancel w x k = Ok k' /\ kinv idle k' (upd Q (Wait w) (l1 ++ l2)) ({[x]} ∪ H) /\
    relinked k k' /\ rest k k' /\ locked k' = locked k.
Proof.
  intros Hk Hw El. destruct (cancel_raw k Q w x l1 l2 (ki_wfq _ _ _ _ Hk) Hw El) as (k' & E & Hwf & Hr & Hrest & Hl).
  exists k'. split; [done|]. split; [|done]. apply (kinv_take idle k k' Q H (Wait w) x); try done.
  - rewrite El. apply elem_of_app. right. by left.
  - intros y. rewrite El. apply elem_of_without. rewrite <- El. apply (wq_nodup _ _ (ki_wfq _ _ _ _ Hk)).
Qed.

(** ** Threads in hand *)

(** Nothing happened to threads that were not waiting, beside their links. *)
Definition calm (k k' : kernel) : Prop :=
  forall y t, threads k !! y = Some t -> state t <> WAITING ->
    exists t', threads k' !! y = Some t' /\ set_next None t' = set_next None t.

Lemma calm_refl k : calm k k.
Proof. intros y t E _. by exists t. Qed.

Lemma calm_trans k1 k2 k3 : calm k1 k2 -> calm k2 k3 -> calm k1 k3.
Proof.
  intros H1 H2 y t E Hs. destruct (H1 y t E Hs) as (t1 & E1 & Et1).
  destruct (set_next_fields _ _ Et1) as (F1 & _).
  destruct (H2 y t1 E1 ltac:(congruence)) as (t2 & E2 & Et2). exists t2. split; [done|congruence].
Qed.

Lemma relinked_calm k k' : relinked k k' -> calm k k'.
Proof. intros Hr y t E _. by apply (relinked_lookup k k'). Qed.

Lemma hand_update idle k Q H x t t' : kinv idle k Q H -> x ∈ H -> threads k !! x = Some t ->
  good t' -> kinv idle (set_threads (<[x := t']> (threads k)) k) Q H.
Proof.
  intros [I1 I2 I3 I4 I5 I6 I7 I8 I9 I10 I11 I12] Hx E Hp. destruct (I5 x Hx) as [_ Hn].
  constructor; cbn; try done.
  - apply (wfq_frame k); [done|done|]. intros q. eapply same_links_insert; [done|].
    intros Hq. apply Hn. by exists q.
  - intros q y Hy. rewrite lookup_insert_ne; [by apply I2|]. intros ->. apply Hn. by exists q.
  - intros y ty. rewrite lookup_insert. case_decide; [by subst|]. apply I3.
  - intros y ty. rewrite lookup_insert. case_decide; [by intros [= <-]|]. apply I4.
  - intros y Hy. destruct (I5 y Hy) as [Hs Hq]. split; [|done]. rewrite lookup_insert. case_decide; eauto.
  - intros g Hg. destruct (I6 g Hg) as (Hg1 & Hg2 & Hg3). split; [done|]. split; [done|].
    rewrite lookup_insert_ne; [done|]. by intros ->.
  - intros Hi. rewrite lookup_insert_ne; [by apply I7|]. by intros ->.
  - rewrite lookup_insert_ne; [done|]. intros ->. congruence.
Qed.

Lemma hand_add idle k Q H x t : kinv idle k Q H -> threads k !! x = Some t -> ~ queued Q x ->
  gc_ptr k <> Some x -> kinv idle k Q ({[x]} ∪ H).
Proof.
  intros [I1 I2 I3 I4 I5 I6 I7 I8 I9 I10 I11 I12] E Hn Hg. constructor; try done.
  - intros y ty Ey Hy. apply I3; [done|]. intros ?. apply Hy, elem_of_union. by right.
  - intros y [->%elem_of_singleton|Hy]%elem_of_union; [eauto|by apply I5].
  - intros g Eg. destruct (I6 g Eg) as (Hg1 & Hg2 & Hg3). split; [|done].
    intros [->%elem_of_singleton|?]%elem_of_union; done.
  - intros Hi. apply I7. intros ?. apply Hi, elem_of_union. by right.
Qed.

Lemma hand_drop idle k Q H x t : kinv idle k Q H -> threads k !! x = Some t -> placed Q x t ->
  x <> idle -> kinv idle k Q (H ∖ {[x]}).
Proof.
  intros [I1 I2 I3 I4 I5 I6 I7 I8 I9 I10 I11 I12] E Hp Hi. constructor; try done.
  - intros y ty Ey Hy. destruct (decide (y = x)) as [->|]; [by assert (ty = t) as -> by congruence|].
    apply I3; [done|]. intros ?. apply Hy, elem_of_difference. by rewrite elem_of_singleton.
  - intros y [Hy _]%elem_of_difference. by apply I5.
  - intros g Eg. destruct (I6 g Eg) as (Hg1 & Hg2). split; [|done]. by intros [? _]%elem_of_difference.
  - intros Hn. apply I7. intros ?. apply Hn, elem_of_difference. rewrite elem_of_singleton.
    split; [done|congruence].
Qed.

Lemma kinv_timer idle k Q H tm : kinv idle k Q H -> kinv idle (set_timer tm k) Q H.
Proof. intros [I1 I2 I3 I4 I5 I6 I7 I8 I9 I10 I11 I12]. constructor; try done. by destruct I1. Qed.

Lemma kinv_this idle k Q H x : kinv idle k Q H -> kinv idle (set_this x k) Q H.
Proof. intros [I1 I2 I3 I4 I5 I6 I7 I8 I9 I10 I11 I12]. constructor; try done. by destruct I1. Qed.

(** A stopped thread goes to the collector. *)
Lemma on_stop_ok idle k Q H x t : kinv idle k Q H -> x ∈ H -> x ∈ locked k -> threads k !! x = Some t ->
  state t = STOPPED -> wait_for t = None -> timer_ticket t = 0 -> x <> idle ->
  exists k', on_stop x k = Ok k' /\ kinv idle k' (upd Q Collect (Q Collect ++ [x])) (H ∖ {[x]}) /\
    relinked k k' /\ rest k k' /\ locked k' = locked k ∖ {[x]}.
Proof.
  intros Hk Hx Hl E Hs Hw Ht Hi. unfold on_stop, is_locked. rewrite bool_decide_eq_true_2 by done.
  cbn [ensure obind]. unfold get_thread. rewrite E. cbn [deref obind].
  rewrite bool_decide_eq_true_2 by done. rewrite Hw, Ht. cbn [ensure obind is_null andb Z.eqb].
  unfold gc_put, get_thread. rewrite E. cbn [deref obind]. rewrite bool_decide_eq_true_2 by done.
  cbn [ensure obind].
  destruct (put_ok idle k Q H Collect x t Hk Hx (ki_collect _ _ _ _ Hk) E) as (k' & -> & Hk' & Hr & Hrest & Hlk & _);
    [done|by intros ->|done|].
  cbn [obind]. rewrite unlock_ok by (by rewrite Hlk). eexists. split; [done|].
  split; [by apply kinv_locked|]. split; [done|]. split; [done|]. cbn. by rewrite Hlk.
Qed.

(** A ready thread goes to the queue of its priority. *)
Lemma sched_put_ok idle k Q H x t : kinv idle k Q H -> x ∈ H -> x ∈ locked k -> threads k !! x = Some t ->
  state t = READY -> wait_for t = None -> timer_ticket t = 0 ->
  exists k', sched_put x k = Ok k' /\
    kinv idle k' (upd Q (Ready (priority t)) (Q (Ready (priority t)) ++ [x])) (H ∖ {[x]}) /\
    relinked k k' /\ rest k k' /\ locked k' = locked k /\
    (forall y, y ∈ H -> y <> x -> threads k' !! y = threads k !! y).
Proof.
  intros Hk Hx Hl E Hs Hw Ht. unfold sched_put, is_locked. rewrite bool_decide_eq_true_2 by done.
  cbn [ensure obind]. unfold get_thread. rewrite E. cbn [deref obind].
  rewrite bool_decide_eq_true_2 by done. pose proof (ki_good _ _ _ _ Hk _ _ E) as [Hp _].
  rewrite (proj2 (Z.ltb_lt _ _)) by lia. cbn [ensure obind].
  destruct (put_ok idle k Q H (Ready (priority t)) x t) as (k' & Ek & Hk' & Hr & Hrest & Hlk & Hsame); try done.
  - by apply (ki_ready _ _ _ _ Hk).
  - cbn. split; [done|]. auto.
  - exists k'. do 5 (split; [done|]). intros y Hy Hne. apply Hsame; [|done]. intros Hq.
    destruct (ki_hand _ _ _ _ Hk y Hy) as [_ Hn]. apply Hn. by eexists.
Qed.

(** [to_ready] of a thread in hand that does not wait. *)
Lemma to_ready_hand idle k Q H x t r : kinv idle k Q H -> x ∈ H -> x ∈ locked k ->
  threads k !! x = Some t -> state t <> STOPPED -> state t <> WAITING ->
  exists k', to_ready x r k = Ok (true, k') /\ kinv idle k' Q H /\
    threads k' = <[x := set_state_field READY t]> (threads k) /\ rest k k' /\ locked k' = locked k /\
    queues k' = queues k.
Proof.
  intros Hk Hx Hl E Hs1 Hs2. unfold to_ready, is_locked. rewrite bool_decide_eq_true_2 by done.
  cbn [ensure obind]. unfold get_thread. rewrite E. cbn [deref obind].
  rewrite bool_decide_eq_false_2 by done. rewrite bool_decide_eq_false_2 by done. cbn [obind].
  rewrite (update_ok x t) by done. cbn [obind]. eexists. split; [done|].
  split; [eapply hand_update; try done; apply (ki_good _ _ _ _ Hk _ _ E)|]. done.
Qed.

Lemma to_ready_stopped x t r k : x ∈ locked k -> threads k !! x = Some t -> state t = STOPPED ->
  to_ready x r k = Ok (false, k).
Proof.
  intros Hl E Hs. unfold to_ready, is_locked. rewrite bool_decide_eq_true_2 by done.
  cbn [ensure obind]. unfold get_thread. rewrite E. cbn [deref obind].
  by rewrite bool_decide_eq_true_2.
Qed.

Lemma to_running_ok idle k Q H x t : kinv idle k Q H -> x ∈ H -> x ∈ locked k ->
  threads k !! x = Some t -> state t = READY ->
  exists k', to_running x k = Ok (true, k') /\ kinv idle k' Q H /\
    threads k' = <[x := set_state_field RUNNING t]> (threads k) /\ rest k k' /\ locked k' = locked k /\
    queues k' = queues k.
Proof.
  intros Hk Hx Hl E Hs. unfold to_running, is_locked. rewrite bool_decide_eq_true_2 by done.
  cbn [ensure obind]. unfold get_thread. rewrite E. cbn [deref obind].
  rewrite bool_decide_eq_false_2 by congruence. rewrite bool_decide_eq_true_2 by done. cbn [ensure obind].
  rewrite (update_ok x t) by done. cbn [obind]. eexists. split; [done|].
  split; [eapply hand_update; try done; apply (ki_good _ _ _ _ Hk _ _ E)|]. done.
Qed.

Lemma to_running_stopped x t k : x ∈ locked k -> threads k !! x = Some t -> state t = STOPPED ->
  to_running x k = Ok (false, k).
Proof.
  intros Hl E Hs. unfold to_running, is_locked. rewrite bool_decide_eq_true_2 by done.
  cbn [ensure obind]. unfold get_thread. rewrite E. cbn [deref obind].
  by rewrite bool_decide_eq_true_2.
Qed.

Lemma rest_timer k tm : Timer.conductor tm = Timer.conductor (timer k) -> rest k (set_timer tm k).
Proof. done. Qed.

Lemma timer_cancel_rest tk k : rest k (timer_cancel tk k).
Proof. apply rest_timer. unfold Timer.cancel. by case_bool_decide. Qed.

(** The waiting thread [t] after a wait that ended with [r]. *)
Definition woken (r : REASON) (t : thread) : thread :=
  set_state_field READY (set_wait None 0 (set_reason r t)).

(** [to_ready] of a thread that was taken out of the queue it waited in. *)
Lemma to_ready_notify idle k Q H x t w : kinv idle k Q H -> x ∈ H -> x ∈ locked k ->
  threads k !! x = Some t -> state t = WAITING -> wait_for t = Some w ->
  exists k', to_ready x NOTIFY k = Ok (true, k') /\ kinv idle k' Q H /\
    threads k' = <[x := woken NOTIFY t]> (threads k) /\ rest k k' /\ locked k' = locked k /\
    queues k' = queues k.
Proof.
  intros Hk Hx Hl E Hs Hw. unfold to_ready, is_locked. rewrite bool_decide_eq_true_2 by done.
  cbn [ensure obind]. unfold get_thread. rewrite E. cbn [deref obind].
  rewrite bool_decide_eq_false_2 by congruence. rewrite bool_decide_eq_true_2 by done.
  unfold end_wait. rewrite Hw. cbn [deref obind].
  set (k1 := if truth (timer_ticket t) then timer_cancel (timer_ticket t) k else k).
  assert (Hk1 : kinv idle k1 Q H /\ rest k k1 /\ threads k1 = threads k /\ locked k1 = locked k /\ queues k1 = queues k).
  { unfold k1. destruct (truth _); [|done]. split; [by apply kinv_timer|]. split; [apply timer_cancel_rest|done]. }
  destruct Hk1 as (Hk1 & Hr1 & Et1 & El1 & Eq1).
  rewrite (update_ok x t) by (by rewrite Et1). cbn [obind].
  set (t1 := set_wait None 0 (set_reason NOTIFY t)).
  assert (E1 : threads (set_threads (<[x:=t1]> (threads k1)) k1) !! x = Some t1) by (cbn; by rewrite lookup_insert_eq).
  rewrite (update_ok x t1) by exact E1. cbn [obind]. eexists. split; [done|].
  pose proof (ki_good _ _ _ _ Hk _ _ E) as Hp.
  split; [|split; [cbn; by rewrite insert_insert_eq, Et1|done]].
  eapply hand_update; [|done|exact E1|done].
  eapply hand_update; [done|done|rewrite Et1; exact E|done].
Qed.

(** ** Waking *)

Lemma singleton_back (X : gset Z) x : x ∉ X -> ({[x]} ∪ X) ∖ {[x]} = X.
Proof.
  intros Hx. apply set_eq. intros y. rewrite elem_of_difference, elem_of_union, elem_of_singleton.
  split; [tauto|]. intros Hy. split; [by right|]. by intros ->.
Qed.

Lemma pair_drop (n x : Z) : n <> x -> (({[n]} ∪ {[x]}) ∖ {[x]} : gset Z) = {[n]}.
Proof.
  intros Hne. rewrite (union_comm_L ({[n]} : gset Z)). apply singleton_back.
  rewrite not_elem_of_singleton. congruence.
Qed.

Lemma wake_one idle k Q H x t w : kinv idle k Q H -> x ∈ H -> x ∉ locked k ->
  threads k !! x = Some t -> state t = WAITING -> wait_for t = Some w ->
  exists k1 k2 k3 k', lock x k = Ok k1 /\ to_ready x NOTIFY k1 = Ok (true, k2) /\
    sched_put x k2 = Ok k3 /\ unlock x k3 = Ok k' /\
    kinv idle k' (upd Q (Ready (priority t)) (Q (Ready (priority t)) ++ [x])) (H ∖ {[x]}) /\
    rest k k' /\ locked k' = locked k /\
    (forall y, set_next None <$> threads k' !! y =
      if decide (y = x) then Some (set_next None (woken NOTIFY t)) else set_next None <$> threads k !! y) /\
    (forall y, y ∈ H -> y <> x -> threads k' !! y = threads k !! y).
Proof.
  intros Hk Hx Hl E Hs Hw. exists (set_locked ({[x]} ∪ locked k) k).
  assert (Hk1 : kinv idle (set_locked ({[x]} ∪ locked k) k) Q H) by (by apply kinv_locked).
  assert (Hxl : x ∈ locked (set_locked ({[x]} ∪ locked k) k)).
  { apply elem_of_union. left. by apply elem_of_singleton. }
  destruct (to_ready_notify idle _ Q H x t w Hk1 Hx Hxl E Hs Hw) as (k2 & E2 & Hk2 & Ht2 & Hr2 & Hl2 & Hq2).
  destruct (sched_put_ok idle k2 Q H x (woken NOTIFY t) Hk2 Hx) as (k3 & E3 & Hk3 & Hl3 & Hr3 & Hlk3 & Hs3); try done.
  { by rewrite Hl2. }
  { rewrite Ht2. by rewrite lookup_insert_eq. }
  exists k2, k3, (set_locked (locked k) k3). split; [by apply lock_ok|]. split; [done|]. split; [done|].
  split.
  { rewrite unlock_ok by (by rewrite Hlk3, Hl2). rewrite Hlk3, Hl2. cbn. by rewrite singleton_back. }
  split; [by apply kinv_locked|]. split; [by eapply rest_trans|]. split; [done|].
  split.
  { intros y. cbn. rewrite (Hl3 y), Ht2, lookup_insert. repeat case_decide; subst; done. }
  intros y Hy Hne. cbn. rewrite Hs3 by done. rewrite Ht2. by rewrite lookup_insert_ne.
Qed.

(** The threads of [l] with priority [i]. *)
Definition at_priority (m : gmap Z thread) (i : Z) (l : list Z) : list Z :=
  filter (fun x => priority <$> m !! x = Some i) l.

Lemma at_priority_ext m m' i l : (forall y, y ∈ l -> m' !! y = m !! y) ->
  at_priority m' i l = at_priority m i l.
Proof.
  unfold at_priority. induction l as [|x l IH]; intros Hs; [done|].
  rewrite !filter_cons, (Hs x) by (by left).
  rewrite IH; [done|]. intros y Hy. apply Hs. by right.
Qed.

(** The loop of [imp_notify] over threads taken out of a queue. *)
Lemma imp_notify_ok idle l : forall k Q H w th count fuel,
  kinv idle k Q H -> chain (threads k) th l -> NoDup l -> (length l < fuel)%nat ->
  (forall x, x ∈ l -> x ∈ H /\ x ∉ locked k /\ exists t, threads k !! x = Some t /\ state t = WAITING /\ wait_for t = Some w) ->
  exists k' Q', imp_notify fuel th NOTIFY count false k = Ok (count + Z.of_nat (length l), k') /\
    kinv idle k' Q' (H ∖ list_to_set l) /\ rest k k' /\ locked k' = locked k /\
    (forall q, (forall i, q <> Ready i) -> Q' q = Q q) /\
    (forall i, Q' (Ready i) = Q (Ready i) ++ at_priority (threads k) i l) /\
    (forall y, set_next None <$> threads k' !! y =
      if decide (y ∈ l) then (set_next None ∘ woken NOTIFY) <$> threads k !! y else set_next None <$> threads k !! y).
Proof.
  induction l as [|x l IH]; intros k Q H w th count fuel Hk Hc Hnd Hfu Hl;
    (destruct fuel as [|fuel]; [cbn in Hfu; lia|]); cbn [imp_notify].
  - cbn in Hc. rewrite Hc. exists k, Q. split; [do 2 f_equal; cbn; lia|].
    split; [by rewrite list_to_set_nil, difference_empty_L|]. split; [done|]. split; [done|].
    split; [done|]. split; [intros i; by rewrite app_nil_r|].
    intros y. rewrite decide_False; [done|]. apply not_elem_of_nil.
  - cbn in Hc. destruct Hc as (-> & t & E & Hc). apply NoDup_cons in Hnd as [Hxl Hnd].
    destruct (Hl x ltac:(by left)) as (Hx & Hlk & t0 & E0 & Hs & Hw).
    assert (t0 = t) as -> by congruence. unfold get_thread. rewrite E. cbn [deref obind].
    destruct (wake_one idle k Q H x t w Hk Hx Hlk E Hs Hw)
      as (k1 & k2 & k3 & k4 & E1 & E2 & E3 & E4 & Hk4 & Hr4 & Hl4 & Ht4 & Hs4).
    rewrite E1. cbn [obind]. rewrite E2. cbn [obind]. rewrite E3. cbn [obind]. rewrite E4. cbn [obind].
    set (Q4 := upd Q (Ready (priority t)) (Q (Ready (priority t)) ++ [x])) in *.
    assert (Hsame : forall y, y ∈ l -> threads k4 !! y = threads k !! y).
    { intros y Hy. destruct (Hl y ltac:(by right)) as (Hy1 & _). apply Hs4; [done|]. by intros ->. }
    destruct (IH k4 Q4 (H ∖ {[x]}) w (next t) (count + 1) fuel Hk4) as (k' & Q' & E' & Hk' & Hr' & Hl' & Hq' & Hqr & Ht').
    + eapply qchain_frame; [|exact Hc]. intros y Hy. by rewrite Hsame.
    + done.
    + cbn in Hfu. lia.
    + intros y Hy. destruct (Hl y ltac:(by right)) as (Hy1 & Hy2 & Hy3).
      split; [apply elem_of_difference; rewrite elem_of_singleton; split; [done|by intros ->]|].
      split; [by rewrite Hl4|]. by rewrite Hsame.
    + exists k', Q'. split; [rewrite E'; do 2 f_equal; cbn [length]; lia|].
      split; [by rewrite list_to_set_cons, <- difference_difference_l_L|].
      split; [by eapply rest_trans|]. split; [by rewrite Hl'|]. split.
      { intros q Hq. rewrite Hq' by done. unfold Q4. apply qupd_ne. done. }
      split.
      { intros i. rewrite Hqr, (at_priority_ext (threads k)) by done. unfold Q4, at_priority.
        rewrite filter_cons. destruct (decide (i = priority t)) as [->|Hi].
        - rewrite qupd_eq, decide_True by (by rewrite E). by rewrite <- app_assoc.
        - rewrite qupd_ne by congruence. rewrite decide_False; [done|]. rewrite E. cbn. congruence. }
      intros y. rewrite Ht'. rewrite (Ht4 y). destruct (decide (y ∈ l)) as [Hy|Hy].
      * rewrite (decide_True (P := y ∈ x :: l)) by (by right). by rewrite Hsame.
      * destruct (decide (y = x)) as [->|Hne].
        -- rewrite (decide_True (P := x ∈ x :: l)) by (by left). by rewrite E.
        -- rewrite (decide_False (P := y ∈ x :: l)); [done|]. by intros [?|?]%elem_of_cons.
Qed.

(** The collector's event and those who wait for it can be locked. *)
Definition free_event (k : kernel) : Prop :=
  gc_event k ∉ locked k /\
  forall x t, threads k !! x = Some t -> x ∈ locked k -> state t = WAITING -> wait_for t <> Some (gc_event k).

Lemma set_locked_id k : set_locked (locked k) k = k.
Proof. by destruct k. Qed.

Lemma locked_cycle k o L : o ∉ L -> locked k = {[o]} ∪ L -> unlock o k = Ok (set_locked L k).
Proof.
  intros Ho E. rewrite unlock_ok by (rewrite E; apply elem_of_union; left; by apply elem_of_singleton).
  rewrite E. by rewrite singleton_back.
Qed.

(** The first of those who wait for [w] is taken out and woken, whatever locks are held then. *)
Lemma wake_front idle k Q H w x l fuel : kinv idle k Q H -> is_Some (queues k !! Wait w) ->
  Q (Wait w) = x :: l -> (2 <= fuel)%nat ->
  exists k1, queue_get (Wait w) k = Ok (Some x, k1) /\ locked k1 = locked k /\
    forall L, x ∉ L -> exists k' Q', imp_notify fuel (Some x) NOTIFY 0 false (set_locked L k1) = Ok (1, k') /\
      kinv idle k' Q' H /\ rest k k' /\ locked k' = L /\ calm k k'.
Proof.
  intros Hk Hq El Hfu.
  destruct (get_ok idle k Q H (Wait w) x l Hk Hq El) as (k2 & E2 & Hk2 & Hr2 & Hrest2 & Hl2 & t & E & Et2).
  exists k2. split; [done|]. split; [done|]. intros L HxL. set (k3 := set_locked L k2).
  assert (Hk3 : kinv idle k3 (upd Q (Wait w) l) ({[x]} ∪ H)) by (by apply kinv_locked).
  assert (Hxq : x ∈ Q (Wait w)) by (rewrite El; by left).
  destruct (ki_fits _ _ _ _ Hk (Wait w) x Hxq) as (t0 & E0 & Hs & Hwf). assert (t0 = t) as -> by congruence.
  assert (Hnx : x ∉ H).
  { intros Hx. destruct (ki_hand _ _ _ _ Hk x Hx) as [_ Hn]. apply Hn. by exists (Wait w). }
  assert (E3 : threads k3 !! x = Some (set_next None t)).
  { cbn. rewrite Et2. by rewrite lookup_insert_eq. }
  destruct (imp_notify_ok idle [x] k3 _ _ w (Some x) 0 fuel Hk3) as (k4 & Q4 & -> & Hk4 & Hr4 & Hl4 & _ & _ & Ht4).
  - split; [reflexivity|]. exists (set_next None t). split; [exact E3|done].
  - apply NoDup_singleton.
  - cbn. lia.
  - intros y ->%list_elem_of_singleton. split; [apply elem_of_union; left; by apply elem_of_singleton|].
    split; [done|]. eexists. split; [exact E3|]. done.
  - exists k4, Q4. split; [done|]. split.
    { replace H with (({[x]} ∪ H) ∖ list_to_set [x]); [done|].
      rewrite list_to_set_cons, list_to_set_nil, union_empty_r_L. by apply singleton_back. }
    split; [by eapply rest_trans|]. split; [done|].
    intros y ty Ey Hys. assert (y <> x) by (intros ->; congruence). specialize (Ht4 y).
    rewrite decide_False in Ht4 by (by intros ?%list_elem_of_singleton).
    assert (Ey3 : threads k3 !! y = Some ty) by (cbn; rewrite Et2; by rewrite lookup_insert_ne).
    rewrite Ey3 in Ht4. destruct (threads k4 !! y) as [t'|]; [|done]. exists t'.
    split; [done|]. by apply (inj Some) in Ht4.
Qed.

Lemma signal_one_ok idle k Q H w fuel : kinv idle k Q H -> is_Some (queues k !! Wait w) -> w ∉ locked k ->
  (forall x, x ∈ Q (Wait w) -> x ∉ locked k) -> (3 <= fuel)%nat ->
  exists k' Q' b, signal_one fuel w k = Ok (b, k') /\ kinv idle k' Q' H /\ rest k k' /\ locked k' = locked k /\
    calm k k'.
Proof.
  intros Hk Hq Hw Hf Hfu. destruct fuel as [|fuel]; [lia|]. cbn [signal_one].
  rewrite lock_ok by done. cbn [obind]. set (k1 := set_locked _ k).
  assert (Hk1 : kinv idle k1 Q H) by (by apply kinv_locked).
  destruct (Q (Wait w)) as [|x l] eqn:El.
  - rewrite (get_empty idle k1 Q H (Wait w) Hk1 Hq El). cbn [obind].
    rewrite (locked_cycle k1 w (locked k)) by done. cbn [obind]. unfold k1, set_locked. cbn.
    eexists _, Q, false. split; [done|]. destruct k; cbn in *. split; [done|]. split; [apply rest_refl|].
    split; [done|apply calm_refl].
  - destruct (wake_front idle k1 Q H w x l fuel Hk1 Hq El ltac:(lia)) as (k2 & -> & Hl2 & Hn).
    cbn [obind]. rewrite (locked_cycle k2 w (locked k)) by done. cbn [obind].
    destruct (Hn (locked k)) as (k4 & Q4 & -> & Hk4 & Hr4 & Hl4 & Hc4); [apply Hf; by left|].
    cbn [obind]. change (1 =? 0) with false. cbn [ensure]. exists k4, Q4, true. done.
Qed.

Lemma gc_signal_ok idle k Q H target fuel : kinv idle k Q H -> free_event k -> (4 <= fuel)%nat ->
  exists k' Q', gc_signal fuel target k = Ok k' /\ kinv idle k' Q' H /\ rest k k' /\ locked k' = locked k /\ calm k k'.
Proof.
  intros Hk [He Hf] Hfu. destruct fuel as [|fuel]; [lia|]. cbn [gc_signal]. case_bool_decide.
  - exists k, Q. split; [done|]. split; [done|]. split; [apply rest_refl|]. split; [done|apply calm_refl].
  - destruct (signal_one_ok idle k Q H (gc_event k) fuel Hk (ki_event _ _ _ _ Hk) He) as (k' & Q' & b & -> & Hk'); [|lia|].
    + intros x Hx Hl. destruct (ki_fits _ _ _ _ Hk _ _ Hx) as (t & E & Hs & Hw). by apply (Hf x t).
    + cbn [obind]. exists k', Q'. done.
Qed.

Lemma gc_signal_if_ok idle k Q H b target : kinv idle k Q H -> (b = true -> free_event k) ->
  exists k' Q', gc_signal_if b target k = Ok k' /\ kinv idle k' Q' H /\ rest k k' /\ locked k' = locked k /\ calm k k'.
Proof.
  intros Hk Hf. unfold gc_signal_if. destruct b.
  - apply (gc_signal_ok idle k Q H); [done|by apply Hf|unfold fuel_of; lia].
  - exists k, Q. split; [done|]. split; [done|]. split; [apply rest_refl|]. split; [done|apply calm_refl].
Qed.

(** ** Picking the next thread *)

(** The threads of the ready queues from level [i], [n] levels on. *)
Fixpoint ready_order (Q : queues_of) (i : Z) (n : nat) : list Z :=
  match n with O => [] | S n => Q (Ready i) ++ ready_order Q (i + 1) n end.

Lemma ready_order_ext Q Q' i n : (forall j, Q' (Ready j) = Q (Ready j)) ->
  ready_order Q' i n = ready_order Q i n.
Proof. intros He. revert i. induction n as [|n IH]; intros i; cbn; [done|]. by rewrite He, IH. Qed.

Lemma ready_order_above Q j l i n : j < i -> ready_order (upd Q (Ready j) l) i n = ready_order Q i n.
Proof.
  revert i. induction n as [|n IH]; intros i Hj; cbn; [done|].
  rewrite IH by lia. by rewrite qupd_ne by (intros [= ->]; lia).
Qed.

Lemma ready_order_elem Q i n x : x ∈ ready_order Q i n <-> exists j, i <= j < i + Z.of_nat n /\ x ∈ Q (Ready j).
Proof.
  revert i. induction n as [|n IH]; intros i; cbn [ready_order].
  - rewrite elem_of_nil. split; [done|]. intros (j & ? & _). lia.
  - rewrite elem_of_app, IH. split.
    + intros [Hx|(j & Hj & Hx)]; [exists i|exists j]; (split; [lia|done]).
    + intros (j & Hj & Hx). destruct (decide (j = i)) as [->|]; [by left|right].
      exists j. split; [lia|done].
Qed.

Lemma sched_get_loop_ok idle k Q H : kinv idle k Q H -> forall n i, 0 <= i -> i + Z.of_nat n <= max_priority ->
  match ready_order Q i n with
  | [] => sched_get_loop n i k = Ok (None, k)
  | x :: l => exists k' j lj t, sched_get_loop n i k = Ok (Some x, k') /\
      i <= j < i + Z.of_nat n /\ Q (Ready j) = x :: lj /\
      kinv idle k' (upd Q (Ready j) lj) ({[x]} ∪ H) /\ ready_order (upd Q (Ready j) lj) i n = l /\
      rest k k' /\ locked k' = locked k /\
      threads k !! x = Some t /\ threads k' = <[x := set_next None t]> (threads k)
  end.
Proof.
  intros Hk. induction n as [|n IH]; intros i Hi Hn; cbn [ready_order sched_get_loop]; [done|].
  destruct (Q (Ready i)) as [|x l] eqn:El.
  - rewrite (get_empty idle k Q H (Ready i) Hk) by (done || (apply (ki_ready _ _ _ _ Hk); lia)).
    cbn [obind app]. specialize (IH (i + 1) ltac:(lia) ltac:(lia)).
    destruct (ready_order Q (i + 1) n) as [|x l] eqn:Eo; [done|].
    destruct IH as (k' & j & lj & t & E & Hj & Ej & Hk' & Eo' & Hr & Hl & Et & Ht).
    exists k', j, lj, t. split; [done|]. split; [lia|]. split; [done|]. split; [done|]. split; [|done].
    rewrite Eo'. rewrite qupd_ne by (intros [= ->]; lia). by rewrite El.
  - destruct (get_ok idle k Q H (Ready i) x l Hk) as (k' & E & Hk' & Hr & Hrest & Hl & t & Et & Ht); [|done|].
    { apply (ki_ready _ _ _ _ Hk). lia. }
    rewrite E. cbn [obind app]. exists k', i, l, t. split; [done|]. split; [lia|]. split; [done|].
    split; [done|]. split; [|done]. rewrite qupd_eq. by rewrite ready_order_above by lia.
Qed.

(** What [sched_get level] looks through. *)
Definition levels (level : Z) : nat := Z.to_nat (Z.min level max_priority).

Lemma sched_get_ok idle k Q H level : kinv idle k Q H ->
  match ready_order Q 0 (levels level) with
  | [] => sched_get level k = Ok (None, k)
  | x :: l => exists k' j lj t, sched_get level k = Ok (Some x, k') /\ Q (Ready j) = x :: lj /\
      kinv idle k' (upd Q (Ready j) lj) ({[x]} ∪ H) /\
      ready_order (upd Q (Ready j) lj) 0 (levels level) = l /\
      rest k k' /\ locked k' = locked k /\ fits (Ready j) t /\
      threads k !! x = Some t /\ threads k' = <[x := set_next None t]> (threads k) /\ x ∉ H /\
      (x = idle -> state t = READY)
  end.
Proof.
  intros Hk. pose proof (sched_get_loop_ok idle k Q H Hk (levels level) 0 ltac:(lia)) as Hg.
  unfold sched_get. fold (levels level). specialize (Hg ltac:(unfold levels, max_priority; lia)).
  destruct (ready_order Q 0 (levels level)) as [|x l]; [done|].
  destruct Hg as (k' & j & lj & t & E & Hj & Ej & Hk' & Eo & Hr & Hl & Et & Ht).
  assert (Hx : x ∈ Q (Ready j)) by (rewrite Ej; by left).
  assert (Hn : x ∉ H). { intros Hx'. destruct (ki_hand _ _ _ _ Hk x Hx') as [_ Hn]. apply Hn. by exists (Ready j). }
  destruct (ki_fits _ _ _ _ Hk _ _ Hx) as (t0 & E0 & Hf). assert (t0 = t) as -> by congruence.
  exists k', j, lj, t. repeat (split; [done|]). intros ->. destruct (ki_idle _ _ _ _ Hk Hn) as (t' & E' & Hs).
  congruence.
Qed.

(** The thread at [x] became [f] of itself, and nothing else changed but links. *)
Definition changed (x : Z) (f : thread -> thread) (k k' : kernel) : Prop :=
  forall y, set_next None <$> threads k' !! y =
    (fun t => set_next None (if decide (y = x) then f t else t)) <$> threads k !! y.

Lemma changed_lookup x f k k' t : changed x f k k' -> threads k !! x = Some t ->
  exists t', threads k' !! x = Some t' /\ set_next None t' = set_next None (f t).
Proof.
  intros Hc E. specialize (Hc x). rewrite E in Hc. cbn in Hc. rewrite decide_True in Hc by done.
  destruct (threads k' !! x) as [t'|]; [|done]. exists t'. split; [done|]. by apply (inj Some) in Hc.
Qed.

Lemma changed_other x f k k' y : changed x f k k' -> y <> x ->
  set_next None <$> threads k' !! y = set_next None <$> threads k !! y.
Proof.
  intros Hc Hy. specialize (Hc y). destruct (threads k !! y); cbn in *; [|done].
  by rewrite decide_False in Hc by done.
Qed.

Lemma relinked_changed x f k1 k2 k3 : relinked k1 k2 -> changed x f k2 k3 ->
  (forall t, set_next None (f t) = f (set_next None t)) -> changed x f k1 k3.
Proof.
  intros Hr Hc Hf y. rewrite (Hc y). specialize (Hr y).
  destruct (threads k2 !! y) as [t2|], (threads k1 !! y) as [t1|]; try done. cbn in *.
  apply (inj Some) in Hr. f_equal. case_decide; [|done]. by rewrite !Hf, Hr.
Qed.

Lemma changed_relinked x f k1 k2 k3 : changed x f k1 k2 -> relinked k2 k3 -> changed x f k1 k3.
Proof. intros Hc Hr y. by rewrite (Hr y), (Hc y). Qed.

Lemma changed_insert x f t k k' : threads k !! x = Some t -> threads k' = <[x := f t]> (threads k) -> changed x f k k'.
Proof.
  intros E Et y. rewrite Et, lookup_insert. destruct (decide (x = y)) as [<-|Hy].
  - rewrite E. cbn. by case_decide.
  - destruct (threads k !! y); [|done]. cbn. case_decide; [congruence|done].
Qed.

(** A thread out of its ready queue is run, or goes to the collector. *)
Lemma run_one idle k Q H x t : kinv idle k Q H -> x ∈ H -> x ∉ locked k -> threads k !! x = Some t ->
  fits (Ready 0) t -> (x = idle -> state t = READY) ->
  exists k1, lock x k = Ok k1 /\
  ((state t = READY /\ exists k', to_running x k1 = Ok (true, k') /\ kinv idle k' Q H /\
     threads k' = <[x := set_state_field RUNNING t]> (threads k) /\ rest k k' /\ locked k' = {[x]} ∪ locked k) \/
   (state t = STOPPED /\ to_running x k1 = Ok (false, k1) /\ exists k', on_stop x k1 = Ok k' /\
     kinv idle k' (upd Q Collect (Q Collect ++ [x])) (H ∖ {[x]}) /\ relinked k k' /\ rest k k' /\
     locked k' = locked k)).
Proof.
  intros Hk Hx Hl E (_ & Hs & Hw & Ht) Hid. rewrite lock_ok by done. eexists. split; [done|].
  set (k1 := set_locked _ k). assert (Hk1 : kinv idle k1 Q H) by (by apply kinv_locked).
  assert (Hl1 : x ∈ locked k1) by (apply elem_of_union; left; by apply elem_of_singleton).
  destruct Hs as [Hs|Hs]; [left|right]; (split; [done|]).
  - destruct (to_running_ok idle k1 Q H x t Hk1 Hx Hl1 E Hs) as (k' & E' & Hk' & Ht' & Hr' & Hl' & _).
    exists k'. done.
  - split; [by apply (to_running_stopped x t)|].
    destruct (on_stop_ok idle k1 Q H x t Hk1 Hx Hl1 E Hs Hw Ht) as (k' & E' & Hk' & Hr' & Hrest' & Hl').
    { intros Hxi. specialize (Hid Hxi). congruence. }
    exists k'. repeat (split; [done|]). rewrite Hl'. by apply singleton_back.
Qed.

Definition stopped_in (k : kernel) (x : Z) : Prop := exists t, threads k !! x = Some t /\ state t = STOPPED.

Lemma stopped_in_relinked k k' x : relinked k k' -> stopped_in k' x <-> stopped_in k x.
Proof.
  intros Hr. split; intros (t & E & Hs).
  - destruct (relinked_lookup' _ _ _ _ Hr E) as (t' & E' & Et). exists t'. split; [done|].
    apply set_next_fields in Et as (Et & _). congruence.
  - destruct (relinked_lookup _ _ _ _ Hr E) as (t' & E' & Et). exists t'. split; [done|].
    apply set_next_fields in Et as (Et & _). congruence.
Qed.

Lemma relinked_size k k' : relinked k k' -> size (threads k') = size (threads k).
Proof.
  intros Hr. rewrite <- !size_dom. f_equal. apply set_eq. intros x. rewrite !elem_of_dom.
  specialize (Hr x). destruct (threads k' !! x), (threads k !! x); try done; split; eauto.
Qed.

(** [pick] returns the first thread of [ready_order] that still may run; the stopped ones before it go
    to the collector. *)
Definition picked (idle : Z) (k k' : kernel) (Q Q' : queues_of) (H : gset Z) (n : nat)
  (o : option Z) (gone : list Z) : Prop :=
  Forall (stopped_in k) gone /\ rest k k' /\
  match o with
  | None => ready_order Q 0 n = gone /\ ready_order Q' 0 n = [] /\ kinv idle k' Q' H /\
      relinked k k' /\ locked k' = locked k
  | Some x => exists l t, ready_order Q 0 n = gone ++ x :: l /\ ready_order Q' 0 n = l /\
      kinv idle k' Q' ({[x]} ∪ H) /\ threads k !! x = Some t /\ state t = READY /\ x ∉ H /\
      changed x (set_state_field RUNNING) k k' /\ locked k' = {[x]} ∪ locked k
  end.

Lemma pick_ok idle level : forall fuel need_gc k Q H, kinv idle k Q H ->
  (forall x, x ∈ ready_order Q 0 (levels level) -> x ∉ locked k) ->
  (size (threads k) - length (Q Collect) < fuel)%nat ->
  exists o k' Q' gone, pick fuel level need_gc k = Ok (o, need_gc || negb (bool_decide (gone = [])), k') /\
    picked idle k k' Q Q' H (levels level) o gone.
Proof.
  induction fuel as [|fuel IH]; intros need_gc k Q H Hk Hfree Hfu; [lia|]. cbn [pick].
  pose proof (sched_get_ok idle k Q H level Hk) as Hg.
  destruct (ready_order Q 0 (levels level)) as [|x l] eqn:Eo.
  - rewrite Hg. cbn [obind]. exists None, k, Q, []. split; [by rewrite orb_false_r|].
    split; [constructor|]. split; [apply rest_refl|]. split; [done|]. split; [done|]. split; [done|].
    split; [apply relinked_refl|done].
  - destruct Hg as (k1 & j & lj & t & -> & Ej & Hk1 & Eo1 & Hr1 & Hl1 & Hf & Et & Et1 & HxH & Hid).
    cbn [obind]. set (Q1 := upd Q (Ready j) lj) in *.
    assert (E1 : threads k1 !! x = Some (set_next None t)) by (rewrite Et1; by rewrite lookup_insert_eq).
    assert (Hxx : x ∈ ({[x]} ∪ H)) by (apply elem_of_union; left; by apply elem_of_singleton).
    assert (Hxl : x ∉ locked k1) by (rewrite Hl1; apply Hfree; by left).
    assert (Hr01 : relinked k k1).
    { intros y. rewrite Et1, lookup_insert. case_decide; [subst; by rewrite Et|done]. }
    destruct (run_one idle k1 Q1 _ x (set_next None t) Hk1 Hxx Hxl E1) as (k2 & -> & Hc); [|done|].
    { destruct Hf as [_ Hf]. split; [done|exact Hf]. }
    cbn [obind]. destruct Hc as [(Hs & k3 & E3 & Hk3 & Et3 & Hr3 & Hl3)|(Hs & E2 & k3 & E3 & Hk3 & Hr3 & Hrest3 & Hl3)].
    + rewrite E3. cbn [obind]. exists (Some x), k3, Q1, []. split; [by rewrite orb_false_r|].
      split; [constructor|]. split; [by eapply rest_trans|]. exists l, t. split; [done|]. split; [done|].
      split; [done|]. split; [done|]. split; [done|]. split; [done|]. split; [|by rewrite Hl3, Hl1].
      eapply relinked_changed; [exact Hr01| |done]. by eapply changed_insert.
    + rewrite E2. cbn [obind]. rewrite E3. cbn [obind]. rewrite singleton_back in Hk3 by done.
      set (Q3 := upd Q1 Collect (Q1 Collect ++ [x])) in *.
      assert (Hr03 : relinked k k3) by (by eapply relinked_trans).
      assert (Eo3 : ready_order Q3 0 (levels level) = l).
      { rewrite <- Eo1. apply ready_order_ext. intros i. unfold Q3. by rewrite qupd_ne. }
      assert (Ec3 : length (Q3 Collect) = S (length (Q Collect))).
      { unfold Q3. rewrite qupd_eq, length_app. unfold Q1. rewrite qupd_ne by done. cbn. lia. }
      pose proof (queue_length k3 Q3 Collect (ki_wfq _ _ _ _ Hk3)) as Hlen.
      pose proof (relinked_size _ _ Hr03) as Hsz.
      destruct (IH true k3 Q3 H Hk3) as (o & k' & Q' & gone & -> & Hgone & Hrest' & Ho).
      { intros y. rewrite Eo3, Hl3, Hl1. intros Hy. apply Hfree. by right. }
      { lia. }
      exists o, k', Q', (x :: gone). split; [by rewrite orb_true_r|].
      split.
      { constructor; [by exists t|]. eapply Forall_impl; [exact Hgone|]. intros y Hy. by apply (stopped_in_relinked k k3). }
     
      split; [eapply rest_trans; [|exact Hrest']; by eapply rest_trans|]. rewrite Eo3 in Ho. destruct o as [n|].
      * destruct Ho as (l' & tn & -> & Eo' & Hk' & En & Hsn & HnH & Hc & Hl').
        destruct (relinked_lookup' _ _ _ _ Hr03 En) as (tn0 & En0 & Etn).
        exists l', tn0. split; [done|]. split; [done|]. split; [done|]. split; [done|].
        split; [apply set_next_fields in Etn as (Etn & _); congruence|]. split; [done|].
        split; [by eapply relinked_changed|]. by rewrite Hl', Hl3, Hl1.
      * destruct Ho as (-> & Eo' & Hk' & Hr' & Hl'). split; [done|]. split; [done|]. split; [done|].
        split; [by eapply relinked_trans|]. by rewrite Hl', Hl3, Hl1.
Qed.

(** ** The switch *)

Lemma kinv_gc_none idle k Q H : kinv idle k Q H -> kinv idle (set_gc_ptr None k) Q H.
Proof. intros [I1 I2 I3 I4 I5 I6 I7 I8 I9 I10 I11 I12]. constructor; try done. by destruct I1. Qed.

Lemma kinv_gc idle k Q H x t : kinv idle k Q H -> x ∉ H -> ~ queued Q x -> threads k !! x = Some t ->
  state t = STOPPED -> kinv idle (set_gc_ptr (Some x) k) Q H.
Proof.
  intros [I1 I2 I3 I4 I5 I6 I7 I8 I9 I10 I11 I12] Hx Hq E Hs. constructor; try done; [by destruct I1|].
  cbn. intros g [= <-]. split; [done|]. split; [done|]. by exists t.
Qed.

Lemma on_stop_gc_ptr v x k : on_stop x (set_gc_ptr v k) = obind (on_stop x k) (fun k => Ok (set_gc_ptr v k)).
Proof.
  unfold on_stop, gc_put, queue_put, update, unlock, is_locked, get_thread, deref, ensure. cbn.
  repeat (case_match; cbn; try done; simplify_eq).
Qed.

(** Nobody runs but the thread at [n]. *)
Record running (idle : Z) (k : kernel) (n : Z) : Prop := {
  run_this : this_thread k = n;
  run_inv : exists Q, kinv idle k Q {[n]};
  run_locked : locked k = ∅;
  run_thread : exists t, threads k !! n = Some t /\ state t = RUNNING /\ wait_for t = None /\ timer_ticket t = 0
}.

(** What a switch leaves alone. *)
Definition core_rest (k k' : kernel) : Prop :=
  in_irq k' = in_irq k /\ th_gc k' = th_gc k /\ gc_event k' = gc_event k /\
  Timer.conductor (timer k') = Timer.conductor (timer k).

Lemma rest_core k k' : rest k k' -> core_rest k k'.
Proof. intros (_ & _ & ? & ? & ? & ? & _). done. Qed.

Lemma core_rest_trans k1 k2 k3 : core_rest k1 k2 -> core_rest k2 k3 -> core_rest k1 k3.
Proof. unfold core_rest. intuition congruence. Qed.

Lemma free_running k n t : locked k = {[n]} -> threads k !! n = Some t -> state t = RUNNING ->
  threads k !! gc_event k = None -> free_event k.
Proof.
  intros Hl E Hs He. split; rewrite Hl.
  - intros Hx%elem_of_singleton. congruence.
  - intros x t' E' ->%elem_of_singleton Hs'. congruence.
Qed.

(** The old contents of [gc_ptr] go to the collector. *)
Lemma flush_gc idle k Q H g L : kinv idle k Q H -> gc_ptr k = Some g -> locked k = L -> g ∉ L ->
  exists k1 k2 Q', lock g k = Ok k1 /\ on_stop g k1 = Ok (set_gc_ptr (Some g) k2) /\ kinv idle k2 Q' H /\
    gc_ptr k2 = None /\ relinked k k2 /\ rest (set_gc_ptr None k) k2 /\ locked k2 = L /\
    (forall x, queued Q' x <-> queued Q x \/ x = g).
Proof.
  intros Hk Eg <- HgL. rewrite lock_ok by done. set (k1 := set_locked _ k).
  destruct (ki_gc _ _ _ _ Hk g Eg) as (HgH & Hgq & t & E & Hs).
  pose proof (ki_placed _ _ _ _ Hk g t E HgH) as Hp. unfold placed in Hp. rewrite Hs in Hp.
  assert (Hgi : g <> idle).
  { intros ->. destruct (ki_idle _ _ _ _ Hk HgH) as (t' & E' & Hs'). congruence. }
  set (k0 := set_gc_ptr None k1).
  assert (Hk0 : kinv idle k0 Q ({[g]} ∪ H)).
  { apply (hand_add _ _ _ _ _ t); [by apply kinv_gc_none, kinv_locked|done|done|done]. }
  destruct (on_stop_ok idle k0 Q _ g t Hk0) as (k2 & E2 & Hk2 & Hr2 & Hrest2 & Hl2); try done; try apply Hp.
  { apply elem_of_union. left. by apply elem_of_singleton. }
  { apply elem_of_union. left. by apply elem_of_singleton. }
  rewrite singleton_back in Hk2 by done. eexists k1, k2, _. split; [done|].
  split.
  { replace k1 with (set_gc_ptr (Some g) k0) by (unfold k0, k1; rewrite <- Eg; by destruct k).
    by rewrite on_stop_gc_ptr, E2. }
  split; [exact Hk2|]. split; [apply Hrest2|]. split; [done|]. split; [done|].
  split; [rewrite Hl2; by apply singleton_back|]. intros x. split.
  - intros [q Hq]. unfold upd in Hq. case_decide; [|left; by exists q].
    apply elem_of_app in Hq as [Hq| ->%list_elem_of_singleton]; [left; by exists Collect|by right].
  - intros [[q Hq]| ->].
    + exists q. unfold upd. case_decide; [subst; apply elem_of_app; by left|done].
    + exists Collect. rewrite qupd_eq. apply elem_of_app. right. by left.
Qed.

(** How the thread that gives way is left. *)
Definition left_behind (idle : Z) (k : kernel) (H : gset Z) (n : Z) : Prop :=
  exists c, threads k !! this_thread k = Some c /\
    ((state c <> STOPPED /\ H = {[n]}) \/
     (state c = STOPPED /\ wait_for c = None /\ timer_ticket c = 0 /\ this_thread k <> idle /\
      this_thread k <> n /\ H = {[n; this_thread k]})).

Definition give_way (k : kernel) (need_gc : bool) : outcome kernel :=
  let! k' :=
    (match gc_ptr k with
     | Some g =>
         let! k := lock g k;
         let! k := on_stop g k;
         Ok (if need_gc then k else set_gc_ptr None k)
     | None => Ok k
     end);
  Ok (if need_gc then set_gc_ptr (Some (this_thread k)) k' else k').

Lemma give_way_ok idle k Q H n c : kinv idle k Q H -> locked k = {[n]} -> n ∈ H ->
  threads k !! this_thread k = Some c ->
  ((state c <> STOPPED /\ H = {[n]}) \/
   (state c = STOPPED /\ wait_for c = None /\ timer_ticket c = 0 /\ this_thread k <> idle /\
    this_thread k <> n /\ H = {[n; this_thread k]})) ->
  exists k' Q', give_way k (bool_decide (state c = STOPPED)) = Ok k' /\
    kinv idle k' Q' {[n]} /\ relinked k k' /\ locked k' = {[n]} /\ core_rest k k'.
Proof.
  intros Hk Hl Hn Ec Hc.
  (* what is left when the old contents are gone *)
  assert (Hbase : exists k2 Q2, kinv idle k2 Q2 H /\ gc_ptr k2 = None /\ relinked k k2 /\
      locked k2 = {[n]} /\ core_rest k k2 /\ this_thread k2 = this_thread k /\
      give_way k (bool_decide (state c = STOPPED)) =
        Ok (if bool_decide (state c = STOPPED) then set_gc_ptr (Some (this_thread k)) k2 else k2)).
  { unfold give_way. destruct (gc_ptr k) as [g|] eqn:Eg.
    - assert (HgL : g ∉ ({[n]} : gset Z)).
      { intros ->%elem_of_singleton. by destruct (ki_gc _ _ _ _ Hk n Eg) as (? & _). }
      destruct (flush_gc idle k Q H g _ Hk Eg Hl HgL) as (k1 & k2 & Q2 & E1 & E2 & Hk2 & Hg2 & Hr2 & Hrest2 & Hl2 & _).
      exists k2, Q2. split; [done|]. split; [done|]. split; [done|]. split; [done|].
      split; [apply (rest_core _ _ Hrest2)|]. split; [apply Hrest2|].
      rewrite E1. cbn [obind]. rewrite E2. cbn [obind].
      destruct (bool_decide _); [done|]. f_equal. rewrite <- Hg2. by destruct k2.
    - exists k, Q. cbn [obind]. split; [done|]. split; [done|]. split; [apply relinked_refl|]. done. }
  destruct Hbase as (k2 & Q2 & Hk2 & Hg2 & Hr2 & Hl2 & Hc2 & Ht2 & ->).
  destruct (relinked_lookup _ _ _ _ Hr2 Ec) as (c' & Ec' & Etc).
  destruct (set_next_fields _ _ Etc) as (F1 & _ & F3 & F4 & _).
  destruct Hc as [[Hs ->]|(Hs & Hw & Ht & Hi & Hne & ->)].
  - rewrite bool_decide_eq_false_2 by done. exists k2, Q2. done.
  - rewrite bool_decide_eq_true_2 by done. eexists _, Q2. split; [done|]. split; [|done].
    assert (Hx : this_thread k ∈ ({[n; this_thread k]} : gset Z)).
    { apply elem_of_union. right. by apply elem_of_singleton. }
    destruct (ki_hand _ _ _ _ Hk2 _ Hx) as [_ Hq].
    assert (Hd : kinv idle k2 Q2 ({[n; this_thread k]} ∖ {[this_thread k]})).
    { apply (hand_drop _ _ _ _ _ c'); try done. unfold placed. rewrite F1, Hs, F3, F4. done. }
    rewrite pair_drop in Hd by done.
    apply (kinv_gc _ _ _ _ _ c'); try done; [by rewrite not_elem_of_singleton|congruence].
Qed.

Lemma irq_switch_to_eq n k : irq_switch_to n k =
  let! c := get_thread (this_thread k) k;
  let! k' := give_way k (bool_decide (state c = STOPPED));
  assert! is_locked n k';
  let! k' := (if is_null (gc_ptr k) then Ok k' else gc_signal (fuel_of k') (Some n) k');
  unlock n (set_this n k').
Proof.
  unfold irq_switch_to, give_way. destruct (get_thread _ _) as [c| |]; [|done|done]. cbn [obind].
  destruct (gc_ptr k) as [g|]; cbn [obind]; [|done].
  destruct (lock g k) as [k1| |]; [|done|done]. cbn [obind].
  by destruct (on_stop g k1).
Qed.

Lemma irq_switch_to_ok idle k Q H n t : kinv idle k Q H -> locked k = {[n]} -> threads k !! n = Some t ->
  state t = RUNNING -> wait_for t = None -> timer_ticket t = 0 -> n ∈ H -> left_behind idle k H n ->
  exists k', irq_switch_to n k = Ok k' /\ running idle k' n /\ core_rest k k' /\ calm k k'.
Proof.
  intros Hk Hl E Hs Hw Ht Hn (c & Ec & Hc). rewrite irq_switch_to_eq. unfold get_thread. rewrite Ec.
  cbn [deref obind].
  destruct (give_way_ok idle k Q H n c Hk Hl Hn Ec Hc) as (k2 & Q2 & -> & Hk2 & Hr2 & Hl2 & Hc2).
  cbn [obind]. unfold is_locked. rewrite Hl2, bool_decide_eq_true_2 by (by apply elem_of_singleton).
  cbn [ensure obind].
  destruct (relinked_lookup _ _ _ _ Hr2 E) as (t2 & E2 & Et2).
  destruct (set_next_fields _ _ Et2) as (F1 & _ & F3 & F4 & _).
  assert (exists k3 Q3, (if is_null (gc_ptr k) then Ok k2 else gc_signal (fuel_of k2) (Some n) k2) = Ok k3 /\
    kinv idle k3 Q3 {[n]} /\ rest k2 k3 /\ locked k3 = {[n]} /\ calm k2 k3) as (k3 & Q3 & -> & Hk3 & Hr3 & Hl3 & Hc3).
  { destruct (gc_ptr k); cbn [is_null].
    - destruct (gc_signal_ok idle k2 Q2 _ (Some n) (fuel_of k2) Hk2) as (k3 & Q3 & -> & Hk3 & Hr3 & Hl3 & Hc3).
      + apply (free_running k2 n t2 Hl2 E2); [congruence|]. apply (ki_object _ _ _ _ Hk2).
      + unfold fuel_of. lia.
      + exists k3, Q3. by rewrite Hl3.
    - exists k2, Q2. split; [done|]. split; [done|]. split; [apply rest_refl|]. split; [done|apply calm_refl]. }
  cbn [obind]. rewrite unlock_ok by (cbn; rewrite Hl3; by apply elem_of_singleton).
  eexists. split; [done|]. split; [|split].
  - destruct (Hc3 n t2 E2) as (t3 & E3 & Et3); [congruence|].
    destruct (set_next_fields _ _ Et3) as (G1 & _ & G3 & G4 & _). constructor; cbn.
    + done.
    + exists Q3. by apply kinv_locked, kinv_this.
    + rewrite Hl3. apply difference_diag_L.
    + exists t3. split; [done|]. rewrite G1, G3, G4, F1, F3, F4. done.
  - eapply core_rest_trans; [exact Hc2|]. exact (rest_core _ _ Hr3).
  - eapply calm_trans; [by apply relinked_calm|]. exact Hc3.
Qed.

Lemma switch_to_ok idle k Q H n t : kinv idle k Q H -> locked k = {[n]} -> threads k !! n = Some t ->
  state t = RUNNING -> wait_for t = None -> timer_ticket t = 0 -> n ∈ H -> left_behind idle k H n ->
  n <> this_thread k ->
  exists k', switch_to n k = Ok k' /\ running idle k' n /\ core_rest k k' /\ calm k k'.
Proof.
  intros Hk Hl E Hs Hw Ht Hn Hlb Hne. unfold switch_to, is_locked, has_context.
  rewrite Hl, bool_decide_eq_true_2 by (by apply elem_of_singleton).
  rewrite (proj2 (Z.eqb_neq _ _) Hne), orb_true_r. cbn [andb ensure obind].
  unfold get_thread. rewrite E. cbn [deref obind]. rewrite bool_decide_eq_true_2 by done. cbn [ensure obind].
  by apply (irq_switch_to_ok idle k Q H n t).
Qed.

(** ** Preemption *)

(** The thread that the loops look for: the first that is ready. *)
Definition first_ready (k : kernel) (l : list Z) : option Z :=
  hd_error (filter (fun x => state <$> threads k !! x = Some READY) l).

Lemma first_ready_skip k gone l : Forall (stopped_in k) gone -> first_ready k (gone ++ l) = first_ready k l.
Proof.
  intros Hg. unfold first_ready. induction Hg as [|x gone (t & E & Hs) _ IH]; [done|].
  cbn [app]. rewrite filter_cons, decide_False; [exact IH|]. rewrite E. cbn. congruence.
Qed.

Lemma picked_first idle k k' Q Q' H n o gone : picked idle k k' Q Q' H n o gone ->
  first_ready k (ready_order Q 0 n) = o.
Proof.
  intros (Hg & _ & Ho). destruct o as [x|].
  - destruct Ho as (l & t & -> & _ & _ & E & Hs & _). rewrite first_ready_skip by done.
    unfold first_ready. rewrite filter_cons, decide_True; [done|]. rewrite E. cbn. congruence.
  - destruct Ho as (-> & _). rewrite <- (app_nil_r gone) at 1. by rewrite first_ready_skip.
Qed.

Lemma first_ready_In k l x : x ∈ l -> state <$> threads k !! x = Some READY -> exists y, first_ready k l = Some y.
Proof.
  intros Hx Hs. unfold first_ready. destruct (filter _ l) as [|y l'] eqn:E; [|by exists y].
  assert (x ∈ filter (fun x => state <$> threads k !! x = Some READY) l) as Hf by (by apply list_elem_of_filter).
  rewrite E in Hf. by apply elem_of_nil in Hf.
Qed.

(** The idle thread is there to be found. *)
Lemma idle_found idle k Q H : kinv idle k Q H -> idle ∉ H ->
  exists y, first_ready k (ready_order Q 0 (levels max_priority)) = Some y.
Proof.
  intros Hk Hi. destruct (ki_idle _ _ _ _ Hk Hi) as (t & E & Hs).
  pose proof (ki_placed _ _ _ _ Hk idle t E Hi) as Hp. unfold placed in Hp. rewrite Hs in Hp.
  destruct Hp as (i & Hq). apply (first_ready_In k _ idle); [|rewrite E; cbn; congruence].
  apply ready_order_elem. exists i. split; [|done].
  destruct (ki_fits _ _ _ _ Hk _ _ Hq) as (t' & _ & Hf & _). unfold levels, max_priority in *. lia.
Qed.

(** [pick] with all the fuel. *)
Lemma pick_all idle k Q H level need_gc : kinv idle k Q H ->
  (forall x, x ∈ locked k -> x ∈ H \/ threads k !! x = None) ->
  exists o k' Q' gone, pick (fuel_of k) level need_gc k = Ok (o, need_gc || negb (bool_decide (gone = [])), k') /\
    picked idle k k' Q Q' H (levels level) o gone.
Proof.
  intros Hk Hl. apply pick_ok; [done| |unfold fuel_of; lia].
  intros x (j & _ & Hx)%ready_order_elem Hx'. destruct (ki_fits _ _ _ _ Hk _ _ Hx) as (t & E & _).
  destruct (Hl x Hx') as [HxH|E']; [|congruence].
  destruct (ki_hand _ _ _ _ Hk x HxH) as [_ Hn]. apply Hn. by eexists.
Qed.

Lemma set_next_wait t t' : set_next None t' = set_next None t -> wait_for t = None -> timer_ticket t = 0 ->
  wait_for t' = None /\ timer_ticket t' = 0.
Proof. intros (_ & _ & F3 & F4 & _)%set_next_fields. rewrite F3, F4. done. Qed.

(** After a pick and the signal to the collector: what [picked] says of the thread at [x]. *)
Lemma picked_signal idle k k1 Q Q1 H n x gone b target : kinv idle k Q H -> locked k = ∅ ->
  picked idle k k1 Q Q1 H n (Some x) gone ->
  (forall y t, y ∈ H -> threads k !! y = Some t -> state t <> WAITING) ->
  exists k2 Q2 t, gc_signal_if b target k1 = Ok k2 /\ kinv idle k2 Q2 ({[x]} ∪ H) /\ rest k k2 /\ locked k2 = {[x]} /\
    threads k2 !! x = Some t /\ state t = RUNNING /\ wait_for t = None /\ timer_ticket t = 0 /\ x ∉ H /\
    (forall y ty, y ∈ H -> threads k !! y = Some ty ->
      exists ty', threads k2 !! y = Some ty' /\ set_next None ty' = set_next None ty).
Proof.
  intros Hk Hl0 (_ & Hr1 & l & t & Eo & _ & Hk1 & E & Hs & HxH & Hc1 & Hl1) Hw.
  rewrite Hl0, union_empty_r_L in Hl1.
  destruct (changed_lookup _ _ _ _ _ Hc1 E) as (t1 & E1 & Et1).
  destruct (set_next_fields _ _ Et1) as (F1 & _ & F3 & F4 & _). cbn in F1, F3, F4.
  destruct (gc_signal_if_ok idle k1 Q1 _ b target Hk1) as (k2 & Q2 & E2 & Hk2 & Hr2 & Hl2 & Hc2).
  { intros _. apply (free_running k1 x t1 Hl1 E1 F1). apply (ki_object _ _ _ _ Hk1). }
  destruct (Hc2 x t1 E1) as (t2 & Et2 & Es2); [congruence|].
  destruct (set_next_fields _ _ Es2) as (G1 & _ & G3 & G4 & _).
  assert (Hx : x ∈ ready_order Q 0 n) by (rewrite Eo; apply elem_of_app; right; by left).
  apply ready_order_elem in Hx as (j & _ & Hx).
  destruct (ki_fits _ _ _ _ Hk _ _ Hx) as (t0 & E0 & _ & _ & Hw0 & Ht0).
  assert (t0 = t) as -> by congruence.
  exists k2, Q2, t2. split; [done|]. split; [done|]. split; [by eapply rest_trans|].
  split; [congruence|]. split; [done|]. split; [congruence|]. split; [congruence|]. split; [congruence|].
  split; [done|]. intros y ty Hy Ey. assert (y <> x) by (intros ->; done).
  pose proof (changed_other _ _ _ _ y Hc1 ltac:(done)) as Hey. rewrite Ey in Hey.
  destruct (threads k1 !! y) as [ty1|] eqn:Ey1; [|done]. apply (inj Some) in Hey.
  destruct (set_next_fields _ _ Hey) as (J1 & _).
  destruct (Hc2 y ty1 Ey1) as (ty2 & Ey2 & Es); [rewrite J1; by apply (Hw y)|].
  exists ty2. split; [done|congruence].
Qed.

Lemma set_locked_two k x y : x <> y -> locked k = {[x]} -> lock y k = Ok (set_locked ({[y]} ∪ {[x]}) k).
Proof.
  intros Hne Hl. rewrite lock_ok; [by rewrite Hl|]. rewrite Hl, not_elem_of_singleton. congruence.
Qed.

Lemma unlock_two k x y : x <> y -> locked k = {[y]} ∪ {[x]} -> unlock y k = Ok (set_locked {[x]} k).
Proof. intros Hne Hl. apply locked_cycle; [rewrite not_elem_of_singleton; congruence|done]. Qed.

(** The thread at [this], ready and in hand, goes to its queue while the one at [n] is kept locked. *)
Lemma put_back_ok idle k Q n this t : kinv idle k Q {[n; this]} -> locked k = {[this]} ∪ {[n]} -> n <> this ->
  this_thread k = this ->
  threads k !! this = Some t -> state t = READY -> wait_for t = None -> timer_ticket t = 0 ->
  exists k3 k4, sched_put this k = Ok k3 /\ unlock this k3 = Ok k4 /\
    kinv idle k4 (upd Q (Ready (priority t)) (Q (Ready (priority t)) ++ [this])) {[n]} /\
    rest k k4 /\ locked k4 = {[n]} /\ threads k4 !! n = threads k !! n /\
    left_behind idle k4 {[n]} n.
Proof.
  intros Hk Hl Hne Hthis E Hs Hw Ht.
  assert (Hx : this ∈ ({[n; this]} : gset Z)) by (apply elem_of_union; right; by apply elem_of_singleton).
  destruct (sched_put_ok idle k Q _ this t Hk Hx) as (k3 & E3 & Hk3 & Hr3 & Hrest3 & Hl3 & Hs3); try done.
  { rewrite Hl. apply elem_of_union. left. by apply elem_of_singleton. }
  rewrite pair_drop in Hk3 by done.
  exists k3, (set_locked {[n]} k3). split; [done|].
  split; [apply unlock_two; [done|]; by rewrite Hl3|]. split; [by apply kinv_locked|].
  split; [done|]. split; [done|]. split.
  { cbn. apply Hs3; [|done]. apply elem_of_union. left. by apply elem_of_singleton. }
  destruct (relinked_lookup _ _ _ _ Hr3 E) as (t3 & E3t & Et3).
  destruct (set_next_fields _ _ Et3) as (F1 & _).
  exists t3. cbn. split; [|left; split; [congruence|done]].
  replace (this_thread k3) with this; [done|]. destruct Hrest3 as (-> & _). done.
Qed.

(** The running thread at [this] goes back to its ready queue, perhaps with a new time slice. *)
Lemma requeue_ok idle k Q n this t (f : thread -> thread) : kinv idle k Q {[n; this]} -> locked k = {[n]} -> n <> this ->
  this_thread k = this -> threads k !! this = Some t -> state t = RUNNING -> wait_for t = None -> timer_ticket t = 0 ->
  (f = id \/ f = set_slice max_slice) ->
  exists k1 k2 k3 k4, lock this k = Ok k1 /\ to_ready this NONE k1 = Ok (true, k2) /\
    obind (update this f k2) (fun k => sched_put this k) = Ok k3 /\ (f = id -> sched_put this k2 = Ok k3) /\
    unlock this k3 = Ok k4 /\
    kinv idle k4 (upd Q (Ready (priority t)) (Q (Ready (priority t)) ++ [this])) {[n]} /\
    rest k k4 /\ locked k4 = {[n]} /\ threads k4 !! n = threads k !! n /\
    left_behind idle k4 {[n]} n.
Proof.
  intros Hk Hl Hne Hthis E Hs Hw Ht Hf. eexists.
  set (k1 := set_locked ({[this]} ∪ {[n]}) k).
  assert (Hk1 : kinv idle k1 Q {[n; this]}) by (by apply kinv_locked).
  assert (Hx : this ∈ ({[n; this]} : gset Z)) by (apply elem_of_union; right; by apply elem_of_singleton).
  assert (Hxl : this ∈ locked k1) by (apply elem_of_union; left; by apply elem_of_singleton).
  destruct (to_ready_hand idle k1 Q _ this t NONE Hk1 Hx Hxl E) as (k2 & E2 & Hk2 & Et2 & Hr2 & Hl2 & _);
    [congruence|congruence|].
  set (t2 := set_state_field READY t) in *. assert (E2t : threads k2 !! this = Some t2) by (rewrite Et2; by rewrite lookup_insert_eq).
  set (k2' := set_threads (<[this := f t2]> (threads k2)) k2).
  assert (Hft : quiet t2 (f t2)).
  { pose proof (ki_good _ _ _ _ Hk2 _ _ E2t) as [Hg1 Hg2].
    destruct Hf as [-> | ->]; (do 4 (split; [done|])); (split; [apply Hg1|]); [apply Hg2|by cbn]. }
  destruct Hft as (F1 & F2 & F3 & _ & Hg).
  destruct (put_back_ok idle k2' Q n this (f t2)) as (k3 & k4 & E3 & E4 & Hk4 & Hr4 & Hl4 & En & Hb);
    [by apply (hand_update _ _ _ _ _ t2)| |done| | |by rewrite F1|by rewrite F2|by rewrite F3|].
  { done. }
  { transitivity (this_thread k1); [apply Hr2|done]. }
  { cbn. by rewrite lookup_insert_eq. }
  exists k2, k3, k4. split; [by apply set_locked_two|]. split; [done|]. split; [by rewrite (update_ok this t2)|].
  split. { intros Hid. rewrite <- E3. f_equal. unfold k2'. rewrite Hid. cbn. rewrite insert_id by done. by destruct k2. }
  split; [done|]. replace (priority (f t2)) with (priority t) in Hk4 by (by destruct Hf as [-> | ->]).
  split; [done|]. split; [by eapply rest_trans|]. split; [done|]. split; [|done].
  rewrite En. cbn. rewrite lookup_insert_ne by congruence. rewrite Et2. by rewrite lookup_insert_ne by congruence.
Qed.

(** A stopped thread is left where it is. *)
Lemma abandon_ok k n this t : locked k = {[n]} -> n <> this -> threads k !! this = Some t -> state t = STOPPED ->
  exists k1, lock this k = Ok k1 /\ to_ready this NONE k1 = Ok (false, k1) /\ unlock this k1 = Ok k.
Proof.
  intros Hl Hne E Hs. eexists. split; [by apply set_locked_two|]. split.
  - apply (to_ready_stopped _ t); [|done|done]. apply elem_of_union. left. by apply elem_of_singleton.
  - rewrite (unlock_two _ n) by done. unfold set_locked. cbn. rewrite <- Hl. by destruct k.
Qed.

Lemma yield_ok idle k Q n tn t : kinv idle k Q {[n; this_thread k]} -> locked k = {[n]} ->
  n <> this_thread k -> threads k !! n = Some tn -> state tn = RUNNING -> wait_for tn = None ->
  timer_ticket tn = 0 -> threads k !! this_thread k = Some t -> wait_for t = None -> timer_ticket t = 0 ->
  (state t = RUNNING \/ state t = STOPPED /\ this_thread k <> idle) ->
  exists k', (let! k1 := lock (this_thread k) k;
    let! (ok, k1) := to_ready (this_thread k) NONE k1;
    let! k1 := (if ok then sched_put (this_thread k) k1 else Ok k1);
    let! k1 := unlock (this_thread k) k1;
    switch_to n k1) = Ok k' /\ running idle k' n /\ core_rest k k'.
Proof.
  intros Hk Hl Hne En Hsn Hwn Htn E Hw Ht Hst. set (this := this_thread k) in *.
  destruct Hst as [Hst|[Hst Hidle]].
  - destruct (requeue_ok idle k Q n this t id) as (k3 & k4 & k5 & k6 & E3 & E4 & _ & E5 & E6 & Hk6 & Hr6 & Hl6 & En6 & Hb6);
      try done; [by left|]. specialize (E5 eq_refl).
    rewrite E3. cbn [obind]. rewrite E4. cbn [obind]. rewrite E5. cbn [obind]. rewrite E6. cbn [obind].
    destruct (switch_to_ok idle k6 _ {[n]} n tn Hk6 Hl6) as (k7 & -> & Hk7 & Hc7 & _); try done.
    + congruence.
    + by apply elem_of_singleton.
    + destruct Hr6 as (-> & _). done.
    + exists k7. split; [done|]. split; [done|]. eapply core_rest_trans; [by apply rest_core|done].
  - destruct (abandon_ok k n this t) as (k3 & E3 & E4 & E5); try done.
    rewrite E3. cbn [obind]. rewrite E4. cbn [obind]. rewrite E5. cbn [obind].
    destruct (switch_to_ok idle k Q {[n; this]} n tn Hk Hl) as (k7 & -> & Hk7 & Hc7 & _); try done.
    + apply elem_of_union. left. by apply elem_of_singleton.
    + exists t. split; [done|]. right. repeat (split; [done|]). done.
    + by exists k7.
Qed.

(** The last resort of [preempt]: a stopped thread leaves the core to whatever is ready. *)
Definition leave (k : kernel) : outcome kernel :=
  let! (next_thread, need_gc, k1) := pick (fuel_of k) max_priority false k;
  match next_thread with
  | None => Bug
  | Some n =>
      let! k1 := gc_signal_if need_gc (Some n) k1;
      let returns := has_context (this_thread k) k1 in
      let! k1 := switch_to n k1;
      if returns then Bug else Ok k1
  end.

Lemma leave_ok idle k Q t : kinv idle k Q {[this_thread k]} -> locked k = ∅ ->
  threads k !! this_thread k = Some t -> wait_for t = None -> timer_ticket t = 0 ->
  state t = STOPPED -> this_thread k <> idle ->
  exists k', leave k = (if in_irq k then Bug else Ok k') /\ running idle k' (this_thread k') /\ core_rest k k'.
Proof.
  intros Hk Hl E Hw Ht Hst Hidle. unfold leave. set (this := this_thread k) in *.
  destruct (pick_all idle k Q _ max_priority false Hk) as (o & k3 & Q3 & gone3 & -> & Hp3).
  { intros x. rewrite Hl. by intros ?%elem_of_empty. }
  cbn [obind orb]. pose proof (picked_first _ _ _ _ _ _ _ _ _ Hp3) as Hf3.
  destruct (idle_found idle k Q _ Hk) as (n & Hn); [rewrite not_elem_of_singleton; congruence|].
  rewrite Hn in Hf3. subst o.
  destruct (picked_signal idle k k3 Q Q3 _ _ n gone3 (negb (bool_decide (gone3 = []))) (Some n) Hk Hl Hp3)
    as (k4 & Q4 & tn & -> & Hk4 & Hr4 & Hl4 & En & Hsn & Hwn & Htn & HnH & Hthis).
  { intros y ty ->%elem_of_singleton Ey. congruence. }
  cbn [obind]. assert (Hne : n <> this) by (by rewrite not_elem_of_singleton in HnH).
  destruct (Hthis this t ltac:(by apply elem_of_singleton) E) as (t4 & E4 & Et4).
  destruct (set_next_fields _ _ Et4) as (J1 & _ & J3 & J4 & _).
  assert (Ht4 : this_thread k4 = this) by (destruct Hr4 as (-> & _); done).
  unfold has_context at 1. replace (in_irq k4) with (in_irq k) by (destruct Hr4 as (_ & _ & -> & _); done).
  rewrite Ht4, Z.eqb_refl. cbn [negb]. rewrite orb_false_r.
  destruct (switch_to_ok idle k4 Q4 ({[n]} ∪ {[this]}) n tn Hk4 Hl4) as (k7 & -> & Hk7 & Hc7 & _); try done.
  - apply elem_of_union. left. by apply elem_of_singleton.
  - exists t4. rewrite Ht4. split; [done|]. right. split; [congruence|]. split; [congruence|].
    split; [congruence|]. split; [done|]. split; [congruence|]. done.
  - congruence.
  - cbn [obind]. exists k7. split; [done|]. pose proof (run_this _ _ _ Hk7) as Ht7. rewrite Ht7.
    split; [done|]. eapply core_rest_trans; [by apply rest_core|done].
Qed.

(** The state of [this] after a signal that did not concern it. *)
Lemma calm_this k1 k2 x t1 t : calm k1 k2 -> threads k1 !! x = Some t1 -> set_next None t1 = set_next None t ->
  state t <> WAITING -> exists t2, threads k2 !! x = Some t2 /\ set_next None t2 = set_next None t.
Proof.
  intros Hc E Et Hs. destruct (set_next_fields _ _ Et) as (F & _).
  destruct (Hc x t1 E) as (t2 & E2 & Et2); [congruence|]. exists t2. split; [done|congruence].
Qed.

Lemma preempt_ok idle k Q lower t : kinv idle k Q {[this_thread k]} -> locked k = ∅ ->
  threads k !! this_thread k = Some t -> wait_for t = None -> timer_ticket t = 0 ->
  (state t = RUNNING \/ (state t = STOPPED /\ in_irq k = false /\ this_thread k <> idle)) ->
  exists k', preempt lower k = Ok k' /\ running idle k' (this_thread k') /\ core_rest k k' /\
    (state t = RUNNING -> this_thread k' =
      default (this_thread k) (first_ready k (ready_order Q 0 (levels (priority t + b2z lower))))).
Proof.
  intros Hk Hl E Hw Ht Hst. unfold preempt, get_thread. rewrite E. cbn [deref obind].
  assert (Hwt : state t <> WAITING) by (destruct Hst as [?|(? & _)]; congruence).
  destruct (pick_all idle k Q _ (priority t + b2z lower) false Hk) as (o & k1 & Q1 & gone & -> & Hp).
  { intros x. rewrite Hl. by intros ?%elem_of_empty. }
  cbn [obind orb]. rewrite (picked_first _ _ _ _ _ _ _ _ _ Hp). set (this := this_thread k) in *.
  destruct o as [n|].
  - destruct (picked_signal idle k k1 Q Q1 _ _ n gone (negb (bool_decide (gone = []))) (Some n) Hk Hl Hp)
      as (k2 & Q2 & tn & -> & Hk2 & Hr2 & Hl2 & En & Hsn & Hwn & Htn & HnH & Hthis).
    { intros y ty ->%elem_of_singleton Ey. congruence. }
    cbn [obind]. unfold is_locked. rewrite Hl2, bool_decide_eq_true_2 by (by apply elem_of_singleton).
    cbn [ensure obind]. destruct (Hthis this t ltac:(by apply elem_of_singleton) E) as (t2 & E2 & Et2).
    destruct (set_next_fields _ _ Et2) as (F1 & _). destruct (set_next_wait _ _ Et2 Hw Ht) as [F3 F4].
    assert (Ht2 : this = this_thread k2) by (destruct Hr2 as (-> & _); done).
    rewrite not_elem_of_singleton in HnH. rewrite Ht2 in *.
    destruct (yield_ok idle k2 Q2 n tn t2) as (k3 & E3 & Hk3 & Hc3); try done.
    { destruct Hst as [?|(? & _ & ?)]; [left|right]; split || idtac; congruence. }
    exists k3. split; [exact E3|]. rewrite (run_this _ _ _ Hk3). split; [done|]. split; [|done].
    eapply core_rest_trans; [by apply rest_core|done].
  - destruct Hp as (Hgone & Hr1 & Eo & Eo1 & Hk1 & Hrl & Hl1). rewrite Hl in Hl1.
    destruct (gc_signal_if_ok idle k1 Q1 _ (negb (bool_decide (gone = []))) None Hk1) as (k2 & Q2 & -> & Hk2 & Hr2 & Hl2 & Hc2).
    { intros _. split; rewrite Hl1; [apply not_elem_of_empty|]. by intros x ? _ ?%elem_of_empty. }
    cbn [obind]. rewrite Hl1 in Hl2. destruct (relinked_lookup _ _ _ _ Hrl E) as (t1 & E1 & Et1).
    destruct (calm_this _ _ _ _ _ Hc2 E1 Et1 Hwt) as (t2 & E2 & Et2).
    destruct (set_next_fields _ _ Et2) as (G1 & _). destruct (set_next_wait _ _ Et2 Hw Ht) as [G3 G4].
    assert (Hr02 : rest k k2) by (by eapply rest_trans). rewrite E2. cbn [deref obind].
    assert (Ht2 : this_thread k2 = this) by (by destruct Hr02 as (-> & _)).
    destruct Hst as [Hst|(Hst & Hirq & Hidle)].
    + rewrite bool_decide_eq_false_2 by congruence. exists k2. split; [done|]. rewrite Ht2.
      split; [|split; [by apply rest_core|done]]. constructor; [done|by exists Q2|done|].
      exists t2. split; [done|]. split; [congruence|done].
    + rewrite bool_decide_eq_true_2 by congruence. rewrite <- Ht2 in *.
      destruct (leave_ok idle k2 Q2 t2) as (k3 & E3 & Hk3 & Hc3); try done; [congruence|].
      replace (in_irq k2) with false in E3 by (destruct Hr02 as (_ & _ & -> & _); done).
      exists k3. split; [exact E3|]. split; [done|]. split; [|congruence].
      eapply core_rest_trans; [by apply rest_core|done].
Qed.

(** ** Waking all who wait *)

Lemma kinv_clear idle k Q H w : kinv idle k Q H -> is_Some (queues k !! Wait w) ->
  kinv idle (set_queue (Wait w) (Queue None None) k) (upd Q (Wait w) []) (list_to_set (Q (Wait w)) ∪ H).
Proof.
  intros Hk Hq. pose proof Hk as [I1 I2 I3 I4 I5 I6 I7 I8 I9 I10 I11 I12].
  assert (Hsub : forall q y, y ∈ upd Q (Wait w) [] q -> y ∈ Q q /\ y ∉ Q (Wait w)).
  { intros q y Hy. unfold upd in Hy. case_decide as Hd; [by apply elem_of_nil in Hy|]. split; [done|].
    intros Hy'. apply Hd. by eapply (wq_disj _ _ I1). }
  apply (kinv_relinked idle k _ Q _ H _ Hk).
  - intros y. done.
  - auto.
  - pose proof (wfq_upd k (threads k) (Wait w) (Queue None None) [] Q) as Hw.
    replace (set_threads (threads k) k) with k in Hw by (by destruct k). apply Hw; try done.
    + apply NoDup_nil_2.
    + intros x Hx. by apply elem_of_nil in Hx.
  - intros q y Hy. left. by apply Hsub.
  - intros y ty Ey Hy Hor. apply not_elem_of_union in Hy as [Hy1 Hy2].
    rewrite elem_of_list_to_set in Hy1. destruct Hor as [Hp|?]; [|done].
    unfold placed in *. destruct (state ty); try done.
    destruct (wait_for ty) as [w'|].
    + rewrite qupd_ne; [done|]. intros [= ->]. done.
    + destruct Hp as [Hp1 Hp2]. split; [done|]. intros [q Hy]. apply Hp2. exists q. by apply Hsub.
  - intros y [Hy|Hy]%elem_of_union.
    + rewrite elem_of_list_to_set in Hy. split.
      * destruct (I2 _ _ Hy) as (t & -> & _). done.
      * intros [q Hy']. by apply Hsub in Hy' as [_ ?].
    + destruct (I5 y Hy) as [Hs Hn]. split; [done|]. intros [q Hy']. apply Hn. exists q. by apply Hsub.
  - intros y Hn Hh. split.
    + intros [Hy|?]%elem_of_union; [|done]. rewrite elem_of_list_to_set in Hy. apply Hn. by eexists.
    + intros [q Hy]. apply Hn. exists q. by apply Hsub.
  - intros Hi1 Hi2. destruct Hi1. apply elem_of_union. by right.
  - intros y Hy. by apply Hsub.
Qed.

Lemma list_back (X : gset Z) (l : list Z) : (forall x, x ∈ l -> x ∉ X) -> (list_to_set l ∪ X) ∖ list_to_set l = X.
Proof.
  intros Hd. apply set_eq. intros y. rewrite elem_of_difference, elem_of_union, elem_of_list_to_set.
  split; [tauto|]. intros Hy. split; [by right|]. intros Hl. by apply (Hd y).
Qed.

Lemma notify_ok idle k Q H w : kinv idle k Q H -> is_Some (queues k !! Wait w) -> locked k = {[w]} ->
  exists k' Q', notify w NOTIFY k = Ok (Z.of_nat (length (Q (Wait w))), k') /\
    kinv idle k' Q' H /\ rest k k' /\ locked k' = ∅ /\
    Q' (Wait w) = [] /\
    (forall q, q <> Wait w -> (forall i, q <> Ready i) -> Q' q = Q q) /\
    (forall i, Q' (Ready i) = Q (Ready i) ++ at_priority (threads k) i (Q (Wait w))) /\
    (forall y, set_next None <$> threads k' !! y =
      if decide (y ∈ Q (Wait w)) then (set_next None ∘ woken NOTIFY) <$> threads k !! y
      else set_next None <$> threads k !! y).
Proof.
  intros Hk [tq Eq] Hl. unfold notify, is_locked.
  rewrite Hl, bool_decide_eq_true_2 by (by apply elem_of_singleton). cbn [ensure obind].
  rewrite Eq. cbn [deref obind]. rewrite unlock_ok by (cbn; rewrite Hl; by apply elem_of_singleton).
  cbn [obind]. set (k1 := set_locked _ _).
  assert (Hl1 : locked k1 = ∅) by (cbn; rewrite Hl; apply difference_diag_L).
  destruct (wq_rep _ _ (ki_wfq _ _ _ _ Hk) _ _ Eq) as [Hc _].
  assert (Hnd : NoDup (Q (Wait w))) by apply (wq_nodup _ _ (ki_wfq _ _ _ _ Hk)).
  assert (Hk1 : kinv idle k1 (upd Q (Wait w) []) (list_to_set (Q (Wait w)) ∪ H)).
  { apply kinv_locked, kinv_clear; [done|by exists tq]. }
  assert (HnH : forall x, x ∈ Q (Wait w) -> x ∉ H).
  { intros x Hx Hh. destruct (ki_hand _ _ _ _ Hk x Hh) as [_ Hn]. apply Hn. by eexists. }
  destruct (imp_notify_ok idle (Q (Wait w)) k1 _ _ w (head tq) 0 (fuel_of k1) Hk1 Hc Hnd)
    as (k2 & Q2 & E2 & Hk2 & Hr2 & Hl2 & Hq2 & Hqr2 & Ht2).
  - pose proof (queue_length k Q (Wait w) (ki_wfq _ _ _ _ Hk)). unfold fuel_of. cbn. lia.
  - intros x Hx. split; [apply elem_of_union; left; by apply elem_of_list_to_set|].
    split; [rewrite Hl1; apply not_elem_of_empty|].
    destruct (ki_fits _ _ _ _ Hk _ _ Hx) as (t & E & Hf). by exists t.
  - exists k2, Q2. split; [exact E2|]. rewrite list_back in Hk2 by done. split; [done|].
    split; [|split; [congruence|]].
    { eapply rest_trans; [|exact Hr2]. apply (rest_queue k k). apply rest_refl. }
    split; [rewrite Hq2 by done; apply qupd_eq|]. split.
    { intros q Hw Hr. rewrite Hq2 by done. by rewrite qupd_ne. }
    split; [|done]. intros i. rewrite Hqr2. by rewrite qupd_ne.
Qed.

(** ** Changes in place *)

Lemma kinv_inplace idle k Q H x t t' : kinv idle k Q H -> threads k !! x = Some t -> next t' = next t ->
  good t' -> (forall q, fits q t -> x ∈ Q q -> fits q t') -> (x ∉ H -> placed Q x t') ->
  (state t = STOPPED -> state t' = STOPPED) -> (x = idle -> state t = READY -> state t' = READY) ->
  kinv idle (set_threads (<[x := t']> (threads k)) k) Q H.
Proof.
  intros [I1 I2 I3 I4 I5 I6 I7 I8 I9 I10 I11 I12] E Hn Hg Hf Hp Hst Hid. constructor; cbn; try done.
  - apply (wfq_frame k); [done|done|]. intros q y Hy. cbn. rewrite lookup_insert.
    case_decide; [subst; rewrite E; cbn; by rewrite Hn|done].
  - intros q y Hy. destruct (I2 q y Hy) as (ty & Ey & Hfy). rewrite lookup_insert.
    case_decide; [subst|by exists ty]. exists t'. split; [done|]. apply Hf; [congruence|done].
  - intros y ty. rewrite lookup_insert. case_decide; [subst; intros [= <-]; exact Hp|]. apply I3.
  - intros y ty. rewrite lookup_insert. case_decide; [by intros [= <-]|]. apply I4.
  - intros y Hy. destruct (I5 y Hy) as [Hs Hq]. split; [|done]. rewrite lookup_insert. case_decide; eauto.
  - intros g Eg. destruct (I6 g Eg) as (Hg1 & Hg2 & tg & Egt & Hsg). split; [done|]. split; [done|].
    rewrite lookup_insert. case_decide; [subst|by exists tg]. exists t'. split; [done|]. apply Hst. congruence.
  - intros Hi. destruct (I7 Hi) as (ti & Ei & Hsi). rewrite lookup_insert.
    case_decide; [subst|by exists ti]. exists t'. split; [done|]. apply Hid; [done|congruence].
  - rewrite lookup_insert_ne; [done|]. intros ->. congruence.
Qed.

Lemma kinv_quiet idle k Q H x t t' : kinv idle k Q H -> threads k !! x = Some t -> quiet t t' ->
  kinv idle (set_threads (<[x := t']> (threads k)) k) Q H.
Proof.
  intros Hk E (Hs & Hw & Ht & Hn & Hg). apply (kinv_inplace _ _ _ _ _ t); try done.
  - intros q. destruct q; cbn; rewrite Hs, Hw, ?Ht; auto.
  - intros Hx. pose proof (ki_placed _ _ _ _ Hk x t E Hx) as Hp. unfold placed in *. by rewrite Hs, Hw, Ht.
  - congruence.
  - congruence.
Qed.

Definition set_irq (b : bool) (k : kernel) : kernel :=
  Kernel (threads k) (queues k) (locked k) (this_thread k) (gc_ptr k) b (th_gc k) (gc_event k) (timer k).

Lemma kinv_irq idle k Q H b : kinv idle k Q H -> kinv idle (set_irq b k) Q H.
Proof. intros [I1 I2 I3 I4 I5 I6 I7 I8 I9 I10 I11 I12]. constructor; try done. by destruct I1. Qed.

(** What holds between operations: [running] without the name of the thread. *)
Definition kernel_ok (idle : Z) (k : kernel) : Prop := running idle k (this_thread k).

Lemma kernel_ok_open idle k : kernel_ok idle k -> exists Q t, kinv idle k Q {[this_thread k]} /\ locked k = ∅ /\
  threads k !! this_thread k = Some t /\ state t = RUNNING /\ wait_for t = None /\ timer_ticket t = 0.
Proof. intros [_ [Q Hk] Hl (t & E & Hs)]. exists Q, t. done. Qed.

Lemma kernel_ok_irq idle k b : kernel_ok idle k -> kernel_ok idle (set_irq b k).
Proof. intros [? [Q Hk] ? ?]. constructor; try done. exists Q. by apply kinv_irq. Qed.

Lemma kernel_ok_quiet idle k x t t' : kernel_ok idle k -> threads k !! x = Some t -> quiet t t' ->
  kernel_ok idle (set_threads (<[x := t']> (threads k)) k).
Proof.
  intros [? [Q Hk] ? (tr & Er & Hs & Hw & Ht)] E Hq. constructor; try done.
  - exists Q. by eapply kinv_quiet.
  - cbn. rewrite lookup_insert. case_decide as Hx; [|by exists tr]. exists t'. split; [done|].
    destruct Hq as (-> & -> & -> & _). assert (t = tr) as -> by congruence. done.
Qed.

(** [core_manager::on_timer] in its interrupt. *)
Lemma tick_ok idle k : kernel_ok idle k -> exists k', core_on_timer (set_irq true k) = Ok k' /\
  kernel_ok idle k' /\ core_rest (set_irq true k) k'.
Proof.
  intros Hok. pose proof (kernel_ok_irq _ _ true Hok) as Hok1. set (k1 := set_irq true k) in *.
  destruct (kernel_ok_open _ _ Hok1) as (Q & t & Hk & Hl & E & Hs & Hw & Ht).
  unfold core_on_timer, has_context. change (in_irq k1) with true. cbn [orb ensure obind].
  unfold get_thread. rewrite E. cbn [deref obind]. rewrite bool_decide_eq_false_2 by congruence.
  rewrite bool_decide_eq_true_2 by done. cbn [ensure obind].
  destruct (ki_good _ _ _ _ Hk _ _ E) as [Hp Hsl]. rewrite (proj2 (Z.leb_le _ _)) by lia. cbn [ensure obind].
  assert (Hpre : forall v lower, 0 <= v <= max_slice -> exists k', 
    obind (update (this_thread k1) (set_slice v) k1) (preempt lower) = Ok k' /\ kernel_ok idle k' /\ core_rest k1 k').
  { intros v lower Hv. rewrite (update_ok _ t) by done. cbn [obind]. set (k2 := set_threads _ k1).
    assert (E2 : threads k2 !! this_thread k2 = Some (set_slice v t)) by (cbn; by rewrite lookup_insert_eq).
    destruct (preempt_ok idle k2 Q lower (set_slice v t)) as (k3 & E3 & Hk3 & Hc3 & _); try done.
    - apply (kinv_quiet _ _ _ _ _ t); done.
    - by left.
    - exists k3. done. }
  destruct (truth (slice t)) eqn:Etr; apply Hpre; [|unfold max_slice; lia].
  unfold truth in Etr. apply negb_true_iff, Z.eqb_neq in Etr. lia.
Qed.

(** ** Sleeping *)

Definition parked (obj : option Z) (ticket : Z) (t : thread) : thread :=
  set_state_field WAITING (set_wait obj ticket t).

Lemma to_waiting_ok idle k Q H x t ticket obj : kinv idle k Q H -> x ∈ H -> x ∈ locked k ->
  threads k !! x = Some t -> state t = RUNNING -> wait_for t = None -> timer_ticket t = 0 ->
  truth ticket || negb (is_null obj) = true ->
  exists k', to_waiting x ticket obj k = Ok (true, k') /\ kinv idle k' Q H /\
    threads k' = <[x := parked obj ticket t]> (threads k) /\ rest k k' /\ locked k' = locked k.
Proof.
  intros Hk Hx Hl E Hs Hw Ht Ha. unfold to_waiting, is_locked. rewrite bool_decide_eq_true_2 by done.
  cbn [ensure obind]. unfold get_thread. rewrite E. cbn [deref obind].
  rewrite bool_decide_eq_false_2 by congruence. rewrite bool_decide_eq_true_2 by done. rewrite Ha, Hw, Ht.
  cbn [ensure obind is_null andb Z.eqb]. rewrite (update_ok x t) by done. cbn [obind]. eexists.
  split; [done|]. split; [|done]. eapply hand_update; try done. apply (ki_good _ _ _ _ Hk _ _ E).
Qed.

Lemma timer_wait_ok us x k : 0 <= Timer.conductor (timer k) < 2 ^ 64 - 1 ->
  exists tm, timer_wait us x k = (Timer.conductor (timer k) + 1, set_timer tm k) /\
    Timer.conductor tm = Timer.conductor (timer k) + 1.
Proof.
  intros Hc. unfold timer_wait, Timer.wait. unfold wrap. rewrite Z.mod_small by lia. eexists. split; done.
Qed.

(** [switch_to] when [this] is parked: all the cases end alike. *)
Lemma park_switch_ok idle k Q n tn c : kinv idle k Q {[n]} -> locked k = {[n]} ->
  threads k !! n = Some tn -> state tn = RUNNING -> wait_for tn = None -> timer_ticket tn = 0 ->
  threads k !! this_thread k = Some c -> state c = WAITING -> n <> this_thread k ->
  exists k', switch_to n k = Ok k' /\ kernel_ok idle k' /\ core_rest k k'.
Proof.
  intros Hk Hl E Hs Hw Ht Ec Hsc Hne.
  destruct (switch_to_ok idle k Q {[n]} n tn Hk Hl E Hs Hw Ht) as (k' & E' & Hk' & Hc' & _); [| |done|].
  - by apply elem_of_singleton.
  - exists c. split; [done|]. left. split; [congruence|done].
  - exists k'. split; [done|]. split; [|done]. unfold kernel_ok. by rewrite (run_this _ _ _ Hk').
Qed.

(** The core's own data apart from the timer. *)
Definition same_core (k k' : kernel) : Prop := th_gc k' = th_gc k /\ gc_event k' = gc_event k.

Lemma core_same k k' : core_rest k k' -> same_core k k'.
Proof. intros (_ & ? & ? & _). done. Qed.

Lemma same_core_trans k1 k2 k3 : same_core k1 k2 -> same_core k2 k3 -> same_core k1 k3.
Proof. unfold same_core. intuition congruence. Qed.

Lemma sleep_ok idle k us : kernel_ok idle k -> in_irq k = false -> this_thread k <> idle ->
  0 <= Timer.conductor (timer k) < 2 ^ 64 - 1 ->
  exists k', sleep us k = Ok k' /\ kernel_ok idle k' /\ same_core k k'.
Proof.
  intros Hok Hirq Hid Hcon. destruct (kernel_ok_open _ _ Hok) as (Q & t & Hk & Hl & E & Hs & Hw & Ht).
  unfold sleep, has_context. rewrite Hirq, Z.eqb_refl. cbn [negb orb ensure obind].
  destruct (us =? 0).
  - rewrite (update_ok _ t) by done. cbn [obind]. set (k2 := set_threads _ k).
    assert (E2 : threads k2 !! this_thread k2 = Some (set_slice max_slice t)) by (cbn; by rewrite lookup_insert_eq).
    destruct (ki_good _ _ _ _ Hk _ _ E) as [Hp Hsl].
    destruct (preempt_ok idle k2 Q true (set_slice max_slice t)) as (k3 & E3 & Hk3 & Hc3 & _); try done.
    + apply (kinv_quiet _ _ _ _ _ t); try done.
    + by left.
    + exists k3. split; [done|]. split; [done|]. by destruct Hc3 as (_ & ? & ? & _).
  - set (this := this_thread k) in *. destruct (pick_all idle k Q _ max_priority false Hk) as (o & k1 & Q1 & gone & -> & Hp).
    { intros x. rewrite Hl. by intros ?%elem_of_empty. }
    cbn [obind orb]. pose proof (picked_first _ _ _ _ _ _ _ _ _ Hp) as Hf.
    destruct (idle_found idle k Q _ Hk) as (n & Hn); [rewrite not_elem_of_singleton; congruence|].
    rewrite Hn in Hf. subst o.
    destruct (picked_signal idle k k1 Q Q1 _ _ n gone (negb (bool_decide (gone = []))) None Hk Hl Hp)
      as (k2 & Q2 & tn & -> & Hk2 & Hr2 & Hl2 & En & Hsn & Hwn & Htn & HnH & Hthis).
    { intros y ty ->%elem_of_singleton Ey. congruence. }
    cbn [obind]. rewrite not_elem_of_singleton in HnH.
    destruct (Hthis this t ltac:(by apply elem_of_singleton) E) as (t2 & E2 & Et2).
    destruct (set_next_fields _ _ Et2) as (F1 & _). destruct (set_next_wait _ _ Et2 Hw Ht) as [F3 F4].
    rewrite (set_locked_two k2 n) by done. cbn [obind]. set (k3 := set_locked _ k2).
    assert (Hc3 : Timer.conductor (timer k3) = Timer.conductor (timer k)) by apply Hr2.
    destruct (timer_wait_ok us this k3) as (tm & -> & Htm); [by rewrite Hc3|]. rewrite Hc3 in *.
    set (k4 := set_timer tm k3). set (ticket := Timer.conductor (timer k) + 1).
    assert (Htk : truth ticket = true) by (apply truth_pos; unfold ticket; lia).
    destruct (to_waiting_ok idle k4 Q2 ({[n]} ∪ {[this]}) this t2 ticket None) as (k5 & -> & Hk5 & Et5 & Hr5 & Hl5); try done.
    { by apply kinv_timer, kinv_locked. }
    { apply elem_of_union. right. by apply elem_of_singleton. }
    { apply elem_of_union. left. by apply elem_of_singleton. }
    { congruence. }
    { by rewrite Htk. }
    cbn [obind]. rewrite (unlock_two k5 n) by done. cbn [obind]. set (k6 := set_locked {[n]} k5).
    assert (E6 : threads k6 !! this = Some (parked None ticket t2)) by (cbn; rewrite Et5; by rewrite lookup_insert_eq).
    assert (Ht6 : this_thread k6 = this) by (etrans; [exact (proj1 Hr5)|exact (proj1 Hr2)]).
    assert (Hk6 : kinv idle k6 Q2 {[n]}).
    { rewrite <- (pair_drop n this) by done.
      apply (hand_drop _ _ _ _ _ (parked None ticket t2)); [by apply kinv_locked|done| |done].
      split; [cbn; unfold ticket; lia|]. apply (ki_hand _ _ _ _ Hk5). apply elem_of_union. right. by apply elem_of_singleton. }
    destruct (park_switch_ok idle k6 Q2 n tn (parked None ticket t2) Hk6) as (k7 & E7 & Hk7 & Hc7); try done.
    + cbn. rewrite Et5. by rewrite lookup_insert_ne by congruence.
    + rewrite Ht6. done.
    + rewrite Ht6. done.
    + exists k7. split; [exact E7|]. split; [done|]. apply core_same in Hc7. apply rest_core, core_same in Hr5, Hr2.
      eapply same_core_trans; [exact Hr2|]. eapply same_core_trans; [exact Hr5|exact Hc7].
Qed.

(** ** Timeouts *)

(** The thread at [x], which waits, is taken out of the queue it is in, if any. *)
Lemma unwait_ok idle k Q H x t : kinv idle k Q H -> x ∉ H -> locked k = {[x]} -> threads k !! x = Some t ->
  state t = WAITING -> gc_ptr k <> Some x ->
  exists k' Q', match wait_for t with Some w => cancel w x k | None => Ok k end = Ok k' /\
    kinv idle k' Q' ({[x]} ∪ H) /\ relinked k k' /\ rest k k' /\ locked k' = locked k.
Proof.
  intros Hk Hx Hl E Hs Hg. pose proof (ki_placed _ _ _ _ Hk x t E Hx) as Hp. unfold placed in Hp. rewrite Hs in Hp.
  destruct (wait_for t) as [w|] eqn:Ew.
  - apply list_elem_of_split in Hp as (l1 & l2 & El).
    destruct (cancel_ok idle k Q H w x l1 l2 Hk) as (k' & E' & Hk' & Hr & Hrest & Hl'); [|done|].
    + rewrite Hl, not_elem_of_singleton. intros ->. apply (ki_self _ _ _ _ Hk x). rewrite El.
      apply elem_of_app. right. by left.
    + eauto 10.
  - exists k, Q. split; [done|]. split; [|split; [apply relinked_refl|split; [apply rest_refl|done]]].
    apply (hand_add _ _ _ _ _ t); try done. apply Hp.
Qed.

Lemma gc_not_waiting idle k Q H x t : kinv idle k Q H -> threads k !! x = Some t -> state t <> STOPPED ->
  gc_ptr k <> Some x.
Proof. intros Hk E Hs Hg. destruct (ki_gc _ _ _ _ Hk x Hg) as (_ & _ & t' & E' & Hs'). congruence. Qed.

Lemma to_ready_timeout idle k Q H x t : kinv idle k Q H -> x ∉ H -> locked k = {[x]} -> threads k !! x = Some t ->
  state t = WAITING -> timer_ticket t <> 0 ->
  exists k' Q', to_ready x TIMEOUT k = Ok (true, k') /\ kinv idle k' Q' ({[x]} ∪ H) /\ rest k k' /\ locked k' = {[x]} /\
    changed x (woken TIMEOUT) k k'.
Proof.
  intros Hk Hx Hl E Hs Htk. unfold to_ready, is_locked.
  rewrite Hl, bool_decide_eq_true_2 by (by apply elem_of_singleton).
  cbn [ensure obind]. unfold get_thread. rewrite E. cbn [deref obind].
  rewrite bool_decide_eq_false_2 by congruence. rewrite bool_decide_eq_true_2 by done.
  unfold end_wait, truth. rewrite (proj2 (Z.eqb_neq _ _) Htk). cbn [negb ensure obind].
  destruct (unwait_ok idle k Q H x t Hk Hx Hl E Hs) as (k1 & Q1 & -> & Hk1 & Hr1 & Hrest1 & Hl1).
  { eapply gc_not_waiting; [done|done|congruence]. }
  cbn [obind]. destruct (relinked_lookup _ _ _ _ Hr1 E) as (t1 & E1 & Et1).
  rewrite (update_ok x t1) by done. cbn [obind].
  set (k2 := set_threads _ k1). set (t2 := set_wait None 0 (set_reason TIMEOUT t1)).
  assert (E2 : threads k2 !! x = Some t2) by (cbn; by rewrite lookup_insert_eq).
  rewrite (update_ok x t2) by done. cbn [obind]. eexists _, Q1. split; [done|].
  assert (Hxx : x ∈ ({[x]} ∪ H)) by (apply elem_of_union; left; by apply elem_of_singleton).
  pose proof (ki_good _ _ _ _ Hk1 _ _ E1) as Hg. split; [|split; [done|split; [by rewrite <- Hl|]]].
  - apply (hand_update _ _ _ _ _ t2); try done. by apply (hand_update _ _ _ _ _ t1).
  - apply (relinked_changed x _ k k1); [done| |done]. apply (changed_insert x _ t1); [done|].
    cbn. by rewrite insert_insert_eq.
Qed.

Lemma free_empty k : locked k = ∅ -> free_event k.
Proof.
  intros Hl. split; rewrite Hl; [apply not_elem_of_empty|]. by intros x t _ ?%elem_of_empty.
Qed.

(** The woken thread at [x], in hand and locked, goes to its ready queue. *)
Lemma put_woken_ok idle k Q x this t tt : kinv idle k Q {[x; this]} -> locked k = {[x]} -> x <> this ->
  this_thread k = this -> threads k !! x = Some t -> state t = READY -> wait_for t = None -> timer_ticket t = 0 ->
  threads k !! this = Some tt -> state tt = RUNNING -> wait_for tt = None -> timer_ticket tt = 0 ->
  exists k1 k2, sched_put x k = Ok k1 /\ unlock x k1 = Ok k2 /\ kernel_ok idle k2 /\ core_rest k k2.
Proof.
  intros Hk Hl Hne Hthis E Hs Hw Ht Eth Hst Hwt Htt.
  destruct (sched_put_ok idle k Q _ x t Hk) as (k3 & E3 & Hk3 & Hr3 & Hrest3 & Hl3 & Hs3); try done.
  { apply elem_of_union. left. by apply elem_of_singleton. }
  { rewrite Hl. by apply elem_of_singleton. }
  rewrite (singleton_back {[this]}) in Hk3 by (by rewrite not_elem_of_singleton).
  exists k3, (set_locked ∅ k3). split; [done|].
  split. { apply locked_cycle; [apply not_elem_of_empty|]. rewrite Hl3, Hl. by rewrite union_empty_r_L. }
  assert (Ht3 : this_thread k3 = this) by (destruct Hrest3 as (-> & _); done).
  split; [|by apply rest_core in Hrest3]. constructor; [done| |done|].
  - eexists. apply kinv_locked. cbn. rewrite Ht3. exact Hk3.
  - destruct (relinked_lookup _ _ _ _ Hr3 Eth) as (t3 & E3' & Et3).
    destruct (set_next_fields _ _ Et3) as (F1 & _). destruct (set_next_wait _ _ Et3 Hwt Htt) as [F3 F4].
    exists t3. cbn. rewrite Ht3. split; [done|]. split; [congruence|done].
Qed.

Lemma timeout_ok idle k ticket x : kernel_ok idle k -> ticket <> 0 -> is_Some (threads k !! x) ->
  exists k', on_timer ticket x k = Ok k' /\ kernel_ok idle k' /\ core_rest k k'.
Proof.
  intros Hok Htk [t E]. destruct (kernel_ok_open _ _ Hok) as (Q & tt & Hk & Hl & Et & Hs & Hw & Ht).
  unfold on_timer, get_thread. rewrite E. cbn [deref obind].
  destruct (timer_ticket t =? ticket) eqn:Eq; cbn [negb]; [apply Z.eqb_eq in Eq; subst ticket|by exists k].
  set (this := this_thread k) in *. assert (Hne : x <> this) by (intros ->; congruence).
  assert (Hst : state t = WAITING).
  { pose proof (ki_placed _ _ _ _ Hk x t E ltac:(by rewrite not_elem_of_singleton)) as Hp. unfold placed in Hp.
    destruct (state t); try done; [|by destruct Hp].
    destruct Hp as [i Hp]. destruct (ki_fits _ _ _ _ Hk _ _ Hp) as (t' & E' & _ & _ & _ & F). congruence. }
  rewrite lock_ok by (rewrite Hl; apply not_elem_of_empty). cbn [obind]. set (k1 := set_locked _ k).
  assert (Hl1 : locked k1 = {[x]}) by (cbn; rewrite Hl; apply union_empty_r_L).
  destruct (to_ready_timeout idle k1 Q {[this]} x t) as (k2 & Q2 & -> & Hk2 & Hr2 & Hl2 & Hc2); try done.
  { by apply kinv_locked. } { by rewrite not_elem_of_singleton. }
  cbn [obind negb]. destruct (changed_lookup _ _ _ _ _ Hc2 E) as (t2 & E2 & Et2). rewrite E2. cbn [deref obind].
  pose proof (changed_other _ _ _ _ this Hc2 ltac:(congruence)) as Hth. cbn in Hth. rewrite Et in Hth.
  destruct (threads k2 !! this) as [tt2|] eqn:Eth2; [|done]. apply (inj Some) in Hth.
  destruct (set_next_fields _ _ Et2) as (F1 & F2 & F3 & F4 & _).
  destruct (set_next_fields _ _ Hth) as (G1 & G2 & G3 & G4 & _). cbn in F1, F2, F3, F4.
  assert (Ht2 : this_thread k2 = this) by apply Hr2.
  rewrite Ht2, Eth2. cbn [deref obind]. assert (Hrc : core_rest k k2) by exact (rest_core _ _ Hr2).
  destruct (priority t2 <? priority tt2).
  - assert (Hx2 : x ∈ ({[x]} ∪ {[this]} : gset Z)) by (apply elem_of_union; left; by apply elem_of_singleton).
    destruct (to_running_ok idle k2 Q2 _ x t2 Hk2 Hx2) as (k3 & -> & Hk3 & Et3 & Hr3 & Hl3 & _); try done.
    { rewrite Hl2. by apply elem_of_singleton. }
    cbn [obind negb]. assert (Ht3 : this_thread k3 = this) by (etrans; [apply Hr3|done]).
    destruct (requeue_ok idle k3 Q2 x this tt2 (set_slice max_slice))
      as (k4 & k5 & k6 & k7 & E4 & E5 & E6 & _ & E7 & Hk7 & Hr7 & Hl7 & En7 & Hb7); try done; try congruence.
    { rewrite Et3. by rewrite lookup_insert_ne. }
    { by right. }
    rewrite E4. cbn [obind]. rewrite E5. cbn [obind]. rewrite E6. cbn [obind]. rewrite E7. cbn [obind].
    destruct (switch_to_ok idle k7 _ {[x]} x (set_state_field RUNNING t2) Hk7 Hl7) as (k8 & -> & Hk8 & Hc8 & _); try done.
    + rewrite En7, Et3. by rewrite lookup_insert_eq.
    + by apply elem_of_singleton.
    + destruct Hr7 as (-> & _). congruence.
    + exists k8. split; [done|]. split; [unfold kernel_ok; by rewrite (run_this _ _ _ Hk8)|].
      eapply core_rest_trans; [exact Hrc|]. eapply core_rest_trans; [by apply rest_core|].
      eapply core_rest_trans; [by apply rest_core|done].
  - destruct (put_woken_ok idle k2 Q2 x this t2 tt2) as (k3 & k4 & E3 & E4 & Hk4 & Hc4); try done; try congruence.
    rewrite E3. cbn [obind]. rewrite E4. exists k4. split; [done|]. split; [done|].
    by eapply core_rest_trans.
Qed.

(** ** Waiting *)

(** The threads in hand while [this] looks for another to run. *)
Definition hand (this : Z) (put_back : option Z) : gset Z :=
  match put_back with Some p => {[p]} ∪ {[this]} | None => {[this]} end.

(** A stopped thread stands in a ready queue. *)
Definition stopped_ready (k : kernel) (Q : queues_of) : Prop := exists x i, x ∈ Q (Ready i) /\ stopped_in k x.

(** The object waited for is not a stopped thread, and [put_back] is that object, ready. *)
Definition aside (k : kernel) (w : Z) (put_back : option Z) : Prop :=
  (forall t, threads k !! w = Some t -> state t <> STOPPED) /\
  forall p, put_back = Some p -> p = w /\
    exists t, threads k !! w = Some t /\ state t = READY /\ wait_for t = None /\ timer_ticket t = 0.

Lemma aside_relinked k k' w p : relinked k k' -> aside k w p -> aside k' w p.
Proof.
  intros Hr [Ha Hb]. split.
  - intros t E. destruct (relinked_lookup' _ _ _ _ Hr E) as (t' & E' & Et).
    destruct (set_next_fields _ _ Et) as (F1 & _). rewrite F1. by apply Ha.
  - intros p' Hp. destruct (Hb p' Hp) as (-> & t & E & Hs & Hw & Ht). split; [done|].
    destruct (relinked_lookup _ _ _ _ Hr E) as (t' & E' & Et).
    destruct (set_next_fields _ _ Et) as (F1 & _). destruct (set_next_wait _ _ Et Hw Ht).
    exists t'. split; [done|]. split; [congruence|done].
Qed.

(** What [pick_other] comes to: the thread at [n] runs next. *)
Definition chosen (idle w this : Z) (k k' : kernel) (Q : queues_of) (n : Z) (put_back : option Z) : Prop :=
  kinv idle k' Q ({[n]} ∪ hand this put_back) /\ n ∉ hand this put_back /\ n <> w /\
  locked k' = {[n]} ∪ {[w]} /\ rest k k' /\ aside k' w put_back /\
  (exists t, threads k' !! n = Some t /\ state t = RUNNING /\ wait_for t = None /\ timer_ticket t = 0) /\
  (forall y, y <> n -> set_next None <$> threads k' !! y = set_next None <$> threads k !! y).

Lemma chosen_before idle w this k0 k1 k2 Q n p : relinked k0 k1 -> rest k0 k1 ->
  chosen idle w this k1 k2 Q n p -> chosen idle w this k0 k2 Q n p.
Proof.
  intros Hr Hrest (A1 & A2 & A3 & A4 & A5 & A6 & A7 & A8). repeat (split; [done|]).
  split; [by eapply rest_trans|]. split; [done|]. split; [done|]. intros y Hy. rewrite A8 by done. apply Hr.
Qed.

Lemma stopped_ready_before k k1 Q Q1 : relinked k k1 -> (forall i x, x ∈ Q1 (Ready i) -> x ∈ Q (Ready i)) ->
  stopped_ready k1 Q1 -> stopped_ready k Q.
Proof.
  intros Hr Hq (x & i & Hx & Hs). exists x, i. split; [by apply Hq|]. by apply (stopped_in_relinked k k1).
Qed.

Lemma pick_other_ok idle w this : w <> idle -> this <> idle ->
  forall fuel put_back need_gc k Q, kinv idle k Q (hand this put_back) -> locked k = {[w]} -> aside k w put_back ->
  (size (threads k) - length (Q Collect) + (if put_back then 0 else 1) < fuel)%nat ->
  exists n p ng k' Q', pick_other fuel w put_back need_gc k = Ok (n, p, ng, k') /\
    chosen idle w this k k' Q' n p /\ (ng = true -> need_gc = true \/ stopped_ready k Q) /\
    (need_gc = true -> ng = true) /\
    (forall x l, ready_order Q 0 (levels max_priority) = x :: l -> x <> w -> stopped_in k x -> ng = true).
Proof.
  intros Hwi Hti. induction fuel as [|fuel IH]; intros pb ng k Q Hk Hl Ha Hfu; [lia|]. cbn [pick_other].
  pose proof (sched_get_ok idle k Q _ max_priority Hk) as Hg.
  assert (Hih : idle ∉ hand this pb).
  { destruct pb as [p|]; cbn; rewrite ?not_elem_of_union, !not_elem_of_singleton; [|congruence].
    destruct Ha as [_ Ha]. destruct (Ha p eq_refl) as [-> _]. done. }
  destruct (idle_found idle k Q _ Hk Hih) as (n0 & Hn0).
  destruct (ready_order Q 0 (levels max_priority)) as [|x l] eqn:Eo; [done|]. clear n0 Hn0.
  destruct Hg as (k1 & j & lj & t & -> & Ej & Hk1 & Eo1 & Hr1 & Hl1 & Hf & Et & Et1 & HxH & Hid).
  cbn [obind]. set (Q1 := upd Q (Ready j) lj) in *.
  assert (E1 : threads k1 !! x = Some (set_next None t)) by (rewrite Et1; by rewrite lookup_insert_eq).
  assert (Hr01 : relinked k k1).
  { intros y. rewrite Et1, lookup_insert. case_decide; [subst; by rewrite Et|done]. }
  assert (Hsub : forall i y, y ∈ Q1 (Ready i) -> y ∈ Q (Ready i)).
  { intros i y. unfold Q1, upd. case_decide as Hd; [|done]. injection Hd as ->. rewrite Ej. by right. }
  assert (Hsz : size (threads k1) = size (threads k)) by (by apply relinked_size).
  assert (Ec1 : Q1 Collect = Q Collect) by (unfold Q1; by rewrite qupd_ne).
  destruct (Z.eqb_spec x w) as [->|Hxw].
  - destruct pb as [p|].
    { destruct Ha as [_ Ha]. destruct (Ha p eq_refl) as [-> _]. destruct HxH. cbn. apply elem_of_union. left. by apply elem_of_singleton. }
    destruct (IH (Some w) ng k1 Q1) as (n & p & ng' & k' & Q' & -> & Hc & Hng & Htr & _); [done|congruence| |cbn; rewrite Hsz, Ec1; lia|].
    { split; [intros t' E'; destruct Ha as [Ha _]; rewrite E1 in E'; injection E' as <-; by apply (Ha t)|].
      intros p [= <-]. split; [done|]. eexists. split; [exact E1|]. destruct Hf as (_ & [Hs|Hs] & Hf); [done|].
      destruct Ha as [Ha _]. by apply Ha in Hs. }
    exists n, p, ng', k', Q'. split; [done|]. split; [by eapply chosen_before|].
    split; [|split; [done|]].
    + intros Hn. destruct (Hng Hn); [by left|right]. by eapply stopped_ready_before.
    + intros x l' Ex Hne. by injection Ex as <- _.
  - assert (Hxl : x ∉ locked k1) by (rewrite Hl1, Hl; by rewrite not_elem_of_singleton).
    assert (Hxx : x ∈ ({[x]} ∪ hand this pb)) by (apply elem_of_union; left; by apply elem_of_singleton).
    destruct (run_one idle k1 Q1 _ x (set_next None t) Hk1 Hxx Hxl E1) as (k2 & -> & Hc); [|done|].
    { destruct Hf as [_ Hf]. split; [done|exact Hf]. }
    assert (Hq : x ∈ Q (Ready j)) by (rewrite Ej; by left).
    cbn [obind]. destruct Hc as [(Hs & k3 & E3 & Hk3 & Et3 & Hr3 & Hl3)|(Hs & E2 & k3 & E3 & Hk3 & Hr3 & Hrest3 & Hl3)].
    + rewrite E3. cbn [obind]. eexists x, pb, ng, k3, Q1. split; [done|]. split; [|split; [by left|split; [done|]]].
      2: { intros y l' Ey _ (ty & Ety & Hsy). injection Ey as <- _. cbn in Hs. congruence. }
      apply (chosen_before _ _ _ _ k1); [done|done|]. split; [done|]. split; [done|]. split; [done|].
      split; [by rewrite Hl3, Hl1, Hl|]. split; [done|].
      assert (Hy : forall y, y <> x -> threads k3 !! y = threads k1 !! y).
      { intros y Hy. rewrite Et3. by rewrite lookup_insert_ne. }
      split; [|split; [|intros y Hyx; by rewrite Hy]].
      * destruct (aside_relinked _ _ _ _ Hr01 Ha) as [Ha1 Ha2]. split; rewrite Hy by done; done.
      * rewrite Et3, lookup_insert_eq. eexists. split; [done|]. cbn. split; [done|]. apply Hf.
    + rewrite E2. cbn [obind]. rewrite E3. cbn [obind]. rewrite singleton_back in Hk3 by done.
      set (Q3 := upd Q1 Collect (Q1 Collect ++ [x])) in *.
      assert (Ec3 : length (Q3 Collect) = S (length (Q Collect))).
      { unfold Q3. rewrite qupd_eq, length_app, Ec1. cbn. lia. }
      pose proof (queue_length k3 Q3 Collect (ki_wfq _ _ _ _ Hk3)) as Hlen.
      pose proof (relinked_size _ _ Hr3) as Hsz3. assert (Hr03 : relinked k k3) by (by eapply relinked_trans).
      destruct (IH pb true k3 Q3) as (n & p & ng' & k' & Q' & -> & Hc & Hng & Htr & _); [done|congruence|by eapply aside_relinked|lia|].
      exists n, p, ng', k', Q'. split; [done|]. split.
      { apply (chosen_before _ _ _ _ k3); [done| |done]. by eapply rest_trans. }
      split; [|split; [by intros _; apply Htr|by intros; apply Htr]].
      intros _. right. exists x, j. split; [done|]. by exists t.
Qed.

Definition kept (put_back : option Z) : gset Z := match put_back with Some p => {[p]} | None => ∅ end.

Lemma hand_park n this p : n <> this -> p <> Some this ->
  (({[n]} ∪ hand this p) ∖ {[this]} : gset Z) = {[n]} ∪ kept p.
Proof.
  intros Hn Hp. apply set_eq. intros y. destruct p as [p|]; cbn [hand kept].
  - assert (p <> this) by congruence. set_solver.
  - set_solver.
Qed.
(** [this], locked beside [n] and [w], is parked in the queue of [w]. *)
Lemma park_on_ok idle k Q n w this p ticket t : kinv idle k Q ({[n]} ∪ hand this p) ->
  locked k = {[this]} ∪ ({[n]} ∪ {[w]}) -> n <> this -> w <> this -> p <> Some this -> this <> idle ->
  is_Some (queues k !! Wait w) -> threads k !! this = Some t -> state t = RUNNING -> wait_for t = None ->
  timer_ticket t = 0 ->
  exists k2 k3 k4, to_waiting this ticket (Some w) k = Ok (true, k2) /\
    obind (update this (set_slice max_slice) k2) (fun k => queue_put (Wait w) this k) = Ok k3 /\
    unlock this k3 = Ok k4 /\
    kinv idle k4 (upd Q (Wait w) (Q (Wait w) ++ [this])) ({[n]} ∪ kept p) /\ rest k k4 /\
    locked k4 = {[n]} ∪ {[w]} /\
    changed this (fun t => set_slice max_slice (parked (Some w) ticket t)) k k4.
Proof.
  intros Hk Hl Hn Hw Hp Hi Hq E Hs Hwt Ht.
  assert (Hx : this ∈ ({[n]} ∪ hand this p)).
  { apply elem_of_union. right. destruct p; cbn; [apply elem_of_union; right|]; by apply elem_of_singleton. }
  destruct (to_waiting_ok idle k Q _ this t ticket (Some w) Hk Hx) as (k2 & E2 & Hk2 & Et2 & Hr2 & Hl2); try done.
  { rewrite Hl. apply elem_of_union. left. by apply elem_of_singleton. }
  { cbn. by rewrite orb_true_r. }
  set (t2 := parked (Some w) ticket t) in *.
  assert (E2t : threads k2 !! this = Some t2) by (rewrite Et2; by rewrite lookup_insert_eq).
  set (t3 := set_slice max_slice t2). set (k2' := set_threads (<[this := t3]> (threads k2)) k2).
  assert (Hk2' : kinv idle k2' Q ({[n]} ∪ hand this p)).
  { apply (hand_update _ _ _ _ _ t2); try done. destruct (ki_good _ _ _ _ Hk2 _ _ E2t). done. }
  assert (E3t : threads k2' !! this = Some t3) by (cbn; by rewrite lookup_insert_eq).
  assert (Hq2 : is_Some (queues k2' !! Wait w)) by (apply Hr2; done).
  destruct (put_ok idle k2' Q _ (Wait w) this t3 Hk2' Hx Hq2 E3t) as (k3 & E3 & Hk3 & Hr3 & Hrest3 & Hl3 & _).
  { done. } { congruence. } { congruence. }
  rewrite hand_park in Hk3 by done.
  exists k2, k3, (set_locked ({[n]} ∪ {[w]}) k3). split; [done|].
  split; [by rewrite (update_ok this t2)|]. split.
  { apply locked_cycle; [rewrite not_elem_of_union, !not_elem_of_singleton; split; congruence|]. by rewrite Hl3, <- Hl, <- Hl2. }
  split; [by apply kinv_locked|]. split; [eapply rest_trans; [exact Hr2|exact Hrest3]|]. split; [done|].
  apply (changed_relinked _ _ _ k2'); [|done]. apply (changed_insert _ _ t); [done|].
  cbn. rewrite Et2. by rewrite insert_insert_eq.
Qed.

(** The object, when it is a ready thread that was set aside, goes back; then its lock is released. *)
Lemma restore_ok idle k Q n w p : kinv idle k Q ({[n]} ∪ kept p) -> locked k = {[n]} ∪ {[w]} -> n <> w ->
  (p <> None -> aside k w p) ->
  exists k1 k2 Q', match p with Some p => sched_put p k | None => Ok k end = Ok k1 /\ unlock w k1 = Ok k2 /\
    kinv idle k2 Q' {[n]} /\ rest k k2 /\ locked k2 = {[n]} /\ relinked k k2.
Proof.
  intros Hk Hl Hne Ha.
  assert (Hu : forall k1, locked k1 = locked k -> unlock w k1 = Ok (set_locked {[n]} k1)).
  { intros k1 E1. apply locked_cycle; [rewrite not_elem_of_singleton; congruence|].
    rewrite E1, Hl. apply union_comm_L. }
  destruct p as [p|]; cbn [kept] in Hk.
  - destruct (Ha ltac:(done)) as [_ Hb]. destruct (Hb p eq_refl) as (-> & t & E & Hs & Hw & Ht).
    destruct (sched_put_ok idle k Q _ w t Hk) as (k3 & E3 & Hk3 & Hr3 & Hrest3 & Hl3 & _); try done.
    { apply elem_of_union. right. by apply elem_of_singleton. }
    { rewrite Hl. apply elem_of_union. right. by apply elem_of_singleton. }
    rewrite pair_drop in Hk3 by done.
    eexists k3, _, _. split; [done|]. split; [by apply Hu|]. split; [by apply kinv_locked|]. done.
  - rewrite union_empty_r_L in Hk. eexists k, _, Q. split; [done|]. split; [by apply Hu|].
    split; [by apply kinv_locked|]. split; [exact (rest_refl k)|]. split; [done|]. by intros y.
Qed.

(** A wait for [w] does not get in the way of the collector. *)
Definition wait_free (k : kernel) (Q : queues_of) (w : Z) : Prop := stopped_ready k Q ->
  w <> gc_event k /\ forall t, threads k !! w = Some t -> state t = WAITING -> wait_for t <> Some (gc_event k).

Lemma chosen_free idle w this k k1 Q1 n p : chosen idle w this k k1 Q1 n p ->
  w <> gc_event k -> (forall t, threads k !! w = Some t -> state t = WAITING -> wait_for t <> Some (gc_event k)) ->
  free_event k1.
Proof.
  intros (Hk1 & _ & Hnw & Hl & Hr & _ & (tn & En & Hsn & _) & Ho) Hw1 Hw2.
  assert (Hge : gc_event k1 = gc_event k) by apply Hr. split; rewrite Hl, Hge.
  - rewrite not_elem_of_union, !not_elem_of_singleton. split; [|congruence]. intros Hgn.
    pose proof (ki_object _ _ _ _ Hk1) as Hob. congruence.
  - intros x t E [Hx|Hx]%elem_of_union Hs; apply elem_of_singleton in Hx; subst x; [congruence|].
    specialize (Ho w ltac:(congruence)). rewrite E in Ho. destruct (threads k !! w) as [t0|] eqn:E0; [|done].
    apply (inj Some) in Ho. destruct (set_next_fields _ _ Ho) as (F1 & _ & F3 & _). rewrite F3.
    apply (Hw2 t0); congruence.
Qed.

Lemma aside_at k k' w p : set_next None <$> threads k' !! w = set_next None <$> threads k !! w ->
  aside k w p -> aside k' w p.
Proof.
  intros He [Ha Hb]. split.
  - intros t' E'. rewrite E' in He. destruct (threads k !! w) as [t|] eqn:E; [|done]. apply (inj Some) in He.
    destruct (set_next_fields _ _ He) as (F1 & _). rewrite F1. by apply Ha.
  - intros p' Hp. destruct (Hb p' Hp) as (-> & t & E & Hs & Hw & Ht). split; [done|].
    rewrite E in He. destruct (threads k' !! w) as [t'|]; [|done]. apply (inj Some) in He.
    destruct (set_next_fields _ _ He) as (F1 & _). destruct (set_next_wait _ _ He Hw Ht).
    exists t'. split; [done|]. split; [congruence|done].
Qed.

Lemma calm_aside k k' w p : calm k k' -> aside k w p -> p <> None -> aside k' w p.
Proof.
  intros Hc Ha Hp. destruct p as [p|]; [|done]. destruct Ha as [Ha Hb].
  destruct (Hb p eq_refl) as (-> & t & E & Hs & Hw & Ht).
  destruct (Hc w t E) as (t' & E' & Et); [congruence|].
  apply (aside_at k); [rewrite E, E'; cbn; by rewrite Et|done].
Qed.

(** The end of [imp_wait]: [this] parks, the object is let go, [n] runs. *)
Lemma park_and_go idle k Q n w this p ticket tn t : kinv idle k Q ({[n]} ∪ hand this p) ->
  locked k = {[this]} ∪ ({[n]} ∪ {[w]}) -> n <> this -> n <> w -> w <> this -> p <> Some this -> this <> idle ->
  this_thread k = this -> is_Some (queues k !! Wait w) ->
  threads k !! n = Some tn -> state tn = RUNNING -> wait_for tn = None -> timer_ticket tn = 0 ->
  threads k !! this = Some t -> state t = RUNNING -> wait_for t = None -> timer_ticket t = 0 ->
  (p <> None -> aside k w p) ->
  exists k', (let! (ok, k1) := to_waiting this ticket (Some w) k;
    let! k1 :=
      (if ok then let! k1 := update this (set_slice max_slice) k1; queue_put (Wait w) this k1
       else Ok (if truth ticket then timer_cancel ticket k1 else k1));
    let! k1 := unlock this k1;
    let! k1 := match p with Some p => sched_put p k1 | None => Ok k1 end;
    let! k1 := unlock w k1;
    switch_to n k1) = Ok k' /\ kernel_ok idle k' /\ core_rest k k'.
Proof.
  intros Hk Hl Hnt Hnw Hwt Hpt Hti Hthis Hq En Hsn Hwn Htn E Hs Hw Ht Ha.
  destruct (park_on_ok idle k Q n w this p ticket t) as (k2 & k3 & k4 & E2 & E3 & E4 & Hk4 & Hr4 & Hl4 & Hc4); try done.
  rewrite E2. cbn [obind]. rewrite E3. cbn [obind]. rewrite E4. cbn [obind].
  destruct (restore_ok idle k4 _ n w p Hk4 Hl4 Hnw) as (k5 & k6 & Q6 & E5 & E6 & Hk6 & Hr6 & Hl6 & Hrl6).
  { intros Hp. apply (aside_at k); [|by apply Ha]. by apply (changed_other this _ k k4 w Hc4). }
  rewrite E5. cbn [obind]. rewrite E6. cbn [obind].
  assert (Hk46 : rest k k6) by (by eapply rest_trans).
  destruct (changed_lookup _ _ _ _ _ Hc4 E) as (t4 & E4' & Et4).
  destruct (relinked_lookup _ _ _ _ Hrl6 E4') as (t6 & E6' & Et6). rewrite Et4 in Et6.
  destruct (set_next_fields _ _ Et6) as (F1 & _). cbn in F1.
  pose proof (changed_other this _ k k4 n Hc4 Hnt) as Hn4. rewrite <- (Hrl6 n), En in Hn4.
  destruct (threads k6 !! n) as [tn6|] eqn:En6; [|done]. apply (inj Some) in Hn4.
  destruct (set_next_fields _ _ Hn4) as (G1 & _). destruct (set_next_wait _ _ Hn4 Hwn Htn) as [G3 G4].
  assert (Ht6 : this_thread k6 = this) by (etrans; [apply Hk46|done]).
  destruct (park_switch_ok idle k6 Q6 n tn6 t6 Hk6 Hl6) as (k7 & E7 & Hk7 & Hc7); try done; try congruence.
  exists k7. split; [exact E7|]. split; [done|]. eapply core_rest_trans; [by apply rest_core|done].
Qed.

Lemma wait_ok idle k w us : kernel_ok idle k -> in_irq k = false -> this_thread k <> idle ->
  w <> this_thread k -> w <> idle -> is_Some (queues k !! Wait w) ->
  (forall t, threads k !! w = Some t -> state t <> STOPPED) ->
  0 <= Timer.conductor (timer k) < 2 ^ 64 - 1 ->
  (forall Q, kinv idle k Q {[this_thread k]} -> wait_free k Q w) ->
  exists k', wait w us k = Ok k' /\ kernel_ok idle k' /\ same_core k k'.
Proof.
  intros Hok Hirq Hid Hwt Hwi Hq Hst Hcon Hfree.
  destruct (kernel_ok_open _ _ Hok) as (Q & t & Hk & Hl & E & Hs & Hw & Ht).
  specialize (Hfree Q Hk). set (this := this_thread k) in *.
  unfold wait. rewrite lock_ok by (rewrite Hl; apply not_elem_of_empty). cbn [obind].
  set (k1 := set_locked _ k). assert (Hl1 : locked k1 = {[w]}) by (cbn; rewrite Hl; apply union_empty_r_L).
  unfold imp_wait, is_locked. rewrite Hl1, bool_decide_eq_true_2 by (by apply elem_of_singleton).
  unfold has_context. change (in_irq k1) with (in_irq k). change (this_thread k1) with this.
  rewrite Hirq, Z.eqb_refl, (proj2 (Z.eqb_neq _ _)) by congruence. cbn [negb orb ensure obind].
  destruct (pick_other_ok idle w this Hwi Hid (fuel_of k1) None false k1 Q) as (n & p & ng & k2 & Q2 & -> & Hc & Hng & _).
  { by apply kinv_locked. } { done. } { split; [exact Hst|]. intros ? [=]. } { unfold fuel_of. cbn. lia. }
  cbn [obind]. pose proof Hc as (Hk2 & Hnh & Hnw & Hl2 & Hr2 & Ha2 & (tn & En & Hsn & Hwn & Htn) & Ho2).
  assert (Hnt : n <> this).
  { intros ->. apply Hnh. destruct p; cbn; [apply elem_of_union; right|]; by apply elem_of_singleton. }
  assert (Hpt : p <> Some this). { intros ->. destruct Ha2 as [_ Ha2]. destruct (Ha2 this eq_refl) as [? _]. congruence. }
  destruct (gc_signal_if_ok idle k2 Q2 _ ng (Some n) Hk2) as (k3 & Q3 & -> & Hk3 & Hr3 & Hl3 & Hc3).
  { intros Hn. destruct (Hng Hn) as [|Hsr]; [done|]. destruct (Hfree Hsr) as [Hf1 Hf2]. by eapply chosen_free. }
  cbn [obind]. destruct (Hc3 n tn En) as (tn3 & En3 & Etn3); [congruence|].
  destruct (set_next_fields _ _ Etn3) as (G1 & _). destruct (set_next_wait _ _ Etn3 Hwn Htn) as [G3 G4].
  pose proof (Ho2 this ltac:(congruence)) as Hth. change (threads k1) with (threads k) in Hth. rewrite E in Hth.
  destruct (threads k2 !! this) as [t2|] eqn:E2; [|done]. apply (inj Some) in Hth.
  destruct (calm_this _ _ _ _ _ Hc3 E2 Hth) as (t3 & E3 & Et3); [congruence|].
  destruct (set_next_fields _ _ Et3) as (F1 & _). destruct (set_next_wait _ _ Et3 Hw Ht) as [F3 F4].
  rewrite (update_ok n tn3) by done. cbn [obind]. set (k4 := set_threads _ k3).
  assert (Hk4 : kinv idle k4 Q3 ({[n]} ∪ hand this p)).
  { apply (kinv_quiet _ _ _ _ _ tn3); [done|done|]. pose proof (ki_good _ _ _ _ Hk3 _ _ En3) as [Hg _]. done. }
  rewrite lock_ok.
  2: { change (locked k4) with (locked k3). rewrite Hl3, Hl2, not_elem_of_union, !not_elem_of_singleton. split; congruence. }
  cbn [obind]. set (k5 := set_locked _ k4).
  assert (Hr15 : rest k1 k3) by (by eapply rest_trans).
  assert (Hc5 : Timer.conductor (timer k5) = Timer.conductor (timer k)) by apply Hr15.
  assert (Hfin : forall ticket k6, (k6 = k5 \/ exists tm, k6 = set_timer tm k5) -> exists k',
    (let! (ok, k1) := to_waiting this ticket (Some w) k6;
    let! k1 :=
      (if ok then let! k1 := update this (set_slice max_slice) k1; queue_put (Wait w) this k1
       else Ok (if truth ticket then timer_cancel ticket k1 else k1));
    let! k1 := unlock this k1;
    let! k1 := match p with Some p => sched_put p k1 | None => Ok k1 end;
    let! k1 := unlock w k1;
    switch_to n k1) = Ok k' /\ kernel_ok idle k' /\ same_core k k').
  { intros ticket k6 Hk6. assert (Hp6 : kinv idle k6 Q3 ({[n]} ∪ hand this p) /\ threads k6 = threads k4 /\
      locked k6 = locked k5 /\ this_thread k6 = this_thread k4 /\ queues k6 = queues k4 /\ same_core k k6).
    { assert (same_core k k5) by exact (core_same _ _ (rest_core _ _ Hr15)).
      assert (kinv idle k5 Q3 ({[n]} ∪ hand this p)) by (by apply kinv_locked).
      destruct Hk6 as [->|[tm ->]]; [done|]. split; [by apply kinv_timer|done]. }
    destruct Hp6 as (Hk6' & Et6 & El6 & Eth6 & Eq6 & Hsc6).
    assert (Hrun : state (set_slice max_slice tn3) = RUNNING) by (cbn; congruence).
    destruct (park_and_go idle k6 Q3 n w this p ticket (set_slice max_slice tn3) t3) as (k7 & E7 & Hk7 & Hc7); try done; try congruence.
    - rewrite El6. cbn. by rewrite Hl3, Hl2.
    - rewrite Eth6. apply Hr15.
    - rewrite Eq6. by apply Hr15.
    - rewrite Et6. cbn. by rewrite lookup_insert_eq.
    - rewrite Et6. cbn. by rewrite lookup_insert_ne.
    - intros Hp. apply (aside_at k3); [|by apply (calm_aside k2)]. rewrite Et6. cbn. by rewrite lookup_insert_ne by done.
    - exists k7. split; [exact E7|]. split; [done|]. eapply same_core_trans; [exact Hsc6|by apply core_same]. }
  destruct (truth us).
  - destruct (timer_wait_ok us this k5) as (tm & -> & _); [by rewrite Hc5|]. apply Hfin. right. by exists tm.
  - apply Hfin. by left.
Qed.

(** ** Killing *)

Lemma cancel_stopped idle k Q H x w t : kinv idle k Q H -> x ∉ H -> w ∉ locked k -> threads k !! x = Some t ->
  state t = WAITING -> wait_for t = Some w ->
  let k2 := set_threads (<[x := set_state_field STOPPED t]> (threads k)) k in
  exists k3 t3 Q3, cancel w x k2 = Ok k3 /\ threads k3 !! x = Some t3 /\
    set_next None t3 = set_next None (set_state_field STOPPED t) /\
    (forall t', good t' -> kinv idle (set_threads (<[x := t']> (threads k3)) k3) Q3 ({[x]} ∪ H)) /\
    changed x (set_state_field STOPPED) k k3 /\ rest k k3 /\ locked k3 = locked k.
Proof.
  intros Hk Hx Hw E Hs Ew k2. pose proof (ki_placed _ _ _ _ Hk x t E Hx) as Hp. unfold placed in Hp.
  rewrite Hs, Ew in Hp. pose proof Hp as Hxq. apply list_elem_of_split in Hp as (l1 & l2 & El).
  assert (Hwf2 : wfq k2 Q).
  { apply (wfq_frame k); [apply Hk|done|]. intros q y Hy. cbn. rewrite lookup_insert.
    case_decide; [subst; by rewrite E|done]. }
  destruct (cancel_raw k2 Q w x l1 l2 Hwf2 Hw El) as (k3 & E3 & Hwf3 & Hr3 & Hrest3 & Hl3).
  assert (E2 : threads k2 !! x = Some (set_state_field STOPPED t)) by (cbn; by rewrite lookup_insert_eq).
  destruct (relinked_lookup _ _ _ _ Hr3 E2) as (t3 & E3' & Et3).
  assert (Hch : changed x (set_state_field STOPPED) k k3).
  { apply (changed_relinked _ _ _ k2); [|done]. by apply (changed_insert _ _ t). }
  exists k3, t3, (upd Q (Wait w) (l1 ++ l2)). split; [done|]. split; [done|]. split; [done|].
  split; [|split; [done|split; [exact Hrest3|exact Hl3]]].
  set (tr := set_state_field WAITING t3). set (kr := set_threads (<[x := tr]> (threads k3)) k3).
  assert (Hkr : kinv idle kr (upd Q (Wait w) (l1 ++ l2)) ({[x]} ∪ H)).
  { apply (kinv_take idle k kr Q H (Wait w) x); [done|done| |exact Hrest3| |].
    - intros y. cbn. rewrite lookup_insert. case_decide as Hy; [subst y|].
      + rewrite E. cbn. f_equal. unfold tr. destruct t, t3. cbn in *. by injection Et3 as -> -> -> -> -> -> -> ->; subst.
      + rewrite (Hr3 y). cbn. by rewrite lookup_insert_ne.
    - apply (wfq_frame k3); [done|done|]. intros q y Hy. cbn. rewrite lookup_insert.
      case_decide; [subst; rewrite E3'; by destruct t3|done].
    - intros y. rewrite El. apply elem_of_without. rewrite <- El. apply (wq_nodup _ _ (ki_wfq _ _ _ _ Hk)). }
  intros t' Hg. replace (set_threads (<[x:=t']> (threads k3)) k3) with (set_threads (<[x:=t']> (threads kr)) kr)
    by (unfold kr; cbn; by rewrite insert_insert_eq).
  apply (hand_update _ _ _ _ _ tr); [done| |cbn; by rewrite lookup_insert_eq|done].
  apply elem_of_union. left. by apply elem_of_singleton.
Qed.

(** The thread at [x], which waited, is stopped and out of every queue. *)
Definition unlinked (idle x : Z) (k k' : kernel) (Q' : queues_of) (H : gset Z) : Prop :=
  kinv idle k' Q' ({[x]} ∪ H) /\ rest k k' /\ locked k' = locked k /\
  (exists t, threads k' !! x = Some t /\ state t = STOPPED /\ wait_for t = None /\
    Some (timer_ticket t) = timer_ticket <$> threads k !! x) /\
  (forall y, y <> x -> set_next None <$> threads k' !! y = set_next None <$> threads k !! y).

Lemma stop_waiting idle k Q H x t : kinv idle k Q H -> x ∉ H -> locked k = {[x]} -> threads k !! x = Some t ->
  state t = WAITING ->
  let k2 := set_threads (<[x := set_state_field STOPPED t]> (threads k)) k in
  exists k3 Q3, (match wait_for t with
      | Some w => let! k := cancel w x k2; update x (fun t => set_wait None (timer_ticket t) t) k
      | None => Ok k2
      end) = Ok k3 /\ unlinked idle x k k3 Q3 H.
Proof.
  intros Hk Hx Hl E Hs k2. pose proof (ki_good _ _ _ _ Hk _ _ E) as Hg.
  pose proof (ki_placed _ _ _ _ Hk x t E Hx) as Hp. unfold placed in Hp. rewrite Hs in Hp.
  assert (Hxx : x ∈ ({[x]} ∪ H)) by (apply elem_of_union; left; by apply elem_of_singleton).
  destruct (wait_for t) as [w|] eqn:Ew.
  - assert (Hwx : w ∉ locked k).
    { rewrite Hl, not_elem_of_singleton. intros ->. by apply (ki_self _ _ _ _ Hk x). }
    destruct (cancel_stopped idle k Q H x w t Hk Hx Hwx E Hs Ew) as (k3 & t3 & Q3 & E3 & E3' & Et3 & Hk3 & Hc3 & Hr3 & Hl3).
    fold k2 in E3. rewrite E3. cbn [obind]. rewrite (update_ok x t3) by done.
    destruct (set_next_fields _ _ Et3) as (F1 & F2 & F3 & F4 & F5 & F6 & _). cbn in F1, F2, F3, F4, F6.
    eexists _, Q3. split; [done|]. split.
    { apply Hk3. unfold good. cbn. rewrite F2, F6. done. }
    split; [done|]. split; [done|]. split.
    { eexists. cbn. rewrite lookup_insert_eq, E. split; [done|]. cbn. repeat (split; [congruence|]). f_equal. congruence. }
    intros y Hy. cbn. rewrite lookup_insert_ne by done. by apply (changed_other x _ k k3 y Hc3).
  - exists k2, Q. split; [done|]. split.
    { apply (hand_update _ _ _ _ _ t); try done. apply (hand_add _ _ _ _ _ t); [done|done|apply Hp|].
      eapply gc_not_waiting; [done|done|congruence]. }
    split; [by apply rest_same|]. split; [done|]. split.
    { eexists. cbn. rewrite lookup_insert_eq, E. split; [done|]. cbn. split; [congruence|]. split; congruence. }
    intros y Hy. cbn. by rewrite lookup_insert_ne.
Qed.

Lemma kernel_ok_intro idle k Q t : kinv idle k Q {[this_thread k]} -> locked k = ∅ ->
  threads k !! this_thread k = Some t -> state t = RUNNING -> wait_for t = None -> timer_ticket t = 0 ->
  kernel_ok idle k.
Proof. intros Hk Hl E Hs Hw Ht. constructor; [done|by exists Q|done|by exists t]. Qed.

(** Taking and releasing a lock in between. *)
Lemma lock_empty x k : locked k = ∅ -> lock x k = Ok (set_locked {[x]} k).
Proof. intros Hl. rewrite lock_ok; rewrite Hl; [by rewrite union_empty_r_L|apply not_elem_of_empty]. Qed.

Lemma unlock_last x k : locked k = {[x]} -> unlock x k = Ok (set_locked ∅ k).
Proof. intros Hl. apply locked_cycle; [apply not_elem_of_empty|]. by rewrite union_empty_r_L. Qed.

Lemma set_locked_back k x m : locked k = ∅ -> set_locked ∅ (set_threads m (set_locked {[x]} k)) = set_threads m k.
Proof. intros Hl. destruct k. cbn in *. by subst. Qed.

Lemma set_crit_quiet k Q idle H x t c b : kinv idle k Q H -> threads k !! x = Some t -> quiet t (set_crit c b t).
Proof. intros Hk E. repeat (split; [done|]). exact (ki_good _ _ _ _ Hk _ _ E). Qed.

Lemma hold_ok idle k x t : kernel_ok idle k -> threads k !! x = Some t -> crit t = false -> crit_kill t = false ->
  exists k', hold x k = Ok k' /\ kernel_ok idle k' /\ core_rest k k'.
Proof.
  intros Hok E Hc Hck. destruct (kernel_ok_open _ _ Hok) as (Q & tt & Hk & Hl & _).
  unfold hold. rewrite lock_empty by done. cbn [obind]. unfold get_thread. cbn [threads set_locked].
  rewrite E. cbn [deref obind]. rewrite Hc, Hck. cbn [negb andb ensure obind].
  rewrite (update_ok x t) by done. cbn [obind]. rewrite unlock_last by done.
  eexists. split; [done|]. split; [|done]. cbn. rewrite set_locked_back by done.
  apply (kernel_ok_quiet _ _ _ t); [done|done|]. by eapply set_crit_quiet.
Qed.

(** The running thread stops itself. *)
Lemma stop_self_ok idle k t : kernel_ok idle k -> in_irq k = false -> this_thread k <> idle ->
  threads k !! this_thread k = Some t ->
  forall t', state t' = STOPPED -> wait_for t' = None -> timer_ticket t' = 0 -> good t' ->
  exists k', preempt true (set_threads (<[this_thread k := t']> (threads k)) k) = Ok k' /\ kernel_ok idle k' /\ core_rest k k'.
Proof.
  intros Hok Hirq Hid E t' Hs Hw Ht Hg. destruct (kernel_ok_open _ _ Hok) as (Q & tt & Hk & Hl & _).
  set (k2 := set_threads _ k).
  assert (E2 : threads k2 !! this_thread k2 = Some t') by (cbn; by rewrite lookup_insert_eq).
  destruct (preempt_ok idle k2 Q true t') as (k3 & E3 & Hk3 & Hc3 & _); try done.
  - apply (hand_update _ _ _ _ _ t); try done. by apply elem_of_singleton.
  - by right.
  - by exists k3.
Qed.

Lemma drop_ok idle k t : kernel_ok idle k -> in_irq k = false -> this_thread k <> idle ->
  threads k !! this_thread k = Some t -> crit t = true ->
  exists k', drop k = Ok k' /\ kernel_ok idle k' /\ core_rest k k'.
Proof.
  intros Hok Hirq Hid E Hc. destruct (kernel_ok_open _ _ Hok) as (Q & tt & Hk & Hl & Et & Hs & Hw & Ht).
  assert (tt = t) as -> by congruence.
  unfold drop. rewrite lock_empty by done. cbn [obind]. unfold get_thread. cbn [threads set_locked].
  rewrite E. cbn [deref obind]. rewrite Hc. cbn [ensure obind].
  rewrite (update_ok _ t) by done. cbn [obind]. destruct (crit_kill t); cbn [negb].
  - rewrite bool_decide_eq_true_2 by done. cbn [ensure obind].
    rewrite (update_ok _ (set_crit false true t)) by (cbn; by rewrite lookup_insert_eq). cbn [obind].
    rewrite unlock_last by done. cbn [obind]. cbn. rewrite insert_insert_eq.
    change (set_locked ∅ _) with (set_locked ∅ (set_threads (<[this_thread k := set_state_field STOPPED (set_crit false true t)]> (threads k)) (set_locked {[this_thread k]} k))).
    rewrite set_locked_back by done. apply (stop_self_ok idle k t); try done. apply (ki_good _ _ _ _ Hk _ _ E).
  - rewrite unlock_last by done. eexists. split; [done|]. split; [|done].
    change (kernel_ok idle (set_locked ∅ (set_threads (<[this_thread k := set_crit false false t]> (threads k)) (set_locked {[this_thread k]} k)))).
    rewrite set_locked_back by done. apply (kernel_ok_quiet _ _ _ t); [done|done|]. by eapply set_crit_quiet.
Qed.

(** A thread that is ready, or stopped already, only changes its state. *)
Lemma kernel_ok_stop idle k x t : kernel_ok idle k -> x <> this_thread k -> x <> idle -> threads k !! x = Some t ->
  state t <> WAITING -> kernel_ok idle (set_threads (<[x := set_state_field STOPPED t]> (threads k)) k).
Proof.
  intros Hok Hx Hi E Hs. destruct (kernel_ok_open _ _ Hok) as (Q & tt & Hk & Hl & Et & Hst).
  apply (kernel_ok_intro _ _ Q tt); try apply Hst; [|done|cbn; by rewrite lookup_insert_ne].
  assert (Hxn : x ∉ ({[this_thread k]} : gset Z)) by (by rewrite not_elem_of_singleton).
  pose proof (ki_placed _ _ _ _ Hk x t E Hxn) as Hp.
  apply (kinv_inplace _ _ _ _ _ t); try done.
  - exact (ki_good _ _ _ _ Hk _ _ E).
  - intros q Hf _. destruct q as [i|w|]; cbn in *; [|by destruct Hf|by destruct Hf as (_ & Hf)].
    destruct Hf as (Hi' & _ & Hf). split; [done|]. split; [by right|done].
  - intros _. unfold placed in *. cbn. destruct (state t); try done.
    destruct Hp as [i Hp]. destruct (ki_fits _ _ _ _ Hk _ _ Hp) as (t' & E' & _ & _ & Hw & Ht).
    assert (t' = t) as -> by congruence. done.
Qed.

(** The end of [kill] for a thread that waited. *)
Lemma collect_ok idle k Q x H t : kinv idle k Q ({[x]} ∪ H) -> x ∉ H -> locked k = {[x]} -> threads k !! x = Some t ->
  state t = STOPPED -> wait_for t = None -> timer_ticket t = 0 -> x <> idle ->
  exists k1 k2 Q2, on_stop x k = Ok k1 /\ gc_signal (fuel_of k1) None k1 = Ok k2 /\ kinv idle k2 Q2 H /\
    rest k k2 /\ locked k2 = ∅ /\ calm k k2.
Proof.
  intros Hk Hx Hl E Hs Hw Ht Hi.
  destruct (on_stop_ok idle k Q _ x t Hk) as (k1 & E1 & Hk1 & Hr1 & Hrest1 & Hl1); try done.
  { apply elem_of_union. left. by apply elem_of_singleton. }
  { rewrite Hl. by apply elem_of_singleton. }
  rewrite singleton_back in Hk1 by done. rewrite Hl, difference_diag_L in Hl1.
  destruct (gc_signal_ok idle k1 _ H None (fuel_of k1) Hk1) as (k2 & Q2 & E2 & Hk2 & Hr2 & Hl2 & Hc2).
  { by apply free_empty. } { unfold fuel_of. lia. }
  exists k1, k2, Q2. split; [done|]. split; [done|]. split; [done|]. split; [by eapply rest_trans|].
  split; [congruence|]. eapply calm_trans; [by apply relinked_calm|done].
Qed.

(** [kill] of another thread that waits. *)
Lemma kill_waiting_ok idle k x t : kernel_ok idle k -> threads k !! x = Some t -> crit t = false ->
  state t = WAITING -> x <> this_thread k -> x <> idle ->
  exists k', kill x k = Ok k' /\ kernel_ok idle k' /\ core_rest k k'.
Proof.
  intros Hok E Hc Hs Hx Hi. destruct (kernel_ok_open _ _ Hok) as (Q & tt & Hk & Hl & Et & Hst & Hwt & Htt).
  set (this := this_thread k) in *. unfold kill. fold this. rewrite (proj2 (Z.eqb_neq _ _) Hx).
  rewrite lock_empty by done. cbn [obind]. set (k1 := set_locked {[x]} k).
  unfold get_thread. change (threads k1) with (threads k). rewrite E. cbn [deref obind]. rewrite Hc.
  rewrite (update_ok x t) by done. cbn [obind negb orb ensure]. rewrite bool_decide_eq_true_2 by done.
  assert (Hxn : x ∉ ({[this]} : gset Z)) by (by rewrite not_elem_of_singleton).
  destruct (stop_waiting idle k1 Q _ x t ltac:(by apply kinv_locked) Hxn eq_refl E Hs) as (k3 & Q3 & -> & Hu).
  destruct Hu as (Hk3 & Hr3 & Hl3 & (t3 & E3 & Hs3 & Hw3 & Htk3) & Ho3). cbn [obind].
  assert (exists k4 t4, (if truth (timer_ticket t)
      then update x (fun t => set_wait (wait_for t) 0 t) (timer_cancel (timer_ticket t) k3) else Ok k3) = Ok k4 /\
    kinv idle k4 Q3 ({[x]} ∪ {[this]}) /\ rest k3 k4 /\ locked k4 = locked k3 /\ threads k4 !! x = Some t4 /\
    state t4 = STOPPED /\ wait_for t4 = None /\ (timer_ticket t <> 0 -> timer_ticket t4 = 0) /\
    (timer_ticket t = 0 -> t4 = t3) /\ (forall y, y <> x -> threads k4 !! y = threads k3 !! y))
    as (k4 & t4 & -> & Hk4 & Hr4 & Hl4 & E4 & Hs4 & Hw4 & Ht4 & Ht4' & Ho4).
  { unfold truth. destruct (timer_ticket t =? 0) eqn:Etk; cbn [negb].
    - apply Z.eqb_eq in Etk. exists k3, t3. split; [done|]. split; [done|]. split; [apply rest_refl|]. done.
    - rewrite (update_ok x t3) by done. eexists _, _. split; [done|]. split.
      + apply (hand_update _ _ _ _ _ t3); [by apply kinv_timer|apply elem_of_union; left; by apply elem_of_singleton|done|].
        exact (ki_good _ _ _ _ Hk3 _ _ E3).
      + split; [exact (timer_cancel_rest _ _)|]. split; [done|]. cbn. rewrite lookup_insert_eq.
        split; [done|]. cbn. repeat (split; [done|]). split; [by apply Z.eqb_neq in Etk|].
        intros y Hy. by rewrite lookup_insert_ne. }
  change (threads k1) with (threads k) in Htk3. rewrite E in Htk3. apply (inj Some) in Htk3.
  cbn [obind]. assert (Htz : timer_ticket t4 = 0).
  { destruct (decide (timer_ticket t = 0)) as [Hz|Hz]; [|by apply Ht4]. rewrite (Ht4' Hz). congruence. }
  destruct (collect_ok idle k4 Q3 x {[this]} t4) as (k5 & k6 & Q6 & E5 & E6 & Hk6 & Hr6 & Hl6 & Hc6); try done.
  { by rewrite Hl4, Hl3. }
  rewrite E5. cbn [obind]. rewrite E6. cbn [obind]. exists k6. split; [done|].
  assert (Hr : rest k1 k6) by (eapply rest_trans; [exact Hr3|]; by eapply rest_trans).
  split; [|exact (rest_core _ _ Hr)].
  assert (Hth : set_next None <$> threads k4 !! this = set_next None <$> threads k !! this).
  { rewrite Ho4 by congruence. by apply Ho3. }
  rewrite Et in Hth. destruct (threads k4 !! this) as [tt4|] eqn:Et4; [|done]. apply (inj Some) in Hth.
  destruct (calm_this _ _ _ _ _ Hc6 Et4 Hth) as (tt6 & Et6 & Hth6); [congruence|].
  destruct (set_next_fields _ _ Hth6) as (F1 & _). destruct (set_next_wait _ _ Hth6 Hwt Htt) as [F3 F4].
  assert (Ht6 : this_thread k6 = this) by (exact (proj1 Hr)).
  apply (kernel_ok_intro _ _ Q6 tt6); rewrite ?Ht6; try done. congruence.
Qed.

Lemma kill_other_ok idle k x t : kernel_ok idle k -> threads k !! x = Some t -> crit t = false ->
  x <> this_thread k -> x <> idle -> exists k', kill x k = Ok k' /\ kernel_ok idle k' /\ core_rest k k'.
Proof.
  intros Hok E Hc Hx Hi. destruct (decide (state t = WAITING)) as [Hs|Hs]; [by eapply kill_waiting_ok|].
  destruct (kernel_ok_open _ _ Hok) as (Q & tt & Hk & Hl & _).
  unfold kill. rewrite (proj2 (Z.eqb_neq _ _) Hx). rewrite lock_empty by done. cbn [obind].
  unfold get_thread. cbn [threads set_locked]. rewrite E. cbn [deref obind]. rewrite Hc.
  rewrite (update_ok x t) by done. cbn [obind negb orb ensure]. rewrite bool_decide_eq_false_2 by done.
  rewrite unlock_last by done. cbn [obind]. eexists. split; [done|]. cbn. rewrite set_locked_back by done.
  split; [by apply kernel_ok_stop|done].
Qed.

Lemma kill_self_ok idle k t : kernel_ok idle k -> in_irq k = false -> this_thread k <> idle ->
  threads k !! this_thread k = Some t -> crit t = false ->
  exists k', kill (this_thread k) k = Ok k' /\ kernel_ok idle k' /\ core_rest k k'.
Proof.
  intros Hok Hirq Hid E Hc. destruct (kernel_ok_open _ _ Hok) as (Q & tt & Hk & Hl & Et & Hs & Hw & Ht).
  assert (tt = t) as -> by congruence.
  unfold kill. rewrite Z.eqb_refl. rewrite lock_empty by done. cbn [obind].
  unfold get_thread. cbn [threads set_locked]. rewrite E. cbn [deref obind]. rewrite Hc.
  rewrite (update_ok _ t) by done. cbn [obind negb orb]. rewrite bool_decide_eq_true_2 by done. cbn [ensure obind].
  rewrite bool_decide_eq_false_2 by congruence. rewrite unlock_last by done. cbn [obind]. cbn.
  rewrite set_locked_back by done. apply (stop_self_ok idle k t); try done. exact (ki_good _ _ _ _ Hk _ _ E).
Qed.

Lemma kill_critical_ok idle k x t : kernel_ok idle k -> threads k !! x = Some t -> crit t = true ->
  x <> this_thread k -> exists k', kill x k = Ok k' /\ kernel_ok idle k' /\ core_rest k k'.
Proof.
  intros Hok E Hc Hx. destruct (kernel_ok_open _ _ Hok) as (Q & tt & Hk & Hl & _).
  unfold kill. rewrite (proj2 (Z.eqb_neq _ _) Hx). rewrite lock_empty by done. cbn [obind].
  unfold get_thread. cbn [threads set_locked]. rewrite E. cbn [deref obind]. rewrite Hc. cbn [negb ensure obind].
  rewrite (update_ok x t) by done. cbn [obind]. rewrite unlock_last by done. eexists. split; [done|].
  cbn. rewrite set_locked_back by done. split; [|done].
  apply (kernel_ok_quiet _ _ _ t); [done|done|]. by eapply set_crit_quiet.
Qed.

(** ** The other operations *)

Lemma set_priority_ok idle k x v : kernel_ok idle k -> is_Some (threads k !! x) -> 0 <= v ->
  exists k', set_priority x v k = Ok (v <? max_priority, k') /\ kernel_ok idle k' /\ core_rest k k'.
Proof.
  intros Hok [t E] Hv. destruct (kernel_ok_open _ _ Hok) as (Q & tt & Hk & _).
  unfold set_priority. destruct (max_priority <=? v) eqn:Ev.
  - apply Z.leb_le in Ev. rewrite (proj2 (Z.ltb_ge _ _)) by done. by exists k.
  - apply Z.leb_gt in Ev. rewrite (proj2 (Z.ltb_lt _ _)) by done. rewrite (update_ok x t) by done. cbn [obind].
    eexists. split; [done|]. split; [|done]. apply (kernel_ok_quiet _ _ _ t); [done|done|].
    repeat (split; [done|]). destruct (ki_good _ _ _ _ Hk _ _ E) as [_ Hg]. done.
Qed.

(** The collector's thread takes a stopped thread out of its queue and destroys it. *)
Lemma kinv_forget idle k Q H x : kinv idle k Q ({[x]} ∪ H) -> x ∉ H -> x <> idle ->
  kinv idle (set_threads (delete x (threads k)) k) Q H.
Proof.
  intros [I1 I2 I3 I4 I5 I6 I7 I8 I9 I10 I11 I12] Hx Hi.
  assert (Hin : forall y, y ∈ H -> y ∈ {[x]} ∪ H) by (intros; apply elem_of_union; by right).
  destruct (I5 x ltac:(apply elem_of_union; left; by apply elem_of_singleton)) as [_ Hn].
  assert (Hne : forall q y, y ∈ Q q -> x <> y) by (intros q y Hy <-; apply Hn; by exists q).
  assert (Hnu : forall y, y <> x -> y ∉ H -> y ∉ {[x]} ∪ H).
  { intros y Hy1 Hy2 [->%elem_of_singleton|]%elem_of_union; done. }
  constructor; cbn; try done.
  - apply (wfq_frame k); [done|done|]. intros q y Hy. cbn. rewrite lookup_delete_ne; [done|by eapply Hne].
  - intros q y Hy. rewrite lookup_delete_ne by (by eapply Hne). by apply I2.
  - intros y t [Hy E]%lookup_delete_Some Hh. apply I3; [done|]. by apply Hnu.
  - intros y t [_ E]%lookup_delete_Some. by eapply I4.
  - intros y Hy. destruct (I5 y (Hin y Hy)) as [Hs Hq]. split; [|done].
    rewrite lookup_delete_ne; [done|]. by intros ->.
  - intros g Hg. destruct (I6 g Hg) as (Hg1 & Hg2 & Hg3). split; [by intros ?%Hin|]. split; [done|].
    rewrite lookup_delete_ne; [done|]. intros ->. apply Hg1, elem_of_union. left. by apply elem_of_singleton.
  - intros Hy. rewrite lookup_delete_ne by done. apply I7. by apply Hnu.
  - apply lookup_delete_None. by right.
Qed.

Lemma gc_take_ok idle k : kernel_ok idle k -> exists o k', gc_take k = Ok (o, k') /\
  match o with
  | None => k' = k
  | Some x => core_rest k k' /\ x <> this_thread k /\ stopped_in k x /\
      kernel_ok idle (set_threads (delete x (threads k')) k')
  end.
Proof.
  intros Hok. destruct (kernel_ok_open _ _ Hok) as (Q & tt & Hk & Hl & Et & Hst).
  unfold gc_take. destruct (Q Collect) as [|x l] eqn:El.
  - rewrite (get_empty idle k Q _ Collect Hk (ki_collect _ _ _ _ Hk) El). by exists None, k.
  - destruct (get_ok idle k Q _ Collect x l Hk (ki_collect _ _ _ _ Hk) El) as (k1 & E1 & Hk1 & Hr1 & Hrest1 & Hl1 & t & E & Et1).
    assert (Hx : x ∈ Q Collect) by (rewrite El; by left).
    destruct (ki_fits _ _ _ _ Hk _ _ Hx) as (t' & E' & Hs & _). assert (t' = t) as -> by congruence.
    assert (Hxh : x ∉ ({[this_thread k]} : gset Z)).
    { intros Hh. destruct (ki_hand _ _ _ _ Hk x Hh) as [_ Hn]. apply Hn. by exists Collect. }
    assert (Hxi : x <> idle).
    { intros ->. destruct (ki_idle _ _ _ _ Hk Hxh) as (ti & Ei & Hsi). congruence. }
    assert (Ht1 : this_thread k1 = this_thread k) by apply Hrest1. rewrite not_elem_of_singleton in Hxh.
    exists (Some x), k1. split; [done|]. split; [by apply rest_core|]. split; [done|]. split; [by exists t|].
    apply (kernel_ok_intro _ _ (upd Q Collect l) tt); try apply Hst.
    + cbn. rewrite Ht1. apply kinv_forget; [done|by rewrite not_elem_of_singleton|done].
    + cbn. congruence.
    + cbn. rewrite Ht1, lookup_delete_ne, Et1, lookup_insert_ne by congruence. done.
Qed.

(** [notify] and [signal_one] of an object, from a thread or an interrupt. *)
Definition notify_all (w : Z) (k : kernel) : outcome (Z * kernel) := let! k := lock w k; notify w NOTIFY k.

Lemma notify_all_ok idle k w : kernel_ok idle k -> is_Some (queues k !! Wait w) ->
  exists n k', notify_all w k = Ok (n, k') /\ kernel_ok idle k' /\ core_rest k k'.
Proof.
  intros Hok Hq. destruct (kernel_ok_open _ _ Hok) as (Q & t & Hk & Hl & E & Hs & Hw & Ht).
  unfold notify_all. rewrite lock_empty by done. cbn [obind].
  destruct (notify_ok idle (set_locked {[w]} k) Q _ w ltac:(by apply kinv_locked) Hq eq_refl)
    as (k1 & Q1 & E1 & Hk1 & Hr1 & Hl1 & _ & _ & _ & Ht1).
  eexists _, k1. split; [exact E1|]. split; [|exact (rest_core _ _ Hr1)].
  specialize (Ht1 (this_thread k)). rewrite decide_False in Ht1.
  2: { intros Hx. destruct (ki_fits _ _ _ _ Hk _ _ Hx) as (t' & E' & Hs' & _). congruence. }
  cbn in Ht1. rewrite E in Ht1. destruct (threads k1 !! this_thread k) as [t1|] eqn:Et1; [|done]. apply (inj Some) in Ht1.
  destruct (set_next_fields _ _ Ht1) as (F1 & _). destruct (set_next_wait _ _ Ht1 Hw Ht) as [F3 F4].
  assert (Hth : this_thread k1 = this_thread k) by exact (proj1 Hr1).
  apply (kernel_ok_intro _ _ Q1 t1); rewrite ?Hth; try done. congruence.
Qed.

Lemma signal_ok idle k w : kernel_ok idle k -> is_Some (queues k !! Wait w) ->
  exists b k', signal_one (fuel_of k) w k = Ok (b, k') /\ kernel_ok idle k' /\ core_rest k k'.
Proof.
  intros Hok Hq. destruct (kernel_ok_open _ _ Hok) as (Q & t & Hk & Hl & E & Hs & Hw & Ht).
  destruct (signal_one_ok idle k Q _ w (fuel_of k) Hk Hq) as (k1 & Q1 & b & E1 & Hk1 & Hr1 & Hl1 & Hc1).
  { rewrite Hl. apply not_elem_of_empty. } { rewrite Hl. intros; apply not_elem_of_empty. } { unfold fuel_of. lia. }
  exists b, k1. split; [done|]. split; [|by apply rest_core].
  destruct (Hc1 _ _ E) as (t1 & Et1 & Hth); [congruence|].
  destruct (set_next_fields _ _ Hth) as (F1 & _). destruct (set_next_wait _ _ Hth Hw Ht) as [F3 F4].
  assert (Hth1 : this_thread k1 = this_thread k) by exact (proj1 Hr1).
  apply (kernel_ok_intro _ _ Q1 t1); rewrite ?Hth1; try done; congruence.
Qed.
End SchedInv.
