(* ===== verification/SchedSafe.v ===== *)
(** * The scheduler: what holds of every operation

    The operations of threads, waitables, the timer's callbacks and the collector keep the invariant and
    never stop the machine, in whatever order they come; who is woken and who runs next; and the cases
    in which the code stops the machine. *)

From S2P Require Import Prelude Timer Sched SchedInv.

Module SchedSafe.
Import Sched SchedInv.

(** ** The operations *)

Inductive op :=
  | Tick | Timeout (ticket th : Z)
  | Wait_for (w us : Z) | Notify (w : Z) | Signal (w : Z) | Sleep (us : Z)
  | Hold (th : Z) | Drop_hold | Kill (th : Z) | Set_priority (th val : Z) | Collect_one.

(** The callbacks of the timer run in an interrupt, the others in the running thread.  The collector
    destroys what it takes. *)
Definition run_op (o : op) (k : kernel) : outcome kernel :=
  match o with
  | Tick => core_on_timer (set_irq true k)
  | Timeout ticket th => on_timer ticket th (set_irq true k)
  | Wait_for w us =>
      match threads k !! w with
      | Some _ => thread_wait w us (set_irq false k)
      | None => wait w us (set_irq false k)
      end
  | Notify w => let! (_, k) := notify_all w (set_irq false k); Ok k
  | Signal w => let! (_, k) := signal_one (fuel_of k) w (set_irq false k); Ok k
  | Sleep us => sleep us (set_irq false k)
  | Hold th => hold th (set_irq false k)
  | Drop_hold => drop (set_irq false k)
  | Kill th => kill th (set_irq false k)
  | Set_priority th val => let! (_, k) := set_priority th val (set_irq false k); Ok k
  | Collect_one =>
      let! (th, k) := gc_take (set_irq false k);
      Ok (match th with Some th => set_threads (delete th (threads k)) k | None => k end)
  end.

(** The object exists, and a wait for it does not cut off the collector: it is not the collector's event,
    nor a thread that waits for that event, or no stopped thread stands in a ready queue. *)
Definition may_wait (idle w : Z) (k : kernel) : Prop :=
  w <> this_thread k /\ w <> idle /\ is_Some (queues k !! Wait w) /\
  ((w <> gc_event k /\ forall t, threads k !! w = Some t -> state t = WAITING -> wait_for t <> Some (gc_event k)) \/
   forall x t, threads k !! x = Some t -> state t <> STOPPED).

(** What the callers see to: the idle thread neither blocks nor dies, tickets do not run out, a thread
    holds itself and kills itself outside its critical section. *)
Definition allowed (idle : Z) (o : op) (k : kernel) : Prop :=
  match o with
  | Tick | Collect_one => True
  | Timeout ticket th => ticket <> 0 /\ is_Some (threads k !! th)
  | Wait_for w us => this_thread k <> idle /\ may_wait idle w k /\ 0 <= Timer.conductor (timer k) < 2 ^ 64 - 1
  | Sleep us => this_thread k <> idle /\ 0 <= Timer.conductor (timer k) < 2 ^ 64 - 1
  | Notify w | Signal w => is_Some (queues k !! Wait w)
  | Hold th => exists t, threads k !! th = Some t /\ crit t = false /\ crit_kill t = false
  | Drop_hold => this_thread k <> idle /\ exists t, threads k !! this_thread k = Some t /\ crit t = true
  | Kill th => th <> idle /\ exists t, threads k !! th = Some t /\ (th = this_thread k -> crit t = false)
  | Set_priority th val => is_Some (threads k !! th) /\ 0 <= val
  end.

Lemma irq_core b k k' : core_rest (set_irq b k) k' -> same_core k k'.
Proof. exact (core_same _ _). Qed.

Lemma wait_op_ok idle k w us : kernel_ok idle k -> allowed idle (Wait_for w us) k ->
  exists k', run_op (Wait_for w us) k = Ok k' /\ kernel_ok idle k' /\ same_core k k'.
Proof.
  intros Hok (Hid & (Hwt & Hwi & Hq & Hf) & Hcon). cbn [run_op].
  pose proof (kernel_ok_irq _ _ false Hok) as Hok1. set (k1 := set_irq false k) in *.
  assert (Hw : (forall t, threads k1 !! w = Some t -> state t <> STOPPED) ->
    exists k', wait w us k1 = Ok k' /\ kernel_ok idle k' /\ same_core k k').
  { intros Hst. apply (wait_ok idle k1 w us); try done. intros Q Hk (x & i & Hx & t & E & Hs).
    destruct Hf as [Hf|Hf]; [exact Hf|]. by destruct (Hf x t E). }
  destruct (threads k !! w) as [t|] eqn:E.
  - unfold thread_wait, get_thread. change (threads k1) with (threads k). rewrite E. cbn [deref obind].
    case_bool_decide as Hs; [by exists k1|]. apply Hw. intros t' E'. change (threads k1) with (threads k) in E'. congruence.
  - apply Hw. intros t' E'. change (threads k1) with (threads k) in E'. congruence.
Qed.

Lemma kill_op_ok idle k x : kernel_ok idle k -> allowed idle (Kill x) k ->
  exists k', run_op (Kill x) k = Ok k' /\ kernel_ok idle k' /\ same_core k k'.
Proof.
  intros Hok (Hi & t & E & Hc). cbn [run_op].
  pose proof (kernel_ok_irq _ _ false Hok) as Hok1.
  assert (Hfin : (exists k', kill x (set_irq false k) = Ok k' /\ kernel_ok idle k' /\ core_rest (set_irq false k) k') ->
    exists k', kill x (set_irq false k) = Ok k' /\ kernel_ok idle k' /\ same_core k k').
  { intros (k' & ? & ? & ?%irq_core). by exists k'. }
  apply Hfin. destruct (decide (x = this_thread k)) as [->|Hx].
  - apply (kill_self_ok idle (set_irq false k) t); try done. by apply Hc.
  - destruct (crit t) eqn:Ec; [by apply (kill_critical_ok idle (set_irq false k) x t)|by apply (kill_other_ok idle (set_irq false k) x t)].
Qed.


(** ** Who runs next, and who is woken *)

(** A preemption runs the first ready thread of the first ready queue below the level of the running
    thread ([lower]: up to its own level); with none there the running thread keeps the core. *)
Theorem preempt_runs_first idle k Q t lower : kernel_ok idle k -> kinv idle k Q {[this_thread k]} ->
  threads k !! this_thread k = Some t ->
  exists k', preempt lower k = Ok k' /\ kernel_ok idle k' /\
    this_thread k' = default (this_thread k) (first_ready k (ready_order Q 0 (levels (priority t + b2z lower)))).
Proof.
  intros Hok Hk E. destruct (kernel_ok_open _ _ Hok) as (Q0 & t0 & _ & Hl & E0 & Hs & Hw & Ht).
  assert (t0 = t) as -> by congruence.
  destruct (preempt_ok idle k Q lower t Hk Hl E Hw Ht ltac:(by left)) as (k' & E' & Hk' & _ & Hthis).
  exists k'. split; [done|]. split; [done|]. by apply Hthis.
Qed.

(** C34. [notify] wakes everyone who waits for the object, says how many there were, and lines them up in
    the ready queues in the order in which they came; each finds [NOTIFY] as the reason, no object and
    no ticket, and nothing else changes but links. *)
Theorem notify_wakes idle k Q w : kernel_ok idle k -> kinv idle k Q {[this_thread k]} ->
  is_Some (queues k !! Wait w) ->
  exists k' Q', notify_all w k = Ok (Z.of_nat (length (Q (Wait w))), k') /\ kernel_ok idle k' /\
    kinv idle k' Q' {[this_thread k']} /\ Q' (Wait w) = [] /\
    (forall i, Q' (Ready i) = Q (Ready i) ++ at_priority (threads k) i (Q (Wait w))) /\
    (forall y, set_next None <$> threads k' !! y =
      if decide (y ∈ Q (Wait w)) then (set_next None ∘ woken NOTIFY) <$> threads k !! y
      else set_next None <$> threads k !! y).
Proof.
  intros Hok Hk Hq. pose proof (run_locked _ _ _ Hok) as Hl.
  destruct (notify_all_ok idle k w Hok Hq) as (n & k1 & E1 & Hk1 & _).
  destruct (notify_ok idle (set_locked {[w]} k) Q _ w ltac:(by apply kinv_locked) Hq eq_refl)
    as (k2 & Q2 & E2 & Hk2 & Hr2 & _ & Hw2 & _ & Hqr2 & Ht2).
  unfold notify_all in *. rewrite lock_empty in * by done. cbn [obind] in *.
  assert (k1 = k2) as -> by congruence. exists k2, Q2. split; [done|]. split; [done|].
  split; [rewrite (proj1 Hr2); exact Hk2|done].
Qed.

(** ** Where the machine stops *)

(** Abandoning an object for which threads still wait stops the machine: [notify] has emptied the
    queue when [set_state] looks for the thread in it. *)
Theorem abandon_stops idle k Q w x l : kernel_ok idle k -> kinv idle k Q {[this_thread k]} ->
  Q (Wait w) = x :: l -> obind (lock w k) (notify w ABANDON) = Bug.
Proof.
  intros Hok Hk El. pose proof (run_locked _ _ _ Hok) as Hl.
  assert (Hx : x ∈ Q (Wait w)) by (rewrite El; by left).
  destruct (queues k !! Wait w) as [tq|] eqn:Eq; [|by rewrite (wq_none _ _ (ki_wfq _ _ _ _ Hk) _ Eq) in El].
  destruct (wq_rep _ _ (ki_wfq _ _ _ _ Hk) _ _ Eq) as [Hc _]. rewrite El in Hc. destruct Hc as (Hh & t & E & _).
  destruct (ki_fits _ _ _ _ Hk _ _ Hx) as (t' & E' & Hs & Hw). assert (t' = t) as -> by congruence.
  rewrite lock_empty by done. cbn [obind]. unfold notify, is_locked. cbn [locked set_locked queues].
  rewrite bool_decide_eq_true_2 by (by apply elem_of_singleton). cbn [ensure obind]. rewrite Eq. cbn [deref obind].
  rewrite unlock_last by done. cbn [obind]. rewrite Hh. set (k1 := set_locked ∅ _).
  assert (fuel_of k1 = S (size (threads k1) + 3)) as -> by (unfold fuel_of; lia). cbn [imp_notify]. unfold get_thread.
  change (threads k1) with (threads k). rewrite E. cbn [deref obind].
  rewrite lock_empty by done. cbn [obind]. set (k2 := set_locked {[x]} k1).
  unfold to_ready, is_locked. change (locked k2) with ({[x]} : gset Z).
  rewrite bool_decide_eq_true_2 by (by apply elem_of_singleton). cbn [ensure obind].
  unfold get_thread. change (threads k2) with (threads k). rewrite E. cbn [deref obind].
  rewrite bool_decide_eq_false_2 by congruence. rewrite bool_decide_eq_true_2 by done.
  unfold end_wait. rewrite Hw. cbn [deref obind]. unfold cancel.
  assert (Hne : w <> x). { intros ->. by apply (ki_self _ _ _ _ Hk x). }
  rewrite (set_locked_two k2 x) by done. cbn [obind]. cbn [queues set_locked set_queue]. subst k2 k1. cbn.
  rewrite lookup_insert_eq. done.
Qed.

(** A thread that was stopped while it ran, and is met by the timer's interrupt when only threads of
    lower priority are ready, stops the machine. *)
Theorem stopped_in_irq_stops idle k Q t : kinv idle k Q {[this_thread k]} -> locked k = ∅ ->
  in_irq k = true -> this_thread k <> idle -> threads k !! this_thread k = Some t -> state t = STOPPED ->
  wait_for t = None -> timer_ticket t = 0 ->
  first_ready k (ready_order Q 0 (levels (priority t + 1))) = None ->
  core_on_timer k = Bug.
Proof.
  intros Hk Hl Hirq Hid E Hs Hw Ht Hnone. unfold core_on_timer, has_context. rewrite Hirq. cbn [orb ensure obind].
  unfold get_thread. rewrite E. cbn [deref obind]. rewrite bool_decide_eq_true_2 by done.
  unfold preempt, get_thread. rewrite E. cbn [deref obind].
  destruct (pick_all idle k Q _ (priority t + b2z true) false Hk) as (o & k1 & Q1 & gone & -> & Hp).
  { intros x. rewrite Hl. by intros ?%elem_of_empty. }
  cbn [obind orb]. pose proof (picked_first _ _ _ _ _ _ _ _ _ Hp) as Hf. cbn [b2z] in Hf. rewrite Hnone in Hf. subst o.
  destruct Hp as (_ & Hr1 & _ & _ & Hk1 & Hrl & Hl1). rewrite Hl in Hl1.
  destruct (gc_signal_if_ok idle k1 Q1 _ (negb (bool_decide (gone = []))) None Hk1) as (k2 & Q2 & -> & Hk2 & Hr2 & Hl2 & Hc2).
  { intros _. by apply free_empty. }
  cbn [obind]. destruct (relinked_lookup _ _ _ _ Hrl E) as (t1 & E1 & Et1).
  destruct (calm_this _ _ _ _ _ Hc2 E1 Et1) as (t2 & E2 & Et2); [congruence|].
  destruct (set_next_fields _ _ Et2) as (F1 & _). destruct (set_next_wait _ _ Et2 Hw Ht) as [F3 F4].
  rewrite E2. cbn [deref obind]. rewrite bool_decide_eq_true_2 by congruence.
  assert (Hr : rest k k2) by (by eapply rest_trans). destruct Hr as (R1 & _ & R3 & _).
  rewrite <- R1 in *. destruct (leave_ok idle k2 Q2 t2) as (k3 & E3 & _); try done; try congruence.
  rewrite R3, Hirq in E3. exact E3.
Qed.

(** The collector's thread cannot wait for its event while a stopped thread is first in line: to find
    the next thread it sends the stopped one to the collector and signals the event it has locked. *)
Theorem collector_waits_for_itself idle k Q us x l : kernel_ok idle k -> kinv idle k Q {[this_thread k]} ->
  in_irq k = false -> this_thread k <> idle -> this_thread k = th_gc k -> gc_event k <> idle ->
  ready_order Q 0 (levels max_priority) = x :: l -> stopped_in k x ->
  wait (gc_event k) us k = Bug.
Proof.
  intros Hok Hk Hirq Hid Hgc Hei Eo Hx. destruct (kernel_ok_open _ _ Hok) as (Q0 & t & _ & Hl & E & _).
  pose proof (ki_object _ _ _ _ Hk) as Hob. unfold wait. rewrite lock_empty by done. cbn [obind].
  set (k1 := set_locked _ k). unfold imp_wait, is_locked. change (locked k1) with ({[gc_event k]} : gset Z).
  rewrite bool_decide_eq_true_2 by (by apply elem_of_singleton). cbn [ensure obind].
  unfold has_context. change (in_irq k1) with (in_irq k). change (this_thread k1) with (this_thread k).
  assert (Hne : this_thread k <> gc_event k) by congruence.
  rewrite Hirq, Z.eqb_refl, (proj2 (Z.eqb_neq _ _) Hne). cbn [negb orb ensure obind].
  destruct (pick_other_ok idle (gc_event k) (this_thread k) Hei Hid (fuel_of k1) None false k1 Q)
    as (n & p & ng & k2 & Q2 & -> & Hc & _ & _ & Hng); [by apply kinv_locked|done| |unfold fuel_of; cbn; lia|].
  { split; [intros t' E'; change (threads k1) with (threads k) in E'; congruence|]. intros ? [=]. }
  assert (Hxe : x <> gc_event k) by (destruct Hx as (? & ? & _); congruence).
  rewrite (Hng x l Eo Hxe Hx). cbn [obind].
  destruct Hc as (Hk2 & Hnh & _ & Hl2 & Hr2 & Ha2 & _).
  assert (Hnt : n <> this_thread k).
  { intros ->. apply Hnh. destruct p; cbn; [apply elem_of_union; right|]; by apply elem_of_singleton. }
  destruct Hr2 as (_ & _ & _ & R4 & R5 & _). change (th_gc k1) with (th_gc k) in R4. change (gc_event k1) with (gc_event k) in R5.
  unfold gc_signal_if. assert (fuel_of k2 = S (S (size (threads k2) + 2))) as -> by (unfold fuel_of; lia). cbn [gc_signal].
  rewrite bool_decide_eq_false_2 by congruence. cbn [signal_one]. unfold lock, is_locked.
  rewrite R5, Hl2, bool_decide_eq_true_2; [done|]. apply elem_of_union. right. by apply elem_of_singleton.
Qed.

(** ** A check of the invariant, for concrete states *)

Definition queues_from (qs : list (qid * list Z)) : queues_of :=
  fun q => default [] ((list_to_map qs : gmap qid (list Z)) !! q).

Fixpoint chain_check (m : gmap Z thread) (h : option Z) (l : list Z) : bool :=
  match l with
  | [] => is_null h
  | x :: l => bool_decide (h = Some x) && match m !! x with Some t => chain_check m (next t) l | None => false end
  end.

Lemma chain_check_ok m h l : chain_check m h l = true -> chain m h l.
Proof.
  revert h. induction l as [|x l IH]; intros h; cbn; [by destruct h|].
  intros [Hh%bool_decide_eq_true Hc]%andb_true_iff. split; [done|].
  destruct (m !! x) as [t|]; [|done]. exists t. auto.
Qed.

#[local] Instance fits_dec q t : Decision (fits q t).
Proof. destruct q; cbn; apply _. Defined.

#[local] Instance good_dec t : Decision (good t).
Proof. unfold good. apply _. Defined.

Definition placed_check (qs : list (qid * list Z)) (x : Z) (t : thread) : Prop :=
  match state t with
  | READY => Exists (fun i => x ∈ queues_from qs (Ready i)) (seqZ 0 max_priority)
  | RUNNING => False
  | WAITING =>
      match wait_for t with
      | Some w => x ∈ queues_from qs (Wait w)
      | None => timer_ticket t <> 0 /\ x ∉ concat (qs.*2)
      end
  | STOPPED => wait_for t = None /\ timer_ticket t = 0
  end.
#[local] Instance placed_check_dec qs x t : Decision (placed_check qs x t).
Proof. unfold placed_check. destruct (state t), (wait_for t); apply _. Defined.

Definition kinv_check (idle : Z) (k : kernel) (qs : list (qid * list Z)) (H : list Z) : Prop :=
  NoDup (qs.*1) /\ NoDup (concat (qs.*2)) /\
  map_Forall (fun q tq => chain_check (threads k) (head tq) (queues_from qs q) = true /\
    tail tq = last (queues_from qs q)) (queues k) /\
  Forall (fun e => (is_Some (queues k !! e.1) /\ Forall (fun x => e.1 <> Wait x) e.2) /\
    Forall (fun x => Exists (fun t => fits e.1 t) (option_list (threads k !! x))) e.2) qs /\
  map_Forall (fun x t => (x ∈ H \/ placed_check qs x t) /\ good t) (threads k) /\
  Forall (fun x => is_Some (threads k !! x) /\ x ∉ concat (qs.*2)) H /\
  Forall (fun g => (g ∉ H /\ g ∉ concat (qs.*2)) /\
    Exists (fun t => state t = STOPPED) (option_list (threads k !! g))) (option_list (gc_ptr k)) /\
  (idle ∈ H \/ Exists (fun t => state t = READY) (option_list (threads k !! idle))) /\
  Forall (fun i => is_Some (queues k !! Ready i)) (seqZ 0 max_priority) /\
  is_Some (queues k !! Collect) /\ is_Some (queues k !! Wait (gc_event k)) /\
  threads k !! gc_event k = None.

#[local] Instance kinv_check_dec idle k qs H : Decision (kinv_check idle k qs H).
Proof. unfold kinv_check. apply _. Defined.

Lemma queues_from_elem qs q x : NoDup (qs.*1) -> x ∈ queues_from qs q -> exists l, (q, l) ∈ qs /\ x ∈ l /\ queues_from qs q = l.
Proof.
  intros Hnd. unfold queues_from. destruct ((list_to_map qs : gmap qid (list Z)) !! q) as [l|] eqn:E; cbn;
    [|by intros ?%elem_of_nil].
  intros Hx. exists l. split; [by apply elem_of_list_to_map_2 in E|done].
Qed.

Lemma queues_from_listed qs q x : NoDup (qs.*1) -> x ∈ queues_from qs q -> x ∈ concat (qs.*2).
Proof.
  intros Hnd (l & Hl & Hx & _)%queues_from_elem; [|done]. apply list_elem_of_In, in_concat. exists l.
  split; [|by apply list_elem_of_In]. apply list_elem_of_In, list_elem_of_fmap. by exists (q, l).
Qed.

Lemma NoDup_concat_at {A} (ls : list (list A)) l : NoDup (concat ls) -> l ∈ ls -> NoDup l.
Proof.
  intros Hn Hl. induction ls as [|l' ls IH]; [by apply elem_of_nil in Hl|]. cbn in Hn.
  apply NoDup_app in Hn as (H1 & _ & H2). apply elem_of_cons in Hl as [->|Hl]; auto.
Qed.

Lemma NoDup_concat_disj {K A} (qs : list (K * list A)) q1 q2 l1 l2 x : NoDup (concat (qs.*2)) ->
  (q1, l1) ∈ qs -> (q2, l2) ∈ qs -> x ∈ l1 -> x ∈ l2 -> q1 = q2.
Proof.
  intros Hn. induction qs as [|[q l] qs IH]; cbn in *; [by intros ?%elem_of_nil|].
  apply NoDup_app in Hn as (_ & Hd & Hn).
  assert (Hin : forall q' l', (q', l') ∈ qs -> x ∈ l' -> x ∈ concat (qs.*2)).
  { intros q' l' Hl Hx. apply list_elem_of_In, in_concat. exists l'.
    split; [|by apply list_elem_of_In]. apply list_elem_of_In, list_elem_of_fmap. by exists (q', l'). }
  intros [[= -> ->]|H1]%elem_of_cons [[= -> ->]|H2]%elem_of_cons Hx1 Hx2; [done| | |by apply IH].
  - by destruct (Hd x Hx1); eapply Hin.
  - by destruct (Hd x Hx2); eapply Hin.
Qed.

Lemma Exists_option_list {A} (P : A -> Prop) o : Exists P (option_list o) -> exists x, o = Some x /\ P x.
Proof. destruct o as [x|]; cbn; [|by intros ?%Exists_nil]. intros [Hx|?%Exists_nil]%Exists_cons; [by exists x|done]. Qed.

Lemma kinv_check_ok idle k qs H : kinv_check idle k qs H -> kinv idle k (queues_from qs) (list_to_set H).
Proof.
  intros (Hn1 & Hn2 & Hrep & Hq & Ht & Hh & Hg & Hi & Hr & Hc & He & Ho).
  rewrite Forall_forall in Hq. rewrite Forall_forall in Hh. rewrite Forall_forall in Hg. rewrite Forall_forall in Hr.
  assert (Hl : forall x, queued (queues_from qs) x -> x ∈ concat (qs.*2)).
  { intros x [q Hx]. by eapply queues_from_listed. }
  constructor; try done.
  - constructor.
    + intros q tq E. destruct (Hrep q tq E) as [H1 H2]. split; [by apply chain_check_ok|done].
    + intros q E. unfold queues_from.
      destruct ((list_to_map qs : gmap qid (list Z)) !! q) as [l|] eqn:El; cbn; [|done].
      apply elem_of_list_to_map_2 in El. destruct (Hq _ El) as [[[tq Etq] _] _]. cbn in Etq. congruence.
    + intros q. unfold queues_from.
      destruct ((list_to_map qs : gmap qid (list Z)) !! q) as [l|] eqn:El; cbn; [|apply NoDup_nil_2].
      apply elem_of_list_to_map_2 in El. eapply NoDup_concat_at; [exact Hn2|]. apply list_elem_of_fmap. by exists (q, l).
    + intros q1 q2 x Hx1 Hx2. apply queues_from_elem in Hx1 as (l1 & Hl1 & Hx1 & _); [|done].
      apply queues_from_elem in Hx2 as (l2 & Hl2 & Hx2 & _); [|done]. by eapply NoDup_concat_disj.
  - intros q x (l & Hin & Hx & _)%queues_from_elem; [|done]. destruct (Hq _ Hin) as [_ Hf].
    rewrite Forall_forall in Hf. apply Exists_option_list. by apply Hf.
  - intros x t E Hx. rewrite elem_of_list_to_set in Hx. destruct (Ht x t E) as [[?|Hp] _]; [done|].
    unfold placed, placed_check in *. destruct (state t); try done.
    + apply Exists_exists in Hp as (i & _ & Hp). by exists i.
    + destruct (wait_for t); [done|]. destruct Hp as [H1 H2]. split; [done|]. by intros ?%Hl.
  - intros x t E. by destruct (Ht x t E).
  - intros x Hx. rewrite elem_of_list_to_set in Hx. destruct (Hh x Hx) as [H1 H2]. split; [done|]. by intros ?%Hl.
  - intros g Eg. destruct (Hg g) as [[H1 H2] H3]; [rewrite Eg; by left|]. rewrite elem_of_list_to_set.
    split; [done|]. split; [by intros ?%Hl|]. by apply Exists_option_list.
  - rewrite elem_of_list_to_set. intros Hni. destruct Hi as [?|Hi]; [done|]. by apply Exists_option_list.
  - intros i Hi'. apply Hr. apply elem_of_seqZ. lia.
  - intros x (l & Hin & Hx & _)%queues_from_elem; [|done]. destruct (Hq _ Hin) as [[_ Hw] _].
    rewrite Forall_forall in Hw. by apply (Hw x).
Qed.

(** ** A core at work *)

(** The state with the threads [ts] in the queues [qs], and all the other queues empty. *)
Definition link (ts : gmap Z thread) (l : list Z) : gmap Z thread :=
  foldr (fun e ts => alter (set_next e.2) e.1 ts) ts (zip l ((Some <$> tl l) ++ [None])).

Definition core (ts : list (Z * thread)) (qs : list (qid * list Z)) (this : Z) (irq : bool) : kernel :=
  Kernel (foldr (fun e ts => link ts e.2) (list_to_map ts) qs)
    (foldr (fun e m => <[e.1 := Queue (hd_error e.2) (last e.2)]> m)
       (list_to_map ((fun i => (Ready i, Queue None None)) <$> seqZ 0 max_priority)) ((Collect, []) :: qs))
    ∅ this None irq 2 100 (Timer.Timer 0 0 7 ∅ []).

Definition a_thread (s : STATE) (p : Z) (w : option Z) : thread := Thread s false false p NONE 3 None w 0.

(** The idle thread 1, the collector's thread 2, the running thread 3, a ready one, two that wait. *)
Definition busy : kernel := core
  [(1, a_thread READY 15 None); (2, a_thread WAITING 4 (Some 100)); (3, a_thread RUNNING 8 None);
   (4, a_thread READY 8 None); (5, a_thread WAITING 8 (Some 101)); (6, a_thread WAITING 8 (Some 101))]
  [(Ready 15, [1]); (Wait 100, [2]); (Ready 8, [4]); (Wait 101, [5; 6])] 3 false.
Definition busy_queues : list (qid * list Z) := [(Ready 15, [1]); (Wait 100, [2]); (Ready 8, [4]); (Wait 101, [5; 6])].

Lemma busy_inv : kinv 1 busy (queues_from busy_queues) {[3]}.
Proof.
  replace ({[3]} : gset Z) with (list_to_set [3] : gset Z) by (vm_compute; reflexivity).
  apply kinv_check_ok. apply (bool_decide_unpack _). vm_compute. exact I.
Qed.

Lemma busy_ok : kernel_ok 1 busy.
Proof.
  apply (kernel_ok_intro 1 busy (queues_from busy_queues) (a_thread RUNNING 8 None)); try reflexivity.
  exact busy_inv.
Qed.


Lemma preempt_runs_first_witness : exists k', preempt true busy = Ok k' /\ kernel_ok 1 k' /\ this_thread k' = 4.
Proof. exact (preempt_runs_first 1 busy (queues_from busy_queues) (a_thread RUNNING 8 None) true busy_ok busy_inv eq_refl). Defined.

Lemma notify_wakes_witness : exists k' Q', notify_all 101 busy = Ok (2, k') /\ kernel_ok 1 k' /\
  kinv 1 k' Q' {[this_thread k']} /\ Q' (Wait 101) = [] /\
  (forall i, Q' (Ready i) = queues_from busy_queues (Ready i) ++ at_priority (threads busy) i [5; 6]) /\
  (forall y, set_next None <$> threads k' !! y =
    if decide (y ∈ [5; 6]) then (set_next None ∘ woken NOTIFY) <$> threads busy !! y
    else set_next None <$> threads busy !! y).
Proof. exact (notify_wakes 1 busy (queues_from busy_queues) 101 busy_ok busy_inv ltac:(by vm_compute; eexists)). Defined.

Lemma abandon_stops_witness : obind (lock 101 busy) (notify 101 ABANDON) = Bug.
Proof. exact (abandon_stops 1 busy (queues_from busy_queues) 101 5 [6] busy_ok busy_inv eq_refl). Defined.

(** The running thread was stopped, and only the idle thread is ready. *)
Definition stopped_core : kernel := core
  [(1, a_thread READY 15 None); (2, a_thread WAITING 4 (Some 100)); (3, a_thread STOPPED 8 None)]
  [(Ready 15, [1]); (Wait 100, [2])] 3 true.

Lemma stopped_in_irq_stops_witness : core_on_timer stopped_core = Bug.
Proof.
  apply (stopped_in_irq_stops 1 stopped_core (queues_from [(Ready 15, [1]); (Wait 100, [2])]) (a_thread STOPPED 8 None));
    try reflexivity; [|discriminate].
  replace ({[this_thread stopped_core]} : gset Z) with (list_to_set [3] : gset Z) by (vm_compute; reflexivity).
  apply kinv_check_ok. apply (bool_decide_unpack _). vm_compute. exact I.
Defined.

(** The collector's thread runs, and a stopped thread is first among the ready. *)
Definition collecting : kernel := core
  [(1, a_thread READY 15 None); (2, a_thread RUNNING 4 None); (3, a_thread STOPPED 8 None)]
  [(Ready 15, [1]); (Ready 8, [3]); (Wait 100, [])] 2 false.

Lemma collector_waits_for_itself_witness : wait (gc_event collecting) 0 collecting = Bug.
Proof.
  assert (Hk : kinv 1 collecting (queues_from [(Ready 15, [1]); (Ready 8, [3]); (Wait 100, [])]) {[this_thread collecting]}).
  { replace ({[this_thread collecting]} : gset Z) with (list_to_set [2] : gset Z) by (vm_compute; reflexivity).
    apply kinv_check_ok. apply (bool_decide_unpack _). vm_compute. exact I. }
  apply (collector_waits_for_itself 1 collecting (queues_from [(Ready 15, [1]); (Ready 8, [3]); (Wait 100, [])]) 0 3 [1]);
    try reflexivity; try discriminate; try exact Hk.
  - by apply (kernel_ok_intro 1 collecting _ (a_thread RUNNING 4 None) Hk).
  - exists (set_next None (a_thread STOPPED 8 None)). by vm_compute.
Defined.
End SchedSafe.
