(* ===== verification/Sync.v ===== *)
(** * Semaphores, events, reader-writer locks and pipes
    (src/kernel/sync/semaphore.cpp, event.cpp, rwlock.cpp, pipe.cpp)

    Each object has its own fields and, as a waitable at the address [w], its lock and wait queue in the
    state of the core.  An operation that blocks is modelled up to the switch to another thread; the
    loop it is in starts over when the thread runs again with the reason [NOTIFY]. *)

From S2P Require Import Prelude Timer Sched SchedInv SchedSafe.

Module Sync.
Import Sched.

(** What an attempt to pass comes to: an answer, or another thread runs. *)
Inductive attempt := Done (r : REASON) | Blocked.

(** ** [semaphore] *)

Record semaphore := Semaphore { total : Z; count : Z }.

Definition new_semaphore (initial : Z) : outcome semaphore :=
  assert! truth initial; Ok (Semaphore initial initial).

Definition take_one (s : semaphore) : semaphore := Semaphore (total s) (w32 (count s - 1)).

(** [semaphore::check]. *)
Definition sem_check (w : Z) (s : semaphore) (k : kernel) : outcome (bool * semaphore * kernel) :=
  let! k := lock w k;
  let r := truth (count s) in
  let! k := unlock w k;
  Ok (r, if r then take_one s else s, k).

(** One round of the loop of [semaphore::wait]. *)
Definition sem_wait (w us : Z) (s : semaphore) (k : kernel) : outcome (attempt * semaphore * kernel) :=
  let! k := lock w k;
  if truth (count s) then let! k := unlock w k; Ok (Done PASSED, take_one s, k)
  else let! k := imp_wait w us k; Ok (Blocked, s, k).

(** The loop of [semaphore::signal], with the lock held. *)
Fixpoint wake_one_loop (fuel : nat) (w : Z) (k : kernel) : outcome (bool * kernel) :=
  match fuel with
  | O => NoFuel
  | S fuel =>
      let! (th, k) := queue_get (Wait w) k;
      match th with
      | None => Ok (false, k)
      | Some th =>
          let! (n, k) := imp_notify (fuel_of k) (Some th) NOTIFY 0 false k;
          if n =? 0 then wake_one_loop fuel w k else Ok (true, k)
      end
  end.

Definition sem_signal (w : Z) (s : semaphore) (k : kernel) : outcome (bool * semaphore * kernel) :=
  let! k := lock w k;
  let s := Semaphore (total s) (Z.min (w32 (count s + 1)) (total s)) in
  let! (r, k) := wake_one_loop (fuel_of k) w k;
  let! k := unlock w k;
  Ok (r, s, k).

(** ** [event] *)

Definition event_check (state : Z) : bool := truth state.

Definition event_wait (w us : Z) (state : Z) (k : kernel) : outcome (attempt * kernel) :=
  if truth state then Ok (Done PASSED, k)
  else let! k := wait w us k; Ok (Blocked, k).

Definition signal_all (w : Z) (k : kernel) : outcome (Z * Z * kernel) :=
  let! k := lock w k;
  let state := 1 in
  let! (n, k) := notify w NOTIFY k;
  Ok (n, state, k).

Definition reset (w : Z) (k : kernel) : outcome (Z * kernel) :=
  let! k := lock w k;
  let state := 0 in
  let! k := unlock w k;
  Ok (state, k).

(** ** [rwlock] *)

Inductive MODE := EXCLUSIVE | SHARED.
#[export] Instance MODE_eq_dec : EqDecision MODE.
Proof. solve_decision. Defined.

Record rwlock := RWLock { owner : option Z; share_count : Z }.

Definition new_rwlock : rwlock := RWLock None 0.

(** The test and the change under the lock, in [try_lock] and [lock]. *)
Definition rw_take (mode : MODE) (this : Z) (l : rwlock) : option rwlock :=
  match mode with
  | EXCLUSIVE =>
      if is_null (owner l) && (share_count l =? 0) then Some (RWLock (Some this) (share_count l)) else None
  | SHARED => if is_null (owner l) then Some (RWLock (owner l) (w32 (share_count l + 1))) else None
  end.

Definition try_lock (w : Z) (mode : MODE) (l : rwlock) (k : kernel) : outcome (bool * rwlock * kernel) :=
  let! k := lock w k;
  let r := rw_take mode (this_thread k) l in
  let! k := unlock w k;
  Ok (match r with Some l => (true, l, k) | None => (false, l, k) end).

(** One round of the loop of [rwlock::lock]. *)
Definition rw_lock (w : Z) (mode : MODE) (l : rwlock) (k : kernel) : outcome (bool * rwlock * kernel) :=
  let! k := lock w k;
  match rw_take mode (this_thread k) l with
  | Some l => let! k := unlock w k; Ok (true, l, k)
  | None => let! k := imp_wait w 0 k; Ok (false, l, k)
  end.

Definition downgrade (w : Z) (l : rwlock) (k : kernel) : outcome (rwlock * kernel) :=
  let! k := lock w k;
  assert! negb (is_null (owner l)) && (share_count l =? 0);
  let l := RWLock None 1 in
  let! (_, k) := notify w NOTIFY k;
  Ok (l, k).

(** The change of [rwlock::unlock], and whether the others are told. *)
Definition give_back (this : Z) (l : rwlock) : outcome (rwlock * bool) :=
  match owner l with
  | Some o =>
      assert! share_count l =? 0;
      if o =? this then Ok (RWLock None (share_count l), true) else Bug
  | None =>
      if share_count l =? 0 then Bug
      else
        let n := w32 (share_count l - 1) in
        Ok (RWLock None n, n =? 0)
  end.

Definition rw_unlock (w : Z) (l : rwlock) (k : kernel) : outcome (rwlock * kernel) :=
  let! k := lock w k;
  let! (l, tell) := give_back (this_thread k) l;
  if tell then let! (_, k) := notify w NOTIFY k; Ok (l, k)
  else let! k := unlock w k; Ok (l, k).

Definition rw_is_locked (l : rwlock) : bool := negb (is_null (owner l)) || truth (share_count l).
Definition is_exclusive (l : rwlock) : bool := negb (is_null (owner l)).

(** ** [pipe] *)

Record pipe := Pipe {
  owner_write : bool; atomic_write : bool; failed : bool;
  limit : Z; buffer : list Z; head : Z; tail : Z
}.

Definition set_ends (h t : Z) (p : pipe) : pipe :=
  Pipe (owner_write p) (atomic_write p) (failed p) (limit p) (buffer p) h t.
Definition set_byte (i : Z) (v : Z) (p : pipe) : pipe :=
  Pipe (owner_write p) (atomic_write p) (failed p) (limit p) (<[Z.to_nat i := v]> (buffer p)) (head p) (tail p).
Definition set_failed (b : bool) (p : pipe) : pipe :=
  Pipe (owner_write p) (atomic_write p) b (limit p) (buffer p) (head p) (tail p).

Definition is_full (p : pipe) : bool := w32 (tail p + 1) mod limit p =? head p.
Definition is_empty (p : pipe) : bool := head p =? tail p.

(** [pipe::check] for a process that is the owner or not. *)
Definition pipe_check (is_owner : bool) (p : pipe) : bool :=
  if Bool.eqb is_owner (owner_write p) then negb (is_full p) else negb (is_empty p).

(** Access to the buffer: an index outside is an error. *)
Definition peek (i : Z) (p : pipe) : outcome Z := deref (buffer p !! Z.to_nat i).
Definition poke (i v : Z) (p : pipe) : outcome pipe :=
  let! _ := peek i p; Ok (set_byte i v p).

Definition advance (i : Z) (p : pipe) : Z := if w32 (i + 1) =? limit p then 0 else w32 (i + 1).

Fixpoint read_loop (n : nat) (p : pipe) : outcome (list Z * pipe) :=
  match n with
  | O => Ok ([], p)
  | S n =>
      if is_empty p then Ok ([], p)
      else
        let! v := peek (head p) p;
        let! (r, p) := read_loop n (set_ends (advance (head p) p) (tail p) p);
        Ok (v :: r, p)
  end.

Fixpoint write_loop (sor : list Z) (p : pipe) : outcome (Z * pipe) :=
  match sor with
  | [] => Ok (0, p)
  | v :: sor =>
      if is_full p then Ok (0, p)
      else
        let! p := poke (tail p) v p;
        let! (c, p) := write_loop sor (set_ends (head p) (advance (tail p) p) p);
        Ok (c + 1, p)
  end.

(** [pipe::read] and [pipe::write]: what they transfer, and whether the others are told. *)
Definition read (is_owner : bool) (length : Z) (p : pipe) : outcome (list Z * bool * pipe) :=
  let p := set_failed false p in
  if Bool.eqb is_owner (owner_write p) then Ok ([], false, set_failed true p)
  else
    let need_notify := is_full p in
    let! (data, p) := read_loop (Z.to_nat length) p;
    Ok (data, negb (bool_decide (data = [])) && need_notify, p).

Definition write (is_owner : bool) (sor : list Z) (p : pipe) : outcome (Z * bool * pipe) :=
  let p := set_failed false p in
  if negb (Bool.eqb is_owner (owner_write p)) then Ok (0, false, set_failed true p)
  else
    let length := Z.of_nat (List.length sor) in
    let available := w32 (head p + limit p - tail p - 1) mod limit p in
    if atomic_write p && (available <? length) then Ok (0, false, p)
    else
      let need_notify := is_empty p in
      let! (count, p) := write_loop sor p;
      assert! negb (atomic_write p) || (count =? length);
      Ok (count, truth count && need_notify, p).

Definition tell (w : Z) (b : bool) (k : kernel) : outcome kernel :=
  if b then let! (_, k) := notify w NOTIFY k; Ok k else unlock w k.

Definition pipe_read (w : Z) (is_owner : bool) (length : Z) (p : pipe) (k : kernel)
  : outcome (list Z * pipe * kernel) :=
  let! k := lock w k;
  let! (data, b, p) := read is_owner length p;
  let! k := tell w b k;
  Ok (data, p, k).

Definition pipe_write (w : Z) (is_owner : bool) (sor : list Z) (p : pipe) (k : kernel)
  : outcome (Z * pipe * kernel) :=
  let! k := lock w k;
  let! (count, b, p) := write is_owner sor p;
  let! k := tell w b k;
  Ok (count, p, k).

Definition pipe_wait (w us : Z) (is_owner : bool) (p : pipe) (k : kernel) : outcome (attempt * kernel) :=
  let! k := lock w k;
  if pipe_check is_owner p then let! k := unlock w k; Ok (Done PASSED, k)
  else let! k := imp_wait w us k; Ok (Blocked, k).
End Sync.

(** * What they promise *)

Module SyncThm.
Import Sched SchedInv Sync.

(** ** Pipes: a bounded first-in first-out queue *)

Record pipe_wf (p : pipe) : Prop := {
  pw_limit : 0 < limit p <= 2 ^ 31;
  pw_buffer : Z.of_nat (length (buffer p)) = limit p;
  pw_head : 0 <= head p < limit p;
  pw_tail : 0 <= tail p < limit p
}.

(** How many bytes there are, and the bytes. *)
Definition used (p : pipe) : Z := (tail p - head p) mod limit p.
Definition room (p : pipe) : Z := limit p - 1 - used p.
Definition at_pos (p : pipe) (i : Z) : Z := default 0 (buffer p !! Z.to_nat ((head p + i) mod limit p)).
Definition contents (p : pipe) : list Z := at_pos p <$> seqZ 0 (used p).

Lemma used_range p : pipe_wf p -> 0 <= used p < limit p.
Proof. intros [Hl _ _ _]. apply Z.mod_pos_bound. lia. Qed.

Lemma used_cases p : pipe_wf p ->
  used p = tail p - head p /\ head p <= tail p \/ used p = tail p - head p + limit p /\ tail p < head p.
Proof.
  intros [Hl _ Hh Ht]. unfold used. destruct (Z.le_gt_cases (head p) (tail p)) as [H|H]; [left|right].
  - rewrite Z.mod_small by lia. lia.
  - split; [|lia]. rewrite <- (Z.mod_add _ 1), Z.mod_small by lia. lia.
Qed.

Lemma length_contents p : pipe_wf p -> Z.of_nat (length (contents p)) = used p.
Proof. intros Hw. pose proof (used_range p Hw). unfold contents. rewrite length_fmap, length_seqZ. lia. Qed.

Lemma wrap32_small x : 0 <= x < 2 ^ 32 -> w32 x = x.
Proof. intros. unfold wrap. by apply Z.mod_small. Qed.

Lemma advance_range i p : pipe_wf p -> 0 <= i < limit p ->
  advance i p = (i + 1) mod limit p /\ 0 <= advance i p < limit p.
Proof.
  intros [Hl _ _ _] Hi. unfold advance. rewrite wrap32_small by lia.
  destruct (Z.eqb_spec (i + 1) (limit p)) as [->|Hne].
  - rewrite Z.mod_same by lia. lia.
  - rewrite Z.mod_small by lia. lia.
Qed.

Lemma is_full_room p : pipe_wf p -> is_full p = (room p =? 0).
Proof.
  intros Hw. pose proof (used_cases p Hw) as Hu. destruct Hw as [Hl _ Hh Ht].
  unfold is_full, room. rewrite wrap32_small by lia.
  destruct (Z.eq_dec (tail p + 1) (limit p)) as [He|He].
  - rewrite He, Z.mod_same by lia. destruct (Z.eqb_spec 0 (head p)), (Z.eqb_spec (limit p - 1 - used p) 0); try done; lia.
  - rewrite Z.mod_small by lia.
    destruct (Z.eqb_spec (tail p + 1) (head p)), (Z.eqb_spec (limit p - 1 - used p) 0); try done; lia.
Qed.

Lemma is_empty_used p : pipe_wf p -> is_empty p = (used p =? 0).
Proof.
  intros Hw. pose proof (used_cases p Hw) as Hu. destruct Hw as [Hl _ Hh Ht]. unfold is_empty.
  destruct (Z.eqb_spec (head p) (tail p)), (Z.eqb_spec (used p) 0); try done; lia.
Qed.

Lemma peek_ok p i : pipe_wf p -> 0 <= i < limit p -> peek i p = Ok (default 0 (buffer p !! Z.to_nat i)).
Proof.
  intros [Hl Hb _ _] Hi. unfold peek. destruct (lookup_lt_is_Some_2 (buffer p) (Z.to_nat i)) as [v ->]; [lia|done].
Qed.

Lemma at_pos_shift p h : 0 < limit p -> forall i, at_pos (set_ends ((head p + 1) mod limit p) h p) i = at_pos p (i + 1).
Proof.
  intros Hl i. unfold at_pos. cbn. do 2 f_equal. f_equal. rewrite Zplus_mod_idemp_l. f_equal. lia.
Qed.

(** Taking the first byte. *)
Lemma pop_ok p : pipe_wf p -> is_empty p = false ->
  exists v, peek (head p) p = Ok v /\ contents p = v :: contents (set_ends (advance (head p) p) (tail p) p) /\
    pipe_wf (set_ends (advance (head p) p) (tail p) p).
Proof.
  intros Hw He. pose proof (used_range p Hw) as Hr. rewrite is_empty_used in He by done. apply Z.eqb_neq in He.
  pose proof (used_cases p Hw) as Hu. pose proof Hw as [Hl Hb Hh Ht].
  destruct (advance_range (head p) p Hw Hh) as [Ea Hra]. rewrite peek_ok by done. eexists. split; [done|].
  set (p' := set_ends _ _ p). assert (Hw' : pipe_wf p') by (constructor; done). split; [|done].
  assert (Hu' : used p' = used p - 1).
  { pose proof (used_cases p' Hw') as Hu'. change (head p') with (advance (head p) p) in Hu'.
    change (tail p') with (tail p) in Hu'. change (limit p') with (limit p) in Hu'.
    rewrite Ea in Hu'. destruct (Z.eq_dec (head p + 1) (limit p)) as [Hq|Hq].
    - rewrite Hq, Z.mod_same in Hu' by lia. lia.
    - rewrite Z.mod_small in Hu' by lia. lia. }
  unfold contents. rewrite Hu', (seqZ_cons 0 (used p)) by lia. cbn [fmap list_fmap]. f_equal.
  - unfold at_pos. by rewrite Z.add_0_r, Z.mod_small by lia.
  - rewrite <- (Z.add_0_r (Z.succ 0)), <- fmap_add_seqZ, <- list_fmap_compose.
    replace (Z.pred (used p)) with (used p - 1) by lia. apply list_fmap_ext. intros i x _. cbn.
    unfold p'. rewrite Ea, at_pos_shift by lia. f_equal. lia.
Qed.

(** Adding a byte at the end. *)
Lemma push_ok p v : pipe_wf p -> is_full p = false ->
  exists p', poke (tail p) v p = Ok p' /\
    contents (set_ends (head p') (advance (tail p') p') p') = contents p ++ [v] /\
    pipe_wf (set_ends (head p') (advance (tail p') p') p') /\ limit p' = limit p /\
    owner_write p' = owner_write p /\ atomic_write p' = atomic_write p /\ failed p' = failed p.
Proof.
  intros Hw He. pose proof (used_range p Hw) as Hr. rewrite is_full_room in He by done. apply Z.eqb_neq in He.
  unfold room in He. pose proof (used_cases p Hw) as Hu. pose proof Hw as [Hl Hb Hh Ht].
  destruct (advance_range (tail p) p Hw Ht) as [Ea Hra].
  unfold poke. rewrite peek_ok by done. cbn [obind]. eexists. split; [done|].
  set (p1 := set_byte (tail p) v p). set (p' := set_ends _ _ p1).
  assert (Hw' : pipe_wf p') by (constructor; cbn; try done; by rewrite length_insert).
  assert (Hu' : used p' = used p + 1).
  { pose proof (used_cases p' Hw') as Hu'. change (head p') with (head p) in Hu'.
    change (tail p') with (advance (tail p) p) in Hu'. change (limit p') with (limit p) in Hu'.
    rewrite Ea in Hu'. destruct (Z.eq_dec (tail p + 1) (limit p)) as [Hq|Hq].
    - rewrite Hq, Z.mod_same in Hu' by lia. lia.
    - rewrite Z.mod_small in Hu' by lia. lia. }
  split; [|done]. unfold contents. rewrite Hu', seqZ_app, fmap_app by lia. f_equal.
  - apply list_fmap_ext. intros n i Hi%lookup_seqZ. unfold at_pos. cbn. rewrite list_lookup_insert_ne; [done|].
    destruct (Z.lt_ge_cases (head p + i) (limit p)) as [Hc|Hc].
    + rewrite Z.mod_small by lia. lia.
    + rewrite <- (Z.mod_add _ (-1)), Z.mod_small by lia. lia.
  - rewrite seqZ_cons by lia. cbn. f_equal.
    unfold at_pos. cbn. replace ((head p + (0 + used p)) mod limit p) with (tail p).
    + rewrite list_lookup_insert_eq; [done|lia].
    + destruct Hu as [[-> ?]|[-> ?]].
      * rewrite Z.mod_small by lia. lia.
      * rewrite <- (Z.mod_add _ (-1)), Z.mod_small by lia. lia.
Qed.

Definition same_pipe (p p' : pipe) : Prop :=
  limit p' = limit p /\ owner_write p' = owner_write p /\ atomic_write p' = atomic_write p /\ failed p' = failed p.

Lemma read_loop_ok n : forall p, pipe_wf p -> exists p', read_loop n p = Ok (take n (contents p), p') /\
  pipe_wf p' /\ contents p' = List.skipn n (contents p) /\ same_pipe p p'.
Proof.
  induction n as [|n IH]; intros p Hw; cbn [read_loop].
  - by exists p.
  - destruct (is_empty p) eqn:He.
    + rewrite is_empty_used in He by done. apply Z.eqb_eq in He.
      assert (Hn : contents p = []) by (unfold contents; by rewrite He). exists p. rewrite Hn.
      split; [done|]. split; [done|]. done.
    + destruct (pop_ok p Hw He) as (v & -> & -> & Hw'). cbn [obind].
      destruct (IH _ Hw') as (p' & -> & Hp' & Hc & Hs). cbn [obind]. exists p'. done.
Qed.

Definition min_len (sor : list Z) (p : pipe) : nat := Nat.min (length sor) (Z.to_nat (room p)).

Lemma write_loop_ok sor : forall p, pipe_wf p -> exists p',
  write_loop sor p = Ok (Z.of_nat (min_len sor p), p') /\ pipe_wf p' /\
  contents p' = contents p ++ take (min_len sor p) sor /\ same_pipe p p'.
Proof.
  induction sor as [|v sor IH]; intros p Hw; cbn [write_loop].
  - exists p. cbn. by rewrite app_nil_r.
  - unfold min_len. destruct (is_full p) eqn:He.
    + rewrite is_full_room in He by done. apply Z.eqb_eq in He. rewrite He. exists p.
      rewrite Nat.min_0_r. cbn. by rewrite app_nil_r.
    + destruct (push_ok p v Hw He) as (p1 & -> & Hc1 & Hw1 & Hs1). cbn [obind].
      destruct (IH _ Hw1) as (p' & -> & Hw' & Hc' & Hs'). cbn [obind].
      rewrite is_full_room in He by done. apply Z.eqb_neq in He.
      pose proof (used_range p Hw) as Hr. pose proof (length_contents _ Hw1) as Hl1.
      rewrite Hc1, length_app, Nat2Z.inj_add, (length_contents p Hw) in Hl1. cbn in Hl1.
      set (p2 := set_ends _ _ p1) in *. destruct Hs1 as (L1 & L2 & L3 & L4).
      assert (Hroom : room p2 = room p - 1).
      { unfold room. change (limit p2) with (limit p1). rewrite L1. lia. }
      assert (Hm : min_len sor p2 = Nat.min (length sor) (pred (Z.to_nat (room p)))).
      { unfold min_len. rewrite Hroom. f_equal. lia. }
      assert (Hm' : Nat.min (length (v :: sor)) (Z.to_nat (room p)) = S (min_len sor p2)).
      { rewrite Hm. cbn [length]. unfold room in *. lia. }
      exists p'. rewrite Hm'. split; [do 2 f_equal; lia|]. split; [done|].
      split; [rewrite Hc', Hc1, <- app_assoc; done|]. destruct Hs' as (M1 & M2 & M3 & M4). cbn in *.
      unfold same_pipe. split; [congruence|]. split; [congruence|]. split; congruence.
Qed.

Lemma available_room p : pipe_wf p -> w32 (head p + limit p - tail p - 1) mod limit p = room p.
Proof.
  intros Hw. pose proof (used_cases p Hw) as Hu. destruct Hw as [Hl _ Hh Ht]. unfold room.
  rewrite wrap32_small by lia. destruct Hu as [[-> ?]|[-> ?]].
  - rewrite Z.mod_small by lia. lia.
  - rewrite <- (Z.mod_add _ (-1)), Z.mod_small by lia. lia.
Qed.

(** *** The specification: a queue of at most [cap] bytes, one side of which writes *)

Inductive request := Read (by_owner : bool) (length : Z) | Write (by_owner : bool) (sor : list Z).
Record answer := Answer { got : list Z; put : Z; told : bool; refused : bool }.

Definition spec_step (writer : bool) (atomic : bool) (cap : Z) (r : request) (q : list Z) : answer * list Z :=
  match r with
  | Read o n =>
      if Bool.eqb o writer then (Answer [] 0 false true, q)
      else
        let data := take (Z.to_nat n) q in
        (Answer data 0 (negb (bool_decide (data = [])) && (Z.of_nat (length q) =? cap)) false,
         List.skipn (Z.to_nat n) q)
  | Write o sor =>
      if negb (Bool.eqb o writer) then (Answer [] 0 false true, q)
      else
        let free := Z.to_nat (cap - Z.of_nat (length q)) in
        let m := if atomic && (free <? length sor)%nat then O else Nat.min (length sor) free in
        (Answer [] (Z.of_nat m) (negb (m =? 0)%nat && bool_decide (q = [])) false, q ++ take m sor)
  end.

Definition pipe_step (r : request) (p : pipe) : outcome (answer * pipe) :=
  match r with
  | Read o n => let! (data, b, p) := read o n p; Ok (Answer data 0 b (failed p), p)
  | Write o sor => let! (c, b, p) := write o sor p; Ok (Answer [] c b (failed p), p)
  end.

Lemma set_failed_wf b p : pipe_wf p -> pipe_wf (set_failed b p).
Proof. by intros []. Qed.

Lemma full_length p : pipe_wf p -> is_full p = (Z.of_nat (length (contents p)) =? limit p - 1).
Proof.
  intros Hw. rewrite is_full_room, length_contents by done. unfold room.
  destruct (Z.eqb_spec (limit p - 1 - used p) 0), (Z.eqb_spec (used p) (limit p - 1)); try done; lia.
Qed.

Lemma empty_nil p : pipe_wf p -> is_empty p = bool_decide (contents p = []).
Proof.
  intros Hw. rewrite is_empty_used by done. pose proof (length_contents p Hw) as Hl.
  destruct (contents p); cbn in Hl; [by rewrite <- Hl|].
  rewrite bool_decide_eq_false_2 by done. apply Z.eqb_neq. lia.
Qed.

Lemma pipe_step_spec p r : pipe_wf p -> exists a p', pipe_step r p = Ok (a, p') /\ pipe_wf p' /\
  (a, contents p') = spec_step (owner_write p) (atomic_write p) (limit p - 1) r (contents p) /\
  Z.of_nat (length (contents p')) <= limit p' - 1.
Proof.
  intros Hw. assert (Hcap : forall p', pipe_wf p' -> Z.of_nat (length (contents p')) <= limit p' - 1).
  { intros p' Hw'. rewrite length_contents by done. pose proof (used_range p' Hw'). lia. }
  destruct r as [o n|o sor]; cbn [pipe_step spec_step].
  - unfold read. change (owner_write (set_failed false p)) with (owner_write p). destruct (Bool.eqb o (owner_write p)); cbn [obind].
    { eexists _, _. split; [done|]. pose proof (set_failed_wf true p Hw) as Hw'. split; [exact Hw'|].
      split; [done|]. apply (Hcap _ Hw'). }
    destruct (read_loop_ok (Z.to_nat n) _ (set_failed_wf false p Hw)) as (p' & -> & Hw' & Hc & Hs & _ & _ & Hf).
    cbn [obind]. eexists _, p'. split; [done|]. split; [done|]. split; [|by apply Hcap].
    rewrite Hc, Hf, (full_length _ (set_failed_wf false p Hw)). done.
  - unfold write. set (p0 := set_failed false p). assert (Hw0 : pipe_wf p0) by (by apply set_failed_wf).
    change (owner_write p0) with (owner_write p). destruct (Bool.eqb o (owner_write p)); cbn [negb obind].
    2: { eexists _, _. split; [done|]. pose proof (set_failed_wf true p Hw) as Hw'. split; [exact Hw'|].
         split; [done|]. apply (Hcap _ Hw'). }
    rewrite available_room by done. change (atomic_write p0) with (atomic_write p).
    assert (Hroom : room p0 = limit p - 1 - Z.of_nat (length (contents p))).
    { rewrite length_contents by done. done. }
    assert (Hpos : 0 <= room p0) by (pose proof (used_range p0 Hw0); unfold room; lia).
    assert (Hlt : (room p0 <? Z.of_nat (length sor)) = (Z.to_nat (room p0) <? length sor)%nat).
    { destruct (Z.ltb_spec (room p0) (Z.of_nat (length sor))), (Nat.ltb_spec (Z.to_nat (room p0)) (length sor)); try done; lia. }
    rewrite Hlt, <- Hroom. destruct (atomic_write p && _) eqn:Ea; cbn [obind].
    { eexists _, p0. split; [done|]. split; [done|]. split; [|by apply Hcap].
      cbn. by rewrite app_nil_r. }
    destruct (write_loop_ok sor p0 Hw0) as (p' & -> & Hw' & Hc & Hs & _ & Hat & Hf). cbn [obind].
    assert (negb (atomic_write p') || (Z.of_nat (min_len sor p0) =? Z.of_nat (length sor)) = true) as ->.
    { rewrite Hat. change (atomic_write p0) with (atomic_write p). destruct (atomic_write p); [|done]. cbn in *.
      apply Z.eqb_eq. apply Nat.ltb_ge in Ea. unfold min_len. lia. }
    cbn [ensure obind]. eexists _, p'. split; [done|]. split; [done|]. split; [|by apply Hcap].
    rewrite Hc, Hf, (empty_nil p0 Hw0). fold (min_len sor p0). do 3 f_equal.
    unfold truth. destruct (min_len sor p0); done.
Qed.

(** Requests one after the other. *)
Fixpoint pipe_run (rs : list request) (p : pipe) : outcome (list answer * pipe) :=
  match rs with
  | [] => Ok ([], p)
  | r :: rs => let! (a, p) := pipe_step r p; let! (l, p) := pipe_run rs p; Ok (a :: l, p)
  end.

Fixpoint spec_run (writer atomic : bool) (cap : Z) (rs : list request) (q : list Z) : list answer * list Z :=
  match rs with
  | [] => ([], q)
  | r :: rs =>
      let (a, q) := spec_step writer atomic cap r q in
      let (l, q) := spec_run writer atomic cap rs q in (a :: l, q)
  end.

Lemma pipe_step_same r p a p' : pipe_wf p -> pipe_step r p = Ok (a, p') ->
  limit p' = limit p /\ owner_write p' = owner_write p /\ atomic_write p' = atomic_write p.
Proof.
  intros Hw. destruct r as [o n|o sor]; cbn [pipe_step].
  - unfold read. destruct (Bool.eqb _ _); cbn [obind]; [by intros [= _ <-]|].
    destruct (read_loop_ok (Z.to_nat n) _ (set_failed_wf false p Hw)) as (p1 & -> & _ & _ & Hs & H2 & H3 & _).
    cbn [obind]. by intros [= _ <-].
  - unfold write. destruct (negb _); cbn [obind]; [by intros [= _ <-]|].
    destruct (_ && _); cbn [obind]; [by intros [= _ <-]|].
    destruct (write_loop_ok sor _ (set_failed_wf false p Hw)) as (p1 & -> & _ & _ & Hs & H2 & H3 & _).
    cbn [obind]. destruct (_ || _); [|done]. cbn [ensure obind]. by intros [= _ <-].
Qed.

(** C22. A pipe is a first-in first-out queue of at most [limit - 1] bytes: whatever its two sides ask for,
    one request after the other, what each transfers, is refused and tells the other side, and the bytes
    left, are those of the specification; no index leaves the buffer and the assertion on atomic writes
    holds. *)
Theorem pipe_refines p rs : pipe_wf p -> exists l p', pipe_run rs p = Ok (l, p') /\ pipe_wf p' /\
  (l, contents p') = spec_run (owner_write p) (atomic_write p) (limit p - 1) rs (contents p) /\
  Z.of_nat (length (contents p')) <= limit p - 1.
Proof.
  revert p. induction rs as [|r rs IH]; intros p Hw; cbn [pipe_run spec_run].
  - exists [], p. split; [done|]. split; [done|]. split; [done|].
    rewrite length_contents by done. pose proof (used_range p Hw). lia.
  - destruct (pipe_step_spec p r Hw) as (a & p1 & E1 & Hw1 & <- & _).
    destruct (pipe_step_same _ _ _ _ Hw E1) as (L & O & A).
    destruct (IH p1 Hw1) as (l & p' & E' & Hw' & Hs' & Hc'). rewrite L, O, A in *.
    rewrite E1. cbn [obind]. rewrite E'. cbn [obind]. exists (a :: l), p'. rewrite <- Hs'. done.
Qed.

(** Two bytes go in, a third does not fit, the first comes out. *)
Lemma pipe_refines_witness : exists l p',
  pipe_run [Write true [7; 8; 9]; Read false 1] (Pipe true false false 3 [0; 0; 0] 2 2) = Ok (l, p') /\ pipe_wf p' /\
  (l, contents p') = ([Answer [] 2 true false; Answer [7] 0 true false], [8]) /\
  Z.of_nat (length (contents p')) <= 3 - 1.
Proof.
  apply (pipe_refines (Pipe true false false 3 [0; 0; 0] 2 2) [Write true [7; 8; 9]; Read false 1]).
  constructor; cbn; lia.
Defined.

(** ** Reader-writer locks: who may hold one with whom *)

(** The clients: [hs] are the threads that hold the lock, and how.  Anything else may happen to the core
    in between. *)
Inductive rw_step (w : Z) : rwlock * list (Z * MODE) * kernel -> rwlock * list (Z * MODE) * kernel -> Prop :=
  | rw_locked mode l hs k l' k' : rw_lock w mode l k = Ok (true, l', k') ->
      rw_step w (l, hs, k) (l', (this_thread k, mode) :: hs, k')
  | rw_blocked mode l hs k l' k' : rw_lock w mode l k = Ok (false, l', k') -> rw_step w (l, hs, k) (l', hs, k')
  | rw_tried mode l hs k l' k' : try_lock w mode l k = Ok (true, l', k') ->
      rw_step w (l, hs, k) (l', (this_thread k, mode) :: hs, k')
  | rw_refused mode l hs k l' k' : try_lock w mode l k = Ok (false, l', k') -> rw_step w (l, hs, k) (l', hs, k')
  | rw_unlocked mode l hs hs' k l' k' : hs ≡ₚ (this_thread k, mode) :: hs' -> rw_unlock w l k = Ok (l', k') ->
      rw_step w (l, hs, k) (l', hs', k')
  | rw_downgraded l hs k l' k' : (this_thread k, EXCLUSIVE) ∈ hs -> downgrade w l k = Ok (l', k') ->
      rw_step w (l, hs, k) (l', [(this_thread k, SHARED)], k')
  | rw_elsewhere l hs k k' : rw_step w (l, hs, k) (l, hs, k').

Definition rw_inv (l : rwlock) (hs : list (Z * MODE)) : Prop :=
  match owner l with
  | Some o => hs = [(o, EXCLUSIVE)] /\ share_count l = 0
  | None => Forall (fun h => h.2 = SHARED) hs /\ share_count l = Z.of_nat (length hs)
  end.

Lemma rw_take_inv mode this l l' hs : rw_inv l hs -> Z.of_nat (length hs) < 2 ^ 32 - 1 ->
  rw_take mode this l = Some l' -> rw_inv l' ((this, mode) :: hs).
Proof.
  intros Hi Hn. unfold rw_inv in Hi. destruct mode, l as [[o|] n]; cbn in *; try done.
  - destruct Hi as [Hs ->]. destruct hs; [|done]. intros [= <-]. done.
  - destruct Hi as [Hs ->]. intros [= <-]. cbn. split; [by constructor|].
    unfold wrap. rewrite Z.mod_small by lia. lia.
Qed.

Lemma give_back_inv mode this l l' b hs hs' : rw_inv l hs -> Z.of_nat (length hs) < 2 ^ 32 ->
  hs ≡ₚ (this, mode) :: hs' -> give_back this l = Ok (l', b) -> rw_inv l' hs'.
Proof.
  intros Hi Hn Hp. unfold rw_inv, give_back in *. destruct l as [[o|] n]; cbn in *.
  - destruct Hi as [-> ->]. cbn. apply Permutation_singleton_l in Hp. injection Hp as <- <- <-.
    rewrite Z.eqb_refl. intros [= <- _]. cbn. done.
  - destruct Hi as [Hs ->]. apply Permutation_length in Hp as Hl. cbn in Hl.
    destruct (Z.eqb_spec (Z.of_nat (length hs)) 0); [lia|]. intros [= <- _]. cbn. split.
    + rewrite Hp in Hs. by apply Forall_cons in Hs as [_ ?].
    + unfold wrap. rewrite Z.mod_small by lia. lia.
Qed.

Lemma lock_this w k k' : lock w k = Ok k' -> this_thread k' = this_thread k.
Proof. unfold lock. destruct (negb _); cbn; [|done]. by intros [= <-]. Qed.

(** What a successful operation did to the lock. *)
Lemma rw_lock_took w mode l k b l' k' : rw_lock w mode l k = Ok (b, l', k') ->
  if b then rw_take mode (this_thread k) l = Some l' else l' = l /\ rw_take mode (this_thread k) l = None.
Proof.
  unfold rw_lock. destruct (lock w k) as [k1| |] eqn:E; [|done|done]. cbn [obind]. rewrite (lock_this _ _ _ E).
  destruct (rw_take mode (this_thread k) l) as [l1|].
  - destruct (unlock w k1); [|done|done]. cbn. by intros [= <- <- _].
  - destruct (imp_wait w 0 k1); [|done|done]. cbn. by intros [= <- <- _].
Qed.

Lemma try_lock_took w mode l k b l' k' : try_lock w mode l k = Ok (b, l', k') ->
  if b then rw_take mode (this_thread k) l = Some l' else l' = l /\ rw_take mode (this_thread k) l = None.
Proof.
  unfold try_lock. destruct (lock w k) as [k1| |] eqn:E; [|done|done]. cbn [obind]. rewrite (lock_this _ _ _ E).
  destruct (unlock w k1); [|done|done]. cbn [obind]. by destruct (rw_take _ _ l); intros [= <- <- _].
Qed.

Lemma rw_unlock_gave w l k l' k' : rw_unlock w l k = Ok (l', k') -> exists b, give_back (this_thread k) l = Ok (l', b).
Proof.
  unfold rw_unlock. destruct (lock w k) as [k1| |] eqn:E; [|done|done]. cbn [obind]. rewrite (lock_this _ _ _ E).
  destruct (give_back _ l) as [[l1 b]| |]; [|done|done]. cbn [obind]. intros H. exists b.
  destruct b; [destruct (notify w NOTIFY k1) as [[? ?]| |]|destruct (unlock w k1)]; cbn in H; try done;
    by injection H as <- _.
Qed.

Lemma downgrade_gave w l k l' k' : downgrade w l k = Ok (l', k') -> l' = RWLock None 1.
Proof.
  unfold downgrade. destruct (lock w k) as [k1| |]; [|done|done]. cbn [obind]. destruct (_ && _); [|done].
  cbn [ensure obind]. destruct (notify w NOTIFY k1) as [[? ?]| |]; [|done|done]. cbn. by intros [= <- _].
Qed.

Lemma rw_step_inv w l hs k l' hs' k' : rw_step w (l, hs, k) (l', hs', k') -> Z.of_nat (length hs) < 2 ^ 32 - 1 ->
  rw_inv l hs -> rw_inv l' hs'.
Proof.
  intros Hs Hn Hi.
  inversion Hs as [mode ????? E|mode ????? E|mode ????? E|mode ????? E|mode ?????? Hp E|????? Hin E|]; subst; try done.
  - apply rw_lock_took in E. by eapply rw_take_inv.
  - apply rw_lock_took in E as [-> _]. done.
  - apply try_lock_took in E. by eapply rw_take_inv.
  - apply try_lock_took in E as [-> _]. done.
  - apply rw_unlock_gave in E as [b E]. eapply give_back_inv; [exact Hi|lia|exact Hp|exact E].
  - apply downgrade_gave in E as ->. cbn. split; [by repeat constructor|done].
Qed.

(** The states clients can reach, with fewer holders than a [dword] counts. *)
Inductive rw_reach (w : Z) : rwlock -> list (Z * MODE) -> kernel -> Prop :=
  | rw_new k : rw_reach w new_rwlock [] k
  | rw_next l hs k l' hs' k' : rw_reach w l hs k -> Z.of_nat (length hs) < 2 ^ 32 - 1 ->
      rw_step w (l, hs, k) (l', hs', k') -> rw_reach w l' hs' k'.

Lemma rw_reach_inv w l hs k : rw_reach w l hs k -> rw_inv l hs.
Proof. induction 1; [by split|]. by eapply rw_step_inv. Qed.

(** C23. Whoever holds the lock exclusively is its only holder; shared holders exclude an exclusive one;
    an attempt is refused only when the lock is held in a conflicting way; and a holder that gives the
    lock back meets none of the [bugcheck]s of [unlock]. *)
Theorem rwlock_exclusion w l hs k : rw_reach w l hs k ->
  (forall t, (t, EXCLUSIVE) ∈ hs -> hs = [(t, EXCLUSIVE)]) /\
  (forall t, rw_take EXCLUSIVE t l = None <-> hs <> []) /\
  (forall t, rw_take SHARED t l = None <-> exists t', (t', EXCLUSIVE) ∈ hs) /\
  (forall t m, (t, m) ∈ hs -> exists l' b, give_back t l = Ok (l', b)) /\
  rw_is_locked l = negb (bool_decide (hs = [])).
Proof.
  intros Hi%rw_reach_inv. unfold rw_inv in Hi. destruct l as [[o|] n]; cbn in *.
  - destruct Hi as [-> ->]. split; [|split; [|split; [|split]]]; cbn.
    + intros t [= ->]%list_elem_of_singleton. done.
    + done.
    + intros t. split; [|done]. exists o. by left.
    + intros t m [= -> ->]%list_elem_of_singleton. cbn. rewrite Z.eqb_refl. by eexists _, _.
    + done.
  - destruct Hi as [Hs ->]. rewrite Forall_forall in Hs.
    assert (Hno : forall t, (t, EXCLUSIVE) ∉ hs) by (intros t Ht; by specialize (Hs _ Ht)).
    split; [|split; [|split; [|split]]]; cbn.
    + intros t Ht. by destruct (Hno t).
    + intros t. destruct hs; cbn; [|done]. split; [done|by intros []].
    + intros t. split; [done|]. intros [t' Ht]. by destruct (Hno t').
    + intros t m Hin. destruct hs as [|h hs]; [by apply elem_of_nil in Hin|].
      destruct (Z.eqb_spec (Z.of_nat (length (h :: hs))) 0); [cbn in *; lia|]. by eexists _, _.
    + destruct hs; [done|]. unfold truth. cbn [length]. destruct (Z.eqb_spec (Z.of_nat (S (length hs))) 0); [lia|].
      by rewrite bool_decide_eq_false_2.
Qed.

(** The running thread of [busy] takes the lock, then gives it back. *)
Lemma rwlock_exclusion_witness :
  let l := RWLock (Some 3) 0 in let hs := [(3, EXCLUSIVE)] in
  (forall t, (t, EXCLUSIVE) ∈ hs -> hs = [(t, EXCLUSIVE)]) /\
  (forall t, rw_take EXCLUSIVE t l = None <-> hs <> []) /\
  (forall t, rw_take SHARED t l = None <-> exists t', (t', EXCLUSIVE) ∈ hs) /\
  (forall t m, (t, m) ∈ hs -> exists l' b, give_back t l = Ok (l', b)) /\
  rw_is_locked l = negb (bool_decide (hs = [])).
Proof.
  eapply (rwlock_exclusion 101). eapply (rw_next 101 new_rwlock [] SchedSafe.busy); [apply rw_new|vm_compute; reflexivity|].
  eapply (rw_locked 101 EXCLUSIVE new_rwlock [] SchedSafe.busy). reflexivity.
Defined.

(** ** Semaphores: at most [total] passes at a time *)

(** The clients: [taken] passes are out; a client signals when it is done with one. *)
Inductive sem_step (w : Z) : semaphore * Z * kernel -> semaphore * Z * kernel -> Prop :=
  | sem_passed us s n k s' k' : sem_wait w us s k = Ok (Done PASSED, s', k') -> sem_step w (s, n, k) (s', n + 1, k')
  | sem_blocked us s n k s' k' : sem_wait w us s k = Ok (Blocked, s', k') -> sem_step w (s, n, k) (s', n, k')
  | sem_checked b s n k s' k' : sem_check w s k = Ok (b, s', k') -> sem_step w (s, n, k) (s', n + b2z b, k')
  | sem_signalled b s n k s' k' : 0 < n -> sem_signal w s k = Ok (b, s', k') -> sem_step w (s, n, k) (s', n - 1, k')
  | sem_elsewhere s n k k' : sem_step w (s, n, k) (s, n, k').

Inductive sem_reach (w initial : Z) : semaphore -> Z -> kernel -> Prop :=
  | sem_new s k : new_semaphore initial = Ok s -> sem_reach w initial s 0 k
  | sem_next s n k s' n' k' : sem_reach w initial s n k -> sem_step w (s, n, k) (s', n', k') ->
      sem_reach w initial s' n' k'.

Lemma sem_wait_took w us s k r s' k' : sem_wait w us s k = Ok (r, s', k') ->
  count s <> 0 /\ r = Done PASSED /\ s' = take_one s \/ count s = 0 /\ r = Blocked /\ s' = s.
Proof.
  unfold sem_wait. destruct (lock w k) as [k1| |]; [|done|done]. cbn [obind]. unfold truth.
  destruct (Z.eqb_spec (count s) 0) as [Hc|Hc]; cbn [negb].
  - destruct (imp_wait w us k1); [|done|done]. intros [= <- <- _]. by right.
  - destruct (unlock w k1); [|done|done]. intros [= <- <- _]. by left.
Qed.

Lemma sem_check_took w s k b s' k' : sem_check w s k = Ok (b, s', k') ->
  b = truth (count s) /\ s' = if b then take_one s else s.
Proof.
  unfold sem_check. destruct (lock w k) as [k1| |]; [|done|done]. cbn [obind].
  destruct (unlock w k1); [|done|done]. cbn. by intros [= <- <- _].
Qed.

Lemma sem_signal_gave w s k b s' k' : sem_signal w s k = Ok (b, s', k') ->
  s' = Semaphore (total s) (Z.min (w32 (count s + 1)) (total s)).
Proof.
  unfold sem_signal. destruct (lock w k) as [k1| |]; [|done|done]. cbn [obind].
  destruct (wake_one_loop _ w k1) as [[r k2]| |]; [|done|done]. cbn [obind].
  destruct (unlock w k2); [|done|done]. cbn. by intros [= _ <- _].
Qed.

Definition sem_inv (initial : Z) (s : semaphore) (n : Z) : Prop :=
  total s = initial /\ 0 <= count s /\ 0 <= n /\ count s + n = total s.

Lemma take_one_inv initial s n : 0 < initial < 2 ^ 32 -> sem_inv initial s n -> count s <> 0 ->
  sem_inv initial (take_one s) (n + 1).
Proof.
  intros Hi (H1 & H2 & H3 & H4) Hc. unfold take_one, sem_inv. cbn. rewrite wrap32_small by lia. lia.
Qed.

Lemma sem_step_inv w initial s n k s' n' k' : 0 < initial < 2 ^ 32 - 1 -> sem_inv initial s n ->
  sem_step w (s, n, k) (s', n', k') -> sem_inv initial s' n'.
Proof.
  intros Hi Hv Hs. inversion Hs as [us ????? E|us ????? E|b ????? E|b ????? Hn E|]; subst; try done.
  - apply sem_wait_took in E as [(Hc & _ & ->)|(_ & [=] & _)]. apply take_one_inv; [lia|done|done].
  - apply sem_wait_took in E as [(_ & [=] & _)|(_ & _ & ->)]. done.
  - apply sem_check_took in E as [-> ->]. unfold truth.
    destruct (Z.eqb_spec (count s) 0); cbn; [by rewrite Z.add_0_r|]. apply take_one_inv; [lia|done|done].
  - apply sem_signal_gave in E as ->. destruct Hv as (H1 & H2 & H3 & H4). unfold sem_inv. cbn.
    rewrite wrap32_small by lia. lia.
Qed.

(** With clients that signal once for each pass, there are never more passes out than the semaphore
    was made for; the counter says how many are left, and whether an attempt passes or blocks. *)
Theorem semaphore_limit w initial s n k : 0 <= initial < 2 ^ 32 - 1 -> sem_reach w initial s n k ->
  0 <= n <= initial /\ count s = initial - n /\ total s = initial /\
  forall us r s' k', sem_wait w us s k = Ok (r, s', k') -> r = if n <? initial then Done PASSED else Blocked.
Proof.
  intros Hi Hr. assert (Hv : 0 < initial /\ sem_inv initial s n).
  { induction Hr as [s k E|s n k s' n' k' Hr [IH1 IH2] Hs].
    - unfold new_semaphore, truth in E. destruct (Z.eqb_spec initial 0); [done|]. injection E as <-.
      unfold sem_inv. cbn. lia.
    - split; [done|]. eapply (sem_step_inv w initial s n k); [lia|done|done]. }
  destruct Hv as (Hpos & H1 & H2 & H3 & H4). split; [lia|]. split; [lia|]. split; [done|].
  intros us r s' k' [(Hc & -> & _)|(Hc & -> & _)]%sem_wait_took.
  - rewrite (proj2 (Z.ltb_lt _ _)) by lia. done.
  - rewrite (proj2 (Z.ltb_ge _ _)) by lia. done.
Qed.

Lemma semaphore_limit_witness : 0 <= 1 <= 1 /\ count (Semaphore 1 0) = 1 - 1 /\ total (Semaphore 1 0) = 1 /\
  forall us r s' k', sem_wait 101 us (Semaphore 1 0) SchedSafe.busy = Ok (r, s', k') -> r = if 1 <? 1 then Done PASSED else Blocked.
Proof.
  apply (semaphore_limit 101 1 (Semaphore 1 0) 1 SchedSafe.busy); [lia|].
  eapply (sem_next _ _ (Semaphore 1 0) 1); [|apply sem_elsewhere].
  eapply (sem_next _ _ (Semaphore 1 1) 0 SchedSafe.busy); [by apply sem_new|].
  eapply (sem_passed 101 0 (Semaphore 1 1) 0 SchedSafe.busy). reflexivity.
Defined.

(** ** The objects and the scheduler *)

Inductive object := O_semaphore (s : semaphore) | O_event (state : Z) | O_rwlock (l : rwlock) | O_pipe (p : pipe).

Inductive sync_op :=
  | Sem_check | Sem_wait (us : Z) | Sem_signal
  | Event_wait (us : Z) | Signal_all | Reset
  | Try_lock (m : MODE) | Rw_lock (m : MODE) | Rw_unlock | Downgrade
  | Pipe_read (o : bool) (n : Z) | Pipe_write (o : bool) (sor : list Z) | Pipe_wait (o : bool) (us : Z).

Definition run_sync (w : Z) (c : sync_op) (x : object) (k : kernel) : outcome (object * kernel) :=
  match c, x with
  | Sem_check, O_semaphore s => let! (_, s, k) := sem_check w s k; Ok (O_semaphore s, k)
  | Sem_wait us, O_semaphore s => let! (_, s, k) := sem_wait w us s k; Ok (O_semaphore s, k)
  | Sem_signal, O_semaphore s => let! (_, s, k) := sem_signal w s k; Ok (O_semaphore s, k)
  | Event_wait us, O_event st => let! (_, k) := event_wait w us st k; Ok (O_event st, k)
  | Signal_all, O_event st => let! (_, st, k) := signal_all w k; Ok (O_event st, k)
  | Reset, O_event st => let! (st, k) := reset w k; Ok (O_event st, k)
  | Try_lock m, O_rwlock l => let! (_, l, k) := try_lock w m l k; Ok (O_rwlock l, k)
  | Rw_lock m, O_rwlock l => let! (_, l, k) := rw_lock w m l k; Ok (O_rwlock l, k)
  | Rw_unlock, O_rwlock l => let! (l, k) := rw_unlock w l k; Ok (O_rwlock l, k)
  | Downgrade, O_rwlock l => let! (l, k) := downgrade w l k; Ok (O_rwlock l, k)
  | Pipe_read o n, O_pipe p => let! (_, p, k) := pipe_read w o n p k; Ok (O_pipe p, k)
  | Pipe_write o sor, O_pipe p => let! (_, p, k) := pipe_write w o sor p k; Ok (O_pipe p, k)
  | Pipe_wait o us, O_pipe p => let! (_, k) := pipe_wait w us o p k; Ok (O_pipe p, k)
  | _, _ => Bug
  end.

(** The operation fits the object; a lock is given back by who holds it. *)
Definition suits (c : sync_op) (x : object) (k : kernel) : Prop :=
  match c, x with
  | (Sem_check | Sem_wait _ | Sem_signal), O_semaphore _ | (Event_wait _ | Signal_all | Reset), O_event _
  | (Try_lock _ | Rw_lock _), O_rwlock _ => True
  | (Pipe_read _ _ | Pipe_write _ _ | Pipe_wait _ _), O_pipe p => pipe_wf p
  | Rw_unlock, O_rwlock l => exists r, give_back (this_thread k) l = Ok r
  | Downgrade, O_rwlock l => is_null (owner l) = false /\ share_count l = 0
  | _, _ => False
  end.

(** The caller is a thread that may block on the object at [w]. *)
Definition may_block (idle w : Z) (k : kernel) : Prop :=
  in_irq k = false /\ this_thread k <> idle /\ SchedSafe.may_wait idle w k /\ threads k !! w = None /\
  0 <= Timer.conductor (timer k) < 2 ^ 64 - 1.

Section safe.
Context (idle w : Z) (k : kernel) (Hok : kernel_ok idle k) (Hb : may_block idle w k).

Lemma held_locked : lock w k = Ok (set_locked {[w]} k).
Proof. apply lock_empty, Hok. Qed.

Lemma held_released : unlock w (set_locked {[w]} k) = Ok k.
Proof.
  rewrite unlock_last by done. f_equal. change (set_locked ∅ k = k).
  rewrite <- (run_locked _ _ _ Hok) at 1. apply set_locked_id.
Qed.

Lemma held_blocks us : exists k', imp_wait w us (set_locked {[w]} k) = Ok k' /\ kernel_ok idle k'.
Proof.
  destruct Hb as (Hirq & Hid & (Hwt & Hwi & Hq & Hf) & Hno & Hcon).
  destruct (wait_ok idle k w us Hok Hirq Hid Hwt Hwi Hq) as (k' & E & Hk' & _); [congruence|done| |].
  - intros Q Hk (x & i & Hx & t & E & Hs). destruct Hf as [Hf|Hf]; [exact Hf|]. by destruct (Hf x t E).
  - unfold wait in E. rewrite held_locked in E. by exists k'.
Qed.

Lemma held_queue : is_Some (queues k !! Wait w).
Proof. by destruct Hb as (_ & _ & (_ & _ & ? & _) & _). Qed.

Lemma held_notifies : exists n k', notify w NOTIFY (set_locked {[w]} k) = Ok (n, k') /\ kernel_ok idle k'.
Proof.
  destruct (notify_all_ok idle k w Hok held_queue) as (n & k' & E & Hk' & _).
  unfold notify_all in E. rewrite held_locked in E. by exists n, k'.
Qed.

Lemma held_tells b : exists k', tell w b (set_locked {[w]} k) = Ok k' /\ kernel_ok idle k'.
Proof.
  unfold tell. destruct b.
  - destruct held_notifies as (n & k' & -> & Hk'). by exists k'.
  - exists k. split; [apply held_released|done].
Qed.

Lemma held_wakes : exists r k', wake_one_loop (fuel_of (set_locked {[w]} k)) w (set_locked {[w]} k) = Ok (r, k') /\
  exists k2, unlock w k' = Ok k2 /\ kernel_ok idle k2.
Proof.
  destruct (kernel_ok_open _ _ Hok) as (Q & t & Hk & Hl & E & Hs & Hw & Ht).
  set (k1 := set_locked {[w]} k). assert (Hk1 : kinv idle k1 Q {[this_thread k]}) by (by apply kinv_locked).
  assert (fuel_of k1 = S (size (threads k1) + 3)) as -> by (unfold fuel_of; lia). cbn [wake_one_loop].
  destruct (Q (Wait w)) as [|x l] eqn:El.
  - rewrite (get_empty idle k1 Q _ _ Hk1 held_queue El). cbn [obind]. eexists _, _. split; [done|].
    exists k. split; [apply held_released|done].
  - destruct (wake_front idle k1 Q _ w x l (fuel_of k) Hk1 held_queue El ltac:(unfold fuel_of; lia)) as (k2 & E2 & Hl2 & Hn).
    rewrite E2. cbn [obind]. assert (Hxw : x <> w).
    { intros ->. apply (ki_self _ _ _ _ Hk w). rewrite El. by left. }
    assert (Hf2 : fuel_of k2 = fuel_of k).
    { destruct (get_ok idle k1 Q _ (Wait w) x l Hk1 held_queue El) as (k2' & E2' & _ & Hr & _). rewrite E2 in E2'.
      injection E2' as <-. unfold fuel_of. f_equal. by rewrite (relinked_size k1 k2 Hr). }
    destruct (Hn {[w]}) as (k3 & Q3 & E3 & Hk3 & Hr3 & Hl3 & Hc3); [by rewrite not_elem_of_singleton|].
    replace (set_locked {[w]} k2) with k2 in E3 by (destruct k2; cbn in Hl2; by subst).
    rewrite Hf2, E3. cbn [obind]. change (1 =? 0) with false. cbn [ensure]. eexists _, k3. split; [done|].
    rewrite unlock_last by done. eexists. split; [done|].
    destruct (Hc3 _ _ E) as (t3 & Et3 & Hth); [congruence|].
    destruct (set_next_fields _ _ Hth) as (F1 & _). destruct (set_next_wait _ _ Hth Hw Ht) as [F3 F4].
    assert (Hth3 : this_thread k3 = this_thread k) by exact (proj1 Hr3).
    apply (kernel_ok_intro _ _ Q3 t3); cbn; rewrite ?Hth3; try done; [by apply kinv_locked|congruence].
Qed.
End safe.

(** Every operation of a semaphore, event, reader-writer lock or pipe, whether it passes or blocks,
    succeeds and keeps the scheduler's invariant. *)
Theorem sync_safe idle w c x k : kernel_ok idle k -> may_block idle w k -> suits c x k ->
  exists x' k', run_sync w c x k = Ok (x', k') /\ kernel_ok idle k'.
Proof.
  intros Hok Hb Hs. pose proof (held_locked idle w k Hok) as Hlk. pose proof (held_released idle w k Hok) as Hul.
  pose proof (held_blocks idle w k Hok Hb) as Hbl. destruct (held_notifies idle w k Hok Hb) as (nn & kn & Hn & Hkn).
  destruct c, x; try done; cbn [run_sync suits] in *.
  - unfold sem_check. rewrite Hlk. cbn [obind]. rewrite Hul. cbn [obind]. eauto.
  - unfold sem_wait. rewrite Hlk. cbn [obind]. destruct (truth _).
    + rewrite Hul. cbn [obind]. eauto.
    + destruct (Hbl us) as (k' & -> & Hk'). cbn [obind]. eauto.
  - unfold sem_signal. rewrite Hlk. cbn [obind].
    destruct (held_wakes idle w k Hok Hb) as (r & k1 & -> & k2 & E2 & Hk2). cbn [obind]. rewrite E2. cbn [obind]. eauto.
  - unfold event_wait. destruct (truth _); cbn [obind]; [eauto|].
    unfold wait. rewrite Hlk. cbn [obind]. destruct (Hbl us) as (k' & -> & Hk'). cbn [obind]. eauto.
  - unfold signal_all. rewrite Hlk. cbn [obind]. rewrite Hn. cbn [obind]. eauto.
  - unfold reset. rewrite Hlk. cbn [obind]. rewrite Hul. cbn [obind]. eauto.
  - unfold try_lock. rewrite Hlk. cbn [obind]. rewrite Hul. cbn [obind]. destruct (rw_take _ _ _); cbn [obind]; eauto.
  - unfold rw_lock. rewrite Hlk. cbn [obind]. destruct (rw_take _ _ _).
    + rewrite Hul. cbn [obind]. eauto.
    + destruct (Hbl 0) as (k' & -> & Hk'). cbn [obind]. eauto.
  - unfold rw_unlock. rewrite Hlk. cbn [obind]. change (this_thread (set_locked {[w]} k)) with (this_thread k).
    destruct Hs as [[l' b] ->]. cbn [obind]. destruct b; [rewrite Hn|rewrite Hul]; cbn [obind]; eauto.
  - unfold downgrade. rewrite Hlk. cbn [obind]. destruct Hs as [-> ->]. cbn [negb andb Z.eqb ensure obind].
    rewrite Hn. cbn [obind]. eauto.
  - unfold pipe_read. rewrite Hlk. cbn [obind]. destruct (pipe_step_spec p (Read o n) Hs) as (a & p' & E & _).
    cbn [pipe_step] in E. destruct (read o n p) as [[[data b] p1]| |]; [|done|done]. cbn [obind].
    destruct (held_tells idle w k Hok Hb b) as (k' & -> & Hk'). cbn [obind]. eauto.
  - unfold pipe_write. rewrite Hlk. cbn [obind]. destruct (pipe_step_spec p (Write o sor) Hs) as (a & p' & E & _).
    cbn [pipe_step] in E. destruct (write o sor p) as [[[n b] p1]| |]; [|done|done]. cbn [obind].
    destruct (held_tells idle w k Hok Hb b) as (k' & -> & Hk'). cbn [obind]. eauto.
  - unfold pipe_wait. rewrite Hlk. cbn [obind]. destruct (pipe_check o p).
    + rewrite Hul. cbn [obind]. eauto.
    + destruct (Hbl us) as (k' & -> & Hk'). cbn [obind]. eauto.
Qed.

(** A semaphore at 101 with nothing left: the running thread joins the two that wait. *)
Lemma sync_safe_witness : exists x' k', run_sync 101 (Sem_wait 0) (O_semaphore (Semaphore 1 0)) SchedSafe.busy = Ok (x', k') /\
  kernel_ok 1 k'.
Proof.
  apply (sync_safe 1 101 (Sem_wait 0) (O_semaphore (Semaphore 1 0)) SchedSafe.busy SchedSafe.busy_ok); [|exact I].
  split; [reflexivity|]. split; [discriminate|]. split; [|split; [reflexivity|vm_compute; done]].
  split; [discriminate|]. split; [discriminate|]. split; [by vm_compute; eexists|]. left.
  split; [discriminate|]. intros t E. vm_compute in E. discriminate E.
Defined.
End SyncThm.
