(* ===== verification/Crt.v ===== *)
(** * The C run-time of applications (src/app/libuos/uoscrt.cpp)

    Character classes, strings, numbers from and to text, formatted output into a buffer and the buffered
    streams.  A pointer into a string is the list of the bytes from it to the end of its object; reading
    past that end is an error. *)

From S2P Require Import Prelude.

Module Crt.

(** ** Characters *)

Definition isspace (ch : Z) : bool :=
  (ch =? 0x9) || (ch =? 0xA) || (ch =? 0xB) || (ch =? 0xC) || (ch =? 0xD) || (ch =? 0x20).
Definition isupper (ch : Z) : bool := (65 <=? ch) && (ch <=? 90).
Definition islower (ch : Z) : bool := (97 <=? ch) && (ch <=? 122).
(** [ch & ~0x20]. *)
Definition fold (ch : Z) : Z := Z.ldiff ch 0x20.
Definition isalpha (ch : Z) : bool := let ch := fold ch in (65 <=? ch) && (ch <=? 90).
Definition isdigit (ch : Z) : bool := (48 <=? ch) && (ch <=? 57).
Definition isxdigit (ch : Z) : bool :=
  if isdigit ch then true else let ch := fold ch in (65 <=? ch) && (ch <=? 70).
Definition isalnum (ch : Z) : bool := isalpha ch || isdigit ch.
Definition ispunct (ch : Z) : bool :=
  existsb (Z.eqb ch) [33; 34; 35; 36; 37; 38; 39; 40; 41; 42; 43; 44; 45; 46; 47; 58; 59; 60; 61; 62; 63; 64;
    91; 92; 93; 94; 95; 96; 123; 124; 125; 126].
Definition isprint (ch : Z) : bool := isalnum ch || ispunct ch || (ch =? 32).

(** [*str] and [*str++]. *)
Definition at_ptr (str : list Z) : outcome Z := deref (hd_error str).
Definition next_ch (str : list Z) : outcome (Z * list Z) :=
  match str with [] => Bug | ch :: str => Ok (ch, str) end.

(** ** Strings *)

Fixpoint strlen (str : list Z) : outcome Z :=
  match str with
  | [] => Bug
  | ch :: str => if truth ch then let! n := strlen str; Ok (n + 1) else Ok 0
  end.

Fixpoint strstr_loop (substr pos cmp str : list Z) {struct str} : outcome (option (list Z)) :=
  let! c := at_ptr cmp;
  if c =? 0 then Ok (Some pos)
  else
    match str with
    | [] => Bug
    | ch :: str =>
        if ch =? 0 then Ok None
        else if negb (c =? ch) then strstr_loop substr str substr str
        else strstr_loop substr pos (tl cmp) str
    end.

(** The result is the pointer, as a list, or null. *)
Definition strstr (str substr : list Z) : outcome (option (list Z)) := strstr_loop substr str substr str.

Fixpoint strcmp (a b : list Z) : outcome Z :=
  match a, b with
  | x :: a, y :: b => if truth x && truth y && (x =? y) then strcmp a b else Ok (x - y)
  | _, _ => Bug
  end.

(** ** Numbers from text *)

Definition hex2bin (ch : Z) : Z :=
  if (48 <=? ch) && (ch <=? 57) then w8 (ch - 48)
  else
    let ch := fold ch in
    if (65 <=? ch) && (ch <=? 70) then w8 (ch - 65 + 0x0A) else 0xFF.

Fixpoint skip_space (str : list Z) : outcome (list Z) :=
  match str with
  | [] => Bug
  | ch :: rest => if truth ch && isspace ch then skip_space rest else Ok str
  end.

Fixpoint digits_loop (base val : Z) (str : list Z) : outcome (Z * list Z) :=
  match str with
  | [] => Bug
  | ch :: rest =>
      if truth ch then
        let digit := hex2bin ch in
        if base <=? digit then Ok (val, str) else digits_loop base (w64 (val * base + digit)) rest
      else Ok (val, str)
  end.

(** [*str == '0' && (~0x20 & *(str+1)) == 'X']. *)
Definition prefix_0x (str : list Z) : outcome bool :=
  let! c := at_ptr str;
  if c =? 48 then let! d := at_ptr (tl str); Ok (fold d =? 88) else Ok false.

Definition strtoull (str : list Z) (base : Z) : outcome (Z * list Z) :=
  let! str := skip_space str;
  let! c := at_ptr str;
  let! x := prefix_0x str;
  let base := if base =? 0 then (if c =? 48 then if x then 0x10 else 8 else 10) else base in
  let str := if (base =? 0x10) && x then tl (tl str) else str in
  digits_loop base 0 str.

Definition strtoul (str : list Z) (base : Z) : outcome (Z * list Z) :=
  let! (result, rest) := strtoull str base;
  let limit := 2 ^ 32 - 1 in
  Ok (if limit <? result then limit else result, rest).

(** ** Formatted output *)

Definition hexchar (i : Z) : Z := if i <? 10 then 48 + i else 55 + i.

(** [parse_size]: 0, or the size of the operand, with the conversion and the rest of the format. *)
Definition is_conv (ch : Z) : bool :=
  let c := fold ch in (c =? 79) || (c =? 68) || (c =? 73) || (c =? 88) || (c =? 85).

Definition parse_size (format : list Z) (ch : Z) : outcome (Z * Z * list Z) :=
  let c := fold ch in
  if negb ((c =? 72) || (c =? 76)) then Ok (4, ch, format)
  else
    let operand_size := if c =? 72 then 2 else 4 in
    let! (nxt, format) := next_ch format;
    let n := fold nxt in
    if is_conv nxt then Ok (operand_size, nxt, format)
    else if negb ((n =? 72) || (n =? 76)) then Ok (0, ch, format)
    else
      let operand_size := if n =? 72 then 1 else 8 in
      if negb (fold (Z.lxor ch nxt) =? 0) then Ok (0, ch, format)
      else
        let! (ch, format) := next_ch format;
        Ok (if is_conv ch then operand_size else 0, ch, format).

(** What is passed for the dots: an integer or pointer in its 64 bits, or a string or null. *)
Inductive arg := A_int (v : Z) | A_str (s : option (list Z)).

Definition va_int (args : list arg) : outcome (Z * list arg) :=
  match args with A_int v :: args => Ok (v, args) | _ => Bug end.
Definition va_str (args : list arg) : outcome (option (list Z) * list arg) :=
  match args with A_str s :: args => Ok (s, args) | _ => Bug end.

(** A value of [w] bits, read as signed. *)
Definition signed (w v : Z) : Z := let v := wrap w v in if v <? 2 ^ (w - 1) then v else v - 2 ^ w.

(** The digits of [val], the last one first. *)
Fixpoint to_digits (fuel : nat) (lower : bool) (base val : Z) : outcome (list Z) :=
  if val =? 0 then Ok []
  else
    match fuel with
    | O => NoFuel
    | S fuel =>
        let c := hexchar (val mod base) in
        let c := if lower && truth (Z.land c 0x40) then Z.lor c 0x20 else c in
        let! l := to_digits fuel lower base (val / base);
        Ok (c :: l)
    end.

Section printf.
(** The state of [func], which says whether to go on. *)
Context {T : Type} (func : Z -> T -> outcome (bool * T)).

Fixpoint put_all (cs : list Z) (s : T) : outcome (bool * T) :=
  match cs with
  | [] => Ok (true, s)
  | c :: cs => let! (b, s) := func c s; if b then put_all cs s else Ok (false, s)
  end.

Fixpoint put_str (str : list Z) (s : T) : outcome (bool * T) :=
  match str with
  | [] => Bug
  | c :: str =>
      if truth c then let! (b, s) := func c s; if b then put_str str s else Ok (false, s)
      else Ok (true, s)
  end.

(** The 16 digits of a pointer. *)
Definition pointer_digits (ptr : Z) : list Z :=
  (fun i => hexchar (Z.land (Z.shiftr ptr (60 - 4 * i)) 0x0F)) <$> seqZ 0 16.

(** How a directive ends: the next character is read, [ch] is put first, or the whole call ends. *)
Inductive directive := Next | Put (ch : Z) | End (res : bool).

Definition put_number (format : list Z) (ch : Z) (args : list arg) (s : T)
  : outcome (directive * list Z * list arg * T) :=
  let! (size, ch, format) := parse_size format ch;
  let is_signed := (fold ch =? 68) || (fold ch =? 73) in
  if size =? 0 then Ok (End false, format, args, s)
  else
    let! (v, args) := va_int args;
    let w := if size =? 8 then 64 else 32 in
    let val := if is_signed then signed w v else wrap w v in
    let! (b, s) := (if is_signed && (val <? 0) then func 45 s else Ok (true, s));
    if negb b then Ok (End true, format, args, s)
    else
      let val := if is_signed && (val <? 0) then w64 (- val) else val in
      if val =? 0 then Ok (Put 48, format, args, s)
      else
        let base := if fold ch =? 88 then 16 else if fold ch =? 79 then 8 else 10 in
        let! buffer := to_digits 0x20 (ch =? 120) base val;
        let! (b, s) := put_all (rev buffer) s;
        Ok (if b then Next else End true, format, args, s).

Definition null_text : list Z := [40; 110; 117; 108; 108; 41; 0].

(** What follows a percent sign. *)
Definition put_directive (format : list Z) (args : list arg) (s : T)
  : outcome (directive * list Z * list arg * T) :=
  let! (ch, format) := next_ch format;
  let c := fold ch in
  if ch =? 0 then Ok (End true, format, args, s)
  else if c =? 67 then let! (v, args) := va_int args; Ok (Put (w8 v), format, args, s)
  else if c =? 83 then
    let! (str, args) := va_str args;
    let! (b, s) := put_str (default null_text str) s;
    Ok (if b then Next else End true, format, args, s)
  else if c =? 80 then
    let! (v, args) := va_int args;
    let! (b, s) := put_all (pointer_digits v) s;
    Ok (if b then Next else End true, format, args, s)
  else if (c =? 72) || (c =? 76) || is_conv ch then put_number format ch args s
  else Ok (End false, format, args, s).

Fixpoint printf_loop (fuel : nat) (format : list Z) (args : list arg) (s : T) : outcome (bool * T) :=
  match fuel with
  | O => NoFuel
  | S fuel =>
      let! (ch, format) := next_ch format;
      if ch =? 0 then Ok (true, s)
      else
        let! (d, format, args, s) :=
          (if ch =? 37 then put_directive format args s else Ok (Put ch, format, args, s));
        match d with
        | Next => printf_loop fuel format args s
        | End res => Ok (res, s)
        | Put ch =>
            let! (b, s) := func ch s;
            if b then printf_loop fuel format args s else Ok (true, s)
        end
  end.

Definition imp_printf (format : list Z) (args : list arg) (s : T) : outcome (bool * T) :=
  printf_loop (S (length format)) format args s.
End printf.

(** Writing [buffer[i]]. *)
Definition store (i v : Z) (buffer : list Z) : outcome (list Z) :=
  assert! (0 <=? i) && (i <? Z.of_nat (length buffer)); Ok (<[Z.to_nat i := v]> buffer).

(** The function [snprintf] hands to [imp_printf]; its state is the buffer and [count]. *)
Definition put_buffer (limit : Z) (ch : Z) (s : list Z * Z) : outcome (bool * (list Z * Z)) :=
  let (buffer, count) := s in
  if limit <=? w32 (count + 1) then Ok (false, s)
  else let! buffer := store count ch buffer; Ok (true, (buffer, w32 (count + 1))).

Definition snprintf (buffer : list Z) (limit : Z) (format : list Z) (args : list arg) : outcome (Z * list Z) :=
  if limit =? 0 then Ok (-1, buffer)
  else
    let! (res, s) := imp_printf (put_buffer limit) format args (buffer, 0);
    let (buffer, count) := s in
    let! buffer := (if count <? limit then store count 0 buffer else Ok buffer);
    Ok (if res then count else -1, buffer).
End Crt.

Module CrtThm.
Import Crt.

(** ** Numbers: what is printed is read back *)

(** The digits of [seqZ 0 16], in both cases of the letters. *)
Definition digit_char (lower : bool) (d : Z) : Z :=
  let c := hexchar d in if lower && truth (Z.land c 0x40) then Z.lor c 0x20 else c.

Lemma digit_char_ok lower d : 0 <= d < 16 ->
  truth (digit_char lower d) = true /\ hex2bin (digit_char lower d) = d /\
  isspace (digit_char lower d) = false /\ (digit_char lower d = 48 -> d = 0).
Proof.
  intros Hd. assert (Hall : Forall (fun d => truth (digit_char lower d) = true /\ hex2bin (digit_char lower d) = d /\
    isspace (digit_char lower d) = false /\ (digit_char lower d = 48 -> d = 0)) (seqZ 0 16)).
  { destruct lower; apply (bool_decide_unpack _); vm_compute; exact I. }
  rewrite Forall_forall in Hall. apply Hall. apply elem_of_seqZ. lia.
Qed.

Lemma to_digits_ok lower base : 8 <= base <= 16 -> forall fuel val, 0 <= val < base ^ Z.of_nat fuel ->
  exists l, to_digits fuel lower base val = Ok l /\
    (0 < val -> exists d l', rev l = digit_char lower d :: l' /\ 0 < d < base) /\ (val = 0 -> l = []) /\
    forall a s, 0 <= a < 2 ^ 64 ->
      digits_loop base a (rev l ++ s) = digits_loop base (w64 (a * base ^ Z.of_nat (length l) + val)) s.
Proof.
  intros Hb. assert (Hzero : forall a s, 0 <= a < 2 ^ 64 ->
      digits_loop base a (rev [] ++ s) = digits_loop base (w64 (a * base ^ Z.of_nat (length ([] : list Z)) + 0)) s).
  { intros a s Ha. cbn [rev app length]. change (base ^ Z.of_nat 0) with 1. unfold wrap. rewrite Z.mod_small by lia.
    f_equal. lia. }
  induction fuel as [|fuel IH]; intros val Hv; cbn [to_digits].
  - change (base ^ Z.of_nat 0) with 1 in Hv. assert (val = 0) as -> by lia. exists [].
    split; [done|]. split; [lia|]. split; [done|exact Hzero].
  - destruct (Z.eqb_spec val 0) as [->|Hne].
    { exists []. split; [done|]. split; [lia|]. split; [done|exact Hzero]. }
    destruct (IH (val / base)) as (l & El & Hlead & Hnil & Hl).
    { rewrite Nat2Z.inj_succ, Z.pow_succ_r in Hv by lia. split; [apply Z.div_pos; lia|].
      apply Z.div_lt_upper_bound; lia. }
    fold (digit_char lower (val mod base)). rewrite El. cbn [obind].
    pose proof (Z.mod_pos_bound val base ltac:(lia)) as Hm.
    pose proof (Z.div_mod val base ltac:(lia)) as Hdm.
    destruct (digit_char_ok lower (val mod base) ltac:(lia)) as (Ht & Hx & Hsp & Hz).
    eexists. split; [done|]. split; [|split; [lia|]].
    + intros _. cbn [rev]. destruct (Z.eq_dec (val / base) 0) as [Hq|Hq].
      * rewrite (Hnil Hq). cbn. exists (val mod base), []. split; [done|]. rewrite Hq in Hdm. lia.
      * destruct Hlead as (d & l' & -> & Hd).
        { assert (0 <= val / base) by (apply Z.div_pos; lia). lia. }
        exists d, (l' ++ [digit_char lower (val mod base)]). done.
    + intros a s Ha. cbn [rev]. rewrite <- app_assoc, Hl by done. cbn [app digits_loop]. rewrite Ht, Hx.
      rewrite (proj2 (Z.leb_gt _ _)) by lia. f_equal. unfold wrap. cbn [length].
      rewrite Nat2Z.inj_succ, Z.pow_succ_r by lia.
      rewrite (Z.add_mod (_ mod _ * base)), (Z.mul_mod_idemp_l _ base), <- Z.add_mod by lia.
      f_equal. rewrite Hdm at 3. ring.
Qed.

Lemma pow_22 base : 8 <= base -> 2 ^ 64 <= base ^ Z.of_nat 0x20.
Proof.
  intros Hb. change (Z.of_nat 0x20) with 32. transitivity (8 ^ 32); [vm_compute; discriminate|].
  apply Z.pow_le_mono_l. lia.
Qed.

(** Output that is kept. *)
Definition collect (ch : Z) (s : list Z) : outcome (bool * list Z) := Ok (true, s ++ [ch]).

Lemma put_all_collect cs s : put_all collect cs s = Ok (true, s ++ cs).
Proof.
  revert s. induction cs as [|c cs IH]; intros s; cbn; [by rewrite app_nil_r|].
  rewrite IH. by rewrite <- app_assoc.
Qed.

(** The unsigned conversions and their bases. *)
Definition conversions : list (Z * Z) := [(117, 10); (88, 16); (120, 16); (111, 8)].

(** Closed characters are folded. *)
Ltac reduce_fold := match goal with
  | |- context [fold ?x] => let v := eval vm_compute in (fold x) in
      lazymatch v with Zpos _ => idtac | Z0 => idtac end; change (fold x) with v
  end.

(** C40. A number of 64 bits printed in decimal, hexadecimal (in either case) or octal is what [strtoull]
    reads back in that base, and it stops where the digits end. *)
Theorem print_parse n conv base : 0 <= n < 2 ^ 64 -> (conv, base) ∈ conversions ->
  exists text, imp_printf collect [37; 108; 108; conv; 0] [A_int n] [] = Ok (true, text) /\
    forall rest, strtoull (text ++ 0 :: rest) base = Ok (n, 0 :: rest).
Proof.
  intros Hn Hc.
  assert (Hb : 8 <= base <= 16 /\ base <> 0).
  { repeat (apply elem_of_cons in Hc as [[= -> ->]|Hc]; [lia|]). by apply elem_of_nil in Hc. }
  (* the directive asks for the digits in the base *)
  assert (Hform : put_directive collect [108; 108; conv; 0] [A_int n] [] =
    (let! (r, s) := (if n =? 0 then Ok (Put 48, []) else
       let! buffer := to_digits 0x20 (conv =? 120) base n; Ok (Next, rev buffer)); Ok (r, [0], [], s))).
  { assert (Hw : w64 n = n) by (unfold wrap; by apply Z.mod_small).
    repeat (apply elem_of_cons in Hc as [[= -> ->]|Hc]; [|]); [..|by apply elem_of_nil in Hc].
    all: unfold put_directive; cbn [next_ch obind]; unfold put_number, parse_size, is_conv; cbn -[wrap to_digits fold];
      repeat (reduce_fold; cbn -[wrap to_digits fold Z.add]); rewrite Hw;
      destruct (n =? 0); [done|]; destruct (to_digits _ _ _ _); [|done|done]; cbn [obind];
      rewrite put_all_collect; done. }
  unfold imp_printf. cbn [length printf_loop next_ch obind]. change (37 =? 0) with false. change (37 =? 37) with true.
  rewrite Hform. destruct (Z.eqb_spec n 0) as [->|Hnz].
  - cbn. eexists. split; [done|]. intros rest.
    repeat (apply elem_of_cons in Hc as [[= -> ->]|Hc]; [reflexivity|]). by apply elem_of_nil in Hc.
  - destruct (to_digits_ok (conv =? 120) base ltac:(lia) 0x20 n) as (l & -> & Hlead & _ & Hl).
    { pose proof (pow_22 base ltac:(lia)). lia. }
    destruct (Hlead ltac:(lia)) as (d & l' & El & Hd). cbn [obind]. cbn [printf_loop next_ch obind].
    exists (rev l). split; [by rewrite El|]. intros rest.
    destruct (digit_char_ok (conv =? 120) d ltac:(lia)) as (Ht & _ & Hsp & H48).
    specialize (Hl 0 (0 :: rest) ltac:(lia)). unfold strtoull. rewrite El in *. cbn [app skip_space].
    rewrite Ht, Hsp. cbn [andb obind at_ptr hd_error deref]. unfold prefix_0x. cbn [at_ptr hd_error deref obind].
    destruct (Z.eqb_spec (digit_char (conv =? 120) d) 48) as [H0|_]; [lia|]. cbn [obind].
    rewrite (proj2 (Z.eqb_neq _ _)) by lia. rewrite andb_false_r. cbn [app] in Hl. rewrite Hl. cbn.
    unfold wrap. rewrite Z.mod_small by lia. done.
Qed.

Lemma print_parse_witness : exists text, imp_printf collect [37; 108; 108; 120; 0] [A_int 48879] [] = Ok (true, text) /\
  forall rest, strtoull (text ++ 0 :: rest) 16 = Ok (48879, 0 :: rest).
Proof. apply (print_parse 48879 120 16); [lia|]. apply list_elem_of_In. vm_compute. tauto. Defined.

(** ** Output into a buffer *)

Section truncate.
Context (limit : Z) (buffer : list Z) (Hlim : 0 < limit < 2 ^ 32) (Hbuf : limit <= Z.of_nat (length buffer)).

(** The text so far fits, and is in the buffer; or it does not, and a part of it is. *)
Definition fits (text : list Z) (s : list Z * Z) : Prop :=
  Z.of_nat (length text) < limit /\ s = (text ++ List.skipn (length text) buffer, Z.of_nat (length text)).

Definition full (text : list Z) (s : list Z * Z) : Prop :=
  limit <= Z.of_nat (length text) /\ fits (take (Z.to_nat (limit - 1)) text) s.

Lemma full_more text more s : full text s -> full (text ++ more) s.
Proof.
  intros [Hl Hf]. split; [rewrite length_app; lia|]. rewrite take_app_le by lia. done.
Qed.

Lemma put_buffer_ok ch text s : fits text s -> exists b s', put_buffer limit ch s = Ok (b, s') /\
  if b then fits (text ++ [ch]) s' else full (text ++ [ch]) s'.
Proof.
  intros [Hl ->]. unfold put_buffer. unfold wrap. rewrite Z.mod_small by lia.
  destruct (Z.leb_spec limit (Z.of_nat (length text) + 1)) as [H|H].
  - eexists _, _. split; [done|]. split; [rewrite length_app; cbn; lia|].
    rewrite take_app_le by lia. rewrite take_ge by lia. done.
  - unfold store. rewrite length_app, length_skipn.
    rewrite (proj2 (Z.leb_le _ _)), (proj2 (Z.ltb_lt _ _)) by lia. cbn [andb ensure obind].
    eexists _, _. split; [done|]. split; [rewrite length_app; cbn; lia|].
    rewrite length_app. cbn [length]. f_equal; [|lia]. rewrite Nat2Z.id.
    rewrite insert_app_r_alt, Nat.sub_diag by lia. rewrite <- app_assoc. f_equal.
    destruct (List.skipn (length text) buffer) as [|x rest] eqn:E.
    + apply (f_equal length) in E. rewrite length_skipn in E. cbn in E. lia.
    + cbn. f_equal. rewrite Nat.add_comm. rewrite <- skipn_skipn, E. done.
Qed.

Lemma put_all_fits cs : forall text s, fits text s -> exists b s', put_all (put_buffer limit) cs s = Ok (b, s') /\
  if b then fits (text ++ cs) s' else full (text ++ cs) s'.
Proof.
  induction cs as [|c cs IH]; intros text s Hf; cbn [put_all].
  - exists true, s. split; [done|]. by rewrite app_nil_r.
  - destruct (put_buffer_ok c text s Hf) as (b & s1 & -> & H1). cbn [obind]. destruct b.
    + destruct (IH _ _ H1) as (b & s2 & -> & H2). exists b, s2. split; [done|]. by rewrite <- app_assoc in H2.
    + exists false, s1. split; [done|]. apply (full_more _ cs) in H1. by rewrite <- app_assoc in H1.
Qed.

Lemma put_str_fits str : forall text s b text', put_str collect str text = Ok (b, text') -> fits text s ->
  b = true /\ exists b s', put_str (put_buffer limit) str s = Ok (b, s') /\ if b then fits text' s' else full text' s'.
Proof.
  induction str as [|c str IH]; intros text s b text' E Hf; cbn [put_str] in *; [done|].
  destruct (truth c).
  - cbn [collect obind] in E. destruct (put_buffer_ok c text s Hf) as (b1 & s1 & -> & H1). cbn [obind]. destruct b1.
    + by apply (IH _ _ _ _ E).
    + assert (exists more, text' = (text ++ [c]) ++ more /\ b = true) as (more & -> & ->).
      { clear -E. revert E. generalize (text ++ [c]) as t. induction str as [|d str IH]; intros t E; cbn in E; [done|].
        destruct (truth d); [|injection E as <- <-; exists []; by rewrite app_nil_r].
        destruct (IH _ E) as (more & -> & ->). exists (d :: more). by rewrite <- app_assoc. }
      split; [done|]. exists false, s1. split; [done|]. by apply full_more.
  - injection E as <- <-. split; [done|]. by exists true, s.
Qed.
End truncate.

(** What [collect] keeps grows. *)
Lemma put_number_more format ch args text r f a text' : put_number collect format ch args text = Ok (r, f, a, text') ->
  exists more, text' = text ++ more.
Proof.
  unfold put_number. destruct (parse_size format ch) as [[[size c] fmt]| |]; [|done|done]. cbn [obind].
  destruct (size =? 0); [intros [= _ _ _ <-]; exists []; by rewrite app_nil_r|].
  destruct (va_int args) as [[v a1]| |]; [|done|done]. cbn [obind].
  destruct (_ && _); cbn [collect obind negb].
  - destruct (w64 _ =? 0); [intros [= _ _ _ <-]; by eexists|].
    destruct (to_digits _ _ _ _) as [l| |]; [|done|done]. cbn [obind]. rewrite put_all_collect. cbn [obind].
    intros [= _ _ _ <-]. rewrite <- app_assoc. by eexists.
  - destruct (_ =? 0); [intros [= _ _ _ <-]; exists []; by rewrite app_nil_r|].
    destruct (to_digits _ _ _ _) as [l| |]; [|done|done]. cbn [obind]. rewrite put_all_collect. cbn [obind].
    intros [= _ _ _ <-]. by eexists.
Qed.

Lemma put_str_more str text b text' : put_str collect str text = Ok (b, text') -> exists more, text' = text ++ more.
Proof.
  revert text. induction str as [|c str IH]; intros text; cbn [put_str]; [done|].
  destruct (truth c); cbn [collect obind].
  - intros (more & ->)%IH. rewrite <- app_assoc. by eexists.
  - intros [= _ <-]. exists []. by rewrite app_nil_r.
Qed.

Lemma put_directive_more format args text r f a text' : put_directive collect format args text = Ok (r, f, a, text') ->
  exists more, text' = text ++ more.
Proof.
  assert (Hsame : exists more, text = text ++ more) by (exists []; by rewrite app_nil_r).
  unfold put_directive. destruct (next_ch format) as [[ch fmt]| |]; [|done|done]. cbn [obind].
  destruct (ch =? 0); [by intros [= _ _ _ <-]|].
  destruct (fold ch =? 67).
  { destruct (va_int args) as [[v a1]| |]; [|done|done]. cbn [obind]. by intros [= _ _ _ <-]. }
  destruct (fold ch =? 83).
  { destruct (va_str args) as [[o a1]| |]; [|done|done]. cbn [obind].
    destruct (put_str collect _ text) as [[b t]| |] eqn:E; [|done|done]. cbn [obind]. intros [= _ _ _ <-].
    by eapply put_str_more. }
  destruct (fold ch =? 80).
  { destruct (va_int args) as [[v a1]| |]; [|done|done]. cbn [obind]. rewrite put_all_collect. cbn [obind].
    intros [= _ _ _ <-]. by eexists. }
  destruct (_ || _); [apply put_number_more|]. by intros [= _ _ _ <-].
Qed.

Lemma printf_loop_more fuel : forall format args text res text',
  printf_loop collect fuel format args text = Ok (res, text') -> exists more, text' = text ++ more.
Proof.
  assert (Hsame : forall text : list Z, exists more, text = text ++ more) by (intros; exists []; by rewrite app_nil_r).
  induction fuel as [|fuel IH]; intros format args text res text'; cbn [printf_loop]; [done|].
  destruct (next_ch format) as [[ch fmt]| |]; [|done|done]. cbn [obind].
  destruct (ch =? 0); [by intros [= _ <-]|]. destruct (ch =? 37).
  - destruct (put_directive collect fmt args text) as [[[[d f] a] t]| |] eqn:E; [|done|done]. cbn [obind].
    destruct (put_directive_more _ _ _ _ _ _ _ E) as (m1 & ->). destruct d as [|c|b]; cbn [collect obind].
    + intros (m2 & ->)%IH. rewrite <- app_assoc. by eexists.
    + intros (m2 & ->)%IH. rewrite <- !app_assoc. by eexists.
    + intros [= _ <-]. by eexists.
  - cbn [collect obind]. intros (m2 & ->)%IH. rewrite <- app_assoc. by eexists.
Qed.

Section bounded.
Context (limit : Z) (buffer : list Z) (Hlim : 0 < limit < 2 ^ 32) (Hbuf : limit <= Z.of_nat (length buffer)).
#[local] Abbreviation fits := (fits limit buffer).
#[local] Abbreviation full := (full limit buffer).

(** A directive into the buffer ends as it does when everything is kept, or the buffer is full. *)
Definition same_directive (r : directive) (f : list Z) (a : list arg) (text' : list Z)
  (m : outcome (directive * list Z * list arg * (list Z * Z))) : Prop :=
  (exists s', m = Ok (r, f, a, s') /\ fits text' s') \/
  (exists f' a' s', m = Ok (End true, f', a', s') /\ full text' s').

Lemma put_all_directive cs f a text s : fits text s ->
  same_directive Next f a (text ++ cs)
    (let! (b, s) := put_all (put_buffer limit) cs s; Ok (if b then Next else End true, f, a, s)).
Proof.
  intros Hf. destruct (put_all_fits limit buffer Hlim Hbuf cs text s Hf) as (b & s' & -> & H). cbn [obind].
  destruct b; [left; by exists s'|right; by eexists _, _, s'].
Qed.

Lemma put_number_same format ch args text s r f a text' :
  put_number collect format ch args text = Ok (r, f, a, text') -> fits text s ->
  same_directive r f a text' (put_number (put_buffer limit) format ch args s).
Proof.
  intros E Hf. unfold put_number in *. destruct (parse_size format ch) as [[[size c] fmt]| |]; [|done|done].
  cbn [obind] in *. destruct (size =? 0); [injection E as <- <- <- <-; left; by exists s|].
  destruct (va_int args) as [[v a1]| |]; [|done|done]. cbn [obind] in *.
  set (val := if (fold c =? 68) || (fold c =? 73) then _ else _) in *.
  assert (Hrest : forall v t s1, fits t s1 ->
    (if v =? 0 then Ok (Put 48, fmt, a1, t)
     else let! l := to_digits 32 (c =? 120) (if fold c =? 88 then 16 else if fold c =? 79 then 8 else 10) v;
          let! (b, t) := put_all collect (rev l) t; Ok (if b then Next else End true, fmt, a1, t)) = Ok (r, f, a, text') ->
    same_directive r f a text'
     (if v =? 0 then Ok (Put 48, fmt, a1, s1)
     else let! l := to_digits 32 (c =? 120) (if fold c =? 88 then 16 else if fold c =? 79 then 8 else 10) v;
          let! (b, s1) := put_all (put_buffer limit) (rev l) s1; Ok (if b then Next else End true, fmt, a1, s1))).
  { clear E Hf. intros v0 t s1 Hf E. destruct (v0 =? 0); [injection E as <- <- <- <-; left; by exists s1|].
    destruct (to_digits _ _ _ _) as [l| |]; [|done|done]. cbn [obind] in *. rewrite put_all_collect in E.
    cbn [obind] in E. injection E as <- <- <- <-. by apply put_all_directive. }
  destruct (_ && (val <? 0)) eqn:Eneg; cbn [collect obind negb] in *; [|by eapply Hrest].
  destruct (put_buffer_ok limit buffer Hlim Hbuf 45 text s Hf) as (b & s1 & -> & H1). cbn [obind].
  destruct b; cbn [negb]; [by eapply Hrest|]. right. eexists _, _, s1. split; [done|].
  (* what is kept only grows *)
  destruct (w64 (- val) =? 0); [injection E as <- <- <- <-; done|].
  destruct (to_digits _ _ _ _) as [l| |]; [|done|done]. cbn [obind] in E. rewrite put_all_collect in E.
  injection E as <- <- <- <-. by apply full_more.
Qed.

Lemma put_directive_same format args text s r f a text' :
  put_directive collect format args text = Ok (r, f, a, text') -> fits text s ->
  same_directive r f a text' (put_directive (put_buffer limit) format args s).
Proof.
  intros E Hf. unfold put_directive in *. destruct (next_ch format) as [[ch fmt]| |]; [|done|done]. cbn [obind] in *.
  destruct (ch =? 0); [injection E as <- <- <- <-; left; by exists s|].
  destruct (fold ch =? 67).
  { destruct (va_int args) as [[v a1]| |]; [|done|done]. cbn [obind] in *. injection E as <- <- <- <-. left. by exists s. }
  destruct (fold ch =? 83).
  { destruct (va_str args) as [[o a1]| |]; [|done|done]. cbn [obind] in *.
    destruct (put_str collect _ text) as [[b t]| |] eqn:Es; [|done|done]. cbn [obind] in *. injection E as <- <- <- <-.
    destruct (put_str_fits limit buffer Hlim Hbuf _ _ _ _ _ Es Hf) as (-> & b1 & s' & -> & H). cbn [obind].
    destruct b1; [left; by exists s'|right; by eexists _, _, s']. }
  destruct (fold ch =? 80).
  { destruct (va_int args) as [[v a1]| |]; [|done|done]. cbn [obind] in *. rewrite put_all_collect in E.
    injection E as <- <- <- <-. by apply put_all_directive. }
  destruct (_ || _); [by eapply put_number_same|]. injection E as <- <- <- <-. left. by exists s.
Qed.

Lemma printf_loop_same fuel : forall format args text s res text',
  printf_loop collect fuel format args text = Ok (res, text') -> fits text s ->
  exists s', printf_loop (put_buffer limit) fuel format args s = Ok (res, s') /\ fits text' s' \/
    printf_loop (put_buffer limit) fuel format args s = Ok (true, s') /\ full text' s'.
Proof.
  induction fuel as [|fuel IH]; intros format args text s res text' E Hf; cbn [printf_loop] in *; [done|].
  destruct (next_ch format) as [[ch fmt]| |]; [|done|done]. cbn [obind] in *.
  destruct (ch =? 0); [injection E as <- <-; exists s; by left|].
  assert (Hput : forall c f a t s1, fits t s1 -> printf_loop collect fuel f a (t ++ [c]) = Ok (res, text') ->
    exists s', (let! (b, s1) := put_buffer limit c s1; if b then printf_loop (put_buffer limit) fuel f a s1 else Ok (true, s1)) = Ok (res, s') /\ fits text' s' \/
      (let! (b, s1) := put_buffer limit c s1; if b then printf_loop (put_buffer limit) fuel f a s1 else Ok (true, s1)) = Ok (true, s') /\ full text' s').
  { intros c f a t s1 H1 E1. destruct (put_buffer_ok limit buffer Hlim Hbuf c t s1 H1) as (b & s2 & -> & H2).
    cbn [obind]. destruct b; [by eapply IH|]. exists s2. right. split; [done|].
    destruct (printf_loop_more _ _ _ _ _ _ E1) as (m & ->). by apply full_more. }
  destruct (ch =? 37); [|cbn [collect obind] in *; by eapply Hput].
  destruct (put_directive collect fmt args text) as [[[[d f] a] t]| |] eqn:Ed; [|done|done]. cbn [obind] in E.
  destruct (put_directive_same _ _ _ _ _ _ _ _ Ed Hf) as [(s1 & -> & H1)|(f1 & a1 & s1 & -> & H1)]; cbn [obind].
  - destruct d as [|c|b]; cbn [collect obind] in *; [by eapply IH|by eapply Hput|].
    injection E as <- <-. exists s1. by left.
  - exists s1. right. split; [done|]. destruct d as [|c|b]; cbn [collect obind] in E.
    + destruct (printf_loop_more _ _ _ _ _ _ E) as (m & ->). by apply full_more.
    + destruct (printf_loop_more _ _ _ _ _ _ E) as (m & ->). rewrite <- app_assoc. by apply full_more.
    + by injection E as <- <-.
Qed.
End bounded.

(** Whatever the format and the arguments, [snprintf] leaves in the buffer the text that the same call
    without a bound would print, cut to [limit - 1] characters and closed with a zero, returns its length
    (or -1 for a format it does not know), and touches nothing behind it. *)
Theorem snprintf_truncates buffer limit format args res text : 0 < limit < 2 ^ 32 ->
  limit <= Z.of_nat (length buffer) -> imp_printf collect format args [] = Ok (res, text) ->
  let kept := take (Z.to_nat (limit - 1)) text in
  snprintf buffer limit format args =
    Ok (if res || (limit <=? Z.of_nat (length text)) then Z.of_nat (length kept) else -1,
        kept ++ 0 :: List.skipn (S (length kept)) buffer).
Proof.
  intros Hlim Hbuf E kept. unfold snprintf. rewrite (proj2 (Z.eqb_neq limit 0)) by lia. unfold imp_printf in *.
  assert (Hclose : forall t s, fits limit buffer t s ->
    (let (b, c) := s in let! b := (if c <? limit then store c 0 b else Ok b); Ok (c, b)) =
    Ok (Z.of_nat (length t), t ++ 0 :: List.skipn (S (length t)) buffer)).
  { intros t s [Hl ->]. rewrite (proj2 (Z.ltb_lt _ _)) by lia. unfold store. rewrite length_app, length_skipn.
    rewrite (proj2 (Z.leb_le _ _)), (proj2 (Z.ltb_lt _ _)) by lia. cbn [andb ensure obind]. do 2 f_equal.
    rewrite Nat2Z.id, insert_app_r_alt, Nat.sub_diag by lia. f_equal.
    destruct (List.skipn (length t) buffer) as [|x rest] eqn:Es.
    - apply (f_equal length) in Es. rewrite length_skipn in Es. cbn in Es. lia.
    - cbn. f_equal. change (S (length t)) with (1 + length t)%nat. rewrite Nat.add_comm, Nat.add_comm, <- skipn_skipn, Es. done. }
  destruct (printf_loop_same limit buffer Hlim Hbuf _ _ _ [] (buffer, 0) _ _ E) as (s' & [[-> Hf]|[-> Hf]]);
    [split; [cbn; lia|done]| |]; cbn [obind].
  - pose proof (proj1 Hf) as Hl. specialize (Hclose _ _ Hf). destruct s' as [b c].
    assert (Hk : kept = text) by (unfold kept; apply take_ge; lia). rewrite Hk.
    destruct (c <? limit); [destruct (store c 0 b) as [b'| |]; [|done|done]|]; cbn [obind] in *; injection Hclose as -> ->;
      rewrite (proj2 (Z.leb_gt limit _)) by lia; by rewrite orb_false_r.
  - destruct Hf as [Hl Hf]. specialize (Hclose _ _ Hf). fold kept in Hclose. destruct s' as [b c].
    destruct (c <? limit); [destruct (store c 0 b) as [b'| |]; [|done|done]|]; cbn [obind] in *; injection Hclose as -> ->;
      rewrite (proj2 (Z.leb_le limit _)) by lia; by rewrite orb_true_r.
Qed.

(** "%d!" of -5 into a buffer of three characters, of which the caller allows two. *)
Lemma snprintf_truncates_witness : snprintf [1; 2; 3; 4] 3 [37; 100; 33; 0] [A_int (-5)] = Ok (2, [45; 53; 0; 4]).
Proof. exact (snprintf_truncates [1; 2; 3; 4] 3 [37; 100; 33; 0] [A_int (-5)] true [45; 53; 33] ltac:(lia) ltac:(cbn; lia) eq_refl). Defined.

(** ** Comparing strings *)

(** [s] is the text of a C string: no zero in it. *)
Definition text_of (s : list Z) : Prop := Forall (fun c => 0 < c < 256) s.

(** The order of a dictionary. *)
Fixpoint lexico (a b : list Z) : comparison :=
  match a, b with
  | [], [] => Eq
  | [], _ :: _ => Lt
  | _ :: _, [] => Gt
  | x :: a, y :: b => match x ?= y with Eq => lexico a b | c => c end
  end.

Lemma lexico_eq a b : lexico a b = Eq <-> a = b.
Proof.
  revert b. induction a as [|x a IH]; intros [|y b]; cbn; try done.
  destruct (Z.compare_spec x y) as [->|H|H]; [rewrite IH; split; congruence| |]; (split; [done|]); intros [= -> ->]; lia.
Qed.

(** [strcmp] compares as a dictionary does: negative, zero or positive as the first text is before,
    the same as or behind the second, zero exactly for equal texts; it reads neither text past its end. *)
Theorem strcmp_order a b ra rb : text_of a -> text_of b ->
  exists r, strcmp (a ++ 0 :: ra) (b ++ 0 :: rb) = Ok r /\ (r ?= 0) = lexico a b /\ (r = 0 <-> a = b).
Proof.
  intros Ha Hb. cut (exists r, strcmp (a ++ 0 :: ra) (b ++ 0 :: rb) = Ok r /\ (r ?= 0) = lexico a b).
  { intros (r & E & Hr). exists r. split; [done|]. split; [done|]. rewrite <- lexico_eq, <- Hr. by rewrite Z.compare_eq_iff. }
  revert b Hb. induction Ha as [|x a Hx Ha IH]; intros b Hb; destruct Hb as [|y b Hy Hb]; cbn [app strcmp lexico].
  - cbn. by exists 0.
  - cbn. exists (0 - y). split; [done|]. apply Z.compare_lt_iff. lia.
  - rewrite andb_false_r, andb_false_l. exists (x - 0). split; [done|]. apply Z.compare_gt_iff. lia.
  - rewrite !truth_pos by lia. cbn [andb]. destruct (Z.compare_spec x y) as [->|H|H].
    + rewrite Z.eqb_refl. by apply IH.
    + rewrite (proj2 (Z.eqb_neq _ _)) by lia. exists (x - y). split; [done|]. apply Z.compare_lt_iff. lia.
    + rewrite (proj2 (Z.eqb_neq _ _)) by lia. exists (x - y). split; [done|]. apply Z.compare_gt_iff. lia.
Qed.

Lemma strcmp_order_witness : exists r, strcmp ([97; 98] ++ 0 :: []) ([97; 99] ++ 0 :: []) = Ok r /\
  (r ?= 0) = Lt /\ (r = 0 <-> [97; 98] = [97; 99]).
Proof. apply (strcmp_order [97; 98] [97; 99]); repeat constructor. Defined.

Lemma strlen_ok s r : text_of s -> strlen (s ++ 0 :: r) = Ok (Z.of_nat (length s)).
Proof.
  intros Hs. induction Hs as [|x s Hx _ IH]; cbn [app strlen]; [done|].
  rewrite truth_pos, IH by lia. cbn [obind length]. f_equal. lia.
Qed.

(** What [strstr] points to begins with the text it was asked for. *)
Lemma strstr_loop_sound sub rs : text_of sub -> forall str pos done_ rest p,
  sub = done_ ++ rest -> pos = done_ ++ str ->
  strstr_loop (sub ++ 0 :: rs) pos (rest ++ 0 :: rs) str = Ok (Some p) -> exists q, p = sub ++ q.
Proof.
  intros Hs. induction str as [|ch str IH]; intros pos done_ rest p Hsub Hpos E; cbn [strstr_loop] in E.
  - destruct rest as [|c rest]; cbn [app at_ptr hd_error deref obind] in E.
    + cbn in E. injection E as <-. exists []. by rewrite app_nil_r in Hsub, Hpos |- *; subst.
    + assert (Hc : 0 < c) by (rewrite Hsub in Hs; apply Forall_app in Hs as [_ Hs]; by apply Forall_cons in Hs as [? _]; lia).
      rewrite (proj2 (Z.eqb_neq _ _)) in E by lia. done.
  - destruct rest as [|c rest]; cbn [app at_ptr hd_error deref obind] in E.
    + cbn in E. injection E as <-. exists (ch :: str). rewrite app_nil_r in Hsub. by subst.
    + assert (Hc : 0 < c) by (rewrite Hsub in Hs; apply Forall_app in Hs as [_ Hs]; by apply Forall_cons in Hs as [? _]; lia).
      rewrite (proj2 (Z.eqb_neq _ _)) in E by lia. destruct (ch =? 0); [done|].
      destruct (Z.eqb_spec c ch) as [->|_]; cbn [negb tl] in E.
      * apply (IH pos (done_ ++ [ch]) rest p); [by rewrite <- app_assoc|by rewrite <- app_assoc|done].
      * by apply (IH str [] sub p).
Qed.

(** It misses texts, though: after a partial match it does not look at the character that broke it. *)
Example strstr_misses : strstr [97; 97; 98; 0] [97; 98; 0] = Ok None.
Proof. reflexivity. Qed.
End CrtThm.
