(* ===== verification/HandleTable.v ===== *)
(** * The handle table of a process (src/kernel/process/process.cpp, [handle_table])

    Slots for objects, in pages that are allocated when they are first needed.  An object that a call
    lets go of is returned, since [relax] acts on the object and not on the table.  The table's
    reader-writer lock is held exclusively throughout each operation and is left out. *)

From S2P Require Import Prelude.

Module HandleTable.

Definition limit : Z := 0x800.
Definition avl_base : Z := 4.
Definition handle_of_page : Z := 512.

(** A page is a list of slots; a slot holds the address of an object or null. *)
Abbreviation page := (list (option Z)).
Record handle_table := Table { count : Z; top : Z; table : list (option page) }.

Definition new_table : handle_table := Table 0 0 (replicate 4 None).
Definition zero_page : page := replicate 512 None.

Definition set_slot (i : Z) (pg : page) (v : option Z) (h : handle_table) : handle_table :=
  Table (count h) (top h) (<[Z.to_nat (i / handle_of_page) := Some (<[Z.to_nat (i mod handle_of_page) := v]> pg)]> (table h)).
Definition set_counts (c t : Z) (h : handle_table) : handle_table := Table c t (table h).
Definition set_page (i : Z) (pg : page) (h : handle_table) : handle_table :=
  Table (count h) (top h) (<[Z.to_nat (i / handle_of_page) := Some pg]> (table h)).

(** [table[index/handle_of_page]], an index outside being an error, and [page[index%handle_of_page]]. *)
Definition page_of (i : Z) (h : handle_table) : outcome (option page) := deref (table h !! Z.to_nat (i / handle_of_page)).
Definition slot_of (i : Z) (pg : page) : outcome (option Z) := deref (pg !! Z.to_nat (i mod handle_of_page)).

(** The page of [index], made if need be; [avail]: [vm.reserve] and [vm.commit] have a page. *)
Definition get_page (avail : bool) (i : Z) (h : handle_table) : outcome (option page * handle_table) :=
  let! pg := page_of i h;
  match pg with
  | Some pg => Ok (Some pg, h)
  | None => if avail then Ok (Some zero_page, set_page i zero_page h) else Ok (None, h)
  end.

Fixpoint put_loop (fuel : nat) (avail : bool) (index ptr : Z) (h : handle_table) : outcome (Z * handle_table) :=
  if index <? limit then
    match fuel with
    | O => NoFuel
    | S fuel =>
        let! (pg, h) := get_page avail index h;
        match pg with
        | None => Ok (0, h)
        | Some pg =>
            let! slot := slot_of index pg;
            match slot with
            | Some _ => put_loop fuel avail (index + 1) ptr h
            | None =>
                let h := set_slot index pg (Some ptr) h in
                Ok (index, set_counts (count h + 1) (Z.max (top h) (index + 1)) h)
            end
        end
    end
  else Ok (0, h).

Definition put (avail : bool) (ptr : Z) (h : handle_table) : outcome (Z * handle_table) :=
  let index := if top h * 3 <? count h * 4 then Z.max avl_base (top h) else avl_base in
  put_loop (Z.to_nat limit) avail index ptr h.

(** [assign]: whether it worked, and the object that was there. *)
Definition assign (avail : bool) (index : Z) (ptr : option Z) (h : handle_table) : outcome (bool * list Z * handle_table) :=
  match ptr with
  | None => Ok (false, [], h)
  | Some p =>
      if avl_base <=? index then Ok (false, [], h)
      else
        let! (pg, h) := get_page avail index h;
        match pg with
        | None => Ok (false, [], h)
        | Some pg =>
            let! old := slot_of index pg;
            let h := set_slot index pg (Some p) h in
            match old with
            | None => Ok (true, [], set_counts (count h + 1) (top h) h)
            | Some o => Ok (true, [o], h)
            end
        end
  end.

(** The search of [close] for the last slot in use. *)
Fixpoint last_used (fuel : nat) (index : Z) (h : handle_table) : outcome Z :=
  if avl_base <=? index then
    match fuel with
    | O => NoFuel
    | S fuel =>
        let! pg := page_of index h;
        match pg with
        | None => Ok index
        | Some pg =>
            let! slot := slot_of index pg;
            match slot with
            | Some _ => Ok index
            | None => last_used fuel (w32 (index - 1)) h
            end
        end
    end
  else Ok index.

Definition close (index : Z) (h : handle_table) : outcome (bool * list Z * handle_table) :=
  if limit <=? index then Ok (false, [], h)
  else
    let! pg := page_of index h;
    match pg with
    | None => Ok (false, [], h)
    | Some pg =>
        let! slot := slot_of index pg;
        match slot with
        | None => Ok (false, [], h)
        | Some ptr =>
            assert! truth (count h);
            let h := set_slot index pg None h in
            let h := set_counts (count h - 1) (top h) h in
            let! h :=
              (if top h <=? index + 1 then
                 let! index := last_used (Z.to_nat limit) (w32 (index - 1)) h;
                 Ok (set_counts (count h) (w32 (index + 1)) h)
               else Ok h);
            Ok (true, [ptr], h)
        end
    end.

(** [operator[]]. *)
Definition at_index (index : Z) (h : handle_table) : outcome (option Z) :=
  if limit <=? index then Ok None
  else
    let! pg := page_of index h;
    match pg with None => Ok None | Some pg => slot_of index pg end.

(** [clear]: the slots of a page, then the pages. *)
Fixpoint clear_page (pg : page) (c : Z) : outcome (list Z * Z * page) :=
  match pg with
  | [] => Ok ([], c, [])
  | None :: pg => let! (l, c, pg) := clear_page pg c; Ok (l, c, None :: pg)
  | Some p :: pg =>
      assert! truth c;
      let! (l, c, pg) := clear_page pg (c - 1);
      Ok (p :: l, c, None :: pg)
  end.

Fixpoint clear_pages (t : list (option page)) (c : Z) : outcome (list Z * Z * list (option page)) :=
  match t with
  | [] => Ok ([], c, [])
  | None :: t => let! (l, c, t) := clear_pages t c; Ok (l, c, None :: t)
  | Some pg :: t =>
      let! (l1, c, pg) := clear_page pg c;
      let! (l2, c, t) := clear_pages t c;
      Ok (l1 ++ l2, c, Some pg :: t)
  end.

Definition clear (h : handle_table) : outcome (list Z * handle_table) :=
  let! (l, c, t) := clear_pages (table h) (count h);
  assert! c =? 0;
  Ok (l, Table c (top h) t).

(** The destructor: the pages go back to the address space; a table in use stops the machine. *)
Definition destroy (h : handle_table) : outcome unit := assert! negb (truth (count h)); Ok tt.
End HandleTable.

Module HandleThm.
Import HandleTable.

#[local] Arguments zero_page : simpl never.
#[local] Arguments replicate : simpl never.

(** ** The table as one row of slots *)

Definition row (t : list (option page)) : list (option Z) := concat (default zero_page <$> t).
Definition slots (h : handle_table) : list (option Z) := row (table h).

(** How many slots are in use. *)
Definition used (l : list (option Z)) : Z := Z.of_nat (length (omap id l)).

Lemma used_app l1 l2 : used (l1 ++ l2) = used l1 + used l2.
Proof. unfold used. rewrite omap_app, length_app. lia. Qed.

Lemma used_insert l i old v : l !! i = Some old ->
  used (<[i := v]> l) = used l - b2z (bool_decide (is_Some old)) + b2z (bool_decide (is_Some v)).
Proof.
  intros E. rewrite <- (take_drop_middle l i old E) at 2. pose proof (lookup_lt_Some _ _ _ E) as Hlt.
  rewrite insert_take_drop by done. rewrite !used_app. unfold used. destruct old, v; cbn [omap list_omap id length]; cbn; lia.
Qed.

Lemma slots_used_range l : 0 <= used l <= Z.of_nat (length l).
Proof.
  unfold used. split; [lia|]. induction l as [|[x|] l IH]; cbn in *; lia.
Qed.

Lemma used_pos l i p : l !! i = Some (Some p) -> 0 < used l.
Proof.
  intros E. rewrite <- (take_drop_middle l i _ E), used_app. pose proof (slots_used_range (take i l)).
  unfold used at 2. cbn. lia.
Qed.

Record wf (h : handle_table) : Prop := {
  wf_table : length (table h) = 4%nat;
  wf_pages : Forall (fun o => length (default zero_page o) = 512%nat) (table h);
  wf_count : count h = used (slots h);
  wf_top : 0 <= top h <= limit;
  wf_above : forall i, Z.max avl_base (top h) <= i < limit -> slots h !! Z.to_nat i = Some None
}.

(** Finding a slot through its page, in general. *)
Lemma row_lookup t a b : Forall (fun o => length (default zero_page o) = 512%nat) t -> (b < 512)%nat ->
  row t !! (512 * a + b)%nat = o ← t !! a; default zero_page o !! b.
Proof.
  intros Hp Hb. revert a. induction Hp as [|o t Ho Hp IH]; intros a; [done|].
  unfold row. cbn [fmap list_fmap concat]. fold (row t). destruct a as [|a].
  - rewrite lookup_app_l by (rewrite Ho; lia). done.
  - rewrite lookup_app_r by (rewrite Ho; lia). rewrite Ho.
    replace (512 * S a + b - 512)%nat with (512 * a + b)%nat by lia. apply IH.
Qed.

Lemma row_insert t a b pg v : Forall (fun o => length (default zero_page o) = 512%nat) t -> (b < 512)%nat ->
  t !! a = Some (Some pg) -> row (<[a := Some (<[b := v]> pg)]> t) = <[(512 * a + b)%nat := v]> (row t).
Proof.
  intros Hp Hb. revert a. induction Hp as [|o t Ho Hp IH]; intros a E; [done|].
  unfold row. cbn [fmap list_fmap concat]. fold (row t). destruct a as [|a]; cbn in E.
  - injection E as ->. cbn [fmap list_fmap concat list_insert insert default]. fold (row t).
    change (id pg) with (pg : list (option Z)). change (id (<[b := v]> pg)) with (<[b := v]> (pg : list (option Z))).
    change (length (pg : list (option Z)) = 512%nat) in Ho. by rewrite insert_app_l by lia.
  - change (default zero_page o ++ row (<[a := Some (<[b := v]> pg)]> t) =
            <[(512 * S a + b)%nat := v]> (default zero_page o ++ row t)).
    rewrite IH by done. rewrite insert_app_r_alt by (rewrite Ho; lia). rewrite Ho. do 2 f_equal. lia.
Qed.

Lemma row_page t a : t !! a = Some None -> row (<[a := Some zero_page]> t) = row t.
Proof.
  intros E. unfold row. f_equal. rewrite list_fmap_insert. apply list_insert_id. by rewrite list_lookup_fmap, E.
Qed.

Lemma length_row t : Forall (fun o => length (default zero_page o) = 512%nat) t -> length (row t) = (512 * length t)%nat.
Proof.
  induction 1 as [|o t Ho Hp IH]; [done|]. unfold row. cbn [fmap list_fmap concat]. rewrite length_app, Ho. fold (row t).
  rewrite IH. cbn [length]. lia.
Qed.

Lemma index_split i : 0 <= i -> Z.to_nat i = (512 * Z.to_nat (i / handle_of_page) + Z.to_nat (i mod handle_of_page))%nat /\
  (Z.to_nat (i mod handle_of_page) < 512)%nat.
Proof.
  intros Hi. unfold handle_of_page. pose proof (Z.div_mod i 512 ltac:(lia)). pose proof (Z.mod_pos_bound i 512 ltac:(lia)).
  pose proof (Z.div_pos i 512 ltac:(lia) ltac:(lia)). lia.
Qed.

(** A slot seen through [page_of] and [slot_of]. *)
Lemma page_of_ok h i : wf h -> 0 <= i < limit -> exists o, page_of i h = Ok o /\
  table h !! Z.to_nat (i / handle_of_page) = Some o /\
  match o with
  | None => slots h !! Z.to_nat i = Some None
  | Some pg => length pg = 512%nat /\ exists v, slot_of i pg = Ok v /\ slots h !! Z.to_nat i = Some v
  end.
Proof.
  intros [W1 W2 W3 W4 W5] Hi. destruct (index_split i ltac:(lia)) as [Es Hb]. unfold page_of.
  assert (Z.to_nat (i / handle_of_page) < length (table h))%nat as Hlt.
  { rewrite W1. unfold limit, handle_of_page in *. apply Nat2Z.inj_lt. rewrite Z2Nat.id by (apply Z.div_pos; lia).
    apply Z.div_lt_upper_bound; lia. }
  apply lookup_lt_is_Some_2 in Hlt as [o Eo]. rewrite Eo. exists o. split; [done|]. split; [done|].
  pose proof (row_lookup (table h) (Z.to_nat (i / handle_of_page)) _ W2 Hb) as Hr. rewrite <- Es, Eo in Hr. cbn in Hr.
  rewrite Forall_lookup in W2. specialize (W2 _ _ Eo). unfold slots. destruct o as [pg|]; cbn [default id option_bind mbind] in *.
  - split; [done|]. destruct (lookup_lt_is_Some_2 pg (Z.to_nat (i mod handle_of_page))) as [v Ev]; [change (length (pg : list (option Z)) = 512%nat) in W2; lia|].
    exists v. unfold slot_of. rewrite Ev. split; [done|]. by rewrite Hr.
  - rewrite Hr. unfold zero_page. by apply lookup_replicate_2.
Qed.

Lemma set_slot_slots h i pg v : wf h -> 0 <= i < limit -> table h !! Z.to_nat (i / handle_of_page) = Some (Some pg) ->
  slots (set_slot i pg v h) = <[Z.to_nat i := v]> (slots h).
Proof.
  intros [W1 W2 W3 W4 W5] Hi E. destruct (index_split i ltac:(lia)) as [Es Hb]. unfold slots, set_slot. cbn [table].
  by rewrite row_insert, <- Es.
Qed.

(** Rebuilding [wf] after a slot changed. *)
Lemma set_slot_wf h i pg v c t : wf h -> 0 <= i < limit -> table h !! Z.to_nat (i / handle_of_page) = Some (Some pg) ->
  c = used (<[Z.to_nat i := v]> (slots h)) -> 0 <= t <= limit ->
  (forall j, Z.max avl_base t <= j < limit -> <[Z.to_nat i := v]> (slots h) !! Z.to_nat j = Some None) ->
  wf (set_counts c t (set_slot i pg v h)).
Proof.
  intros Hw Hi E Hc Ht Ha. pose proof Hw as [W1 W2 W3 W4 W5].
  pose proof (set_slot_slots h i pg v Hw Hi E) as Hs. constructor; cbn.
  - by rewrite length_insert.
  - apply Forall_insert; [done|]. cbn. rewrite length_insert. rewrite Forall_lookup in W2. apply (W2 _ _ E).
  - change (c = used (slots (set_slot i pg v h))). by rewrite Hs.
  - done.
  - intros j Hj. change (slots (set_slot i pg v h) !! Z.to_nat j = Some None). rewrite Hs. by apply Ha.
Qed.

Definition missing (h : handle_table) (i : Z) : Prop := table h !! Z.to_nat (i / handle_of_page) = Some None.

Lemma get_page_ok h avail i : wf h -> 0 <= i < limit -> exists o h', get_page avail i h = Ok (o, h') /\ wf h' /\
  slots h' = slots h /\ count h' = count h /\ top h' = top h /\ (forall j, missing h' j -> missing h j) /\
  match o with
  | None => avail = false /\ h' = h /\ missing h i
  | Some pg => table h' !! Z.to_nat (i / handle_of_page) = Some (Some pg) /\
      exists v, slot_of i pg = Ok v /\ slots h' !! Z.to_nat i = Some v
  end.
Proof.
  intros Hw Hi. unfold get_page. destruct (page_of_ok h i Hw Hi) as (o & -> & Et & Ho). cbn [obind].
  destruct o as [pg|]; [exists (Some pg), h; destruct Ho as [_ Ho]; done|]. destruct avail; [|by exists None, h].
  exists (Some zero_page), (set_page i zero_page h). split; [done|].
  assert (Hs : slots (set_page i zero_page h) = slots h) by (unfold slots; cbn; by apply row_page).
  pose proof Hw as [W1 W2 W3 W4 W5].
  split; [|split; [done|split; [done|split; [done|split]]]].
  - constructor; cbn; [by rewrite length_insert| | |done|].
    + by apply Forall_insert.
    + change (count h = used (slots (set_page i zero_page h))). by rewrite Hs.
    + intros j Hj. change (slots (set_page i zero_page h) !! Z.to_nat j = Some None). rewrite Hs. by apply W5.
  - unfold missing, set_page. cbn. intros j. destruct (decide (Z.to_nat (j / handle_of_page) = Z.to_nat (i / handle_of_page))) as [->|Hn].
    + by rewrite list_lookup_insert_eq by (by eapply lookup_lt_Some).
    + by rewrite list_lookup_insert_ne by congruence.
  - rewrite Hs. split; [cbn; by rewrite list_lookup_insert_eq by (by eapply lookup_lt_Some)|].
    exists None. split; [|done]. unfold slot_of, zero_page. rewrite lookup_replicate_2; [done|].
    by destruct (index_split i ltac:(lia)).
Qed.

Lemma length_slots h : wf h -> length (slots h) = 2048%nat.
Proof. intros [W1 W2 _ _ _]. unfold slots. rewrite length_row by done. lia. Qed.

Lemma in_slots h i : wf h -> 0 <= i < limit -> (Z.to_nat i < length (slots h))%nat.
Proof. intros Hw Hi. rewrite length_slots by done. unfold limit in Hi. lia. Qed.

(** What the search of [put] finds: the first free slot from [start]; it fails when there is none, or
    when it meets a missing page that cannot be had. *)
Definition all_used (s : list (option Z)) (start stop : Z) : Prop :=
  forall j, start <= j < stop -> exists p, s !! Z.to_nat j = Some (Some p).
Definition first_free (s : list (option Z)) (start r : Z) : Prop :=
  start <= r < limit /\ s !! Z.to_nat r = Some None /\ all_used s start r.

Definition put_done (start r ptr : Z) (h h' : handle_table) : Prop :=
  first_free (slots h) start r /\ slots h' = <[Z.to_nat r := Some ptr]> (slots h) /\
  count h' = count h + 1 /\ top h' = Z.max (top h) (r + 1).
Definition put_refused (avail : bool) (start r : Z) (h h' : handle_table) : Prop :=
  r = 0 /\ slots h' = slots h /\ count h' = count h /\ top h' = top h /\
  (all_used (slots h) start limit \/
   (avail = false /\ exists i, start <= i < limit /\ missing h i /\ all_used (slots h) start i)).

Lemma all_used_cons s start stop p : s !! Z.to_nat start = Some (Some p) -> all_used s (start + 1) stop -> all_used s start stop.
Proof.
  intros E H j Hj. destruct (decide (j = start)) as [->|]; [by exists p|]. apply H. lia.
Qed.

Lemma put_loop_ok fuel h avail index ptr : wf h -> avl_base <= index <= limit -> limit - index <= Z.of_nat fuel ->
  exists r h', put_loop fuel avail index ptr h = Ok (r, h') /\ wf h' /\
    (put_done index r ptr h h' \/ put_refused avail index r h h').
Proof.
  revert h index. induction fuel as [|fuel IH]; intros h index Hw Hi Hf; cbn [put_loop];
    (destruct (Z.ltb_spec index limit) as [Hlt|]; [|exists 0, h; split; [done|]; split; [done|]; right;
       do 4 (split; [done|]); left; intros j Hj; lia]); [lia|].
  assert (Hi' : 0 <= index < limit) by (unfold avl_base in *; lia).
  destruct (get_page_ok h avail index Hw Hi') as (o & h1 & -> & Hw1 & Hs & Hc & Ht & Hm & Ho). cbn [obind].
  destruct o as [pg|].
  2:{ destruct Ho as (-> & -> & Hn). exists 0, h. split; [done|]. split; [done|]. right. do 4 (split; [done|]). right.
      split; [done|]. exists index. split; [lia|]. split; [done|]. intros j Hj; lia. }
  destruct Ho as (Et & v & -> & Ev). cbn [obind]. destruct v as [p|].
  - destruct (IH h1 (index + 1) Hw1 ltac:(lia) ltac:(lia)) as (r & h2 & -> & Hw2 & Hr). exists r, h2. split; [done|].
    split; [done|]. unfold put_done, put_refused, first_free in *. rewrite Hs in *. rewrite Hc, Ht in Hr.
    destruct Hr as [((? & ? & ?) & ?)|(? & ? & ? & ? & Hr)].
    + left. split; [|done]. split; [lia|]. split; [done|]. by eapply all_used_cons.
    + right. do 4 (split; [done|]). destruct Hr as [Hr|(? & i & ? & ? & ?)]; [left; by eapply all_used_cons|].
      right. split; [done|]. exists i. split; [lia|]. split; [by apply Hm|]. by eapply all_used_cons.
  - eexists _, _. split; [done|]. rewrite Hs in Ev. split.
    + apply set_slot_wf; [done|done|done| | |].
      * rewrite (used_insert _ _ None) by (by rewrite Hs). cbn. pose proof (wf_count _ Hw1). lia.
      * cbn. rewrite Ht. pose proof (wf_top _ Hw). lia.
      * intros j Hj. rewrite list_lookup_insert_ne by (unfold avl_base in *; cbn in Hj; lia).
        apply (wf_above _ Hw1). cbn in Hj. lia.
    + left. split; [split; [lia|split; [done|intros j Hj; lia]]|]. cbn. rewrite Hc, Ht. split; [|done].
      change (slots (set_slot index pg (Some ptr) h1) = <[Z.to_nat index := Some ptr]> (slots h)).
      rewrite (set_slot_slots h1) by done. by rewrite Hs.
Qed.

(** Where [put] starts. *)
Definition put_start (h : handle_table) : Z := if top h * 3 <? count h * 4 then Z.max avl_base (top h) else avl_base.

Lemma put_start_range h : wf h -> avl_base <= put_start h <= limit.
Proof. intros Hw. pose proof (wf_top _ Hw). unfold put_start, avl_base, limit in *. case_if; lia. Qed.

Lemma table_put_ok h avail ptr : wf h -> exists r h', put avail ptr h = Ok (r, h') /\ wf h' /\
  (put_done (put_start h) r ptr h h' \/ put_refused avail (put_start h) r h h').
Proof.
  intros Hw. pose proof (put_start_range h Hw). apply put_loop_ok; [done|done|]. unfold avl_base, limit in *. lia.
Qed.

Definition all_free (s : list (option Z)) (start stop : Z) : Prop :=
  forall j, start <= j < stop -> s !! Z.to_nat j = Some None.

Lemma last_used_ok fuel h i : (forall j, avl_base <= j <= i -> exists o, page_of j h = Ok o /\
    match o with None => True | Some pg => exists v, slot_of j pg = Ok v /\ slots h !! Z.to_nat j = Some v end) ->
  0 <= i < limit -> i - avl_base < Z.of_nat fuel ->
  exists r, last_used fuel i h = Ok r /\ 0 <= r <= i /\ all_free (slots h) (r + 1) (i + 1).
Proof.
  revert i. induction fuel as [|fuel IH]; intros i Hp Hi Hf; cbn [last_used];
    (destruct (Z.leb_spec avl_base i); [|exists i; split; [done|]; split; [lia|]; intros j Hj; lia]);
    [lia|].
  destruct (Hp i ltac:(lia)) as (o & -> & Ho). cbn [obind].
  assert (Hstop : exists r, Ok i = Ok r /\ 0 <= r <= i /\ all_free (slots h) (r + 1) (i + 1)).
  { exists i. split; [done|]. split; [lia|]. intros j Hj. lia. }
  destruct o as [pg|]; [|done]. destruct Ho as (v & -> & Ev). cbn [obind]. destruct v as [p|]; [done|].
  rewrite wrap_small by (unfold avl_base, limit in *; lia).
  destruct (IH (i - 1)) as (r & -> & Hr & Hfree); [intros j Hj; apply Hp; lia|unfold avl_base in *; lia|lia|].
  exists r. split; [done|]. split; [lia|]. intros j Hj.
  destruct (decide (j = i)) as [->|]; [done|]. apply Hfree. lia.
Qed.

(** Setting a slot keeps every page of the table readable. *)
Lemma set_slot_pages h i pg v c t j : wf h -> 0 <= i < limit -> table h !! Z.to_nat (i / handle_of_page) = Some (Some pg) ->
  0 <= j < limit -> let h' := set_counts c t (set_slot i pg v h) in
  exists o, page_of j h' = Ok o /\
    match o with None => True | Some pg => exists v, slot_of j pg = Ok v /\ slots h' !! Z.to_nat j = Some v end.
Proof.
  intros Hw Hi Et Hj h'. set (k := Table (used (slots h')) limit (table h')).
  assert (Hk : wf k).
  { change (wf (set_counts (used (slots h')) limit (set_slot i pg v h))). apply set_slot_wf; [done|done|done| |done|].
    - unfold h'. change (slots (set_counts c t (set_slot i pg v h))) with (slots (set_slot i pg v h)).
      by rewrite set_slot_slots.
    - intros l Hl. unfold avl_base, limit in Hl. lia. }
  destruct (page_of_ok k j Hk Hj) as (o & Eo & _ & Ho). exists o. split; [exact Eo|]. destruct o; [|done]. apply Ho.
Qed.

(** [close] lets go of what the slot holds, and of nothing else; the search for the last slot in use
    leaves no slot in use at or above [top]. *)
Lemma close_ok h i : wf h -> 0 < i ->
  match slots h !! Z.to_nat i with
  | Some (Some p) => exists h', close i h = Ok (true, [p], h') /\ wf h' /\ slots h' = <[Z.to_nat i := None]> (slots h)
  | _ => close i h = Ok (false, [], h)
  end.
Proof.
  intros Hw Hi. unfold close. destruct (Z.leb_spec limit i) as [|Hlt].
  { rewrite lookup_ge_None_2; [done|]. rewrite length_slots by done. unfold limit in *. lia. }
  destruct (page_of_ok h i Hw ltac:(lia)) as (o & -> & Et & Ho). cbn [obind].
  destruct o as [pg|]; [|by rewrite Ho]. destruct Ho as (_ & v & -> & Ev). rewrite Ev. cbn [obind].
  destruct v as [p|]; [|done]. pose proof (wf_count _ Hw) as Hc. pose proof (used_pos _ _ _ Ev).
  rewrite ensure_true by (apply truth_pos; lia). cbn [obind].
  assert (Hu : count h - 1 = used (<[Z.to_nat i := None]> (slots h))) by (rewrite (used_insert _ _ _ _ Ev); cbn; lia).
  pose proof (wf_top _ Hw) as Ht. cbn [top set_counts set_slot].
  destruct (Z.leb_spec (top h) (i + 1)) as [Htop|Htop].
  - rewrite (wrap_small 32 (i - 1)) by (unfold limit in *; lia).
    set (h1 := set_counts _ _ _).
    assert (Hs1 : slots h1 = <[Z.to_nat i := None]> (slots h)) by (apply (set_slot_slots h i pg None Hw); [lia|done]).
    destruct (last_used_ok (Z.to_nat limit) h1 (i - 1)) as (r & -> & Hr & Hfree).
    { intros j Hj. apply set_slot_pages; [done|lia|done|unfold avl_base in *; lia]. }
    { lia. } { unfold avl_base, limit in *. lia. }
    cbn [obind]. eexists. split; [done|]. rewrite wrap_small by (unfold limit in *; lia). split; [|done].
    apply (set_slot_wf h i pg None (count h - 1) (r + 1)); [done|lia|done|done|lia|].
    intros j Hj. destruct (decide (j = i)) as [->|]; [apply list_lookup_insert_eq, in_slots; [done|lia]|].
    destruct (decide (j < i)) as [|].
    + rewrite <- Hs1. apply Hfree. lia.
    + rewrite list_lookup_insert_ne by lia. apply (wf_above _ Hw). lia.
  - eexists. split; [done|]. split; [|apply (set_slot_slots h i pg None Hw); [lia|done]].
    apply set_slot_wf; [done|lia|done|done|done|]. intros j Hj.
    rewrite list_lookup_insert_ne by (unfold avl_base in *; lia). apply (wf_above _ Hw). lia.
Qed.

(** [assign] fills the slots below [avl_base] only, and hands back what was there. *)
Lemma assign_ok h avail i p : wf h -> 0 <= i ->
  assign avail i None h = Ok (false, [], h) /\ (avl_base <= i -> assign avail i (Some p) h = Ok (false, [], h)) /\
  (i < avl_base -> exists b l h', assign avail i (Some p) h = Ok (b, l, h') /\ wf h' /\
    ((b = false /\ avail = false /\ missing h i /\ l = [] /\ h' = h) \/
     (b = true /\ l = option_list (mjoin (slots h !! Z.to_nat i)) /\ slots h' = <[Z.to_nat i := Some p]> (slots h)))).
Proof.
  intros Hw Hi. split; [done|]. split.
  { intros. unfold assign. by rewrite (proj2 (Z.leb_le _ _)). }
  intros Hlt. unfold assign. rewrite (proj2 (Z.leb_gt _ _)) by done.
  assert (Hi' : 0 <= i < limit) by (unfold avl_base, limit in *; lia).
  destruct (get_page_ok h avail i Hw Hi') as (o & h1 & -> & Hw1 & Hs & Hc & Ht & Hm & Ho). cbn [obind].
  destruct o as [pg|].
  2:{ destruct Ho as (-> & -> & Hn). exists false, [], h. split; [done|]. split; [done|]. by left. }
  destruct Ho as (Et & v & -> & Ev). cbn [obind].
  assert (Hw2 : forall c, c = used (<[Z.to_nat i := Some p]> (slots h1)) -> wf (set_counts c (top h1) (set_slot i pg (Some p) h1))).
  { intros c ->. apply set_slot_wf; [done|done|done|done|apply (wf_top _ Hw1)|]. intros j Hj.
    rewrite list_lookup_insert_ne by (unfold avl_base in *; lia). apply (wf_above _ Hw1). lia. }
  rewrite (used_insert _ _ _ _ Ev) in Hw2. pose proof (wf_count _ Hw1) as Hc1.
  pose proof (set_slot_slots h1 i pg (Some p) Hw1 Hi' Et) as Hs2. rewrite Hs in Hs2, Ev.
  destruct v as [q|]; cbn in Hw2; eexists _, _, _; (split; [done|]).
  - split; [specialize (Hw2 (count h1) ltac:(lia)); by destruct h1|]. right. rewrite Ev. done.
  - split; [apply Hw2; cbn; lia|]. right. rewrite Ev. done.
Qed.

Lemma at_index_ok h i : wf h -> 0 <= i -> at_index i h = Ok (mjoin (slots h !! Z.to_nat i)).
Proof.
  intros Hw Hi. unfold at_index. destruct (Z.leb_spec limit i) as [|Hlt].
  { rewrite lookup_ge_None_2; [done|]. rewrite length_slots by done. unfold limit in *. lia. }
  destruct (page_of_ok h i Hw ltac:(lia)) as (o & -> & Et & Ho). cbn [obind].
  destruct o as [pg|]; [|by rewrite Ho]. destruct Ho as (_ & v & -> & ->). done.
Qed.

(** [clear] lets go of every object once, in the order of the slots. *)
Lemma clear_page_ok pg c : used pg <= c ->
  clear_page pg c = Ok (omap id pg, c - used pg, replicate (length pg) None).
Proof.
  revert c. induction pg as [|[p|] pg IH]; intros c Hc.
  - unfold used. cbn. do 3 f_equal. lia.
  - pose proof (slots_used_range pg). assert (used (Some p :: pg) = 1 + used pg) as E by (unfold used; cbn; lia).
    cbn [clear_page]. rewrite ensure_true by (apply truth_pos; lia). cbn [obind]. rewrite IH by lia. cbn [obind].
    rewrite E. do 3 f_equal. lia.
  - cbn [clear_page]. rewrite IH by done. done.
Qed.

Lemma clear_pages_ok t c : used (row t) <= c -> Forall (fun o => length (default zero_page o) = 512%nat) t ->
  exists t', clear_pages t c = Ok (omap id (row t), c - used (row t), t') /\ row t' = replicate (length (row t)) None /\
    length t' = length t /\ Forall (fun o => length (default zero_page o) = 512%nat) t'.
Proof.
  intros Hc Hp. revert c Hc. induction Hp as [|o t Ho Hp IH]; intros c Hc.
  { exists []. split; [|done]. unfold used. cbn. do 3 f_equal. lia. }
  change (row (o :: t)) with (default zero_page o ++ row t) in *. rewrite used_app in *. rewrite omap_app.
  pose proof (slots_used_range (default zero_page o)). pose proof (slots_used_range (row t)). destruct o as [pg|]; cbn [default id] in *.
  - cbn [clear_pages]. rewrite clear_page_ok by lia. cbn [obind]. destruct (IH (c - used pg) ltac:(lia)) as (t' & -> & Hr & Hl & Hf).
    cbn [obind]. eexists. split; [do 3 f_equal; lia|]. split; [|split; [cbn; lia|constructor; [|done]]].
    + rewrite length_app, replicate_add, <- Hr. done.
    + cbn. by rewrite length_replicate.
  - change zero_page with (replicate 512 (None : option Z)) in *. cbn [clear_pages].
    assert (E : used (replicate 512 None) = 0) by reflexivity. rewrite E in *.
    assert (E2 : omap id (replicate 512 (None : option Z)) = []) by reflexivity. rewrite E2.
    destruct (IH c ltac:(lia)) as (t' & -> & Hr & Hl & Hf). cbn [obind].
    eexists. split; [do 3 f_equal; cbn; lia|]. split; [|split; [cbn; lia|by constructor]].
    rewrite length_app, length_replicate, replicate_add, <- Hr. done.
Qed.

Lemma clear_ok h : wf h -> exists h', clear h = Ok (omap id (slots h), h') /\ wf h' /\
  slots h' = replicate (length (slots h)) None /\ destroy h' = Ok tt.
Proof.
  intros [W1 W2 W3 W4 W5]. unfold clear. destruct (clear_pages_ok (table h) (count h)) as (t' & -> & Hr & Hl & Hf); [unfold slots in W3; lia|done|].
  cbn [obind]. replace (count h - used (row (table h))) with 0 by (unfold slots in W3; lia). cbn [ensure obind Z.eqb].
  eexists. split; [done|]. split; [|split; done].
  assert (He : slots (Table 0 (top h) t') = replicate (length (row (table h))) None) by done.
  constructor; cbn [table top count]; [by rewrite Hl|done| |done|].
  - rewrite He. unfold used. assert (omap id (replicate (length (row (table h))) (None : option Z)) = []) as ->; [|done].
    generalize (length (row (table h))). clear. induction n as [|n IH]; [done|]. exact IH.
  - intros i Hi. rewrite He. apply lookup_replicate_2. rewrite length_row, W1 by done. unfold avl_base, limit in Hi. lia.
Qed.

Lemma new_table_wf : wf new_table.
Proof. constructor; [done| |done|done|]; [by repeat constructor|]. intros i Hi. unfold slots.
  change (row (table new_table)) with (replicate 2048 (None : option Z)). apply lookup_replicate_2. unfold avl_base, limit in Hi. lia. Qed.

Lemma all_used_count s start : Z.of_nat (length s) = limit -> 0 <= start <= limit -> all_used s start limit -> limit - start <= used s.
Proof.
  intros Hl Hs Hu. rewrite <- (take_drop (Z.to_nat start) s), used_app. pose proof (slots_used_range (take (Z.to_nat start) s)).
  enough (used (drop (Z.to_nat start) s) = Z.of_nat (length (drop (Z.to_nat start) s))) as -> by (rewrite length_drop; lia).
  assert (Hall : Forall (fun o => is_Some o) (drop (Z.to_nat start) s)).
  { apply Forall_lookup. intros i o Eo. rewrite lookup_drop in Eo. pose proof (lookup_lt_Some _ _ _ Eo).
    destruct (Hu (start + Z.of_nat i) ltac:(lia)) as (p & Ep). replace (Z.to_nat (start + Z.of_nat i)) with (Z.to_nat start + i)%nat in Ep by lia.
    rewrite Eo in Ep. injection Ep as ->. done. }
  induction Hall as [|o l [p ->] Hl' IH]; [done|]. unfold used in *. cbn. lia.
Qed.

(** With memory at hand, [put] refuses only when more than three quarters of the slots are in use. *)
Lemma put_refused_dense h r h' : wf h -> put_refused true (put_start h) r h h' -> 1536 < used (slots h).
Proof.
  intros Hw (_ & _ & _ & _ & [Hu|[? _]]); [|done]. pose proof (wf_top _ Hw) as Ht. pose proof (wf_count _ Hw) as Hc.
  pose proof (put_start_range h Hw) as Hr. unfold put_start in *. destruct (Z.ltb_spec (top h * 3) (count h * 4)) as [Hd|Hd].
  - destruct (decide (Z.max avl_base (top h) = limit)) as [E|Hn]; [unfold avl_base, limit in *; lia|].
    destruct (Hu (Z.max avl_base (top h))) as (p & Ep); [lia|]. rewrite (wf_above _ Hw) in Ep by lia. done.
  - pose proof (length_slots h Hw) as Hl. 
    assert (limit - avl_base <= used (slots h)) by (apply all_used_count; [unfold limit; lia|unfold avl_base, limit; lia|done]).
    unfold avl_base, limit in *. lia.
Qed.

(** ** The table against a row of slots

    The operations a process asks for, and what each may do to the row of 2048 slots: its answer, the
    objects it lets go of, and the slots it leaves. *)
Inductive op := Put (avail : bool) (ptr : Z) | Assign (avail : bool) (i : Z) (ptr : option Z) | Close (i : Z) | Look (i : Z) | Clear.

Definition run_op (o : op) (h : handle_table) : outcome (Z * list Z * handle_table) :=
  match o with
  | Put avail ptr => let! (r, h) := put avail ptr h; Ok (r, [], h)
  | Assign avail i ptr => let! (b, l, h) := assign avail i ptr h; Ok (b2z b, l, h)
  | Close i => let! (b, l, h) := close i h; Ok (b2z b, l, h)
  | Look i => let! v := at_index i h; Ok (default 0 v, [], h)
  | Clear => let! (l, h) := clear h; Ok (0, l, h)
  end.

Fixpoint run_ops (os : list op) (h : handle_table) : outcome (list (Z * list Z) * handle_table) :=
  match os with
  | [] => Ok ([], h)
  | o :: os =>
      let! (r, l, h) := run_op o h;
      let! (rs, h) := run_ops os h;
      Ok ((r, l) :: rs, h)
  end.

Definition row_step (o : op) (s : list (option Z)) (r : Z) (l : list Z) (s' : list (option Z)) : Prop :=
  match o with
  | Put avail ptr => l = [] /\
      ((r = 0 /\ s' = s /\ (avail = true -> 1536 < used s)) \/ (exists start, avl_base <= start /\ first_free s start r /\ s' = <[Z.to_nat r := Some ptr]> s))
  | Assign avail i ptr =>
      (r = 0 /\ l = [] /\ s' = s /\ (avail = true -> i < avl_base -> ptr = None)) \/
      (r = 1 /\ i < avl_base /\ exists p, ptr = Some p /\ l = option_list (mjoin (s !! Z.to_nat i)) /\ s' = <[Z.to_nat i := ptr]> s)
  | Close i =>
      match s !! Z.to_nat i with
      | Some (Some p) => r = 1 /\ l = [p] /\ s' = <[Z.to_nat i := None]> s
      | _ => r = 0 /\ l = [] /\ s' = s
      end
  | Look i => r = default 0 (mjoin (s !! Z.to_nat i)) /\ l = [] /\ s' = s
  | Clear => r = 0 /\ l = omap id s /\ s' = replicate (length s) None
  end.

Inductive row_steps : list op -> list (option Z) -> list (Z * list Z) -> list (option Z) -> Prop :=
  | row_nil s : row_steps [] s [] s
  | row_cons o os s r l s1 rs s2 : row_step o s r l s1 -> row_steps os s1 rs s2 -> row_steps (o :: os) s ((r, l) :: rs) s2.

(** Slot 0 holds the image of the process and is not closed through the table: [close_handle] of
    src/kernel/interface/service.cpp refuses it. *)
Definition user_op (o : op) : Prop :=
  match o with Close i => 0 < i | Assign _ i _ => 0 <= i | Look i => 0 <= i | _ => True end.

Lemma run_op_ok o h : wf h -> user_op o -> exists r l h', run_op o h = Ok (r, l, h') /\ wf h' /\ row_step o (slots h) r l (slots h').
Proof.
  intros Hw Ho. destruct o as [avail p|avail i [p|]|i|i|]; cbn [run_op user_op row_step] in *.
  - destruct (table_put_ok h avail p Hw) as (r & h' & -> & Hw' & Hr). cbn [obind]. do 3 eexists. split; [done|]. split; [done|].
    split; [done|]. destruct Hr as [(Hf & -> & _)|Hr]; [right|left; pose proof Hr as (-> & -> & _); do 2 (split; [done|]);
      intros ->; by eapply put_refused_dense].
    exists (put_start h). split; [by apply put_start_range|done].
  - destruct (assign_ok h avail i p Hw Ho) as (_ & Hge & Hlt). destruct (decide (i < avl_base)) as [Hl|].
    + destruct (Hlt Hl) as (b & l & h' & -> & Hw' & Hr). cbn [obind]. do 3 eexists. split; [done|]. split; [done|].
      destruct Hr as [(-> & -> & _ & -> & ->)|(-> & -> & ->)]; [by left|right]. do 2 (split; [done|]). by exists p.
    + rewrite Hge by lia. cbn [obind]. do 3 eexists. split; [done|]. split; [done|]. left. repeat split. lia.
  - rewrite (proj1 (assign_ok h avail i 0 Hw Ho)). cbn [obind]. do 3 eexists. split; [done|]. split; [done|]. by left.
  - pose proof (close_ok h i Hw Ho) as Hc. destruct (slots h !! Z.to_nat i) as [[p|]|].
    2,3: rewrite Hc; cbn [obind]; do 3 eexists; split; [done|]; split; done.
    destruct Hc as (h' & -> & Hw' & Hs). cbn [obind]. do 3 eexists. split; [done|]. split; done.
  - rewrite at_index_ok by done. cbn [obind]. do 3 eexists. split; [done|]. split; done.
  - destruct (clear_ok h Hw) as (h' & -> & Hw' & Hs & _). cbn [obind]. do 3 eexists. split; [done|]. split; done.
Qed.

(** C39. Whatever sequence of calls a process makes on its handle table (slot 0 not being closed), no call
    stops the machine or reads outside the table, and the sequence is a sequence of steps of a plain row
    of 2048 slots: a new handle is the first free slot from its starting point, and with memory at hand it is refused
    only when more than three quarters of the slots are in use; an object is let go of
    exactly when its slot is closed, replaced or cleared, and the count is the number of slots in use. *)
Theorem handles_refine os : Forall user_op os ->
  exists rs h, run_ops os new_table = Ok (rs, h) /\ row_steps os (replicate 2048 None) rs (slots h) /\ count h = used (slots h).
Proof.
  intros Hos. enough (forall h, wf h -> exists rs h', run_ops os h = Ok (rs, h') /\ row_steps os (slots h) rs (slots h') /\ wf h') as He.
  { destruct (He new_table new_table_wf) as (rs & h & E & Hr & Hw). exists rs, h. split; [done|]. split; [exact Hr|apply (wf_count _ Hw)]. }
  induction Hos as [|o os Ho _ IH]; intros h Hw; [do 2 eexists; split; [done|]; split; [constructor|done]|].
  destruct (run_op_ok o h Hw Ho) as (r & l & h1 & E & Hw1 & Hr). destruct (IH h1 Hw1) as (rs & h2 & E2 & Hr2 & Hw2).
  exists ((r, l) :: rs), h2. cbn [run_ops]. rewrite E. cbn [obind]. rewrite E2. split; [done|]. split; [by econstructor|done].
Qed.

Definition some_ops : list op := [Assign true 0 (Some 100); Put true 7; Put true 8; Close 4; Put true 9; Look 5; Clear].

Lemma handles_refine_witness : Forall user_op some_ops /\ exists rs h, run_ops some_ops new_table = Ok (rs, h) /\
  row_steps some_ops (replicate 2048 None) rs (slots h) /\ count h = used (slots h).
Proof.
  assert (H : Forall user_op some_ops) by (repeat constructor; cbn; lia). split; [exact H|]. exact (handles_refine some_ops H).
Defined.

Example some_ops_run : obind (run_ops some_ops new_table) (fun x => Ok x.1) =
  Ok [(1, []); (4, []); (5, []); (1, [7]); (4, []); (8, []); (0, [100; 9; 8])].
Proof. reflexivity. Qed.

(** [put] refuses an object although 511 slots are free when the table is dense and its last slot is
    in use: the search then starts at [top] and does not go back.  (A table in that state is reached by
    filling the table and closing 511 of the low handles.) *)
Theorem put_dense_refuses h avail ptr : wf h -> top h = limit -> limit * 3 < count h * 4 -> put avail ptr h = Ok (0, h).
Proof.
  intros Hw Ht Hc. unfold put. rewrite Ht. rewrite (proj2 (Z.ltb_lt _ _)) by lia.
  change (Z.max avl_base limit) with limit. change (Z.to_nat limit) with (S 2047). cbn [put_loop]. by rewrite Z.ltb_irrefl.
Qed.

Definition dense : handle_table := Table 1537 limit (Some (replicate 512 (Some 1)) :: replicate 2 (Some (replicate 512 (Some 1))) ++ [Some (replicate 511 None ++ [Some 1])]).

Lemma dense_wf : wf dense.
Proof.
  constructor; [done|by repeat constructor|by vm_compute|unfold limit; cbn; unfold limit; lia|].
  intros i Hi. unfold avl_base, limit in Hi. cbn [top dense] in Hi. unfold limit in Hi. lia.
Qed.

Lemma put_dense_refuses_witness : wf dense /\ at_index 2000 dense = Ok None /\ put true 9 dense = Ok (0, dense).
Proof.
  split; [exact dense_wf|]. split; [reflexivity|]. apply put_dense_refuses; [exact dense_wf|reflexivity|reflexivity].
Defined.
End HandleThm.
