(* ===== verification/Rtc.v ===== *)
(** * The real time clock (src/kernel/dev/rtc.cpp)

    The registers of the clock are an argument, a function from the register number to the byte read.
    The calls that an interrupt makes are returned in their order: [timer.on_second] and the handler. *)

From S2P Require Import Prelude.

Module Rtc.

Record RTC := Clock { time : Z; mode : Z; century_index : Z; reload : bool; func : option Z }.

Inductive call := OnSecond | Handler (f time : Z).

(** The constructor: [b] is status register B, [century] the index the firmware gives. *)
Definition new_mode (b : Z) : Z := Z.lor (Z.land b 0x1E) 0x10.
Definition new_rtc (b century : Z) : RTC := Clock 0 (new_mode b) century true None.

Definition set_reload (r : RTC) : RTC := Clock (time r) (mode r) (century_index r) true (func r).

(** A second handler stops the machine. *)
Definition set_handler (cb : Z) (r : RTC) : outcome RTC :=
  match func r with
  | None => Ok (Clock (time r) (mode r) (century_index r) (reload r) (Some cb))
  | Some _ => Bug
  end.

Definition convert (m val : Z) : Z :=
  if truth (Z.land m 0x04) then val else w8 (Z.shiftr val 4 * 10 + Z.land val 0x0F).

Definition read (reg : Z -> Z) (m i : Z) : Z := convert m (reg i).

Definition read_hour (m hour : Z) : Z :=
  if truth (Z.land m 0x02) then convert m hour
  else
    let pm := truth (Z.land hour 0x80) in
    let hour := convert m (Z.land hour 0x7F) in
    let hour := if pm then w8 (hour + 12) else hour in
    if hour =? 24 then 0 else hour.

Definition month_table : list Z := [0; 31; 59; 90; 120; 151; 181; 212; 243; 273; 304; 334].

Definition valid (century year month date hour minute second : Z) : bool :=
  negb ((century <? 20) || (99 <? year) || (month =? 0) || (12 <? month) || (date =? 0) || (31 <? date)
        || (23 <? hour) || (59 <? minute) || (59 <? second)).

Definition leap_count (cur_year month : Z) : Z :=
  let leap := w32 (cur_year - 1969) / 4 in
  let leap :=
    if 2100 <? cur_year then
      let century_count := w32 ((cur_year - 1) / 100 - 20) in
      w32 (leap - (century_count - century_count / 4))
    else leap in
  if 2 <? month then
    let is_leap := if truth (cur_year mod 100) then cur_year mod 400 =? 0 else cur_year mod 4 =? 0 in
    w32 (leap + b2z is_leap)
  else leap.

Definition posix (cur_year month date hour minute second : Z) : Z :=
  let days_of_year := w32 (nth (Z.to_nat (month - 1)) month_table 0 + date - 1) in
  let total_days := w32 (w32 (cur_year - 1970) * 365 + leap_count cur_year month + days_of_year) in
  w64 (total_days * 86400 + hour * 3600 + minute * 60 + second).

(** [update]: the clock after it, and whether [timer.on_second] was called. *)
Definition update (reg : Z -> Z) (r : RTC) : RTC * list call :=
  if truth (Z.land (reg 0x0C) 0x10) then
    let m := mode r in
    let second := read reg m 0 in
    let tick := w64 (time r + 1) in
    let r1 := if reload r then r else Clock tick m (century_index r) (reload r) (func r) in
    if reload r || negb (Z.land tick 0x03 =? Z.land second 0x03) then
      let minute := read reg m 2 in
      let hour := read_hour m (reg 4) in
      let date := read reg m 7 in
      let month := read reg m 8 in
      let year := read reg m 9 in
      let century := if truth (century_index r) then read reg m (century_index r) else 20 in
      if valid century year month date hour minute second then
        (Clock (posix (century * 100 + year) month date hour minute second) m (century_index r) false (func r), [OnSecond])
      else (r1, [])
    else (r1, [OnSecond])
  else (r, []).

Definition on_irq (reg : Z -> Z) (r : RTC) : RTC * list call :=
  let '(r, calls) := update reg r in
  (r, calls ++ match func r with Some f => [Handler f (time r)] | None => [] end).
End Rtc.

Module RtcThm.
Import Rtc.

(** ** The calendar *)

Definition is_leap (y : Z) : bool := (y mod 4 =? 0) && (negb (y mod 100 =? 0) || (y mod 400 =? 0)).
Definition month_days (y m : Z) : Z :=
  if m =? 2 then 28 + b2z (is_leap y) else if (m =? 4) || (m =? 6) || (m =? 9) || (m =? 11) then 30 else 31.

(** Days of the [n] years from 1970, and of the [n] months from January. *)
Fixpoint years_days (n : nat) : Z :=
  match n with O => 0 | S n => years_days n + 365 + b2z (is_leap (1970 + Z.of_nat n)) end.
Fixpoint months_days (y : Z) (n : nat) : Z :=
  match n with O => 0 | S n => months_days y n + month_days y (Z.of_nat n + 1) end.

Definition days_since_1970 (y m d : Z) : Z :=
  years_days (Z.to_nat (y - 1970)) + months_days y (Z.to_nat (m - 1)) + (d - 1).

(** The leap days before the first of January, as the code counts them. *)
Definition leaps_before (y : Z) : Z :=
  (y - 1969) / 4 - (if 2100 <? y then ((y - 1) / 100 - 20) - ((y - 1) / 100 - 20) / 4 else 0).

(** Passing a multiple of [k]. *)
Lemma div_step k y : 0 < k -> y / k = (y - 1) / k + b2z (y mod k =? 0).
Proof.
  intros Hk. pose proof (Z.div_mod y k ltac:(lia)) as E. pose proof (Z.mod_pos_bound y k Hk) as Hr.
  destruct (Z.eqb_spec (y mod k) 0) as [E0|E0]; cbn.
  - enough ((y - 1) / k = y / k - 1) by lia. symmetry. apply (Z.div_unique_pos (y - 1) k (y / k - 1) (k - 1)); lia.
  - enough ((y - 1) / k = y / k) by lia. symmetry. apply (Z.div_unique_pos (y - 1) k (y / k) (y mod k - 1)); lia.
Qed.

Lemma leaps_before_eq y : 2000 <= y -> leaps_before y = (y - 1) / 4 - 492 - (y - 1) / 100 + (y - 1) / 400 + 15.
Proof.
  intros Hy. unfold leaps_before.
  assert ((y - 1969) / 4 = (y - 1) / 4 - 492) as -> by dlia.
  assert (((y - 1) / 100 - 20) / 4 = (y - 1) / 400 - 5) as Hc.
  { replace ((y - 1) / 100 - 20) with ((y - 1) / 100 + (-5) * 4) by lia. rewrite Z.div_add, Z.div_div by lia. f_equal. }
  destruct (Z.ltb_spec 2100 y); [lia|]. dlia.
Qed.

Lemma multiple_of y k n : 0 < k -> 0 < n -> y mod (k * n) = 0 -> y mod k = 0.
Proof. intros Hk Hn E. apply Z.div_exact in E; [|lia]. rewrite E, <- Z.mul_assoc, Z.mul_comm. apply Z.mod_mul. lia. Qed.

Lemma leaps_step y : 2000 <= y -> leaps_before (y + 1) = leaps_before y + b2z (is_leap y).
Proof.
  intros Hy. rewrite !leaps_before_eq by lia. replace (y + 1 - 1) with y by lia.
  rewrite (div_step 4 y), (div_step 100 y), (div_step 400 y) by lia. unfold is_leap.
  pose proof (multiple_of y 4 25 ltac:(lia) ltac:(lia) : y mod 100 = 0 -> _).
  pose proof (multiple_of y 100 4 ltac:(lia) ltac:(lia) : y mod 400 = 0 -> _).
  destruct (Z.eqb_spec (y mod 4) 0), (Z.eqb_spec (y mod 100) 0), (Z.eqb_spec (y mod 400) 0); cbn; lia.
Qed.

Lemma years_days_eq n : (30 <= n)%nat -> years_days n = 365 * Z.of_nat n + leaps_before (1970 + Z.of_nat n).
Proof.
  induction n as [|n IH]; intros Hn; [lia|]. destruct (decide (n = 29%nat)) as [->|]; [by vm_compute|].
  cbn [years_days]. rewrite IH by lia. replace (1970 + Z.of_nat (S n)) with (1970 + Z.of_nat n + 1) by lia.
  rewrite leaps_step by lia. lia.
Qed.

Lemma years_days_from y : 2000 <= y -> years_days (Z.to_nat (y - 1970)) = 365 * (y - 1970) + leaps_before y.
Proof.
  intros Hy. rewrite years_days_eq by lia. replace (1970 + Z.of_nat (Z.to_nat (y - 1970))) with y by lia. lia.
Qed.

Lemma month_table_eq y m : 1 <= m <= 12 ->
  months_days y (Z.to_nat (m - 1)) = nth (Z.to_nat (m - 1)) month_table 0 + b2z ((2 <? m) && is_leap y).
Proof.
  intros Hm. replace m with (Z.of_nat (Z.to_nat (m - 1)) + 1) at 3 by lia.
  assert (Hk : (Z.to_nat (m - 1) < 12)%nat) by lia. revert Hk. generalize (Z.to_nat (m - 1)). clear. intros k Hk.
  do 12 (destruct k as [|k]; [cbn [months_days]; unfold month_days; destruct (is_leap y); reflexivity|]). lia.
Qed.

Lemma leaps_range y : 2000 <= y -> 0 <= leaps_before y <= y.
Proof. intros Hy. unfold leaps_before. case_if; dlia. Qed.

(** What the code takes for a leap year. *)
Definition code_leap (y : Z) : bool := if truth (y mod 100) then y mod 400 =? 0 else y mod 4 =? 0.

Lemma leap_count_eq y m : 2000 <= y < 2 ^ 16 -> leap_count y m = leaps_before y + b2z ((2 <? m) && code_leap y).
Proof.
  intros Hy. pose proof (leaps_range y ltac:(lia)) as Hr. unfold leap_count, leaps_before in *. fold (code_leap y).
  rewrite (wrap_small 32 (y - 1969)) by lia. destruct (Z.ltb_spec 2100 y).
  - rewrite (wrap_small 32 ((y - 1) / 100 - 20)) by dlia. rewrite (wrap_small 32 (_ - _)) by lia.
    destruct (2 <? m), (code_leap y); cbn; rewrite ?wrap_small by lia; lia.
  - destruct (2 <? m), (code_leap y); cbn; rewrite ?wrap_small by lia; lia.
Qed.

Lemma month_table_range k : 0 <= nth k month_table 0 <= 334.
Proof. do 12 (destruct k as [|k]; [cbn; lia|]). destruct k; cbn; lia. Qed.

(** The days by which the code is off: it takes no year for a leap year, except the first of each century. *)
Definition days_off (y m : Z) : Z := b2z ((2 <? m) && code_leap y) - b2z ((2 <? m) && is_leap y).

Definition seconds_since_1970 (y m d h mi s : Z) : Z := days_since_1970 y m d * 86400 + h * 3600 + mi * 60 + s.

Lemma posix_eq y m d h mi s : 2000 <= y < 2 ^ 16 -> 1 <= m <= 12 -> 1 <= d <= 31 -> 0 <= h <= 23 -> 0 <= mi <= 59 -> 0 <= s <= 59 ->
  posix y m d h mi s = seconds_since_1970 y m d h mi s + days_off y m * 86400 /\ posix y m d h mi s mod 4 = s mod 4.
Proof.
  intros Hy Hm Hd Hh Hmi Hs. unfold posix. pose proof (month_table_range (Z.to_nat (m - 1))) as Ht.
  pose proof (leap_count_eq y m Hy) as Hl. pose proof (leaps_range y ltac:(lia)) as Hr.
  rewrite (wrap_small 32 (y - 1970)), (wrap_small 32 (_ + d - 1)) by lia.
  assert (0 <= b2z ((2 <? m) && code_leap y) <= 1) by (destruct (_ && _); cbn; lia).
  rewrite (wrap_small 32) by (rewrite Hl; lia). rewrite wrap_small by (rewrite Hl; lia). split.
  - unfold seconds_since_1970, days_off, days_since_1970. rewrite years_days_from, month_table_eq by lia. rewrite Hl. lia.
  - generalize ((y - 1970) * 365 + leap_count y m + (nth (Z.to_nat (m - 1)) month_table 0 + d - 1)). intros t. dlia.
Qed.

(** The time computed from a date from 2000 on is the number of seconds since 1970 of the Gregorian
    calendar, except after February of a year that the code misjudges: it is one day behind in an
    ordinary leap year, and one day ahead in the first year of a century that is no leap year. *)
Theorem posix_calendar y m d h mi s :
  2000 <= y < 2 ^ 16 -> 1 <= m <= 12 -> 1 <= d <= 31 -> 0 <= h <= 23 -> 0 <= mi <= 59 -> 0 <= s <= 59 ->
  posix y m d h mi s = seconds_since_1970 y m d h mi s +
    (if 2 <? m then (if y mod 100 =? 0 then (if y mod 400 =? 0 then 0 else 86400) else (if y mod 4 =? 0 then -86400 else 0)) else 0).
Proof.
  intros Hy Hm Hd Hh Hmi Hs. rewrite (proj1 (posix_eq y m d h mi s Hy Hm Hd Hh Hmi Hs)). f_equal.
  unfold days_off, code_leap, is_leap, truth. pose proof (multiple_of y 4 25 ltac:(lia) ltac:(lia) : y mod 100 = 0 -> _).
  pose proof (multiple_of y 100 4 ltac:(lia) ltac:(lia) : y mod 400 = 0 -> _).
  destruct (2 <? m), (Z.eqb_spec (y mod 4) 0), (Z.eqb_spec (y mod 100) 0), (Z.eqb_spec (y mod 400) 0); cbn; lia.
Qed.

(** 2024-03-01 00:00:00 is second 1709251200; the code answers the day before. *)
Lemma posix_calendar_witness : posix 2024 3 1 0 0 0 = seconds_since_1970 2024 3 1 0 0 0 + -86400 /\
  seconds_since_1970 2024 3 1 0 0 0 = 1709251200.
Proof.
  split; [|reflexivity]. exact (posix_calendar 2024 3 1 0 0 0 ltac:(lia) ltac:(lia) ltac:(lia) ltac:(lia) ltac:(lia) ltac:(lia)).
Defined.

(** ** The registers *)

Definition bcd (v : Z) : Z := Z.shiftl (v / 10) 4 + v mod 10.
(** A register that shows [v] under mode [m]. *)
Definition show (m v : Z) : Z := if truth (Z.land m 0x04) then v else bcd v.
(** The hour register: in the 12-hour mode, 12 stands for 0 and bit 7 for the afternoon. *)
Definition show_hour (m h : Z) : Z :=
  if truth (Z.land m 0x02) then show m h
  else Z.lor (show m (if h mod 12 =? 0 then 12 else h mod 12)) (if 12 <=? h then 0x80 else 0).

Lemma forall_below (P : Z -> bool) n : forallb P (seqZ 0 n) = true -> forall v, 0 <= v < n -> P v = true.
Proof. intros H v Hv. rewrite forallb_forall in H. apply H, list_elem_of_In, elem_of_seqZ. lia. Qed.

Lemma convert_show m v : 0 <= v < 100 -> convert m (show m v) = v.
Proof.
  intros Hv. unfold convert, show. destruct (truth (Z.land m 4)); [done|]. apply Z.eqb_eq. revert v Hv.
  apply (forall_below (fun v => w8 (Z.shiftr (bcd v) 4 * 10 + Z.land (bcd v) 15) =? v)). by vm_compute.
Qed.

(** In either number format the hour register is read correctly in the 24-hour mode and, in the
    12-hour mode, for every hour but two: noon is read as midnight, and midnight as noon. *)
Theorem read_hour_clock m h : 0 <= h < 24 ->
  read_hour m (show_hour m h) = (if truth (Z.land m 0x02) then h else if h =? 0 then 12 else if h =? 12 then 0 else h).
Proof.
  intros Hh. unfold read_hour, show_hour. destruct (truth (Z.land m 2)); [apply convert_show; lia|].
  apply Z.eqb_eq. revert h Hh. unfold show, convert.
  destruct (truth (Z.land m 4)); apply (forall_below (fun h => _ =? _)); by vm_compute.
Qed.

Lemma read_hour_clock_witness : 0 <= 12 < 24 /\ read_hour 0x10 (show_hour 0x10 12) = 0 /\ read_hour 0x12 (show_hour 0x12 12) = 12.
Proof. split; [lia|]. split; [exact (read_hour_clock 0x10 12 ltac:(lia))|exact (read_hour_clock 0x12 12 ltac:(lia))]. Defined.
(** ** Following the clock *)

Record date := Date { year : Z; month : Z; day : Z; hour : Z; minute : Z; second : Z }.

Definition good_date (d : date) : Prop :=
  2000 <= year d < 10000 /\ 1 <= month d <= 12 /\ 1 <= day d <= 31 /\ 0 <= hour d <= 23 /\ 0 <= minute d <= 59 /\ 0 <= second d <= 59.

(** The registers at the end of an update of the clock that shows the date [d]. *)
Definition shows (m c : Z) (reg : Z -> Z) (d : date) : Prop :=
  truth (Z.land (reg 0x0C) 0x10) = true /\ reg 0 = show m (second d) /\ reg 2 = show m (minute d) /\
  reg 4 = show_hour m (hour d) /\ reg 7 = show m (day d) /\ reg 8 = show m (month d) /\ reg 9 = show m (year d mod 100) /\
  (if truth c then reg c = show m (year d / 100) else year d / 100 = 20).

Definition posix_of (m : Z) (d : date) : Z :=
  posix (year d) (month d) (day d) (read_hour m (show_hour m (hour d))) (minute d) (second d).

Lemma read_hour_range m h : 0 <= h <= 23 -> 0 <= read_hour m (show_hour m h) <= 23.
Proof.
  intros Hh. assert (forall h, 0 <= h < 24 -> (0 <=? read_hour m (show_hour m h)) && (read_hour m (show_hour m h) <=? 23) = true) as H.
  { unfold read_hour, show_hour, show, convert. destruct (truth (Z.land m 2)), (truth (Z.land m 4));
      apply (forall_below (fun h => _ && _)); by vm_compute. }
  specialize (H h ltac:(lia)). bool_norm. lia.
Qed.

Lemma posix_of_mod m d : good_date d -> 0 <= posix_of m d < 2 ^ 64 /\ posix_of m d mod 4 = second d mod 4.
Proof.
  intros (Hy & Hm & Hd & Hh & Hmi & Hs). split; [apply wrap_range; lia|].
  apply posix_eq; try lia. by apply read_hour_range.
Qed.

Lemma update_shows r reg d : good_date d -> shows (mode r) (century_index r) reg d ->
  (reload r = false -> posix_of (mode r) d = time r + 1 \/ (posix_of (mode r) d - time r) mod 4 <> 1) ->
  update reg r = (Clock (posix_of (mode r) d) (mode r) (century_index r) false (func r), [OnSecond]).
Proof.
  intros Hg (H0c & H0 & H2 & H4 & H7 & H8 & H9 & Hc) Hr. pose proof (posix_of_mod (mode r) d Hg) as [Hp Hp4].
  destruct Hg as (Hy & Hm & Hd & Hh & Hmi & Hs). unfold update, read. rewrite H0c, H0, H2, H4, H7, H8, H9.
  rewrite !convert_show by (try apply Z.mod_pos_bound; lia).
  assert (E : year d / 100 * 100 + year d mod 100 = year d) by (pose proof (Z.div_mod (year d) 100 ltac:(lia)); lia).
  assert (Hcent : (if truth (century_index r) then convert (mode r) (reg (century_index r)) else 20) = year d / 100).
  { revert Hc. destruct (truth (century_index r)); intros ->; [|done]. apply convert_show. dlia. }
  rewrite Hcent, E. fold (posix_of (mode r) d). pose proof (read_hour_range (mode r) (hour d) Hh) as Hrh.
  assert (Hv : valid (year d / 100) (year d mod 100) (month d) (day d) (read_hour (mode r) (show_hour (mode r) (hour d))) (minute d) (second d) = true).
  { unfold valid. apply negb_true_iff. pose proof (Z.mod_pos_bound (year d) 100 ltac:(lia)).
    assert (20 <= year d / 100) by dlia. repeat (apply orb_false_iff; split); first [apply Z.ltb_ge; lia|apply Z.eqb_neq; lia]. }
  rewrite Hv. destruct (reload r) eqn:Er; [done|]. cbn [orb].
  rewrite !(land_low_mask _ 2 ltac:(lia) : Z.land _ 3 = _). change (2 ^ 2) with 4.
  destruct (Hr eq_refl) as [Hn|Hn]; [|case_if].
  - rewrite (wrap_small 64) by lia. rewrite <- Hn, Hp4, Z.eqb_refl. cbn [negb]. done.
  - done.
  - bool_norm. exfalso. apply Hn. assert (Hw : w64 (time r + 1) mod 4 = (time r + 1) mod 4) by (unfold wrap; dlia).
    rewrite Hw, <- Hp4 in E0. dlia.
Qed.

Fixpoint updates (regs : list (Z -> Z)) (r : RTC) : list (Z * list call) :=
  match regs with
  | [] => []
  | reg :: regs => let '(r, calls) := update reg r in (time r, calls) :: updates regs r
  end.

(** Interrupts may be missed, but not so that exactly four seconds, or a multiple, are skipped. *)
Fixpoint not_skipping (ps : list Z) : Prop :=
  match ps with
  | p :: (q :: _) as ps' => (q = p + 1 \/ (q - p) mod 4 <> 1) /\ not_skipping ps'
  | _ => True
  end.

(** From its first interrupt on the kernel's time is that of the clock: after each interrupt it is the
    time computed from the date shown, although the date is read again only when the low bits of the
    seconds disagree, and each interrupt reports its second once. *)
Theorem time_follows r regs ds :
  reload r = true -> Forall good_date ds -> Forall2 (shows (mode r) (century_index r)) regs ds ->
  not_skipping (posix_of (mode r) <$> ds) ->
  updates regs r = (fun d => (posix_of (mode r) d, [OnSecond])) <$> ds.
Proof.
  intros Hr Hg Hs Hn.
  assert (Hp : forall p, reload r = false -> head (posix_of (mode r) <$> ds) = Some p -> p = time r + 1 \/ (p - time r) mod 4 <> 1) by (by rewrite Hr).
  clear Hr. revert r Hg Hs Hn Hp. revert regs. induction ds as [|d ds IH]; intros regs r Hg Hs Hn Hp; inversion Hs as [|reg ? regs' ? Hs1 Hs2]; subst; [done|].
  inversion Hg as [|? ? Hg1 Hg2]; subst. cbn [updates]. rewrite (update_shows r reg d Hg1 Hs1) by (intros Hr; by apply Hp).
  cbn [fmap list_fmap time]. f_equal. apply (IH _ (Clock (posix_of (mode r) d) (mode r) (century_index r) false (func r)) Hg2 Hs2).
  - cbn [fmap list_fmap not_skipping] in Hn. cbn [mode]. destruct ds; [done|]. apply Hn.
  - intros p _ Hh. cbn [mode time] in *. destruct ds as [|d2 ds]; [done|]. cbn in Hh. injection Hh as <-. cbn in Hn. apply Hn.
Qed.

(** Two seconds around the new year of 2022, shown in BCD. *)
Definition reg_of (d : date) (i : Z) : Z :=
  if i =? 0x0C then 0x10 else if i =? 0 then bcd (second d) else if i =? 2 then bcd (minute d) else if i =? 4 then bcd (hour d)
  else if i =? 7 then bcd (day d) else if i =? 8 then bcd (month d) else if i =? 9 then bcd (year d mod 100) else bcd (year d / 100).
Definition new_year : list date := [Date 2021 12 31 23 59 59; Date 2022 1 1 0 0 0].

Lemma time_follows_witness : updates (reg_of <$> new_year) (new_rtc 0x02 0x32) = [(1640995199, [OnSecond]); (1640995200, [OnSecond])].
Proof.
  refine (time_follows (new_rtc 0x02 0x32) (reg_of <$> new_year) new_year eq_refl _ _ _).
  - repeat constructor; cbn; lia.
  - repeat constructor.
  - split; [left; reflexivity|done].
Defined.
End RtcThm.
