(* ===== verification/HashSet.v ===== *)
(** * Hash sets (src/util/include/hash_set.hpp)

    A chain is the sequence of its nodes: LinkedList.v shows that the linked list is one.  A node is known
    by its address, which is what iterators hold and what stays put when the set grows.  The bucket
    vector is the list of its chains. *)

From S2P Require Import Prelude.

Module HashSet.
Section hash_set.
Context {T K : Type} (hash_of : T -> Z) (hash_key : K -> Z) (obj_equal : T -> K -> bool).

Record entry := Entry { node : Z; hash_value : Z; payload : T }.
Abbreviation chain := (list entry).
Record hash_set := HSet { bucket : list chain; count : Z }.

(** An iterator: a node of a bucket, or the end, where the chain iterator is not looked at. *)
Inductive pos := At (b : nat) (n : Z) | End.

Definition pos_eqb (p q : pos) : bool :=
  match p, q with
  | At b n, At b' n' => Nat.eqb b b' && (n =? n')
  | End, End => true
  | _, _ => false
  end.

Definition chain_begin (ch : chain) : option Z := match ch with [] => None | e :: _ => Some (node e) end.

(** The node behind [n]; a node that is not in the chain is an error. *)
Fixpoint chain_after (n : Z) (ch : chain) : outcome (option Z) :=
  match ch with
  | [] => Bug
  | e :: ch => if node e =? n then Ok (chain_begin ch) else chain_after n ch
  end.

Fixpoint chain_node (n : Z) (ch : chain) : outcome entry :=
  match ch with
  | [] => Bug
  | e :: ch => if node e =? n then Ok e else chain_node n ch
  end.

Fixpoint chain_erase (n : Z) (ch : chain) : outcome (option Z * chain) :=
  match ch with
  | [] => Bug
  | e :: ch =>
      if node e =? n then Ok (chain_begin ch, ch)
      else let! (c, ch) := chain_erase n ch; Ok (c, e :: ch)
  end.

(** [iterator_base]: from the chain iterator [c] of bucket [i] to the next node; [bs] are the buckets from
    [i] on.  Also the indices of the buckets that are read on the way. *)
Fixpoint settle (i : nat) (bs : list chain) (c : option Z) : pos * list nat :=
  match bs with
  | [] => (End, [])
  | _ :: bs =>
      match c with
      | Some n => (At i n, [])
      | None =>
          let c := match bs with [] => None | ch :: _ => chain_begin ch end in
          let '(p, reads) := settle (S i) bs c in (p, S i :: reads)
      end
  end.

Definition new_set (fac : Z) : outcome hash_set := assert! truth fac; Ok (HSet (replicate (Z.to_nat fac) []) 0).

Definition size (h : hash_set) : Z := count h.
Definition empty (h : hash_set) : bool := count h =? 0.
Definition bucket_count (h : hash_set) : Z := Z.of_nat (length (bucket h)).
Definition clear (h : hash_set) : hash_set := HSet ((fun _ => []) <$> bucket h) 0.

Definition begin (h : hash_set) : outcome (pos * list nat) :=
  match bucket h with [] => Bug | ch :: _ => Ok (settle 0 (bucket h) (chain_begin ch)) end.

Definition incr (p : pos) (h : hash_set) : outcome (pos * list nat) :=
  match p with
  | End => Bug
  | At b n =>
      let! ch := deref (bucket h !! b);
      let! c := chain_after n ch;
      Ok (settle b (drop b (bucket h)) c)
  end.

Definition at_pos (p : pos) (h : hash_set) : outcome T :=
  match p with
  | End => Bug
  | At b n => let! ch := deref (bucket h !! b); let! e := chain_node n ch; Ok (payload e)
  end.

Definition find_bucket (hv : Z) (bs : list chain) : outcome nat :=
  let cnt := Z.of_nat (length bs) in
  assert! truth cnt; Ok (Z.to_nat (hv mod cnt)).

Fixpoint find_chain (key_hash : Z) (key : K) (ch : chain) : option Z :=
  match ch with
  | [] => None
  | e :: ch => if (hash_value e =? key_hash) && obj_equal (payload e) key then Some (node e) else find_chain key_hash key ch
  end.

Definition find (key : K) (h : hash_set) : outcome pos :=
  let key_hash := hash_key key in
  let! bkt := find_bucket key_hash (bucket h);
  let! ch := deref (bucket h !! bkt);
  Ok match find_chain key_hash key ch with Some n => At bkt n | None => End end.

Definition erase (p : pos) (h : hash_set) : outcome (pos * list nat * hash_set) :=
  match p with
  | End => Bug
  | At b n =>
      let! ch := deref (bucket h !! b);
      assert! truth (count h);
      let! (c, ch) := chain_erase n ch;
      let bs := <[b := ch]> (bucket h) in
      Ok (settle b (drop b bs) c, HSet bs (count h - 1))
  end.

(** The moving constructor: every node of the old buckets, from the first on, goes to the back of its new chain. *)
Fixpoint move_chain (ch : chain) (bs : list chain) (c : Z) : outcome (list chain * Z) :=
  match ch with
  | [] => Ok (bs, c)
  | e :: ch =>
      let! target := find_bucket (hash_value e) bs;
      move_chain ch (alter (fun l => l ++ [e]) target bs) (c + 1)
  end.

Fixpoint move_all (old : list chain) (bs : list chain) (c : Z) : outcome (list chain * Z) :=
  match old with
  | [] => Ok (bs, c)
  | ch :: old => let! (bs, c) := move_chain ch bs c; move_all old bs c
  end.

Definition rehash (fac : Z) (h : hash_set) : outcome hash_set :=
  assert! truth fac;
  let! (bs, c) := move_all (bucket h) (replicate (Z.to_nat fac) []) 0;
  assert! c =? count h;
  Ok (HSet bs c).

(** [insert]: [n] is the address of the new node. *)
Definition insert (n : Z) (x : T) (h : hash_set) : outcome (pos * hash_set) :=
  let! h := if bucket_count h <=? count h then rehash (w32 (2 * count h)) h else Ok h;
  let hv := hash_of x in
  let! bkt := find_bucket hv (bucket h);
  Ok (At bkt n, HSet (alter (fun l => Entry n hv x :: l) bkt (bucket h)) (count h + 1)).
End hash_set.
Arguments entry : clear implicits.
Arguments hash_set : clear implicits.
End HashSet.

Module HashThm.
Import HashSet.

Lemma nodup_split {A} (x y b z : list A) a l : NoDup l -> l = x ++ a :: y -> l = b ++ a :: z -> y = z.
Proof.
  intros Hd -> E. revert b E Hd. induction x as [|c x IH]; intros [|d b] E Hd; cbn in *.
  - by injection E.
  - injection E as <- ->. apply NoDup_cons in Hd as [Hd _]. set_solver.
  - injection E as -> _. apply NoDup_cons in Hd as [Hd _]. set_solver.
  - injection E as -> E. apply NoDup_cons in Hd as [_ Hd]. by eapply IH.
Qed.

Lemma elem_between {A} (l1 l2 : list A) e : e ∈ l1 ++ e :: l2.
Proof. apply elem_of_app. right. by left. Qed.

Lemma elem_dropped {A} (l1 l2 : list A) e x : x ∈ l1 ++ l2 -> x ∈ l1 ++ e :: l2.
Proof. rewrite !elem_of_app, elem_of_cons. tauto. Qed.

Section theory.
Context {T K : Type} (hash_of : T -> Z) (hash_key : K -> Z) (obj_equal : T -> K -> bool).
Context (equal_hash : forall x k, obj_equal x k = true -> hash_of x = hash_key k).
#[local] Set Default Proof Using "Type".

Abbreviation entry := (entry T).
Abbreviation chain := (list (HashSet.entry T)).
Abbreviation hash_set := (hash_set T).

(** ** Chains *)

Definition elems (h : hash_set) : list entry := concat (bucket h).
Definition home (cnt : nat) (hv : Z) : nat := Z.to_nat (hv mod Z.of_nat cnt).

Record wf (h : hash_set) : Prop := {
  wf_some : bucket h <> [];
  wf_count : count h = Z.of_nat (length (elems h));
  wf_hash : Forall (fun e => hash_value e = hash_of (payload e)) (elems h);
  wf_home : forall b ch e, bucket h !! b = Some ch -> e ∈ ch -> home (length (bucket h)) (hash_value e) = b;
  wf_nodes : NoDup (node <$> elems h)
}.

Lemma elems_bucket h b ch e : bucket h !! b = Some ch -> e ∈ ch -> e ∈ elems h.
Proof. intros Eb He. apply list_elem_of_In, in_concat. exists ch. split; apply list_elem_of_In; [by eapply list_elem_of_lookup_2|done]. Qed.

Lemma elems_find h e : e ∈ elems h -> exists b ch, bucket h !! b = Some ch /\ e ∈ ch.
Proof.
  intros He. apply list_elem_of_In, in_concat in He as (ch & Hch & He). apply list_elem_of_In in Hch, He.
  apply list_elem_of_lookup_1 in Hch as [b Eb]. by exists b, ch.
Qed.

Lemma home_lt cnt hv : (0 < cnt)%nat -> (home cnt hv < cnt)%nat.
Proof. intros Hc. unfold home. pose proof (Z.mod_pos_bound hv (Z.of_nat cnt) ltac:(lia)). lia. Qed.

Lemma find_bucket_ok hv (bs : list chain) : bs <> [] -> find_bucket hv bs = Ok (home (length bs) hv).
Proof. intros Hb. unfold find_bucket. rewrite ensure_true; [done|]. apply truth_pos. destruct bs; [done|]. cbn. lia. Qed.

Lemma chain_split (ch : chain) e : e ∈ ch -> NoDup (node <$> ch) -> exists l1 l2, ch = l1 ++ e :: l2 /\ (node e ∉ node <$> l1) /\ (node e ∉ node <$> l2).
Proof.
  intros He Hn. apply list_elem_of_split in He as (l1 & l2 & ->). exists l1, l2. split; [done|].
  rewrite fmap_app in Hn. cbn in Hn. apply NoDup_app in Hn as (_ & H12 & H2). apply NoDup_cons in H2 as [H2 _]. split; [|done].
  intros H1. apply (H12 _ H1). by left.
Qed.

Lemma chain_after_at (l1 l2 : chain) e : node e ∉ node <$> l1 -> chain_after (node e) (l1 ++ e :: l2) = Ok (chain_begin l2).
Proof.
  induction l1 as [|a l1 IH]; intros Hn; cbn; [by rewrite Z.eqb_refl|]. cbn in Hn. apply not_elem_of_cons in Hn as [Hne Hn].
  rewrite (proj2 (Z.eqb_neq _ _)) by congruence. by apply IH.
Qed.

Lemma chain_node_at (l1 l2 : chain) e : node e ∉ node <$> l1 -> chain_node (node e) (l1 ++ e :: l2) = Ok e.
Proof.
  induction l1 as [|a l1 IH]; intros Hn; cbn; [by rewrite Z.eqb_refl|]. cbn in Hn. apply not_elem_of_cons in Hn as [Hne Hn].
  rewrite (proj2 (Z.eqb_neq _ _)) by congruence. by apply IH.
Qed.

Lemma chain_erase_at (l1 l2 : chain) e : node e ∉ node <$> l1 -> chain_erase (node e) (l1 ++ e :: l2) = Ok (chain_begin l2, l1 ++ l2).
Proof.
  induction l1 as [|a l1 IH]; intros Hn; cbn; [by rewrite Z.eqb_refl|]. cbn in Hn. apply not_elem_of_cons in Hn as [Hne Hn].
  rewrite (proj2 (Z.eqb_neq _ _)) by congruence. by rewrite IH.
Qed.

Lemma find_chain_ok kh k (ch : chain) :
  match find_chain obj_equal kh k ch with
  | Some n => exists e, e ∈ ch /\ node e = n /\ obj_equal (payload e) k = true
  | None => forall e, e ∈ ch -> hash_value e = kh -> obj_equal (payload e) k = false
  end.
Proof.
  induction ch as [|e ch IH]; cbn; [by intros e He; apply elem_of_nil in He|].
  destruct (Z.eqb_spec (hash_value e) kh) as [Eh|Eh], (obj_equal (payload e) k) eqn:Ee; cbn [andb].
  1: exists e; split; [by left|done].
  all: destruct (find_chain obj_equal kh k ch) as [n|].
  1,3,5: destruct IH as (e' & ? & ?); exists e'; split; [by right|done].
  all: intros e' He' Hh; apply elem_of_cons in He' as [->|He']; [done|by apply IH].
Qed.

(** ** The order of iteration *)

Fixpoint positions_from (i : nat) (bs : list chain) : list pos :=
  match bs with [] => [] | ch :: bs => ((fun e => At i (node e)) <$> ch) ++ positions_from (S i) bs end.
Definition positions (h : hash_set) : list pos := positions_from 0 (bucket h).

Definition first (ps : list pos) : pos := default End (head ps).

Definition next_begin (bs : list chain) : option Z := match bs with [] => None | ch :: _ => chain_begin ch end.

Lemma settle_none i (ch : chain) bs : (settle i (ch :: bs) None).1 = (settle (S i) bs (next_begin bs)).1.
Proof. cbn [settle]. fold (next_begin bs). by destruct (settle (S i) bs (next_begin bs)). Qed.

Lemma settle_begin i (ch : chain) bs : (settle i (ch :: bs) (chain_begin ch)).1 = first (positions_from i (ch :: bs)).
Proof.
  revert i ch. induction bs as [|ch2 bs IH]; intros i [|e ch]; [done|done| |done].
  change (chain_begin []) with (@None Z). rewrite settle_none. apply IH.
Qed.

(** An iterator that comes to the end has read the chain behind the last bucket. *)
Lemma settle_end_reads i bs c : bs <> [] -> forall reads, @settle T i bs c = (End, reads) -> (i + length bs)%nat ∈ reads.
Proof.
  revert i c. induction bs as [|ch bs IH]; intros i c Hb reads E; [done|]. cbn in E. destruct c as [n|]; [discriminate|].
  destruct (settle (S i) bs _) as [p r] eqn:Es. injection E as -> <-. destruct bs as [|ch2 bs].
  - cbn. rewrite Nat.add_1_r. by left.
  - right. assert (i + length (ch :: ch2 :: bs) = S i + length (ch2 :: bs))%nat as -> by (cbn; lia).
    by eapply IH.
Qed.
(** [incr] goes from each position to the next one. *)
Lemma settle_after i (ch l1 l2 : chain) e bs : ch = l1 ++ e :: l2 ->
  (settle i (ch :: bs) (chain_begin l2)).1 = first (((fun e => At i (node e)) <$> l2) ++ positions_from (S i) bs).
Proof.
  intros ->. destruct l2 as [|e2 l2]; [|done]. change (chain_begin []) with (@None Z). rewrite settle_none. cbn [fmap list_fmap app].
  destruct bs as [|ch2 bs]; [done|]. apply settle_begin.
Qed.

Lemma positions_app i bs1 bs2 : positions_from i (bs1 ++ bs2) = positions_from i bs1 ++ positions_from (i + length bs1) bs2.
Proof.
  revert i. induction bs1 as [|ch bs1 IH]; intros i; cbn; [by rewrite Nat.add_0_r|]. rewrite IH, <- app_assoc. by rewrite Nat.add_succ_r.
Qed.

Lemma positions_at i (l1 l2 : chain) e (h : hash_set) : bucket h !! i = Some (l1 ++ e :: l2) ->
  exists ps1, positions h = ps1 ++ At i (node e) :: ((fun e => At i (node e)) <$> l2) ++ positions_from (S i) (drop (S i) (bucket h)).
Proof.
  intros Eb. exists (positions_from 0 (take i (bucket h)) ++ ((fun e => At i (node e)) <$> l1)).
  unfold positions. rewrite <- (take_drop_middle _ _ _ Eb) at 1. rewrite positions_app.
  pose proof (lookup_lt_Some _ _ _ Eb). cbn [plus]. rewrite length_take, Nat.min_l by lia. cbn [positions_from].
  rewrite fmap_app, fmap_cons, <- !app_assoc. done.
Qed.

Lemma drop_bucket i ch (bs : list chain) : bs !! i = Some ch -> drop i bs = ch :: drop (S i) bs.
Proof. intros E. by rewrite (drop_S _ _ _ E). Qed.

Lemma incr_at i (l1 l2 : chain) e (h : hash_set) : bucket h !! i = Some (l1 ++ e :: l2) -> node e ∉ node <$> l1 ->
  exists reads, incr (At i (node e)) h =
    Ok (first (((fun e => At i (node e)) <$> l2) ++ positions_from (S i) (drop (S i) (bucket h))), reads).
Proof.
  intros Eb Hn. cbn [incr]. rewrite (deref_Some _ _ Eb). cbn [obind]. rewrite chain_after_at by done. cbn [obind].
  rewrite (drop_bucket _ _ _ Eb). pose proof (settle_after i _ l1 l2 e (drop (S i) (bucket h)) eq_refl) as Hs.
  destruct (settle i _ _) as [p reads]. exists reads. cbn [fst] in Hs. by rewrite Hs.
Qed.

Lemma wf_chain h b ch : wf h -> bucket h !! b = Some ch -> NoDup (node <$> ch).
Proof.
  intros Hw Eb. pose proof (wf_nodes _ Hw) as Hn. unfold elems in Hn. rewrite <- (take_drop_middle _ _ _ Eb) in Hn.
  rewrite concat_app in Hn. cbn in Hn. rewrite !fmap_app in Hn. apply NoDup_app in Hn as (_ & _ & Hn). by apply NoDup_app in Hn as (Hn & _).
Qed.

(** Every element has a position, in a bucket that its hash value selects. *)
Lemma elem_position h e : wf h -> e ∈ elems h -> exists b l1 l2, bucket h !! b = Some (l1 ++ e :: l2) /\ node e ∉ node <$> l1 /\
  b = home (length (bucket h)) (hash_of (payload e)).
Proof.
  intros Hw He. destruct (elems_find h e He) as (b & ch & Eb & Hc).
  destruct (chain_split ch e Hc (wf_chain h b ch Hw Eb)) as (l1 & l2 & -> & Hn & _). exists b, l1, l2. split; [done|]. split; [done|].
  pose proof (wf_home _ Hw _ _ _ Eb Hc) as Hh. pose proof (wf_hash _ Hw) as Ha. rewrite Forall_forall in Ha. by rewrite <- (Ha _ He).
Qed.

Definition pos_of (h : hash_set) (e : entry) : pos := At (home (length (bucket h)) (hash_of (payload e))) (node e).

Lemma positions_elems_from h i bs : (forall k ch e, bs !! k = Some ch -> e ∈ ch -> home (length (bucket h)) (hash_of (payload e)) = (i + k)%nat) ->
  positions_from i bs = pos_of h <$> concat bs.
Proof.
  revert i. induction bs as [|ch bs IH]; intros i Hh; [done|]. cbn [positions_from concat]. rewrite fmap_app. f_equal.
  - apply list_fmap_ext. intros k e Ek. unfold pos_of. rewrite (Hh 0%nat ch e eq_refl) by (by eapply list_elem_of_lookup_2). by rewrite Nat.add_0_r.
  - apply IH. intros k ch' e Ek He. rewrite (Hh (S k) ch' e Ek He). lia.
Qed.

Lemma positions_elems h : wf h -> positions h = pos_of h <$> elems h.
Proof.
  intros Hw. apply positions_elems_from. intros k ch e Ek He. pose proof (wf_hash _ Hw) as Ha. rewrite Forall_forall in Ha.
  rewrite <- (Ha e) by (by eapply elems_bucket). by apply (wf_home _ Hw k ch).
Qed.

Definition pos_node (p : pos) : Z := match p with At _ n => n | End => 0 end.

Lemma positions_nodup h : wf h -> NoDup (positions h).
Proof.
  intros Hw. rewrite positions_elems by done. apply (NoDup_fmap_1 pos_node). rewrite <- list_fmap_compose. apply (wf_nodes _ Hw).
Qed.

(** ** The operations *)

Lemma at_pos_ok h e : wf h -> e ∈ elems h -> at_pos (pos_of h e) h = Ok (payload e).
Proof.
  intros Hw He. destruct (elem_position h e Hw He) as (b & l1 & l2 & Eb & Hn & Hb). unfold pos_of. rewrite <- Hb. cbn [at_pos].
  rewrite (deref_Some _ _ Eb). cbn [obind]. by rewrite chain_node_at.
Qed.

Lemma find_ok h k : wf h ->
  (exists e, e ∈ elems h /\ obj_equal (payload e) k = true /\ find hash_key obj_equal k h = Ok (pos_of h e)) \/
  ((forall e, e ∈ elems h -> obj_equal (payload e) k = false) /\ find hash_key obj_equal k h = Ok End).
Proof using equal_hash.
  intros Hw. unfold find. rewrite find_bucket_ok by apply (wf_some _ Hw). cbn [obind]. set (b := home _ _).
  assert (Hb : (b < length (bucket h))%nat).
  { apply home_lt. pose proof (wf_some _ Hw). destruct (bucket h); [done|]. cbn. lia. }
  apply lookup_lt_is_Some_2 in Hb as [ch Eb]. rewrite (deref_Some _ _ Eb). cbn [obind].
  pose proof (find_chain_ok (hash_key k) k ch) as Hf. destruct (find_chain obj_equal (hash_key k) k ch) as [n|].
  - left. destruct Hf as (e & He & <- & Hk). exists e. split; [by eapply elems_bucket|]. split; [done|]. unfold pos_of.
    by rewrite (equal_hash _ _ Hk).
  - right. split; [|done]. intros e He. destruct (elem_position h e Hw He) as (b' & l1 & l2 & Eb' & _ & Hb').
    destruct (obj_equal (payload e) k) eqn:Ek; [|done]. pose proof (equal_hash _ _ Ek) as Eh. rewrite Eh in Hb'. fold b in Hb'. subst b'.
    rewrite Eb in Eb'. injection Eb' as ->. rewrite <- Ek. apply Hf; [set_solver|].
    pose proof (wf_hash _ Hw) as Ha. rewrite Forall_forall in Ha. by rewrite (Ha _ He).
Qed.

Lemma begin_ok h : wf h -> exists reads, begin h = Ok (first (pos_of h <$> elems h), reads).
Proof.
  intros Hw. rewrite <- positions_elems by done. unfold begin, positions. pose proof (wf_some _ Hw). destruct (bucket h) as [|ch bs]; [done|].
  pose proof (settle_begin 0 ch bs) as Hs. destruct (settle 0 (ch :: bs) (chain_begin ch)) as [p reads]. exists reads. cbn [fst] in Hs. by rewrite Hs.
Qed.

Lemma incr_ok h l1 e l2 : wf h -> elems h = l1 ++ e :: l2 -> exists reads, incr (pos_of h e) h = Ok (first (pos_of h <$> l2), reads).
Proof.
  intros Hw El. assert (He : e ∈ elems h) by (rewrite El; apply elem_between).
  destruct (elem_position h e Hw He) as (b & c1 & c2 & Eb & Hn & Hb). destruct (incr_at b c1 c2 e h Eb Hn) as [reads Hi].
  exists reads. unfold pos_of at 1. rewrite <- Hb, Hi. do 3 f_equal.
  destruct (positions_at b c1 c2 e h Eb) as [ps1 Hp]. pose proof (positions_nodup h Hw) as Hd.
  symmetry. eapply (nodup_split _ _ _ _ _ _ Hd).
  - by rewrite positions_elems, El, fmap_app, fmap_cons.
  - unfold pos_of. rewrite <- Hb. exact Hp.
Qed.

(** Taking a node out: the iterator that comes back is at the element behind it. *)
Lemma concat_insert (bs : list chain) b ch new : bs !! b = Some ch ->
  concat (<[b := new]> bs) = concat (take b bs) ++ new ++ concat (drop (S b) bs).
Proof. intros E. rewrite insert_take_drop by (by eapply lookup_lt_Some). by rewrite concat_app. Qed.

Lemma concat_split (bs : list chain) b ch : bs !! b = Some ch -> concat bs = concat (take b bs) ++ ch ++ concat (drop (S b) bs).
Proof. intros E. rewrite <- (concat_insert bs b ch ch E). by rewrite list_insert_id. Qed.

Lemma erase_ok h l1 e l2 : wf h -> elems h = l1 ++ e :: l2 -> exists reads h',
  erase (pos_of h e) h = Ok (first (pos_of h' <$> l2), reads, h') /\ wf h' /\ elems h' = l1 ++ l2 /\ length (bucket h') = length (bucket h).
Proof.
  intros Hw El. assert (He : e ∈ elems h) by (rewrite El; apply elem_between).
  destruct (elem_position h e Hw He) as (b & c1 & c2 & Eb & Hn & Hb).
  unfold erase, pos_of. rewrite <- Hb. rewrite (deref_Some _ _ Eb). cbn [obind].
  rewrite ensure_true by (apply truth_pos; rewrite (wf_count _ Hw), El, length_app; cbn; lia). cbn [obind].
  rewrite chain_erase_at by done. cbn [obind]. set (bs := <[b := c1 ++ c2]> (bucket h)).
  set (h' := HSet bs (count h - 1)).
  pose proof (concat_split _ _ _ Eb) as Hs. pose proof (concat_insert _ _ _ (c1 ++ c2) Eb) as Hi.
  assert (Hl : l1 = concat (take b (bucket h)) ++ c1 /\ l2 = c2 ++ concat (drop (S b) (bucket h))).
  { pose proof (wf_nodes _ Hw) as Hd. apply NoDup_fmap_1 in Hd. unfold elems in El, Hd. rewrite Hs in El.
    assert (E2 : (concat (take b (bucket h)) ++ c1) ++ e :: c2 ++ concat (drop (S b) (bucket h)) = l1 ++ e :: l2).
    { rewrite <- El, <- !app_assoc. done. }
    rewrite Hs in Hd. replace (concat (take b (bucket h)) ++ (c1 ++ e :: c2) ++ concat (drop (S b) (bucket h))) with
      ((concat (take b (bucket h)) ++ c1) ++ e :: c2 ++ concat (drop (S b) (bucket h))) in Hd by (by rewrite <- !app_assoc).
    pose proof (nodup_split _ _ _ _ _ _ Hd eq_refl E2) as Ey. split; [|done]. rewrite <- Ey in E2. by apply app_inv_tail in E2. }
  assert (El' : elems h' = l1 ++ l2).
  { unfold elems, h', bs. cbn [bucket]. rewrite Hi. destruct Hl as [-> ->]. by rewrite <- !app_assoc. }
  assert (Hlen : length bs = length (bucket h)) by apply length_insert.
  assert (Hw' : wf h').
  { constructor.
    - cbn. intros E. rewrite E in Hlen. pose proof (wf_some _ Hw). destruct (bucket h); [done|]. cbn in Hlen. lia.
    - cbn [count h']. rewrite El', (wf_count _ Hw), El, !length_app. cbn. lia.
    - rewrite El'. pose proof (wf_hash _ Hw) as Ha. rewrite El in Ha. apply Forall_app in Ha as [Ha1 Ha2]. apply Forall_cons in Ha2 as [_ Ha2].
      by apply Forall_app.
    - cbn [bucket h']. rewrite Hlen. intros k ch x Ek Hx. unfold bs in Ek. apply list_lookup_insert_Some in Ek as [(-> & <- & _)|(Hne & Ek)].
      + apply (wf_home _ Hw _ _ x Eb). by apply elem_dropped.
      + by apply (wf_home _ Hw _ ch).
    - rewrite El'. pose proof (wf_nodes _ Hw) as Hd. rewrite El in Hd. rewrite fmap_app in *. cbn in Hd.
      apply NoDup_app in Hd as (H1 & H12 & H2). apply NoDup_cons in H2 as [_ H2]. apply NoDup_app. split; [done|]. split; [|done].
      intros x Hx Hx2. apply (H12 x Hx). by right. }
  assert (Eb' : bs !! b = Some (c1 ++ c2)) by (apply list_lookup_insert_eq; by eapply lookup_lt_Some).
  rewrite (drop_bucket _ _ _ Eb').
  assert (Hd : drop (S b) bs = drop (S b) (bucket h)) by (apply drop_insert_lt; lia). rewrite Hd.
  destruct (settle b _ (chain_begin c2)) as [p reads] eqn:Es. exists reads, h'. split; [|done]. do 3 f_equal.
  assert (Hp : p = first (((fun e => At b (node e)) <$> c2) ++ positions_from (S b) (drop (S b) (bucket h)))).
  { replace p with (settle b ((c1 ++ c2) :: drop (S b) (bucket h)) (chain_begin c2)).1 by (by rewrite Es).
    destruct c2 as [|e2 c2]; [|done]. change (chain_begin []) with (@None Z). rewrite settle_none. cbn [fmap list_fmap app].
    destruct (drop (S b) (bucket h)) as [|ch2 bs2]; [done|]. apply settle_begin. }
  rewrite Hp. f_equal. destruct Hl as [_ ->]. rewrite fmap_app. f_equal.
  - apply list_fmap_ext. intros k x Ek. unfold pos_of. f_equal. cbn [bucket h']. rewrite Hlen.
    pose proof (wf_home _ Hw _ _ x Eb) as Hh. pose proof (wf_hash _ Hw) as Ha. rewrite Forall_forall in Ha.
    assert (x ∈ c1 ++ e :: c2) as Hx by (apply list_elem_of_lookup_2 in Ek; apply elem_of_app; right; by right).
    rewrite <- (Ha x) by (by eapply elems_bucket). symmetry. by apply Hh.
  - apply positions_elems_from. intros k ch x Ek Hx. rewrite lookup_drop in Ek. cbn [bucket h']. rewrite Hlen.
    pose proof (wf_hash _ Hw) as Ha. rewrite Forall_forall in Ha. rewrite <- (Ha x) by (by eapply elems_bucket). by apply (wf_home _ Hw _ ch).
Qed.

(** Growing: every element finds its place in the new buckets. *)
Definition placed (bs : list chain) : Prop :=
  forall b ch e, bs !! b = Some ch -> e ∈ ch -> home (length bs) (hash_value e) = b.

Lemma alter_insert (f : chain -> chain) b (bs : list chain) ch : bs !! b = Some ch -> alter f b bs = <[b := f ch]> bs.
Proof.
  intros E. apply list_eq. intros i. destruct (decide (i = b)) as [->|Hne].
  - rewrite list_lookup_alter_eq, E, list_lookup_insert_eq; [done|by eapply lookup_lt_Some].
  - by rewrite list_lookup_alter_ne, list_lookup_insert_ne.
Qed.

Lemma alter_placed (f : chain -> chain) e (bs : list chain) : bs <> [] -> placed bs -> (forall l, f l ≡ₚ e :: l) ->
  let bs' := alter f (home (length bs) (hash_value e)) bs in placed bs' /\ length bs' = length bs /\ concat bs' ≡ₚ e :: concat bs.
Proof.
  intros Hb Hp Hf bs'. assert (Hl : length bs' = length bs) by apply length_alter.
  assert (Hlt : (home (length bs) (hash_value e) < length bs)%nat) by (apply home_lt; destruct bs; [done|cbn; lia]).
  apply lookup_lt_is_Some_2 in Hlt as [ch Ec]. assert (E' : bs' = <[home (length bs) (hash_value e) := f ch]> bs) by (by apply alter_insert).
  split; [|split; [done|]].
  - intros b c x Eb Hx. rewrite Hl. rewrite E' in Eb. apply list_lookup_insert_Some in Eb as [(<- & <- & _)|(Hne & Eb)]; [|by apply (Hp b c)].
    rewrite Hf in Hx. apply elem_of_cons in Hx as [->|Hx]; [done|by apply (Hp _ ch)].
  - rewrite E', (concat_insert _ _ _ _ Ec), (concat_split _ _ _ Ec), (Hf ch). cbn. symmetry. apply Permutation_middle.
Qed.

Lemma move_chain_ok ch bs c : bs <> [] -> placed bs -> exists bs', move_chain ch bs c = Ok (bs', c + Z.of_nat (length ch)) /\
  placed bs' /\ length bs' = length bs /\ concat bs' ≡ₚ concat bs ++ ch.
Proof.
  revert bs c. induction ch as [|e ch IH]; intros bs c Hb Hp; cbn [move_chain].
  { exists bs. split; [cbn; do 2 f_equal; lia|]. split; [done|]. split; [done|]. by rewrite app_nil_r. }
  rewrite find_bucket_ok by done. cbn [obind].
  destruct (alter_placed (fun l => l ++ [e]) e bs Hb Hp) as (Hp1 & Hl1 & Hc1); [intros l; by rewrite Permutation_app_comm|].
  destruct (IH (alter (fun l => l ++ [e]) (home (length bs) (hash_value e)) bs) (c + 1)) as (bs' & -> & Hp2 & Hl2 & Hc2); [|done|].
  { intros E. rewrite E in Hl1. destruct bs; [done|discriminate]. }
  exists bs'. split; [cbn; do 2 f_equal; lia|]. split; [done|]. split; [congruence|]. rewrite Hc2, Hc1. cbn. by rewrite Permutation_middle.
Qed.

Lemma move_all_ok old bs c : bs <> [] -> placed bs -> exists bs', move_all old bs c = Ok (bs', c + Z.of_nat (length (concat old))) /\
  placed bs' /\ length bs' = length bs /\ concat bs' ≡ₚ concat bs ++ concat old.
Proof.
  revert bs c. induction old as [|ch old IH]; intros bs c Hb Hp; cbn [move_all].
  { exists bs. split; [cbn; do 2 f_equal; lia|]. split; [done|]. split; [done|]. by rewrite app_nil_r. }
  destruct (move_chain_ok ch bs c Hb Hp) as (bs1 & -> & Hp1 & Hl1 & Hc1). cbn [obind].
  destruct (IH bs1 (c + Z.of_nat (length ch))) as (bs2 & -> & Hp2 & Hl2 & Hc2); [by intros ->; destruct bs|done|].
  exists bs2. split; [cbn; rewrite length_app; do 2 f_equal; lia|]. split; [done|]. split; [congruence|]. cbn. by rewrite Hc2, Hc1, app_assoc.
Qed.

Lemma wf_permute h bs : wf h -> bs <> [] -> placed bs -> concat bs ≡ₚ elems h -> wf (HSet bs (count h)).
Proof.
  intros Hw Hb Hp Hc. constructor; [done| | |done|]; unfold elems; cbn [bucket count].
  - rewrite (wf_count _ Hw). by rewrite Hc.
  - rewrite Hc. apply (wf_hash _ Hw).
  - rewrite Hc. apply (wf_nodes _ Hw).
Qed.

Lemma concat_empty n : concat (replicate n ([] : chain)) = [].
Proof. induction n; [done|]. cbn. done. Qed.

Lemma placed_empty n : placed (replicate n []).
Proof. intros b ch e Eb He. apply lookup_replicate in Eb as [-> _]. by apply elem_of_nil in He. Qed.

Lemma replicate_some n : 0 < n -> replicate (Z.to_nat n) ([] : chain) <> [].
Proof. intros Hn E. apply (f_equal length) in E. rewrite length_replicate in E. cbn in E. lia. Qed.

Lemma new_set_ok n : 0 < n -> exists h, @new_set T n = Ok h /\ wf h /\ elems h = [].
Proof.
  intros Hn. unfold new_set. rewrite ensure_true by (by apply truth_pos). cbn [obind]. eexists. split; [done|].
  assert (He : elems (HSet (replicate (Z.to_nat n) []) 0) = []) by (unfold elems; apply concat_empty).
  split; [|done]. constructor; [by apply replicate_some| | |apply placed_empty|]; rewrite He; [done|done|constructor].
Qed.

Lemma rehash_ok fac h : wf h -> 0 < fac -> exists h', rehash fac h = Ok h' /\ wf h' /\ elems h' ≡ₚ elems h /\
  count h' = count h /\ bucket_count h' = fac.
Proof.
  intros Hw Hf. unfold rehash. rewrite ensure_true by (by apply truth_pos). cbn [obind].
  destruct (move_all_ok (bucket h) (replicate (Z.to_nat fac) []) 0 (replicate_some _ Hf) (placed_empty _)) as (bs & -> & Hp & Hl & Hc).
  cbn [obind]. rewrite concat_empty in Hc. cbn in Hc. fold (elems h) in *.
  rewrite ensure_true by (rewrite (wf_count _ Hw); apply Z.eqb_eq; lia). cbn [obind]. eexists. split; [done|].
  replace (0 + Z.of_nat (length (elems h))) with (count h) by (rewrite (wf_count _ Hw); lia).
  assert (Hb : bs <> []) by (intros ->; cbn in Hl; rewrite length_replicate in Hl; lia).
  split; [by apply wf_permute|]. split; [done|]. split; [done|]. unfold bucket_count. cbn. rewrite Hl, length_replicate. lia.
Qed.

Lemma insert_ok n x h : wf h -> count h < 2 ^ 31 -> n ∉ node <$> elems h -> exists h',
  let e := Entry n (hash_of x) x in
  insert hash_of n x h = Ok (pos_of h' e, h') /\ wf h' /\ elems h' ≡ₚ e :: elems h /\ count h' <= bucket_count h'.
Proof.
  intros Hw Hc Hn. pose proof (wf_count _ Hw) as Hcount.
  assert (exists h1, (if bucket_count h <=? count h then rehash (w32 (2 * count h)) h else Ok h) = Ok h1 /\ wf h1 /\ elems h1 ≡ₚ elems h /\
    count h1 = count h /\ count h1 + 1 <= bucket_count h1) as (h1 & E1 & Hw1 & Hp1 & Hc1 & Hl1).
  { assert (1 <= bucket_count h) by (unfold bucket_count; pose proof (wf_some _ Hw); destruct (bucket h); [done|cbn; lia]).
    destruct (Z.leb_spec (bucket_count h) (count h)).
    - rewrite wrap_small by lia. destruct (rehash_ok (2 * count h) h Hw ltac:(lia)) as (h1 & -> & ? & ? & ? & ?).
      exists h1. split; [done|]. split; [done|]. split; [done|]. lia.
    - exists h. split; [done|]. split; [done|]. split; [done|]. lia. }
  unfold insert. rewrite E1. cbn [obind]. rewrite find_bucket_ok by apply (wf_some _ Hw1). cbn [obind].
  set (e := Entry n (hash_of x) x). change (hash_of x) with (hash_value e).
  destruct (alter_placed (fun l => e :: l) e (bucket h1) (wf_some _ Hw1) (wf_home _ Hw1)) as (Hp2 & Hl2 & Hc2); [done|].
  set (bs := alter _ _ _) in *. exists (HSet bs (count h1 + 1)). cbn zeta.
  assert (He : elems (HSet bs (count h1 + 1)) ≡ₚ e :: elems h) by (unfold elems at 1; cbn [bucket]; rewrite Hc2; by rewrite <- Hp1).
  split; [unfold pos_of; cbn [bucket]; by rewrite Hl2|]. split; [|split; [exact He|]].
  - constructor; [|cbn [count]; rewrite He; cbn; lia| |exact Hp2|].
    + cbn. intros E. rewrite E in Hl2. pose proof (wf_some _ Hw1). by destruct (bucket h1).
    + rewrite He. constructor; [done|apply (wf_hash _ Hw)].
    + rewrite He. cbn. constructor; [done|apply (wf_nodes _ Hw)].
  - unfold bucket_count in *. cbn. rewrite Hl2. lia.
Qed.

(** ** Walking through the whole set *)

Fixpoint walk (fuel : nat) (p : pos) (h : hash_set) : outcome (list (Z * T)) :=
  match p with
  | End => Ok []
  | At _ n =>
      match fuel with
      | O => NoFuel
      | S fuel =>
          let! x := at_pos p h;
          let! (p, _) := incr p h;
          let! l := walk fuel p h;
          Ok ((n, x) :: l)
      end
  end.

Definition item (e : entry) : Z * T := (node e, payload e).

Lemma walk_ok h l1 l2 fuel : wf h -> elems h = l1 ++ l2 -> (length l2 <= fuel)%nat -> walk fuel (first (pos_of h <$> l2)) h = Ok (item <$> l2).
Proof.
  intros Hw. revert l1 fuel. induction l2 as [|e l2 IH]; intros l1 fuel El Hf; [by destruct fuel|]. destruct fuel as [|fuel]; [cbn in Hf; lia|].
  change (first (pos_of h <$> e :: l2)) with (pos_of h e). assert (He : e ∈ elems h) by (rewrite El; apply elem_between).
  unfold pos_of at 1. cbn [walk]. fold (pos_of h e). rewrite at_pos_ok by done. cbn [obind].
  destruct (incr_ok h l1 e l2 Hw El) as [reads ->]. cbn [obind]. rewrite (IH (l1 ++ [e])); [done|by rewrite <- app_assoc|cbn in Hf; lia].
Qed.

(** ** The set against a finite map

    The map has the payload of every node, by the address of the node.  A call erases by key as the
    clients do: [find], then [erase] unless the end came back. *)
Inductive op := Insert (n : Z) (x : T) | Find (k : K) | Erase (k : K) | Rehash (fac : Z) | Clear | Walk.
Inductive answer := Node (n : option Z) | Items (l : list (Z * T)).

Definition node_of (p : pos) : option Z := match p with At _ n => Some n | End => None end.

Definition run_op (o : op) (h : hash_set) : outcome (answer * hash_set) :=
  match o with
  | Insert n x => let! (p, h) := insert hash_of n x h; Ok (Node (node_of p), h)
  | Find k => let! p := find hash_key obj_equal k h; Ok (Node (node_of p), h)
  | Erase k =>
      let! p := find hash_key obj_equal k h;
      match p with
      | End => Ok (Node None, h)
      | At _ _ => let! (_, _, h) := erase p h; Ok (Node (node_of p), h)
      end
  | Rehash fac => let! h := rehash fac h; Ok (Node None, h)
  | Clear => Ok (Node None, clear h)
  | Walk => let! (p, _) := begin h; let! l := walk (Z.to_nat (size h)) p h; Ok (Items l, h)
  end.

Definition op_pre (o : op) (m : gmap Z T) : Prop :=
  match o with Insert n _ => m !! n = None /\ Z.of_nat (base.size m) < 2 ^ 31 | Rehash fac => 0 < fac | _ => True end.

Definition found (k : K) (m : gmap Z T) (o : option Z) : Prop :=
  match o with
  | Some n => exists x, m !! n = Some x /\ obj_equal x k = true
  | None => forall n x, m !! n = Some x -> obj_equal x k = false
  end.

Definition map_step (o : op) (m : gmap Z T) (a : answer) (m' : gmap Z T) : Prop :=
  match o with
  | Insert n x => a = Node (Some n) /\ m' = <[n := x]> m
  | Find k => m' = m /\ exists o, a = Node o /\ found k m o
  | Erase k => exists o, a = Node o /\ found k m o /\ m' = match o with Some n => delete n m | None => m end
  | Rehash _ => m' = m
  | Clear => m' = ∅
  | Walk => m' = m /\ exists l, a = Items l /\ l ≡ₚ map_to_list m
  end.

Definition rel (h : hash_set) (m : gmap Z T) : Prop := wf h /\ m = list_to_map (item <$> elems h).

Lemma rel_lookup h m n x : rel h m -> m !! n = Some x <-> exists e, e ∈ elems h /\ node e = n /\ payload e = x.
Proof.
  intros [Hw ->]. rewrite <- elem_of_list_to_map.
  - rewrite list_elem_of_fmap. unfold item. split; [intros (e & E & He); injection E as -> ->; by exists e|].
    intros (e & He & <- & <-). by exists e.
  - rewrite <- list_fmap_compose. apply (wf_nodes _ Hw).
Qed.

Lemma items_nodup h : wf h -> NoDup ((item <$> elems h).*1).
Proof. intros Hw. rewrite <- list_fmap_compose. apply (wf_nodes _ Hw). Qed.

Lemma rel_size h m : rel h m -> Z.of_nat (base.size m) = count h.
Proof.
  intros [Hw ->]. rewrite (wf_count _ Hw). f_equal. rewrite <- length_map_to_list. 
  rewrite (map_to_list_to_map _ (items_nodup h Hw)). by rewrite length_fmap.
Qed.

Lemma rel_find h m k : rel h m -> exists p, find hash_key obj_equal k h = Ok p /\ found k m (node_of p) /\
  match p with End => True | At _ _ => exists e, e ∈ elems h /\ p = pos_of h e end.
Proof using equal_hash.
  intros Hr. pose proof Hr as [Hw _]. destruct (find_ok h k Hw) as [(e & He & Hk & ->)|[Hn ->]].
  - exists (pos_of h e). split; [done|]. split; [|by exists e]. exists (payload e). split; [|done]. apply (rel_lookup h m _ _ Hr). by exists e.
  - exists End. split; [done|]. split; [|done]. intros n x E. apply (rel_lookup h m _ _ Hr) in E as (e & He & _ & <-). by apply Hn.
Qed.

(** C33. The set simulates the map: from a new set, every insertion, search, removal, rehashing and walk
    ends without an error, answers as the map of the nodes does, and a walk meets every
    element exactly once; growing neither loses nor moves a node. *)
Theorem hash_set_refines :
  (forall fac, 0 < fac -> exists h, new_set fac = Ok h /\ rel h ∅) /\
  (forall o h m, rel h m -> op_pre o m -> exists a h' m', run_op o h = Ok (a, h') /\ map_step o m a m' /\ rel h' m').
Proof using equal_hash.
  split.
  { intros fac Hf. destruct (new_set_ok fac Hf) as (h & E & Hw & He). exists h. split; [done|]. split; [done|]. by rewrite He. }
  intros o h m Hr Hpre. pose proof Hr as [Hw Hm]. destruct o as [n x|k|k|fac| |]; cbn [run_op op_pre map_step] in *.
  - destruct Hpre as [Hn Hs]. rewrite (rel_size h m Hr) in Hs.
    assert (Hf : n ∉ node <$> elems h).
    { intros (e & -> & He)%list_elem_of_fmap. rewrite (proj2 (rel_lookup h m _ (payload e) Hr)) in Hn; [done|by exists e]. }
    destruct (insert_ok n x h Hw Hs Hf) as (h' & -> & Hw' & He & _). cbn [obind]. do 3 eexists. split; [done|]. split; [done|].
    split; [done|]. rewrite Hm. change (<[n := x]> (list_to_map (item <$> elems h)) : gmap Z T) with
      (list_to_map (item <$> Entry n (hash_of x) x :: elems h) : gmap Z T).
    apply list_to_map_proper; [|by rewrite He]. rewrite <- He. by apply items_nodup.
  - destruct (rel_find h m k Hr) as (p & -> & Hf & _). cbn [obind]. do 3 eexists. split; [done|]. split; [split; [done|by eexists]|done].
  - destruct (rel_find h m k Hr) as (p & -> & Hf & Hp). cbn [obind]. destruct p as [b n|].
    2:{ do 3 eexists. split; [done|]. split; [by exists None|done]. }
    destruct Hp as (e & He & Ep). rewrite Ep. pose proof He as (l1 & l2 & El)%list_elem_of_split.
    destruct (erase_ok h l1 e l2 Hw El) as (reads & h' & -> & Hw' & El' & _). cbn [obind]. do 3 eexists. split; [done|].
    split; [exists (Some n); split; [by injection Ep as -> ->|done]|]. split; [done|]. rewrite Hm, El, El', !fmap_app, fmap_cons.
    injection Ep as -> ->. pose proof (wf_nodes _ Hw) as Hd. rewrite El, fmap_app in Hd. cbn in Hd. apply NoDup_app in Hd as (_ & Hd & Hd2).
    apply NoDup_cons in Hd2 as [Hd2 _].
    rewrite !list_to_map_app. cbn. rewrite delete_union, delete_insert_eq, !delete_id; [done| |].
    + apply not_elem_of_list_to_map_1. rewrite <- list_fmap_compose. exact Hd2.
    + apply not_elem_of_list_to_map_1. rewrite <- list_fmap_compose. intros Hx. apply (Hd _ Hx). by left.
  - destruct (rehash_ok fac h Hw Hpre) as (h' & -> & Hw' & He & _). cbn [obind]. do 3 eexists. split; [done|]. split; [done|].
    split; [done|]. apply list_to_map_proper; [by apply items_nodup|by rewrite He].
  - do 3 eexists. split; [done|]. split; [done|].
    assert (He : elems (clear h) = []) by (unfold elems, clear; cbn; by induction (bucket h)).
    split; [|by rewrite He]. constructor; [|by rewrite He|by rewrite He| |rewrite He; constructor].
    + cbn. pose proof (wf_some _ Hw). by destruct (bucket h).
    + intros b ch e Eb Hx. cbn in Eb. rewrite list_lookup_fmap in Eb. destruct (bucket h !! b); [|done]. injection Eb as <-. by apply elem_of_nil in Hx.
  - destruct (begin_ok h Hw) as [reads ->]. cbn [obind]. rewrite (walk_ok h [] (elems h)) by (try done; unfold size; rewrite (wf_count _ Hw); lia).
    cbn [obind]. do 3 eexists. split; [done|]. split; [|done]. split; [done|]. eexists. split; [done|]. rewrite Hm.
    symmetry. apply map_to_list_to_map, items_nodup, Hw.
Qed.
End theory.

(** A set of numbers. *)
Lemma Zeqb_hash (x k : Z) : (x =? k) = true -> id x = id k.
Proof. intros E. by apply Z.eqb_eq in E. Qed.

Lemma hash_set_refines_witness : exists h, new_set 2 = Ok h /\ rel id h (∅ : gmap Z Z) /\
  exists a h' m', run_op id id Z.eqb (Insert 100 5) h = Ok (a, h') /\ map_step Z.eqb (Insert 100 5) ∅ a m' /\ rel id h' m'.
Proof.
  destruct (hash_set_refines id id Z.eqb Zeqb_hash) as [Hn Ho].
  destruct (Hn 2 ltac:(lia)) as (h & E & Hr). exists h. split; [exact E|]. split; [exact Hr|].
  apply (Ho _ h ∅ Hr). split; reflexivity.
Defined.

Fixpoint run_ops (os : list op) (h : hash_set Z) : outcome (list answer) :=
  match os with
  | [] => Ok []
  | o :: os => let! (a, h) := run_op id id Z.eqb o h; let! l := run_ops os h; Ok (a :: l)
  end.

(** Three elements in two buckets grow to four buckets; the walk goes through the buckets in their order. *)
Example some_run : obind (new_set 2) (run_ops [Insert 100 5; Insert 101 6; Insert 102 9; Find 9; Erase 5; Walk]) =
  Ok [Node (Some 100); Node (Some 101); Node (Some 102); Node (Some 102); Node (Some 100); Items [(102, 9); (101, 6)]].
Proof. reflexivity. Qed.

(** The iterator that begins an empty set reads the chain behind its last bucket, outside the vector. *)
Example begin_reads_past : obind (new_set 2) (fun h : hash_set Z => begin h) = Ok (End, [1%nat; 2%nat]).
Proof. reflexivity. Qed.
End HashThm.
