(* ===== verification/Process.v ===== *)
(** * Processes (src/kernel/process/process.cpp, the process and its manager)

    A process keeps its threads in a hash set; a node of the set is the thread object, known by its
    address.  The reference counts of the threads and of the process itself ([waitable::acquire],
    [relax], [manage]) are part of the state, because they decide when the objects are deleted.
    Calls that leave the process (waking waiters, clearing the handle table, stopping a thread, letting
    go of the work directory) are returned as events in their order. *)

From S2P Require Import Prelude HashSet.

Module Process.
Import HashSet.

Inductive STATE := RUNNING | STOPPED.

Inductive event := Notify | ClearHandles | RelaxDir (wd : Z) | KillThread (th : Z) | ThreadDeleted (th : Z) | ProcessDeleted.

Section process.
(** [UOS::hash<dword>] of util/include/hash.hpp. *)
Context (hash : Z -> Z).

Record process := Proc {
  state : STATE; result : Z; active_count : Z; threads : hash_set Z; work_dir : option Z;
  (* reference counts: of the threads, and of the process *)
  thread_refs : gmap Z Z; ref_count : Z }.

Definition set_state (s : STATE) (p : process) : process := Proc s (result p) (active_count p) (threads p) (work_dir p) (thread_refs p) (ref_count p).
Definition set_result (r : Z) (p : process) : process := Proc (state p) r (active_count p) (threads p) (work_dir p) (thread_refs p) (ref_count p).
Definition set_active (c : Z) (p : process) : process := Proc (state p) (result p) c (threads p) (work_dir p) (thread_refs p) (ref_count p).
Definition set_threads (t : hash_set Z) (p : process) : process := Proc (state p) (result p) (active_count p) t (work_dir p) (thread_refs p) (ref_count p).
Definition set_dir (d : option Z) (p : process) : process := Proc (state p) (result p) (active_count p) (threads p) d (thread_refs p) (ref_count p).
Definition set_refs (m : gmap Z Z) (p : process) : process := Proc (state p) (result p) (active_count p) (threads p) (work_dir p) m (ref_count p).
Definition set_ref (c : Z) (p : process) : process := Proc (state p) (result p) (active_count p) (threads p) (work_dir p) (thread_refs p) c.

(** [process::manage] and [thread::manage]: one reference for the object's life, one for its creator. *)
Definition manage (c : Z) : outcome Z := assert! negb (truth c); Ok (c + 1 + 1).

(** [spawn]: the thread object is made at [n] with the identifier [tid]. *)
Definition spawn (n tid : Z) (p : process) : outcome (option Z * process) :=
  match state p with
  | STOPPED => Ok (None, p)
  | RUNNING =>
      let! (it, t) := insert hash n tid (threads p);
      let! c := manage 0;
      Ok (Some n, set_active (w32 (active_count p + 1)) (set_refs (<[n := c]> (thread_refs p)) (set_threads t p)))
  end.

(** The constructor followed by [manage]: the process with its first thread, of which the constructor lets go. *)
Definition create (n tid : Z) (wd : option Z) (no_resource : Z) : outcome process :=
  let! t := new_set 0x10;
  let! (_, p) := spawn n tid (Proc RUNNING no_resource 0 t wd ∅ 0);
  let! c := manage (ref_count p);
  let! r := deref (thread_refs p !! n);
  Ok (set_ref c (set_refs (<[n := r - 1]> (thread_refs p)) p)).

(** The loop of [kill] over the threads: the calls it makes, and whether the caller is among them. *)
Fixpoint kill_loop (fuel : nat) (this_thread : Z) (it : pos) (h : hash_set Z) : outcome (list event * bool) :=
  match it with
  | End => Ok ([], false)
  | At _ n =>
      match fuel with
      | O => NoFuel
      | S fuel =>
          let! (next, _) := incr it h;
          let! (l, self) := kill_loop fuel this_thread next h;
          if n =? this_thread then Ok (l, true) else Ok (KillThread n :: l, self)
      end
  end.

Definition kill (this_thread ret_val : Z) (p : process) : outcome (list event * process) :=
  let p := set_result ret_val (set_state STOPPED p) in
  let! (it, _) := begin (threads p);
  let! (l, kill_self) := kill_loop (Z.to_nat (size (threads p))) this_thread it (threads p);
  Ok (l ++ [Notify] ++ (if kill_self then [KillThread this_thread] else []), p).

Definition on_exit (p : process) : outcome (list event * process) :=
  assert! truth (active_count p) && (active_count p <=? size (threads p));
  let p := set_active (active_count p - 1) p in
  if truth (active_count p) then Ok ([], p)
  else
    let wd := work_dir p in
    let p := set_dir None (set_state STOPPED p) in
    Ok ([Notify; ClearHandles] ++ match wd with Some d => [RelaxDir d] | None => [] end, p).

(** The destructor, when the manager takes the process out of its table. *)
Definition destroy (p : process) : outcome unit :=
  assert! empty (threads p) && negb (truth (active_count p));
  assert! bool_decide (work_dir p = None);
  Ok tt.

Definition relax (p : process) : outcome (list event * process) :=
  assert! truth (ref_count p);
  let p := set_ref (ref_count p - 1) p in
  if truth (ref_count p) then Ok ([], p)
  else let! _ := destroy p; Ok ([ProcessDeleted], p).

(** [process::erase]: the thread [th], whose identifier is [tid], is deleted. *)
Definition erase (tid : Z) (p : process) : outcome (list event * process) :=
  assert! active_count p <=? size (threads p);
  let! it := find hash Z.eqb tid (threads p);
  match it with
  | End => Bug
  | At _ n =>
      let! (_, _, t) := HashSet.erase it (threads p);
      let p := set_refs (delete n (thread_refs p)) (set_threads t p) in
      if negb (empty t) then Ok ([ThreadDeleted n], p)
      else
        assert! negb (truth (active_count p));
        let! (l, p) := relax p;
        Ok (ThreadDeleted n :: l, p)
  end.

(** [thread::relax] and [thread::on_gc] of src/kernel/process/thread.cpp, as far as the process is concerned. *)
Definition thread_relax (n tid : Z) (p : process) : outcome (list event * process) :=
  let! c := deref (thread_refs p !! n);
  assert! truth c;
  let p := set_refs (<[n := c - 1]> (thread_refs p)) p in
  if truth (c - 1) then Ok ([], p) else erase tid p.

Definition on_gc (n tid : Z) (p : process) : outcome (list event * process) :=
  let! (l, p) := on_exit p;
  let! (l', p) := thread_relax n tid p;
  Ok (l ++ l', p).

(** [find]: with [acq] the caller gets a reference, unless the object is about to be deleted. *)
Definition find_thread (tid : Z) (acq : bool) (p : process) : outcome (option Z * process) :=
  let! it := find hash Z.eqb tid (threads p);
  match it with
  | End => Ok (None, p)
  | At _ n =>
      if acq then
        let! c := deref (thread_refs p !! n);
        if truth c then Ok (Some n, set_refs (<[n := c + 1]> (thread_refs p)) p) else Ok (None, p)
      else Ok (Some n, p)
  end.

Definition acquire (p : process) : bool * process :=
  if truth (ref_count p) then (true, set_ref (ref_count p + 1) p) else (false, p).

Definition check (p : process) : bool := match state p with STOPPED => true | RUNNING => false end.
Definition get_result (p : process) : option Z := match state p with STOPPED => Some (result p) | RUNNING => None end.

(** [set_work_dir]: [wd] is what [file::open_wd] answers; the directory let go of is returned. *)
Definition set_work_dir (is_empty : bool) (wd : option Z) (p : process) : bool * list event * process :=
  let old := match work_dir p with Some d => [RelaxDir d] | None => [] end in
  if is_empty then (true, old, set_dir None p)
  else match wd with Some d => (true, old, set_dir (Some d) p) | None => (false, [], p) end.
End process.

(** ** The manager's table of processes *)

Section manager.
Context {T : Type} (hash : Z -> Z) (id : T -> Z).

Definition hash_process (x : T) : Z := hash (id x).
Definition equal_process (x : T) (k : Z) : bool := k =? id x.

Definition erase_process (k : Z) (h : hash_set T) : outcome (hash_set T) :=
  let! it := find hash equal_process k h;
  match it with
  | End => Bug
  | At _ _ => let! (_, _, h) := HashSet.erase it h; Ok h
  end.

(** [enumerate]: from the identifier [k] to the next one, 0 being the start and the end. *)
Fixpoint enum_loop (fuel : nat) (it : pos) (h : hash_set T) : outcome Z :=
  match it with
  | End => Ok 0
  | At _ _ =>
      match fuel with
      | O => NoFuel
      | S fuel =>
          let! x := at_pos it h;
          if truth (id x) then Ok (id x) else let! (it, _) := incr it h; enum_loop fuel it h
      end
  end.

Definition enumerate (k : Z) (h : hash_set T) : outcome (bool * Z) :=
  let! it :=
    (if k =? 0 then let! (it, _) := begin h; Ok (Some it)
     else
       let! it := find hash equal_process k h;
       match it with
       | End => Ok None
       | At _ _ => let! (it, _) := incr it h; Ok (Some it)
       end);
  match it with
  | None => Ok (false, k)
  | Some it => let! k := enum_loop (Z.to_nat (size h)) it h; Ok (true, k)
  end.
End manager.

(** ** Named objects (src/kernel/interface/object.cpp) *)

Section named.
Context (hash : list Z -> Z).

Record object := Object { name : list Z; obj : Z; property : Z }.
Definition max_name_length : Z := 0x1F8.

Definition hash_object (o : object) : Z := hash (name o).
Definition equal_object (o : object) (k : list Z) : bool := bool_decide (name o = k).

(** [put]: [n] is the address of the new node; the object is managed when it is put in. *)
Definition put_object (privilege n : Z) (nm : list Z) (ob properties : Z) (t : hash_set object) : outcome (bool * hash_set object) :=
  if max_name_length <=? Z.of_nat (length nm) then Ok (false, t)
  else if privilege <? w8 properties then Ok (false, t)
  else
    let! it := find hash equal_object nm t;
    match it with
    | End => Ok (false, t)
    | At _ _ => let! (_, t) := insert hash_object n (Object nm ob properties) t; Ok (true, t)
    end.

Definition get_object (nm : list Z) (t : hash_set object) : outcome (option object) :=
  let! it := find hash equal_object nm t;
  match it with End => Ok None | At _ _ => let! o := at_pos it t; Ok (Some o) end.

(** [erase]: after an erasure the loop still moves on, past the node that follows. *)
Fixpoint erase_loop (fuel : nat) (ob : Z) (it : pos) (t : hash_set object) : outcome (hash_set object) :=
  match it with
  | End => Ok t
  | At _ _ =>
      match fuel with
      | O => NoFuel
      | S fuel =>
          let! o := at_pos it t;
          let! (it, t) := (if ob =? obj o then let! (it, _, t) := HashSet.erase it t; Ok (it, t) else Ok (it, t));
          let! (it, _) := incr it t;
          erase_loop fuel ob it t
      end
  end.

Definition erase_object (ob : Z) (t : hash_set object) : outcome (hash_set object) :=
  assert! truth ob;
  let! (it, _) := begin t;
  erase_loop (Z.to_nat (size t)) ob it t.
End named.
End Process.

Module ProcessThm.
Import HashSet HashThm Process.

Section theory.
Context (hash : Z -> Z).

Lemma eqb_hash x k : (x =? k) = true -> hash x = hash k.
Proof. intros E. by apply Z.eqb_eq in E as ->. Qed.

(** ** The calls of a process's life, and who may make them

    [live] are the threads that have not ended, [held] counts the references to each thread outside the
    process, [phold] those to the process. *)
Record ghost := Ghost { live : gset Z; held : Z -> Z; phold : Z }.

Inductive call :=
  | CSpawn (n tid : Z) | CGc (n tid : Z) | CRelax (n tid : Z) | CFind (tid : Z)
  | CAcquire | CRelaxProcess | CKill (th v : Z) | CDir (is_empty : bool) (wd : option Z).

Definition run_call (c : call) (p : process) : outcome (list event * option Z * process) :=
  match c with
  | CSpawn n tid => let! (a, p) := spawn hash n tid p; Ok ([], a, p)
  | CGc n tid => let! (l, p) := on_gc hash n tid p; Ok (l, None, p)
  | CRelax n tid => let! (l, p) := thread_relax hash n tid p; Ok (l, None, p)
  | CFind tid => let! (a, p) := find_thread hash tid true p; Ok ([], a, p)
  | CAcquire => let '(_, p) := acquire p in Ok ([], None, p)
  | CRelaxProcess => let! (l, p) := relax p; Ok (l, None, p)
  | CKill th v => let! (l, p) := kill th v p; Ok (l, None, p)
  | CDir is_empty wd => let '(_, l, p) := set_work_dir is_empty wd p in Ok (l, None, p)
  end.

Definition is_thread (p : process) (n tid : Z) : Prop := exists e, e ∈ elems (threads p) /\ node e = n /\ payload e = tid.

(** A thread is made by a live thread, at a fresh address and with a fresh identifier; it ends once; a
    reference is given back by who holds it; other calls need a live thread or a reference. *)
Definition legal (c : call) (g : ghost) (p : process) : Prop :=
  match c with
  | CSpawn n tid => live g <> ∅ /\ thread_refs p !! n = None /\ (forall n', ~ is_thread p n' tid) /\ count (threads p) < 2 ^ 31 - 1
  | CGc n tid => n ∈ live g /\ is_thread p n tid
  | CRelax n tid => 0 < held g n /\ is_thread p n tid
  | CFind _ | CKill _ _ => live g <> ∅ \/ 0 < phold g
  | CAcquire | CRelaxProcess => 0 < phold g
  | CDir _ _ => live g <> ∅
  end.

Definition hold (n d : Z) (f : Z -> Z) (m : Z) : Z := if m =? n then f m + d else f m.

Definition after (c : call) (a : option Z) (g : ghost) : ghost :=
  match c, a with
  | CSpawn _ _, Some n => Ghost ({[n]} ∪ live g) (fun m => if m =? n then 1 else held g m) (phold g)
  | CGc n _, _ => Ghost (live g ∖ {[n]}) (held g) (phold g)
  | CRelax n _, _ => Ghost (live g) (hold n (-1) (held g)) (phold g)
  | CFind _, Some n => Ghost (live g) (hold n 1 (held g)) (phold g)
  | CAcquire, _ => Ghost (live g) (held g) (phold g + 1)
  | CRelaxProcess, _ => Ghost (live g) (held g) (phold g - 1)
  | _, _ => g
  end.

(** The invariant; [x] is a thread to which one more reference is about to be given back. *)
Record inv (p : process) (g : ghost) (x : option Z) : Prop := {
  i_wf : wf hash (threads p);
  i_tids : NoDup (payload <$> elems (threads p));
  i_nodes : forall n, n ∈ node <$> elems (threads p) <-> is_Some (thread_refs p !! n);
  i_refs : forall n r, thread_refs p !! n = Some r -> 0 < r /\ 0 <= held g n /\ r = held g n + b2z (bool_decide (n ∈ live g)) + b2z (bool_decide (x = Some n));
  i_live : forall n, n ∈ live g -> is_Some (thread_refs p !! n);
  i_active : active_count p = Z.of_nat (base.size (live g));
  i_stopped : live g = ∅ -> state p = STOPPED /\ work_dir p = None;
  i_ref : 0 <= phold g /\ ref_count p = phold g + b2z (negb (empty (threads p)))
}.

Lemma empty_elems (h : hash_set Z) : wf hash h -> empty h = bool_decide (elems h = []).
Proof. intros Hw. unfold empty. rewrite (wf_count _ _ Hw). destruct (elems h); [done|]. rewrite bool_decide_eq_false_2 by done. apply Z.eqb_neq. cbn. lia. Qed.

Lemma elem_ref p g x e : inv p g x -> e ∈ elems (threads p) -> is_Some (thread_refs p !! node e).
Proof. intros Hi He. apply (i_nodes _ _ _ Hi), list_elem_of_fmap. by exists e. Qed.

Lemma live_some p g x n : inv p g x -> n ∈ live g -> exists e, e ∈ elems (threads p) /\ node e = n.
Proof.
  intros Hi Hn. apply (i_live _ _ _ Hi), (i_nodes _ _ _ Hi), list_elem_of_fmap in Hn as (e & -> & He). by exists e.
Qed.

Lemma live_le p g x : inv p g x -> Z.of_nat (base.size (live g)) <= count (threads p).
Proof.
  intros Hi. rewrite (wf_count _ _ (i_wf _ _ _ Hi)). pose proof (wf_nodes _ _ (i_wf _ _ _ Hi)) as Hd.
  assert (live g ⊆ list_to_set (node <$> elems (threads p))) as Hs.
  { intros n Hn. destruct (live_some p g x n Hi Hn) as (e & He & <-). apply elem_of_list_to_set, list_elem_of_fmap. by exists e. }
  apply subseteq_size in Hs. rewrite size_list_to_set in Hs by done. rewrite length_fmap in Hs. lia.
Qed.

Lemma alive p g x : inv p g x -> live g <> ∅ \/ 0 < phold g \/ (exists n, is_Some (thread_refs p !! n)) -> 0 < ref_count p.
Proof.
  intros Hi Ha. destruct (i_ref _ _ _ Hi) as [Hp ->]. destruct Ha as [Hl|[Hp'|[n Hn]]]; [|destruct (negb _); cbn; lia|].
  - apply set_choose_L in Hl as [n Hn]. destruct (live_some p g x n Hi Hn) as (e & He & _).
    rewrite (empty_elems _ (i_wf _ _ _ Hi)), bool_decide_eq_false_2 by (by intros E; rewrite E in He; apply elem_of_nil in He). cbn. lia.
  - apply (i_nodes _ _ _ Hi), list_elem_of_fmap in Hn as (e & _ & He).
    rewrite (empty_elems _ (i_wf _ _ _ Hi)), bool_decide_eq_false_2 by (by intros E; rewrite E in He; apply elem_of_nil in He). cbn. lia.
Qed.

(** What each call tells the outside. *)
Definition told (l : list event) (g g' : ghost) (p p' : process) : Prop :=
  (ClearHandles ∈ l <-> live g <> ∅ /\ live g' = ∅) /\
  (forall n, ThreadDeleted n ∈ l <-> is_Some (thread_refs p !! n) /\ thread_refs p' !! n = None) /\
  (ProcessDeleted ∈ l <-> ref_count p' = 0).

Lemma find_thread_at p g x tid : inv p g x -> exists it, find hash Z.eqb tid (threads p) = Ok it /\
  match it with
  | End => forall n, ~ is_thread p n tid
  | At _ n => is_thread p n tid /\ exists e, e ∈ elems (threads p) /\ node e = n /\ it = pos_of hash (threads p) e
  end.
Proof.
  intros Hi. destruct (find_ok hash hash Z.eqb eqb_hash (threads p) tid (i_wf _ _ _ Hi)) as [(e & He & Ht & ->)|[Hn ->]].
  - eexists. split; [done|]. apply Z.eqb_eq in Ht. split; [by exists e|by exists e].
  - exists End. split; [done|]. intros n (e & He & _ & <-). specialize (Hn e He). by rewrite Z.eqb_refl in Hn.
Qed.

Lemma thread_unique p g x n n' tid : inv p g x -> is_thread p n tid -> is_thread p n' tid -> n = n'.
Proof.
  intros Hi (e & He & <- & Ht) (e' & He' & <- & Ht'). pose proof (i_tids _ _ _ Hi) as Hd.
  apply list_elem_of_lookup in He as [i Ei]. apply list_elem_of_lookup in He' as [j Ej].
  assert (i = j) as ->; [|congruence]. eapply (NoDup_lookup _ i j tid Hd); rewrite list_lookup_fmap, ?Ei, ?Ej; cbn; congruence.
Qed.

Lemma destroy_ok p : wf hash (threads p) -> elems (threads p) = [] -> active_count p = 0 -> work_dir p = None -> destroy p = Ok tt.
Proof. intros Hw He Ha Hd. unfold destroy. by rewrite (empty_elems _ Hw), He, Ha, Hd. Qed.

Lemma relax_ok p : 0 < ref_count p -> (ref_count p = 1 -> destroy (set_ref 0 p) = Ok tt) ->
  relax p = Ok (if ref_count p =? 1 then [ProcessDeleted] else [], set_ref (ref_count p - 1) p).
Proof.
  intros Hr Hd. unfold relax. rewrite ensure_true by (by apply truth_pos). cbn [obind].
  change (ref_count (set_ref (ref_count p - 1) p)) with (ref_count p - 1). destruct (Z.eqb_spec (ref_count p) 1) as [E|E].
  - rewrite E. change (1 - 1) with 0. change (truth 0) with false. cbn match. by rewrite (Hd E).
  - by rewrite (truth_pos (ref_count p - 1)) by lia.
Qed.

Lemma empty_gone (h : hash_set Z) : wf hash h -> negb (empty h) = bool_decide (elems h <> []).
Proof. intros Hw. rewrite (empty_elems h Hw). by destruct (elems h). Qed.

(** Deleting a thread object; the last one takes the process's own reference with it. *)
Lemma erase_thread_ok p g n tid c : inv p g (Some n) -> is_thread p n tid -> n ∉ live g -> exists l p',
  erase hash tid (set_refs (<[n := c]> (thread_refs p)) p) = Ok (l, p') /\ inv p' g None /\ thread_refs p' = delete n (thread_refs p) /\ state p' = state p /\
  l = ThreadDeleted n :: (if ref_count p' =? 0 then [ProcessDeleted] else []).
Proof.
  intros Hi Hn Hl. unfold erase. cbn [active_count threads set_refs thread_refs].
  pose proof (i_wf _ _ _ Hi) as Hw. pose proof (live_le _ _ _ Hi) as Hle.
  rewrite ensure_true by (apply Z.leb_le; rewrite (i_active _ _ _ Hi); exact Hle). cbn [obind].
  destruct (find_thread_at p g _ tid Hi) as (it & -> & Hit). cbn [obind]. destruct it as [b m|]; [|by apply Hit in Hn].
  destruct Hit as [Hm (e & He & En & Ep)]. pose proof (thread_unique p g _ _ _ tid Hi Hn Hm) as <-. rewrite Ep.
  pose proof He as (l1 & l2 & El)%list_elem_of_split. destruct (erase_ok hash (threads p) l1 e l2 Hw El) as (reads & t & -> & Hwt & Et & _).
  cbn [obind]. rewrite delete_insert_eq.
  change (set_refs _ (set_threads t _)) with (set_refs (delete n (thread_refs p)) (set_threads t p)).
  set (p1 := set_refs (delete n (thread_refs p)) (set_threads t p)).
  pose proof (wf_nodes _ _ Hw) as Hd. pose proof (i_tids _ _ _ Hi) as Hd2. rewrite El, fmap_app, fmap_cons in Hd, Hd2.
  assert (Hlive : forall m, m ∈ live g -> m <> n) by (intros m Hm' ->; done).
  assert (Hnode : forall m, m ∈ node <$> elems t <-> is_Some (delete n (thread_refs p) !! m)).
  { intros m. rewrite Et, fmap_app, elem_of_app. pose proof (i_nodes _ _ _ Hi m) as Hnm. rewrite El, fmap_app, fmap_cons, elem_of_app, elem_of_cons, En in Hnm.
    apply NoDup_app in Hd as (_ & Hd12 & Hdc). apply NoDup_cons in Hdc as [Hdc _]. rewrite En in *.
    destruct (decide (m = n)) as [->|Hmn].
    - rewrite lookup_delete_eq. split; [|by intros [? ?]]. intros [Hx|Hx]; [|done]. destruct (Hd12 _ Hx). by left.
    - rewrite lookup_delete_ne by done. rewrite <- Hnm. tauto. }
  assert (Hrc : ref_count p1 = phold g + 1).
  { destruct (i_ref _ _ _ Hi) as [_ Hr]. unfold p1. cbn. rewrite Hr, (empty_gone _ Hw), El. rewrite bool_decide_eq_true_2; [done|]. by destruct l1. }
  assert (Hinv : forall rc, rc = phold g + b2z (negb (empty t)) -> inv (set_ref rc p1) g None).
  { intros rc Hc. constructor; cbn [p1 threads thread_refs set_ref set_refs set_threads active_count state work_dir ref_count]; [done| |exact Hnode| | | | |].
    - rewrite Et, fmap_app. apply NoDup_app in Hd2 as (? & Hd3 & Hd4). apply NoDup_cons in Hd4 as [_ Hd4]. apply NoDup_app. split; [done|].
      split; [|done]. intros y Hy Hy2. apply (Hd3 y Hy). by right.
    - intros m r Em. apply lookup_delete_Some in Em as [Hmn Em]. destruct (i_refs _ _ _ Hi m r Em) as (? & ? & Hr).
      rewrite (bool_decide_eq_false_2 (Some n = Some m)) in Hr by congruence. by rewrite (bool_decide_eq_false_2 (None = Some m)).
    - intros m Hm'. rewrite lookup_delete_ne by (intros ->; done). by apply (i_live _ _ _ Hi).
    - apply (i_active _ _ _ Hi).
    - apply (i_stopped _ _ _ Hi).
    - split; [apply (i_ref _ _ _ Hi)|done]. }
  rewrite (empty_gone t Hwt). case_bool_decide as Ee.
  - eexists _, p1. split; [done|]. rewrite Hrc. split.
    + replace p1 with (set_ref (ref_count p1) p1) by done. apply Hinv. rewrite Hrc, (empty_gone t Hwt), bool_decide_eq_true_2 by done. done.
    + split; [done|]. split; [done|]. destruct (i_ref _ _ _ Hi) as [Hp _]. by rewrite (proj2 (Z.eqb_neq _ _)) by lia.
  - assert (Et0 : elems t = []) by (destruct (elems t); [done|by destruct Ee]).
    assert (HL : live g = ∅).
    { destruct (decide (live g = ∅)) as [|HL]; [done|]. apply set_choose_L in HL as [m Hm']. exfalso.
      assert (is_Some (delete n (thread_refs p) !! m)) as Hx by (rewrite lookup_delete_ne by (intros ->; done); by apply (i_live _ _ _ Hi)).
      apply Hnode in Hx. rewrite Et0 in Hx. by apply elem_of_nil in Hx. }
    assert (Ha : active_count p1 = 0) by (cbn; rewrite (i_active _ _ _ Hi), HL; done).
    rewrite ensure_true by (change (negb (truth (active_count p1)) = true); by rewrite Ha). cbn [obind]. destruct (i_stopped _ _ _ Hi HL) as [_ Hwd]. destruct (i_ref _ _ _ Hi) as [Hp _].
    rewrite relax_ok; [|lia|intros _; by apply destroy_ok]. cbn [obind]. eexists _, _. split; [done|]. rewrite Hrc. split.
    + apply Hinv. rewrite (empty_gone t Hwt), bool_decide_eq_false_2 by (intros Hx; by apply Hx). cbn. lia.
    + split; [done|]. split; [done|]. f_equal. cbn [ref_count set_ref].
      destruct (Z.eqb_spec (phold g + 1) 1), (Z.eqb_spec (phold g + 1 - 1) 0); [done|lia|lia|done].
Qed.

Lemma negb_one r : 0 < r -> negb (truth (r - 1)) = (r =? 1).
Proof. intros. unfold truth. rewrite negb_involutive. destruct (Z.eqb_spec r 1), (Z.eqb_spec (r - 1) 0); [done|lia|lia|done]. Qed.

Lemma ref_alive p g x n : inv p g x -> is_Some (thread_refs p !! n) -> 0 < ref_count p.
Proof. intros Hi Hn. apply (alive p g x Hi). right. right. by exists n. Qed.

(** Giving back a reference to a thread; the object is deleted with the last one. *)
Lemma thread_relax_ok p g n tid : inv p g (Some n) -> is_thread p n tid -> exists l p',
  thread_relax hash n tid p = Ok (l, p') /\ inv p' g None /\ state p' = state p /\
  (forall m, ThreadDeleted m ∈ l <-> is_Some (thread_refs p !! m) /\ thread_refs p' !! m = None) /\
  (ProcessDeleted ∈ l <-> ref_count p' = 0) /\ ClearHandles ∉ l.
Proof.
  intros Hi Hn. pose proof Hn as (e & He & En & Et). pose proof (elem_ref p g _ e Hi He) as [r Er]. rewrite En in Er.
  destruct (i_refs _ _ _ Hi n r Er) as (Hr & Hh & Hrv). rewrite (bool_decide_eq_true_2 (Some n = Some n)) in Hrv by done.
  pose proof (ref_alive p g _ n Hi ltac:(by rewrite Er)) as Hal.
  unfold thread_relax. rewrite (deref_Some _ _ Er). cbn [obind]. rewrite ensure_true by (by apply truth_pos). cbn [obind].
  set (p1 := set_refs (<[n := r - 1]> (thread_refs p)) p).
  assert (Hdom : forall m, is_Some (thread_refs p1 !! m) <-> is_Some (thread_refs p !! m)).
  { intros m. cbn. destruct (decide (m = n)) as [->|]; [by rewrite lookup_insert_eq, Er|by rewrite lookup_insert_ne]. }
  destruct (truth (r - 1)) eqn:Et1.
  - exists [], p1. split; [done|]. split.
    + constructor; cbn [p1 threads set_refs active_count state work_dir ref_count]; try apply Hi.
      * intros m. rewrite Hdom. apply (i_nodes _ _ _ Hi).
      * intros m r' Em. cbn in Em. apply lookup_insert_Some in Em as [[<- <-]|[Hne Em]].
        -- rewrite (bool_decide_eq_false_2 (None = Some n)) by done. apply negb_true_iff, Z.eqb_neq in Et1. cbn in *. lia.
        -- destruct (i_refs _ _ _ Hi m r' Em) as (? & ? & Hx). rewrite (bool_decide_eq_false_2 (Some n = Some m)) in Hx by congruence.
           by rewrite (bool_decide_eq_false_2 (None = Some m)).
      * intros m Hm. apply Hdom. by apply (i_live _ _ _ Hi).
    + split; [done|]. split; [|split; [|set_solver]].
      * intros m. split; [set_solver|]. intros [Hm Hn']. apply Hdom in Hm. rewrite Hn' in Hm. by destruct Hm.
      * split; [set_solver|]. cbn. lia.
  - assert (r = 1) as -> by (apply negb_false_iff, Z.eqb_eq in Et1; lia). cbn [b2z] in Hrv.
    assert (n ∉ live g) as Hnl.
    { destruct (bool_decide (n ∈ live g)) eqn:Eb; cbn in Hrv; [lia|]. by apply bool_decide_eq_false in Eb. }
    destruct (erase_thread_ok p g n tid 0 Hi Hn Hnl) as (l & p' & Ee & Hi' & Ed & Es & ->). unfold p1. cbn [Z.sub].
    change (1 - 1) with 0. rewrite Ee. do 2 eexists. split; [done|]. split; [done|]. split; [done|]. split; [|split].
    + intros m. rewrite Ed. split.
      * intros Hm. assert (m = n) as -> by (destruct (ref_count p' =? 0); set_solver). rewrite Er, lookup_delete_eq. done.
      * intros [Hm Hm']. apply lookup_delete_None in Hm' as [->|Hm']; [by left|]. rewrite Hm' in Hm. by destruct Hm.
    + destruct (Z.eqb_spec (ref_count p') 0); set_solver.
    + destruct (ref_count p' =? 0); set_solver.
Qed.

Lemma spawn_ok p g n tid : inv p g None -> legal (CSpawn n tid) g p -> exists a p',
  spawn hash n tid p = Ok (a, p') /\ inv p' (after (CSpawn n tid) a g) None /\ ref_count p' = ref_count p /\
  (forall m, is_Some (thread_refs p !! m) -> is_Some (thread_refs p' !! m)) /\
  a = match state p with RUNNING => Some n | STOPPED => None end.
Proof.
  intros Hi (Hl & Hn & Ht & Hc). unfold spawn. destruct (state p) eqn:Es; [|by do 2 eexists].
  pose proof (i_wf _ _ _ Hi) as Hw.
  assert (Hf : n ∉ node <$> elems (threads p)) by (intros Hx; apply (i_nodes _ _ _ Hi) in Hx; rewrite Hn in Hx; by destruct Hx).
  destruct (insert_ok hash n tid (threads p) Hw ltac:(lia) Hf) as (t & -> & Hwt & He & _). cbn [obind manage ensure truth Z.eqb negb].
  do 2 eexists. split; [done|]. assert (Hnl : n ∉ live g) by (intros Hx; apply (i_live _ _ _ Hi) in Hx; rewrite Hn in Hx; by destruct Hx).
  pose proof (live_le p g _ Hi) as Hle.
  split; [|split; [done|split; [|done]]].
  - constructor; cbn [threads thread_refs active_count state work_dir ref_count set_active set_refs set_threads after live held phold]; [done| | | | | | |].
    + rewrite He. cbn. constructor; [|apply (i_tids _ _ _ Hi)]. intros (e & E & Hx)%list_elem_of_fmap. apply (Ht (node e)). by exists e.
    + intros m. rewrite He. cbn. rewrite elem_of_cons, (i_nodes _ _ _ Hi). destruct (decide (m = n)) as [->|Hne].
      * rewrite lookup_insert_eq. split; [done|by left].
      * rewrite lookup_insert_ne by done. split; [by intros [->|]|by right].
    + intros m r Em. rewrite (bool_decide_eq_false_2 (None = Some m)) by done. apply lookup_insert_Some in Em as [[<- <-]|[Hne Em]].
      * rewrite Z.eqb_refl, bool_decide_eq_true_2 by set_solver. cbn. lia.
      * destruct (i_refs _ _ _ Hi m r Em) as (? & ? & Hr). rewrite (proj2 (Z.eqb_neq m n)) by done.
        rewrite (bool_decide_ext (m ∈ {[n]} ∪ live g) (m ∈ live g)) by set_solver. done.
    + intros m. destruct (decide (m = n)) as [->|Hne]; [by rewrite lookup_insert_eq|]. rewrite lookup_insert_ne by done.
      intros Hm. apply (i_live _ _ _ Hi). set_solver.
    + rewrite size_union, size_singleton by set_solver. rewrite (i_active _ _ _ Hi). rewrite wrap_small; lia.
    + intros E. set_solver.
    + destruct (i_ref _ _ _ Hi) as [Hp ->]. split; [done|]. rewrite !empty_gone by done. rewrite !bool_decide_eq_true_2; [done| |].
      * intros E. rewrite E in He. by apply Permutation_nil_cons in He.
      * intros E. apply set_choose_L in Hl as [m Hm]. destruct (live_some p g _ m Hi Hm) as (e & Hx & _). rewrite E in Hx. by apply elem_of_nil in Hx.
  - intros m Hm. cbn. destruct (decide (m = n)) as [->|Hne]; [by rewrite lookup_insert_eq|by rewrite lookup_insert_ne].
Qed.

Lemma on_exit_ok p g n : inv p g None -> n ∈ live g -> exists l p',
  on_exit p = Ok (l, p') /\ inv p' (Ghost (live g ∖ {[n]}) (held g) (phold g)) (Some n) /\
  thread_refs p' = thread_refs p /\ threads p' = threads p /\ ref_count p' = ref_count p /\
  (ClearHandles ∈ l <-> live g ∖ {[n]} = ∅) /\ ProcessDeleted ∉ l /\ (forall m, ThreadDeleted m ∉ l).
Proof.
  intros Hi Hn. pose proof (live_le p g _ Hi) as Hle. pose proof (i_active _ _ _ Hi) as Ha.
  assert (Hsz : base.size (live g) = S (base.size (live g ∖ {[n]}))).
  { rewrite size_difference by set_solver. rewrite size_singleton. assert (base.size (live g) <> 0%nat); [|lia]. intros E. apply size_empty_inv in E. set_solver. }
  unfold on_exit. rewrite ensure_true. 2:{ apply andb_true_iff. split; [apply truth_pos; lia|apply Z.leb_le; unfold size; lia]. }
  cbn [obind]. change (active_count (set_active _ p)) with (active_count p - 1).
  assert (Hi' : forall p', threads p' = threads p -> thread_refs p' = thread_refs p -> active_count p' = active_count p - 1 -> ref_count p' = ref_count p ->
    (live g ∖ {[n]} = ∅ -> state p' = STOPPED /\ work_dir p' = None) -> inv p' (Ghost (live g ∖ {[n]}) (held g) (phold g)) (Some n)).
  { intros p' E1 E2 E3 E4 Hs. constructor; rewrite ?E1, ?E2, ?E3, ?E4; cbn [live held phold]; try apply Hi; [| |lia|done].
    - intros m r Em. destruct (i_refs _ _ _ Hi m r Em) as (? & ? & Hr). split; [done|]. split; [done|].
      rewrite (bool_decide_eq_false_2 (None = Some m)) in Hr by done. rewrite Hr. destruct (decide (m = n)) as [->|Hne].
      + rewrite (bool_decide_eq_true_2 (n ∈ live g)), (bool_decide_eq_false_2 (n ∈ _ ∖ _)), (bool_decide_eq_true_2 (Some n = Some n)) by set_solver. cbn. lia.
      + rewrite (bool_decide_eq_false_2 (Some n = Some m)) by congruence.
        by rewrite (bool_decide_ext (m ∈ live g ∖ {[n]}) (m ∈ live g)) by set_solver.
    - intros m Hm. apply (i_live _ _ _ Hi). set_solver. }
  destruct (truth (active_count p - 1)) eqn:Et.
  - do 2 eexists. split; [done|]. apply negb_true_iff, Z.eqb_neq in Et.
    assert (Hne : live g ∖ {[n]} <> ∅) by (intros E; rewrite E, size_empty in Hsz; lia).
    split; [by apply Hi'|]. do 3 (split; [done|]). split; [set_solver|]. split; set_solver.
  - apply negb_false_iff, Z.eqb_eq in Et. assert (He : live g ∖ {[n]} = ∅) by (apply leibniz_equiv, size_empty_inv; lia).
    do 2 eexists. split; [done|]. split; [by apply Hi'|]. do 3 (split; [done|]). split; [split; [done|intros _; right; left]|].
    split; [|intros m]; destruct (work_dir _); set_solver.
Qed.

(** [kill]: every thread but the caller is stopped, then the waiters are told, then the caller stops itself. *)
Lemma kill_loop_ok h l1 l2 fuel th : wf hash h -> elems h = l1 ++ l2 -> (length l2 <= fuel)%nat ->
  kill_loop fuel th (first (pos_of hash h <$> l2)) h =
    Ok (KillThread <$> filter (fun n => n <> th) (node <$> l2), bool_decide (th ∈ node <$> l2)).
Proof.
  intros Hw. revert l1 fuel. induction l2 as [|e l2 IH]; intros l1 fuel El Hf; [by destruct fuel|]. destruct fuel as [|fuel]; [cbn in Hf; lia|].
  change (first (pos_of hash h <$> e :: l2)) with (pos_of hash h e). unfold pos_of at 1. cbn [kill_loop]. fold (pos_of hash h e).
  destruct (incr_ok hash h l1 e l2 Hw El) as [reads ->]. cbn [obind].
  rewrite (IH (l1 ++ [e])); [|by rewrite <- app_assoc|cbn in Hf; lia]. cbn [obind fmap list_fmap].
  rewrite filter_cons. destruct (Z.eqb_spec (node e) th) as [E|E].
  - rewrite decide_False by (intros Hx; by apply Hx). rewrite (bool_decide_eq_true_2 (th ∈ node e :: _)); [done|]. rewrite <- E. by left.
  - rewrite decide_True by done. cbn. do 2 f_equal. apply bool_decide_ext. rewrite elem_of_cons. split; [by right|]. intros [Hx|]; [by destruct E|done].
Qed.

Lemma kill_ok p th v : wf hash (threads p) ->
  kill th v p = Ok ((KillThread <$> filter (fun n => n <> th) (node <$> elems (threads p))) ++ Notify ::
    (if bool_decide (th ∈ node <$> elems (threads p)) then [KillThread th] else []), set_result v (set_state STOPPED p)).
Proof.
  intros Hw. unfold kill. cbn [threads set_result set_state]. destruct (begin_ok hash (threads p) Hw) as [reads ->]. cbn [obind].
  rewrite (kill_loop_ok (threads p) [] (elems (threads p))); [|done|done|unfold size; rewrite (wf_count _ _ Hw); lia]. done.
Qed.

Lemma create_ok n tid wd nr : exists p, create hash n tid wd nr = Ok p /\ inv p (Ghost {[n]} (fun _ => 0) 1) None /\ state p = RUNNING.
Proof.
  unfold create. destruct (@new_set_ok Z hash 16 ltac:(lia)) as (t & -> & Hw & He). cbn [obind].
  assert (Hc : count t = 0) by (rewrite (wf_count _ _ Hw), He; done).
  unfold spawn. cbn [state threads]. destruct (insert_ok hash n tid t Hw ltac:(lia)) as (t1 & -> & Hw1 & He1 & _); [rewrite He; set_solver|].
  cbn [obind manage ensure truth Z.eqb negb ref_count set_active set_refs set_threads thread_refs state result active_count threads work_dir].
  rewrite lookup_insert_eq. cbn [deref obind]. eexists. split; [done|]. rewrite He in He1. apply Permutation_singleton_r in He1.
  split; [|done]. constructor; cbn [threads thread_refs active_count state work_dir ref_count set_ref set_refs set_threads set_active live held phold]; rewrite ?He1; [done|apply NoDup_singleton| | | |by rewrite size_singleton| |].
  - intros m. cbn. rewrite list_elem_of_singleton. destruct (decide (m = n)) as [->|Hne]; [by rewrite lookup_insert_eq|].
    rewrite !lookup_insert_ne, lookup_empty by done. split; [done|by intros [? ?]].
  - intros m r Em. rewrite insert_insert_eq in Em. apply lookup_singleton_Some in Em as [<- <-]. rewrite bool_decide_eq_true_2 by set_solver. rewrite (bool_decide_eq_false_2 (None = Some n)) by done. cbn. lia.
  - intros m ->%elem_of_singleton. by rewrite lookup_insert_eq.
  - intros E. set_solver.
  - split; [lia|]. rewrite (empty_gone t1 Hw1), He1. done.
Qed.

Definition good (c : call) (p : process) (g : ghost) : Prop := exists l a p', run_call c p = Ok (l, a, p') /\
  inv p' (after c a g) None /\ told l g (after c a g) p p'.

(** Calls that delete nothing and end no thread. *)
Definition quiet (ev : event) : Prop := match ev with ClearHandles | ThreadDeleted _ | ProcessDeleted => False | _ => True end.

Lemma told_quiet l g g' p p' : Forall quiet l -> (live g' = ∅ -> live g = ∅) ->
  (forall m, is_Some (thread_refs p !! m) -> is_Some (thread_refs p' !! m)) -> 0 < ref_count p' -> told l g g' p p'.
Proof.
  intros Hq Hl Hd Hr. rewrite Forall_forall in Hq. split; [|split].
  - split; [intros Hx; by destruct (Hq _ Hx)|]. intros [H1 H2]. by destruct H1, Hl.
  - intros m. split; [intros Hx; by destruct (Hq _ Hx)|]. intros [Hs Hn]. apply Hd in Hs. rewrite Hn in Hs. by destruct Hs.
  - split; [intros Hx; by destruct (Hq _ Hx)|lia].
Qed.

Lemma good_spawn p g n tid : inv p g None -> legal (CSpawn n tid) g p -> good (CSpawn n tid) p g.
Proof.
  intros Hi Hc. destruct (spawn_ok p g n tid Hi Hc) as (a & p' & E & Hi' & Hr & Hm & _). unfold good. cbn [run_call]. rewrite E. cbn [obind].
  do 3 eexists. split; [done|]. split; [done|]. assert (0 < ref_count p) by (apply (alive p g _ Hi); left; apply Hc).
  apply told_quiet; [constructor| |exact Hm|lia]. destruct Hc as [Hl _]. destruct a; cbn; [set_solver|done].
Qed.

Lemma good_gc p g n tid : inv p g None -> legal (CGc n tid) g p -> good (CGc n tid) p g.
Proof.
  intros Hi [Hl Hn]. unfold good. cbn [run_call]. unfold on_gc. destruct (on_exit_ok p g n Hi Hl) as (l1 & p1 & -> & Hi1 & Er & Et & Erc & Hch & Hpd & Htd). cbn [obind].
  destruct (thread_relax_ok p1 _ n tid Hi1) as (l2 & p2 & -> & Hi2 & _ & Ht2 & Hp2 & Hc2); [unfold is_thread in *; by rewrite Et|]. cbn [obind].
  do 3 eexists. split; [done|]. split; [exact Hi2|]. split; [|split].
  - rewrite elem_of_app, Hch. cbn [live after]. split; [intros [?|?]; [split; [set_solver|done]|done]|intros [_ ?]; by left].
  - intros m. rewrite elem_of_app, Ht2, Er. split; [intros [?|?]; [by destruct (Htd m)|done]|by right].
  - rewrite elem_of_app, Hp2. split; [intros [?|?]; done|by right].
Qed.

Lemma good_relax p g n tid : inv p g None -> legal (CRelax n tid) g p -> good (CRelax n tid) p g.
Proof.
  intros Hi [Hh Hn]. assert (Hi1 : inv p (Ghost (live g) (hold n (-1) (held g)) (phold g)) (Some n)).
  { constructor; cbn [live held phold]; try apply Hi. intros m r Em. destruct (i_refs _ _ _ Hi m r Em) as (? & ? & Hr).
    rewrite (bool_decide_eq_false_2 (None = Some m)) in Hr by done. unfold hold. split; [done|]. destruct (Z.eqb_spec m n) as [->|Hne].
    - rewrite (bool_decide_eq_true_2 (Some n = Some n)) by done. cbn in *. lia.
    - rewrite (bool_decide_eq_false_2 (Some n = Some m)) by congruence. done. }
  unfold good. cbn [run_call]. destruct (thread_relax_ok p _ n tid Hi1 Hn) as (l2 & p2 & -> & Hi2 & _ & Ht2 & Hp2 & Hc2). cbn [obind].
  do 3 eexists. split; [done|]. split; [exact Hi2|]. split; [|split; done]. split; [done|]. intros [? ?]. done.
Qed.

Lemma good_find p g tid : inv p g None -> legal (CFind tid) g p -> good (CFind tid) p g.
Proof.
  intros Hi Hc. assert (Hal : 0 < ref_count p) by (apply (alive p g _ Hi); cbn in Hc; tauto).
  unfold good. cbn [run_call]. unfold find_thread. destruct (find_thread_at p g _ tid Hi) as (it & -> & Hit). cbn [obind].
  destruct it as [b n|]; [|do 3 eexists; split; [done|]; split; [done|]; by apply told_quiet; [constructor| | |]].
  destruct Hit as [Hn (e & He & En & _)]. destruct (elem_ref p g _ e Hi He) as [r Er]. rewrite En in Er.
  destruct (i_refs _ _ _ Hi n r Er) as (Hr & Hh & Hrv). rewrite (deref_Some _ _ Er). cbn [obind]. rewrite truth_pos by done. cbn [obind].
  assert (Hdom : forall m, is_Some (<[n := r + 1]> (thread_refs p) !! m) <-> is_Some (thread_refs p !! m)).
  { intros m. destruct (decide (m = n)) as [->|Hne]; [by rewrite lookup_insert_eq, Er|by rewrite lookup_insert_ne]. }
  do 3 eexists. split; [done|]. split; [|apply told_quiet; [constructor|done|intros m Hm; by apply Hdom|done]].
  constructor; cbn [threads thread_refs active_count state work_dir ref_count set_refs after live held phold]; try apply Hi.
  - intros m. by rewrite (i_nodes _ _ _ Hi), Hdom.
  - intros m r' Em. unfold hold. apply lookup_insert_Some in Em as [[<- <-]|[Hne Em]].
    + rewrite Z.eqb_refl. rewrite (bool_decide_eq_false_2 (None = Some n)) in * by done. cbn in *. lia.
    + rewrite (proj2 (Z.eqb_neq m n)) by done. apply (i_refs _ _ _ Hi m r' Em).
  - intros m Hm. apply Hdom. by apply (i_live _ _ _ Hi).
Qed.

Lemma good_acquire p g : inv p g None -> legal CAcquire g p -> good CAcquire p g.
Proof.
  intros Hi Hc. destruct (i_ref _ _ _ Hi) as [Hp Hr]. cbn in Hc. assert (0 < ref_count p) by (apply (alive p g _ Hi); tauto).
  unfold good. cbn [run_call]. unfold acquire. rewrite truth_pos by done. do 3 eexists. split; [done|].
  split; [|apply told_quiet; [constructor|done|done|cbn; lia]].
  constructor; cbn [threads thread_refs active_count state work_dir ref_count set_ref after live held phold]; try apply Hi. split; [lia|]. rewrite Hr. lia.
Qed.

Lemma no_threads p g x : inv p g x -> elems (threads p) = [] -> live g = ∅.
Proof.
  intros Hi He. destruct (decide (live g = ∅)) as [|HL]; [done|]. apply set_choose_L in HL as [m Hm].
  destruct (live_some p g _ m Hi Hm) as (e & Hx & _). rewrite He in Hx. by apply elem_of_nil in Hx.
Qed.

Lemma good_release p g : inv p g None -> legal CRelaxProcess g p -> good CRelaxProcess p g.
Proof.
  intros Hi Hc. pose proof (i_wf _ _ _ Hi) as Hw. destruct (i_ref _ _ _ Hi) as [Hp Hr]. cbn in Hc. assert (Ha : 0 < ref_count p) by (apply (alive p g _ Hi); tauto).
  unfold good. cbn [run_call]. rewrite relax_ok; [|done|].
  2:{ intros E1. assert (Hemp : elems (threads p) = []).
      { rewrite (empty_gone _ Hw) in Hr. case_bool_decide as Hx; cbn in Hr; [lia|]. destruct (elems (threads p)); [done|by destruct Hx]. }
      pose proof (no_threads _ _ _ Hi Hemp) as HL. apply destroy_ok; [done|done|cbn; rewrite (i_active _ _ _ Hi), HL; done|]. by apply (i_stopped _ _ _ Hi HL). }
  cbn [obind]. do 3 eexists. split; [done|]. split.
  - constructor; cbn [threads thread_refs active_count state work_dir ref_count set_ref after live held phold]; try apply Hi. split; [lia|]. rewrite Hr. lia.
  - split; [split; [destruct (_ =? _); set_solver|intros [? ?]; done]|].
    split; [intros m; split; [destruct (_ =? _); set_solver|intros [Hs Hn]; cbn in Hn; rewrite Hn in Hs; by destruct Hs]|].
    cbn [ref_count set_ref]. destruct (Z.eqb_spec (ref_count p) 1); split; [lia|by left|set_solver|lia].
Qed.

Lemma good_kill p g th v : inv p g None -> legal (CKill th v) g p -> good (CKill th v) p g.
Proof.
  intros Hi Hc. assert (0 < ref_count p) by (apply (alive p g _ Hi); cbn in Hc; tauto).
  unfold good. cbn [run_call]. rewrite kill_ok by apply (i_wf _ _ _ Hi). cbn [obind]. do 3 eexists. split; [done|]. split.
  - constructor; cbn [threads thread_refs active_count state work_dir ref_count set_state set_result after]; try apply Hi.
    intros HL. split; [done|]. by apply (i_stopped _ _ _ Hi HL).
  - apply told_quiet; [|done|done|cbn; lia]. apply Forall_app. split; [|constructor; [done|case_bool_decide; by repeat constructor]].
    apply Forall_fmap, Forall_forall. by intros m _.
Qed.

Lemma good_dir p g ie wd : inv p g None -> legal (CDir ie wd) g p -> good (CDir ie wd) p g.
Proof.
  intros Hi Hc. assert (0 < ref_count p) by (apply (alive p g _ Hi); cbn in Hc; tauto). cbn in Hc.
  assert (Hd : exists d l, run_call (CDir ie wd) p = Ok (l, None, set_dir d p) /\ Forall quiet l).
  { cbn [run_call]. unfold set_work_dir. exists (if ie then None else match wd with Some d => Some d | None => work_dir p end).
    destruct ie, wd; eexists; (split; [try done|]); try (destruct (work_dir p); by repeat constructor). by destruct p. }
  destruct Hd as (d & l & E & Hq). exists l, None, (set_dir d p). split; [done|]. split; [|by apply told_quiet].
  constructor; cbn [threads thread_refs active_count state work_dir ref_count set_dir after]; try apply Hi. intros HL. done.
Qed.

End theory.


Example one_life : obind (create id 100 1 (Some 7) 9) (fun p => let! (l, _, p) := run_call id (CGc 100 1) p;
    let! (l', _, _) := run_call id CRelaxProcess p; Ok (l ++ l')) =
  Ok [Notify; ClearHandles; RelaxDir 7; ThreadDeleted 100; ProcessDeleted].
Proof. reflexivity. Qed.

(** ** Enumeration *)

Section enumeration.
Context {T : Type} (hash : Z -> Z) (pid : T -> Z).

Lemma equal_process_hash (x : T) k : equal_process pid x k = true -> hash_process hash pid x = hash k.
Proof. unfold equal_process, hash_process. intros E. by apply Z.eqb_eq in E as ->. Qed.

Abbreviation ids l := ((fun e => pid (payload e)) <$> l).
Definition nonzero (l : list Z) : list Z := filter (fun k => k <> 0) l.

Lemma enum_loop_ok (h : hash_set T) l1 l2 fuel : wf (hash_process hash pid) h -> elems h = l1 ++ l2 -> (length l2 <= fuel)%nat ->
  enum_loop pid fuel (first (pos_of (hash_process hash pid) h <$> l2)) h = Ok (hd 0 (nonzero (ids l2))).
Proof.
  intros Hw. revert l1 fuel. induction l2 as [|e l2 IH]; intros l1 fuel El Hf; [by destruct fuel|]. destruct fuel as [|fuel]; [cbn in Hf; lia|].
  change (first (pos_of (hash_process hash pid) h <$> e :: l2)) with (pos_of (hash_process hash pid) h e).
  unfold pos_of at 1. cbn [enum_loop]. fold (pos_of (hash_process hash pid) h e).
  rewrite at_pos_ok by (try done; rewrite El; apply elem_between). cbn [obind fmap list_fmap]. unfold nonzero. rewrite filter_cons.
  unfold truth. destruct (Z.eqb_spec (pid (payload e)) 0) as [E|E]; cbn [negb].
  - rewrite decide_False by (by intros Hx). destruct (incr_ok _ h l1 e l2 Hw El) as [reads ->]. cbn [obind].
    apply (IH (l1 ++ [e])); [by rewrite <- app_assoc|cbn in Hf; lia].
  - by rewrite decide_True by done.
Qed.

Lemma enumerate_start h : wf (hash_process hash pid) h -> enumerate hash pid 0 h = Ok (true, hd 0 (nonzero (ids (elems h)))).
Proof.
  intros Hw. unfold enumerate. cbn [Z.eqb]. destruct (begin_ok _ h Hw) as [reads ->]. cbn [obind].
  rewrite (enum_loop_ok h [] (elems h)); [done|done|done|unfold size; rewrite (wf_count _ _ Hw); lia].
Qed.

Lemma enumerate_next h l1 e l2 : wf (hash_process hash pid) h -> NoDup (ids (elems h)) -> elems h = l1 ++ e :: l2 -> pid (payload e) <> 0 ->
  enumerate hash pid (pid (payload e)) h = Ok (true, hd 0 (nonzero (ids l2))).
Proof.
  intros Hw Hd El Hz. unfold enumerate. rewrite (proj2 (Z.eqb_neq _ _)) by done.
  destruct (find_ok _ hash (equal_process pid) equal_process_hash h (pid (payload e)) Hw) as [(e' & He' & Hk & ->)|[Hn _]].
  2:{ specialize (Hn e). unfold equal_process in Hn. rewrite Z.eqb_refl in Hn. discriminate Hn. rewrite El. apply elem_between. }
  apply Z.eqb_eq in Hk. assert (e' = e) as ->.
  { assert (He : e ∈ elems h) by (rewrite El; apply elem_between). apply list_elem_of_lookup in He as [i Ei]. apply list_elem_of_lookup in He' as [j Ej].
    assert (i = j) as ->; [|congruence]. eapply (NoDup_lookup _ i j (pid (payload e)) Hd); rewrite list_lookup_fmap, ?Ei, ?Ej; cbn; congruence. }
  cbn [obind]. unfold pos_of at 1. cbn [obind]. fold (pos_of (hash_process hash pid) h e).
  destruct (incr_ok _ h l1 e l2 Hw El) as [reads ->]. cbn [obind].
  rewrite (enum_loop_ok h (l1 ++ [e]) l2); [done|done|by rewrite <- app_assoc|]. unfold size. rewrite (wf_count _ _ Hw), El, length_app. cbn. lia.
Qed.

(** The caller's loop: from 0, on to the identifier that came back, until 0 comes back. *)
Fixpoint enum_all (fuel : nat) (k : Z) (h : hash_set T) : outcome (list Z) :=
  match fuel with
  | O => NoFuel
  | S fuel =>
      let! (ok, k) := enumerate hash pid k h;
      if negb ok then Bug else if k =? 0 then Ok [] else let! l := enum_all fuel k h; Ok (k :: l)
  end.

Lemma nonzero_hd (l : list (entry T)) : match nonzero (ids l) with
  | [] => True
  | k :: ks => exists l1 e l2, l = l1 ++ e :: l2 /\ pid (payload e) = k /\ k <> 0 /\ nonzero (ids l2) = ks
  end.
Proof.
  induction l as [|e l IH]; [done|]. cbn [fmap list_fmap]. unfold nonzero. rewrite filter_cons. case_decide as Hz.
  - exists [], e, l. done.
  - fold (nonzero (ids l)). destruct (nonzero (ids l)) as [|k ks] eqn:En; [done|]. destruct IH as (l1 & e1 & l2 & -> & ? & ? & ?). by exists (e :: l1), e1, l2.
Qed.

Lemma enum_all_from h fuel l l1 k : wf (hash_process hash pid) h -> NoDup (ids (elems h)) -> elems h = l1 ++ l ->
  enumerate hash pid k h = Ok (true, hd 0 (nonzero (ids l))) -> (length l < fuel)%nat -> enum_all fuel k h = Ok (nonzero (ids l)).
Proof.
  intros Hw Hd. revert l l1 k. induction fuel as [|fuel IH]; intros l l1 k El Ek Hf; [lia|]. cbn [enum_all]. rewrite Ek. cbn [obind negb].
  pose proof (nonzero_hd l) as Hn. destruct (nonzero (ids l)) as [|k1 ks]; [done|]. destruct Hn as (m1 & e & m2 & -> & <- & Hz & <-).
  cbn [hd]. rewrite (proj2 (Z.eqb_neq _ _)) by done. rewrite app_assoc in El.
  rewrite (IH m2 ((l1 ++ m1) ++ [e])); [done|by rewrite <- app_assoc| |rewrite length_app in Hf; cbn in Hf; lia].
  by apply (enumerate_next h (l1 ++ m1) e m2).
Qed.

(** Walking through the processes by identifier, as [ps] does, meets every process but the kernel's
    (identifier 0) exactly once and then comes back to 0. *)
Theorem enumerate_all h : wf (hash_process hash pid) h -> NoDup (ids (elems h)) ->
  enum_all (S (Z.to_nat (size h))) 0 h = Ok (nonzero (ids (elems h))).
Proof.
  intros Hw Hd. apply (enum_all_from h _ (elems h) []); [done|done|done|by apply enumerate_start|].
  unfold size. rewrite (wf_count _ _ Hw). lia.
Qed.
End enumeration.

Definition three : hash_set Z := HSet [[Entry 10 0 0; Entry 12 2 2]; [Entry 11 1 1]] 3.

Lemma enumerate_all_witness : wf (hash_process id id) three /\ enum_all id id 4 0 three = Ok [2; 1].
Proof.
  assert (Hw : wf (hash_process id id) three).
  { constructor; [done|done|by repeat constructor| |by apply (bool_decide_unpack _); vm_compute].
    intros [|[|b]] ch e Eb He; cbn in Eb; [| |done]; injection Eb as <-;
      repeat (apply elem_of_cons in He as [->|He]; [reflexivity|]); by apply elem_of_nil in He. }
  split; [exact Hw|]. apply (enumerate_all id id three Hw). by apply (bool_decide_unpack _); vm_compute.
Defined.

(** ** Named objects *)

(** [put] refuses every name that is not in the table yet: an empty table stays empty. *)
Lemma put_object_refuses hash privilege n nm ob properties t : wf (hash_object hash) t -> elems t = [] ->
  put_object hash privilege n nm ob properties t = Ok (false, t).
Proof.
  intros Hw He. unfold put_object. case_if; [done|]. case_if; [done|].
  destruct (find_ok (hash_object hash) hash equal_object) with (h := t) (k := nm) as [(e & Hx & _)|[_ ->]]; [|done| |done].
  - unfold equal_object, hash_object. intros x k Hk. by apply bool_decide_eq_true in Hk as ->.
  - rewrite He in Hx. by apply elem_of_nil in Hx.
Qed.

(** The loop of [erase] moves on after an erasure: past the neighbour, or past the end. *)
Example erase_object_skips : erase_object 5 (HSet [[Entry 1 0 (Object [] 5 0); Entry 2 0 (Object [1] 5 0)]] 2) = Ok (HSet [[Entry 2 0 (Object [1] 5 0)]] 1).
Proof. reflexivity. Qed.
Example erase_object_past_end : erase_object 5 (HSet [[Entry 1 0 (Object [] 5 0)]] 1) = Bug.
Proof. reflexivity. Qed.
End ProcessThm.
