(* ===== verification/DiskCache.v ===== *)
(** * The disk cache (src/kernel/dev/disk_interface.cpp)

    A slot holds one page of eight sectors: [valid] says which of them hold data, [dirty] which have not
    been written to the disk yet.  Sectors are values of a type [D].  The disk is a function from
    sector numbers to their contents; [faults] says for the next commands to it whether they
    succeed ([ide.command] of ide.cpp), no entry being left meaning success.  A caller that would wait for a
    slot gets [Blocked] and tries again.  [now] is the running time. *)

From S2P Require Import Prelude Const.

Module DiskCache.
Section cache.
Context {D : Type} (zero : D).

Record slot := Slot { lba_base : Z; valid : Z; dirty : Z; timestamp : Z; locked : bool; page : list D }.
Record cache := Cache { table : list slot; platter : Z -> D; faults : list bool }.

(** [align_down] to eight sectors. *)
Definition page_lba (lba : Z) : Z := lba / 8 * 8.

(** [IDE::command] refuses sector numbers of more than 28 bits. *)
Definition command (lba : Z) (f : list bool) : bool * list bool :=
  if truth (Z.shiftr lba 28) then (false, f)
  else match f with [] => (true, []) | b :: f => (b, f) end.

Definition set_valid (v : Z) (s : slot) : slot := Slot (lba_base s) v (dirty s) (timestamp s) (locked s) (page s).
Definition set_dirty (v : Z) (s : slot) : slot := Slot (lba_base s) (valid s) v (timestamp s) (locked s) (page s).
Definition set_base (v : Z) (s : slot) : slot := Slot v (valid s) (dirty s) (timestamp s) (locked s) (page s).
Definition set_time (v : Z) (s : slot) : slot := Slot (lba_base s) (valid s) (dirty s) v (locked s) (page s).
Definition set_locked (v : bool) (s : slot) : slot := Slot (lba_base s) (valid s) (dirty s) (timestamp s) v (page s).
Definition set_page (v : list D) (s : slot) : slot := Slot (lba_base s) (valid s) (dirty s) (timestamp s) (locked s) v.

(** What a command moves: sectors [head] to [i - 1] of the page to the disk, or a whole page from it. *)
Definition write_range (s : slot) (head i : Z) (p : Z -> D) : Z -> D :=
  fun l => if (lba_base s + head <=? l) && (l <? lba_base s + i)
           then default (p l) (page s !! Z.to_nat (l - lba_base s)) else p l.
Definition read_page (base : Z) (p : Z -> D) : list D := p <$> seqZ base 8.

Definition mask (i : Z) : Z := w8 (Z.shiftl 1 i).

(** [slot::flush]: the loop over [i] up to and including 8, where the mask is 0. *)
Fixpoint flush_loop (n : nat) (i head : Z) (s : slot) (p : Z -> D) (f : list bool) : bool * (Z -> D) * list bool :=
  match n with
  | O => (true, p, f)
  | S n =>
      if Z.land (dirty s) (mask i) =? 0 then
        if negb (head =? i) then
          let '(res, f) := command (lba_base s + head) f in
          if res then flush_loop n (i + 1) (i + 1) s (write_range s head i p) f else (false, p, f)
        else flush_loop n (i + 1) (i + 1) s p f
      else flush_loop n (i + 1) head s p f
  end.

Definition flush (s : slot) (p : Z -> D) (f : list bool) : bool * slot * (Z -> D) * list bool :=
  if dirty s =? 0 then (true, s, p, f)
  else
    let '(res, p, f) := flush_loop 9 0 0 s p f in
    (res, if res then set_dirty 0 s else s, p, f).

Definition reload (now aligned : Z) (s : slot) (p : Z -> D) (f : list bool) : outcome (bool * slot * (Z -> D) * list bool) :=
  assert! aligned =? page_lba aligned;
  let '(res, s, p, f) := flush s p f in
  if negb res then Ok (false, s, p, f)
  else
    let s := set_base aligned (set_valid 0 s) in
    let '(res, f) := command aligned f in
    if negb res then Ok (false, s, p, f)
    else Ok (true, set_time now (set_valid 0xFF (set_page (read_page aligned p) s)), p, f).

Definition load (now lba : Z) (s : slot) (p : Z -> D) (f : list bool) : outcome (bool * slot * (Z -> D) * list bool) :=
  assert! lba_base s =? page_lba lba;
  if valid s =? 0xFF then Ok (true, s, p, f)
  else
    assert! truth (dirty s);
    reload now (lba_base s) s p f.

(** The dirty bits of [count] sectors from [off]; [upgrade] checks in addition that they are valid. *)
Fixpoint mark (n : nat) (off : Z) (check : Z) (d : Z) : outcome Z :=
  match n with
  | O => Ok d
  | S n => assert! off <? 8; assert! truth (Z.land check (mask off)); mark n (off + 1) check (Z.lor d (mask off))
  end.

Definition zero_range (off count : Z) (pg : list D) : list D :=
  imap (fun i x => if (off <=? Z.of_nat i) && (Z.of_nat i <? off + count) then zero else x) pg.

Definition store (now lba count : Z) (s : slot) (p : Z -> D) (f : list bool) : outcome (bool * slot * (Z -> D) * list bool) :=
  let aligned := page_lba lba in
  let '(res, s, p, f) :=
    (if negb (aligned =? lba_base s) then
       let '(res, s, p, f) := flush s p f in
       if res then (true, set_base aligned (set_valid 0 s), p, f) else (false, s, p, f)
     else (true, s, p, f)) in
  if negb res then Ok (false, s, p, f)
  else
    let off := lba - lba_base s in
    let! d := mark (Z.to_nat count) off 0xFF (dirty s);
    let s := set_page (zero_range off count (page s)) (set_dirty d s) in
    Ok (true, set_time now (set_valid (Z.lor (valid s) d) s), p, f).

Definition slot_match (aligned : Z) (s : slot) : bool := truth (valid s) && (lba_base s =? aligned).

(** [disk_interface::count]: the sectors from [lba] to the end of its page. *)
Definition count_of (lba : Z) : Z := if page_lba (lba + 7) =? lba then 8 else w8 (page_lba (lba + 7) - lba).

Fixpoint find_match (aligned : Z) (i : nat) (t : list slot) : option nat :=
  match t with
  | [] => None
  | s :: t => if slot_match aligned s then Some i else find_match aligned (S i) t
  end.

(** The slot that was not used for the longest time, among those that are not locked. *)
Fixpoint find_target (i : nat) (best : option (nat * Z)) (t : list slot) : option (nat * Z) :=
  match t with
  | [] => best
  | s :: t =>
      let best :=
        if locked s then best
        else match best with
             | None => Some (i, timestamp s)
             | Some (j, ts) => if timestamp s <? ts then Some (i, timestamp s) else best
             end in
      find_target (S i) best t
  end.

(** The answer of [get]: a slot, locked for the caller; null; or the caller has to wait. *)
Inductive answer := Got (i : nat) | Failed | Blocked.

Definition with_slot (i : nat) (c : cache) (op : slot -> (Z -> D) -> list bool -> outcome (bool * slot * (Z -> D) * list bool)) : outcome (answer * cache) :=
  let! s := deref (table c !! i);
  let! (res, s, p, f) := op (set_locked true s) (platter c) (faults c);
  Ok (if res : bool then Got i else Failed, Cache (<[i := s]> (table c)) p f).

Definition get (now lba count : Z) (write : bool) (c : cache) : outcome (answer * cache) :=
  let aligned := page_lba lba in
  assert! count <=? count_of lba;
  match find_match aligned 0 (table c) with
  | Some i =>
      let! s := deref (table c !! i);
      if locked s then Ok (Blocked, c)
      else with_slot i c (if write then store now lba count else load now lba)
  | None =>
      match find_target 0 None (table c) with
      | Some (i, _) => with_slot i c (if write then store now lba count else reload now aligned)
      | None => Ok (Blocked, c)
      end
  end.

Definition upgrade (i : nat) (lba count : Z) (c : cache) : outcome cache :=
  let! s := deref (table c !! i);
  assert! locked s;
  assert! (page_lba lba =? lba_base s) && (count <=? count_of lba);
  let! d := mark (Z.to_nat count) (lba - lba_base s) (valid s) (dirty s);
  Ok (Cache (<[i := set_dirty d s]> (table c)) (platter c) (faults c)).

(** [slot::data]: the address of a sector; what its holder reads and writes through it. *)
Definition data (i : nat) (lba : Z) (c : cache) : outcome D :=
  let! s := deref (table c !! i);
  assert! truth (valid s);
  assert! lba_base s =? page_lba lba;
  deref (page s !! Z.to_nat (lba - lba_base s)).
Definition set_data (i : nat) (lba : Z) (d : D) (c : cache) : outcome cache :=
  let! s := deref (table c !! i);
  assert! truth (valid s);
  assert! lba_base s =? page_lba lba;
  Ok (Cache (<[i := set_page (<[Z.to_nat (lba - lba_base s) := d]> (page s)) s]> (table c)) (platter c) (faults c)).

Definition relax (i : nat) (flushing : bool) (c : cache) : outcome cache :=
  let! s := deref (table c !! i);
  let '(_, s, p, f) := (if flushing && truth (dirty s) then flush s (platter c) (faults c) else (true, s, platter c, faults c)) in
  assert! locked s;
  Ok (Cache (<[i := set_locked false s]> (table c)) p f).

(** [disk_interface::flush]: every slot that is not locked. *)
Fixpoint flush_all (t : list slot) (p : Z -> D) (f : list bool) : list slot * (Z -> D) * list bool :=
  match t with
  | [] => ([], p, f)
  | s :: t =>
      let '(_, s, p, f) := (if locked s then (true, s, p, f) else flush s p f) in
      let '(t, p, f) := flush_all t p f in
      (s :: t, p, f)
  end.

(** The constructor: [slot_count] slots without data, each with a page of its own. *)
Definition new_slot (pg : list D) : slot := Slot 0 0 0 0 false pg.
Definition new_cache (pages : list (list D)) (p : Z -> D) (f : list bool) : cache := Cache (new_slot <$> pages) p f.
End cache.
End DiskCache.

Module CacheThm.
Import DiskCache.

(** ** Bits *)

Lemma land_bit d i : 0 <= i -> Z.land d (2 ^ i) = if Z.testbit d i then 2 ^ i else 0.
Proof.
  intros Hi. apply Z.bits_inj'. intros j Hj. rewrite Z.land_spec, Z.pow2_bits_eqb by lia.
  destruct (Z.eqb_spec i j) as [->|Hne].
  - rewrite andb_true_r. destruct (Z.testbit d j) eqn:E; [by rewrite Z.pow2_bits_true|by rewrite Z.testbit_0_l].
  - rewrite andb_false_r. destruct (Z.testbit d i); [by rewrite Z.pow2_bits_false|by rewrite Z.testbit_0_l].
Qed.

Lemma mask_pow i : 0 <= i < 8 -> mask i = 2 ^ i.
Proof. intros Hi. unfold mask. rewrite Z.shiftl_1_l. apply wrap_small. split; [lia|]. apply Z.pow_lt_mono_r; lia. Qed.

Lemma mask_test d i : 0 <= i < 8 -> (Z.land d (mask i) =? 0) = negb (Z.testbit d i).
Proof.
  intros Hi. rewrite mask_pow, land_bit by lia. assert (0 < 2 ^ i) by (apply Z.pow_pos_nonneg; lia).
  destruct (Z.testbit d i); [apply Z.eqb_neq; lia|done].
Qed.

Lemma bit_range v i : 0 <= v < 256 -> Z.testbit v i = true -> 0 <= i < 8.
Proof.
  intros Hv Ht. destruct (decide (i < 0)); [by rewrite Z.testbit_neg_r in Ht|].
  destruct (decide (i < 8)) as [|H8]; [lia|]. replace v with (v mod 2 ^ 8) in Ht by (apply Z.mod_small; lia).
  rewrite Z.mod_pow2_bits_high in Ht by lia. done.
Qed.

Lemma lor_byte a b : 0 <= a < 256 -> 0 <= b < 256 -> 0 <= Z.lor a b < 256.
Proof.
  intros Ha Hb. split; [apply Z.lor_nonneg; lia|].
  destruct (Z.eq_dec (Z.lor a b) 0) as [->|Hn]; [lia|].
  change 256 with (2 ^ 8) in *. pose proof (proj2 (Z.lor_nonneg a b) ltac:(lia)). apply Z.log2_lt_pow2; [lia|].
  rewrite Z.log2_lor by lia. apply Z.max_lub_lt.
  - destruct (Z.eq_dec a 0) as [->|]; [done|apply Z.log2_lt_pow2; lia].
  - destruct (Z.eq_dec b 0) as [->|]; [done|apply Z.log2_lt_pow2; lia].
Qed.

Lemma byte_zero v : 0 <= v < 256 -> (forall i, 0 <= i < 8 -> Z.testbit v i = false) -> v = 0.
Proof.
  intros Hv H. apply Z.bits_inj'. intros i Hi. rewrite Z.testbit_0_l. destruct (Z.testbit v i) eqn:E; [|done].
  pose proof (bit_range v i Hv E). rewrite H in E by lia. done.
Qed.

Section theory.
Context {D : Type} (zero : D).
Abbreviation slot := (slot (D := D)).
Abbreviation cache := (cache (D := D)).

(** ** One slot *)

(** What the slot holds for a sector. *)
Definition cell (s : slot) (l : Z) : option D :=
  if (page_lba l =? lba_base s) && Z.testbit (valid s) (l - lba_base s) then page s !! Z.to_nat (l - lba_base s) else None.

Record slot_wf (p : Z -> D) (s : slot) : Prop := {
  s_len : length (page s) = 8%nat;
  s_valid : 0 <= valid s < 256;
  s_dirty : 0 <= dirty s < 256;
  s_sub : forall i, Z.testbit (dirty s) i = true -> Z.testbit (valid s) i = true;
  s_base : valid s <> 0 -> page_lba (lba_base s) = lba_base s;
  s_clean : forall i d, Z.testbit (valid s) i = true -> Z.testbit (dirty s) i = false -> page s !! Z.to_nat i = Some d -> p (lba_base s + i) = d
}.

Lemma page_lba_range l : page_lba l <= l < page_lba l + 8.
Proof. unfold page_lba. pose proof (Z.div_mod l 8 ltac:(lia)). pose proof (Z.mod_pos_bound l 8 ltac:(lia)). lia. Qed.

Lemma page_lba_at b i : page_lba b = b -> 0 <= i < 8 -> page_lba (b + i) = b.
Proof. unfold page_lba. intros <- Hi. rewrite Z.add_comm, Z.div_add, Z.div_small by lia. lia. Qed.

Lemma page_lba_idem l : page_lba (page_lba l) = page_lba l.
Proof. unfold page_lba. by rewrite Z.div_mul by lia. Qed.

Lemma cell_in s l d : cell s l = Some d -> page_lba l = lba_base s /\ Z.testbit (valid s) (l - lba_base s) = true /\ page s !! Z.to_nat (l - lba_base s) = Some d.
Proof. unfold cell. destruct (Z.eqb_spec (page_lba l) (lba_base s)), (Z.testbit _ _) eqn:E; cbn; by intros. Qed.

Lemma cell_some s l p : slot_wf p s -> page_lba l = lba_base s -> Z.testbit (valid s) (l - lba_base s) = true -> exists d, cell s l = Some d.
Proof.
  intros Hw Hl Ht. unfold cell. rewrite Hl, Z.eqb_refl, Ht. cbn [andb]. pose proof (page_lba_range l). apply lookup_lt_is_Some_2.
  rewrite (s_len _ _ Hw). lia.
Qed.

Lemma cell_ext s s' l : lba_base s' = lba_base s -> valid s' = valid s -> page s' = page s -> cell s' l = cell s l.
Proof. unfold cell. by intros -> -> ->. Qed.

(** The disk after the dirty sectors below [h] have been written. *)
Definition written (s : slot) (h : Z) (p : Z -> D) (l : Z) : D :=
  if (lba_base s <=? l) && (l <? lba_base s + h) && Z.testbit (dirty s) (l - lba_base s)
  then default (p l) (page s !! Z.to_nat (l - lba_base s)) else p l.

Lemma written_step s h p l : Z.testbit (dirty s) h = false -> written s (h + 1) p l = written s h p l.
Proof.
  intros Ht. unfold written. destruct (Z.leb_spec (lba_base s) l), (Z.ltb_spec l (lba_base s + (h + 1))), (Z.ltb_spec l (lba_base s + h)); cbn; try done; try lia.
  replace (l - lba_base s) with h by lia. by rewrite Ht.
Qed.

Lemma written_range s head i p q l : (forall m, q m = written s head p m) -> 0 <= head <= i ->
  (forall j, head <= j < i -> Z.testbit (dirty s) j = true) -> write_range s head i q l = written s i p l.
Proof.
  intros Hq Hi Hd. unfold write_range. rewrite Hq. unfold written.
  destruct (Z.leb_spec (lba_base s + head) l), (Z.ltb_spec l (lba_base s + i)), (Z.leb_spec (lba_base s) l), (Z.ltb_spec l (lba_base s + head)); cbn; try done; try lia.
  all: try (rewrite (Hd (l - lba_base s)) by lia; done).
  all: destruct (Z.testbit (dirty s) (l - lba_base s)) eqn:E; cbn; try done.
Qed.

Lemma flush_loop_ok n : forall i head s p0 p f, 0 <= dirty s < 256 -> i + Z.of_nat n = 9 -> 0 <= head <= i -> (i = 9 -> head = 9) ->
  (forall j, head <= j < i -> Z.testbit (dirty s) j = true) -> (forall m, p m = written s head p0 m) ->
  exists res h p' f', flush_loop n i head s p f = (res, p', f') /\ (forall m, p' m = written s h p0 m) /\ (res = true -> h = 9).
Proof.
  induction n as [|n IH]; intros i head s p0 p f Hd En Hh H9 Hj Hp; cbn [flush_loop].
  { exists true, head, p, f. split; [done|]. split; [done|]. intros _. apply H9. lia. }
  assert (Ht : (Z.land (dirty s) (mask i) =? 0) = negb (Z.testbit (dirty s) i)).
  { destruct (decide (i = 8)) as [->|]; [|apply mask_test; lia]. change (mask 8) with 0. rewrite Z.land_0_r.
    destruct (Z.testbit (dirty s) 8) eqn:E; [|done]. pose proof (bit_range _ _ Hd E). lia. }
  rewrite Ht. destruct (Z.testbit (dirty s) i) eqn:Eb; cbn [negb].
  - apply IH; try done; try lia.
    + intros E9. assert (i = 8) by lia. subst i. pose proof (bit_range _ _ Hd Eb). lia.
    + intros j Hj'. destruct (decide (j = i)) as [->|]; [done|]. apply Hj. lia.
  - assert (Hw : forall q, (forall m, q m = written s i p0 m) -> forall f, exists res h p' f', flush_loop n (i + 1) (i + 1) s q f = (res, p', f') /\
      (forall m, p' m = written s h p0 m) /\ (res = true -> h = 9)).
    { intros q Hq f'. apply IH; try done; try lia. intros m. by rewrite Hq, written_step. }
    destruct (Z.eqb_spec head i) as [->|Hne]; cbn [negb]; [by apply Hw|].
    destruct (command (lba_base s + head) f) as [[|] f']; [|by exists false, head, p, f'].
    apply Hw. intros m. apply written_range; [done|lia|done].
Qed.

Lemma written_out s h p l : slot_wf p s -> 0 <= h -> cell s l = None -> written s h p l = p l.
Proof.
  intros Hw Hh Hc. unfold written. destruct (Z.leb_spec (lba_base s) l), (Z.ltb_spec l (lba_base s + h)), (Z.testbit (dirty s) (l - lba_base s)) eqn:E; cbn; try done.
  pose proof (s_sub _ _ Hw _ E) as Hv. pose proof (bit_range _ _ (s_dirty _ _ Hw) E) as Hr.
  assert (Hv0 : valid s <> 0) by (intros E0; rewrite E0, Z.testbit_0_l in Hv; done).
  pose proof (page_lba_at _ (l - lba_base s) (s_base _ _ Hw Hv0) Hr) as Hl. replace (lba_base s + (l - lba_base s)) with l in Hl by lia.
  destruct (cell_some s l p Hw Hl Hv) as [d Ed]. congruence.
Qed.

Lemma written_in s h p l d : slot_wf p s -> cell s l = Some d -> written s h p l = p l \/ written s h p l = d.
Proof.
  intros Hw Hc. apply cell_in in Hc as (Hl & Hv & Hp). unfold written. rewrite Hp. destruct (_ && _ && _); [by right|by left].
Qed.

Lemma written_all s p l d : slot_wf p s -> cell s l = Some d -> written s 9 p l = d.
Proof.
  intros Hw Hc. apply cell_in in Hc as (Hl & Hv & Hp). pose proof (page_lba_range l). unfold written. rewrite Hp.
  rewrite (proj2 (Z.leb_le _ _)), (proj2 (Z.ltb_lt _ _)) by lia. cbn [andb]. destruct (Z.testbit (dirty s) (l - lba_base s)) eqn:E; [done|].
  pose proof (s_clean _ _ Hw _ _ Hv E Hp) as Hx. by replace (lba_base s + (l - lba_base s)) with l in Hx by lia.
Qed.

(** The disk may change where the slot holds data only, and the clean sectors stay the same. *)
Definition agrees (s : slot) (p p' : Z -> D) : Prop :=
  (forall l, cell s l = None -> p' l = p l) /\ (forall l d, cell s l = Some d -> p l = d -> p' l = d).

Lemma agrees_refl s p : agrees s p p.
Proof. done. Qed.

Lemma slot_wf_agrees s p p' : slot_wf p s -> agrees s p p' -> slot_wf p' s.
Proof.
  intros Hw [H1 H2]. constructor; try apply Hw. intros i d Hv Hd Hp. pose proof (bit_range _ _ (s_valid _ _ Hw) Hv) as Hi.
  apply H2; [|by apply (s_clean _ _ Hw)]. unfold cell.
  assert (Hv0 : valid s <> 0) by (intros E0; rewrite E0, Z.testbit_0_l in Hv; done).
  rewrite (page_lba_at _ _ (s_base _ _ Hw Hv0) Hi), Z.eqb_refl. replace (lba_base s + i - lba_base s) with i by lia. by rewrite Hv.
Qed.

Lemma set_dirty_same (s : slot) : set_dirty (dirty s) s = s.
Proof. by destruct s. Qed.

Lemma flush_ok s p f : slot_wf p s -> exists (res : bool) p' f', flush s p f = (res, if res then set_dirty 0 s else s, p', f') /\
  agrees s p p' /\ (res = true -> forall l d, cell s l = Some d -> p' l = d) /\ slot_wf p' (if res then set_dirty 0 s else s).
Proof.
  intros Hw. unfold flush. destruct (Z.eqb_spec (dirty s) 0) as [E|E].
  - exists true, p, f. assert (Hs : set_dirty 0 s = s) by (rewrite <- E; apply set_dirty_same). rewrite Hs. split; [done|].
    split; [apply agrees_refl|]. split; [|done]. intros _ l d Hc. rewrite <- (written_all s p l d Hw Hc). unfold written. rewrite E, Z.testbit_0_l.
    by rewrite andb_false_r.
  - destruct (flush_loop_ok 9 0 0 s p p f (s_dirty _ _ Hw)) as (res & h & p' & f' & -> & Hp' & H9); [lia|lia|lia|lia| |].
    { intros m. unfold written. destruct (Z.leb_spec (lba_base s) m), (Z.ltb_spec m (lba_base s + 0)); cbn; try done. lia. }
    assert (Ha : agrees s p p').
    { split; intros l; [intros Hc|intros d Hc Hl]; rewrite Hp'.
      - destruct (decide (0 <= h)) as [Hh|Hh]; [by apply written_out|]. unfold written.
        destruct (Z.leb_spec (lba_base s) l), (Z.ltb_spec l (lba_base s + h)); cbn; try done. lia.
      - destruct (written_in s h p l d Hw Hc) as [-> | ->]; done. }
    exists res, p', f'. split; [done|]. split; [done|].
    assert (Hall : res = true -> forall l d, cell s l = Some d -> p' l = d).
    { intros Hr l d Hc. rewrite Hp', (H9 Hr). by apply written_all. }
    split; [done|]. destruct res; [|by eapply slot_wf_agrees]. constructor; cbn; try apply Hw; [lia| |].
    + intros i Hi. by rewrite Z.testbit_0_l in Hi.
    + intros i d Hv _ Hpg. apply Hall; [done|]. pose proof (bit_range _ _ (s_valid _ _ Hw) Hv) as Hi. unfold cell.
      assert (Hv0 : valid s <> 0) by (intros E0; rewrite E0, Z.testbit_0_l in Hv; done).
      rewrite (page_lba_at _ _ (s_base _ _ Hw Hv0) Hi), Z.eqb_refl. replace (lba_base s + i - lba_base s) with i by lia. by rewrite Hv.
Qed.

Definition seen (s : slot) (p : Z -> D) (l : Z) : D := default (p l) (cell s l).

Lemma seen_agrees s s' p p' l : lba_base s' = lba_base s -> valid s' = valid s -> page s' = page s -> agrees s p p' -> seen s' p' l = seen s p l.
Proof.
  intros H1 H2 H3 [Ho _]. unfold seen. rewrite (cell_ext s s' l H1 H2 H3). destruct (cell s l) eqn:E; [done|]. by apply Ho.
Qed.

(** What an operation on a slot does besides its purpose: the lock stays, and the slot comes to hold
    sectors of the page [aligned] at most. *)
Definition moves (aligned : Z) (s s' : slot) : Prop :=
  locked s' = locked s /\ (s' = s \/ lba_base s' = aligned \/ valid s' = 0 \/ (lba_base s' = lba_base s /\ valid s' = valid s)).

Lemma no_cell s l : valid s = 0 -> cell s l = None.
Proof. intros E. unfold cell. by rewrite E, Z.testbit_0_l, andb_false_r. Qed.

Lemma read_page_at base (p : Z -> D) i : 0 <= i < 8 -> read_page base p !! Z.to_nat i = Some (p (base + i)).
Proof. intros Hi. unfold read_page. rewrite list_lookup_fmap, lookup_seqZ_lt by lia. cbn. do 2 f_equal. lia. Qed.

Lemma valid_full i : 0 <= i < 8 -> Z.testbit 0xFF i = true.
Proof. intros Hi. change 0xFF with (Z.ones 8). apply Z.ones_spec_low. lia. Qed.

Lemma invalid_wf (s : slot) p b : length (page s) = 8%nat -> slot_wf p (set_base b (set_valid 0 (set_dirty 0 s))).
Proof.
  intros Hl. constructor; cbn; try done; try lia; intros i *; by rewrite Z.testbit_0_l.
Qed.

Lemma reload_ok now aligned s p f : slot_wf p s -> page_lba aligned = aligned -> exists res s' p' f',
  reload now aligned s p f = Ok (res, s', p', f') /\ agrees s p p' /\ slot_wf p' s' /\ moves aligned s s' /\
  (forall l, seen s' p' l = seen s p l) /\ (res = true -> lba_base s' = aligned /\ valid s' = 0xFF).
Proof.
  intros Hw Ha. unfold reload. rewrite ensure_true by (by rewrite Ha, Z.eqb_refl). cbn [obind].
  destruct (flush_ok s p f Hw) as (res & p' & f' & -> & Hag & Hall & Hw'). destruct res; cbn [negb].
  2:{ exists false, s, p', f'. split; [done|]. split; [done|]. split; [done|]. split; [split; [done|by left]|]. split; [|done].
      intros l. by apply seen_agrees. }
  assert (Hgone : forall l, p' l = seen s p l).
  { intros l. unfold seen. destruct (cell s l) as [d|] eqn:E; [by apply Hall|]. cbn. by apply (proj1 Hag). }
  destruct (command aligned f') as [[|] f'']; cbn [negb].
  - do 4 eexists. split; [done|]. split; [done|]. split; [|split; [|split; [|done]]].
    + constructor; cbn; try done; try lia.
      * intros i Hi. by rewrite Z.testbit_0_l in Hi.
      * intros i d Hv _ Hp. pose proof (bit_range 0xFF i ltac:(lia) Hv) as Hi. rewrite read_page_at in Hp by done. by injection Hp.
    + split; [done|]. by right; left.
    + intros l. rewrite <- Hgone. unfold seen, cell. cbn [lba_base set_time set_valid set_page set_base set_dirty valid page].
      destruct (Z.eqb_spec (page_lba l) aligned) as [E|E]; [|done]. cbn [andb]. pose proof (page_lba_range l).
      rewrite valid_full by lia. rewrite read_page_at by lia. cbn. f_equal. lia.
  - do 4 eexists. split; [done|]. split; [done|]. split; [apply invalid_wf; apply (s_len _ _ Hw)|]. split; [split; [done|by right; right; left]|].
    split; [|done]. intros l. rewrite <- Hgone. unfold seen. by rewrite no_cell.
Qed.

Lemma mark_ok n : forall off check d, 0 <= off -> off + Z.of_nat n <= 8 -> 0 <= d < 256 ->
  (forall i, off <= i < off + Z.of_nat n -> Z.testbit check i = true) -> exists d', mark n off check d = Ok d' /\ 0 <= d' < 256 /\
  (forall i, Z.testbit d' i = Z.testbit d i || ((off <=? i) && (i <? off + Z.of_nat n))).
Proof.
  induction n as [|n IH]; intros off check d Ho Hn Hd Hc; cbn [mark].
  { exists d. split; [done|]. split; [done|]. intros i. destruct (Z.leb_spec off i), (Z.ltb_spec i (off + Z.of_nat 0)); cbn; rewrite ?orb_false_r; try done. lia. }
  rewrite ensure_true by (apply Z.ltb_lt; lia). cbn [obind]. rewrite ensure_true. 2:{ unfold truth. rewrite mask_test by lia. rewrite Hc by lia. done. }
  cbn [obind]. assert (Hb : 0 <= Z.lor d (mask off) < 256).
  { apply lor_byte; [done|]. rewrite mask_pow by lia. split; [apply Z.pow_nonneg; lia|]. change 256 with (2 ^ 8). apply Z.pow_lt_mono_r; lia. }
  destruct (IH (off + 1) check (Z.lor d (mask off))) as (d' & -> & Hd' & Hbits); [lia|lia|done|intros i Hi; apply Hc; lia|].
  exists d'. split; [done|]. split; [done|]. intros i. rewrite Hbits, Z.lor_spec, mask_pow, Z.pow2_bits_eqb by lia.
  destruct (Z.testbit d i); [done|]. cbn.
  destruct (Z.eqb_spec off i), (Z.leb_spec (off + 1) i), (Z.leb_spec off i), (Z.ltb_spec i (off + 1 + Z.of_nat n)), (Z.ltb_spec i (off + Z.of_nat (S n))); cbn; try done; lia.
Qed.

(** The part of [store] that turns the slot to another page. *)
Definition turn (aligned : Z) (s : slot) (p : Z -> D) (f : list bool) : bool * slot * (Z -> D) * list bool :=
  if negb (aligned =? lba_base s) then
    let '(res, s, p, f) := flush s p f in
    if res then (true, set_base aligned (set_valid 0 s), p, f) else (false, s, p, f)
  else (true, s, p, f).

Lemma turn_ok aligned s p f : slot_wf p s -> page_lba aligned = aligned -> exists (res : bool) s' p' f', turn aligned s p f = (res, s', p', f') /\
  agrees s p p' /\ slot_wf p' s' /\ moves aligned s s' /\ (forall l, seen s' p' l = seen s p l) /\ (res = true -> lba_base s' = aligned).
Proof.
  intros Hw Ha. unfold turn. destruct (Z.eqb_spec aligned (lba_base s)) as [E|E]; cbn [negb].
  { exists true, s, p, f. split; [done|]. split; [done|]. split; [done|]. split; [split; [done|by left]|]. by split. }
  destruct (flush_ok s p f Hw) as (res & p' & f' & -> & Hag & Hall & Hw'). destruct res.
  - do 4 eexists. split; [done|]. split; [done|]. split; [apply invalid_wf; apply (s_len _ _ Hw)|]. split; [split; [done|by right; right; left]|].
    split; [|done]. intros l. unfold seen. rewrite no_cell by done. cbn. destruct (cell s l) as [d|] eqn:Ec; [by apply Hall|]. cbn. by apply (proj1 Hag).
  - exists false, s, p', f'. split; [done|]. split; [done|]. split; [done|]. split; [split; [done|by left]|]. split; [|done]. intros l. by apply seen_agrees.
Qed.

Lemma store_turn now lba count s p f : store zero now lba count s p f =
  let '(res, s, p, f) := turn (page_lba lba) s p f in
  if negb res then Ok (false, s, p, f)
  else
    let off := lba - lba_base s in
    let! d := mark (Z.to_nat count) off 0xFF (dirty s);
    let s := set_page (zero_range zero off count (page s)) (set_dirty d s) in
    Ok (true, set_time now (set_valid (Z.lor (valid s) d) s), p, f).
Proof. reflexivity. Qed.

Lemma count_of_ok lba : count_of lba = 8 - (lba - page_lba lba).
Proof.
  pose proof (page_lba_range lba). unfold count_of. destruct (decide (lba = page_lba lba)) as [E|E].
  - assert (page_lba (lba + 7) = lba) as ->; [|rewrite Z.eqb_refl; lia]. rewrite E at 2. rewrite E at 1. apply page_lba_at; [apply page_lba_idem|lia].
  - assert (page_lba (lba + 7) = page_lba lba + 8) as ->.
    { unfold page_lba in *. pose proof (Z.div_mod lba 8 ltac:(lia)). pose proof (Z.mod_pos_bound lba 8 ltac:(lia)).
      assert ((lba + 7) / 8 = lba / 8 + 1) as ->; [|lia]. symmetry. apply (Z.div_unique_pos _ 8 _ (lba mod 8 - 1)); lia. }
    rewrite (proj2 (Z.eqb_neq _ _)) by lia. rewrite wrap_small; lia.
Qed.

Lemma zero_range_at off count pg i : 0 <= i -> zero_range zero off count pg !! Z.to_nat i =
  (fun x => if (off <=? i) && (i <? off + count) then zero else x) <$> pg !! Z.to_nat i.
Proof. intros Hi. unfold zero_range. rewrite list_lookup_imap. by replace (Z.of_nat (Z.to_nat i)) with i by lia. Qed.

Definition in_range (lba count l : Z) : bool := (lba <=? l) && (l <? lba + count).

(** The sectors of a store are zero and ready to be written. *)
Lemma store_ok now lba count s p f : slot_wf p s -> 0 <= count <= count_of lba -> exists res s' p' f',
  store zero now lba count s p f = Ok (res, s', p', f') /\ agrees s p p' /\ slot_wf p' s' /\ moves (page_lba lba) s s' /\
  (forall l, seen s' p' l = if res && in_range lba count l then zero else seen s p l) /\
  (res = true -> lba_base s' = page_lba lba /\ forall l, in_range lba count l = true -> Z.testbit (dirty s') (l - page_lba lba) = true).
Proof.
  intros Hw Hc. rewrite count_of_ok in Hc. pose proof (page_lba_range lba) as Hr. rewrite store_turn.
  destruct (turn_ok (page_lba lba) s p f Hw (page_lba_idem lba)) as (res & s1 & p1 & f1 & -> & Ha & Hw1 & Hm & Hs & Hb). destruct res; cbn [negb].
  2:{ exists false, s1, p1, f1. by repeat (split; [done|]). }
  specialize (Hb eq_refl). rewrite Hb.
  destruct (mark_ok (Z.to_nat count) (lba - page_lba lba) 0xFF (dirty s1)) as (d & -> & Hd & Hbits); [lia|lia|apply (s_dirty _ _ Hw1)|intros i Hi; apply valid_full; lia|].
  replace (Z.of_nat (Z.to_nat count)) with count in Hbits by lia. cbn [obind]. do 4 eexists. split; [done|]. split; [done|].
  split; [|split; [|split; [|intros _; split; [done|]]]].
  - constructor; cbn [lba_base valid dirty page set_time set_valid set_page set_dirty].
    + unfold zero_range. rewrite length_imap. apply (s_len _ _ Hw1).
    + apply lor_byte; [apply (s_valid _ _ Hw1)|done].
    + done.
    + intros i Hi. by rewrite Z.lor_spec, Hi, orb_true_r.
    + intros _. rewrite Hb. apply page_lba_idem.
    + intros i x Hv Hnd Hp. rewrite Z.lor_spec, Hnd, orb_false_r in Hv. pose proof (bit_range _ _ (s_valid _ _ Hw1) Hv) as Hi.
      rewrite Hbits in Hnd. apply orb_false_iff in Hnd as [Hnd Hin]. rewrite zero_range_at, Hin in Hp by lia. rewrite Hb.
      destruct (page s1 !! Z.to_nat i) as [y|] eqn:Ey; [|done]. injection Hp as <-. rewrite <- Hb. by apply (s_clean _ _ Hw1).
  - destruct Hm as [Hl _]. split; [done|]. right. by left.
  - intros l. rewrite <- Hs. unfold seen, cell. cbn [lba_base valid page set_time set_valid set_page set_dirty andb]. rewrite Hb.
    unfold in_range. destruct (Z.eqb_spec (page_lba l) (page_lba lba)) as [El|El]; cbn [andb].
    + pose proof (page_lba_range l) as Hrl. rewrite Z.lor_spec, Hbits, zero_range_at by lia.
      destruct (lookup_lt_is_Some_2 (page s1) (Z.to_nat (l - page_lba lba))) as [x Ex]; [rewrite (s_len _ _ Hw1); lia|]. rewrite Ex. cbn.
      pose proof (s_sub _ _ Hw1 (l - page_lba lba)) as Hsub.
      destruct (Z.leb_spec (lba - page_lba lba) (l - page_lba lba)), (Z.leb_spec lba l), (Z.ltb_spec (l - page_lba lba) (lba - page_lba lba + count)),
        (Z.ltb_spec l (lba + count)), (Z.testbit (valid s1) (l - page_lba lba)), (Z.testbit (dirty s1) (l - page_lba lba)); cbn; try done; try lia; by discriminate Hsub.
    + destruct (Z.leb_spec lba l), (Z.ltb_spec l (lba + count)); cbn; try done. destruct El.
      replace l with (page_lba lba + (l - page_lba lba)) by lia. apply page_lba_at; [apply page_lba_idem|lia].
  - intros l Hl. unfold in_range in Hl. bool_norm. cbn [dirty set_time set_valid set_page set_dirty]. rewrite Hbits.
    rewrite (proj2 (Z.leb_le _ _)), (proj2 (Z.ltb_lt _ _)) by lia. by rewrite orb_true_r.
Qed.

(** A read that hits a slot stops the machine if some sectors of its page are missing and none is dirty. *)
Definition stale (s : slot) : Prop := valid s <> 0xFF /\ dirty s = 0.

Lemma load_ok now lba s p f : slot_wf p s -> lba_base s = page_lba lba ->
  (stale s /\ load now lba s p f = Bug) \/
  (~ stale s /\ exists res s' p' f', load now lba s p f = Ok (res, s', p', f') /\ agrees s p p' /\ slot_wf p' s' /\ moves (page_lba lba) s s' /\
    (forall l, seen s' p' l = seen s p l) /\ (res = true -> lba_base s' = page_lba lba /\ valid s' = 0xFF)).
Proof.
  intros Hw Hb. unfold load, stale. rewrite ensure_true by (by rewrite Hb, Z.eqb_refl). cbn [obind]. destruct (Z.eqb_spec (valid s) 0xFF) as [E|E].
  - right. split; [by intros [? ?]|]. exists true, s, p, f. split; [done|]. split; [done|]. split; [done|]. split; [split; [done|by left]|]. by split.
  - unfold truth. destruct (Z.eqb_spec (dirty s) 0) as [E0|E0]; cbn [negb ensure obind]; [by left|]. right. split; [by intros [? ?]|].
    rewrite Hb. apply reload_ok; [done|apply page_lba_idem].
Qed.

(** ** The cache *)

Definition view (c : cache) (l : Z) : D := default (platter c l) (head (omap (fun s => cell s l) (table c))).

Record inv (c : cache) : Prop := {
  c_wf : forall k s, table c !! k = Some s -> slot_wf (platter c) s;
  c_one : forall i j s s', i <> j -> table c !! i = Some s -> table c !! j = Some s' -> valid s <> 0 -> valid s' <> 0 -> lba_base s <> lba_base s'
}.

Lemma inv_new pages p f : Forall (fun pg => length pg = 8%nat) pages -> inv (new_cache pages p f).
Proof.
  intros Hp. assert (Hn : forall k s, table (new_cache pages p f) !! k = Some s -> exists pg, s = new_slot pg /\ length pg = 8%nat).
  { intros k s E. cbn in E. rewrite list_lookup_fmap in E. destruct (pages !! k) as [pg|] eqn:Ep; [|done]. injection E as <-. exists pg. split; [done|].
    by eapply Forall_lookup_1 in Hp. }
  constructor.
  - intros k s E. destruct (Hn k s E) as (pg & -> & Hl). constructor; cbn; try done; try lia; intros i *; rewrite ?Z.testbit_0_l; done.
  - intros i j s s' _ Ei _ Hv. destruct (Hn i s Ei) as (pg & -> & _). done.
Qed.

Lemma cell_valid s l : is_Some (cell s l) -> valid s <> 0.
Proof. intros [d Hd] E. by rewrite no_cell in Hd. Qed.

Lemma cell_one c i j s s' l : inv c -> i <> j -> table c !! i = Some s -> table c !! j = Some s' -> is_Some (cell s l) -> cell s' l = None.
Proof.
  intros Hi Hne Ei Ej Hs. destruct (cell s' l) as [d'|] eqn:E'; [|done]. pose proof Hs as [d E].
  destruct (c_one _ Hi i j s s' Hne Ei Ej (cell_valid _ _ Hs)); [apply (cell_valid _ l); by rewrite E'|].
  apply cell_in in E as (<- & _). by apply cell_in in E' as (<- & _).
Qed.

Lemma omap_cell (t : list slot) l k s d : t !! k = Some s -> cell s l = Some d -> (forall j s', j <> k -> t !! j = Some s' -> cell s' l = None) ->
  head (omap (fun s => cell s l) t) = Some d.
Proof.
  revert k. induction t as [|a t IH]; intros k Ek Ec Ho; [done|]. cbn. destruct k as [|k].
  - injection Ek as ->. by rewrite Ec.
  - rewrite (Ho 0%nat a) by done. apply (IH k Ek Ec). intros j s' Hj Ej. by apply (Ho (S j) s'); [congruence|].
Qed.

Lemma omap_none (t : list slot) l : (forall j s, t !! j = Some s -> cell s l = None) -> head (omap (fun s => cell s l) t) = None.
Proof.
  induction t as [|a t IH]; intros Ho; [done|]. cbn. rewrite (Ho 0%nat a) by done. apply IH. intros j s Ej. by apply (Ho (S j)).
Qed.

Lemma view_cell c k s l d : inv c -> table c !! k = Some s -> cell s l = Some d -> view c l = d.
Proof.
  intros Hi Ek Ec. unfold view. rewrite (omap_cell _ l k s d Ek Ec); [done|]. intros j s' Hj Ej. apply (cell_one c k j s s' l Hi); [done|done|done|by exists d].
Qed.

(** The view through one slot, when no other slot holds the sector. *)
Lemma view_alone c k s l : inv c -> table c !! k = Some s -> (forall j s', j <> k -> table c !! j = Some s' -> cell s' l = None) ->
  view c l = seen s (platter c) l.
Proof.
  intros Hi Ek Ho. unfold seen. destruct (cell s l) as [d|] eqn:E; [by apply (view_cell c k s)|]. unfold view. rewrite omap_none; [done|].
  intros j s' Ej. destruct (decide (j = k)) as [->|Hj]; [congruence|by apply (Ho j)].
Qed.

Lemma cell_at s p i d : slot_wf p s -> Z.testbit (valid s) i = true -> page s !! Z.to_nat i = Some d -> cell s (lba_base s + i) = Some d.
Proof.
  intros Hw Hv Hp. pose proof (bit_range _ _ (s_valid _ _ Hw) Hv) as Hi.
  assert (Hv0 : valid s <> 0) by (intros E0; rewrite E0, Z.testbit_0_l in Hv; done).
  unfold cell. rewrite (page_lba_at _ _ (s_base _ _ Hw Hv0) Hi), Z.eqb_refl. replace (lba_base s + i - lba_base s) with i by lia. by rewrite Hv.
Qed.

Lemma slot_wf_frame s p p' : slot_wf p s -> (forall l, is_Some (cell s l) -> p' l = p l) -> slot_wf p' s.
Proof.
  intros Hw Hl. constructor; try apply Hw. intros i d Hv Hd Hp. rewrite Hl; [by apply (s_clean _ _ Hw)|]. exists d. by eapply cell_at.
Qed.

Lemma slot_update_ok c k s s' p' f' : inv c -> table c !! k = Some s -> agrees s (platter c) p' -> slot_wf p' s' ->
  (valid s' <> 0 -> forall j sj, j <> k -> table c !! j = Some sj -> valid sj <> 0 -> lba_base sj <> lba_base s') ->
  let c' := Cache (<[k := s']> (table c)) p' f' in inv c' /\ forall l,
    (view c l = seen s (platter c) l /\ view c' l = seen s' p' l) \/
    (view c' l = view c l /\ exists j sj, j <> k /\ table c !! j = Some sj /\ is_Some (cell sj l)).
Proof.
  intros Hi Ek [Ha1 Ha2] Hw' Hu c'. pose proof (lookup_lt_Some _ _ _ Ek) as Hk.
  assert (Hi' : inv c').
  { constructor; cbn [table platter c'].
    - intros j sj Ej. apply list_lookup_insert_Some in Ej as [(-> & <- & _)|(Hne & Ej)]; [done|].
      apply (slot_wf_frame sj (platter c)); [by apply (c_wf _ Hi j)|]. intros l Hl. apply Ha1. by apply (cell_one c j k sj s l Hi).
    - intros i j si sj Hne Ei Ej Hvi Hvj. apply list_lookup_insert_Some in Ei as [(<- & <- & _)|(Hni & Ei)];
        apply list_lookup_insert_Some in Ej as [(<- & <- & _)|(Hnj & Ej)]; [done| | |by apply (c_one _ Hi i j)].
      + intros E. by apply (Hu Hvi j sj).
      + by apply (Hu Hvj i si). }
  split; [done|]. intros l. destruct (decide (Exists (fun js => js.1 <> k /\ is_Some (cell js.2 l)) (imap pair (table c)))) as [He|He].
  - apply Exists_exists in He as ([j sj] & Hin & Hj & [d Hd]). apply elem_of_lookup_imap in Hin as (i & x & E & Ei). injection E as -> ->.
    right. split; [|by exists i, x; cbn in *; eauto]. cbn in *. rewrite (view_cell c i x l d Hi Ei Hd).
    apply (view_cell c' i x l d Hi'); [|done]. cbn. by rewrite list_lookup_insert_ne.
  - left. assert (Ho : forall j sj, j <> k -> table c !! j = Some sj -> cell sj l = None).
    { intros j sj Hj Ej. destruct (cell sj l) eqn:E; [|done]. destruct He. apply Exists_exists. exists (j, sj). split; [|cbn; split; [done|by rewrite E]].
      apply elem_of_lookup_imap. by exists j, sj. }
    split; [by apply (view_alone c k)|]. apply (view_alone c' k s' l Hi').
    + cbn. by apply list_lookup_insert_eq.
    + intros j sj Hj Ej. cbn in Ej. rewrite list_lookup_insert_ne in Ej by done. by apply (Ho j).
Qed.

(** Changing the lock of a slot only. *)
Lemma cell_locked b (s : slot) l : cell (set_locked b s) l = cell s l.
Proof. done. Qed.

Lemma wf_locked b s p : slot_wf p s -> slot_wf p (set_locked b s).
Proof. intros Hw. constructor; apply Hw. Qed.

Lemma matched_none aligned (sj : slot) : slot_match aligned sj = false -> valid sj <> 0 -> lba_base sj <> aligned.
Proof. unfold slot_match, truth. destruct (Z.eqb_spec (valid sj) 0), (Z.eqb_spec (lba_base sj) aligned); cbn; by intros. Qed.

Lemma find_match_spec aligned i (t : list slot) : match find_match aligned i t with
  | Some k => (i <= k)%nat /\ exists s, t !! (k - i)%nat = Some s /\ slot_match aligned s = true
  | None => forall j s, t !! j = Some s -> slot_match aligned s = false
  end.
Proof.
  revert i. induction t as [|s t IH]; intros i; cbn; [done|]. destruct (slot_match aligned s) eqn:E.
  - split; [lia|]. exists s. by rewrite Nat.sub_diag.
  - specialize (IH (S i)). destruct (find_match aligned (S i) t) as [k|].
    + destruct IH as (Hk & s' & Ek & Hs). split; [lia|]. exists s'. replace (k - i)%nat with (S (k - S i)) by lia. done.
    + intros [|j] s' Ej; [by injection Ej as <-|by apply (IH j)].
Qed.

Lemma find_target_spec i best (t : list slot) : match find_target i best t with
  | Some (k, ts) => best = Some (k, ts) \/ ((i <= k)%nat /\ exists s, t !! (k - i)%nat = Some s /\ locked s = false)
  | None => best = None /\ forall j s, t !! j = Some s -> locked s = true
  end.
Proof.
  revert i best. induction t as [|s t IH]; intros i best; cbn [find_target].
  { destruct best as [[k ts]|]; [by left|done]. }
  assert (Hshift : forall k, ((S i <= k)%nat /\ exists s', t !! (k - S i)%nat = Some s' /\ locked s' = false) ->
    (i <= k)%nat /\ exists s', (s :: t) !! (k - i)%nat = Some s' /\ locked s' = false).
  { intros k (Hk & s' & Ek & Hs). split; [lia|]. exists s'. by replace (k - i)%nat with (S (k - S i)) by lia. }
  destruct (locked s) eqn:El.
  - specialize (IH (S i) best). destruct (find_target (S i) best t) as [[k ts]|].
    + destruct IH as [IH|IH]; [by left|right; by apply Hshift].
    + destruct IH as [-> IH]. split; [done|]. intros [|j] s' Ej; [by injection Ej as <-|by apply (IH j)].
  - assert (Hhere : (i <= i)%nat /\ exists s', (s :: t) !! (i - i)%nat = Some s' /\ locked s' = false) by (split; [lia|]; exists s; by rewrite Nat.sub_diag).
    destruct best as [[j ts']|]; [destruct (timestamp s <? ts')|].
    + specialize (IH (S i) (Some (i, timestamp s))). destruct (find_target _ _ t) as [[k ts]|]; [|by destruct IH].
      right. destruct IH as [IH|IH]; [by injection IH as <- <-|by apply Hshift].
    + specialize (IH (S i) (Some (j, ts'))). destruct (find_target _ _ t) as [[k ts]|]; [|by destruct IH].
      destruct IH as [IH|IH]; [by left|right; by apply Hshift].
    + specialize (IH (S i) (Some (i, timestamp s))). destruct (find_target _ _ t) as [[k ts]|]; [|by destruct IH].
      right. destruct IH as [IH|IH]; [by injection IH as <- <-|by apply Hshift].
Qed.

Definition got (a : answer) : bool := match a with Got _ => true | _ => false end.

(** What the holder of slot [k] may rely on. *)
Definition holds (c : cache) (k : nat) (lba : Z) (P : slot -> Prop) : Prop :=
  exists s, table c !! k = Some s /\ locked s = true /\ lba_base s = page_lba lba /\ P s.

Definition others (k : nat) (c c' : cache) : Prop := length (table c') = length (table c) /\ forall j, j <> k -> table c' !! j = table c !! j.

Lemma with_slot_ok c k s lba count (w : bool) op (P : slot -> Prop) : inv c -> table c !! k = Some s -> 0 <= count <= count_of lba ->
  (forall j sj, j <> k -> table c !! j = Some sj -> slot_match (page_lba lba) sj = false) ->
  (exists res s' p' f', op (set_locked true s) (platter c) (faults c) = Ok (res, s', p', f') /\ agrees (set_locked true s) (platter c) p' /\ slot_wf p' s' /\
     moves (page_lba lba) (set_locked true s) s' /\
     (forall l, seen s' p' l = if (w && res) && in_range lba count l then zero else seen (set_locked true s) (platter c) l) /\
     (res = true -> lba_base s' = page_lba lba /\ P s')) ->
  exists a c', with_slot k c op = Ok (a, c') /\ inv c' /\ others k c c' /\
    (forall l, view c' l = if (w && got a) && in_range lba count l then zero else view c l) /\
    (a = Got k /\ holds c' k lba P \/ a = Failed).
Proof.
  intros Hi Ek Hc Ho (res & s' & p' & f' & E & Ha & Hw & [Hlk Hm] & Hs & Hr). unfold with_slot. rewrite (deref_Some _ _ Ek). cbn [obind]. rewrite E. cbn [obind].
  assert (Ha' : agrees s (platter c) p') by exact Ha.
  assert (Hu : valid s' <> 0 -> forall j sj, j <> k -> table c !! j = Some sj -> valid sj <> 0 -> lba_base sj <> lba_base s').
  { intros Hv j sj Hj Ej Hvj. destruct Hm as [-> |[-> |[Hm|[-> Hmv]]]]; [|exact (matched_none _ _ (Ho j sj Hj Ej) Hvj)|done|].
    - by apply (c_one _ Hi j k sj s).
    - apply (c_one _ Hi j k sj s); [done|done|done|done|]. intros E0. apply Hv. rewrite Hmv. exact E0. }
  destruct (slot_update_ok c k s s' p' f' Hi Ek Ha' Hw Hu) as [Hi' Hv]. do 2 eexists. split; [done|]. split; [exact Hi'|].
  split; [unfold others; cbn [table]; rewrite length_insert; split; [done|intros j Hj; by apply list_lookup_insert_ne]|]. split.
  - intros l. assert (Hg : got (if res then Got k else Failed) = res) by (by destruct res). rewrite Hg.
    destruct (Hv l) as [[Hv1 Hv2]|[Hv1 (j & sj & Hj & Ej & Hcell)]].
    + cbn zeta in Hv2. rewrite Hv2, Hs, Hv1. done.
    + cbn zeta in Hv1. rewrite Hv1. destruct (in_range lba count l) eqn:Er; [|by rewrite andb_false_r].
      exfalso. specialize (Ho j sj Hj Ej). pose proof (cell_valid _ _ Hcell) as Hvj. apply (matched_none _ _ Ho Hvj).
      destruct Hcell as [d Hd]. apply cell_in in Hd as (<- & _). unfold in_range in Er. bool_norm. rewrite count_of_ok in Hc.
      pose proof (page_lba_range lba). replace l with (page_lba lba + (l - page_lba lba)) by lia. apply page_lba_at; [apply page_lba_idem|lia].
  - destruct res; [left|by right]. split; [done|]. destruct (Hr eq_refl) as [Hb HP]. exists s'. cbn. split; [apply list_lookup_insert_eq; by eapply lookup_lt_Some|].
    by split.
Qed.

Definition ready (lba count : Z) (s : slot) : Prop := forall l, in_range lba count l = true -> Z.testbit (dirty s) (l - page_lba lba) = true.

(** The answer of [get] and the cache after it. *)
Definition get_post (lba count : Z) (w : bool) (c : cache) (a : answer) (c' : cache) : Prop :=
  inv c' /\
  (forall l, view c' l = if (w && got a) && in_range lba count l then zero else view c l) /\
  match a with
  | Got k => (exists s, table c !! k = Some s /\ locked s = false) /\ others k c c' /\
      holds c' k lba (fun s => if w then ready lba count s else valid s = 0xFF)
  | Failed => exists k, others k c c'
  | Blocked => c' = c
  end.

Lemma cache_get_ok now lba count w c : inv c -> 0 <= count <= count_of lba ->
  (w = false /\ get zero now lba count w c = Bug /\ exists k s, table c !! k = Some s /\ slot_match (page_lba lba) s = true /\ stale s) \/
  (exists a c', get zero now lba count w c = Ok (a, c') /\ get_post lba count w c a c').
Proof.
  intros Hi Hc. unfold get. rewrite ensure_true by (apply Z.leb_le; lia). cbn [obind].
  pose proof (find_match_spec (page_lba lba) 0 (table c)) as Hf.
  assert (Hop : forall k s op, table c !! k = Some s -> locked s = false ->
    (forall j sj, j <> k -> table c !! j = Some sj -> slot_match (page_lba lba) sj = false) ->
    (exists res s' p' f', op (set_locked true s) (platter c) (faults c) = Ok (res, s', p', f') /\ agrees (set_locked true s) (platter c) p' /\ slot_wf p' s' /\
      moves (page_lba lba) (set_locked true s) s' /\
      (forall l, seen s' p' l = if (w && res) && in_range lba count l then zero else seen (set_locked true s) (platter c) l) /\
      (res = true -> lba_base s' = page_lba lba /\ (if w then ready lba count s' else valid s' = 0xFF))) ->
    exists a c', with_slot k c op = Ok (a, c') /\ get_post lba count w c a c').
  { intros k s op Ek Hl Ho Hres.
    destruct (with_slot_ok c k s lba count w op (fun s => if w then ready lba count s else valid s = 0xFF) Hi Ek Hc Ho Hres) as (a & c' & E & Hi' & Hoth & Hv & Ha).
    exists a, c'. split; [done|]. split; [done|]. split; [done|]. destruct Ha as [[-> Hh]| ->]; [|by exists k]. split; [by exists s|done]. }
  assert (Hblocked : exists a c', Ok (Blocked, c) = Ok (a, c') /\ get_post lba count w c a c').
  { exists Blocked, c. split; [done|]. split; [done|]. split; [intros l; by rewrite andb_false_r|done]. }
  destruct (find_match (page_lba lba) 0 (table c)) as [k|].
  - destruct Hf as (_ & s & Ek & Hm). rewrite Nat.sub_0_r in Ek. rewrite (deref_Some _ _ Ek). cbn [obind].
    destruct (locked s) eqn:El; [right; exact Hblocked|].
    assert (Hb : valid s <> 0 /\ lba_base s = page_lba lba).
    { unfold slot_match, truth in Hm. apply andb_true_iff in Hm as [Hm1 Hm2]. apply negb_true_iff, Z.eqb_neq in Hm1. by apply Z.eqb_eq in Hm2. }
    assert (Ho : forall j sj, j <> k -> table c !! j = Some sj -> slot_match (page_lba lba) sj = false).
    { intros j sj Hj Ej. destruct (slot_match (page_lba lba) sj) eqn:E; [|done]. unfold slot_match, truth in E. apply andb_true_iff in E as [E1 E2].
      apply negb_true_iff, Z.eqb_neq in E1. apply Z.eqb_eq in E2. destruct (c_one _ Hi j k sj s Hj Ej Ek E1 (proj1 Hb)). destruct Hb as [_ ->]. done. }
    pose proof (wf_locked true s _ (c_wf _ Hi _ _ Ek)) as Hw. destruct w.
    + right. apply (Hop k s _ Ek El Ho). destruct (store_ok now lba count (set_locked true s) (platter c) (faults c) Hw Hc) as (res & s' & p' & f' & E & ? & ? & ? & ? & Hr).
      exists res, s', p', f'. split; [exact E|]. by repeat (split; [done|]).
    + destruct (load_ok now lba (set_locked true s) (platter c) (faults c) Hw (proj2 Hb)) as [[Hst E]|[Hst (res & s' & p' & f' & E & ? & ? & ? & ? & Hr)]].
      * left. split; [done|]. split; [|by exists k, s]. unfold with_slot. rewrite (deref_Some _ _ Ek). cbn [obind]. by rewrite E.
      * right. apply (Hop k s _ Ek El Ho). exists res, s', p', f'. split; [exact E|]. by repeat (split; [done|]).
  - right. pose proof (find_target_spec 0 None (table c)) as Ht. destruct (find_target 0 None (table c)) as [[k ts]|]; [|exact Hblocked].
    destruct Ht as [Ht|(_ & s & Ek & El)]; [done|]. rewrite Nat.sub_0_r in Ek. pose proof (wf_locked true s _ (c_wf _ Hi _ _ Ek)) as Hw.
    assert (Ho : forall j sj, j <> k -> table c !! j = Some sj -> slot_match (page_lba lba) sj = false) by (intros j sj _ Ej; by apply (Hf j)).
    apply (Hop k s _ Ek El Ho). destruct w.
    + destruct (store_ok now lba count (set_locked true s) (platter c) (faults c) Hw Hc) as (res & s' & p' & f' & E & ? & ? & ? & ? & Hr).
      exists res, s', p', f'. split; [exact E|]. by repeat (split; [done|]).
    + destruct (reload_ok now (page_lba lba) (set_locked true s) (platter c) (faults c) Hw (page_lba_idem lba)) as (res & s' & p' & f' & E & ? & ? & ? & ? & Hr).
      exists res, s', p', f'. split; [exact E|]. by repeat (split; [done|]).
Qed.

(** ** The other operations *)

Lemma update_same c k s s' p' f' : inv c -> table c !! k = Some s -> agrees s (platter c) p' -> slot_wf p' s' ->
  lba_base s' = lba_base s -> valid s' = valid s -> page s' = page s ->
  let c' := Cache (<[k := s']> (table c)) p' f' in inv c' /\ forall l, view c' l = view c l.
Proof.
  intros Hi Ek Ha Hw Eb Ev Ep. destruct (slot_update_ok c k s s' p' f' Hi Ek Ha Hw) as [Hi' Hv].
  { rewrite Ev, Eb. intros Hvs j sj Hj Ej Hvj. by apply (c_one _ Hi j k). }
  split; [done|]. intros l. destruct (Hv l) as [[-> ->]|[-> _]]; [|done]. by apply seen_agrees.
Qed.

Lemma upgrade_ok c k lba count : inv c -> 0 <= count <= count_of lba ->
  holds c k lba (fun s => forall l, in_range lba count l = true -> Z.testbit (valid s) (l - page_lba lba) = true) ->
  exists c', upgrade k lba count c = Ok c' /\ inv c' /\ (forall l, view c' l = view c l) /\ holds c' k lba (ready lba count) /\ others k c c'.
Proof.
  intros Hi Hc (s & Ek & El & Eb & Hv). pose proof (c_wf _ Hi _ _ Ek) as Hw. unfold upgrade. rewrite (deref_Some _ _ Ek). cbn [obind].
  rewrite ensure_true by done. cbn [obind]. rewrite ensure_true by (rewrite Eb, Z.eqb_refl; apply Z.leb_le; lia). cbn [obind]. rewrite Eb.
  rewrite count_of_ok in Hc. pose proof (page_lba_range lba).
  destruct (mark_ok (Z.to_nat count) (lba - page_lba lba) (valid s) (dirty s)) as (d & -> & Hd & Hbits); [lia|lia|apply (s_dirty _ _ Hw)| |].
  { intros i Hi'. replace i with (page_lba lba + i - page_lba lba) by lia. apply Hv. unfold in_range.
    rewrite (proj2 (Z.leb_le _ _)), (proj2 (Z.ltb_lt _ _)) by lia. done. }
  replace (Z.of_nat (Z.to_nat count)) with count in Hbits by lia. cbn [obind].
  assert (Hw' : slot_wf (platter c) (set_dirty d s)).
  { constructor; cbn; try apply Hw; [done| |].
    - intros i. rewrite Hbits. intros [Hi'|Hi']%orb_true_iff; [by apply (s_sub _ _ Hw)|]. bool_norm.
      replace i with (page_lba lba + i - page_lba lba) by lia. apply Hv. unfold in_range. rewrite (proj2 (Z.leb_le _ _)), (proj2 (Z.ltb_lt _ _)) by lia. done.
    - intros i x Hvi Hdi. rewrite Hbits in Hdi. apply orb_false_iff in Hdi as [Hdi _]. by apply (s_clean _ _ Hw). }
  destruct (update_same c k s (set_dirty d s) (platter c) (faults c) Hi Ek (agrees_refl _ _) Hw') as [Hi' Hview]; [done|done|done|].
  eexists. split; [done|]. split; [exact Hi'|]. split; [exact Hview|]. split.
  - exists (set_dirty d s). cbn. split; [apply list_lookup_insert_eq; by eapply lookup_lt_Some|]. split; [done|]. split; [done|].
    intros l Hl. unfold in_range in Hl. bool_norm. cbn. rewrite Hbits, (proj2 (Z.leb_le _ _)), (proj2 (Z.ltb_lt _ _)) by lia. by rewrite orb_true_r.
  - unfold others; cbn [table]; rewrite length_insert; split; [done|intros j Hj; by apply list_lookup_insert_ne].
Qed.

Lemma data_ok c k lba : inv c -> holds c k lba (fun s => Z.testbit (valid s) (lba - page_lba lba) = true) -> data k lba c = Ok (view c lba).
Proof.
  intros Hi (s & Ek & El & Eb & Hv). pose proof (c_wf _ Hi _ _ Ek) as Hw. unfold data. rewrite (deref_Some _ _ Ek). cbn [obind].
  rewrite <- Eb in Hv. destruct (cell_some s lba _ Hw (eq_sym Eb) Hv) as [d Hd].
  rewrite ensure_true. 2:{ unfold truth. apply negb_true_iff, Z.eqb_neq. apply (cell_valid s lba). by exists d. }
  cbn [obind]. rewrite ensure_true by (rewrite Eb; apply Z.eqb_refl). cbn [obind].
  rewrite (view_cell c k s lba d Hi Ek Hd). apply cell_in in Hd as (_ & _ & Hp). by rewrite (deref_Some _ _ Hp).
Qed.

Lemma set_data_ok c k lba d : inv c -> holds c k lba (fun s => Z.testbit (dirty s) (lba - page_lba lba) = true) ->
  exists c', set_data k lba d c = Ok c' /\ inv c' /\ (forall l, view c' l = if l =? lba then d else view c l).
Proof.
  intros Hi (s & Ek & El & Eb & Hd). pose proof (c_wf _ Hi _ _ Ek) as Hw. rewrite <- Eb in Hd. pose proof (s_sub _ _ Hw _ Hd) as Hv.
  pose proof (bit_range _ _ (s_dirty _ _ Hw) Hd) as Hr.
  destruct (cell_some s lba _ Hw (eq_sym Eb) Hv) as [d0 Hd0]. pose proof (cell_valid s lba (ex_intro _ d0 Hd0)) as Hv0.
  unfold set_data. rewrite (deref_Some _ _ Ek). cbn [obind]. rewrite ensure_true by (unfold truth; by apply negb_true_iff, Z.eqb_neq).
  cbn [obind]. rewrite ensure_true by (rewrite Eb; apply Z.eqb_refl). cbn [obind].
  set (s' := set_page _ s).
  assert (Hcell : forall l, cell s' l = if l =? lba then Some d else cell s l).
  { intros l. unfold cell, s'. cbn. destruct (Z.eqb_spec l lba) as [->|Hne].
    - rewrite <- Eb, Z.eqb_refl, Hv. cbn. apply list_lookup_insert_eq. rewrite (s_len _ _ Hw). lia.
    - destruct (Z.eqb_spec (page_lba l) (lba_base s)) as [El'|]; [|done]. cbn [andb]. destruct (Z.testbit (valid s) (l - lba_base s)); [|done].
      apply list_lookup_insert_ne. pose proof (page_lba_range l). pose proof (page_lba_range lba). lia. }
  assert (Hw' : slot_wf (platter c) s').
  { constructor; cbn; try apply Hw; [rewrite length_insert; apply (s_len _ _ Hw)|]. intros i x Hvi Hdi Hp.
    apply (s_clean _ _ Hw i x Hvi Hdi). pose proof (bit_range _ _ (s_valid _ _ Hw) Hvi). rewrite list_lookup_insert_ne in Hp; [done|].
    intros E. assert (i = lba - lba_base s) as -> by lia. congruence. }
  destruct (slot_update_ok c k s s' (platter c) (faults c) Hi Ek (agrees_refl _ _) Hw') as [Hi' Hview].
  { intros _ j sj Hj Ej Hvj. by apply (c_one _ Hi j k sj s). }
  eexists. split; [done|]. split; [exact Hi'|]. intros l. destruct (Hview l) as [[E1 E2]|[E1 (j & sj & Hj & Ej & Hcj)]].
  - rewrite E1. cbn zeta in E2. rewrite E2. unfold seen. rewrite Hcell. by destruct (l =? lba).
  - cbn zeta in E1. rewrite E1. destruct (Z.eqb_spec l lba) as [->|]; [|done].
    rewrite (cell_one c j k sj s lba Hi Hj Ej Ek Hcj) in Hd0. done.
Qed.

Lemma cache_relax_ok c k s b : inv c -> table c !! k = Some s -> locked s = true ->
  exists c', relax k b c = Ok c' /\ inv c' /\ (forall l, view c' l = view c l) /\ others k c c'.
Proof.
  intros Hi Ek El. pose proof (c_wf _ Hi _ _ Ek) as Hw. unfold relax. rewrite (deref_Some _ _ Ek). cbn [obind].
  assert (Hf : exists r s' p' f', (if b && truth (dirty s) then flush s (platter c) (faults c) else (true, s, platter c, faults c)) = (r, s', p', f') /\
    agrees s (platter c) p' /\ slot_wf p' s' /\ lba_base s' = lba_base s /\ valid s' = valid s /\ page s' = page s /\ locked s' = locked s).
  { destruct (b && truth (dirty s)); [|by exists true, s, (platter c), (faults c)].
    destruct (flush_ok s (platter c) (faults c) Hw) as (res & p' & f' & -> & Ha & _ & Hw'). exists res, (if res then set_dirty 0 s else s), p', f'.
    split; [done|]. split; [done|]. split; [done|]. by destruct res. }
  destruct Hf as (r & s' & p' & f' & -> & Ha & Hw' & Eb & Ev & Ep & El'). rewrite ensure_true by congruence. cbn [obind].
  destruct (update_same c k s (set_locked false s') p' f' Hi Ek Ha (wf_locked _ _ _ Hw')) as [Hi' Hv]; [done|done|done|].
  eexists. split; [done|]. split; [exact Hi'|]. split; [exact Hv|].
  unfold others; cbn [table]; rewrite length_insert; split; [done|intros j Hj; by apply list_lookup_insert_ne].
Qed.

Lemma flush_all_ok t : forall pre p f, inv (Cache (pre ++ t) p f) -> exists t' p' f', flush_all t p f = (t', p', f') /\
  inv (Cache (pre ++ t') p' f') /\ (forall l, view (Cache (pre ++ t') p' f') l = view (Cache (pre ++ t) p f) l) /\ length t' = length t /\
  (forall l, Forall (fun s => cell s l = None) (pre ++ t) -> p' l = p l).
Proof.
  induction t as [|s t IH]; intros pre p f Hi; cbn [flush_all]; [by exists [], p, f|].
  assert (Ek : table (Cache (pre ++ s :: t) p f) !! length pre = Some s) by (cbn; by apply list_lookup_middle).
  pose proof (c_wf _ Hi _ _ Ek) as Hw. cbn [platter] in Hw.
  assert (Hf : exists r s' p1 f1, (if locked s then (true, s, p, f) else flush s p f) = (r, s', p1, f1) /\
    agrees s p p1 /\ slot_wf p1 s' /\ lba_base s' = lba_base s /\ valid s' = valid s /\ page s' = page s).
  { destruct (locked s); [by exists true, s, p, f|]. destruct (flush_ok s p f Hw) as (res & p' & f' & -> & Ha & _ & Hw').
    exists res, (if res then set_dirty 0 s else s), p', f'. split; [done|]. split; [done|]. split; [done|]. by destruct res. }
  destruct Hf as (r & s' & p1 & f1 & -> & Ha & Hw' & Eb & Ev & Ep).
  destruct (update_same _ _ s s' p1 f1 Hi Ek Ha Hw' Eb Ev Ep) as [Hi1 Hv1]. cbn [table] in Hi1, Hv1.
  assert (Et : <[length pre := s']> (pre ++ s :: t) = (pre ++ [s']) ++ t).
  { rewrite insert_app_r_alt by lia. rewrite Nat.sub_diag, <- app_assoc. done. }
  rewrite Et in Hi1, Hv1. destruct (IH (pre ++ [s']) p1 f1 Hi1) as (t' & p2 & f2 & -> & Hi2 & Hv2 & Hl & Ho).
  exists (s' :: t'), p2, f2. rewrite <- app_assoc in Hi2, Hv2. split; [done|]. split; [exact Hi2|]. split; [|split; [cbn; lia|]].
  - intros l. rewrite <- Hv1, <- Hv2. done.
  - intros l Hn. pose proof Hn as Hn'. apply Forall_app in Hn as [Hn1 Hn2]. apply Forall_cons in Hn2 as [Hs Hn2]. rewrite Ho; [by apply (proj1 Ha)|].
    apply Forall_app. split; [apply Forall_app; split; [done|]; constructor; [by rewrite (cell_ext s s' l)|done]|done].
Qed.

(** ** The cache against the contents of the disk *)

Inductive op :=
  | Get (now lba count : Z) (w : bool) | Upgrade (k : nat) (lba count : Z) | Read (k : nat) (lba : Z)
  | Write (k : nat) (lba : Z) (d : D) | Relax (k : nat) (flushing : bool) | FlushAll.
Inductive reply := RGet (a : answer) | RData (d : D) | RDone.

Definition run_op (o : op) (c : cache) : outcome (reply * cache) :=
  match o with
  | Get now lba count w => let! (a, c) := get zero now lba count w c; Ok (RGet a, c)
  | Upgrade k lba count => let! c := upgrade k lba count c; Ok (RDone, c)
  | Read k lba => let! d := data k lba c; Ok (RData d, c)
  | Write k lba d => let! c := set_data k lba d c; Ok (RDone, c)
  | Relax k flushing => let! c := relax k flushing c; Ok (RDone, c)
  | FlushAll => let '(t, p, f) := flush_all (table c) (platter c) (faults c) in Ok (RDone, Cache t p f)
  end.

(** The holder of a slot reads valid sectors, and writes sectors that it has marked before. *)
Definition legal (o : op) (c : cache) : Prop :=
  match o with
  | Get _ lba count _ => 0 <= count <= count_of lba
  | Upgrade k lba count => 0 <= count <= count_of lba /\
      holds c k lba (fun s => forall l, in_range lba count l = true -> Z.testbit (valid s) (l - page_lba lba) = true)
  | Read k lba => holds c k lba (fun s => Z.testbit (valid s) (lba - page_lba lba) = true)
  | Write k lba _ => holds c k lba (fun s => Z.testbit (dirty s) (lba - page_lba lba) = true)
  | Relax k _ => exists s, table c !! k = Some s /\ locked s = true
  | FlushAll => True
  end.

(** The contents [v] of the disk as its users see them. *)
Definition contents_step (o : op) (v : Z -> D) (r : reply) (v' : Z -> D) : Prop :=
  match o with
  | Get _ lba count w => exists a, r = RGet a /\ forall l, v' l = if (w && got a) && in_range lba count l then zero else v l
  | Read _ lba => r = RData (v lba) /\ forall l, v' l = v l
  | Write _ lba d => r = RDone /\ forall l, v' l = if l =? lba then d else v l
  | _ => r = RDone /\ forall l, v' l = v l
  end.

Definition stale_hit (o : op) (c : cache) : Prop :=
  match o with Get _ lba _ w => w = false /\ exists k s, table c !! k = Some s /\ slot_match (page_lba lba) s = true /\ stale s | _ => False end.

(** C27. Through the cache its users see one disk: whatever the order of the calls, which slots are reused and
    which commands to the disk fail, a read gives what was last written to the sector, and no call
    changes any other sector.  The only call that stops the machine is a read that hits a page of
    which some sectors were written and flushed and the others never read. *)
Theorem cache_coherent o c : inv c -> legal o c ->
  (stale_hit o c /\ run_op o c = Bug) \/
  (exists r c', run_op o c = Ok (r, c') /\ inv c' /\ contents_step o (view c) r (view c')).
Proof.
  intros Hi Hl. destruct o as [now lba count w|k lba count|k lba|k lba d|k b|]; cbn [run_op legal contents_step stale_hit] in *.
  - destruct (cache_get_ok now lba count w c Hi Hl) as [(-> & -> & Hs)|(a & c' & -> & Hi' & Hv & _)]; [by left|right].
    do 2 eexists. split; [done|]. split; [done|]. by exists a.
  - right. destruct Hl as [Hc Hh]. destruct (upgrade_ok c k lba count Hi Hc Hh) as (c' & -> & Hi' & Hv & _). by do 2 eexists.
  - right. rewrite (data_ok c k lba Hi Hl). by do 2 eexists.
  - right. destruct (set_data_ok c k lba d Hi Hl) as (c' & -> & Hi' & Hv). by do 2 eexists.
  - right. destruct Hl as (s & Ek & El). destruct (cache_relax_ok c k s b Hi Ek El) as (c' & -> & Hi' & Hv & _). by do 2 eexists.
  - right. destruct c as [t p f]. destruct (flush_all_ok t [] p f Hi) as (t' & p' & f' & E & Hi' & Hv & _). cbn [table platter faults]. rewrite E.
    by do 2 eexists.
Qed.

Lemma flush_loop_faultless n : forall i head (s : slot) p, 0 <= i -> 0 <= head -> 0 <= lba_base s -> lba_base s + 8 <= 2 ^ 28 -> i + Z.of_nat n <= 9 -> head <= i ->
  exists p', flush_loop n i head s p [] = (true, p', []).
Proof.
  induction n as [|n IH]; intros i head s p Hi Hh Hb Hb2 Hn Hhi; cbn [flush_loop]; [by exists p|].
  destruct (_ =? 0); [|apply IH; lia]. destruct (Z.eqb_spec head i); cbn [negb]; [apply IH; lia|].
  unfold command. rewrite Z.shiftr_div_pow2 by lia. rewrite Z.div_small by lia. apply IH; lia.
Qed.

Definition small (s : slot) : Prop := 0 <= lba_base s /\ lba_base s + 8 <= 2 ^ 28.

Lemma flush_faultless s p : slot_wf p s -> small s -> exists p', flush s p [] = (true, set_dirty 0 s, p', []).
Proof.
  intros Hw [Hb Hb2]. unfold flush. destruct (Z.eqb_spec (dirty s) 0) as [E|E].
  - exists p. by rewrite <- E, set_dirty_same.
  - destruct (flush_loop_faultless 9 0 0 s p) as [p' ->]; try lia. by exists p'.
Qed.

Lemma flush_all_faultless t : forall pre p, inv (Cache (pre ++ t) p []) -> Forall (fun s => locked s = false /\ small s) t ->
  exists p', flush_all t p [] = (set_dirty 0 <$> t, p', []).
Proof.
  induction t as [|s t IH]; intros pre p Hi Ht; cbn [flush_all]; [by exists p|]. apply Forall_cons in Ht as [[Hl Hs] Ht]. rewrite Hl.
  assert (Ek : table (Cache (pre ++ s :: t) p []) !! length pre = Some s) by (cbn; by apply list_lookup_middle).
  pose proof (c_wf _ Hi _ _ Ek) as Hw. cbn [platter] in Hw.
  destruct (flush_ok s p [] Hw) as (res & p1 & f1 & Ef & Ha & _ & Hw1). destruct (flush_faultless s p Hw Hs) as [p1' Ef']. rewrite Ef in Ef'.
  injection Ef' as -> _ -> ->. rewrite Ef.
  destruct (update_same _ _ s (set_dirty 0 s) p1' [] Hi Ek Ha Hw1) as [Hi1 _]; [done|done|done|]. cbn [table] in Hi1.
  rewrite insert_app_r_alt, Nat.sub_diag in Hi1 by lia. cbn in Hi1. replace (pre ++ set_dirty 0 s :: t) with ((pre ++ [set_dirty 0 s]) ++ t) in Hi1 by (by rewrite <- app_assoc).
  destruct (IH _ _ Hi1 Ht) as [p2 ->]. by exists p2.
Qed.

(** When no slot is in use and no command fails, a flush brings the disk up to date: afterwards every
    sector on the disk is what the users of the cache saw before. *)
Theorem flush_current c : inv c -> faults c = [] -> Forall (fun s => locked s = false /\ small s) (table c) ->
  exists c', run_op FlushAll c = Ok (RDone, c') /\ forall l, platter c' l = view c l.
Proof.
  intros Hi Hf Ht. destruct c as [t p f]. cbn in Hf. subst f. cbn [run_op table platter faults].
  destruct (flush_all_ok t [] p [] Hi) as (t' & p' & f' & E & Hi' & Hv & _). destruct (flush_all_faultless t [] p Hi Ht) as [p1 E']. rewrite E in E'.
  injection E' as -> -> ->. rewrite E. eexists. split; [done|]. intros l. cbn [platter app] in *. rewrite <- (Hv l).
  unfold view. cbn [table platter]. destruct (head (omap _ _)) as [d|] eqn:Eh; [|done]. cbn.
  assert (Hx : d ∈ omap (fun s => cell s l) (set_dirty 0 <$> t)) by (destruct (omap _ _); [done|]; injection Eh as ->; by left).
  apply list_elem_of_omap in Hx as (s & Hs & Hd). apply list_elem_of_lookup in Hs as [k Ek].
  pose proof (c_wf _ Hi' k s Ek) as Hw. cbn [platter] in Hw. apply cell_in in Hd as (Hb & Hvb & Hp). rewrite list_lookup_fmap in Ek.
  destruct (t !! k) as [s0|]; [|done]. injection Ek as <-. replace l with (lba_base s0 + (l - lba_base s0)) by lia.
  apply (s_clean _ _ Hw _ _ Hvb); [apply Z.testbit_0_l|done].
Qed.
End theory.

(** ** Concrete runs *)

(** A free slot and one with three sectors that the disk does not hold yet. *)
Definition w_cache (f : list bool) : cache (D := Z) :=
  Cache [Slot 0 0 0 0 false (replicate 8 0); Slot 8 7 7 4 false [11; 12; 13; 0; 0; 0; 0; 0]] (fun l => 100 + l) f.

Lemma w_cache_inv f : inv (w_cache f).
Proof.
  constructor; unfold w_cache; cbn [table platter].
  - intros [|[|k]] s E; [injection E as <-..|done]; constructor; cbn [valid dirty lba_base page]; try done; try lia; try (intros i d; rewrite ?Z.testbit_0_l; congruence); intros i; rewrite ?Z.testbit_0_l; done.
  - intros [|[|i]] [|[|j]] s s' Hne Ei Ej Hv Hv'; try done; injection Ei as <-; injection Ej as <-; done.
Qed.

Lemma cache_coherent_witness : inv (w_cache [true; false]) /\ exists r c', run_op 0 (Get 5 9 2 false) (w_cache [true; false]) = Ok (r, c') /\ inv c' /\
  contents_step 0 (Get 5 9 2 false) (view (w_cache [true; false])) r (view c').
Proof.
  split; [apply w_cache_inv|].
  destruct (cache_coherent 0 (Get 5 9 2 false) (w_cache [true; false])) as [[_ E]|H]; [apply w_cache_inv|split; vm_compute; discriminate|discriminate E|exact H].
Defined.

Lemma flush_current_witness : exists c', run_op 0 FlushAll (w_cache []) = Ok (RDone, c') /\ forall l, platter c' l = view (w_cache []) l.
Proof.
  apply (flush_current 0 (w_cache [])); [apply w_cache_inv|reflexivity|].
  repeat constructor; cbn; discriminate.
Defined.

(** Two sectors are written and flushed; the next read of their page stops the machine. *)
Definition write_flush_read : outcome (reply (D := Z) * cache) :=
  let! (_, c) := run_op 0 (Get 5 16 2 true) (w_cache []);
  let! (_, c) := run_op 0 (Relax 0 false) c;
  let! (_, c) := run_op 0 FlushAll c;
  run_op 0 (Get 6 18 2 false) c.

Lemma write_flush_read_stops : write_flush_read = Bug.
Proof. reflexivity. Qed.

(** A read that fails gives no slot, and leaves the one it had chosen locked. *)
Lemma failed_get_keeps_lock : exists c', run_op 0 (Get 5 16 2 false) (w_cache [false]) = Ok (RGet Failed, c') /\ locked <$> table c' !! 0%nat = Some true.
Proof. by eexists. Qed.
End CacheThm.
