(* ===== verification/Bytes.v ===== *)
(** * Little-endian words in a byte store

    The disk and the images of records are functions from addresses to bytes; what the code reads and
    writes through pointers to wider integers is put together from bytes, lowest first. *)

From S2P Require Import Prelude.

Module Bytes.

Fixpoint load_le (n : nat) (f : Z -> Z) (a : Z) : Z :=
  match n with O => 0 | S n => f a + 256 * load_le n f (a + 1) end.

Definition store_le (n : nat) (v : Z) (f : Z -> Z) (a : Z) : Z -> Z :=
  fun x => if (a <=? x) && (x <? a + Z.of_nat n) then v / 256 ^ (x - a) mod 256 else f x.

(** [memcpy] of a list of bytes to an address; [zeromemory]. *)
Definition store_bytes (l : list Z) (f : Z -> Z) (a : Z) : Z -> Z :=
  fun x => if (a <=? x) && (x <? a + Z.of_nat (length l)) then default 0 (l !! Z.to_nat (x - a)) else f x.
Definition load_bytes (n : Z) (f : Z -> Z) (a : Z) : list Z := f <$> seqZ a n.

Definition bytes_ok (f : Z -> Z) : Prop := forall x, 0 <= f x < 256.

Lemma pow256 n : 256 ^ Z.of_nat (S n) = 256 * 256 ^ Z.of_nat n.
Proof. rewrite Nat2Z.inj_succ, Z.pow_succ_r; lia. Qed.

Lemma pow256_pos n : 0 <= n -> 0 < 256 ^ n.
Proof. intros. apply Z.pow_pos_nonneg; lia. Qed.

Lemma load_le_range n f a : bytes_ok f -> 0 <= load_le n f a < 256 ^ Z.of_nat n.
Proof.
  intros Hf. revert a. induction n as [|n IH]; intros a; [done|]. cbn [load_le]. rewrite pow256. specialize (IH (a + 1)). pose proof (Hf a). lia.
Qed.

Lemma load_le_ext n f g a : (forall x, a <= x < a + Z.of_nat n -> f x = g x) -> load_le n f a = load_le n g a.
Proof.
  revert a. induction n as [|n IH]; intros a H; [done|]. cbn [load_le]. rewrite (H a), (IH (a + 1)); [done| |lia].
  intros x Hx. apply H. lia.
Qed.

Lemma load_le_bytes n f a v : (forall i, 0 <= i < Z.of_nat n -> f (a + i) = v / 256 ^ i mod 256) -> load_le n f a = v mod 256 ^ Z.of_nat n.
Proof.
  revert a v. induction n as [|n IH]; intros a v H; [by rewrite Z.mod_1_r|]. cbn [load_le]. rewrite (IH _ (v / 256)).
  - pose proof (H 0 ltac:(lia)) as H0. rewrite Z.add_0_r, Z.pow_0_r, Z.div_1_r in H0. rewrite H0, pow256.
    pose proof (pow256_pos (Z.of_nat n) ltac:(lia)). rewrite Z.rem_mul_r by lia. done.
  - intros i Hi. replace (a + 1 + i) with (a + (i + 1)) by lia. rewrite H by lia. rewrite Z.pow_add_r by lia.
    rewrite Z.mul_comm. rewrite <- Z.div_div by (try apply pow256_pos; lia). done.
Qed.

Lemma load_store_same n v f a : load_le n (store_le n v f a) a = v mod 256 ^ Z.of_nat n.
Proof.
  apply load_le_bytes. intros i Hi. unfold store_le. destruct (Z.leb_spec a (a + i)), (Z.ltb_spec (a + i) (a + Z.of_nat n)); cbn; try lia.
  by replace (a + i - a) with i by lia.
Qed.

Lemma store_le_out n v f a x : x < a \/ a + Z.of_nat n <= x -> store_le n v f a x = f x.
Proof. intros H. unfold store_le. destruct (Z.leb_spec a x), (Z.ltb_spec x (a + Z.of_nat n)); cbn; try done; lia. Qed.

Lemma load_store_other n m v f a b : b + Z.of_nat n <= a \/ a + Z.of_nat m <= b -> load_le n (store_le m v f a) b = load_le n f b.
Proof. intros H. apply load_le_ext. intros x Hx. apply store_le_out. lia. Qed.

Lemma bytes_ok_store n v f a : bytes_ok f -> bytes_ok (store_le n v f a).
Proof. intros Hf x. unfold store_le. destruct (_ && _); [apply Z.mod_pos_bound; lia|apply Hf]. Qed.

Lemma byte_testbit v j k : 0 <= j -> 0 <= k < 8 -> Z.testbit (v / 256 ^ j mod 256) k = Z.testbit v (8 * j + k).
Proof.
  intros Hj Hk. change 256 with (2 ^ 8) at 2. rewrite Z.mod_pow2_bits_low by lia. change 256 with (2 ^ 8).
  rewrite <- Z.pow_mul_r by lia. rewrite Z.div_pow2_bits by lia. f_equal. lia.
Qed.

Lemma load_testbit n f a k : bytes_ok f -> 0 <= k < 8 * Z.of_nat n -> Z.testbit (load_le n f a) k = Z.testbit (f (a + k / 8)) (k mod 8).
Proof.
  intros Hf. revert a k. induction n as [|n IH]; intros a k Hk; [lia|]. cbn [load_le]. pose proof (Hf a) as Ha.
  destruct (decide (k < 8)).
  - rewrite (Z.div_small k), (Z.mod_small k), Z.add_0_r by lia. rewrite <- (Z.mod_pow2_bits_low _ 8) by lia.
    f_equal. change (2 ^ 8) with 256. rewrite Z.mul_comm, Z_mod_plus_full. by apply Z.mod_small.
  - replace k with ((k - 8) + 8) at 1 by lia. rewrite <- Z.div_pow2_bits by lia. change (2 ^ 8) with 256.
    rewrite Z.mul_comm, Z.div_add, (Z.div_small (f a)), Z.add_0_l by lia. rewrite IH by lia.
    replace (k / 8) with ((k - 8) / 8 + 1) by dlia. replace (k mod 8) with ((k - 8) mod 8) by dlia. f_equal. f_equal. lia.
Qed.

(** Reading back what was written. *)
Lemma store_bytes_out l f a x : x < a \/ a + Z.of_nat (length l) <= x -> store_bytes l f a x = f x.
Proof. intros H. unfold store_bytes. destruct (Z.leb_spec a x), (Z.ltb_spec x (a + Z.of_nat (length l))); cbn; try done; lia. Qed.

Lemma store_bytes_in l f a i b : l !! i = Some b -> store_bytes l f a (a + Z.of_nat i) = b.
Proof.
  intros Hi. pose proof (lookup_lt_Some _ _ _ Hi). unfold store_bytes.
  destruct (Z.leb_spec a (a + Z.of_nat i)), (Z.ltb_spec (a + Z.of_nat i) (a + Z.of_nat (length l))); cbn; try lia.
  replace (Z.to_nat (a + Z.of_nat i - a)) with i by lia. by rewrite Hi.
Qed.

Lemma length_load_bytes n f a : length (load_bytes n f a) = Z.to_nat n.
Proof. unfold load_bytes. by rewrite length_fmap, length_seqZ. Qed.

Lemma load_bytes_lookup n f a i : 0 <= i < n -> load_bytes n f a !! Z.to_nat i = Some (f (a + i)).
Proof. intros Hi. unfold load_bytes. rewrite list_lookup_fmap, lookup_seqZ_lt by lia. cbn. do 2 f_equal. lia. Qed.

Lemma load_bytes_ext n f g a : (forall x, a <= x < a + n -> f x = g x) -> load_bytes n f a = load_bytes n g a.
Proof.
  intros H. apply list_eq. intros i. destruct (decide (Z.of_nat i < n)).
  - rewrite <- (Nat2Z.id i), !load_bytes_lookup by lia. f_equal. apply H. lia.
  - rewrite !lookup_ge_None_2; [done| |]; rewrite length_load_bytes; lia.
Qed.

Lemma load_bytes_app n m f a : 0 <= n -> 0 <= m -> load_bytes (n + m) f a = load_bytes n f a ++ load_bytes m f (a + n).
Proof. intros Hn Hm. unfold load_bytes. by rewrite seqZ_app, fmap_app by lia. Qed.

Lemma take_load_bytes k n f a : Z.of_nat k <= n -> take k (load_bytes n f a) = load_bytes (Z.of_nat k) f a.
Proof.
  intros Hk. replace n with (Z.of_nat k + (n - Z.of_nat k)) by lia. rewrite load_bytes_app by lia. apply take_app_length'. rewrite length_load_bytes. lia.
Qed.

Lemma load_store_bytes l f a : load_bytes (Z.of_nat (length l)) (store_bytes l f a) a = l.
Proof.
  apply list_eq. intros i. destruct (l !! i) as [b|] eqn:E.
  - pose proof (lookup_lt_Some _ _ _ E). rewrite <- (Nat2Z.id i) at 1. rewrite load_bytes_lookup by lia. by rewrite (store_bytes_in l f a i b).
  - apply lookup_ge_None in E. apply lookup_ge_None. rewrite length_load_bytes. lia.
Qed.

Lemma bytes_ok_store_bytes l f a : Forall (fun b => 0 <= b < 256) l -> bytes_ok f -> bytes_ok (store_bytes l f a).
Proof.
  intros Hl Hf x. unfold store_bytes. destruct (_ && _); [|apply Hf]. destruct (l !! Z.to_nat (x - a)) as [b|] eqn:E; cbn; [|lia].
  by eapply Forall_lookup_1 in Hl.
Qed.
End Bytes.
