(* ===== verification/ExFat.v ===== *)
(** * The exFAT volume (src/kernel/filesystem/exfat.cpp)

    The disk is what the users of the disk cache see of it ([DiskCache.CacheThm.cache_coherent]): bytes by
    address, [lba * SECTOR_SIZE] being the first of a sector.  A [get] of the cache locks the slot of a page
    of eight sectors: [held] are the pages of the slots that this thread has locked.  To relax a slot that is
    not locked stops the machine; a thread that asks for a page that it has locked itself waits for ever, for
    which the model answers [Bug] as well.  [faults] says of the next calls of [get] whether they
    succeed, no entry being left meaning success. *)

From S2P Require Import Prelude Const Bytes.
From S2P Require DiskCache.

Module ExFat.
Import Bytes.
Abbreviation page_lba := DiskCache.DiskCache.page_lba.
Abbreviation count_of := DiskCache.DiskCache.count_of.

(** ** The disk cache, as it is used here *)

Record disk := Disk { bytes : Z -> Z; faults : list bool; held : gset Z }.

Definition set_bytes (f : Z -> Z) (d : disk) : disk := Disk f (faults d) (held d).

Definition addr_of (lba : Z) : Z := lba * SECTOR_SIZE.

Definition dm_get (lba count : Z) (write : bool) (d : disk) : outcome (bool * disk) :=
  assert! count <=? count_of lba;
  assert! bool_decide (page_lba lba ∉ held d);
  match faults d with
  | false :: f => Ok (false, Disk (bytes d) f (held d))
  | f =>
      let b := if write then store_bytes (replicate (Z.to_nat (SECTOR_SIZE * count)) 0) (bytes d) (addr_of lba) else bytes d in
      Ok (true, Disk b (tail f) ({[page_lba lba]} ∪ held d))
  end.

(** A slot is named by its page. *)
Definition dm_relax (page : Z) (d : disk) : outcome disk :=
  assert! bool_decide (page ∈ held d);
  Ok (Disk (bytes d) (faults d) (held d ∖ {[page]})).

Definition dm_upgrade (page lba count : Z) (d : disk) : outcome unit :=
  assert! bool_decide (page ∈ held d);
  ensure ((page_lba lba =? page) && (count <=? count_of lba)).

Definition dm_data (page lba : Z) : outcome Z :=
  assert! page =? page_lba lba;
  Ok (addr_of lba).

(** ** The volume *)

Definition element_per_sector : Z := 128.
Definition bit_per_sector : Z := 4096.
Definition record_size : Z := 32.
Definition record_per_sector : Z := 16.
Definition ALLOW_WRITE : Z := 2.
Definition STOPPING : Z := 0x80.

Record exfat := Exfat {
  base : Z; top : Z; table : Z; bitmap : Z; heap : Z; cluster_count : Z; cluster_shift : Z;
  volume_state : Z; flags : Z; bmp_last_index : Z
}.
Definition set_last (i : Z) (x : exfat) : exfat :=
  Exfat (base x) (top x) (table x) (bitmap x) (heap x) (cluster_count x) (cluster_shift x) (volume_state x) (flags x) i.
Definition set_flags (i : Z) (x : exfat) : exfat :=
  Exfat (base x) (top x) (table x) (bitmap x) (heap x) (cluster_count x) (cluster_shift x) (volume_state x) i (bmp_last_index x).
Definition set_state (i : Z) (x : exfat) : exfat :=
  Exfat (base x) (top x) (table x) (bitmap x) (heap x) (cluster_count x) (cluster_shift x) i (flags x) (bmp_last_index x).
Definition set_bitmap (i : Z) (x : exfat) : exfat :=
  Exfat (base x) (top x) (table x) i (heap x) (cluster_count x) (cluster_shift x) (volume_state x) (flags x) (bmp_last_index x).
Definition set_part (b t : Z) (x : exfat) : exfat :=
  Exfat b t (table x) (bitmap x) (heap x) (cluster_count x) (cluster_shift x) (volume_state x) (flags x) (bmp_last_index x).

(** A shift count that is too large counts modulo the width, as the processor does it. *)
Definition cluster_size (x : exfat) : Z := w32 (Z.shiftl 1 (cluster_shift x mod 32)).
Definition is_rw (x : exfat) : bool := truth (Z.land (flags x) ALLOW_WRITE).
Definition is_running (x : exfat) : bool := Z.land (flags x) STOPPING =? 0.

Definition lba_of_fat (x : exfat) (sector : Z) : Z :=
  let limit := align_up 32 (w32 (cluster_count x + 2)) element_per_sector / element_per_sector in
  if sector <? limit then w64 (table x + sector) else 0.

Definition lba_of_cluster (x : exfat) (cluster : Z) : outcome Z :=
  assert! (2 <=? cluster) && (cluster <? 0xFFFFFFF7);
  if cluster_count x <=? w32 (cluster - 2) then Ok 0
  else Ok (w64 (heap x + (cluster - 2) * (cluster_size x / SECTOR_SIZE))).

(** ** Reading and writing the FAT *)

(** [fat_sector] is the slot it has got, if any; a failing [load] can leave one that has been given back. *)
Record fat_reader := FatReader { sector_index : Z; sector_lba : Z; fat_sector : option Z }.
Definition new_reader : fat_reader := FatReader 0 0 None.

Definition relax_opt (o : option Z) (d : disk) : outcome disk :=
  match o with Some p => dm_relax p d | None => Ok d end.

Definition load (x : exfat) (cluster : Z) (r : fat_reader) (d : disk) : outcome (bool * fat_reader * disk) :=
  let sector := cluster / element_per_sector in
  if match fat_sector r with None => true | Some _ => negb (sector_index r =? sector) end then
    let! d := relax_opt (fat_sector r) d;
    let lba := lba_of_fat x sector in
    if lba =? 0 then Ok (false, FatReader (sector_index r) lba (fat_sector r), d)
    else
      let! (b, d) := dm_get lba 1 false d;
      if b : bool then Ok (true, FatReader sector lba (Some (page_lba lba)), d)
      else Ok (false, FatReader (sector_index r) lba None, d)
  else Ok (true, r, d).

(** The address of an entry in the sector at hand. *)
Definition fat_ptr (cluster : Z) (r : fat_reader) : outcome Z :=
  let! p := deref (fat_sector r);
  let! a := dm_data p (sector_lba r);
  Ok (a + 4 * (cluster mod element_per_sector)).

Definition fat_get (x : exfat) (cluster : Z) (r : fat_reader) (d : disk) : outcome (Z * fat_reader * disk) :=
  assert! 2 <=? cluster;
  let! (b, r, d) := load x cluster r d;
  if negb b then Ok (0, r, d)
  else
    let! a := fat_ptr cluster r;
    Ok (load_le 4 (bytes d) a, r, d).

Definition fat_upgrade (r : fat_reader) (d : disk) : outcome unit :=
  let! p := deref (fat_sector r);
  dm_upgrade p (sector_lba r) 1 d.

Definition fat_put (x : exfat) (tail next : Z) (r : fat_reader) (d : disk) : outcome (bool * fat_reader * disk) :=
  assert! 2 <=? next;
  let! (b, r, d) := load x next r d;
  if negb b then Ok (false, r, d)
  else
    let! a := fat_ptr next r;
    let! _ := fat_upgrade r d;
    let d := set_bytes (store_le 4 0xFFFFFFFF (bytes d) a) d in
    if tail =? 0 then Ok (true, r, d)
    else
      assert! 2 <=? tail;
      let! (b, r, d) := load x tail r d;
      if negb b then Ok (false, r, d)
      else
        let! a := fat_ptr tail r;
        if load_le 4 (bytes d) a <? 0xFFFFFFF8 then Ok (false, r, d)
        else
          let! _ := fat_upgrade r d;
          Ok (true, r, set_bytes (store_le 4 next (bytes d) a) d).

(** The destructor. *)
Definition fat_close (r : fat_reader) (d : disk) : outcome disk := relax_opt (fat_sector r) d.

(** ** The allocation bitmap *)

Record allocator := Allocator { block_lba : Z; block : option Z }.
Definition new_allocator : allocator := Allocator 0 None.

Definition set_bit (f : Z -> Z) (a data bit : Z) : Z -> Z := store_le 8 (Z.lor data (Z.shiftl 1 bit)) f a.

(** The loop over the bits of a sector; [data] is the word with the bit at [pos].  The answer is where it stopped
    and, for a free bit, the word it was found in. *)
Fixpoint scan (n : nat) (x : exfat) (a pos data : Z) (f : Z -> Z) : outcome (Z * option Z) :=
  match n with
  | O => NoFuel
  | S n =>
      if cluster_count x <=? pos then Ok (pos, None)
      else
        let data := if pos mod 64 =? 0 then load_le 8 f (a + 8 * (pos mod bit_per_sector / 64)) else data in
        if Z.land data (Z.shiftl 1 (pos mod 64)) =? 0 then Ok (pos, Some data)
        else
          let pos := w32 (pos + 1) in
          if pos mod bit_per_sector =? 0 then Ok (pos, None) else scan n x a pos data f
  end.

(** The sector with a bit; [false] when it cannot be read. *)
Definition fetch (lba : Z) (al : allocator) (d : disk) : outcome (bool * allocator * disk) :=
  if match block al with None => true | Some _ => negb (block_lba al =? lba) end then
    let! d := relax_opt (block al) d;
    let! (b, d) := dm_get lba 1 false d;
    if b : bool then Ok (true, Allocator lba (Some (page_lba lba)), d) else Ok (false, Allocator (block_lba al) None, d)
  else Ok (true, al, d).

Definition block_ptr (lba : Z) (al : allocator) : outcome Z :=
  let! p := deref (block al);
  dm_data p lba.
Definition block_upgrade (lba : Z) (al : allocator) (d : disk) : outcome unit :=
  let! p := deref (block al);
  dm_upgrade p lba 1 d.

Fixpoint alloc_loop (fuel : nat) (initial pos : Z) (x : exfat) (al : allocator) (d : disk) : outcome (Z * exfat * allocator * disk) :=
  match fuel with
  | O => NoFuel
  | S fuel =>
      let lba := w64 (bitmap x + pos / bit_per_sector) in
      let! (b, al, d) := fetch lba al d;
      if negb b then Ok (0, x, al, d)
      else
        let! a := block_ptr lba al;
        let data := load_le 8 (bytes d) (a + 8 * (pos mod bit_per_sector / 64)) in
        let! (pos, found) := scan (Z.to_nat bit_per_sector) x a pos data (bytes d);
        match found with
        | Some data =>
            let! _ := block_upgrade lba al d;
            Ok (w32 (pos + 2), set_last pos x, al,
                set_bytes (set_bit (bytes d) (a + 8 * (pos mod bit_per_sector / 64)) data (pos mod 64)) d)
        | None =>
            let pos := if cluster_count x <=? pos then 0 else pos in
            if pos =? initial then Ok (0, x, al, d) else alloc_loop fuel initial pos x al d
        end
  end.

(** The number of sectors of the bitmap, and two, bound the outer loop. *)
Definition sectors (x : exfat) : nat := S (S (Z.to_nat (cluster_count x / bit_per_sector))).

Definition alloc_get (x : exfat) (al : allocator) (d : disk) : outcome (Z * exfat * allocator * disk) :=
  let pos := bmp_last_index x in
  alloc_loop (sectors x) (align_down 32 pos bit_per_sector) pos x al d.

Definition alloc_put (x : exfat) (cluster : Z) (al : allocator) (d : disk) : outcome (bool * allocator * disk) :=
  assert! 2 <=? cluster;
  let sector := (cluster - 2) / bit_per_sector in
  let offset := (cluster - 2) mod bit_per_sector in
  let lba := w64 (bitmap x + sector) in
  let! (b, al, d) := fetch lba al d;
  if negb b then Ok (false, al, d)
  else
    let! a := block_ptr lba al;
    let data := load_le 8 (bytes d) (a + 8 * (offset / 64)) in
    let mask := Z.shiftl 1 (offset mod 64) in
    if truth (Z.land data mask) then
      let! _ := block_upgrade lba al d;
      Ok (true, al, set_bytes (store_le 8 (Z.land data (Z.lnot mask)) (bytes d) (a + 8 * (offset / 64))) d)
    else Ok (false, al, d).

Definition alloc_close (al : allocator) (d : disk) : outcome disk := relax_opt (block al) d.

(** ** Chains of clusters *)

Definition limit : Z := 4.
Record line := Line { index : Z; cluster : Z }.

(** [cache_line] by descending index.  An iterator into it is named by the index of its line. *)
Record cluster_chain := Chain { first_cluster : Z; cache_line : list line; lru_queue : list Z; linear : bool }.
Definition new_chain (head : Z) (l : bool) : cluster_chain := Chain head [] [] l.
Definition set_first (h : Z) (c : cluster_chain) : cluster_chain := Chain h (cache_line c) (lru_queue c) (linear c).

Definition line_of (i : Z) (ls : list line) : option line := snd <$> list_find (fun l => index l = i) ls.

(** The search for a place among the lines: those before it, and the line to begin with, if there is one. *)
Fixpoint place (i : Z) (ls : list line) : outcome (list line * option line * list line) :=
  match ls with
  | [] => Ok ([], None, [])
  | l :: ls =>
      assert! negb (index l =? 0);
      if index l <? i then Ok ([], Some l, l :: ls)
      else
        let! (pre, cur, post) := place i ls;
        Ok (l :: pre, cur, post)
  end.

(** Following the FAT for [n] clusters; [None] when the chain ends before. *)
Fixpoint follow (n : nat) (x : exfat) (cur : line) (r : fat_reader) (d : disk) : outcome (option line * fat_reader * disk) :=
  match n with
  | O => Ok (Some cur, r, d)
  | S n =>
      let! (next, r, d) := fat_get x (cluster cur) r d;
      if (next =? 0) || (0xFFFFFFF8 <=? next) then Ok (None, r, d)
      else follow n x (Line (w32 (index cur + 1)) next) r d
  end.

Fixpoint check_lines (prev : Z) (ls : list line) : bool :=
  match ls with
  | [] => true
  | l :: ls => truth (index l) && ((prev =? 0) || (index l <? prev)) && check_lines (index l) ls
  end.

(** The lines used least recently go until [limit] are left. *)
Fixpoint trim (n : nat) (lines : list line) (lru : list Z) : list line * list Z :=
  match n with
  | O => (lines, lru)
  | S n =>
      if limit <? Z.of_nat (length lru) then
        match last lru with
        | Some i => trim n (List.filter (fun l => negb (index l =? i)) lines) (removelast lru)
        | None => (lines, lru)
        end
      else (lines, lru)
  end.

Definition chain_get (x : exfat) (i : Z) (c : cluster_chain) (d : disk) : outcome (Z * cluster_chain * disk) :=
  if first_cluster c =? 0 then Ok (0, c, d)
  else if linear c then Ok (w32 (first_cluster c + i), c, d)
  else if i =? 0 then Ok (first_cluster c, c, d)
  else if bool_decide (i ∈ lru_queue c) then
    let! l := deref (line_of i (cache_line c));
    Ok (cluster l, Chain (first_cluster c) (cache_line c) (i :: List.filter (fun j => negb (j =? i)) (lru_queue c)) (linear c), d)
  else
    let! (pre, cur, post) := place i (cache_line c);
    let cur := default (Line 0 (first_cluster c)) cur in
    let! (res, r, d) := follow (Z.to_nat (i - index cur)) x cur new_reader d;
    let! d := fat_close r d;
    match res with
    | None => Ok (0, c, d)
    | Some l =>
        assert! index l =? i;
        let lines := pre ++ l :: post in
        let lru := index l :: lru_queue c in
        assert! check_lines 0 lines;
        let '(lines, lru) := trim (length lru) lines lru in
        assert! bool_decide (length lru = length lines);
        Ok (cluster l, Chain (first_cluster c) lines lru (linear c), d)
    end.

(** The search for the last cluster of [expand]: [None] when a read failed. *)
Fixpoint seek_tail (n : nat) (x : exfat) (tail : line) (i : Z) (r : fat_reader) (d : disk) : outcome (option line * fat_reader * disk) :=
  match n with
  | O => NoFuel
  | S n =>
      let! (next, r, d) := fat_get x (cluster tail) r d;
      if next =? 0 then Ok (None, r, d)
      else if 0xFFFFFFF8 <=? next then Ok (Some tail, r, d)
      else
        let tail := Line (w32 (index tail + 1)) next in
        if index tail <? i then seek_tail n x tail i r d else Ok (Some tail, r, d)
  end.

Fixpoint append (n : nat) (x : exfat) (tail : line) (i : Z) (c : cluster_chain) (r : fat_reader) (al : allocator) (d : disk)
  : outcome (bool * exfat * cluster_chain * fat_reader * allocator * disk) :=
  match n with
  | O => NoFuel
  | S n =>
      let! (next, x, al, d) := alloc_get x al d;
      if next =? 0 then Ok (false, x, c, r, al, d)
      else
        let! (b, r, d) := fat_put x (cluster tail) next r d;
        if negb b then Ok (false, x, c, r, al, d)
        else
          let '(c, tail) := (if first_cluster c =? 0 then (set_first next c, Line (index tail) next)
                             else (c, Line (w32 (index tail + 1)) next)) in
          if index tail <? i then append n x tail i c r al d else Ok (true, x, c, r, al, d)
  end.

Definition expand (x : exfat) (i : Z) (c : cluster_chain) (d : disk) : outcome (bool * exfat * cluster_chain * disk) :=
  if linear c then Ok (false, x, c, d)
  else
    let tail := if i =? 0 then Line 0 (first_cluster c) else default (Line 0 (first_cluster c)) (head (cache_line c)) in
    if negb (i =? 0) && (i <=? index tail) then Ok (true, x, c, d)
    else
      let! (res, r, d) := (if i =? 0 then Ok (Some tail, new_reader, d) else seek_tail (Z.to_nat (i - index tail)) x tail i new_reader d);
      match res with
      | None => let! d := fat_close r d; Ok (false, x, c, d)
      | Some tail =>
          if negb (i =? 0) && (i <=? index tail) then let! d := fat_close r d; Ok (true, x, c, d)
          else
            let! (b, x, c, r, al, d) := append (S (S (Z.to_nat (i - index tail)))) x tail i c r new_allocator d;
            let! d := alloc_close al d;
            let! d := fat_close r d;
            Ok (b, x, c, d)
      end.

(** ** Mounting *)

Definition set_layout (tbl hp cnt sh t : Z) (x : exfat) : exfat :=
  Exfat (base x) t tbl (bitmap x) hp cnt sh (volume_state x) (flags x) (bmp_last_index x).

Definition EXFAT_NAME : list Z := [0x45; 0x58; 0x46; 0x41; 0x54; 0x20; 0x20; 0x20].

(** [exfat_header], by the offsets of its fields. *)
Record exfat_header := Header {
  fs_name : list Z; zero : list Z; h_base : Z; h_limit : Z; fat_offset : Z; fat_length : Z; cluster_offset : Z; h_cluster_count : Z;
  root_dir : Z; fs_version : Z; h_flags : Z; sector_shift : Z; h_cluster_shift : Z; fat_count : Z; signature : Z
}.
Definition header_at (f : Z -> Z) (p : Z) : exfat_header :=
  Header (load_bytes 8 f (p + 3)) (load_bytes 0x35 f (p + 11)) (load_le 8 f (p + 64)) (load_le 8 f (p + 72)) (load_le 4 f (p + 80))
    (load_le 4 f (p + 84)) (load_le 4 f (p + 88)) (load_le 4 f (p + 92)) (load_le 4 f (p + 96)) (load_le 2 f (p + 104)) (load_le 2 f (p + 106))
    (f (p + 108)) (f (p + 109)) (f (p + 110)) (load_le 2 f (p + 510)).

(** The answer is the volume as the call leaves it, and 0 or the root directory, marked when the second FAT is in use. *)
Definition parse_header (h : exfat_header) (x : exfat) : exfat * Z :=
  if negb (signature h =? 0xAA55) then (x, 0)
  else if negb (bool_decide (fs_name h = EXFAT_NAME)) then (x, 0)
  else if negb (forallb (fun b => b =? 0) (zero h)) then (x, 0)
  else if negb (fs_version h =? 0x0100) then (x, 0)
  else if negb (sector_shift h =? 9) then (x, 0)
  else if negb (h_base h =? base x) then (x, 0)
  else if truth (top x) && (top x <? w64 (h_base h + h_limit h)) then (x, 0)
  else
    let t := w64 (h_base h + h_limit h) in
    let x := set_layout (table x) (heap x) (cluster_count x) (cluster_shift x) t x in
    if (fat_offset h <? 24) || (fat_length h =? 0) || (cluster_offset h =? 0) || (h_cluster_count h =? 0) then (x, 0)
    else
      let cnt := h_cluster_count h in
      let tbl := w64 (base x + fat_offset h) in
      let hp := w64 (base x + cluster_offset h) in
      let sh := w8 (9 + h_cluster_shift h) in
      let second := negb (Z.land (h_flags h) 1 =? 0) in
      let x := set_layout (if (fat_count h =? 2) && second then w64 (tbl + fat_length h) else tbl) hp cnt sh t x in
      if negb ((fat_count h =? 2) || ((fat_count h =? 1) && negb second)) then (x, 0)
      else if fat_length h <? align_up 64 (w32 (2 + cnt) * 4) SECTOR_SIZE / SECTOR_SIZE then (x, 0)
      else if hp <? w64 (table x + w32 (fat_length h * fat_count h)) then (x, 0)
      else if t <? w64 (hp + w64 (cnt * w64 (Z.shiftl 1 (h_cluster_shift h mod 64)))) then (x, 0)
      else if root_dir h <? 2 then (x, 0)
      else (x, Z.lor (if second then 0x80000000 else 0) (root_dir h)).

(** The loop over the four entries of a master boot record. *)
Fixpoint parse_mbr (n : nat) (f : Z -> Z) (p : Z) (x : exfat) : exfat :=
  match n with
  | O => x
  | S n =>
      if (f p =? 0x80) && (f (p + 4) =? 0x07) then
        let b := load_le 4 f (p + 8) in set_part b (w64 (b + load_le 4 f (p + 12))) x
      else if (f p =? 0x80) || (f p =? 0) then parse_mbr n f (p + 16) x
      else x
  end.

(** A sector of the disk, locked for the caller, who cannot go on without it. *)
Definition must_get (lba : Z) (d : disk) : outcome disk :=
  let! (b, d) := dm_get lba 1 false d;
  assert! b;
  Ok d.

(** The first loop of [thread_init]: the header at sector 0, or that of the partition. *)
Fixpoint find_header (n : nat) (x : exfat) (d : disk) : outcome (exfat * Z * disk) :=
  match n with
  | O => NoFuel
  | S n =>
      let! d := must_get (base x) d;
      let a := addr_of (base x) in
      let '(x, root) := parse_header (header_at (bytes d) a) x in
      if truth root then Ok (x, root, d)
      else
        assert! base x =? 0;
        assert! load_le 2 (bytes d) (a + 0x1FE) =? 0xAA55;
        let old := base x in
        let x := parse_mbr 4 (bytes d) (a + 0x1BE) x in
        assert! truth (base x);
        let! d := dm_relax (page_lba old) d;
        find_header n x d
  end.

Definition rotate (w sum : Z) : Z := Z.lor (if Z.land sum 1 =? 0 then 0 else 2 ^ (w - 1)) (Z.shiftr sum 1).

Definition boot_step (sec : Z) (sum : Z) (ib : Z * Z) : Z :=
  if (sec =? 0) && ((ib.1 =? 0x6A) || (ib.1 =? 0x6B) || (ib.1 =? 0x70)) then sum else w32 (rotate 32 sum + ib.2).
Definition boot_sector (sec : Z) (a : Z) (f : Z -> Z) (sum : Z) : Z :=
  fold_left (boot_step sec) ((fun i => (i, f (a + i))) <$> seqZ 0 SECTOR_SIZE) sum.

(** The sum over the sectors from [sec] to 10; the slot of the next one is locked in the end. *)
Fixpoint boot_area (n : nat) (x : exfat) (sec sum : Z) (d : disk) : outcome (Z * disk) :=
  match n with
  | O => Ok (sum, d)
  | S n =>
      let sum := boot_sector sec (addr_of (w64 (base x + sec))) (bytes d) sum in
      let! d := dm_relax (page_lba (w64 (base x + sec))) d;
      let! d := must_get (w64 (base x + (sec + 1))) d;
      boot_area n x (sec + 1) sum d
  end.

(** The records of one sector of the root directory; [true] when the end of the directory is among them. *)
Fixpoint root_sector (n : nat) (fat_index : Z) (f : Z -> Z) (p idx : Z) (x : exfat) : outcome (bool * Z * exfat) :=
  match n with
  | O => Ok (false, idx, x)
  | S n =>
      if f p =? 0 then Ok (true, idx, x)
      else
        let! x :=
          (if (f p =? 0x81) && (fat_index =? Z.land (f (p + 1)) 1) && (align_up 32 (cluster_count x) 8 / 8 <=? load_le 8 f (p + 0x18)) then
             let! lba := lba_of_cluster x (load_le 4 f (p + 0x14)); Ok (set_bitmap lba x)
           else Ok x);
        root_sector n fat_index f (p + record_size) (w32 (idx + 1)) x
  end.

(** The loop over the clusters of the root directory, with a slot locked when it begins.  Each exit but that at the end of the
    directory is the [bugcheck] behind the loop. *)
Fixpoint root_walk (n : nat) (fat_index cur idx slot : Z) (x : exfat) (d : disk) : outcome (Z * exfat * disk) :=
  match n with
  | O => NoFuel
  | S n =>
      let! lba := lba_of_cluster x cur;
      assert! truth lba;
      let! d := dm_relax slot d;
      let! d := must_get lba d;
      let! (found, idx, x) := root_sector 16 fat_index (bytes d) (addr_of lba) idx x;
      if found : bool then let! d := dm_relax (page_lba lba) d; Ok (idx, x, d)
      else
        let! d := dm_relax (page_lba lba) d;
        let fl := lba_of_fat x (cur / element_per_sector) in
        assert! truth fl;
        let! d := must_get fl d;
        let next := load_le 4 (bytes d) (addr_of fl + 4 * (cur mod element_per_sector)) in
        assert! next <? 0xFFFFFFF8;
        root_walk n fat_index next idx (page_lba fl) x d
  end.

(** [thread_init] up to the start of the workers: the volume, the first cluster of the root directory and the number of its records. *)
Definition thread_init (fuel : nat) (x : exfat) (d : disk) : outcome (exfat * Z * Z * disk) :=
  let! (x, root, d) := find_header 2 (set_part 0 (top x) x) d;
  let! (sum, d) := boot_area 11 x 0 0 d;
  assert! sum =? load_le 4 (bytes d) (addr_of (w64 (base x + 11)));
  let fat_index := b2z (truth (Z.land root 0x80000000)) in
  let root := Z.land root 0x7FFFFFFF in
  assert! truth root;
  let! (idx, x, d) := root_walk fuel fat_index root 0 (page_lba (w64 (base x + 11))) (set_bitmap 0 x) d;
  assert! truth (bitmap x) && (bitmap x <? top x);
  Ok (x, root, idx, d).

(** ** Write access *)

(** [cmpxchg] on the flags. *)
Definition set_rw (force : bool) (x : exfat) (d : disk) : outcome (bool * exfat * disk) :=
  if negb (flags x =? 0) then Ok (false, x, d)
  else
    let x := set_flags ALLOW_WRITE x in
    let! (b, d) := dm_get (base x) 1 false d;
    if negb b then Ok (false, x, d)
    else
      let a := addr_of (base x) in
      let old := bytes d (a + 0x6A) in
      let x := set_state (Z.land old ALLOW_WRITE) x in
      let! d :=
        (if (volume_state x =? 0) || force then
           let! _ := dm_upgrade (page_lba (base x)) (base x) 1 d;
           Ok (set_bytes (store_le 1 (Z.lor old ALLOW_WRITE) (bytes d) (a + 0x6A)) d)
         else Ok d);
      let! d := dm_relax (page_lba (base x)) d;
      Ok (volume_state x =? 0, x, d).

(** [stop], once the workers have stopped. *)
Definition stop (x : exfat) (d : disk) : outcome (bool * exfat * disk) :=
  if negb (flags x =? ALLOW_WRITE) then Ok (false, x, d)
  else
    let x := set_flags (Z.lor ALLOW_WRITE STOPPING) x in
    if volume_state x =? 0 then
      let! (b, d) := dm_get (base x) 1 false d;
      if negb b then Ok (false, x, d)
      else
        let a := addr_of (base x) in
        let! _ := dm_upgrade (page_lba (base x)) (base x) 1 d;
        let d := set_bytes (store_le 1 (Z.land (bytes d (a + 0x6A)) 0xFD) (bytes d) (a + 0x6A)) d in
        let! d := dm_relax (page_lba (base x)) d;
        Ok (true, x, d)
    else Ok (true, x, d).
End ExFat.

Module ExFatThm.
Import Bytes ExFat.

(** ** Slots *)

Definition hold (o : option Z) : gset Z := match o with Some p => {[p]} | None => ∅ end.

(** The thread has the slot [o], and those of [F] for other purposes. *)
Definition slots (o : option Z) (F : gset Z) (d : disk) : Prop := held d = hold o ∪ F /\ forall p, o = Some p -> p ∉ F.

(** Nothing but the slots and the failures to come has changed. *)
Definition same (d d' : disk) : Prop := bytes d' = bytes d /\ (faults d = [] -> faults d' = []).

Lemma same_refl d : same d d.
Proof. done. Qed.

Lemma same_trans d1 d2 d3 : same d1 d2 -> same d2 d3 -> same d1 d3.
Proof. intros [H1 H2] [H3 H4]. split; [congruence|auto]. Qed.

Lemma relax_opt_ok o F d : slots o F d -> exists d', relax_opt o d = Ok d' /\ held d' = F /\ same d d'.
Proof.
  intros [Hh Ho]. destruct o as [p|]; cbn [relax_opt].
  - unfold dm_relax. rewrite ensure_decide by (rewrite Hh; set_solver). cbn [obind]. eexists. split; [done|]. cbn. split; [|done].
    specialize (Ho p eq_refl). rewrite Hh. cbn. set_solver.
  - exists d. split; [done|]. split; [rewrite Hh; cbn; set_solver|done].
Qed.

Lemma count_one lba : (1 <=? count_of lba) = true.
Proof. rewrite DiskCache.CacheThm.count_of_ok. pose proof (DiskCache.CacheThm.page_lba_range lba). apply Z.leb_le. lia. Qed.

Lemma dm_get_ok lba count (w : bool) F d : held d = F -> page_lba lba ∉ F -> count <= count_of lba ->
  (exists d', dm_get lba count w d = Ok (true, d') /\ slots (Some (page_lba lba)) F d' /\ (faults d = [] -> faults d' = []) /\
     bytes d' = if w then store_bytes (replicate (Z.to_nat (SECTOR_SIZE * count)) 0) (bytes d) (addr_of lba) else bytes d) \/
  (exists d', dm_get lba count w d = Ok (false, d') /\ held d' = F /\ bytes d' = bytes d /\ faults d <> []).
Proof.
  intros Hh Hp Hc. unfold dm_get. rewrite (ensure_true (count <=? _)) by (by apply Z.leb_le). cbn [obind]. rewrite ensure_decide by (by rewrite Hh). cbn [obind].
  assert (Hs : forall f g, slots (Some (page_lba lba)) F (Disk f g ({[page_lba lba]} ∪ F))) by (intros f g; split; [done|by intros ? [= <-]]).
  destruct (faults d) as [|[] f]; [left|left|right]; rewrite Hh; eexists; (split; [done|]).
  - by split.
  - by split.
  - by split.
Qed.

Lemma dm_get1_ok lba F d : held d = F -> page_lba lba ∉ F ->
  exists b d', dm_get lba 1 false d = Ok (b, d') /\ slots (if b then Some (page_lba lba) else None) F d' /\ same d d' /\ (faults d = [] -> b = true).
Proof.
  intros Hh Hp. pose proof (count_one lba) as Hc. apply Z.leb_le in Hc.
  destruct (dm_get_ok lba 1 false F d Hh Hp Hc) as [(d' & -> & Hs & Hf & Hb)|(d' & -> & Hs & Hb & Hf)].
  - exists true, d'. by repeat (split; [done|]).
  - exists false, d'. split; [done|]. split; [|by repeat (split; [done|])]. split; [cbn; set_solver|done].
Qed.

(** ** The layout of a volume *)

Definition fat_sectors (x : exfat) : Z := (cluster_count x + 129) / 128.
Definition bmp_sectors (x : exfat) : Z := (cluster_count x + 4095) / 4096.

(** The FAT lies before the bitmap and shares no page of the cache with it. *)
Record layout (x : exfat) : Prop := {
  l_count : 0 < cluster_count x < 2 ^ 32 - 129;
  l_table : 0 < table x;
  l_pages : page_lba (table x + fat_sectors x - 1) < page_lba (bitmap x);
  l_bitmap : bitmap x + bmp_sectors x < 2 ^ 64;
  l_last : 0 <= bmp_last_index x < cluster_count x
}.

Definition cluster_ok (x : exfat) (c : Z) : Prop := 2 <= c < cluster_count x + 2.

(** The entry of the FAT for a cluster; whether the bitmap has a cluster as used. *)
Definition fat (x : exfat) (f : Z -> Z) (c : Z) : Z := load_le 4 f (addr_of (table x) + 4 * c).
Definition used (x : exfat) (f : Z -> Z) (c : Z) : bool := Z.testbit (f (addr_of (bitmap x) + (c - 2) / 8)) ((c - 2) mod 8).

Lemma page_lba_mono a b : a <= b -> page_lba a <= page_lba b.
Proof. unfold DiskCache.DiskCache.page_lba. intros H. pose proof (Z.div_le_mono a b 8 ltac:(lia) H). lia. Qed.

Lemma page_lba_le a : page_lba a <= a.
Proof. pose proof (DiskCache.CacheThm.page_lba_range a). lia. Qed.

Definition fat_page (x : exfat) (p : Z) : Prop := exists s, 0 <= s < fat_sectors x /\ p = page_lba (table x + s).
Definition bmp_page (x : exfat) (p : Z) : Prop := exists s, 0 <= s < bmp_sectors x /\ p = page_lba (bitmap x + s).

Lemma pages_apart x p q : layout x -> fat_page x p -> bmp_page x q -> p <> q.
Proof.
  intros Hl (s & Hs & ->) (t & Ht & ->). pose proof (l_pages _ Hl). pose proof (page_lba_mono (table x + s) (table x + fat_sectors x - 1) ltac:(lia)).
  pose proof (page_lba_mono (bitmap x) (bitmap x + t) ltac:(lia)). lia.
Qed.

Lemma fat_before_bitmap x : layout x -> table x + fat_sectors x <= bitmap x.
Proof.
  intros Hl. pose proof (l_pages _ Hl). destruct (decide (table x + fat_sectors x <= bitmap x)); [done|].
  pose proof (page_lba_mono (bitmap x) (table x + fat_sectors x - 1) ltac:(lia)). lia.
Qed.

Lemma lba_of_fat_ok x c : layout x -> cluster_ok x c ->
  let s := c / element_per_sector in 0 <= s < fat_sectors x /\ lba_of_fat x s = table x + s /\ table x + s <> 0.
Proof.
  intros Hl Hc s. pose proof (l_count _ Hl). pose proof (l_table _ Hl). unfold cluster_ok in Hc. unfold fat_sectors, s, element_per_sector in *.
  assert (Hs : 0 <= c / 128 < (cluster_count x + 129) / 128) by dlia. split; [done|]. split; [|lia].
  unfold lba_of_fat, element_per_sector. rewrite wrap_small by lia. pose proof (align_up_pow2 32 (cluster_count x + 2) 7 ltac:(lia) ltac:(lia) ltac:(lia)) as Ea.
  change (2 ^ 7) with 128 in Ea. rewrite Ea, Z.div_mul by lia. replace (cluster_count x + 2 + 128 - 1) with (cluster_count x + 129) by lia.
  destruct (Z.ltb_spec (c / 128) ((cluster_count x + 129) / 128)); [|lia]. apply wrap_small.
  pose proof (fat_before_bitmap x Hl) as Hf. unfold fat_sectors in Hf. pose proof (l_bitmap _ Hl). unfold bmp_sectors in *.
  assert (0 <= (cluster_count x + 4095) / 4096) by dlia. lia.
Qed.

(** ** The reader of the FAT *)

(** [F] are the slots locked for other purposes; no FAT sector is in them. *)
Definition apart (x : exfat) (F : gset Z) : Prop := forall p, fat_page x p -> p ∉ F.

Definition reader_ok (x : exfat) (F : gset Z) (r : fat_reader) (d : disk) : Prop :=
  slots (fat_sector r) F d /\
  forall p, fat_sector r = Some p -> 0 <= sector_index r < fat_sectors x /\ sector_lba r = table x + sector_index r /\ p = page_lba (sector_lba r).

(** The sector of a cluster is at hand. *)
Definition at_hand (c : Z) (r : fat_reader) : Prop := is_Some (fat_sector r) /\ sector_index r = c / element_per_sector.

Lemma reader_new x F d : held d = F -> reader_ok x F new_reader d.
Proof. intros Hh. split; [|done]. split; [cbn; set_solver|done]. Qed.

Lemma reader_same x F r d d' : reader_ok x F r d -> held d' = held d -> reader_ok x F r d'.
Proof. intros [[H1 H2] H3] E. split; [|done]. split; [congruence|done]. Qed.

Lemma fat_load_ok x F c r d : layout x -> apart x F -> cluster_ok x c -> reader_ok x F r d ->
  exists b r' d', load x c r d = Ok (b, r', d') /\ reader_ok x F r' d' /\ same d d' /\ (b = true -> at_hand c r') /\ (faults d = [] -> b = true).
Proof.
  intros Hl Ha Hc [Hs Hr]. unfold load. destruct (lba_of_fat_ok x c Hl Hc) as (Hsec & Elba & Hnz). cbn zeta in *.
  destruct (match fat_sector r with None => true | Some _ => negb (sector_index r =? c / element_per_sector) end) eqn:Em.
  - destruct (relax_opt_ok _ _ _ Hs) as (d1 & -> & Hh1 & Hsm1). cbn [obind]. rewrite Elba. destruct (Z.eqb_spec (table x + c / element_per_sector) 0); [done|].
    assert (Hp : page_lba (table x + c / element_per_sector) ∉ F) by (apply Ha; by eexists).
    destruct (dm_get1_ok _ F d1 Hh1 Hp) as (b & d2 & -> & Hs2 & Hsm2 & Hb). cbn [obind].
    assert (Hsm : same d d2) by (by eapply same_trans). assert (Hb' : faults d = [] -> b = true) by (intros E; apply Hb; by apply Hsm1).
    destruct b; do 3 eexists; (split; [done|]); (split; [|split; [done|split; [|done]]]).
    + split; [done|]. intros p [= <-]. cbn. done.
    + intros _. split; [by eexists|done].
    + split; [done|]. done.
    + done.
  - exists true, r, d. split; [done|]. split; [done|]. split; [done|]. split; [|done]. intros _. destruct (fat_sector r) eqn:E; [|done]. bool_norm.
    split; [by rewrite E|done].
Qed.

Lemma fat_ptr_ok x F c r d : reader_ok x F r d -> at_hand c r -> fat_ptr c r = Ok (addr_of (table x) + 4 * c).
Proof.
  intros [Hs Hr] [[p Hp] Hi]. destruct (Hr p Hp) as (Hi' & El & Ep). unfold fat_ptr. rewrite Hp. cbn [deref obind]. unfold dm_data.
  rewrite ensure_true by (by apply Z.eqb_eq). cbn [obind]. f_equal. unfold addr_of, SECTOR_SIZE, element_per_sector in *. rewrite El, Hi. dlia.
Qed.

Lemma fat_upgrade_ok x F r d c : reader_ok x F r d -> at_hand c r -> fat_upgrade r d = Ok tt.
Proof.
  intros [[Hh Hs] Hr] [[p Hp] Hi]. destruct (Hr p Hp) as (Hi' & El & Ep). unfold fat_upgrade. rewrite Hp. cbn [deref obind]. unfold dm_upgrade.
  rewrite ensure_decide by (rewrite Hh, Hp; cbn; set_solver). cbn [obind]. rewrite Ep, Z.eqb_refl, count_one. done.
Qed.

Lemma fat_get_ok x F c r d : layout x -> apart x F -> cluster_ok x c -> reader_ok x F r d ->
  exists v r' d', fat_get x c r d = Ok (v, r', d') /\ reader_ok x F r' d' /\ same d d' /\ (v = 0 \/ v = fat x (bytes d) c) /\ (faults d = [] -> v = fat x (bytes d) c).
Proof.
  intros Hl Ha Hc Hr. unfold fat_get. rewrite ensure_true by (apply Z.leb_le; apply Hc). cbn [obind].
  destruct (fat_load_ok x F c r d Hl Ha Hc Hr) as (b & r' & d' & -> & Hr' & Hs & Hb & Hf). cbn [obind]. destruct b; cbn [negb].
  - rewrite (fat_ptr_ok x F c r' d' Hr' (Hb eq_refl)). cbn [obind]. do 3 eexists. split; [done|]. split; [done|]. split; [done|].
    destruct Hs as [-> _]. split; [by right|done].
  - do 3 eexists. split; [done|]. split; [done|]. split; [done|]. split; [by left|]. intros E. specialize (Hf E). done.
Qed.

Definition fat_set (x : exfat) (c v : Z) (f : Z -> Z) : Z -> Z := store_le 4 v f (addr_of (table x) + 4 * c).

Lemma fat_fat_set x c v f c' : 0 <= v < 2 ^ 32 -> fat x (fat_set x c v f) c' = if c' =? c then v else fat x f c'.
Proof.
  intros Hv. unfold fat, fat_set. destruct (Z.eqb_spec c' c) as [->|Hne].
  - rewrite load_store_same. by apply Z.mod_small.
  - apply load_store_other. lia.
Qed.

Lemma addr_of_le a b : a <= b -> addr_of a <= addr_of b.
Proof. unfold addr_of, SECTOR_SIZE. lia. Qed.

Lemma fat_end x c : layout x -> cluster_ok x c -> addr_of (table x) <= addr_of (table x) + 4 * c /\ addr_of (table x) + 4 * c + 4 <= addr_of (table x + fat_sectors x).
Proof. intros Hl Hc. unfold cluster_ok in Hc. unfold addr_of, SECTOR_SIZE, fat_sectors. dlia. Qed.

Lemma used_fat_set x c v f c' : layout x -> cluster_ok x c -> 2 <= c' -> used x (fat_set x c v f) c' = used x f c'.
Proof.
  intros Hl Hc Hc'. unfold used, fat_set. f_equal. apply store_le_out. right. pose proof (fat_end x c Hl Hc).
  pose proof (addr_of_le _ _ (fat_before_bitmap x Hl)). assert (0 <= (c' - 2) / 8) by dlia. lia.
Qed.

Lemma fat_put_ok x F tail next r d : layout x -> apart x F -> cluster_ok x next -> (tail = 0 \/ cluster_ok x tail) -> reader_ok x F r d ->
  let f := bytes d in let f1 := fat_set x next 0xFFFFFFFF f in
  exists b r' d', fat_put x tail next r d = Ok (b, r', d') /\ reader_ok x F r' d' /\ (faults d = [] -> faults d' = []) /\
    if b : bool then bytes d' = if tail =? 0 then f1 else fat_set x tail next f1
    else (bytes d' = f \/ bytes d' = f1) /\ (faults d = [] -> tail <> 0 /\ fat x f1 tail < 0xFFFFFFF8).
Proof.
  intros Hl Ha Hn Ht Hr f f1. unfold fat_put. rewrite ensure_true by (apply Z.leb_le; apply Hn). cbn [obind].
  destruct (fat_load_ok x F next r d Hl Ha Hn Hr) as (b & r1 & d1 & -> & Hr1 & [Hb1 Hf1] & Hh1 & Hok1). cbn [obind]. destruct b; cbn [negb].
  2:{ exists false, r1, d1. split; [done|]. split; [done|]. split; [done|]. split; [by left|]. intros E. by specialize (Hok1 E). }
  specialize (Hh1 eq_refl). rewrite (fat_ptr_ok x F next r1 d1 Hr1 Hh1). cbn [obind]. rewrite (fat_upgrade_ok x F r1 d1 next Hr1 Hh1). cbn [obind].
  set (d2 := set_bytes _ d1). assert (Hr2 : reader_ok x F r1 d2) by (by apply (reader_same x F r1 d1)).
  assert (Hb2 : bytes d2 = f1) by (unfold d2, f1, fat_set, f; cbn; by rewrite Hb1).
  destruct (Z.eqb_spec tail 0) as [->|Hne].
  { exists true, r1, d2. done. }
  destruct Ht as [->|Ht]; [done|]. rewrite ensure_true by (apply Z.leb_le; apply Ht). cbn [obind].
  destruct (fat_load_ok x F tail r1 d2 Hl Ha Ht Hr2) as (b & r3 & d3 & -> & Hr3 & [Hb3 Hf3] & Hh3 & Hok3). cbn [obind].
  assert (Hff : faults d = [] -> faults d3 = []) by (intros E; apply Hf3; by apply Hf1).
  destruct b; cbn [negb].
  2:{ exists false, r3, d3. split; [done|]. split; [done|]. split; [done|]. split; [right; congruence|]. intros E. assert (faults d2 = []) as E2 by (by apply Hf1). by specialize (Hok3 E2). }
  specialize (Hh3 eq_refl). rewrite (fat_ptr_ok x F tail r3 d3 Hr3 Hh3). cbn [obind]. rewrite Hb3, Hb2. fold (fat x f1 tail).
  destruct (Z.ltb_spec (fat x f1 tail) 0xFFFFFFF8).
  { exists false, r3, d3. split; [done|]. split; [done|]. split; [done|]. split; [right; congruence|done]. }
  rewrite (fat_upgrade_ok x F r3 d3 tail Hr3 Hh3). cbn [obind]. exists true, r3, (set_bytes (fat_set x tail next f1) d3).
  split; [done|]. split; [by apply (reader_same x F r3 d3)|]. split; [done|]. done.
Qed.

Lemma fat_close_ok x F r d : reader_ok x F r d -> exists d', fat_close r d = Ok d' /\ held d' = F /\ same d d'.
Proof. intros [Hs _]. by apply relax_opt_ok. Qed.

(** ** The bitmap *)

Definition apart_bmp (x : exfat) (F : gset Z) : Prop := forall p, bmp_page x p -> p ∉ F.

Definition alloc_ok (x : exfat) (F : gset Z) (al : allocator) (d : disk) : Prop :=
  slots (block al) F d /\
  forall p, block al = Some p -> bitmap x <= block_lba al < bitmap x + bmp_sectors x /\ p = page_lba (block_lba al).

Lemma alloc_new x F d : held d = F -> alloc_ok x F new_allocator d.
Proof. intros Hh. split; [|done]. split; [cbn; set_solver|done]. Qed.

Lemma alloc_same x F al d d' : alloc_ok x F al d -> held d' = held d -> alloc_ok x F al d'.
Proof. intros [[H1 H2] H3] E. split; [|done]. split; [congruence|done]. Qed.

Lemma fetch_ok x F lba al d : layout x -> apart_bmp x F -> bitmap x <= lba < bitmap x + bmp_sectors x -> alloc_ok x F al d ->
  exists b al' d', fetch lba al d = Ok (b, al', d') /\ alloc_ok x F al' d' /\ same d d' /\ (faults d = [] -> b = true) /\
    (b = true -> block_ptr lba al' = Ok (addr_of lba) /\ block_upgrade lba al' d' = Ok tt).
Proof.
  intros Hl Ha Hlba [Hs Hr]. unfold fetch.
  assert (Hready : forall al' d', block al' = Some (page_lba lba) -> slots (block al') F d' -> block_ptr lba al' = Ok (addr_of lba) /\ block_upgrade lba al' d' = Ok tt).
  { intros al' d' E [Hh _]. unfold block_ptr, block_upgrade. rewrite E. cbn [deref obind]. unfold dm_data, dm_upgrade. rewrite Z.eqb_refl. split; [done|].
    rewrite ensure_decide by (rewrite Hh, E; cbn; set_solver). by rewrite count_one. }
  destruct (match block al with None => true | Some _ => negb (block_lba al =? lba) end) eqn:Em.
  - destruct (relax_opt_ok _ _ _ Hs) as (d1 & -> & Hh1 & Hsm1). cbn [obind].
    assert (Hp : page_lba lba ∉ F) by (apply Ha; exists (lba - bitmap x); split; [lia|f_equal; lia]).
    destruct (dm_get1_ok _ F d1 Hh1 Hp) as (b & d2 & -> & Hs2 & Hsm2 & Hb). cbn [obind].
    assert (Hsm : same d d2) by (by eapply same_trans). assert (Hb' : faults d = [] -> b = true) by (intros E; apply Hb; by apply Hsm1).
    destruct b; do 3 eexists; (split; [done|]); (split; [|split; [done|split; [done|]]]).
    + split; [done|]. by intros p [= <-].
    + intros _. by apply Hready.
    + split; [done|]. done.
    + done.
  - exists true, al, d. split; [done|]. split; [done|]. split; [done|]. split; [done|]. intros _. destruct (block al) eqn:E; [|done]. bool_norm.
    destruct (Hr z eq_refl) as [_ Ez]. apply Hready; [|by rewrite E]. rewrite E, Ez. by rewrite Em.
Qed.

Definition word_addr (x : exfat) (i : Z) : Z := addr_of (bitmap x) + 8 * (i / 64).
Definition word (x : exfat) (f : Z -> Z) (i : Z) : Z := load_le 8 f (word_addr x i).

Lemma word_addr_sector x i : 0 <= i -> addr_of (bitmap x + i / bit_per_sector) + 8 * (i mod bit_per_sector / 64) = word_addr x i.
Proof. intros Hi. unfold word_addr, addr_of, SECTOR_SIZE, bit_per_sector. dlia. Qed.

Lemma word_used x f i : bytes_ok f -> 0 <= i -> (Z.land (word x f i) (Z.shiftl 1 (i mod 64)) =? 0) = negb (used x f (i + 2)).
Proof.
  intros Hf Hi. pose proof (Z.mod_pos_bound i 64 ltac:(lia)). rewrite Z.shiftl_1_l, DiskCache.CacheThm.land_bit by lia.
  assert (Et : Z.testbit (word x f i) (i mod 64) = used x f (i + 2)).
  { unfold word. rewrite load_testbit by (try done; lia). unfold used, word_addr. replace (i + 2 - 2) with i by lia.
    replace (addr_of (bitmap x) + 8 * (i / 64) + i mod 64 / 8) with (addr_of (bitmap x) + i / 8) by dlia. f_equal. dlia. }
  rewrite Et. destruct (used x f (i + 2)); [|done]. apply Z.eqb_neq. pose proof (Z.pow_pos_nonneg 2 (i mod 64) ltac:(lia) ltac:(lia)). lia.
Qed.

Lemma used_store x v f i j : bytes_ok f -> 0 <= i -> 0 <= j ->
  used x (store_le 8 v f (word_addr x i)) (j + 2) = if j / 64 =? i / 64 then Z.testbit v (j mod 64) else used x f (j + 2).
Proof.
  intros Hf Hi Hj. unfold used. replace (j + 2 - 2) with j by lia. destruct (Z.eqb_spec (j / 64) (i / 64)) as [E|E].
  - unfold store_le, word_addr.
    destruct (Z.leb_spec (addr_of (bitmap x) + 8 * (i / 64)) (addr_of (bitmap x) + j / 8)); [|dlia].
    destruct (Z.ltb_spec (addr_of (bitmap x) + j / 8) (addr_of (bitmap x) + 8 * (i / 64) + Z.of_nat 8)); [|dlia]. cbn [andb].
    rewrite byte_testbit by dlia. f_equal. dlia.
  - f_equal. apply store_le_out. unfold word_addr. dlia.
Qed.

Lemma fat_store x v f i c : layout x -> cluster_ok x c -> 0 <= i -> fat x (store_le 8 v f (word_addr x i)) c = fat x f c.
Proof.
  intros Hl Hc Hi. unfold fat. apply load_store_other. left. pose proof (fat_end x c Hl Hc). pose proof (addr_of_le _ _ (fat_before_bitmap x Hl)).
  unfold word_addr. assert (0 <= i / 64) by dlia. lia.
Qed.

(** Bit [i] of the bitmap set, or cleared. *)
Definition mark (x : exfat) (i : Z) (f : Z -> Z) : Z -> Z := store_le 8 (Z.lor (word x f i) (Z.shiftl 1 (i mod 64))) f (word_addr x i).
Definition unmark (x : exfat) (i : Z) (f : Z -> Z) : Z -> Z := store_le 8 (Z.land (word x f i) (Z.lnot (Z.shiftl 1 (i mod 64)))) f (word_addr x i).

Lemma word_bit x f i j : bytes_ok f -> 0 <= i -> j / 64 = i / 64 -> Z.testbit (word x f i) (j mod 64) = used x f (j + 2).
Proof.
  intros Hf Hi Hj. unfold word. rewrite load_testbit by (try done; dlia). unfold used, word_addr. replace (j + 2 - 2) with j by lia. f_equal; [f_equal|]; dlia.
Qed.

Lemma shift_bit i j : 0 <= i -> 0 <= j -> Z.testbit (Z.shiftl 1 (i mod 64)) (j mod 64) = (i mod 64 =? j mod 64).
Proof. intros. rewrite Z.shiftl_1_l. apply Z.pow2_bits_eqb. dlia. Qed.

Lemma used_mark x i f c : bytes_ok f -> 0 <= i -> 2 <= c -> used x (mark x i f) c = (c =? i + 2) || used x f c.
Proof.
  intros Hf Hi Hc. replace c with (c - 2 + 2) by lia. set (j := c - 2). unfold mark. rewrite used_store by (try done; lia).
  destruct (Z.eqb_spec (j / 64) (i / 64)) as [E|E].
  - rewrite Z.lor_spec, word_bit, shift_bit by (try done; lia). rewrite orb_comm. f_equal.
    destruct (Z.eqb_spec (i mod 64) (j mod 64)), (Z.eqb_spec (j + 2) (i + 2)); try done; exfalso; dlia.
  - destruct (Z.eqb_spec (j + 2) (i + 2)) as [E2|]; [|done]. exfalso. apply E. f_equal. lia.
Qed.

Lemma used_unmark x i f c : bytes_ok f -> 0 <= i -> 2 <= c -> used x (unmark x i f) c = negb (c =? i + 2) && used x f c.
Proof.
  intros Hf Hi Hc. replace c with (c - 2 + 2) by lia. set (j := c - 2). unfold unmark. rewrite used_store by (try done; lia).
  destruct (Z.eqb_spec (j / 64) (i / 64)) as [E|E].
  - rewrite Z.land_spec, Z.lnot_spec, word_bit, shift_bit by (try done; dlia). rewrite andb_comm. f_equal. f_equal.
    destruct (Z.eqb_spec (i mod 64) (j mod 64)), (Z.eqb_spec (j + 2) (i + 2)); try done; exfalso; dlia.
  - destruct (Z.eqb_spec (j + 2) (i + 2)) as [E2|]; [|done]. exfalso. apply E. f_equal. lia.
Qed.

(** The first free cluster, by its bit, of the bits [l]. *)
Definition free (x : exfat) (f : Z -> Z) (i : Z) : bool := negb (used x f (i + 2)).

Lemma find_app {A} (p : A -> bool) l1 l2 : List.find p (l1 ++ l2) = match List.find p l1 with Some a => Some a | None => List.find p l2 end.
Proof. induction l1 as [|a l1 IH]; cbn; [done|]. by destruct (p a). Qed.

Lemma find_none {A} (p : A -> bool) l : (forall a, a ∈ l -> p a = false) -> List.find p l = None.
Proof. induction l as [|a l IH]; intros H; cbn; [done|]. rewrite (H a) by (by left). apply IH. intros b Hb. apply H. by right. Qed.

Lemma scan_ok x f : bytes_ok f -> cluster_count x < 2 ^ 32 -> forall n pos data, 0 <= pos -> bit_per_sector <= pos mod bit_per_sector + Z.of_nat n ->
  (pos mod 64 <> 0 -> data = word x f pos) ->
  exists pos' found, scan n x (addr_of (bitmap x + pos / bit_per_sector)) pos data f = Ok (pos', found) /\
    (forall i, pos <= i < pos' -> free x f i = false) /\ pos <= pos' <= (pos / bit_per_sector + 1) * bit_per_sector /\
    match found with
    | Some data => pos' < cluster_count x /\ free x f pos' = true /\ data = word x f pos' /\ pos' / bit_per_sector = pos / bit_per_sector
    | None => cluster_count x <= pos' \/ (pos' = (pos / bit_per_sector + 1) * bit_per_sector)
    end.
Proof.
  intros Hf Hcnt. induction n as [|n IH]; intros pos data Hp Hn Hd; cbn [scan].
  { unfold bit_per_sector in *. pose proof (Z.mod_pos_bound pos 4096 ltac:(lia)). lia. }
  destruct (Z.leb_spec (cluster_count x) pos).
  { exists pos, None. split; [done|]. split; [lia|]. split; [unfold bit_per_sector; dlia|by left]. }
  rewrite word_addr_sector by done. set (data' := if pos mod 64 =? 0 then _ else _).
  assert (E : data' = word x f pos) by (unfold data'; destruct (Z.eqb_spec (pos mod 64) 0); [done|by apply Hd]).
  rewrite E, word_used by done. destruct (negb (used x f (pos + 2))) eqn:Eu.
  { exists pos, (Some (word x f pos)). split; [done|]. split; [lia|]. split; [unfold bit_per_sector; dlia|]. by repeat split. }
  rewrite wrap_small by lia. unfold bit_per_sector in *. destruct (Z.eqb_spec ((pos + 1) mod 4096) 0) as [Em|Em].
  - exists (pos + 1), None. split; [done|]. split; [intros i Hi; by replace i with pos by lia|]. split; [dlia|]. right. dlia.
  - replace (pos / 4096) with ((pos + 1) / 4096) by dlia.
    destruct (IH (pos + 1) (word x f pos)) as (pos' & found & -> & Hi & Hle & Hfound); [lia|dlia| |].
    + intros H64. unfold word, word_addr. do 3 f_equal. dlia.
    + exists pos', found. split; [done|]. split; [|split; [lia|done]]. intros i Hi'. destruct (decide (i = pos)) as [->|]; [done|apply Hi; lia].
Qed.

(** The bits that the search for a free cluster visits, in its order: it ends at the beginning of the sector it has begun in. *)
Definition initial (x : exfat) : Z := bmp_last_index x / bit_per_sector * bit_per_sector.
Definition scan_order (x : exfat) : list Z := seqZ (bmp_last_index x) (cluster_count x - bmp_last_index x) ++ seqZ 0 (initial x).

Definition alloc_result (x : exfat) (F : gset Z) (d : disk) (l : list Z) (v : Z) (x' : exfat) (al' : allocator) (d' : disk) : Prop :=
  alloc_ok x F al' d' /\ (faults d = [] -> faults d' = []) /\
  ((v = 0 /\ x' = x /\ bytes d' = bytes d /\ (faults d = [] -> List.find (free x (bytes d)) l = None)) \/
   (exists i, List.find (free x (bytes d)) l = Some i /\ 0 <= i < cluster_count x /\ v = i + 2 /\ x' = set_last i x /\ bytes d' = mark x i (bytes d))).

Lemma seqZ_split a n m : 0 <= n <= m -> seqZ a m = seqZ a n ++ seqZ (a + n) (m - n).
Proof. intros H. replace m with (n + (m - n)) at 1 by lia. by rewrite seqZ_app by lia. Qed.

Lemma find_seqZ_hit x f a m i : (forall j, a <= j < i -> free x f j = false) -> a <= i < a + m -> free x f i = true -> List.find (free x f) (seqZ a m) = Some i.
Proof.
  intros Hn Hi Hf. rewrite (seqZ_split a (i - a) m), find_app by lia. rewrite find_none.
  - replace (a + (i - a)) with i by lia. rewrite seqZ_cons by lia. cbn. by rewrite Hf.
  - intros j Hj. apply elem_of_seqZ in Hj. apply Hn. lia.
Qed.

Lemma find_seqZ_skip x f a m b : (forall j, a <= j < b -> free x f j = false) -> a <= b <= a + m -> List.find (free x f) (seqZ a m) = List.find (free x f) (seqZ b (a + m - b)).
Proof.
  intros Hn Hb. rewrite (seqZ_split a (b - a) m), find_app by lia. rewrite find_none.
  - f_equal. f_equal; lia.
  - intros j Hj. apply elem_of_seqZ in Hj. apply Hn. lia.
Qed.

(** What the search still has to visit from [pos] on, before and after it has gone on at the first bit. *)
Definition rest (x : exfat) (fuel : nat) (pos : Z) (l : list Z) : Prop :=
  (l = seqZ pos (cluster_count x - pos) ++ seqZ 0 (initial x) /\ initial x <= pos /\
     (cluster_count x - pos / bit_per_sector * bit_per_sector + 4095) / 4096 + initial x / 4096 <= Z.of_nat fuel) \/
  (l = seqZ pos (initial x - pos) /\ pos < initial x /\ pos mod 4096 = 0 /\ (initial x - pos) / 4096 <= Z.of_nat fuel).

Lemma initial_range x : layout x -> 0 <= initial x <= bmp_last_index x /\ initial x mod 4096 = 0.
Proof. intros Hl. pose proof (l_last _ Hl). unfold initial, bit_per_sector. split; [dlia|apply Z.mod_mul; lia]. Qed.

Lemma rest_hit x fuel pos l f i : layout x -> rest x fuel pos l -> 0 <= pos <= i -> i < cluster_count x -> i / bit_per_sector = pos / bit_per_sector ->
  (forall j, pos <= j < i -> free x f j = false) -> free x f i = true -> List.find (free x f) l = Some i.
Proof.
  intros Hl Hr Hi Hc Hsec Hn Hf. pose proof (initial_range x Hl) as [_ Hi0]. unfold bit_per_sector in *. destruct Hr as [(-> & Hp & _)|(-> & Hp & Hm & _)].
  - rewrite find_app, (find_seqZ_hit x f pos _ i) by (try done; lia). done.
  - apply find_seqZ_hit; [done| |done]. dlia.
Qed.

Lemma rest_next x fuel pos l f pos' : layout x -> rest x (S fuel) pos l -> 0 <= pos < cluster_count x -> (forall j, pos <= j < pos' -> free x f j = false) -> pos <= pos' <= (pos / bit_per_sector + 1) * bit_per_sector ->
  (cluster_count x <= pos' \/ pos' = (pos / bit_per_sector + 1) * bit_per_sector) ->
  let next := if cluster_count x <=? pos' then 0 else pos' in
  if next =? initial x then List.find (free x f) l = None
  else 0 <= next < cluster_count x /\ exists l', rest x fuel next l' /\ List.find (free x f) l = List.find (free x f) l'.
Proof.
  intros Hl Hr Hp Hn Hle He next. pose proof (initial_range x Hl) as [Hi Hi0]. pose proof (l_last _ Hl). unfold bit_per_sector in *.
  destruct (Z.leb_spec (cluster_count x) pos') as [Hc|Hc]; unfold next; clear next.
  - destruct Hr as [(-> & Hip & Hfl)|(-> & Hip & Hm & Hfl)].
    + assert (E : List.find (free x f) (seqZ pos (cluster_count x - pos) ++ seqZ 0 (initial x)) = List.find (free x f) (seqZ 0 (initial x))).
      { rewrite find_app, find_none; [done|]. intros j Hj. apply elem_of_seqZ in Hj. apply Hn. lia. }
      destruct (Z.eqb_spec 0 (initial x)) as [E0|E0]; [by rewrite E, <- E0|]. split; [lia|]. eexists. split; [|exact E]. right.
      split; [by rewrite Z.sub_0_r|]. unfold bit_per_sector in *. dlia.
    + exfalso. dlia.
  - destruct He as [He|He]; [lia|]. destruct Hr as [(-> & Hip & Hfl)|(-> & Hip & Hm & Hfl)].
    + destruct (Z.eqb_spec pos' (initial x)) as [E0|E0]; [exfalso; dlia|]. split; [lia|]. eexists. split; [|rewrite find_app, (find_seqZ_skip x f pos _ pos') by (try done; lia); rewrite <- find_app; done].
      left. split; [by replace (pos + (cluster_count x - pos) - pos') with (cluster_count x - pos') by lia|]. unfold bit_per_sector in *. split; [dlia|]. subst pos'. rewrite Z.div_mul by lia. dlia.
    + destruct (Z.eqb_spec pos' (initial x)) as [E0|E0].
      { apply find_none. intros j Hj. apply elem_of_seqZ in Hj. apply Hn. lia. }
      split; [lia|]. eexists. split; [|rewrite (find_seqZ_skip x f pos _ pos') by (try done; dlia); done].
      right. split; [by replace (pos + (initial x - pos) - pos') with (initial x - pos') by lia|]. dlia.
Qed.

Lemma alloc_loop_ok x F : layout x -> apart_bmp x F -> forall fuel pos al d l, alloc_ok x F al d -> bytes_ok (bytes d) -> 0 <= pos < cluster_count x ->
  rest x fuel pos l -> exists v x' al' d', alloc_loop fuel (initial x) pos x al d = Ok (v, x', al', d') /\ alloc_result x F d l v x' al' d'.
Proof.
  intros Hl Ha. pose proof (l_count _ Hl) as Hcnt. pose proof (l_bitmap _ Hl) as Hbl. pose proof (l_table _ Hl) as Htab.
  pose proof (fat_before_bitmap x Hl) as Hfb. assert (Hfs : 0 <= fat_sectors x) by (unfold fat_sectors; dlia).
  induction fuel as [|fuel IH]; intros pos al d l Hal Hby Hp Hr.
  { exfalso. pose proof (initial_range x Hl). unfold rest, bit_per_sector in Hr. dlia. }
  cbn [alloc_loop]. assert (Hs : 0 <= pos / bit_per_sector < bmp_sectors x) by (unfold bit_per_sector, bmp_sectors; dlia).
  rewrite wrap_small by lia.
  destruct (fetch_ok x F (bitmap x + pos / bit_per_sector) al d Hl Ha ltac:(lia) Hal) as (b & al1 & d1 & -> & Hal1 & [Hb1 Hf1] & Hok & Hrd). cbn [obind].
  destruct b; cbn [negb].
  2:{ do 4 eexists. split; [done|]. split; [done|]. split; [done|]. left. split; [done|]. split; [done|]. split; [done|]. intros E. by specialize (Hok E). }
  destruct (Hrd eq_refl) as [-> Hup]. cbn [obind]. rewrite word_addr_sector by lia. rewrite Hb1. fold (word x (bytes d) pos).
  destruct (scan_ok x (bytes d) Hby ltac:(lia) (Z.to_nat bit_per_sector) pos (word x (bytes d) pos)) as (pos' & found & -> & Hn & Hle & Hfound); [lia|unfold bit_per_sector; pose proof (Z.mod_pos_bound pos 4096 ltac:(lia)); lia|done|].
  cbn [obind]. destruct found as [data|].
  - destruct Hfound as (Hc & Hfree & -> & Hsec). rewrite Hup. cbn [obind].
    assert (Ea : addr_of (bitmap x + pos / bit_per_sector) + 8 * (pos' mod bit_per_sector / 64) = word_addr x pos') by (rewrite <- Hsec; apply word_addr_sector; lia).
    rewrite Ea. do 4 eexists. split; [done|]. split; [by apply (alloc_same (set_last pos' x) F al1 d1)|]. split; [done|].
    right. exists pos'. split; [apply (rest_hit x (S fuel) pos); (done || lia)|]. split; [lia|]. rewrite wrap_small by lia. split; [done|]. split; [done|]. done.
  - pose proof (rest_next x fuel pos l (bytes d) pos' Hl Hr Hp Hn Hle Hfound) as Hnext. cbn zeta in Hnext.
    destruct (_ =? initial x).
    + do 4 eexists. split; [done|]. split; [done|]. split; [done|]. left. done.
    + destruct Hnext as [Hp' (l' & Hr' & E)]. assert (Hby1 : bytes_ok (bytes d1)) by (by rewrite Hb1).
      destruct (IH _ al1 d1 l' Hal1 Hby1 Hp' Hr') as (v & x' & al' & d' & -> & Hal' & Hff & Hres). do 4 eexists. split; [done|].
      split; [done|]. split; [auto|]. rewrite Hb1, <- E in Hres. destruct Hres as [(-> & -> & -> & Hx)|Hres]; [left|by right]. repeat (split; [done|]). auto.
Qed.

Lemma alloc_get_ok x F al d : layout x -> apart_bmp x F -> alloc_ok x F al d -> bytes_ok (bytes d) ->
  exists v x' al' d', alloc_get x al d = Ok (v, x', al', d') /\ alloc_result x F d (scan_order x) v x' al' d'.
Proof.
  intros Hl Ha Hal Hby. unfold alloc_get. pose proof (l_last _ Hl). pose proof (l_count _ Hl). pose proof (align_down_pow2 32 (bmp_last_index x) 12 ltac:(lia) ltac:(lia)) as E.
  change (2 ^ 12) with bit_per_sector in E. rewrite E. apply alloc_loop_ok; try done. left. split; [done|]. pose proof (initial_range x Hl). split; [lia|].
  unfold sectors, initial, bit_per_sector in *. rewrite Z.div_mul by lia. dlia.
Qed.

(** ** Chains *)

(** The cluster after [c], and the [n]-th one from it, as the FAT has them. *)
Definition next (x : exfat) (f : Z -> Z) (c : Z) : option Z :=
  let v := fat x f c in if (v =? 0) || (0xFFFFFFF8 <=? v) then None else Some v.
Fixpoint chain_at (x : exfat) (f : Z -> Z) (n : nat) (c : Z) : option Z :=
  match n with O => Some c | S n => next x f c ≫= chain_at x f n end.

(** A FAT without wild entries. *)
Definition fat_ok (x : exfat) (f : Z -> Z) : Prop := forall c, cluster_ok x c -> forall v, next x f c = Some v -> cluster_ok x v.

(** The cluster of an index of a file. *)
Definition entry (x : exfat) (f : Z -> Z) (c : cluster_chain) (i : Z) : option Z :=
  if first_cluster c =? 0 then None else chain_at x f (Z.to_nat i) (first_cluster c).

Definition head_ok (x : exfat) (c : cluster_chain) : Prop := first_cluster c = 0 \/ cluster_ok x (first_cluster c).

Definition after (a b : line) : Prop := index b < index a.

Record cache_ok (x : exfat) (f : Z -> Z) (c : cluster_chain) : Prop := {
  k_lines : Forall (fun l => 0 < index l < 2 ^ 32 /\ entry x f c (index l) = Some (cluster l)) (cache_line c);
  k_sorted : StronglySorted after (cache_line c);
  k_lru : lru_queue c ≡ₚ index <$> cache_line c;
  k_limit : Z.of_nat (length (lru_queue c)) <= limit
}.

Lemma chain_at_add x f n m c : chain_at x f (n + m) c = chain_at x f n c ≫= chain_at x f m.
Proof. revert c. induction n as [|n IH]; intros c; [done|]. cbn. destruct (next x f c) as [v|]; cbn; [apply IH|done]. Qed.

Lemma chain_at_S x f n c : chain_at x f (S n) c = chain_at x f n c ≫= next x f.
Proof. rewrite <- Nat.add_1_r, chain_at_add. destruct (chain_at x f n c) as [v|]; cbn; [|done]. by destruct (next x f v). Qed.

Lemma chain_at_ok x f n c v : fat_ok x f -> cluster_ok x c -> chain_at x f n c = Some v -> cluster_ok x v.
Proof.
  intros Hf. revert c. induction n as [|n IH]; intros c Hc; cbn; [by intros [= <-]|]. destruct (next x f c) as [w|] eqn:E; cbn; [|done].
  apply IH. by apply (Hf c).
Qed.

Lemma cluster_ok_pos x c : cluster_ok x c -> (c =? 0) = false.
Proof. unfold cluster_ok. intros. apply Z.eqb_neq. lia. Qed.

Lemma follow_ok x F : layout x -> apart x F -> forall n cur r d, fat_ok x (bytes d) -> cluster_ok x (cluster cur) -> 0 <= index cur -> index cur + Z.of_nat n < 2 ^ 32 ->
  reader_ok x F r d -> exists res r' d', follow n x cur r d = Ok (res, r', d') /\ reader_ok x F r' d' /\ same d d' /\
    match res with
    | Some l => index l = index cur + Z.of_nat n /\ chain_at x (bytes d) n (cluster cur) = Some (cluster l)
    | None => faults d = [] -> chain_at x (bytes d) n (cluster cur) = None
    end.
Proof.
  intros Hl Ha. induction n as [|n IH]; intros cur r d Hf Hc Hi Hb Hr; cbn [follow].
  { exists (Some cur), r, d. split; [done|]. split; [done|]. split; [done|]. split; [lia|done]. }
  destruct (fat_get_ok x F (cluster cur) r d Hl Ha Hc Hr) as (v & r1 & d1 & -> & Hr1 & Hs1 & Hv & Hok). cbn [obind].
  destruct ((v =? 0) || (0xFFFFFFF8 <=? v)) eqn:Ev.
  { exists None, r1, d1. split; [done|]. split; [done|]. split; [done|]. intros E. specialize (Hok E). subst v. cbn. unfold next. by rewrite Ev. }
  assert (Hv' : v = fat x (bytes d) (cluster cur)) by (destruct Hv as [->|]; done). assert (En : next x (bytes d) (cluster cur) = Some v) by (unfold next; by rewrite <- Hv', Ev).
  rewrite wrap_small by lia. destruct Hs1 as [Hb1 Hf1].
  destruct (IH (Line (index cur + 1) v) r1 d1) as (res & r2 & d2 & -> & Hr2 & Hs2 & Hres); [by rewrite Hb1|by apply (Hf (cluster cur))|cbn; lia|cbn; lia|done|].
  exists res, r2, d2. split; [done|]. split; [done|]. split; [by eapply same_trans|]. cbn [index cluster] in Hres. rewrite Hb1 in Hres. cbn [chain_at]. rewrite En. cbn.
  destruct res as [l|]; [destruct Hres; split; [lia|done]|auto].
Qed.

Lemma place_ok i ls : StronglySorted after ls -> Forall (fun l => 0 < index l) ls -> i ∉ index <$> ls ->
  exists pre post, place i ls = Ok (pre, head post, post) /\ ls = pre ++ post /\ Forall (fun l => i < index l) pre /\ Forall (fun l => index l < i) post.
Proof.
  intros Hs Hp Hi. induction ls as [|l ls IH]; cbn [place].
  { by exists [], []. }
  inversion Hs as [|? ? Hs' Hal]; subst. inversion Hp; subst. cbn in Hi. apply not_elem_of_cons in Hi as [Hne Hi].
  rewrite ensure_true by (apply negb_true_iff, Z.eqb_neq; lia). cbn [obind]. destruct (Z.ltb_spec (index l) i).
  - exists [], (l :: ls). split; [done|]. split; [done|]. split; [done|]. constructor; [done|]. eapply Forall_impl; [exact Hal|]. unfold after. intros m Hm. lia.
  - destruct IH as (pre & post & -> & -> & Hpre & Hpost); [done|done|done|]. exists (l :: pre), post. split; [done|]. split; [done|]. split; [|done].
    constructor; [lia|done].
Qed.

Lemma check_lines_ok prev ls : StronglySorted after ls -> Forall (fun l => 0 < index l) ls -> (prev = 0 \/ Forall (fun l => index l < prev) ls) -> check_lines prev ls = true.
Proof.
  revert prev. induction ls as [|l ls IH]; intros prev Hs Hp Hprev; cbn; [done|]. inversion Hs as [|? ? Hs' Hal]; subst. inversion Hp; subst.
  rewrite truth_pos by done. rewrite IH; [|done|done|by right]. rewrite andb_true_r. cbn. destruct Hprev as [->|Hf]; [done|]. inversion Hf; subst.
  apply orb_true_iff. right. by apply Z.ltb_lt.
Qed.

Lemma forall_filter {A} (P : A -> Prop) p l : Forall P l -> Forall P (List.filter p l).
Proof. induction 1; cbn; [done|]. case_if; [by constructor|done]. Qed.

Lemma ssorted_filter {A} (R : A -> A -> Prop) p l : StronglySorted R l -> StronglySorted R (List.filter p l).
Proof. induction 1; cbn; [constructor|]. case_if; [|done]. constructor; [done|]. by apply forall_filter. Qed.

Lemma fmap_filter {A B} (g : A -> B) (p : B -> bool) l : g <$> List.filter (fun a => p (g a)) l = List.filter p (g <$> l).
Proof. induction l as [|a l IH]; cbn; [done|]. destruct (p (g a)); cbn; by rewrite IH. Qed.

#[local] Instance filter_perm {A} (p : A -> bool) : Proper (Permutation ==> Permutation) (List.filter p).
Proof.
  intros l l' H. induction H; cbn; [done| | |by etrans]; repeat case_if; try done; by constructor.
Qed.

Lemma filter_out {A} (p : A -> bool) l : (forall a, a ∈ l -> p a = true) -> List.filter p l = l.
Proof. induction l as [|a l IH]; intros H; cbn; [done|]. rewrite H by (by left). f_equal. apply IH. intros b Hb. apply H. by right. Qed.

Lemma trim_ok (P : line -> Prop) n : forall lines lru, lru ≡ₚ index <$> lines -> NoDup lru -> StronglySorted after lines -> Forall P lines ->
  exists lines' lru', trim n lines lru = (lines', lru') /\ lru' ≡ₚ index <$> lines' /\ NoDup lru' /\ StronglySorted after lines' /\ Forall P lines' /\
    (Z.of_nat (length lru) <= limit + Z.of_nat n -> Z.of_nat (length lru') <= limit).
Proof.
  induction n as [|n IH]; intros lines lru Hp Hn Hs Hf; cbn [trim].
  { exists lines, lru. repeat (split; [done|]). lia. }
  destruct (Z.ltb_spec limit (Z.of_nat (length lru))).
  2:{ exists lines, lru. repeat (split; [done|]). lia. }
  destruct lru as [|i lru _] using rev_ind; [cbn in *; unfold limit in *; lia|]. rewrite last_snoc, removelast_last.
  assert (Hi : i ∉ lru) by (apply NoDup_app in Hn as (_ & Hd & _); intros Hin; apply (Hd i Hin); by left).
  assert (Hn' : NoDup lru) by (by apply NoDup_app in Hn as (? & _)).
  destruct (IH (List.filter (fun l => negb (index l =? i)) lines) lru) as (l' & q' & -> & Hp' & Hnd & Hs' & Hf' & Hlen).
  - rewrite (fmap_filter index (fun j => negb (j =? i))), <- Hp, List.filter_app. cbn. rewrite Z.eqb_refl. cbn. rewrite app_nil_r.
    rewrite filter_out; [done|]. intros j Hj. apply negb_true_iff, Z.eqb_neq. by intros ->.
  - done.
  - by apply ssorted_filter.
  - by apply forall_filter.
  - exists l', q'. repeat (split; [done|]). rewrite length_app. cbn. lia.
Qed.

Lemma line_of_ok i ls : i ∈ index <$> ls -> exists l, line_of i ls = Some l /\ l ∈ ls /\ index l = i.
Proof.
  intros Hi. apply list_elem_of_fmap in Hi as (l & -> & Hl). unfold line_of. destruct (list_find (fun m => index m = index l) ls) as [[j m]|] eqn:E.
  - apply list_find_Some in E as (Ej & Em & _). exists m. split; [done|]. split; [by eapply list_elem_of_lookup_2|done].
  - exfalso. apply list_find_None in E. rewrite Forall_forall in E. by apply (E l).
Qed.

Lemma lines_nodup ls : StronglySorted after ls -> NoDup (index <$> ls).
Proof.
  induction 1 as [|l ls Hs IH Hal]; cbn; [constructor|]. constructor; [|done]. intros Hin. apply list_elem_of_fmap in Hin as (m & E & Hm).
  rewrite Forall_forall in Hal. specialize (Hal m Hm). unfold after in Hal. lia.
Qed.

Lemma entry_add x f c i j v : first_cluster c <> 0 -> 0 <= i <= j -> entry x f c i = Some v -> entry x f c j = chain_at x f (Z.to_nat (j - i)) v.
Proof.
  intros Hz Hij. unfold entry. destruct (Z.eqb_spec (first_cluster c) 0); [done|]. intros E. replace (Z.to_nat j) with (Z.to_nat i + Z.to_nat (j - i))%nat by lia.
  by rewrite chain_at_add, E.
Qed.

Lemma entry_ok x f c i v : fat_ok x f -> head_ok x c -> entry x f c i = Some v -> cluster_ok x v.
Proof.
  intros Hf Hh. unfold entry. destruct (Z.eqb_spec (first_cluster c) 0); [done|]. apply chain_at_ok; [done|]. by destruct Hh.
Qed.

(** A new line in its place keeps the cache in order. *)
Lemma insert_line_ok x f c pre post l : cache_ok x f c -> cache_line c = pre ++ post -> Forall (fun m => index l < index m) pre -> Forall (fun m => index m < index l) post ->
  0 < index l < 2 ^ 32 -> entry x f c (index l) = Some (cluster l) ->
  let lines := pre ++ l :: post in let lru := index l :: lru_queue c in
  check_lines 0 lines = true /\ exists lines' lru', trim (length lru) lines lru = (lines', lru') /\ length lru' = length lines' /\
    cache_ok x f (Chain (first_cluster c) lines' lru' (linear c)).
Proof.
  intros [Hk Hs Hq Hlim] E Hpre Hpost Hi He lines lru. rewrite E in *. apply ssorted_app in Hs as (Hs1 & Hs2 & Hs3). apply Forall_app in Hk as [Hk1 Hk2].
  assert (Hsl : StronglySorted after lines).
  { apply ssorted_app. split; [done|]. split.
    - constructor; [done|]. exact Hpost.
    - intros a b Ha Hb. apply elem_of_cons in Hb as [->|Hb]; [|by apply Hs3]. rewrite Forall_forall in Hpre. by apply Hpre. }
  assert (Hkl : Forall (fun l => 0 < index l < 2 ^ 32 /\ entry x f c (index l) = Some (cluster l)) lines) by (apply Forall_app; split; [done|by constructor]).
  split. { apply check_lines_ok; [done| |by left]. eapply Forall_impl; [exact Hkl|]. cbn. intros m Hm. lia. }
  destruct (trim_ok (fun l => 0 < index l < 2 ^ 32 /\ entry x f c (index l) = Some (cluster l)) (length lru) lines lru) as (l' & q' & -> & Hp' & _ & Hs' & Hf' & Hlen); try done.
  - unfold lru, lines. rewrite Hq, !fmap_app. cbn. by rewrite Permutation_middle.
  - unfold lru. rewrite Hq. pose proof (lines_nodup lines Hsl) as Hn. unfold lines in Hn. rewrite fmap_app in *. cbn in Hn. by rewrite <- Permutation_middle in Hn.
  - do 2 eexists. split; [done|]. split; [rewrite Hp'; apply length_fmap|]. constructor; cbn; try done.
    apply Hlen. unfold lru. cbn [length]. unfold limit. lia.
Qed.

Lemma touch_ok x f c i : cache_ok x f c -> i ∈ lru_queue c -> cache_ok x f (Chain (first_cluster c) (cache_line c) (i :: List.filter (fun j => negb (j =? i)) (lru_queue c)) (linear c)).
Proof.
  intros [Hk Hs Hq Hlim] Hi. assert (Hp : i :: List.filter (fun j => negb (j =? i)) (lru_queue c) ≡ₚ lru_queue c).
  { assert (Hn : NoDup (lru_queue c)) by (rewrite Hq; by apply lines_nodup). apply list_elem_of_split in Hi as (l1 & l2 & E). rewrite E in *.
    apply NoDup_app in Hn as (_ & Hd & Hn2). apply NoDup_cons in Hn2 as [Hi2 _]. rewrite List.filter_app. cbn. rewrite Z.eqb_refl. cbn.
    rewrite !filter_out; [by rewrite Permutation_middle| |]; intros j Hj; apply negb_true_iff, Z.eqb_neq; intros ->; [done|]. apply (Hd i Hj). by left. }
  constructor; cbn [cache_line lru_queue]; [done|done|by rewrite Hp|by rewrite Hp].
Qed.

Lemma chain_get_ok x F c i d : layout x -> apart x F -> fat_ok x (bytes d) -> held d = F -> head_ok x c -> linear c = false -> cache_ok x (bytes d) c -> 0 <= i < 2 ^ 32 ->
  exists v c' d', chain_get x i c d = Ok (v, c', d') /\ held d' = F /\ same d d' /\ first_cluster c' = first_cluster c /\ linear c' = false /\
    cache_ok x (bytes d) c' /\ (v = 0 \/ entry x (bytes d) c i = Some v) /\ (faults d = [] -> v = default 0 (entry x (bytes d) c i)).
Proof.
  intros Hl Ha Hf Hh Hhd Hlin Hk Hi. unfold chain_get.
  destruct (Z.eqb_spec (first_cluster c) 0) as [E0|E0].
  { exists 0, c, d. repeat (split; [done|]). split; [by left|]. intros _. unfold entry. by rewrite E0. }
  rewrite Hlin. assert (Hc : cluster_ok x (first_cluster c)) by (by destruct Hhd).
  assert (He0 : entry x (bytes d) c 0 = Some (first_cluster c)) by (unfold entry; destruct (Z.eqb_spec (first_cluster c) 0); done).
  destruct (Z.eqb_spec i 0) as [->|Hi0].
  { exists (first_cluster c), c, d. repeat (split; [done|]). rewrite He0. split; [by right|done]. }
  destruct (bool_decide (i ∈ lru_queue c)) eqn:Eq.
  { bool_norm. destruct (line_of_ok i (cache_line c)) as (l & -> & Hin & El); [by rewrite <- (k_lru _ _ _ Hk)|]. cbn [deref obind].
    pose proof (k_lines _ _ _ Hk) as Hfl. rewrite Forall_forall in Hfl. destruct (Hfl l Hin) as [_ He]. rewrite El in He.
    do 3 eexists. split; [done|]. repeat (split; [done|]). split; [pose proof (touch_ok x _ c i Hk Eq) as Ht; by rewrite Hlin in Ht|]. rewrite He. split; [by right|done]. }
  bool_norm. assert (Hpos : Forall (fun l => 0 < index l) (cache_line c)) by (eapply Forall_impl; [exact (k_lines _ _ _ Hk)|]; cbn; intros m Hm; lia).
  destruct (place_ok i (cache_line c) (k_sorted _ _ _ Hk) Hpos) as (pre & post & -> & E & Hpre & Hpost); [by rewrite <- (k_lru _ _ _ Hk)|]. cbn [obind].
  set (cur := default (Line 0 (first_cluster c)) (head post)).
  assert (Hcur : 0 <= index cur < i /\ entry x (bytes d) c (index cur) = Some (cluster cur)).
  { unfold cur. destruct post as [|l post]; cbn; [split; [lia|done]|]. pose proof (k_lines _ _ _ Hk) as Hfl. rewrite E in Hfl. apply Forall_app in Hfl as [_ Hfl].
    inversion Hfl as [|? ? [Hx1 Hx2] _]; subst. inversion Hpost; subst. split; [lia|done]. }
  destruct Hcur as [Hci Hce]. assert (Hnew : reader_ok x F new_reader d) by (by apply reader_new).
  destruct (follow_ok x F Hl Ha (Z.to_nat (i - index cur)) cur new_reader d) as (res & r & d1 & -> & Hr & Hs & Hres); [done|by eapply entry_ok|lia|lia|done|]. cbn [obind].
  destruct (fat_close_ok x F r d1 Hr) as (d2 & -> & Hh2 & Hs2). cbn [obind]. assert (Hsm : same d d2) by (by eapply same_trans).
  rewrite <- (entry_add x (bytes d) c (index cur) i (cluster cur)) in Hres by (done || lia). destruct res as [l|].
  2:{ exists 0, c, d2. repeat (split; [done|]). split; [by left|]. intros Ef. by rewrite Hres. }
  destruct Hres as [Eil Hel]. replace (index cur + Z.of_nat (Z.to_nat (i - index cur))) with i in Eil by lia. rewrite ensure_true by (by apply Z.eqb_eq). cbn [obind].
  destruct (insert_line_ok x (bytes d) c pre post l Hk E) as (Hck & lines' & lru' & Ht & Hlen & Hk'); [by rewrite Eil|by rewrite Eil|lia|by rewrite Eil|].
  rewrite Hlin in Hk'. rewrite ensure_true by exact Hck. cbn [obind]. rewrite Ht. rewrite ensure_decide by done. cbn [obind].
  do 3 eexists. split; [done|]. repeat (split; [done|]). rewrite Hel. split; [by right|done].
Qed.

(** ** Growing a chain *)

(** Both the FAT and the bitmap are at hand. *)
Record both (x : exfat) (F : gset Z) (r : fat_reader) (al : allocator) (d : disk) : Prop := {
  b_held : held d = hold (fat_sector r) ∪ (hold (block al) ∪ F);
  b_fat : forall p, fat_sector r = Some p -> p ∉ F /\ 0 <= sector_index r < fat_sectors x /\ sector_lba r = table x + sector_index r /\ p = page_lba (sector_lba r);
  b_bmp : forall p, block al = Some p -> p ∉ F /\ bitmap x <= block_lba al < bitmap x + bmp_sectors x /\ p = page_lba (block_lba al)
}.

Lemma both_apart x F r al d : layout x -> both x F r al d -> forall p q, fat_sector r = Some p -> block al = Some q -> p <> q.
Proof.
  intros Hl Hb p q Hp Hq. destruct (b_fat _ _ _ _ _ Hb p Hp) as (_ & Hi & El & ->). destruct (b_bmp _ _ _ _ _ Hb q Hq) as (_ & Hi' & ->).
  apply (pages_apart x); [done| |].
  - exists (sector_index r). split; [done|by rewrite El].
  - exists (block_lba al - bitmap x). split; [lia|f_equal; lia].
Qed.

Lemma both_reader x F r al d : layout x -> apart x F -> both x F r al d -> reader_ok x (hold (block al) ∪ F) r d /\ apart x (hold (block al) ∪ F).
Proof.
  intros Hl Ha Hb. split.
  - split; [split; [apply Hb|]|].
    + intros p Hp. destruct (b_fat _ _ _ _ _ Hb p Hp) as (Hn & _). apply not_elem_of_union. split; [|done].
      destruct (block al) as [q|] eqn:Eq; cbn; [|set_solver]. apply not_elem_of_singleton. by eapply both_apart.
    + intros p Hp. by destruct (b_fat _ _ _ _ _ Hb p Hp) as (_ & ?).
  - intros p Hp. apply not_elem_of_union. split; [|by apply Ha]. destruct (block al) as [q|] eqn:Eq; cbn; [|set_solver].
    apply not_elem_of_singleton. apply (pages_apart x); [done|done|]. destruct (b_bmp _ _ _ _ _ Hb q Eq) as (_ & Hi' & ->).
    exists (block_lba al - bitmap x). split; [lia|f_equal; lia].
Qed.

Lemma both_alloc x F r al d : layout x -> apart_bmp x F -> both x F r al d -> alloc_ok x (hold (fat_sector r) ∪ F) al d /\ apart_bmp x (hold (fat_sector r) ∪ F).
Proof.
  intros Hl Ha Hb. split.
  - split; [split|].
    + rewrite (b_held _ _ _ _ _ Hb). set_solver.
    + intros p Hp. destruct (b_bmp _ _ _ _ _ Hb p Hp) as (Hn & _). apply not_elem_of_union. split; [|done].
      destruct (fat_sector r) as [q|] eqn:Eq; cbn; [|set_solver]. apply not_elem_of_singleton. intros ->. by eapply both_apart.
    + intros p Hp. by destruct (b_bmp _ _ _ _ _ Hb p Hp) as (_ & ?).
  - intros p Hp. apply not_elem_of_union. split; [|by apply Ha]. destruct (fat_sector r) as [q|] eqn:Eq; cbn; [|set_solver].
    apply not_elem_of_singleton. intros ->. destruct (b_fat _ _ _ _ _ Hb q Eq) as (_ & Hi & El & E). apply (pages_apart x q q Hl); [|done|done].
    exists (sector_index r). split; [done|by rewrite E, El].
Qed.

Lemma reader_both x F r al d r' d' : both x F r al d -> reader_ok x (hold (block al) ∪ F) r' d' -> both x F r' al d'.
Proof.
  intros Hb [[Hh Hn] Hm]. constructor; [done| |apply Hb]. intros p Hp. specialize (Hn p Hp). apply not_elem_of_union in Hn as [_ Hn]. split; [done|by apply Hm].
Qed.

Lemma alloc_both x F r al d al' d' : both x F r al d -> alloc_ok x (hold (fat_sector r) ∪ F) al' d' -> both x F r al' d'.
Proof.
  intros Hb [[Hh Hn] Hm]. constructor; [rewrite Hh; set_solver|apply Hb|]. intros p Hp. specialize (Hn p Hp). apply not_elem_of_union in Hn as [_ Hn]. split; [done|by apply Hm].
Qed.

(** Every cluster of the file is marked in the bitmap. *)
Definition marked (x : exfat) (f : Z -> Z) (c : cluster_chain) : Prop := forall i v, 0 <= i -> entry x f c i = Some v -> used x f v = true.

Record volume_ok (x : exfat) (f : Z -> Z) (c : cluster_chain) : Prop := {
  v_bytes : bytes_ok f;
  v_fat : fat_ok x f;
  v_head : head_ok x c;
  v_marked : marked x f c
}.

(** What growing a file leaves alone: the contents of clusters, the entries of clusters that were in use before, but for that of the
    last cluster [t] of the file. *)
Record grown (x : exfat) (t : Z) (f f' : Z -> Z) : Prop := {
  g_fat : forall v, cluster_ok x v -> used x f v = true -> v <> t -> fat x f' v = fat x f v;
  g_used : forall v, cluster_ok x v -> used x f v = true -> used x f' v = true;
  g_out : forall a, ~ addr_of (table x) <= a < addr_of (table x + fat_sectors x) -> ~ addr_of (bitmap x) <= a < addr_of (bitmap x + bmp_sectors x) -> f' a = f a
}.

Lemma grown_refl x t f : grown x t f f.
Proof. by constructor. Qed.

Lemma grown_trans x t u f g h : grown x t f g -> grown x u g h -> (u = t \/ ~ cluster_ok x u \/ used x f u = false) -> grown x t f h.
Proof.
  intros [H1 H2 H3] [G1 G2 G3] Hu. constructor.
  - intros v Hv Huv Hne. rewrite G1; [by apply H1|done|by apply H2|]. intros ->. destruct Hu as [->|[?|?]]; [done|done|congruence].
  - auto.
  - intros a Ha Hb. rewrite G3 by done. by apply H3.
Qed.

Lemma out_mark x i f a : layout x -> 0 <= i < cluster_count x -> ~ addr_of (bitmap x) <= a < addr_of (bitmap x + bmp_sectors x) -> mark x i f a = f a.
Proof. intros Hl Hi Ha. apply store_le_out. unfold word_addr, addr_of, SECTOR_SIZE, bmp_sectors in *. dlia. Qed.

Lemma out_fat_set x c v f a : layout x -> cluster_ok x c -> ~ addr_of (table x) <= a < addr_of (table x + fat_sectors x) -> fat_set x c v f a = f a.
Proof. intros Hl Hc Ha. apply store_le_out. pose proof (fat_end x c Hl Hc). lia. Qed.

Lemma entry_prefix x f c i j v : first_cluster c <> 0 -> 0 <= i <= j -> entry x f c j = Some v -> exists w, entry x f c i = Some w.
Proof.
  intros Hz Hij He. destruct (entry x f c i) as [w|] eqn:E; [by exists w|]. unfold entry in *. destruct (Z.eqb_spec (first_cluster c) 0); [done|].
  replace (Z.to_nat j) with (Z.to_nat i + Z.to_nat (j - i))%nat in He by lia. by rewrite chain_at_add, E in He.
Qed.

Lemma entry_next x f c i : first_cluster c <> 0 -> 0 <= i -> entry x f c (i + 1) = entry x f c i ≫= next x f.
Proof.
  intros Hz Hi. unfold entry. destruct (Z.eqb_spec (first_cluster c) 0); [done|]. replace (Z.to_nat (i + 1)) with (S (Z.to_nat i)) by lia. by rewrite chain_at_S.
Qed.

(** Entries that lead nowhere can be changed without changing the chain. *)
Lemma entry_frame x f f' c : volume_ok x f c -> (forall v, cluster_ok x v -> used x f v = true -> fat x f' v = fat x f v) ->
  forall i, 0 <= i -> entry x f' c i = entry x f c i.
Proof.
  intros Hv Hf. destruct (decide (first_cluster c = 0)) as [E0|E0]; [intros i _; unfold entry; by rewrite E0|].
  apply (natlike_ind (fun i => entry x f' c i = entry x f c i)).
  - unfold entry. by destruct (_ =? 0).
  - intros i Hi IH. rewrite <- Z.add_1_r, !entry_next, IH by done. destruct (entry x f c i) as [w|] eqn:E; [|done]. cbn. unfold next.
    rewrite Hf; [done|by eapply entry_ok; [apply Hv|apply Hv|]|by apply (v_marked _ _ _ Hv i)].
Qed.

Definition EOC : Z := 0xFFFFFFFF.

(** A free cluster [nx] has been marked and made an end of chain; and it has been hung behind [tail]. *)
Definition fresh (x : exfat) (nx : Z) (f : Z -> Z) : Z -> Z := fat_set x nx EOC (mark x (nx - 2) f).
Definition linked (x : exfat) (tail nx : Z) (f : Z -> Z) : Z -> Z := fat_set x tail nx (fresh x nx f).

Lemma fresh_effect x nx f : layout x -> bytes_ok f -> cluster_ok x nx -> bytes_ok (fresh x nx f) /\
  (forall v, cluster_ok x v -> fat x (fresh x nx f) v = if v =? nx then EOC else fat x f v) /\
  (forall v, cluster_ok x v -> used x (fresh x nx f) v = (v =? nx) || used x f v) /\
  (forall a, ~ addr_of (table x) <= a < addr_of (table x + fat_sectors x) -> ~ addr_of (bitmap x) <= a < addr_of (bitmap x + bmp_sectors x) -> fresh x nx f a = f a).
Proof.
  intros Hl Hb Hn. pose proof Hn as [Hn2 Hn3]. split; [by repeat apply bytes_ok_store|]. split; [|split].
  - intros v Hv. unfold fresh. rewrite fat_fat_set by (unfold EOC; lia). destruct (v =? nx); [done|]. apply fat_store; [done|done|lia].
  - intros v [Hv Hv2]. unfold fresh. rewrite used_fat_set, used_mark by (try done; lia). by replace (nx - 2 + 2) with nx by lia.
  - intros a Ha1 Ha2. unfold fresh. rewrite out_fat_set by done. apply out_mark; [done|lia|done].
Qed.

Lemma linked_effect x tail nx f : layout x -> bytes_ok f -> cluster_ok x nx -> cluster_ok x tail -> bytes_ok (linked x tail nx f) /\
  (forall v, cluster_ok x v -> fat x (linked x tail nx f) v = if v =? tail then nx else if v =? nx then EOC else fat x f v) /\
  (forall v, cluster_ok x v -> used x (linked x tail nx f) v = (v =? nx) || used x f v) /\
  (forall a, ~ addr_of (table x) <= a < addr_of (table x + fat_sectors x) -> ~ addr_of (bitmap x) <= a < addr_of (bitmap x + bmp_sectors x) -> linked x tail nx f a = f a).
Proof.
  intros Hl Hb Hn Ht. destruct (fresh_effect x nx f Hl Hb Hn) as (H1 & H2 & H3 & H4). pose proof (l_count _ Hl). split; [by apply bytes_ok_store|]. split; [|split].
  - intros v Hv. unfold linked. rewrite fat_fat_set by (unfold cluster_ok in *; lia). destruct (v =? tail); [done|]. by apply H2.
  - intros v [Hv Hv2]. unfold linked. rewrite used_fat_set by done. by apply H3.
  - intros a Ha1 Ha2. unfold linked. rewrite out_fat_set by done. by apply H4.
Qed.

Lemma next_eoc x f v : fat x f v = EOC -> next x f v = None.
Proof. unfold next. by intros ->. Qed.

Lemma next_end x f v : 0xFFFFFFF8 <= fat x f v -> next x f v = None.
Proof. intros H. unfold next. apply Z.leb_le in H. by rewrite H, orb_true_r. Qed.

Lemma next_cluster x f v w : layout x -> cluster_ok x w -> fat x f v = w -> next x f v = Some w.
Proof.
  intros Hl [Hw Hw2] E. pose proof (l_count _ Hl). unfold next. rewrite E. destruct (Z.eqb_spec w 0), (Z.leb_spec 0xFFFFFFF8 w); cbn; try done; lia.
Qed.

(** A change after which every entry is the old one, an end, or a cluster. *)
Lemma fat_ok_change x f f' : fat_ok x f -> (forall v, cluster_ok x v -> fat x f' v = fat x f v \/ fat x f' v = EOC \/ cluster_ok x (fat x f' v)) -> fat_ok x f'.
Proof.
  intros Hf H v Hv w. destruct (H v Hv) as [E|[E|E]].
  - unfold next. rewrite E. by apply Hf.
  - by rewrite (next_eoc x f' v E).
  - unfold next. destruct (_ || _); [done|]. by intros [= <-].
Qed.

Lemma fresh_volume x f c nx t : layout x -> volume_ok x f c -> cluster_ok x nx -> used x f nx = false ->
  volume_ok x (fresh x nx f) c /\ grown x t f (fresh x nx f) /\ (forall i, 0 <= i -> entry x (fresh x nx f) c i = entry x f c i).
Proof.
  intros Hl Hv Hn Hu. destruct (fresh_effect x nx f Hl (v_bytes _ _ _ Hv) Hn) as (H1 & H2 & H3 & H4).
  assert (Hsame : forall v, cluster_ok x v -> used x f v = true -> fat x (fresh x nx f) v = fat x f v).
  { intros v Hv' Huv. rewrite H2 by done. destruct (Z.eqb_spec v nx) as [->|]; [congruence|done]. }
  pose proof (entry_frame x f _ c Hv Hsame) as He. split; [|split; [|done]].
  - constructor; [done| |apply Hv|].
    + apply (fat_ok_change x f); [apply Hv|]. intros v Hv'. rewrite H2 by done. destruct (v =? nx); auto.
    + intros i v Hi Hev. rewrite He in Hev by done. rewrite H3 by (by eapply entry_ok; [apply Hv|apply Hv|]). rewrite (v_marked _ _ _ Hv i v) by done. apply orb_true_r.
  - constructor; [auto| |auto]. intros v Hv' Huv. rewrite H3 by done. by rewrite Huv, orb_true_r.
Qed.

Lemma first_volume x f c nx t : layout x -> volume_ok x f c -> cluster_ok x nx -> used x f nx = false ->
  volume_ok x (fresh x nx f) (set_first nx c) /\ grown x t f (fresh x nx f) /\ entry x (fresh x nx f) (set_first nx c) 0 = Some nx /\ fat x (fresh x nx f) nx = EOC.
Proof.
  intros Hl Hv Hn Hu. destruct (fresh_effect x nx f Hl (v_bytes _ _ _ Hv) Hn) as (H1 & H2 & H3 & H4). destruct (fresh_volume x f c nx t Hl Hv Hn Hu) as (Hv' & Hg & _).
  assert (E : fat x (fresh x nx f) nx = EOC) by (rewrite H2, Z.eqb_refl by done; done).
  assert (E0 : entry x (fresh x nx f) (set_first nx c) 0 = Some nx) by (unfold entry, set_first; cbn; by rewrite (cluster_ok_pos x nx)).
  split; [|done]. constructor; [done|apply Hv'|by right|]. intros i v Hi He. unfold entry, set_first in He. cbn in He. rewrite (cluster_ok_pos x nx Hn) in He.
  destruct (Z.to_nat i) as [|n]; cbn in He; [injection He as <-; rewrite H3 by done; by rewrite Z.eqb_refl|]. by rewrite (next_eoc _ _ _ E) in He.
Qed.

Lemma linked_volume x f c tail nx t : layout x -> volume_ok x f c -> cluster_ok x nx -> used x f nx = false -> first_cluster c <> 0 -> 0 <= t ->
  entry x f c t = Some tail -> 0xFFFFFFF8 <= fat x f tail ->
  volume_ok x (linked x tail nx f) c /\ grown x tail f (linked x tail nx f) /\ (forall i v, 0 <= i -> entry x f c i = Some v -> entry x (linked x tail nx f) c i = Some v) /\
  (forall i v, 0 <= i -> entry x (linked x tail nx f) c i = Some v -> entry x f c i = Some v \/ v = nx) /\
  entry x (linked x tail nx f) c (t + 1) = Some nx /\ fat x (linked x tail nx f) nx = EOC.
Proof.
  intros Hl Hv Hn Hu Hz Ht Het Hend. assert (Htail : cluster_ok x tail) by (by eapply entry_ok; [apply Hv|apply Hv|]).
  assert (Hut : used x f tail = true) by (by apply (v_marked _ _ _ Hv t)). assert (Hne : tail <> nx) by (intros ->; congruence).
  destruct (linked_effect x tail nx f Hl (v_bytes _ _ _ Hv) Hn Htail) as (H1 & H2 & H3 & H4). set (g := linked x tail nx f) in *.
  assert (Epre : forall i, 0 <= i -> forall v, entry x f c i = Some v -> entry x g c i = Some v).
  { apply (natlike_ind (fun i => forall v, entry x f c i = Some v -> entry x g c i = Some v)).
    - intros v. unfold entry. by destruct (_ =? 0).
    - intros i Hi IH v. rewrite <- Z.add_1_r, !entry_next by done. destruct (entry x f c i) as [w|] eqn:E; [|done]. cbn. rewrite (IH w) by done. cbn.
      assert (Hw : cluster_ok x w) by (by eapply entry_ok; [apply Hv|apply Hv|]). assert (Huw : used x f w = true) by (by apply (v_marked _ _ _ Hv i)).
      intros En. destruct (decide (w = tail)) as [->|Hwt]; [by rewrite (next_end _ _ _ Hend) in En|]. unfold next in *. rewrite H2 by done.
      destruct (Z.eqb_spec w tail); [done|]. destruct (Z.eqb_spec w nx) as [->|]; [congruence|done]. }
  assert (Eg : fat x g nx = EOC) by (rewrite H2 by done; destruct (Z.eqb_spec nx tail); [congruence|by rewrite Z.eqb_refl]).
  assert (Et1 : entry x g c (t + 1) = Some nx).
  { rewrite entry_next by done. rewrite (Epre t Ht _ Het). cbn. apply next_cluster; [done|done|]. rewrite H2 by done. by rewrite Z.eqb_refl. }
  assert (Enew : forall i v, 0 <= i -> entry x g c i = Some v -> entry x f c i = Some v \/ v = nx).
  { intros i v Hi Hev. destruct (decide (i <= t)) as [Hit|Hit].
    - destruct (entry_prefix x f c i t tail Hz ltac:(lia) Het) as [w Ew]. left. rewrite (Epre i Hi w Ew) in Hev. by injection Hev as ->.
    - right. destruct (decide (i = t + 1)) as [->|Hit1]; [congruence|].
      rewrite (entry_add x g c (t + 1) i nx) in Hev by (done || lia). destruct (Z.to_nat (i - (t + 1))) as [|n] eqn:En; [lia|]. cbn in Hev. by rewrite (next_eoc _ _ _ Eg) in Hev. }
  split; [|split; [|split; [intros i v Hi; by apply Epre|done]]].
  - constructor; [done| |apply Hv|].
    + apply (fat_ok_change x f); [apply Hv|]. intros v Hv'. rewrite H2 by done. destruct (v =? tail); [auto|]. destruct (v =? nx); auto.
    + intros i v Hi Hev. destruct (Enew i v Hi Hev) as [Ew| ->]; [|rewrite H3 by done; by rewrite Z.eqb_refl].
      rewrite H3 by (by eapply entry_ok; [apply Hv|apply Hv|]). rewrite (v_marked _ _ _ Hv i v) by done. apply orb_true_r.
  - constructor; [| |auto].
    + intros v Hv' Huv Hvt. rewrite H2 by done. destruct (Z.eqb_spec v tail); [done|]. destruct (Z.eqb_spec v nx) as [->|]; [congruence|done].
    + intros v Hv' Huv. rewrite H3 by done. by rewrite Huv, orb_true_r.
Qed.

(** The next position of the search does not matter to the rest. *)
Lemma layout_last x i : layout x -> 0 <= i < cluster_count x -> layout (set_last i x).
Proof. intros [] Hi. constructor; assumption. Qed.
Lemma both_last x F r al d i : both (set_last i x) F r al d <-> both x F r al d.
Proof. split; intros []; constructor; assumption. Qed.
Lemma entry_last x f c i j : entry (set_last i x) f c j = entry x f c j.
Proof.
  unfold entry. destruct (_ =? 0); [done|]. generalize (Z.to_nat j) (first_cluster c). intros n. induction n as [|n IH]; intros v; [done|]. cbn.
  change (next (set_last i x) f v) with (next x f v). by destruct (next x f v); cbn.
Qed.
Lemma volume_last x f c i : volume_ok (set_last i x) f c <-> volume_ok x f c.
Proof.
  split; intros [H1 H2 H3 H4]; (constructor; [exact H1|exact H2|exact H3|]); intros j v Hj He.
  - rewrite <- (entry_last x f c i) in He. exact (H4 j v Hj He).
  - rewrite entry_last in He. exact (H4 j v Hj He).
Qed.
Lemma grown_last x t f g i : grown (set_last i x) t f g <-> grown x t f g.
Proof. split; intros [H1 H2 H3]; constructor; [exact H1|exact H2|exact H3|exact H1|exact H2|exact H3]. Qed.
Lemma cache_last x f c i : cache_ok (set_last i x) f c <-> cache_ok x f c.
Proof.
  split; intros [H1 H2 H3 H4]; (constructor; [|exact H2|exact H3|exact H4]); (eapply Forall_impl; [exact H1|]); cbn; intros l; by rewrite entry_last.
Qed.
Lemma set_last_same x : set_last (bmp_last_index x) x = x.
Proof. by destruct x. Qed.

(** Where a chain can grow: an empty one at its first cluster, another one behind its last cluster. *)
Definition at_end (x : exfat) (f : Z -> Z) (c : cluster_chain) (tail : line) (i : Z) : Prop :=
  (first_cluster c = 0 /\ cluster tail = 0 /\ index tail = 0 /\ i = 0) \/
  (first_cluster c <> 0 /\ 0 <= index tail < i /\ entry x f c (index tail) = Some (cluster tail) /\ 0xFFFFFFF8 <= fat x f (cluster tail)).

Record appended (x : exfat) (F : gset Z) (t i : Z) (c : cluster_chain) (d : disk) (b : bool) (j : Z) (c' : cluster_chain) (d' : disk) : Prop := {
  a_last : 0 <= j < cluster_count x;
  a_faults : faults d = [] -> faults d' = [];
  a_volume : volume_ok x (bytes d') c';
  a_grown : grown x t (bytes d) (bytes d');
  a_old : forall k v, 0 <= k -> entry x (bytes d) c k = Some v -> entry x (bytes d') c' k = Some v;
  a_new : forall k v, 0 <= k -> entry x (bytes d') c' k = Some v -> entry x (bytes d) c k = Some v \/ used x (bytes d) v = false;
  a_done : b = true -> exists v, entry x (bytes d') c' i = Some v;
  a_full : b = false -> faults d = [] -> List.find (free x (bytes d')) (scan_order (set_last j x)) = None;
  a_cache : cache_line c' = cache_line c /\ lru_queue c' = lru_queue c /\ linear c' = linear c;
  a_first : first_cluster c <> 0 -> first_cluster c' = first_cluster c
}.

Lemma stopped x F t i c d j d' : 0 <= j < cluster_count x -> (faults d = [] -> faults d' = []) -> volume_ok x (bytes d') c -> grown x t (bytes d) (bytes d') ->
  (forall k, 0 <= k -> entry x (bytes d') c k = entry x (bytes d) c k) ->
  (faults d = [] -> List.find (free x (bytes d')) (scan_order (set_last j x)) = None) -> appended x F t i c d false j c d'.
Proof. intros Hj Hf Hv Hg He Hx. constructor; try done; intros k v Hk; rewrite He by done; by try left. Qed.

Lemma mark_volume x f c k t : layout x -> volume_ok x f c -> 0 <= k < cluster_count x ->
  volume_ok x (mark x k f) c /\ grown x t f (mark x k f) /\ (forall i, 0 <= i -> entry x (mark x k f) c i = entry x f c i).
Proof.
  intros Hl Hv Hk. assert (Hfat : forall v, cluster_ok x v -> fat x (mark x k f) v = fat x f v) by (intros v Hv'; apply fat_store; [done|done|lia]).
  assert (Hus : forall v, cluster_ok x v -> used x (mark x k f) v = (v =? k + 2) || used x f v) by (intros v Hv'; apply used_mark; [apply Hv|lia|apply Hv']).
  assert (Hent : forall j, 0 <= j -> entry x (mark x k f) c j = entry x f c j) by (apply entry_frame; [done|auto]).
  split; [|split; [|done]].
  - constructor; [apply bytes_ok_store, Hv| |apply Hv|].
    + apply (fat_ok_change x f); [apply Hv|]. intros v Hv'. left. by apply Hfat.
    + intros j v Hj Hev. rewrite Hent in Hev by done. rewrite Hus by (by eapply entry_ok; [apply Hv|apply Hv|]). rewrite (v_marked _ _ _ Hv j v) by done. apply orb_true_r.
  - constructor; [auto| |].
    + intros v Hv' Huv. rewrite Hus by done. by rewrite Huv, orb_true_r.
    + intros a _ Ha'. by apply out_mark.
Qed.

Lemma append_ok F i : i < 2 ^ 32 -> forall n x tail c r al d, layout x -> apart x F -> apart_bmp x F -> both x F r al d -> volume_ok x (bytes d) c -> at_end x (bytes d) c tail i ->
  i - index tail < Z.of_nat n ->
  exists b j c' r' al' d', append n x tail i c r al d = Ok (b, set_last j x, c', r', al', d') /\ both x F r' al' d' /\ appended x F (cluster tail) i c d b j c' d'.
Proof.
  intros Hi32. induction n as [|n IH]; intros x tail c r al d Hl Ha Hab Hb Hv He Hn.
  { exfalso. unfold at_end in He. lia. }
  cbn [append]. destruct (both_alloc x F r al d Hl Hab Hb) as [Hal Hab2].
  destruct (alloc_get_ok x _ al d Hl Hab2 Hal (v_bytes _ _ _ Hv)) as (nx & x1 & al1 & d1 & -> & Hal1 & Hf1 & Hres). cbn [obind].
  pose proof (alloc_both x F r al d al1 d1 Hb Hal1) as Hb1. destruct Hres as [(-> & -> & Hb1' & Hfull)|(k & Hk & Hkr & -> & -> & Hb1')].
  { cbn. exists false, (bmp_last_index x), c, r, al1, d1. rewrite set_last_same. split; [done|]. split; [done|].
    apply stopped; rewrite ?Hb1'; [apply Hl|done|done|apply grown_refl|done|]. by rewrite set_last_same. }
  destruct (Z.eqb_spec (k + 2) 0); [lia|]. assert (Hnx : cluster_ok x (k + 2)) by (unfold cluster_ok; lia).
  assert (Hu : used x (bytes d) (k + 2) = false).
  { apply List.find_some in Hk as [_ Hk]. unfold free in Hk. by apply negb_true_iff in Hk. }
  assert (Hl1 : layout (set_last k x)) by (by apply layout_last). destruct (both_reader x F r al1 d1 Hl Ha Hb1) as [Hr1 Ha1].
  assert (Htl : cluster tail = 0 \/ cluster_ok (set_last k x) (cluster tail)).
  { destruct He as [(_ & -> & _)|(Hz & Ht & Het & _)]; [by left|right]. change (cluster_ok x (cluster tail)). by eapply entry_ok; [apply Hv|apply Hv|]. }
  destruct (fat_put_ok (set_last k x) _ (cluster tail) (k + 2) r d1 Hl1 Ha1 Hnx Htl Hr1) as (b & r2 & d2 & -> & Hr2 & Hf2 & Hb2). cbn [obind].
  pose proof (reader_both x F r al1 d1 r2 d2 Hb1 Hr2) as Hboth2. cbn zeta in Hb2.
  assert (Em : bytes d1 = mark x (k + 2 - 2) (bytes d)) by (rewrite Hb1'; f_equal; lia).
  assert (Ef : fat_set (set_last k x) (k + 2) 0xFFFFFFFF (bytes d1) = fresh x (k + 2) (bytes d)) by (rewrite Em; done).
  rewrite Ef in Hb2. destruct (fresh_volume x (bytes d) c (k + 2) (cluster tail) Hl Hv Hnx Hu) as (Hvf & Hgf & Hef).
  destruct b; cbn [negb].
  2:{ exists false, k, c, r2, al1, d2. split; [done|]. split; [done|]. destruct Hb2 as [Hb2 Hbad].
      destruct (mark_volume x (bytes d) c k (cluster tail) Hl Hv Hkr) as (Hvm & Hgm & Hem). rewrite <- Hb1' in Hvm, Hgm, Hem.
      assert (Hall : volume_ok x (bytes d2) c /\ grown x (cluster tail) (bytes d) (bytes d2) /\ forall k, 0 <= k -> entry x (bytes d2) c k = entry x (bytes d) c k).
      { destruct Hb2 as [->| ->]; by split. }
      destruct Hall as (Hv2 & Hg2 & He2). apply stopped; [done|by intros E; apply Hf2, Hf1|done|done|done|]. intros E. destruct (Hbad (Hf1 E)) as [Hne Hlt].
      exfalso. destruct He as [(_ & E0 & _)|(Hz & Ht & Het & Hend)]; [done|]. assert (Htc : cluster_ok x (cluster tail)) by (by destruct Htl).
      assert (Hut : used x (bytes d) (cluster tail) = true) by (apply (v_marked _ _ _ Hv (index tail)); [lia|done]).
      destruct (fresh_effect x (k + 2) (bytes d) Hl (v_bytes _ _ _ Hv) Hnx) as (_ & H2 & _).
      change (fat x (fresh x (k + 2) (bytes d)) (cluster tail) < 0xFFFFFFF8) in Hlt. rewrite H2 in Hlt by done. destruct (Z.eqb_spec (cluster tail) (k + 2)) as [E2|]; [|lia]. rewrite E2, Hu in Hut. done. }
  assert (Hff : faults d = [] -> faults d2 = []) by auto.
  destruct He as [(Hz & Ht0 & Hti & ->)|(Hz & Ht & Het & Hend)].
  - rewrite Ht0 in *. cbn in Hb2. rewrite Hz. cbn [Z.eqb index]. rewrite Hti. cbn. exists true, k, (set_first (k + 2) c), r2, al1, d2. split; [done|]. split; [done|].
    destruct (first_volume x (bytes d) c (k + 2) 0 Hl Hv Hnx Hu) as (Hv2 & Hg2 & He2 & Hn2). rewrite <- Hb2 in *.
    constructor; try done; [intros j v _; unfold entry; by rewrite Hz| |by intros _; exists (k + 2)].
    intros j v Hj Hev. right. destruct (decide (j = 0)) as [->|Hj0]; [congruence|]. unfold entry in Hev. cbn in Hev.
    destruct (Z.eqb_spec (k + 2) 0); [done|]. destruct (Z.to_nat j) as [|m] eqn:Em2; [lia|]. cbn in Hev. by rewrite (next_eoc _ _ _ Hn2) in Hev.
  - assert (Htc : cluster_ok x (cluster tail)) by (by eapply entry_ok; [apply Hv|apply Hv|]). rewrite (cluster_ok_pos x _ Htc) in Hb2.
    destruct (Z.eqb_spec (first_cluster c) 0); [done|]. cbn [index]. rewrite wrap_small by lia.
    change (bytes d2 = linked x (cluster tail) (k + 2) (bytes d)) in Hb2.
    destruct (linked_volume x (bytes d) c (cluster tail) (k + 2) (index tail) Hl Hv Hnx Hu Hz ltac:(lia) Het Hend) as (Hv2 & Hg2 & He2 & Hx2 & Ht2 & Hn2). rewrite <- Hb2 in *.
    destruct (Z.ltb_spec (index tail + 1) i).
    + destruct (IH (set_last k x) (Line (index tail + 1) (k + 2)) c r2 al1 d2) as (b & j & c' & r' & al' & d' & -> & Hb' & Hap); [done|done|done|by apply both_last|by apply volume_last| |cbn; lia|].
      { right. cbn [index cluster]. split; [done|]. split; [lia|]. split; [by rewrite entry_last|]. change (0xFFFFFFF8 <= fat x (bytes d2) (k + 2)). rewrite Hn2. unfold EOC. lia. }
      exists b, j, c', r', al', d'. split; [done|]. split; [exact (proj1 (both_last x F r' al' d' k) Hb')|]. destruct Hap as [A1 A2 A3 A4 A5 An A6 A7 A8 A9]. apply (volume_last x _ _ k) in A3. apply (grown_last x _ _ _ k) in A4. cbn [cluster] in A4.
      constructor; [exact A1|auto|exact A3|apply (grown_trans x _ (k + 2) _ (bytes d2)); [done|exact A4|right; by right]| | | |intros E E'; exact (A7 E (Hff E'))|exact A8|exact A9].
      * intros m v Hm Hev. specialize (A5 m v Hm). rewrite !entry_last in A5. apply A5. by apply He2.
      * intros m v Hm Hev. specialize (An m v Hm). rewrite !entry_last in An. destruct (An Hev) as [Ho|Ho].
        { destruct (Hx2 m v Hm Ho) as [| ->]; [by left|by right]. }
        right. destruct (used x (bytes d) v) eqn:Eu; [|done]. change (used x (bytes d2) v = false) in Ho.
        assert (Hcv : cluster_ok x v) by (eapply entry_ok; [apply A3|apply A3|exact Hev]). by rewrite (g_used _ _ _ _ Hg2 v Hcv Eu) in Ho.
      * intros E. destruct (A6 E) as [v Ev]. exists v. by rewrite entry_last in Ev.
    + exists true, k, c, r2, al1, d2. split; [done|]. split; [done|]. constructor; try done; [|].
      { intros m v Hm Hev. destruct (Hx2 m v Hm Hev) as [| ->]; [by left|by right]. } intros _. exists (k + 2). by replace i with (index tail + 1) by lia.
Qed.

(** A chain that leads to an entry of 0. *)
Definition broken (x : exfat) (f : Z -> Z) (c : cluster_chain) : Prop := exists i v, 0 <= i /\ entry x f c i = Some v /\ fat x f v = 0.

Lemma seek_tail_ok x F i c : layout x -> apart x F -> i < 2 ^ 32 -> first_cluster c <> 0 -> head_ok x c -> forall n tail r d, fat_ok x (bytes d) -> reader_ok x F r d ->
  0 <= index tail < i -> entry x (bytes d) c (index tail) = Some (cluster tail) -> i - index tail <= Z.of_nat n ->
  exists res r' d', seek_tail n x tail i r d = Ok (res, r', d') /\ reader_ok x F r' d' /\ same d d' /\
    match res with
    | Some t => 0 <= index t <= i /\ entry x (bytes d) c (index t) = Some (cluster t) /\ (index t < i -> 0xFFFFFFF8 <= fat x (bytes d) (cluster t))
    | None => faults d = [] -> broken x (bytes d) c
    end.
Proof.
  intros Hl Ha Hi Hz Hh. induction n as [|n IH]; intros tail r d Hf Hr Ht He Hn; [lia|]. cbn [seek_tail].
  assert (Hc : cluster_ok x (cluster tail)) by (by eapply entry_ok).
  destruct (fat_get_ok x F (cluster tail) r d Hl Ha Hc Hr) as (v & r1 & d1 & -> & Hr1 & Hs1 & Hv & Hok). cbn [obind].
  destruct (Z.eqb_spec v 0) as [E0|E0].
  { exists None, r1, d1. repeat (split; [done|]). intros E. exists (index tail), (cluster tail). split; [lia|]. split; [done|]. rewrite <- E0. symmetry. by apply Hok. }
  assert (Hv' : v = fat x (bytes d) (cluster tail)) by (destruct Hv as [->|]; done).
  destruct (Z.leb_spec 0xFFFFFFF8 v).
  { exists (Some tail), r1, d1. repeat (split; [done|]). split; [lia|]. split; [done|]. intros _. by rewrite <- Hv'. }
  rewrite wrap_small by lia. cbn [index]. destruct Hs1 as [Hb1 Hf1].
  assert (En : entry x (bytes d) c (index tail + 1) = Some v).
  { rewrite entry_next, He by (done || lia). cbn. unfold next. rewrite <- Hv'. destruct (Z.eqb_spec v 0), (Z.leb_spec 0xFFFFFFF8 v); cbn; (done || lia). }
  destruct (Z.ltb_spec (index tail + 1) i).
  - destruct (IH (Line (index tail + 1) v) r1 d1) as (res & r2 & d2 & -> & Hr2 & Hs2 & Hres); cbn [index cluster]; rewrite ?Hb1; try done; try lia.
    exists res, r2, d2. split; [done|]. split; [done|]. split; [by eapply same_trans|]. rewrite Hb1 in Hres. destruct res; [done|auto].
  - exists (Some (Line (index tail + 1) v)), r1, d1. repeat (split; [done|]). cbn. split; [lia|]. split; [done|lia].
Qed.

(** What [expand] promises: [t] is the cluster that was the last one, or 0. *)
Record expanded (x : exfat) (i t : Z) (c : cluster_chain) (d : disk) (b : bool) (j : Z) (c' : cluster_chain) (d' : disk) : Prop := {
  e_held : held d' = held d;
  e_last : 0 <= j < cluster_count x;
  e_faults : faults d = [] -> faults d' = [];
  e_volume : volume_ok x (bytes d') c';
  e_cache : cache_ok x (bytes d') c' /\ linear c' = false;
  e_grown : grown x t (bytes d) (bytes d');
  e_tail : t = 0 \/ 0xFFFFFFF8 <= fat x (bytes d) t /\ exists k, 0 <= k /\ entry x (bytes d) c k = Some t;
  e_old : forall k v, 0 <= k -> entry x (bytes d) c k = Some v -> entry x (bytes d') c' k = Some v;
  e_new : forall k v, 0 <= k -> entry x (bytes d') c' k = Some v -> entry x (bytes d) c k = Some v \/ used x (bytes d) v = false;
  e_done : b = true -> exists v, entry x (bytes d') c' i = Some v;
  e_full : b = false -> faults d = [] -> broken x (bytes d) c \/ List.find (free x (bytes d')) (scan_order (set_last j x)) = None;
  e_first : first_cluster c <> 0 -> first_cluster c' = first_cluster c
}.

Lemma unexpanded x i c d b d' : layout x -> volume_ok x (bytes d) c -> cache_ok x (bytes d) c -> linear c = false -> held d' = held d -> same d d' ->
  (b = true -> exists v, entry x (bytes d) c i = Some v) -> (b = false -> faults d = [] -> broken x (bytes d) c) ->
  expanded x i 0 c d b (bmp_last_index x) c d'.
Proof.
  intros Hl Hv Hk Hlin Hh [Hb Hf] Ht Hx. constructor; rewrite ?Hb; try done; [by apply Hl|by left|by left|by intros E1 E2; left; auto].
Qed.

Lemma cache_grown x f f' c c' : cache_ok x f c -> cache_line c' = cache_line c -> lru_queue c' = lru_queue c ->
  (forall k v, 0 <= k -> entry x f c k = Some v -> entry x f' c' k = Some v) -> cache_ok x f' c'.
Proof.
  intros [H1 H2 H3 H4] E1 E2 He. constructor; rewrite ?E1, ?E2; try done. eapply Forall_impl; [exact H1|]. cbn. intros l [Hi Hl]. split; [done|]. apply He; [lia|done].
Qed.

Lemma expand_ok x F i c d : layout x -> apart x F -> apart_bmp x F -> held d = F -> volume_ok x (bytes d) c -> cache_ok x (bytes d) c -> linear c = false ->
  (first_cluster c <> 0 /\ 0 < i < 2 ^ 32 \/ first_cluster c = 0 /\ i = 0) ->
  exists b j c' d' t, expand x i c d = Ok (b, set_last j x, c', d') /\ expanded x i t c d b j c' d'.
Proof.
  intros Hl Ha Hab Hh Hv Hk Hlin Hi. unfold expand. rewrite Hlin.
  set (tail := if i =? 0 then _ else _).
  assert (Htail : (first_cluster c = 0 /\ i = 0 /\ tail = Line 0 0) \/ (first_cluster c <> 0 /\ 0 < i < 2 ^ 32 /\ 0 <= index tail < 2 ^ 32 /\ entry x (bytes d) c (index tail) = Some (cluster tail))).
  { unfold tail. destruct Hi as [[Hz Hi]|[Hz ->]]; [right|left; by rewrite Hz]. split; [done|]. split; [done|]. destruct (Z.eqb_spec i 0); [lia|].
    destruct (cache_line c) as [|l ls] eqn:El; cbn.
    - split; [lia|]. unfold entry. by destruct (Z.eqb_spec (first_cluster c) 0).
    - pose proof (k_lines _ _ _ Hk) as Hf. rewrite El in Hf. apply Forall_cons in Hf as [[Hx1 Hx2] _]. split; [lia|done]. }
  clearbody tail. destruct (negb (i =? 0) && (i <=? index tail)) eqn:Ee.
  { exists true, (bmp_last_index x), c, d, 0. rewrite set_last_same. split; [done|]. apply unexpanded; try done. bool_norm.
    destruct Htail as [(_ & -> & _)|(Hz & Hi' & Hti & Het)]; [done|]. intros _. apply (entry_prefix x _ c i (index tail) (cluster tail)); [done|lia|done]. }
  assert (Hr0 : reader_ok x F new_reader d) by (by apply reader_new).
  assert (Hseek : exists res r d1, (if i =? 0 then Ok (Some tail, new_reader, d) else seek_tail (Z.to_nat (i - index tail)) x tail i new_reader d) = Ok (res, r, d1) /\
    reader_ok x F r d1 /\ same d d1 /\ match res with Some t => (i = 0 /\ t = tail) \/ (i <> 0 /\ 0 <= index t <= i /\ entry x (bytes d) c (index t) = Some (cluster t) /\ (index t < i -> 0xFFFFFFF8 <= fat x (bytes d) (cluster t)))
      | None => faults d = [] -> broken x (bytes d) c end).
  { destruct (Z.eqb_spec i 0) as [E|E]; [exists (Some tail), new_reader, d; split; [done|]; split; [done|]; split; [done|by left]|]. cbn in Ee. apply Z.leb_gt in Ee.
    destruct Htail as [(_ & ? & _)|(Hz & Hi' & Hti & Het)]; [done|].
    destruct (seek_tail_ok x F i c Hl Ha ltac:(lia) Hz (v_head _ _ _ Hv) (Z.to_nat (i - index tail)) tail new_reader d) as (res & r & d1 & -> & Hr & Hs & Hres); [apply Hv|done|lia|done|lia|].
    exists res, r, d1. repeat (split; [done|]). destruct res; [by right|done]. }
  destruct Hseek as (res & r & d1 & -> & Hr & Hs & Hres). cbn [obind]. destruct (fat_close_ok x F r d1 Hr) as (d2 & Ec & Hh2 & Hs2).
  assert (Hsm : same d d2) by (by eapply same_trans). assert (Hh2' : held d2 = held d) by congruence. destruct res as [t|].
  2:{ rewrite Ec. cbn. exists false, (bmp_last_index x), c, d2, 0. rewrite set_last_same. split; [done|]. by apply unexpanded. }
  destruct (negb (i =? 0) && (i <=? index t)) eqn:Et.
  { rewrite Ec. cbn. exists true, (bmp_last_index x), c, d2, 0. rewrite set_last_same. split; [done|]. apply unexpanded; try done. bool_norm.
    destruct Hres as [[? _]|(_ & Hit & Het & _)]; [done|]. intros _. exists (cluster t). by replace i with (index t) by lia. }
  destruct Hs as [Hb1 Hf1]. assert (Hend : at_end x (bytes d1) c t i).
  { rewrite Hb1. destruct Hres as [[E ->]|(Hne & Hit & Het & Hfe)].
    - destruct Htail as [(? & ? & ->)|(? & ? & _)]; [left; done|lia].
    - right. destruct (Z.eqb_spec i 0); [done|]. cbn in Et. apply Z.leb_gt in Et. split; [destruct Htail as [(_ & ? & _)|(? & _)]; done|]. split; [lia|]. split; [done|]. apply Hfe. lia. }
  assert (Hb : both x F r new_allocator d1).
  { destruct Hr as [[Hr1 Hr2] Hr3]. constructor; [rewrite Hr1; cbn; set_solver| |done]. intros p Hp. split; [by apply Hr2|by apply Hr3]. }
  assert (Hti : 0 <= index t) by (unfold at_end in Hend; lia).
  destruct (append_ok F i ltac:(lia) (S (S (Z.to_nat (i - index t)))) x t c r new_allocator d1) as (b & j & c' & r' & al' & d3 & -> & Hb3 & Hap); try done; [by rewrite Hb1|lia|].
  cbn [obind]. destruct (both_alloc x F r' al' d3 Hl Hab Hb3) as [[Hsl _] _]. destruct (relax_opt_ok _ _ _ Hsl) as (d4 & E4 & Hh4 & [Hb4 Hf4]). unfold alloc_close. rewrite E4. cbn [obind].
  assert (Hr4 : slots (fat_sector r') F d4) by (split; [done|]; intros p Hp; by destruct (b_fat _ _ _ _ _ Hb3 p Hp)).
  destruct (relax_opt_ok _ _ _ Hr4) as (d5 & E5 & Hh5 & [Hb5 Hf5]). unfold fat_close. rewrite E5. cbn [obind].
  exists b, j, c', d5, (cluster t). split; [done|]. destruct Hap as [A1 A2 A3 A4 A5 An A6 A7 [A8 [A8' A8'']] A9]. rewrite Hb1 in *. rewrite <- Hb4, <- Hb5 in *.
  constructor; try done; try congruence; auto.
  - split; [|congruence]. by apply (cache_grown x (bytes d) _ c).
  - unfold at_end in Hend. destruct Hend as [(_ & -> & _)|(_ & Hit & Het & Hfe)]; [by left|right]. split; [done|]. exists (index t). split; [lia|done].
Qed.

(** ** The operations on a chain *)

Record good (x : exfat) (F : gset Z) (c : cluster_chain) (d : disk) : Prop := {
  o_layout : layout x;
  o_fat : apart x F;
  o_bmp : apart_bmp x F;
  o_held : held d = F;
  o_volume : volume_ok x (bytes d) c;
  o_cache : cache_ok x (bytes d) c;
  o_linear : linear c = false
}.

Inductive chain_op := GetCluster (i : Z) | Expand (i : Z).

Definition run_op (o : chain_op) (x : exfat) (c : cluster_chain) (d : disk) : outcome (Z * exfat * cluster_chain * disk) :=
  match o with
  | GetCluster i => let! (v, c, d) := chain_get x i c d; Ok (v, x, c, d)
  | Expand i => let! (b, x, c, d) := expand x i c d; Ok (b2z b, x, c, d)
  end.

(** As [get_lba] calls them: only the first cluster of an empty file is asked for. *)
Definition legal (o : chain_op) (c : cluster_chain) : Prop :=
  match o with
  | GetCluster i => 0 <= i < 2 ^ 32
  | Expand i => first_cluster c <> 0 /\ 0 < i < 2 ^ 32 \/ first_cluster c = 0 /\ i = 0
  end.

(** A file is the sequence [e] of its clusters; [fresh] are the clusters that were free; [ok] says that every read succeeds, [full]
    that no free cluster has been found. *)
Definition file_step (o : chain_op) (ok full dead : Prop) (fresh : Z -> Prop) (e : Z -> option Z) (r : Z) (e' : Z -> option Z) : Prop :=
  match o with
  | GetCluster i => (forall k, 0 <= k -> e' k = e k) /\ (r = 0 \/ e i = Some r) /\ (ok -> r = default 0 (e i))
  | Expand i => (forall k v, 0 <= k -> e k = Some v -> e' k = Some v) /\ (forall k v, 0 <= k -> e' k = Some v -> e k = Some v \/ fresh v) /\
      (r = 1 /\ (exists v, e' i = Some v) \/ r = 0 /\ (ok -> dead \/ full))
  end.

Lemma good_grown x F c d b j c' d' i t : good x F c d -> expanded x i t c d b j c' d' -> good (set_last j x) F c' d'.
Proof.
  intros [] []. constructor; try done; [by apply layout_last|congruence|by apply volume_last|apply cache_last|]; tauto.
Qed.



(** A file without clusters cannot grow at another index than 0: [expand] follows the FAT from cluster 0, which stops the machine. *)
Theorem expand_empty_stops x i c d : linear c = false -> first_cluster c = 0 -> cache_line c = [] -> 0 < i -> expand x i c d = Bug.
Proof.
  intros Hl Hz Hc Hi. unfold expand. rewrite Hl, Hc, Hz. destruct (Z.eqb_spec i 0); [lia|]. cbn [head default negb andb index].
  destruct (Z.leb_spec i 0); [lia|]. rewrite Z.sub_0_r. destruct (Z.to_nat i) as [|m] eqn:En; [lia|]. done.
Qed.

(** ** The bitmap alone *)

Lemma alloc_put_ok x F c al d : layout x -> apart_bmp x F -> alloc_ok x F al d -> bytes_ok (bytes d) -> cluster_ok x c ->
  exists b al' d', alloc_put x c al d = Ok (b, al', d') /\ alloc_ok x F al' d' /\ (faults d = [] -> faults d' = []) /\
    ((b = false /\ bytes d' = bytes d /\ (faults d = [] -> used x (bytes d) c = false)) \/ (b = true /\ used x (bytes d) c = true /\ bytes d' = unmark x (c - 2) (bytes d))).
Proof.
  intros Hl Ha Hal Hby [Hc1 Hc2]. unfold alloc_put. rewrite ensure_true by (by apply Z.leb_le). cbn [obind]. pose proof (l_bitmap _ Hl). pose proof (l_table _ Hl).
  pose proof (fat_before_bitmap x Hl). assert (0 <= fat_sectors x) by (pose proof (l_count _ Hl); unfold fat_sectors; dlia).
  assert (Hs : 0 <= (c - 2) / bit_per_sector < bmp_sectors x) by (unfold bit_per_sector, bmp_sectors; dlia). rewrite wrap_small by lia.
  destruct (fetch_ok x F (bitmap x + (c - 2) / bit_per_sector) al d Hl Ha ltac:(lia) Hal) as (b & al1 & d1 & -> & Hal1 & [Hb1 Hf1] & Hok & Hrd). cbn [obind].
  destruct b; cbn [negb].
  2:{ exists false, al1, d1. repeat (split; [done|]). left. repeat (split; [done|]). intros E. by specialize (Hok E). }
  destruct (Hrd eq_refl) as [-> Hup]. cbn [obind]. rewrite word_addr_sector by lia. rewrite Hb1. fold (word x (bytes d) (c - 2)).
  replace ((c - 2) mod bit_per_sector mod 64) with ((c - 2) mod 64) by (unfold bit_per_sector; dlia). unfold truth. rewrite word_used by (done || lia). replace (c - 2 + 2) with c by lia.
  destruct (used x (bytes d) c); cbn [negb].
  - rewrite Hup. cbn [obind]. exists true, al1, (set_bytes (unmark x (c - 2) (bytes d)) d1). split; [done|]. split; [by apply (alloc_same x F al1 d1)|].
    split; [done|]. by right.
  - exists false, al1, d1. repeat (split; [done|]). by left.
Qed.

Inductive bmp_op := Get | Put (c : Z).
Definition run_bmp (o : bmp_op) (x : exfat) (al : allocator) (d : disk) : outcome (Z * exfat * allocator * disk) :=
  match o with
  | Get => alloc_get x al d
  | Put c => let! (b, al, d) := alloc_put x c al d; Ok (b2z b, x, al, d)
  end.

(** The bitmap is a set of clusters.  [get] takes the first free one in the order of its search, which begins at the last cluster it gave and
    ends where the sector of the bitmap with that cluster begins; [put] takes a cluster out of the set and refuses one that is
    not in it.  When a sector cannot be read, nothing changes.  No search goes on for ever. *)
Theorem bitmap_refines o x F al d : layout x -> apart_bmp x F -> alloc_ok x F al d -> bytes_ok (bytes d) -> match o with Put c => cluster_ok x c | Get => True end ->
  exists r x' al' d', run_bmp o x al d = Ok (r, x', al', d') /\ layout x' /\ alloc_ok x F al' d' /\ bytes_ok (bytes d') /\
    (forall c, cluster_ok x c -> fat x (bytes d') c = fat x (bytes d) c) /\
    match o with
    | Get => (r = 0 /\ (faults d = [] -> List.find (free x (bytes d)) (scan_order x) = None) /\ (forall c, cluster_ok x c -> used x (bytes d') c = used x (bytes d) c)) \/
        (cluster_ok x r /\ List.find (free x (bytes d)) (scan_order x) = Some (r - 2) /\ (forall c, cluster_ok x c -> used x (bytes d') c = (c =? r) || used x (bytes d) c))
    | Put v => (r = 0 /\ (faults d = [] -> used x (bytes d) v = false) /\ (forall c, cluster_ok x c -> used x (bytes d') c = used x (bytes d) c)) \/
        (r = 1 /\ used x (bytes d) v = true /\ (forall c, cluster_ok x c -> used x (bytes d') c = negb (c =? v) && used x (bytes d) c))
    end.
Proof.
  intros Hl Ha Hal Hby Ho. destruct o as [|v]; cbn [run_bmp].
  - destruct (alloc_get_ok x F al d Hl Ha Hal Hby) as (r & x' & al' & d' & -> & Hal' & Hf & Hr). do 4 eexists. split; [done|].
    destruct Hr as [(-> & -> & Hb & Hfull)|(i & Hi & Hir & -> & -> & Hb)]; rewrite Hb.
    + repeat (split; [done|]). by left.
    + split; [by apply layout_last|]. split; [done|]. split; [by apply bytes_ok_store|]. split; [intros c Hc; apply fat_store; [done|done|lia]|]. right.
      split; [unfold cluster_ok; lia|]. split; [by replace (i + 2 - 2) with i by lia|]. intros c [Hc _]. apply used_mark; [done|lia|done].
  - destruct (alloc_put_ok x F v al d Hl Ha Hal Hby Ho) as (b & al' & d' & -> & Hal' & Hf & Hr). cbn [obind]. do 4 eexists. split; [done|]. split; [done|]. split; [done|].
    destruct Hr as [(-> & Hb & Hu)|(-> & Hu & Hb)]; rewrite Hb.
    + split; [done|]. split; [done|]. by left.
    + destruct Ho as [Hv _]. split; [by apply bytes_ok_store|]. split; [intros c Hc; apply fat_store; [done|done|lia]|]. right. split; [done|]. split; [done|]. intros c [Hc _].
      rewrite used_unmark by (done || lia). by replace (v - 2 + 2) with v by lia.
Qed.

(** ** Mounting *)

(** What [parse_header] relies on without looking: the fields that its sums and products would wrap around with. *)
Record header_sane (h : exfat_header) (x : exfat) : Prop := {
  h_small : 0 <= base x /\ base x + h_limit h < 2 ^ 64 /\ base x + cluster_offset h < 2 ^ 64 /\ base x + fat_offset h + fat_length h * (fat_count h + 1) < 2 ^ 64;
  h_nonneg : 0 <= h_limit h /\ 0 <= fat_offset h /\ 0 <= fat_length h /\ 0 <= cluster_offset h /\ 0 <= h_cluster_count h /\ 0 <= fat_count h /\ 0 <= root_dir h < 2 ^ 31;
  h_clusters : h_cluster_count h < 2 ^ 32 - 129;
  h_fats : fat_length h * fat_count h < 2 ^ 32;
  h_shift : 0 <= h_cluster_shift h <= 16;
  h_heap : base x + cluster_offset h + h_cluster_count h * 2 ^ h_cluster_shift h < 2 ^ 64
}.

(** C36. A header that is accepted describes a volume whose parts lie in order and inside of the partition: the FAT in use behind the boot area, with
    an entry for each cluster, before the heap, and every cluster of the heap before the end. *)
Theorem parse_header_sound h x x' root : header_sane h x -> parse_header h x = (x', root) -> root <> 0 ->
  base x' = base x /\ 24 <= table x' - base x' /\ table x' + fat_sectors x' <= heap x' /\ cluster_size x' = SECTOR_SIZE * 2 ^ h_cluster_shift h /\
  (forall c, cluster_ok x' c -> exists lba, lba_of_cluster x' c = Ok lba /\ heap x' <= lba /\ lba + cluster_size x' / SECTOR_SIZE <= top x') /\
  Z.land root 0x7FFFFFFF = root_dir h /\ 2 <= root_dir h.
Proof.
  intros [Hs Hn Hc Hf Hsh Hhp] Hp Hr. unfold parse_header in Hp.
  destruct (negb (signature h =? 0xAA55)); [by injection Hp as <- <-|]. destruct (negb (bool_decide _)); [by injection Hp as <- <-|].
  destruct (negb (forallb _ _)); [by injection Hp as <- <-|]. destruct (negb (fs_version h =? _)); [by injection Hp as <- <-|].
  destruct (negb (sector_shift h =? 9)); [by injection Hp as <- <-|]. destruct (negb (h_base h =? base x)) eqn:Eb; [by injection Hp as <- <-|].
  destruct (truth (top x) && _); [by injection Hp as <- <-|]. bool_norm. rewrite Eb in Hp.
  destruct ((fat_offset h <? 24) || _ || _ || _) eqn:E1; [by injection Hp as <- <-|]. bool_norm.
  set (second := negb (Z.land (h_flags h) 1 =? 0)) in *. cbn [set_layout table base top heap cluster_count] in Hp.
  destruct (negb ((fat_count h =? 2) || _)) eqn:E2; [by injection Hp as <- <-|]. destruct (fat_length h <? _) eqn:E3; [by injection Hp as <- <-|].
  destruct (_ <? w64 (_ + w32 _)) eqn:E4; [by injection Hp as <- <-|]. destruct (_ <? w64 (_ + w64 _)) eqn:E5; [by injection Hp as <- <-|].
  destruct (root_dir h <? 2) eqn:E6; [by injection Hp as <- <-|]. injection Hp as <- <-. bool_norm.
  destruct Hs as (Hs1 & Hs2 & Hs3 & Hs4), Hn as (Hn1 & Hn2 & Hn3 & Hn4 & Hn5 & Hn6 & Hn7). unfold set_layout. cbn [base top table bitmap heap cluster_count cluster_shift volume_state flags bmp_last_index].
  assert (0 <= fat_length h * fat_count h) by nia. assert (Hp2 : 0 < 2 ^ h_cluster_shift h <= 2 ^ 16) by (split; [apply Z.pow_pos_nonneg; lia|apply Z.pow_le_mono_r; lia]).
  assert (0 <= h_cluster_count h * 2 ^ h_cluster_shift h) by nia.
  assert (Hfc : fat_count h = 2 \/ fat_count h = 1 /\ second = false).
  { apply orb_true_iff in E2 as [E2|E2]; [left; by apply Z.eqb_eq|right]. apply andb_true_iff in E2 as [? E2]. apply negb_true_iff in E2. split; [by apply Z.eqb_eq|done]. }
  set (tbl := if (fat_count h =? 2) && second then _ else _) in *.
  assert (Htbl : base x + fat_offset h <= tbl /\ tbl + fat_length h <= base x + fat_offset h + fat_length h * fat_count h).
  { unfold tbl. destruct Hfc as [Ef|[Ef ->]]; rewrite Ef in *; [|cbn; rewrite wrap_small by lia; lia]. rewrite (wrap_small 64 (base x + fat_offset h)) by lia. destruct second; cbn [Z.eqb Pos.eqb andb]; rewrite ?wrap_small by lia; lia. }
  assert (Htbl2 : tbl + fat_length h * fat_count h < 2 ^ 64 \/ 2 ^ 64 <= tbl + fat_length h * fat_count h) by lia.
  rewrite (Z.mod_small (h_cluster_shift h)), Z.shiftl_1_l in E5 by lia. rewrite (wrap_small 64 (2 ^ h_cluster_shift h)), (wrap_small 64 (h_cluster_count h * _)) in E5 by lia. rewrite (wrap_small 64 (base x + cluster_offset h)) in * by lia.
  rewrite (wrap_small 64 (base x + cluster_offset h + _)) in E5 by lia. rewrite (wrap_small 64 (base x + h_limit h)) in * by lia. rewrite (wrap_small 32 (fat_length h * fat_count h)) in E4 by lia.
  assert (Esz : cluster_size (Exfat (base x) (base x + h_limit h) tbl (bitmap x) (base x + cluster_offset h) (h_cluster_count h) (w8 (9 + h_cluster_shift h)) (volume_state x) (flags x) (bmp_last_index x)) = SECTOR_SIZE * 2 ^ h_cluster_shift h).
  { unfold cluster_size. cbn [cluster_shift]. rewrite (wrap_small 8) by lia. rewrite Z.mod_small, Z.shiftl_1_l by lia.
    rewrite wrap_small by (split; [apply Z.pow_nonneg; lia|apply Z.pow_lt_mono_r; lia]). rewrite Z.pow_add_r by lia. done. }
  rewrite (wrap_small 32 (2 + h_cluster_count h)) in E3 by lia. pose proof (align_up_pow2 64 ((2 + h_cluster_count h) * 4) 9 ltac:(lia) ltac:(lia) ltac:(lia)) as Ea.
  change (2 ^ 9) with SECTOR_SIZE in Ea. rewrite Ea, Z.div_mul in E3 by (unfold SECTOR_SIZE; lia). unfold fat_sectors, SECTOR_SIZE in *. cbn [cluster_count].
  split; [done|]. split; [lia|]. split; [|split; [done|split]].
  - destruct Htbl2 as [Hw|Hw]; [rewrite wrap_small in E4 by lia; dlia|]. exfalso. destruct Hfc as [Ef|[Ef _]]; rewrite Ef in *; lia.
  - intros c [Hc2 Hc3]. cbn [cluster_count] in Hc3. unfold lba_of_cluster. cbn [cluster_count heap]. rewrite ensure_true by (apply andb_true_iff; split; [apply Z.leb_le|apply Z.ltb_lt]; lia). cbn [obind].
    rewrite (wrap_small 32) by lia. destruct (Z.leb_spec (h_cluster_count h) (c - 2)); [lia|]. eexists. split; [done|]. rewrite Esz. unfold SECTOR_SIZE.
    replace (512 * 2 ^ h_cluster_shift h / 512) with (2 ^ h_cluster_shift h) by (rewrite Z.mul_comm, Z.div_mul; lia).
    clear - Hc2 Hc3 Hp2 Hhp Hs1 Hn4 E5. set (p := 2 ^ h_cluster_shift h) in *. assert (0 <= (c - 2) * p) by (apply Z.mul_nonneg_nonneg; lia).
    assert ((c - 2) * p + p <= h_cluster_count h * p) by (replace ((c - 2) * p + p) with ((c - 1) * p) by lia; apply Z.mul_le_mono_nonneg_r; lia).
    assert (0 < p) by lia. rewrite wrap_small by lia. lia.
  - split; [|lia]. rewrite Z.land_lor_distr_l. change 0x7FFFFFFF with (2 ^ 31 - 1). rewrite !land_low_mask, (Z.mod_small (root_dir h)) by lia. by destruct second.
Qed.

Lemma root_sector_full n : forall fi f p idx x, (forall k, 0 <= k < Z.of_nat n -> f (p + record_size * k) <> 0) ->
  root_sector n fi f p idx x = Bug \/ exists idx' b, root_sector n fi f p idx x = Ok (false, idx', set_bitmap b x).
Proof.
  induction n as [|n IH]; intros fi f p idx x Hf; cbn [root_sector].
  { right. exists idx, (bitmap x). by destruct x. }
  pose proof (Hf 0 ltac:(lia)) as H0. rewrite Z.mul_0_r, Z.add_0_r in H0. destruct (Z.eqb_spec (f p) 0); [done|].
  assert (Hrest : forall b, root_sector n fi f (p + record_size) (w32 (idx + 1)) (set_bitmap b x) = Bug \/
    exists idx' b', root_sector n fi f (p + record_size) (w32 (idx + 1)) (set_bitmap b x) = Ok (false, idx', set_bitmap b' x)).
  { intros b. destruct (IH fi f (p + record_size) (w32 (idx + 1)) (set_bitmap b x)) as [E|(idx' & b' & E)]; [|by left|right; by exists idx', b'].
    intros k Hk. replace (p + record_size + record_size * k) with (p + record_size * (k + 1)) by lia. apply Hf. lia. }
  destruct (_ && _ && _); cbn [obind].
  - destruct (lba_of_cluster x (load_le 4 f (p + 20))) as [lba| |] eqn:E; cbn [obind]; [apply Hrest|by left|].
    unfold lba_of_cluster, ensure in E. destruct (_ && _); [|done]. cbn in E. by destruct (_ <=? _).
  - specialize (Hrest (bitmap x)). by replace (set_bitmap (bitmap x) x) with x in Hrest by (by destruct x).
Qed.

Lemma dm_relax_cases p d : dm_relax p d = Bug \/ exists d', dm_relax p d = Ok d' /\ bytes d' = bytes d.
Proof. unfold dm_relax, ensure. destruct (bool_decide _); cbn; [right; by eexists|by left]. Qed.

Lemma must_get_cases lba d : must_get lba d = Bug \/ exists d', must_get lba d = Ok d' /\ bytes d' = bytes d.
Proof.
  unfold must_get, dm_get, ensure. destruct (_ <=? _); [|by left]. destruct (bool_decide _); [|by left]. cbn. destruct (faults d) as [|[] ?]; cbn; [right; by eexists|right; by eexists|by left].
Qed.

(** The walk over the root directory reads one sector of each cluster.  When the first sixteen records of its only, or its last, cluster are all
    in use, the machine stops at the start of the file system, whatever the other sectors of the cluster hold. *)
Theorem root_walk_one_sector n fi cur idx slot x d lba : lba_of_cluster x cur = Ok lba ->
  (forall k, 0 <= k < record_per_sector -> bytes d (addr_of lba + record_size * k) <> 0) ->
  0xFFFFFFF8 <= load_le 4 (bytes d) (addr_of (lba_of_fat x (cur / element_per_sector)) + 4 * (cur mod element_per_sector)) ->
  root_walk (S n) fi cur idx slot x d = Bug.
Proof.
  intros Hlba Hrec Hend. cbn [root_walk]. rewrite Hlba. cbn [obind]. destruct (truth lba); [|done]. cbn [ensure obind].
  destruct (dm_relax_cases slot d) as [->|(d1 & -> & E1)]; [done|]. cbn [obind]. destruct (must_get_cases lba d1) as [->|(d2 & -> & E2)]; [done|]. cbn [obind].
  rewrite E2, E1. destruct (root_sector_full 16 fi (bytes d) (addr_of lba) idx x) as [->|(idx' & b & ->)]; [exact Hrec|done|]. cbn [obind].
  destruct (dm_relax_cases (page_lba lba) d2) as [->|(d3 & -> & E3)]; [done|]. cbn [obind].
  change (lba_of_fat (set_bitmap b x)) with (lba_of_fat x). destruct (truth (lba_of_fat x _)); [|done]. cbn [ensure obind].
  destruct (must_get_cases (lba_of_fat x (cur / element_per_sector)) d3) as [->|(d4 & -> & E4)]; [done|]. cbn [obind]. rewrite E4, E3, E2, E1.
  destruct (Z.ltb_spec (load_le 4 (bytes d) (addr_of (lba_of_fat x (cur / element_per_sector)) + 4 * (cur mod element_per_sector))) 0xFFFFFFF8); [lia|]. done.
Qed.

(** ** The mark of a volume in use *)

Lemma byte_all (P : Z -> bool) b : forallb P (seqZ 0 256) = true -> 0 <= b < 256 -> P b = true.
Proof. intros H Hb. rewrite forallb_forall in H. apply H. apply list_elem_of_In, elem_of_seqZ. lia. Qed.

Lemma dirty_bits b : 0 <= b < 256 -> 
  Z.land (Z.lor b 2) 2 = 2 /\ Z.lor b 2 mod 256 = Z.lor b 2 /\ Z.land b 0xFD mod 256 = Z.land b 0xFD /\ (Z.land b 2 = 0 -> Z.land (Z.lor b 2) 0xFD = b) /\ (Z.land b 2 = 0 \/ Z.land b 2 = 2).
Proof.
  intros Hb. pose proof (byte_all (fun b => (Z.land (Z.lor b 2) 2 =? 2) && (Z.lor b 2 mod 256 =? Z.lor b 2) && (Z.land b 0xFD mod 256 =? Z.land b 0xFD) &&
    (negb (Z.land b 2 =? 0) || (Z.land (Z.lor b 2) 0xFD =? b)) && ((Z.land b 2 =? 0) || (Z.land b 2 =? 2))) b eq_refl Hb) as H.
  rewrite !andb_true_iff, !orb_true_iff, negb_true_iff, !Z.eqb_eq, Z.eqb_neq in H. destruct H as [[[[H1 H2] H3] H4] H5]. repeat (split; [done|]). split; [tauto|done].
Qed.

Definition state_byte (x : exfat) (f : Z -> Z) : Z := f (addr_of (base x) + 0x6A).

Lemma store_byte v f a : store_le 1 v f a a = v mod 256.
Proof. unfold store_le. rewrite Z.leb_refl. destruct (Z.ltb_spec a (a + Z.of_nat 1)); [|lia]. cbn [andb]. by rewrite Z.sub_diag, Z.pow_0_r, Z.div_1_r. Qed.

(** Write access marks the volume as in use on the disk, and taking it back restores the mark: [set_rw] succeeds exactly on a volume that was left clean, a
    second call is refused, [stop] at the end leaves a clean volume clean and one that was not clean as it was, and nothing
    else of the disk is written. *)
Theorem state_round_trip x d : flags x = 0 -> page_lba (base x) ∉ held d -> faults d = [] -> bytes_ok (bytes d) ->
  exists b x1 d1, set_rw false x d = Ok (b, x1, d1) /\ b = (Z.land (state_byte x (bytes d)) 2 =? 0) /\ is_rw x1 = true /\
    Z.land (state_byte x (bytes d1)) 2 = 2 /\ held d1 = held d /\ (forall a, a <> addr_of (base x) + 0x6A -> bytes d1 a = bytes d a) /\
    set_rw false x1 d1 = Ok (false, x1, d1) /\
    forall d2, held d2 = held d -> faults d2 = [] -> state_byte x (bytes d2) = state_byte x (bytes d1) ->
      exists x3 d3, stop x1 d2 = Ok (true, x3, d3) /\ is_running x3 = false /\ held d3 = held d /\ state_byte x (bytes d3) = state_byte x (bytes d) /\
        (forall a, a <> addr_of (base x) + 0x6A -> bytes d3 a = bytes d2 a) /\ stop x3 d3 = Ok (false, x3, d3).
Proof.
  intros Hfl Hh Hf Hb. pose proof (Hb (addr_of (base x) + 0x6A)) as Hbyte. destruct (dirty_bits _ Hbyte) as (B1 & B2 & B3 & B4 & B5).
  assert (Hget : forall d, page_lba (base x) ∉ held d -> faults d = [] -> dm_get (base x) 1 false d = Ok (true, Disk (bytes d) [] ({[page_lba (base x)]} ∪ held d))).
  { intros d' Hh' Hf'. unfold dm_get. rewrite count_one. cbn [ensure obind]. rewrite ensure_decide by done. cbn [obind]. by rewrite Hf'. }
  assert (Hrel : forall f H, page_lba (base x) ∉ H -> dm_relax (page_lba (base x)) (Disk f [] ({[page_lba (base x)]} ∪ H)) = Ok (Disk f [] H)).
  { intros f H Hn. unfold dm_relax. cbn [held]. rewrite ensure_decide by set_solver. cbn. do 2 f_equal. set_solver. }
  assert (Hup : forall f H, dm_upgrade (page_lba (base x)) (base x) 1 (Disk f [] ({[page_lba (base x)]} ∪ H)) = Ok tt).
  { intros f H. unfold dm_upgrade. cbn [held]. rewrite ensure_decide by set_solver. cbn [obind]. by rewrite Z.eqb_refl, count_one. }
  unfold set_rw. rewrite Hfl. cbn [Z.eqb negb set_flags base]. rewrite Hget by done. cbn [obind negb set_state volume_state base bytes]. fold (state_byte x (bytes d)) in *.
  destruct (Z.eqb_spec (Z.land (state_byte x (bytes d)) ALLOW_WRITE) 0) as [E|E]; cbn [orb].
  - rewrite Hup. unfold set_bytes; cbn [obind bytes faults held base set_flags set_state volume_state flags]. rewrite Hrel by done. cbn [obind]. do 3 eexists. split; [done|]. unfold ALLOW_WRITE in *. rewrite E.
    split; [done|]. split; [done|]. unfold state_byte at 1. cbn [bytes]. rewrite store_byte, B2, B1. split; [done|]. split; [done|].
    split; [intros a Ha; apply store_le_out; lia|]. split; [done|]. intros d2 Hh2 Hf2 Hs2. unfold stop. cbn. rewrite Hget by (by rewrite ?Hh2). cbn [obind negb]. rewrite Hup. unfold set_bytes; cbn [obind bytes faults held base set_flags set_state volume_state flags].
    rewrite Hrel by (by rewrite Hh2). cbn [obind]. do 2 eexists. split; [done|]. split; [done|]. split; [done|].
    assert (Es : state_byte x (bytes d2) = Z.lor (state_byte x (bytes d)) 2) by (rewrite Hs2; unfold state_byte at 1; cbn [bytes]; by rewrite store_byte).
    split; [|split; [intros a Ha; apply store_le_out; lia|done]]. unfold state_byte at 1. cbn [bytes]. rewrite store_byte. fold (state_byte x (bytes d2)). rewrite Es, B4 by done.
    by apply Z.mod_small.
  - unfold set_bytes; cbn [obind bytes faults held base set_flags set_state volume_state flags]. rewrite Hrel by done. cbn [obind]. do 3 eexists. split; [done|]. unfold ALLOW_WRITE in *.
    assert (E2 : Z.land (state_byte x (bytes d)) 2 = 2) by (by destruct B5). rewrite E2. split; [done|]. split; [done|]. split; [done|]. split; [done|]. split; [done|]. split; [done|].
    intros d2 Hh2 Hf2 Hs2. unfold stop. cbn. do 2 eexists. split; [done|]. done.
Qed.

(** ** Concrete volumes *)

(** Eight clusters of one sector: the first is the bitmap, a file has the next two, the others are free. *)
Definition w_vol : exfat := Exfat 0 48 24 32 32 8 9 0 0 0.
Definition w_bytes : Z -> Z :=
  store_le 4 EOC (store_le 4 4 (store_le 4 EOC (store_le 1 7 (fun _ => 0) (addr_of 32)) (addr_of 24 + 8)) (addr_of 24 + 12)) (addr_of 24 + 16).
Definition w_disk : disk := Disk w_bytes [] ∅.
Definition w_file : cluster_chain := Chain 3 [] [] false.

Lemma w_layout : layout w_vol.
Proof. constructor; vm_compute; (done || (split; (done || discriminate))). Qed.

Lemma w_next c : cluster_ok w_vol c -> next w_vol w_bytes c = if c =? 3 then Some 4 else None.
Proof.
  intros [H1 H2]. cbn in H2. assert (c = 2 \/ c = 3 \/ c = 4 \/ c = 5 \/ c = 6 \/ c = 7 \/ c = 8 \/ c = 9) as Hc by lia.
  destruct Hc as [-> |[-> |[-> |[-> |[-> |[-> |[-> | ->]]]]]]]; vm_compute; reflexivity.
Qed.

Lemma w_cluster c : 2 <= c < 10 -> cluster_ok w_vol c.
Proof. intros H. unfold cluster_ok. cbn. lia. Qed.

Lemma w_chain c h : linear c = false -> first_cluster c = h -> h = 2 \/ h = 3 -> volume_ok w_vol w_bytes c.
Proof.
  intros _ Ef Hh. assert (Hhc : cluster_ok w_vol h) by (apply w_cluster; lia). constructor.
  - by repeat apply bytes_ok_store.
  - intros v Hv w. rewrite w_next by done. destruct (v =? 3); [intros [= <-]; by apply w_cluster|done].
  - right. by rewrite Ef.
  - intros i v Hi. unfold entry. rewrite Ef, (cluster_ok_pos w_vol h) by done. destruct (Z.to_nat i) as [|[|n]]; cbn.
    + intros [= <-]. destruct Hh as [-> | ->]; vm_compute; reflexivity.
    + rewrite w_next by done. destruct (h =? 3); cbn; [|done]. intros [= <-]. vm_compute. reflexivity.
    + rewrite w_next by done. destruct (h =? 3); cbn; [|done]. rewrite w_next by (by apply w_cluster). done.
Qed.

Lemma w_good : good w_vol ∅ w_file w_disk.
Proof.
  constructor; [apply w_layout|intros p _; set_solver|intros p _; set_solver|done|apply (w_chain _ 3); auto| |done].
  constructor; cbn; [constructor|constructor|done|by vm_compute].
Qed.



Lemma expand_empty_stops_witness : expand w_vol 1 (new_chain 0 false) w_disk = Bug.
Proof. apply expand_empty_stops; reflexivity. Defined.

Lemma bitmap_refines_witness : exists r x' al' d', run_bmp Get w_vol new_allocator w_disk = Ok (r, x', al', d') /\ r = 5 /\ alloc_ok w_vol ∅ al' d'.
Proof.
  destruct (bitmap_refines Get w_vol ∅ new_allocator w_disk) as (r & x' & al' & d' & E & _ & Hal & _).
  - exact w_layout.
  - intros p _. set_solver.
  - apply alloc_new. reflexivity.
  - apply (v_bytes _ _ _ (o_volume _ _ _ _ w_good)).
  - exact I.
  - exists r, x', al', d'. split; [exact E|]. split; [|exact Hal].
    assert (Hv : match run_bmp Get w_vol new_allocator w_disk with Ok (r, _, _, _) => r =? 5 | _ => false end = true) by (vm_compute; reflexivity).
    rewrite E in Hv. by apply Z.eqb_eq in Hv.
Defined.

Definition w_header : exfat_header := Header EXFAT_NAME (replicate 0x35 0) 0 48 24 8 32 8 5 0x0100 0 9 0 1 0xAA55.

Lemma parse_header_sound_witness : exists x' root, parse_header w_header w_vol = (x', root) /\ root <> 0 /\ 24 <= table x' - base x'.
Proof.
  assert (Hs : header_sane w_header w_vol) by (constructor; vm_compute; repeat split; discriminate).
  destruct (parse_header w_header w_vol) as [x' root] eqn:E. assert (Hr : root <> 0) by (intros ->; vm_compute in E; discriminate E).
  exists x', root. split; [reflexivity|]. split; [exact Hr|]. exact (proj1 (proj2 (parse_header_sound w_header w_vol x' root Hs E Hr))).
Defined.

(** A root directory with records in both sectors of its cluster. *)
Definition w_wide : exfat := Exfat 0 64 24 0 32 8 10 0 0 0.
Lemma root_walk_one_sector_witness : root_walk 3 0 2 0 0 w_wide (Disk (store_le 4 EOC (fun _ => 1) (addr_of 24 + 8)) [] {[0]}) = Bug.
Proof.
  apply (root_walk_one_sector 2 0 2 0 0 w_wide _ 32); [reflexivity| |vm_compute; discriminate].
  intros k Hk. unfold record_per_sector in Hk. cbn [bytes]. rewrite store_le_out; [discriminate|]. right. unfold addr_of, SECTOR_SIZE, record_size. lia.
Defined.

Lemma state_round_trip_witness : exists b x1 d1, set_rw false w_vol w_disk = Ok (b, x1, d1) /\ b = (Z.land (state_byte w_vol (bytes w_disk)) 2 =? 0).
Proof.
  destruct (state_round_trip w_vol w_disk) as (b & x1 & d1 & E & Eb & _); [reflexivity|set_solver|reflexivity|apply (v_bytes _ _ _ (o_volume _ _ _ _ w_good))|].
  exists b, x1, d1. split; [exact E|exact Eb].
Defined.

(** A free cluster before the one given last, in the same sector of the bitmap, is not found. *)
Lemma search_misses : let d := Disk (store_le 1 0xFE (fun _ => 0) (addr_of 32)) [] ∅ in
  let x := set_last 3 w_vol in used x (bytes d) 2 = false /\ match alloc_get x new_allocator d with Ok (v, _, _, _) => v = 0 | _ => False end.
Proof. vm_compute. split; reflexivity. Qed.

(** An entry that leads to cluster 1, or to a cluster marked as bad, stops the machine. *)
Lemma wild_entry_stops v : v = 1 \/ v = 0xFFFFFFF7 ->
  chain_get w_vol 2 (new_chain 3 false) (Disk (store_le 4 v (fun _ => 0) (addr_of 24 + 12)) [] ∅) = Bug.
Proof. intros [-> | ->]; vm_compute; reflexivity. Qed.
End ExFatThm.
