(* ===== verification/Folder.v ===== *)
(** * Folders (src/kernel/filesystem/instance.cpp)

    A folder is a file of records of 32 bytes; a file in it is a record of type 85, one of type C0 and one of type C1 for
    each fifteen characters of its name.  The reader walks over them through the clusters of the folder ([ExFat]); its buffer
    holds the bytes of the records of one file.  [memcpy] to a part of the disk cache that has not been
    marked with [upgrade] is answered with [Bug]. *)

From S2P Require Import Prelude Const Bytes ExFat.
From S2P Require DiskCache.

Module Folder.
Import Bytes ExFat.

Definition EOF_FAILURE : Z := 1.
Definition OP_FAILURE : Z := 4.
Definition MEM_FAILURE : Z := 8.
Definition FS_FAILURE : Z := 0x10.
Definition MEDIA_FAILURE : Z := 0x20.
Definition FOLDER : Z := 0x10.
Definition ALLOW_FILE : Z := 8.
Definition ALLOW_FOLDER : Z := 0x10.
Definition CHECK_HASH : Z := 0x40.

(** ** Names *)

Definition is_lower (ch : Z) : bool := (0x61 <=? ch) && (ch <=? 0x7A).
Definition is_upper (ch : Z) : bool := (0x41 <=? ch) && (ch <=? 0x5A).
Definition upper (ch : Z) : Z := if is_lower ch then Z.land ch 0xDF else ch.

Definition hash_step (sum ch : Z) : Z := rotate 16 (w16 (rotate 16 sum + upper ch)).
Definition name_hash (str : list Z) : Z := fold_left hash_step str 0.

Definition char_equal (x y : Z) : bool := (x =? y) || ((Z.lxor x y =? 0x20) && is_upper (Z.land x 0xDF)).
(** [match] of util.hpp: how many places agree. *)
Fixpoint match_count (cmp : Z -> Z -> bool) (n : nat) (a b : list Z) : nat :=
  match n, a, b with
  | S n, x :: a, y :: b => if cmp x y then S (match_count cmp n a b) else O
  | _, _, _ => O
  end.
Definition name_equal (a b : list Z) : bool :=
  (length a =? length b)%nat && (length a =? match_count char_equal (length a) a b)%nat.

(** ** Files in the open *)

Record inode := Inode { rec_index : Z; valid_size : Z; alloc_size : Z; clusters : cluster_chain }.
Definition set_clusters (c : cluster_chain) (i : inode) : inode := Inode (rec_index i) (valid_size i) (alloc_size i) c.
Definition set_sizes (vs fs : Z) (i : inode) : inode := Inode (rec_index i) vs fs (clusters i).

(** [get_lba] without growing the file. *)
Definition get_lba (x : exfat) (offset : Z) (c : cluster_chain) (d : disk) : outcome (Z * cluster_chain * disk) :=
  let! (cl, c, d) := chain_get x (w32 (offset / cluster_size x)) c d;
  if cl =? 0 then Ok (0, c, d)
  else
    let! lba := lba_of_cluster x cl;
    Ok (if lba =? 0 then 0 else w64 (lba + offset mod cluster_size x / SECTOR_SIZE), c, d).

(** ** The reader *)

Record reader := Reader { buf : list Z; index : Z }.

(** Records in the buffer, a byte and a word of it. *)
Definition size (b : list Z) : Z := Z.of_nat (length b) / record_size.
Definition byte_at (b : list Z) (i : Z) : Z := default 0 (b !! Z.to_nat i).
Definition field (n : nat) (b : list Z) (i : Z) : Z := load_le n (byte_at b) i.

Definition checksum_step (sum : Z) (ib : Z * Z) : Z := if (ib.1 =? 2) || (ib.1 =? 3) then sum else w16 (rotate 16 sum + ib.2).
Definition checksum (b : list Z) : Z := fold_left checksum_step (imap (fun i x => (Z.of_nat i, x)) b) 0.

(** One record at [p]: the buffer afterwards, and whether a file is complete. *)
Definition record_step (mode hash : Z) (f : Z -> Z) (p : Z) (b : list Z) : bool * list Z :=
  let type := f p in
  let rec := load_bytes record_size f p in
  if truth mode && (0x80 <? type) then
    if type =? 0x85 then
      let file_type := if truth (Z.land (f (p + 4)) FOLDER) then ALLOW_FOLDER else ALLOW_FILE in
      if (f (p + 1) <? 2) || (Z.land file_type mode =? 0) then (false, []) else (false, rec)
    else if type =? 0xC0 then
      if negb (size b =? 1) || (truth (Z.land mode CHECK_HASH) && negb (hash =? load_le 2 f (p + 4))) then (false, []) else (false, b ++ rec)
    else if type =? 0xC1 then
      if size b <? 2 then (false, [])
      else
        let b := b ++ rec in
        if size b <? byte_at b 1 then (false, b)
        else if checksum b =? field 2 b 2 then (true, b) else (false, [])
    else (false, [])
  else (false, []).

(** The records up to the end of the sector; [Some] is the answer of [step] when it is known. *)
Fixpoint records (n : nat) (mode hash : Z) (f : Z -> Z) (p : Z) (r : reader) : option Z * reader :=
  match n with
  | O => (None, r)
  | S n =>
      if f p =? 0 then (Some EOF_FAILURE, r)
      else
        let '(found, b) := record_step mode hash f p (buf r) in
        let r := Reader b (w32 (index r + 1)) in
        if found : bool then (Some 0, r)
        else if index r mod record_per_sector =? 0 then (None, r) else records n mode hash f (p + record_size) r
  end.

(** The slot in use, if any, is given back at the end, and the buffer is emptied after a failure. *)
Definition done (stat : Z) (block : option Z) (r : reader) (c : cluster_chain) (d : disk) : outcome (Z * reader * cluster_chain * disk) :=
  let! d := relax_opt block d;
  Ok (stat, if stat =? 0 then r else Reader [] (index r), c, d).

Fixpoint walk (n : nat) (mode hash limit : Z) (x : exfat) (block : option Z) (r : reader) (c : cluster_chain) (d : disk)
  : outcome (Z * reader * cluster_chain * disk) :=
  match n with
  | O => NoFuel
  | S n =>
      if index r <? limit then
        let offset := w32 (index r * record_size) in
        let! (lba, c, d) := get_lba x offset c d;
        if lba =? 0 then done FS_FAILURE block r c d
        else
          let count := count_of lba in
          let block_size := w32 (cluster_size x - offset mod cluster_size x) in
          let offset := Z.land offset SECTOR_MASK in
          let block_size := Z.min block_size (w32 (count * SECTOR_SIZE - offset)) in
          assert! truth block_size;
          let count := w8 (align_up 32 block_size SECTOR_SIZE / SECTOR_SIZE) in
          let! d := relax_opt block d;
          let! (b, d) := dm_get lba count false d;
          if negb b then done MEDIA_FAILURE None r c d
          else
            let p := addr_of lba + record_size * (index r mod record_per_sector) in
            match records (Z.to_nat record_per_sector) mode hash (bytes d) p r with
            | (Some stat, r) => done stat (Some (page_lba lba)) r c d
            | (None, r) => walk n mode hash limit x (Some (page_lba lba)) r c d
            end
      else done EOF_FAILURE block r c d
  end.

Definition limit_of (i : inode) : Z := w32 (valid_size i / record_size).
Definition step (mode hash : Z) (x : exfat) (i : inode) (r : reader) (d : disk) : outcome (Z * reader * inode * disk) :=
  let limit := limit_of i in
  let! (stat, r, c, d) := walk (S (S (Z.to_nat (limit / record_per_sector)))) mode hash limit x None r (clusters i) d;
  Ok (stat, r, set_clusters c i, d).

Definition get_record (r : reader) : bool := 2 <=? size (buf r).
Definition entrance_size (b : list Z) : Z := byte_at b 1.
Definition complete (r : reader) : bool := get_record r && (entrance_size (buf r) + 1 =? size (buf r)).

(** The characters of a name; [None] for a character that is not one byte, or not there. *)
Fixpoint name_chars (n : nat) (i : Z) (b : list Z) : option (list Z) :=
  match n with
  | O => Some []
  | S n =>
      if entrance_size b <? 2 + i / 15 then None
      else
        let ch := field 2 b (64 + record_size * (i / 15) + 2 + 2 * (i mod 15)) in
        if (ch =? 0) || truth (Z.land ch 0xFF00) then None
        else (fun l => Z.land ch 0xFF :: l) <$> name_chars n (i + 1) b
  end.

Definition get_name (label_folder : bool) (r : reader) : list Z :=
  if negb (complete r) then []
  else
    let label := label_folder && truth (Z.land (field 2 (buf r) 4) FOLDER) in
    match name_chars (Z.to_nat (byte_at (buf r) 35)) 0 (buf r) with
    | None => []
    | Some l => l ++ (if label then [0x2F] else [])
    end.

(** ** Changing a record *)

Definition le_bytes (n : nat) (v : Z) : list Z := (fun i => v / 256 ^ i mod 256) <$> seqZ 0 (Z.of_nat n).
Definition patch (n : nat) (off : Z) (v : Z) (b : list Z) : list Z :=
  take (Z.to_nat off) b ++ le_bytes n v ++ drop (Z.to_nat off + n) b.

(** [memcpy] into a sector that has been marked. *)
Definition copy_to (l : list Z) (lba off : Z) (d : disk) : outcome disk :=
  assert! off + Z.of_nat (length l) <=? SECTOR_SIZE;
  Ok (set_bytes (store_bytes l (bytes d) (addr_of lba + off)) d).

Definition write_at (x : exfat) (offset : Z) (l : list Z) (c : cluster_chain) (d : disk) : outcome (bool * cluster_chain * disk) :=
  let! (lba, c, d) := get_lba x offset c d;
  if lba =? 0 then Ok (false, c, d)
  else
    let! (b, d) := dm_get lba 1 false d;
    if negb b then Ok (false, c, d)
    else
      let! _ := dm_upgrade (page_lba lba) lba 1 d;
      let! d := copy_to l lba (Z.land offset SECTOR_MASK) d;
      let! d := dm_relax (page_lba lba) d;
      Ok (true, c, d).

Definition update (base : Z) (x : exfat) (i : inode) (r : reader) (d : disk) : outcome (bool * reader * inode * disk) :=
  if negb (complete r) then Ok (false, r, i, d)
  else if negb (w32 (base + entrance_size (buf r) + 1) =? index r) || (limit_of i <? index r) then Ok (false, r, i, d)
  else
    let b := patch 2 2 (checksum (buf r)) (buf r) in
    let r := Reader b (index r) in
    let offset := w32 (base * record_size) in
    if Z.land offset SECTOR_MASK <=? SECTOR_SIZE - record_size then
      let! (ok, c, d) := write_at x offset (take 64 b) (clusters i) d;
      Ok (ok, r, set_clusters c i, d)
    else
      let! (ok, c, d) := write_at x offset (take 32 b) (clusters i) d;
      if negb ok then Ok (false, r, set_clusters c i, d)
      else
        let! (ok, c, d) := write_at x (w32 (offset + record_size)) (take 32 (drop 32 b)) c d;
        Ok (ok, r, set_clusters c i, d).

(** The record of the file with index [idx], changed by [g]. *)
Definition update_with (g : list Z -> list Z) (idx : Z) (x : exfat) (i : inode) (d : disk) : outcome (bool * inode * disk) :=
  let! (stat, r, i, d) := step (Z.lor ALLOW_FILE ALLOW_FOLDER) 0 x i (Reader [] idx) d;
  if truth stat then Ok (false, i, d)
  else
    assert! get_record r;
    if negb (w32 (idx + entrance_size (buf r) + 1) =? index r) then Ok (false, i, d)
    else
      let! (ok, _, i, d) := update idx x i (Reader (g (buf r)) (index r)) d;
      Ok (ok, i, d).

Definition update_size (f : inode) (x : exfat) (parent : inode) (d : disk) : outcome (bool * inode * disk) :=
  update_with (fun b => patch 8 56 (alloc_size f) (patch 8 40 (valid_size f) b)) (rec_index f) x parent d.
Definition update_chain (f : inode) (head : Z) (x : exfat) (parent : inode) (d : disk) : outcome (bool * inode * disk) :=
  update_with (patch 4 52 head) (rec_index f) x parent d.
End Folder.

Module FolderThm.
Import Bytes ExFat ExFatThm Folder.

(** ** Names *)

Lemma byte_pairs (P : Z -> Z -> bool) a b : forallb (fun x => forallb (P x) (seqZ 0 256)) (seqZ 0 256) = true -> 0 <= a < 256 -> 0 <= b < 256 -> P a b = true.
Proof. intros H Ha Hb. apply (byte_all (fun x => forallb (P x) (seqZ 0 256)) a) in H; [|done]. by apply (byte_all (P a)). Qed.

Lemma char_equal_upper a b : 0 <= a < 256 -> 0 <= b < 256 -> char_equal a b = (upper a =? upper b).
Proof.
  intros Ha Hb. apply (byte_pairs (fun a b => Bool.eqb (char_equal a b) (upper a =? upper b))) with (b := b) in Ha; [by apply eqb_prop|vm_compute; reflexivity|done].
Qed.

Definition is_bytes (l : list Z) : Prop := Forall (fun b => 0 <= b < 256) l.

Lemma match_count_all cmp a b : length a = length b -> (length a =? match_count cmp (length a) a b)%nat = forallb (fun p => cmp p.1 p.2) (zip a b).
Proof.
  revert b. induction a as [|x a IH]; intros [|y b] E; cbn in *; [done|done|done|]. destruct (cmp x y); cbn; [apply IH; lia|done].
Qed.

Lemma name_equal_spec a b : is_bytes a -> is_bytes b -> name_equal a b = bool_decide (upper <$> a = upper <$> b).
Proof.
  intros Ha Hb. unfold name_equal. destruct (Nat.eqb_spec (length a) (length b)) as [E|E]; cbn [andb].
  2:{ symmetry. apply bool_decide_eq_false. intros H. apply E. by rewrite <- (length_fmap upper a), H, length_fmap. }
  rewrite match_count_all by done. revert b Hb E. induction Ha as [|x a Hx Ha IH]; intros [|y b] Hb E; cbn in *; [done|done|done|].
  apply Forall_cons in Hb as [Hy Hb]. rewrite char_equal_upper by done. rewrite IH by (done || lia). destruct (Z.eqb_spec (upper x) (upper y)) as [Exy|Exy]; cbn.
  - apply bool_decide_ext. split; [intros ->; by rewrite Exy|by intros [= _ ?]].
  - symmetry. apply bool_decide_eq_false. by intros [= ? _].
Qed.

(** The hash of the exFAT specification: over the bytes of the name in upper case and in characters of two bytes. *)
Definition spec_hash (l : list Z) : Z := fold_left (fun sum b => w16 (rotate 16 sum + b)) (l ≫= (fun ch => [upper ch; 0])) 0.

Lemma lor_range k a b : 0 < k -> 0 <= a < 2 ^ k -> 0 <= b < 2 ^ k -> 0 <= Z.lor a b < 2 ^ k.
Proof.
  intros Hk Ha Hb. split; [apply Z.lor_nonneg; lia|]. destruct (Z.eq_dec (Z.lor a b) 0) as [->|Hn]; [lia|].
  assert (0 <= Z.lor a b) by (apply Z.lor_nonneg; lia). apply Z.log2_lt_pow2; [lia|]. rewrite Z.log2_lor by lia.
  assert (Hl : forall c, 0 <= c < 2 ^ k -> Z.log2 c < k) by (intros c Hc; destruct (Z.eq_dec c 0) as [->|]; [done|apply Z.log2_lt_pow2; lia]).
  by apply Z.max_lub_lt; apply Hl.
Qed.

Lemma rotate16_range s : 0 <= s < 65536 -> 0 <= rotate 16 s < 65536.
Proof.
  intros Hs. apply (lor_range 16); [lia|destruct (_ =? 0); done|]. rewrite Z.shiftr_div_pow2 by lia. change (2 ^ 1) with 2. change (2 ^ 16) with 65536. dlia.
Qed.

Lemma name_hash_fold l sum : 0 <= sum < 65536 -> fold_left hash_step l sum = fold_left (fun sum b => w16 (rotate 16 sum + b)) (l ≫= (fun ch => [upper ch; 0])) sum.
Proof.
  revert sum. induction l as [|ch l IH]; intros sum Hs; [done|]. cbn. assert (Hw : 0 <= w16 (rotate 16 sum + upper ch) < 65536) by (apply (wrap_range 16); lia).
  rewrite Z.add_0_r, (wrap_small 16 (rotate 16 (w16 _))) by (apply rotate16_range; done). apply IH. by apply rotate16_range.
Qed.

(** Names are compared without regard to case, and the hash goes with it: [name_equal] is equality of the names in upper case, hence an equivalence,
    equal names have equal hashes, and the hash is the one of the exFAT specification, taken over the characters as two
    bytes each although the code reads them as one. *)
Theorem names_agree a b : is_bytes a -> is_bytes b ->
  name_equal a b = bool_decide (upper <$> a = upper <$> b) /\ (name_equal a b = true -> name_hash a = name_hash b) /\ name_hash a = spec_hash a.
Proof.
  intros Ha Hb. split; [by apply name_equal_spec|]. split; [|by apply name_hash_fold].
  rewrite name_equal_spec by done. intros E. apply bool_decide_eq_true in E. unfold name_hash. generalize 0. revert b Hb E.
  induction Ha as [|x a Hx Ha IH]; intros [|y b] Hb E sum; cbn in *; try done. apply Forall_cons in Hb as [Hy Hb]. injection E as Exy E.
  unfold hash_step at 2 4. rewrite Exy. by apply IH.
Qed.

(** ** Where the bytes of a file are *)

(** Sectors of a cluster. *)
Definition spc (x : exfat) : Z := 2 ^ (cluster_shift x - 9).

Record heap_ok (x : exfat) : Prop := {
  hp_shift : 9 <= cluster_shift x <= 25;
  hp_pages : page_lba (table x + fat_sectors x - 1) < page_lba (heap x);
  hp_end : heap x + cluster_count x * spc x < 2 ^ 64
}.

Definition cluster_addr (x : exfat) (c : Z) : Z := addr_of (heap x + (c - 2) * spc x).

(** The cluster of an index: that of the chain, or for a file in one piece the one so many places behind the first. *)
Definition cluster_of (x : exfat) (f : Z -> Z) (c : cluster_chain) (i : Z) : option Z :=
  if linear c then
    (if (first_cluster c =? 0) || negb (bool_decide (2 <= first_cluster c + i < cluster_count x + 2)) then None else Some (first_cluster c + i))
  else entry x f c i.

(** The address of a byte of a file on the disk. *)
Definition loc (x : exfat) (f : Z -> Z) (c : cluster_chain) (off : Z) : option Z :=
  (fun cl => cluster_addr x cl + off mod cluster_size x) <$> cluster_of x f c (off / cluster_size x).

Definition file_ok (x : exfat) (f : Z -> Z) (c : cluster_chain) : Prop :=
  (linear c = true /\ cluster_ok x (first_cluster c)) \/ (linear c = false /\ head_ok x c /\ cache_ok x f c).

(** An index that the arithmetic of the code does not wrap around with. *)
Definition index_ok (c : cluster_chain) (i : Z) : Prop := 0 <= i < 2 ^ 32 /\ (linear c = true -> first_cluster c + i < 0xFFFFFFF7).

Lemma spc_pos x : heap_ok x -> 0 < spc x <= 65536.
Proof. intros Hh. pose proof (hp_shift _ Hh). unfold spc. split; [apply Z.pow_pos_nonneg; lia|]. change 65536 with (2 ^ 16). apply Z.pow_le_mono_r; lia. Qed.

Lemma cluster_size_spc x : heap_ok x -> cluster_size x = SECTOR_SIZE * spc x.
Proof.
  intros Hh. pose proof (hp_shift _ Hh). unfold cluster_size, spc, SECTOR_SIZE. rewrite Z.mod_small, Z.shiftl_1_l by lia.
  rewrite wrap_small by (split; [apply Z.pow_nonneg; lia|apply Z.pow_lt_mono_r; lia]). change 0x200 with (2 ^ 9). rewrite <- Z.pow_add_r by lia. f_equal. lia.
Qed.

Lemma fat_before_heap x : heap_ok x -> table x + fat_sectors x <= heap x.
Proof.
  intros Hl. pose proof (hp_pages _ Hl). destruct (decide (table x + fat_sectors x <= heap x)); [done|].
  pose proof (page_lba_mono (heap x) (table x + fat_sectors x - 1) ltac:(lia)). lia.
Qed.

Lemma lba_of_cluster_ok x c : layout x -> heap_ok x -> cluster_ok x c ->
  lba_of_cluster x c = Ok (heap x + (c - 2) * spc x) /\ 0 < heap x /\ heap x + (c - 2) * spc x + spc x <= heap x + cluster_count x * spc x.
Proof.
  intros Hl Hh [Hc1 Hc2]. pose proof (l_count _ Hl). pose proof (l_table _ Hl). pose proof (fat_before_heap x Hh). pose proof (spc_pos x Hh). pose proof (hp_end _ Hh).
  assert (0 <= fat_sectors x) by (unfold fat_sectors; dlia). unfold lba_of_cluster. rewrite ensure_true by (apply andb_true_iff; split; [apply Z.leb_le|apply Z.ltb_lt]; lia). cbn [obind].
  rewrite (wrap_small 32) by lia. destruct (Z.leb_spec (cluster_count x) (c - 2)); [lia|]. rewrite cluster_size_spc by done.
  replace (SECTOR_SIZE * spc x / SECTOR_SIZE) with (spc x) by (unfold SECTOR_SIZE; rewrite Z.mul_comm, Z.div_mul; lia).
  assert ((c - 2) * spc x + spc x <= cluster_count x * spc x) by (replace ((c - 2) * spc x + spc x) with ((c - 1) * spc x) by lia; apply Z.mul_le_mono_nonneg_r; lia).
  assert (0 <= (c - 2) * spc x) by (apply Z.mul_nonneg_nonneg; lia). rewrite wrap_small by lia. split; [done|]. lia.
Qed.

Lemma cluster_of_ok x f c i v : fat_ok x f -> file_ok x f c -> cluster_of x f c i = Some v -> cluster_ok x v.
Proof.
  intros Hf Hok. unfold cluster_of. destruct Hok as [[El Hc]|(El & Hh & _)]; rewrite El.
  - destruct (_ || _) eqn:E; [done|]. bool_norm. by intros [= <-].
  - by apply entry_ok.
Qed.

Lemma chain_get_file x F c i d : layout x -> apart x F -> fat_ok x (bytes d) -> held d = F -> file_ok x (bytes d) c -> index_ok c i ->
  exists v c' d', chain_get x i c d = Ok (v, c', d') /\ held d' = F /\ same d d' /\ first_cluster c' = first_cluster c /\ linear c' = linear c /\
    file_ok x (bytes d) c' /\ (v = 0 \/ 2 <= v < 0xFFFFFFF7) /\ (v <> 0 -> cluster_ok x v -> cluster_of x (bytes d) c i = Some v) /\
    (v <> 0 -> ~ cluster_ok x v -> linear c = true /\ v = first_cluster c + i) /\
    (faults d = [] -> forall w, cluster_of x (bytes d) c i = Some w -> v = w).
Proof.
  intros Hl Ha Hf Hh Hok [Hi Hlin]. pose proof (l_count _ Hl). pose proof Hok as [[El Hc]|(El & Hhd & Hk)].
  - unfold chain_get. pose proof Hc as [Hc1 Hc2]. destruct (Z.eqb_spec (first_cluster c) 0); [lia|]. rewrite El. specialize (Hlin El). rewrite wrap_small by lia.
    do 3 eexists. split; [done|]. repeat (split; [done|]). split; [right; lia|].
    assert (E : cluster_ok x (first_cluster c + i) -> cluster_of x (bytes d) c i = Some (first_cluster c + i)).
    { intros Hv. unfold cluster_of. rewrite El. rewrite bool_decide_eq_true_2 by exact Hv. destruct (Z.eqb_spec (first_cluster c) 0); [lia|done]. }
    split; [by intros _|]. split; [by intros|]. intros _ w. unfold cluster_of. rewrite El. destruct (_ || _); [done|]. by intros [= <-].
  - destruct (chain_get_ok x F c i d Hl Ha Hf Hh Hhd El Hk Hi) as (v & c' & d' & -> & Hh' & Hs & Ef & El' & Hk' & Hv & Hok'). do 3 eexists. split; [done|].
    split; [done|]. split; [done|]. split; [done|]. split; [congruence|]. split; [right; split; [done|]; split; [unfold head_ok; by rewrite Ef|done]|].
    assert (Hvc : v <> 0 -> cluster_ok x v /\ entry x (bytes d) c i = Some v).
    { intros Hn. destruct Hv as [->|Hv]; [done|]. split; [by eapply entry_ok|done]. }
    split; [destruct (decide (v = 0)) as [->|Hn]; [by left|right]; destruct (Hvc Hn) as [[? ?] _]; lia|]. unfold cluster_of. rewrite El.
    split; [intros Hn _; by apply Hvc|]. split; [intros Hn Hnc; by destruct (Hvc Hn)|]. intros E w Ew. rewrite Hok' by done. by rewrite Ew.
Qed.

(** The sector of a byte in a cluster. *)
Lemma lba_in_cluster x v off : layout x -> heap_ok x -> cluster_ok x v -> 0 <= off -> exists base, lba_of_cluster x v = Ok base /\ base <> 0 /\
  let lba := w64 (base + off mod cluster_size x / SECTOR_SIZE) in
  heap x <= lba < heap x + cluster_count x * spc x /\ 0 < lba /\ cluster_addr x v + off mod cluster_size x = addr_of lba + off mod SECTOR_SIZE.
Proof.
  intros Hl Hh Hc Ho. pose proof (spc_pos x Hh) as Hsp. pose proof (cluster_size_spc x Hh) as Ecs.
  destruct (lba_of_cluster_ok x v Hl Hh Hc) as (E & Hpos & Hend). exists (heap x + (v - 2) * spc x). split; [done|]. pose proof (hp_end _ Hh). destruct Hc as [Hc1 Hc2].
  assert (0 <= (v - 2) * spc x) by (apply Z.mul_nonneg_nonneg; lia). split; [lia|]. cbn zeta.
  pose proof (Z.mod_pos_bound off (cluster_size x) ltac:(unfold SECTOR_SIZE in *; lia)) as Hm. rewrite Ecs in *. set (m := off mod (SECTOR_SIZE * spc x)) in *.
  assert (Hq : 0 <= m / SECTOR_SIZE < spc x) by (unfold SECTOR_SIZE in *; split; [dlia|apply Z.div_lt_upper_bound; lia]). rewrite wrap_small by lia. split; [lia|]. split; [lia|].
  unfold cluster_addr, addr_of. assert (off mod SECTOR_SIZE = m mod SECTOR_SIZE) as ->. (symmetry; apply Z.mod_mod_divide; exists (spc x); lia).
  fold m. unfold SECTOR_SIZE. dlia.
Qed.

(** [get_lba] finds the sector of a byte, or answers 0 when a read has failed or the file has no such byte. *)
Lemma get_lba_ok x F c off d : layout x -> heap_ok x -> apart x F -> fat_ok x (bytes d) -> held d = F -> file_ok x (bytes d) c -> 0 <= off -> index_ok c (off / cluster_size x) ->
  exists lba c' d', get_lba x off c d = Ok (lba, c', d') /\ held d' = F /\ same d d' /\ first_cluster c' = first_cluster c /\ linear c' = linear c /\ file_ok x (bytes d) c' /\
    (lba <> 0 -> loc x (bytes d) c off = Some (addr_of lba + off mod SECTOR_SIZE) /\ heap x <= lba < heap x + cluster_count x * spc x) /\
    (faults d = [] -> lba = 0 -> loc x (bytes d) c off = None).
Proof.
  intros Hl Hh Ha Hf Hhd Hok Ho Hi. pose proof (spc_pos x Hh) as Hsp. pose proof (cluster_size_spc x Hh) as Ecs. unfold get_lba. rewrite wrap_small by apply Hi.
  destruct (chain_get_file x F c _ d Hl Ha Hf Hhd Hok Hi) as (v & c' & d' & -> & Hh' & Hs & Ef & El & Hok' & Hv & Hv1 & Hv2 & Hv3). cbn [obind].
  destruct (Z.eqb_spec v 0) as [->|Hn].
  { exists 0, c', d'. repeat (split; [done|]). intros E _. unfold loc. destruct (cluster_of x (bytes d) c (off / cluster_size x)) as [w|] eqn:Ew; [|done].
    pose proof (Hv3 E w eq_refl) as E0. pose proof (cluster_of_ok x _ c _ w Hf Hok Ew) as [Hw _]. lia. }
  destruct (decide (cluster_ok x v)) as [Hc|Hc].
  - destruct (lba_in_cluster x v off Hl Hh Hc Ho) as (base & -> & Hb0 & Hr & Hpos & Ea). cbn [obind]. destruct (Z.eqb_spec base 0); [done|].
    do 3 eexists. repeat (split; [done|]). split; [|intros _ ?; lia]. intros _. split; [|done]. unfold loc. rewrite Hv1 by done. cbn. by rewrite Ea.
  - destruct (Hv2 Hn Hc) as [Elin Ev]. assert (Hc' : 2 <= v < 0xFFFFFFF7) by (destruct Hv; [done|lia]). unfold lba_of_cluster.
    rewrite ensure_true by (apply andb_true_iff; split; [apply Z.leb_le|apply Z.ltb_lt]; lia). cbn [obind]. rewrite wrap_small by lia. unfold cluster_ok in Hc.
    destruct (Z.leb_spec (cluster_count x) (v - 2)); [|lia]. cbn. exists 0, c', d'. repeat (split; [done|]). intros _ _. unfold loc, cluster_of. rewrite Elin.
    rewrite bool_decide_eq_false_2 by lia. by rewrite orb_true_r.
Qed.

(** ** Walking over a folder *)

(** The contents of a file. *)
Definition flat (x : exfat) (f : Z -> Z) (c : cluster_chain) (off : Z) : Z := match loc x f c off with Some a => f a | None => 0 end.
Definition mapped (x : exfat) (f : Z -> Z) (c : cluster_chain) (n : Z) : Prop := forall off, 0 <= off < n -> exists a, loc x f c off = Some a.

(** The reference: the records one after the other, [n] of them at most. *)
Fixpoint scan (n : nat) (mode hash : Z) (g : Z -> Z) (r : reader) : Z * reader :=
  match n with
  | O => (EOF_FAILURE, Reader [] (index r))
  | S n =>
      if g (record_size * index r) =? 0 then (EOF_FAILURE, Reader [] (index r))
      else
        let '(found, b) := record_step mode hash g (record_size * index r) (buf r) in
        let r := Reader b (index r + 1) in
        if found : bool then (0, r) else scan n mode hash g r
  end.

(** How many records are looked at: to the end of the sector in which the folder ends. *)
Definition top (limit : Z) : Z := (limit + 15) / 16 * 16.
Definition todo (limit : Z) (r : reader) : nat := if index r <? limit then Z.to_nat (top limit - index r) else O.

Lemma record_step_ext mode hash f g p q b : (forall k, 0 <= k < record_size -> f (p + k) = g (q + k)) -> record_step mode hash f p b = record_step mode hash g q b.
Proof.
  unfold record_size. intros H. unfold record_step.
  assert (E0 : f p = g q) by (specialize (H 0 ltac:(lia)); by rewrite !Z.add_0_r in H).
  assert (El : load_bytes record_size f p = load_bytes record_size g q).
  { unfold load_bytes, record_size. apply list_eq. intros i. rewrite !list_lookup_fmap. destruct (decide (Z.of_nat i < 32)).
    - rewrite !lookup_seqZ_lt by lia. cbn. f_equal. apply H. lia.
    - by rewrite !lookup_seqZ_ge by lia. }
  assert (E2 : load_le 2 f (p + 4) = load_le 2 g (q + 4)).
  { cbn [load_le]. rewrite <- !Z.add_assoc, !H by lia. done. }
  rewrite E0, El, E2, !H by lia. done.
Qed.

Lemma records_ext n mode hash f g : forall p q r, 0 <= index r < 2 ^ 31 - Z.of_nat n -> (forall k, 0 <= k < record_size * (16 - index r mod 16) -> f (p + k) = g (q + k)) ->
  records n mode hash f p r = records n mode hash g q r.
Proof.
  unfold record_size. induction n as [|n IH]; intros p q r Hr H; cbn [records]; [done|]. pose proof (Z.mod_pos_bound (index r) 16 ltac:(lia)).
  assert (E0 : f p = g q) by (specialize (H 0 ltac:(lia)); by rewrite !Z.add_0_r in H). rewrite E0. rewrite (record_step_ext mode hash f g p q) by (intros k Hk; unfold record_size in Hk; apply H; lia).
  destruct (g q =? 0); [done|]. destruct (record_step _ _ _ _ _) as [found b]. destruct found; [done|]. cbn [index]. unfold record_per_sector. rewrite wrap_small by lia.
  destruct (Z.eqb_spec ((index r + 1) mod 16) 0); [done|]. apply IH; cbn [index]; [lia|]. intros k Hk. unfold record_size. rewrite <- !Z.add_assoc. apply H. dlia.
Qed.

(** A sector of records is a part of the scan. *)
Lemma records_scan n mode hash g : forall r m, 0 <= index r < 2 ^ 31 - 16 -> 16 - index r mod 16 <= Z.of_nat n -> (Z.to_nat (16 - index r mod 16) <= m)%nat ->
  match records n mode hash g (record_size * index r) r with
  | (Some stat, r') => scan m mode hash g r = (stat, if stat =? 0 then r' else Reader [] (index r'))
  | (None, r') => index r' = (index r / 16 + 1) * 16 /\ scan m mode hash g r = scan (m - Z.to_nat (16 - index r mod 16)) mode hash g r'
  end.
Proof.
  induction n as [|n IH]; intros r m Hr Hn Hm; [pose proof (Z.mod_pos_bound (index r) 16 ltac:(lia)); lia|]. cbn [records].
  pose proof (Z.mod_pos_bound (index r) 16 ltac:(lia)). destruct m as [|m]; [lia|]. cbn [scan]. destruct (g (record_size * index r) =? 0); [done|].
  destruct (record_step mode hash g (record_size * index r) (buf r)) as [found b]. destruct found; cbn [index]; rewrite wrap_small by lia; [done|].
  unfold record_per_sector. destruct (Z.eqb_spec ((index r + 1) mod 16) 0) as [E|E].
  - cbn [index]. split; [dlia|]. f_equal. replace (Z.to_nat (16 - index r mod 16)) with 1%nat by dlia. lia.
  - specialize (IH (Reader b (index r + 1)) m). cbn [index] in IH. replace (record_size * index r + record_size) with (record_size * (index r + 1)) by (unfold record_size; lia).
    assert (Em : (index r + 1) mod 16 = index r mod 16 + 1) by dlia.
    assert (Hle : (Z.to_nat (16 - (index r + 1) mod 16) <= m)%nat) by lia.
    destruct (decide (index r + 1 < 2 ^ 31 - 16)) as [Hlt|Hge].
    + specialize (IH ltac:(lia) ltac:(lia) Hle). destruct (records n mode hash g _ _) as [[stat|] r']; [done|]. destruct IH as [Ei IH]. split; [rewrite Ei; dlia|]. rewrite IH. f_equal. lia.
    + exfalso. assert (index r = 2 ^ 31 - 17) as Ei by lia. rewrite Ei in E. by vm_compute in E.
Qed.

Definition apart_heap (x : exfat) (F : gset Z) : Prop := forall lba, heap x <= lba < heap x + cluster_count x * spc x -> page_lba lba ∉ F.

Lemma heap_fat_page x lba p : heap_ok x -> heap x <= lba -> fat_page x p -> p <> page_lba lba.
Proof.
  intros Hh Hl (s & Hs & ->). pose proof (hp_pages _ Hh). pose proof (page_lba_mono (table x + s) (table x + fat_sectors x - 1) ltac:(lia)).
  pose proof (page_lba_mono (heap x) lba ltac:(lia)). lia.
Qed.

(** The slot of a sector of the heap may be held while the FAT is read. *)
Definition heap_slot (x : exfat) (o : option Z) : Prop := forall p, o = Some p -> exists lba, heap x <= lba /\ p = page_lba lba.

Lemma apart_slot x o F : heap_ok x -> apart x F -> heap_slot x o -> apart x (hold o ∪ F).
Proof.
  intros Hh Ha Ho p Hp. apply not_elem_of_union. split; [|by apply Ha]. destruct o as [q|]; cbn; [|set_solver]. apply not_elem_of_singleton.
  destruct (Ho q eq_refl) as (lba & Hl & ->). by apply (heap_fat_page x).
Qed.

Lemma loc_shift x f c off k a : 0 < cluster_size x -> 0 <= off -> loc x f c off = Some a -> 0 <= k -> off mod cluster_size x + k < cluster_size x -> loc x f c (off + k) = Some (a + k).
Proof.
  intros Hcs Ho Ha Hk Hb. unfold loc in *. pose proof (Z.mod_pos_bound off (cluster_size x) Hcs).
  assert (Ed : (off + k) / cluster_size x = off / cluster_size x).
  { symmetry. apply (Z.div_unique_pos _ _ _ (off mod cluster_size x + k)); [lia|]. rewrite (Z.div_mod off (cluster_size x)) at 1 by lia. lia. }
  rewrite Ed. destruct (cluster_of x f c (off / cluster_size x)) as [cl|]; [|done]. cbn in *. injection Ha as <-. f_equal.
  assert ((off + k) mod cluster_size x = off mod cluster_size x + k) as ->; [|lia].
  rewrite Z.mod_eq by lia. rewrite Ed. rewrite (Z.mod_eq off) by lia. lia.
Qed.

Lemma index_ok_le c i j : index_ok c j -> 0 <= i <= j -> index_ok c i.
Proof. intros [Hj Hl] Hi. split; [lia|]. intros E. specialize (Hl E). lia. Qed.

(** What all walks over a folder leave: [p] is what the reader answers. *)
Record walked (x : exfat) (F : gset Z) (d : disk) (c : cluster_chain) (c' : cluster_chain) (d' : disk) : Prop := {
  wk_held : held d' = F;
  wk_same : same d d';
  wk_file : file_ok x (bytes d) c';
  wk_first : first_cluster c' = first_cluster c;
  wk_linear : linear c' = linear c
}.

Lemma loc_chain x f c c' off : first_cluster c' = first_cluster c -> linear c' = linear c -> loc x f c' off = loc x f c off.
Proof. intros E1 E2. unfold loc, cluster_of, entry. by rewrite E1, E2. Qed.

Lemma done_ok x F stat o r c d : file_ok x (bytes d) c -> slots o F d ->
  exists d', done stat o r c d = Ok (stat, if stat =? 0 then r else Reader [] (index r), c, d') /\ walked x F d c c d'.
Proof.
  intros Hok Hs. unfold done. destruct (relax_opt_ok _ _ _ Hs) as (d' & -> & Hh & Hsm). cbn [obind]. eexists. split; [done|]. by constructor.
Qed.

Lemma walked_trans x F d c c1 d1 c2 d2 : same d d1 -> first_cluster c1 = first_cluster c -> linear c1 = linear c -> walked x F d1 c1 c2 d2 -> walked x F d c c2 d2.
Proof. intros Hs E1 E2 [H1 H2 H3 H4 H5]. pose proof Hs as [Hb _]. rewrite Hb in H3. constructor; [done|by eapply same_trans|done|congruence|congruence]. Qed.

Lemma walk_count x off lba : heap_ok x -> 0 <= off -> 0 < lba ->
  let bs := Z.min (w32 (cluster_size x - off mod cluster_size x)) (w32 (count_of lba * SECTOR_SIZE - off mod SECTOR_SIZE)) in
  truth bs = true /\ w8 (align_up 32 bs SECTOR_SIZE / SECTOR_SIZE) <= count_of lba.
Proof.
  intros Hh Ho Hl bs. pose proof (spc_pos x Hh). pose proof (cluster_size_spc x Hh) as Ecs. pose proof (DiskCache.CacheThm.count_of_ok lba) as Ec.
  pose proof (DiskCache.CacheThm.page_lba_range lba) as Hp. assert (Hn : 1 <= count_of lba <= 8) by lia. unfold SECTOR_SIZE in *.
  pose proof (Z.mod_pos_bound off (cluster_size x) ltac:(lia)). pose proof (Z.mod_pos_bound off 512 ltac:(lia)).
  assert (Hbs : 0 < bs <= count_of lba * 512) by (unfold bs; rewrite !wrap_small by lia; lia). split; [apply truth_pos; lia|].
  pose proof (align_up_pow2 32 bs 9 ltac:(lia) ltac:(lia) ltac:(lia)) as Ea. change (2 ^ 9) with 512 in Ea.
  rewrite Ea, Z.div_mul by lia. assert ((bs + 512 - 1) / 512 <= count_of lba) by dlia. rewrite wrap_small by (split; [dlia|lia]). lia.
Qed.

Lemma record_off i : record_size * (i mod record_per_sector) = (record_size * i) mod SECTOR_SIZE.
Proof. unfold SECTOR_SIZE, record_size, record_per_sector. change 0x200 with (32 * 16). by rewrite Z.mul_mod_distr_l. Qed.

Lemma sector_in_cluster off s : 0 < s -> off mod (SECTOR_SIZE * s) + (SECTOR_SIZE - off mod SECTOR_SIZE) <= SECTOR_SIZE * s.
Proof.
  intros Hs. unfold SECTOR_SIZE. rewrite Z.rem_mul_r by lia. pose proof (Z.mod_pos_bound (off / 0x200) s Hs). lia.
Qed.

Lemma top_range limit : 0 <= limit <= 2 ^ 27 - 16 -> limit <= top limit <= 2 ^ 27 - 1 /\ top limit mod 16 = 0.
Proof. intros H. unfold top. split; [dlia|apply Z.mod_mul; lia]. Qed.

Lemma top_room limit i : 0 <= i < limit -> 16 - i mod 16 <= top limit - i.
Proof. unfold top. intros. dlia. Qed.

(** The next sector. *)
Lemma todo_next limit r r' : 0 <= index r < limit -> index r' = (index r / 16 + 1) * 16 ->
  (Z.to_nat (top limit - index r) - Z.to_nat (16 - index r mod 16))%nat = todo limit r' /\
  forall n, (top limit - index r / 16 * 16) / 16 < Z.of_nat (S n) -> if index r' <? limit then (top limit - index r' / 16 * 16) / 16 < Z.of_nat n else 0 < Z.of_nat n.
Proof.
  intros Hr E. unfold todo. rewrite E. unfold top. split.
  - destruct (Z.ltb_spec ((index r / 16 + 1) * 16) limit); dlia.
  - intros n Hn. destruct (Z.ltb_spec ((index r / 16 + 1) * 16) limit); [rewrite Z.div_mul by lia|]; dlia.
Qed.

Lemma folder_walk_ok x F mode hash limit : layout x -> heap_ok x -> apart x F -> apart_heap x F -> 0 <= limit <= 2 ^ 27 - 16 -> forall n block r c d,
  fat_ok x (bytes d) -> file_ok x (bytes d) c -> index_ok c (record_size * top limit / cluster_size x) -> slots block F d -> heap_slot x block -> 0 <= index r -> 
  (if index r <? limit then (top limit - index r / 16 * 16) / 16 < Z.of_nat n else 0 < Z.of_nat n) ->
  exists stat r' c' d', walk n mode hash limit x block r c d = Ok (stat, r', c', d') /\ walked x F d c c' d' /\
    (stat = 0 \/ buf r' = [] /\ (stat = EOF_FAILURE \/ stat = FS_FAILURE \/ stat = MEDIA_FAILURE)) /\
    (faults d = [] -> mapped x (bytes d) c (record_size * top limit) -> (stat, r') = scan (todo limit r) mode hash (flat x (bytes d) c) r).
Proof.
  intros Hl Hh Ha Hah Hlim. pose proof (spc_pos x Hh) as Hsp. pose proof (cluster_size_spc x Hh) as Ecs.
  induction n as [|n IH]; intros block r c d Hf Hok Hix Hs Hhs Hr Hn.
  { exfalso. clear -Hn Hr. destruct (Z.ltb_spec (index r) limit); [|lia]. unfold top in Hn. dlia. }
  cbn [walk]. unfold todo.
  destruct (Z.ltb_spec (index r) limit) as [Hlt|Hge].
  2:{ destruct (done_ok x F EOF_FAILURE block r c d Hok Hs) as (d' & -> & Hw). do 4 eexists. split; [done|]. split; [done|]. split; [right; split; [done|by left]|]. done. }
  pose proof (top_range limit Hlim) as [Htop _]. set (off := record_size * index r) in *.
  rewrite (wrap_small 32) by (unfold record_size in *; lia). replace (index r * record_size) with off by (unfold off; lia).
  assert (Hoff : 0 <= off < record_size * top limit) by (unfold off, record_size; lia).
  assert (Hix' : index_ok c (off / cluster_size x)) by (apply (index_ok_le c _ _ Hix); split; [apply Z.div_pos; unfold SECTOR_SIZE in *; lia|apply Z.div_le_mono; unfold SECTOR_SIZE in *; lia]).
  destruct (get_lba_ok x (hold block ∪ F) c off d Hl Hh (apart_slot x block F Hh Ha Hhs) Hf (proj1 Hs) Hok ltac:(lia) Hix') as (lba & c1 & d1 & -> & Hh1 & Hsm1 & Ef1 & El1 & Hok1 & Hlba & Hnone).
  cbn [obind]. pose proof Hsm1 as [Hb1 Hf1]. assert (Hs1 : slots block F d1) by (split; [done|apply Hs]).
  destruct (Z.eqb_spec lba 0) as [E0|E0].
  { rewrite <- Hb1 in Hok1. destruct (done_ok x F FS_FAILURE block r c1 d1 Hok1 Hs1) as (d' & -> & Hw). do 4 eexists. split; [done|]. split; [by eapply walked_trans|].
    split; [right; split; [done|auto]|]. intros E Hm. destruct (Hm off ltac:(lia)) as [a Hloc]. by rewrite (Hnone E E0) in Hloc. }
  destruct (Hlba E0) as [Hloc Hheap]. pose proof (fat_before_heap x Hh). pose proof (l_table _ Hl). assert (0 <= fat_sectors x) by (pose proof (l_count _ Hl); unfold fat_sectors; dlia).
  rewrite land_SECTOR_MASK. destruct (walk_count x off lba Hh ltac:(lia) ltac:(lia)) as [Htr Hcnt]. cbn zeta in Htr, Hcnt. rewrite ensure_true by exact Htr. cbn [obind].
  destruct (relax_opt_ok _ _ _ Hs1) as (d2 & -> & Hh2 & Hsm2). cbn [obind]. pose proof Hsm2 as [Hb2 Hf2]. assert (Hsm : same d d2) by (by eapply same_trans).
  destruct (dm_get_ok lba _ false F d2 Hh2 (Hah lba Hheap) Hcnt) as [(d3 & -> & Hs3 & Hf3 & Hb3)|(d3 & -> & Hh3 & Hb3 & Hf3)]; cbn [obind negb]; cbn iota in Hb3.
  2:{ assert (Hs3 : slots None F d3) by (split; [rewrite Hh3; cbn; set_solver|done]). assert (Hok3 : file_ok x (bytes d3) c1) by (by rewrite Hb3, Hb2, Hb1).
      destruct (done_ok x F MEDIA_FAILURE None r c1 d3 Hok3 Hs3) as (d' & -> & Hw). do 4 eexists. split; [done|].
      split; [by eapply (walked_trans x F d c c1 d3); [split; [congruence|intros E; by destruct (Hf3 (Hf2 (Hf1 E)))]|done|done|]|]. split; [right; split; [done|auto]|]. intros E. by destruct (Hf3 (Hf2 (Hf1 E))). }
  assert (Hb : bytes d3 = bytes d) by congruence. rewrite Hb. assert (Hsm3 : same d d3) by (split; [done|auto]).
  pose proof (record_off (index r)) as Hmod. fold off in Hmod. rewrite Hmod. assert (Eflat : records (Z.to_nat record_per_sector) mode hash (bytes d) (addr_of lba + off mod SECTOR_SIZE) r = records (Z.to_nat record_per_sector) mode hash (flat x (bytes d) c) off r).
  { apply records_ext; [unfold record_per_sector; lia|]. intros k Hk. unfold flat. assert (Hk' : off mod SECTOR_SIZE + k < SECTOR_SIZE).
    { rewrite <- Hmod. unfold record_size, record_per_sector, SECTOR_SIZE in *. lia. }
    rewrite (loc_shift x _ c off k _ ltac:(unfold SECTOR_SIZE in *; lia) ltac:(lia) Hloc ltac:(lia)); [done|].
    rewrite Ecs. pose proof (sector_in_cluster off (spc x) ltac:(lia)). lia. }
  rewrite Eflat. pose proof (records_scan (Z.to_nat record_per_sector) mode hash (flat x (bytes d) c) r (Z.to_nat (top limit - index r)) ltac:(lia) ltac:(unfold record_per_sector; pose proof (Z.mod_pos_bound (index r) 16 ltac:(lia)); lia) ltac:(pose proof (top_room limit (index r) ltac:(lia)); lia)) as Hscan.
  fold off in Hscan. assert (Hok3 : file_ok x (bytes d3) c1) by (by rewrite Hb).
  destruct (records _ mode hash (flat x (bytes d) c) off r) as [[stat|] r'] eqn:Er.
  - destruct (done_ok x F stat (Some (page_lba lba)) r' c1 d3 Hok3 Hs3) as (d' & -> & Hw). do 4 eexists. split; [done|]. split; [by eapply walked_trans|].
    split; [|by rewrite Hscan]. assert (stat = 0 \/ stat = EOF_FAILURE) as [->| ->]; [|by left|right; split; [done|by left]].
    clear -Er. revert Er. generalize (Z.to_nat record_per_sector), off, r. induction n as [|n IH]; intros p q; cbn; [done|]. destruct (_ =? 0); [intros [= <- _]; by right|].
    destruct (record_step _ _ _ _ _) as [[] b]; [intros [= <- _]; by left|]. destruct (_ =? 0); [done|]. apply IH.
  - destruct Hscan as [Ei Hscan]. destruct (todo_next limit r r' ltac:(lia) Ei) as [Etd Hfuel]. assert (Hs3' : heap_slot x (Some (page_lba lba))) by (intros p [= <-]; exists lba; split; [lia|done]).
    destruct (IH (Some (page_lba lba)) r' c1 d3) as (stat & r2 & c2 & d4 & -> & Hw & Hst & Hspec); [by rewrite Hb|done|unfold index_ok; rewrite El1, Ef1; apply Hix|done|done|rewrite Ei; pose proof (Z.div_pos (index r) 16 ltac:(lia) ltac:(lia)); lia| |].
    + by apply Hfuel.
    + exists stat, r2, c2, d4. split; [done|]. split; [by eapply walked_trans|]. split; [done|]. intros E Hm. rewrite Hscan. rewrite Hspec; [|by apply Hsm3|intros o Ho; rewrite Hb, (loc_chain x _ c c1) by done; by apply Hm].
      assert (Efl : flat x (bytes d3) c1 = flat x (bytes d) c). { unfold flat. rewrite Hb. unfold loc, cluster_of, entry. by rewrite Ef1, El1. }
      by rewrite Efl, <- Etd.
Qed.

(** A folder that can be walked over. *)
Record folder_ok (x : exfat) (F : gset Z) (i : inode) (d : disk) : Prop := {
  fo_layout : layout x;
  fo_heap : heap_ok x;
  fo_fat : apart x F;
  fo_clusters : apart_heap x F;
  fo_table : fat_ok x (bytes d);
  fo_held : held d = F;
  fo_file : file_ok x (bytes d) (clusters i);
  fo_size : 0 <= valid_size i <= 2 ^ 32 - 512;
  fo_index : index_ok (clusters i) (record_size * top (limit_of i) / cluster_size x)
}.

Definition contents (x : exfat) (i : inode) (d : disk) : Z -> Z := flat x (bytes d) (clusters i).
Definition readable (x : exfat) (i : inode) (d : disk) : Prop := faults d = [] /\ mapped x (bytes d) (clusters i) (record_size * top (limit_of i)).

Lemma limit_range x F i d : folder_ok x F i d -> 0 <= limit_of i <= 2 ^ 27 - 16.
Proof. intros Ho. pose proof (fo_size _ _ _ _ Ho). unfold limit_of, record_size. rewrite wrap_small by dlia. dlia. Qed.

Lemma folder_walked x F i d c d' : folder_ok x F i d -> walked x F d (clusters i) c d' -> folder_ok x F (set_clusters c i) d'.
Proof.
  intros [] [W1 [W2 _] W3 W4 W5]. constructor; cbn [clusters set_clusters valid_size]; try done; rewrite ?W2; try done. unfold index_ok. by rewrite W4, W5.
Qed.

Lemma flat_walked x F i d c d' : walked x F d (clusters i) c d' -> contents x (set_clusters c i) d' = contents x i d /\
  (readable x i d -> readable x (set_clusters c i) d').
Proof.
  intros [W1 [W2 W3] _ W4 W5]. unfold contents, readable, flat. cbn [clusters set_clusters]. rewrite W2. split.
  - unfold loc, cluster_of, entry. by rewrite W4, W5.
  - intros [Hf Hm]. split; [auto|]. intros off Ho. rewrite (loc_chain x _ (clusters i) c) by done. by apply Hm.
Qed.

Lemma step_ok x F mode hash i r d : folder_ok x F i d -> 0 <= index r ->
  exists stat r' c' d', step mode hash x i r d = Ok (stat, r', set_clusters c' i, d') /\ walked x F d (clusters i) c' d' /\
    (stat = 0 \/ buf r' = [] /\ (stat = EOF_FAILURE \/ stat = FS_FAILURE \/ stat = MEDIA_FAILURE)) /\
    (readable x i d -> (stat, r') = scan (todo (limit_of i) r) mode hash (contents x i d) r).
Proof.
  intros Ho Hr. pose proof (limit_range x F i d Ho) as Hlim. unfold step.
  destruct (folder_walk_ok x F mode hash (limit_of i) (fo_layout _ _ _ _ Ho) (fo_heap _ _ _ _ Ho) (fo_fat _ _ _ _ Ho) (fo_clusters _ _ _ _ Ho) Hlim
    (S (S (Z.to_nat (limit_of i / record_per_sector)))) None r (clusters i) d) as (stat & r' & c' & d' & -> & Hw & Hst & Hspec); try apply Ho; try done.
  - split; [rewrite (fo_held _ _ _ _ Ho); cbn; set_solver|done].
  - unfold record_per_sector. destruct (Z.ltb_spec (index r) (limit_of i)); [|lia]. unfold top. dlia.
  - cbn [obind]. do 4 eexists. split; [done|]. split; [done|]. split; [done|]. intros [Hf Hm]. by apply Hspec.
Qed.

(** ** What is found *)

(** Three records that make a file whose name has up to fifteen characters. *)
Record set_at (mode hash : Z) (g : Z -> Z) (i : Z) : Prop := {
  s_type : g (record_size * i) = 0x85;
  s_count : g (record_size * i + 1) = 2;
  s_mode : Z.land (if truth (Z.land (g (record_size * i + 4)) FOLDER) then ALLOW_FOLDER else ALLOW_FILE) mode <> 0;
  s_stream : g (record_size * (i + 1)) = 0xC0;
  s_hash : truth (Z.land mode CHECK_HASH) = true -> load_le 2 g (record_size * (i + 1) + 4) = hash;
  s_name : g (record_size * (i + 2)) = 0xC1;
  s_sum : checksum (load_bytes 96 g (record_size * i)) = load_le 2 g (record_size * i + 2)
}.

Lemma size_app a n g p : Z.of_nat (length a) mod record_size = 0 -> 0 <= n -> size (a ++ load_bytes (record_size * n) g p) = size a + n.
Proof. intros Ha Hn. unfold size, record_size in *. rewrite length_app, length_load_bytes. dlia. Qed.

Lemma byte_at_load n g p i : 0 <= i < n -> byte_at (load_bytes n g p) i = g (p + i).
Proof. intros Hi. unfold byte_at. by rewrite load_bytes_lookup. Qed.

Lemma load_le_shift n f g a b : (forall k, 0 <= k < Z.of_nat n -> f (a + k) = g (b + k)) -> load_le n f a = load_le n g b.
Proof.
  revert a b. induction n as [|n IH]; intros a b H; cbn; [done|]. pose proof (H 0 ltac:(lia)) as H0. rewrite !Z.add_0_r in H0. rewrite H0. f_equal. f_equal. apply IH.
  intros k Hk. rewrite <- !Z.add_assoc. apply H. lia.
Qed.

Lemma field_load m n g p i : 0 <= i -> i + Z.of_nat m <= n -> field m (load_bytes n g p) i = load_le m g (p + i).
Proof. intros Hi Hm. unfold field. apply load_le_shift. intros k Hk. rewrite byte_at_load by lia. f_equal. lia. Qed.

Lemma load_records n m g p : 0 <= n -> 0 <= m -> load_bytes (record_size * n) g p ++ load_bytes (record_size * m) g (p + record_size * n) = load_bytes (record_size * (n + m)) g p.
Proof. intros Hn Hm. rewrite Z.mul_add_distr_l. symmetry. apply load_bytes_app; unfold record_size; lia. Qed.

Lemma first_record mode hash g p b : g p = 0x85 -> 2 <= g (p + 1) -> truth mode = true -> Z.land (if truth (Z.land (g (p + 4)) FOLDER) then ALLOW_FOLDER else ALLOW_FILE) mode <> 0 ->
  record_step mode hash g p b = (false, load_bytes record_size g p).
Proof.
  intros H1 H2 Hm H3. unfold record_step. rewrite H1, Hm. cbn [andb Z.ltb Z.compare Pos.compare Pos.compare_cont Z.eqb Pos.eqb]. destruct (Z.ltb_spec (g (p + 1)) 2); [lia|]. cbn [orb].
  by rewrite (proj2 (Z.eqb_neq _ _) H3).
Qed.

Lemma stream_record mode hash g p b : g p = 0xC0 -> size b = 1 -> truth mode = true -> (truth (Z.land mode CHECK_HASH) = true -> load_le 2 g (p + 4) = hash) ->
  record_step mode hash g p b = (false, b ++ load_bytes record_size g p).
Proof.
  intros H1 H2 Hm H3. unfold record_step. rewrite H1, Hm, H2. cbn [andb Z.ltb Z.compare Pos.compare Pos.compare_cont Z.eqb Pos.eqb negb orb].
  destruct (truth (Z.land mode CHECK_HASH)); [|done]. by rewrite H3, Z.eqb_refl.
Qed.

Lemma name_record mode hash g p b : g p = 0xC1 -> 2 <= size b -> truth mode = true -> let b' := b ++ load_bytes record_size g p in
  record_step mode hash g p b = if size b' <? byte_at b' 1 then (false, b') else if checksum b' =? field 2 b' 2 then (true, b') else (false, []).
Proof.
  intros H1 H2 Hm b'. unfold record_step. rewrite H1, Hm. cbn [andb Z.ltb Z.compare Pos.compare Pos.compare_cont Z.eqb Pos.eqb negb orb]. destruct (Z.ltb_spec (size b) 2); [lia|done].
Qed.

Lemma scan_step n mode hash g r found b : g (record_size * index r) <> 0 -> record_step mode hash g (record_size * index r) (buf r) = (found, b) ->
  scan (S n) mode hash g r = if found : bool then (0, Reader b (index r + 1)) else scan n mode hash g (Reader b (index r + 1)).
Proof. intros H E. cbn [scan]. rewrite (proj2 (Z.eqb_neq _ _) H), E. done. Qed.

Lemma scan_set n mode hash g r : truth mode = true -> set_at mode hash g (index r) ->
  scan (S (S (S n))) mode hash g r = (0, Reader (load_bytes 96 g (record_size * index r)) (index r + 3)).
Proof.
  intros Hm [H1 H2 H3 H4 H5 H6 H7]. set (i := index r) in *.
  rewrite (scan_step _ _ _ _ _ false (load_bytes (record_size * 1) g (record_size * i))); fold i; [|by rewrite H1|apply first_record; [done|lia|done|done]].
  assert (E1 : record_step mode hash g (record_size * (i + 1)) (load_bytes (record_size * 1) g (record_size * i)) = (false, load_bytes (record_size * 2) g (record_size * i))).
  { rewrite stream_record; [|done|done|done|done]. f_equal. replace (record_size * (i + 1)) with (record_size * i + record_size * 1) by lia. by rewrite (load_records 1 1). }
  rewrite (scan_step _ _ _ _ _ false (load_bytes (record_size * 2) g (record_size * i))); cbn [index buf]; fold i; [|rewrite ?H4; done|exact E1].
  replace (i + 1 + 1) with (i + 2) by lia.
  assert (E2 : record_step mode hash g (record_size * (i + 2)) (load_bytes (record_size * 2) g (record_size * i)) = (true, load_bytes 96 g (record_size * i))).
  { rewrite name_record; [|done|done|done]. replace (record_size * (i + 2)) with (record_size * i + record_size * 2) by lia. rewrite (load_records 2 1) by lia.
    change (record_size * (2 + 1)) with 96. rewrite byte_at_load, H2, field_load, H7, Z.eqb_refl by lia. done. }
  rewrite (scan_step _ _ _ _ _ true (load_bytes 96 g (record_size * i))); cbn [index buf]; [|by rewrite H6|exact E2]. do 2 f_equal. lia.
Qed.

(** What the search passes: a record that is none of a file, and a file that it does not ask for. *)
Inductive skipped (mode hash : Z) (g : Z -> Z) : Z -> Z -> Prop :=
  | skip_nil i : skipped mode hash g i i
  | skip_other i j : g (record_size * i) <> 0 -> g (record_size * i) <> 0x85 -> g (record_size * i) <> 0xC0 -> g (record_size * i) <> 0xC1 ->
      skipped mode hash g (i + 1) j -> skipped mode hash g i j
  | skip_file i j : g (record_size * i) = 0x85 -> g (record_size * i + 1) = 2 -> g (record_size * (i + 1)) = 0xC0 -> g (record_size * (i + 2)) = 0xC1 ->
      (Z.land (if truth (Z.land (g (record_size * i + 4)) FOLDER) then ALLOW_FOLDER else ALLOW_FILE) mode = 0 \/
       truth (Z.land mode CHECK_HASH) = true /\ load_le 2 g (record_size * (i + 1) + 4) <> hash) ->
      skipped mode hash g (i + 3) j -> skipped mode hash g i j.

Lemma skipped_le mode hash g i j : skipped mode hash g i j -> i <= j.
Proof. induction 1; lia. Qed.

Lemma other_record mode hash g p b : g p <> 0x85 -> g p <> 0xC0 -> g p <> 0xC1 -> record_step mode hash g p b = (false, []).
Proof.
  intros H1 H2 H3. unfold record_step. rewrite (proj2 (Z.eqb_neq _ _) H1), (proj2 (Z.eqb_neq _ _) H2), (proj2 (Z.eqb_neq _ _) H3). by destruct (_ && _).
Qed.

Lemma stream_drop mode hash g p b : g p = 0xC0 -> size b <> 1 \/ truth (Z.land mode CHECK_HASH) = true /\ load_le 2 g (p + 4) <> hash -> record_step mode hash g p b = (false, []).
Proof.
  intros H1 H2. unfold record_step. rewrite H1. cbn [Z.ltb Z.compare Pos.compare Pos.compare_cont Z.eqb Pos.eqb]. destruct (truth mode); [|done]. cbn [andb].
  destruct H2 as [H2|[-> H2]]; [by rewrite (proj2 (Z.eqb_neq _ _) H2)|]. cbn [andb]. destruct (Z.eqb_spec hash (load_le 2 g (p + 4))); [congruence|]. by rewrite orb_true_r.
Qed.

Lemma name_drop mode hash g p b : g p = 0xC1 -> size b < 2 -> record_step mode hash g p b = (false, []).
Proof.
  intros H1 H2. unfold record_step. rewrite H1. cbn [Z.ltb Z.compare Pos.compare Pos.compare_cont Z.eqb Pos.eqb]. destruct (truth mode); [|done]. cbn [andb].
  destruct (Z.ltb_spec (size b) 2); [done|lia].
Qed.

Lemma scan_skipped mode hash g i j : truth mode = true -> skipped mode hash g i j -> forall n b, i < j -> j - i <= Z.of_nat n ->
  exists m b', scan n mode hash g (Reader b i) = scan m mode hash g (Reader b' j) /\ (Z.of_nat m = Z.of_nat n - (j - i)).
Proof.
  intros Hm Hs. induction Hs as [i|i j H0 H1 H2 H3 Hs IH|i j H0 H1 H2 H3 Hx Hs IH]; intros n b Hij Hn; [lia| |].
  - destruct n as [|n]; [lia|]. rewrite (scan_step n mode hash g (Reader b i) false []); cbn [index]; [|done|by apply other_record].
    destruct (decide (i + 1 = j)) as [E|E]; [exists n, []; split; [by rewrite E|lia]|]. pose proof (skipped_le _ _ _ _ _ Hs). destruct (IH n [] ltac:(lia) ltac:(lia)) as (m & b' & -> & Hm'). exists m, b'. split; [done|lia].
  - pose proof (skipped_le _ _ _ _ _ Hs). destruct n as [|[|[|n]]]; try lia.
    assert (E : exists b1 b2, record_step mode hash g (record_size * i) b = (false, b1) /\ record_step mode hash g (record_size * (i + 1)) b1 = (false, b2) /\ size b2 < 2).
    { destruct Hx as [Hx|[Hh Hx]].
      - exists [], []. split; [|split; [apply stream_drop; [done|by left]|done]]. unfold record_step. rewrite H0, Hm. cbn [andb Z.ltb Z.compare Pos.compare Pos.compare_cont Z.eqb Pos.eqb]. rewrite Hx. by rewrite orb_true_r.
      - destruct (decide (Z.land (if truth (Z.land (g (record_size * i + 4)) FOLDER) then ALLOW_FOLDER else ALLOW_FILE) mode = 0)) as [Hz|Hz].
        + exists [], []. split; [|split; [apply stream_drop; [done|by left]|done]]. unfold record_step. rewrite H0, Hm. cbn [andb Z.ltb Z.compare Pos.compare Pos.compare_cont Z.eqb Pos.eqb]. rewrite Hz. by rewrite orb_true_r.
        + eexists _, []. split; [apply first_record; [done|lia|done|done]|]. split; [apply stream_drop; [done|by right]|done]. }
    destruct E as (b1 & b2 & E1 & E2 & E3). rewrite (scan_step _ mode hash g (Reader b i) false b1); cbn [index buf]; [|by rewrite H0|done].
    rewrite (scan_step _ mode hash g (Reader b1 (i + 1)) false b2); cbn [index buf]; [|by rewrite H2|done]. replace (i + 1 + 1) with (i + 2) by lia.
    rewrite (scan_step _ mode hash g (Reader b2 (i + 2)) false []); cbn [index buf]; [|by rewrite H3|by apply name_drop]. replace (i + 2 + 1) with (i + 3) by lia.
    destruct (decide (i + 3 = j)) as [E|E]; [exists n, []; split; [by rewrite E|lia]|]. destruct (IH n [] ltac:(lia) ltac:(lia)) as (m & b' & -> & Hm'). exists m, b'. split; [done|lia].
Qed.


(** A file whose name has more than fifteen characters is not found: the reader takes the number of secondary records for the number of
    all, looks at the checksum one record too early, and drops the file. *)
Theorem long_name_lost n mode hash g b i : truth mode = true -> g (record_size * i) = 0x85 -> g (record_size * i + 1) = 3 -> g (record_size * (i + 1)) = 0xC0 ->
  g (record_size * (i + 2)) = 0xC1 -> g (record_size * (i + 3)) = 0xC1 ->
  checksum (load_bytes 96 g (record_size * i)) <> load_le 2 g (record_size * i + 2) ->
  scan (S (S (S (S n)))) mode hash g (Reader b i) = scan n mode hash g (Reader [] (i + 4)).
Proof.
  intros Hm H0 H1 H2 H3 H4 Hsum.
  assert (E : exists b1 b2, record_step mode hash g (record_size * i) b = (false, b1) /\ record_step mode hash g (record_size * (i + 1)) b1 = (false, b2) /\
    (size b2 < 2 \/ b2 = load_bytes (record_size * 2) g (record_size * i))).
  { destruct (decide (Z.land (if truth (Z.land (g (record_size * i + 4)) FOLDER) then ALLOW_FOLDER else ALLOW_FILE) mode = 0)) as [Hz|Hz].
    - exists [], []. split; [|split; [apply stream_drop; [done|by left]|by left]]. unfold record_step. rewrite H0, Hm. cbn [andb Z.ltb Z.compare Pos.compare Pos.compare_cont Z.eqb Pos.eqb]. rewrite Hz. by rewrite orb_true_r.
    - exists (load_bytes (record_size * 1) g (record_size * i)). destruct (decide (truth (Z.land mode CHECK_HASH) = true /\ load_le 2 g (record_size * (i + 1) + 4) <> hash)) as [Hh|Hh].
      + exists []. split; [apply first_record; [done|lia|done|done]|]. split; [apply stream_drop; [done|by right]|by left].
      + eexists. split; [apply first_record; [done|lia|done|done]|]. split; [apply stream_record; [done|done|done|]|].
        * intros Ht. destruct (decide (load_le 2 g (record_size * (i + 1) + 4) = hash)); [done|]. by destruct Hh.
        * right. replace (record_size * (i + 1)) with (record_size * i + record_size * 1) by lia. by apply (load_records 1 1). }
  destruct E as (b1 & b2 & E1 & E2 & E3). rewrite (scan_step _ mode hash g (Reader b i) false b1); cbn [index buf]; [|by rewrite H0|done].
  rewrite (scan_step _ mode hash g (Reader b1 (i + 1)) false b2); cbn [index buf]; [|by rewrite H2|done]. replace (i + 1 + 1) with (i + 2) by lia.
  assert (E4 : record_step mode hash g (record_size * (i + 2)) b2 = (false, [])).
  { destruct E3 as [E3| ->]; [by apply name_drop|]. rewrite name_record; [|done|done|done]. replace (record_size * (i + 2)) with (record_size * i + record_size * 2) by lia. rewrite (load_records 2 1) by lia.
    change (record_size * (2 + 1)) with 96. rewrite byte_at_load, H1, field_load by lia. cbn [Z.ltb]. change (size (load_bytes 96 g (record_size * i)) <? 3) with false. by rewrite (proj2 (Z.eqb_neq _ _) Hsum). }
  rewrite (scan_step _ mode hash g (Reader b2 (i + 2)) false []); cbn [index buf]; [|by rewrite H3|done]. replace (i + 2 + 1) with (i + 3) by lia.
  rewrite (scan_step _ mode hash g (Reader [] (i + 3)) false []); cbn [index buf]; [|by rewrite H4|by apply name_drop]. by replace (i + 3 + 1) with (i + 4) by lia.
Qed.

(** ** Changing a file's record *)

Lemma heap_addr x a c : layout x -> heap_ok x -> cluster_ok x c -> a < addr_of (heap x) -> addr_of (table x) + 4 * c + 4 <= addr_of (heap x).
Proof. intros Hl Hh Hc _. pose proof (fat_end x c Hl Hc). pose proof (addr_of_le _ _ (fat_before_heap x Hh)). lia. Qed.

(** Writes to the heap do not touch the FAT. *)
Lemma fat_heap_write x f f' : layout x -> heap_ok x -> (forall a, a < addr_of (heap x) -> f' a = f a) -> forall c, cluster_ok x c -> fat x f' c = fat x f c.
Proof. intros Hl Hh He c Hc. apply load_le_ext. intros a Ha. apply He. pose proof (heap_addr x (addr_of (heap x) - 1) c Hl Hh Hc ltac:(lia)). lia. Qed.

Lemma chain_heap_write x f f' : layout x -> heap_ok x -> fat_ok x f -> (forall a, a < addr_of (heap x) -> f' a = f a) ->
  fat_ok x f' /\ forall n c, cluster_ok x c -> chain_at x f' n c = chain_at x f n c.
Proof.
  intros Hl Hh Hf He. pose proof (fat_heap_write x f f' Hl Hh He) as Hfat. assert (Hn : forall c, cluster_ok x c -> next x f' c = next x f c) by (intros c Hc; unfold next; by rewrite Hfat).
  split.
  - intros c Hc v. rewrite Hn by done. by apply Hf.
  - induction n as [|n IH]; intros c Hc; [done|]. cbn. rewrite Hn by done. destruct (next x f c) as [v|] eqn:E; [|done]. cbn. apply IH. by apply (Hf c).
Qed.

Lemma file_heap_write x f f' c : layout x -> heap_ok x -> fat_ok x f -> file_ok x f c -> (forall a, a < addr_of (heap x) -> f' a = f a) ->
  fat_ok x f' /\ file_ok x f' c /\ (forall off, loc x f' c off = loc x f c off).
Proof.
  intros Hl Hh Hf Hok He. destruct (chain_heap_write x f f' Hl Hh Hf He) as [Hf' Hc]. split; [done|].
  assert (Hent : head_ok x c -> forall i, entry x f' c i = entry x f c i).
  { intros Hhd i. unfold entry. destruct (Z.eqb_spec (first_cluster c) 0); [done|]. apply Hc. by destruct Hhd. }
  split.
  - destruct Hok as [Hok|(El & Hhd & [K1 K2 K3 K4])]; [by left|right]. split; [done|]. split; [done|]. constructor; try done.
    eapply Forall_impl; [exact K1|]. cbn. intros l. by rewrite Hent.
  - intros off. unfold loc. f_equal. unfold cluster_of. destruct Hok as [[-> _]|(El & Hhd & _)]; [done|]. rewrite El. by apply Hent.
Qed.

Lemma length_le_bytes n v : length (le_bytes n v) = n.
Proof. unfold le_bytes. rewrite length_fmap, length_seqZ. lia. Qed.

Lemma length_patch n off v b : (Z.to_nat off + n <= length b)%nat -> length (patch n off v b) = length b.
Proof. intros H. unfold patch. rewrite !length_app, length_take, length_drop, length_le_bytes. lia. Qed.

Lemma byte_at_patch n off v b i : 0 <= off -> 0 <= i -> (Z.to_nat off + n <= length b)%nat ->
  byte_at (patch n off v b) i = if (off <=? i) && (i <? off + Z.of_nat n) then v / 256 ^ (i - off) mod 256 else byte_at b i.
Proof.
  intros Ho Hi Hl. unfold byte_at, patch. destruct (Z.leb_spec off i), (Z.ltb_spec i (off + Z.of_nat n)); cbn [andb]; try lia.
  - rewrite lookup_app_r, lookup_app_l by (rewrite ?length_take, ?length_le_bytes; lia). unfold le_bytes. rewrite list_lookup_fmap, lookup_seqZ_lt by (rewrite length_take; lia). cbn.
    rewrite length_take. do 3 f_equal. lia.
  - rewrite lookup_app_r, lookup_app_r by (rewrite ?length_app, ?length_take, ?length_le_bytes; lia). rewrite lookup_drop, length_take, length_le_bytes. do 2 f_equal. lia.
  - rewrite lookup_app_l by (rewrite length_take; lia). by rewrite lookup_take_lt by lia.
Qed.

Lemma field_patch n off v b : 0 <= off -> 0 <= v < 256 ^ Z.of_nat n -> (Z.to_nat off + n <= length b)%nat -> field n (patch n off v b) off = v.
Proof.
  intros Ho Hv Hl. unfold field. rewrite <- (Z.mod_small v (256 ^ Z.of_nat n)) at 2 by done. apply load_le_bytes. intros i Hi. rewrite byte_at_patch by lia.
  destruct (Z.leb_spec off (off + i)), (Z.ltb_spec (off + i) (off + Z.of_nat n)); cbn [andb]; try lia. by replace (off + i - off) with i by lia.
Qed.

Lemma field_patch_other m n off v b o : 0 <= off -> 0 <= o -> (Z.to_nat off + n <= length b)%nat -> o + Z.of_nat m <= off \/ off + Z.of_nat n <= o -> field m (patch n off v b) o = field m b o.
Proof.
  intros Ho Ho2 Hl Hd. unfold field. apply load_le_ext. intros i Hi. rewrite byte_at_patch by lia. destruct (Z.leb_spec off i), (Z.ltb_spec i (off + Z.of_nat n)); cbn [andb]; done || lia.
Qed.

Lemma byte_at_patch_other n off v b i : 0 <= off -> 0 <= i -> (Z.to_nat off + n <= length b)%nat -> i < off \/ off + Z.of_nat n <= i -> byte_at (patch n off v b) i = byte_at b i.
Proof. intros Ho Hi Hl Hd. rewrite byte_at_patch by lia. destruct (Z.leb_spec off i), (Z.ltb_spec i (off + Z.of_nat n)); cbn [andb]; done || lia. Qed.

(** The checksum does not cover itself. *)
Lemma checksum_patch v b : (4 <= length b)%nat -> checksum (patch 2 2 v b) = checksum b.
Proof.
  intros Hl. destruct b as [|b0 [|b1 [|b2 [|b3 b]]]]; cbn in Hl; try lia. unfold checksum, patch. cbn. reflexivity.
Qed.

Lemma write_at_ok x F i d off l : folder_ok x F i d -> readable x i d -> 0 <= off < record_size * top (limit_of i) -> off mod SECTOR_SIZE + Z.of_nat (length l) <= SECTOR_SIZE ->
  exists a c' d', loc x (bytes d) (clusters i) off = Some a /\ addr_of (heap x) <= a /\ write_at x off l (clusters i) d = Ok (true, c', d') /\ bytes d' = store_bytes l (bytes d) a /\
    folder_ok x F (set_clusters c' i) d' /\ readable x (set_clusters c' i) d' /\ (forall o, loc x (bytes d') c' o = loc x (bytes d) (clusters i) o).
Proof.
  intros Ho Hrd Hoff Hlen. pose proof Ho as [G1 G2 G3 G4 G5 G6 G7 G8 G9]. destruct Hrd as [Hf Hm]. destruct (Hm off Hoff) as [a Hloc]. pose proof (spc_pos x G2). pose proof (cluster_size_spc x G2) as Ecs.
  assert (Hix : index_ok (clusters i) (off / cluster_size x)) by (apply (index_ok_le _ _ _ G9); split; [apply Z.div_pos; unfold SECTOR_SIZE in *; lia|apply Z.div_le_mono; unfold SECTOR_SIZE in *; lia]).
  destruct (get_lba_ok x F (clusters i) off d G1 G2 G3 G5 G6 G7 ltac:(lia) Hix) as (lba & c1 & d1 & E & Hh1 & Hsm1 & Ef & El & Hok1 & Hlba & Hnone).
  destruct (decide (lba = 0)) as [E0|E0]; [by rewrite (Hnone Hf E0) in Hloc|]. destruct (Hlba E0) as [Hloc' Hheap]. rewrite Hloc in Hloc'. injection Hloc' as Ea.
  unfold write_at. rewrite E. cbn [obind]. destruct (Z.eqb_spec lba 0); [done|]. destruct Hsm1 as [Hb1 Hf1].
  destruct (dm_get1_ok lba F d1 Hh1 (G4 lba Hheap)) as (b & d2 & -> & [Hh2 Hn2] & [Hb2 Hf2] & Hb). rewrite (Hb (Hf1 Hf)) in *. cbn [obind negb].
  unfold dm_upgrade. rewrite ensure_decide by (rewrite Hh2; cbn; set_solver). cbn [obind]. rewrite Z.eqb_refl, count_one. cbn [andb ensure obind].
  unfold copy_to. rewrite land_SECTOR_MASK. rewrite ensure_true by (by apply Z.leb_le). cbn [obind]. rewrite <- Ea.
  unfold dm_relax, set_bytes. cbn [held bytes faults]. rewrite ensure_decide by (rewrite Hh2; cbn; set_solver). cbn [obind].
  assert (Hpos : 0 <= off mod SECTOR_SIZE) by (apply Z.mod_pos_bound; unfold SECTOR_SIZE; lia). assert (Hah : addr_of (heap x) <= a) by (unfold addr_of, SECTOR_SIZE in *; lia).
  exists a, c1. eexists. split; [done|]. split; [done|]. split; [done|]. cbn [bytes]. rewrite Hb2, Hb1. split; [done|].
  destruct (file_heap_write x (bytes d) (store_bytes l (bytes d) a) c1 G1 G2 G5 Hok1) as (F1 & F2 & F3); [intros o Hlt; apply store_bytes_out; lia|].
  assert (F4 : forall o, loc x (store_bytes l (bytes d) a) c1 o = loc x (bytes d) (clusters i) o) by (intros o; rewrite F3; by apply loc_chain).
  split; [|split; [|done]].
  - constructor; cbn [clusters set_clusters valid_size bytes held set_bytes]; rewrite ?Hb2, ?Hb1; try done.
    + specialize (Hn2 _ eq_refl). rewrite Hh2. cbn. set_solver.
    + unfold index_ok. by rewrite El, Ef.
  - split; cbn [faults clusters set_clusters bytes set_bytes]; [by apply Hf2, Hf1|]. intros o Hlt. rewrite F4. by apply Hm.
Qed.

Lemma checksum_range b : 0 <= checksum b < 65536.
Proof.
  unfold checksum. assert (H : forall l s, 0 <= s < 65536 -> 0 <= fold_left checksum_step l s < 65536).
  { induction l as [|p l IH]; intros s Hs; cbn; [done|]. apply IH. unfold checksum_step. destruct (_ || _); [done|]. apply (wrap_range 16). lia. }
  by apply H.
Qed.

(** A change of the second record from its seventh byte on, and of nothing that says what kind of file it is. *)
Definition mild (pg : list Z -> list Z) : Prop := forall b, length b = 96%nat -> length (pg b) = 96%nat /\ forall k, 0 <= k -> k < 36 \/ 64 <= k -> byte_at (pg b) k = byte_at b k.

Lemma byte_at_lookup b k : 0 <= k < Z.of_nat (length b) -> b !! Z.to_nat k = Some (byte_at b k).
Proof. intros Hk. unfold byte_at. destruct (b !! Z.to_nat k) eqn:E; [done|]. apply lookup_ge_None in E. lia. Qed.

Lemma list_eq_bytes a b : length a = length b -> (forall k, 0 <= k < Z.of_nat (length a) -> byte_at a k = byte_at b k) -> a = b.
Proof.
  intros Hl H. apply list_eq. intros i. destruct (decide (Z.of_nat i < Z.of_nat (length a))).
  - rewrite <- (Nat2Z.id i), !byte_at_lookup by lia. f_equal. apply H. lia.
  - rewrite !lookup_ge_None_2 by lia. done.
Qed.

(** A buffer put back in the place it was read from. *)
Lemma set_at_buffer mode hash g p b : length b = 96%nat -> byte_at b 0 = 0x85 -> byte_at b 1 = 2 ->
  Z.land (if truth (Z.land (byte_at b 4) FOLDER) then ALLOW_FOLDER else ALLOW_FILE) mode <> 0 -> byte_at b 32 = 0xC0 -> truth (Z.land mode CHECK_HASH) = false ->
  byte_at b 64 = 0xC1 -> checksum b = field 2 b 2 -> (forall k, 0 <= k < 96 -> g (record_size * p + k) = byte_at b k) ->
  load_bytes 96 g (record_size * p) = b /\ set_at mode hash g p.
Proof.
  intros Hl H0 H1 H4 H32 Hh H64 Hs Hg. assert (E : load_bytes 96 g (record_size * p) = b).
  { apply list_eq_bytes; [by rewrite length_load_bytes|]. rewrite length_load_bytes. intros k Hk. rewrite byte_at_load by lia. apply Hg. lia. }
  split; [done|]. constructor.
  - rewrite <- H0, <- Hg by lia. f_equal. lia.
  - by rewrite Hg.
  - by rewrite Hg by lia.
  - rewrite <- H32, <- Hg by lia. f_equal. unfold record_size. lia.
  - by rewrite Hh.
  - rewrite <- H64, <- Hg by lia. f_equal. unfold record_size. lia.
  - rewrite E, Hs. unfold field. apply load_le_shift. intros k Hk. rewrite <- Z.add_assoc, Hg by lia. done.
Qed.

Lemma contents_at x i d off a k : 0 < cluster_size x -> 0 <= off -> loc x (bytes d) (clusters i) off = Some a -> 0 <= k -> off mod cluster_size x + k < cluster_size x ->
  contents x i d (off + k) = bytes d (a + k).
Proof. intros Hcs Ho Ha Hk Hb. unfold contents, flat. by rewrite (loc_shift x _ _ off k a). Qed.

Definition ANY : Z := Z.lor ALLOW_FILE ALLOW_FOLDER.

Lemma found_at x F idx i d : folder_ok x F i d -> readable x i d -> 0 <= idx -> idx + 3 <= limit_of i -> set_at ANY 0 (contents x i d) idx ->
  exists c' d', step ANY 0 x i (Reader [] idx) d = Ok (0, Reader (load_bytes 96 (contents x i d) (record_size * idx)) (idx + 3), set_clusters c' i, d') /\
    walked x F d (clusters i) c' d'.
Proof.
  intros Ho Hrd Hi Hlim Hset. destruct (step_ok x F ANY 0 i (Reader [] idx) d Ho Hi) as (stat & r' & c' & d' & -> & Hw & _ & Hspec). specialize (Hspec Hrd).
  exists c', d'. split; [|done]. pose proof (top_range _ (limit_range x F i d Ho)) as [Ht _].
  assert (E : (stat, r') = (0, Reader (load_bytes 96 (contents x i d) (record_size * idx)) (idx + 3))); [|by injection E as -> ->]. rewrite Hspec. unfold todo. cbn [index].
  destruct (Z.ltb_spec idx (limit_of i)); [|lia]. destruct (Z.to_nat (top (limit_of i) - idx)) as [|[|[|m]]] eqn:En; try lia. by rewrite (scan_set m ANY 0 _ (Reader [] idx)).
Qed.

Lemma update_with_ok x F pg idx i d : folder_ok x F i d -> readable x i d -> 0 <= idx -> idx + 3 <= limit_of i -> idx mod record_per_sector <= 13 ->
  set_at ANY 0 (contents x i d) idx -> mild pg -> let b0 := load_bytes 96 (contents x i d) (record_size * idx) in let b := patch 2 2 (checksum (pg b0)) (pg b0) in
  exists a c' d', loc x (bytes d) (clusters i) (record_size * idx) = Some a /\ update_with pg idx x i d = Ok (true, set_clusters c' i, d') /\
    folder_ok x F (set_clusters c' i) d' /\ readable x (set_clusters c' i) d' /\ (forall y, y < a \/ a + 64 <= y -> bytes d' y = bytes d y) /\
    load_bytes 96 (contents x (set_clusters c' i) d') (record_size * idx) = b /\ set_at ANY 0 (contents x (set_clusters c' i) d') idx.
Proof.
  intros Ho Hrd Hi Hlim Hsec Hset Hpg b0 b. destruct (found_at x F idx i d Ho Hrd Hi Hlim Hset) as (c1 & d1 & E1 & Hw).
  unfold update_with. fold ANY. rewrite E1. cbn [obind truth Z.eqb negb]. fold b0.
  assert (Hl0 : length b0 = 96%nat) by (unfold b0; by rewrite length_load_bytes). destruct (Hpg b0 Hl0) as [Hlg Hpg'].
  assert (Hb0 : forall k, 0 <= k < 96 -> byte_at b0 k = contents x i d (record_size * idx + k)) by (intros k Hk; unfold b0; by rewrite byte_at_load).
  assert (Hen : forall b', length b' = 96%nat -> size b' = 3) by (intros b' E; unfold size; by rewrite E).
  unfold get_record at 1. cbn [buf]. rewrite Hen by done. cbn [Z.leb Z.compare Pos.compare Pos.compare_cont ensure obind]. cbn [index].
  assert (He0 : entrance_size b0 = 2) by (unfold entrance_size; rewrite Hb0 by lia; apply Hset).
  pose proof (limit_range x F i d Ho) as Hlr. pose proof (top_range _ Hlr) as [Htop _]. rewrite He0. rewrite wrap_small by lia. replace (idx + 2 + 1) with (idx + 3) by lia. rewrite Z.eqb_refl. cbn [negb].
  unfold update, complete, get_record. cbn [buf index]. assert (Heg : entrance_size (pg b0) = 2) by (unfold entrance_size; rewrite Hpg' by lia; exact He0).
  rewrite Hen, Heg by done. cbn [Z.leb Z.compare Pos.compare Pos.compare_cont Z.add Pos.add Pos.succ Z.eqb Pos.eqb andb negb].
  rewrite (wrap_small 32 (idx + 2 + 1)) by lia. replace (idx + 2 + 1) with (idx + 3) by lia. rewrite Z.eqb_refl. cbn [negb orb]. change (limit_of (set_clusters c1 i)) with (limit_of i).
  destruct (Z.ltb_spec (limit_of i) (idx + 3)); [lia|]. fold b. rewrite (wrap_small 32 (idx * record_size)) by (unfold record_size; lia). replace (idx * record_size) with (record_size * idx) by lia.
  rewrite land_SECTOR_MASK, <- record_off. assert (Hrs : 0 <= record_size * (idx mod record_per_sector) <= 416) by (unfold record_size, record_per_sector in *; pose proof (Z.mod_pos_bound idx 16 ltac:(lia)); lia).
  destruct (Z.leb_spec (record_size * (idx mod record_per_sector)) (SECTOR_SIZE - record_size)); [|unfold SECTOR_SIZE, record_size in *; lia].
  assert (Hlb : length b = 96%nat) by (unfold b; by rewrite length_patch by (rewrite Hlg; lia)).
  pose proof (folder_walked x F i d c1 d1 Ho Hw) as Ho1. destruct (flat_walked x F i d c1 d1 Hw) as [Hfl Hrd1]. specialize (Hrd1 Hrd). pose proof (wk_same _ _ _ _ _ _ Hw) as [Hb1 _].
  destruct (write_at_ok x F (set_clusters c1 i) d1 (record_size * idx) (take 64 b) Ho1 Hrd1) as (a & c2 & d2 & Ha & Hah & E2 & Hb2 & Ho2 & Hrd2 & Hloc2).
  - change (limit_of (set_clusters c1 i)) with (limit_of i). unfold record_size. lia.
  - rewrite <- record_off, length_take, Hlb. unfold SECTOR_SIZE. lia.
  - cbn [clusters set_clusters] in *. rewrite E2. cbn [obind]. assert (Ha' : loc x (bytes d) (clusters i) (record_size * idx) = Some a).
    { rewrite <- Ha, Hb1. symmetry. apply loc_chain; apply Hw. }
    rewrite Z.eqb_refl. cbn [negb orb obind]. exists a, c2, d2. split; [done|]. split; [done|]. split; [exact Ho2|]. split; [exact Hrd2|].
    assert (Hout : forall y, y < a \/ a + 64 <= y -> bytes d2 y = bytes d y) by (intros y Hy; rewrite Hb2, Hb1; apply store_bytes_out; rewrite length_take, Hlb; lia). split; [done|].
    pose proof (spc_pos x (fo_heap _ _ _ _ Ho)) as Hsp. pose proof (cluster_size_spc x (fo_heap _ _ _ _ Ho)) as Ecs.
    assert (Hcs : 0 < cluster_size x) by (unfold SECTOR_SIZE in *; lia).
    assert (Hin : forall k, 0 <= k < 96 -> (record_size * idx) mod cluster_size x + k < cluster_size x).
    { intros k Hk. rewrite Ecs. pose proof (sector_in_cluster (record_size * idx) (spc x) ltac:(lia)). rewrite <- record_off in *. unfold SECTOR_SIZE in *. lia. }
    apply set_at_buffer; try done.
    + unfold b. rewrite byte_at_patch_other, Hpg', Hb0 by (rewrite ?Hlg; lia). rewrite Z.add_0_r. exact (s_type _ _ _ _ Hset).
    + unfold b. rewrite byte_at_patch_other, Hpg', Hb0 by (rewrite ?Hlg; lia). exact (s_count _ _ _ _ Hset).
    + unfold b. rewrite byte_at_patch_other, Hpg', Hb0 by (rewrite ?Hlg; lia). exact (s_mode _ _ _ _ Hset).
    + unfold b. rewrite byte_at_patch_other, Hpg', Hb0 by (rewrite ?Hlg; lia). replace (record_size * idx + 32) with (record_size * (idx + 1)) by (unfold record_size; lia). exact (s_stream _ _ _ _ Hset).
    + unfold b. rewrite byte_at_patch_other, Hpg', Hb0 by (rewrite ?Hlg; lia). replace (record_size * idx + 64) with (record_size * (idx + 2)) by (unfold record_size; lia). exact (s_name _ _ _ _ Hset).
    + unfold b. rewrite checksum_patch by (rewrite Hlg; lia). rewrite field_patch; [done|lia|apply checksum_range|rewrite Hlg; lia].
    + assert (Hloc' : loc x (bytes d2) (clusters (set_clusters c2 i)) (record_size * idx) = Some a) by (change (clusters (set_clusters c2 i)) with c2; rewrite Hloc2; exact Ha).
      assert (Hp : 0 <= record_size * idx) by (unfold record_size; lia). intros k Hk. rewrite (contents_at x _ d2 _ a k Hcs Hp Hloc' (proj1 Hk) (Hin k Hk)).
      destruct (decide (k < 64)).
      * rewrite Hb2. replace (a + k) with (a + Z.of_nat (Z.to_nat k)) by lia. apply store_bytes_in. rewrite lookup_take_lt by lia. apply byte_at_lookup. lia.
      * rewrite Hout by lia. unfold b. rewrite byte_at_patch_other, Hpg', Hb0 by (rewrite ?Hlg; lia). symmetry. exact (contents_at x i d _ a k Hcs Hp Ha' (proj1 Hk) (Hin k Hk)).
Qed.

(** The change of the sizes as the folder holds it afterwards. *)
Lemma update_size_ok x F f i d : folder_ok x F i d -> readable x i d -> 0 <= rec_index f -> rec_index f + 3 <= limit_of i -> rec_index f mod record_per_sector <= 13 ->
  set_at ANY 0 (contents x i d) (rec_index f) -> 0 <= valid_size f < 2 ^ 64 -> 0 <= alloc_size f < 2 ^ 64 ->
  exists a c1 d1, loc x (bytes d) (clusters i) (record_size * rec_index f) = Some a /\ update_size f x i d = Ok (true, set_clusters c1 i, d1) /\
    folder_ok x F (set_clusters c1 i) d1 /\ readable x (set_clusters c1 i) d1 /\ (forall y, y < a \/ a + 64 <= y -> bytes d1 y = bytes d y) /\ set_at ANY 0 (contents x (set_clusters c1 i) d1) (rec_index f) /\
    let b0 := load_bytes 96 (contents x i d) (record_size * rec_index f) in let b := load_bytes 96 (contents x (set_clusters c1 i) d1) (record_size * rec_index f) in
    field 8 b 40 = valid_size f /\ field 8 b 56 = alloc_size f /\ field 4 b 52 = field 4 b0 52 /\ (forall k, 4 <= k < 40 \/ 64 <= k < 96 -> byte_at b k = byte_at b0 k).
Proof.
  intros Ho Hrd Hi Hlim Hsec Hset Hv Ha. set (b0 := load_bytes 96 (contents x i d) (record_size * rec_index f)).
  assert (Hmild : mild (fun b => patch 8 56 (alloc_size f) (patch 8 40 (valid_size f) b))).
  { intros b Hb. assert (Hb' : length (patch 8 40 (valid_size f) b) = 96%nat) by (rewrite length_patch; lia). split; [rewrite length_patch; lia|].
    intros k Hk Hd. rewrite !byte_at_patch_other by lia. done. }
  destruct (update_with_ok x F _ (rec_index f) i d Ho Hrd Hi Hlim Hsec Hset Hmild) as (a & c1 & d1 & Hloc & E & Ho1 & Hrd1 & Hout & Hb & Hset1). fold b0 in Hb.
  exists a, c1, d1. split; [exact Hloc|]. split; [exact E|]. do 4 (split; [done|]). cbn zeta. rewrite Hb.
  assert (Hl0 : length b0 = 96%nat) by (unfold b0; by rewrite length_load_bytes).
  assert (Hl1 : length (patch 8 40 (valid_size f) b0) = 96%nat) by (rewrite length_patch; lia). assert (Hl2 : length (patch 8 56 (alloc_size f) (patch 8 40 (valid_size f) b0)) = 96%nat) by (rewrite length_patch; lia).
  split; [rewrite !field_patch_other by lia; apply field_patch; lia|]. split; [rewrite field_patch_other by lia; apply field_patch; lia|]. split; [by rewrite !field_patch_other by lia|].
  intros k Hk. by rewrite !byte_at_patch_other by lia.
Qed.

(** The sizes of a file written into its folder are read back: [update_size] changes the two records of the file and no other byte of
    the disk, gives them a checksum that is right again, and the reader then finds the file at the same place with the new sizes and its
    first cluster, name and attributes as before. *)
Theorem update_size_reads x F f i d : folder_ok x F i d -> readable x i d -> 0 <= rec_index f -> rec_index f + 3 <= limit_of i -> rec_index f mod record_per_sector <= 13 ->
  set_at ANY 0 (contents x i d) (rec_index f) -> 0 <= valid_size f < 2 ^ 64 -> 0 <= alloc_size f < 2 ^ 64 ->
  exists a c1 d1, update_size f x i d = Ok (true, set_clusters c1 i, d1) /\ folder_ok x F (set_clusters c1 i) d1 /\ (forall y, y < a \/ a + 64 <= y -> bytes d1 y = bytes d y) /\
    let b0 := load_bytes 96 (contents x i d) (record_size * rec_index f) in
    exists b c2 d2, step ANY 0 x (set_clusters c1 i) (Reader [] (rec_index f)) d1 = Ok (0, Reader b (rec_index f + 3), set_clusters c2 i, d2) /\
      field 8 b 40 = valid_size f /\ field 8 b 56 = alloc_size f /\ field 4 b 52 = field 4 b0 52 /\ (forall k, 4 <= k < 40 \/ 64 <= k < 96 -> byte_at b k = byte_at b0 k).
Proof.
  intros Ho Hrd Hi Hlim Hsec Hset Hv Ha. destruct (update_size_ok x F f i d Ho Hrd Hi Hlim Hsec Hset Hv Ha) as (a & c1 & d1 & _ & E & Ho1 & Hrd1 & Hout & Hset1 & Hb).
  exists a, c1, d1. split; [exact E|]. split; [done|]. split; [done|]. cbn zeta. destruct (found_at x F (rec_index f) (set_clusters c1 i) d1 Ho1 Hrd1 Hi Hlim Hset1) as (c2 & d2 & E2 & _).
  eexists _, c2, d2. split; [exact E2|exact Hb].
Qed.

(** A file whose first record is the last of a sector cannot be changed: [update] copies both records behind the address of the first one, over the
    end of the sector it has marked. *)
Theorem update_last_record x F pg idx i d : folder_ok x F i d -> readable x i d -> 0 <= idx -> idx + 3 <= limit_of i -> idx mod record_per_sector = 15 ->
  set_at ANY 0 (contents x i d) idx -> mild pg -> update_with pg idx x i d = Bug.
Proof.
  intros Ho Hrd Hi Hlim Hsec Hset Hpg. destruct (found_at x F idx i d Ho Hrd Hi Hlim Hset) as (c1 & d1 & E1 & Hw). set (b0 := load_bytes 96 (contents x i d) (record_size * idx)) in *.
  unfold update_with. fold ANY. rewrite E1. cbn [obind truth Z.eqb negb].
  assert (Hl0 : length b0 = 96%nat) by (unfold b0; by rewrite length_load_bytes). destruct (Hpg b0 Hl0) as [Hlg Hpg'].
  assert (Hen : forall b', length b' = 96%nat -> size b' = 3) by (intros b' E; unfold size; by rewrite E).
  unfold get_record at 1. cbn [buf]. rewrite Hen by done. cbn [Z.leb Z.compare Pos.compare Pos.compare_cont ensure obind index].
  assert (He0 : entrance_size b0 = 2) by (unfold entrance_size, b0; rewrite byte_at_load by lia; exact (s_count _ _ _ _ Hset)).
  pose proof (limit_range x F i d Ho) as Hlr. pose proof (top_range _ Hlr) as [Htop _]. rewrite He0. rewrite wrap_small by lia. replace (idx + 2 + 1) with (idx + 3) by lia. rewrite Z.eqb_refl. cbn [negb].
  unfold update, complete, get_record. cbn [buf index]. assert (Heg : entrance_size (pg b0) = 2) by (unfold entrance_size; rewrite Hpg' by lia; exact He0).
  rewrite Hen, Heg by done. cbn [Z.leb Z.compare Pos.compare Pos.compare_cont Z.add Pos.add Pos.succ Z.eqb Pos.eqb andb negb].
  rewrite (wrap_small 32 (idx + 2 + 1)) by lia. replace (idx + 2 + 1) with (idx + 3) by lia. rewrite Z.eqb_refl. cbn [negb orb]. change (limit_of (set_clusters c1 i)) with (limit_of i).
  destruct (Z.ltb_spec (limit_of i) (idx + 3)); [lia|]. rewrite (wrap_small 32 (idx * record_size)) by (unfold record_size; lia). replace (idx * record_size) with (record_size * idx) by lia.
  rewrite land_SECTOR_MASK, <- record_off, Hsec. change (record_size * 15 <=? SECTOR_SIZE - record_size) with true. rewrite Z.eqb_refl. cbn [negb orb].
  pose proof (folder_walked x F i d c1 d1 Ho Hw) as Ho1. destruct (flat_walked x F i d c1 d1 Hw) as [_ Hrd1]. destruct (Hrd1 Hrd) as [Hf1 Hm1].
  destruct Ho1 as [G1 G2 G3 G4 G5 G6 G7 G8 G9]. cbn [clusters set_clusters] in *. pose proof (spc_pos x G2). pose proof (cluster_size_spc x G2) as Ecs. unfold write_at.
  assert (Hoff : 0 <= record_size * idx < record_size * top (limit_of i)) by (unfold record_size; lia). destruct (Hm1 _ Hoff) as [a Hloc].
  assert (Hix : index_ok c1 (record_size * idx / cluster_size x)) by (apply (index_ok_le _ _ _ G9); split; [apply Z.div_pos; unfold SECTOR_SIZE in *; lia|apply Z.div_le_mono; unfold SECTOR_SIZE in *; change (limit_of (set_clusters c1 i)) with (limit_of i); lia]).
  destruct (get_lba_ok x F c1 (record_size * idx) d1 G1 G2 G3 G5 G6 G7 ltac:(lia) Hix) as (lba & c2 & d2 & -> & Hh2 & [Hb2 Hf2] & _ & _ & _ & Hlba & Hnone). cbn [obind].
  destruct (Z.eqb_spec lba 0) as [E0|E0]; [by rewrite (Hnone Hf1 E0) in Hloc|]. destruct (Hlba E0) as [_ Hheap].
  destruct (dm_get1_ok lba F d2 Hh2 (G4 lba Hheap)) as (b & d3 & -> & [Hh3 _] & _ & Hb). rewrite (Hb (Hf2 Hf1)) in *. cbn [obind negb].
  unfold dm_upgrade. rewrite ensure_decide by (rewrite Hh3; cbn; set_solver). cbn [obind]. rewrite Z.eqb_refl, count_one. cbn [andb ensure obind].
  unfold copy_to. rewrite land_SECTOR_MASK, <- record_off, Hsec. rewrite length_take, length_patch by (rewrite Hlg; lia). by rewrite Hlg.
Qed.

(** ** A concrete folder *)

Definition w_raw : list Z := [0x85; 2; 0; 0; 0x20; 0] ++ replicate 26 0 ++ [0xC0; 3; 0; 1; 0x80; 0x20] ++ replicate 26 0 ++ [0xC1; 0; 0x41; 0] ++ replicate 28 0.
Definition w_record : list Z := patch 2 2 (checksum w_raw) w_raw.
Definition w_dir (n : Z) : disk := Disk (store_bytes w_record w_bytes (addr_of 33 + record_size * n)) [] ∅.
Definition w_inode : inode := Inode 0 1024 1024 w_file.

Lemma w_heap : heap_ok w_vol.
Proof. constructor; vm_compute; (done || (split; (done || discriminate))). Qed.

Lemma w_dir_ok n : 0 <= n <= 20 -> folder_ok w_vol ∅ w_inode (w_dir n) /\ readable w_vol w_inode (w_dir n).
Proof.
  intros Hn. assert (Hl : length w_record = 96%nat) by (vm_compute; reflexivity).
  assert (Hf0 : file_ok w_vol w_bytes w_file) by (right; split; [done|]; split; [right; by apply w_cluster|exact (o_cache _ _ _ _ w_good)]).
  assert (Hv : volume_ok w_vol w_bytes w_file) by (apply (w_chain _ 3); auto).
  destruct (file_heap_write w_vol w_bytes (bytes (w_dir n)) w_file w_layout w_heap (v_fat _ _ _ Hv) Hf0) as (F1 & F2 & F3).
  { intros a Ha. cbn [bytes w_dir]. apply store_bytes_out. left. unfold addr_of, record_size, SECTOR_SIZE in *. cbn in Ha. lia. }
  split.
  - constructor; try done; (exact w_layout || exact w_heap || (split; [vm_compute; split; [discriminate|reflexivity]|discriminate])).
  - split; [done|]. intros off Hoff. rewrite F3. change (record_size * top (limit_of w_inode)) with 1024 in Hoff. unfold loc. change (cluster_size w_vol) with 512.
    assert (Hc : off / 512 = 0 \/ off / 512 = 1) by dlia. destruct Hc as [-> | ->]; [by eexists|].
    exists (addr_of 34 + off mod 512). vm_compute (cluster_of _ _ _ _). reflexivity.
Qed.

Lemma w_dir_set n : 0 <= n <= 20 -> n = 0 \/ n = 15 -> set_at ANY 0 (contents w_vol w_inode (w_dir n)) n.
Proof. intros _ [-> | ->]; constructor; vm_compute; (reflexivity || discriminate). Qed.

Lemma names_agree_witness : name_equal [0x41; 0x62] [0x61; 0x42] = true /\ name_hash [0x41; 0x62] = name_hash [0x61; 0x42].
Proof.
  split; [reflexivity|]. refine (proj1 (proj2 (names_agree [0x41; 0x62] [0x61; 0x42] _ _)) eq_refl); unfold is_bytes; repeat (apply List.Forall_cons; [lia|]); apply List.Forall_nil.
Defined.


Definition w_long (a : Z) : Z := default 0 (([0x85; 3; 0; 0; 0x20; 0] ++ replicate 26 0 ++ [0xC0; 3; 0; 17; 0x80; 0x20] ++ replicate 26 0 ++ [0xC1; 0; 0x41; 0] ++ replicate 28 0 ++ [0xC1; 0; 0x42; 0])%list !! Z.to_nat a).
Lemma long_name_lost_witness : scan 5 ANY 0 w_long (Reader [] 0) = scan 1 ANY 0 w_long (Reader [] 4).
Proof. apply (long_name_lost 1 ANY 0 w_long [] 0); vm_compute; (reflexivity || discriminate). Defined.

Lemma update_size_reads_witness : exists a c1 d1, update_size (Inode 0 700 1024 w_file) w_vol w_inode (w_dir 0) = Ok (true, set_clusters c1 w_inode, d1) /\
  (forall y, y < a \/ a + 64 <= y -> bytes d1 y = bytes (w_dir 0) y).
Proof.
  destruct (update_size_reads w_vol ∅ (Inode 0 700 1024 w_file) w_inode (w_dir 0)) as (a & c1 & d1 & E & _ & Hout & _).
  - apply w_dir_ok; lia.
  - apply w_dir_ok; lia.
  - cbn. lia.
  - vm_compute. discriminate.
  - vm_compute. discriminate.
  - exact (w_dir_set 0 ltac:(lia) (or_introl eq_refl)).
  - cbn. lia.
  - cbn. lia.
  - exists a, c1, d1. split; [exact E|exact Hout].
Defined.

Lemma update_last_record_witness : update_with (patch 4 52 7) 15 w_vol w_inode (w_dir 15) = Bug.
Proof.
  apply (update_last_record w_vol ∅); [apply w_dir_ok; lia|apply w_dir_ok; lia|lia|vm_compute; discriminate|reflexivity|apply w_dir_set; [lia|by right]|].
  intros b Hb. split; [rewrite length_patch; lia|]. intros k Hk Hd. apply byte_at_patch_other; lia.
Defined.
End FolderThm.
