(* ===== verification/UserMem.v ===== *)
(** * Memory of a process as the kernel copies to and from it (src/kernel/memory/user_vspace.cpp)

    [write], [read] and [zero] of an address space work page by page: they look a page up with [peek], map it and copy what
    lies in it, and stop at the first page that the process could not use itself.  [peek] is an interface here, whose
    implementation is the walk over the page tables.  Addresses of the kernel are copied to directly. *)

From S2P Require Import Prelude Const Bytes.
From S2P Require PageTable.

Module UserMem.
Import Bytes.
Abbreviation PTE := PageTable.PageTable.PTE.
Abbreviation present := PageTable.PageTable.present.
Abbreviation user := PageTable.PageTable.user.
Abbreviation writable := PageTable.PageTable.write.
Abbreviation page_addr := PageTable.PageTable.page_addr.

Definition size_512G : Z := 0x008000000000.

(** What the copies rely on: one answer per page, and nothing above 512G. *)
Class UserSpace := {
  peek : Z -> PTE;
  peek_page a b : a / PAGE_SIZE = b / PAGE_SIZE -> peek a = peek b;
  peek_high va : size_512G <= va -> present (peek va) = false
}.

(** Physical memory by addresses, and the memory of the kernel by its own addresses. *)
Record memory := Memory { phys : Z -> Z; kern : Z -> Z }.
Definition set_phys (f : Z -> Z) (m : memory) : memory := Memory f (kern m).
Definition set_kern (f : Z -> Z) (m : memory) : memory := Memory (phys m) f.

Section Copy.
Context `{UserSpace}.

(** The part of the copy that lies in the page of [va], and where it is. *)
Definition chunk (va count length : Z) : Z := Z.min (w32 (length - count)) (w32 (PAGE_SIZE - Z.land va PAGE_MASK)).
Definition place (va : Z) : Z := w64 (Z.shiftl (page_addr (peek va)) 12) + Z.land va PAGE_MASK.

Fixpoint write_loop (n : nat) (va : Z) (sor : list Z) (count length : Z) (m : memory) : outcome (Z * memory) :=
  match n with
  | O => NoFuel
  | S n =>
      if count <? length then
        let pt := peek va in
        if negb (present pt) || negb (user pt) || negb (writable pt) then Ok (count, m)
        else
          let len := chunk va count length in
          let m := set_phys (store_bytes (take (Z.to_nat len) sor) (phys m) (place va)) m in
          write_loop n (w64 (va + len)) (drop (Z.to_nat len) sor) (w32 (count + len)) length m
      else Ok (count, m)
  end.

(** The answer of [read] is the count and the bytes that were put into the buffer. *)
Fixpoint read_loop (n : nat) (va : Z) (dst : list Z) (count length : Z) (m : memory) : outcome (Z * list Z) :=
  match n with
  | O => NoFuel
  | S n =>
      if count <? length then
        let pt := peek va in
        if negb (present pt) || negb (user pt) then Ok (count, dst)
        else
          let len := chunk va count length in
          read_loop n (w64 (va + len)) (dst ++ load_bytes len (phys m) (place va)) (w32 (count + len)) length m
      else Ok (count, dst)
  end.

Fixpoint zero_loop (n : nat) (va count length : Z) (m : memory) : outcome (Z * memory) :=
  match n with
  | O => NoFuel
  | S n =>
      if count <? length then
        let pt := peek va in
        if negb (present pt) || negb (user pt) || negb (writable pt) then Ok (count, m)
        else
          let len := chunk va count length in
          let m := set_phys (store_bytes (replicate (Z.to_nat len) 0) (phys m) (place va)) m in
          zero_loop n (w64 (va + len)) (w32 (count + len)) length m
      else Ok (count, m)
  end.

(** A copy touches at most this many pages, and the loop looks once more at its condition. *)
Definition pages (length : Z) : nat := Z.to_nat (length / PAGE_SIZE + 3).

Definition write (va : Z) (data : list Z) (m : memory) : outcome (Z * memory) :=
  let length := Z.of_nat (length data) in
  if IS_HIGHADDR va then Ok (length, set_kern (store_bytes data (kern m) va) m)
  else write_loop (pages length) va data 0 length m.

Definition read (va length : Z) (m : memory) : outcome (Z * list Z) :=
  if IS_HIGHADDR va then Ok (length, load_bytes length (kern m) va)
  else read_loop (pages length) va [] 0 length m.

Definition zero (va length : Z) (m : memory) : outcome (Z * memory) :=
  if IS_HIGHADDR va then Ok (length, set_kern (store_bytes (replicate (Z.to_nat length) 0) (kern m) va) m)
  else zero_loop (pages length) va 0 length m.

(** ** The reference: byte by byte *)

Definition usable (w : bool) (va : Z) : bool := present (peek va) && user (peek va) && (negb w || writable (peek va)).
Definition phys_of (va : Z) : Z := w64 (page_addr (peek va) * PAGE_SIZE) + va mod PAGE_SIZE.

(** How many of the [n] bytes from [va] on can be used. *)
Fixpoint avail (w : bool) (n : nat) (va : Z) : nat :=
  match n with
  | O => O
  | S n => if usable w va then S (avail w n (va + 1)) else O
  end.

Fixpoint poke (va : Z) (l : list Z) (f : Z -> Z) : Z -> Z :=
  match l with
  | [] => f
  | b :: l => poke (va + 1) l (fun a => if a =? phys_of va then b else f a)
  end.

Definition view (va n : Z) (f : Z -> Z) : list Z := (fun a => f (phys_of a)) <$> seqZ va n.
End Copy.
End UserMem.

Module UserMemThm.
Import Bytes UserMem.
#[local] Set Default Proof Using "Type".

Section Copy.
Context `{UserSpace}.

Lemma same_page va k : 0 <= k < PAGE_SIZE - va mod PAGE_SIZE -> (va + k) / PAGE_SIZE = va / PAGE_SIZE /\ (va + k) mod PAGE_SIZE = va mod PAGE_SIZE + k.
Proof. unfold PAGE_SIZE. intros Hk. split; dlia. Qed.

Lemma usable_page w va k : 0 <= k < PAGE_SIZE - va mod PAGE_SIZE -> usable w (va + k) = usable w va.
Proof. intros Hk. unfold usable. by rewrite (peek_page (va + k) va) by (by apply same_page). Qed.

Lemma phys_page va k : 0 <= k < PAGE_SIZE - va mod PAGE_SIZE -> phys_of (va + k) = phys_of va + k.
Proof. intros Hk. unfold phys_of. rewrite (peek_page (va + k) va) by (by apply same_page). rewrite (proj2 (same_page va k Hk)). lia. Qed.

Lemma avail_le w n va : (avail w n va <= n)%nat.
Proof. revert va. induction n as [|n IH]; intros va; cbn; [done|]. destruct (usable w va); [specialize (IH (va + 1))|]; lia. Qed.

Lemma avail_page w va k n : Z.of_nat k <= PAGE_SIZE - va mod PAGE_SIZE -> usable w va = true -> avail w (k + n) va = (k + avail w n (va + Z.of_nat k))%nat.
Proof.
  intros Hk Hu. assert (Hall : forall j, 0 <= j < Z.of_nat k -> usable w (va + j) = true) by (intros j Hj; rewrite usable_page; [done|lia]). clear Hk Hu.
  revert va Hall. induction k as [|k IH]; intros va Hall; [by rewrite Z.add_0_r|]. cbn [Nat.add avail]. pose proof (Hall 0 ltac:(lia)) as H0. rewrite Z.add_0_r in H0. rewrite H0.
  rewrite IH; [do 2 f_equal; f_equal; lia|]. intros j Hj. replace (va + 1 + j) with (va + (j + 1)) by lia. apply Hall. lia.
Qed.

Lemma avail_none w n va : usable w va = false -> avail w n va = O.
Proof. intros Hu. destruct n; cbn; [done|]. by rewrite Hu. Qed.

Lemma usable_low w va : usable w va = true -> va < size_512G.
Proof. unfold usable. intros Hu. destruct (Z.le_gt_cases size_512G va) as [Hv|]; [|done]. by rewrite (peek_high va Hv) in Hu. Qed.

(** The pages that are left to look at. *)
Definition turns (va rem : Z) : Z := if rem =? 0 then 0 else (va mod PAGE_SIZE + rem + 4095) / PAGE_SIZE.

Lemma turns_pages va rem : 0 <= rem -> turns va rem < Z.of_nat (pages rem).
Proof. intros Hr. unfold turns, pages, PAGE_SIZE. destruct (Z.eqb_spec rem 0); dlia. Qed.

Lemma turns_pos va rem n : turns va rem < Z.of_nat n -> 0 <= rem -> n <> O.
Proof. unfold turns, PAGE_SIZE. intros Ht Hr ->. destruct (Z.eqb_spec rem 0); dlia. Qed.

(** One turn of a loop. *)
Lemma turn w va count length : 0 <= va -> 0 <= count < length -> length < 2 ^ 32 -> usable w va = true ->
  let len := chunk va count length in
  0 < len <= length - count /\ len <= PAGE_SIZE - va mod PAGE_SIZE /\ w64 (va + len) = va + len /\ w32 (count + len) = count + len /\ place va = phys_of va /\
  avail w (Z.to_nat (length - count)) va = (Z.to_nat len + avail w (Z.to_nat (length - (count + len))) (va + len))%nat /\
  turns (va + len) (length - (count + len)) < turns va (length - count).
Proof.
  intros Hv Hc Hl Hu len. pose proof (usable_low w va Hu) as Hlow. unfold size_512G in Hlow.
  assert (E : len = Z.min (length - count) (PAGE_SIZE - va mod PAGE_SIZE)) by (unfold len, chunk; rewrite land_PAGE_MASK; unfold PAGE_SIZE; rewrite !(wrap_small 32) by dlia; done).
  clearbody len. assert (Hm : 0 <= va mod PAGE_SIZE < PAGE_SIZE) by (unfold PAGE_SIZE; dlia). unfold PAGE_SIZE in *.
  split; [lia|]. split; [lia|]. split; [apply wrap_small; lia|]. split; [apply wrap_small; lia|].
  split; [unfold place, phys_of; rewrite land_PAGE_MASK, Z.shiftl_mul_pow2 by lia; done|].
  split.
  - replace (Z.to_nat (length - count)) with (Z.to_nat len + Z.to_nat (length - (count + len)))%nat by lia.
    rewrite avail_page by (done || unfold PAGE_SIZE; lia). do 2 f_equal. lia.
  - unfold turns, PAGE_SIZE. destruct (Z.eqb_spec (length - count) 0), (Z.eqb_spec (length - (count + len)) 0); [lia|lia|apply Z.div_str_pos; lia|].
    replace (length - (count + len)) with (va mod 4096 + (length - count) - 4096) by lia. replace ((va + len) mod 4096) with 0 by dlia. dlia.
Qed.

(** Storing a row of bytes within a page is storing them one by one. *)
Lemma poke_ext va l f g : (forall a, f a = g a) -> forall a, poke va l f a = poke va l g a.
Proof. revert va f g. induction l as [|b l IH]; intros va f g E a; cbn; [done|]. apply IH. intros c. by destruct (c =? phys_of va). Qed.

Lemma poke_app va l1 l2 f : poke va (l1 ++ l2) f = poke (va + Z.of_nat (length l1)) l2 (poke va l1 f).
Proof. revert va f. induction l1 as [|b l1 IH]; intros va f; cbn [app poke length]; [by rewrite Z.add_0_r|]. rewrite IH. f_equal. lia. Qed.

Lemma poke_page l f va : Z.of_nat (length l) <= PAGE_SIZE - va mod PAGE_SIZE -> forall a, poke va l f a = store_bytes l f (phys_of va) a.
Proof.
  intros Hl. assert (Hall : forall j, 0 <= j < Z.of_nat (length l) -> phys_of (va + j) = phys_of va + j) by (intros j Hj; apply phys_page; lia). clear Hl.
  revert va f Hall. induction l as [|b l IH]; intros va f Hall a.
  - symmetry. apply store_bytes_out. cbn. lia.
  - cbn [poke]. cbn [length] in Hall. destruct (decide (l = [])) as [->|Hne].
    + cbn. unfold store_bytes. cbn [length]. destruct (Z.eqb_spec a (phys_of va)) as [->|Hn].
      * rewrite Z.sub_diag. destruct (Z.leb_spec (phys_of va) (phys_of va)), (Z.ltb_spec (phys_of va) (phys_of va + Z.of_nat 1)); cbn; done || lia.
      * destruct (Z.leb_spec (phys_of va) a), (Z.ltb_spec a (phys_of va + Z.of_nat 1)); cbn; done || lia.
    + assert (0 < Z.of_nat (length l)) by (destruct l; [done|cbn; lia]). pose proof (Hall 1 ltac:(lia)) as H1.
      rewrite IH; [|intros j Hj; rewrite H1; replace (va + 1 + j) with (va + (j + 1)) by lia; rewrite Hall; lia]. rewrite H1. unfold store_bytes. cbn [length].
      destruct (Z.leb_spec (phys_of va + 1) a), (Z.ltb_spec a (phys_of va + 1 + Z.of_nat (length l))), (Z.leb_spec (phys_of va) a), (Z.ltb_spec a (phys_of va + Z.of_nat (S (length l)))), (Z.eqb_spec a (phys_of va));
        cbn [andb]; try lia; try done.
      * replace (Z.to_nat (a - phys_of va)) with (S (Z.to_nat (a - (phys_of va + 1)))) by lia. done.
      * subst a. by rewrite Z.sub_diag.
Qed.

Lemma view_app va n m f : 0 <= n -> 0 <= m -> view va (n + m) f = view va n f ++ view (va + n) m f.
Proof. intros. unfold view. by rewrite seqZ_app, fmap_app by lia. Qed.

Lemma view_page va n f : 0 <= n <= PAGE_SIZE - va mod PAGE_SIZE -> load_bytes n f (phys_of va) = view va n f.
Proof.
  intros Hn. unfold load_bytes, view. apply list_eq. intros i. rewrite !list_lookup_fmap. destruct (decide (Z.of_nat i < n)).
  - rewrite !lookup_seqZ_lt by lia. cbn. by rewrite phys_page by lia.
  - by rewrite !lookup_seqZ_ge by lia.
Qed.

Lemma usable_write va : usable true va = negb (negb (present (peek va)) || negb (user (peek va)) || negb (writable (peek va))).
Proof. unfold usable. by destruct (present _), (user _), (writable _). Qed.
Lemma usable_read va : usable false va = negb (negb (present (peek va)) || negb (user (peek va))).
Proof. unfold usable. by destruct (present _), (user _). Qed.

Lemma copy_out_ok n : forall va sor count length m, 0 <= va -> 0 <= count <= length -> length < 2 ^ 32 -> Z.of_nat (List.length sor) = length - count ->
  turns va (length - count) < Z.of_nat n ->
  let k := avail true (List.length sor) va in
  exists m', write_loop n va sor count length m = Ok (count + Z.of_nat k, m') /\ kern m' = kern m /\ forall a, phys m' a = poke va (take k sor) (phys m) a.
Proof.
  induction n as [|n IH]; intros va sor count length m Hv Hc Hl Hs Hn k.
  { by destruct (turns_pos _ _ _ Hn ltac:(lia)). }
  cbn [write_loop]. destruct (Z.ltb_spec count length).
  2:{ assert (E : List.length sor = O) by lia. destruct sor; [|done]. exists m. subst k. cbn. by rewrite Z.add_0_r. }
  destruct (negb (present _) || _ || _) eqn:E.
  { assert (Hu : usable true va = false) by (by rewrite usable_write, E). exists m. subst k. rewrite avail_none by done. cbn. by rewrite Z.add_0_r. }
  assert (Hu : usable true va = true) by (by rewrite usable_write, E).
  destruct (turn true va count length Hv ltac:(lia) Hl Hu) as (Hlen & Hpage & -> & -> & -> & Ha & Hf). set (len := chunk va count length) in *. clearbody len.
  set (m1 := set_phys _ m). destruct (IH (va + len) (drop (Z.to_nat len) sor) (count + len) length m1 ltac:(lia) ltac:(lia) Hl) as (m' & -> & Hk & Hp).
  { rewrite length_drop. lia. } { lia. }
  assert (Ek : k = (Z.to_nat len + avail true (List.length (drop (Z.to_nat len) sor)) (va + len))%nat).
  { subst k. rewrite length_drop. replace (List.length sor) with (Z.to_nat (length - count)) by lia. rewrite Ha. do 2 f_equal. lia. }
  clearbody k. subst k. exists m'. split; [do 2 f_equal; lia|]. split; [done|]. intros a. rewrite Hp.
  rewrite <- take_take_drop. rewrite poke_app, length_take.
  replace (va + Z.of_nat (Z.to_nat len `min` List.length sor)) with (va + len) by lia. apply poke_ext. intros c. subst m1. cbn [set_phys phys]. symmetry. apply poke_page. rewrite length_take. lia.
Qed.

Lemma zero_loop_ok n : forall va count length m, 0 <= va -> 0 <= count <= length -> length < 2 ^ 32 ->
  turns va (length - count) < Z.of_nat n ->
  zero_loop n va count length m = write_loop n va (replicate (Z.to_nat (length - count)) 0) count length m.
Proof.
  induction n as [|n IH]; intros va count length m Hv Hc Hl Hn; [done|]. cbn [zero_loop write_loop]. destruct (Z.ltb_spec count length); [|done].
  destruct (negb (present _) || _ || _) eqn:E; [done|]. assert (Hu : usable true va = true) by (by rewrite usable_write, E).
  destruct (turn true va count length Hv ltac:(lia) Hl Hu) as (Hlen & Hpage & -> & -> & -> & Ha & Hf). set (len := chunk va count length) in *. clearbody len.
  rewrite IH by lia. rewrite take_replicate, drop_replicate. f_equal; [f_equal; lia|]. do 3 f_equal. lia.
Qed.

Lemma copy_in_ok n : forall va dst count length m, 0 <= va -> 0 <= count <= length -> length < 2 ^ 32 ->
  turns va (length - count) < Z.of_nat n ->
  let k := Z.of_nat (avail false (Z.to_nat (length - count)) va) in
  read_loop n va dst count length m = Ok (count + k, dst ++ view va k (phys m)).
Proof.
  induction n as [|n IH]; intros va dst count length m Hv Hc Hl Hn k.
  { by destruct (turns_pos _ _ _ Hn ltac:(lia)). }
  cbn [read_loop]. destruct (Z.ltb_spec count length).
  2:{ subst k. replace (Z.to_nat (length - count)) with O by lia. cbn. by rewrite Z.add_0_r, app_nil_r. }
  destruct (negb (present _) || _) eqn:E.
  { assert (Hu : usable false va = false) by (by rewrite usable_read, E). subst k. rewrite avail_none by done. cbn. by rewrite Z.add_0_r, app_nil_r. }
  assert (Hu : usable false va = true) by (by rewrite usable_read, E).
  destruct (turn false va count length Hv ltac:(lia) Hl Hu) as (Hlen & Hpage & -> & -> & -> & Ha & Hf). set (len := chunk va count length) in *. clearbody len.
  rewrite IH by lia. rewrite view_page by lia. subst k. rewrite Ha, Nat2Z.inj_add, Z2Nat.id by lia. rewrite view_app by lia. rewrite app_assoc. do 2 f_equal. lia.
Qed.

(** No two pages share their memory. *)
Definition own_frames : Prop := forall w a b, usable w a = true -> usable w b = true -> phys_of a = phys_of b -> a = b.

Lemma avail_usable w n va j : 0 <= j < Z.of_nat (avail w n va) -> usable w (va + j) = true.
Proof.
  revert va j. induction n as [|n IH]; intros va j; cbn [avail]; [lia|]. destruct (usable w va) eqn:E; [|cbn; lia]. intros Hj.
  destruct (decide (j = 0)) as [->|]; [by rewrite Z.add_0_r|]. replace (va + j) with (va + 1 + (j - 1)) by lia. apply IH. lia.
Qed.

Lemma avail_all w n va : (forall j, 0 <= j < Z.of_nat n -> usable w (va + j) = true) -> avail w n va = n.
Proof.
  revert va. induction n as [|n IH]; intros va Hall; cbn; [done|]. pose proof (Hall 0 ltac:(lia)) as H0. rewrite Z.add_0_r in H0. rewrite H0. f_equal. apply IH.
  intros j Hj. replace (va + 1 + j) with (va + (j + 1)) by lia. apply Hall. lia.
Qed.

Lemma avail_weak n va : (avail true n va <= avail false n va)%nat.
Proof.
  revert va. induction n as [|n IH]; intros va; cbn; [done|]. destruct (usable true va) eqn:E; [|lia].
  assert (usable false va = true) as -> by (unfold usable in *; by apply andb_true_iff in E as [-> _]). specialize (IH (va + 1)). lia.
Qed.

Lemma poke_out va l f a : (forall j, 0 <= j < Z.of_nat (length l) -> phys_of (va + j) <> a) -> poke va l f a = f a.
Proof.
  revert va f. induction l as [|b l IH]; intros va f Ha; cbn [poke]; [done|]. cbn [length] in Ha. rewrite IH.
  - destruct (Z.eqb_spec a (phys_of va)) as [->|]; [|done]. destruct (Ha 0 ltac:(lia)). by rewrite Z.add_0_r.
  - intros j Hj. replace (va + 1 + j) with (va + (j + 1)) by lia. apply Ha. lia.
Qed.

Lemma view_one va f : view va 1 f = [f (phys_of va)].
Proof. done. Qed.

Lemma view_poke va l f : (forall i j, 0 <= i < Z.of_nat (length l) -> 0 <= j < Z.of_nat (length l) -> phys_of (va + i) = phys_of (va + j) -> i = j) ->
  view va (Z.of_nat (length l)) (poke va l f) = l.
Proof.
  revert va f. induction l as [|b l IH]; intros va f Hinj; [done|]. cbn [length] in *. rewrite Nat2Z.inj_succ, <- Z.add_1_l, view_app by lia. cbn [poke].
  assert (E : phys_of va = phys_of (va + 0)) by (f_equal; lia). rewrite view_one. cbn [app]. f_equal.
  - rewrite poke_out; [by rewrite Z.eqb_refl|]. intros j Hj Ej. replace (va + 1 + j) with (va + (j + 1)) in Ej by lia. rewrite E in Ej. apply Hinj in Ej; lia.
  - apply IH. intros i j Hi Hj Eij. replace (va + 1 + i) with (va + (i + 1)) in Eij by lia. replace (va + 1 + j) with (va + (j + 1)) in Eij by lia. apply Hinj in Eij; lia.
Qed.

Lemma view_ext va n f g : (forall a, f a = g a) -> view va n f = view va n g.
Proof. intros E. unfold view. apply list_fmap_ext. intros; apply E. Qed.

Lemma length_view va n f : length (view va n f) = Z.to_nat n.
Proof. unfold view. by rewrite length_fmap, length_seqZ. Qed.

Lemma high_or_low va : 0 <= va < 2 ^ 63 -> IS_HIGHADDR va = false.
Proof.
  intros Hv. unfold IS_HIGHADDR, HIGHADDR. rewrite (wrap_small 64 va) by lia. apply Z.eqb_neq. intros E. apply (f_equal (fun z => Z.testbit z 63)) in E. rewrite Z.land_spec in E.
  rewrite <- (Z.mod_small va (2 ^ 63)) in E by lia. rewrite Z.mod_pow2_bits_high in E by lia. done.
Qed.

Lemma user_write_ok va data m : 0 <= va -> IS_HIGHADDR va = false -> Z.of_nat (length data) < 2 ^ 32 -> let k := avail true (length data) va in
  exists m', write va data m = Ok (Z.of_nat k, m') /\ kern m' = kern m /\ forall a, phys m' a = poke va (take k data) (phys m) a.
Proof.
  intros Hv Hh Hl k. unfold write. rewrite Hh. apply (copy_out_ok _ va data 0 (Z.of_nat (length data)) m); [lia..|]. rewrite Z.sub_0_r. apply turns_pages. lia.
Qed.

Lemma user_read_ok va n m : 0 <= va -> IS_HIGHADDR va = false -> 0 <= n < 2 ^ 32 -> let k := Z.of_nat (avail false (Z.to_nat n) va) in read va n m = Ok (k, view va k (phys m)).
Proof.
  intros Hv Hh Hn k. unfold read. rewrite Hh, copy_in_ok; [by rewrite Z.sub_0_r|lia..|]. rewrite Z.sub_0_r. apply turns_pages. lia.
Qed.

Lemma zero_is_write va n m : 0 <= va -> 0 <= n < 2 ^ 32 -> zero va n m = write va (replicate (Z.to_nat n) 0) m.
Proof.
  intros Hv Hn. unfold zero, write. rewrite length_replicate, Z2Nat.id by lia. destruct (IS_HIGHADDR va); [done|]. rewrite zero_loop_ok by (try rewrite Z.sub_0_r; try apply turns_pages; lia). by rewrite Z.sub_0_r.
Qed.

(** C28. Copies between the kernel and a process end, stop the machine at no address, and are the copies byte by byte: [write] puts
    in the longest prefix that lies in pages the process may write, [read] gets the longest one it may read, however the
    bytes fall on pages, [zero] is a [write] of zeros; the count they answer is the length of that prefix. *)
Theorem user_copies va data m : 0 <= va -> IS_HIGHADDR va = false -> Z.of_nat (length data) < 2 ^ 32 ->
  (let k := avail true (length data) va in
   exists m', write va data m = Ok (Z.of_nat k, m') /\ kern m' = kern m /\ forall a, phys m' a = poke va (take k data) (phys m) a) /\
  (let k := Z.of_nat (avail false (length data) va) in read va (Z.of_nat (length data)) m = Ok (k, view va k (phys m))) /\
  zero va (Z.of_nat (length data)) m = write va (replicate (length data) 0) m.
Proof.
  intros Hv Hh Hl. split; [by apply user_write_ok|]. split.
  - pose proof (user_read_ok va (Z.of_nat (length data)) m Hv Hh ltac:(lia)) as E. by rewrite Nat2Z.id in E.
  - by rewrite zero_is_write, Nat2Z.id by lia.
Qed.

(** What [write] has put into a process is read back, and no other byte of memory changes, provided that no two of its pages
    share a frame. *)
Lemma user_round_trip va data m k m' : own_frames -> 0 <= va -> IS_HIGHADDR va = false -> Z.of_nat (length data) < 2 ^ 32 -> write va data m = Ok (k, m') ->
  read va k m' = Ok (k, take (Z.to_nat k) data) /\
  forall a, (forall i, 0 <= i < k -> phys_of (va + i) <> a) -> phys m' a = phys m a.
Proof.
  intros Hown Hv Hh Hl Hw. destruct (user_write_ok va data m Hv Hh Hl) as (m1 & E & _ & Hp). rewrite Hw in E. injection E as -> <-.
  pose proof (avail_le true (length data) va) as Hle. set (n := avail true (length data) va) in *.
  assert (Hus : forall j, 0 <= j < Z.of_nat n -> usable true (va + j) = true) by apply avail_usable. clearbody n.
  assert (Hln : length (take n data) = n) by (rewrite length_take; lia).
  split.
  - rewrite user_read_ok by (done || lia). rewrite Nat2Z.id, (avail_all false n va).
    + rewrite (view_ext _ _ _ _ Hp). rewrite <- Hln at 2. rewrite view_poke; [done|]. rewrite Hln. intros i j Hi Hj Eij. apply (Hown true) in Eij; [lia|by apply Hus..].
    + intros j Hj. specialize (Hus j Hj). unfold usable in *. by apply andb_true_iff in Hus as [-> _].
  - intros a Ha. rewrite Hp. apply poke_out. rewrite Hln. exact Ha.
Qed.
End Copy.
End UserMemThm.

Module UserMemWitness.
Import Bytes UserMem UserMemThm.

(** Two pages that can be written and one that can only be read. *)
Definition w_pte (p w : bool) (frame : Z) : PTE :=
  PageTable.PageTable.Pte p w true false false false false false false PageTable.PageTable.OFF false frame 0 false false true.
Definition w_peek (va : Z) : PTE :=
  let page := va / PAGE_SIZE in
  if page =? 1 then w_pte true true 5 else if page =? 2 then w_pte true true 3 else if page =? 3 then w_pte true false 9 else w_pte false false 0.

Lemma w_peek_high va : size_512G <= va -> present (w_peek va) = false.
Proof.
  intros Hv. unfold w_peek, size_512G, PAGE_SIZE in *. assert (3 < va / 4096) by dlia.
  destruct (Z.eqb_spec (va / 4096) 1), (Z.eqb_spec (va / 4096) 2), (Z.eqb_spec (va / 4096) 3); lia || done.
Qed.
#[export] Instance w_space : UserSpace.
Proof.
  refine {| peek := w_peek; peek_high := w_peek_high |}. intros a b E. unfold w_peek. by rewrite E.
Defined.

Definition w_mem : memory := Memory (fun a => a mod 256) (fun _ => 0).

(** Four bytes at the border of two pages, and then at the end of what can be written. *)
Lemma user_copies_witness : exists m', write 0x1FFE [1; 2; 3; 4] w_mem = Ok (4, m') /\ phys m' 0x5FFF = 2 /\ phys m' 0x3000 = 3 /\
  zero 0x2FFE 4 w_mem = write 0x2FFE [0; 0; 0; 0] w_mem.
Proof.
  destruct (user_copies 0x1FFE [1; 2; 3; 4] w_mem ltac:(lia) eq_refl ltac:(cbn; lia)) as ((m' & E & _ & Hp) & _).
  destruct (user_copies 0x2FFE [1; 2; 3; 4] w_mem ltac:(lia) eq_refl ltac:(cbn; lia)) as (_ & _ & Hz).
  exists m'. rewrite E, !Hp. split; [vm_compute; reflexivity|]. split; [vm_compute; reflexivity|]. split; [vm_compute; reflexivity|]. exact Hz.
Defined.

End UserMemWitness.
