(* ===== verification/FileIO.v ===== *)
(** * Reading and writing files (src/kernel/filesystem/worker.cpp, and [get_lba] and [set_size] of instance.cpp)

    A worker moves the bytes of a request between the disk and the memory of the process, piece by piece: a piece lies in one
    page of the disk cache and in one cluster.  The state is the volume, the file, its folder, the disk, the memory and the
    request; a process is known by its pages ([UserMem]).  Writing through a slot outside the sectors
    that have been marked with [upgrade] is answered with [Bug], as in [Folder]. *)

From S2P Require Import Prelude Const Bytes UserMem ExFat Folder.
From S2P Require DiskCache.
From Stdlib Require Import FunctionalExtensionality.

Module FileIO.
Import Bytes UserMem ExFat Folder.

Definition COMMAND_READ : Z := 1.
Definition COMMAND_WRITE : Z := 2.
Definition COMMAND_LIST : Z := 3.

(** The fields of [file] that a worker uses. *)
Record file := File { offset : Z; buffer : Z; length : Z; iostate : Z }.
Definition set_length (n : Z) (f : file) : file := File (offset f) (buffer f) n (iostate f).
Definition set_offset (n : Z) (f : file) : file := File n (buffer f) (length f) (iostate f).
Definition fail (flag : Z) (f : file) : file := File (offset f) (buffer f) (length f) (Z.lor (iostate f) flag).

(** [get_lba] in full: a cluster that is missing is added when [grow] is set, and the head of a file that had none is written
    into its folder.  [i] is the file, [p] its folder. *)
Fixpoint grow_lba (n : nat) (grow : bool) (x : exfat) (off : Z) (i p : inode) (d : disk) : outcome (Z * exfat * inode * inode * disk) :=
  match n with
  | O => NoFuel
  | S n =>
      let idx := off / cluster_size x in
      let! (cl, c, d) := chain_get x (w32 idx) (clusters i) d;
      let i := set_clusters c i in
      if truth cl then
        let! lba := lba_of_cluster x cl;
        Ok (if lba =? 0 then 0 else w64 (lba + off mod cluster_size x / SECTOR_SIZE), x, i, p, d)
      else if negb grow then Ok (0, x, i, p, d)
      else
        let! (b, x, c, d) := expand x (w32 idx) (clusters i) d;
        let i := set_clusters c i in
        if negb b then Ok (0, x, i, p, d)
        else if idx =? 0 then
          let! (head, c, d) := chain_get x 0 (clusters i) d;
          let i := set_clusters c i in
          let! (b, p, d) := update_chain i head x p d;
          if b : bool then grow_lba n grow x off i p d else Ok (0, x, i, p, d)
        else grow_lba n grow x off i p d
  end.

Definition set_size (vs fs : Z) (x : exfat) (i p : inode) (d : disk) : outcome (bool * inode * inode * disk) :=
  if negb (valid_size i =? vs) || negb (alloc_size i =? fs) then
    let i := set_sizes vs fs i in
    let! (b, p, d) := update_size i x p d;
    Ok (b, i, p, d)
  else Ok (true, i, p, d).

Section Workers.
Context `{UserSpace}.

(** The loop of [worker_read]; [len] bytes have been moved. *)
Fixpoint read_blocks (n : nat) (x : exfat) (file_size valid : Z) (dst len : Z) (i : inode) (d : disk) (m : memory) (f : file)
  : outcome (file * inode * disk * memory) :=
  match n with
  | O => NoFuel
  | S n =>
      if len <? length f then
        if file_size <=? offset f then Ok (set_length len (fail EOF_FAILURE f), i, d, m)
        else if valid <=? offset f then
          let transfer_size := Z.min (file_size - valid) (length f - len) in
          let! (transferred, m) := UserMem.zero dst transfer_size m;
          let len := w32 (len + transferred) in
          if negb (transferred =? transfer_size) then Ok (set_length len (fail MEM_FAILURE f), i, d, m)
          else read_blocks n x file_size valid dst len i d m f
        else
          let! (lba, c, d) := get_lba x (offset f) (clusters i) d;
          let i := set_clusters c i in
          if lba =? 0 then Ok (set_length len (fail FS_FAILURE f), i, d, m)
          else
            let count := count_of lba in
            let off := Z.land (offset f) SECTOR_MASK in
            let transfer_size := Z.min (w64 (count * SECTOR_SIZE - off)) (w32 (length f - len)) in
            let transfer_size := Z.min transfer_size (w64 (valid - offset f)) in
            let transfer_size := Z.min transfer_size (w64 (cluster_size x - offset f mod cluster_size x)) in
            assert! truth transfer_size;
            let count := w8 (align_up 64 transfer_size SECTOR_SIZE / SECTOR_SIZE) in
            let! (b, d) := dm_get lba count false d;
            if negb b then Ok (set_length len (fail MEDIA_FAILURE f), i, d, m)
            else
              let! a := dm_data (page_lba lba) lba;
              let! (transferred, m) := UserMem.write dst (load_bytes transfer_size (bytes d) (a + off)) m;
              let! d := dm_relax (page_lba lba) d;
              let f := set_offset (w64 (offset f + transferred)) f in
              let len := w32 (len + transferred) in
              if negb (transferred =? transfer_size) then Ok (set_length len (fail MEM_FAILURE f), i, d, m)
              else read_blocks n x file_size valid (w64 (dst + transferred)) len i d m f
      else Ok (set_length len f, i, d, m)
  end.

Definition worker_read (x : exfat) (i : inode) (d : disk) (m : memory) (f : file) : outcome (file * inode * disk * memory) :=
  if (buffer f =? 0) || (length f =? 0) then Ok (fail MEM_FAILURE (set_length 0 f), i, d, m)
  else
    assert! valid_size i <=? alloc_size i;
    read_blocks (S (Z.to_nat (length f))) x (alloc_size i) (valid_size i) (buffer f) 0 i d m f.

(** [worker_list]: one name of a folder. *)
Definition worker_list (x : exfat) (i : inode) (d : disk) (m : memory) (f : file) : outcome (file * inode * disk * memory) :=
  if (buffer f =? 0) || (length f =? 0) then Ok (fail MEM_FAILURE (set_length 0 f), i, d, m)
  else if truth (Z.land (offset f) 0x1F) then Ok (fail OP_FAILURE (set_length 0 f), i, d, m)
  else
    let! (stat, r, i, d) := step (Z.lor ALLOW_FILE ALLOW_FOLDER) 0 x i (Reader [] (w32 (offset f / record_size))) d;
    let f := set_offset (w32 (index r * record_size)) f in
    if truth stat then Ok (set_length 0 (fail stat f), i, d, m)
    else
      let file_name := get_name true r in
      let sz := w32 (Z.of_nat (List.length file_name)) in
      let '(sz, f) := (if length f <? sz then (length f, fail MEM_FAILURE f) else (sz, f)) in
      let! (n, m) := UserMem.write (buffer f) (take (Z.to_nat sz) file_name) m;
      let f := set_length n f in
      Ok (if n =? sz then f else fail MEM_FAILURE f, i, d, m).

(** What [worker_write] threads through its loop. *)
Record world := World { vol : exfat; node : inode; folder : inode; dsk : disk; mem : memory; req : file; valid : Z; file_size : Z; len : Z }.

(** One piece of a write, once its sector is known: [None] when the loop is to end. *)
Definition write_piece (x : exfat) (lba transfer_size : Z) (sor : Z) (off : Z) (d : disk) (m : memory) : outcome (option Z * disk) :=
  let count := w8 (align_up 64 transfer_size SECTOR_SIZE / SECTOR_SIZE) in
  let overwrite := (off =? 0) && (count * SECTOR_SIZE =? transfer_size) in
  let! (b, d) := dm_get lba count overwrite d;
  if negb b then Ok (None, d)
  else
    let! _ := (if negb overwrite then dm_upgrade (page_lba lba) lba count d else Ok tt);
    let! a := dm_data (page_lba lba) lba;
    let! (transferred, data) := UserMem.read sor transfer_size m;
    assert! off + transferred <=? count * SECTOR_SIZE;
    let! d := dm_relax (page_lba lba) (set_bytes (store_bytes data (bytes d) (a + off)) d);
    Ok (Some transferred, d).

Fixpoint write_blocks (n : nat) (sor : Z) (w : world) : outcome world :=
  match n with
  | O => NoFuel
  | S n =>
      let f := req w in
      if len w <? length f then
        let off := Z.land (offset f) SECTOR_MASK in
        let! (lba, x, i, p, d) := grow_lba (S (S (List.length (faults (dsk w))))) true (vol w) (offset f) (node w) (folder w) (dsk w);
        let w := World x i p d (mem w) f (valid w) (file_size w) (len w) in
        if lba =? 0 then Ok (World x i p d (mem w) (fail FS_FAILURE f) (valid w) (file_size w) (len w))
        else
          let transfer_size := Z.min (w64 (count_of lba * SECTOR_SIZE - off)) (w32 (length f - len w)) in
          let transfer_size := Z.min transfer_size (w64 (cluster_size x - offset f mod cluster_size x)) in
          assert! truth transfer_size && truth lba;
          let! (r, d) := write_piece x lba transfer_size sor off d (mem w);
          match r with
          | None => Ok (World x i p d (mem w) (fail MEDIA_FAILURE f) (valid w) (file_size w) (len w))
          | Some transferred =>
              let f := set_offset (w64 (offset f + transferred)) f in
              let vs := Z.max (valid w) (offset f) in
              let fs := Z.max (file_size w) vs in
              let len := w32 (len w + transferred) in
              if negb (transferred =? transfer_size) then Ok (World x i p d (mem w) (fail MEM_FAILURE f) vs fs len)
              else write_blocks n (w64 (sor + transferred)) (World x i p d (mem w) f vs fs len)
          end
      else Ok w
  end.

Definition worker_write (x : exfat) (i p : inode) (d : disk) (m : memory) (f : file) : outcome (file * exfat * inode * inode * disk) :=
  if (buffer f =? 0) || (length f =? 0) then Ok (fail MEM_FAILURE (set_length 0 f), x, i, p, d)
  else
    assert! valid_size i <=? alloc_size i;
    let! w := write_blocks (S (Z.to_nat (length f))) (buffer f) (World x i p d m f (valid_size i) (alloc_size i) 0);
    let! (b, i, p, d) := set_size (valid w) (file_size w) (vol w) (node w) (folder w) (dsk w);
    let f := req w in
    Ok (set_length (len w) (if b : bool then f else fail FS_FAILURE f), vol w, i, p, d).
End Workers.
End FileIO.

Module FileIOThm.
Import Bytes UserMem UserMemThm ExFat ExFatThm Folder FolderThm FileIO.
#[local] Set Default Proof Using "Type".

(** The size of a piece. *)
Lemma piece_ok x off lba rem room : heap_ok x -> 0 <= off -> 0 < lba -> 0 < rem < 2 ^ 32 -> 0 < room ->
  let T := Z.min (Z.min (Z.min (w64 (count_of lba * SECTOR_SIZE - off mod SECTOR_SIZE)) (w32 rem)) room) (w64 (cluster_size x - off mod cluster_size x)) in
  0 < T <= rem /\ T <= room /\ T <= 4096 /\ off mod cluster_size x + T <= cluster_size x /\ off mod SECTOR_SIZE + T <= count_of lba * SECTOR_SIZE /\
  w8 (align_up 64 T SECTOR_SIZE / SECTOR_SIZE) = (T + 511) / 512 /\ 0 <= (T + 511) / 512 <= count_of lba.
Proof.
  intros Hh Ho Hl Hr Hm T. pose proof (spc_pos x Hh). pose proof (cluster_size_spc x Hh) as Ecs. pose proof (DiskCache.CacheThm.count_of_ok lba) as Ec.
  pose proof (DiskCache.CacheThm.page_lba_range lba) as Hp. assert (Hn : 1 <= count_of lba <= 8) by lia. unfold SECTOR_SIZE in *.
  pose proof (Z.mod_pos_bound off (cluster_size x) ltac:(lia)). pose proof (Z.mod_pos_bound off 512 ltac:(lia)) as Hsec.
  assert (HT : T = Z.min (Z.min (Z.min (count_of lba * 512 - off mod 512) rem) room) (cluster_size x - off mod cluster_size x)) by (unfold T; rewrite (wrap_small 64), (wrap_small 32), (wrap_small 64) by lia; done).
  clearbody T. assert (Hb : 0 < T <= rem /\ T <= room /\ T <= 4096 /\ off mod cluster_size x + T <= cluster_size x /\ off mod 512 + T <= count_of lba * 512) by lia.
  destruct Hb as (B1 & B2 & B3 & B4 & B5). do 5 (split; [done|]). clear HT.
  pose proof (align_up_pow2 64 T 9 ltac:(lia) ltac:(lia) ltac:(lia)) as Ea. change (2 ^ 9) with 512 in Ea. rewrite Ea, Z.div_mul by lia.
  replace (T + 512 - 1) with (T + 511) by lia. assert (B6 : 0 <= (T + 511) / 512 <= count_of lba) by (clear -B1 B3 B5 Hn Hsec; dlia). split; [apply wrap_small; lia|done].
Qed.

Section Read.
Context `{UserSpace} (x : exfat) (F : gset Z) (Hl : layout x) (Hh : heap_ok x) (Ha : apart x F) (Hah : apart_heap x F).

(** What a worker may rely on of a file. *)
Record io_ok (c : cluster_chain) (valid : Z) (d : disk) : Prop := {
  io_table : fat_ok x (bytes d);
  io_held : held d = F;
  io_file : file_ok x (bytes d) c;
  io_index : index_ok c (valid / cluster_size x)
}.

Lemma io_walked c valid d c' d' : io_ok c valid d -> walked x F d c c' d' -> io_ok c' valid d'.
Proof.
  intros [Ht Hhd Hf Hi] [Wh [Ws _] Wf W1 W2]. constructor; [by rewrite Ws|done|by rewrite Ws|]. unfold index_ok in *. by rewrite W1, W2.
Qed.

Lemma flat_chain f c c' : first_cluster c' = first_cluster c -> linear c' = linear c -> flat x f c' = flat x f c.
Proof using Type. intros E1 E2. unfold flat, loc, cluster_of, entry. by rewrite E1, E2. Qed.

(** A piece of a file as the disk cache has it. *)
Lemma piece_bytes f c off lba T : 0 <= off -> loc x f c off = Some (addr_of lba + off mod SECTOR_SIZE) -> off mod cluster_size x + T <= cluster_size x ->
  load_bytes T f (addr_of lba + off mod SECTOR_SIZE) = load_bytes T (flat x f c) off.
Proof using Hh.
  intros Ho Hloc HT. pose proof (spc_pos x Hh). pose proof (cluster_size_spc x Hh). unfold load_bytes. apply list_eq. intros j. rewrite !list_lookup_fmap.
  destruct (decide (Z.of_nat j < T)); [|by rewrite !lookup_seqZ_ge by lia]. rewrite !lookup_seqZ_lt by lia. cbn. f_equal. unfold flat.
  by rewrite (loc_shift x f c off (Z.of_nat j) _ ltac:(unfold SECTOR_SIZE in *; lia) Ho Hloc) by lia.
Qed.

(** How a transfer of [want] bytes of which [room] exist can end after [k] of them. *)
Definition ends (f f' : file) (want room k : Z) : Prop :=
  (k = want /\ iostate f' = iostate f) \/
  (k = room /\ room < want /\ iostate f' = Z.lor (iostate f) EOF_FAILURE) \/
  (k < room /\ exists flag, (flag = MEM_FAILURE \/ flag = FS_FAILURE \/ flag = MEDIA_FAILURE) /\ iostate f' = Z.lor (iostate f) flag).

Definition no_gap (valid alloc off want : Z) : Prop := alloc = valid \/ off + want <= valid.

(** What a read leaves: [k] bytes of the file at [dst]. *)
Definition read_spec (valid alloc dst len : Z) (i : inode) (d : disk) (m : memory) (f f' : file) (i' : inode) (d' : disk) (m' : memory) : Prop :=
  walked x F d (clusters i) (clusters i') d' /\ i' = set_clusters (clusters i') i /\ kern m' = kern m /\ buffer f' = buffer f /\
  (let want := length f - len in let room := Z.min want (Z.max 0 (valid - offset f)) in
   no_gap valid alloc (offset f) want ->
   exists k, 0 <= k <= room /\ offset f' = offset f + k /\ length f' = len + k /\
     (forall a, phys m' a = poke dst (load_bytes k (flat x (bytes d) (clusters i)) (offset f)) (phys m) a) /\ ends f f' want room k /\
     (faults d = [] -> mapped x (bytes d) (clusters i) valid -> (forall j, 0 <= j < room -> usable true (dst + j) = true) -> k = room)).

(** A read that ends without having moved anything. *)
Lemma read_stop valid alloc dst len i d m f flag c d1 : 0 <= len <= length f -> walked x F d (clusters i) c d1 ->
  (let room := Z.min (length f - len) (Z.max 0 (valid - offset f)) in
   (flag = 0 /\ len = length f) \/ (flag = EOF_FAILURE /\ valid <= offset f /\ len < length f) \/
   (0 < room /\ (flag = MEM_FAILURE \/ flag = FS_FAILURE \/ flag = MEDIA_FAILURE) /\ (faults d = [] -> mapped x (bytes d) (clusters i) valid -> (forall j, 0 <= j < room -> usable true (dst + j) = true) -> False))) ->
  read_spec valid alloc dst len i d m f (set_length len (fail flag f)) (set_clusters c i) d1 m.
Proof.
  intros Hlen Hw Hst. split; [done|]. split; [done|]. split; [done|]. split; [done|]. intros want room _. exists 0. fold room in Hst. cbn [offset length iostate set_length fail]. split; [lia|]. split; [lia|]. split; [lia|]. split; [done|].
  destruct Hst as [[-> E]|[(-> & E & E')|(Hr & Hf & Hno)]].
  - split; [left; split; [lia|apply Z.lor_0_r]|lia].
  - split; [right; left; split; [lia|split; [lia|done]]|lia].
  - split; [right; right; split; [lia|by exists flag]|]. intros E1 E2 E3. by destruct (Hno E1 E2 E3).
Qed.

(** A read that goes on after a piece of [T] bytes. *)
Lemma read_next valid alloc dst len T i d m f i1 d1 m1 f' i' d' m' : 0 <= len -> 0 < T <= Z.min (length f - len) (valid - offset f) -> 0 <= offset f ->
  walked x F d (clusters i) (clusters i1) d1 -> i1 = set_clusters (clusters i1) i -> kern m1 = kern m -> 
  (forall a, phys m1 a = poke dst (load_bytes T (flat x (bytes d) (clusters i)) (offset f)) (phys m) a) ->
  read_spec valid alloc (dst + T) (len + T) i1 d1 m1 (set_offset (offset f + T) f) f' i' d' m' ->
  read_spec valid alloc dst len i d m f f' i' d' m'.
Proof.
  intros Hlen HT Ho Hw Ei Hk1 Hp (Hw' & Ei' & Hk' & Eb & Hsp). pose proof Hw as [Wh [Ws Wq] Wf W1 W2].
  assert (Ec : flat x (bytes d1) (clusters i1) = flat x (bytes d) (clusters i)) by (rewrite Ws; by apply flat_chain).
  split; [by apply (walked_trans x F d (clusters i) (clusters i1) d1)|]. split; [by rewrite Ei', Ei|]. split; [congruence|]. split; [done|].
  intros want room Hng. destruct Hsp as (k & Hk & Eo & Elen & Hmem & Hends & Hall); [cbn [offset length set_offset]; unfold no_gap in *; lia|].
  cbn [offset length iostate set_offset] in *. exists (T + k). subst room want. split; [lia|]. split; [lia|]. split; [lia|]. split.
  - intros a. rewrite Hmem, Ec, (load_bytes_app T k) by lia. rewrite poke_app, length_load_bytes, Z2Nat.id by lia. by apply poke_ext.
  - split.
    + unfold ends in *. cbn [iostate set_offset] in Hends. destruct Hends as [[E1 E2]|[(E1 & E2 & E3)|(E1 & E2)]]; [left|right; left|right; right]; (split; [lia|]); [done|split; [lia|done]|done].
    + intros Hq Hm Hu. rewrite (Hall (Wq Hq)); [lia| |].
      * intros o Hob. rewrite Ws, (loc_chain x _ (clusters i) (clusters i1)) by done. by apply Hm.
      * intros j Hj. replace (dst + T + j) with (dst + (T + j)) by lia. apply Hu. lia.
Qed.

Lemma low_addr dst : 0 <= dst < 2 ^ 63 -> IS_HIGHADDR dst = false.
Proof using Type. apply high_or_low. Qed.

(** A piece put into the process. *)
Lemma put_piece dst l m : 0 <= dst < 2 ^ 63 -> Z.of_nat (List.length l) <= 4096 -> exists k m', UserMem.write dst l m = Ok (Z.of_nat k, m') /\ kern m' = kern m /\
  (forall a, phys m' a = poke dst (take k l) (phys m) a) /\ (k <= List.length l)%nat /\
  ((forall j, 0 <= j < Z.of_nat (List.length l) -> usable true (dst + j) = true) -> k = List.length l) /\ (0 < Z.of_nat k -> dst + Z.of_nat k <= size_512G).
Proof using Type.
  intros Hd Hn. destruct (user_write_ok dst l m ltac:(lia) (low_addr dst Hd) ltac:(lia)) as (m' & E & Hk & Hp). do 2 eexists. split; [exact E|]. split; [done|]. split; [done|]. split; [apply avail_le|].
  split; [apply avail_all|]. intros Hpos. assert (Hu : usable true (dst + (Z.of_nat (avail true (List.length l) dst) - 1)) = true) by (apply (avail_usable true (List.length l) dst); lia).
  apply usable_low in Hu. lia.
Qed.

Lemma set_clusters_eta i : i = set_clusters (clusters i) i.
Proof using Type. by destruct i. Qed.

Lemma walked_refl d c : held d = F -> file_ok x (bytes d) c -> walked x F d c c d.
Proof using Type. intros E Hf. by constructor. Qed.

Lemma read_blocks_ok n : forall valid alloc dst len i d m f, 0 <= valid <= alloc -> alloc < 2 ^ 64 -> io_ok (clusters i) valid d ->
  0 <= len <= length f -> length f < 2 ^ 32 -> length f - len < Z.of_nat n -> 0 <= offset f -> 0 <= dst < 2 ^ 63 ->
  exists f' i' d' m', read_blocks n x alloc valid dst len i d m f = Ok (f', i', d', m') /\ read_spec valid alloc dst len i d m f f' i' d' m'.
Proof using Hl Hh Ha Hah.
  induction n as [|n IH]; intros valid alloc dst len i d m f Hva Hal Hio Hlen Hl32 Hn Hoff Hdst; [lia|].
  pose proof (spc_pos x Hh) as Hsp. pose proof (cluster_size_spc x Hh) as Ecs. pose proof Hio as [Hft Hhd Hfo Hix]. pose proof (walked_refl d (clusters i) Hhd Hfo) as Hw0. cbn [read_blocks].
  destruct (Z.ltb_spec len (length f)) as [Hlt|Hge].
  2:{ do 4 eexists. split; [done|]. pose proof (read_stop valid alloc dst len i d m f 0 (clusters i) d Hlen Hw0 ltac:(left; split; [done|lia])) as Hs.
      rewrite <- set_clusters_eta in Hs. replace (set_length len f) with (set_length len (fail 0 f)); [done|]. unfold fail. rewrite Z.lor_0_r. by destruct f. }
  destruct (Z.leb_spec alloc (offset f)) as [He|He].
  { do 4 eexists. split; [done|]. pose proof (read_stop valid alloc dst len i d m f EOF_FAILURE (clusters i) d Hlen Hw0 ltac:(right; left; split; [done|lia])) as Hs. by rewrite <- set_clusters_eta in Hs. }
  destruct (Z.leb_spec valid (offset f)) as [Hv|Hv].
  { set (T := Z.min (alloc - valid) (length f - len)). rewrite (zero_is_write dst T m) by lia.
    destruct (user_write_ok dst (replicate (Z.to_nat T) 0) m ltac:(lia) (low_addr dst Hdst) ltac:(rewrite length_replicate; lia)) as (m1 & -> & Hk1 & _). cbn [obind].
    pose proof (avail_le true (List.length (replicate (Z.to_nat T) 0)) dst) as Hle. rewrite length_replicate in *. set (k := avail _ _ _) in *. clearbody k.
    assert (Hgap : forall P : Prop, no_gap valid alloc (offset f) (length f - len) -> P) by (unfold no_gap; lia).
    rewrite wrap_small by lia. destruct (Z.eqb_spec (Z.of_nat k) T) as [Ek|Ek]; cbn [negb].
    - destruct (IH valid alloc dst (len + Z.of_nat k) i d m1 f Hva Hal Hio ltac:(lia) Hl32 ltac:(lia) Hoff Hdst) as (f' & i' & d' & m' & E & Hw & Ei & Hk & Eb & _). do 4 eexists. split; [exact E|].
      split; [done|]. split; [done|]. split; [congruence|]. split; [done|]. intros want room. apply Hgap.
    - do 4 eexists. split; [done|]. split; [done|]. split; [apply set_clusters_eta|]. split; [done|]. split; [done|]. intros want room. apply Hgap. }
  assert (Hix' : index_ok (clusters i) (offset f / cluster_size x)) by (apply (index_ok_le _ _ _ Hix); split; [apply Z.div_pos; unfold SECTOR_SIZE in *; lia|apply Z.div_le_mono; unfold SECTOR_SIZE in *; lia]).
  destruct (get_lba_ok x F (clusters i) (offset f) d Hl Hh Ha Hft Hhd Hfo Hoff Hix') as (lba & c1 & d1 & -> & Hh1 & Hsm1 & Ef1 & El1 & Hok1 & Hlba & Hnone). cbn [obind].
  pose proof Hsm1 as [Hb1 Hf1]. assert (Hw1 : walked x F d (clusters i) c1 d1) by (by constructor).
  assert (Hroom : 0 < Z.min (length f - len) (Z.max 0 (valid - offset f))) by lia.
  destruct (Z.eqb_spec lba 0) as [E0|E0].
  { do 4 eexists. split; [done|]. apply read_stop; [done|done|]. right; right. split; [done|]. split; [auto|]. intros E Hm _. destruct (Hm (offset f) ltac:(lia)) as [a Hloc]. by rewrite (Hnone E E0) in Hloc. }
  destruct (Hlba E0) as [Hloc Hheap]. pose proof (fat_before_heap x Hh). pose proof (l_table _ Hl). assert (0 <= fat_sectors x) by (pose proof (l_count _ Hl); unfold fat_sectors; dlia).
  rewrite land_SECTOR_MASK. rewrite (wrap_small 64 (valid - offset f)) by lia.
  destruct (piece_ok x (offset f) lba (length f - len) (valid - offset f) Hh Hoff ltac:(lia) ltac:(lia) ltac:(lia)) as (HT1 & HT2 & HT3 & HT4 & HT5 & HT6 & HT7).
  set (T := Z.min (Z.min (Z.min _ _) _) _) in *. clearbody T. rewrite ensure_true by (apply truth_pos; lia). cbn [obind]. rewrite HT6.
  destruct (dm_get_ok lba ((T + 511) / 512) false F d1 Hh1 (Hah lba Hheap) ltac:(lia)) as [(d3 & -> & Hs3 & Hf3 & Hb3)|(d3 & -> & Hh3 & Hb3 & Hf3)]; cbn [obind negb]; cbn iota in Hb3.
  2:{ do 4 eexists. split; [done|]. apply read_stop; [done| |].
      - constructor; [done|split; [congruence|intros E; by destruct (Hf3 (Hf1 E))]|done..].
      - right; right. split; [done|]. split; [auto|]. intros E. by destruct (Hf3 (Hf1 E)). }
  unfold dm_data. rewrite ensure_true by apply Z.eqb_refl. cbn [obind]. rewrite Hb3, Hb1.
  rewrite (piece_bytes (bytes d) (clusters i) (offset f) lba T Hoff Hloc HT4). set (l := load_bytes T _ _).
  assert (Hll : List.length l = Z.to_nat T) by apply length_load_bytes.
  destruct (put_piece dst l m Hdst ltac:(lia)) as (k & m1 & -> & Hk1 & Hp1 & Hk & Hall & Hlow). cbn [obind].
  destruct (relax_opt_ok _ _ _ Hs3) as (d4 & E4 & Hh4 & Hsm4). cbn [relax_opt] in E4. rewrite E4. cbn [obind]. pose proof Hsm4 as [Hb4 Hf4].
  assert (Hw4 : walked x F d (clusters i) c1 d4) by (constructor; [done|split; [congruence|auto]|done..]).
  rewrite (wrap_small 64 (offset f + Z.of_nat k)), (wrap_small 32) by lia.
  assert (Hroom' : T <= Z.min (length f - len) (Z.max 0 (valid - offset f))) by lia.
  destruct (Z.eqb_spec (Z.of_nat k) T) as [Ek|Ek]; cbn [negb].
  - cbn [length set_offset offset]. pose proof (Hlow ltac:(lia)) as Hd'. unfold size_512G in Hd'. rewrite (wrap_small 64) by lia.
    destruct (IH valid alloc (dst + Z.of_nat k) (len + Z.of_nat k) (set_clusters c1 i) d4 m1 (set_offset (offset f + Z.of_nat k) f) Hva Hal) as (f' & i' & d' & m' & E & Hs); [by apply (io_walked (clusters i) valid d)|cbn; lia|done|cbn; lia|cbn; lia|lia|].
    do 4 eexists. split; [exact E|]. rewrite Ek in *. eapply (read_next valid alloc dst len T i d m f (set_clusters c1 i) d4 m1); [lia|lia|done|exact Hw4|done|done| |exact Hs]. intros a. rewrite Hp1. rewrite take_ge by lia. done.
  - do 4 eexists. split; [done|]. split; [done|]. split; [done|]. split; [done|]. split; [done|]. intros want room _. exists (Z.of_nat k). cbn [set_length fail set_offset offset length iostate]. subst room want.
    split; [lia|]. split; [done|]. split; [done|]. split.
    + intros a. rewrite Hp1. unfold l. by rewrite take_load_bytes by lia.
    + split; [right; right; split; [lia|by exists MEM_FAILURE; auto]|]. intros _ _ Hu. assert (k = List.length l); [|lia]. apply Hall. intros j Hj. apply Hu. lia.
Qed.

(** A read behind the valid part: the loop stays where it is until the request is full. *)
Lemma read_gap n : forall valid alloc dst len i d m f, 0 <= valid <= offset f -> offset f < alloc -> alloc < 2 ^ 64 -> 0 <= len <= length f -> length f < 2 ^ 32 -> length f - len < Z.of_nat n ->
  0 <= dst < 2 ^ 63 -> (forall j, 0 <= j < Z.min (alloc - valid) (length f) -> usable true (dst + j) = true) ->
  exists m', read_blocks n x alloc valid dst len i d m f = Ok (set_length (length f) f, i, d, m').
Proof using Type.
  induction n as [|n IH]; intros valid alloc dst len i d m f Hv He Hal Hlen Hl32 Hn Hdst Hu; [lia|]. cbn [read_blocks].
  destruct (Z.ltb_spec len (length f)); [|exists m; by replace len with (length f) by lia].
  destruct (Z.leb_spec alloc (offset f)); [lia|]. destruct (Z.leb_spec valid (offset f)); [|lia]. set (T := Z.min (alloc - valid) (length f - len)).
  rewrite (zero_is_write dst T m) by lia. destruct (user_write_ok dst (replicate (Z.to_nat T) 0) m ltac:(lia) (low_addr dst Hdst) ltac:(rewrite length_replicate; lia)) as (m1 & -> & _). cbn [obind].
  rewrite avail_all by (rewrite length_replicate; intros j Hj; apply Hu; lia). rewrite length_replicate, Z2Nat.id by lia. rewrite wrap_small by lia. rewrite Z.eqb_refl. cbn [negb].
  apply IH; try done; lia.
Qed.
End Read.

Section ReadThm.
Context `{UserSpace}.


(** A read that starts behind the valid data of a file but before its end is always answered in full and without EOF, and does not
    move on: the bytes are taken to be there however short the file is, since the loop advances neither the offset nor the place in
    the buffer. *)
Theorem read_gap_endless x i d m f : 0 <= valid_size i <= offset f -> offset f < alloc_size i -> alloc_size i < 2 ^ 64 -> 0 < length f < 2 ^ 32 -> 0 < buffer f < 2 ^ 63 ->
  (forall j, 0 <= j < Z.min (alloc_size i - valid_size i) (length f) -> usable true (buffer f + j) = true) ->
  exists m', worker_read x i d m f = Ok (f, i, d, m').
Proof.
  intros Hv He Hal Hlen Hb Hu. unfold worker_read. destruct (Z.eqb_spec (buffer f) 0); [lia|]. destruct (Z.eqb_spec (length f) 0); [lia|]. cbn [orb].
  rewrite ensure_true by (apply Z.leb_le; lia). cbn [obind]. destruct (read_gap x (S (Z.to_nat (length f))) (valid_size i) (alloc_size i) (buffer f) 0 i d m f) as (m' & ->); [lia|lia|lia|lia|lia|lia|lia|exact Hu|].
  exists m'. by destruct f.
Qed.
End ReadThm.

(** ** Writing *)

(** No byte of the disk is in a file twice; enough for that is that no cluster is. *)
Definition distinct (x : exfat) (f : Z -> Z) (c : cluster_chain) : Prop := forall o o' a, 0 <= o -> 0 <= o' -> loc x f c o = Some a -> loc x f c o' = Some a -> o = o'.

Lemma clusters_distinct x f c : heap_ok x -> (forall i j v, 0 <= i -> 0 <= j -> cluster_of x f c i = Some v -> cluster_of x f c j = Some v -> i = j) -> distinct x f c.
Proof.
  intros Hh Hd o o' a Ho Ho'. unfold loc. pose proof (spc_pos x Hh). pose proof (cluster_size_spc x Hh) as Ecs. assert (Hcs : 0 < cluster_size x) by (unfold SECTOR_SIZE in *; lia).
  destruct (cluster_of x f c (o / cluster_size x)) as [v|] eqn:E; [|done]. destruct (cluster_of x f c (o' / cluster_size x)) as [v'|] eqn:E'; [|done]. cbn. intros [= Ea] [= Ea'].
  pose proof (Z.mod_pos_bound o (cluster_size x) Hcs). pose proof (Z.mod_pos_bound o' (cluster_size x) Hcs).
  assert (Ev : v = v').
  { unfold cluster_addr, addr_of, SECTOR_SIZE in *. destruct (Z.lt_trichotomy v v') as [Hlt|[?|Hlt]]; [|done|]; exfalso.
    - pose proof (Z.mul_le_mono_nonneg_r (v - 2 + 1) (v' - 2) (spc x) ltac:(lia) ltac:(lia)). lia.
    - pose proof (Z.mul_le_mono_nonneg_r (v' - 2 + 1) (v - 2) (spc x) ltac:(lia) ltac:(lia)). lia. }
  subst v'. assert (Ei : o / cluster_size x = o' / cluster_size x) by (apply (Hd _ _ v); [apply Z.div_pos; lia|apply Z.div_pos; lia|done|done]).
  rewrite (Z.div_mod o (cluster_size x)), (Z.div_mod o' (cluster_size x)) by lia. rewrite Ei. lia.
Qed.

Section Write.
Context `{UserSpace} (x : exfat) (F : gset Z) (Hl : layout x) (Hh : heap_ok x) (Ha : apart x F) (Hah : apart_heap x F).

Lemma grow_lba_found n g off i p d lba c d1 : get_lba x off (clusters i) d = Ok (lba, c, d1) -> lba <> 0 -> grow_lba (S n) g x off i p d = Ok (lba, x, set_clusters c i, p, d1).
Proof using Type.
  unfold get_lba. cbn [grow_lba]. destruct (chain_get x (w32 (off / cluster_size x)) (clusters i) d) as [[[cl c1] d2]| |]; cbn [obind]; try done.
  unfold truth. destruct (Z.eqb_spec cl 0); cbn [negb]; [intros [= <- <- <-]; done|]. destruct (lba_of_cluster x cl); cbn [obind]; [|done..]. by intros [= <- <- <-].
Qed.

(** A piece that begins with a sector, of a disk without failures and memory that can be read. *)
Lemma write_piece_ok lba T sor d m : heap x <= lba < heap x + cluster_count x * spc x -> held d = F -> faults d = [] -> 0 < T <= 4096 ->
  w8 (align_up 64 T SECTOR_SIZE / SECTOR_SIZE) = (T + 511) / 512 -> (T + 511) / 512 <= count_of lba -> 0 <= sor < 2 ^ 63 -> (forall j, 0 <= j < T -> usable false (sor + j) = true) ->
  exists d', write_piece x lba T sor 0 d m = Ok (Some T, d') /\ held d' = F /\ faults d' = [] /\ forall a, bytes d' a = store_bytes (view sor T (phys m)) (bytes d) (addr_of lba) a.
Proof using Hl Hh Ha Hah.
  intros Hlba Hhd Hf HT E Hcnt Hs Hu. unfold write_piece. rewrite E. set (cnt := (T + 511) / 512) in *. assert (Hc1 : T <= cnt * SECTOR_SIZE) by (unfold cnt, SECTOR_SIZE; dlia). cbn [Z.eqb andb].
  set (ow := cnt * SECTOR_SIZE =? T).
  destruct (dm_get_ok lba cnt ow F d Hhd (Hah lba Hlba) Hcnt) as [(d3 & -> & Hs3 & Hf3 & Hb3)|(d3 & -> & Hh3 & Hb3 & Hf3)]; [|done]. cbn [obind negb].
  pose proof Hs3 as [Hh3 Hn3]. specialize (Hn3 _ eq_refl).
  assert (Eu : (if negb ow then dm_upgrade (page_lba lba) lba cnt d3 else Ok tt) = Ok tt).
  { destruct ow; cbn [negb]; [done|]. unfold dm_upgrade. rewrite ensure_decide by (rewrite Hh3; cbn; set_solver). cbn [obind]. by rewrite Z.eqb_refl, (proj2 (Z.leb_le _ _) Hcnt). }
  rewrite Eu. cbn [obind]. unfold dm_data. rewrite ensure_true by apply Z.eqb_refl. cbn [obind].
  rewrite (user_read_ok sor T m ltac:(lia) (low_addr sor Hs) ltac:(lia)). rewrite (avail_all false (Z.to_nat T) sor) by (intros j Hj; apply Hu; lia). rewrite Z2Nat.id by lia. cbn [obind].
  rewrite ensure_true by (apply Z.leb_le; lia). cbn [obind]. rewrite Z.add_0_r. set (l := view sor T (phys m)). assert (Hll : Z.of_nat (List.length l) = T) by (unfold l; rewrite length_view; lia).
  assert (Hs4 : slots (Some (page_lba lba)) F (set_bytes (store_bytes l (bytes d3) (addr_of lba)) d3)) by done.
  destruct (relax_opt_ok _ _ _ Hs4) as (d4 & E4 & Hh4 & Hb4 & Hf4). cbn [relax_opt] in E4. rewrite E4. cbn [obind]. eexists. split; [done|]. split; [done|]. split; [apply Hf4; cbn; auto|].
  intros a. rewrite Hb4. cbn [bytes set_bytes]. rewrite Hb3. destruct ow eqn:Eow; [|done]. apply Z.eqb_eq in Eow.
  destruct (decide (addr_of lba <= a < addr_of lba + Z.of_nat (List.length l))) as [Hin|Hout].
  - destruct (lookup_lt_is_Some_2 l (Z.to_nat (a - addr_of lba)) ltac:(lia)) as [b Hb]. replace a with (addr_of lba + Z.of_nat (Z.to_nat (a - addr_of lba))) by lia.
    by rewrite !(store_bytes_in _ _ _ _ b).
  - rewrite !store_bytes_out; try done; try lia. rewrite length_replicate. lia.
Qed.

(** What a write leaves on the disk: the bytes of the process from [sor] on in their places, all others as they were. *)
Definition written (c : cluster_chain) (off n sor : Z) (m : memory) (f f' : Z -> Z) : Prop :=
  (forall j a, 0 <= j < n -> loc x f c (off + j) = Some a -> f' a = phys m (phys_of (sor + j))) /\
  (forall a, (forall j, 0 <= j < n -> loc x f c (off + j) <> Some a) -> f' a = f a).

Lemma lookup_view sor n f j : 0 <= j < n -> view sor n f !! Z.to_nat j = Some (f (phys_of (sor + j))).
Proof using Type. intros Hj. unfold view. rewrite list_lookup_fmap, lookup_seqZ_lt by lia. cbn. do 3 f_equal. lia. Qed.

Lemma written_piece c off lba T sor m f f' : 0 <= off -> 0 < T -> loc x f c off = Some (addr_of lba) -> off mod cluster_size x + T <= cluster_size x ->
  (forall a, f' a = store_bytes (view sor T (phys m)) f (addr_of lba) a) -> written c off T sor m f f'.
Proof using Hh.
  intros Ho HT Hloc Hfit Hb. pose proof (spc_pos x Hh). pose proof (cluster_size_spc x Hh). assert (Hcs : 0 < cluster_size x) by (unfold SECTOR_SIZE in *; lia).
  assert (Hat : forall j, 0 <= j < T -> loc x f c (off + j) = Some (addr_of lba + j)) by (intros j Hj; apply (loc_shift x f c off j _ Hcs Ho Hloc); lia). split.
  - intros j a Hj Hja. rewrite Hat in Hja by lia. injection Hja as <-. rewrite Hb. rewrite <- (Z2Nat.id j) at 1 by lia. apply store_bytes_in. by apply lookup_view.
  - intros a Hno. rewrite Hb. apply store_bytes_out. rewrite length_view. destruct (decide (addr_of lba <= a < addr_of lba + T)); [|lia].
    exfalso. apply (Hno (a - addr_of lba)); [lia|]. rewrite Hat by lia. f_equal. lia.
Qed.

Lemma written_app c off n k sor m f f1 f2 : distinct x f c -> 0 <= off -> 0 <= n -> 0 <= k -> (forall o, loc x f1 c o = loc x f c o) ->
  written c off n sor m f f1 -> written c (off + n) k (sor + n) m f1 f2 -> written c off (n + k) sor m f f2.
Proof using Hh.
  intros Hd Ho Hn Hk Hloc [A1 A2] [B1 B2]. split.
  - intros j a Hj Hja. destruct (decide (j < n)).
    + rewrite B2; [by apply A1; [lia|]|]. intros j' Hj' Ej'. rewrite Hloc in Ej'. pose proof (Hd (off + j) (off + n + j') a ltac:(lia) ltac:(lia) Hja Ej'). lia.
    + rewrite (B1 (j - n) a); [do 2 f_equal; lia|lia|]. rewrite Hloc. rewrite <- Hja. f_equal. lia.
  - intros a Hno. rewrite B2, A2; [done| |].
    + intros j Hj. apply Hno. lia.
    + intros j Hj. rewrite Hloc. rewrite <- Z.add_assoc. apply Hno. lia.
Qed.

Lemma piece_end off lba rem : 0 <= off -> 0 < lba -> 0 < rem < 2 ^ 32 ->
  let T := Z.min (Z.min (w64 (count_of lba * SECTOR_SIZE - off mod SECTOR_SIZE)) (w32 rem)) (w64 (cluster_size x - off mod cluster_size x)) in
  T = Z.min (Z.min (Z.min (w64 (count_of lba * SECTOR_SIZE - off mod SECTOR_SIZE)) (w32 rem)) rem) (w64 (cluster_size x - off mod cluster_size x)) /\
  (T < rem -> (off + T) mod SECTOR_SIZE = 0).
Proof using Hh.
  intros Ho Hlb Hr T. pose proof (spc_pos x Hh). pose proof (cluster_size_spc x Hh) as Ecs. pose proof (DiskCache.CacheThm.count_of_ok lba) as Ec.
  pose proof (DiskCache.CacheThm.page_lba_range lba) as Hp. assert (Hn : 1 <= count_of lba <= 8) by lia. unfold SECTOR_SIZE in *.
  pose proof (Z.mod_pos_bound off (cluster_size x) ltac:(lia)). pose proof (Z.mod_pos_bound off 512 ltac:(lia)).
  assert (HT : T = Z.min (Z.min (count_of lba * 512 - off mod 512) rem) (cluster_size x - off mod cluster_size x)) by (unfold T; rewrite (wrap_small 64), (wrap_small 32), (wrap_small 64) by lia; done).
  split; [unfold T; rewrite !(wrap_small 32) by lia; lia|]. clearbody T. intros Hlt.
  assert (T = count_of lba * 512 - off mod 512 \/ T = cluster_size x - off mod cluster_size x) as [E|E] by lia; rewrite E.
  - clear. dlia.
  - rewrite (Z.mod_eq off (cluster_size x)) by lia. replace (off + _) with (cluster_size x * (1 + off / cluster_size x)) by lia. rewrite Ecs, <- Z.mul_assoc, Z.mul_comm. apply Z.mod_mul. lia.
Qed.

Definition want (w : world) : Z := length (req w) - len w.

(** What a write may rely on: no failures, and clusters, bytes of the process and marks for all that is left to move. *)
Record write_ready (c : cluster_chain) (off n sor : Z) (d : disk) : Prop := {
  wr_io : io_ok x F c (off + n) d;
  wr_faults : faults d = [];
  wr_mapped : mapped x (bytes d) c (off + n);
  wr_distinct : distinct x (bytes d) c;
  wr_off : 0 <= off;
  wr_end : off + n < 2 ^ 64;
  wr_sector : n = 0 \/ off mod SECTOR_SIZE = 0;
  wr_user : forall j, 0 <= j < n -> usable false (sor + j) = true;
  wr_sor : 0 <= sor < 2 ^ 63
}.

Lemma written_frame c off n sor m d d' : (forall o a, loc x (bytes d) c o = Some a -> addr_of (heap x) <= a) -> written c off n sor m (bytes d) (bytes d') -> forall a, a < addr_of (heap x) -> bytes d' a = bytes d a.
Proof using Type. intros Hloc [_ Hb] a Hlt. apply Hb. intros j _ Ej. apply Hloc in Ej. lia. Qed.

Lemma loc_heap f c o a : fat_ok x f -> file_ok x f c -> loc x f c o = Some a -> addr_of (heap x) <= a.
Proof using Hh.
  intros Hf Hok. unfold loc. destruct (cluster_of x f c (o / cluster_size x)) as [v|] eqn:E; [|done]. cbn. intros [= <-].
  pose proof (cluster_of_ok x f c _ v Hf Hok E) as [Hv _]. pose proof (spc_pos x Hh). pose proof (cluster_size_spc x Hh). pose proof (Z.mod_pos_bound o (cluster_size x) ltac:(unfold SECTOR_SIZE in *; lia)).
  unfold cluster_addr, addr_of, SECTOR_SIZE in *. assert (0 <= (v - 2) * spc x) by (apply Z.mul_nonneg_nonneg; lia). lia.
Qed.

Lemma distinct_same f f' c c' : (forall o, loc x f' c' o = loc x f c o) -> distinct x f c -> distinct x f' c'.
Proof using Type. intros E Hd o o' a Ho Ho'. rewrite !E. by apply Hd. Qed.

(** One turn of the loop. *)
Lemma write_turn c off n sor m d : write_ready c off n sor d -> 0 < n < 2 ^ 32 -> exists lba c1 d1 T d2, get_lba x off c d = Ok (lba, c1, d1) /\ 0 < lba /\
  T = Z.min (Z.min (w64 (count_of lba * SECTOR_SIZE - off mod SECTOR_SIZE)) (w32 n)) (w64 (cluster_size x - off mod cluster_size x)) /\ 0 < T <= n /\
  write_piece x lba T sor 0 d1 m = Ok (Some T, d2) /\ write_ready c1 (off + T) (n - T) (sor + T) d2 /\ sor + T <= size_512G /\
  first_cluster c1 = first_cluster c /\ linear c1 = linear c /\ (forall o, loc x (bytes d2) c o = loc x (bytes d) c o) /\ written c off T sor m (bytes d) (bytes d2).
Proof using Hl Hh Ha Hah.
  intros [[Hft Hhd Hfo Hix] Hf Hm Hdi Ho He Hsec Hu Hs] Hn. destruct Hsec as [|Hsec]; [lia|].
  pose proof (spc_pos x Hh) as Hsp. pose proof (cluster_size_spc x Hh) as Ecs. assert (Hcs : 0 < cluster_size x) by (unfold SECTOR_SIZE in *; lia).
  assert (Hix' : index_ok c (off / cluster_size x)) by (apply (index_ok_le _ _ _ Hix); split; [apply Z.div_pos; lia|apply Z.div_le_mono; lia]).
  destruct (get_lba_ok x F c off d Hl Hh Ha Hft Hhd Hfo Ho Hix') as (lba & c1 & d1 & E & Hh1 & [Hb1 Hf1] & Ef1 & El1 & Hok1 & Hlba & Hnone).
  destruct (Hm off ltac:(lia)) as [a0 Hloc0]. assert (E0 : lba <> 0) by (intros ->; by rewrite (Hnone Hf eq_refl) in Hloc0).
  destruct (Hlba E0) as [Hloc Hheap]. clear a0 Hloc0. pose proof (fat_before_heap x Hh). pose proof (l_table _ Hl). assert (0 <= fat_sectors x) by (pose proof (l_count _ Hl); unfold fat_sectors; dlia).
  destruct (piece_end off lba n Ho ltac:(lia) Hn) as [ET Hend]. destruct (piece_ok x off lba n n Hh Ho ltac:(lia) Hn ltac:(lia)) as (HT1 & _ & HT3 & HT4 & HT5 & HT6 & HT7). rewrite <- ET in *.
  set (T := Z.min _ (w64 (cluster_size x - off mod cluster_size x))) in *. exists lba, c1, d1, T. rewrite Hsec, Z.add_0_r in Hloc.
  destruct (write_piece_ok lba T sor d1 m Hheap Hh1 (Hf1 Hf) ltac:(lia) HT6 ltac:(lia) Hs ltac:(intros j Hj; apply Hu; lia)) as (d2 & Ep & Hh2 & Hf2 & Hb2). rewrite Hb1 in Hb2.
  exists d2. split; [done|]. split; [lia|]. split; [done|]. split; [done|]. split; [done|].
  assert (Hheap' : addr_of (heap x) <= addr_of lba) by (apply addr_of_le; lia).
  destruct (file_heap_write x (bytes d) (bytes d2) c1 Hl Hh Hft) as (F1 & F2 & F3); [done|intros a Hlt; rewrite Hb2; apply store_bytes_out; lia|].
  assert (F4 : forall o, loc x (bytes d2) c1 o = loc x (bytes d) c o) by (intros o; rewrite F3; by apply loc_chain).
  assert (Hlow : sor + T <= size_512G). { pose proof (usable_low false (sor + (T - 1)) (Hu (T - 1) ltac:(lia))). lia. }
  split; [|split; [done|split; [done|split; [done|split]]]].
  - constructor; [constructor; [done..|]|done| |by apply (distinct_same (bytes d) (bytes d2) c c1)|lia|lia| | |].
    + replace (off + T + (n - T)) with (off + n) by lia. unfold index_ok. by rewrite Ef1, El1.
    + intros o Hob. rewrite F4. apply Hm. lia.
    + destruct (decide (T = n)); [left; lia|right; apply Hend; lia].
    + intros j Hj. rewrite <- Z.add_assoc. apply Hu. lia.
    + unfold size_512G in Hlow. lia.
  - intros o. rewrite <- (loc_chain x (bytes d2) c c1 o) by done. apply F4.
  - apply (written_piece c off lba T sor m (bytes d) (bytes d2)); [done|lia|done|done|exact Hb2].
Qed.

Lemma write_blocks_ok n : forall sor w, vol w = x -> write_ready (clusters (node w)) (offset (req w)) (want w) sor (dsk w) -> 0 <= len w <= length (req w) -> length (req w) < 2 ^ 32 ->
  want w < Z.of_nat n -> exists w', write_blocks n sor w = Ok w' /\ vol w' = x /\ folder w' = folder w /\ mem w' = mem w /\ len w' = length (req w) /\ req w' = set_offset (offset (req w) + want w) (req w) /\
    (if want w =? 0 then valid w' = valid w /\ file_size w' = file_size w else valid w' = Z.max (valid w) (offset (req w) + want w) /\ file_size w' = Z.max (file_size w) (valid w')) /\
    node w' = set_clusters (clusters (node w')) (node w) /\ first_cluster (clusters (node w')) = first_cluster (clusters (node w)) /\ linear (clusters (node w')) = linear (clusters (node w)) /\
    (exists s, write_ready (clusters (node w')) (offset (req w) + want w) 0 s (dsk w')) /\
    (forall o, loc x (bytes (dsk w')) (clusters (node w)) o = loc x (bytes (dsk w)) (clusters (node w)) o) /\
    written (clusters (node w)) (offset (req w)) (want w) sor (mem w) (bytes (dsk w)) (bytes (dsk w')).
Proof using Hl Hh Ha Hah.
  induction n as [|n IH]; intros sor [x0 i p d m f vs fs ln]; cbn [vol node folder dsk mem req valid file_size len]; unfold want; cbn [req len]; intros -> Hwr Hlen Hl32 Hn; [lia|].
  cbn [write_blocks req len]. destruct (Z.ltb_spec ln (length f)).
  2:{ eexists. split; [done|]. cbn [vol node folder dsk mem req valid file_size len]. replace (length f - ln) with 0 in * by lia. rewrite Z.add_0_r in *. split; [done|]. split; [done|]. split; [done|]. split; [lia|]. split; [by destruct f|]. split; [done|].
      split; [apply set_clusters_eta|]. split; [done|]. split; [done|]. split; [by exists sor|]. split; [done|]. split; [intros j a Hj; lia|done]. }
  destruct (write_turn (clusters i) (offset f) (length f - ln) sor m d Hwr ltac:(lia)) as (lba & c1 & d1 & T & d2 & E & E0 & ET & HT & Ep & Hwr2 & Hlow & Ef & El & Hlc & Hw).
  cbn [dsk vol node folder mem valid file_size]. rewrite (grow_lba_found _ true (offset f) i p d lba c1 d1 E ltac:(lia)). cbn [obind].
  destruct (Z.eqb_spec lba 0); [lia|]. rewrite land_SECTOR_MASK. cbn [mem]. rewrite <- ET. rewrite ensure_true by (apply andb_true_iff; split; apply truth_pos; lia). cbn [obind].
  assert (Hsec : offset f mod SECTOR_SIZE = 0) by (destruct (wr_sector _ _ _ _ _ Hwr); [lia|done]). rewrite Hsec, Ep. cbn [obind]. rewrite Z.eqb_refl. cbn [negb]. unfold size_512G in Hlow.
  pose proof (wr_end _ _ _ _ _ Hwr). pose proof (wr_off _ _ _ _ _ Hwr). pose proof (wr_sor _ _ _ _ _ Hwr). rewrite (wrap_small 64 (sor + T)), (wrap_small 64), (wrap_small 32) by lia. cbn [offset set_offset].
  destruct (IH (sor + T) (World x (set_clusters c1 i) p d2 m (set_offset (offset f + T) f) (Z.max vs (offset f + T)) (Z.max fs (Z.max vs (offset f + T))) (ln + T))) as (w' & -> & Q1 & Q2 & Q3 & Q4 & Q5 & Q6 & Q7 & Q8 & Q9 & (s & Q10) & Q11 & Q12);
    unfold want in *; cbn [vol node folder dsk mem req valid file_size len offset length set_offset clusters set_clusters] in *; [done|by replace (length f - (ln + T)) with (length f - ln - T) by lia|lia|lia|lia|].
  replace (offset f + T + (length f - (ln + T))) with (offset f + (length f - ln)) in * by lia.
  exists w'. split; [done|]. split; [done|]. split; [done|]. split; [done|]. split; [done|]. split; [done|]. split.
  { destruct (Z.eqb_spec (length f - ln) 0); [lia|]. destruct (Z.eqb_spec (length f - (ln + T)) 0); destruct Q6 as [-> ->]; split; lia. }
  split; [by rewrite Q7|]. split; [congruence|]. split; [congruence|]. split; [by exists s|].
  assert (Hlc' : forall o, loc x (bytes (dsk w')) (clusters i) o = loc x (bytes d) (clusters i) o).
  { intros o. rewrite <- Hlc. rewrite (loc_chain x (bytes (dsk w')) c1 (clusters i)), (loc_chain x (bytes d2) c1 (clusters i)) by congruence. apply Q11. }
  split; [done|]. replace (length f - ln) with (T + (length f - (ln + T))) by lia.
  apply (written_app (clusters i) (offset f) T (length f - (ln + T)) sor m (bytes d) (bytes d2)); [by apply Hwr|lia|lia|lia|done|done|].
  destruct Q12 as [W1 W2]. split; [intros j a Hj Hja; apply W1; [done|]|intros a Hno; apply W2; intros j Hj]; rewrite (loc_chain x _ (clusters i) c1) by congruence; [done|by apply Hno].
Qed.
End Write.

Section WriteThm.
Context `{UserSpace}.

(** The record of a file in its folder, where both share the disk: the folder can be read, the record is whole, in one sector
    but for its name, and no byte of the file is one of the folder. *)
Record recorded (x : exfat) (F : gset Z) (i p : inode) (d : disk) : Prop := {
  rd_folder : folder_ok x F p d;
  rd_readable : readable x p d;
  rd_index : 0 <= rec_index i;
  rd_limit : rec_index i + 3 <= limit_of p;
  rd_sector : rec_index i mod record_per_sector <= 13;
  rd_set : set_at ANY 0 (contents x p d) (rec_index i);
  rd_apart : forall o o' a, loc x (bytes d) (clusters i) o = Some a -> loc x (bytes d) (clusters p) o' <> Some a
}.

(** A folder does not see what is written to a file. *)
Lemma recorded_written x F i p d d' : recorded x F i p d -> held d' = F -> faults d' = [] -> (forall a, a < addr_of (heap x) -> bytes d' a = bytes d a) ->
  (forall a, (forall j, loc x (bytes d) (clusters i) j <> Some a) -> bytes d' a = bytes d a) ->
  folder_ok x F p d' /\ readable x p d' /\ contents x p d' = contents x p d /\ forall o, loc x (bytes d') (clusters p) o = loc x (bytes d) (clusters p) o.
Proof using Type.
  intros [[G1 G2 G3 G4 G5 G6 G7 G8 G9] [Hf Hm] _ _ _ _ Hap] Hh' Hf' Hlow Hout.
  destruct (file_heap_write x (bytes d) (bytes d') (clusters p) G1 G2 G5 G7 Hlow) as (F1 & F2 & F3).
  split; [by constructor|]. split; [split; [done|intros o Ho; rewrite F3; by apply Hm]|]. split; [|done].
  unfold contents, flat. apply functional_extensionality. intros o. rewrite F3. destruct (loc x (bytes d) (clusters p) o) as [a|] eqn:E; [|done]. apply Hout. intros j Hj. by apply (Hap j o a).
Qed.


(** A short write over the end of a sector, within a page of the disk cache and a cluster, writes to a second sector that it has
    not marked: [upgrade] is given the sectors of the bytes counted from the beginning of the first one, so what falls into the
    second one is lost with the slot. *)
Theorem write_crossing_unmarked x F i p d m f a : layout x -> heap_ok x -> apart x F -> apart_heap x F -> io_ok x F (clusters i) (offset f) d -> faults d = [] ->
  valid_size i <= alloc_size i -> 0 <= offset f -> 0 < buffer f < 2 ^ 63 -> length f <= SECTOR_SIZE -> SECTOR_SIZE < offset f mod SECTOR_SIZE + length f ->
  loc x (bytes d) (clusters i) (offset f) = Some a -> 2 <= count_of (a / SECTOR_SIZE) -> offset f mod cluster_size x + 2 * SECTOR_SIZE <= cluster_size x + offset f mod SECTOR_SIZE ->
  (forall j, 0 <= j < length f -> usable false (buffer f + j) = true) -> worker_write x i p d m f = Bug.
Proof.
  intros Hl Hh Ha Hah [J1 J2 J3 J4] Hf Hv Ho Hb Hlen Hcross Hloc Hcnt Hclu Hu. unfold worker_write. pose proof (Z.mod_pos_bound (offset f) SECTOR_SIZE ltac:(done)) as Hmod. unfold SECTOR_SIZE in Hmod, Hlen, Hcross.
  destruct (Z.eqb_spec (buffer f) 0); [lia|]. destruct (Z.eqb_spec (length f) 0); [lia|]. cbn [orb]. rewrite ensure_true by (apply Z.leb_le; lia). cbn [obind write_blocks req len].
  destruct (Z.ltb_spec 0 (length f)); [|lia]. cbn [dsk vol node folder mem].
  destruct (get_lba_ok x F (clusters i) (offset f) d Hl Hh Ha J1 J2 J3 Ho J4) as (lba & c1 & d1 & E & Hh1 & [Hb1 Hf1] & _ & _ & _ & Hlba & Hnone).
  assert (E0 : lba <> 0) by (intros ->; by rewrite (Hnone Hf eq_refl) in Hloc). destruct (Hlba E0) as [Hloc' Hheap]. rewrite Hloc in Hloc'. injection Hloc' as ->.
  assert (El : (addr_of lba + offset f mod 512) / 512 = lba) by (unfold addr_of, SECTOR_SIZE; rewrite Z.div_add_l by lia; rewrite (Z.div_small (_ mod _)) by lia; lia). unfold SECTOR_SIZE in Hcnt. rewrite El in Hcnt.
  rewrite (grow_lba_found x _ true (offset f) i p d lba c1 d1 E E0). cbn [obind]. destruct (Z.eqb_spec lba 0); [done|]. rewrite land_SECTOR_MASK. cbn [mem].
  pose proof (fat_before_heap x Hh). pose proof (l_table _ Hl). assert (0 <= fat_sectors x) by (pose proof (l_count _ Hl); unfold fat_sectors; dlia).
  pose proof (spc_pos x Hh) as Hsp. pose proof (cluster_size_spc x Hh) as Ecs. pose proof (DiskCache.CacheThm.count_of_ok lba) as Ec. pose proof (DiskCache.CacheThm.page_lba_range lba) as Hp.
  unfold SECTOR_SIZE in *. pose proof (Z.mod_pos_bound (offset f) (cluster_size x) ltac:(lia)) as Hmc.
  set (T := Z.min (Z.min _ _) _). assert (ET : T = length f) by (unfold T; rewrite (wrap_small 64), (wrap_small 32), (wrap_small 64) by lia; lia). clearbody T. subst T.
  rewrite ensure_true by (apply andb_true_iff; split; apply truth_pos; lia). cbn [obind]. unfold write_piece.
  assert (Ecnt : w8 (align_up 64 (length f) 512 / 512) = 1).
  { pose proof (align_up_pow2 64 (length f) 9 ltac:(lia) ltac:(lia) ltac:(lia)) as Ea. change (2 ^ 9) with 512 in Ea. rewrite Ea, Z.div_mul by lia. rewrite wrap_small by (clear -Hlen H0; dlia). clear -Hlen H0. dlia. }
  unfold SECTOR_SIZE. rewrite Ecnt. destruct (Z.eqb_spec (offset f mod 512) 0); [lia|]. cbn [andb].
  destruct (dm_get_ok lba 1 false F d1 Hh1 (Hah lba Hheap) ltac:(lia)) as [(d3 & -> & [Hh3 Hn3] & Hf3 & Hb3)|(d3 & -> & Hh3 & Hb3 & Hf3)]; [|by destruct (Hf3 (Hf1 Hf))]. cbn [obind negb].
  unfold dm_upgrade. rewrite ensure_decide by (rewrite Hh3; cbn; set_solver). cbn [obind]. rewrite Z.eqb_refl. rewrite (proj2 (Z.leb_le 1 (count_of lba))) by lia. cbn [andb ensure obind].
  unfold dm_data. rewrite ensure_true by apply Z.eqb_refl. cbn [obind]. rewrite (user_read_ok (buffer f) (length f) m ltac:(lia) (low_addr (buffer f) ltac:(lia)) ltac:(lia)).
  rewrite (avail_all false (Z.to_nat (length f)) (buffer f)) by (intros j Hj; apply Hu; lia). rewrite Z2Nat.id by lia. cbn [obind].
  destruct (Z.leb_spec (offset f mod 512 + length f) (1 * 512)); [lia|done].
Qed.
End WriteThm.

(** ** Growing a file *)

Lemma good_got x F c d c' d' : good x F c d -> held d' = F -> same d d' -> first_cluster c' = first_cluster c -> linear c' = false -> cache_ok x (bytes d) c' -> good x F c' d' /\ forall k, entry x (bytes d') c' k = entry x (bytes d) c k.
Proof.
  intros [G1 G2 G3 G4 [V1 V2 V3 V4] G6 G7] Hh [Hb Hf] Ef El Hk. assert (He : forall k, entry x (bytes d) c' k = entry x (bytes d) c k) by (intros k; unfold entry; by rewrite Ef).
  split; [|intros k; by rewrite Hb]. constructor; rewrite ?Hb; try done. constructor; [done|done|unfold head_ok; by rewrite Ef|]. intros k v Hk'. rewrite He. by apply V4.
Qed.

(** The answer for a cluster that is there. *)
Lemma grow_lba_get x F n g off i p d v : heap_ok x -> good x F (clusters i) d -> faults d = [] -> 0 <= off -> 0 <= off / cluster_size x < 2 ^ 32 ->
  entry x (bytes d) (clusters i) (off / cluster_size x) = Some v ->
  exists lba c' d', grow_lba (S n) g x off i p d = Ok (lba, x, set_clusters c' i, p, d') /\ good x F c' d' /\ same d d' /\ first_cluster c' = first_cluster (clusters i) /\
    (forall k, entry x (bytes d') c' k = entry x (bytes d) (clusters i) k) /\ 0 < lba /\ loc x (bytes d') c' off = Some (addr_of lba + off mod SECTOR_SIZE).
Proof.
  intros Hh Hg Hf Ho Hi He. pose proof Hg as [G1 G2 G3 G4 Hv G6 G7]. cbn [grow_lba]. rewrite (wrap_small 32) by lia.
  destruct (chain_get_ok x F (clusters i) (off / cluster_size x) d) as (w & c' & d' & -> & Hh' & Hs & Ef & El & Hk & _ & Hw); try done; try apply Hv. cbn [obind]. rewrite He in Hw. cbn in Hw. rewrite (Hw Hf) in *. clear Hw w.
  assert (Hc : cluster_ok x v) by (eapply entry_ok; [apply Hv|apply Hv|exact He]). pose proof Hc as [Hc1 _]. rewrite truth_pos by lia.
  destruct (lba_in_cluster x v off G1 Hh Hc Ho) as (base & -> & Hb0 & Hr & Hpos & Ea). cbn [obind]. destruct (Z.eqb_spec base 0); [done|].
  destruct (good_got x F (clusters i) d c' d' Hg Hh' Hs Ef El Hk) as [Hg' He']. do 3 eexists. split; [done|]. split; [done|]. split; [done|]. split; [done|]. split; [done|]. split; [done|].
  unfold loc, cluster_of. rewrite El, He', He. cbn. by rewrite Ea.
Qed.

End FileIOThm.

Module FileIOWitness.
Import Bytes UserMem UserMemThm UserMemWitness ExFat ExFatThm Folder FolderThm FileIO FileIOThm.

(** The folder of [FolderThm] taken as a file of two clusters, the second of which comes after the first. *)
Definition w_request : file := File 500 0x1000 100 0.
Definition w_aligned : file := File 512 0x1000 500 0.

Lemma w_io : io_ok w_vol ∅ w_file 1024 (w_dir 0).
Proof. destruct (w_dir_ok 0 ltac:(lia)) as [[_ _ _ _ G5 G6 G7 _ G9] _]. by constructor. Qed.

Lemma w_apart : apart w_vol ∅ /\ apart_heap w_vol ∅.
Proof. destruct (w_dir_ok 0 ltac:(lia)) as [[_ _ G3 G4 _ _ _ _ _] _]. done. Qed.

Lemma w_user n j : 0 <= j < n -> n <= 0x2000 -> usable true (0x1000 + j) = true.
Proof.
  intros Hj Hn. unfold usable, peek, w_space, w_peek, PAGE_SIZE. assert (E : (0x1000 + j) / 4096 = 1 \/ (0x1000 + j) / 4096 = 2) by dlia. by destruct E as [-> | ->].
Qed.

Lemma w_user_read n j : 0 <= j < n -> n <= 0x2000 -> usable false (0x1000 + j) = true.
Proof. intros Hj Hn. pose proof (w_user n j Hj Hn) as Hu. unfold usable in *. by apply andb_true_iff in Hu as [-> _]. Qed.

Lemma w_distinct : distinct w_vol (bytes (w_dir 0)) w_file.
Proof.
  apply clusters_distinct; [exact w_heap|]. assert (Hc : forall i v, 0 <= i -> cluster_of w_vol (bytes (w_dir 0)) w_file i = Some v -> (i = 0 /\ v = 3) \/ (i = 1 /\ v = 4)).
  { intros i v Hi. unfold cluster_of, entry. change (linear w_file) with false. change (first_cluster w_file =? 0) with false. cbn iota. destruct (Z.to_nat i) as [|[|n]] eqn:E.
    - intros [= <-]. left. split; [lia|done].
    - change (chain_at w_vol (bytes (w_dir 0)) 1 (first_cluster w_file)) with (next w_vol (bytes (w_dir 0)) 3 ≫= fun c => Some c). replace (next w_vol (bytes (w_dir 0)) 3) with (Some 4) by (vm_compute; reflexivity). intros [= <-]. right. split; [lia|done].
    - change (S (S n)) with (2 + n)%nat. rewrite chain_at_add. replace (chain_at w_vol (bytes (w_dir 0)) 2 (first_cluster w_file)) with (@None Z) by (vm_compute; reflexivity). done. }
  intros i j v Hi Hj Ei Ej. apply Hc in Ei, Ej; lia.
Qed.


Lemma read_gap_endless_witness : exists m', worker_read w_vol (Inode 0 300 1024 w_file) (w_dir 0) w_mem w_request = Ok (w_request, Inode 0 300 1024 w_file, w_dir 0, m').
Proof.
  apply read_gap_endless; [cbn; lia..|]. intros j Hj. apply (w_user 100); cbn in Hj |- *; lia.
Defined.

Lemma w_write_ok : write_ready w_vol ∅ w_file 512 500 0x1000 (w_dir 0).
Proof.
  destruct w_io as [J1 J2 J3 J4]. constructor; [constructor; [done..|]|done| |exact w_distinct|lia|lia|by right| |lia].
  - vm_compute. split; [split; [discriminate|reflexivity]|discriminate].
  - intros o Ho. apply (w_dir_ok 0 ltac:(lia)). change (record_size * top (limit_of w_inode)) with 1024. lia.
  - intros j Hj. by apply (w_user_read 500).
Qed.


(** Clusters of two sectors and a file in one piece. *)
Definition w_vol2 : exfat := Exfat 0 64 24 32 40 8 10 0 0 0.
Definition w_disk2 : disk := Disk (fun _ => 0) [] ∅.
Definition w_node2 : inode := Inode 0 1024 1024 (Chain 2 [] [] true).

Lemma w_layout2 : layout w_vol2 /\ heap_ok w_vol2.
Proof. split; constructor; vm_compute; (done || (split; (done || discriminate))). Qed.

Lemma w_io2 off : 0 <= off < 1024 -> io_ok w_vol2 ∅ (clusters w_node2) off w_disk2.
Proof.
  intros Ho. constructor; [|done|left; split; [done|]|].
  - intros c Hc v. unfold next, fat. by rewrite (load_le_ext 4 _ (fun _ => 0)).
  - unfold cluster_ok. cbn. lia.
  - change (cluster_size w_vol2) with 1024. rewrite Z.div_small by lia. split; [lia|]. cbn. lia.
Qed.

Lemma write_crossing_unmarked_witness : worker_write w_vol2 w_node2 w_node2 w_disk2 w_mem (File 500 0x1000 20 0) = Bug.
Proof.
  apply (write_crossing_unmarked w_vol2 ∅ w_node2 w_node2 w_disk2 w_mem (File 500 0x1000 20 0) (addr_of 40 + 500) (proj1 w_layout2) (proj2 w_layout2)); [by intros ??|by intros ??|by apply w_io2|done|done|cbn; lia|cbn; lia|done|done|reflexivity|vm_compute; discriminate|vm_compute; discriminate|].
  intros j Hj. by apply (w_user_read 20).
Defined.

End FileIOWitness.
