(* ===== verification/Requests.v ===== *)
(** * Requests to files (src/kernel/filesystem/file.cpp, [thread_pool] and [thread_worker] of worker.cpp, [task] of exfat.cpp)

    A file object takes one request at a time: [read] and [write] fill its fields under its lock, [task] hands it to the worker threads by
    a queue that is linked through the objects, and a worker serves it and takes the command back.  A step is what is
    done under one lock, so that any interleaving of callers and workers is a sequence of steps.  What a worker moves is
    given ([FileIO]); the reference to the process of a file is not part of the state. *)

From S2P Require Import Prelude.
From S2P Require ExFat Folder FileIO.

Module Requests.
Abbreviation COMMAND_READ := FileIO.FileIO.COMMAND_READ.
Abbreviation COMMAND_WRITE := FileIO.FileIO.COMMAND_WRITE.
Abbreviation COMMAND_LIST := FileIO.FileIO.COMMAND_LIST.
Abbreviation OP_FAILURE := Folder.Folder.OP_FAILURE.
Abbreviation ALLOW_WRITE := ExFat.ExFat.ALLOW_WRITE.
Abbreviation STOPPING := ExFat.ExFat.STOPPING.

(** ** Files and the pool of workers *)

Record file := File { is_folder : bool; offset : Z; buffer : Z; length : Z; iostate : Z; command : Z; next : option Z; refs : Z }.
Definition set_next (n : option Z) (f : file) : file := File (is_folder f) (offset f) (buffer f) (length f) (iostate f) (command f) n (refs f).
Definition set_refs (n : Z) (f : file) : file := File (is_folder f) (offset f) (buffer f) (length f) (iostate f) (command f) (next f) n.
Definition set_command (c : Z) (f : file) : file := File (is_folder f) (offset f) (buffer f) (length f) (iostate f) c (next f) (refs f).
Definition set_state (st : Z) (f : file) : file := File (is_folder f) (offset f) (buffer f) (length f) st (command f) (next f) (refs f).
Definition set_offset (n : Z) (f : file) : file := File (is_folder f) n (buffer f) (length f) (iostate f) (command f) (next f) (refs f).
Definition set_length (n : Z) (f : file) : file := File (is_folder f) (offset f) (buffer f) n (iostate f) (command f) (next f) (refs f).
Definition request (dst len c : Z) (f : file) : file := File (is_folder f) (offset f) dst len 0 c (next f) (refs f).

Abbreviation store := (gmap Z file).

(** [read] and [write] up to [task]: whether the request is taken. *)
Definition file_read (dst len : Z) (f : file) : bool * file :=
  if truth (command f) then (false, set_state (Z.lor (iostate f) OP_FAILURE) f)
  else (true, request dst len (if is_folder f then COMMAND_LIST else COMMAND_READ) f).
Definition file_write (sor len : Z) (f : file) : bool * file :=
  if truth (command f) || is_folder f then (false, set_state (Z.lor (iostate f) OP_FAILURE) f)
  else (true, request sor len COMMAND_WRITE f).
Definition file_seek (off : Z) (f : file) : bool * file :=
  if truth (command f) then (false, f) else (true, set_offset off f).
Definition file_result (f : file) : Z := if truth (command f) then 0 else length f.
(** [wait] without the time it takes: whether it passes at once. *)
Definition file_wait (f : file) : bool := command f =? 0.
Definition file_check (f : file) : bool := truth (command f).

(** [task]: hand the request to the workers, or refuse it. *)
Definition task_allowed (flags : Z) (f : file) : bool :=
  (Z.land flags STOPPING =? 0) && (negb (command f =? COMMAND_WRITE) || truth (Z.land flags ALLOW_WRITE)).
Definition task_refuse (f : file) : file := set_command 0 (set_length 0 (set_state (Z.lor (iostate f) OP_FAILURE) f)).

Record pool := Pool { files : store; head : option Z; tail : option Z; worker_count : Z; stopping : bool }.
Definition set_files (s : store) (p : pool) : pool := Pool s (head p) (tail p) (worker_count p) (stopping p).

Definition update (k : Z) (g : file -> file) (p : pool) : outcome pool :=
  let! f := deref (files p !! k);
  Ok (set_files (<[k := g f]> (files p)) p).

Definition acquire (k : Z) (p : pool) : outcome pool :=
  let! f := deref (files p !! k);
  if refs f =? 0 then Ok p else update k (set_refs (w32 (refs f + 1))) p.

(** [file::relax] with the destructor. *)
Definition relax (k : Z) (p : pool) : outcome pool :=
  let! f := deref (files p !! k);
  assert! negb (refs f =? 0);
  if refs f =? 1 then
    assert! (command f =? 0) && bool_decide (next f = None);
    Ok (set_files (delete k (files p)) p)
  else update k (set_refs (refs f - 1)) p.

Definition put (k : Z) (p : pool) : outcome pool :=
  let! f := deref (files p !! k);
  assert! truth (command f);
  let! p := acquire k p;
  let! p := update k (set_next None) p;
  match tail p with
  | Some t =>
      assert! bool_decide (is_Some (head p));
      let! ft := deref (files p !! t);
      assert! bool_decide (next ft = None);
      let! p := update t (set_next (Some k)) p;
      Ok (Pool (files p) (head p) (Some k) (worker_count p) (stopping p))
  | None =>
      assert! bool_decide (head p = None);
      Ok (Pool (files p) (Some k) (Some k) (worker_count p) (stopping p))
  end.

(** One turn of [get]: a request, nothing yet, or the end of the worker. *)
Inductive got := Request (k : Z) | Empty | Leave.

Definition get (p : pool) : outcome (got * pool) :=
  if stopping p then
    assert! truth (worker_count p);
    Ok (Leave, Pool (files p) (head p) (tail p) (w32 (worker_count p - 1)) (stopping p))
  else
    match head p with
    | None => Ok (Empty, p)
    | Some k =>
        let! f := deref (files p !! k);
        let! t := deref (tail p);
        assert! bool_decide (is_Some (next f)) || bool_decide (t = k);
        assert! bool_decide (next f = None) || negb (bool_decide (t = k));
        let p := Pool (files p) (next f) (if bool_decide (t = k) then None else tail p) (worker_count p) (stopping p) in
        let! p := update k (set_next None) p;
        Ok (Request k, p)
    end.

(** What the functions of the worker assert of a request. *)
Definition fits (f : file) : bool :=
  if command f =? COMMAND_READ then negb (is_folder f) else if command f =? COMMAND_WRITE then negb (is_folder f)
  else if command f =? COMMAND_LIST then is_folder f else true.

(** What the dispatch adds to the answer of a worker: the case of [COMMAND_LIST] falls through to the default. *)
Definition dispatch (c : Z) (off len flags : Z) (f : file) : file :=
  let f := set_state (Z.lor (iostate f) flags) (set_length len (set_offset off f)) in
  if (c =? COMMAND_READ) || (c =? COMMAND_WRITE) then f else set_state (Z.lor (iostate f) OP_FAILURE) f.

(** ** Callers and workers *)

(** Where a caller is between the locks of its request, and where a worker is. *)
Inductive caller := Started | Accepted | Refused.
Inductive worker := Idle | Busy (k : Z) | Moved (k : Z) | Done (k : Z) | Gone.
#[export] Instance caller_eq_dec : EqDecision caller.
Proof. solve_decision. Defined.
#[export] Instance worker_eq_dec : EqDecision worker.
Proof. solve_decision. Defined.

(** [puts] and [gots] record the order in which requests went through the queue. *)
Record system := System { pl : pool; flags : Z; callers : gmap Z caller; workers : list worker; puts : list Z; gots : list Z }.
Definition set_pool (p : pool) (s : system) : system := System p (flags s) (callers s) (workers s) (puts s) (gots s).
Definition set_callers (c : gmap Z caller) (s : system) : system := System (pl s) (flags s) c (workers s) (puts s) (gots s).
Definition set_workers (w : list worker) (s : system) : system := System (pl s) (flags s) (callers s) w (puts s) (gots s).

Inductive op :=
  | Open (k : Z) (folder : bool) | Acquire (k : Z) | Close (k : Z)
  | Read (k dst len : Z) | Write (k sor len : Z) | Seek (k off : Z)
  | Decide (k : Z) | Put (k : Z) | Refuse (k : Z)
  | Get (w : nat) | Transfer (w : nat) (off len st : Z) | Finish (w : nat) | Relax (w : nat)
  | Stop.

Definition start (k : Z) (r : bool * file) (s : system) : system :=
  let s := set_pool (set_files (<[k := r.2]> (files (pl s))) (pl s)) s in
  if r.1 then set_callers (<[k := Started]> (callers s)) s else s.

Definition run (o : op) (s : system) : outcome system :=
  match o with
  | Open k folder => Ok (set_pool (set_files (<[k := File folder 0 0 0 0 0 None 1]> (files (pl s))) (pl s)) s)
  | Acquire k => let! p := acquire k (pl s); Ok (set_pool p s)
  | Close k => let! p := relax k (pl s); Ok (set_pool p s)
  | Read k dst len => let! f := deref (files (pl s) !! k); Ok (start k (file_read dst len f) s)
  | Write k sor len => let! f := deref (files (pl s) !! k); Ok (start k (file_write sor len f) s)
  | Seek k off => let! f := deref (files (pl s) !! k); Ok (set_pool (set_files (<[k := (file_seek off f).2]> (files (pl s))) (pl s)) s)
  | Decide k =>
      let! f := deref (files (pl s) !! k);
      Ok (set_callers (<[k := if task_allowed (flags s) f then Accepted else Refused]> (callers s)) s)
  | Put k =>
      let! p := put k (pl s);
      Ok (System p (flags s) (delete k (callers s)) (workers s) (puts s ++ [k]) (gots s))
  | Refuse k =>
      let! p := update k task_refuse (pl s);
      Ok (set_callers (delete k (callers s)) (set_pool p s))
  | Get w =>
      let! (r, p) := get (pl s);
      let s := set_pool p s in
      Ok match r with
         | Request k => System p (flags s) (callers s) (<[w := Busy k]> (workers s)) (puts s) (gots s ++ [k])
         | Empty => s
         | Leave => set_workers (<[w := Gone]> (workers s)) s
         end
  | Transfer w off len st =>
      match workers s !! w with
      | Some (Busy k) =>
          let! f := deref (files (pl s) !! k);
          assert! fits f;
          let! p := update k (dispatch (command f) off len st) (pl s);
          Ok (set_workers (<[w := Moved k]> (workers s)) (set_pool p s))
      | _ => Bug
      end
  | Finish w =>
      match workers s !! w with
      | Some (Moved k) => let! p := update k (set_command 0) (pl s); Ok (set_workers (<[w := Done k]> (workers s)) (set_pool p s))
      | _ => Bug
      end
  | Relax w =>
      match workers s !! w with
      | Some (Done k) => let! p := relax k (pl s); Ok (set_workers (<[w := Idle]> (workers s)) (set_pool p s))
      | _ => Bug
      end
  | Stop =>
      let p := pl s in
      if flags s =? ALLOW_WRITE then
        Ok (System (Pool (files p) (head p) (tail p) (worker_count p) true) (Z.lor ALLOW_WRITE STOPPING) (callers s) (workers s) (puts s) (gots s))
      else Ok s
  end.

Fixpoint run_all (os : list op) (s : system) : outcome system :=
  match os with
  | [] => Ok s
  | o :: os => let! s := run o s; run_all os s
  end.

(** The system after [launch]. *)
Definition launched (flags : Z) (n : nat) : system := System (Pool ∅ None None (Z.of_nat n) false) flags ∅ (replicate n Idle) [] [].
End Requests.

Module RequestsThm.
Import Requests.

(** ** Who holds a file *)

Definition holds (k : Z) (w : worker) : bool := match w with Busy j | Moved j | Done j => j =? k | _ => false end.
Definition works_on (k : Z) (w : worker) : bool := match w with Busy j | Moved j => j =? k | _ => false end.
Definition alive (w : worker) : bool := match w with Gone => false | _ => true end.
Fixpoint count {A} (p : A -> bool) (l : list A) : Z := match l with [] => 0 | a :: l => b2z (p a) + count p l end.
Definition in_call (k : Z) (s : system) : Z := match callers s !! k with Some _ => 1 | None => 0 end.

(** References that are neither of a call, of the queue nor of a worker: those of the handles. *)
Definition bound (q : list Z) (k : Z) (s : system) : Z := in_call k s + count (Z.eqb k) q + count (holds k) (workers s).

(** The queue as it is linked: [q] from the head to the tail. *)
Definition linked (q : list Z) (p : pool) : Prop :=
  head p = hd_error q /\ tail p = last q /\ forall i k f, q !! i = Some k -> files p !! k = Some f -> next f = q !! S i.

(** A file seen alone: [c] calls, [n] places in the queue, [h] workers that hold it, [w] that work on it. *)
Definition local (o : option file) (c n h w : Z) : Prop :=
  match o with
  | Some f => (n = 0 -> next f = None) /\ c + n + w = b2z (truth (command f)) /\ 1 <= refs f < 2 ^ 32 /\ c + n + h <= refs f /\ fits f = true
  | None => c + n + h = 0
  end.

Record req_inv (q : list Z) (s : system) : Prop := {
  r_linked : linked q (pl s);
  r_local k : local (files (pl s) !! k) (in_call k s) (count (Z.eqb k) q) (count (holds k) (workers s)) (count (works_on k) (workers s));
  r_workers : worker_count (pl s) = count alive (workers s);
  r_few : Z.of_nat (List.length (workers s)) < 2 ^ 32;
  r_order : puts s = gots s ++ q
}.

(** What callers may do: use a file by a reference of their own, and go on with their own call; a worker does one thing after the other. *)
Definition own (q : list Z) (k : Z) (s : system) : Prop := exists f, files (pl s) !! k = Some f /\ bound q k s < refs f.
Definition legal (q : list Z) (o : op) (s : system) : Prop :=
  match o with
  | Open k _ => files (pl s) !! k = None
  | Acquire k => own q k s /\ forall f, files (pl s) !! k = Some f -> refs f < 2 ^ 32 - 1
  | Close k | Read k _ _ | Write k _ _ | Seek k _ => own q k s
  | Decide k => callers s !! k = Some Started
  | Put k => callers s !! k = Some Accepted /\ forall f, files (pl s) !! k = Some f -> refs f < 2 ^ 32 - 1
  | Refuse k => callers s !! k = Some Refused
  | Get w => workers s !! w = Some Idle
  | Transfer w _ _ _ => exists k, workers s !! w = Some (Busy k)
  | Finish w => exists k, workers s !! w = Some (Moved k)
  | Relax w => exists k, workers s !! w = Some (Done k)
  | Stop => True
  end.

(** The queue after a step. *)
Definition queue_after (q : list Z) (o : op) (s : system) : list Z :=
  match o with
  | Put k => q ++ [k]
  | Get _ => if stopping (pl s) then q else List.tl q
  | _ => q
  end.

Lemma count_app {A} (p : A -> bool) l1 l2 : count p (l1 ++ l2) = count p l1 + count p l2.
Proof. induction l1; cbn; lia. Qed.

Lemma count_nonneg {A} (p : A -> bool) l : 0 <= count p l.
Proof. induction l as [|a l IH]; cbn; [lia|]. destruct (p a); cbn; lia. Qed.

Lemma tally_insert {A} (p : A -> bool) l i a b : l !! i = Some a -> count p (<[i := b]> l) = count p l - b2z (p a) + b2z (p b).
Proof.
  revert i. induction l as [|c l IH]; intros [|i] E; try done; cbn in E; [injection E as ->; cbn; lia|].
  change (<[S i:=b]> (c :: l)) with (c :: <[i:=b]> l). cbn [count]. rewrite (IH i E). lia.
Qed.

Lemma count_pos {A} (p : A -> bool) l i a : l !! i = Some a -> p a = true -> 0 < count p l.
Proof.
  revert i. induction l as [|c l IH]; intros [|i] E Hp; try done; cbn in *; pose proof (count_nonneg p l).
  - injection E as ->. rewrite Hp. cbn. lia.
  - specialize (IH i E Hp). destruct (p c); cbn; lia.
Qed.

Lemma count_in (k : Z) q : k ∈ q <-> 0 < count (Z.eqb k) q.
Proof.
  split.
  - intros Hk. apply list_elem_of_lookup in Hk as [i Hi]. apply (count_pos _ q i k Hi), Z.eqb_refl.
  - induction q as [|j q IH]; cbn; [lia|]. destruct (Z.eqb_spec k j) as [->|]; cbn; intros Hc; [by left|right]. apply IH. exact Hc.
Qed.

Lemma works_holds k ws : count (works_on k) ws <= count (holds k) ws.
Proof. induction ws as [|w ws IH]; cbn; [lia|]. destruct w; cbn; lia || (destruct (_ =? k); cbn; lia). Qed.

Lemma count_absent (k : Z) q : count (Z.eqb k) q = 0 <-> k ∉ q.
Proof. rewrite count_in. pose proof (count_nonneg (Z.eqb k) q). lia. Qed.

Lemma update_file k g p f : files p !! k = Some f -> update k g p = Ok (set_files (<[k := g f]> (files p)) p).
Proof. intros E. unfold update. by rewrite E. Qed.

Lemma linked_update q p p' k f f' : linked q p -> files p !! k = Some f -> files p' = <[k := f']> (files p) -> head p' = head p -> tail p' = tail p -> next f' = next f -> linked q p'.
Proof.
  intros (Hh & Ht & Hn) Hk Ef Eh Et En. split; [congruence|]. split; [congruence|]. intros i j g Hi. rewrite Ef. destruct (decide (j = k)) as [->|Hjk].
  - rewrite lookup_insert_eq. intros [= <-]. rewrite En. by apply (Hn i k).
  - rewrite lookup_insert_ne by done. by apply Hn.
Qed.

(** A step that changes one file and leaves the queue alone. *)
Lemma inv_step q s s' k f f' : req_inv q s -> files (pl s) !! k = Some f -> files (pl s') = <[k := f']> (files (pl s)) -> head (pl s') = head (pl s) -> tail (pl s') = tail (pl s) ->
  next f' = next f -> worker_count (pl s') = count alive (workers s') -> List.length (workers s') = List.length (workers s) -> puts s' = puts s -> gots s' = gots s ->
  (forall j, j <> k -> in_call j s' = in_call j s /\ count (holds j) (workers s') = count (holds j) (workers s) /\ count (works_on j) (workers s') = count (works_on j) (workers s)) ->
  local (Some f') (in_call k s') (count (Z.eqb k) q) (count (holds k) (workers s')) (count (works_on k) (workers s')) -> req_inv q s'.
Proof.
  intros [I1 I2 I3 I4 I5] Hk Ef Eh Et En Ew El Ep Eg Hj Hloc. constructor; [by apply (linked_update q (pl s) (pl s') k f f')| |done|by rewrite El|by rewrite Ep, Eg].
  intros j. rewrite Ef. destruct (decide (j = k)) as [->|Hjk]; [by rewrite lookup_insert_eq|]. rewrite lookup_insert_ne by done. destruct (Hj j Hjk) as (-> & -> & ->). apply I2.
Qed.

(** A worker that goes from one state to another as to file [k]. *)
Lemma worker_step ws w a b k : ws !! w = Some a -> (forall j, j <> k -> holds j a = false /\ holds j b = false) ->
  forall j, j <> k -> count (holds j) (<[w := b]> ws) = count (holds j) ws /\ count (works_on j) (<[w := b]> ws) = count (works_on j) ws.
Proof.
  intros E H j Hj. destruct (H j Hj) as [Ha Hb]. rewrite !(tally_insert _ ws w a b E), Ha, Hb.
  assert (forall c, holds j c = false -> works_on j c = false) as Hw by (intros [] Hc; done). rewrite (Hw a Ha), (Hw b Hb). lia.
Qed.

Lemma own_spec q k s : req_inv q s -> own q k s -> exists f, files (pl s) !! k = Some f /\ in_call k s + count (Z.eqb k) q + count (holds k) (workers s) < refs f /\
  (count (Z.eqb k) q = 0 -> next f = None) /\ in_call k s + count (Z.eqb k) q + count (works_on k) (workers s) = b2z (truth (command f)) /\ 1 <= refs f < 2 ^ 32 /\ fits f = true.
Proof.
  intros I (f & E & Hr). pose proof (r_local _ _ I k) as Hl. rewrite E in Hl. destruct Hl as (L1 & L2 & L3 & L4 & L5). by exists f.
Qed.

Lemma in_call_nonneg k s : 0 <= in_call k s.
Proof. unfold in_call. destruct (callers s !! k); lia. Qed.

Lemma in_call_set k c s j : in_call j (set_callers (<[k := c]> (callers s)) s) = if j =? k then 1 else in_call j s.
Proof. unfold in_call. cbn. destruct (Z.eqb_spec j k) as [->|]; [by rewrite lookup_insert_eq|by rewrite lookup_insert_ne by done]. Qed.

(** Changes of one file by its users. *)
Lemma user_step q s k f f' : req_inv q s -> files (pl s) !! k = Some f -> next f' = next f -> command f' = command f -> is_folder f' = is_folder f -> 1 <= refs f' < 2 ^ 32 -> bound q k s <= refs f' ->
  req_inv q (set_pool (set_files (<[k := f']> (files (pl s))) (pl s)) s).
Proof.
  intros I E En Ec Ei Hr Hb. pose proof (r_local _ _ I k) as Hl. rewrite E in Hl. destruct Hl as (L1 & L2 & L3 & L4 & L5).
  apply (inv_step q s _ k f f'); try done; [apply I|]. split; [by rewrite En|]. split; [by rewrite Ec|]. split; [done|]. split; [exact Hb|]. unfold fits in *. by rewrite Ec, Ei.
Qed.

Lemma start_ok q s k f (r : bool * file) : req_inv q s -> files (pl s) !! k = Some f -> bound q k s < refs f -> next r.2 = next f -> refs r.2 = refs f -> is_folder r.2 = is_folder f -> fits r.2 = true ->
  (if r.1 then truth (command f) = false /\ truth (command r.2) = true else command r.2 = command f) -> req_inv q (start k r s).
Proof.
  intros I E Hb En Er Ei Hfit Hc. unfold start. pose proof (r_local _ _ I k) as Hl. rewrite E in Hl. destruct Hl as (L1 & L2 & L3 & L4 & L5).
  destruct r as [[] f']; cbn [fst snd] in *.
  - destruct Hc as [C1 C2]. rewrite C1 in L2. cbn in L2. pose proof (in_call_nonneg k s). pose proof (count_nonneg (Z.eqb k) q). pose proof (count_nonneg (works_on k) (workers s)).
    apply (inv_step q s _ k f f'); try done; [apply I| |].
    + intros j Hj. rewrite in_call_set. destruct (Z.eqb_spec j k); [done|]. done.
    + rewrite in_call_set, Z.eqb_refl. cbn. unfold bound in Hb. split; [rewrite En; exact L1|]. rewrite C2. cbn. split; [lia|]. split; [lia|]. split; [lia|done].
  - apply user_step with (f := f); try done; rewrite Er; [lia|unfold bound in *; lia].
Qed.

Lemma relax_file k p f : files p !! k = Some f -> 1 <= refs f -> (refs f = 1 -> command f = 0 /\ next f = None) ->
  relax k p = Ok (set_files (if refs f =? 1 then delete k (files p) else <[k := set_refs (refs f - 1) f]> (files p)) p).
Proof.
  intros E Hr H1. unfold relax. rewrite E. cbn [deref obind]. destruct (Z.eqb_spec (refs f) 0); [lia|]. cbn [negb ensure obind]. destruct (Z.eqb_spec (refs f) 1) as [E1|].
  - destruct (H1 E1) as [-> ->]. by rewrite bool_decide_eq_true_2.
  - by apply update_file.
Qed.

Lemma truth_zero c : truth c = false -> c = 0.
Proof. unfold truth. intros E. apply negb_false_iff in E. by apply Z.eqb_eq. Qed.

(** A reference goes; [s'] differs in nothing else but the worker [h] that gives it back. *)
Lemma drop_file q s s' k f : req_inv q s -> files (pl s) !! k = Some f -> (refs f = 1 -> in_call k s + count (Z.eqb k) q + count (works_on k) (workers s) = 0 /\ count (holds k) (workers s') = 0) ->
  files (pl s') = (if refs f =? 1 then delete k (files (pl s)) else <[k := set_refs (refs f - 1) f]> (files (pl s))) -> head (pl s') = head (pl s) -> tail (pl s') = tail (pl s) ->
  callers s' = callers s -> worker_count (pl s') = count alive (workers s') -> List.length (workers s') = List.length (workers s) -> puts s' = puts s -> gots s' = gots s ->
  (forall j, j <> k -> count (holds j) (workers s') = count (holds j) (workers s) /\ count (works_on j) (workers s') = count (works_on j) (workers s)) ->
  count (works_on k) (workers s') = count (works_on k) (workers s) -> in_call k s + count (Z.eqb k) q + count (holds k) (workers s') <= refs f - 1 -> req_inv q s'.
Proof.
  intros I E H1 Ef Eh Et Ec Ew El Ep Eg Hj Hwk Hb. pose proof (r_local _ _ I k) as Hl. rewrite E in Hl. destruct Hl as (L1 & L2 & L3 & L4 & L5).
  assert (Hcall : forall j, in_call j s' = in_call j s) by (intros j; unfold in_call; by rewrite Ec).
  destruct (Z.eqb_spec (refs f) 1) as [E1|E1].
  - destruct (H1 E1) as [Hz Hh]. pose proof (in_call_nonneg k s). pose proof (count_nonneg (Z.eqb k) q). pose proof (count_nonneg (works_on k) (workers s)).
    destruct I as [[I1 [I1' I1'']] I2 I3 I4 I5]. constructor; [|intros j|done|by rewrite El|by rewrite Ep, Eg].
    + split; [congruence|]. split; [congruence|]. intros i j g Hi. rewrite Ef, lookup_delete_Some. intros [_ Hg]. by apply (I1'' i j).
    + rewrite Ef, Hcall. destruct (decide (j = k)) as [->|Hjk]; [rewrite lookup_delete_eq; cbn; lia|]. rewrite lookup_delete_ne by done. destruct (Hj j Hjk) as (-> & ->). apply I2.
  - apply (inv_step q s s' k f (set_refs (refs f - 1) f)); try done.
    + intros j Hjk. rewrite Hcall. by destruct (Hj j Hjk).
    + rewrite Hcall. split; [done|]. cbn. rewrite Hwk. split; [done|]. split; [lia|]. split; [lia|done].
Qed.

Lemma nodup_count (q : list Z) : (forall k, count (Z.eqb k) q <= 1) -> NoDup q.
Proof.
  induction q as [|k q IH]; intros Hc; [constructor|]. constructor.
  - pose proof (Hc k) as Hk. cbn in Hk. rewrite Z.eqb_refl in Hk. cbn in Hk. pose proof (count_nonneg (Z.eqb k) q). apply count_absent. lia.
  - apply IH. intros j. specialize (Hc j). cbn in Hc. destruct (j =? k); cbn in Hc; lia.
Qed.

Lemma queue_nodup q s : req_inv q s -> NoDup q.
Proof.
  intros I. apply nodup_count. intros k. pose proof (r_local _ _ I k) as Hl. pose proof (in_call_nonneg k s). pose proof (count_nonneg (works_on k) (workers s)). pose proof (count_nonneg (holds k) (workers s)).
  destruct (files (pl s) !! k) as [f|]; cbn in Hl; [|lia]. destruct Hl as (_ & Hl & _). destruct (truth (command f)); cbn in Hl; lia.
Qed.

Lemma queued_file q s k : req_inv q s -> k ∈ q -> exists f, files (pl s) !! k = Some f.
Proof.
  intros I Hk. apply count_in in Hk. pose proof (r_local _ _ I k) as Hl. destruct (files (pl s) !! k) as [f|]; [by exists f|]. cbn in Hl.
  pose proof (in_call_nonneg k s). pose proof (count_nonneg (holds k) (workers s)). lia.
Qed.

Lemma linked_put q p k f : linked q p -> NoDup q -> k ∉ q -> files p !! k = Some f -> (forall j, j ∈ q -> exists g, files p !! j = Some g) -> truth (command f) = true -> 1 <= refs f < 2 ^ 32 - 1 ->
  exists p', put k p = Ok p' /\ linked (q ++ [k]) p' /\ worker_count p' = worker_count p /\ stopping p' = stopping p /\
    files p' !! k = Some (set_next None (set_refs (refs f + 1) f)) /\ forall j, j <> k -> match files p !! j with Some g => exists n, files p' !! j = Some (set_next n g) /\ (j ∉ q -> n = next g) | None => files p' !! j = None end.
Proof.
  intros (Hh & Ht & Hn) Hnd Hk E Hq Hc Hr. unfold put, acquire. rewrite E. cbn [deref obind]. rewrite Hc. cbn [ensure obind]. destruct (Z.eqb_spec (refs f) 0); [lia|].
  rewrite (update_file k _ p f E), wrap_small by lia. cbn [obind]. erewrite update_file by (cbn [files set_files]; apply lookup_insert_eq). cbn [obind files set_files tail head]. rewrite insert_insert_eq.
  set (f1 := set_next None _). rewrite Ht, Hh. destruct q as [|t q0 _] using rev_ind.
  - cbn. eexists. split; [done|]. split; [|split; [done|split; [done|split; [apply lookup_insert_eq|]]]].
    + split; [done|]. split; [done|]. intros [|i] j g Hi; [|done]. injection Hi as <-. cbn. rewrite lookup_insert_eq. by intros [= <-].
    + intros j Hj. cbn [files set_files]. rewrite lookup_insert_ne by done. destruct (files p !! j) as [g|]; [|done]. exists (next g). by destruct g.
  - rewrite last_snoc. assert (Htk : t <> k) by (intros ->; apply Hk, elem_of_app; right; by left).
    destruct (Hq t ltac:(apply elem_of_app; right; by left)) as [ft Eft]. rewrite bool_decide_eq_true_2 by (destruct q0; cbn; eauto). cbn [ensure obind]. rewrite lookup_insert_ne, Eft by done. cbn [deref obind].
    assert (Ent : next ft = None). { rewrite (Hn (List.length q0) t ft); [apply lookup_ge_None_2; rewrite length_app; cbn; lia|by rewrite lookup_app_r, Nat.sub_diag by lia|done]. }
    rewrite bool_decide_eq_true_2 by done. cbn [ensure obind]. erewrite update_file by (cbn [files set_files]; rewrite lookup_insert_ne by done; exact Eft). cbn [obind files set_files].
    eexists. split; [done|]. cbn [files set_files head tail worker_count stopping]. split; [|split; [done|split; [done|split]]].
    + split; [cbn; destruct q0; done|]. split; [by rewrite last_snoc|]. intros i j g Hi. cbn [files]. destruct (decide (j = k)) as [->|Hjk].
      * rewrite lookup_insert_ne, lookup_insert_eq by done. intros [= <-]. cbn. symmetry. apply lookup_ge_None_2.
        destruct (decide (i < List.length (q0 ++ [t]))%nat) as [Hlt|Hge]; [|rewrite length_app; cbn; lia]. rewrite lookup_app_l in Hi by done. by destruct Hk; eapply list_elem_of_lookup_2.
      * assert (Hlt : (i < List.length (q0 ++ [t]))%nat). { destruct (decide (i < List.length (q0 ++ [t]))%nat); [done|]. rewrite lookup_app_r in Hi by lia. apply list_lookup_singleton_Some in Hi as [_ ->]. done. }
        rewrite lookup_app_l in Hi by done. destruct (decide (j = t)) as [->|Hjt].
        -- rewrite lookup_insert_eq. intros [= <-]. cbn. assert (i = List.length q0) as ->. { apply (NoDup_lookup (q0 ++ [t]) i (List.length q0) t Hnd Hi). by rewrite lookup_app_r, Nat.sub_diag by lia. }
           rewrite lookup_app_r by (rewrite length_app; cbn; lia). rewrite length_app. cbn. by replace (S (List.length q0) - (List.length q0 + 1))%nat with O by lia.
        -- rewrite !lookup_insert_ne by done. intros Eg. rewrite (Hn i j g Hi Eg). symmetry. apply lookup_app_l. rewrite length_app in *. cbn in *.
           destruct (decide (i = List.length q0)) as [->|]; [|lia]. rewrite lookup_app_r, Nat.sub_diag in Hi by lia. by injection Hi as ->.
    + rewrite lookup_insert_ne by done. by rewrite lookup_insert_eq.
    + intros j Hj. destruct (decide (j = t)) as [->|Hjt].
      * rewrite Eft, lookup_insert_eq. exists (Some k). split; [done|]. intros Hno. destruct Hno. apply elem_of_app. right. by left.
      * rewrite !lookup_insert_ne by done. destruct (files p !! j) as [g|]; [|done]. exists (next g). by destruct g.
Qed.

Lemma set_pool_eta s : set_pool (pl s) s = s.
Proof. by destruct s. Qed.

Lemma in_call_delete k s j p w a b : in_call j (System p (flags s) (delete k (callers s)) w a b) = if j =? k then 0 else in_call j s.
Proof. unfold in_call. cbn. destruct (Z.eqb_spec j k) as [->|]; [by rewrite lookup_delete_eq|by rewrite lookup_delete_ne by done]. Qed.

Lemma calling q s k c : req_inv q s -> callers s !! k = Some c -> exists f, files (pl s) !! k = Some f /\ in_call k s = 1 /\ count (Z.eqb k) q = 0 /\ count (works_on k) (workers s) = 0 /\
  next f = None /\ truth (command f) = true /\ 1 <= refs f < 2 ^ 32 /\ 1 + count (holds k) (workers s) <= refs f /\ fits f = true.
Proof.
  intros I E. pose proof (r_local _ _ I k) as Hl. assert (Ec : in_call k s = 1) by (unfold in_call; by rewrite E). rewrite Ec in Hl.
  pose proof (count_nonneg (Z.eqb k) q). pose proof (count_nonneg (works_on k) (workers s)). pose proof (count_nonneg (holds k) (workers s)).
  destruct (files (pl s) !! k) as [f|]; cbn in Hl; [|lia]. destruct Hl as (L1 & L2 & L3 & L4 & L5). exists f.
  assert (Hb : truth (command f) = true) by (destruct (truth (command f)); [done|cbn in L2; lia]). rewrite Hb in L2. cbn in L2.
  repeat (split; [done || lia|]). split; [apply L1; lia|]. repeat (split; [done || lia|]). done.
Qed.

Lemma put_step q s k : req_inv q s -> legal q (Put k) s -> exists s', run (Put k) s = Ok s' /\ req_inv (q ++ [k]) s'.
Proof.
  intros I [Hc Hr]. destruct (calling q s k _ I Hc) as (f & E & C1 & C2 & C3 & C4 & C5 & C6 & C7 & C8).
  destruct (linked_put q (pl s) k f (r_linked _ _ I) (queue_nodup q s I) ltac:(by apply count_absent) E ltac:(intros j; by apply (queued_file q s)) C5 ltac:(specialize (Hr f E); lia)) as (p' & Ep & Hln & Ew & _ & Ek & Hj).
  cbn [run]. rewrite Ep. cbn [obind]. eexists. split; [done|]. constructor; [done| |cbn; rewrite Ew; apply I|apply I|cbn; rewrite (r_order _ _ I); by rewrite app_assoc].
  intros j. rewrite in_call_delete, count_app. cbn [workers count pl]. destruct (Z.eqb_spec j k) as [->|Hjk].
  - rewrite Ek, C2. unfold local, fits in *. cbn [next set_next command set_refs refs is_folder b2z]. rewrite C5. cbn. specialize (Hr f E). split; [done|]. split; [lia|]. split; [lia|]. split; [lia|done].
  - cbn [b2z]. rewrite !Z.add_0_r. pose proof (r_local _ _ I j) as Hl. specialize (Hj j Hjk). destruct (files (pl s) !! j) as [g|]; [|by rewrite Hj].
    destruct Hj as (n & -> & Hn). cbn in Hl |- *. destruct Hl as (L1 & L2 & L3 & L4 & L5). split; [intros H0; rewrite Hn by (by apply count_absent); by apply L1|done].
Qed.

Lemma get_step q s w : req_inv q s -> legal q (Get w) s -> exists s', run (Get w) s = Ok s' /\ req_inv (queue_after q (Get w) s) s'.
Proof.
  intros I E. cbn [run legal queue_after] in *. pose proof (tally_insert alive (workers s) w Idle) as Hal. pose proof (count_pos alive (workers s) w Idle E eq_refl) as Hpos.
  assert (Hle : count alive (workers s) <= Z.of_nat (List.length (workers s))) by (generalize (workers s); intros l; induction l as [|[] l IH]; cbn; lia). pose proof (r_few _ _ I). pose proof (r_workers _ _ I) as Hw.
  pose proof (fun k b => worker_step (workers s) w Idle b k E) as Hws.
  unfold get. destruct (stopping (pl s)).
  { rewrite ensure_true by (apply truth_pos; lia). cbn [obind]. eexists. split; [done|]. constructor; cbn [pl set_workers set_pool workers files worker_count puts gots].
    - apply (r_linked _ _ I).
    - intros k. cbn. pose proof (r_local _ _ I k) as Hl. rewrite !(tally_insert _ _ _ _ _ E). cbn. rewrite !Z.sub_0_r, !Z.add_0_r. exact Hl.
    - rewrite (Hal Gone E). cbn. rewrite wrap_small by lia. lia.
    - by rewrite length_insert.
    - apply I. }
  destruct (r_linked _ _ I) as (Hh & Ht & Hn). destruct q as [|k q]; cbn in Hh; rewrite Hh.
  { cbn [obind]. rewrite set_pool_eta. by exists s. }
  destruct (queued_file (k :: q) s k I ltac:(by left)) as [f Ef]. rewrite Ef. cbn [deref obind]. pose proof (Hn O k f eq_refl Ef) as En. cbn in En. rewrite Ht.
  pose proof (queue_nodup _ _ I) as Hnd. apply NoDup_cons in Hnd as [Hk Hnd].
  pose proof (r_local _ _ I k) as Hl. rewrite Ef in Hl. cbn [count] in Hl. rewrite Z.eqb_refl in Hl. apply count_absent in Hk as Hk0. rewrite Hk0 in Hl. cbn [b2z] in Hl. destruct Hl as (_ & L2 & L3 & L4 & L5).
  pose proof (in_call_nonneg k s). pose proof (count_nonneg (works_on k) (workers s)). assert (Hb : truth (command f) = true) by (destruct (truth (command f)); [done|cbn in L2; lia]). rewrite Hb in L2. cbn in L2.
  assert (Hlast : exists t, last (k :: q) = Some t /\ (bool_decide (t = k) = bool_decide (q = [])) /\ (q <> [] -> last q = Some t)).
  { destruct q as [|b q0]; [exists k; split; [done|]; split; [by rewrite !bool_decide_eq_true_2|done]|]. destruct (last (b :: q0)) as [t|] eqn:Elast; [|by apply last_None in Elast]. exists t. split; [done|]. split; [|done].
    rewrite !bool_decide_eq_false_2; [done|done|]. intros ->. apply Hk. apply last_Some in Elast as [l' ->]. apply elem_of_app. right. by left. }
  destruct Hlast as (t & Elast & Etk & Eq). rewrite Elast. cbn [deref obind]. rewrite Etk, En.
  rewrite ensure_true by (clear; destruct q; [done|by rewrite bool_decide_eq_true_2 by (cbn; eauto)]). cbn [obind]. rewrite ensure_true by (clear; by destruct q). cbn [obind].
  erewrite update_file by exact Ef. cbn [obind files set_files]. eexists. split; [done|]. cbn [List.tl]. constructor; cbn [pl workers files set_files head tail worker_count puts gots].
  - split; [by destruct q|]. split; [destruct (decide (q = [])) as [->|Hq]; [done|rewrite bool_decide_eq_false_2 by done; cbn; rewrite ?Ht, ?Elast, (Eq Hq); done]|].
    intros i j g Hi. assert (j <> k) by (intros ->; apply Hk; by eapply list_elem_of_lookup_2). cbn. rewrite lookup_insert_ne by done. intros Eg. by apply (Hn (S i) j).
  - intros j. cbn. destruct (decide (j = k)) as [->|Hjk].
    + rewrite lookup_insert_eq, Hk0. rewrite !(tally_insert _ _ _ _ _ E). cbn. rewrite Z.eqb_refl. cbn. rewrite Hb. cbn. unfold in_call in *. cbn. unfold fits in *. cbn. split; [done|]. split; [lia|]. split; [lia|]. split; [lia|done].
    + rewrite lookup_insert_ne by done. pose proof (r_local _ _ I j) as Hlj. cbn [count] in Hlj. destruct (Z.eqb_spec j k); [done|]. cbn [b2z] in Hlj. rewrite Z.add_0_l in Hlj.
      destruct (Hws k (Busy k)) with (j := j) as [-> ->]; [|done|exact Hlj]. intros j' Hj'. split; [done|]. cbn. by apply Z.eqb_neq.
  - cbn. rewrite (Hal (Busy k) E). cbn. lia.
  - by rewrite length_insert.
  - cbn. rewrite (r_order _ _ I). by rewrite <- app_assoc.
Qed.

Lemma held_file q s w a k : req_inv q s -> workers s !! w = Some a -> holds k a = true -> exists f, files (pl s) !! k = Some f /\ 0 < count (holds k) (workers s) /\
  local (Some f) (in_call k s) (count (Z.eqb k) q) (count (holds k) (workers s)) (count (works_on k) (workers s)).
Proof.
  intros I E Hh. pose proof (r_local _ _ I k) as Hl. pose proof (count_pos (holds k) _ w a E Hh). pose proof (in_call_nonneg k s). pose proof (count_nonneg (Z.eqb k) q).
  destruct (files (pl s) !! k) as [f|]; [by exists f|]. cbn in Hl. lia.
Qed.

Lemma dispatch_fields c off len st f : next (dispatch c off len st f) = next f /\ command (dispatch c off len st f) = command f /\ is_folder (dispatch c off len st f) = is_folder f /\ refs (dispatch c off len st f) = refs f.
Proof. unfold dispatch. by destruct (_ || _). Qed.

Lemma only_k k a b : (a = Idle \/ a = Busy k \/ a = Moved k \/ a = Done k) -> (b = Idle \/ b = Moved k \/ b = Done k) -> forall j, j <> k -> holds j a = false /\ holds j b = false.
Proof. intros [-> |[-> |[-> | ->]]] [-> |[-> | ->]] j Hj; cbn; split; try done; by apply Z.eqb_neq. Qed.

Lemma open_step q s k b : req_inv q s -> files (pl s) !! k = None -> req_inv q (set_pool (set_files (<[k := File b 0 0 0 0 0 None 1]> (files (pl s))) (pl s)) s).
Proof.
  intros I E. pose proof (r_local _ _ I k) as Hl. rewrite E in Hl. cbn in Hl. pose proof (in_call_nonneg k s). pose proof (count_nonneg (Z.eqb k) q). pose proof (count_nonneg (holds k) (workers s)). pose proof (works_holds k (workers s)). pose proof (count_nonneg (works_on k) (workers s)).
  constructor; [|intros j|apply I|apply I|apply I].
  - destruct (r_linked _ _ I) as (Hh & Ht & Hn). split; [done|]. split; [done|]. intros i j g Hi. cbn. rewrite lookup_insert_ne; [by apply Hn|]. intros <-. assert (Hk : k ∈ q) by (by eapply list_elem_of_lookup_2). apply count_in in Hk. lia.
  - cbn. destruct (decide (j = k)) as [->|Hj]; [|rewrite lookup_insert_ne by done; apply I]. rewrite lookup_insert_eq. unfold in_call in *. cbn in *. split; [done|]. split; [lia|]. split; [lia|]. split; [lia|done].
Qed.

Lemma close_step q s k : req_inv q s -> own q k s -> exists p, relax k (pl s) = Ok p /\ req_inv q (set_pool p s).
Proof.
  intros I Ho. destruct (own_spec q k s I Ho) as (f & E & Hb & L1 & L2 & L3 & L5).
  pose proof (in_call_nonneg k s). pose proof (count_nonneg (Z.eqb k) q). pose proof (count_nonneg (holds k) (workers s)). pose proof (works_holds k (workers s)). pose proof (count_nonneg (works_on k) (workers s)).
  assert (Q1 : refs f = 1 -> command f = 0 /\ next f = None).
  { intros E1. split; [apply truth_zero; destruct (truth (command f)); [cbn in L2; lia|done]|apply L1; lia]. }
  rewrite (relax_file k (pl s) f E ltac:(lia) Q1). eexists. split; [done|]. apply (drop_file q s _ k f); try done; [cbn; lia|apply I|cbn; lia].
Qed.

Lemma worker_relax q s w k : req_inv q s -> workers s !! w = Some (Done k) -> exists s', run (Relax w) s = Ok s' /\ req_inv q s'.
Proof.
  intros I E. cbn [run]. rewrite E. destruct (held_file q s w (Done k) k I E ltac:(cbn; apply Z.eqb_refl)) as (f & Ef & Hpos & L1 & L2 & L3 & L4 & L5).
  pose proof (in_call_nonneg k s). pose proof (count_nonneg (Z.eqb k) q). pose proof (count_nonneg (works_on k) (workers s)). pose proof (tally_insert (holds k) _ w _ Idle E) as Ch. cbn in Ch. rewrite Z.eqb_refl in Ch. cbn in Ch.
  pose proof (tally_insert (works_on k) _ w _ Idle E) as Cw. cbn in Cw. pose proof (tally_insert alive _ w _ Idle E) as Ca. cbn in Ca. pose proof (works_holds k (<[w:=Idle]> (workers s))).
  assert (Q1 : refs f = 1 -> in_call k s + count (Z.eqb k) q + count (works_on k) (workers s) = 0 /\ count (holds k) (<[w:=Idle]> (workers s)) = 0) by lia.
  assert (Q1' : refs f = 1 -> command f = 0 /\ next f = None).
  { intros E1. destruct (Q1 E1) as [Hz _]. split; [apply truth_zero; destruct (truth (command f)); [cbn in L2; lia|done]|apply L1; lia]. }
  rewrite (relax_file k (pl s) f Ef ltac:(lia) Q1'). cbn [obind]. eexists. split; [done|]. pose proof (r_workers _ _ I).
  apply (drop_file q s _ k f); try done; cbn [workers set_workers set_pool pl worker_count set_files]; [lia|by rewrite length_insert| |lia|lia].
  apply (worker_step (workers s) w (Done k) Idle k E), only_k; auto.
Qed.

(** A worker that goes on with its request, and changes the file by [g]. *)
Lemma worker_move q s w k a b f f' : req_inv q s -> workers s !! w = Some a -> a = Busy k /\ b = Moved k \/ a = Moved k /\ b = Done k -> files (pl s) !! k = Some f -> next f' = next f -> refs f' = refs f -> fits f' = true ->
  (b = Moved k -> command f' = command f) -> (b = Done k -> command f' = 0) ->
  req_inv q (set_workers (<[w := b]> (workers s)) (set_pool (set_files (<[k := f']> (files (pl s))) (pl s)) s)).
Proof.
  intros I E Hab Ef En Er Hfit Hm Hd. assert (Ha : works_on k a = true /\ holds k a = true /\ alive a = true) by (destruct Hab as [[-> _]|[-> _]]; cbn; by rewrite Z.eqb_refl). destruct Ha as (A1 & A2 & A3).
  destruct (held_file q s w a k I E A2) as (f0 & Ef0 & Hpos & L1 & L2 & L3 & L4 & L5). rewrite Ef in Ef0. injection Ef0 as <-.
  pose proof (count_pos (works_on k) _ w a E A1). pose proof (in_call_nonneg k s). pose proof (count_nonneg (Z.eqb k) q).
  assert (Hb : truth (command f) = true) by (destruct (truth (command f)); [done|cbn in L2; lia]). rewrite Hb in L2. cbn in L2.
  pose proof (tally_insert (holds k) _ w _ b E) as Ch. pose proof (tally_insert (works_on k) _ w _ b E) as Cw. pose proof (tally_insert alive _ w _ b E) as Ca. rewrite A1 in Cw. rewrite A2 in Ch. rewrite A3 in Ca.
  assert (Hhb : holds k b = true /\ alive b = true) by (destruct Hab as [[_ ->]|[_ ->]]; cbn; by rewrite Z.eqb_refl). destruct Hhb as [B1 B2]. rewrite B1 in Ch. rewrite B2 in Ca. cbn in Ch, Ca, Cw.
  apply (inv_step q s _ k f f'); try done; cbn [workers set_workers set_pool pl worker_count set_files]; [pose proof (r_workers _ _ I); lia|by rewrite length_insert| |].
  - intros j Hj. split; [done|]. apply (worker_step (workers s) w a b k E); [|done]. apply only_k; destruct Hab as [[-> ->]|[-> ->]]; auto.
  - change (in_call k (set_workers _ _)) with (in_call k s). split; [rewrite En; exact L1|]. rewrite Er. split; [|split; [done|split; [lia|done]]].
    destruct Hab as [[_ ->]|[_ ->]]; [rewrite (Hm eq_refl), Hb|rewrite (Hd eq_refl)]; cbn in *; rewrite ?Z.eqb_refl in Cw; cbn in *; lia.
Qed.

(** Every step of the system, whoever makes it. *)
Lemma run_ok q o s : req_inv q s -> legal q o s -> exists s', run o s = Ok s' /\ req_inv (queue_after q o s) s'.
Proof.
  intros I Hl. destruct o as [k b|k|k|k dst len|k sor len|k off|k|k|k|w|w off len st|w|w|]; cbn [queue_after]; try (by apply put_step); try (by apply (get_step q s w)).
  - cbn [run legal] in *. eexists. split; [done|]. by apply open_step.
  - destruct Hl as [Ho Hr]. destruct (own_spec q k s I Ho) as (f & E & Hb & L1 & L2 & L3 & L5). specialize (Hr f E). cbn [run]. unfold acquire. rewrite E. cbn [deref obind]. destruct (Z.eqb_spec (refs f) 0); [lia|].
    rewrite wrap_small by lia. rewrite (update_file k _ (pl s) f E). cbn [obind]. eexists. split; [done|]. apply (user_step q s k f); try done; cbn; unfold bound; lia.
  - cbn [run legal] in *. destruct (close_step q s k I Hl) as (p & -> & Hi). cbn [obind]. by eexists.
  - destruct (own_spec q k s I Hl) as (f & E & Hb & L1 & L2 & L3 & L5). cbn [run]. rewrite E. cbn [deref obind]. eexists. split; [done|].
    unfold file_read. destruct (truth (command f)) eqn:Ec; apply (start_ok q s k f); try done. destruct (is_folder f) eqn:Ei; unfold fits; cbn; by rewrite ?Ei. by destruct (is_folder f).
  - destruct (own_spec q k s I Hl) as (f & E & Hb & L1 & L2 & L3 & L5). cbn [run]. rewrite E. cbn [deref obind]. eexists. split; [done|].
    unfold file_write. destruct (truth (command f)) eqn:Ec; cbn [orb]; [by apply (start_ok q s k f)|]. destruct (is_folder f) eqn:Ei; apply (start_ok q s k f); try done. unfold fits. cbn. by rewrite Ei.
  - destruct (own_spec q k s I Hl) as (f & E & Hb & L1 & L2 & L3 & L5). cbn [run]. rewrite E. cbn [deref obind]. eexists. split; [done|].
    unfold file_seek. destruct (truth (command f)); apply (user_step q s k f); try done; cbn; unfold bound; lia.
  - cbn [legal] in Hl. destruct (calling q s k _ I Hl) as (f & E & _). cbn [run]. rewrite E. cbn [deref obind]. eexists. split; [done|].
    constructor; try apply I. intros j. rewrite in_call_set. pose proof (r_local _ _ I j) as Hj. destruct (Z.eqb_spec j k) as [->|]; [|exact Hj]. unfold in_call in Hj. by rewrite Hl in Hj.
  - cbn [legal] in Hl. destruct (calling q s k _ I Hl) as (f & E & C1 & C2 & C3 & C4 & C5 & C6 & C7 & C8). cbn [run]. rewrite (update_file k _ (pl s) f E). cbn [obind]. eexists. split; [done|].
    assert (Hcall : forall j, in_call j (set_callers (delete k (callers s)) (set_pool (set_files (<[k:=task_refuse f]> (files (pl s))) (pl s)) s)) = if j =? k then 0 else in_call j s) by (intros j; exact (in_call_delete k s j (set_files (<[k:=task_refuse f]> (files (pl s))) (pl s)) (workers s) (puts s) (gots s))).
    apply (inv_step q s _ k f (task_refuse f)); try done; [apply I| |].
    + intros j Hj. rewrite Hcall. destruct (Z.eqb_spec j k); [done|]. done.
    + rewrite Hcall, Z.eqb_refl. cbn. rewrite C2, C3. repeat (split; [done || lia|]). done.
  - destruct Hl as [k E]. cbn [run]. rewrite E. destruct (held_file q s w (Busy k) k I E ltac:(cbn; apply Z.eqb_refl)) as (f & Ef & _ & _ & _ & _ & _ & L5). rewrite Ef. cbn [deref obind]. rewrite L5. cbn [ensure obind].
    erewrite update_file by exact Ef. cbn [obind]. eexists. split; [done|]. destruct (dispatch_fields (command f) off len st f) as (D1 & D2 & D3 & D4). apply (worker_move q s w k (Busy k) (Moved k) f); try done; [by left|]. unfold fits in *. by rewrite D2, D3.
  - destruct Hl as [k E]. cbn [run]. rewrite E. destruct (held_file q s w (Moved k) k I E ltac:(cbn; apply Z.eqb_refl)) as (f & Ef & _). erewrite update_file by exact Ef. cbn [obind]. eexists. split; [done|].
    apply (worker_move q s w k (Moved k) (Done k) f); try done. by right.
  - destruct Hl as [k E]. by apply (worker_relax q s w k).
  - cbn [run]. destruct (flags s =? ALLOW_WRITE); (eexists; split; [done|]); [|done]. constructor; try apply I.
Qed.

(** ** Runs *)

Inductive steps (q : list Z) (s : system) : list Z -> system -> Prop :=
  | steps_refl : steps q s q s
  | steps_step q1 s1 o s2 : steps q s q1 s1 -> legal q1 o s1 -> run o s1 = Ok s2 -> steps q s (queue_after q1 o s1) s2.

Lemma launched_inv fl n : Z.of_nat n < 2 ^ 32 -> req_inv [] (launched fl n).
Proof.
  intros Hn. constructor; [split; [done|split; [done|by intros [] k f Hi]]|intros k|..]; cbn.
  - rewrite lookup_empty. unfold in_call. cbn. rewrite lookup_empty. induction n as [|n IH]; cbn; [done|]. apply IH. lia.
  - induction n as [|n IH]; cbn; [done|]. rewrite <- IH; lia.
  - by rewrite length_replicate.
  - done.
Qed.

Lemma steps_inv q s q' s' : req_inv q s -> steps q s q' s' -> req_inv q' s'.
Proof.
  intros I Hs. induction Hs as [|q1 s1 o s2 Hs IH Hl E]; [done|]. destruct (run_ok q1 o s1 IH Hl) as (s3 & E3 & Hi). rewrite E in E3. by injection E3 as <-.
Qed.

(** C15. However many callers and workers use the files, in whatever order their steps fall: no assertion of the queue, the
    workers or the destructor of a file fails, a file that is at work is never freed, a file has one request at most, in exactly one
    place -- with its caller, in the queue or with one worker --, and requests leave the queue in the order they came. *)
Theorem requests_safe fl n q s o : Z.of_nat n < 2 ^ 32 -> steps [] (launched fl n) q s -> legal q o s ->
  exists s', run o s = Ok s' /\ steps [] (launched fl n) (queue_after q o s) s' /\ puts s' = gots s' ++ queue_after q o s /\ NoDup (queue_after q o s) /\
    forall k f, files (pl s') !! k = Some f -> in_call k s' + count (Z.eqb k) (queue_after q o s) + count (works_on k) (workers s') = b2z (truth (command f)).
Proof.
  intros Hn Hs Hl. pose proof (steps_inv _ _ _ _ (launched_inv fl n Hn) Hs) as I. destruct (run_ok q o s I Hl) as (s' & E & I'). exists s'. split; [done|]. split; [by apply (steps_step _ _ q s o)|].
  split; [apply I'|]. split; [by apply (queue_nodup _ s')|]. intros k f Ef. pose proof (r_local _ _ I' k) as Hk. rewrite Ef in Hk. apply Hk.
Qed.

(** The part of a file that a request consists of. *)
Definition same_request (f f' : file) : Prop := offset f' = offset f /\ buffer f' = buffer f /\ length f' = length f /\ command f' = command f.
Definition kept (k : Z) (s s' : store) : Prop := forall f, s !! k = Some f -> truth (command f) = true -> exists f', s' !! k = Some f' /\ same_request f f'.

(** Who may change a request: its caller when it is refused, and the worker that has it. *)
Definition in_charge (o : op) (k : Z) (s : system) : Prop :=
  match o with
  | Refuse j => j = k
  | Transfer w _ _ _ | Finish w => exists a, workers s !! w = Some a /\ works_on k a = true
  | _ => False
  end.

Lemma kept_same k s s' : s' !! k = s !! k -> kept k s s'.
Proof. intros E f Ef _. exists f. by rewrite E. Qed.

Lemma kept_insert k s j f g : s !! j = Some f -> (j = k -> truth (command f) = true -> same_request f g) -> kept k s (<[j := g]> s).
Proof.
  intros Ef Hg f0 E0 Hc. destruct (decide (j = k)) as [->|Hj].
  - rewrite Ef in E0. injection E0 as ->. exists g. rewrite lookup_insert_eq. split; [done|by apply Hg].
  - exists f0. rewrite lookup_insert_ne by done. done.
Qed.

Lemma relax_kept q s j k p : req_inv q s -> files (pl s) !! j <> None -> relax j (pl s) = Ok p -> (forall f, files (pl s) !! j = Some f -> refs f = 1 -> command f = 0) -> kept k (files (pl s)) (files p).
Proof.
  intros I Hj E Hz. unfold relax in E. destruct (files (pl s) !! j) as [f|] eqn:Ef; [|done]. cbn [deref obind] in E. destruct (refs f =? 0); [done|]. cbn [negb ensure obind] in E. destruct (Z.eqb_spec (refs f) 1) as [E1|].
  - destruct ((command f =? 0) && _); [|done]. cbn in E. injection E as <-. intros g Eg Hc. destruct (decide (j = k)) as [->|]; [|exists g; cbn; by rewrite lookup_delete_ne].
    rewrite Ef in Eg. injection Eg as <-. by rewrite (Hz f eq_refl E1) in Hc.
  - rewrite (update_file j _ (pl s) f Ef) in E. injection E as <-. cbn. by apply (kept_insert k _ j f).
Qed.

(** While a file has a request, only the worker that serves it, or the caller whose request is refused, changes what the request
    says: reads, writes and seeks of others are turned away, handles may be closed, and the file outlives the request. *)
Theorem request_kept fl n q s o s' k : Z.of_nat n < 2 ^ 32 -> steps [] (launched fl n) q s -> legal q o s -> run o s = Ok s' -> ~ in_charge o k s -> kept k (files (pl s)) (files (pl s')).
Proof.
  intros Hn Hs Hl E Hno. pose proof (steps_inv _ _ _ _ (launched_inv fl n Hn) Hs) as I. destruct o as [j b|j|j|j dst len|j sor len|j off|j|j|j|w|w off len st|w|w|]; cbn [run legal] in *.
  - injection E as <-. intros f Ef _. exists f. cbn. destruct (decide (j = k)) as [->|]; [congruence|by rewrite lookup_insert_ne].
  - destruct (own_spec q j s I (proj1 Hl)) as (f & Ef & _). unfold acquire in E. rewrite Ef in E. cbn [deref obind] in E. destruct (refs f =? 0); cbn in E; [injection E as <-; by apply kept_same|].
    rewrite (update_file j _ (pl s) f Ef) in E. injection E as <-. cbn. by apply (kept_insert k _ j f).
  - destruct (own_spec q j s I Hl) as (f & Ef & Hb & L1 & L2 & L3 & L5). destruct (relax j (pl s)) as [p| |] eqn:Er; [|done..]. injection E as <-. apply (relax_kept q s j k p I); [congruence|done|].
    intros g Eg E1. rewrite Ef in Eg. injection Eg as <-. apply truth_zero. pose proof (works_holds j (workers s)). destruct (truth (command f)); [cbn in L2; lia|done].
  - destruct (own_spec q j s I Hl) as (f & Ef & _). rewrite Ef in E. injection E as <-. unfold start, file_read. destruct (truth (command f)) eqn:Ec; cbn; by apply (kept_insert k _ j f); [|rewrite Ec].
  - destruct (own_spec q j s I Hl) as (f & Ef & _). rewrite Ef in E. injection E as <-. unfold start, file_write. destruct (truth (command f)) eqn:Ec; cbn; [by apply (kept_insert k _ j f)|].
    destruct (is_folder f); by apply (kept_insert k _ j f); [|rewrite Ec].
  - destruct (own_spec q j s I Hl) as (f & Ef & _). rewrite Ef in E. injection E as <-. unfold file_seek. destruct (truth (command f)) eqn:Ec; cbn; by apply (kept_insert k _ j f); [|rewrite Ec].
  - destruct (files (pl s) !! j); [|done]. injection E as <-. by apply kept_same.
  - destruct Hl as [Hc Hr]. destruct (calling q s j _ I Hc) as (f & Ef & C1 & C2 & C3 & C4 & C5 & C6 & C7 & C8).
    destruct (linked_put q (pl s) j f (r_linked _ _ I) (queue_nodup q s I) ltac:(by apply count_absent) Ef ltac:(intros i; by apply (queued_file q s)) C5 ltac:(specialize (Hr f Ef); lia)) as (p' & Ep & _ & _ & _ & Ek & Hj).
    rewrite Ep in E. injection E as <-. intros g Eg Hg. cbn [pl]. destruct (decide (k = j)) as [->|Hk]; [rewrite Ef in Eg; injection Eg as <-; by eexists|].
    specialize (Hj k Hk). rewrite Eg in Hj. destruct Hj as (m & -> & _). by eexists.
  - destruct (calling q s j _ I Hl) as (f & Ef & _). rewrite (update_file j _ (pl s) f Ef) in E. injection E as <-. cbn. apply (kept_insert k _ j f); [done|]. intros ->. by destruct Hno.
  - destruct (get (pl s)) as [[r p]| |] eqn:Eg; [|done..]. injection E as <-. assert (Hk : kept k (files (pl s)) (files p)); [|by destruct r]. unfold get in Eg. destruct (stopping (pl s)).
    + destruct (truth _); [|done]. injection Eg as _ <-. by apply kept_same.
    + destruct (head (pl s)) as [j|]; [|injection Eg as _ <-; by apply kept_same]. destruct (files (pl s) !! j) as [f|] eqn:Ef; [|done]. cbn [deref obind] in Eg. destruct (tail (pl s)); [|done]. cbn [deref obind] in Eg.
      do 2 (destruct (ensure _); [|done..]; cbn [obind] in Eg). erewrite update_file in Eg by exact Ef. injection Eg as _ <-. cbn. by apply (kept_insert k _ j f).
  - destruct Hl as [j Ew]. rewrite Ew in E. destruct (files (pl s) !! j) as [f|] eqn:Ef; [|done]. cbn [deref obind] in E. destruct (fits f); [|done]. cbn [ensure obind] in E. erewrite update_file in E by exact Ef. injection E as <-.
    cbn. apply (kept_insert k _ j f); [done|]. intros ->. destruct Hno. exists (Busy k). split; [done|]. cbn. apply Z.eqb_refl.
  - destruct Hl as [j Ew]. rewrite Ew in E. destruct (held_file q s w (Moved j) j I Ew ltac:(cbn; apply Z.eqb_refl)) as (f & Ef & _). erewrite update_file in E by exact Ef. injection E as <-.
    cbn. apply (kept_insert k _ j f); [done|]. intros ->. destruct Hno. exists (Moved k). split; [done|]. cbn. apply Z.eqb_refl.
  - destruct Hl as [j Ew]. rewrite Ew in E. destruct (held_file q s w (Done j) j I Ew ltac:(cbn; apply Z.eqb_refl)) as (f & Ef & Hpos & L1 & L2 & L3 & L4 & L5).
    destruct (relax j (pl s)) as [p| |] eqn:Er; [|done..]. injection E as <-. apply (relax_kept q s j k p I); [congruence|done|].
    intros g Eg E1. rewrite Ef in Eg. injection Eg as <-. apply truth_zero. pose proof (in_call_nonneg j s). pose proof (count_nonneg (Z.eqb j) q). pose proof (works_holds j (<[w:=Idle]> (workers s))).
    pose proof (tally_insert (holds j) _ w _ Idle Ew) as Ch. pose proof (tally_insert (works_on j) _ w _ Idle Ew) as Cw. cbn in Ch, Cw. rewrite Z.eqb_refl in Ch. cbn in Ch. destruct (truth (command f)); [cbn in L2; lia|done].
  - destruct (flags s =? ALLOW_WRITE); injection E as <-; by apply kept_same.
Qed.

Lemma update_stopping k g p p' : update k g p = Ok p' -> stopping p' = stopping p.
Proof. unfold update. destruct (files p !! k); [|done]. by intros [= <-]. Qed.

Lemma acquire_stopping k p p' : acquire k p = Ok p' -> stopping p' = stopping p.
Proof. unfold acquire. destruct (files p !! k) as [f|]; [|done]. cbn [deref obind]. destruct (refs f =? 0); [by intros [= <-]|apply update_stopping]. Qed.

Lemma relax_stopping k p p' : relax k p = Ok p' -> stopping p' = stopping p.
Proof.
  unfold relax. destruct (files p !! k) as [f|]; [|done]. cbn [deref obind]. destruct (ensure _); [|done..]. cbn [obind]. destruct (refs f =? 1); [|apply update_stopping].
  destruct (ensure _); [|done..]. by intros [= <-].
Qed.

Lemma put_stopping k p p' : put k p = Ok p' -> stopping p' = stopping p.
Proof.
  unfold put. destruct (files p !! k) as [f|]; [|done]. cbn [deref obind]. destruct (ensure _); [|done..]. cbn [obind]. destruct (acquire k p) as [p1| |] eqn:E1; [|done..]. cbn [obind].
  destruct (update k _ p1) as [p2| |] eqn:E2; [|done..]. cbn [obind]. apply acquire_stopping in E1. apply update_stopping in E2. destruct (tail p2) as [t|].
  - destruct (ensure _); [|done..]. cbn [obind]. destruct (files p2 !! t); [|done]. cbn [deref obind]. destruct (ensure _); [|done..]. cbn [obind]. destruct (update t _ p2) as [p3| |] eqn:E3; [|done..].
    apply update_stopping in E3. intros [= <-]. cbn. congruence.
  - destruct (ensure _); [|done..]. intros [= <-]. cbn. congruence.
Qed.

Lemma get_stopping p r p' : get p = Ok (r, p') -> stopping p' = stopping p.
Proof.
  unfold get. destruct (stopping p) eqn:Es; [destruct (ensure _); [|done..]; by intros [= _ <-]|]. destruct (head p) as [k|]; [|by intros [= _ <-]]. destruct (files p !! k); [|done]. cbn [deref obind].
  destruct (tail p); [|done]. cbn [deref obind]. do 2 (destruct (ensure _); [|done..]; cbn [obind]). destruct (update k _ _) as [p1| |] eqn:E; [|done..]. apply update_stopping in E. intros [= _ <-]. by rewrite E.
Qed.

Lemma run_stopping o s s' : run o s = Ok s' -> stopping (pl s) = true -> stopping (pl s') = true.
Proof.
  intros E Hst. rewrite <- Hst. destruct o as [j b|j|j|j dst len|j sor len|j off|j|j|j|w|w off len st|w|w|]; cbn [run] in E.
  - by injection E as <-.
  - destruct (acquire j (pl s)) eqn:E1; [|done..]. injection E as <-. by apply acquire_stopping in E1.
  - destruct (relax j (pl s)) eqn:E1; [|done..]. injection E as <-. by apply relax_stopping in E1.
  - destruct (files (pl s) !! j); [|done]. injection E as <-. unfold start. by destruct (fst _).
  - destruct (files (pl s) !! j); [|done]. injection E as <-. unfold start. by destruct (fst _).
  - destruct (files (pl s) !! j); [|done]. by injection E as <-.
  - destruct (files (pl s) !! j); [|done]. by injection E as <-.
  - destruct (put j (pl s)) eqn:E1; [|done..]. injection E as <-. by apply put_stopping in E1.
  - destruct (update j _ (pl s)) eqn:E1; [|done..]. injection E as <-. by apply update_stopping in E1.
  - destruct (get (pl s)) as [[r p]| |] eqn:E1; [|done..]. injection E as <-. apply get_stopping in E1. by destruct r.
  - destruct (workers s !! w) as [[]|]; try done. destruct (files (pl s) !! k); [|done]. cbn [deref obind] in E. destruct (ensure _); [|done..]. cbn [obind] in E. destruct (update k _ (pl s)) eqn:E1; [|done..]. injection E as <-. by apply update_stopping in E1.
  - destruct (workers s !! w) as [[]|]; try done. destruct (update k _ (pl s)) eqn:E1; [|done..]. injection E as <-. by apply update_stopping in E1.
  - destruct (workers s !! w) as [[]|]; try done. destruct (relax k (pl s)) eqn:E1; [|done..]. injection E as <-. by apply relax_stopping in E1.
  - destruct (flags s =? ALLOW_WRITE); injection E as <-; cbn; congruence.
Qed.

Lemma stopping_steps q s q' s' : stopping (pl s) = true -> steps q s q' s' -> stopping (pl s') = true /\ forall k, k ∈ q -> k ∈ q'.
Proof.
  intros Hst Hs. induction Hs as [|q1 s1 o s2 Hs [IH1 IH2] Hl E]; [done|]. split; [by apply (run_stopping o s1)|].
  intros k Hk. specialize (IH2 k Hk). destruct o; cbn [queue_after]; try done; [apply elem_of_app; by left|by rewrite IH1].
Qed.

(** A request that is in the queue when the file system stops is never served: the workers leave without looking at the queue,
    so its file stays busy for good, [wait] on it never passes and [result] stays 0. *)
Theorem stop_strands fl n q s q' s' k : Z.of_nat n < 2 ^ 32 -> steps [] (launched fl n) q s -> stopping (pl s) = true -> k ∈ q -> steps q s q' s' ->
  k ∈ q' /\ exists f, files (pl s') !! k = Some f /\ file_wait f = false /\ file_result f = 0 /\ file_check f = true.
Proof.
  intros Hn Hs Hst Hk Hs'. pose proof (steps_inv _ _ _ _ (launched_inv fl n Hn) Hs) as I. pose proof (steps_inv _ _ _ _ I Hs') as I'. destruct (stopping_steps _ _ _ _ Hst Hs') as [_ Hin]. specialize (Hin k Hk). split; [done|].
  destruct (queued_file q' s' k I' Hin) as [f Ef]. exists f. split; [done|]. pose proof (r_local _ _ I' k) as Hl. rewrite Ef in Hl. destruct Hl as (_ & L2 & _). apply count_in in Hin.
  pose proof (in_call_nonneg k s'). pose proof (count_nonneg (works_on k) (workers s')). assert (Hc : truth (command f) = true) by (destruct (truth (command f)); [done|cbn in L2; lia]).
  unfold file_wait, file_result, file_check. rewrite Hc. split; [|done]. unfold truth in Hc. by apply negb_true_iff in Hc.
Qed.
End RequestsThm.

Module RequestsWitness.
Import Requests RequestsThm.

(** One worker; a file is opened, and a read of it goes into the queue. *)
Definition w_at (os : list op) : system := default (launched 2 1) (match run_all os (launched 2 1) with Ok s => Some s | _ => None end).
Definition w_ops : list op := [Open 7 false; Read 7 0x1000 100; Decide 7; Put 7].

Lemma w_handle : own [] 7 (w_at (take 1 w_ops)).
Proof. exists (File false 0 0 0 0 0 None 1). split; vm_compute; reflexivity. Qed.

Lemma w_steps : steps [] (launched 2 1) [7] (w_at w_ops).
Proof.
  apply (steps_step _ _ [] (w_at (take 3 w_ops)) (Put 7)); [|split; [vm_compute; reflexivity|intros f Hf; vm_compute in Hf; injection Hf as <-; cbn; lia]|vm_compute; reflexivity].
  apply (steps_step _ _ [] (w_at (take 2 w_ops)) (Decide 7)); [|vm_compute; reflexivity|vm_compute; reflexivity].
  apply (steps_step _ _ [] (w_at (take 1 w_ops)) (Read 7 0x1000 100)); [|exact w_handle|vm_compute; reflexivity].
  apply (steps_step _ _ [] (launched 2 1) (Open 7 false)); [constructor|vm_compute; reflexivity|vm_compute; reflexivity].
Qed.

Lemma requests_safe_witness : exists s', run (Get 0) (w_at w_ops) = Ok s' /\ puts s' = gots s' ++ queue_after [7] (Get 0) (w_at w_ops).
Proof.
  destruct (requests_safe 2 1 [7] (w_at w_ops) (Get 0) ltac:(lia) w_steps ltac:(vm_compute; reflexivity)) as (s' & E & _ & Hp & _). by exists s'.
Defined.

Lemma request_kept_witness : exists s', run (Seek 7 5) (w_at w_ops) = Ok s' /\ kept 7 (files (pl (w_at w_ops))) (files (pl s')).
Proof.
  exists (w_at (w_ops ++ [Seek 7 5])). split; [vm_compute; reflexivity|].
  apply (request_kept 2 1 [7] (w_at w_ops) (Seek 7 5) (w_at (w_ops ++ [Seek 7 5])) 7); [lia|exact w_steps| |vm_compute; reflexivity|by intros []].
  exists (File false 0 0x1000 100 0 1 None 2). split; vm_compute; reflexivity.
Defined.

Lemma stop_strands_witness : exists f, files (pl (w_at (w_ops ++ [Stop; Get 0]))) !! 7 = Some f /\ file_wait f = false.
Proof.
  destruct (stop_strands 2 1 [7] (w_at (w_ops ++ [Stop])) [7] (w_at (w_ops ++ [Stop; Get 0])) 7) as [_ (f & Ef & Hw & _)]; [lia| |vm_compute; reflexivity|by left| |by exists f].
  - apply (steps_step _ _ [7] (w_at w_ops) Stop); [exact w_steps|exact I|vm_compute; reflexivity].
  - apply (steps_step _ _ [7] (w_at (w_ops ++ [Stop])) (Get 0)); [constructor|vm_compute; reflexivity|vm_compute; reflexivity].
Defined.
End RequestsWitness.
