(* ===== verification/Phys.v ===== *)
(** * What the page allocator promises to the address spaces

    The address spaces take pages from the allocator of [PM] and give them back.  [Phys] is that interface: the calls, and what
    may be relied on as long as clients give back only what they hold and take only what they have reserved.  [good out s]: the
    allocator is in order and [out] are the pages in the hands of clients; [promised s] pages are reserved.  The instance at
    the end is the allocator of src/kernel/memory/pm.cpp. *)

From S2P Require Import Prelude Const.
From S2P Require PM.

Abbreviation MODE := PM.PM.MODE.
Abbreviation NONE := PM.PM.NONE.
Abbreviation MUST_SUCCEED := PM.PM.MUST_SUCCEED.
Abbreviation TAKE := PM.PM.TAKE.
#[export] Existing Instance PM.PM.MODE_eq_dec.

(** [pa] is the address of a page that nobody had, and that the clients have now. *)
Definition handed_out {S : Type} (good : gset Z -> S -> Prop) (out : gset Z) (pa : Z) (s' : S) : Prop :=
  exists page, pa = page * PAGE_SIZE /\ 0 < page < 2 ^ 40 /\ page ∉ out /\ good ({[page]} ∪ out) s'.

Class Phys := {
  phys_state : Type;
  pm_allocate : MODE -> phys_state -> outcome (Z * phys_state);
  pm_reserve : Z -> phys_state -> outcome (bool * phys_state);
  pm_release : Z -> phys_state -> outcome phys_state;
  pm_available : phys_state -> outcome Z;
  good : gset Z -> phys_state -> Prop;
  promised : phys_state -> Z;
  spare : phys_state -> Z;
  promised_nonneg out s : good out s -> 0 <= promised s;
  good_page out s x : good out s -> x ∈ out -> 0 < x < 2 ^ 40;
  available_spare out s : good out s -> pm_available s = Ok (spare s);
  (** Without a reservation the answer may be 0. *)
  allocate_none out s : good out s -> exists pa s', pm_allocate NONE s = Ok (pa, s') /\ promised s' = promised s /\
    (pa = 0 /\ good out s' \/ handed_out good out pa s');
  allocate_must out s : good out s -> 1 < spare s -> exists pa s', pm_allocate MUST_SUCCEED s = Ok (pa, s') /\ promised s' = promised s /\
    spare s' = spare s - 1 /\ handed_out good out pa s';
  allocate_take out s : good out s -> 0 < promised s -> exists pa s', pm_allocate TAKE s = Ok (pa, s') /\ promised s' = promised s - 1 /\
    handed_out good out pa s';
  reserve_pages out s n : good out s -> 0 <= n -> exists b s', pm_reserve n s = Ok (b, s') /\ good out s' /\ promised s' = promised s + (if b then n else 0);
  release_page out s page : good out s -> page ∈ out -> exists s', pm_release (page * PAGE_SIZE) s = Ok s' /\ good (out ∖ {[page]}) s' /\ promised s' = promised s
}.

(** ** The allocator as it is *)
Section Instance_of_PM.
Import PM.PM.
Context (invoke : Z -> pm -> Z -> outcome pm).
#[local] Set Default Proof Using "Type".

Definition pm_good (out : gset Z) (p : pm) : Prop := client_inv (out, p) /\ bmp_size p <= 2 ^ 40.
Definition pm_spare (p : pm) : Z := total p - used p - reserved p.

Lemma pm_promised_nonneg out p : pm_good out p -> 0 <= reserved p.
Proof. intros [Hc _]. apply (inv_reserved _ (cl_inv _ Hc)). Qed.

Lemma pm_available_ok out p : pm_good out p -> available p = Ok (pm_spare p).
Proof. intros [Hc _]. pose proof (cl_room _ Hc). cbn in *. unfold available. by rewrite ensure_true by (apply Z.leb_le; lia). Qed.

Lemma pm_good_page out p x : pm_good out p -> x ∈ out -> 0 < x < 2 ^ 40.
Proof.
  intros [Hc Hb] Hx. pose proof (cl_range _ Hc x Hx) as Hr. pose proof (cl_zero _ Hc) as [_ Hz]. cbn in Hr, Hz. assert (x <> 0) by congruence. lia.
Qed.

Lemma allocate_is mode out p : pm_good out p -> allocate invoke mode p = allocate_locked mode p.
Proof. intros [Hc _]. unfold allocate. rewrite critical_check_none; [done|apply (cl_callback _ Hc)]. Qed.

(** One page is taken, by whatever mode. *)
Lemma take_one mode out p : pm_good out p -> (mode = NONE -> used p + reserved p + hard_critical_limit p < total p) ->
  (mode = MUST_SUCCEED -> 1 < pm_spare p) -> (mode = TAKE -> 0 < reserved p) ->
  exists pa p', allocate invoke mode p = Ok (pa, p') /\ reserved p' = reserved p - b2z (bool_decide (mode = TAKE)) /\
    (mode <> TAKE -> pm_spare p' = pm_spare p - 1) /\ handed_out pm_good out pa p'.
Proof.
  intros Hg Hn Hm Ht. pose proof (allocate_is mode out p Hg) as Ea. destruct Hg as [Hc Hb]. pose proof Hc as [Hi Hcb _ _ Hroom _ _ _]. cbn [fst snd] in *.
  pose proof (allocate_locked_spec mode p Hi) as Hs. destruct (allocate_locked mode p) as [[pa p']| |] eqn:E; [| |done].
  2:{ destruct Hs as [_ [?|[-> ?]]]; [lia|]. specialize (Ht eq_refl). lia. }
  destruct (bool_decide (mode = NONE) && _) eqn:Et; [bool_norm; specialize (Hn ltac:(done)); lia|]. destruct Hs as (page & -> & Htk & _).
  destruct (client_take mode out p (page * PAGE_SIZE) p' invoke Hc Ea Hn) as (Hpa & Hout & Hcl); [intros Hmm; specialize (Hm Hmm); unfold pm_spare in Hm; lia|intros [Htt ?]; specialize (Ht Htt); lia|].
  rewrite Z.div_mul in * by done. pose proof (taken_bmp_size mode p _ p' invoke Hcb Ea) as Hbs.
  pose proof (cl_range _ Hcl page ltac:(cbn; set_solver)) as Hr. cbn in Hr.
  eexists _, p'. split; [exact Ea|]. destruct Htk. split; [done|]. split.
  { intros Hne. unfold pm_spare. rewrite taken_total0, taken_used0, taken_reserved0, bool_decide_eq_false_2 by done. cbn. lia. }
  exists page. split; [done|]. split; [unfold PAGE_SIZE in *; lia|]. split; [done|]. split; [done|lia].
Qed.

Lemma pm_none out p : pm_good out p -> exists pa p', allocate invoke NONE p = Ok (pa, p') /\ reserved p' = reserved p /\
  (pa = 0 /\ pm_good out p' \/ handed_out pm_good out pa p').
Proof.
  intros Hg. destruct (Z.ltb_spec (used p + reserved p + hard_critical_limit p) (total p)) as [Hlt|Hge].
  - destruct (take_one NONE out p Hg) as (pa & p' & E & Hr & _ & Hh); [done..|]. exists pa, p'. split; [done|]. split; [rewrite Hr, bool_decide_eq_false_2 by done; cbn; lia|by right].
  - pose proof (allocate_is NONE out p Hg) as Ea. unfold allocate_locked in Ea. rewrite bool_decide_eq_true_2, (proj2 (Z.leb_le _ _)) in Ea by done. cbn in Ea.
    exists 0, p. split; [done|]. split; [done|by left].
Qed.

Lemma pm_must out p : pm_good out p -> 1 < pm_spare p -> exists pa p', allocate invoke MUST_SUCCEED p = Ok (pa, p') /\ reserved p' = reserved p /\
  pm_spare p' = pm_spare p - 1 /\ handed_out pm_good out pa p'.
Proof.
  intros Hg Hs. destruct (take_one MUST_SUCCEED out p Hg) as (pa & p' & E & Hr & Hsp & Hh); [done..|]. exists pa, p'. split; [done|].
  split; [rewrite Hr, bool_decide_eq_false_2 by done; cbn; lia|]. split; [by apply Hsp|done].
Qed.

Lemma pm_take out p : pm_good out p -> 0 < reserved p -> exists pa p', allocate invoke TAKE p = Ok (pa, p') /\ reserved p' = reserved p - 1 /\
  handed_out pm_good out pa p'.
Proof. intros Hg Hr. destruct (take_one TAKE out p Hg) as (pa & p' & E & Hr' & _ & Hh); [done..|]. by exists pa, p'. Qed.

Lemma pm_reserve_ok out s n : pm_good out s -> 0 <= n -> exists b s', reserve invoke n s = Ok (b, s') /\ pm_good out s' /\ reserved s' = reserved s + (if b then n else 0).
Proof.
  intros [Hc Hb] Hn. destruct (client_step_ok invoke (op_reserve n) (out, s) Hc) as (st & E & Hcl). cbn [client_step] in E. rewrite Z.max_r in E by lia. unfold reserve in *.
  rewrite critical_check_none in * by apply Hc. cbn [obind] in *. destruct (reserve_locked n s) as [b p'] eqn:Er. cbn in E. injection E as <-. exists b, p'. split; [done|].
  unfold reserve_locked in Er. destruct (_ <? _); injection Er as <- <-; (split; [by split|cbn; lia]).
Qed.

Lemma pm_release_ok out s page : pm_good out s -> page ∈ out -> exists s', release (page * PAGE_SIZE) s = Ok s' /\ pm_good (out ∖ {[page]}) s' /\ reserved s' = reserved s.
Proof using invoke.
  intros [Hc Hb] Hin. destruct (client_step_ok invoke (op_release page) (out, s) Hc) as (st & E & Hcl). cbn [client_step] in E. rewrite bool_decide_eq_true_2 in E by done.
  pose proof (cl_range _ Hc page Hin) as Hr. cbn [snd] in Hr. pose proof (release_spec (page * PAGE_SIZE) s (cl_inv _ Hc) ltac:(unfold PAGE_SIZE; lia)) as Hs.
  destruct (release (page * PAGE_SIZE) s) as [p'| |]; [|done..]. cbn in E. injection E as <-. exists p'. split; [done|]. destruct Hs as (pg & _ & _ & _ & _ & Hp' & _).
  rewrite Hp' in *. split; [by split|done].
Qed.

#[export] Instance phys_pm : Phys := {|
  phys_state := pm; pm_allocate := allocate invoke; pm_reserve := reserve invoke; pm_release := release;
  pm_available := available; good := pm_good; promised := reserved; spare := pm_spare;
  promised_nonneg := pm_promised_nonneg; good_page := pm_good_page; available_spare := pm_available_ok; allocate_none := pm_none; allocate_must := pm_must;
  allocate_take := pm_take; reserve_pages := pm_reserve_ok; release_page := pm_release_ok
|}.
End Instance_of_PM.

(** The allocator of the example of [PM], before anyone has taken a page. *)
Lemma demo_good (check : PM.PM.pm -> bool) : check PM.PM.demo = true -> exists p, pm_good ∅ p /\ check p = true.
Proof.
  intros Hk.
  assert (Hd : PM.PM.demo_facts PM.PM.demo = true) by (vm_compute; reflexivity). assert (Hi : PM.PM.check_integrity PM.PM.demo = Ok tt) by (vm_compute; reflexivity).
  assert (Hb : PM.PM.bmp_size PM.PM.demo <= 2 ^ 40) by (vm_compute; discriminate).
  exists PM.PM.demo. split; [|exact Hk]. split; [|exact Hb]. generalize PM.PM.demo Hd Hi. clear. intros p Hd Hi.
  pose proof (PM.PM.demo_inv p Hd Hi) as Hinv. unfold PM.PM.demo_facts in Hd. bool_norm. constructor; cbn [fst snd]; try assumption.
  - intros i Hin. exfalso. revert Hin. apply not_elem_of_empty.
  - split; [|apply not_elem_of_empty]. rewrite PM.PM.elem_free_pages. congruence.
  - intros i Hin. exfalso. revert Hin. apply not_elem_of_empty.
Qed.
