(* ===== verification/VSpace.v ===== *)
(** * The address spaces (src/kernel/memory/vm.cpp, user_vspace.cpp, kernel_vspace.cpp)

    The directories and tables of an address space lie in pages, found by their page numbers; the entries of the topmost
    level lie in the space itself.  The operations walk over three levels, make directories and tables as they go, and work
    on one table at a time with the methods of [PageTable].  Pages come from and go to the allocator of [Phys]. *)

From S2P Require Import Prelude Const Phys.
From S2P Require Import PageTable.

Module VSpace.
Import PageTable.

Definition size_512G : Z := 0x008000000000.

(** [struct PDPTE]. *)
Record PDPTE := Pdpte {
  p_present : bool; p_write : bool; p_user : bool; p_wt : bool; p_cd : bool; p_accessed : bool;
  pdt_addr : Z;
  p_xd : bool
}.
Definition zero_pdpte : PDPTE := Pdpte false false false false false false 0 false.

(** What a page of the space holds: a directory, or a table of entries. *)
Inductive page := Directory (d : gmap Z PDTE) | Entries (t : table).
Definition zero_directory : gmap Z PDTE := gset_to_gmap zero_pdte (list_to_set (seqZ 0 512)).

Section Space.
Context `{Phys}.

(** [virtual_space] with what its constants lead to; [pm] is the page allocator all spaces share. *)
Record vspace := Vspace { pdpt : gmap Z PDPTE; pages : gmap Z page; used_pages : Z; pm : phys_state }.
Definition set_pdpt (x : gmap Z PDPTE) (s : vspace) : vspace := Vspace x (pages s) (used_pages s) (pm s).
Definition set_pages (x : gmap Z page) (s : vspace) : vspace := Vspace (pdpt s) x (used_pages s) (pm s).
Definition set_used (x : Z) (s : vspace) : vspace := Vspace (pdpt s) (pages s) x (pm s).
Definition set_pm (x : phys_state) (s : vspace) : vspace := Vspace (pdpt s) (pages s) (used_pages s) x.

(** Looking through a view that is mapped to a page, and storing through it. *)
Definition read_pdt (dp : Z) (s : vspace) : outcome (gmap Z PDTE) := match pages s !! dp with Some (Directory d) => Ok d | _ => Bug end.
Definition read_pt (tp : Z) (s : vspace) : outcome table := match pages s !! tp with Some (Entries t) => Ok t | _ => Bug end.
Definition write_pdte (dp i : Z) (e : PDTE) (s : vspace) : outcome vspace := let! d := read_pdt dp s; Ok (set_pages (<[dp := Directory (<[i := e]> d)]> (pages s)) s).
Definition write_pt (tp : Z) (t : table) (s : vspace) : vspace := set_pages (<[tp := Entries t]> (pages s)) s.
Definition read_pdte (dp i : Z) (s : vspace) : outcome PDTE := let! d := read_pdt dp s; deref (d !! i).
Definition read_pte (tp k : Z) (s : vspace) : outcome PTE := let! t := read_pt tp s; deref (t !! k).

(** ** New directories and tables; the answer is the page the view is mapped to *)

Definition new_pdt (i : Z) (s : vspace) : outcome (option Z * vspace) :=
  let! e := deref (pdpt s !! i);
  assert! negb (p_present e);
  let! (phy_addr, p) := pm_allocate NONE (pm s);
  let s := set_pm p s in
  if phy_addr =? 0 then Ok (None, s)
  else
    assert! Z.land phy_addr PAGE_MASK =? 0;
    let view := Z.shiftr phy_addr 12 in
    let s := set_pages (<[view := Directory zero_directory]> (pages s)) s in
    let s := set_pdpt (<[i := Pdpte true true true false false false (wrap 40 view) false]> (pdpt s)) s in
    Ok (Some view, set_used (w64 (used_pages s + 1)) s).

Definition new_pt (dp i : Z) (mode : MODE) (s : vspace) : outcome (option Z * vspace) :=
  let! e := read_pdte dp i s;
  assert! negb (d_present e) && negb (d_bypass e);
  let! (phy_addr, p) := pm_allocate mode (pm s);
  let s := set_pm p s in
  if phy_addr =? 0 then Ok (None, s)
  else
    assert! Z.land phy_addr PAGE_MASK =? 0;
    let view := Z.shiftr phy_addr 12 in
    let! (pdt, t) := init_pt phy_addr;
    let s := write_pt view t s in
    let! s := write_pdte dp i pdt s;
    Ok (Some view, set_used (w64 (used_pages s + 1)) s).

(** [if (!present) { if (!new_pdt(..)) .. } else view.map(..)]. *)
Definition open_pdt (i : Z) (s : vspace) : outcome (option Z * vspace) :=
  let! e := deref (pdpt s !! i);
  if p_present e then Ok (Some (pdt_addr e), s) else new_pdt i s.
Definition open_pt (dp i : Z) (mode : MODE) (s : vspace) : outcome (option Z * vspace) :=
  let! e := read_pdte dp i s;
  if d_present e then Ok (Some (pt_addr e), s) else new_pt dp i mode s.

(** ** Visiting the entries of a range *)
Section Iterate.
Context (callback : PTE -> Z -> phys_state -> outcome (bool * PTE * phys_state)).

(** The callback changes the entry it is given, and may use the allocator. *)
Definition call_entry (tp k addr : Z) (s : vspace) : outcome (bool * vspace) :=
  let! t := read_pt tp s;
  let! e := deref (t !! k);
  let! (b, e, p) := callback e addr (pm s);
  Ok (b, set_pm p (write_pt tp (<[k := e]> t) s)).

(** [while(off < 0x200)]; [inl]: the function returns. *)
Fixpoint iterate_pt (n : nat) (tp off addr count page_count : Z) (s : vspace) : outcome ((Z + Z * Z) * vspace) :=
  match n with
  | O => NoFuel
  | S n =>
      if off <? 0x200 then
        let! (b, s) := call_entry tp off addr s;
        if negb b then Ok (inl count, s)
        else
          let addr := w64 (addr + PAGE_SIZE) in
          if count + 1 =? page_count then Ok (inl (count + 1), s) else iterate_pt n tp (off + 1) addr (count + 1) page_count s
      else Ok (inr (addr, count), s)
  end.

Fixpoint iterate_pdt (n : nat) (dp pdt_index off addr count page_count : Z) (s : vspace) : outcome ((Z + Z * Z * Z * Z) * vspace) :=
  match n with
  | O => NoFuel
  | S n =>
      if count <? page_count then
        let! cur := read_pdte dp pdt_index s;
        if d_bypass cur || negb (d_present cur) then Ok (inl count, s)
        else
          let! (r, s) := iterate_pt 513 (pt_addr cur) off addr count page_count s;
          match r with
          | inl count => Ok (inl count, s)
          | inr (addr, count) =>
              if pdt_index + 1 =? 0x200 then Ok (inr (0, 0, addr, count), s) else iterate_pdt n dp (pdt_index + 1) 0 addr count page_count s
          end
      else Ok (inr (pdt_index, off, addr, count), s)
  end.

Fixpoint iterate_pdpt (n : nat) (pdpt_index pdt_index off addr count page_count : Z) (s : vspace) : outcome (Z * vspace) :=
  match n with
  | O => NoFuel
  | S n =>
      if count <? page_count then
        let! e := deref (pdpt s !! pdpt_index);
        if negb (p_present e) then Ok (count, s)
        else
          let! (r, s) := iterate_pdt 513 (pdt_addr e) pdt_index off addr count page_count s;
          match r with
          | inl count => Ok (count, s)
          | inr (pdt_index, off, addr, count) =>
              if 0x200 <=? pdpt_index + 1 then Ok (count, s) else iterate_pdpt n (pdpt_index + 1) pdt_index off addr count page_count s
          end
      else Ok (count, s)
  end.

Definition imp_iterate (base_addr page_count : Z) (s : vspace) : outcome (Z * vspace) :=
  assert! truth page_count;
  assert! truth base_addr && (Z.land base_addr PAGE_MASK =? 0);
  if truth (Z.shiftr (LOWADDR base_addr) 39) then Ok (0, s)
  else
    iterate_pdpt 513 (Z.land (Z.shiftr base_addr 30) 0x1FF) (Z.land (Z.shiftr base_addr 21) 0x1FF) (Z.land (Z.shiftr base_addr 12) 0x1FF)
      base_addr 0 page_count s.
End Iterate.

Definition imp_peek (va : Z) (s : vspace) : outcome PTE :=
  if truth (Z.shiftr (LOWADDR va) 39) then Ok zero_pte
  else
    let! e := deref (pdpt s !! Z.land (Z.shiftr va 30) 0x1FF);
    if negb (p_present e) then Ok zero_pte
    else
      let! c := read_pdte (pdt_addr e) (Z.land (Z.shiftr va 21) 0x1FF) s;
      if negb (d_present c) then Ok zero_pte
      else read_pte (pt_addr c) (Z.land (Z.shiftr va 12) 0x1FF) s.

(** A method of [PageTable] on entry [i] of a directory and its table; both are written back. *)
Definition on_table {A} (f : PDTE -> table -> outcome (A * PDTE * table)) (dp i tp : Z) (s : vspace) : outcome (A * vspace) :=
  let! cur := read_pdte dp i s;
  let! t := read_pt tp s;
  let! (a, cur, t) := f cur t;
  let! s := write_pdte dp i cur (write_pt tp t s);
  Ok (a, s).

(** ** Giving back *)

Definition release_table (dp i tp addr size : Z) (s : vspace) : outcome vspace :=
  let! cur := read_pdte dp i s;
  let! t := read_pt tp s;
  let! (cur, t, used, p) := imp_release pm_release cur t addr size (used_pages s) (pm s);
  write_pdte dp i cur (set_used used (set_pm p (write_pt tp t s))).

Fixpoint release_pdt (n : nat) (dp pdt_index addr count page_count : Z) (s : vspace) : outcome (Z * Z * Z * vspace) :=
  match n with
  | O => NoFuel
  | S n =>
      if count <? page_count then
        let! cur := read_pdte dp pdt_index s;
        if d_bypass cur || negb (d_present cur) then Bug
        else
          let off := Z.land (Z.shiftr addr 12) 0x1FF in
          let size := Z.min (page_count - count) (0x200 - off) in
          let! s := release_table dp pdt_index (pt_addr cur) addr size s;
          let addr := w64 (addr + PAGE_SIZE * size) in
          let count := count + size in
          if pdt_index + 1 =? 0x200 then Ok (0, addr, count, s) else release_pdt n dp (pdt_index + 1) addr count page_count s
      else Ok (pdt_index, addr, count, s)
  end.

Fixpoint release_pdpt (n : nat) (pdpt_index pdt_index addr count page_count : Z) (s : vspace) : outcome (bool * vspace) :=
  match n with
  | O => NoFuel
  | S n =>
      if count <? page_count then
        let! e := deref (pdpt s !! pdpt_index);
        if negb (p_present e) then Bug
        else
          let! (pdt_index, addr, count, s) := release_pdt 513 (pdt_addr e) pdt_index addr count page_count s;
          if 0x200 <=? pdpt_index + 1 then Ok (count =? page_count, s) else release_pdpt n (pdpt_index + 1) pdt_index addr count page_count s
      else Ok (count =? page_count, s)
  end.

Definition safe_release (base_addr page_count : Z) (s : vspace) : outcome (bool * vspace) :=
  assert! truth base_addr && truth page_count;
  assert! Z.land base_addr PAGE_MASK =? 0;
  if truth (Z.shiftr (LOWADDR base_addr) 39) then Ok (false, s)
  else release_pdpt 513 (Z.land (Z.shiftr base_addr 30) 0x1FF) (Z.land (Z.shiftr base_addr 21) 0x1FF) base_addr 0 page_count s.

(** ** Reserving wherever there is room *)

(** [pdpt_index] and [i] are [unsigned], so the product is made in 32 bits. *)
Definition table_base (pdpt_index i : Z) : Z := w32 (pdpt_index * 0x40000000 + i * 0x200000).

(** The loop over a directory from entry [i] on; an answer of 0 goes on with the next entry. *)
Fixpoint any_pdt (n : nat) (pdpt_index dp i page_count : Z) (s : vspace) : outcome (Z * vspace) :=
  match n with
  | O => Ok (0, s)
  | S n =>
      let! cur := read_pdte dp i s;
      if d_bypass cur then any_pdt n pdpt_index dp (i + 1) page_count s
      else
        let! (view, s) := open_pt dp i NONE s;
        match view with
        | None => any_pdt n pdpt_index dp (i + 1) page_count s
        | Some tp =>
            let! (res, s) := on_table (fun cur t => imp_reserve_any cur t (table_base pdpt_index i) page_count) dp i tp s;
            if truth res then Ok (res, s) else any_pdt n pdpt_index dp (i + 1) page_count s
        end
  end.

Fixpoint any_pdpt (n : nat) (pdpt_index page_count : Z) (s : vspace) : outcome (Z * vspace) :=
  match n with
  | O => Ok (0, s)
  | S n =>
      let! (view, s) := open_pdt pdpt_index s;
      match view with
      | None => Ok (0, s)
      | Some dp =>
          let! (res, s) := any_pdt 512 pdpt_index dp 0 page_count s;
          if truth res then Ok (res, s) else any_pdpt n (pdpt_index + 1) page_count s
      end
  end.

Definition reserve_any (page_count : Z) (s : vspace) : outcome (Z * vspace) :=
  assert! page_count <=? 0x200;
  any_pdpt 512 0 page_count s.

(** ** Reserving where the caller says *)

(** [inl count]: [goto rollback]. *)
Fixpoint fixed_pdt (n : nat) (dp pdt_index addr count page_count : Z) (s : vspace) : outcome ((Z + Z * Z * Z) * vspace) :=
  match n with
  | O => NoFuel
  | S n =>
      if count <? page_count then
        let! cur := read_pdte dp pdt_index s;
        if d_bypass cur then Ok (inl count, s)
        else
          let! (view, s) := open_pt dp pdt_index NONE s;
          match view with
          | None => Ok (inl count, s)
          | Some tp =>
              let off := Z.land (Z.shiftr addr 12) 0x1FF in
              let size := Z.min (page_count - count) (0x200 - off) in
              let! (res, s) := on_table (fun cur t => imp_reserve_fixed cur t off size) dp pdt_index tp s;
              if negb res then Ok (inl count, s)
              else
                let addr := w64 (addr + PAGE_SIZE * size) in
                let count := count + size in
                if pdt_index + 1 =? 0x200 then Ok (inr (0, addr, count), s) else fixed_pdt n dp (pdt_index + 1) addr count page_count s
          end
      else Ok (inr (pdt_index, addr, count), s)
  end.

(** The count that the loops have reached. *)
Fixpoint fixed_pdpt (n : nat) (pdpt_index pdt_index addr count page_count : Z) (s : vspace) : outcome (Z * vspace) :=
  match n with
  | O => NoFuel
  | S n =>
      if count <? page_count then
        let! (view, s) := open_pdt pdpt_index s;
        match view with
        | None => Ok (count, s)
        | Some dp =>
            let! (r, s) := fixed_pdt 513 dp pdt_index addr count page_count s;
            match r with
            | inl count => Ok (count, s)
            | inr (pdt_index, addr, count) =>
                if 0x200 <=? pdpt_index + 1 then Ok (count, s) else fixed_pdpt n (pdpt_index + 1) pdt_index addr count page_count s
            end
        end
      else Ok (count, s)
  end.

(** A jump to [rollback] leaves a count below [page_count]: both ways out are told apart by it. *)
Definition reserve_fixed (base_addr page_count : Z) (s : vspace) : outcome (bool * vspace) :=
  assert! truth base_addr && truth page_count;
  assert! Z.land base_addr PAGE_MASK =? 0;
  if truth (Z.shiftr (LOWADDR base_addr) 39) then Ok (false, s)
  else
    let! (count, s) := fixed_pdpt 513 (Z.land (Z.shiftr base_addr 30) 0x1FF) (Z.land (Z.shiftr base_addr 21) 0x1FF) base_addr 0 page_count s;
    if count =? page_count then Ok (true, s)
    else
      let! s := (if truth count then let! (_, s) := safe_release base_addr count s; Ok s else Ok s);
      Ok (false, s).

(** ** Reserving whole tables *)

(** The search for [aligned_count] unused tables in a row. *)
Fixpoint big_search (n : nat) (i avl_base avl_pages reserve_count aligned_count dp : Z) (s : vspace) : outcome (Z * Z * Z) :=
  match n with
  | O => Ok (avl_base, avl_pages, reserve_count)
  | S n =>
      let! cur := read_pdte dp i s;
      if d_bypass cur || d_present cur && negb (get_max_size cur =? 0x200) then big_search n (i + 1) (i + 1) 0 0 aligned_count dp s
      else
        let reserve_count := if d_present cur then reserve_count else reserve_count + 1 in
        if avl_pages + 1 =? aligned_count then Ok (avl_base, avl_pages + 1, reserve_count)
        else big_search n (i + 1) avl_base (avl_pages + 1) reserve_count aligned_count dp s
  end.

Fixpoint big_take (n : nat) (dp i pagecount reserve_count : Z) (s : vspace) : outcome (Z * vspace) :=
  match n with
  | O => Ok (reserve_count, s)
  | S n =>
      assert! truth pagecount;
      let! cur := read_pdte dp i s;
      assert! negb (d_bypass cur);
      assert! (if d_present cur then get_max_size cur =? 0x200 else truth reserve_count);
      let reserve_count := if d_present cur then reserve_count else reserve_count - 1 in
      let! (view, s) := open_pt dp i TAKE s;
      let! tp := deref view;
      let! (res, s) := on_table (fun cur t => imp_reserve_fixed cur t 0 (Z.min 0x200 pagecount)) dp i tp s;
      assert! res;
      big_take n dp (i + 1) (pagecount - Z.min 0x200 pagecount) reserve_count s
  end.

Fixpoint big_pdpt (n : nat) (pdpt_index pagecount aligned_count : Z) (s : vspace) : outcome (Z * vspace) :=
  match n with
  | O => Ok (0, s)
  | S n =>
      let! (view, s) := open_pdt pdpt_index s;
      match view with
      | None => Ok (0, s)
      | Some dp =>
          let! (avl_base, avl_pages, reserve_count) := big_search 512 0 0 0 0 aligned_count dp s;
          if avl_pages =? aligned_count then
            assert! avl_base + avl_pages <=? 0x200;
            let! (res, p) := pm_reserve reserve_count (pm s);
            let s := set_pm p s in
            if negb res then big_pdpt n (pdpt_index + 1) pagecount aligned_count s
            else
              let! (reserve_count, s) := big_take (Z.to_nat avl_pages) dp avl_base pagecount reserve_count s;
              assert! reserve_count =? 0;
              Ok (table_base pdpt_index avl_base, s)
          else big_pdpt n (pdpt_index + 1) pagecount aligned_count s
      end
  end.

Definition reserve_big (pagecount : Z) (s : vspace) : outcome (Z * vspace) := big_pdpt 512 0 pagecount (align_up 32 pagecount 0x200 / 0x200) s.

(** ** What the kinds of spaces share *)

(** Tests of a callback that only looks. *)
Definition looks (f : PTE -> bool) (pt : PTE) (addr : Z) (p : phys_state) : outcome (bool * PTE * phys_state) := Ok (f pt, pt, p).

(** A page that may be given back: [is_user] is what [user] must be on a mapped page. *)
Definition can_release (is_user : bool) (pt : PTE) : bool :=
  if bypass pt then false else if present pt then truth (page_addr pt) && Bool.eqb (user pt) is_user else preserve pt.
Definition can_commit (pt : PTE) : bool := preserve pt && negb (bypass pt) && negb (present pt).
Definition can_protect (is_user : bool) (pt : PTE) : bool := present pt && negb (bypass pt) && Bool.eqb (user pt) is_user && truth (page_addr pt).

(** [page_addr] has 40 bits. *)
Definition commit_page (is_user : bool) (pt : PTE) (addr : Z) (p : phys_state) : outcome (bool * PTE * phys_state) :=
  assert! can_commit pt;
  let! (pa, p) := pm_allocate TAKE p;
  Ok (true, commit_pte is_user (wrap 40 (Z.shiftr pa 12)) pt, p).

Definition set_attrib (attrib : Z) (e : PTE) : PTE :=
  Pte (present e) (truth (Z.land attrib PAGE_WRITE)) (user e) (truth (Z.land attrib PAGE_WT)) (truth (Z.land attrib PAGE_CD)) (accessed e) (dirty e) (pat e)
      (truth (Z.land attrib PAGE_GLOBAL)) (type e) (valid e) (page_addr e) (data e) (preserve e) (bypass e) (truth (Z.land attrib PAGE_XD)).
Definition protect_page (is_user : bool) (attrib : Z) (pt : PTE) (addr : Z) (p : phys_state) : outcome (bool * PTE * phys_state) :=
  assert! can_protect is_user pt; Ok (true, set_attrib attrib pt, p).

(** The two passes of [commit] and the two passes of [protect], after the checks of the arguments. *)
Definition commit_range (is_user : bool) (base_addr page_count : Z) (s : vspace) : outcome (bool * vspace) :=
  let! (res, s) := imp_iterate (looks can_commit) base_addr page_count s;
  if negb (res =? page_count) then Ok (false, s)
  else
    let! (res, p) := pm_reserve page_count (pm s);
    let s := set_pm p s in
    if negb res then Ok (false, s)
    else
      let! (res, s) := imp_iterate (commit_page is_user) base_addr page_count s;
      if negb (res =? page_count) then Bug else Ok (true, set_used (w64 (used_pages s + page_count)) s).

Definition protect_range (is_user : bool) (base_addr page_count attrib : Z) (s : vspace) : outcome (bool * vspace) :=
  let! (res, s) := imp_iterate (looks (can_protect is_user)) base_addr page_count s;
  if negb (res =? page_count) then Ok (false, s)
  else
    let! (res, s) := imp_iterate (protect_page is_user attrib) base_addr page_count s;
    if negb (res =? page_count) then Bug else Ok (true, s).

Definition release_range (is_user : bool) (addr page_count : Z) (s : vspace) : outcome (bool * vspace) :=
  let! (res, s) := imp_iterate (looks (can_release is_user)) addr page_count s;
  if negb (res =? page_count) then Ok (false, s) else safe_release addr page_count s.

(** ** The space of a process *)
Definition user_check (addr page_count : Z) : bool :=
  truth addr && truth page_count && negb (truth (Z.land addr PAGE_MASK) || truth (Z.land addr (HIGHADDR 0))) &&
  negb (size_512G <? addr + page_count * PAGE_SIZE).

Definition user_reserve (addr page_count : Z) (s : vspace) : outcome (Z * vspace) :=
  if truth addr then
    if negb (user_check addr page_count) then Ok (0, s)
    else let! (b, s) := reserve_fixed addr page_count s; Ok (if b then addr else 0, s)
  else if negb (truth page_count) || (0x40000 <? page_count) then Ok (0, s)
  else if page_count <? 0x200 then reserve_any page_count s
  else reserve_big page_count s.

Definition user_release (addr page_count : Z) (s : vspace) : outcome (bool * vspace) :=
  if negb (user_check addr page_count) then Ok (false, s) else release_range true addr page_count s.

Definition user_commit (base_addr page_count : Z) (s : vspace) : outcome (bool * vspace) :=
  if negb (user_check base_addr page_count) then Ok (false, s) else commit_range true base_addr page_count s.

(** [attrib & ~mask]. *)
Definition attrib_ok (mask attrib : Z) : bool := Z.land attrib (w64 (Z.lnot mask)) =? 0.
Definition user_mask : Z := Z.lor PAGE_XD (Z.lor PAGE_GLOBAL (Z.lor PAGE_CD (Z.lor PAGE_WT (Z.lor PAGE_USER (Z.lor PAGE_WRITE PAGE_PRESENT))))).
Definition kernel_mask : Z := Z.lor PAGE_XD (Z.lor PAGE_GLOBAL (Z.lor PAGE_CD (Z.lor PAGE_WT (Z.lor PAGE_WRITE PAGE_PRESENT)))).

Definition user_protect (base_addr page_count attrib : Z) (s : vspace) : outcome (bool * vspace) :=
  if negb (user_check base_addr page_count) then Ok (false, s)
  else if negb (attrib_ok user_mask attrib) then Ok (false, s)
  else protect_range true base_addr page_count attrib s.

Definition user_peek (va : Z) (s : vspace) : outcome PTE := if size_512G <=? va then Ok zero_pte else imp_peek va s.

(** The constructor: pages for the two topmost levels, which hold what the processor needs, and a directory whose first entry
    keeps the lowest 2M away from everyone. *)
Definition set_bypass (e : PDTE) : PDTE :=
  Pdte (d_present e) (d_write e) (d_user e) (d_wt e) (d_cd e) (d_accessed e) (d_ps e) (remain e) (pt_addr e) (head e) true (d_xd e).
Definition zero_pdpts : gmap Z PDPTE := gset_to_gmap zero_pdpte (list_to_set (seqZ 0 512)).
Record user_vspace := User { cr3 : Z; pl4te : Z; low : vspace }.

Definition user_new (p : phys_state) : outcome user_vspace :=
  let! (cr3, p) := pm_allocate MUST_SUCCEED p;
  let! (pl4te, p) := pm_allocate MUST_SUCCEED p;
  assert! (Z.land cr3 PAGE_MASK =? 0) && (Z.land pl4te PAGE_MASK =? 0);
  let! (pa_pdt, p) := pm_allocate MUST_SUCCEED p;
  assert! Z.land pa_pdt PAGE_MASK =? 0;
  let view := Z.shiftr pa_pdt 12 in
  let d := <[0 := set_bypass zero_pdte]> zero_directory in
  Ok (User cr3 pl4te (Vspace (<[0 := Pdpte true true true false false false (wrap 40 view) false]> zero_pdpts) {[view := Directory d]} 3 p)).

(** The destructor: everything goes back, table by table. *)
Fixpoint delete_pt (n : nat) (tp k : Z) (s : vspace) : outcome vspace :=
  match n with
  | O => Ok s
  | S n =>
      let! t := read_pt tp s;
      let! cur := deref (t !! k);
      if present cur then
        assert! user cur;
        let s := write_pt tp (<[k := set_page false (page_addr cur) cur]> t) s in
        let! p := pm_release (Z.shiftl (page_addr cur) 12) (pm s);
        delete_pt n tp (k + 1) (set_pm p s)
      else delete_pt n tp (k + 1) s
  end.

Fixpoint delete_pdt (n : nat) (dp i : Z) (s : vspace) : outcome vspace :=
  match n with
  | O => Ok s
  | S n =>
      let! cur := read_pdte dp i s;
      if d_present cur then
        let! s := delete_pt 512 (pt_addr cur) 0 s;
        let! p := pm_release (Z.shiftl (pt_addr cur) 12) (pm s);
        delete_pdt n dp (i + 1) (set_pm p s)
      else delete_pdt n dp (i + 1) s
  end.

Fixpoint delete_pdpt (n : nat) (i : Z) (s : vspace) : outcome vspace :=
  match n with
  | O => Ok s
  | S n =>
      let! e := deref (pdpt s !! i);
      if p_present e then
        let! s := delete_pdt 512 (pdt_addr e) 0 s;
        let! p := pm_release (Z.shiftl (pdt_addr e) 12) (pm s);
        delete_pdpt n (i + 1) (set_pm p s)
      else delete_pdpt n (i + 1) s
  end.

Definition user_delete (u : user_vspace) : outcome phys_state :=
  let! s := delete_pdpt 512 0 (low u);
  let! p := pm_release (pl4te u) (pm s);
  pm_release (cr3 u) p.

(** ** The space of the kernel *)
Definition kernel_check (addr page_count : Z) : bool :=
  truth addr && truth page_count && negb (truth (Z.land addr PAGE_MASK) || negb (IS_HIGHADDR addr)) &&
  negb (size_512G <? LOWADDR (w64 (addr + page_count * PAGE_SIZE))).

Definition kernel_reserve (addr page_count : Z) (s : vspace) : outcome (Z * vspace) :=
  if truth addr then
    if negb (kernel_check addr page_count) then Ok (0, s)
    else let! (b, s) := reserve_fixed addr page_count s; Ok (if b then addr else 0, s)
  else if negb (truth page_count) || (0x40000 <? page_count) then Ok (0, s)
  else
    let! (a, s) := (if page_count <? 0x200 then reserve_any page_count s else reserve_big page_count s);
    let addr := HIGHADDR a in
    assert! kernel_check addr page_count;
    Ok (addr, s).

Definition kernel_release (addr page_count : Z) (s : vspace) : outcome (bool * vspace) :=
  if negb (kernel_check addr page_count) then Ok (false, s) else release_range false addr page_count s.

Definition kernel_commit (base_addr page_count : Z) (s : vspace) : outcome (bool * vspace) :=
  if negb (kernel_check base_addr page_count) then Ok (false, s)
  else
    let! avl_count := pm_available (pm s);
    if avl_count <=? page_count then Ok (false, s) else commit_range false base_addr page_count s.

Definition kernel_protect (base_addr page_count attrib : Z) (s : vspace) : outcome (bool * vspace) :=
  if negb (kernel_check base_addr page_count) then Ok (false, s)
  else if negb (attrib_ok kernel_mask attrib) then Ok (false, s)
  else protect_range false base_addr page_count attrib s.

Definition can_assign (pt : PTE) : bool := preserve pt && negb (present pt).
Definition assign_page (delta : Z) (pt : PTE) (addr : Z) (p : phys_state) : outcome (bool * PTE * phys_state) :=
  assert! can_assign pt;
  assert! delta <=? addr;
  Ok (true, Pte true true false true true (accessed pt) (dirty pt) false true (type pt) (valid pt) (wrap 40 (Z.shiftr (addr - delta) 12))
              (data pt) (preserve pt) true true, p).

Definition kernel_assign (base_addr phy_addr page_count : Z) (s : vspace) : outcome (bool * vspace) :=
  if negb (kernel_check base_addr page_count) || negb (truth phy_addr) then Ok (false, s)
  else
    let! (res, s) := imp_iterate (looks can_assign) base_addr page_count s;
    if negb (res =? page_count) then Ok (false, s)
    else if base_addr <? phy_addr then Bug
    else
      let! (res, s) := imp_iterate (assign_page (base_addr - phy_addr)) base_addr page_count s;
      if negb (res =? page_count) then Bug else Ok (true, s).

Definition kernel_peek (va : Z) (s : vspace) : outcome PTE :=
  if negb (IS_HIGHADDR va) || (size_512G <=? LOWADDR va) then Ok zero_pte else imp_peek va s.

(** ** The reference of [imp_iterate]: page after page *)

(** Where the entry of a page lies: its table and its index, when there is a table. *)
Definition slot (s : vspace) (pg : Z) : outcome (option (Z * Z)) :=
  if 2 ^ 27 <=? pg then Ok None
  else
    let! e := deref (pdpt s !! (pg / 2 ^ 18));
    if negb (p_present e) then Ok None
    else
      let! c := read_pdte (pdt_addr e) (pg / 512 mod 512) s;
      if d_bypass c || negb (d_present c) then Ok None else Ok (Some (pt_addr c, pg mod 512)).

Fixpoint visit (callback : PTE -> Z -> phys_state -> outcome (bool * PTE * phys_state)) (n : nat) (pg addr count : Z) (s : vspace) : outcome (Z * vspace) :=
  match n with
  | O => Ok (count, s)
  | S n =>
      let! o := slot s pg;
      match o with
      | None => Ok (count, s)
      | Some (tp, k) =>
          let! (b, s) := call_entry callback tp k addr s;
          if negb b then Ok (count, s) else visit callback n (pg + 1) (w64 (addr + PAGE_SIZE)) (count + 1) s
      end
  end.
End Space.
End VSpace.

Module VSpaceThm.
Import PageTable VSpace.
#[local] Set Default Proof Using "Type".

(** The indices the code takes from an address. *)
Lemma index_bits a k : 0 <= k -> Z.land (Z.shiftr a k) 0x1FF = a / 2 ^ k mod 512.
Proof. intros. rewrite (land_low_mask _ 9) by lia. by rewrite Z.shiftr_div_pow2. Qed.

(** A page number by the indices of its levels. *)
Definition pg_of (i j k : Z) : Z := (i * 512 + j) * 512 + k.

Lemma pg_split i j k : 0 <= j < 512 -> 0 <= k < 512 -> pg_of i j k / 2 ^ 18 = i /\ pg_of i j k / 512 mod 512 = j /\ pg_of i j k mod 512 = k.
Proof. intros. unfold pg_of. change (2 ^ 18) with 262144. repeat split; dlia. Qed.

(** The page of an address below 512G, in either half of the address space. *)
Definition page_of (a : Z) : Z := LOWADDR a / PAGE_SIZE.

Lemma LOWADDR_mod a : LOWADDR a = a mod 2 ^ 47.
Proof.
  unfold LOWADDR, wrap. rewrite Z.land_comm, (land_low_mask _ 47) by lia. apply Z.mod_mod_divide. exists (2 ^ 17). done.
Qed.

Lemma page_indices a : truth (Z.shiftr (LOWADDR a) 39) = false -> 0 <= page_of a < 2 ^ 27 /\
  pg_of (Z.land (Z.shiftr a 30) 0x1FF) (Z.land (Z.shiftr a 21) 0x1FF) (Z.land (Z.shiftr a 12) 0x1FF) = page_of a.
Proof.
  rewrite !index_bits by lia. unfold page_of, PAGE_SIZE, pg_of, truth. rewrite LOWADDR_mod, Z.shiftr_div_pow2 by lia.
  intros Hh%negb_false_iff%Z.eqb_eq. change (2 ^ 27) with 134217728. change (2 ^ 30) with 1073741824. change (2 ^ 21) with 2097152. change (2 ^ 12) with 4096.
  change (2 ^ 39) with 549755813888 in *. change (2 ^ 47) with 140737488355328 in *. split; dlia.
Qed.

Section Iterate.
Context `{Phys}.
Context (callback : PTE -> Z -> phys_state -> outcome (bool * PTE * phys_state)).

(** The directories are the same. *)
Definition same_dirs (s s' : vspace) : Prop := pdpt s' = pdpt s /\ forall dp, read_pdt dp s' = read_pdt dp s.

#[global] Instance same_dirs_preorder : PreOrder same_dirs.
Proof. split; [by intros s|]. intros s1 s2 s3 [E1 H1] [E2 H2]. split; [by rewrite E2|]. intros dp. by rewrite H2. Qed.

Lemma same_dirs_slot s s' pg : same_dirs s s' -> slot s' pg = slot s pg.
Proof.
  intros [E Hd]. unfold slot, read_pdte. rewrite E. case_if; [done|]. destruct (pdpt s !! _) as [e|]; [|done]. cbn [deref obind]. by rewrite Hd.
Qed.

(** Storing a table where a table was. *)
Lemma write_pt_dirs tp t t' s : read_pt tp s = Ok t -> same_dirs s (write_pt tp t' s).
Proof.
  intros Ht. split; [done|]. intros dp. unfold read_pdt, read_pt, write_pt in *. cbn. rewrite lookup_insert. case_decide as Hd; [|done].
  subst tp. by destruct (pages s !! dp) as [[]|].
Qed.

Lemma call_entry_dirs tp k addr s b s' : call_entry callback tp k addr s = Ok (b, s') -> same_dirs s s'.
Proof.
  unfold call_entry. destruct (read_pt tp s) as [t| |] eqn:Et; cbn [obind]; [|done..]. destruct (t !! k) as [e|]; cbn [deref obind]; [|done].
  destruct (callback e addr (pm s)) as [[[b' e'] p]| |]; cbn [obind]; [|done..]. intros [= _ <-]. by destruct (write_pt_dirs tp t (<[k := e']> t) s Et).
Qed.

(** One table, one directory, and the whole walk: what they answer is what the reference answers. *)
Lemma iterate_pt_visit n tp off addr count pc s pg : 0 <= off <= 512 -> 512 - off < Z.of_nat n -> count < pc ->
  (forall k, off <= k < 512 -> slot s (pg + (k - off)) = Ok (Some (tp, k))) ->
  match iterate_pt callback n tp off addr count pc s with
  | Ok (inl c, s') => visit callback (Z.to_nat (pc - count)) pg addr count s = Ok (c, s')
  | Ok (inr (a, c), s') => same_dirs s s' /\ c < pc /\
      visit callback (Z.to_nat (pc - count)) pg addr count s = visit callback (Z.to_nat (pc - c)) (pg + (512 - off)) a c s'
  | Bug => visit callback (Z.to_nat (pc - count)) pg addr count s = Bug
  | NoFuel => visit callback (Z.to_nat (pc - count)) pg addr count s = NoFuel
  end.
Proof.
  revert off addr count s pg. induction n as [|n IH]; intros off addr count s pg Ho Hn Hc Hs; [lia|]. cbn [iterate_pt].
  destruct (Z.ltb_spec off 512) as [Hlt|Hge]; change 0x200 with 512; rewrite ?(proj2 (Z.ltb_lt off 512)), ?(proj2 (Z.ltb_ge off 512)) by lia.
  2:{ split; [done|]. split; [done|]. f_equal. lia. }
  replace (Z.to_nat (pc - count)) with (S (Z.to_nat (pc - (count + 1)))) by lia. cbn [visit].
  pose proof (Hs off ltac:(lia)) as Hs0. rewrite Z.sub_diag, Z.add_0_r in Hs0. rewrite Hs0. cbn [obind].
  destruct (call_entry callback tp off addr s) as [[b s1]| |] eqn:Ec; cbn [obind]; [|done..]. destruct b; cbn [negb]; [|done].
  pose proof (call_entry_dirs _ _ _ _ _ _ Ec) as Hd.
  destruct (Z.eqb_spec (count + 1) pc) as [<-|Hne]; [by replace (Z.to_nat (count + 1 - (count + 1))) with O by lia|].
  specialize (IH (off + 1) (w64 (addr + PAGE_SIZE)) (count + 1) s1 (pg + 1) ltac:(lia) ltac:(lia) ltac:(lia)).
  destruct (iterate_pt _ _ _ _ _ _ _ _) as [[[c|[a c]] s2]| |]; try (apply IH).
  1,3,4: intros k Hk; rewrite (same_dirs_slot s s1) by done; replace (pg + 1 + (k - (off + 1))) with (pg + (k - off)) by lia; apply Hs; lia.
  destruct IH as (H1 & H2 & H3).
  { intros k Hk. rewrite (same_dirs_slot s s1) by done. replace (pg + 1 + (k - (off + 1))) with (pg + (k - off)) by lia. apply Hs. lia. }
  split; [by transitivity s1|]. split; [done|]. rewrite H3. f_equal. lia.
Qed.

Lemma slot_at s i j k e c : 0 <= i < 512 -> 0 <= j < 512 -> 0 <= k < 512 -> pdpt s !! i = Some e -> p_present e = true ->
  read_pdte (pdt_addr e) j s = Ok c -> slot s (pg_of i j k) = Ok (if d_bypass c || negb (d_present c) then None else Some (pt_addr c, k)).
Proof.
  intros Hi Hj Hk He Hp Hc. unfold slot. destruct (pg_split i j k Hj Hk) as (-> & -> & ->). rewrite (proj2 (Z.leb_gt _ _)) by (unfold pg_of; lia).
  rewrite He. cbn [deref obind]. rewrite Hp, Hc. cbn. by case_if.
Qed.

Lemma iterate_pdt_visit n i j off addr count pc s e : 0 <= i < 512 -> 0 <= j < 512 -> 0 <= off < 512 -> 512 - j < Z.of_nat n -> count < pc ->
  pdpt s !! i = Some e -> p_present e = true ->
  match iterate_pdt callback n (pdt_addr e) j off addr count pc s with
  | Ok (inl c, s') => visit callback (Z.to_nat (pc - count)) (pg_of i j off) addr count s = Ok (c, s')
  | Ok (inr (j', off', a, c), s') => same_dirs s s' /\ c < pc /\ j' = 0 /\ off' = 0 /\
      visit callback (Z.to_nat (pc - count)) (pg_of i j off) addr count s = visit callback (Z.to_nat (pc - c)) (pg_of (i + 1) 0 0) a c s'
  | Bug => visit callback (Z.to_nat (pc - count)) (pg_of i j off) addr count s = Bug
  | NoFuel => visit callback (Z.to_nat (pc - count)) (pg_of i j off) addr count s = NoFuel
  end.
Proof.
  revert j off addr count s. induction n as [|n IH]; intros j off addr count s Hi Hj Ho Hn Hc He Hp; [lia|]. cbn [iterate_pdt].
  rewrite (proj2 (Z.ltb_lt count pc)) by done.
  destruct (read_pdte (pdt_addr e) j s) as [c| |] eqn:Ec; cbn [obind].
  2,3: replace (Z.to_nat (pc - count)) with (S (Z.to_nat (pc - (count + 1)))) by lia; cbn [visit]; unfold slot;
    destruct (pg_split i j off Hj Ho) as (-> & -> & ->); rewrite (proj2 (Z.leb_gt _ _)) by (unfold pg_of; lia); rewrite He; cbn [deref obind];
    by rewrite Hp, Ec.
  pose proof (fun k Hk => slot_at s i j k e c Hi Hj Hk He Hp Ec) as Hs.
  destruct (d_bypass c || negb (d_present c)).
  { replace (Z.to_nat (pc - count)) with (S (Z.to_nat (pc - (count + 1)))) by lia. cbn [visit]. by rewrite Hs. }
  pose proof (iterate_pt_visit 513 (pt_addr c) off addr count pc s (pg_of i j off) ltac:(lia) ltac:(lia) Hc) as Hpt.
  assert (Hpre : forall k, off <= k < 512 -> slot s (pg_of i j off + (k - off)) = Ok (Some (pt_addr c, k))).
  { intros k Hk. replace (pg_of i j off + (k - off)) with (pg_of i j k) by (unfold pg_of; lia). apply Hs. lia. }
  specialize (Hpt Hpre).
  destruct (iterate_pt callback 513 _ off addr count pc s) as [[[c1|[a c1]] s1]| |]; cbn [obind]; try done.
  destruct Hpt as (Hd & Hc1 & Hv). rewrite Hv. replace (pg_of i j off + (512 - off)) with (pg_of i (j + 1) 0) by (unfold pg_of; lia).
  change 0x200 with 512. destruct (Z.eqb_spec (j + 1) 512) as [Hj'|Hj'].
  - split; [done|]. do 3 (split; [done|]). f_equal. unfold pg_of. lia.
  - specialize (IH (j + 1) 0 a c1 s1 Hi ltac:(lia) ltac:(lia) ltac:(lia) Hc1). rewrite (proj1 Hd) in IH. specialize (IH He Hp).
    destruct (iterate_pdt callback n _ _ _ _ _ _ _) as [[[c2|[[[j' off'] a'] c2]] s2]| |]; try done.
    destruct IH as (H1 & H2). split; [by transitivity s1|done].
Qed.

Lemma iterate_pdpt_visit n i j off addr count pc s : 0 <= i < 512 -> 0 <= j < 512 -> 0 <= off < 512 -> 512 - i < Z.of_nat n -> count < pc ->
  iterate_pdpt callback n i j off addr count pc s = visit callback (Z.to_nat (pc - count)) (pg_of i j off) addr count s.
Proof.
  revert i j off addr count s. induction n as [|n IH]; intros i j off addr count s Hi Hj Ho Hn Hc; [lia|]. cbn [iterate_pdpt].
  rewrite (proj2 (Z.ltb_lt count pc)) by done.
  destruct (pdpt s !! i) as [e|] eqn:He; cbn [deref obind].
  2:{ replace (Z.to_nat (pc - count)) with (S (Z.to_nat (pc - (count + 1)))) by lia. cbn [visit]. unfold slot.
      destruct (pg_split i j off Hj Ho) as (-> & _ & _). rewrite (proj2 (Z.leb_gt _ _)) by (unfold pg_of; lia). by rewrite He. }
  destruct (p_present e) eqn:Hp; cbn [negb].
  2:{ replace (Z.to_nat (pc - count)) with (S (Z.to_nat (pc - (count + 1)))) by lia. cbn [visit]. unfold slot.
      destruct (pg_split i j off Hj Ho) as (-> & _ & _). rewrite (proj2 (Z.leb_gt _ _)) by (unfold pg_of; lia). rewrite He. cbn [deref obind]. by rewrite Hp. }
  pose proof (iterate_pdt_visit 513 i j off addr count pc s e Hi Hj Ho ltac:(lia) Hc He Hp) as Hv.
  destruct (iterate_pdt callback 513 _ j off addr count pc s) as [[[c1|[[[j' off'] a] c1]] s1]| |]; cbn [obind]; try done.
  destruct Hv as (Hd & Hc1 & -> & -> & ->). change 0x200 with 512. destruct (Z.leb_spec 512 (i + 1)) as [Hi'|Hi'].
  - replace (Z.to_nat (pc - c1)) with (S (Z.to_nat (pc - (c1 + 1)))) by lia. cbn [visit]. unfold slot.
    by rewrite (proj2 (Z.leb_le _ _)) by (unfold pg_of; lia).
  - rewrite IH by lia. done.
Qed.

Lemma iterate_pages_eq base_addr page_count s : 0 < base_addr -> base_addr mod PAGE_SIZE = 0 -> 0 < page_count ->
  imp_iterate callback base_addr page_count s =
    if truth (Z.shiftr (LOWADDR base_addr) 39) then Ok (0, s) else visit callback (Z.to_nat page_count) (page_of base_addr) base_addr 0 s.
Proof.
  intros Hb Ha Hc. unfold imp_iterate. rewrite (truth_pos page_count), (truth_pos base_addr), land_PAGE_MASK, Ha by done. cbn [ensure andb obind Z.eqb].
  destruct (truth (Z.shiftr (LOWADDR base_addr) 39)) eqn:Ht; [done|]. destruct (page_indices base_addr Ht) as [_ Hp].
  rewrite iterate_pdpt_visit; [by rewrite Hp, Z.sub_0_r|..|done]; try (rewrite index_bits by lia; apply Z.mod_pos_bound; lia).
  rewrite index_bits by lia. pose proof (Z.mod_pos_bound (base_addr / 2 ^ 30) 512 ltac:(lia)). lia.
Qed.

(** C10. The walk of [imp_iterate] over three levels visits exactly what the reference visits: page after page from the first
    one, each looked up by itself, up to the first page that has no table, that lies above 512G, or at which the callback says
    stop; with the count of the pages passed, the same changes, and never out of fuel. *)
Theorem iterate_pages base_addr page_count s : 0 < base_addr -> base_addr mod PAGE_SIZE = 0 -> 0 < page_count ->
  imp_iterate callback base_addr page_count s =
    if truth (Z.shiftr (LOWADDR base_addr) 39) then Ok (0, s) else visit callback (Z.to_nat page_count) (page_of base_addr) base_addr 0 s.
Proof. apply iterate_pages_eq. Qed.
End Iterate.
End VSpaceThm.
