(* ===== verification/VSpaceInv.v ===== *)
(** * What stays true of an address space

    The shape of the levels, and who holds which page: [shape] says that every directory and table that is present lies in a
    page of its own and is in order; [holds] that the pages of the space are exactly its directories, its tables and the pages
    that are mapped, each of them once, and that the allocator and everyone else agree.  The lemmas say how the small steps
    of [VSpace] keep them. *)

From S2P Require Import Prelude Const Phys.
From S2P Require Import PageTable VSpace.

Module VSpaceInv.
Import PageTable VSpace VSpaceThm.

Section Space.
Context `{Phys}.

(** ** Looking at a space by table numbers and page numbers *)

Definition dir_at (s : vspace) (i : Z) : option Z :=
  match pdpt s !! i with Some e => if p_present e then Some (pdt_addr e) else None | None => None end.
Definition pdte_at (s : vspace) (tb : Z) : option PDTE :=
  match dir_at s (tb / 512) with Some dp => match pages s !! dp with Some (Directory d) => d !! (tb mod 512) | _ => None end | None => None end.
Definition is_table (c : PDTE) : bool := d_present c && negb (d_bypass c).
Definition table_at (s : vspace) (tb : Z) : option PDTE :=
  match pdte_at s tb with Some c => if is_table c then Some c else None | None => None end.
Definition entries_at (s : vspace) (tb : Z) : option table :=
  match table_at s tb with Some c => match pages s !! pt_addr c with Some (Entries t) => Some t | _ => None end | None => None end.
Definition entry (s : vspace) (pg : Z) : option PTE := match entries_at s (pg / 512) with Some t => t !! (pg mod 512) | None => None end.

(** A page that no table describes is as free as one that a table describes as free; the links of free runs are forgotten. *)
Definition look (s : vspace) (pg : Z) : PTE := core (default zero_pte (entry s pg)).

(** The physical page that stands behind a page. *)
Definition own (e : PTE) : option Z := if mapped e && negb (bypass e) then Some (page_addr e) else None.
Definition frame_at (s : vspace) (pg : Z) : option Z := own (look s pg).

Definition is_dir (i : Z) : Prop := 0 <= i < 512.
Definition is_tb (tb : Z) : Prop := 0 <= tb < 2 ^ 18.
Definition is_pg (pg : Z) : Prop := 0 <= pg < 2 ^ 27.

(** ** The invariant *)

Record shape (s : vspace) : Prop := {
  sh_pdpt i : is_dir i -> is_Some (pdpt s !! i);
  sh_dir i dp : is_dir i -> dir_at s i = Some dp -> exists d, pages s !! dp = Some (Directory d) /\ forall j, 0 <= j < 512 -> is_Some (d !! j);
  sh_table tb c : is_tb tb -> table_at s tb = Some c -> exists t L, pages s !! pt_addr c = Some (Entries t) /\ pt_ok c t L;
  sh_dir_inj i i' dp : is_dir i -> is_dir i' -> dir_at s i = Some dp -> dir_at s i' = Some dp -> i = i';
  sh_table_inj tb tb' c c' : is_tb tb -> is_tb tb' -> table_at s tb = Some c -> table_at s tb' = Some c' -> pt_addr c = pt_addr c' -> tb = tb';
  sh_reach x : x ∈ dom (pages s) -> (exists i, is_dir i /\ dir_at s i = Some x) \/ (exists tb c, is_tb tb /\ table_at s tb = Some c /\ pt_addr c = x);
  sh_bypass tb c : is_tb tb -> pdte_at s tb = Some c -> d_bypass c = true -> d_present c = false
}.

(** [others]: the pages of everyone else; [F]: the pages that are mapped; [fixed]: what [used_pages] counts beside them. *)
Record holds (others : gset Z) (fixed : Z) (F : gset Z) (s : vspace) : Prop := {
  ho_frame x : x ∈ F <-> exists pg, is_pg pg /\ frame_at s pg = Some x;
  ho_inj pg pg' x : is_pg pg -> is_pg pg' -> frame_at s pg = Some x -> frame_at s pg' = Some x -> pg = pg';
  ho_disj : F ## dom (pages s) /\ others ## F /\ others ## dom (pages s);
  ho_good : good (others ∪ dom (pages s) ∪ F) (pm s);
  ho_used : used_pages s = w64 (fixed + Z.of_nat (base.size (dom (pages s))) + Z.of_nat (base.size F))
}.
End Space.

(** ** Lemmas *)

(** Bounds of page numbers and table numbers. *)
Ltac page_lia := unfold is_pg, is_tb, is_dir in *; change (2 ^ 27) with 134217728 in *; change (2 ^ 18) with 262144 in *; lia.

Section Lemmas.
Context `{Phys}.
#[local] Set Default Proof Using "Type".

Lemma tb_split tb : is_tb tb -> is_dir (tb / 512) /\ 0 <= tb mod 512 < 512 /\ tb = tb / 512 * 512 + tb mod 512.
Proof. unfold is_tb, is_dir. change (2 ^ 18) with 262144. intros; split_and!; dlia. Qed.

Lemma tb_join i j : is_dir i -> 0 <= j < 512 -> is_tb (i * 512 + j) /\ (i * 512 + j) / 512 = i /\ (i * 512 + j) mod 512 = j.
Proof. unfold is_tb, is_dir. change (2 ^ 18) with 262144. intros; split_and!; dlia. Qed.

Lemma page_split pg : is_pg pg -> is_tb (pg / 512) /\ 0 <= pg mod 512 < 512 /\ pg = pg / 512 * 512 + pg mod 512.
Proof. unfold is_pg, is_tb. change (2 ^ 27) with 134217728. change (2 ^ 18) with 262144. intros; split_and!; dlia. Qed.

Lemma page_join tb k : is_tb tb -> 0 <= k < 512 -> is_pg (tb * 512 + k) /\ (tb * 512 + k) / 512 = tb /\ (tb * 512 + k) mod 512 = k.
Proof. unfold is_pg, is_tb. change (2 ^ 27) with 134217728. change (2 ^ 18) with 262144. intros; split_and!; dlia. Qed.

Lemma table_at_is s tb c : table_at s tb = Some c -> pdte_at s tb = Some c /\ d_present c = true /\ d_bypass c = false.
Proof. unfold table_at, is_table. destruct (pdte_at s tb) as [c'|]; [|done]. case_if; [|done]. intros [= ->]. bool_norm. done. Qed.

(** Reading by directory and index is reading by table number. *)
Lemma read_pdte_at s tb dp : shape s -> is_tb tb -> dir_at s (tb / 512) = Some dp -> exists c, read_pdte dp (tb mod 512) s = Ok c /\ pdte_at s tb = Some c.
Proof.
  intros Hs Ht Hd. destruct (tb_split tb Ht) as (Hi & Hj & _). destruct (sh_dir s Hs _ _ Hi Hd) as (d & Ed & Hall). destruct (Hall _ Hj) as [c Ec].
  exists c. unfold read_pdte, read_pdt, pdte_at. rewrite Hd, Ed. cbn [obind]. by rewrite Ec.
Qed.

Lemma read_pt_at s tb c : shape s -> is_tb tb -> table_at s tb = Some c -> exists t L, read_pt (pt_addr c) s = Ok t /\ entries_at s tb = Some t /\ pt_ok c t L.
Proof.
  intros Hs Ht Hc. destruct (sh_table s Hs _ _ Ht Hc) as (t & L & Et & Hok). exists t, L. unfold read_pt, entries_at. by rewrite Hc, Et.
Qed.

(** The walk of the reference finds the entry. *)
Lemma slot_entry s pg : shape s -> is_pg pg ->
  match table_at s (pg / 512) with
  | Some c => slot s pg = Ok (Some (pt_addr c, pg mod 512)) /\ exists t e, read_pt (pt_addr c) s = Ok t /\ t !! (pg mod 512) = Some e /\ entry s pg = Some e
  | None => slot s pg = Ok None /\ entry s pg = None
  end.
Proof.
  intros Hs Hp. destruct (page_split pg Hp) as (Ht & Hk & _). destruct (tb_split _ Ht) as (Hi & Hj & _). unfold slot. unfold is_pg in Hp. rewrite (proj2 (Z.leb_gt _ _)) by lia.
  replace (pg / 2 ^ 18) with (pg / 512 / 512) by (by rewrite Z.div_div by lia). destruct (sh_pdpt s Hs _ Hi) as [e Ee]. rewrite Ee. cbn [deref obind].
  destruct (p_present e) eqn:Epr; cbn [negb].
  2:{ assert (En : table_at s (pg / 512) = None) by (unfold table_at, pdte_at, dir_at; by rewrite Ee, Epr). rewrite En. split; [done|]. unfold entry, entries_at. by rewrite En. }
  assert (Hd : dir_at s (pg / 512 / 512) = Some (pdt_addr e)) by (unfold dir_at; by rewrite Ee, Epr).
  destruct (read_pdte_at s _ _ Hs Ht Hd) as (c & Er & Ec). rewrite Er. cbn [obind]. destruct (table_at s (pg / 512)) as [c'|] eqn:Ea.
  - destruct (table_at_is _ _ _ Ea) as (Ec' & E1 & E2). assert (c' = c) as -> by congruence. rewrite E1, E2. cbn. split; [done|].
    destruct (read_pt_at s _ _ Hs Ht Ea) as (t & L & Et & Een & Hok). destruct (pi_entries _ _ _ (po_inv _ _ _ Hok) _ Hk) as [x Ex].
    exists t, x. split; [done|]. split; [done|]. unfold entry. by rewrite Een.
  - unfold table_at, is_table in Ea. rewrite Ec in Ea. replace (d_bypass c || negb (d_present c)) with true by (by destruct (d_bypass c), (d_present c)).
    split; [done|]. unfold entry, entries_at, table_at, is_table. rewrite Ec. by destruct (d_bypass c), (d_present c).
Qed.

(** ** Storing an entry of a directory and its table *)
Definition with_table (dp j : Z) (d : gmap Z PDTE) (c' : PDTE) (t' : table) (s : vspace) : vspace :=
  set_pages (<[dp := Directory (<[j := c']> d)]> (<[pt_addr c' := Entries t']> (pages s))) s.

Lemma with_table_write s dp j d c' t' : pages s !! dp = Some (Directory d) -> pt_addr c' <> dp -> write_pdte dp j c' (write_pt (pt_addr c') t' s) = Ok (with_table dp j d c' t' s).
Proof. intros Hd Hn. unfold write_pdte, read_pdt, write_pt. cbn. rewrite lookup_insert_ne by done. by rewrite Hd. Qed.

(** The table fits in: it is in order, and its page is that of table [tb] or of nobody. *)
Record fits (s : vspace) (tb dp : Z) (d : gmap Z PDTE) (c' : PDTE) (t' : table) : Prop := {
  fi_tb : is_tb tb;
  fi_dir : dir_at s (tb / 512) = Some dp;
  fi_page : pages s !! dp = Some (Directory d);
  fi_kind d' : pages s !! pt_addr c' <> Some (Directory d');
  fi_alone tb0 c0 : is_tb tb0 -> table_at s tb0 = Some c0 -> pt_addr c0 = pt_addr c' <-> tb0 = tb;
  fi_ok : exists L, pt_ok c' t' L
}.

Section With_table.
Context (s : vspace) (tb dp : Z) (d : gmap Z PDTE) (c' : PDTE) (t' : table).
Context (Hs : shape s) (Hf : fits s tb dp d c' t').
#[local] Abbreviation s' := (with_table dp (tb mod 512) d c' t' s).

Lemma with_table_dir i : dir_at s' i = dir_at s i.
Proof. done. Qed.

Lemma with_table_is : is_table c' = true.
Proof using Hf. destruct (fi_ok _ _ _ _ _ _ Hf) as [L [_ E1 E2 _]]. unfold is_table. by rewrite E1, E2. Qed.

Lemma with_table_ne : pt_addr c' <> dp.
Proof using Hf. intros E. apply (fi_kind _ _ _ _ _ _ Hf d). rewrite E. apply Hf. Qed.

Lemma with_table_pdte tb' : is_tb tb' -> pdte_at s' tb' = if decide (tb' = tb) then Some c' else pdte_at s tb'.
Proof using Hs Hf.
  intros Ht'. pose proof with_table_ne as Hne. destruct Hf as [Ht Hd Hp Hk _ _]. destruct (tb_split _ Ht) as (Hi & Hj & E), (tb_split _ Ht') as (Hi' & Hj' & E').
  unfold pdte_at. rewrite with_table_dir. destruct (dir_at s (tb' / 512)) as [dp'|] eqn:Ed.
  2:{ rewrite decide_False; [done|]. intros ->. congruence. }
  cbn. destruct (sh_dir s Hs _ _ Hi' Ed) as (d' & Ed' & _).
  destruct (decide (dp = dp')) as [<-|Hnd].
  - rewrite lookup_insert_eq. assert (Ei : tb' / 512 = tb / 512) by (by apply (sh_dir_inj s Hs _ _ dp)). rewrite lookup_insert. rewrite Hp.
    repeat case_decide; [done|lia|subst; lia|done].
  - rewrite lookup_insert_ne, (lookup_insert_ne _ (pt_addr c')) by (done || intros Ex; by apply (Hk d'); rewrite Ex). rewrite decide_False; [done|]. intros ->. congruence.
Qed.

Lemma with_table_table tb' : is_tb tb' -> table_at s' tb' = if decide (tb' = tb) then Some c' else table_at s tb'.
Proof using Hs Hf. intros Ht'. unfold table_at. rewrite with_table_pdte by done. case_decide; [|done]. by rewrite with_table_is. Qed.

Lemma with_table_page x : x <> dp -> pages s' !! x = if decide (x = pt_addr c') then Some (Entries t') else pages s !! x.
Proof. intros Hn. cbn. rewrite lookup_insert_ne by done. rewrite lookup_insert. repeat case_decide; by subst. Qed.

Lemma with_table_entries tb' : is_tb tb' -> entries_at s' tb' = if decide (tb' = tb) then Some t' else entries_at s tb'.
Proof using Hs Hf.
  intros Ht'. pose proof with_table_ne as Hne. unfold entries_at. rewrite with_table_table by done. case_decide as Hd.
  - rewrite with_table_page by done. by rewrite decide_True.
  - destruct (table_at s tb') as [c0|] eqn:E0; [|done]. destruct (sh_table s Hs _ _ Ht' E0) as (t0 & _ & Et0 & _).
    rewrite with_table_page; [|intros E1; rewrite E1, (fi_page _ _ _ _ _ _ Hf) in Et0; done]. rewrite decide_False; [done|].
    intros E. by apply (fi_alone _ _ _ _ _ _ Hf tb' c0) in E.
Qed.

Lemma with_table_dom : dom (pages s') = {[pt_addr c']} ∪ dom (pages s).
Proof using Hf. cbn. rewrite !dom_insert_L. assert (dp ∈ dom (pages s)) by (apply elem_of_dom; rewrite (fi_page _ _ _ _ _ _ Hf); by eexists). clear Hs. set_solver. Qed.

Lemma with_table_shape : shape s'.
Proof using Hs Hf.
  pose proof with_table_ne as Hne. pose proof Hf as [Ht Hd Hp Hk Ha (L & Hok)]. constructor.
  - apply Hs.
  - intros i dp' Hi Hdi. rewrite with_table_dir in Hdi. destruct (sh_dir s Hs _ _ Hi Hdi) as (d0 & E0 & Hall).
    destruct (decide (dp' = dp)) as [->|Hn].
    + cbn. rewrite lookup_insert_eq. eexists. split; [done|]. intros j Hj. rewrite Hp in E0. injection E0 as ->. rewrite lookup_insert. case_decide; [by eexists|by apply Hall].
    + rewrite with_table_page by done. rewrite decide_False by (intros E1; rewrite E1 in E0; by apply (Hk d0)). by exists d0.
  - intros tb' c Ht' Hc. rewrite with_table_table in Hc by done. case_decide as E; [injection Hc as <-|].
    + exists t', L. rewrite with_table_page by done. by rewrite decide_True.
    + destruct (sh_table s Hs _ _ Ht' Hc) as (t0 & L0 & E0 & Hok0). exists t0, L0. split; [|done].
      rewrite with_table_page by (intros E1; rewrite E1, Hp in E0; done). rewrite decide_False; [done|]. intros E1. by apply (Ha tb' c) in E1.
  - intros i i' x. rewrite !with_table_dir. apply Hs.
  - intros t1 t2 c1 c2 H1 H2. rewrite !with_table_table by done. repeat case_decide; intros; simplify_eq; try done.
    + symmetry. by apply (Ha t2 c2).
    + by apply (Ha t1 c1).
    + by apply (sh_table_inj s Hs _ _ c1 c2).
  - intros x. rewrite with_table_dom. intros [->%elem_of_singleton|Hx]%elem_of_union.
    + right. exists tb, c'. split; [done|]. split; [|done]. rewrite with_table_table by done. by rewrite decide_True.
    + destruct (sh_reach s Hs x Hx) as [(i & Hi & E)|(tb0 & c0 & Ht0 & E & <-)]; [left; by exists i|right].
      destruct (decide (tb0 = tb)) as [->|Hn].
      * exists tb, c'. split; [done|]. split; [|symmetry; by apply (Ha tb c0)]. rewrite with_table_table by done. by rewrite decide_True.
      * exists tb0, c0. split; [done|]. split; [|done]. rewrite with_table_table by done. by rewrite decide_False.
  - intros tb' c Ht'. rewrite with_table_pdte by done. case_decide; [|by apply Hs]. intros [= <-] Hb. pose proof with_table_is as Hi. unfold is_table in Hi. by rewrite Hb, andb_false_r in Hi.
Qed.

Lemma with_table_look pg : is_pg pg -> look s' pg = if decide (pg / 512 = tb) then core (default zero_pte (t' !! (pg mod 512))) else look s pg.
Proof using Hs Hf. intros Hp. destruct (page_split pg Hp) as (Ht & _). unfold look, entry. rewrite with_table_entries by done. by case_decide. Qed.
End With_table.

(** ** New directories and tables *)

Lemma handed_out_page out pa p : handed_out good out pa p -> exists page, pa = page * PAGE_SIZE /\ 0 < page /\ pa =? 0 = false /\ Z.land pa PAGE_MASK =? 0 = true /\ Z.shiftr pa 12 = page /\
  wrap 40 page = page /\ page ∉ out /\ good ({[page]} ∪ out) p.
Proof.
  intros (page & -> & Hr & Ho & Hg). exists page. unfold PAGE_SIZE. split; [done|]. split; [lia|]. split; [apply Z.eqb_neq; lia|].
  split; [apply Z.eqb_eq; rewrite land_PAGE_MASK; unfold PAGE_SIZE; by apply Z.mod_mul|]. split; [rewrite Z.shiftr_div_pow2 by lia; by apply Z.div_mul|].
  split; [apply wrap_small; lia|done].
Qed.

(** A step that changes no page of the space. *)
Definition quiet (s s' : vspace) : Prop := forall pg, is_pg pg -> look s' pg = look s pg.

#[global] Instance quiet_preorder : PreOrder quiet.
Proof. split; [by intros s pg|]. intros s1 s2 s3 H1 H2 pg Hp. rewrite H2 by done. by apply H1. Qed.

Lemma quiet_frame s s' pg : quiet s s' -> is_pg pg -> frame_at s' pg = frame_at s pg.
Proof. intros Hq Hp. unfold frame_at. by rewrite Hq. Qed.

(** The frames are as before: only the allocator or the set of table pages may have changed. *)
Lemma holds_frames others fixed F s s' : holds others fixed F s -> (forall pg, is_pg pg -> frame_at s' pg = frame_at s pg) ->
  F ## dom (pages s') /\ others ## dom (pages s') -> good (others ∪ dom (pages s') ∪ F) (pm s') ->
  used_pages s' = w64 (fixed + Z.of_nat (base.size (dom (pages s'))) + Z.of_nat (base.size F)) -> holds others fixed F s'.
Proof.
  intros Hh Hfr [H1 H2] Hg Hu. constructor; [| |split_and!; try done; apply (ho_disj _ _ _ _ Hh)|done|done].
  - intros x. rewrite (ho_frame _ _ _ _ Hh). split; intros (pg & Hp & E); exists pg; (split; [done|]); [rewrite Hfr by done|rewrite <- Hfr by done]; done.
  - intros pg pg' x Hp Hp'. rewrite !Hfr by done. by apply (ho_inj _ _ _ _ Hh).
Qed.

Lemma holds_same others fixed F s s' : holds others fixed F s -> (forall pg, is_pg pg -> frame_at s' pg = frame_at s pg) -> dom (pages s') = dom (pages s) ->
  used_pages s' = used_pages s -> good (others ∪ dom (pages s) ∪ F) (pm s') -> holds others fixed F s'.
Proof.
  intros Hh Hfr Hd Hu Hg. apply (holds_frames others fixed F s s' Hh Hfr); rewrite Hd; [split; apply (ho_disj _ _ _ _ Hh)|done|]. rewrite Hu. apply Hh.
Qed.

Lemma holds_new others fixed F s s' v : holds others fixed F s -> quiet s s' -> dom (pages s') = {[v]} ∪ dom (pages s) ->
  v ∉ others ∪ dom (pages s) ∪ F -> good ({[v]} ∪ (others ∪ dom (pages s) ∪ F)) (pm s') -> used_pages s' = w64 (used_pages s + 1) -> holds others fixed F s'.
Proof.
  intros Hh Hq Hd Hv Hg Hu. destruct (ho_disj _ _ _ _ Hh) as (D1 & D2 & D3).
  apply (holds_frames others fixed F s s' Hh); [intros; by apply quiet_frame|rewrite Hd; set_solver|rewrite Hd|].
  - replace (others ∪ ({[v]} ∪ dom (pages s)) ∪ F) with ({[v]} ∪ (others ∪ dom (pages s) ∪ F)) by set_solver. done.
  - rewrite Hu, (ho_used _ _ _ _ Hh), Hd, size_union by set_solver. rewrite size_singleton. unfold wrap. rewrite Zplus_mod_idemp_l. f_equal. lia.
Qed.

(** A change of the allocator alone. *)
Lemma set_pm_shape p s : shape s -> shape (set_pm p s).
Proof. intros [H1 H2 H3 H4 H5 H6 H7]. by constructor. Qed.

Lemma set_pm_holds others fixed F p s : holds others fixed F s -> good (others ∪ dom (pages s) ∪ F) p -> holds others fixed F (set_pm p s).
Proof. intros Hh Hg. by apply (holds_same _ _ _ s). Qed.

Lemma zero_directory_at j : 0 <= j < 512 -> zero_directory !! j = Some zero_pdte.
Proof. intros Hj. apply lookup_gset_to_gmap_Some. split; [|done]. apply elem_of_list_to_set, elem_of_seqZ. lia. Qed.

Definition with_dir (i v : Z) (p : phys_state) (s : vspace) : vspace :=
  set_used (w64 (used_pages s + 1)) (set_pdpt (<[i := Pdpte true true true false false false v false]> (pdpt s))
    (set_pages (<[v := Directory zero_directory]> (pages s)) (set_pm p s))).

Section New_pdt.
Context (s : vspace) (i v : Z) (Hs : shape s) (Hi : is_dir i) (Hn : dir_at s i = None) (Hv : v ∉ dom (pages s)) (p : phys_state).
#[local] Abbreviation s' := (with_dir i v p s).

Lemma new_pdt_dir i' : dir_at s' i' = if decide (i' = i) then Some v else dir_at s i'.
Proof using All. unfold dir_at. cbn. rewrite lookup_insert. repeat case_decide; by subst. Qed.

Lemma new_pdt_old x y : pages s !! x = Some y -> pages s' !! x = Some y.
Proof using All. intros E. cbn. rewrite lookup_insert_ne; [done|]. intros ->. apply Hv. apply elem_of_dom. by eexists. Qed.

Lemma new_pdt_pdte tb : is_tb tb -> pdte_at s' tb = if decide (tb / 512 = i) then Some zero_pdte else pdte_at s tb.
Proof using All.
  intros Ht. destruct (tb_split tb Ht) as (Hd & Hj & _). unfold pdte_at. rewrite new_pdt_dir. case_decide as E.
  - cbn. rewrite lookup_insert_eq. by apply zero_directory_at.
  - destruct (dir_at s (tb / 512)) as [dp|] eqn:Ed; [|done]. destruct (sh_dir s Hs _ _ Hd Ed) as (d & Ep & _). by rewrite (new_pdt_old _ _ Ep), Ep.
Qed.

Lemma new_pdt_table tb : is_tb tb -> table_at s' tb = table_at s tb.
Proof using All.
  intros Ht. unfold table_at. rewrite new_pdt_pdte by done. case_decide as E; [|done]. unfold pdte_at. by rewrite E, Hn.
Qed.

Lemma new_pdt_quiet : quiet s s'.
Proof using All.
  intros pg Hp. destruct (page_split pg Hp) as (Ht & _). unfold look, entry, entries_at. rewrite new_pdt_table by done. destruct (table_at s (pg / 512)) as [c|] eqn:Ec; [|done].
  destruct (sh_table s Hs _ _ Ht Ec) as (t & L & Et & _). by rewrite (new_pdt_old _ _ Et), Et.
Qed.

Lemma new_pdt_shape : shape s'.
Proof using All.
  constructor.
  - intros i' Hi'. cbn. rewrite lookup_insert. case_decide; [by eexists|by apply Hs].
  - intros i' dp Hi'. rewrite new_pdt_dir. case_decide as E.
    + intros [= <-]. exists zero_directory. split; [cbn; by rewrite lookup_insert_eq|]. intros j Hj. rewrite zero_directory_at by done. by eexists.
    + intros Ed. destruct (sh_dir s Hs _ _ Hi' Ed) as (d & Ep & Hall). exists d. split; [by apply new_pdt_old|done].
  - intros tb c Ht. rewrite new_pdt_table by done. intros Ec. destruct (sh_table s Hs _ _ Ht Ec) as (t & L & Et & Hok). exists t, L. split; [by apply new_pdt_old|done].
  - assert (Hno : forall i' , is_dir i' -> dir_at s i' <> Some v).
    { intros i' Hi' E. destruct (sh_dir s Hs _ _ Hi' E) as (d & Ep & _). apply Hv, elem_of_dom. by eexists. }
    intros i1 i2 dp H1 H2. rewrite !new_pdt_dir. repeat case_decide; intros; simplify_eq; try done; try (by destruct (Hno i1)); try (by destruct (Hno i2)). by apply (sh_dir_inj s Hs _ _ dp).
  - intros t1 t2 c1 c2 H1 H2. rewrite !new_pdt_table by done. by apply Hs.
  - intros x. cbn. rewrite dom_insert_L. intros [->%elem_of_singleton|Hx]%elem_of_union.
    + left. exists i. split; [done|]. rewrite new_pdt_dir. by rewrite decide_True.
    + destruct (sh_reach s Hs x Hx) as [(i' & Hi' & E)|(tb & c & Ht & E & Ex)]; [left; exists i'|right; exists tb, c].
      * split; [done|]. rewrite new_pdt_dir, decide_False; [done|]. intros ->. congruence.
      * split; [done|]. by rewrite new_pdt_table.
  - intros tb c Ht. rewrite new_pdt_pdte by done. case_decide; [by intros [= <-]|by apply Hs].
Qed.
End New_pdt.

Lemma new_pdt_ok others fixed F s i : shape s -> holds others fixed F s -> is_dir i -> dir_at s i = None ->
  exists o s', new_pdt i s = Ok (o, s') /\ shape s' /\ holds others fixed F s' /\ quiet s s' /\ promised (pm s') = promised (pm s) /\
    match o with
    | Some v => dir_at s' i = Some v /\ forall tb, is_tb tb -> pdte_at s' tb = if decide (tb / 512 = i) then Some zero_pdte else pdte_at s tb
    | None => pages s' = pages s /\ pdpt s' = pdpt s
    end.
Proof.
  intros Hs Hh Hi Hn. destruct (sh_pdpt s Hs i Hi) as [e Ee]. assert (Hp : p_present e = false) by (unfold dir_at in Hn; rewrite Ee in Hn; by destruct (p_present e)).
  destruct (allocate_none _ _ (ho_good _ _ _ _ Hh)) as (pa & p & Ea & Hpr & Hcase). unfold new_pdt. rewrite Ee. cbn [deref obind]. rewrite Hp. cbn [negb ensure obind]. rewrite Ea. cbn [obind].
  destruct Hcase as [[-> Hg]|Ho].
  - exists None, (set_pm p s). split; [done|]. split; [by apply set_pm_shape|]. split; [by apply set_pm_holds|]. done.
  - destruct (handed_out_page _ _ _ Ho) as (v & -> & _ & -> & -> & -> & -> & Hv & Hg). cbn [ensure obind]. assert (Hv' : v ∉ dom (pages s)) by set_solver.
    exists (Some v), (with_dir i v p s). split; [reflexivity|]. split; [by apply new_pdt_shape|]. split; [|split; [by apply new_pdt_quiet|split; [done|split]]].
    + apply (holds_new _ _ _ s _ v Hh); [by apply new_pdt_quiet|cbn; by rewrite dom_insert_L|done|done|done].
    + rewrite new_pdt_dir by done. by rewrite decide_True.
    + intros tb Ht. by apply new_pdt_pdte.
Qed.

Lemma set_used_shape u s : shape s -> shape (set_used u s).
Proof. intros [H1 H2 H3 H4 H5 H6 H7]. by constructor. Qed.

(** Every page of a new table is free. *)
Definition new_table (s s' : vspace) (tb v : Z) : Prop :=
  exists c, table_at s' tb = Some c /\ pt_addr c = v /\ (forall tb', is_tb tb' -> tb' <> tb -> pdte_at s' tb' = pdte_at s tb').

Lemma new_pt_step others fixed F s tb dp mode c0 pa p : shape s -> holds others fixed F s -> is_tb tb -> dir_at s (tb / 512) = Some dp ->
  pdte_at s tb = Some c0 -> d_present c0 = false -> d_bypass c0 = false -> pm_allocate mode (pm s) = Ok (pa, p) ->
  handed_out good (others ∪ dom (pages s) ∪ F) pa p ->
  exists v s', new_pt dp (tb mod 512) mode s = Ok (Some v, s') /\ shape s' /\ holds others fixed F s' /\ quiet s s' /\ pm s' = p /\
    pdpt s' = pdpt s /\ new_table s s' tb v.
Proof.
  intros Hs Hh Ht Hd Hc0 Hp0 Hb0 Ea Ho. destruct (read_pdte_at s tb dp Hs Ht Hd) as (c & Er & Ec). assert (c = c0) as -> by congruence.
  destruct (handed_out_page _ _ _ Ho) as (v & -> & _ & Ez & Em & Ev & _ & Hv & Hg). assert (Hv' : v ∉ dom (pages s)) by set_solver.
  destruct (tb_split tb Ht) as (Hi & Hj & _). destruct (sh_dir s Hs _ _ Hi Hd) as (d & Ed & _).
  destruct (init_pt_spec (v * PAGE_SIZE)) as (pdt & t & Ei & Hinv & Hpp & Hpb & Hpa & Hz). rewrite Ev in Hpa.
  assert (Hno : table_at s tb = None) by (unfold table_at, is_table; by rewrite Hc0, Hp0).
  assert (Hfit : fits (set_pm p s) tb dp d pdt t).
  { constructor; [done|done|done| | |].
    - rewrite Hpa. intros d' E. apply Hv', elem_of_dom. by eexists.
    - intros tb0 c1 Ht0 E1. rewrite Hpa. split; [|intros ->; change (table_at s tb = Some c1) in E1; congruence].
      intros E2. destruct (sh_table s Hs _ _ Ht0 E1) as (t1 & _ & E3 & _). exfalso. apply Hv', elem_of_dom. rewrite <- E2, E3. by eexists.
    - exists [(0, 512)]. constructor; [done..|]. intros i e E _. by apply core_zero, (Hz i e). }
  set (s1 := set_used (w64 (used_pages s + 1)) (with_table dp (tb mod 512) d pdt t (set_pm p s))).
  pose proof (set_pm_shape p s Hs) as Hsp.
  assert (Hq : quiet s s1).
  { intros pg Hpg. change (look s1 pg) with (look (with_table dp (tb mod 512) d pdt t (set_pm p s)) pg). rewrite (with_table_look _ tb) by done. case_decide as E; [|done].
    destruct (page_split pg Hpg) as (_ & Hk & _). destruct (pi_entries _ _ _ Hinv _ Hk) as [e Ee]. rewrite Ee. change (core e = look s pg). rewrite (Hz _ _ Ee).
    unfold look, entry, entries_at. by rewrite E, Hno. }
  assert (Hdom : dom (pages s1) = {[v]} ∪ dom (pages s)) by (rewrite <- Hpa; by apply (with_table_dom (set_pm p s) tb dp d pdt t Hfit)).
  exists v, s1. split.
  { unfold new_pt. rewrite Er. cbn [obind]. rewrite Hp0, Hb0. cbn [negb andb ensure obind]. rewrite Ea. cbn [obind]. rewrite Ez, Em, Ev. cbn [ensure obind]. rewrite Ei. cbn [obind].
    rewrite <- Hpa. rewrite (with_table_write (set_pm p s) dp (tb mod 512) d pdt t Ed (with_table_ne _ _ _ _ _ _ Hfit)). cbn [obind]. reflexivity. }
  split; [by apply set_used_shape, (with_table_shape _ tb)|]. split; [by apply (holds_new _ _ _ s _ v Hh)|]. split; [done|]. split; [done|]. split; [done|].
  exists pdt. split; [change (table_at (with_table dp (tb mod 512) d pdt t (set_pm p s)) tb = Some pdt); rewrite (with_table_table _ tb) by done; by rewrite decide_True|].
  split; [done|]. intros tb' Ht' Hne. change (pdte_at (with_table dp (tb mod 512) d pdt t (set_pm p s)) tb' = pdte_at s tb'). rewrite (with_table_pdte _ tb) by done. by rewrite decide_False.
Qed.

(** [open_pdt] and [open_pt]: what is there already stays. *)
Lemma open_pdt_ok others fixed F s i : shape s -> holds others fixed F s -> is_dir i ->
  exists o s', open_pdt i s = Ok (o, s') /\ shape s' /\ holds others fixed F s' /\ quiet s s' /\ promised (pm s') = promised (pm s) /\
    (forall dp, o = Some dp -> dir_at s' i = Some dp /\ forall tb, is_tb tb -> pdte_at s' tb = pdte_at s tb \/ pdte_at s tb = None /\ pdte_at s' tb = Some zero_pdte) /\
    (o = None -> dir_at s i = None).
Proof.
  intros Hs Hh Hi. unfold open_pdt. destruct (sh_pdpt s Hs i Hi) as [e Ee]. rewrite Ee. cbn [deref obind]. destruct (p_present e) eqn:Ep.
  - assert (Hd : dir_at s i = Some (pdt_addr e)) by (unfold dir_at; by rewrite Ee, Ep). exists (Some (pdt_addr e)), s. do 5 (split; [done|]). split; [|done].
    intros dp [= <-]. split; [done|]. intros tb Ht. by left.
  - assert (Hd : dir_at s i = None) by (unfold dir_at; by rewrite Ee, Ep). destruct (new_pdt_ok _ _ _ s i Hs Hh Hi Hd) as (o & s' & E & Hs' & Hh' & Hq & Hpr & Hc).
    exists o, s'. do 5 (split; [done|]). split; [|done]. intros dp ->. destruct Hc as [H1 H2]. split; [done|]. intros tb Ht. rewrite H2 by done. case_decide as E1; [right|by left].
    unfold pdte_at. by rewrite E1, Hd.
Qed.

Lemma open_pt_ok others fixed F s tb dp mode c0 : shape s -> holds others fixed F s -> is_tb tb -> dir_at s (tb / 512) = Some dp -> pdte_at s tb = Some c0 -> d_bypass c0 = false ->
  (mode = TAKE /\ (d_present c0 = false -> 0 < promised (pm s)) \/ mode = NONE) ->
  exists o s', open_pt dp (tb mod 512) mode s = Ok (o, s') /\ shape s' /\ holds others fixed F s' /\ quiet s s' /\
    promised (pm s') = promised (pm s) - b2z (bool_decide (mode = TAKE) && negb (d_present c0)) /\ pdpt s' = pdpt s /\
    (forall tb', is_tb tb' -> tb' <> tb -> pdte_at s' tb' = pdte_at s tb') /\
    match o with Some v => exists c, table_at s' tb = Some c /\ pt_addr c = v | None => mode = NONE /\ pages s' = pages s end.
Proof.
  intros Hs Hh Ht Hd Hc0 Hb Hm. unfold open_pt. destruct (read_pdte_at s tb dp Hs Ht Hd) as (c & Er & Ec). assert (c = c0) as -> by congruence. rewrite Er. cbn [obind].
  destruct (d_present c0) eqn:Ep.
  - exists (Some (pt_addr c0)), s. do 4 (split; [done|]). rewrite andb_false_r. split; [cbn; lia|]. split; [done|]. split; [done|]. exists c0. split; [|done].
    unfold table_at, is_table. by rewrite Hc0, Ep, Hb.
  - assert (Halloc : exists pa p, pm_allocate mode (pm s) = Ok (pa, p) /\ promised p = promised (pm s) - b2z (bool_decide (mode = TAKE)) /\
      (mode = NONE /\ pa = 0 /\ good (others ∪ dom (pages s) ∪ F) p \/ handed_out good (others ∪ dom (pages s) ∪ F) pa p)).
    { destruct Hm as [[-> Hpos]| ->].
      - destruct (allocate_take _ _ (ho_good _ _ _ _ Hh) (Hpos eq_refl)) as (pa & p & E & Hpr & Ho). exists pa, p. split; [done|]. split; [by rewrite bool_decide_eq_true_2|by right].
      - destruct (allocate_none _ _ (ho_good _ _ _ _ Hh)) as (pa & p & E & Hpr & Ho). exists pa, p. split; [done|]. split; [rewrite bool_decide_eq_false_2 by done; cbn; lia|].
        destruct Ho as [[? ?]|?]; [left|right]; done. }
    destruct Halloc as (pa & p & Ea & Hpr & Hcase). rewrite andb_true_r. destruct Hcase as [(-> & -> & Hg)|Ho].
    + exists None, (set_pm p s). split; [unfold new_pt; rewrite Er; cbn [obind]; rewrite Ep, Hb; cbn [negb andb ensure obind]; by rewrite Ea|].
      split; [by apply set_pm_shape|]. split; [by apply set_pm_holds|]. done.
    + destruct (new_pt_step _ _ _ s tb dp mode c0 pa p Hs Hh Ht Hd Hc0 Ep Hb Ea Ho) as (v & s' & E & Hs' & Hh' & Hq & Hpm & Hpd & c & H1 & H2 & H3).
      exists (Some v), s'. do 4 (split; [done|]). split; [by rewrite Hpm|]. split; [done|]. split; [done|]. by exists c.
Qed.

(** ** Working on one table *)

Lemma same_pdt_addr p q : same_pdt p q -> pt_addr q = pt_addr p.
Proof. unfold same_pdt, set_head, set_remain. destruct p, q. cbn. by intros [=]. Qed.

Lemma table_fits s tb dp d c c' t' L' : shape s -> is_tb tb -> dir_at s (tb / 512) = Some dp -> pages s !! dp = Some (Directory d) ->
  table_at s tb = Some c -> same_pdt c c' -> pt_ok c' t' L' -> fits s tb dp d c' t'.
Proof.
  intros Hs Ht Hd Ed Hc Hsame Hok. pose proof (same_pdt_addr _ _ Hsame) as Ha. destruct (sh_table s Hs _ _ Ht Hc) as (t & _ & Et & _). constructor; [done..| | |by exists L'].
  - intros d'. rewrite Ha, Et. done.
  - intros tb0 c0 Ht0 E0. rewrite Ha. split; [intros E; by apply (sh_table_inj s Hs _ _ c0 c)|intros ->; congruence].
Qed.

(** Everything about a table that is there, at once. *)
Lemma table_parts s tb c : shape s -> is_tb tb -> table_at s tb = Some c -> exists dp d t L,
  dir_at s (tb / 512) = Some dp /\ pages s !! dp = Some (Directory d) /\ d !! (tb mod 512) = Some c /\ read_pdte dp (tb mod 512) s = Ok c /\
  pages s !! pt_addr c = Some (Entries t) /\ read_pt (pt_addr c) s = Ok t /\ pt_ok c t L /\ entries_at s tb = Some t.
Proof.
  intros Hs Ht Hc. destruct (table_at_is _ _ _ Hc) as (Ep & _ & _). destruct (read_pt_at s tb c Hs Ht Hc) as (t & L & Er & Een & Hok).
  unfold pdte_at in Ep. destruct (dir_at s (tb / 512)) as [dp|] eqn:Ed; [|done]. destruct (pages s !! dp) as [[d|]|] eqn:Epg; [|done..].
  exists dp, d, t, L. split; [done|]. split; [done|]. split; [done|]. split; [unfold read_pdte, read_pdt; rewrite Epg; cbn [obind]; by rewrite Ep|].
  split; [|done]. unfold read_pt in Er. destruct (pages s !! pt_addr c) as [[]|]; [done| |done]. by injection Er as ->.
Qed.

Lemma dom_with_table s tb dp d c c' t' L' : shape s -> is_tb tb -> dir_at s (tb / 512) = Some dp -> pages s !! dp = Some (Directory d) ->
  table_at s tb = Some c -> same_pdt c c' -> pt_ok c' t' L' -> dom (pages (with_table dp (tb mod 512) d c' t' s)) = dom (pages s).
Proof.
  intros Hs Ht Hd Ed Hc Hsame Hok. rewrite (with_table_dom s tb dp d c' t') by (by eapply table_fits). rewrite (same_pdt_addr _ _ Hsame).
  destruct (sh_table s Hs _ _ Ht Hc) as (t & _ & Et & _). assert (pt_addr c ∈ dom (pages s)) by (apply elem_of_dom; rewrite Et; by eexists). set_solver.
Qed.

Lemma with_table_id s dp d c t j : pages s !! dp = Some (Directory d) -> d !! j = Some c -> pages s !! pt_addr c = Some (Entries t) -> with_table dp j d c t s = s.
Proof. intros Ed Ec Et. unfold with_table, set_pages. rewrite (insert_id (pages s)) by done. rewrite (insert_id d) by done. rewrite insert_id by done. by destruct s. Qed.

(** [f] changes nothing of the table. *)
Lemma on_table_same {A} (f : PDTE -> table -> outcome (A * PDTE * table)) s tb dp c t a : shape s -> is_tb tb -> table_at s tb = Some c -> dir_at s (tb / 512) = Some dp ->
  entries_at s tb = Some t -> f c t = Ok (a, c, t) -> on_table f dp (tb mod 512) (pt_addr c) s = Ok (a, s).
Proof.
  intros Hs Ht Hc Hd He Hf. destruct (table_parts s tb c Hs Ht Hc) as (dp' & d & t' & L & Hd' & Ed & Ec & Er & Et & Ert & Hok & Een).
  assert (dp' = dp) as -> by congruence. assert (t' = t) as -> by congruence.
  unfold on_table. rewrite Er. cbn [obind]. rewrite Ert. cbn [obind]. rewrite Hf. cbn [obind].
  assert (Hne : pt_addr c <> dp) by (intros E; rewrite E, Ed in Et; done).
  rewrite (with_table_write s dp (tb mod 512) d c t Ed Hne). cbn [obind]. by rewrite (with_table_id s dp d c t) by done.
Qed.

(** The pages from [first] on are reserved now. *)
Definition pages_reserved (s s' : vspace) (first count : Z) : Prop :=
  forall pg, is_pg pg -> look s' pg = if decide (first <= pg < first + count) then set_preserve true (look s pg) else look s pg.

Lemma own_preserve b e : own (set_preserve b e) = own e.
Proof. by destruct e. Qed.

Lemma reserved_frame s s' first count pg : pages_reserved s s' first count -> is_pg pg -> frame_at s' pg = frame_at s pg.
Proof. intros Hr Hp. unfold frame_at. rewrite Hr by done. case_decide; [apply own_preserve|done]. Qed.

Lemma look_entry s tb t k : is_tb tb -> 0 <= k < 512 -> entries_at s tb = Some t -> look s (tb * 512 + k) = core (default zero_pte (t !! k)).
Proof. intros Ht Hk E. destruct (page_join tb k Ht Hk) as (_ & E1 & E2). unfold look, entry. by rewrite E1, E2, E. Qed.

Lemma on_table_reserve {A} (f : PDTE -> table -> outcome (A * PDTE * table)) others fixed F s tb dp c t c' t' L' r a count :
  shape s -> holds others fixed F s -> is_tb tb -> table_at s tb = Some c -> dir_at s (tb / 512) = Some dp -> entries_at s tb = Some t ->
  f c t = Ok (r, c', t') -> reserved t t' a count -> pt_inv c' t' L' -> same_pdt c c' -> 0 <= a -> a + count <= 512 ->
  exists s', on_table f dp (tb mod 512) (pt_addr c) s = Ok (r, s') /\ shape s' /\ holds others fixed F s' /\ pages_reserved s s' (tb * 512 + a) count /\
    pm s' = pm s /\ pdpt s' = pdpt s /\ (forall tb', is_tb tb' -> tb' <> tb -> pdte_at s' tb' = pdte_at s tb').
Proof.
  intros Hs Hh Ht Hc Hd He Hf Hr Hinv Hsame Ha Hac. destruct (table_parts s tb c Hs Ht Hc) as (dp' & d & t0 & L & Hd' & Ed & Ec & Er & Et & Ert & Hok & Een).
  assert (dp' = dp) as -> by congruence. assert (t0 = t) as -> by congruence.
  pose proof (reserved_step _ _ _ _ _ _ _ _ Hok Hinv Hsame Hr) as Hok'. pose proof (table_fits s tb dp d c c' t' L' Hs Ht Hd Ed Hc Hsame Hok') as Hfit.
  set (s' := with_table dp (tb mod 512) d c' t' s).
  assert (Hlook : pages_reserved s s' (tb * 512 + a) count).
  { intros pg Hp. destruct (page_split pg Hp) as (Ht' & Hk & Epg). unfold s'. rewrite (with_table_look s tb) by done. case_decide as E.
    - unfold look at 1 2, entry. rewrite E, He. specialize (Hr (pg mod 512)).
      destruct (pi_entries _ _ _ (po_inv _ _ _ Hok) _ Hk) as [e Ee], (pi_entries _ _ _ Hinv _ Hk) as [e' Ee']. rewrite Ee, Ee' in Hr |- *. cbn [fmap option_fmap option_map] in Hr.
      change (core e' = if decide (tb * 512 + a <= pg < tb * 512 + a + count) then set_preserve true (core e) else core e). repeat case_decide; try lia; by apply (inj Some) in Hr.
    - rewrite decide_False by lia. done. }
  exists s'. split.
  { unfold on_table. rewrite Er. cbn [obind]. rewrite Ert. cbn [obind]. rewrite Hf. cbn [obind]. rewrite <- (same_pdt_addr _ _ Hsame).
    rewrite (with_table_write s dp (tb mod 512) d c' t' Ed (with_table_ne _ _ _ _ _ _ Hfit)). done. }
  split; [by apply (with_table_shape s tb)|]. split.
  { apply (holds_same others fixed F s); [done|intros pg Hp; by apply (reserved_frame s s' (tb * 512 + a) count)| |done|apply Hh]. by apply (dom_with_table s tb dp d c c' t' L'). }
  split; [done|]. split; [done|]. split; [done|]. intros tb' Ht' Hne. unfold s'. rewrite (with_table_pdte s tb) by done. by rewrite decide_False.
Qed.

(** ** Free pages, by what is seen *)

Definition free_page (s : vspace) (tb k : Z) : bool := bool_decide (0 <= k < 512) && is_free (look s (tb * 512 + k)).

(** [get] stops the machine at the third page of a free run, unless the run has four pages: at [k] itself, or when the run of
    three pages that ends before [k] is looked up by its last page. *)
Definition snag (g : Z -> bool) (k : Z) : bool := g k && g (k - 1) && g (k - 2) && negb (g (k - 3)) && negb (g (k + 1) && negb (g (k + 2))).
Definition trio (g : Z -> bool) (k : Z) : bool := g (k - 1) && g (k - 2) && g (k - 3) && negb (g (k - 4)).

Lemma is_free_core' e : is_free (core e) = is_free e.
Proof. by destruct e. Qed.

Lemma free_page_table s tb t k c L : is_tb tb -> entries_at s tb = Some t -> pt_ok c t L -> free_page s tb k = freeb t k.
Proof.
  intros Ht He Hok. unfold free_page. destruct (decide (0 <= k < 512)) as [Hk|Hk].
  - rewrite bool_decide_eq_true_2 by done. rewrite (look_entry s tb t k Ht Hk He), is_free_core'. unfold freeb.
    destruct (pi_entries _ _ _ (po_inv _ _ _ Hok) _ Hk) as [e Ee]. by rewrite Ee.
  - rewrite bool_decide_eq_false_2 by done. destruct (freeb t k) eqn:E; [|done]. apply (pi_free _ _ _ (po_inv _ _ _ Hok)) in E as (b & n & Hin & Hr).
    pose proof (chain_range _ _ _ _ _ _ (ls_chain _ _ _ (pi_listed _ _ _ (po_inv _ _ _ Hok))) Hin). lia.
Qed.

Section Runs.
Context (pdt : PDTE) (t : table) (L : blocks) (Hinv : pt_inv pdt t L).
#[local] Set Default Proof Using "All".

(** A block of the list, seen from the entries: its pages are free, the pages around it are not. *)
Lemma block_run b n : (b, n) ∈ L -> 0 <= b /\ b + n <= 512 /\ (forall k, b <= k < b + n -> freeb t k = true) /\ freeb t (b - 1) = false /\ freeb t (b + n) = false.
Proof.
  intros Hin. pose proof (chain_range _ _ _ _ _ _ (ls_chain _ _ _ (pi_listed _ _ _ Hinv)) Hin) as Hr.
  split; [lia|]. split; [lia|]. split; [intros k Hk; apply (pi_free _ _ _ Hinv); by exists b, n|].
  assert (Hout : forall k, k < 0 \/ 512 <= k -> freeb t k = false).
  { intros k Hk. destruct (freeb t k) eqn:E; [|done]. apply (pi_free _ _ _ Hinv) in E as (b' & n' & Hin' & Hr').
    pose proof (chain_range _ _ _ _ _ _ (ls_chain _ _ _ (pi_listed _ _ _ Hinv)) Hin'). lia. }
  apply list_elem_of_split in Hin as (A & B & ->). split.
  - destruct (decide (b = 0)) as [->|]; [apply Hout; lia|]. apply (block_start _ _ _ _ _ _ Hinv). lia.
  - destruct (decide (b + n = 512)) as [->|]; [apply Hout; lia|]. destruct (block_end _ _ _ _ _ _ Hinv) as (e & E & Hf); [lia|]. unfold freeb. by rewrite E.
Qed.

Lemma third_snag k : third_page L k -> snag (freeb t) k = true.
Proof.
  intros (b & n & Hin & -> & H3 & H4). destruct (block_run b n Hin) as (_ & _ & Hall & H0 & H1). unfold snag.
  rewrite (Hall (b + 2)), (Hall (b + 2 - 1)), (Hall (b + 2 - 2)) by lia. replace (b + 2 - 3) with (b - 1) by lia. rewrite H0. cbn.
  destruct (decide (n = 3)) as [->|]; [replace (b + 2 + 1) with (b + 3) by lia; by rewrite H1|].
  rewrite (Hall (b + 2 + 2)) by lia. by rewrite andb_false_r.
Qed.

Lemma three_trio k : three_before L k -> trio (freeb t) k = true.
Proof.
  intros (b & Hin & <-). destruct (block_run b 3 Hin) as (_ & _ & Hall & H0 & _). unfold trio.
  rewrite (Hall (b + 3 - 1)), (Hall (b + 3 - 2)), (Hall (b + 3 - 3)) by lia. replace (b + 3 - 4) with (b - 1) by lia. by rewrite H0.
Qed.

Lemma some_free k : freeb t k = true -> L <> [].
Proof. intros E ->. apply (pi_free _ _ _ Hinv) in E as (b & n & Hin & _). by apply elem_of_nil in Hin. Qed.
End Runs.

Lemma snag_ext g g' k : (forall i, g i = g' i) -> snag g k = snag g' k.
Proof. intros E. unfold snag. by rewrite !E. Qed.
Lemma trio_ext g g' k : (forall i, g i = g' i) -> trio g k = trio g' k.
Proof. intros E. unfold trio. by rewrite !E. Qed.

(** One call of [imp_reserve_fixed]. *)
Lemma fixed_piece others fixed F s tb dp c off count : shape s -> holds others fixed F s -> is_tb tb -> table_at s tb = Some c -> dir_at s (tb / 512) = Some dp ->
  (exists k, free_page s tb k = true) -> snag (free_page s tb) off = false -> 0 <= off -> 1 <= count -> off + count <= 512 ->
  exists b s', on_table (fun cur t => imp_reserve_fixed cur t off count) dp (tb mod 512) (pt_addr c) s = Ok (b, s') /\ shape s' /\ holds others fixed F s' /\
    pm s' = pm s /\ pdpt s' = pdpt s /\ (forall tb', is_tb tb' -> tb' <> tb -> pdte_at s' tb' = pdte_at s tb') /\
    if b then (forall k, off <= k < off + count -> is_free (look s (tb * 512 + k)) = true) /\ pages_reserved s s' (tb * 512 + off) count
    else quiet s s' /\ exists k, off <= k < off + count /\ is_free (look s (tb * 512 + k)) = false.
Proof.
  intros Hs Hh Ht Hc Hd [k0 Hk0] Hsn Ho Hcnt Hoc. destruct (table_parts s tb c Hs Ht Hc) as (dp' & d & t & L & Hd' & Ed & Ec & Er & Et & Ert & Hok & Een).
  pose proof (po_inv _ _ _ Hok) as Hinv. pose proof (free_page_table s tb t) as Hfp.
  assert (Hne : L <> []) by (apply (some_free c t L Hinv k0); by rewrite <- (Hfp k0 c L Ht Een Hok)).
  assert (Hth : ~ third_page L off). { intros Hx%(third_snag c t L Hinv). rewrite (snag_ext _ (freeb t)) in Hsn by (intros; by eapply Hfp). congruence. }
  pose proof (imp_reserve_fixed_spec c t L off count Hinv Hne Ho Hcnt Hoc (po_present _ _ _ Hok) (po_bypass _ _ _ Hok) Hth) as Hspec.
  assert (Hlk : forall k, off <= k < off + count -> is_free (look s (tb * 512 + k)) = freeb t k).
  { intros k Hk. rewrite <- (Hfp k c L Ht Een Hok). unfold free_page. rewrite bool_decide_eq_true_2 by lia. done. }
  case_bool_decide as Hall.
  - destruct Hspec as (c' & t' & L' & E & Hr & Hinv' & Hsame).
    destruct (on_table_reserve (fun cur t => imp_reserve_fixed cur t off count) others fixed F s tb dp c t c' t' L' true off count Hs Hh Ht Hc Hd Een E Hr Hinv' Hsame Ho Hoc) as (s' & E' & H1 & H2 & H3 & H4 & H5 & H6).
    exists true, s'. do 6 (split; [done|]). split; [|done]. intros k Hk. rewrite Hlk by done. rewrite Forall_forall in Hall. apply Hall, elem_of_seqZ. lia.
  - exists false, s. split; [by apply (on_table_same _ s tb dp c t false)|]. do 5 (split; [done|]). split; [done|].
    destruct (decide (Exists (fun k => freeb t k = false) (seqZ off count))) as [Hx|Hx].
    + apply Exists_exists in Hx as (k & Hin%elem_of_seqZ & Hk). exists k. rewrite Hlk by lia. split; [lia|done].
    + exfalso. apply Hall, Forall_forall. intros k Hk. destruct (freeb t k) eqn:E; [done|]. exfalso. apply Hx, Exists_exists. by exists k.
Qed.

(** One call of [imp_reserve_any]. *)
Lemma any_piece others fixed F s tb dp c base count : shape s -> holds others fixed F s -> is_tb tb -> table_at s tb = Some c -> dir_at s (tb / 512) = Some dp -> 1 <= count ->
  exists a s', on_table (fun cur t => imp_reserve_any cur t base count) dp (tb mod 512) (pt_addr c) s = Ok (a, s') /\ shape s' /\ holds others fixed F s' /\
    pm s' = pm s /\ pdpt s' = pdpt s /\ (forall tb', is_tb tb' -> tb' <> tb -> pdte_at s' tb' = pdte_at s tb') /\
    (a = 0 /\ quiet s s' \/ exists k, a = w64 (base + Z.shiftl k 12) /\ 0 <= k /\ k + count <= 512 /\
      (forall i, k <= i < k + count -> is_free (look s (tb * 512 + i)) = true) /\ pages_reserved s s' (tb * 512 + k) count).
Proof.
  intros Hs Hh Ht Hc Hd Hcnt. destruct (table_parts s tb c Hs Ht Hc) as (dp' & d & t & L & Hd' & Ed & Ec & Er & Et & Ert & Hok & Een).
  pose proof (po_inv _ _ _ Hok) as Hinv.
  pose proof (imp_reserve_any_spec c t L base count Hinv Hcnt (po_present _ _ _ Hok) (po_bypass _ _ _ Hok)) as Hspec. destruct (get_max_size c <? count).
  - exists 0, s. split; [by apply (on_table_same _ s tb dp c t 0)|]. do 5 (split; [done|]). by left.
  - destruct Hspec as (k & c' & t' & L' & E & Hk & Hkc & Hfr & Hr & Hinv' & Hsame).
    destruct (on_table_reserve (fun cur t => imp_reserve_any cur t base count) others fixed F s tb dp c t c' t' L' _ k count Hs Hh Ht Hc Hd Een E Hr Hinv' Hsame Hk Hkc) as (s' & E' & H1 & H2 & H3 & H4 & H5 & H6).
    eexists _, s'. do 6 (split; [done|]). right. exists k. split; [done|]. split; [done|]. split; [done|]. split; [|done]. intros i Hi.
    rewrite (look_entry s tb t i Ht) by (done || lia). rewrite is_free_core'. specialize (Hfr i Hi). unfold freeb in Hfr. by destruct (t !! i).
Qed.

(** ** Giving pages back *)

Lemma release_all_ok fl out p : good out p -> NoDup fl -> (forall x, x ∈ fl -> x ∈ out) ->
  exists p', release_all pm_release ((fun x => Z.shiftl x 12) <$> fl) p = Ok p' /\ good (out ∖ list_to_set fl) p' /\ promised p' = promised p.
Proof.
  revert out p. induction fl as [|x fl IH]; intros out p Hg Hnd Hin.
  - exists p. split; [done|]. split; [|done]. replace (out ∖ list_to_set []) with out by set_solver; done.
  - apply NoDup_cons in Hnd as [Hx Hnd]. cbn [fmap list_fmap release_all]. rewrite Z.shiftl_mul_pow2 by lia. change (2 ^ 12) with PAGE_SIZE.
    destruct (release_page out p x Hg) as (p1 & E1 & Hg1 & Hp1); [apply Hin; by left|]. rewrite E1. cbn [obind].
    destruct (IH _ p1 Hg1 Hnd) as (p2 & E2 & Hg2 & Hp2).
    { intros y Hy. apply elem_of_difference. split; [apply Hin; by right|]. rewrite elem_of_singleton. by intros ->. }
    exists p2. split; [done|]. split; [|by rewrite Hp2]. replace (out ∖ list_to_set (x :: fl)) with (out ∖ {[x]} ∖ list_to_set fl) by set_solver. done.
Qed.

(** The pages behind the entries of a run. *)
Fixpoint frames (n : nat) (t : table) (i : Z) : list Z :=
  match n with
  | O => []
  | S n => match t !! i with Some e => (if mapped e then [page_addr e] else []) ++ frames n t (i + 1) | None => [] end
  end.

Lemma mapped_pages_frames n t i : mapped_pages n t i = (fun x => Z.shiftl x 12) <$> frames n t i.
Proof.
  revert i. induction n as [|n IH]; intros i; cbn [mapped_pages frames]; [done|]. destruct (t !! i) as [e|]; [|done]. rewrite IH. by destruct (mapped e).
Qed.

Lemma elem_of_frames n t i x : (forall k, i <= k < i + Z.of_nat n -> is_Some (t !! k)) ->
  x ∈ frames n t i <-> exists k e, i <= k < i + Z.of_nat n /\ t !! k = Some e /\ mapped e = true /\ page_addr e = x.
Proof.
  revert i. induction n as [|n IH]; intros i Hall; cbn [frames].
  - split; [by intros ?%elem_of_nil|]. intros (k & e & ? & _). lia.
  - destruct (Hall i ltac:(lia)) as [e E]. rewrite E, elem_of_app, IH by (intros; apply Hall; lia). split.
    + intros [Hx|(k & e' & Hk & H')]; [|exists k, e'; split; [lia|done]]. destruct (mapped e) eqn:Em; [|by apply elem_of_nil in Hx].
      apply list_elem_of_singleton in Hx as ->. exists i, e. split; [lia|done].
    + intros (k & e' & Hk & E' & Em & Ea). destruct (decide (k = i)) as [->|]; [|right; exists k, e'; split; [lia|done]]. left.
      assert (e' = e) as -> by congruence. rewrite Em. apply list_elem_of_singleton. done.
Qed.

Lemma NoDup_frames n t i : (forall k, i <= k < i + Z.of_nat n -> is_Some (t !! k)) ->
  (forall k k' e e', i <= k < i + Z.of_nat n -> i <= k' < i + Z.of_nat n -> t !! k = Some e -> t !! k' = Some e' -> mapped e = true -> mapped e' = true -> page_addr e = page_addr e' -> k = k') ->
  NoDup (frames n t i).
Proof.
  revert i. induction n as [|n IH]; intros i Hall Hinj; cbn [frames]; [constructor|]. destruct (Hall i ltac:(lia)) as [e E]. rewrite E.
  assert (Hrest : NoDup (frames n t (i + 1))) by (apply IH; [intros; apply Hall; lia|]; intros k k' e1 e2 Hk Hk'; apply Hinj; lia).
  destruct (mapped e) eqn:Em; [|done]. cbn. constructor; [|done]. rewrite elem_of_frames by (intros; apply Hall; lia). intros (k & e' & Hk & E' & Em' & Ea).
  pose proof (Hinj k i e' e ltac:(lia) ltac:(lia) E' E Em' Em Ea). lia.
Qed.

Definition pages_released (s s' : vspace) (first count : Z) : Prop :=
  forall pg, is_pg pg -> look s' pg = if decide (first <= pg < first + count) then core (released_entry (look s pg)) else look s pg.

Lemma own_released e : own (core (released_entry e)) = None.
Proof. unfold own, released_entry, mapped. destruct (present e && truth (page_addr e)) eqn:Em; [done|]. change (own (core (set_preserve false e))) with (own e). destruct e. cbn in *. unfold own, mapped. cbn. by rewrite Em. Qed.

Lemma releasable_core e : releasable (core e) = releasable e.
Proof. by destruct e. Qed.
Lemma core_released e : core (released_entry (core e)) = core (released_entry e).
Proof. unfold released_entry. change (mapped (core e)) with (mapped e). by destruct (mapped e), e. Qed.
Lemma own_core e : own (core e) = own e.
Proof. by destruct e. Qed.
Lemma own_mapped e : releasable e = true -> own e = if mapped e then Some (page_addr e) else None.
Proof. unfold releasable, own. intros [Hb _]%andb_true_iff. rewrite Hb, andb_true_r. done. Qed.

(** The frames of a released range leave the space. *)
Lemma holds_drop others fixed F s s' first count fl : holds others fixed F s ->
  (forall pg, is_pg pg -> frame_at s' pg = if decide (first <= pg < first + count) then None else frame_at s pg) ->
  (forall x, x ∈ fl <-> exists pg, is_pg pg /\ first <= pg < first + count /\ frame_at s pg = Some x) -> NoDup fl ->
  dom (pages s') = dom (pages s) -> good ((others ∪ dom (pages s) ∪ F) ∖ list_to_set fl) (pm s') ->
  (forall u, used_pages s = w64 u -> used_pages s' = w64 (u - Z.of_nat (length fl))) -> holds others fixed (F ∖ list_to_set fl) s'.
Proof.
  intros Hh Hfr Hfl Hnd Hdom Hg Hu. pose proof (ho_disj _ _ _ _ Hh) as (D1 & D2 & D3).
  assert (Hsub : list_to_set fl ⊆ F).
  { intros x Hx%elem_of_list_to_set. apply Hfl in Hx as (pg & Hp & _ & E). apply (ho_frame _ _ _ _ Hh). by exists pg. }
  constructor.
  - intros x. rewrite elem_of_difference, elem_of_list_to_set, Hfl, (ho_frame _ _ _ _ Hh). split.
    + intros [(pg & Hp & E) Hn]. exists pg. split; [done|]. rewrite Hfr by done. rewrite decide_False; [done|]. intros Hr. apply Hn. by exists pg.
    + intros (pg & Hp & E). rewrite Hfr in E by done. case_decide as Hr; [done|]. split; [by exists pg|]. intros (pg' & Hp' & Hr' & E').
      assert (pg = pg') by (by apply (ho_inj _ _ _ _ Hh _ _ x)). by subst.
  - intros pg pg' x Hp Hp'. rewrite !Hfr by done. repeat case_decide; try done. by apply (ho_inj _ _ _ _ Hh).
  - rewrite Hdom. split_and!; set_solver.
  - rewrite Hdom. replace (others ∪ dom (pages s) ∪ F ∖ list_to_set fl) with ((others ∪ dom (pages s) ∪ F) ∖ list_to_set fl); [done|].
    clear -D1 D2 Hsub. apply set_eq. intros x. specialize (Hsub x). specialize (D1 x). specialize (D2 x). set_solver.
  - rewrite (Hu _ (ho_used _ _ _ _ Hh)), Hdom, size_difference by done. rewrite size_list_to_set by done.
    assert (length fl <= base.size F)%nat by (rewrite <- (size_list_to_set (C := gset Z)) by done; by apply subseteq_size). f_equal. lia.
Qed.

(** The frames behind a run of entries that may be released: each of them once, and those the pages of the run stand on. *)
Lemma run_frames others fixed F s tb t off n : holds others fixed F s -> is_tb tb -> 0 <= off -> off + Z.of_nat n <= 512 ->
  (forall k, off <= k < off + Z.of_nat n -> exists e, t !! k = Some e /\ releasable e = true /\ look s (tb * 512 + k) = core e) ->
  NoDup (frames n t off) /\ forall x, x ∈ frames n t off <-> exists pg, is_pg pg /\ tb * 512 + off <= pg < tb * 512 + off + Z.of_nat n /\ frame_at s pg = Some x.
Proof.
  intros Hh Ht Ho Hon Hent.
  assert (Hfr : forall k e, off <= k < off + Z.of_nat n -> t !! k = Some e -> frame_at s (tb * 512 + k) = if mapped e then Some (page_addr e) else None).
  { intros k e Hk E. destruct (Hent k Hk) as (e' & E' & Hr' & El). assert (e' = e) as -> by congruence. unfold frame_at. by rewrite El, own_core, own_mapped. }
  assert (Hsome : forall k, off <= k < off + Z.of_nat n -> is_Some (t !! k)) by (intros k Hk; destruct (Hent k Hk) as (e & -> & _); by eexists).
  split.
  - apply NoDup_frames; [done|]. intros k k' e e' Hk Hk' E E' Em Em' Ea. pose proof (Hfr k e Hk E) as H1. pose proof (Hfr k' e' Hk' E') as H2.
    rewrite Em in H1. rewrite Em', <- Ea in H2. pose proof (ho_inj _ _ _ _ Hh _ _ _ (proj1 (page_join tb k Ht ltac:(lia))) (proj1 (page_join tb k' Ht ltac:(lia))) H1 H2). lia.
  - intros x. rewrite elem_of_frames by done. split.
    + intros (k & e & Hk & E & Em & Ea). exists (tb * 512 + k). split; [apply page_join; [done|lia]|]. split; [lia|]. by rewrite (Hfr k e Hk E), Em, Ea.
    + intros (pg & Hp & Hr & Ex). destruct (Hent (pg - tb * 512) ltac:(lia)) as (e & E & _). exists (pg - tb * 512), e. split; [lia|]. split; [done|].
      replace pg with (tb * 512 + (pg - tb * 512)) in Ex by lia. rewrite (Hfr (pg - tb * 512) e ltac:(lia) E) in Ex. destruct (mapped e); [|done]. by injection Ex.
Qed.

(** One call of [imp_release]. *)
Lemma release_piece others fixed F s tb dp c addr off count : shape s -> holds others fixed F s -> is_tb tb -> table_at s tb = Some c -> dir_at s (tb / 512) = Some dp ->
  0 < addr -> Z.land (Z.shiftr addr 12) 0x1FF = off -> 1 <= count -> off + count <= 512 ->
  (forall k, off <= k < off + count -> releasable (look s (tb * 512 + k)) = true) -> trio (free_page s tb) off = false ->
  exists F' s', release_table dp (tb mod 512) (pt_addr c) addr count s = Ok s' /\ shape s' /\ holds others fixed F' s' /\ F' ⊆ F /\
    pages_released s s' (tb * 512 + off) count /\ promised (pm s') = promised (pm s) /\ pdpt s' = pdpt s /\
    (forall tb', is_tb tb' -> tb' <> tb -> pdte_at s' tb' = pdte_at s tb').
Proof.
  intros Hs Hh Ht Hc Hd Hadr Hoff Hcnt Hoc Hrel Htr. destruct (table_parts s tb c Hs Ht Hc) as (dp' & d & t & L & Hd' & Ed & Ec & Er & Et & Ert & Hok & Een).
  assert (dp' = dp) as -> by congruence. pose proof (po_inv _ _ _ Hok) as Hinv.
  assert (Ho : 0 <= off < 512) by (subst off; rewrite index_bits by lia; apply Z.mod_pos_bound; lia).
  assert (Hent : forall k, off <= k < off + count -> exists e, t !! k = Some e /\ releasable e = true /\ look s (tb * 512 + k) = core e).
  { intros k Hk. destruct (pi_entries _ _ _ Hinv k ltac:(lia)) as [e E]. exists e. pose proof (look_entry s tb t k Ht ltac:(lia) Een) as El. rewrite E in El. change (look s (tb * 512 + k) = core e) in El.
    split; [done|]. split; [|done]. specialize (Hrel k Hk). by rewrite El, releasable_core in Hrel. }
  set (n := Z.to_nat count). set (fl := frames n t off). assert (Hn : Z.of_nat n = count) by lia.
  destruct (run_frames others fixed F s tb t off n Hh Ht) as [Hnd Hfl]; [lia|lia|intros k Hk; apply Hent; lia|]. fold fl in Hnd, Hfl. rewrite Hn in Hfl.
  destruct (release_all_ok fl _ (pm s) (ho_good _ _ _ _ Hh) Hnd) as (p' & Erel & Hg' & Hpr).
  { intros x (pg & Hp & _ & E)%Hfl. apply elem_of_union. right. apply (ho_frame _ _ _ _ Hh). by exists pg. }
  unfold fl in Erel; rewrite <- mapped_pages_frames in Erel. rewrite (trio_ext _ (freeb t)) in Htr by (intros; by apply (free_page_table s tb t _ c L)).
  set (u := fixed + Z.of_nat (base.size (dom (pages s))) + Z.of_nat (base.size F)).
  pose proof (imp_release_spec pm_release c t L addr count u (pm s) p') as Hspec. cbn zeta in Hspec. rewrite Hoff in Hspec.
  destruct Hspec as (c' & t' & L' & E & Hinv' & Hsame & Hcore); [done|done|done|done|apply Hok|apply Hok| | |done|].
  { intros k Hk. destruct (Hent k Hk) as (e & E1 & E2 & _). by exists e. }
  { intros Hx%(three_trio c t L Hinv). congruence. }
  assert (Hrt : forall j, off <= j < off + count -> exists e, t !! j = Some e /\ releasable e = true) by (intros k Hk; destruct (Hent k Hk) as (e & E1 & E2 & _); by exists e).
  pose proof (release_step _ _ _ _ _ _ _ _ Hok Hinv' Hsame Hrt Hcore) as Hok'.
  pose proof (table_fits s tb dp d c c' t' L' Hs Ht Hd Ed Hc Hsame Hok') as Hfit.
  set (u' := u - Z.of_nat (length fl)). set (s' := set_used (w64 u') (set_pm p' (with_table dp (tb mod 512) d c' t' s))).
  assert (Hlook : pages_released s s' (tb * 512 + off) count).
  { intros pg Hp. destruct (page_split pg Hp) as (Ht' & Hk & Epg). change (look s' pg) with (look (with_table dp (tb mod 512) d c' t' s) pg). rewrite (with_table_look s tb) by done. case_decide as E1.
    - unfold look at 1 2, entry. rewrite E1, Een. specialize (Hcore (pg mod 512)).
      destruct (pi_entries _ _ _ Hinv _ Hk) as [e Ee], (pi_entries _ _ _ Hinv' _ Hk) as [e' Ee']. rewrite Ee, Ee' in Hcore |- *.
      change (core e' = if decide (tb * 512 + off <= pg < tb * 512 + off + count) then core (released_entry (core e)) else core e). rewrite core_released.
      repeat case_decide; try lia; by apply (inj Some) in Hcore.
    - rewrite decide_False by lia. done. }
  exists (F ∖ list_to_set fl), s'. split.
  { unfold release_table. rewrite Er. cbn [obind]. rewrite Ert. cbn [obind]. rewrite (ho_used _ _ _ _ Hh). fold u. rewrite E. cbn [obind].
    rewrite mapped_pages_frames, length_fmap. fold fl. rewrite <- (same_pdt_addr _ _ Hsame).
    exact (with_table_write (set_used (w64 u') (set_pm p' s)) dp (tb mod 512) d c' t' Ed (with_table_ne _ _ _ _ _ _ Hfit)). }
  split; [by apply set_used_shape, set_pm_shape, (with_table_shape s tb)|]. split.
  { apply (holds_drop others fixed F s s' (tb * 512 + off) count fl Hh); [|done|done| |done|].
    - intros pg Hp. unfold frame_at. rewrite Hlook by done. case_decide; [apply own_released|done].
    - by apply (dom_with_table s tb dp d c c' t' L').
    - intros u0 Hu0. cbn. rewrite (ho_used _ _ _ _ Hh) in Hu0. fold u in Hu0. unfold u', wrap in *. by rewrite <- Zminus_mod_idemp_l, Hu0, Zminus_mod_idemp_l. }
  split; [set_solver|]. split; [done|]. split; [done|]. split; [done|].
  intros tb' Ht' Hne. change (pdte_at (with_table dp (tb mod 512) d c' t' s) tb' = pdte_at s tb'). rewrite (with_table_pdte s tb) by done. by rewrite decide_False.
Qed.
End Lemmas.
End VSpaceInv.
