(* ===== verification/VSpaceOps.v ===== *)
(** * The operations of an address space

    [commit], [protect] and [release] look at every page of the range first and change it in a second pass; [reserve] takes the
    pages where the caller says or wherever there is room.  Each keeps the invariant of [VSpaceInv], and what it does to the
    pages is said page by page. *)

From S2P Require Import Prelude Const Phys.
From S2P Require Import PageTable VSpace VSpaceInv.

Module VSpaceOps.
Import PageTable VSpace VSpaceThm VSpaceInv.

Section Ops.
Context `{Phys}.
#[local] Set Default Proof Using "Type".

(** The space is in order, [F] are its mapped pages and [others] the pages of everyone else. *)
Definition in_order (others : gset Z) (fixed : Z) (F : gset Z) (s : vspace) : Prop := shape s /\ holds others fixed F s.

(** ** One entry *)

Lemma read_pte_at s tb c k : shape s -> is_tb tb -> 0 <= k < 512 -> table_at s tb = Some c ->
  exists t e L, read_pt (pt_addr c) s = Ok t /\ entries_at s tb = Some t /\ pt_ok c t L /\ t !! k = Some e /\ look s (tb * 512 + k) = core e.
Proof.
  intros Hs Ht Hk Hc. destruct (read_pt_at s tb c Hs Ht Hc) as (t & L & Er & Een & Hok). destruct (pi_entries _ _ _ (po_inv _ _ _ Hok) _ Hk) as [e E].
  exists t, e, L. do 4 (split; [done|]). rewrite (look_entry s tb t k Ht Hk Een), E. done.
Qed.

(** Storing the same entry again. *)
Lemma write_pt_id tp k t e s : read_pt tp s = Ok t -> t !! k = Some e -> set_pm (pm s) (write_pt tp (<[k := e]> t) s) = s.
Proof.
  unfold read_pt, write_pt, set_pages, set_pm. intros Er E. rewrite (insert_id t) by done. cbn.
  destruct (pages s !! tp) as [[]|] eqn:Ep; [done| |done]. injection Er as ->. rewrite insert_id by done. by destruct s.
Qed.

(** Storing another entry where a page is taken: [e'] is not free either. *)
Lemma entry_step s tb c t L k e e' p : shape s -> is_tb tb -> 0 <= k < 512 -> table_at s tb = Some c -> read_pt (pt_addr c) s = Ok t -> pt_ok c t L -> t !! k = Some e ->
  is_free e = false -> is_free e' = false ->
  let s' := set_pm p (write_pt (pt_addr c) (<[k := e']> t) s) in
  shape s' /\ dom (pages s') = dom (pages s) /\ (forall pg, is_pg pg -> look s' pg = if decide (pg = tb * 512 + k) then core e' else look s pg).
Proof.
  intros Hs Ht Hk Hc Er Hok E Hfe Hfe' s'. destruct (table_parts s tb c Hs Ht Hc) as (dp & d & t0 & L0 & Hd & Ed & Ec & _ & Et & Ert & _ & Een). assert (t0 = t) as -> by congruence.
  pose proof (entry_change c t L k e e' Hok Hk E Hfe Hfe') as Hok'. pose proof (table_fits s tb dp d c c _ L Hs Ht Hd Ed Hc eq_refl Hok') as Hfit.
  assert (Es : s' = set_pm p (with_table dp (tb mod 512) d c (<[k := e']> t) s)).
  { unfold s', with_table, write_pt, set_pm, set_pages. cbn. f_equal. rewrite (insert_id d) by done. rewrite (insert_id (<[pt_addr c:=_]> _)); [done|].
    rewrite lookup_insert_ne; [done|]. intros Ex. by rewrite Ex, Ed in Et. }
  rewrite Es. split; [by apply set_pm_shape, (with_table_shape s tb)|]. split; [by apply (dom_with_table s tb dp d c c _ L)|].
  intros pg Hp. destruct (page_split pg Hp) as (_ & Hkk & Epg). change (look (set_pm p ?x) pg) with (look x pg). rewrite (with_table_look s tb) by done.
  case_decide as E1.
  - rewrite lookup_insert. case_decide as E2; [rewrite decide_True by lia; done|]. rewrite decide_False by lia. unfold look, entry. by rewrite E1, Een.
  - rewrite decide_False; [done|]. intros ->. apply E1. by apply page_join.
Qed.

(** ** The first pass: looking *)

(** What the tests of the callbacks have in common: they do not look at the links, and no free page passes. *)
Record test (f : PTE -> bool) : Prop := { test_core e : f (core e) = f e; test_free e : is_free e = true -> bypass e = false -> f e = false }.

Lemma can_commit_test : test can_commit.
Proof. split; [by intros []|]. unfold is_free, can_commit. intros e Hf _. by destruct (present e), (preserve e). Qed.
Lemma can_protect_test u : test (can_protect u).
Proof. split; [by intros []|]. unfold is_free, can_protect. intros e Hf _. by destruct (present e). Qed.
Lemma can_release_test u : test (can_release u).
Proof. split; [by intros []|]. unfold is_free, can_release. intros e Hf ->. by destruct (present e), (preserve e). Qed.

(** The number of pages from [pg] on that pass. *)
Fixpoint passing (f : PTE -> bool) (s : vspace) (n : nat) (pg : Z) : Z :=
  match n with
  | O => 0
  | S n => if bool_decide (is_pg pg) && f (look s pg) then 1 + passing f s n (pg + 1) else 0
  end.

Lemma passing_range f s n pg : 0 <= passing f s n pg <= Z.of_nat n.
Proof. revert pg. induction n as [|n IH]; intros pg; cbn [passing]; [lia|]. specialize (IH (pg + 1)). case_if; lia. Qed.

Lemma passing_all f s n pg : passing f s n pg = Z.of_nat n <-> forall q, pg <= q < pg + Z.of_nat n -> is_pg q /\ f (look s q) = true.
Proof.
  revert pg. induction n as [|n IH]; intros pg; cbn [passing]; [split; [lia|done]|]. pose proof (passing_range f s n (pg + 1)) as Hr.
  destruct (bool_decide (is_pg pg) && f (look s pg)) eqn:E.
  - bool_norm. split.
    + intros E1 q Hq. destruct (decide (q = pg)) as [->|]; [done|]. apply (proj1 (IH (pg + 1))); lia.
    + intros Hall. assert (passing f s n (pg + 1) = Z.of_nat n); [|lia]. apply IH. intros q Hq. apply Hall. lia.
  - split; [lia|]. intros Hall. destruct (Hall pg ltac:(lia)) as [H1 H2]. by rewrite bool_decide_eq_true_2, H2 in E.
Qed.

#[global] Instance is_pg_dec pg : Decision (is_pg pg).
Proof. unfold is_pg. apply _. Defined.

Lemma visit_looks f n pg addr count s : test f -> shape s -> 0 <= pg -> visit (looks f) n pg addr count s = Ok (count + passing f s n pg, s).
Proof.
  intros Hf Hs. revert pg addr count. induction n as [|n IH]; intros pg addr count Hpg; cbn [visit passing]; [by rewrite Z.add_0_r|].
  destruct (decide (is_pg pg)) as [Hp|Hp].
  2:{ rewrite bool_decide_eq_false_2 by done. unfold slot. unfold is_pg in Hp. rewrite (proj2 (Z.leb_le _ _)) by lia. cbn. by rewrite Z.add_0_r. }
  rewrite bool_decide_eq_true_2 by done. cbn [andb]. pose proof (slot_entry s pg Hs Hp) as Hsl. destruct (table_at s (pg / 512)) as [c|] eqn:Ec.
  - destruct Hsl as (-> & t & e & Er & E & Een). cbn [obind]. unfold call_entry. rewrite Er. cbn [obind]. rewrite E. cbn [deref obind looks]. rewrite (write_pt_id _ _ t e s Er E).
    unfold look. rewrite Een. change (default zero_pte (Some e)) with e. rewrite (test_core f Hf). destruct (f e); cbn [negb]; [|by rewrite Z.add_0_r].
    rewrite IH by lia. do 2 f_equal. lia.
  - destruct Hsl as (-> & Een). cbn [obind]. unfold look. rewrite Een. rewrite (test_free f Hf) by done. by rewrite Z.add_0_r.
Qed.

(** Ranges the spaces are asked for: [pg] is the first page. *)
Definition good_range (base n pg : Z) : Prop := 0 < base /\ base mod PAGE_SIZE = 0 /\ 0 < n /\ truth (Z.shiftr (LOWADDR base) 39) = false /\ pg = page_of base.

Lemma iterate_looks f base n pg s : test f -> shape s -> good_range base n pg -> imp_iterate (looks f) base n s = Ok (passing f s (Z.to_nat n) pg, s).
Proof.
  intros Hf Hs (H1 & H2 & H3 & H4 & ->). rewrite iterate_pages_eq by done. rewrite H4. rewrite visit_looks; [done..|]. by apply page_indices.
Qed.

(** ** The second pass *)

Lemma holds_grow others fixed F s s' pg x : holds others fixed F s -> is_pg pg -> frame_at s pg = None ->
  (forall q, is_pg q -> frame_at s' q = if decide (q = pg) then Some x else frame_at s q) -> x ∉ others ∪ dom (pages s) ∪ F ->
  dom (pages s') = dom (pages s) -> good ({[x]} ∪ (others ∪ dom (pages s) ∪ F)) (pm s') -> used_pages s' = used_pages s -> holds others (fixed - 1) ({[x]} ∪ F) s'.
Proof.
  intros Hh Hp Hn Hfr Hx Hdom Hg Hu. destruct (ho_disj _ _ _ _ Hh) as (D1 & D2 & D3).
  assert (HxF : forall q, is_pg q -> frame_at s q <> Some x) by (intros q Hq E; apply Hx, elem_of_union; right; apply (ho_frame _ _ _ _ Hh); by exists q).
  constructor.
  - intros y. rewrite elem_of_union, elem_of_singleton, (ho_frame _ _ _ _ Hh). split.
    + intros [->|(q & Hq & E)]; [exists pg|exists q]; (split; [done|]); rewrite Hfr by done; [by rewrite decide_True|]. rewrite decide_False; [done|]. intros ->. congruence.
    + intros (q & Hq & E). rewrite Hfr in E by done. case_decide; [left; congruence|right; by exists q].
  - intros q q' y Hq Hq'. rewrite !Hfr by done. repeat case_decide; intros; simplify_eq; try done; try (by destruct (HxF q)); try (by destruct (HxF q')). by apply (ho_inj _ _ _ _ Hh _ _ y).
  - rewrite Hdom. set_solver.
  - rewrite Hdom. replace (others ∪ dom (pages s) ∪ ({[x]} ∪ F)) with ({[x]} ∪ (others ∪ dom (pages s) ∪ F)) by set_solver. done.
  - rewrite Hu, (ho_used _ _ _ _ Hh), Hdom, size_union, size_singleton by set_solver. f_equal. lia.
Qed.

Lemma own_commit u x e : bypass e = false -> 0 < x -> own (commit_pte u x e) = Some x.
Proof. intros Hb Hx. unfold own, mapped. cbn. by rewrite Hb, truth_pos. Qed.

Lemma commit_step others fixed F s pg addr u : in_order others fixed F s -> is_pg pg -> can_commit (look s pg) = true -> 0 < promised (pm s) ->
  exists tp k x s', slot s pg = Ok (Some (tp, k)) /\ call_entry (commit_page u) tp k addr s = Ok (true, s') /\ in_order others (fixed - 1) ({[x]} ∪ F) s' /\
    x ∉ others ∪ dom (pages s) ∪ F /\ dom (pages s') = dom (pages s) /\ promised (pm s') = promised (pm s) - 1 /\ used_pages s' = used_pages s /\
    (forall q, is_pg q -> look s' q = if decide (q = pg) then commit_pte u x (look s pg) else look s q).
Proof.
  intros [Hs Hh] Hp Hcan Hpr. destruct (page_split pg Hp) as (Ht & Hk & Epg). pose proof (slot_entry s pg Hs Hp) as Hsl.
  destruct (table_at s (pg / 512)) as [c|] eqn:Ec.
  2:{ destruct Hsl as [_ En]. unfold look in Hcan. by rewrite En in Hcan. }
  destruct Hsl as [Esl _]. destruct (read_pte_at s _ c _ Hs Ht Hk Ec) as (t & e & L & Er & Een & Hok & E & El). rewrite <- Epg in El.
  assert (Hc : can_commit e = true) by (rewrite <- (test_core _ can_commit_test), <- El; done).
  destruct (allocate_take _ _ (ho_good _ _ _ _ Hh) Hpr) as (pa & p & Ea & Hpr' & Ho). destruct (handed_out_page _ _ _ Ho) as (x & -> & Hx0 & _ & _ & Ex & Ew & Hx & Hg).
  assert (Hfe : is_free e = false /\ bypass e = false /\ present e = false).
  { unfold can_commit in Hc. unfold is_free. destruct (preserve e), (bypass e), (present e); done. } destruct Hfe as (Hfe & Hbe & Hpe).
  destruct (entry_step s (pg / 512) c t L (pg mod 512) e (commit_pte u x e) p Hs Ht Hk Ec Er Hok E Hfe eq_refl) as (Hs' & Hdom & Hlook). rewrite <- Epg in Hlook.
  exists (pt_addr c), (pg mod 512), x. eexists. split; [done|]. split; [unfold call_entry; rewrite Er; cbn [obind]; rewrite E; cbn [deref obind]; unfold commit_page; rewrite Hc; cbn [ensure obind]; rewrite Ea; cbn [obind]; rewrite Ex, Ew; reflexivity|].
  assert (Hlk : forall q, is_pg q -> look (set_pm p (write_pt (pt_addr c) (<[pg mod 512:=commit_pte u x e]> t) s)) q = if decide (q = pg) then commit_pte u x (look s pg) else look s q).
  { intros q Hq. rewrite Hlook by done. case_decide; [|done]. rewrite El. by destruct e. }
  split; [split; [done|]|by do 4 (split; [done|])].
  apply (holds_grow others fixed F s _ pg x); try done.
  - unfold frame_at. rewrite El, own_core. unfold own, mapped. by rewrite Hpe.
  - intros q Hq. unfold frame_at. rewrite Hlk by done. case_decide; [|done]. apply own_commit; [|done]. rewrite El. exact Hbe.
Qed.

(** The pages of the range have pages of the machine behind them now that nobody had. *)
Definition pages_committed (u : bool) (others F : gset Z) (s s' : vspace) (first count : Z) (F' : gset Z) : Prop :=
  forall q, is_pg q -> if decide (first <= q < first + count) then exists x, x ∈ F' /\ x ∉ others ∪ dom (pages s) ∪ F /\ look s' q = commit_pte u x (look s q) else look s' q = look s q.

Lemma visit_commit u n others fixed F s pg addr count : in_order others fixed F s ->
  (forall q, pg <= q < pg + Z.of_nat n -> is_pg q /\ can_commit (look s q) = true) -> Z.of_nat n <= promised (pm s) ->
  exists F' s', visit (commit_page u) n pg addr count s = Ok (count + Z.of_nat n, s') /\ in_order others (fixed - Z.of_nat n) F' s' /\ F ⊆ F' /\
    dom (pages s') = dom (pages s) /\ promised (pm s') = promised (pm s) - Z.of_nat n /\ used_pages s' = used_pages s /\ pages_committed u others F s s' pg (Z.of_nat n) F'.
Proof.
  revert fixed F s pg addr count. induction n as [|n IH]; intros fixed F s pg addr count Ho Hall Hpr; cbn [visit].
  - exists F, s. rewrite Z.add_0_r, !Z.sub_0_r. do 6 (split; [done|]). intros q Hq. rewrite decide_False by lia. done.
  - destruct (Hall pg ltac:(lia)) as [Hp Hc]. destruct (commit_step others fixed F s pg addr u Ho Hp Hc ltac:(lia)) as (tp & k & x & s1 & Esl & Ecl & Ho1 & Hx & Hd1 & Hpr1 & Hu1 & Hl1).
    rewrite Esl. cbn [obind]. rewrite Ecl. cbn [obind negb].
    destruct (IH (fixed - 1) ({[x]} ∪ F) s1 (pg + 1) (w64 (addr + PAGE_SIZE)) (count + 1) Ho1) as (F' & s2 & Ev & Ho2 & Hsub & Hd2 & Hpr2 & Hu2 & Hl2); [|lia|].
    { intros q Hq. destruct (Hall q ltac:(lia)) as [Hq1 Hq2]. split; [done|]. rewrite Hl1 by done. by rewrite decide_False by lia. }
    exists F', s2. rewrite Ev. split; [do 2 f_equal; lia|]. replace (fixed - Z.of_nat (S n)) with (fixed - 1 - Z.of_nat n) by lia. split; [done|].
    split; [set_solver|]. split; [by rewrite Hd2|]. split; [lia|]. split; [congruence|]. intros q Hq. specialize (Hl2 q Hq). rewrite Hl1, Hd1 in Hl2 by done.
    destruct (decide (q = pg)) as [->|].
    + rewrite decide_False in Hl2 by lia. rewrite decide_True by lia. exists x. split; [set_solver|done].
    + case_decide; [rewrite decide_True by lia|by rewrite decide_False by lia]. destruct Hl2 as (y & Hy & Hny & E). exists y. split; [done|]. split; [set_solver|done].
Qed.

Lemma protect_step others fixed F s pg addr u attrib : in_order others fixed F s -> is_pg pg -> can_protect u (look s pg) = true ->
  exists tp k s', slot s pg = Ok (Some (tp, k)) /\ call_entry (protect_page u attrib) tp k addr s = Ok (true, s') /\ in_order others fixed F s' /\ pm s' = pm s /\
    (forall q, is_pg q -> look s' q = if decide (q = pg) then set_attrib attrib (look s pg) else look s q).
Proof.
  intros [Hs Hh] Hp Hcan. destruct (page_split pg Hp) as (Ht & Hk & Epg). pose proof (slot_entry s pg Hs Hp) as Hsl.
  destruct (table_at s (pg / 512)) as [c|] eqn:Ec.
  2:{ destruct Hsl as [_ En]. unfold look in Hcan. by rewrite En in Hcan. }
  destruct Hsl as [Esl _]. destruct (read_pte_at s _ c _ Hs Ht Hk Ec) as (t & e & L & Er & Een & Hok & E & El). rewrite <- Epg in El.
  assert (Hc : can_protect u e = true) by (rewrite <- (test_core _ (can_protect_test u)), <- El; done).
  assert (Hfe : is_free e = false) by (unfold can_protect in Hc; unfold is_free; by destruct (present e)).
  destruct (entry_step s (pg / 512) c t L (pg mod 512) e (set_attrib attrib e) (pm s) Hs Ht Hk Ec Er Hok E Hfe) as (Hs' & Hdom & Hlook); [by destruct e|]. rewrite <- Epg in Hlook.
  exists (pt_addr c), (pg mod 512). eexists. split; [done|]. split; [unfold call_entry; rewrite Er; cbn [obind]; rewrite E; cbn [deref obind]; unfold protect_page; rewrite Hc; cbn [ensure obind]; reflexivity|].
  assert (Hlk : forall q, is_pg q -> look (set_pm (pm s) (write_pt (pt_addr c) (<[pg mod 512:=set_attrib attrib e]> t) s)) q = if decide (q = pg) then set_attrib attrib (look s pg) else look s q).
  { intros q Hq. rewrite Hlook by done. case_decide; [|done]. rewrite El. by destruct e. }
  split; [split; [done|]|done]. apply (holds_same others fixed F s); [done| |done|done|apply Hh].
  intros q Hq. unfold frame_at. rewrite Hlk by done. case_decide; [|done]. subst q. by destruct (look s pg).
Qed.

Definition pages_protected (attrib : Z) (s s' : vspace) (first count : Z) : Prop :=
  forall q, is_pg q -> look s' q = if decide (first <= q < first + count) then set_attrib attrib (look s q) else look s q.

Lemma visit_protect u attrib n others fixed F s pg addr count : in_order others fixed F s -> (forall q, pg <= q < pg + Z.of_nat n -> is_pg q /\ can_protect u (look s q) = true) ->
  exists s', visit (protect_page u attrib) n pg addr count s = Ok (count + Z.of_nat n, s') /\ in_order others fixed F s' /\ pm s' = pm s /\ pages_protected attrib s s' pg (Z.of_nat n).
Proof.
  revert s pg addr count. induction n as [|n IH]; intros s pg addr count Ho Hall; cbn [visit].
  - exists s. rewrite Z.add_0_r. do 3 (split; [done|]). intros q Hq. by rewrite decide_False by lia.
  - destruct (Hall pg ltac:(lia)) as [Hp Hc]. destruct (protect_step others fixed F s pg addr u attrib Ho Hp Hc) as (tp & k & s1 & Esl & Ecl & Ho1 & Hpm1 & Hl1).
    rewrite Esl. cbn [obind]. rewrite Ecl. cbn [obind negb].
    destruct (IH s1 (pg + 1) (w64 (addr + PAGE_SIZE)) (count + 1) Ho1) as (s2 & Ev & Ho2 & Hpm2 & Hl2).
    { intros q Hq. destruct (Hall q ltac:(lia)) as [Hq1 Hq2]. split; [done|]. rewrite Hl1 by done. by rewrite decide_False by lia. }
    exists s2. rewrite Ev. split; [do 2 f_equal; lia|]. split; [done|]. split; [congruence|]. intros q Hq. rewrite Hl2, Hl1 by done.
    destruct (decide (q = pg)) as [->|]; [rewrite decide_False, decide_True by lia; done|]. repeat case_decide; try lia; done.
Qed.

(** ** [commit] and [protect] *)

Lemma commit_range_ok u others fixed F s base n pg : in_order others fixed F s -> good_range base n pg -> n < 2 ^ 32 ->
  exists b F' s', commit_range u base n s = Ok (b, s') /\ in_order others fixed F' s' /\ dom (pages s') = dom (pages s) /\
    if b then promised (pm s') = promised (pm s) /\ (forall q, pg <= q < pg + n -> is_pg q /\ can_commit (look s q) = true) /\ F ⊆ F' /\ pages_committed u others F s s' pg n F'
    else F' = F /\ quiet s s' /\ promised (pm s') = promised (pm s) /\ pages s' = pages s /\ pdpt s' = pdpt s.
Proof.
  intros Ho Hg Hn. pose proof Ho as [Hs Hh]. pose proof Hg as (H1 & H2 & H3 & H4 & Epg). unfold commit_range. rewrite (iterate_looks _ _ _ pg) by (done || apply can_commit_test). cbn [obind].
  destruct (Z.eqb_spec (passing can_commit s (Z.to_nat n) pg) n) as [En|En]; cbn [negb]; [|by exists false, F, s].
  assert (Hall : forall q, pg <= q < pg + Z.of_nat (Z.to_nat n) -> is_pg q /\ can_commit (look s q) = true) by (apply passing_all; lia).
  destruct (reserve_pages _ _ n (ho_good _ _ _ _ Hh) ltac:(lia)) as (b & p & Er & Hgp & Hpr). rewrite Er. cbn [obind].
  pose proof (set_pm_shape p s Hs) as Hs1. pose proof (set_pm_holds others fixed F p s Hh Hgp) as Hh1.
  destruct b; cbn [negb].
  2:{ exists false, F, (set_pm p s). split; [done|]. split; [done|]. split; [done|]. split; [done|]. split; [done|]. split; [cbn; lia|done]. }
  pose proof (promised_nonneg _ _ (ho_good _ _ _ _ Hh)) as Hnn.
  rewrite iterate_pages_eq by done. rewrite H4, <- Epg.
  destruct (visit_commit u (Z.to_nat n) others fixed F (set_pm p s) pg base 0 (conj Hs1 Hh1) Hall) as (F' & s' & Ev & [Hs' Hh'] & Hsub & Hd & Hpr' & Hu & Hcm); [cbn; lia|].
  rewrite Ev. cbn [obind]. rewrite Z.add_0_l, Z2Nat.id, Z.eqb_refl by lia. cbn [negb]. rewrite Z2Nat.id in * by lia.
  exists true, F', (set_used (w64 (used_pages s' + n)) s'). split; [done|]. split; [split; [by apply set_used_shape|]|].
  - destruct Hh' as [A1 A2 A3 A4 A5]. constructor; try done. cbn. rewrite A5. unfold wrap. rewrite Zplus_mod_idemp_l. f_equal. lia.
  - split; [done|]. split; [cbn in *; lia|]. done.
Qed.

Lemma protect_range_ok u others fixed F s base n pg attrib : in_order others fixed F s -> good_range base n pg ->
  exists b s', protect_range u base n attrib s = Ok (b, s') /\ in_order others fixed F s' /\ pm s' = pm s /\
    if b then (forall q, pg <= q < pg + n -> is_pg q /\ can_protect u (look s q) = true) /\ pages_protected attrib s s' pg n
    else s' = s /\ ~ (forall q, pg <= q < pg + n -> is_pg q /\ can_protect u (look s q) = true).
Proof.
  intros Ho Hg. pose proof Ho as [Hs Hh]. pose proof Hg as (H1 & H2 & H3 & H4 & Epg). unfold protect_range. rewrite (iterate_looks _ _ _ pg) by (done || apply can_protect_test). cbn [obind].
  pose proof (passing_all (can_protect u) s (Z.to_nat n) pg) as Hiff. rewrite Z2Nat.id in Hiff by lia.
  destruct (Z.eqb_spec (passing (can_protect u) s (Z.to_nat n) pg) n) as [En|En]; cbn [negb].
  2:{ exists false, s. split; [done|]. split; [done|]. split; [done|]. split; [done|]. intros Hx. by apply En, Hiff. }
  pose proof (proj1 Hiff En) as Hall. rewrite iterate_pages_eq by done. rewrite H4, <- Epg.
  destruct (visit_protect u attrib (Z.to_nat n) others fixed F s pg base 0 Ho) as (s' & Ev & Ho' & Hpm & Hl); [by rewrite Z2Nat.id by lia|].
  rewrite Ev. cbn [obind]. rewrite Z.add_0_l, Z2Nat.id, Z.eqb_refl by lia. cbn [negb]. rewrite Z2Nat.id in * by lia. by exists true, s'.
Qed.

(** ** Walking over a range, table by table *)

Lemma page_split_at q i j : is_dir i -> 0 <= j < 512 -> q / 512 = i * 512 + j -> is_tb (q / 512) /\ q / 512 / 512 = i /\ q / 512 mod 512 = j.
Proof. intros Hi Hj E. rewrite E. by apply tb_join. Qed.

(** Taken pages lie in a table. *)
Lemma taken_table s q : is_pg q -> is_free (look s q) = false -> exists c, table_at s (q / 512) = Some c.
Proof. intros Hq Hf. unfold look, entry, entries_at in Hf. destruct (table_at s (q / 512)) as [c|]; [by exists c|done]. Qed.

Lemma table_dir s tb c : table_at s tb = Some c -> exists dp, dir_at s (tb / 512) = Some dp.
Proof. intros (E & _)%table_at_is. unfold pdte_at in E. destruct (dir_at s (tb / 512)) as [dp|]; [by exists dp|done]. Qed.

Lemma dir_at_pdpt s s' i : pdpt s' = pdpt s -> dir_at s' i = dir_at s i.
Proof. intros E. unfold dir_at. by rewrite E. Qed.

Section Range.
Context (others : gset Z) (fixed : Z) (base n p0 : Z).
Context (Hg : good_range base n p0) (Hb : base < 2 ^ 64) (Hend : p0 + n <= 2 ^ 27).
#[local] Set Default Proof Using "All".

Lemma range_start : 0 <= p0 /\ 0 < n.
Proof. destruct Hg as (_ & _ & H3 & H4 & ->). pose proof (page_indices base H4) as [? _]. lia. Qed.

(** The address of a page of the range: no wrap-around, and the index the code takes from it. *)
Lemma addr_at count : 0 <= count <= n -> let addr := base + PAGE_SIZE * count in
  w64 addr = addr /\ 0 < addr /\ Z.land (Z.shiftr addr 12) 0x1FF = (p0 + count) mod 512.
Proof.
  destruct Hg as (H1 & H2 & H3 & H4 & ->). intros Hc addr. unfold addr, page_of, PAGE_SIZE in *. rewrite index_bits by lia. rewrite LOWADDR_mod in *.
  unfold truth in H4. rewrite Z.shiftr_div_pow2 in H4 by lia. apply negb_false_iff, Z.eqb_eq in H4.
  change (2 ^ 27) with 134217728 in *. change (2 ^ 12) with 4096. change (2 ^ 39) with 549755813888 in *. change (2 ^ 47) with 140737488355328 in *.
  change (2 ^ 64) with 18446744073709551616 in *. clear H.
  assert (base + 4096 * count < 18446744073709551616) by dlia. split; [apply wrap_small; lia|]. split; [lia|]. clear H Hend Hb. dlia.
Qed.

(** The loop stands at table [j] of directory [i], and, after the first part, at its beginning. *)
Definition stands (count i j : Z) : Prop := (p0 + count) / 512 = i * 512 + j /\ (count = 0 \/ (p0 + count) mod 512 = 0).

(** Where the loop is after the part of the range that lies in one table. *)
Lemma next_table count i j : is_dir i -> 0 <= j < 512 -> 0 <= count < n -> stands count i j ->
  let off := (p0 + count) mod 512 in let size := Z.min (n - count) (512 - off) in
  0 < size /\ off + size <= 512 /\ count + size <= n /\ (j + 1 < 512 -> count + size < n -> stands (count + size) i (j + 1)) /\
  (j + 1 = 512 -> count + size < n -> p0 + (count + size) = (i + 1) * 2 ^ 18).
Proof. pose proof range_start. intros Hi Hj Hc [E _] off size. unfold off, size, stands. clear Hg. change (2 ^ 18) with 262144. split_and!; intros; dlia. Qed.

Section Release.
Context (F : gset Z) (s0 : vspace).
Context (Hrel : forall q, p0 <= q < p0 + n -> releasable (look s0 q) = true) (Htrio : trio (free_page s0 (p0 / 512)) (p0 mod 512) = false).

Definition released_upto (count : Z) (s : vspace) : Prop :=
  exists F', in_order others fixed F' s /\ F' ⊆ F /\ pages_released s0 s p0 count /\ promised (pm s) = promised (pm s0).

(** What a piece sees is what was there at the start. *)
Lemma released_ahead count s q : released_upto count s -> is_pg q -> p0 + count <= q -> look s q = look s0 q.
Proof. intros (F' & _ & _ & Hl & _) Hq Hc. rewrite Hl by done. by rewrite decide_False by lia. Qed.

Lemma release_turn count s i j : released_upto count s -> is_dir i -> 0 <= j < 512 -> 0 <= count < n -> stands count i j ->
  let off := (p0 + count) mod 512 in let size := Z.min (n - count) (512 - off) in
  exists dp c s', dir_at s i = Some dp /\ read_pdte dp j s = Ok c /\ d_bypass c = false /\ d_present c = true /\
    release_table dp j (pt_addr c) (base + PAGE_SIZE * count) size s = Ok s' /\ released_upto (count + size) s' /\ pdpt s' = pdpt s.
Proof.
  intros Hu Hi Hj Hc Hst off size. pose proof Hst as [E Hal]. destruct (next_table count i j Hi Hj Hc Hst) as (Hs1 & Hs2 & Hs3 & _). fold off size in Hs1, Hs2, Hs3. pose proof range_start as [Hp0 _].
  assert (Hpg : is_pg (p0 + count)) by (unfold is_pg; lia). pose proof Hu as (F' & [Hs Hh] & Hsub & Hl & Hpr).
  destruct (page_split_at _ i j Hi Hj E) as (Ht & Ei & Ej). set (tb := (p0 + count) / 512) in *.
  assert (Epg : p0 + count = tb * 512 + off) by (by apply page_split).
  destruct (taken_table s (p0 + count) Hpg) as [c Hcc]; [rewrite (released_ahead count s) by (done || lia); apply releasable_not_free, Hrel; lia|]. fold tb in Hcc.
  destruct (table_dir s tb c Hcc) as [dp Hd]. destruct (table_at_is _ _ _ Hcc) as (Ecc & H1 & H2). destruct (read_pdte_at s tb dp Hs Ht Hd) as (c' & Er & Ec').
  assert (c' = c) as -> by congruence. rewrite Ei in Hd. rewrite Ej in Er.
  destruct (addr_at count ltac:(lia)) as (_ & Ha & Hoff).
  destruct (release_piece others fixed F' s tb dp c (base + PAGE_SIZE * count) off size Hs Hh Ht Hcc) as (F2 & s' & Erel & Hs' & Hh' & Hsub' & Hl' & Hpr' & Hpd & _); [by rewrite Ei|done|done|lia|lia| | |].
  - intros k Hk. rewrite (released_ahead count s) by (done || unfold is_pg; lia). apply Hrel. lia.
  - destruct (decide (count = 0)) as [->|Hne].
    + assert (Eo : off = p0 mod 512) by (unfold off; f_equal; lia). assert (Etb : tb = p0 / 512) by (unfold tb; f_equal; lia).
      rewrite Eo, Etb. rewrite Etb in Ht. rewrite (trio_ext _ (free_page s0 (p0 / 512))); [done|]. intros k. unfold free_page.
      destruct (decide (0 <= k < 512)) as [Hk|]; [|by rewrite !bool_decide_eq_false_2 by done]. rewrite Hl by (by apply page_join). by rewrite decide_False by lia.
    + destruct Hal as [?|Hal]; [done|]. assert (off = 0) as -> by done. unfold trio, free_page. by rewrite (bool_decide_eq_false_2 (0 <= 0 - 1 < 512)) by lia.
  - exists dp, c, s'. rewrite Ej in Erel. do 5 (split; [done|]). split; [|done]. exists F2. split; [done|]. split; [set_solver|]. split; [|congruence].
    intros q Hq. rewrite Hl', Hl by done. repeat case_decide; try lia; done.
Qed.

Lemma release_pdt_ok fuel i j count s dp : released_upto count s -> is_dir i -> dir_at s i = Some dp -> 0 <= j < 512 -> 512 - j < Z.of_nat fuel -> 0 <= count <= n ->
  (count < n -> stands count i j) ->
  exists j' count' s', release_pdt fuel dp j (base + PAGE_SIZE * count) count n s = Ok (j', base + PAGE_SIZE * count', count', s') /\
    released_upto count' s' /\ pdpt s' = pdpt s /\ 0 <= count' <= n /\ (count' < n -> j' = 0 /\ p0 + count' = (i + 1) * 2 ^ 18).
Proof.
  revert j count s. induction fuel as [|fuel IH]; intros j count s Hu Hi Hd Hj Hf Hc E; [lia|]. cbn [release_pdt]. destruct (Z.ltb_spec count n) as [Hlt|Hge].
  2:{ exists j, count, s. do 4 (split; [done|]). lia. }
  destruct (release_turn count s i j Hu Hi Hj ltac:(lia) (E Hlt)) as (dp' & c & s1 & Hd' & Er & Hby & Hpr & Erel & Hu1 & Hpd). assert (dp' = dp) as -> by congruence.
  destruct (next_table count i j Hi Hj ltac:(lia) (E Hlt)) as (Hs1 & Hs2 & Hs3 & Hn1 & Hn2). destruct (addr_at count ltac:(lia)) as (_ & _ & Hoff).
  rewrite Er. cbn [obind]. rewrite Hby, Hpr. cbn [orb negb]. change 0x200 with 512. rewrite Hoff, Erel. cbn [obind].
  set (size := Z.min (n - count) (512 - (p0 + count) mod 512)) in *.
  destruct (addr_at (count + size) ltac:(lia)) as (Ew & _). replace (base + PAGE_SIZE * count + PAGE_SIZE * size) with (base + PAGE_SIZE * (count + size)) by lia. rewrite Ew.
  destruct (Z.eqb_spec (j + 1) 512) as [Ej|Ej].
  - exists 0, (count + size), s1. do 3 (split; [done|]). split; [lia|]. auto.
  - destruct (IH (j + 1) (count + size) s1 Hu1 Hi) as (j' & count' & s' & E' & Hu' & Hpd' & Hc'); [by rewrite (dir_at_pdpt s)|lia|lia|lia|intros; apply Hn1; lia|].
    exists j', count', s'. split; [done|]. split; [done|]. split; [congruence|done].
Qed.

Lemma release_pdpt_ok fuel i j count s : released_upto count s -> is_dir i -> 0 <= j < 512 -> 512 - i < Z.of_nat fuel -> 0 <= count <= n ->
  (count < n -> stands count i j) ->
  exists s', release_pdpt fuel i j (base + PAGE_SIZE * count) count n s = Ok (true, s') /\ released_upto n s'.
Proof.
  revert i j count s. induction fuel as [|fuel IH]; intros i j count s Hu Hi Hj Hf Hc E; [unfold is_dir in Hi; lia|]. cbn [release_pdpt]. destruct (Z.ltb_spec count n) as [Hlt|Hge].
  2:{ assert (count = n) as -> by lia. exists s. by rewrite Z.eqb_refl. }
  destruct (release_turn count s i j Hu Hi Hj ltac:(lia) (E Hlt)) as (dp & _ & _ & Hd & _).
  assert (Hpe : exists e, pdpt s !! i = Some e /\ p_present e = true /\ pdt_addr e = dp).
  { unfold dir_at in Hd. destruct (pdpt s !! i) as [e|]; [|done]. exists e. destruct (p_present e); [|done]. by injection Hd. }
  destruct Hpe as (e & -> & Hpr & Ea). cbn [deref obind]. rewrite Hpr, Ea. cbn [negb].
  destruct (release_pdt_ok 513 i j count s dp Hu Hi Hd Hj ltac:(lia) Hc E) as (j' & count' & s1 & E1 & Hu1 & Hpd1 & Hc1 & Hn1). rewrite E1. cbn [obind].
  unfold is_dir in Hi. change (2 ^ 18) with 262144 in Hn1. change (2 ^ 27) with 134217728 in Hend. change 0x200 with 512.
  destruct (Z.leb_spec 512 (i + 1)).
  - assert (count' = n) as -> by (destruct (decide (count' = n)); [done|]; specialize (Hn1 ltac:(lia)); lia). exists s1. by rewrite Z.eqb_refl.
  - destruct (decide (count' < n)) as [Hl1|Hl1].
    + destruct (Hn1 Hl1) as (-> & Ep). apply IH; [done|unfold is_dir; lia|lia|lia|done|]. intros _. unfold stands. rewrite Ep. clear Hg. split; [|right]; dlia.
    + assert (count' = n) as -> by lia. destruct fuel as [|fuel]; [lia|]. cbn [release_pdpt]. rewrite Z.ltb_irrefl, Z.eqb_refl. by exists s1.
Qed.
End Release.

Section Fixed.
Context (F : gset Z) (s0 : vspace).
Context (Hroom : forall tb, p0 / 512 <= tb <= (p0 + n - 1) / 512 -> exists k, free_page s0 tb k = true).
Context (Hsnag : snag (free_page s0 (p0 / 512)) (p0 mod 512) = false).

Definition reserved_upto (count : Z) (s : vspace) : Prop :=
  in_order others fixed F s /\ pages_reserved s0 s p0 count /\ promised (pm s) = promised (pm s0) /\ forall q, p0 <= q < p0 + count -> is_free (look s0 q) = true.

Lemma reserved_quiet count s s' : reserved_upto count s -> in_order others fixed F s' -> quiet s s' -> promised (pm s') = promised (pm s) -> reserved_upto count s'.
Proof. intros (_ & Hl & Hpr & Hf) Ho Hq Hpr'. split; [done|]. split; [intros q Hq'; rewrite Hq by done; by apply Hl|]. split; [congruence|done]. Qed.

(** The free pages of the table the loop stands at are those of the start. *)
Lemma free_ahead count s k : reserved_upto count s -> is_tb ((p0 + count) / 512) -> count = 0 \/ (p0 + count) mod 512 = 0 ->
  free_page s ((p0 + count) / 512) k = free_page s0 ((p0 + count) / 512) k.
Proof.
  intros (_ & Hl & _) Ht Hal. unfold free_page. destruct (decide (0 <= k < 512)) as [Hk|]; [|by rewrite !bool_decide_eq_false_2 by done].
  rewrite Hl by (by apply page_join). rewrite decide_False; [done|]. clear Hg. destruct Hal as [->|Hal]; [lia|]. dlia.
Qed.

Lemma fixed_turn count s i j dp : reserved_upto count s -> is_dir i -> dir_at s i = Some dp -> 0 <= j < 512 -> 0 <= count < n -> stands count i j ->
  let off := (p0 + count) mod 512 in let size := Z.min (n - count) (512 - off) in
  exists c, read_pdte dp j s = Ok c /\ (d_bypass c = false -> exists o s1, open_pt dp j NONE s = Ok (o, s1) /\ reserved_upto count s1 /\ pdpt s1 = pdpt s /\
    forall tp, o = Some tp -> exists b s2, on_table (fun cur t => imp_reserve_fixed cur t off size) dp j tp s1 = Ok (b, s2) /\ pdpt s2 = pdpt s /\ reserved_upto (if b then count + size else count) s2).
Proof.
  intros Hu Hi Hd Hj Hc Hst off size. pose proof Hst as [E Hal]. destruct (next_table count i j Hi Hj Hc Hst) as (Hs1 & Hs2 & Hs3 & _). fold off size in Hs1, Hs2, Hs3. pose proof range_start as [Hp0 _].
  assert (Hpg : is_pg (p0 + count)) by (unfold is_pg; lia). pose proof Hu as ([Hs Hh] & Hl & Hpr & Hfree).
  destruct (page_split_at _ i j Hi Hj E) as (Ht & Ei & Ej). set (tb := (p0 + count) / 512) in *.
  assert (Epg : p0 + count = tb * 512 + off) by (by apply page_split). rewrite <- Ei in Hd. rewrite <- Ej.
  destruct (read_pdte_at s tb dp Hs Ht Hd) as (c & Er & Ec). exists c. split; [done|]. intros Hby.
  destruct (open_pt_ok others fixed F s tb dp NONE c Hs Hh Ht Hd Ec Hby) as (o & s1 & Eo & Hs1' & Hh1 & Hq1 & Hpr1 & Hpd1 & _ & Hm); [by right|].
  assert (Hu1 : reserved_upto count s1).
  { apply (reserved_quiet count s); [done|by split|done|]. rewrite Hpr1. rewrite bool_decide_eq_false_2 by done. cbn. lia. }
  exists o, s1. split; [done|]. split; [done|]. split; [done|]. intros tp ->. destruct Hm as (c1 & Hc1 & Ea).
  assert (Hd1 : dir_at s1 (tb / 512) = Some dp) by (by rewrite (dir_at_pdpt s)).
  destruct (fixed_piece others fixed F s1 tb dp c1 off size Hs1' Hh1 Ht Hc1 Hd1) as (b & s2 & Eon & Hs2' & Hh2 & Hpm2 & Hpd2 & _ & Hb2).
  - destruct (Hroom tb) as [k Hk]; [unfold tb; clear Hg; split; apply Z.div_le_mono; lia|]. exists k. by rewrite (free_ahead count).
  - rewrite (snag_ext _ (free_page s0 tb)) by (intros; by apply (free_ahead count)). destruct Hal as [E0|E0].
    + unfold off, tb. rewrite E0, Z.add_0_r. done.
    + assert (off = 0) as -> by done. unfold snag, free_page. rewrite (bool_decide_eq_false_2 (0 <= 0 - 1 < 512)) by lia. cbn. by rewrite andb_false_r.
  - unfold off. apply Z.mod_pos_bound. lia.
  - lia.
  - lia.
  - exists b, s2. rewrite <- Ea. split; [done|]. split; [congruence|]. destruct b.
    + destruct Hb2 as [Hf2 Hl2]. rewrite <- Epg in Hl2. destruct Hu1 as (_ & Hl1 & Hpr1' & _). split; [by split|]. split; [|split; [congruence|]].
      * intros q Hq. rewrite Hl2, Hl1 by done. repeat case_decide; try lia; done.
      * intros q Hq. destruct (decide (q < p0 + count)); [apply Hfree; lia|]. specialize (Hf2 (q - tb * 512) ltac:(lia)). replace (tb * 512 + (q - tb * 512)) with q in Hf2 by lia.
        rewrite Hl1 in Hf2 by (unfold is_pg; lia). by rewrite decide_False in Hf2 by lia.
    + destruct Hb2 as [Hq2 _]. apply (reserved_quiet count s1); [done|by split|done|by rewrite Hpm2].
Qed.

Definition rolls_back (r : Z + Z * Z * Z) (i : Z) (s' : vspace) : Prop :=
  match r with
  | inl count' => 0 <= count' < n /\ reserved_upto count' s'
  | inr (j', addr', count') => addr' = base + PAGE_SIZE * count' /\ 0 <= count' <= n /\ reserved_upto count' s' /\ (count' < n -> j' = 0 /\ p0 + count' = (i + 1) * 2 ^ 18)
  end.

Lemma fixed_pdt_ok fuel i j count s dp : reserved_upto count s -> is_dir i -> dir_at s i = Some dp -> 0 <= j < 512 -> 512 - j < Z.of_nat fuel -> 0 <= count <= n ->
  (count < n -> stands count i j) ->
  exists r s', fixed_pdt fuel dp j (base + PAGE_SIZE * count) count n s = Ok (r, s') /\ rolls_back r i s'.
Proof.
  revert j count s. induction fuel as [|fuel IH]; intros j count s Hu Hi Hd Hj Hf Hc E; [lia|]. cbn [fixed_pdt]. destruct (Z.ltb_spec count n) as [Hlt|Hge].
  2:{ exists (inr (j, base + PAGE_SIZE * count, count)), s. split; [done|]. cbn. split; [done|]. split; [lia|]. split; [done|lia]. }
  destruct (fixed_turn count s i j dp Hu Hi Hd Hj ltac:(lia) (E Hlt)) as (c & Er & Hop). rewrite Er. cbn [obind].
  destruct (next_table count i j Hi Hj ltac:(lia) (E Hlt)) as (Hs1 & Hs2 & Hs3 & Hn1 & Hn2). destruct (addr_at count ltac:(lia)) as (_ & _ & Hoff).
  destruct (d_bypass c); [exists (inl count), s; split; [done|]; cbn; split; [lia|done]|].
  destruct (Hop eq_refl) as (o & s1 & Eo & Hu1 & Hpd1 & Hon). rewrite Eo. cbn [obind]. destruct o as [tp|]; [|exists (inl count), s1; split; [done|]; cbn; split; [lia|done]].
  change 0x200 with 512. rewrite Hoff. destruct (Hon tp eq_refl) as (b & s2 & E2 & Hpd2 & Hu2). rewrite E2. cbn [obind].
  set (size := Z.min (n - count) (512 - (p0 + count) mod 512)) in *.
  destruct b; cbn [negb]; [|exists (inl count), s2; split; [done|]; cbn; split; [lia|done]].
  destruct (addr_at (count + size) ltac:(lia)) as (Ew & _). replace (base + PAGE_SIZE * count + PAGE_SIZE * size) with (base + PAGE_SIZE * (count + size)) by lia. rewrite Ew.
  destruct (Z.eqb_spec (j + 1) 512) as [Ej|Ej].
  - exists (inr (0, base + PAGE_SIZE * (count + size), count + size)), s2. split; [done|]. cbn. split; [done|]. split; [lia|]. split; [done|]. auto.
  - apply IH; [done|done|by rewrite (dir_at_pdpt s)|lia|lia|lia|]. intros Hx. apply Hn1; [lia|done].
Qed.

Lemma fixed_pdpt_ok fuel i j count s : reserved_upto count s -> is_dir i -> 0 <= j < 512 -> 512 - i < Z.of_nat fuel -> 0 <= count <= n ->
  (count < n -> stands count i j) ->
  exists count' s', fixed_pdpt fuel i j (base + PAGE_SIZE * count) count n s = Ok (count', s') /\ 0 <= count' <= n /\ reserved_upto count' s'.
Proof.
  revert i j count s. induction fuel as [|fuel IH]; intros i j count s Hu Hi Hj Hf Hc E; [unfold is_dir in Hi; lia|]. cbn [fixed_pdpt]. destruct (Z.ltb_spec count n) as [Hlt|Hge]; [|by exists count, s].
  pose proof Hu as ([Hs Hh] & _). destruct (open_pdt_ok others fixed F s i Hs Hh Hi) as (o & s1 & Eo & Hs1 & Hh1 & Hq1 & Hpr1 & Hd1 & _). rewrite Eo. cbn [obind].
  assert (Hu1 : reserved_upto count s1) by (by apply (reserved_quiet count s)).
  destruct o as [dp|]; [|by exists count, s1]. destruct (Hd1 dp eq_refl) as [Hd _].
  destruct (fixed_pdt_ok 513 i j count s1 dp Hu1 Hi Hd Hj ltac:(lia) Hc E) as (r & s2 & E2 & Hr). rewrite E2. cbn [obind]. destruct r as [count'|[[j' addr'] count']]; cbn in Hr.
  { exists count', s2. split; [done|]. split; [lia|apply Hr]. }
  destruct Hr as (-> & Hc1 & Hu2 & Hn1). unfold is_dir in Hi. change (2 ^ 18) with 262144 in Hn1. change (2 ^ 27) with 134217728 in Hend. change 0x200 with 512.
  destruct (Z.leb_spec 512 (i + 1)); [by exists count', s2|].
  destruct (decide (count' < n)) as [Hl1|Hl1].
  - destruct (Hn1 Hl1) as (-> & Ep). apply IH; [done|unfold is_dir; lia|lia|lia|done|]. intros _. unfold stands. rewrite Ep. clear Hg. split; [|right]; dlia.
  - assert (count' = n) as -> by lia. destruct fuel as [|fuel]; [lia|]. cbn [fixed_pdpt]. rewrite Z.ltb_irrefl. by exists n, s2.
Qed.
End Fixed.
End Range.

(** ** [release] and [reserve] at an address *)



Lemma start_stands base n p0 : good_range base n p0 ->
  is_dir (Z.land (Z.shiftr base 30) 0x1FF) /\ 0 <= Z.land (Z.shiftr base 21) 0x1FF < 512 /\ stands p0 0 (Z.land (Z.shiftr base 30) 0x1FF) (Z.land (Z.shiftr base 21) 0x1FF).
Proof.
  intros (_ & _ & _ & H4 & ->). destruct (page_indices base H4) as [_ E]. rewrite !index_bits in * by lia. unfold is_dir. split; [apply Z.mod_pos_bound; lia|].
  split; [apply Z.mod_pos_bound; lia|]. split; [|by left]. rewrite <- E, Z.add_0_r. unfold pg_of. rewrite Z.div_add_l by lia. rewrite (Z.div_small (base / 2 ^ 12 mod 512)) by (apply Z.mod_pos_bound; lia). lia.
Qed.

Lemma safe_release_ok others fixed F s base n p0 : in_order others fixed F s -> good_range base n p0 -> base < 2 ^ 64 -> p0 + n <= 2 ^ 27 ->
  (forall q, p0 <= q < p0 + n -> releasable (look s q) = true) -> trio (free_page s (p0 / 512)) (p0 mod 512) = false ->
  exists F' s', safe_release base n s = Ok (true, s') /\ in_order others fixed F' s' /\ F' ⊆ F /\ pages_released s s' p0 n /\ promised (pm s') = promised (pm s).
Proof.
  intros Ho Hg Hb Hend Hrel Htr. pose proof Hg as (H1 & H2 & H3 & H4 & Ep). unfold safe_release. rewrite (truth_pos base), (truth_pos n), land_PAGE_MASK, H2, H4 by done. cbn [andb ensure obind Z.eqb].
  destruct (start_stands base n p0 Hg) as (Hi & Hj & Hst).
  destruct (release_pdpt_ok others fixed base n p0 Hg Hb Hend F s Hrel Htr 513 (Z.land (Z.shiftr base 30) 0x1FF) (Z.land (Z.shiftr base 21) 0x1FF) 0 s) as (s' & E & F' & H'); [|exact Hi|exact Hj|unfold is_dir in Hi; lia|lia|done|].
  - exists F. split; [done|]. split; [done|]. split; [|done]. intros q Hq. by rewrite decide_False by lia.
  - rewrite Z.mul_0_r, Z.add_0_r in E. exists F', s'. split; [exact E|exact H'].
Qed.

Lemma release_range_ok u others fixed F s base n p0 : in_order others fixed F s -> good_range base n p0 -> base < 2 ^ 64 -> p0 + n <= 2 ^ 27 ->
  trio (free_page s (p0 / 512)) (p0 mod 512) = false ->
  exists b F' s', release_range u base n s = Ok (b, s') /\ in_order others fixed F' s' /\ promised (pm s') = promised (pm s) /\
    if b then F' ⊆ F /\ (forall q, p0 <= q < p0 + n -> can_release u (look s q) = true) /\ pages_released s s' p0 n
    else F' = F /\ s' = s /\ exists q, p0 <= q < p0 + n /\ can_release u (look s q) = false.
Proof.
  intros Ho Hg Hb Hend Htr. pose proof Ho as [Hs Hh]. pose proof Hg as (H1 & H2 & H3 & H4 & Ep). unfold release_range. rewrite (iterate_looks _ _ _ p0) by (done || apply can_release_test). cbn [obind].
  pose proof (passing_all (can_release u) s (Z.to_nat n) p0) as Hiff. rewrite Z2Nat.id in Hiff by lia. assert (Hp0 : 0 <= p0) by (subst p0; by apply page_indices).
  destruct (Z.eqb_spec (passing (can_release u) s (Z.to_nat n) p0) n) as [En|En]; cbn [negb].
  - pose proof (proj1 Hiff En) as Hall.
    assert (Hrel : forall q, p0 <= q < p0 + n -> releasable (look s q) = true).
    { intros q Hq. destruct (Hall q Hq) as [_ Hc]. unfold can_release in Hc. unfold releasable, mapped. destruct (bypass (look s q)); [done|].
      destruct (present (look s q)); cbn [negb andb orb]; [apply andb_true_iff in Hc as [E1 _]; by rewrite E1|by rewrite Hc]. }
    destruct (safe_release_ok others fixed F s base n p0 Ho Hg Hb Hend Hrel Htr) as (F' & s' & E & Ho' & Hsub & Hl & Hpr). exists true, F', s'. do 3 (split; [done|]). split; [done|]. split; [|done].
    intros q Hq. by apply Hall.
  - exists false, F, s. do 5 (split; [done|]). destruct (decide (Exists (fun q => can_release u (look s q) = false) (seqZ p0 n))) as [Hx|Hx].
    + apply Exists_exists in Hx as (q & Hin%elem_of_seqZ & Hq). exists q. split; [lia|done].
    + exfalso. apply En, Hiff. intros q Hq. split; [unfold is_pg; lia|]. destruct (can_release u (look s q)) eqn:E; [done|]. exfalso. apply Hx, Exists_exists. exists q. split; [apply elem_of_seqZ; lia|done].
Qed.

Lemma free_bypass s q : shape s -> is_pg q -> is_free (look s q) = true -> bypass (look s q) = false.
Proof.
  intros Hs Hq Hf. pose proof (slot_entry s q Hs Hq) as Hsl. destruct (page_split q Hq) as (Ht & _). unfold look in *. rewrite is_free_core' in Hf.
  destruct (table_at s (q / 512)) as [c|] eqn:Ec; [|by rewrite (proj2 Hsl)]. destruct Hsl as (_ & t & e & Er & Ee & Een). rewrite Een in *.
  destruct (read_pt_at s _ c Hs Ht Ec) as (t' & L & Er' & _ & Hok). assert (t' = t) as -> by congruence. exact (po_free _ _ _ Hok _ _ Ee Hf).
Qed.

Lemma releasable_reserved e : is_free e = true -> bypass e = false -> releasable (set_preserve true e) = true.
Proof. unfold is_free, releasable, mapped. destruct e as [pr ? ? ? ? ? ? ? ? ? ? ? ? pv by_ ?]. cbn. intros Hf ->. by destruct pr. Qed.

(** What was reserved a moment ago and is given back is free again. *)
Lemma reserve_release s0 s s' p0 n : (forall q, p0 <= q < p0 + n -> is_free (look s0 q) = true) -> pages_reserved s0 s p0 n -> pages_released s s' p0 n -> quiet s0 s'.
Proof.
  intros Hf Hr Hl q Hq. rewrite Hl, Hr by done. case_decide as Hd; [|done]. specialize (Hf q Hd). unfold look in *. rewrite is_free_core' in Hf.
  unfold is_free in Hf. destruct (default zero_pte (entry s0 q)) as [pr ? ? ? ? ? ? ? ? ? ? ? ? pv ? ?]. cbn in *. by destruct pr, pv.
Qed.

Lemma same_frames others fixed F F' s s' : holds others fixed F s -> holds others fixed F' s' -> quiet s s' -> F' = F.
Proof.
  intros Hh Hh' Hq. apply set_eq. intros x. rewrite (ho_frame _ _ _ _ Hh), (ho_frame _ _ _ _ Hh').
  split; intros (pg & Hp & E); exists pg; (split; [done|]); [rewrite <- (quiet_frame s s')|rewrite (quiet_frame s s')]; done.
Qed.

(** The condition under which [imp_reserve_fixed] and the rollback find their way: every table of the range has a free page,
    and the runs around the first page are not of the lengths at which [get] stops. *)
Definition calm_release (s : vspace) (base : Z) : bool := negb (trio (free_page s (page_of base / 512)) (page_of base mod 512)).
Definition calm_fixed (s : vspace) (base n : Z) : bool :=
  negb (snag (free_page s (page_of base / 512)) (page_of base mod 512)) && calm_release s base &&
  forallb (fun tb => existsb (free_page s tb) (seqZ 0 512)) (seqZ (page_of base / 512) ((page_of base + n - 1) / 512 - page_of base / 512 + 1)).

Lemma reserve_fixed_ok others fixed F s base n p0 : in_order others fixed F s -> good_range base n p0 -> base < 2 ^ 64 -> p0 + n <= 2 ^ 27 -> calm_fixed s base n = true ->
  exists b s', reserve_fixed base n s = Ok (b, s') /\ in_order others fixed F s' /\ promised (pm s') = promised (pm s) /\
    if b then (forall q, p0 <= q < p0 + n -> is_free (look s q) = true) /\ pages_reserved s s' p0 n else quiet s s'.
Proof.
  intros Ho Hg Hb Hend Hcalm. pose proof Hg as (H1 & H2 & H3 & H4 & Ep). unfold calm_fixed, calm_release in Hcalm. rewrite <- Ep in Hcalm.
  apply andb_true_iff in Hcalm as [[Hsn%negb_true_iff Htr%negb_true_iff]%andb_true_iff Hroom].
  assert (Hroom' : forall tb, p0 / 512 <= tb <= (p0 + n - 1) / 512 -> exists k, free_page s tb k = true).
  { intros tb Htb. rewrite forallb_forall in Hroom. specialize (Hroom tb). rewrite existsb_exists in Hroom. destruct Hroom as (k & _ & Hk); [|by exists k].
    apply list_elem_of_In, elem_of_seqZ. lia. }
  unfold reserve_fixed. rewrite (truth_pos base), (truth_pos n), land_PAGE_MASK, H2, H4 by done. cbn [andb ensure obind Z.eqb].
  destruct (start_stands base n p0 Hg) as (Hi & Hj & Hst).
  destruct (fixed_pdpt_ok others fixed base n p0 Hg Hb Hend F s Hroom' Hsn 513 (Z.land (Z.shiftr base 30) 0x1FF) (Z.land (Z.shiftr base 21) 0x1FF) 0 s) as (c & s1 & E & Hc & Ho1 & Hl1 & Hpr1 & Hf1); [|exact Hi|exact Hj|unfold is_dir in Hi; lia|lia|done|].
  { split; [done|]. split; [|split; [done|intros; lia]]. intros q Hq. by rewrite decide_False by lia. }
  rewrite Z.mul_0_r, Z.add_0_r in E. rewrite E. cbn [obind]. destruct (Z.eqb_spec c n) as [->|Hne]; [exists true, s1; by do 3 (split; [done|])|].
  assert (Hp0 : is_pg p0) by (unfold is_pg; subst p0; pose proof (page_indices base H4) as [? _]; lia). destruct (page_split p0 Hp0) as (Ht & Hk & Epg).
  destruct (decide (c = 0)) as [->|Hc0].
  { exists false, s1. split; [done|]. split; [done|]. split; [done|]. intros q Hq. rewrite Hl1 by done. by rewrite decide_False by lia. }
  rewrite (truth_pos c) by lia.
  destruct (safe_release_ok others fixed F s1 base c p0 Ho1) as (F' & s' & E' & Ho' & Hsub & Hl & Hpr); [by split_and!; [done..|lia|done|]|done|lia| | |].
  - intros q Hq. assert (Hq' : is_pg q) by (unfold is_pg in *; lia). rewrite Hl1 by done. rewrite decide_True by lia. apply releasable_reserved; [by apply Hf1|].
    apply (free_bypass s q); [apply Ho|done|by apply Hf1].
  - rewrite <- Htr. unfold trio, free_page. assert (Hsame : forall k, k < p0 mod 512 -> bool_decide (0 <= k < 512) && is_free (look s1 (p0 / 512 * 512 + k)) = bool_decide (0 <= k < 512) && is_free (look s (p0 / 512 * 512 + k))).
    { intros k Hkk. destruct (decide (0 <= k < 512)) as [Hk'|]; [|by rewrite !bool_decide_eq_false_2 by done]. rewrite Hl1 by (by apply page_join). by rewrite decide_False by lia. }
    by rewrite !Hsame by lia.
  - rewrite E'. cbn [obind]. pose proof (reserve_release s s1 s' p0 c Hf1 Hl1 Hl) as Hq. exists false, s'. split; [done|]. pose proof Ho as [_ Hh]. pose proof Ho' as [Hs' Hh'].
    rewrite (same_frames others fixed F F' s s' Hh Hh' Hq) in Hh'. split; [by split|]. split; [congruence|done].
Qed.

(** ** [reserve] wherever there is room *)

(** Pages are as they were, or were free and are reserved now. *)
Definition taking (s s' : vspace) : Prop :=
  forall q, is_pg q -> look s' q = look s q \/ is_free (look s q) = true /\ look s' q = set_preserve true (look s q).

Lemma preserve_taken e : is_free (set_preserve true e) = false.
Proof. unfold is_free. cbn. by rewrite andb_false_r. Qed.

Lemma taking_free s s' q : taking s s' -> is_pg q -> is_free (look s' q) = true -> look s' q = look s q.
Proof. intros Ht Hq Hf. destruct (Ht q Hq) as [E|[_ E]]; [done|]. by rewrite E, preserve_taken in Hf. Qed.

#[global] Instance taking_preorder : PreOrder taking.
Proof.
  split; [intros s q Hq; by left|]. intros s1 s2 s3 H1 H2 q Hq. destruct (H2 q Hq) as [E2|[Hf E2]]; [destruct (H1 q Hq) as [E1|[Hf E1]]; [left|right]; rewrite E2; done|].
  right. pose proof (taking_free s1 s2 q H1 Hq Hf) as E1. rewrite E1 in Hf, E2. done.
Qed.

Lemma quiet_taking s s' : quiet s s' -> taking s s'.
Proof. intros Hq q Hp. left. by apply Hq. Qed.

(** The answer [a] stands for [count] pages that were free and are reserved now; the address is that of the first one, cut to
    32 bits. *)
Definition got (s s' : vspace) (a count : Z) : Prop :=
  exists pg, 0 <= pg /\ pg + count <= 2 ^ 27 /\ a = w32 (pg * PAGE_SIZE) /\
    forall q, pg <= q < pg + count -> is_free (look s q) = true /\ look s' q = set_preserve true (look s q).

Lemma got_before s s1 s' a count : taking s s1 -> got s1 s' a count -> got s s' a count.
Proof.
  intros Ht (pg & H1 & H2 & H3 & H4). exists pg. do 3 (split; [done|]). intros q Hq. destruct (H4 q Hq) as [Hf E].
  rewrite (taking_free s s1 q Ht) in * by (done || unfold is_pg; lia). done.
Qed.

Lemma table_address i j k : is_dir i -> 0 <= j < 512 -> 0 <= k < 512 -> w64 (table_base i j + Z.shiftl k 12) = w32 ((i * 512 + j) * 512 * PAGE_SIZE + k * PAGE_SIZE).
Proof.
  unfold is_dir, table_base, wrap, PAGE_SIZE. intros. rewrite Z.shiftl_mul_pow2 by lia. change (2 ^ 12) with 4096. change (2 ^ 32) with 4294967296. change (2 ^ 64) with 18446744073709551616. dlia.
Qed.

Lemma pages_got s s1 s' i j k count : is_dir i -> 0 <= j < 512 -> 0 <= k -> 1 <= count -> k + count <= 512 -> quiet s s1 ->
  (forall q, k <= q < k + count -> is_free (look s1 ((i * 512 + j) * 512 + q)) = true) -> pages_reserved s1 s' ((i * 512 + j) * 512 + k) count ->
  taking s s' /\ got s s' (w64 (table_base i j + Z.shiftl k 12)) count.
Proof.
  intros Hi Hj Hk Hc Hkc Hq Hf Hl. destruct (tb_join i j Hi Hj) as (Ht & _). set (tb := i * 512 + j) in *.
  assert (Hpg : forall q, tb * 512 + k <= q < tb * 512 + k + count -> is_pg q /\ is_free (look s q) = true).
  { intros q Hr. assert (Hp : is_pg q) by page_lia. split; [done|]. rewrite <- Hq by done. replace q with (tb * 512 + (q - tb * 512)) by lia. apply Hf. lia. }
  split.
  - intros q Hp. rewrite Hl by done. case_decide as Hd; [right|left; by apply Hq]. destruct (Hpg q Hd) as [_ Hfq]. split; [done|]. by rewrite Hq.
  - exists (tb * 512 + k). split; [page_lia|]. split; [page_lia|]. split; [rewrite table_address by (done || lia); unfold tb; f_equal; lia|].
    intros q Hr. destruct (Hpg q Hr) as [Hp Hfq]. split; [done|]. rewrite Hl by done. rewrite decide_True by lia. by rewrite Hq.
Qed.

Lemma any_pdt_ok others fixed F i dp count fuel j s : in_order others fixed F s -> is_dir i -> dir_at s i = Some dp -> 1 <= count -> 0 <= j -> j + Z.of_nat fuel <= 512 ->
  exists a s', any_pdt fuel i dp j count s = Ok (a, s') /\ in_order others fixed F s' /\ promised (pm s') = promised (pm s) /\ taking s s' /\ pdpt s' = pdpt s /\ (truth a = true -> got s s' a count).
Proof.
  intros Ho Hi Hd Hc. revert j s Ho Hd. induction fuel as [|fuel IH]; intros j s Ho Hd Hj Hf; cbn [any_pdt]; [by exists 0, s|].
  destruct (tb_join i j Hi ltac:(lia)) as (Ht & Ei & Ej). pose proof Ho as [Hs Hh]. set (tb := i * 512 + j) in *.
  assert (Hdt : dir_at s (tb / 512) = Some dp) by (by rewrite Ei). destruct (read_pdte_at s tb dp Hs Ht Hdt) as (c & Er & Ec). rewrite Ej in Er. rewrite Er. cbn [obind].
  assert (Hnext : forall s1, in_order others fixed F s1 -> pdpt s1 = pdpt s -> promised (pm s1) = promised (pm s) -> taking s s1 ->
    exists a s', any_pdt fuel i dp (j + 1) count s1 = Ok (a, s') /\ in_order others fixed F s' /\ promised (pm s') = promised (pm s) /\ taking s s' /\ pdpt s' = pdpt s /\ (truth a = true -> got s s' a count)).
  { intros s1 Ho1 Hp1 Hpr1 Ht1. destruct (IH (j + 1) s1 Ho1) as (a & s' & E & Ho' & Hpr' & Ht' & Hp' & Hgot); [by rewrite (dir_at_pdpt s)|lia|lia|]. exists a, s'.
    do 2 (split; [done|]). split; [congruence|]. split; [by transitivity s1|]. split; [congruence|]. intros Ha. apply (got_before s s1); auto. }
  destruct (d_bypass c) eqn:Eb; [by apply Hnext|].
  destruct (open_pt_ok others fixed F s tb dp NONE c Hs Hh Ht Hdt Ec Eb) as (o & s1 & Eo & Hs1 & Hh1 & Hq1 & Hpr1 & Hpd1 & _ & Hm); [by right|]. rewrite Ej in Eo. rewrite Eo. cbn [obind].
  rewrite bool_decide_eq_false_2 in Hpr1 by done. cbn in Hpr1. rewrite Z.sub_0_r in Hpr1. destruct o as [tp|]; [|apply Hnext; [by split|done|done|by apply quiet_taking]].
  destruct Hm as (c1 & Hc1 & <-). assert (Hd1 : dir_at s1 (tb / 512) = Some dp) by (by rewrite (dir_at_pdpt s)).
  destruct (any_piece others fixed F s1 tb dp c1 (table_base i j) count Hs1 Hh1 Ht Hc1 Hd1 Hc) as (a & s2 & Eon & Hs2 & Hh2 & Hpm2 & Hpd2 & _ & Hcase). rewrite Ej in Eon. rewrite Eon. cbn [obind].
  assert (Htk : taking s s2 /\ (truth a = true -> got s s2 a count)).
  { destruct Hcase as [[-> Hq2]|(k & -> & Hk & Hkc & Hfr & Hl2)]; [split; [apply quiet_taking; by transitivity s1|done]|].
    destruct (pages_got s s1 s2 i j k count Hi ltac:(lia) Hk Hc Hkc Hq1 Hfr Hl2) as [H1 H2]. by split. }
  destruct Htk as [Htk Hgot]. destruct (truth a) eqn:Ea; [|apply Hnext; [by split|congruence|congruence|done]].
  exists a, s2. split; [done|]. split; [by split|]. split; [congruence|]. split; [done|]. split; [congruence|auto].
Qed.

Lemma any_pdpt_ok others fixed F count fuel i s : in_order others fixed F s -> 1 <= count -> 0 <= i -> i + Z.of_nat fuel <= 512 ->
  exists a s', any_pdpt fuel i count s = Ok (a, s') /\ in_order others fixed F s' /\ promised (pm s') = promised (pm s) /\ taking s s' /\ (truth a = true -> got s s' a count).
Proof.
  intros Ho Hc. revert i s Ho. induction fuel as [|fuel IH]; intros i s Ho Hi Hf; cbn [any_pdpt]; [by exists 0, s|]. pose proof Ho as [Hs Hh].
  assert (Hdi : is_dir i) by (unfold is_dir; lia). destruct (open_pdt_ok others fixed F s i Hs Hh Hdi) as (o & s1 & Eo & Hs1 & Hh1 & Hq1 & Hpr1 & Hd1 & _). rewrite Eo. cbn [obind].
  destruct o as [dp|]; [|exists 0, s1; split; [done|]; split; [by split|]; split; [done|]; split; [by apply quiet_taking|done]]. destruct (Hd1 dp eq_refl) as [Hd _].
  destruct (any_pdt_ok others fixed F i dp count 512 0 s1 (conj Hs1 Hh1) Hdi Hd Hc) as (a & s2 & E2 & Ho2 & Hpr2 & Ht2 & _ & Hgot2); [lia|lia|]. rewrite E2. cbn [obind].
  assert (Ht : taking s s2) by (transitivity s1; [by apply quiet_taking|done]).
  destruct (truth a) eqn:Ea.
  - exists a, s2. do 2 (split; [done|]). split; [congruence|]. split; [done|]. intros _. apply (got_before s s1); [by apply quiet_taking|auto].
  - destruct (IH (i + 1) s2 Ho2) as (a' & s3 & E3 & Ho3 & Hpr3 & Ht3 & Hgot3); [lia|lia|]. exists a', s3. do 2 (split; [done|]). split; [congruence|]. split; [by transitivity s2|].
    intros Ha. apply (got_before s s2); auto.
Qed.

Lemma reserve_any_ok others fixed F count s : in_order others fixed F s -> 1 <= count <= 512 ->
  exists a s', reserve_any count s = Ok (a, s') /\ in_order others fixed F s' /\ promised (pm s') = promised (pm s) /\ taking s s' /\ (truth a = true -> got s s' a count).
Proof. intros Ho Hc. unfold reserve_any. rewrite ensure_true by (apply Z.leb_le; lia). cbn [obind]. by apply (any_pdpt_ok others fixed F); [|lia..]. Qed.

(** ** [reserve] of whole tables *)

(** A table that [reserve_big] may take: absent, or with all its pages free; and how many of a row are absent. *)
Definition unused (s : vspace) (tb : Z) : Prop := exists c, pdte_at s tb = Some c /\ d_bypass c = false /\ (d_present c = true -> get_max_size c = 512).
Definition is_absent (s : vspace) (tb : Z) : bool := match pdte_at s tb with Some c => negb (d_present c) | None => false end.
Fixpoint absent (s : vspace) (n : nat) (tb : Z) : Z := match n with O => 0 | S n => b2z (is_absent s tb) + absent s n (tb + 1) end.

Lemma absent_snoc s n tb : absent s (S n) tb = absent s n tb + b2z (is_absent s (tb + Z.of_nat n)).
Proof.
  revert tb. induction n as [|n IH]; intros tb; [cbn [absent Z.of_nat]; rewrite !Z.add_0_r; lia|]. change (absent s (S (S n)) tb) with (b2z (is_absent s tb) + absent s (S n) (tb + 1)).
  rewrite IH. cbn [absent]. replace (tb + 1 + Z.of_nat n) with (tb + Z.of_nat (S n)) by lia. lia.
Qed.

Lemma absent_ext s s' n tb : (forall t, tb <= t < tb + Z.of_nat n -> pdte_at s' t = pdte_at s t) -> absent s' n tb = absent s n tb.
Proof.
  revert tb. induction n as [|n IH]; intros tb He; cbn [absent]; [done|]. unfold is_absent at 1 2. rewrite He by lia. rewrite IH; [done|]. intros t Ht. apply He. lia.
Qed.

Lemma absent_pos s n tb : 0 <= absent s n tb.
Proof. revert tb. induction n as [|n IH]; intros tb; cbn [absent]; [lia|]. specialize (IH (tb + 1)). unfold b2z. case_match; lia. Qed.

(** A table whose rounded size is 512 is free from end to end. *)
Lemma full_size_free pdt t L : pt_ok pdt t L -> get_max_size pdt = 512 -> forall k, 0 <= k < 512 -> freeb t k = true.
Proof.
  intros Hok Hm k Hk. pose proof (pi_listed _ _ _ (po_inv _ _ _ Hok)) as Hl. rewrite get_max_size_eq, (ls_remain _ _ _ Hl) in Hm.
  pose proof (largest_range _ _ _ Hl) as Hr. pose proof (rounding_at _ Hr) as [H1 _]. assert (Hlg : largest L = 512) by lia.
  unfold largest in Hlg. destruct (last L) as [[b m]|] eqn:El; [|done]. subst m. apply last_Some_elem_of in El.
  pose proof (chain_range _ _ _ _ _ _ (ls_chain _ _ _ Hl) El). apply (pi_free _ _ _ (po_inv _ _ _ Hok)). exists b, 512. split; [done|lia].
Qed.

Lemma unused_free s tb k : shape s -> is_tb tb -> unused s tb -> 0 <= k < 512 -> free_page s tb k = true.
Proof.
  intros Hs Ht (c & Ec & Hb & Hm) Hk. unfold free_page. rewrite bool_decide_eq_true_2 by done. cbn [andb].
  destruct (table_at s tb) as [c'|] eqn:Ea.
  - destruct (table_at_is _ _ _ Ea) as (Ec' & Hp & _). assert (c' = c) as -> by congruence. destruct (read_pt_at s tb c Hs Ht Ea) as (t & L & _ & Een & Hok).
    rewrite (look_entry s tb t k Ht Hk Een), is_free_core'. pose proof (full_size_free c t L Hok (Hm Hp) k Hk) as Hf. unfold freeb in Hf. by destruct (t !! k).
  - unfold look, entry, entries_at. rewrite (proj1 (proj2 (page_join tb k Ht Hk))), Ea. done.
Qed.

(** The search: what it has counted so far lies just before the entry it stands at. *)
Lemma big_search_ok others fixed F s i dp aligned fuel : in_order others fixed F s -> is_dir i -> dir_at s i = Some dp -> 1 <= aligned -> forall j ab ap rc,
  0 <= ab -> 0 <= ap < aligned -> ab + ap = j -> j + Z.of_nat fuel <= 512 -> (forall t, ab <= t < j -> unused s (i * 512 + t)) -> rc = absent s (Z.to_nat ap) (i * 512 + ab) ->
  exists ab' ap' rc', big_search fuel j ab ap rc aligned dp s = Ok (ab', ap', rc') /\
    (ap' = aligned -> 0 <= ab' /\ ab' + ap' <= 512 /\ (forall t, ab' <= t < ab' + ap' -> unused s (i * 512 + t)) /\ rc' = absent s (Z.to_nat ap') (i * 512 + ab')).
Proof.
  intros [Hs Hh] Hi Hd Ha. induction fuel as [|fuel IH]; intros j ab ap rc Hab Hap Hj Hf Hun Hrc; cbn [big_search].
  { exists ab, ap, rc. split; [done|lia]. }
  destruct (tb_join i j Hi ltac:(lia)) as (Ht & Ei & Ej). assert (Hdt : dir_at s ((i * 512 + j) / 512) = Some dp) by (by rewrite Ei).
  destruct (read_pdte_at s (i * 512 + j) dp Hs Ht Hdt) as (c & Er & Ec). rewrite Ej in Er. rewrite Er. cbn [obind].
  destruct (d_bypass c || d_present c && negb (get_max_size c =? 512)) eqn:Eskip.
  { apply (IH (j + 1) (j + 1) 0 0); try lia; done. }
  apply orb_false_iff in Eskip as [Hby Hsz].
  assert (Hu : unused s (i * 512 + j)). { exists c. split; [done|]. split; [done|]. intros Hp. rewrite Hp in Hsz. cbn in Hsz. bool_norm. done. }
  assert (Hrc' : (if d_present c then rc else rc + 1) = absent s (Z.to_nat (ap + 1)) (i * 512 + ab)).
  { replace (Z.to_nat (ap + 1)) with (S (Z.to_nat ap)) by lia. rewrite absent_snoc, <- Hrc. replace (i * 512 + ab + Z.of_nat (Z.to_nat ap)) with (i * 512 + j) by lia.
    unfold is_absent. rewrite Ec. destruct (d_present c); cbn; lia. }
  assert (Hun' : forall t, ab <= t < j + 1 -> unused s (i * 512 + t)) by (intros t Htt; destruct (decide (t = j)) as [->|]; [done|apply Hun; lia]).
  destruct (Z.eqb_spec (ap + 1) aligned) as [Eq|Eq].
  - exists ab, (ap + 1), (if d_present c then rc else rc + 1). split; [done|]. intros _. split; [done|]. split; [lia|]. split; [|done]. intros t Htt. apply Hun'. lia.
  - apply (IH (j + 1) ab (ap + 1)); try lia; done.
Qed.

(** The tables are taken one after the other: [m] of them, for [pc] pages. *)
Lemma big_take_ok others fixed F i dp : is_dir i -> forall m j pc rc s, in_order others fixed F s -> dir_at s i = Some dp -> 0 <= j -> j + Z.of_nat m <= 512 ->
  (forall t, j <= t < j + Z.of_nat m -> unused s (i * 512 + t)) -> rc = absent s m (i * 512 + j) -> rc <= promised (pm s) ->
  512 * (Z.of_nat m - 1) < pc <= 512 * Z.of_nat m ->
  exists s', big_take m dp j pc rc s = Ok (0, s') /\ in_order others fixed F s' /\ promised (pm s') = promised (pm s) - rc /\ pages_reserved s s' ((i * 512 + j) * 512) pc /\
    (forall q, (i * 512 + j) * 512 <= q < (i * 512 + j) * 512 + pc -> is_free (look s q) = true).
Proof.
  intros Hi. induction m as [|m IH]; intros j pc rc s Ho Hd Hj Hm Hun Hrc Hpr Hpc.
  { cbn in Hrc |- *. subst rc. exists s. rewrite Z.sub_0_r. do 3 (split; [done|]). split; [|intros; lia]. intros q Hq. by rewrite decide_False by lia. }
  cbn [big_take]. pose proof Ho as [Hs Hh]. destruct (tb_join i j Hi ltac:(lia)) as (Ht & Ei & Ej). set (tb := i * 512 + j) in *.
  assert (Hu : unused s tb) by (apply Hun; lia). pose proof Hu as (c & Ec & Hby & Hmax). assert (Hdt : dir_at s (tb / 512) = Some dp) by (by rewrite Ei).
  destruct (read_pdte_at s tb dp Hs Ht Hdt) as (c' & Er & Ec'). assert (c' = c) as -> by congruence. rewrite Ej in Er.
  rewrite (truth_pos pc) by lia. cbn [ensure obind]. rewrite Er. cbn [obind]. rewrite Hby. cbn [negb ensure obind].
  cbn [absent] in Hrc. pose proof (absent_pos s m (tb + 1)) as Hap. unfold is_absent in Hrc. rewrite Ec in Hrc.
  assert (Ea : (if d_present c then get_max_size c =? 0x200 else truth rc) = true).
  { destruct (d_present c); [by rewrite Hmax|]. cbn in Hrc. apply truth_pos. lia. } rewrite Ea. cbn [ensure obind].
  destruct (open_pt_ok others fixed F s tb dp TAKE c Hs Hh Ht Hdt Ec Hby) as (o & s1 & Eo & Hs1 & Hh1 & Hq1 & Hpr1 & Hpd1 & Hpo1 & Hmm).
  { left. split; [done|]. intros Hp. rewrite Hp in Hrc. cbn in Hrc. lia. }
  rewrite Ej in Eo. rewrite Eo. cbn [obind]. destruct o as [tp|]; [|by destruct Hmm]. cbn [deref obind]. destruct Hmm as (c1 & Hc1 & <-).
  assert (Hd1 : dir_at s1 (tb / 512) = Some dp) by (by rewrite (dir_at_pdpt s)).
  assert (Hfree1 : forall k, 0 <= k < 512 -> free_page s1 tb k = true).
  { intros k Hk. unfold free_page. rewrite Hq1 by (by apply page_join). by apply (unused_free s tb k). }
  change 0x200 with 512. set (size := Z.min 512 pc). assert (Hsz : 1 <= size <= 512) by lia.
  destruct (fixed_piece others fixed F s1 tb dp c1 0 size Hs1 Hh1 Ht Hc1 Hd1) as (b & s2 & Eon & Hs2 & Hh2 & Hpm2 & Hpd2 & Hpo2 & Hb); [exists 0; by apply Hfree1| |lia|lia|lia|].
  { unfold snag, free_page. rewrite (bool_decide_eq_false_2 (0 <= 0 - 1 < 512)) by lia. cbn. by rewrite andb_false_r. }
  destruct b.
  2:{ destruct Hb as (_ & k & Hk & Hfk). specialize (Hfree1 k ltac:(lia)). unfold free_page in Hfree1. by rewrite Hfk, andb_false_r in Hfree1. }
  destruct Hb as [Hf2 Hl2]. rewrite Ej in Eon. rewrite Eon. cbn [obind ensure]. rewrite Z.add_0_r in Hl2.
  rewrite bool_decide_eq_true_2 in Hpr1 by done. cbn [andb] in Hpr1.
  assert (Hsame : forall t, is_tb t -> t <> tb -> pdte_at s2 t = pdte_at s t) by (intros t Htt Hne; rewrite Hpo2, Hpo1; done).
  assert (Hin : forall t, j + 1 <= t < j + 1 + Z.of_nat m -> is_tb (i * 512 + t) /\ i * 512 + t <> tb) by (intros t Htt; split; [apply tb_join; [done|lia]|lia]).
  set (rc2 := if d_present c then rc else rc - 1).
  destruct (IH (j + 1) (pc - size) rc2 s2 (conj Hs2 Hh2)) as (s3 & E3 & Ho3 & Hpr3 & Hl3 & Hf3).
  - rewrite (dir_at_pdpt s); [done|congruence].
  - lia.
  - lia.
  - intros t Htt. destruct (Hin t Htt) as [H1 H2]. unfold unused. rewrite Hsame by done. apply Hun. lia.
  - unfold rc2. replace (i * 512 + (j + 1)) with (tb + 1) by lia. rewrite (absent_ext s s2).
    + destruct (d_present c); cbn in Hrc; lia.
    + intros t Htt. destruct (Hin (t - i * 512) ltac:(lia)) as [H1 H2]. replace (i * 512 + (t - i * 512)) with t in * by lia. by apply Hsame.
  - rewrite Hpm2, Hpr1. unfold rc2. destruct (d_present c); cbn in *; lia.
  - lia.
  - exists s3. rewrite E3. split; [done|]. split; [done|]. split; [rewrite Hpr3, Hpm2, Hpr1; unfold rc2; destruct (d_present c); cbn; lia|].
    replace ((i * 512 + (j + 1)) * 512) with (tb * 512 + 512) in * by lia. split.
    + intros q Hq. rewrite Hl3, Hl2, Hq1 by done. repeat case_decide; try lia; done.
    + intros q Hq. assert (Hpq : is_pg q) by page_lia. destruct (decide (q < tb * 512 + 512)).
      * specialize (Hf2 (q - tb * 512) ltac:(lia)). replace (tb * 512 + (q - tb * 512)) with q in Hf2 by lia. by rewrite Hq1 in Hf2.
      * specialize (Hf3 q ltac:(lia)). rewrite Hl2, Hq1 in Hf3 by done. by rewrite decide_False in Hf3 by lia.
Qed.

Lemma big_pdpt_ok others fixed F pc aligned fuel i s : in_order others fixed F s -> 512 * (aligned - 1) < pc <= 512 * aligned -> 1 <= aligned -> 0 <= i -> i + Z.of_nat fuel <= 512 ->
  exists a s', big_pdpt fuel i pc aligned s = Ok (a, s') /\ in_order others fixed F s' /\ promised (pm s') = promised (pm s) /\ taking s s' /\ (truth a = true -> got s s' a pc).
Proof.
  intros Ho Hpc Hal. revert i s Ho. induction fuel as [|fuel IH]; intros i s Ho Hi Hf; cbn [big_pdpt]; [by exists 0, s|]. pose proof Ho as [Hs Hh].
  assert (Hdi : is_dir i) by (unfold is_dir; lia). destruct (open_pdt_ok others fixed F s i Hs Hh Hdi) as (o & s1 & Eo & Hs1 & Hh1 & Hq1 & Hpr1 & Hd1 & _). rewrite Eo. cbn [obind].
  pose proof (quiet_taking s s1 Hq1) as Ht1. destruct o as [dp|]; [|exists 0, s1; split; [done|]; split; [by split|]; done]. destruct (Hd1 dp eq_refl) as [Hd _].
  assert (Hnext : forall s2, in_order others fixed F s2 -> promised (pm s2) = promised (pm s) -> taking s s2 ->
    exists a s', big_pdpt fuel (i + 1) pc aligned s2 = Ok (a, s') /\ in_order others fixed F s' /\ promised (pm s') = promised (pm s) /\ taking s s' /\ (truth a = true -> got s s' a pc)).
  { intros s2 Ho2 Hpr2 Ht2. destruct (IH (i + 1) s2 Ho2) as (a & s3 & E3 & Ho3 & Hpr3 & Ht3 & Hgot3); [lia|lia|]. exists a, s3. do 2 (split; [done|]). split; [congruence|]. split; [by transitivity s2|].
    intros Ha. apply (got_before s s2); auto. }
  destruct (big_search_ok others fixed F s1 i dp aligned 512 (conj Hs1 Hh1) Hdi Hd Hal 0 0 0 0) as (ab & ap & rc & Es & Hfound); [lia|lia|lia|lia|intros; lia|done|]. rewrite Es. cbn [obind].
  destruct (Z.eqb_spec ap aligned) as [->|Hne]; [|by apply Hnext]. destruct (Hfound eq_refl) as (Hab & Hbound & Hun & Hrc). change 0x200 with 512.
  rewrite ensure_true by (apply Z.leb_le; lia). cbn [obind]. pose proof (absent_pos s1 (Z.to_nat aligned) (i * 512 + ab)) as Hrc0. rewrite <- Hrc in Hrc0.
  destruct (reserve_pages _ _ rc (ho_good _ _ _ _ Hh1) Hrc0) as (b & p & Er & Hgp & Hprp). rewrite Er. cbn [obind].
  pose proof (set_pm_shape p s1 Hs1) as Hs2. pose proof (set_pm_holds others fixed F p s1 Hh1 Hgp) as Hh2. destruct b; cbn [negb].
  2:{ apply Hnext; [by split|cbn; lia|]. transitivity s1; [done|]. intros q Hq. by left. }
  pose proof (promised_nonneg _ _ (ho_good _ _ _ _ Hh1)) as Hnn.
  destruct (big_take_ok others fixed F i dp Hdi (Z.to_nat aligned) ab pc rc (set_pm p s1) (conj Hs2 Hh2)) as (s3 & E3 & Ho3 & Hpr3 & Hl3 & Hf3);
    [done|done|lia|intros t Htt; apply Hun; lia|rewrite Hrc; by apply absent_ext|cbn; lia|lia|]. rewrite E3. cbn [obind ensure Z.eqb].
  exists (table_base i ab), s3. split; [done|]. split; [done|]. split; [cbn in Hpr3; lia|]. assert (Hr : forall q, (i * 512 + ab) * 512 <= q < (i * 512 + ab) * 512 + pc -> is_pg q) by (intros q Hq; page_lia).
  split.
  - intros q Hq. change (look (set_pm p s1)) with (look s1) in Hl3, Hf3. pose proof (Hl3 q Hq) as E. change (look (set_pm p s1) q) with (look s1 q) in E. rewrite (Hq1 q Hq) in E. case_decide as Hd'; [right|by left].
    split; [|done]. rewrite <- Hq1 by done. by apply Hf3.
  - intros _. exists ((i * 512 + ab) * 512). split; [page_lia|]. split; [page_lia|]. split; [unfold table_base; f_equal; unfold PAGE_SIZE; lia|].
    intros q Hq. pose proof (Hr q Hq) as Hp. pose proof (Hf3 q Hq) as E1. pose proof (Hl3 q Hp) as E2. change (look (set_pm p s1) q) with (look s1 q) in E1, E2. rewrite (Hq1 q Hp) in E1, E2. rewrite decide_True in E2 by done. done.
Qed.

Lemma reserve_big_ok others fixed F count s : in_order others fixed F s -> 1 <= count <= 0x40000 ->
  exists a s', reserve_big count s = Ok (a, s') /\ in_order others fixed F s' /\ promised (pm s') = promised (pm s) /\ taking s s' /\ (truth a = true -> got s s' a count).
Proof.
  intros Ho Hc. unfold reserve_big. change 0x200 with (2 ^ 9). rewrite align_up_pow2, Z.div_mul by lia. change (2 ^ 9) with 512.
  apply (big_pdpt_ok others fixed F); [done|dlia|dlia|lia|lia].
Qed.

(** ** The calls of a process *)

Lemma user_range a n : 0 <= a -> 0 <= n < 2 ^ 32 -> user_check a n = true -> good_range a n (page_of a) /\ a < 2 ^ 64 /\ page_of a + n <= 2 ^ 27 /\ page_of a = a / PAGE_SIZE /\ a < 2 ^ 39.
Proof.
  intros Ha Hn Hc. unfold user_check in Hc. bool_norm. unfold truth in *. bool_norm. rewrite land_PAGE_MASK in *.
  assert (Hlow : a < 2 ^ 39). { unfold size_512G, PAGE_SIZE in *. change 0x8000000000 with (2 ^ 39) in *. lia. }
  assert (Hl : LOWADDR a = a) by (rewrite LOWADDR_mod; apply Z.mod_small; split; [done|]; apply Z.lt_trans with (2 ^ 39); [done|reflexivity]).
  assert (Hp : page_of a = a / PAGE_SIZE) by (unfold page_of; by rewrite Hl).
  unfold size_512G, PAGE_SIZE in *. change (2 ^ 39) with 549755813888 in *. change (2 ^ 64) with 18446744073709551616. change (2 ^ 27) with 134217728. rewrite Hp.
  split; [|split; [lia|split; [dlia|done]]]. split; [lia|]. split; [done|]. split; [lia|]. split; [|done]. rewrite Hl. rewrite Z.shiftr_div_pow2 by lia. change (2 ^ 39) with 549755813888.
  rewrite Z.div_small by lia. done.
Qed.

Lemma user_reserve_at_ok others fixed F s a n : in_order others fixed F s -> 0 <= n < 2 ^ 32 -> 0 < a -> (user_check a n = true -> calm_fixed s a n = true) ->
  exists r s', user_reserve a n s = Ok (r, s') /\ in_order others fixed F s' /\ promised (pm s') = promised (pm s) /\
    if r =? 0 then quiet s s' else r = a /\ user_check a n = true /\ (forall q, page_of a <= q < page_of a + n -> is_free (look s q) = true) /\ pages_reserved s s' (page_of a) n.
Proof.
  intros Ho Hn Ha Hcalm. unfold user_reserve. rewrite (truth_pos a) by done. destruct (user_check a n) eqn:Ec; cbn [negb]; [|by exists 0, s].
  destruct (user_range a n ltac:(lia) Hn Ec) as (Hg & Hb & Hend & _). destruct (reserve_fixed_ok others fixed F s a n (page_of a) Ho Hg Hb Hend (Hcalm eq_refl)) as (b & s' & E & Ho' & Hpr & Hcase).
  rewrite E. cbn [obind]. exists (if b then a else 0), s'. do 3 (split; [done|]). destruct b; [|done]. rewrite (proj2 (Z.eqb_neq a 0)) by lia. by destruct Hcase.
Qed.

Lemma user_reserve_any_ok others fixed F s n : in_order others fixed F s -> 0 <= n ->
  exists r s', user_reserve 0 n s = Ok (r, s') /\ in_order others fixed F s' /\ promised (pm s') = promised (pm s) /\ taking s s' /\ (truth r = true -> got s s' r n).
Proof.
  intros Ho Hn. unfold user_reserve. cbn [truth negb Z.eqb]. destruct (negb (truth n) || (0x40000 <? n)) eqn:E; [by exists 0, s|]. apply orb_false_iff in E as [E1 E2].
  unfold truth in E1. bool_norm. destruct (Z.ltb_spec n 0x200); [apply (reserve_any_ok others fixed F)|apply (reserve_big_ok others fixed F)]; done || lia.
Qed.
End Ops.
End VSpaceOps.
