(* ===== verification/ProcSpace.v ===== *)
(** * The address space of a process from its creation to its end

    The calls of [user_vspace] in any order, with other clients of the page allocator in between: no assertion fails, no page of
    the machine is ever behind two pages or shared with another client, and the destructor gives everything back.  With the
    copies of [UserMem], what [commit] has made usable can be written and read. *)

From S2P Require Import Prelude Const Bytes Phys.
From S2P Require Import PageTable UserMem VSpace VSpaceInv VSpaceOps.

Module ProcSpace.
Import PageTable VSpace VSpaceThm VSpaceInv VSpaceOps.

Section Space.
Context `{Phys}.

(** The pages behind the entries of all tables, and all pages of a process. *)
Definition page_frames (x : page) : list Z := match x with Entries t => frames 512 t 0 | Directory _ => [] end.
Definition mapped_of (s : vspace) : gset Z := list_to_set (map_to_list (pages s) ≫= fun '(_, x) => page_frames x).
Definition top_of (u : user_vspace) : gset Z := {[cr3 u / PAGE_SIZE; pl4te u / PAGE_SIZE]}.
Definition own_of (u : user_vspace) : gset Z := top_of u ∪ dom (pages (low u)) ∪ mapped_of (low u).
Definition with_low (s : vspace) (u : user_vspace) : user_vspace := User (cr3 u) (pl4te u) s.

(** ** The calls *)
Inductive call := CallReserve (addr n : Z) | CallCommit (addr n : Z) | CallProtect (addr n attrib : Z) | CallRelease (addr n : Z).

Definition do_call (c : call) (s : vspace) : outcome (Z * vspace) :=
  match c with
  | CallReserve addr n => user_reserve addr n s
  | CallCommit addr n => let! (b, s) := user_commit addr n s; Ok (b2z b, s)
  | CallProtect addr n attrib => let! (b, s) := user_protect addr n attrib s; Ok (b2z b, s)
  | CallRelease addr n => let! (b, s) := user_release addr n s; Ok (b2z b, s)
  end.

(** The arguments are of their types, and the runs of free pages are not those at which the table methods stop. *)
Definition call_ok (c : call) (s : vspace) : bool :=
  match c with
  | CallReserve addr n => (0 <=? addr) && (0 <=? n) && (n <? 2 ^ 32) && ((addr =? 0) || negb (user_check addr n) || calm_fixed s addr n)
  | CallCommit addr n | CallProtect addr n _ => (0 <=? addr) && (0 <=? n) && (n <? 2 ^ 32)
  | CallRelease addr n => (0 <=? addr) && (0 <=? n) && (n <? 2 ^ 32) && (negb (user_check addr n) || calm_release s addr)
  end.

(** [lives others u]: [u] is a space at some moment of its life, and [others] are the pages in the hands of everyone else then. *)
Inductive lives : gset Z -> user_vspace -> Prop :=
  | lives_new others p u : good others p -> 3 < spare p -> user_new p = Ok u -> lives others u
  | lives_call others u c r s : lives others u -> call_ok c (low u) = true -> do_call c (low u) = Ok (r, s) -> lives others (with_low s u)
  | lives_world others u others' p : lives others u -> others' ## own_of u -> good (others' ∪ own_of u) p -> lives others' (with_low (set_pm p (low u)) u).
End Space.

Section Proofs.
Context `{Phys}.
#[local] Set Default Proof Using "Type".

(** ** What holds throughout *)

(** The pages of a process are its own: those of the processor's view are marked for the user. *)
Definition tame (s : vspace) : Prop :=
  forall q, is_pg q -> bypass (look s q) = false /\ (present (look s q) = true -> user (look s q) = true /\ truth (page_addr (look s q)) = true).

Record proc_inv (others : gset Z) (u : user_vspace) : Prop := {
  pr_order : exists F, in_order (top_of u ∪ others) 2 F (low u);
  pr_tame : tame (low u);
  pr_top : top_of u ## others /\ cr3 u = cr3 u / PAGE_SIZE * PAGE_SIZE /\ pl4te u = pl4te u / PAGE_SIZE * PAGE_SIZE /\ cr3 u <> pl4te u
}.

Lemma mapped_of_spec s x : shape s -> x ∈ mapped_of s <-> exists pg e, is_pg pg /\ look s pg = core e /\ mapped e = true /\ page_addr e = x.
Proof.
  intros Hs. unfold mapped_of. rewrite elem_of_list_to_set, list_elem_of_bind. split.
  - intros ([v y] & Hx & Hin%elem_of_map_to_list). destruct y as [d|t]; [by apply elem_of_nil in Hx|]. cbn [page_frames] in Hx.
    assert (Hv : v ∈ dom (pages s)) by (apply elem_of_dom; rewrite Hin; by eexists).
    destruct (sh_reach s Hs v Hv) as [(i & Hi & Ed)|(tb & c & Ht & Ec & <-)]; [destruct (sh_dir s Hs _ _ Hi Ed) as (d & Ed' & _); congruence|].
    destruct (read_pt_at s tb c Hs Ht Ec) as (t' & L & Er & Een & Hok). assert (t' = t) as -> by (unfold read_pt in Er; rewrite Hin in Er; by injection Er).
    apply elem_of_frames in Hx as (k & e & Hk & E & Em & Ea); [|intros k Hk; apply (pi_entries _ _ _ (po_inv _ _ _ Hok)); lia].
    exists (tb * 512 + k), e. split; [apply page_join; [done|lia]|]. split; [|done]. rewrite (look_entry s tb t k Ht ltac:(lia) Een), E. done.
  - intros (pg & e & Hp & El & Em & Ea). destruct (page_split pg Hp) as (Ht & Hk & Epg). pose proof (slot_entry s pg Hs Hp) as Hsl.
    destruct (table_at s (pg / 512)) as [c|] eqn:Ec.
    2:{ unfold look in El. rewrite (proj2 Hsl) in El. assert (mapped (core e) = true) as Hm by (by destruct e). rewrite <- El in Hm. done. }
    destruct Hsl as (_ & t & e' & Er & E' & Een). destruct (read_pt_at s _ c Hs Ht Ec) as (t' & L & Er' & _ & Hok). assert (t' = t) as -> by congruence.
    exists (pt_addr c, Entries t). split.
    + cbn [page_frames]. apply elem_of_frames; [intros k Hk'; apply (pi_entries _ _ _ (po_inv _ _ _ Hok)); lia|]. exists (pg mod 512), e'. split; [lia|]. split; [done|].
      unfold look in El. rewrite Een in El. change (core e' = core e) in El.
      change (mapped (core e') = true /\ page_addr (core e') = x). by rewrite El.
    + apply elem_of_map_to_list. unfold read_pt in Er. destruct (pages s !! pt_addr c) as [[]|]; [done| |done]. by injection Er as ->.
Qed.

Lemma mapped_of_holds others fixed F s : shape s -> tame s -> holds others fixed F s -> F = mapped_of s.
Proof.
  intros Hs Ht Hh. apply set_eq. intros x. rewrite (ho_frame _ _ _ _ Hh), mapped_of_spec by done. split.
  - intros (pg & Hp & E). exists pg, (default zero_pte (entry s pg)). split; [done|]. split; [done|]. unfold frame_at, look in E. rewrite own_core in E. unfold own in E.
    destruct (mapped _ && _) eqn:Em; [|done]. apply andb_true_iff in Em as [Em _]. split; [done|]. by injection E.
  - intros (pg & e & Hp & El & Em & Ea). exists pg. split; [done|]. unfold frame_at. rewrite El, own_core. unfold own. rewrite Em.
    destruct (Ht pg Hp) as [Hb _]. rewrite El in Hb. change (bypass (core e)) with (bypass e) in Hb. rewrite Hb. by rewrite Ea.
Qed.

Lemma quiet_tame s s' : tame s -> quiet s s' -> tame s'.
Proof. intros Ht Hq q Hp. rewrite Hq by done. by apply Ht. Qed.

(** A step keeps the pages tame when it does so at each page. *)
Lemma step_tame s s' (P : PTE -> PTE -> Prop) : tame s -> (forall q, is_pg q -> look s' q = look s q \/ P (look s q) (look s' q)) ->
  (forall e e', P e e' -> bypass e = false -> (present e = true -> user e = true /\ truth (page_addr e) = true) ->
    bypass e' = false /\ (present e' = true -> user e' = true /\ truth (page_addr e') = true)) -> tame s'.
Proof. intros Ht Hl Hstep q Hp. destruct (Ht q Hp) as [H1 H2]. destruct (Hl q Hp) as [E|E]; [by rewrite E|]. by apply (Hstep (look s q)). Qed.

Lemma taking_tame s s' : tame s -> taking s s' -> tame s'.
Proof.
  intros Ht Hk. apply (step_tame s s' (fun e e' => e' = set_preserve true e)); [done| |by intros e e' ->].
  intros q Hp. destruct (Hk q Hp) as [E|[_ E]]; [by left|by right].
Qed.

Lemma reserved_taking s s' first n : (forall q, first <= q < first + n -> is_free (look s q) = true) -> pages_reserved s s' first n -> taking s s'.
Proof. intros Hf Hl q Hp. rewrite Hl by done. case_decide; [right|by left]. split; [by apply Hf|done]. Qed.

Lemma released_tame s s' first n : tame s -> pages_released s s' first n -> tame s'.
Proof.
  intros Ht Hl. apply (step_tame s s' (fun e e' => e' = core (released_entry e))); [done| |].
  - intros q Hp. rewrite Hl by done. case_decide; [by right|by left].
  - intros e e' -> Hb Hpu. unfold released_entry. destruct (mapped e) eqn:Em; [done|]. split; [done|]. exact Hpu.
Qed.

Lemma committed_tame others F s s' first n F' : tame s -> 0 ∉ F' -> pages_committed true others F s s' first n F' -> tame s'.
Proof.
  intros Ht H0 Hl. apply (step_tame s s' (fun e e' => exists x, x ∈ F' /\ e' = commit_pte true x e)); [done| |].
  - intros q Hp. specialize (Hl q Hp). case_decide; [right|by left]. destruct Hl as (x & Hx & _ & E). by exists x.
  - intros e e' (x & Hx & ->) Hb _. split; [done|]. intros _. split; [done|]. cbn. unfold truth. apply negb_true_iff, Z.eqb_neq. by intros ->.
Qed.

Lemma protected_tame s s' first n attrib : tame s -> pages_protected attrib s s' first n -> tame s'.
Proof.
  intros Ht Hl. apply (step_tame s s' (fun e e' => e' = set_attrib attrib e)); [done| |by intros e e' ->].
  intros q Hp. rewrite Hl by done. case_decide; [by right|by left].
Qed.

Lemma mapped_not_zero others fixed F s : holds others fixed F s -> 0 ∉ F.
Proof.
  intros Hh H0. apply (ho_frame _ _ _ _ Hh) in H0 as (pg & Hp & E). unfold frame_at, own, mapped in E.
  destruct (present _ && truth _ && _) eqn:Em; [|done]. apply andb_true_iff in Em as [[_ Em]%andb_true_iff _]. apply (inj Some) in E. by rewrite E in Em.
Qed.

(** ** The constructor *)
Lemma zero_pdpts_at i : is_dir i -> zero_pdpts !! i = Some zero_pdpte.
Proof. intros Hi. unfold zero_pdpts. apply lookup_gset_to_gmap_Some. split; [|done]. apply elem_of_list_to_set, elem_of_seqZ. unfold is_dir in Hi. lia. Qed.

Section New.
Context (v : Z) (p : phys_state) (tops : gmap Z PDPTE) (dirs : gmap Z PDTE).
Context (Htops : forall i, is_dir i -> tops !! i = Some zero_pdpte) (Hdirs : forall j, 0 <= j < 512 -> dirs !! j = Some zero_pdte).
#[local] Set Default Proof Using "All".
Definition new_low : vspace :=
  Vspace (<[0 := Pdpte true true true false false false v false]> tops) {[v := Directory (<[0 := set_bypass zero_pdte]> dirs)]} 3 p.

Lemma new_low_dir i : is_dir i -> dir_at new_low i = if decide (i = 0) then Some v else None.
Proof. intros Hi. unfold dir_at. cbn. rewrite lookup_insert. repeat case_decide; subst; try done. by rewrite Htops. Qed.

Lemma new_low_pdte tb c : is_tb tb -> pdte_at new_low tb = Some c -> d_present c = false.
Proof.
  intros Ht. destruct (tb_split tb Ht) as (Hi & Hj & _). unfold pdte_at. rewrite new_low_dir by done. case_decide; [|done]. cbn. rewrite lookup_singleton_eq, lookup_insert.
  case_decide; [by intros [= <-]|]. rewrite Hdirs by done. by intros [= <-].
Qed.

Lemma new_low_table tb : is_tb tb -> table_at new_low tb = None.
Proof. intros Ht. destruct (table_at new_low tb) as [c|] eqn:E; [|done]. destruct (table_at_is _ _ _ E) as (Ec & Hp & _). by rewrite (new_low_pdte tb c Ht Ec) in Hp. Qed.

Lemma new_low_look q : is_pg q -> look new_low q = core zero_pte.
Proof. intros Hq. destruct (page_split q Hq) as (Ht & _). unfold look, entry, entries_at. by rewrite new_low_table. Qed.

Lemma new_low_shape : shape new_low.
Proof.
  constructor.
  - intros i Hi. cbn. rewrite lookup_insert. case_decide; [by eexists|]. rewrite Htops by done. by eexists.
  - intros i dp Hi. rewrite new_low_dir by done. case_decide; [|done]. intros [= <-]. eexists. split; [cbn; by rewrite lookup_singleton_eq|].
    intros j Hj. rewrite lookup_insert. case_decide; [by eexists|]. rewrite Hdirs by done. by eexists.
  - intros tb c Ht. by rewrite new_low_table.
  - intros i i' dp Hi Hi'. rewrite !new_low_dir by done. repeat case_decide; congruence.
  - intros tb tb' c c' Ht Ht'. by rewrite new_low_table.
  - intros x Hx. cbn in Hx. rewrite dom_singleton_L in Hx. apply elem_of_singleton in Hx as ->. left. exists 0. split; [by unfold is_dir|]. by rewrite new_low_dir by (by unfold is_dir).
  - intros tb c Ht Ec _. by apply (new_low_pdte tb).
Qed.

Lemma new_low_tame : tame new_low.
Proof. intros q Hq. by rewrite new_low_look. Qed.

Lemma new_low_order others : v ∉ others -> good ({[v]} ∪ others) p -> in_order others 2 ∅ new_low.
Proof.
  intros Hv Hg. split; [apply new_low_shape|]. assert (Hf : forall q, is_pg q -> frame_at new_low q = None) by (intros q Hq; unfold frame_at; by rewrite new_low_look).
  assert (Hd : dom (pages new_low) = {[v]}) by (cbn; apply dom_singleton_L). constructor.
  - intros x. split; [set_solver|]. intros (q & Hq & E). by rewrite Hf in E.
  - intros q q' x Hq Hq'. by rewrite Hf.
  - rewrite Hd. set_solver.
  - rewrite Hd. replace (others ∪ {[v]} ∪ ∅) with ({[v]} ∪ others) by set_solver. exact Hg.
  - rewrite Hd. rewrite size_singleton, size_empty. reflexivity.
Qed.
End New.

Lemma user_new_ok others p : good others p -> 3 < spare p -> exists u, user_new p = Ok u /\ proc_inv others u /\ promised (pm (low u)) = promised p.
Proof.
  intros Hg Hsp. unfold user_new.
  destruct (allocate_must others p Hg) as (pa1 & p1 & E1 & Hr1 & Hs1 & Ho1); [lia|]. rewrite E1. cbn [obind]. destruct (handed_out_page _ _ _ Ho1) as (c & -> & _ & _ & Em1 & _ & _ & Hc & Hg1).
  destruct (allocate_must _ p1 Hg1) as (pa2 & p2 & E2 & Hr2 & Hs2 & Ho2); [lia|]. rewrite E2. cbn [obind]. destruct (handed_out_page _ _ _ Ho2) as (l & -> & _ & _ & Em2 & _ & _ & Hl & Hg2).
  rewrite Em1, Em2. cbn [andb ensure obind].
  destruct (allocate_must _ p2 Hg2) as (pa3 & p3 & E3 & Hr3 & Hs3 & Ho3); [lia|]. rewrite E3. cbn [obind]. destruct (handed_out_page _ _ _ Ho3) as (v & -> & _ & _ & Em3 & Ev & Ew & Hv & Hg3).
  rewrite Em3, Ev, Ew. cbn [ensure obind]. eexists. split; [reflexivity|]. split; [|cbn; congruence].
  assert (Hdc : c * PAGE_SIZE / PAGE_SIZE = c) by (by apply Z.div_mul). assert (Hdl : l * PAGE_SIZE / PAGE_SIZE = l) by (by apply Z.div_mul).
  constructor.
  - exists ∅. change (low _) with (new_low v p3 zero_pdpts zero_directory). unfold top_of. cbn [cr3 pl4te]. rewrite Hdc, Hdl. apply new_low_order; [exact zero_pdpts_at|exact zero_directory_at|set_solver|].
    replace ({[v]} ∪ ({[c; l]} ∪ others)) with ({[v]} ∪ ({[l]} ∪ ({[c]} ∪ others))) by set_solver. done.
  - exact (new_low_tame v p3 zero_pdpts zero_directory zero_pdpts_at zero_directory_at).
  - unfold top_of. cbn [cr3 pl4te]. rewrite Hdc, Hdl. split; [set_solver|]. do 2 (split; [done|]). intros E. assert (c = l) as -> by (unfold PAGE_SIZE in E; lia). set_solver.
Qed.

(** ** Every call *)

Lemma with_low_inv others u s : proc_inv others u -> (exists F, in_order (top_of u ∪ others) 2 F s) -> tame s -> proc_inv others (with_low s u).
Proof. intros [_ _ Ht] Ho Hs. by constructor. Qed.

Lemma user_commit_ok others fixed F s a n : in_order others fixed F s -> 0 <= a -> 0 <= n < 2 ^ 32 ->
  exists b F' s', user_commit a n s = Ok (b, s') /\ in_order others fixed F' s' /\
    if b then user_check a n = true /\ (forall q, page_of a <= q < page_of a + n -> is_pg q /\ can_commit (look s q) = true) /\ F ⊆ F' /\ pages_committed true others F s s' (page_of a) n F'
    else quiet s s' /\ pages s' = pages s /\ pdpt s' = pdpt s.
Proof.
  intros Ho Ha Hn. unfold user_commit. destruct (user_check a n) eqn:Ec; cbn [negb]; [|by exists false, F, s]. destruct (user_range a n Ha Hn Ec) as (Hg & _).
  destruct (commit_range_ok true others fixed F s a n (page_of a) Ho Hg ltac:(lia)) as (b & F' & s' & E & Ho' & _ & Hcase). exists b, F', s'. split; [done|]. split; [done|].
  destruct b; [|by destruct Hcase as (_ & ? & _ & ?)]. split; [done|]. destruct Hcase as (_ & H1 & H2 & H3). done.
Qed.

Lemma do_call_ok others F s c : in_order others 2 F s -> tame s -> call_ok c s = true -> exists r F' s', do_call c s = Ok (r, s') /\ in_order others 2 F' s' /\ tame s'.
Proof.
  intros Ho Ht Hc. destruct c as [a n|a n|a n attrib|a n]; cbn [call_ok do_call] in *.
  - apply andb_true_iff in Hc as [Hc Hcalm]. bool_norm. destruct (Z.eqb_spec a 0) as [->|Hne].
    + destruct (user_reserve_any_ok others 2 F s n Ho ltac:(lia)) as (r & s' & E & Ho' & _ & Htk & _). exists r, F, s'. split; [done|]. split; [done|]. by apply (taking_tame s).
    + cbn [orb] in Hcalm. destruct (user_reserve_at_ok others 2 F s a n Ho ltac:(lia) ltac:(lia)) as (r & s' & E & Ho' & _ & Hcase); [intros Hck; by rewrite Hck in Hcalm|].
      exists r, F, s'. split; [done|]. split; [done|]. destruct (r =? 0); [by apply (quiet_tame s)|]. destruct Hcase as (_ & _ & Hf & Hl). apply (taking_tame s); [done|]. by apply (reserved_taking s s' (page_of a) n).
  - bool_norm. destruct (user_commit_ok others 2 F s a n Ho ltac:(lia) ltac:(lia)) as (b & F' & s' & E & Ho' & Hcase). rewrite E. cbn [obind]. exists (b2z b), F', s'. split; [done|]. split; [done|].
    destruct b; [|apply (quiet_tame s); [done|by destruct Hcase]]. destruct Hcase as (_ & _ & _ & Hl). apply (committed_tame others F s s' (page_of a) n F'); [done| |done]. apply (mapped_not_zero others 2 F' s'). apply Ho'.
  - bool_norm. unfold user_protect. destruct (user_check a n) eqn:Ec; cbn [negb obind]; [|by exists 0, F, s]. destruct (attrib_ok _ _); cbn [negb obind]; [|by exists 0, F, s].
    destruct (user_range a n ltac:(lia) ltac:(lia) Ec) as (Hg & _). destruct (protect_range_ok true others 2 F s a n (page_of a) attrib Ho Hg) as (b & s' & E & Ho' & _ & Hcase).
    rewrite E. cbn [obind]. exists (b2z b), F, s'. split; [done|]. split; [done|]. destruct b; [|by destruct Hcase as [-> _]]. destruct Hcase as [_ Hl]. by apply (protected_tame s s' (page_of a) n attrib).
  - apply andb_true_iff in Hc as [Hc Hcalm]. bool_norm. unfold user_release. destruct (user_check a n) eqn:Ec; cbn [negb obind]; [|by exists 0, F, s]. cbn [negb orb] in Hcalm.
    destruct (user_range a n ltac:(lia) ltac:(lia) Ec) as (Hg & Hb & Hend & _). apply negb_true_iff in Hcalm.
    destruct (release_range_ok true others 2 F s a n (page_of a) Ho Hg Hb Hend Hcalm) as (b & F' & s' & E & Ho' & _ & Hcase). rewrite E. cbn [obind]. exists (b2z b), F', s'. split; [done|]. split; [done|].
    destruct b; [|by destruct Hcase as (_ & -> & _)]. destruct Hcase as (_ & _ & Hl). by apply (released_tame s s' (page_of a) n).
Qed.

Lemma lives_inv others u : lives others u -> proc_inv others u.
Proof.
  induction 1 as [others p u Hg Hsp E|others u c r s _ IH Hc E|others u others' p _ IH Hd Hg].
  - destruct (user_new_ok others p Hg Hsp) as (u' & E' & Hi & _). rewrite E in E'. by injection E' as <-.
  - destruct (pr_order _ _ IH) as [F Ho]. destruct (do_call_ok _ F (low u) c Ho (pr_tame _ _ IH) Hc) as (r' & F' & s' & E' & Ho' & Ht'). rewrite E in E'. injection E' as <- <-.
    apply with_low_inv; [done|by exists F'|done].
  - destruct (pr_order _ _ IH) as [F [Hs Hh]]. pose proof (mapped_of_holds _ _ _ _ Hs (pr_tame _ _ IH) Hh) as EF. destruct (pr_top _ _ IH) as (Ht & E1 & E2 & E3).
    unfold own_of in Hd, Hg. rewrite <- EF in Hd, Hg. destruct (ho_disj _ _ _ _ Hh) as (D1 & D2 & D3).
    constructor; [|apply (pr_tame _ _ IH)|split; [change (top_of (with_low ?s u)) with (top_of u); set_solver|done]].
    exists F. change (top_of (with_low ?s u)) with (top_of u). change (low (with_low ?s u)) with s. split; [by apply set_pm_shape|]. destruct Hh as [A1 A2 A3 A4 A5].
    constructor; [exact A1|exact A2| | |exact A5].
    + change (pages (set_pm p ?s)) with (pages s). set_solver.
    + change (pages (set_pm p ?s)) with (pages s). change (pm (set_pm p ?s)) with p.
      replace (top_of u ∪ others' ∪ dom (pages (low u)) ∪ F) with (others' ∪ (top_of u ∪ dom (pages (low u)) ∪ F)) by set_solver. done.
Qed.

(** ** The destructor *)
Section Delete.
Context (s0 : vspace) (Hs : shape s0) (Ht : tame s0).
#[local] Set Default Proof Using "All".

(** What is given back, in the order of the loops: the pages behind a table, the table; the tables of a directory, the directory. *)
Definition table_pages (tb : Z) : list Z :=
  match table_at s0 tb with Some c => match entries_at s0 tb with Some t => frames 512 t 0 ++ [pt_addr c] | None => [] end | None => [] end.
Definition dir_pages (i : Z) : list Z :=
  match dir_at s0 i with Some dp => (seqZ 0 512 ≫= fun j => table_pages (i * 512 + j)) ++ [dp] | None => [] end.
Definition all_pages : list Z := seqZ 0 512 ≫= dir_pages.

Abbreviation shl := (fmap (fun x => Z.shiftl x 12)).

Lemma release_all_app l1 l2 p : release_all pm_release (l1 ++ l2) p = obind (release_all pm_release l1 p) (release_all pm_release l2).
Proof. clear Hs Ht. revert p. induction l1 as [|x l1 IH]; intros p; [done|]. cbn [app release_all]. destruct (pm_release x p); cbn [obind]; [apply IH|done|done]. Qed.

(** What is not yet deleted is as it was. *)
Record deleted_upto (tb0 : Z) (s : vspace) : Prop := {
  de_pdpt : pdpt s = pdpt s0;
  de_dir x d : pages s0 !! x = Some (Directory d) -> pages s !! x = Some (Directory d);
  de_table tb c : is_tb tb -> tb0 <= tb -> table_at s0 tb = Some c -> pages s !! pt_addr c = pages s0 !! pt_addr c
}.

Lemma delete_pt_ok n tp k s t p' : read_pt tp s = Ok t ->
  (forall q, k <= q < k + Z.of_nat n -> exists e, t !! q = Some e /\ (present e = true -> user e = true /\ truth (page_addr e) = true)) ->
  release_all pm_release (shl (frames n t k)) (pm s) = Ok p' ->
  exists s', delete_pt n tp k s = Ok s' /\ pm s' = p' /\ pdpt s' = pdpt s /\ forall x, x <> tp -> pages s' !! x = pages s !! x.
Proof.
  clear Hs Ht. revert k s t. induction n as [|n IH]; intros k s t Er He Hrel.
  { injection Hrel as <-. by exists s. }
  cbn [delete_pt frames] in *. destruct (He k ltac:(lia)) as (e & E & Hpu). rewrite Er. cbn [obind]. rewrite E in Hrel |- *. cbn [deref obind].
  unfold mapped in Hrel. destruct (present e) eqn:Ep; [|apply (IH (k + 1) s t); [done|intros q Hq; apply He; lia|done]].
  destruct (Hpu eq_refl) as [Hu Hpa]. rewrite Hpa in Hrel. cbn [andb app fmap list_fmap release_all] in Hrel. rewrite Hu. cbn [ensure obind].
  set (t1 := <[k := set_page false (page_addr e) e]> t). change (pm (write_pt tp t1 s)) with (pm s). destruct (pm_release (Z.shiftl (page_addr e) 12) (pm s)) as [p1| |]; cbn [obind] in *; [|done..].
  assert (Hfr : frames n t1 (k + 1) = frames n t (k + 1)).
  { assert (Hext : forall m i, k < i -> frames m t1 i = frames m t i); [|apply Hext; lia].
    intros m. induction m as [|m IHm]; intros i Hi; cbn [frames]; [done|]. unfold t1. rewrite lookup_insert_ne by lia. destruct (t !! i); [|done]. fold t1. by rewrite IHm by lia. }
  destruct (IH (k + 1) (set_pm p1 (write_pt tp t1 s)) t1) as (s' & E' & Hpm & Hpd & Hpg).
  - unfold read_pt, write_pt. cbn. by rewrite lookup_insert_eq.
  - intros q Hq. unfold t1. rewrite lookup_insert_ne by lia. apply He. lia.
  - rewrite Hfr. exact Hrel.
  - exists s'. split; [done|]. split; [done|]. split; [done|]. intros x Hx. rewrite Hpg by done. cbn. by rewrite lookup_insert_ne.
Qed.

Lemma delete_table tb c t s p' : is_tb tb -> table_at s0 tb = Some c -> entries_at s0 tb = Some t -> deleted_upto tb s ->
  release_all pm_release (shl (frames 512 t 0 ++ [pt_addr c])) (pm s) = Ok p' ->
  exists s1 p1, delete_pt 512 (pt_addr c) 0 s = Ok s1 /\ pm_release (Z.shiftl (pt_addr c) 12) (pm s1) = Ok p1 /\ p1 = p' /\ deleted_upto (tb + 1) (set_pm p1 s1).
Proof.
  intros Htb Hc Het [D1 D2 D3] Hrel. rewrite fmap_app, release_all_app in Hrel. apply bind_Ok_inv in Hrel as (p1 & E1 & E2).
  destruct (read_pt_at s0 tb c Hs Htb Hc) as (t' & L & Er & Een & Hok). assert (t' = t) as -> by congruence.
  assert (Er' : read_pt (pt_addr c) s = Ok t) by (unfold read_pt in *; by rewrite (D3 tb c)).
  destruct (delete_pt_ok 512 (pt_addr c) 0 s t p1 Er') as (s1 & Ed & Hpm & Hpd & Hpg); [|done|].
  { intros q Hq. destruct (pi_entries _ _ _ (po_inv _ _ _ Hok) q ltac:(lia)) as [e Ee]. exists e. split; [done|].
    destruct (Ht (tb * 512 + q)) as [_ Hpu]; [apply page_join; [done|lia]|]. rewrite (look_entry s0 tb t q Htb ltac:(lia) Een), Ee in Hpu. exact Hpu. }
  exists s1, p'. split; [done|]. cbn in E2. rewrite Hpm. destruct (pm_release _ p1) as [p2| |]; cbn in E2; [|done..]. injection E2 as ->. split; [done|]. split; [done|].
  destruct (sh_table s0 Hs tb c Htb Hc) as (t0 & _ & Et0 & _). constructor; [cbn; by rewrite Hpd| |].
  - intros x d Hx. cbn. rewrite Hpg by (intros ->; congruence). by apply D2.
  - intros tb' c' Ht' Hle Hc'. cbn. rewrite Hpg; [apply (D3 tb'); [done|lia|done]|]. intros Ea. assert (tb' = tb) by (by apply (sh_table_inj s0 Hs _ _ c' c)). lia.
Qed.

Lemma delete_pdt_ok n i dp j s p' : is_dir i -> dir_at s0 i = Some dp -> 0 <= j -> j + Z.of_nat n = 512 -> deleted_upto (i * 512 + j) s ->
  release_all pm_release (shl (seqZ j (Z.of_nat n) ≫= fun j => table_pages (i * 512 + j))) (pm s) = Ok p' ->
  exists s', delete_pdt n dp j s = Ok s' /\ pm s' = p' /\ deleted_upto (i * 512 + 512) s'.
Proof.
  intros Hi Hd. revert j s. induction n as [|n IH]; intros j s Hj Hjn Hdel Hrel.
  { cbn in Hrel. injection Hrel as <-. exists s. cbn. do 2 (split; [done|]). by replace 512 with j at 2 by lia. }
  cbn [delete_pdt]. rewrite seqZ_cons in Hrel by lia. rewrite bind_cons, fmap_app, release_all_app in Hrel. apply bind_Ok_inv in Hrel as (p1 & E1 & E2).
  replace (Z.succ j) with (j + 1) in E2 by lia. replace (Z.pred (Z.of_nat (S n))) with (Z.of_nat n) in E2 by lia.
  destruct (tb_join i j Hi ltac:(lia)) as (Htb & Ei & Ej). assert (Hdt : dir_at s0 ((i * 512 + j) / 512) = Some dp) by (by rewrite Ei).
  destruct (sh_dir s0 Hs i dp Hi Hd) as (d & Ed & _). destruct (read_pdte_at s0 _ dp Hs Htb Hdt) as (c & Er & Ec). rewrite Ej in Er.
  assert (Er' : read_pdte dp j s = Ok c) by (unfold read_pdte, read_pdt in *; rewrite (de_dir _ _ Hdel _ d Ed); by rewrite Ed in Er). rewrite Er'. cbn [obind].
  unfold table_pages in E1. destruct (d_present c) eqn:Ep.
  - assert (Hby : d_bypass c = false) by (destruct (d_bypass c) eqn:Eb; [by rewrite (sh_bypass s0 Hs _ c Htb Ec Eb) in Ep|done]).
    assert (Hc : table_at s0 (i * 512 + j) = Some c) by (unfold table_at, is_table; by rewrite Ec, Ep, Hby). rewrite Hc in E1. destruct (read_pt_at s0 _ c Hs Htb Hc) as (t & L & _ & Een & _).
    rewrite Een in E1. destruct (delete_table _ c t s p1 Htb Hc Een Hdel E1) as (s1 & p2 & -> & E3 & -> & Hdel1). cbn [obind]. rewrite E3. cbn [obind].
    destruct (IH (j + 1) (set_pm p1 s1)) as (s' & E' & Hpm & Hdel'); [lia|lia|by replace (i * 512 + (j + 1)) with (i * 512 + j + 1) by lia|done|]. by exists s'.
  - assert (Hc : table_at s0 (i * 512 + j) = None) by (unfold table_at, is_table; by rewrite Ec, Ep). rewrite Hc in E1. injection E1 as <-.
    destruct (IH (j + 1) s) as (s' & E' & Hpm & Hdel'); [lia|lia| |done|by exists s']. destruct Hdel as [D1 D2 D3]. constructor; [done|done|]. intros tb' c' Ht' Hle. apply D3; [done|lia].
Qed.

Lemma delete_pdpt_ok n i s p' : 0 <= i -> i + Z.of_nat n = 512 -> deleted_upto (i * 512) s -> release_all pm_release (shl (seqZ i (Z.of_nat n) ≫= dir_pages)) (pm s) = Ok p' ->
  exists s', delete_pdpt n i s = Ok s' /\ pm s' = p'.
Proof.
  revert i s. induction n as [|n IH]; intros i s Hi Hin Hdel Hrel.
  { cbn in Hrel. injection Hrel as <-. by exists s. }
  cbn [delete_pdpt]. rewrite seqZ_cons in Hrel by lia. rewrite bind_cons, fmap_app, release_all_app in Hrel. apply bind_Ok_inv in Hrel as (p1 & E1 & E2).
  replace (Z.succ i) with (i + 1) in E2 by lia. replace (Z.pred (Z.of_nat (S n))) with (Z.of_nat n) in E2 by lia. assert (Hdi : is_dir i) by (unfold is_dir; lia).
  assert (Hnext : forall s1, pm s1 = p1 -> deleted_upto (i * 512 + 512) s1 -> exists s', delete_pdpt n (i + 1) s1 = Ok s' /\ pm s' = p').
  { intros s1 Hpm Hd1. apply (IH (i + 1) s1); [lia|lia|by replace ((i + 1) * 512) with (i * 512 + 512) by lia|by rewrite Hpm]. }
  destruct (sh_pdpt s0 Hs i Hdi) as [e Ee]. rewrite (de_pdpt _ _ Hdel), Ee. cbn [deref obind]. unfold dir_pages in E1. destruct (p_present e) eqn:Ep.
  - assert (Hd : dir_at s0 i = Some (pdt_addr e)) by (unfold dir_at; by rewrite Ee, Ep). rewrite Hd in E1. rewrite fmap_app, release_all_app in E1. apply bind_Ok_inv in E1 as (p2 & E3 & E4).
    destruct (delete_pdt_ok 512 i (pdt_addr e) 0 s p2 Hdi Hd) as (s1 & -> & Hpm1 & Hdel1); [lia|lia|by rewrite Z.add_0_r|done|]. cbn [obind]. rewrite Hpm1. cbn in E4.
    destruct (pm_release _ p2) as [p3| |]; cbn in E4 |- *; [|done..]. injection E4 as ->. apply Hnext; [done|]. destruct Hdel1 as [D1 D2 D3]. by constructor.
  - assert (Hd : dir_at s0 i = None) by (unfold dir_at; by rewrite Ee, Ep). rewrite Hd in E1. injection E1 as <-. apply Hnext; [done|]. destruct Hdel as [D1 D2 D3]. constructor; [done|done|].
    intros tb' c' Ht' Hle. apply D3; [done|lia].
Qed.

(** The list is the pages of the space, each of them once. *)
Lemma elem_of_table_pages others fixed F tb x : holds others fixed F s0 -> is_tb tb ->
  x ∈ table_pages tb <-> (exists k, 0 <= k < 512 /\ frame_at s0 (tb * 512 + k) = Some x) \/ (exists c, table_at s0 tb = Some c /\ pt_addr c = x).
Proof.
  intros Hh Htb. unfold table_pages. destruct (table_at s0 tb) as [c|] eqn:Ec.
  - destruct (read_pt_at s0 tb c Hs Htb Ec) as (t & L & _ & Een & Hok). rewrite Een, elem_of_app, list_elem_of_singleton.
    assert (Hent : forall k, 0 <= k < 512 -> is_Some (t !! k)) by (intros k Hk; by apply (pi_entries _ _ _ (po_inv _ _ _ Hok))).
    rewrite elem_of_frames by (intros; apply Hent; lia). split.
    + intros [(k & e & Hk & E & Em & Ea)| ->]; [left|right; by exists c]. exists k. split; [lia|]. unfold frame_at. rewrite (look_entry s0 tb t k Htb ltac:(lia) Een), E. change (own (core e) = Some x). rewrite own_core. unfold own.
      destruct (Ht (tb * 512 + k)) as [Hb _]; [apply page_join; [done|lia]|]. rewrite (look_entry s0 tb t k Htb ltac:(lia) Een), E in Hb. change (bypass e = false) in Hb. by rewrite Em, Hb, Ea.
    + intros [(k & Hk & E)|(c' & [= <-] & <-)]; [left|by right]. destruct (Hent k Hk) as [e Ee]. exists k, e. split; [lia|]. split; [done|]. unfold frame_at in E.
      rewrite (look_entry s0 tb t k Htb Hk Een), Ee in E. change (own (core e) = Some x) in E. rewrite own_core in E. unfold own in E. destruct (mapped e); [|done]. destruct (bypass e); [done|]. by injection E.
  - split; [by intros ?%elem_of_nil|]. intros [(k & Hk & E)|(c & ? & _)]; [|done]. unfold frame_at, look, entry, entries_at in E. rewrite (proj1 (proj2 (page_join tb k Htb Hk))), Ec in E. done.
Qed.

Lemma elem_of_dir_pages others fixed F i x : holds others fixed F s0 -> is_dir i -> x ∈ dir_pages i <->
  (exists j, 0 <= j < 512 /\ x ∈ table_pages (i * 512 + j)) \/ dir_at s0 i = Some x.
Proof.
  intros Hh Hi. unfold dir_pages. destruct (dir_at s0 i) as [dp|] eqn:Ed.
  - rewrite elem_of_app, list_elem_of_singleton, list_elem_of_bind. split.
    + intros [(j & Hx & Hj%elem_of_seqZ)| ->]; [left; exists j; split; [lia|done]|by right].
    + intros [(j & Hj & Hx)|[= ->]]; [left; exists j; split; [done|apply elem_of_seqZ; lia]|by right].
  - split; [by intros ?%elem_of_nil|]. intros [(j & Hj & Hx)|?]; [|done]. destruct (tb_join i j Hi Hj) as (Htb & Ei & _). rewrite elem_of_table_pages in Hx by done.
    assert (Hn : table_at s0 (i * 512 + j) = None) by (unfold table_at, pdte_at; by rewrite Ei, Ed).
    destruct Hx as [(k & Hk & E)|(c & E & _)]; [|congruence]. unfold frame_at, look, entry, entries_at in E. rewrite (proj1 (proj2 (page_join _ k Htb Hk))), Hn in E. done.
Qed.
End Delete.

Section Delete_all.
Context (others : gset Z) (fixed : Z) (F : gset Z) (s0 : vspace) (Hs : shape s0) (Ht : tame s0) (Hh : holds others fixed F s0).
#[local] Set Default Proof Using "All".

Lemma frame_page q x : is_pg q -> frame_at s0 q = Some x -> x ∈ F /\ x ∉ dom (pages s0).
Proof. intros Hq E. assert (x ∈ F) by (apply (ho_frame _ _ _ _ Hh); by exists q). destruct (ho_disj _ _ _ _ Hh) as [D _]. split; [done|]. intros Hd. by apply (D x). Qed.

Lemma table_page tb c : is_tb tb -> table_at s0 tb = Some c -> pt_addr c ∈ dom (pages s0) /\ forall i, is_dir i -> dir_at s0 i <> Some (pt_addr c).
Proof.
  intros Htb Hc. destruct (sh_table s0 Hs tb c Htb Hc) as (t & _ & Et & _). split; [apply elem_of_dom; rewrite Et; by eexists|].
  intros i Hi Hd. destruct (sh_dir s0 Hs i _ Hi Hd) as (d & Ed & _). congruence.
Qed.

Lemma dir_page i dp : is_dir i -> dir_at s0 i = Some dp -> dp ∈ dom (pages s0).
Proof. intros Hi Hd. destruct (sh_dir s0 Hs i _ Hi Hd) as (d & Ed & _). apply elem_of_dom. rewrite Ed. by eexists. Qed.

Lemma NoDup_table_pages tb : is_tb tb -> NoDup (table_pages s0 tb).
Proof.
  intros Htb. unfold table_pages. destruct (table_at s0 tb) as [c|] eqn:Ec; [|constructor]. destruct (read_pt_at s0 tb c Hs Htb Ec) as (t & L & _ & Een & Hok). rewrite Een.
  assert (Hent : forall k, 0 <= k < 0 + Z.of_nat 512 -> is_Some (t !! k)) by (intros k Hk; apply (pi_entries _ _ _ (po_inv _ _ _ Hok)); lia).
  assert (Hfr : forall k e, 0 <= k < 512 -> t !! k = Some e -> mapped e = true -> frame_at s0 (tb * 512 + k) = Some (page_addr e)).
  { intros k e Hk E Em. unfold frame_at. destruct (Ht (tb * 512 + k)) as [Hb _]; [by apply page_join|]. rewrite (look_entry s0 tb t k Htb Hk Een), E in Hb |- *.
    change (bypass e = false) in Hb. change (own (core e) = Some (page_addr e)). rewrite own_core. unfold own. by rewrite Em, Hb. }
  apply NoDup_app. split; [|split; [|by constructor; [intros ?%elem_of_nil|constructor]]].
  - apply NoDup_frames; [done|]. intros k k' e e' Hk Hk' E E' Em Em' Ea. pose proof (Hfr k e ltac:(lia) E Em) as H1. pose proof (Hfr k' e' ltac:(lia) E' Em') as H2. rewrite <- Ea in H2.
    pose proof (ho_inj _ _ _ _ Hh _ _ _ (proj1 (page_join tb k Htb ltac:(lia))) (proj1 (page_join tb k' Htb ltac:(lia))) H1 H2). lia.
  - intros x Hx Hx'. apply list_elem_of_singleton in Hx' as ->. apply elem_of_frames in Hx as (k & e & Hk & E & Em & Ea); [|done]. pose proof (Hfr k e ltac:(lia) E Em) as H1.
    destruct (frame_page _ _ (proj1 (page_join tb k Htb ltac:(lia))) H1) as [_ Hn]. rewrite Ea in Hn. by apply Hn, (table_page tb c).
Qed.

(** A page belongs to one table, and to one directory. *)
Lemma table_pages_once tb tb' x : is_tb tb -> is_tb tb' -> x ∈ table_pages s0 tb -> x ∈ table_pages s0 tb' -> tb = tb'.
Proof.
  intros Htb Htb'. rewrite !(elem_of_table_pages s0 Hs Ht others fixed F) by done. intros [(k & Hk & E)|(c & Ec & <-)] [(k' & Hk' & E')|(c' & Ec' & E')].
  - destruct (page_join tb k Htb Hk) as (Hp & H1 & _), (page_join tb' k' Htb' Hk') as (Hp' & H1' & _). pose proof (ho_inj _ _ _ _ Hh _ _ _ Hp Hp' E E') as Eq. congruence.
  - destruct (frame_page _ _ (proj1 (page_join tb k Htb Hk)) E) as [_ Hn]. subst x. by destruct Hn; apply (table_page tb' c').
  - destruct (frame_page _ _ (proj1 (page_join tb' k' Htb' Hk')) E') as [_ Hn]. by destruct Hn; apply (table_page tb c).
  - by apply (sh_table_inj s0 Hs _ _ c c').
Qed.

Lemma table_or_dir tb i x : is_tb tb -> is_dir i -> x ∈ table_pages s0 tb -> dir_at s0 i <> Some x.
Proof.
  intros Htb Hi. rewrite (elem_of_table_pages s0 Hs Ht others fixed F) by done. intros [(k & Hk & E)|(c & Ec & <-)] Hd; [|by apply (table_page tb c Htb Ec) in Hd].
  destruct (frame_page _ _ (proj1 (page_join tb k Htb Hk)) E) as [_ Hn]. by apply Hn, (dir_page i).
Qed.

Lemma NoDup_dir_pages i : is_dir i -> NoDup (dir_pages s0 i).
Proof.
  intros Hi. unfold dir_pages. destruct (dir_at s0 i) as [dp|] eqn:Ed; [|constructor]. apply NoDup_app. split; [|split; [|by constructor; [intros ?%elem_of_nil|constructor]]].
  - apply NoDup_bind.
    + intros j j' x Hj%elem_of_seqZ Hj'%elem_of_seqZ Hx Hx'. pose proof (table_pages_once _ _ x (proj1 (tb_join i j Hi ltac:(lia))) (proj1 (tb_join i j' Hi ltac:(lia))) Hx Hx'). lia.
    + intros j Hj%elem_of_seqZ. apply NoDup_table_pages. apply tb_join; [done|lia].
    + apply NoDup_seqZ.
  - intros x Hx Hx'. apply list_elem_of_singleton in Hx' as ->. apply list_elem_of_bind in Hx as (j & Hx & Hj%elem_of_seqZ).
    by apply (table_or_dir (i * 512 + j) i dp (proj1 (tb_join i j Hi ltac:(lia))) Hi Hx).
Qed.

Lemma NoDup_all_pages : NoDup (all_pages s0).
Proof.
  unfold all_pages. apply NoDup_bind; [|intros i Hi%elem_of_seqZ; apply NoDup_dir_pages; unfold is_dir; lia|apply NoDup_seqZ].
  intros i i' x Hi%elem_of_seqZ Hi'%elem_of_seqZ. assert (Hdi : is_dir i) by (unfold is_dir; lia). assert (Hdi' : is_dir i') by (unfold is_dir; lia).
  rewrite !(elem_of_dir_pages s0 Hs Ht others fixed F) by done. intros [(j & Hj & Hx)|Hx] [(j' & Hj' & Hx')|Hx'].
  - pose proof (table_pages_once _ _ x (proj1 (tb_join i j Hdi Hj)) (proj1 (tb_join i' j' Hdi' Hj')) Hx Hx'). lia.
  - by apply (table_or_dir _ i' x (proj1 (tb_join i j Hdi Hj)) Hdi') in Hx.
  - by apply (table_or_dir _ i x (proj1 (tb_join i' j' Hdi' Hj')) Hdi) in Hx'.
  - by apply (sh_dir_inj s0 Hs _ _ x).
Qed.

Lemma elem_of_all_pages x : x ∈ all_pages s0 <-> x ∈ dom (pages s0) ∪ F.
Proof.
  unfold all_pages. rewrite list_elem_of_bind, elem_of_union. split.
  - intros (i & Hx & Hi%elem_of_seqZ). assert (Hdi : is_dir i) by (unfold is_dir; lia). apply (elem_of_dir_pages s0 Hs Ht others fixed F) in Hx as [(j & Hj & Hx)|Hx]; [|left; by apply (dir_page i)|done|done].
    destruct (tb_join i j Hdi Hj) as (Htb & _). apply (elem_of_table_pages s0 Hs Ht others fixed F) in Hx as [(k & Hk & E)|(c & Ec & <-)]; [right|left; by apply (table_page (i * 512 + j) c)|done|done].
    by apply (frame_page _ _ (proj1 (page_join _ k Htb Hk))).
  - intros [Hx|Hx].
    + destruct (sh_reach s0 Hs x Hx) as [(i & Hi & Ed)|(tb & c & Htb & Ec & Ex)].
      * exists i. split; [|apply elem_of_seqZ; unfold is_dir in Hi; lia]. apply (elem_of_dir_pages s0 Hs Ht others fixed F); [done|done|by right].
      * destruct (tb_split tb Htb) as (Hi & Hj & E). exists (tb / 512). split; [|apply elem_of_seqZ; unfold is_dir in Hi; lia]. apply (elem_of_dir_pages s0 Hs Ht others fixed F); [done|done|]. left.
        exists (tb mod 512). split; [done|]. rewrite <- E. apply (elem_of_table_pages s0 Hs Ht others fixed F); [done|done|]. right. by exists c.
    + apply (ho_frame _ _ _ _ Hh) in Hx as (q & Hq & Ex). destruct (page_split q Hq) as (Htb & Hk & Eq). destruct (tb_split _ Htb) as (Hi & Hj & E).
      exists (q / 512 / 512). split; [|apply elem_of_seqZ; unfold is_dir in Hi; lia]. apply (elem_of_dir_pages s0 Hs Ht others fixed F); [done|done|]. left.
      exists (q / 512 mod 512). split; [done|]. rewrite <- E. apply (elem_of_table_pages s0 Hs Ht others fixed F); [done|done|]. left. exists (q mod 512). split; [done|]. by rewrite <- Eq.
Qed.
End Delete_all.

Lemma user_delete_ok others u : proc_inv others u -> exists p, user_delete u = Ok p /\ good others p /\ promised p = promised (pm (low u)).
Proof.
  intros [[F [Hs Hh]] Ht (Hd & E1 & E2 & E3)]. unfold user_delete. set (s := low u) in *.
  assert (Hel : forall x, x ∈ all_pages s <-> x ∈ dom (pages s) ∪ F) by (by apply (elem_of_all_pages (top_of u ∪ others) 2)).
  destruct (release_all_ok (all_pages s) _ (pm s) (ho_good _ _ _ _ Hh)) as (p & E & Hg & Hpr); [by apply (NoDup_all_pages (top_of u ∪ others) 2 F)|intros x Hx%Hel; set_solver|].
  destruct (delete_pdpt_ok s Hs Ht 512 0 s p) as (s1 & -> & Hpm); [lia|lia|by constructor|done|]. cbn [obind]. rewrite Hpm.
  assert (Hout : (top_of u ∪ others ∪ dom (pages s) ∪ F) ∖ list_to_set (all_pages s) = top_of u ∪ others).
  { destruct (ho_disj _ _ _ _ Hh) as (D1 & D2 & D3). apply set_eq. intros x. rewrite elem_of_difference, elem_of_list_to_set, Hel. set_solver. }
  rewrite Hout in Hg. unfold top_of in Hg, Hd. rewrite E2, E1 in E3. set (c := cr3 u / PAGE_SIZE) in *. set (l := pl4te u / PAGE_SIZE) in *. assert (Hne : c <> l) by (intros ->; done).
  rewrite E2. destruct (release_page _ p l Hg) as (p1 & E4 & Hg1 & Hpr1); [set_solver|]. rewrite E4. cbn [obind].
  rewrite E1. destruct (release_page _ p1 c Hg1) as (p2 & E5 & Hg2 & Hpr2); [set_solver|]. rewrite E5. exists p2. split; [done|]. split; [|congruence].
  replace (({[c; l]} ∪ others) ∖ {[l]} ∖ {[c]}) with others in Hg2; [done|]. apply set_eq. intros x. set_solver.
Qed.

(** ** What a process sees of its memory *)

Lemma user_peek_entry s va : shape s -> 0 <= va < size_512G -> user_peek va s = Ok (default zero_pte (entry s (va / PAGE_SIZE))).
Proof.
  intros Hs Hv. unfold user_peek. rewrite (proj2 (Z.leb_gt _ _)) by lia. unfold imp_peek. rewrite !index_bits by lia.
  unfold size_512G, PAGE_SIZE in *. change 0x8000000000 with 549755813888 in Hv.
  assert (Hl : truth (Z.shiftr (LOWADDR va) 39) = false).
  { rewrite LOWADDR_mod, Z.shiftr_div_pow2 by lia. change (2 ^ 47) with 140737488355328. change (2 ^ 39) with 549755813888. rewrite (Z.mod_small va) by lia. by rewrite Z.div_small by lia. }
  rewrite Hl. assert (Hp : is_pg (va / 4096)) by (unfold is_pg; change (2 ^ 27) with 134217728; dlia). destruct (page_split _ Hp) as (Htb & Hk & _). destruct (tb_split _ Htb) as (Hi & Hj & _).
  assert (E1 : va / 2 ^ 30 mod 512 = va / 4096 / 512 / 512) by (change (2 ^ 30) with 1073741824; clear Hl; dlia).
  assert (E2 : va / 2 ^ 21 mod 512 = va / 4096 / 512 mod 512) by (change (2 ^ 21) with 2097152; rewrite Z.div_div by lia; done).
  rewrite E1, E2. change (2 ^ 12) with 4096. set (q := va / 4096) in *. destruct (sh_pdpt s Hs _ Hi) as [e Ee]. rewrite Ee. cbn [deref obind].
  assert (Hnone : table_at s (q / 512) = None -> entry s q = None) by (intros E; unfold entry, entries_at; by rewrite E).
  destruct (p_present e) eqn:Epr; cbn [negb].
  2:{ rewrite Hnone; [done|]. unfold table_at, pdte_at, dir_at. by rewrite Ee, Epr. }
  assert (Hd : dir_at s (q / 512 / 512) = Some (pdt_addr e)) by (unfold dir_at; by rewrite Ee, Epr).
  destruct (read_pdte_at s _ _ Hs Htb Hd) as (c & Er & Ec). rewrite Er. cbn [obind]. destruct (d_present c) eqn:Ep; cbn [negb].
  - assert (Hby : d_bypass c = false) by (destruct (d_bypass c) eqn:Eb; [by rewrite (sh_bypass s Hs _ c Htb Ec Eb) in Ep|done]).
    assert (Ht : table_at s (q / 512) = Some c) by (unfold table_at, is_table; by rewrite Ec, Ep, Hby).
    destruct (read_pt_at s _ c Hs Htb Ht) as (t & L & Ert & Een & Hok). unfold read_pte. rewrite Ert. cbn [obind]. unfold entry. rewrite Een.
    destruct (pi_entries _ _ _ (po_inv _ _ _ Hok) _ Hk) as [x Ex]. by rewrite Ex.
  - rewrite Hnone; [done|]. unfold table_at, is_table. by rewrite Ec, Ep.
Qed.

(** The space as the interface of [UserMem]; addresses are not negative. *)
Definition space_peek (s : vspace) (va : Z) : PTE := if va <? 0 then zero_pte else match user_peek va s with Ok e => e | _ => zero_pte end.

Lemma space_peek_page s a b : a / PAGE_SIZE = b / PAGE_SIZE -> space_peek s a = space_peek s b.
Proof.
  unfold PAGE_SIZE. intros E. unfold space_peek, user_peek, imp_peek. rewrite !index_bits by lia. rewrite !LOWADDR_mod, !Z.shiftr_div_pow2 by lia. unfold size_512G.
  change 0x8000000000 with 549755813888. change (2 ^ 47) with 140737488355328. change (2 ^ 39) with 549755813888. change (2 ^ 30) with 1073741824. change (2 ^ 21) with 2097152. change (2 ^ 12) with 4096.
  assert (H1 : (a <? 0) = (b <? 0)) by (destruct (Z.ltb_spec a 0), (Z.ltb_spec b 0); dlia || done).
  assert (H2 : (549755813888 <=? a) = (549755813888 <=? b)) by (destruct (Z.leb_spec 549755813888 a), (Z.leb_spec 549755813888 b); dlia || done).
  assert (Hdiv : forall x k, x / (4096 * k) = x / 4096 / k \/ k <= 0) by (intros x k; destruct (Z.le_gt_cases k 0); [by right|left; by rewrite Z.div_div by lia]).
  assert (H3 : a mod 140737488355328 / 549755813888 = b mod 140737488355328 / 549755813888) by dlia.
  assert (H4 : a / 1073741824 = b / 1073741824) by dlia. assert (H5 : a / 2097152 = b / 2097152) by dlia.
  by rewrite H1, H2, H3, H4, H5, E.
Qed.

Lemma space_peek_high s va : UserMem.size_512G <= va -> present (space_peek s va) = false.
Proof.
  intros Hv. unfold space_peek, user_peek. change UserMem.size_512G with size_512G in Hv. destruct (va <? 0); [done|]. by rewrite (proj2 (Z.leb_le _ _)) by done.
Qed.

Definition space_mem (s : vspace) : UserMem.UserSpace :=
  {| UserMem.peek := space_peek s; UserMem.peek_page := space_peek_page s; UserMem.peek_high := space_peek_high s |}.

Lemma space_peek_look s va : shape s -> 0 <= va < size_512G -> core (space_peek s va) = look s (va / PAGE_SIZE).
Proof. intros Hs Hv. unfold space_peek. rewrite (proj2 (Z.ltb_ge _ _)) by lia. by rewrite user_peek_entry. Qed.

Lemma space_usable s w va : shape s -> 0 <= va < size_512G ->
  UserMem.usable (H := space_mem s) w va = present (look s (va / PAGE_SIZE)) && user (look s (va / PAGE_SIZE)) && (negb w || write (look s (va / PAGE_SIZE))).
Proof. intros Hs Hv. rewrite <- space_peek_look by done. done. Qed.

(** No two pages of a process share their memory. *)
Lemma space_own others fixed F s : shape s -> tame s -> holds others fixed F s -> UserMemThm.own_frames (H := space_mem s).
Proof.
  intros Hs Ht Hh w a b Ha Hb E.
  assert (Hrange : forall c, UserMem.usable (H := space_mem s) w c = true -> 0 <= c < size_512G).
  { intros c Hc. split.
    - destruct (Z.le_gt_cases 0 c); [done|]. unfold UserMem.usable, UserMem.peek, space_mem, space_peek in Hc. by rewrite (proj2 (Z.ltb_lt c 0)) in Hc.
    - by apply (UserMemThm.usable_low (H := space_mem s) w). }
  assert (Hframe : forall c, UserMem.usable (H := space_mem s) w c = true -> is_pg (c / PAGE_SIZE) /\
    exists x, frame_at s (c / PAGE_SIZE) = Some x /\ UserMem.phys_of (H := space_mem s) c = x * PAGE_SIZE + c mod PAGE_SIZE).
  { intros c Hc. pose proof (Hrange c Hc) as Hr. rewrite space_usable in Hc by done. apply andb_true_iff in Hc as [[Hp Hu]%andb_true_iff _].
    assert (Hpg : is_pg (c / PAGE_SIZE)) by (unfold is_pg, size_512G, PAGE_SIZE in *; change (2 ^ 27) with 134217728; change 0x8000000000 with 549755813888 in Hr; dlia). split; [done|].
    destruct (Ht _ Hpg) as [Hby Hpa]. specialize (Hpa Hp) as [_ Hpa]. exists (page_addr (look s (c / PAGE_SIZE))).
    assert (Hf : frame_at s (c / PAGE_SIZE) = Some (page_addr (look s (c / PAGE_SIZE)))) by (unfold frame_at, own, mapped; by rewrite Hp, Hpa, Hby). split; [done|].
    assert (HF : page_addr (look s (c / PAGE_SIZE)) ∈ F) by (apply (ho_frame _ _ _ _ Hh); by exists (c / PAGE_SIZE)).
    pose proof (good_page _ _ (page_addr (look s (c / PAGE_SIZE))) (ho_good _ _ _ _ Hh) ltac:(set_solver)) as Hlim.
    unfold UserMem.phys_of. change (UserMem.peek c) with (space_peek s c). change (page_addr (space_peek s c)) with (page_addr (core (space_peek s c))). rewrite space_peek_look by done.
    unfold PAGE_SIZE in *. rewrite wrap_small; [done|]. change (2 ^ 40) with 1099511627776 in Hlim. change (2 ^ 64) with 18446744073709551616. lia. }
  destruct (Hframe a Ha) as (Hpa & x & Ex & Ea), (Hframe b Hb) as (Hpb & y & Ey & Eb). rewrite Ea, Eb in E. unfold PAGE_SIZE in *. clear Ea Eb Hframe.
  assert (x = y) as -> by dlia. pose proof (ho_inj _ _ _ _ Hh _ _ _ Hpa Hpb Ex Ey) as Eq. dlia.
Qed.

(** ** The properties *)

(** C5. The life of the address space of a process.  Whatever calls the process makes, in any order and with any arguments,
    with other clients of the page allocator in between: no assertion of the space or the allocator fails and every call
    answers; no page of the machine is ever behind two pages of the process, a page of its tables, or in the hands of
    anyone else; and [usage] is the number of pages it holds.  Asked for are only runs of free pages at which the table methods do not stop. *)
Theorem space_safe others u c : lives others u -> call_ok c (low u) = true ->
  exists r s, do_call c (low u) = Ok (r, s) /\ lives others (with_low s u) /\
    (forall q q' x, is_pg q -> is_pg q' -> frame_at s q = Some x -> frame_at s q' = Some x -> q = q') /\
    mapped_of s ## dom (pages s) /\ others ## own_of (with_low s u) /\
    used_pages s = w64 (Z.of_nat (base.size (dom (pages s))) + Z.of_nat (base.size (mapped_of s)) + 2).
Proof.
  intros Hl Hc. pose proof (lives_inv _ _ Hl) as Hi. destruct (pr_order _ _ Hi) as [F Ho]. destruct (do_call_ok _ F (low u) c Ho (pr_tame _ _ Hi) Hc) as (r & F' & s & E & [Hs Hh] & Ht).
  exists r, s. split; [done|]. split; [by apply (lives_call others u c r s)|]. pose proof (mapped_of_holds _ _ _ _ Hs Ht Hh) as <-. destruct (ho_disj _ _ _ _ Hh) as (D1 & D2 & D3).
  split; [by intros q q' x; apply (ho_inj _ _ _ _ Hh)|]. split; [done|]. split.
  - unfold own_of. change (top_of (with_low s u)) with (top_of u). change (low (with_low s u)) with s. rewrite <- (mapped_of_holds _ _ _ _ Hs Ht Hh). pose proof (pr_top _ _ Hi) as [Htop _]. set_solver.
  - rewrite (ho_used _ _ _ _ Hh). f_equal. lia.
Qed.

(** C6. The end of a process: from any moment of the life of its space, the destructor ends without a failed assertion and gives
    back every page the space has taken, each of them once; the allocator is left with the pages of the others, and with every page that was promised. *)
Theorem space_returns_all others u : lives others u -> exists p, user_delete u = Ok p /\ good others p /\ promised p = promised (pm (low u)).
Proof. intros Hl. apply user_delete_ok. by apply lives_inv. Qed.

(** C7. [commit] of a range is all or nothing.  It succeeds only for pages that are all reserved and not yet backed, and only if the
    allocator can promise that many: then each of them, and no other page, is backed by a page of the machine that was in nobody's
    hands, writable, for the user, not executable.  Otherwise no page changes. *)
Theorem user_commit_correct others u a n : lives others u -> 0 <= a -> 0 <= n < 2 ^ 32 ->
  exists b s, user_commit a n (low u) = Ok (b, s) /\
    if b then user_check a n = true /\ forall q, is_pg q ->
        if decide (page_of a <= q < page_of a + n)
        then can_commit (look (low u) q) = true /\ exists x, look s q = commit_pte true x (look (low u) q) /\ x ∈ mapped_of s /\ x ∉ others ∪ own_of u
        else look s q = look (low u) q
    else forall q, is_pg q -> look s q = look (low u) q.
Proof.
  intros Hl Ha Hn. pose proof (lives_inv _ _ Hl) as Hi. destruct (pr_order _ _ Hi) as [F Ho]. pose proof (pr_tame _ _ Hi) as Ht. pose proof Ho as [Hs Hh].
  destruct (user_commit_ok _ 2 F (low u) a n Ho Ha Hn) as (b & F' & s & E & [Hs' Hh'] & Hcase). exists b, s. split; [done|]. destruct b; [|by destruct Hcase].
  destruct Hcase as (Hck & Hall & _ & Hcm). split; [done|].
  assert (Ht' : tame s) by (apply (committed_tame _ _ _ _ _ _ F' Ht (mapped_not_zero _ _ _ _ Hh') Hcm)).
  intros q Hq. specialize (Hcm q Hq). case_decide as Hd; [|done]. destruct (Hall q Hd) as [_ Hc]. split; [done|]. destruct Hcm as (x & Hx & Hnx & El). exists x. split; [done|].
  rewrite <- (mapped_of_holds _ _ _ _ Hs' Ht' Hh'). split; [done|]. unfold own_of. rewrite <- (mapped_of_holds _ _ _ _ Hs Ht Hh). set_solver.
Qed.

(** [reserve] without an address: what it answers is below 4G, since the address is computed in 32 bits; the pages it has
    reserved for it were free, and are where the answer says only if they lie below 4G as well. *)
Theorem reserve_any_below_4G others u n r s : lives others u -> 0 <= n -> user_reserve 0 n (low u) = Ok (r, s) ->
  0 <= r < 2 ^ 32 /\ (r <> 0 -> exists q, 0 <= q /\ q + n <= 2 ^ 27 /\ r = (q * PAGE_SIZE) mod 2 ^ 32 /\
    (r = q * PAGE_SIZE <-> q < 2 ^ 20) /\
    forall i, q <= i < q + n -> is_free (look (low u) i) = true /\ look s i = set_preserve true (look (low u) i)).
Proof.
  intros Hl Hn E. pose proof (lives_inv _ _ Hl) as Hi. destruct (pr_order _ _ Hi) as [F Ho].
  destruct (user_reserve_any_ok _ 2 F (low u) n Ho Hn) as (r' & s' & E' & _ & _ & _ & Hgot). rewrite E in E'. injection E' as <- <-.
  destruct (Z.eqb_spec r 0) as [->|Hne]; [done|]. assert (Htr : truth r = true) by (unfold truth; by apply negb_true_iff, Z.eqb_neq).
  destruct (Hgot Htr) as (q & H1 & H2 & Hr & H4). unfold wrap in Hr. split; [rewrite Hr; by apply Z.mod_pos_bound|]. intros _. exists q. do 3 (split; [done|]). split; [|done].
  rewrite Hr. unfold PAGE_SIZE. change (2 ^ 32) with 4294967296. change (2 ^ 20) with 1048576. clear -H1. split; intros; dlia.
Qed.

(** C9. What [commit] has made usable can be used: data copied anywhere into a range just committed arrives in full, is read back as
    it was, and changes no other byte of the machine's memory, however it lies on the pages. *)
Theorem commit_then_copy others u a n s va data m : lives others u -> 0 <= a -> 0 <= n < 2 ^ 32 -> user_commit a n (low u) = Ok (true, s) ->
  a <= va -> va + Z.of_nat (length data) <= a + n * PAGE_SIZE -> Z.of_nat (length data) < 2 ^ 32 ->
  let mem := space_mem s in
  exists m', UserMem.write (H := mem) va data m = Ok (Z.of_nat (length data), m') /\ UserMem.read (H := mem) va (Z.of_nat (length data)) m' = Ok (Z.of_nat (length data), data) /\
    forall x, (forall i, 0 <= i < Z.of_nat (length data) -> UserMem.phys_of (H := mem) (va + i) <> x) -> UserMem.phys m' x = UserMem.phys m x.
Proof.
  intros Hl Ha Hn E Hva Hend Hlen mem. pose proof (lives_inv _ _ Hl) as Hi. destruct (pr_order _ _ Hi) as [F Ho]. pose proof (pr_tame _ _ Hi) as Ht.
  destruct (user_commit_ok _ 2 F (low u) a n Ho Ha Hn) as (b & F' & s' & E' & [Hs' Hh'] & Hcase). rewrite E in E'. injection E' as <- <-. destruct Hcase as (Hck & Hall & _ & Hcm).
  assert (Ht' : tame s) by (apply (committed_tame _ _ _ _ _ _ F' Ht (mapped_not_zero _ _ _ _ Hh') Hcm)).
  destruct (user_range a n Ha Hn Hck) as (_ & _ & Hpe & Epg & Hlow). rewrite Epg in *. assert (Hal : a mod PAGE_SIZE = 0).
  { unfold user_check in Hck. bool_norm. unfold truth in *. bool_norm. by rewrite land_PAGE_MASK in *. }
  unfold PAGE_SIZE in *. change (2 ^ 27) with 134217728 in Hpe.
  assert (Hus : forall j, 0 <= j < Z.of_nat (length data) -> UserMem.usable (H := mem) true (va + j) = true).
  { intros j Hj. unfold mem. rewrite space_usable by (done || unfold size_512G; dlia). unfold PAGE_SIZE. assert (Hq : is_pg ((va + j) / 4096)) by (unfold is_pg; change (2 ^ 27) with 134217728; dlia).
    specialize (Hcm _ Hq). rewrite decide_True in Hcm by dlia. destruct Hcm as (x & _ & _ & ->). done. }
  assert (Hv : va < 2 ^ 63). { destruct data as [|b data]; [cbn in Hend; change (2 ^ 63) with 9223372036854775808; clear -Hend Hpe Hal Ha; dlia|cbn [length] in Hend; change (2 ^ 63) with 9223372036854775808; clear -Hend Hpe Hal Ha; dlia]. }
  pose proof (UserMemThm.high_or_low va ltac:(lia)) as Hh.
  destruct (UserMemThm.user_write_ok (H := mem) va data m ltac:(lia) Hh Hlen) as (m' & Ew & _ & _). rewrite (UserMemThm.avail_all (H := mem)) in Ew by done.
  exists m'. split; [done|]. destruct (UserMemThm.user_round_trip (H := mem) va data m _ m' (space_own _ 2 F' s Hs' Ht' Hh') ltac:(lia) Hh Hlen Ew) as [Er Hother].
  split; [|done]. rewrite Er, Nat2Z.id, firstn_all. done.
Qed.

(** C8. [reserve] at an address is all or nothing, across tables and directories: either every page of the range was free, the
    answer is the address, and exactly these pages are reserved now; or the answer is 0 and no page has changed, whatever had
    been taken before the obstacle was met. *)
Theorem reserve_at_correct others u a n : lives others u -> 0 < a -> call_ok (CallReserve a n) (low u) = true ->
  exists r s, user_reserve a n (low u) = Ok (r, s) /\
    if r =? 0 then forall q, is_pg q -> look s q = look (low u) q
    else r = a /\ user_check a n = true /\ (forall q, page_of a <= q < page_of a + n -> is_free (look (low u) q) = true) /\
      forall q, is_pg q -> look s q = if decide (page_of a <= q < page_of a + n) then set_preserve true (look (low u) q) else look (low u) q.
Proof.
  intros Hl Ha Hc. pose proof (lives_inv _ _ Hl) as Hi. destruct (pr_order _ _ Hi) as [F Ho]. cbn [call_ok] in Hc. apply andb_true_iff in Hc as [Hc Hcalm]. bool_norm.
  destruct (user_reserve_at_ok _ 2 F (low u) a n Ho ltac:(lia) Ha) as (r & s & E & _ & _ & Hcase); [|by exists r, s].
  intros Hck. rewrite Hck in Hcalm. by rewrite (proj2 (Z.eqb_neq a 0)) in Hcalm by lia.
Qed.

(** The release of a range is all or nothing: it succeeds exactly when every page is reserved or backed for the user; then all of them, and no
    other page, are free, and the pages that were behind them are with the allocator again. *)
Theorem user_release_correct others u a n : lives others u -> call_ok (CallRelease a n) (low u) = true -> user_check a n = true ->
  exists b s, user_release a n (low u) = Ok (b, s) /\ b = bool_decide (Forall (fun q => can_release true (look (low u) q) = true) (seqZ (page_of a) n)) /\
    if b then mapped_of s ⊆ mapped_of (low u) /\ forall q, is_pg q -> if decide (page_of a <= q < page_of a + n) then is_free (look s q) = true /\ frame_at s q = None else look s q = look (low u) q
    else s = low u.
Proof.
  intros Hl Hc Hck. pose proof (lives_inv _ _ Hl) as Hi. destruct (pr_order _ _ Hi) as [F Ho]. pose proof Ho as [Hs Hh]. pose proof (pr_tame _ _ Hi) as Ht. cbn [call_ok] in Hc. apply andb_true_iff in Hc as [Hc Hcalm]. bool_norm.
  rewrite Hck in Hcalm. cbn [negb orb] in Hcalm. apply negb_true_iff in Hcalm. destruct (user_range a n ltac:(lia) ltac:(lia) Hck) as (Hg & Hb & Hend & _).
  destruct (release_range_ok true _ 2 F (low u) a n (page_of a) Ho Hg Hb Hend Hcalm) as (b & F' & s & E & [Hs' Hh'] & _ & Hcase). exists b, s. unfold user_release. rewrite Hck. cbn [negb].
  split; [done|]. destruct b.
  - destruct Hcase as (Hsub & Hall & Hlk). split.
    { rewrite bool_decide_eq_true_2; [done|]. apply Forall_forall. intros q Hq%elem_of_seqZ. apply Hall. lia. }
    assert (Ht' : tame s) by (by apply (released_tame (low u) s (page_of a) n)).
    split; [by rewrite <- (mapped_of_holds _ _ _ _ Hs' Ht' Hh'), <- (mapped_of_holds _ _ _ _ Hs Ht Hh)|].
    intros q Hq. pose proof (Hlk q Hq) as El. case_decide as Hd; [|done]. unfold frame_at. rewrite El. split; [|apply own_released].
    rewrite is_free_core'. apply released_entry_free. specialize (Hall q Hd). unfold can_release in Hall. unfold releasable, mapped. destruct (bypass (look (low u) q)); [done|].
    destruct (present (look (low u) q)); cbn [negb andb orb]; [apply andb_true_iff in Hall as [E1 _]; by rewrite E1|by rewrite Hall].
  - destruct Hcase as (_ & -> & q & Hq & Hn). split; [|done]. rewrite bool_decide_eq_false_2; [done|]. intros Hall. rewrite Forall_forall in Hall. rewrite Hall in Hn; [done|]. apply elem_of_seqZ. lia.
Qed.

Lemma full_stops pdt t index count : get_max_size pdt = 0 -> imp_reserve_fixed pdt t index count = Bug.
Proof.
  intros Hm. unfold imp_reserve_fixed. rewrite Hm. change (0 <? 0) with false. rewrite andb_false_r. by destruct (ensure (truth count && _)) as [[]| |] eqn:E; [|done|unfold ensure in E; destruct (_ && _)].
Qed.

(** A process can stop the machine: [reserve] at an address whose 2M region is taken from end to end fails an assertion of
    [imp_reserve_fixed], instead of answering 0. *)
Theorem reserve_full_stops others u a : lives others u -> 0 <= a -> user_check a 1 = true ->
  (exists c, table_at (low u) (page_of a / 512) = Some c) -> (forall k, free_page (low u) (page_of a / 512) k = false) -> user_reserve a 1 (low u) = Bug.
Proof.
  intros Hl Ha Hck [c Hc] Hfull. pose proof (lives_inv _ _ Hl) as Hi. destruct (pr_order _ _ Hi) as [F [Hs Hh]]. set (s := low u) in *.
  destruct (user_range a 1 Ha ltac:(lia) Hck) as (Hg & Hb & Hend & _). pose proof Hg as (H1 & H2 & _ & H4 & _). destruct (start_stands a 1 _ Hg) as (Hdi & Hdj & [E0 _]). rewrite Z.add_0_r in E0.
  unfold user_reserve. rewrite (truth_pos a), Hck by done. cbn [negb]. unfold reserve_fixed. rewrite (truth_pos a), land_PAGE_MASK, H2, H4 by done. cbn [truth andb ensure obind Z.eqb negb].
  set (i := Z.land (Z.shiftr a 30) 0x1FF) in *. set (j := Z.land (Z.shiftr a 21) 0x1FF) in *. rewrite E0 in Hc, Hfull. destruct (tb_join i j Hdi Hdj) as (Htb & Ei & Ej).
  destruct (table_parts s _ c Hs Htb Hc) as (dp & d & t & L & Hd & Ed & Ec & Er & Et & Ert & Hok & Een). rewrite Ei in Hd. rewrite Ej in Er. destruct (table_at_is _ _ _ Hc) as (_ & Hp & Hby).
  assert (HL : L = []).
  { destruct L as [|[b m] L]; [done|]. exfalso. destruct (block_run c t _ (po_inv _ _ _ Hok) b m) as (_ & _ & Hall & _); [by left|].
    pose proof (chain_range _ _ _ _ b m (ls_chain _ _ _ (pi_listed _ _ _ (po_inv _ _ _ Hok))) ltac:(by left)) as Hr.
    specialize (Hfull b). rewrite (free_page_table s _ t b c ((b, m) :: L) Htb Een Hok), Hall in Hfull by lia. done. }
  assert (Hm : get_max_size c = 0) by (by apply (max_size_zero c t L (pi_listed _ _ _ (po_inv _ _ _ Hok)))).
  change 513%nat with (S 512). generalize 512%nat. intros fuel. cbn [fixed_pdpt]. change (0 <? 1) with true. cbn iota. unfold open_pdt. unfold dir_at in Hd. destruct (pdpt s !! i) as [e|] eqn:Ee; [|done]. destruct (p_present e) eqn:Epr; [|done]. injection Hd as Hd.
  cbn [deref obind]. rewrite Epr. cbn [obind]. rewrite Hd. change 513%nat with (S 512). generalize 512%nat. intros fuel'. cbn [fixed_pdt]. change (0 <? 1) with true. cbn iota. rewrite Er. cbn [obind]. rewrite Hby. unfold open_pt. rewrite Er. cbn [obind]. rewrite Hp. cbn [obind].
  unfold on_table. rewrite Er. cbn [obind]. rewrite Ert. cbn [obind]. rewrite (full_stops c t) by done. done.
Qed.

(** The kernel takes a refusal for a success: when no room is found its [reserve] answers the lowest address of the kernel, not 0. *)
Lemma kernel_reserve_never_refuses n s s' : 1 <= n < 0x200 -> reserve_any n s = Ok (0, s') -> kernel_reserve 0 n s = Ok (HIGHADDR 0, s').
Proof.
  intros Hn E. unfold kernel_reserve. cbn [truth negb Z.eqb]. rewrite (truth_pos n) by lia. rewrite (proj2 (Z.ltb_ge _ _)) by lia. rewrite (proj2 (Z.ltb_lt _ _)) by lia. cbn [negb orb].
  rewrite E. cbn [obind]. rewrite ensure_true; [done|]. unfold kernel_check. rewrite (truth_pos n) by lia. change (truth (HIGHADDR 0)) with true. change (truth (Z.land (HIGHADDR 0) PAGE_MASK)) with false.
  change (IS_HIGHADDR (HIGHADDR 0)) with true. cbn [andb orb negb]. apply negb_true_iff, Z.ltb_ge. rewrite LOWADDR_mod. change (HIGHADDR 0) with (2 ^ 64 - 2 ^ 47). unfold wrap, size_512G, PAGE_SIZE.
  change (2 ^ 64) with 18446744073709551616. change (2 ^ 47) with 140737488355328. change 0x200 with 512 in Hn. change 0x8000000000 with 549755813888. dlia.
Qed.
End Proofs.
End ProcSpace.

(** ** A process on the allocator of [PM] *)
Module ProcWitness.
Import PageTable VSpace VSpaceThm VSpaceInv VSpaceOps ProcSpace.

#[local] Instance w_phys : Phys := phys_pm PM.PM.no_callback.

(** A row of calls; [None] when one is not allowed or does not answer. *)
Fixpoint run (cs : list call) (u : user_vspace) : option user_vspace :=
  match cs with
  | [] => Some u
  | c :: cs => if call_ok c (low u) then match do_call c (low u) with Ok (_, s) => run cs (with_low s u) | _ => None end else None
  end.

Lemma lives_run others cs u u' : lives others u -> run cs u = Some u' -> lives others u'.
Proof.
  revert u. induction cs as [|c cs IH]; intros u Hl; cbn [run]; [by intros [= <-]|]. destruct (call_ok c (low u)) eqn:Ec; [|done].
  destruct (do_call c (low u)) as [[r s]| |] eqn:E; [|done..]. apply IH. by apply (lives_call others u c r s).
Qed.

Definition check_life (cs : list call) (check : user_vspace -> bool) (p : PM.PM.pm) : bool :=
  (3 <? pm_spare p) && match user_new p with Ok u => match run cs u with Some u' => check u' | None => false end | _ => false end.

(** A space at a moment of its life, where a test holds. *)
Lemma some_life cs check : check_life cs check PM.PM.demo = true -> exists u, lives ∅ u /\ check u = true.
Proof.
  intros E. destruct (demo_good _ E) as (p & Hg & Hc). unfold check_life in Hc. apply andb_true_iff in Hc as [Hs Hc]. apply Z.ltb_lt in Hs.
  destruct (@user_new w_phys p) as [u| |] eqn:Eu; [|done..]. destruct (run cs u) as [u'|] eqn:Er; [|done]. exists u'. split; [|exact Hc].
  apply (lives_run ∅ cs u u'); [|exact Er]. exact (@lives_new w_phys ∅ p u Hg Hs Eu).
Qed.

Definition answers {A} (f : A -> bool) (o : outcome A) : bool := match o with Ok a => f a | _ => false end.

Lemma answers_true {A} (f : A -> bool) (o : outcome A) : answers f o = true -> exists a, o = Ok a /\ f a = true.
Proof. destruct o as [a| |]; [|done..]. by exists a. Qed.

(** Three pages somewhere: they are the last of the first table that can be had. *)
Definition three : list call := [CallReserve 0 3].

Definition three_checks (u : user_vspace) : bool :=
  call_ok (CallCommit 0x3FD000 2) (low u) && call_ok (CallReserve 0x3FC000 1) (low u) && call_ok (CallRelease 0x3FD000 3) (low u) && user_check 0x3FD000 3 &&
  answers fst (user_commit 0x3FD000 2 (low u)) && answers fst (user_release 0x3FD000 3 (low u)) &&
  answers (fun r => fst r =? 0x3FC000) (user_reserve 0x3FC000 1 (low u)) && answers (fun r => fst r =? 0x3FB000) (user_reserve 0 2 (low u)).

Lemma three_calls : exists u, lives ∅ u /\ three_checks u = true.
Proof. apply (some_life three). vm_compute. reflexivity. Qed.

Lemma iterate_pages_witness :
  imp_iterate (looks can_commit) 0x3FF000 3 (new_low 5 PM.PM.demo zero_pdpts zero_directory) = visit (looks can_commit) 3 0x3FF 0x3FF000 0 (new_low 5 PM.PM.demo zero_pdpts zero_directory).
Proof. exact (iterate_pages (looks can_commit) 0x3FF000 3 (new_low 5 PM.PM.demo zero_pdpts zero_directory) ltac:(lia) eq_refl ltac:(lia)). Defined.

Lemma space_safe_witness : exists u r s, do_call (CallCommit 0x3FD000 2) (low u) = Ok (r, s) /\ mapped_of s ## dom (pages s).
Proof.
  destruct three_calls as (u & Hl & Hc). unfold three_checks in Hc. bool_norm.
  destruct (space_safe ∅ u (CallCommit 0x3FD000 2) Hl ltac:(assumption)) as (r & s & E & _ & _ & Hd & _). exact (ex_intro _ u (ex_intro _ r (ex_intro _ s (conj E Hd)))).
Defined.

Lemma space_returns_all_witness : exists u p, three_checks u = true /\ user_delete u = Ok p /\ good ∅ p.
Proof.
  destruct three_calls as (u & Hl & Hc). destruct (space_returns_all ∅ u Hl) as (p & E & Hg & _). exact (ex_intro _ u (ex_intro _ p (conj Hc (conj E Hg)))).
Defined.

Lemma user_commit_correct_witness : exists u s, user_commit 0x3FD000 2 (low u) = Ok (true, s) /\ exists x, look s 0x3FE = commit_pte true x (look (low u) 0x3FE) /\ x ∉ ∅ ∪ own_of u.
Proof.
  destruct three_calls as (u & Hl & Hc). unfold three_checks in Hc. bool_norm. destruct (user_commit_correct ∅ u 0x3FD000 2 Hl ltac:(lia) ltac:(lia)) as (b & s & E & Hb).
  destruct (answers_true fst (user_commit 0x3FD000 2 (low u)) ltac:(assumption)) as ([b' s'] & E' & Et). rewrite E in E'. injection E' as <- <-. cbn in Et. subst b. exists u, s. split; [exact E|].
  destruct Hb as [_ Hb]. specialize (Hb 0x3FE ltac:(split; done)). rewrite decide_True in Hb by (vm_compute; split; [discriminate|reflexivity]).
  destruct Hb as (_ & x & Hx & _ & Hn). exists x. split; [exact Hx|exact Hn].
Defined.

Lemma reserve_any_below_4G_witness : exists u s, user_reserve 0 2 (low u) = Ok (0x3FB000, s) /\ 0 <= 0x3FB000 < 2 ^ 32.
Proof.
  destruct three_calls as (u & Hl & Hc). unfold three_checks in Hc. bool_norm.
  destruct (answers_true (fun r => fst r =? 0x3FB000) (user_reserve 0 2 (low u)) ltac:(assumption)) as ([r s] & E & Er). apply Z.eqb_eq in Er. cbn in Er. subst r.
  exists u, s. split; [exact E|]. exact (proj1 (reserve_any_below_4G ∅ u 2 0x3FB000 s Hl ltac:(lia) E)).
Defined.

Lemma commit_then_copy_witness : exists u s m', user_commit 0x3FD000 2 (low u) = Ok (true, s) /\
  UserMem.write (H := space_mem s) 0x3FDFFE [1; 2; 3; 4] UserMemWitness.w_mem = Ok (4, m') /\ UserMem.read (H := space_mem s) 0x3FDFFE 4 m' = Ok (4, [1; 2; 3; 4]).
Proof.
  destruct three_calls as (u & Hl & Hc). unfold three_checks in Hc. bool_norm.
  destruct (answers_true fst (user_commit 0x3FD000 2 (low u)) ltac:(assumption)) as ([b s] & E & Eb). cbn in Eb. subst b.
  destruct (commit_then_copy ∅ u 0x3FD000 2 s 0x3FDFFE [1; 2; 3; 4] UserMemWitness.w_mem Hl ltac:(lia) ltac:(lia) E ltac:(lia) ltac:(vm_compute; discriminate) ltac:(vm_compute; reflexivity)) as (m' & Ew & Er & _).
  exists u, s, m'. split; [exact E|]. split; [exact Ew|exact Er].
Defined.

Lemma reserve_at_correct_witness : exists u s, user_reserve 0x3FC000 1 (low u) = Ok (0x3FC000, s) /\ look s 0x3FC = set_preserve true (look (low u) 0x3FC).
Proof.
  destruct three_calls as (u & Hl & Hc). unfold three_checks in Hc. bool_norm. destruct (reserve_at_correct ∅ u 0x3FC000 1 Hl ltac:(lia) ltac:(assumption)) as (r & s & E & Hb).
  destruct (answers_true (fun r => fst r =? 0x3FC000) (user_reserve 0x3FC000 1 (low u)) ltac:(assumption)) as ([r' s'] & E' & Et). rewrite E in E'. injection E' as <- <-. apply Z.eqb_eq in Et. cbn in Et. subst r.
  exists u, s. split; [exact E|]. change (0x3FC000 =? 0) with false in Hb. cbn iota in Hb. destruct Hb as (_ & _ & _ & Hb). specialize (Hb 0x3FC ltac:(split; done)).
  rewrite decide_True in Hb by (vm_compute; split; [discriminate|reflexivity]). exact Hb.
Defined.

Lemma user_release_correct_witness : exists u s, user_release 0x3FD000 3 (low u) = Ok (true, s) /\ is_free (look s 0x3FE) = true.
Proof.
  destruct three_calls as (u & Hl & Hc). unfold three_checks in Hc. bool_norm. destruct (user_release_correct ∅ u 0x3FD000 3 Hl ltac:(assumption) ltac:(assumption)) as (b & s & E & _ & Hb).
  destruct (answers_true fst (user_release 0x3FD000 3 (low u)) ltac:(assumption)) as ([b' s'] & E' & Et). rewrite E in E'. injection E' as <- <-. cbn in Et. subst b. exists u, s. split; [exact E|].
  destruct Hb as [_ Hb]. specialize (Hb 0x3FE ltac:(split; done)). rewrite decide_True in Hb by (vm_compute; split; [discriminate|reflexivity]). exact (proj1 Hb).
Defined.

(** The whole second region is reserved. *)
Definition full_checks (u : user_vspace) : bool :=
  user_check 0x210000 1 && match table_at (low u) 1 with Some _ => true | None => false end && forallb (fun k => negb (free_page (low u) 1 k)) (seqZ 0 512).

Lemma full_call : exists u, lives ∅ u /\ full_checks u = true.
Proof. apply (some_life [CallReserve 0x200000 512]). vm_compute. reflexivity. Qed.

Lemma reserve_full_stops_witness : exists u, lives ∅ u /\ user_reserve 0x210000 1 (low u) = Bug.
Proof.
  destruct full_call as (u & Hl & Hc). unfold full_checks in Hc. bool_norm. exists u. split; [exact Hl|]. apply (reserve_full_stops ∅ u 0x210000 Hl ltac:(lia) ltac:(assumption)).
  - change (page_of 0x210000 / 512) with 1. destruct (table_at (low u) 1) as [c|]; [by exists c|done].
  - change (page_of 0x210000 / 512) with 1. intros k. destruct (decide (0 <= k < 512)) as [Hk|Hk]; [|unfold free_page; by rewrite bool_decide_eq_false_2].
    match goal with Hf : forallb _ _ = true |- _ => rewrite forallb_forall in Hf; apply negb_true_iff, Hf end. apply list_elem_of_In, elem_of_seqZ. lia.
Defined.
End ProcWitness.
