(* ===== verification/KernelSpace.v ===== *)
(** * Views of physical pages, and the address space of the kernel at its start

    [map_view] (src/kernel/memory/vm.cpp) finds a page a place among 512 slots that all cores share, with atomic exchanges and no
    lock: it is modelled access by access.  The constructor of [kernel_vspace] (src/kernel/memory/kernel_vspace.cpp) turns what
    the loader has left into a table that [PageTable] can work on. *)

From S2P Require Import Prelude Const Phys.
From S2P Require Import PageTable VSpace VSpaceInv VSpaceOps.

Module MapView.

(** What a view is doing: looking at a slot, about to exchange the value it has read there, or mapped to a page through a slot. *)
Inductive map_view :=
  | Unmapped
  | Scan (value index : Z)
  | Exchange (value index origin_value : Z)
  | Mapped (value index : Z).

Abbreviation slots := (gmap Z Z).

Definition start (pa attrib : Z) : outcome map_view :=
  assert! Z.land pa PAGE_MASK =? 0;
  assert! Z.land attrib 0x7FFFFFFFFFFFF004 =? 0;
  Ok (Scan (Z.lor (Z.lor attrib pa) PAGE_PRESENT) 0).

(** One access to the slots. *)
Definition access (v : map_view) (t : slots) : outcome (map_view * slots) :=
  match v with
  | Unmapped => Ok (Unmapped, t)
  | Scan value index =>
      if index <? 0x200 then
        let! origin_value := deref (t !! index);
        if truth (Z.land origin_value 1) then Ok (Scan value (index + 1), t) else Ok (Exchange value index origin_value, t)
      else Bug
  | Exchange value index origin_value =>
      let! old := deref (t !! index);
      let t := if old =? origin_value then <[index := value]> t else t in
      if Z.land (Z.lxor origin_value old) (w64 (Z.lnot 0x60)) =? 0 then Ok (Mapped value index, t) else Ok (Scan value (index + 1), t)
  | Mapped value index =>
      assert! index <? 0x200;
      let! origin_value := deref (t !! index);
      assert! truth (Z.land origin_value 1);
      Ok (Unmapped, <[index := 0]> t)
  end.

(** All views of the machine; each of them may be the next to go on. *)
Definition world : Type := (nat -> map_view) * slots.
Definition set_view (i : nat) (v : map_view) (vs : nat -> map_view) : nat -> map_view := fun j => if decide (j = i) then v else vs j.

Inductive step : world -> world -> Prop :=
  | step_start i pa attrib v vs t : vs i = Unmapped -> 0 <= pa < 2 ^ 52 -> 0 <= attrib < 2 ^ 64 -> start pa attrib = Ok v -> step (vs, t) (set_view i v vs, t)
  | step_access i v vs t t' : access (vs i) t = Ok (v, t') -> step (vs, t) (set_view i v vs, t').

(** At the start of the system no view is mapped and the slots are clear. *)
Definition clear : slots := gset_to_gmap 0 (list_to_set (seqZ 0 512)).
Inductive reachable : world -> Prop :=
  | reach_start : reachable (fun _ => Unmapped, clear)
  | reach_step w w' : reachable w -> step w w' -> reachable w'.

Record views_ok (w : world) : Prop := {
  vo_slot i : 0 <= i < 512 -> exists x, w.2 !! i = Some x /\ 0 <= x < 2 ^ 64 /\ (x = 0 \/ Z.testbit x 0 = true);
  vo_view j : match w.1 j with
              | Unmapped => True
              | Scan value index => 0 <= index <= 512 /\ Z.testbit value 0 = true /\ 0 <= value < 2 ^ 64
              | Exchange value index origin => 0 <= index < 512 /\ Z.testbit value 0 = true /\ 0 <= value < 2 ^ 64 /\ origin = 0
              | Mapped value index => 0 <= index < 512 /\ Z.testbit value 0 = true /\ w.2 !! index = Some value
              end;
  vo_apart j k x y i : w.1 j = Mapped x i -> w.1 k = Mapped y i -> j = k
}.

Lemma bit0_land x : truth (Z.land x 1) = Z.testbit x 0.
Proof.
  change 1 with (2 ^ 1 - 1). rewrite land_low_mask by lia. change (2 ^ 1) with 2. rewrite <- Z.bit0_mod. by destruct (Z.testbit x 0).
Qed.

(** The exchange has taken place exactly when the slot was still free. *)
Lemma exchange_test old : 0 <= old < 2 ^ 64 -> old = 0 \/ Z.testbit old 0 = true -> (Z.land (Z.lxor 0 old) (w64 (Z.lnot 0x60)) =? 0) = (old =? 0).
Proof.
  intros Hr [->|Hb]; [done|]. rewrite Z.lxor_0_l. destruct (Z.eqb_spec old 0) as [->|]; [done|]. apply Z.eqb_neq. intros E. apply (f_equal (fun z => Z.testbit z 0)) in E.
  rewrite Z.land_spec, Hb in E. done.
Qed.

Lemma start_value pa attrib v : 0 <= pa < 2 ^ 52 -> 0 <= attrib < 2 ^ 64 -> start pa attrib = Ok v -> v = Scan (Z.lor (Z.lor attrib pa) 1) 0 /\ Z.testbit (Z.lor (Z.lor attrib pa) 1) 0 = true /\ 0 <= Z.lor (Z.lor attrib pa) 1 < 2 ^ 64.
Proof.
  unfold start. intros Hp Ha E. norm. split; [done|]. split; [by rewrite Z.lor_spec, orb_true_r|]. split; [by rewrite !Z.lor_nonneg; lia|].
  destruct (Z.eq_dec (Z.lor (Z.lor attrib pa) 1) 0) as [->|Hne]; [done|]. assert (0 <= Z.lor (Z.lor attrib pa) 1) by (rewrite !Z.lor_nonneg; lia).
  apply Z.log2_lt_pow2; [lia|]. rewrite !Z.log2_lor by (rewrite ?Z.lor_nonneg; lia). change (Z.log2 1) with 0.
  assert (Z.log2 attrib < 64) by (destruct (Z.eq_dec attrib 0) as [->|]; [done|apply Z.log2_lt_pow2; lia]). assert (Z.log2 pa < 64) by (destruct (Z.eq_dec pa 0) as [->|]; [done|apply Z.log2_lt_pow2; lia]). lia.
Qed.

Lemma set_view_eq i v vs : set_view i v vs i = v.
Proof. unfold set_view. by rewrite decide_True. Qed.
Lemma set_view_ne i j v vs : j <> i -> set_view i v vs j = vs j.
Proof. intros. unfold set_view. by rewrite decide_False. Qed.

(** A view goes on without a change of the slots, and without being mapped after it. *)
Lemma quiet_view i v vs t : views_ok (vs, t) -> (forall x k, v <> Mapped x k) ->
  match v with Scan value index => 0 <= index <= 512 /\ Z.testbit value 0 = true /\ 0 <= value < 2 ^ 64 | Exchange value index origin => 0 <= index < 512 /\ Z.testbit value 0 = true /\ 0 <= value < 2 ^ 64 /\ origin = 0 | _ => True end ->
  views_ok (set_view i v vs, t).
Proof.
  intros [H1 H2 H3] Hn Hv. constructor; cbn [fst snd] in *; [done| |].
  - intros j. destruct (decide (j = i)) as [->|Hne]; [rewrite set_view_eq|rewrite set_view_ne by done; apply H2]. destruct v; try done. by destruct (Hn value index).
  - intros j k x y p Hj Hk. destruct (decide (j = i)) as [->|Hje]; [rewrite set_view_eq in Hj; by destruct (Hn x p)|]. destruct (decide (k = i)) as [->|Hke]; [rewrite set_view_eq in Hk; by destruct (Hn y p)|].
    rewrite set_view_ne in Hj, Hk by done. by apply (H3 j k x y p).
Qed.

Lemma access_ok w i v t' : views_ok w -> access (w.1 i) w.2 = Ok (v, t') -> views_ok (set_view i v w.1, t').
Proof.
  destruct w as [vs t]. intros Hok. pose proof Hok as [H1 H2 H3]. cbn [fst snd] in *. pose proof (H2 i) as Hi. destruct (vs i) as [|value index|value index origin|value index] eqn:Ei; cbn [access].
  - intros [= <- <-]. by apply quiet_view.
  - destruct Hi as (Hr & Hb & Hv). destruct (Z.ltb_spec index 0x200) as [Hlt|]; [|done]. destruct (H1 index ltac:(lia)) as (x & Ex & Hx & Hcase). rewrite Ex. cbn [deref obind]. rewrite bit0_land.
    destruct (Z.testbit x 0) eqn:Eb; intros [= <- <-]; apply quiet_view; try done; [split; [lia|done]|]. split; [lia|]. split; [done|]. split; [done|]. destruct Hcase; [done|congruence].
  - destruct Hi as (Hr & Hb & Hv & ->). destruct (H1 index Hr) as (old & Eo & Ho & Hcase). rewrite Eo. cbn [deref obind]. rewrite exchange_test by done.
    destruct (Z.eqb_spec old 0) as [->|Hne]; intros [= <- <-]; [|apply quiet_view; [done..|]; split; [lia|done]].
    assert (Hfree : forall j x k, vs j = Mapped x k -> k <> index).
    { intros j x k Ej ->. pose proof (H2 j) as Hj. rewrite Ej in Hj. destruct Hj as (_ & Hbx & Ex). rewrite Eo in Ex. by injection Ex as <-. }
    constructor; cbn [fst snd].
    + intros k Hk. rewrite lookup_insert. case_decide; [exists value; split; [done|]; split; [done|by right]|by apply H1].
    + intros j. destruct (decide (j = i)) as [->|Hji]; [rewrite set_view_eq; split; [done|]; split; [done|]; by rewrite lookup_insert_eq|]. rewrite set_view_ne by done. pose proof (H2 j) as Hj.
      destruct (vs j) as [| | |x k] eqn:Ej; try done. destruct Hj as (Hkr & Hbx & Ex). split; [done|]. split; [done|]. rewrite lookup_insert_ne; [done|]. intros ->. by destruct (Hfree j x k Ej).
    + intros j k x y p Hj Hk. destruct (decide (j = i)) as [->|Hji]; [rewrite set_view_eq in Hj|rewrite set_view_ne in Hj by done];
        (destruct (decide (k = i)) as [->|Hki]; [rewrite set_view_eq in Hk|rewrite set_view_ne in Hk by done]); [done| | |by apply (H3 j k x y p)].
      * injection Hj as <- <-. by destruct (Hfree k y index Hk).
      * injection Hk as <- <-. by destruct (Hfree j x index Hj).
  - destruct Hi as (Hr & Hb & Ex). rewrite ensure_true by (apply Z.ltb_lt; lia). cbn [obind]. rewrite Ex. cbn [deref obind]. rewrite bit0_land, Hb. cbn [ensure obind]. intros [= <- <-]. constructor; cbn [fst snd].
    + intros k Hk. rewrite lookup_insert. case_decide; [exists 0; split; [done|]; split; [done|by left]|by apply H1].
    + intros j. destruct (decide (j = i)) as [->|Hji]; [by rewrite set_view_eq|]. rewrite set_view_ne by done. pose proof (H2 j) as Hj. destruct (vs j) as [| | |x k] eqn:Ej; try done.
      destruct Hj as (Hkr & Hbx & Exx). split; [done|]. split; [done|]. rewrite lookup_insert_ne; [done|]. intros ->. by destruct Hji; apply (H3 j i x value k).
    + intros j k x y p Hj Hk. destruct (decide (j = i)) as [->|Hji]; [by rewrite set_view_eq in Hj|]. destruct (decide (k = i)) as [->|Hki]; [by rewrite set_view_eq in Hk|].
      rewrite set_view_ne in Hj, Hk by done. by apply (H3 j k x y p).
Qed.

Lemma clear_at i : 0 <= i < 512 -> clear !! i = Some 0.
Proof. intros Hi. apply lookup_gset_to_gmap_Some. split; [apply elem_of_list_to_set, elem_of_seqZ; lia|done]. Qed.

Lemma reachable_views w : reachable w -> views_ok w.
Proof.
  induction 1 as [|w w' _ IH Hst].
  - constructor; cbn [fst snd]; [|done|done]. intros i Hi. exists 0. split; [by apply clear_at|]. split; [done|by left].
  - destruct Hst as [i pa attrib v vs t Ev Hp Ha E|i v vs t t' E].
    + destruct (start_value pa attrib v Hp Ha E) as (-> & Hb & Hr). apply quiet_view; [done|done|]. split; [lia|done].
    + by apply (access_ok (vs, t)).
Qed.

(** C11. Views of physical pages, under every interleaving of their accesses: two views that are mapped at the same time never share
    a slot, each slot maps the page that was asked for, and taking a view down never fails; a view that looks for a slot and
    finds one that is still free when it comes to exchange it is mapped. *)
Theorem views_exclusive w : reachable w ->
  (forall j k x y i, w.1 j = Mapped x i -> w.1 k = Mapped y i -> j = k) /\
  (forall j x i, w.1 j = Mapped x i -> 0 <= i < 512 /\ w.2 !! i = Some x /\ access (w.1 j) w.2 = Ok (Unmapped, <[i := 0]> w.2)) /\
  (forall j x i o, w.1 j = Exchange x i o -> w.2 !! i = Some 0 -> access (w.1 j) w.2 = Ok (Mapped x i, <[i := x]> w.2)).
Proof.
  intros Hr. pose proof (reachable_views w Hr) as [H1 H2 H3]. split; [done|]. split.
  - intros j x i E. pose proof (H2 j) as Hj. rewrite E in Hj |- *. destruct Hj as (Hi & Hb & Ex). split; [done|]. split; [done|]. cbn [access].
    rewrite ensure_true by (apply Z.ltb_lt; lia). cbn [obind]. rewrite Ex. cbn [deref obind]. by rewrite bit0_land, Hb.
  - intros j x i o E E0. pose proof (H2 j) as Hj. rewrite E in Hj |- *. destruct Hj as (_ & _ & _ & ->). cbn [access]. rewrite E0. done.
Qed.

(** Two views race for the first slot; the second one has to go on. *)
Lemma race_steps t : t !! 0 = Some 0 -> reachable (fun _ => Unmapped, t) ->
  exists w, reachable w /\ w.1 0%nat = Mapped 0x4003 0 /\ w.1 1%nat = Exchange 0x5003 0 0.
Proof.
  intros E0 Hr.
  assert (Hscan : forall value, access (Scan value 0) t = Ok (Exchange value 0 0, t)) by (intros value; cbn [access]; by rewrite E0).
  assert (Hex : access (Exchange 0x4003 0 0) t = Ok (Mapped 0x4003 0, <[0 := 0x4003]> t)) by (cbn [access]; by rewrite E0).
  set (v0 := fun _ : nat => Unmapped) in *. set (v1 := set_view 0 (Scan 0x4003 0) v0). set (v2 := set_view 1 (Scan 0x5003 0) v1).
  set (v3 := set_view 0 (Exchange 0x4003 0 0) v2). set (v4 := set_view 1 (Exchange 0x5003 0 0) v3).
  exists (set_view 0 (Mapped 0x4003 0) v4, <[0 := 0x4003]> t). split; [|split; reflexivity].
  apply (reach_step (v4, t)); [|by apply step_access]. apply (reach_step (v3, t)); [|by apply step_access; apply Hscan].
  apply (reach_step (v2, t)); [|by apply step_access; apply Hscan]. apply (reach_step (v1, t)); [|by apply (step_start 1 0x5000 2)].
  apply (reach_step (v0, t)); [done|by apply (step_start 0 0x4000 2)].
Qed.

Lemma views_exclusive_witness : exists w, reachable w /\ w.1 1%nat = Exchange 0x5003 0 0 /\ w.2 !! 0 = Some 0x4003.
Proof.
  destruct (race_steps clear (clear_at 0 ltac:(lia)) reach_start) as (w & Hr & H0 & H1). exists w. split; [exact Hr|]. split; [exact H1|].
  exact (proj1 (proj2 (proj1 (proj2 (views_exclusive w Hr)) 0%nat 0x4003 0 H0))).
Defined.
End MapView.

(** The constructor of [kernel_vspace], on the directory and the first table the loader has made; [d] and [t] are the pages at
    [PDT0_PBASE] and [PT0_PBASE], which the entry 0 of [d] leads to. *)
Module KernelSpace.
Import PageTable VSpace.

Definition KRNL_STK_TOP : Z := HIGHADDR 0x001FF000.
Definition MAP_VIEW_BASE : Z := HIGHADDR 0x00200000.

Definition bypass_pte (e : PTE) : PTE :=
  Pte (present e) (write e) (user e) (wt e) (cd e) (accessed e) (dirty e) (pat e) (global e) (type e) (valid e) (page_addr e) (data e) (preserve e) true (xd e).

Section Mark.
Context {A : Type} (check : A -> bool) (f : A -> A).

(** [assert(check(table[i])); table[i] = f(table[i])], for one entry and for the entries of a loop. *)
Definition mark (i : Z) (t : gmap Z A) : outcome (gmap Z A) :=
  let! e := deref (t !! i);
  assert! check e;
  Ok (<[i := f e]> t).
Fixpoint mark_each (n : nat) (i : Z) (t : gmap Z A) : outcome (gmap Z A) :=
  match n with
  | O => Ok t
  | S n => let! t := mark i t; mark_each n (i + 1) t
  end.
End Mark.

Definition preserved (e : PTE) : PTE := set_preserve true e.
Definition guard (e : PTE) : PTE := bypass_pte (set_preserve true e).
Definition boot (e : PTE) : PTE := bypass_pte (set_preserve true (set_page false (page_addr e) e)).

Definition kernel_new (imgbase stk_commit stk_reserve bmp_page_count capacity available : Z) (d : gmap Z PDTE) (t : table) : outcome (gmap Z PDTE * table * Z) :=
  assert! (HIGHADDR 0x01000000 <=? imgbase) && (stk_commit <=? stk_reserve) && (stk_reserve <=? 0x100 * PAGE_SIZE);
  let stk_reserve := Z.shiftr (align_up 64 stk_reserve PAGE_SIZE) 12 in
  let stk_commit := Z.shiftr (align_up 64 stk_commit PAGE_SIZE) 12 in
  let stk_top := Z.shiftr (LOWADDR KRNL_STK_TOP) 12 in
  assert! stk_top <? 0x200;
  let! t := mark (fun e => negb (present e)) guard stk_top t;
  let! t := mark_each (fun e => negb (present e)) preserved (Z.to_nat (stk_reserve - stk_commit)) (stk_top - stk_reserve) t;
  let! t := mark_each present bypass_pte (Z.to_nat (Z.shiftr DIRECT_MAP_TOP 12)) 0 t;
  let! t := mark_each present boot (Z.to_nat (Z.shiftr BOOT_AREA_TOP 12 - Z.shiftr DIRECT_MAP_TOP 12)) (Z.shiftr DIRECT_MAP_TOP 12) t;
  let block := Block (Z.shiftr BOOT_AREA_TOP 12) 0 0 (stk_top - Z.shiftr BOOT_AREA_TOP 12 - stk_reserve) false false in
  let! t := put block t (self block);
  let! e := deref (d !! 0);
  let! e := put_max_size (set_head (self block) e) (size block);
  let d := <[0 := e]> d in
  let! d := mark d_present set_bypass (Z.shiftr (LOWADDR MAP_VIEW_BASE) 21) d;
  let pdt_off := Z.shiftr (LOWADDR PMMBMP_BASE) 21 in
  let pdt_count := Z.shiftr (align_up 64 bmp_page_count 0x200) 9 in
  let! d := mark_each d_present set_bypass (Z.to_nat pdt_count) pdt_off d;
  let krnl_index := Z.shiftr (LOWADDR imgbase) 21 in
  assert! krnl_index <? 0x200;
  let! d := mark d_present set_bypass krnl_index d;
  Ok (d, t, w64 (capacity - available)).

(** ** What the loader leaves, and what the constructor makes of it *)

Definition pages_of (n : Z) : Z := (n + 4095) / 4096.

Record loaded (imgbase stk_commit stk_reserve bmp : Z) (d : gmap Z PDTE) (t : table) : Prop := {
  ld_image : 0x1000000 <= imgbase - HIGHADDR 0 < 0x40000000;
  ld_stack : 0 <= stk_commit <= stk_reserve /\ stk_reserve <= 0x100000;
  ld_bitmap : 0 <= bmp <= 0x20000;
  ld_entry i : 0 <= i < 512 -> exists e, t !! i = Some e /\
    if (i <? 16) || ((0x1FF - pages_of stk_commit <=? i) && (i <? 0x1FF)) then present e = true
    else present e = false /\ preserve e = false /\ bypass e = false;
  ld_domain i : is_Some (t !! i) -> 0 <= i < 512;
  ld_table : exists e, d !! 0 = Some e /\ d_present e = true /\ d_bypass e = false;
  ld_pdt i : i = 1 \/ 2 <= i < 2 + (bmp + 511) / 512 \/ i = (imgbase - HIGHADDR 0) / 0x200000 -> exists e, d !! i = Some e /\ d_present e = true
}.

Definition laid_out (stk_commit stk_reserve i : Z) (e : PTE) : PTE :=
  if i <? 10 then bypass_pte e
  else if i <? 16 then boot e
  else if i <? 0x1FF - pages_of stk_reserve then e
  else if i <? 0x1FF - pages_of stk_commit then preserved e
  else if i <? 0x1FF then e else guard e.

Lemma mark_spec {A} (check : A -> bool) f i (t : gmap Z A) e : t !! i = Some e -> check e = true -> mark check f i t = Ok (<[i := f e]> t).
Proof. intros E C. unfold mark. rewrite E. cbn [deref obind]. by rewrite C. Qed.

Lemma mark_each_spec {A} (check : A -> bool) f n i (t : gmap Z A) : (forall j, i <= j < i + Z.of_nat n -> exists e, t !! j = Some e /\ check e = true) ->
  exists t', mark_each check f n i t = Ok t' /\ forall j, t' !! j = if (i <=? j) && (j <? i + Z.of_nat n) then f <$> t !! j else t !! j.
Proof.
  revert i t. induction n as [|n IH]; intros i t Hall; cbn [mark_each].
  - exists t. split; [done|]. intros j. by destruct (Z.leb_spec i j), (Z.ltb_spec j (i + Z.of_nat 0)); try lia.
  - destruct (Hall i ltac:(lia)) as (e & E & C). rewrite (mark_spec check f i t e E C). cbn [obind]. destruct (IH (i + 1) (<[i := f e]> t)) as (t' & -> & Ht').
    + intros j Hj. rewrite lookup_insert_ne by lia. apply Hall. lia.
    + exists t'. split; [done|]. intros j. rewrite Ht', lookup_insert. case_decide as Hij.
      * subst j. destruct (Z.leb_spec (i + 1) i), (Z.leb_spec i i), (Z.ltb_spec i (i + Z.of_nat (S n))); try lia. cbn. by rewrite E.
      * destruct (Z.leb_spec (i + 1) j), (Z.leb_spec i j), (Z.ltb_spec j (i + 1 + Z.of_nat n)), (Z.ltb_spec j (i + Z.of_nat (S n))); by try lia.
Qed.

Lemma pages_of_align n : 0 <= n <= 0x100000 -> Z.shiftr (align_up 64 n PAGE_SIZE) 12 = pages_of n.
Proof. intros Hn. change PAGE_SIZE with (2 ^ 12). rewrite align_up_pow2 by lia. rewrite Z.shiftr_div_pow2 by lia. unfold pages_of. rewrite Z.div_mul by lia. f_equal; lia. Qed.

Lemma pages_of_range sc sr : 0 <= sc <= sr -> sr <= 0x100000 -> 0 <= pages_of sc <= pages_of sr /\ pages_of sr <= 256.
Proof. intros Hs Hr. unfold pages_of. split; [split; [apply Z.div_pos|apply Z.div_le_mono]|apply Z.lt_succ_r, Z.div_lt_upper_bound]; lia. Qed.

(** The entries after the four loops. *)
Lemma marks_spec imgbase sc sr bmp d t : loaded imgbase sc sr bmp d t -> let pc := pages_of sc in let pr := pages_of sr in exists t1 t2 t3 t4,
  mark (fun e => negb (present e)) guard 0x1FF t = Ok t1 /\
  mark_each (fun e => negb (present e)) preserved (Z.to_nat (pr - pc)) (0x1FF - pr) t1 = Ok t2 /\
  mark_each present bypass_pte 10 0 t2 = Ok t3 /\ mark_each present boot 6 10 t3 = Ok t4 /\
  forall i, t4 !! i = laid_out sc sr i <$> t !! i.
Proof.
  intros [_ Hs _ He Hdom _ _] pc pr. pose proof (pages_of_range sc sr (proj1 Hs) (proj2 Hs)) as Hp. fold pc pr in Hp.
  assert (Hent : forall i, 0 <= i < 512 -> exists e, t !! i = Some e /\ (i < 16 \/ 0x1FF - pc <= i < 0x1FF -> present e = true) /\ (16 <= i < 0x1FF - pc \/ i = 0x1FF -> present e = false)).
  { intros i Hi. destruct (He i Hi) as (e & E & Hc). exists e. split; [done|]. fold pc in Hc. destruct (Z.ltb_spec i 16), (Z.leb_spec (0x1FF - pc) i), (Z.ltb_spec i 0x1FF); cbn [orb andb] in Hc; split; intros; try done; try lia; by destruct Hc. }
  destruct (Hent 0x1FF ltac:(lia)) as (eg & Eg & _ & Hg). exists (<[0x1FF := guard eg]> t). assert (Eg' := Hg ltac:(lia)).
  destruct (mark_each_spec (fun e => negb (present e)) preserved (Z.to_nat (pr - pc)) (0x1FF - pr) (<[0x1FF := guard eg]> t)) as (t2 & E2 & H2).
  { intros j Hj. destruct (Hent j ltac:(lia)) as (e & E & _ & Hn). exists e. rewrite lookup_insert_ne by lia. split; [done|]. by rewrite Hn by lia. }
  destruct (mark_each_spec present bypass_pte 10 0 t2) as (t3 & E3 & H3).
  { intros j Hj. destruct (Hent j ltac:(lia)) as (e & E & Hy & _). exists e. rewrite H2, lookup_insert_ne by lia. split; [|apply Hy; lia]. by destruct (Z.leb_spec (0x1FF - pr) j); [lia|]. }
  destruct (mark_each_spec present boot 6 10 t3) as (t4 & E4 & H4).
  { intros j Hj. destruct (Hent j ltac:(lia)) as (e & E & Hy & _). exists e. rewrite H3, H2, lookup_insert_ne by lia. split; [|apply Hy; lia].
    by destruct (Z.leb_spec 0 j), (Z.ltb_spec j (0 + Z.of_nat 10)), (Z.leb_spec (0x1FF - pr) j); try lia. }
  exists t2, t3, t4. split; [by apply mark_spec; [|rewrite Eg']|]. split; [done|]. split; [done|]. split; [done|].
  intros i. destruct (t !! i) as [e|] eqn:E; cbn [fmap option_fmap option_map].
  2:{ rewrite H4, H3, H2, lookup_insert_ne by (intros <-; congruence). rewrite E. cbn. by repeat case_match. }
  assert (Hi := Hdom i (mk_is_Some _ _ E)). rewrite H4, H3, H2, lookup_insert. unfold laid_out. fold pc pr. rewrite Z2Nat.id by lia. case_decide as Hd.
  - subst i. rewrite Eg in E. injection E as ->. by destruct (Z.ltb_spec 0x1FF (0x1FF - pr + (pr - pc))), (Z.ltb_spec 0x1FF (0x1FF - pr)), (Z.ltb_spec 0x1FF (0x1FF - pc)), (Z.leb_spec (0x1FF - pr) 0x1FF); try lia.
  - rewrite E. replace (0x1FF - pr + (pr - pc)) with (0x1FF - pc) by lia. change (0 + Z.of_nat 10) with 10. change (10 + Z.of_nat 6) with 16.
    destruct (Z.leb_spec 10 i), (Z.ltb_spec i 16), (Z.leb_spec 0 i), (Z.ltb_spec i 10), (Z.leb_spec (0x1FF - pr) i), (Z.ltb_spec i (0x1FF - pr)), (Z.ltb_spec i (0x1FF - pc)), (Z.ltb_spec i 0x1FF); by try lia.
Qed.

Lemma laid_out_free sc sr i e : 0 <= pages_of sc <= pages_of sr -> pages_of sr <= 256 -> 0 <= i < 512 ->
  (if (i <? 16) || ((0x1FF - pages_of sc <=? i) && (i <? 0x1FF)) then present e = true else present e = false /\ preserve e = false /\ bypass e = false) ->
  (is_free (laid_out sc sr i e) = true <-> 16 <= i < 0x1FF - pages_of sr) /\ (is_free (laid_out sc sr i e) = true -> bypass (laid_out sc sr i e) = false).
Proof.
  intros Hc Hr Hi H. unfold laid_out.
  destruct (Z.ltb_spec i 10), (Z.ltb_spec i 16), (Z.ltb_spec i (0x1FF - pages_of sr)), (Z.ltb_spec i (0x1FF - pages_of sc)), (Z.ltb_spec i 0x1FF), (Z.leb_spec (0x1FF - pages_of sc) i);
    cbn [orb andb] in H; try lia; unfold is_free; cbn; try destruct H as (Hp & Hq & Hb); rewrite ?Hp, ?Hq, ?H, ?Hb; cbn; rewrite ?andb_false_r; (split; [split; [done || (intros; lia)|done || (intros; lia)]|done]).
Qed.

(** The free block behind the boot area. *)
Lemma boot_block sr t4 pdt : 0 <= pages_of sr <= 256 -> (forall i, freeb t4 i = true <-> 16 <= i < 0x1FF - pages_of sr) -> (forall i, 0 <= i < 512 -> is_Some (t4 !! i)) ->
  (forall i e, t4 !! i = Some e -> is_free e = true -> bypass e = false) -> d_present pdt = true -> d_bypass pdt = false ->
  let n := 0x1FF - 16 - pages_of sr in exists t5, put (Block 16 0 0 n false false) t4 16 = Ok t5 /\ put_max_size (set_head 16 pdt) n = Ok (set_remain (rem_of n) (set_head 16 pdt)) /\
  pt_ok (set_remain (rem_of n) (set_head 16 pdt)) t5 [(16, n)] /\ (forall i, core <$> t5 !! i = core <$> t4 !! i).
Proof.
  intros Hr Hf Hdom Hby Hp Hb n. destruct (put_run_spec (Block 16 0 0 n false false) t4 16 n None None) as (t5 & E & He & Ho & Hc); try done.
  1,2: lia.
  { intros i Hi. apply Hf. lia. }
  { intros _. destruct (Hdom (16 + n) ltac:(lia)) as [e Ei]. exists e. split; [done|]. apply not_true_is_false. intros Hfe. pose proof (Hf (16 + n)) as Hx. unfold freeb in Hx. rewrite Ei in Hx. apply Hx in Hfe. lia. }
  exists t5. split; [done|]. split; [apply put_max_size_spec; lia|]. split; [|done].
  assert (Hfree : forall i, freeb t5 i = freeb t4 i) by (intros i; by apply freeb_core). constructor; [|done|done|].
  - constructor.
    + constructor; try done.
      * by repeat constructor.
      * split; [|done]. intros c Hin. by apply elem_of_nil in Hin.
      * by intros s m L' [= <- <- _].
    + intros i Hi. apply (core_is_Some t4); [done|]. by apply Hdom.
    + intros i. rewrite Hfree, Hf. split; [intros Hi; exists 16, n; split; [by left|lia]|]. intros (s & m & Hin & Hi). apply list_elem_of_singleton in Hin as [= -> ->]. lia.
  - intros i e Ei Hfe. specialize (Hc i). rewrite Ei in Hc. destruct (t4 !! i) as [e4|] eqn:E4; [|done]. apply (inj Some) in Hc.
    transitivity (bypass (core e)); [done|]. rewrite Hc. change (bypass e4 = false). apply (Hby i); [done|]. by rewrite <- is_free_core, <- Hc, is_free_core.
Qed.

Lemma low_of x : HIGHADDR 0 <= x < HIGHADDR 0 + 2 ^ 47 -> LOWADDR x = x - HIGHADDR 0.
Proof.
  intros Hx. unfold LOWADDR. change 0x00007FFFFFFFFFFF with (2 ^ 47 - 1). rewrite Z.land_comm, land_low_mask by lia. change (HIGHADDR 0) with 0xFFFF800000000000 in *.
  rewrite wrap_small by lia. replace x with (x - 0xFFFF800000000000 + 131071 * 2 ^ 47) at 1 by lia. rewrite Z.mod_add by lia. apply Z.mod_small. lia.
Qed.

(** C13. The address space of the kernel at its start: on the table the loader leaves, the constructor runs through, and afterwards the
    table satisfies the invariant of the page tables, with one free block between the boot area and the kernel's stack; its
    self-check accepts it.  Every other entry is what the layout says, with the loader's page: the stack and the boot area keep
    their pages, the guard and the rest of the stack's range can not be reserved, and the entries of the directory for the views,
    the bitmap of the pages and the image are closed to the operations of the space. *)
Theorem kernel_space_starts imgbase sc sr bmp capacity available d t : loaded imgbase sc sr bmp d t ->
  exists d' t' e, kernel_new imgbase sc sr bmp capacity available d t = Ok (d', t', w64 (capacity - available)) /\
  d' !! 0 = Some e /\ pt_ok e t' [(16, 0x1FF - 16 - pages_of sr)] /\ check_integrity e t' = Ok e /\
  (forall i e, t !! i = Some e -> exists e', t' !! i = Some e' /\ core e' = core (laid_out sc sr i e)) /\
  (forall i, i = 1 \/ 2 <= i < 2 + (bmp + 511) / 512 \/ i = (imgbase - HIGHADDR 0) / 0x200000 -> exists e, d' !! i = Some e /\ d_bypass e = true).
Proof.
  intros Hl. destruct (marks_spec _ _ _ _ _ _ Hl) as (t1 & t2 & t3 & t4 & E1 & E2 & E3 & E4 & Hent). destruct Hl as [Hi Hs Hm He Hdom (e0 & E0 & Hp0 & Hb0) Hd].
  pose proof (pages_of_range sc sr (proj1 Hs) (proj2 Hs)) as [Hp Hr]. set (pr := pages_of sr) in *. set (pc := pages_of sc) in *.
  assert (Hlay : forall i e, t4 !! i = Some e -> (is_free e = true <-> 16 <= i < 0x1FF - pr) /\ (is_free e = true -> bypass e = false)).
  { intros i e. rewrite Hent. destruct (t !! i) as [e1|] eqn:Ei; [|done]. intros [= <-]. assert (Hi' := Hdom i (mk_is_Some _ _ Ei)).
    destruct (He i Hi') as (e2 & Ee2 & Hc). rewrite Ei in Ee2. injection Ee2 as <-. by apply laid_out_free. }
  assert (Hall : forall i, 0 <= i < 512 -> is_Some (t4 !! i)) by (intros i Hi'; rewrite Hent; destruct (He i Hi') as (e2 & -> & _); by eexists).
  destruct (boot_block sr t4 e0) as (t5 & E5 & Em & Hok & Hcore); [fold pr; lia| |done| |done|done|].
  { intros i. fold pr. unfold freeb. destruct (t4 !! i) as [e1|] eqn:Ei; [by apply Hlay|]. split; [done|]. intros Hi'. destruct (Hall i ltac:(lia)) as [x Hx]. congruence. }
  { intros i e1 Ei. by apply (Hlay i e1). }
  fold pr in E5, Em, Hok. set (e1 := set_remain _ _) in *. set (k := (imgbase - HIGHADDR 0) / 0x200000) in *.
  assert (Hk : 8 <= k < 512) by (unfold k; split; [apply Z.div_le_lower_bound|apply Z.div_lt_upper_bound]; lia).
  assert (Hn : 0 <= (bmp + 511) / 512) by (apply Z.div_pos; lia).
  assert (Hbyp : forall x, d_present (set_bypass x) = d_present x) by done.
  destruct (Hd 1 ltac:(by left)) as (x1 & Ex1 & Px1).
  destruct (mark_each_spec d_present set_bypass (Z.to_nat ((bmp + 511) / 512)) 2 (<[1 := set_bypass x1]> (<[0 := e1]> d))) as (d2 & Ed2 & Hd2).
  { intros j Hj. rewrite !lookup_insert_ne by lia. apply Hd. right. left. lia. }
  destruct (Hd k ltac:(by right; right)) as (xk & Exk & Pxk).
  assert (Hdk : exists x, d2 !! k = Some x /\ d_present x = true).
  { rewrite Hd2, !lookup_insert_ne by lia. rewrite Exk. destruct (_ && _); by eexists. }
  destruct Hdk as (yk & Eyk & Pyk). exists (<[k := set_bypass yk]> d2), t5, e1. split; [|split; [|split; [|split; [|split]]]].
  - unfold kernel_new. rewrite ensure_true by (change (HIGHADDR 0) with 0xFFFF800000000000 in *; change (HIGHADDR 0x01000000) with 0xFFFF800001000000; change PAGE_SIZE with 4096; rewrite !andb_true_iff, !Z.leb_le; lia).
    cbn [obind]. rewrite !pages_of_align by lia. fold pr pc. change (Z.shiftr (LOWADDR KRNL_STK_TOP) 12) with 0x1FF. cbn [Z.ltb Z.compare Pos.compare Pos.compare_cont ensure obind].
    rewrite E1. cbn [obind]. rewrite E2. cbn [obind]. change (Z.to_nat (Z.shiftr DIRECT_MAP_TOP 12)) with 10%nat. rewrite E3. cbn [obind].
    change (Z.to_nat (Z.shiftr BOOT_AREA_TOP 12 - Z.shiftr DIRECT_MAP_TOP 12)) with 6%nat. change (Z.shiftr DIRECT_MAP_TOP 12) with 10. rewrite E4. cbn [obind].
    change (Z.shiftr BOOT_AREA_TOP 12) with 16. cbn [self size]. rewrite E5. cbn [obind]. rewrite E0. cbn [deref obind]. rewrite Em. cbn [obind].
    change (Z.shiftr (LOWADDR MAP_VIEW_BASE) 21) with 1. rewrite (mark_spec _ _ _ _ x1) by (done || by rewrite lookup_insert_ne). cbn [obind].
    change (Z.shiftr (LOWADDR PMMBMP_BASE) 21) with 2.
    replace (Z.shiftr (align_up 64 bmp 0x200) 9) with ((bmp + 511) / 512).
    2:{ change 0x200 with (2 ^ 9). rewrite align_up_pow2 by lia. rewrite Z.shiftr_div_pow2 by lia. rewrite Z.div_mul by lia. f_equal; lia. }
    rewrite Ed2. cbn [obind]. rewrite low_of by lia. rewrite Z.shiftr_div_pow2 by lia. change (2 ^ 21) with 0x200000. fold k.
    rewrite ensure_true by (apply Z.ltb_lt; lia). cbn [obind]. by rewrite (mark_spec _ _ _ _ yk).
  - rewrite lookup_insert_ne by lia. rewrite Hd2. destruct (Z.leb_spec 2 0); [lia|]. cbn [andb]. rewrite lookup_insert_ne by lia. apply lookup_insert_eq.
  - exact Hok.
  - eapply pt_check_integrity_spec; [exact (po_inv _ _ _ Hok)|]. intros i e _. apply (po_free _ _ _ Hok).
  - intros i e Ei. specialize (Hcore i). rewrite Hent, Ei in Hcore. cbn in Hcore. destruct (t5 !! i) as [e5|]; [|done]. apply (inj Some) in Hcore. by exists e5.
  - intros i Hc. destruct (decide (i = k)) as [->|Hne]; [exists (set_bypass yk); split; [apply lookup_insert_eq|done]|]. rewrite lookup_insert_ne by done. rewrite Hd2.
    destruct Hc as [-> | [Hc | ->]]; [| |done].
    + exists (set_bypass x1). split; [|done]. cbn. apply lookup_insert_eq.
    + destruct (Hd i ltac:(right; left; lia)) as (x & Ex & Px). exists (set_bypass x). split; [|done].
      destruct (Z.leb_spec 2 i), (Z.ltb_spec i (2 + Z.of_nat (Z.to_nat ((bmp + 511) / 512)))); try lia. cbn [andb]. rewrite !lookup_insert_ne by lia. by rewrite Ex.
Qed.

(** A table as the loader may leave it, with one page of stack. *)
Definition used_pte : PTE := set_page true 1 zero_pte.
Definition used_pdte : PDTE := Pdte true true false false false false false 0 7 0 false false.
Definition w_table : table := map_imap (fun i e => Some (if (i <? 16) || (i =? 0x1FE) then used_pte else e)) zero_table.
Definition w_pdts : gmap Z PDTE := const used_pdte <$> zero_table.

Lemma w_loaded : loaded (HIGHADDR 0x1000000) 0x1000 0x10000 1 w_pdts w_table.
Proof.
  constructor.
  - change (HIGHADDR 0x1000000 - HIGHADDR 0) with 0x1000000. lia.
  - lia.
  - lia.
  - intros i Hi. unfold w_table. rewrite map_lookup_imap, zero_table_lookup by done. cbn [mbind option_bind]. change (0x1FF - pages_of 0x1000) with 0x1FE. eexists. split; [done|].
    destruct (Z.ltb_spec i 16), (Z.leb_spec 0x1FE i), (Z.ltb_spec i 0x1FF), (Z.eqb_spec i 0x1FE); cbn [orb andb]; by try lia.
  - intros i [e E]. unfold w_table in E. rewrite map_lookup_imap in E. destruct (zero_table !! i) as [z|] eqn:Ez; [|done]. by apply (zero_table_dom i z).
  - exists used_pdte. split; [|done]. unfold w_pdts. by rewrite lookup_fmap, zero_table_lookup.
  - intros i Hi. exists used_pdte. split; [|done]. unfold w_pdts. rewrite lookup_fmap, zero_table_lookup; [done|]. change ((1 + 511) / 512) with 1 in Hi. change ((HIGHADDR 0x1000000 - HIGHADDR 0) / 0x200000) with 8 in Hi. lia.
Qed.

Lemma kernel_space_starts_witness : exists d' t' e, kernel_new (HIGHADDR 0x1000000) 0x1000 0x10000 1 1000 900 w_pdts w_table = Ok (d', t', 100) /\
  pt_ok e t' [(16, 479)].
Proof.
  destruct (kernel_space_starts (HIGHADDR 0x1000000) 0x1000 0x10000 1 1000 900 w_pdts w_table w_loaded) as (d' & t' & e & H1 & _ & H2 & _). exists d', t', e. split; [exact H1|exact H2].
Defined.
End KernelSpace.
