(* ===== verification/Packet.v ===== *)
(** * The serial line of the kernel debugger and its packets (src/kernel/exception/kdb.cpp)

    The debugger talks over a serial line in packets: a dollar sign, the text with some characters escaped, a hash sign and
    a checksum of two digits.  The bytes that are going to arrive are a list; a wait for a byte when none is left does not
    end, it is [NoFuel].  Bytes that were sent are appended to a second list. *)

From S2P Require Import Prelude.

Module Packet.

Record line := Line { rx : list Z; tx : list Z }.

Definition serial_get (l : line) : outcome (Z * line) :=
  match rx l with
  | [] => NoFuel
  | b :: r => Ok (b, Line r (tx l))
  end.
Definition serial_put (data : Z) (l : line) : line := Line (rx l) (tx l ++ [w8 data]).

Definition hexchar_table : list Z := [0x30; 0x31; 0x32; 0x33; 0x34; 0x35; 0x36; 0x37; 0x38; 0x39; 0x41; 0x42; 0x43; 0x44; 0x45; 0x46].
Definition hexchar (i : Z) : outcome Z := deref (hexchar_table !! Z.to_nat i).

Definition hex_to_bin (ch : Z) : Z :=
  if (0x30 <=? ch) && (ch <=? 0x39) then ch - 0x30
  else
    let ch := Z.land ch 0xDF in
    if (0x41 <=? ch) && (ch <=? 0x46) then ch - 0x41 + 0x0A else 0xFF.

(** The answers of both are the parts of the checksum. *)
Definition put_hex_char (ch : Z) (l : line) : outcome (Z * line) :=
  let! hi := hexchar (Z.shiftr ch 4);
  let! lo := hexchar (Z.land ch 0x0F);
  Ok (w8 (hi + lo), serial_put lo (serial_put hi l)).

Definition special (ch : Z) : bool := (ch =? 0x23) || (ch =? 0x24) || (ch =? 0x2A) || (ch =? 0x7D).
Definition put_escaped_char (ch : Z) (l : line) : Z * line :=
  let '(chksum, ch, l) := if special ch then (0x7D, Z.lxor ch 0x20, serial_put 0x7D l) else (0, ch, l) in
  (w8 (chksum + ch), serial_put ch l).

(** ** Receiving *)
Definition buffer_size : Z := 0x400.

(** [while (serial_get(port) != '$');]. *)
Fixpoint wait_dollar (n : nat) (l : line) : outcome line :=
  match n with
  | O => NoFuel
  | S n => let! (ch, l) := serial_get l; if ch =? 0x24 then Ok l else wait_dollar n l
  end.

(** The inner loop: the character it has ended on, the buffer, the index and the checksum. *)
Fixpoint recv_body (n : nat) (buffer : list Z) (index chksum : Z) (l : line) : outcome (Z * list Z * Z * Z * line) :=
  match n with
  | O => NoFuel
  | S n =>
      let! (ch, l) := serial_get l;
      if ch =? 0x23 then Ok (ch, buffer, index, chksum, l)
      else if buffer_size <=? index then Ok (ch, buffer, index, chksum, l)
      else if ch =? 0x7D then
        let! (ch, l) := serial_get l;
        let! _ := deref (buffer !! Z.to_nat index);
        recv_body n (<[Z.to_nat index := Z.lxor ch 0x20]> buffer) (index + 1) (w8 (chksum + (0x7D + ch))) l
      else
        let! _ := deref (buffer !! Z.to_nat index);
        recv_body n (<[Z.to_nat index := ch]> buffer) (index + 1) (w8 (chksum + ch)) l
  end.

Fixpoint recv_loop (n : nat) (buffer : list Z) (l : line) : outcome (list Z * Z * line) :=
  match n with
  | O => NoFuel
  | S n =>
      let! l := wait_dollar (S (length (rx l))) l;
      let! (ch, buffer, index, chksum, l) := recv_body (S (length (rx l))) buffer 0 0 l;
      if ch =? 0x23 then
        let! (c1, l) := serial_get l;
        let hi := hex_to_bin c1 in
        let! (c2, l) := serial_get l;
        let lo := hex_to_bin c2 in
        if (hi <=? 0x0F) && (lo <=? 0x0F) && (Z.lor (Z.shiftl hi 4) lo =? chksum) then Ok (buffer, index, serial_put 0x2B l)
        else recv_loop n buffer (serial_put 0x2D l)
      else recv_loop n buffer (serial_put 0x2D l)
  end.

(** Every turn takes a byte from the line. *)
Definition recv (buffer : list Z) (l : line) : outcome (list Z * Z * line) := recv_loop (S (length (rx l))) buffer l.

(** ** Sending *)

(** What both kinds of packets share: [true] when the other side is content. *)
Definition answered (l : line) : outcome (bool * line) :=
  let! (ch, l) := serial_get l;
  if ch =? 0x24 then Ok (true, serial_put 0x2D l)
  else if ch =? 0x2B then Ok (true, l) else Ok (false, l).

Fixpoint put_text (str : list Z) (chksum : Z) (l : line) : Z * line :=
  match str with
  | [] => (chksum, l)
  | ch :: str => let '(c, l) := put_escaped_char ch l in put_text str (w8 (chksum + c)) l
  end.
Fixpoint put_bytes (data : list Z) (chksum : Z) (l : line) : outcome (Z * line) :=
  match data with
  | [] => Ok (chksum, l)
  | ch :: data => let! (c, l) := put_hex_char ch l; put_bytes data (w8 (chksum + c)) l
  end.

Fixpoint send_loop (n : nat) (str : list Z) (l : line) : outcome line :=
  match n with
  | O => NoFuel
  | S n =>
      let '(chksum, l) := put_text str 0 (serial_put 0x24 l) in
      let! (_, l) := put_hex_char chksum (serial_put 0x23 l);
      let! (b, l) := answered l;
      if b then Ok l else send_loop n str l
  end.
Definition send (str : list Z) (l : line) : outcome line := send_loop (S (length (rx l))) str l.

(** [data]: the first [length] bytes of the buffer. *)
Fixpoint send_bin_loop (n : nat) (data : list Z) (l : line) : outcome line :=
  match n with
  | O => NoFuel
  | S n =>
      let! (chksum, l) := put_bytes data 0 (serial_put 0x24 l);
      let! (_, l) := put_hex_char chksum (serial_put 0x23 l);
      let! (b, l) := answered l;
      if b then Ok l else send_bin_loop n data l
  end.
Definition send_bin (data : list Z) (l : line) : outcome line := send_bin_loop (S (length (rx l))) data l.

(** ** Numbers in packets: [limit] characters of the buffer from [off] on *)
Fixpoint num_loop (n : nat) (buffer : list Z) (off i val : Z) : outcome (Z * Z) :=
  match n with
  | O => Ok (i, val)
  | S n =>
      let! ch := deref (buffer !! Z.to_nat (off + i));
      let bi := hex_to_bin ch in
      if 0x0F <? bi then Ok (i, val) else num_loop n buffer off (i + 1) (w64 (Z.lor (Z.shiftl val 4) bi))
  end.
Definition hex_to_num (buffer : list Z) (off lim : Z) : outcome (Z * Z) := num_loop (Z.to_nat (Z.min lim 16)) buffer off 0 0.
End Packet.

Module PacketThm.
Import Packet.

(** ** The reference: what a packet looks like *)
Definition bytes (l : list Z) : Prop := Forall (fun b => 0 <= b < 256) l.
Definition total (l : list Z) : Z := foldr Z.add 0 l.
Definition digit (d : Z) : Z := default 0 (hexchar_table !! Z.to_nat d).
Definition two_digits (b : Z) : list Z := [digit (b / 16); digit (b mod 16)].

Definition escape (ch : Z) : list Z := if special ch then [0x7D; Z.lxor ch 0x20] else [ch].
Definition escaped (str : list Z) : list Z := concat (escape <$> str).
Definition packet (text : list Z) (digits : list Z) : list Z := 0x24 :: text ++ 0x23 :: digits.
Definition frame (str : list Z) : list Z := packet (escaped str) (two_digits (w8 (total (escaped str)))).
Definition hexed (data : list Z) : list Z := concat (two_digits <$> data).
Definition bin_frame (data : list Z) : list Z := packet (hexed data) (two_digits (w8 (total (hexed data)))).

(** A packet whose digits are not those of its text. *)
Definition damaged (d : list Z) : Prop :=
  exists str c1 c2, d = packet (escaped str) [c1; c2] /\ bytes str /\ Z.of_nat (length str) <= buffer_size /\
    ~ (hex_to_bin c1 <= 15 /\ hex_to_bin c2 <= 15 /\ hex_to_bin c1 * 16 + hex_to_bin c2 = w8 (total (escaped str))).

(** ** Digits *)
Lemma digit_facts d : 0 <= d < 16 -> hexchar d = Ok (digit d) /\ hex_to_bin (digit d) = d /\ 0x30 <= digit d < 0x47 /\ special (digit d) = false.
Proof.
  intros Hd. assert (Hall : forallb (fun d => bool_decide (hexchar_table !! Z.to_nat d = Some (digit d)) && (hex_to_bin (digit d) =? d) && (0x30 <=? digit d) && (digit d <? 0x47) && negb (special (digit d))) (seqZ 0 16) = true) by (vm_compute; reflexivity).
  assert (Hin : d ∈ seqZ 0 16) by (apply elem_of_seqZ; lia). rewrite forallb_forall in Hall. specialize (Hall d (proj1 (list_elem_of_In _ _) Hin)).
  rewrite !andb_true_iff, bool_decide_eq_true, !Z.eqb_eq, Z.leb_le, Z.ltb_lt, negb_true_iff in Hall. destruct Hall as ((((H1 & H2) & H3) & H4) & H5).
  unfold hexchar. rewrite H1. done.
Qed.

Lemma nibbles b : 0 <= b < 256 -> 0 <= b / 16 < 16 /\ 0 <= b mod 16 < 16 /\ Z.shiftr b 4 = b / 16 /\ Z.land b 15 = b mod 16.
Proof.
  intros Hb. split; [split; [apply Z.div_pos|apply Z.div_lt_upper_bound]; lia|]. split; [apply Z.mod_pos_bound; lia|].
  rewrite Z.shiftr_div_pow2 by lia. split; [done|]. exact (land_low_mask b 4 ltac:(lia)).
Qed.

Lemma wrap_add w a b : 0 <= w -> wrap w (a + wrap w b) = wrap w (a + b).
Proof. intros. unfold wrap. by rewrite Zplus_mod_idemp_r. Qed.
Lemma wrap_add_l w a b : 0 <= w -> wrap w (wrap w a + b) = wrap w (a + b).
Proof. intros. unfold wrap. by rewrite Zplus_mod_idemp_l. Qed.

Lemma serial_put_byte b r t : 0 <= b < 256 -> serial_put b (Line r t) = Line r (t ++ [b]).
Proof. intros Hb. unfold serial_put. cbn. by rewrite wrap_small. Qed.

Lemma put_hex_char_spec b r t : 0 <= b < 256 -> put_hex_char b (Line r t) = Ok (w8 (total (two_digits b)), Line r (t ++ two_digits b)).
Proof.
  intros Hb. destruct (nibbles b Hb) as (H1 & H2 & E1 & E2). destruct (digit_facts _ H1) as (F1 & _ & R1 & _), (digit_facts _ H2) as (F2 & _ & R2 & _).
  unfold put_hex_char. rewrite E1, E2, F1, F2. cbn [obind]. rewrite !serial_put_byte by lia. rewrite <- app_assoc. cbn. by rewrite Z.add_0_r.
Qed.

Lemma lxor_20 ch : 0 <= ch < 256 -> 0 <= Z.lxor ch 0x20 < 256 /\ Z.lxor (Z.lxor ch 0x20) 0x20 = ch.
Proof.
  intros Hc. split; [|by rewrite Z.lxor_assoc, Z.lxor_nilpotent, Z.lxor_0_r]. split; [apply Z.lxor_nonneg; lia|].
  destruct (Z.eq_dec (Z.lxor ch 0x20) 0) as [->|]; [lia|]. assert (0 <= Z.lxor ch 0x20) by (apply Z.lxor_nonneg; lia). apply (Z.log2_lt_pow2 _ 8); [lia|].
  pose proof (Z.log2_lxor ch 0x20 ltac:(lia) ltac:(lia)). change (Z.log2 0x20) with 5 in *. assert (Z.log2 ch < 8) by (destruct (Z.eq_dec ch 0) as [->|]; [done|apply Z.log2_lt_pow2; lia]). lia.
Qed.

Lemma total_app a b : total (a ++ b) = total a + total b.
Proof. induction a as [|x a IH]; cbn; [done|]. unfold total in *. lia. Qed.

Lemma put_escaped_spec ch r t : 0 <= ch < 256 -> put_escaped_char ch (Line r t) = (w8 (total (escape ch)), Line r (t ++ escape ch)).
Proof.
  intros Hc. unfold put_escaped_char, escape. destruct (special ch).
  - rewrite !serial_put_byte by (try apply lxor_20; lia). rewrite <- app_assoc. cbn. by rewrite Z.add_0_r.
  - rewrite serial_put_byte by done. cbn. by rewrite Z.add_0_r.
Qed.

(** ** Sending *)
Lemma put_text_spec str c r t : bytes str -> put_text str (w8 c) (Line r t) = (w8 (c + total (escaped str)), Line r (t ++ escaped str)).
Proof.
  intros Hb. revert c t. induction Hb as [|ch str Hc _ IH]; intros c t; cbn [put_text].
  - cbn. by rewrite Z.add_0_r, app_nil_r.
  - rewrite put_escaped_spec by done. rewrite wrap_add, wrap_add_l, IH by lia. unfold escaped. cbn. rewrite total_app, app_assoc, Z.add_assoc. done.
Qed.

Lemma put_bytes_spec data c r t : bytes data -> put_bytes data (w8 c) (Line r t) = Ok (w8 (c + total (hexed data)), Line r (t ++ hexed data)).
Proof.
  intros Hb. revert c t. induction Hb as [|ch data Hc _ IH]; intros c t; cbn [put_bytes].
  - cbn. by rewrite Z.add_0_r, app_nil_r.
  - rewrite put_hex_char_spec by done. cbn [obind]. rewrite wrap_add, wrap_add_l, IH by lia. unfold hexed. cbn [fmap list_fmap concat]. rewrite total_app, app_assoc, Z.add_assoc. done.
Qed.

(** What both loops do in one turn. *)
Lemma tail_spec c r t : 0 <= c < 256 -> put_hex_char c (serial_put 0x23 (Line r t)) = Ok (w8 (total (two_digits c)), Line r (t ++ 0x23 :: two_digits c)).
Proof. intros Hc. rewrite serial_put_byte by lia. rewrite put_hex_char_spec by done. by rewrite <- app_assoc. Qed.

Lemma again_app {A} n (f : list A) t : (t ++ f) ++ concat (replicate n f) = t ++ concat (replicate (S n) f).
Proof. by rewrite <- app_assoc. Qed.

Lemma packet_app t text digits : ((t ++ [0x24]) ++ text) ++ 0x23 :: digits = t ++ packet text digits.
Proof. unfold packet. by rewrite <- !app_assoc. Qed.

Definition refusal (ch : Z) : Prop := ch <> 0x24 /\ ch <> 0x2B.

Lemma answered_spec ch r t : answered (Line (ch :: r) t) = Ok (if ch =? 0x24 then (true, Line r (t ++ [0x2D])) else (ch =? 0x2B, Line r t)).
Proof. unfold answered. cbn. by destruct (ch =? 0x24), (ch =? 0x2B). Qed.

Lemma send_loop_spec str a r t n : bytes str -> Forall refusal a -> (length a < n)%nat ->
  send_loop n str (Line (a ++ 0x2B :: r) t) = Ok (Line r (t ++ concat (replicate (S (length a)) (frame str)))).
Proof.
  intros Hb Ha. revert t n. induction Ha as [|ch a [H1 H2] _ IH]; intros t n Hn; (destruct n as [|n]; [cbn in Hn; lia|]); cbn [send_loop app];
    rewrite (serial_put_byte 0x24) by lia; change 0 with (w8 0) at 1; rewrite put_text_spec by done; rewrite tail_spec by (apply wrap_range; lia); cbn [obind]; rewrite answered_spec, Z.add_0_l.
  - rewrite packet_app. fold (frame str). cbn. by rewrite app_nil_r.
  - rewrite (proj2 (Z.eqb_neq ch 0x24)), (proj2 (Z.eqb_neq ch 0x2B)) by done. cbn [obind]. rewrite IH by (cbn in Hn; lia). rewrite packet_app. fold (frame str). by rewrite (again_app (S (length a))).
Qed.

Lemma send_bin_loop_spec data a r t n : bytes data -> Forall refusal a -> (length a < n)%nat ->
  send_bin_loop n data (Line (a ++ 0x2B :: r) t) = Ok (Line r (t ++ concat (replicate (S (length a)) (bin_frame data)))).
Proof.
  intros Hb Ha. revert t n. induction Ha as [|ch a [H1 H2] _ IH]; intros t n Hn; (destruct n as [|n]; [cbn in Hn; lia|]); cbn [send_bin_loop app];
    rewrite (serial_put_byte 0x24) by lia; change 0 with (w8 0) at 1; rewrite put_bytes_spec by done; cbn [obind]; rewrite tail_spec by (apply wrap_range; lia); cbn [obind]; rewrite answered_spec, Z.add_0_l.
  - rewrite packet_app. fold (bin_frame data). cbn. by rewrite app_nil_r.
  - rewrite (proj2 (Z.eqb_neq ch 0x24)), (proj2 (Z.eqb_neq ch 0x2B)) by done. cbn [obind]. rewrite IH by (cbn in Hn; lia). rewrite packet_app. fold (bin_frame data). by rewrite (again_app (S (length a))).
Qed.

(** ** Receiving *)
Definition quiet (noise : list Z) : Prop := Forall (fun ch => ch <> 0x24) noise.

Lemma wait_dollar_spec noise r t n : quiet noise -> (length noise < n)%nat -> wait_dollar n (Line (noise ++ 0x24 :: r) t) = Ok (Line r t).
Proof.
  intros Hq. revert n. induction Hq as [|ch noise Hc _ IH]; intros n Hn; (destruct n as [|n]; [cbn in Hn; lia|]); cbn; [done|].
  rewrite (proj2 (Z.eqb_neq ch 0x24)) by done. apply IH. cbn in Hn. lia.
Qed.

Lemma put_in (buffer : list Z) k ch : (k < length buffer)%nat -> take (S k) (<[k := ch]> buffer) = take k buffer ++ [ch] /\ forall m, (k < m)%nat -> drop m (<[k := ch]> buffer) = drop m buffer.
Proof.
  intros Hk. split; [|intros m Hm; by apply drop_insert_lt].
  rewrite (take_S_r _ _ ch) by (by apply list_lookup_insert_eq). by rewrite take_insert_ge.
Qed.

Lemma escape_length ch : (1 <= length (escape ch) <= 2)%nat.
Proof. unfold escape. destruct (special ch); cbn; lia. Qed.
Lemma escaped_cons ch str : escaped (ch :: str) = escape ch ++ escaped str.
Proof. reflexivity. Qed.
Lemma escaped_length str : (length str <= length (escaped str))%nat.
Proof. induction str as [|ch str IH]; [done|]. rewrite escaped_cons, length_app. cbn. pose proof (escape_length ch). lia. Qed.

Lemma recv_body_spec str : bytes str -> forall n buffer k c r t, (length str < n)%nat -> (k + length str <= length buffer)%nat -> Z.of_nat (k + length str) <= buffer_size ->
  recv_body n buffer (Z.of_nat k) (w8 c) (Line (escaped str ++ 0x23 :: r) t) =
  Ok (0x23, take k buffer ++ str ++ drop (k + length str) buffer, Z.of_nat (k + length str), w8 (c + total (escaped str)), Line r t).
Proof.
  induction 1 as [|ch str Hc _ IH]; intros n buffer k c r t Hn Hl Hs; (destruct n as [|n]; [cbn in Hn; lia|]).
  - cbn. rewrite Nat.add_0_r, Z.add_0_r, take_drop. done.
  - cbn [length] in *. destruct (lookup_lt_is_Some_2 buffer k ltac:(lia)) as [old Eold].
    assert (Hstep : forall c', recv_body n (<[k := ch]> buffer) (Z.of_nat k + 1) (w8 c') (Line (escaped str ++ 0x23 :: r) t) =
      Ok (0x23, take k buffer ++ (ch :: str) ++ drop (k + S (length str)) buffer, Z.of_nat (k + S (length str)), w8 (c' + total (escaped str)), Line r t)).
    { intros c'. replace (Z.of_nat k + 1) with (Z.of_nat (S k)) by lia. rewrite IH by (rewrite ?length_insert; lia). destruct (put_in buffer k ch ltac:(lia)) as [-> ->]; [|lia].
      rewrite <- app_assoc. replace (S k + length str)%nat with (k + S (length str))%nat by lia. done. }
    rewrite escaped_cons. rewrite total_app, Z.add_assoc, <- Hstep. cbn [recv_body]. unfold escape. destruct (special ch) eqn:Esp; cbn [app serial_get obind rx tx].
    + cbn [Z.eqb Pos.eqb]. destruct (Z.leb_spec buffer_size (Z.of_nat k)); [lia|]. cbn [serial_get obind rx tx]. rewrite Nat2Z.id, Eold. cbn [deref obind]. rewrite (proj2 (lxor_20 ch Hc)). rewrite wrap_add_l by lia. cbn [total foldr]. rewrite Z.add_0_r. done.
    + unfold special in Esp. rewrite !orb_false_iff in Esp. destruct Esp as (((-> & _) & _) & ->). destruct (Z.leb_spec buffer_size (Z.of_nat k)); [lia|].
      rewrite Nat2Z.id, Eold. cbn [deref obind]. rewrite wrap_add_l by lia. cbn [total foldr]. rewrite Z.add_0_r. done.
Qed.

(** One turn of the outer loop. *)
Lemma recv_turn noise str c1 c2 n buffer r t : quiet noise -> bytes str -> (length str <= length buffer)%nat -> Z.of_nat (length str) <= buffer_size ->
  let buffer' := str ++ drop (length str) buffer in
  recv_loop (S n) buffer (Line (noise ++ packet (escaped str) [c1; c2] ++ r) t) =
  if (hex_to_bin c1 <=? 0x0F) && (hex_to_bin c2 <=? 0x0F) && (Z.lor (Z.shiftl (hex_to_bin c1) 4) (hex_to_bin c2) =? w8 (total (escaped str)))
  then Ok (buffer', Z.of_nat (length str), Line r (t ++ [0x2B])) else recv_loop n buffer' (Line r (t ++ [0x2D])).
Proof.
  intros Hq Hb Hl Hs buffer'. cbn [recv_loop rx]. unfold packet. rewrite <- app_comm_cons, <- app_assoc. cbn [app]. rewrite wait_dollar_spec by (done || rewrite length_app; lia). cbn [obind rx].
  change 0 with (Z.of_nat 0) at 1. change 0 with (w8 0) at 1. rewrite (recv_body_spec str Hb); [| |lia|lia]; [|rewrite length_app; pose proof (escaped_length str); cbn; lia].
  cbn [obind Z.eqb Pos.eqb serial_get rx tx app Nat.add take]. rewrite Z.add_0_l. rewrite !serial_put_byte by lia. done.
Qed.

Lemma lor_digits a b : 0 <= a < 16 -> 0 <= b < 16 -> Z.lor (Z.shiftl a 4) b = a * 16 + b.
Proof.
  intros Ha Hb. assert (Hall : forallb (fun a => forallb (fun b => Z.lor (Z.shiftl a 4) b =? a * 16 + b) (seqZ 0 16)) (seqZ 0 16) = true) by (vm_compute; reflexivity).
  assert (Hin : forall x, 0 <= x < 16 -> In x (seqZ 0 16)) by (intros x Hx; apply list_elem_of_In, elem_of_seqZ; lia).
  rewrite forallb_forall in Hall. specialize (Hall a (Hin a Ha)). rewrite forallb_forall in Hall. by apply Z.eqb_eq, (Hall b), Hin.
Qed.

Lemma hex_to_bin_range ch : 0 <= hex_to_bin ch.
Proof.
  unfold hex_to_bin. destruct (Z.leb_spec 0x30 ch), (Z.leb_spec ch 0x39); cbn [andb]; try lia;
    destruct (Z.leb_spec 0x41 (Z.land ch 0xDF)), (Z.leb_spec (Z.land ch 0xDF) 0x46); cbn [andb]; lia.
Qed.

(** The test of the two digits after the hash sign. *)
Lemma digits_test c1 c2 x : (hex_to_bin c1 <=? 15) && (hex_to_bin c2 <=? 15) && (Z.lor (Z.shiftl (hex_to_bin c1) 4) (hex_to_bin c2) =? x) = true <->
  hex_to_bin c1 <= 15 /\ hex_to_bin c2 <= 15 /\ hex_to_bin c1 * 16 + hex_to_bin c2 = x.
Proof.
  rewrite !andb_true_iff, !Z.leb_le, Z.eqb_eq.
  assert (Hr := hex_to_bin_range).
  split; [intros [[H1 H2] H3]|intros (H1 & H2 & H3)]; (rewrite lor_digits in * by (split; [apply Hr|lia]); done) || (split; [done|]; rewrite lor_digits by (split; [apply Hr|lia]); done).
Qed.

Lemma own_digits x : 0 <= x < 256 -> exists c1 c2, two_digits x = [c1; c2] /\ hex_to_bin c1 <= 15 /\ hex_to_bin c2 <= 15 /\ hex_to_bin c1 * 16 + hex_to_bin c2 = x.
Proof.
  intros Hx. destruct (nibbles x Hx) as (H1 & H2 & _). destruct (digit_facts _ H1) as (_ & E1 & _), (digit_facts _ H2) as (_ & E2 & _).
  eexists _, _. split; [reflexivity|]. rewrite E1, E2. pose proof (Z.div_mod x 16 ltac:(lia)). lia.
Qed.

Lemma recv_frame noise str n buffer r t : quiet noise -> bytes str -> (length str <= length buffer)%nat -> Z.of_nat (length str) <= buffer_size ->
  recv_loop (S n) buffer (Line (noise ++ frame str ++ r) t) = Ok (str ++ drop (length str) buffer, Z.of_nat (length str), Line r (t ++ [0x2B])).
Proof.
  intros Hq Hb Hl Hs. unfold frame. destruct (own_digits (w8 (total (escaped str)))) as (c1 & c2 & -> & Hd); [apply wrap_range; lia|]. rewrite recv_turn by done. by rewrite (proj2 (digits_test c1 c2 _) Hd).
Qed.

Lemma recv_damaged noise d n buffer r t : quiet noise -> damaged d -> Z.of_nat (length buffer) = buffer_size ->
  exists buffer', Z.of_nat (length buffer') = buffer_size /\ recv_loop (S n) buffer (Line (noise ++ d ++ r) t) = recv_loop n buffer' (Line r (t ++ [0x2D])).
Proof.
  intros Hq (str & c1 & c2 & -> & Hb & Hs & Hbad) Hl. exists (str ++ drop (length str) buffer). split; [rewrite length_app, length_drop; lia|].
  rewrite recv_turn by (done || lia). destruct (_ && _) eqn:E; [|done]. by apply digits_test in E.
Qed.

(** Copies that were damaged on the way, and one that was not. *)
Lemma recv_retries bad : Forall damaged bad -> forall n noise str buffer r t, quiet noise -> bytes str -> Z.of_nat (length str) <= buffer_size ->
  Z.of_nat (length buffer) = buffer_size -> (length bad < n)%nat ->
  exists stale, Z.of_nat (length (str ++ stale)) = buffer_size /\
    recv_loop n buffer (Line (noise ++ concat bad ++ frame str ++ r) t) = Ok (str ++ stale, Z.of_nat (length str), Line r (t ++ replicate (length bad) 0x2D ++ [0x2B])).
Proof.
  induction 1 as [|d bad Hd _ IH]; intros n noise str buffer r t Hq Hb Hs Hl Hn; (destruct n as [|n]; [cbn in Hn; lia|]).
  - exists (drop (length str) buffer). split; [rewrite length_app, length_drop; lia|]. cbn [concat app]. rewrite recv_frame by (done || lia). done.
  - cbn [concat]. rewrite <- app_assoc. destruct (recv_damaged noise d n buffer (concat bad ++ frame str ++ r) t Hq Hd Hl) as (buffer' & Hl' & ->).
    destruct (IH n [] str buffer' r (t ++ [0x2D])) as (stale & Hst & E); [by constructor|done|done|done|cbn in Hn; lia|]. exists stale. split; [done|]. cbn [app] in E. rewrite E. cbn [length replicate app]. by rewrite <- app_assoc.
Qed.

Lemma damaged_length bad : Forall damaged bad -> (length bad <= length (concat bad))%nat.
Proof. induction 1 as [|d bad (str & c1 & c2 & -> & _) _ IH]; [done|]. cbn. rewrite length_app. cbn. lia. Qed.

(** C29. A packet crosses the line whatever happens to its first copies: the receiver refuses each damaged copy, and the noise before
    them, answers with one minus per refusal and one plus, and ends with exactly the text in its buffer; and a sender that gets
    these answers has sent exactly as many copies.  Neither overruns the buffer or waits for more than what was sent. *)
Theorem packet_transfer str buffer noise bad r t r' t' : quiet noise -> bytes str -> Z.of_nat (length str) <= buffer_size ->
  Z.of_nat (length buffer) = buffer_size -> Forall damaged bad ->
  let answers := replicate (length bad) 0x2D ++ [0x2B] in
  (exists stale, Z.of_nat (length (str ++ stale)) = buffer_size /\
    recv buffer (Line (noise ++ concat bad ++ frame str ++ r) t) = Ok (str ++ stale, Z.of_nat (length str), Line r (t ++ answers))) /\
  send str (Line (answers ++ r') t') = Ok (Line r' (t' ++ concat (replicate (length answers) (frame str)))).
Proof.
  intros Hq Hb Hs Hl Hbad answers. split.
  - apply recv_retries; try done. cbn [rx]. rewrite !length_app. pose proof (damaged_length bad Hbad). lia.
  - unfold send, answers. rewrite <- app_assoc. cbn [app rx]. rewrite send_loop_spec; [|done|by apply Forall_replicate|rewrite length_app; lia].
    rewrite length_app, !length_replicate. cbn. by rewrite Nat.add_1_r.
Qed.

(** Text of digits needs no escapes: the packet of bytes is the packet of their digits. *)
Lemma hexed_plain data : bytes data -> escaped (hexed data) = hexed data.
Proof.
  induction 1 as [|b data Hb _ IH]; [done|]. destruct (nibbles b Hb) as (H1 & H2 & _). destruct (digit_facts _ H1) as (_ & _ & _ & S1), (digit_facts _ H2) as (_ & _ & _ & S2).
  unfold hexed, two_digits in *. cbn [fmap list_fmap concat app]. rewrite !escaped_cons. unfold escape. rewrite S1, S2. cbn [app]. by rewrite IH.
Qed.
Lemma bin_frame_eq data : bytes data -> bin_frame data = frame (hexed data).
Proof. intros Hb. unfold bin_frame, frame. by rewrite hexed_plain. Qed.
Lemma hexed_bytes data : bytes data -> bytes (hexed data).
Proof.
  induction 1 as [|b data Hb _ IH]; [constructor|]. destruct (nibbles b Hb) as (H1 & H2 & _). destruct (digit_facts _ H1) as (_ & _ & R1 & _), (digit_facts _ H2) as (_ & _ & R2 & _).
  unfold hexed, two_digits in *. cbn [fmap list_fmap concat app]. repeat constructor; try lia. done.
Qed.
Lemma hexed_length data : length (hexed data) = (2 * length data)%nat.
Proof. induction data as [|b data IH]; [done|]. unfold hexed in *. cbn in *. lia. Qed.

Lemma packet_transfer_witness : exists stale, recv (replicate 1024 0) (Line ([0x0D; 0x2B] ++ concat [packet [0x67] [0x36; 0x38]] ++ frame [0x67; 0x2A] ++ [0x2B]) []) =
  Ok ([0x67; 0x2A] ++ stale, 2, Line [0x2B] [0x2D; 0x2B]).
Proof.
  assert (H : Forall damaged [packet [0x67] [0x36; 0x38]]).
  { repeat constructor. exists [0x67], 0x36, 0x38. split; [reflexivity|]. split; [repeat constructor; lia|]. split; [vm_compute; discriminate|]. intros (_ & _ & E). vm_compute in E. discriminate. }
  assert (Hq : quiet [0x0D; 0x2B]) by (repeat constructor; discriminate).
  assert (Hb : bytes [0x67; 0x2A]) by (repeat constructor; lia).
  destruct (packet_transfer [0x67; 0x2A] (replicate 1024 0) [0x0D; 0x2B] [packet [0x67] [0x36; 0x38]] [0x2B] [] [] [] Hq Hb ltac:(vm_compute; discriminate) ltac:(vm_compute; reflexivity) H) as [(stale & _ & E) _].
  exists stale. exact E.
Defined.
End PacketThm.
