(* ===== verification/Kdb.v ===== *)
(** * The kernel debugger (src/kernel/exception/kdb.cpp)

    A stub for a debugger at the other end of a serial line: it answers packets that read and write registers and memory, set
    and clear breakpoints, and let the kernel go on.  Software breakpoints are bytes exchanged in memory and kept in slots;
    hardware breakpoints are the debug registers. *)

From S2P Require Import Prelude Const Bytes Packet.
From S2P Require PageTable.

Module Kdb.
Import Bytes Packet.
Abbreviation PTE := PageTable.PageTable.PTE.
Abbreviation present := PageTable.PageTable.present.
Abbreviation xd := PageTable.PageTable.xd.
Abbreviation page_addr := PageTable.PageTable.page_addr.

(** Text of the source. *)
Definition text (s : string) : list Z := (fun c => Z.of_N (Ascii.N_of_ascii c)) <$> String.list_ascii_of_string s.
Definition err_invarg : list Z := text "E16".
Definition err_denied : list Z := text "E0D".
Definition feature_list : list Z := text "PacketSize=400".

(** [struct context]. *)
Record context := Context {
  rax : Z; rcx : Z; rdx : Z; rbx : Z; rsi : Z; rdi : Z; rbp : Z;
  r8 : Z; r9 : Z; r10 : Z; r11 : Z; r12 : Z; r13 : Z; r14 : Z; r15 : Z;
  rip : Z; cs : Z; rflags : Z; rsp : Z; ss : Z
}.
Definition set_rip (x : Z) (c : context) : context :=
  Context (rax c) (rcx c) (rdx c) (rbx c) (rsi c) (rdi c) (rbp c) (r8 c) (r9 c) (r10 c) (r11 c) (r12 c) (r13 c) (r14 c) (r15 c) x (cs c) (rflags c) (rsp c) (ss c).
Definition set_rflags (x : Z) (c : context) : context :=
  Context (rax c) (rcx c) (rdx c) (rbx c) (rsi c) (rdi c) (rbp c) (r8 c) (r9 c) (r10 c) (r11 c) (r12 c) (r13 c) (r14 c) (r15 c) (rip c) (cs c) x (rsp c) (ss c).

Record bp_slot := Slot { va : Z; active : bool; data : Z }.
Definition sw_bp_count : nat := 16.

(** The registers for breakpoints. *)
Record dr_state := Dr { dr : list Z; dr7 : Z }.

(** [kdb_stub], with the memory and the registers it works on and the two features it looks at. *)
Record kdb_stub := Kdb {
  port : line; vector : Z; errcode : Z; conx : context; len : Z; sw_bp : list bp_slot; buffer : list Z;
  memory : Z -> Z; debug : dr_state; feature_MEM : bool; feature_GDB : bool
}.
Definition set_port (x : line) (s : kdb_stub) : kdb_stub := Kdb x (vector s) (errcode s) (conx s) (len s) (sw_bp s) (buffer s) (memory s) (debug s) (feature_MEM s) (feature_GDB s).
Definition set_conx (x : context) (s : kdb_stub) : kdb_stub := Kdb (port s) (vector s) (errcode s) x (len s) (sw_bp s) (buffer s) (memory s) (debug s) (feature_MEM s) (feature_GDB s).
Definition set_buffer (b : list Z) (n : Z) (s : kdb_stub) : kdb_stub := Kdb (port s) (vector s) (errcode s) (conx s) n (sw_bp s) b (memory s) (debug s) (feature_MEM s) (feature_GDB s).
Definition set_memory (x : Z -> Z) (s : kdb_stub) : kdb_stub := Kdb (port s) (vector s) (errcode s) (conx s) (len s) (sw_bp s) (buffer s) x (debug s) (feature_MEM s) (feature_GDB s).
Definition set_sw_bp (x : list bp_slot) (s : kdb_stub) : kdb_stub := Kdb (port s) (vector s) (errcode s) (conx s) (len s) x (buffer s) (memory s) (debug s) (feature_MEM s) (feature_GDB s).
Definition set_debug (x : dr_state) (s : kdb_stub) : kdb_stub := Kdb (port s) (vector s) (errcode s) (conx s) (len s) (sw_bp s) (buffer s) (memory s) x (feature_MEM s) (feature_GDB s).
Definition set_GDB (x : bool) (s : kdb_stub) : kdb_stub := Kdb (port s) (vector s) (errcode s) (conx s) (len s) (sw_bp s) (buffer s) (memory s) (debug s) (feature_MEM s) x.

Definition reply (str : list Z) (s : kdb_stub) : outcome kdb_stub := let! l := send str (port s); Ok (set_port l s).
Definition reply_bin (s : kdb_stub) : outcome kdb_stub := let! l := send_bin (take (Z.to_nat (len s)) (buffer s)) (port s); Ok (set_port l s).
Definition at_buffer (i : Z) (s : kdb_stub) : outcome Z := deref (buffer s !! Z.to_nat i).

(** [memcpy] into the buffer. *)
Definition blit (off : Z) (d : list Z) (b : list Z) : outcome (list Z) :=
  assert! off + Z.of_nat (length d) <=? Z.of_nat (length b);
  Ok (take (Z.to_nat off) b ++ d ++ drop (Z.to_nat off + length d) b).

(** ** Status, features, registers *)
Definition cmd_status (s : kdb_stub) : outcome kdb_stub :=
  reply (text "S0" ++ (if (vector s =? 1) || (vector s =? 3) then text "5" else text "7")) s.

Definition cmd_query (s : kdb_stub) : outcome (bool * kdb_stub) :=
  if (11 <=? len s) && bool_decide (take 11 (buffer s) = text "qSupported:") then let! s := reply feature_list s; Ok (true, s)
  else Ok (false, s).

Definition bytes_of (n : nat) (v : Z) : list Z := (fun i => v / 256 ^ i mod 256) <$> seqZ 0 (Z.of_nat n).
Fixpoint encode_all (vals : list (nat * Z)) (s : kdb_stub) : outcome kdb_stub :=
  match vals with
  | [] => Ok s
  | (n, v) :: vals => let! b := blit (len s) (bytes_of n v) (buffer s); encode_all vals (set_buffer b (len s + Z.of_nat n) s)
  end.
Definition registers (c : context) : list (nat * Z) :=
  [(8%nat, rax c); (8%nat, rbx c); (8%nat, rcx c); (8%nat, rdx c); (8%nat, rsi c); (8%nat, rdi c); (8%nat, rbp c); (8%nat, rsp c);
   (8%nat, r8 c); (8%nat, r9 c); (8%nat, r10 c); (8%nat, r11 c); (8%nat, r12 c); (8%nat, r13 c); (8%nat, r14 c); (8%nat, r15 c);
   (8%nat, rip c); (4%nat, w32 (rflags c)); (4%nat, w32 (cs c)); (4%nat, w32 (ss c))].
Definition cmd_read_regs (s : kdb_stub) : outcome kdb_stub :=
  if negb (len s =? 1) then reply err_invarg s
  else let! s := encode_all (registers (conx s)) (set_buffer (buffer s) 0 s); reply_bin s.
Definition cmd_write_regs (s : kdb_stub) : outcome kdb_stub := reply err_denied s.

(** ** Memory *)
Section Memory.
(** The entry for an address: of the kernel ([true]) or of the process at work. *)
Context (peek : bool -> Z -> PTE).

(** The byte behind an address, by its entry. *)
Definition place (sp : bool) (va : Z) : Z := w64 (Z.shiftl (page_addr (peek sp va)) 12) + Z.land va PAGE_MASK.

(** [hex_to_num], and the character that has to follow: [None] when the packet is refused. *)
Definition number_then (off : Z) (ch : Z) (s : kdb_stub) : outcome (option (Z * Z)) :=
  let! (index, v) := hex_to_num (buffer s) off (len s - off);
  if index =? 0 then Ok None
  else
    let index := index + off + 1 in
    if len s <=? index then Ok None
    else let! c := at_buffer (index - 1) s; Ok (if c =? ch then Some (index, v) else None).

Fixpoint read_loop (n : nat) (sp : bool) (va count : Z) (s : kdb_stub) : outcome kdb_stub :=
  match n with
  | O => NoFuel
  | S n =>
      if len s <? count then
        assert! (len s =? 0) || (Z.land va PAGE_MASK =? 0);
        if negb (present (peek sp va)) then Ok s
        else
          let cur_size := Z.min (count - len s) (PAGE_SIZE - Z.land va PAGE_MASK) in
          let! b := blit (len s) (load_bytes cur_size (memory s) (place sp va)) (buffer s);
          read_loop n sp (w64 (va + cur_size)) count (set_buffer b (len s + cur_size) s)
      else Ok s
  end.

Definition cmd_read_vm (s : kdb_stub) : outcome kdb_stub :=
  if negb (feature_MEM s) then reply err_invarg s
  else if len s <? 2 then reply err_invarg s
  else
    let! r := number_then 1 0x2C s;
    match r with
    | None => reply err_invarg s
    | Some (index, va) =>
        let! (index, count) := hex_to_num (buffer s) index (len s - index);
        if index =? 0 then reply err_invarg s
        else
          let! s := read_loop 3 (IS_HIGHADDR va) va (Z.min count buffer_size) (set_buffer (buffer s) 0 s);
          if truth (len s) then reply_bin s else reply err_denied s
    end.

(** The digits become bytes in place, [len s] counts them. *)
Fixpoint decode_loop (n : nat) (offset count : Z) (s : kdb_stub) : outcome kdb_stub :=
  match n with
  | O => NoFuel
  | S n =>
      if len s <? count then
        let! c1 := at_buffer offset s;
        let! c2 := at_buffer (offset + 1) s;
        let hi := hex_to_bin c1 in
        let lo := hex_to_bin c2 in
        if (0x0F <? hi) || (0x0F <? lo) then Ok s
        else
          let! b := blit (len s) [Z.lor (Z.shiftl hi 4) lo] (buffer s);
          decode_loop n (offset + 2) count (set_buffer b (len s + 1) s)
      else Ok s
  end.

Fixpoint write_loop (n : nat) (sp : bool) (va count : Z) (s : kdb_stub) : outcome kdb_stub :=
  match n with
  | O => NoFuel
  | S n =>
      if len s <? count then
        assert! (len s =? 0) || (Z.land va PAGE_MASK =? 0);
        if negb (present (peek sp va)) then Ok s
        else
          let cur_size := Z.min (count - len s) (PAGE_SIZE - Z.land va PAGE_MASK) in
          let d := take (Z.to_nat cur_size) (drop (Z.to_nat (len s)) (buffer s)) in
          write_loop n sp (w64 (va + cur_size)) count (set_buffer (buffer s) (len s + cur_size) (set_memory (store_bytes d (memory s) (place sp va)) s))
      else Ok s
  end.

Definition cmd_write_vm (s : kdb_stub) : outcome kdb_stub :=
  if negb (feature_MEM s) then reply err_invarg s
  else if len s <? 2 then reply err_invarg s
  else
    let! r := number_then 1 0x2C s;
    match r with
    | None => reply err_invarg s
    | Some (index, va) =>
        let! (offset, count) := hex_to_num (buffer s) index (len s - index);
        if offset =? 0 then reply err_invarg s
        else
          let offset := offset + index + 1 in
          if len s <? w64 (offset + 2 * count) then reply err_invarg s
          else
            let! c := at_buffer (offset - 1) s;
            if negb (c =? 0x3A) then reply err_invarg s
            else
              let! s := decode_loop 1025 offset count (set_buffer (buffer s) 0 s);
              if negb (len s =? count) then reply err_invarg s
              else
                let! s := write_loop 3 (IS_HIGHADDR va) va count (set_buffer (buffer s) 0 s);
                reply (if len s =? count then text "OK" else err_denied) s
    end.

(** ** Breakpoints in memory *)

(** The byte at an address that can be executed is exchanged for [d]. *)
Definition modify_instruction (va d : Z) (s : kdb_stub) : outcome (bool * Z * kdb_stub) :=
  if negb (feature_MEM s) then Ok (false, d, s)
  else
    let sp := IS_HIGHADDR va in
    let pt := peek sp va in
    if negb (present pt) || xd pt then Ok (false, d, s)
    else
      let a := place sp va in
      Ok (true, memory s a, set_memory (fun x => if x =? a then d else memory s x) s).

Definition set_slot (i : nat) (x : bp_slot) (s : kdb_stub) : kdb_stub := set_sw_bp (<[i := x]> (sw_bp s)) s.

(** The first slot in use at the address before [v]. *)
Fixpoint match_slot (n i : nat) (v : Z) (s : kdb_stub) : outcome (bool * kdb_stub) :=
  match n with
  | O => Ok (false, s)
  | S n =>
      let! cur := deref (sw_bp s !! i);
      if (va cur =? v) && active cur then
        let! (b, d, s) := modify_instruction v (data cur) s;
        if b then assert! d =? 0xCC; Ok (true, set_slot i (Slot (va cur) false d) s)
        else Ok (false, s)
      else match_slot n (S i) v s
  end.
Definition sw_bp_match (v : Z) (s : kdb_stub) : outcome (bool * kdb_stub) := match_slot sw_bp_count 0 (w64 (v - 1)) s.

(** The last blank slot and the last slot that matches. *)
Fixpoint find_slots (n i : nat) (v : Z) (blank found : option nat) (s : kdb_stub) : outcome (option nat * option nat) :=
  match n with
  | O => Ok (blank, found)
  | S n =>
      let! cur := deref (sw_bp s !! i);
      if va cur =? v then find_slots n (S i) v blank (Some i) s
      else if va cur =? 0 then
        assert! negb (active cur);
        find_slots n (S i) v (Some i) found s
      else find_slots n (S i) v blank found s
  end.

Definition breakpoint_sw (v op : Z) (s : kdb_stub) : outcome (bool * kdb_stub) :=
  let! (blank, found) := find_slots sw_bp_count 0 v None None s;
  if op =? 0x5A then
    match found, blank with
    | None, Some i =>
        let! cur := deref (sw_bp s !! i);
        let! (b, d, s) := modify_instruction v 0xCC s;
        if b then Ok (true, set_slot i (Slot v true d) s) else Ok (false, set_slot i (Slot 0 (active cur) d) s)
    | _, _ => Ok (false, s)
    end
  else if op =? 0x7A then
    match found with
    | Some i =>
        let! cur := deref (sw_bp s !! i);
        let! (d, s) := (if active cur then let! (_, d, s) := modify_instruction (va cur) (data cur) s; Ok (d, s) else Ok (data cur, s));
        Ok (true, set_slot i (Slot 0 false d) s)
    | None => Ok (false, s)
    end
  else Ok (false, s).

(** ** Breakpoints in the debug registers *)
Fixpoint find_regs (n i : nat) (mask addr : Z) (blank found : option nat) (d : dr_state) : outcome (option nat * option nat) :=
  match n with
  | O => Ok (blank, found)
  | S n =>
      if truth (Z.land (dr7 d) mask) then
        let! a := deref (dr d !! i);
        find_regs n (S i) (w64 (Z.shiftl mask 2)) addr blank (if a =? addr then Some i else found) d
      else find_regs n (S i) (w64 (Z.shiftl mask 2)) addr (Some i) found d
  end.

(** A breakpoint is cleared in [dr7] only. *)
Definition breakpoint_hw (addr op : Z) (s : kdb_stub) : outcome (bool * kdb_stub) :=
  let d := debug s in
  let! (blank, found) := find_regs 4 0 0x03 addr None None d;
  if op =? 0x5A then
    match found, blank with
    | None, Some i =>
        let mask := Z.shiftl 0x03 (2 * Z.of_nat i) in
        Ok (true, set_debug (Dr (<[i := addr]> (dr d)) (Z.lor (dr7 d) mask)) s)
    | _, _ => Ok (false, s)
    end
  else if op =? 0x7A then
    match found with
    | Some i =>
        let mask := Z.shiftl 0x03 (2 * Z.of_nat i) in
        Ok (true, set_debug (Dr (dr d) (Z.land (dr7 d) (w64 (Z.lnot mask)))) s)
    | None => Ok (false, s)
    end
  else Ok (false, s).

Definition cmd_breakpoint (s : kdb_stub) : outcome kdb_stub :=
  if len s <? 3 then reply err_invarg s
  else
    let! b0 := at_buffer 0 s;
    let! b1 := at_buffer 1 s;
    let! b2 := at_buffer 2 s;
    if negb (b2 =? 0x2C) then reply err_invarg s
    else if negb (b1 =? 0x30) && negb (b1 =? 0x31) then reply [] s
    else
      let! r := number_then 3 0x2C s;
      match r with
      | None => reply err_invarg s
      | Some (_, addr) =>
          let! (res, s) := (if b1 =? 0x31 then breakpoint_hw addr b0 s else breakpoint_sw addr b0 s);
          reply (if res then text "OK" else err_denied) s
      end.

(** ** Going on *)

(** [while(offset < length && buffer[offset++] != ';');]. *)
Fixpoint skip_signal (n : nat) (offset : Z) (s : kdb_stub) : outcome Z :=
  match n with
  | O => NoFuel
  | S n =>
      if offset <? len s then let! ch := at_buffer offset s; if ch =? 0x3B then Ok (offset + 1) else skip_signal n (offset + 1) s
      else Ok offset
  end.

Definition cmd_run (s : kdb_stub) : outcome (bool * kdb_stub) :=
  let refuse s := let! s := reply err_invarg s; Ok (false, s) in
  if negb (truth (len s)) then refuse s
  else
    let! b0 := at_buffer 0 s;
    let! offset := (if b0 =? 0x43 then skip_signal 1025 1 s else Ok 1);
    if (b0 =? 0x44) && negb (len s =? 1) then refuse s
    else
      let s := if b0 =? 0x44 then set_GDB false s else s in
      let! r := (if offset <? len s then let! (n, addr) := hex_to_num (buffer s) offset (len s - offset); Ok (if n =? 0 then None else Some (set_rip addr (conx s)))
                 else Ok (Some (conx s)));
      match r with
      | None => refuse s
      | Some c =>
          let c := if b0 =? 0x73 then set_rflags (Z.lor (rflags c) 0x10100) c else c in
          Ok (true, set_conx c s)
      end.

(** ** Messages to the debugger *)
Inductive parg := P_q (v : Z) | P_d (v : Z) | P_s (str : list Z) | P_t (str : list Z) (n : Z) | P_c (ch : Z).

(** The digits as the loop over the buffer finds them, lowest first. *)
Fixpoint low_digits (n : nat) (base v : Z) : outcome (list Z) :=
  if truth v then
    match n with
    | O => Bug
    | S n => let! c := hexchar (v mod base); let! r := low_digits n base (v / base); Ok (c :: r)
    end
  else Ok [].

Fixpoint hex16 (n : nat) (v : Z) (acc : list Z) : outcome (list Z) :=
  match n with
  | O => Ok acc
  | S n => let! c := hexchar (Z.land v 0x0F); hex16 n (Z.shiftr v 4) (c :: acc)
  end.

(** The bytes that the conversion [ch] puts. *)
Definition convert (ch : Z) (args : list parg) : outcome (list Z * list parg) :=
  let c := Z.land 0xDF ch in
  if c =? 0x50 then match args with P_q v :: args => let! t := hex16 16 v []; Ok (t, args) | _ => Bug end
  else if c =? 0x58 then
    match args with P_q v :: args => if v =? 0 then Ok ([0x30], args) else let! t := low_digits 16 16 v; Ok (rev t, args) | _ => Bug end
  else if c =? 0x44 then
    match args with P_d v :: args => if v =? 0 then Ok ([0x30], args) else let! t := low_digits 10 10 v; Ok (rev t, args) | _ => Bug end
  else if c =? 0x53 then match args with P_s str :: args => Ok (str, args) | _ => Bug end
  else if c =? 0x54 then match args with P_t str n :: args => assert! n <=? Z.of_nat (length str); Ok (take (Z.to_nat n) str, args) | _ => Bug end
  else if c =? 0x43 then match args with P_c v :: args => Ok ([v], args) | _ => Bug end
  else Ok ([ch], args).

(** [fmt] without its final zero; a percent sign at its end lets the loop run past it. *)
Fixpoint put_format (fmt : list Z) (args : list parg) (chksum : Z) (l : line) : outcome (Z * line) :=
  match fmt with
  | [] => Ok (chksum, l)
  | ch :: fmt =>
      if ch =? 0x25 then
        match fmt with
        | [] => Bug
        | c :: fmt => let! (t, args) := convert c args; let! (chksum, l) := put_bytes t chksum l; put_format fmt args chksum l
        end
      else let! (chksum, l) := put_bytes [ch] chksum l; put_format fmt args chksum l
  end.

Fixpoint dbgprint_loop (n : nat) (fmt : list Z) (args : list parg) (l : line) : outcome line :=
  match n with
  | O => NoFuel
  | S n =>
      let! (chksum, l) := put_format fmt args 0x4F (serial_put 0x4F (serial_put 0x24 l));
      let! (chksum, l) := put_bytes [0x0A] chksum l;
      let! (_, l) := put_hex_char chksum (serial_put 0x23 l);
      let! (b, l) := answered l;
      if b then Ok l else dbgprint_loop n fmt args l
  end.
Definition dbgprint (fmt : list Z) (args : list parg) (s : kdb_stub) : outcome kdb_stub :=
  if negb (feature_GDB s) then Ok s
  else let! l := dbgprint_loop (S (length (rx (port s)))) fmt args (port s); Ok (set_port l s).

(** ** The session *)
Definition breakname : list (list Z) :=
  text <$> ["DE"; "DB"; "NMI"; "BP"; "OF"; "BR"; "UD"; "NM"; "DF"; "??"; "TS"; "NP"; "SS"; "GP"; "PF"; "??"; "MF"; "AC"; "MC"; "XM"]%string.

Definition on_break (s : kdb_stub) : outcome kdb_stub :=
  let! name := (if vector s =? 0xFF then Ok (text "bugcheck") else if vector s <? 20 then deref (breakname !! Z.to_nat (vector s)) else Ok (text "??"));
  let! s := dbgprint (text "%s : %d @ %p") [P_s name; P_d (vector s); P_q (rip (conx s))] s;
  let! s := (if (10 <=? vector s) && (vector s <=? 14) then dbgprint (text "errcode = 0x%x") [P_q (errcode s)] s else Ok s);
  let! s := (if vector s =? 3 then let! (b, s) := sw_bp_match (rip (conx s)) s; Ok (if b then set_conx (set_rip (w64 (rip (conx s) - 1)) (conx s)) s else s) else Ok s);
  cmd_status s.

(** How the stub is left. *)
Inductive ending := Resumed | PowerOff.

(** One packet that has been received. *)
Definition serve (s : kdb_stub) : outcome (option ending * kdb_stub) :=
  let stay m := let! s := m; Ok (None, s) in
  if len s =? 0 then Ok (None, s)
  else
    let! b0 := at_buffer 0 s;
    if b0 =? 0x3F then stay (cmd_status s)
    else if b0 =? 0x67 then stay (cmd_read_regs s)
    else if b0 =? 0x47 then stay (cmd_write_regs s)
    else if b0 =? 0x6D then stay (cmd_read_vm s)
    else if b0 =? 0x4D then stay (cmd_write_vm s)
    else if (b0 =? 0x5A) || (b0 =? 0x7A) then stay (cmd_breakpoint s)
    else if (b0 =? 0x63) || (b0 =? 0x73) || (b0 =? 0x43) || (b0 =? 0x44) then
      let! (b, s) := cmd_run s;
      if b then Ok (Some Resumed, s) else stay (reply [] s)
    else if b0 =? 0x6B then Ok (Some PowerOff, s)
    else if b0 =? 0x71 then let! (b, s) := cmd_query s; if b then Ok (None, s) else stay (reply [] s)
    else stay (reply [] s).

Fixpoint signal_loop (n : nat) (s : kdb_stub) : outcome (ending * kdb_stub) :=
  match n with
  | O => NoFuel
  | S n =>
      let! (b, k, l) := recv (buffer s) (port s);
      let! (e, s) := serve (set_port l (set_buffer b k s));
      match e with Some e => Ok (e, s) | None => signal_loop n s end
  end.

(** Every turn takes a packet from the line. *)
Definition signal (id error_code : Z) (c : context) (s : kdb_stub) : outcome (ending * kdb_stub) :=
  let! s := on_break (Kdb (port s) id error_code c (len s) (sw_bp s) (buffer s) (memory s) (debug s) (feature_MEM s) (feature_GDB s));
  signal_loop (S (length (rx (port s)))) s.
End Memory.
End Kdb.
