(* ===== verification/KdbSafe.v ===== *)
(** * The kernel debugger: what its commands do

    Memory is written and read as the packets say ([debugger_memory]); breakpoints leave no trace
    ([breakpoints_transparent]); every packet is served and answered ([packets_answered]). *)

From S2P Require Import Prelude Const Bytes Packet Kdb.
From S2P Require PageTable.

Module KdbThm.
Import Bytes Packet PacketThm Kdb.

(** ** Numbers *)

(** A number as the other side writes it: at most sixteen digits. *)
Definition digits (ds : list Z) : Prop := Forall (fun c => hex_to_bin c <= 15) ds /\ (1 <= length ds <= 16)%nat.
Definition value (ds : list Z) : Z := foldl (fun v c => v * 16 + hex_to_bin c) 0 ds.

Lemma lor_digit v b : 0 <= v -> 0 <= b < 16 -> Z.lor (Z.shiftl v 4) b = v * 16 + b.
Proof.
  intros Hv Hb.
  assert (E : Z.land (Z.shiftl v 4) b = 0).
  { apply Z.bits_inj'. intros i Hi. rewrite Z.land_spec, Z.bits_0. destruct (Z.lt_ge_cases i 4); [by rewrite Z.shiftl_spec_low|].
    rewrite <- (wrap_small 4 b) by lia. unfold wrap. by rewrite Z.mod_pow2_bits_high, andb_false_r by lia. }
  rewrite <- Z.lxor_lor by done. rewrite <- Z.add_nocarry_lxor by done. rewrite Z.shiftl_mul_pow2 by lia. lia.
Qed.

Lemma num_loop_spec ds : Forall (fun c => hex_to_bin c <= 15) ds -> forall n pre c post off i v, (length ds <= n)%nat -> 15 < hex_to_bin c -> 0 <= v ->
  Z.of_nat (length pre) = off + i -> (v + 1) * 16 ^ Z.of_nat (length ds) <= 2 ^ 64 ->
  num_loop n (pre ++ ds ++ c :: post) off i v = Ok (i + Z.of_nat (length ds), foldl (fun v c => v * 16 + hex_to_bin c) v ds).
Proof.
  induction 1 as [|d ds Hd _ IH]; intros n pre c post off i v Hn Hc Hv Hi Hb.
  - cbn [length foldl app]. rewrite Z.add_0_r. destruct n as [|n]; [done|]. cbn [num_loop]. rewrite list_lookup_middle by lia. cbn [deref obind]. by rewrite (proj2 (Z.ltb_lt 15 _)).
  - cbn [length] in *. destruct n as [|n]; [lia|]. cbn [num_loop app]. rewrite list_lookup_middle by lia. cbn [deref obind]. rewrite (proj2 (Z.ltb_ge 15 _)) by lia.
    pose proof (hex_to_bin_range d) as H0. rewrite Nat2Z.inj_succ, Z.pow_succ_r in Hb by lia. assert (0 < 16 ^ Z.of_nat (length ds)) by (apply Z.pow_pos_nonneg; lia).
    rewrite lor_digit by lia. rewrite wrap_small by nia.
    replace (pre ++ d :: ds ++ c :: post) with ((pre ++ [d]) ++ ds ++ c :: post) by (by rewrite <- app_assoc). rewrite IH; [|lia|done|lia|rewrite length_app; cbn; lia|nia]. cbn [foldl]. f_equal. f_equal. lia.
Qed.

Lemma hex_to_num_spec ds pre c post lim : digits ds -> 15 < hex_to_bin c -> Z.of_nat (length ds) <= lim ->
  hex_to_num (pre ++ ds ++ c :: post) (Z.of_nat (length pre)) lim = Ok (Z.of_nat (length ds), value ds).
Proof.
  intros [Hd Hl] Hc Hlim. unfold hex_to_num. rewrite (num_loop_spec ds Hd); [done|lia|done|lia|lia|].
  change (2 ^ 64) with (16 ^ 16). rewrite Z.mul_1_l. apply Z.pow_le_mono_r; lia.
Qed.

Lemma value_range ds : digits ds -> 0 <= value ds < 2 ^ 64.
Proof.
  intros [Hd Hl]. unfold value. change (2 ^ 64) with (16 ^ 16). cut (forall v, 0 <= v -> 0 <= foldl (fun v c => v * 16 + hex_to_bin c) v ds < (v + 1) * 16 ^ Z.of_nat (length ds)).
  { intros H. specialize (H 0 ltac:(lia)). pose proof (Z.pow_le_mono_r 16 (Z.of_nat (length ds)) 16 ltac:(lia) ltac:(lia)). lia. }
  clear Hl. induction Hd as [|d ds Hd _ IH]; intros v Hv; [cbn; lia|]. cbn [foldl length]. rewrite Nat2Z.inj_succ, Z.pow_succ_r by lia.
  pose proof (hex_to_bin_range d). specialize (IH (v * 16 + hex_to_bin d) ltac:(lia)). assert (0 < 16 ^ Z.of_nat (length ds)) by (apply Z.pow_pos_nonneg; lia). nia.
Qed.

(** A number in the buffer that the right character follows. *)
Lemma number_then_spec s ds pre ch post : buffer s = pre ++ ds ++ ch :: post -> digits ds -> 15 < hex_to_bin ch -> Z.of_nat (length pre + length ds + 1) < len s ->
  number_then (Z.of_nat (length pre)) ch s = Ok (Some (Z.of_nat (length pre + length ds + 1), value ds)).
Proof.
  intros Eb Hd Hc Hl. pose proof Hd as [_ Hlen]. unfold number_then. rewrite Eb, hex_to_num_spec by (done || lia). cbn [obind].
  rewrite (proj2 (Z.eqb_neq _ 0)) by lia. rewrite (proj2 (Z.leb_gt (len s) _)) by lia. unfold at_buffer. rewrite Eb, app_assoc, list_lookup_middle by (rewrite length_app; lia). cbn [deref obind].
  rewrite Z.eqb_refl. repeat f_equal; lia.
Qed.

Section Memory.
Context (peek : bool -> Z -> PTE) (peek_page : forall sp a b, a / PAGE_SIZE = b / PAGE_SIZE -> peek sp a = peek sp b).
#[local] Set Default Proof Using "Type".

(** ** The reference: byte by byte *)

(** How many of the [n] bytes from [v] on are there. *)
Fixpoint reach (sp : bool) (n : nat) (v : Z) : nat :=
  match n with
  | O => O
  | S n => if present (peek sp v) then S (reach sp n (v + 1)) else O
  end.
Fixpoint poke (sp : bool) (v : Z) (l : list Z) (f : Z -> Z) : Z -> Z :=
  match l with
  | [] => f
  | b :: l => poke sp (v + 1) l (fun a => if a =? place peek sp v then b else f a)
  end.
Definition view (sp : bool) (v n : Z) (f : Z -> Z) : list Z := (fun a => f (place peek sp a)) <$> seqZ v n.

Lemma dbg_same_page v k : 0 <= k < PAGE_SIZE - v mod PAGE_SIZE -> (v + k) / PAGE_SIZE = v / PAGE_SIZE /\ (v + k) mod PAGE_SIZE = v mod PAGE_SIZE + k.
Proof. unfold PAGE_SIZE. intros Hk. split; dlia. Qed.

Lemma place_page sp v k : 0 <= k < PAGE_SIZE - v mod PAGE_SIZE -> place peek sp (v + k) = place peek sp v + k /\ peek sp (v + k) = peek sp v.
Proof using peek_page.
  intros Hk. destruct (dbg_same_page v k Hk) as [E1 E2]. assert (E : peek sp (v + k) = peek sp v) by by apply peek_page. split; [|done].
  unfold place. rewrite E, !land_PAGE_MASK, E2. lia.
Qed.

Lemma reach_le sp n v : (reach sp n v <= n)%nat.
Proof. revert v. induction n as [|n IH]; intros v; cbn; [done|]. destruct (present _); [specialize (IH (v + 1))|]; lia. Qed.

Lemma reach_page sp v m n : present (peek sp v) = true -> Z.of_nat m <= PAGE_SIZE - v mod PAGE_SIZE -> reach sp (m + n) v = (m + reach sp n (v + Z.of_nat m))%nat.
Proof using peek_page.
  intros Hp Hm. assert (Hall : forall j, 0 <= j < Z.of_nat m -> present (peek sp (v + j)) = true) by (intros j Hj; destruct (place_page sp v j) as [_ ->]; [lia|done]). clear Hp Hm.
  revert v Hall. induction m as [|m IH]; intros v Hall; [by rewrite Z.add_0_r|]. cbn [reach Nat.add]. pose proof (Hall 0 ltac:(lia)) as H0. rewrite Z.add_0_r in H0. rewrite H0. f_equal.
  replace (v + Z.of_nat (S m)) with (v + 1 + Z.of_nat m) by lia. apply IH. intros j Hj. replace (v + 1 + j) with (v + (j + 1)) by lia. apply Hall. lia.
Qed.

Lemma dbg_poke_ext sp l v f g x : (forall y, f y = g y) -> poke sp v l f x = poke sp v l g x.
Proof. revert v f g. induction l as [|b l IH]; intros v f g H; cbn; [done|]. apply IH. intros y. by rewrite H. Qed.

Lemma dbg_poke_app sp a b v f : poke sp v (a ++ b) f = poke sp (v + Z.of_nat (length a)) b (poke sp v a f).
Proof. revert v f. induction a as [|c a IH]; intros v f; cbn; [by rewrite Z.add_0_r|]. rewrite IH. f_equal. lia. Qed.

Lemma store_page sp l v f x : Z.of_nat (length l) <= PAGE_SIZE - v mod PAGE_SIZE -> store_bytes l f (place peek sp v) x = poke sp v l f x.
Proof using peek_page.
  induction l as [|b l IH] using rev_ind; intros Hl.
  - unfold store_bytes. cbn [poke length]. destruct (Z.leb_spec (place peek sp v) x), (Z.ltb_spec x (place peek sp v + Z.of_nat 0)); [lia|done..].
  - rewrite length_app in Hl. cbn in Hl. rewrite dbg_poke_app. cbn [poke]. rewrite <- IH by lia. destruct (place_page sp v (Z.of_nat (length l))) as [-> _]; [pose proof (Z.mod_pos_bound v PAGE_SIZE ltac:(done)); lia|].
    unfold store_bytes. rewrite length_app. cbn [length]. set (a := place peek sp v). destruct (Z.eqb_spec x (a + Z.of_nat (length l))) as [->|Hne].
    + destruct (Z.leb_spec a (a + Z.of_nat (length l))), (Z.ltb_spec (a + Z.of_nat (length l)) (a + Z.of_nat (length l + 1))); try lia. cbn [andb]. rewrite list_lookup_middle by lia. done.
    + destruct (Z.leb_spec a x), (Z.ltb_spec x (a + Z.of_nat (length l + 1))), (Z.ltb_spec x (a + Z.of_nat (length l))); cbn [andb]; try done; try lia. by rewrite lookup_app_l by lia.
Qed.

Lemma load_page sp v n f : 0 <= n <= PAGE_SIZE - v mod PAGE_SIZE -> load_bytes n f (place peek sp v) = view sp v n f.
Proof using peek_page.
  intros Hn. unfold load_bytes, view. apply list_eq. intros i. rewrite !list_lookup_fmap. destruct (decide (Z.of_nat i < n)).
  - rewrite !lookup_seqZ_lt by lia. cbn. f_equal. f_equal. destruct (place_page sp v (Z.of_nat i)) as [-> _]; [lia|done].
  - rewrite !lookup_seqZ_ge by lia. done.
Qed.

Lemma view_split sp v a b f : 0 <= a -> 0 <= b -> view sp v (a + b) f = view sp v a f ++ view sp (v + a) b f.
Proof. intros Ha Hb. unfold view. rewrite seqZ_app by done. by rewrite fmap_app. Qed.

(** A step of a copy: the part in the page, and what is left. *)
Lemma page_step v k count n : 0 <= v -> k < count -> (k = 0 \/ v mod PAGE_SIZE = 0) -> v + (count - k) <= 2 ^ 64 -> v mod PAGE_SIZE + (count - k) <= Z.of_nat n * PAGE_SIZE ->
  let cur := Z.min (count - k) (PAGE_SIZE - v mod PAGE_SIZE) in
  0 < cur /\ cur <= PAGE_SIZE - v mod PAGE_SIZE /\ cur <= count - k /\
  (cur = count - k /\ (1 <= n)%nat \/ w64 (v + cur) = v + cur /\ (v + cur) mod PAGE_SIZE = 0 /\ (v + cur) mod PAGE_SIZE + (count - (k + cur)) <= (Z.of_nat n - 1) * PAGE_SIZE).
Proof.
  intros Hv Hk Ha Hw Hp cur. pose proof (Z.mod_pos_bound v PAGE_SIZE ltac:(done)) as Hm. split_and!; [lia|lia|lia|]. destruct (Z.le_gt_cases (count - k) (PAGE_SIZE - v mod PAGE_SIZE)).
  - left. split; [lia|]. unfold PAGE_SIZE in *. lia.
  - right. assert (cur = PAGE_SIZE - v mod PAGE_SIZE) as -> by lia. assert (E : (v + (PAGE_SIZE - v mod PAGE_SIZE)) mod PAGE_SIZE = 0).
    { replace (v + (PAGE_SIZE - v mod PAGE_SIZE)) with ((v / PAGE_SIZE + 1) * PAGE_SIZE) by (pose proof (Z.div_mod v PAGE_SIZE ltac:(done)); lia). by apply Z.mod_mul. }
    split; [apply wrap_small; lia|]. split; [done|]. rewrite E. lia.
Qed.

(** ** Writing memory *)
Lemma write_loop_spec n : forall sp v count s k l, len s = k -> l = take (Z.to_nat (count - k)) (drop (Z.to_nat k) (buffer s)) -> Z.of_nat (length l) = count - k ->
  0 <= k <= count -> (k = 0 \/ v mod PAGE_SIZE = 0) -> 0 <= v -> v + (count - k) <= 2 ^ 64 -> v mod PAGE_SIZE + (count - k) <= Z.of_nat n * PAGE_SIZE ->
  exists mem', write_loop peek (S n) sp v count s = Ok (set_buffer (buffer s) (k + Z.of_nat (reach sp (length l) v)) (set_memory mem' s)) /\
    forall x, mem' x = poke sp v (take (reach sp (length l) v) l) (memory s) x.
Proof using peek_page.
  induction n as [|n IH]; intros sp v count s k l Ek El Hll Hk Ha Hv Hw Hp; [|remember (S n) as n1 eqn:En in |- *]; cbn [write_loop]; rewrite Ek.
  all: destruct (Z.ltb_spec k count) as [Hlt|]; [|assert (l = []) as -> by (apply nil_length_inv; lia); exists (memory s); split; [|done]; rewrite Z.add_0_r; destruct s; cbn in *; by subst].
  { pose proof (page_step v k count 0 Hv Hlt Ha Hw ltac:(lia)). pose proof (Z.mod_pos_bound v PAGE_SIZE ltac:(done)). lia. }
  rewrite ensure_true by (rewrite land_PAGE_MASK; apply orb_true_iff; rewrite !Z.eqb_eq; done). cbn [obind]. rewrite land_PAGE_MASK.
  destruct (present (peek sp v)) eqn:Ep; cbn [negb].
  2:{ exists (memory s). assert (reach sp (length l) v = 0%nat) as -> by (destruct (length l); [done|cbn; by rewrite Ep]). split; [|done]. rewrite Z.add_0_r. destruct s; cbn in *; by subst. }
  pose proof (page_step v k count (S n) Hv Hlt Ha Hw Hp) as Hstep. cbv zeta in Hstep. set (cur := Z.min (count - k) (PAGE_SIZE - v mod PAGE_SIZE)) in *. destruct Hstep as (H1 & H2 & H3 & H4).
  set (m := Z.to_nat cur). assert (Hm : Z.of_nat m = cur) by (unfold m; lia). rewrite <- (take_drop m l). set (a := take m l). set (b := drop m l).
  assert (Hla : length a = m) by (unfold a; rewrite length_take; lia). assert (Hlb : Z.of_nat (length b) = count - (k + cur)) by (unfold b; rewrite length_drop; lia).
  assert (Ea : take m (drop (Z.to_nat k) (buffer s)) = a) by (unfold a; rewrite El, take_take; f_equal; lia). rewrite Ea.
  rewrite length_app, Hla, reach_page by (done || lia).
  set (s1 := set_buffer (buffer s) (k + cur) (set_memory (store_bytes a (memory s) (place peek sp v)) s)).
  assert (Eb : b = take (Z.to_nat (count - (k + cur))) (drop (Z.to_nat (k + cur)) (buffer s1))).
  { unfold b. rewrite El. cbn [buffer set_buffer s1]. rewrite skipn_firstn_comm, drop_drop. f_equal; [lia|f_equal; lia]. }
  assert (Hfin : forall w, exists mem', write_loop peek n1 sp w count s1 = Ok (set_buffer (buffer s1) (k + cur + Z.of_nat (reach sp (length b) (v + cur))) (set_memory mem' s1)) /\
      (forall x, mem' x = poke sp (v + cur) (take (reach sp (length b) (v + cur)) b) (memory s1) x) \/ w <> w64 (v + cur)).
  { intros w. destruct (decide (w = w64 (v + cur))) as [->|]; [|exists (memory s); by right]. destruct H4 as [[Hall _]|(Ew & Eal & Hp')].
    - assert (Eb0 : b = []) by (apply nil_length_inv; lia). rewrite Eb0. exists (memory s1). left. split; [|done]. rewrite En. cbn [write_loop]. cbn [len s1 set_buffer]. rewrite (proj2 (Z.ltb_ge _ _)) by lia. cbn. by rewrite Z.add_0_r.
    - rewrite Ew, En. destruct (IH sp (v + cur) count s1 (k + cur) b eq_refl Eb Hlb) as (mem' & E & Hmem); [lia|by right|lia|lia|lia|]. exists mem'. by left. }
  destruct (Hfin (w64 (v + cur))) as (mem' & [[E Hmem]|]); [|done]. rewrite E. exists mem'. split.
  - rewrite Hm. replace (k + Z.of_nat (m + reach sp (length b) (v + cur))) with (k + cur + Z.of_nat (reach sp (length b) (v + cur))) by lia. reflexivity.
  - intros x. rewrite Hmem, Hm. rewrite take_app_add' by done. rewrite dbg_poke_app, Hla, Hm. apply dbg_poke_ext. intros y. cbn [memory s1 set_buffer set_memory]. apply store_page. lia.
Qed.

Lemma blit_left k d P R : 0 <= k -> (Z.to_nat k + length d <= length P)%nat -> blit k d (P ++ R) = Ok ((take (Z.to_nat k) P ++ d ++ drop (Z.to_nat k + length d) P) ++ R).
Proof.
  intros Hk Hl. unfold blit. rewrite ensure_true by (rewrite length_app, Z.leb_le; lia). cbn [obind]. rewrite take_app_le, drop_app_le by lia. by rewrite <- !app_assoc.
Qed.

Lemma decode_loop_spec rest : bytes rest -> forall n s pre stale k count, (length rest < n)%nat -> buffer s = pre ++ hexed rest ++ stale -> len s = k -> 0 <= k <= Z.of_nat (length pre) -> count = k + Z.of_nat (length rest) ->
  exists b', decode_loop n (Z.of_nat (length pre)) count s = Ok (set_buffer b' count s) /\ length b' = length (buffer s) /\ take (Z.to_nat count) b' = take (Z.to_nat k) (buffer s) ++ rest.
Proof.
  induction 1 as [|b rest Hb _ IH]; intros n s pre stale k count Hn Eb Ek Hk Ec; (destruct n as [|n]; [cbn in Hn; lia|]); cbn [decode_loop]; rewrite Ek.
  - cbn [length] in Ec. rewrite (proj2 (Z.ltb_ge _ _)) by lia. assert (count = k) as -> by lia. exists (buffer s). split; [destruct s; cbn in *; by subst|]. split; [done|]. by rewrite app_nil_r.
  - cbn [length] in *. rewrite (proj2 (Z.ltb_lt _ _)) by lia. destruct (own_digits b Hb) as (c1 & c2 & E2 & D1 & D2 & D3).
    assert (Eb2 : buffer s = (pre ++ [c1; c2]) ++ hexed rest ++ stale) by (rewrite Eb; unfold hexed; cbn [fmap list_fmap concat]; rewrite E2; by rewrite <- !app_assoc).
    unfold at_buffer. rewrite Eb2, <- app_assoc. cbn [app]. rewrite list_lookup_middle by lia. cbn [deref obind].
    change (pre ++ c1 :: c2 :: hexed rest ++ stale) with (pre ++ [c1] ++ c2 :: hexed rest ++ stale). rewrite app_assoc, list_lookup_middle by (rewrite length_app; cbn; lia). cbn [deref obind].
    rewrite (proj2 (Z.ltb_ge 15 _)), (proj2 (Z.ltb_ge 15 _)) by lia. cbn [orb]. pose proof (hex_to_bin_range c1). pose proof (hex_to_bin_range c2). rewrite lor_digits, D3 by lia.
    replace ((pre ++ [c1]) ++ c2 :: hexed rest ++ stale) with ((pre ++ [c1; c2]) ++ hexed rest ++ stale) by (by rewrite <- !app_assoc). set (P := pre ++ [c1; c2]).
    assert (HP : length P = (length pre + 2)%nat) by (unfold P; rewrite length_app; done). rewrite blit_left by (cbn [length]; lia). cbn [obind]. set (P' := take (Z.to_nat k) P ++ [b] ++ drop (Z.to_nat k + length [b]) P).
    assert (HP' : length P' = length P) by (unfold P'; rewrite !length_app, length_take, length_drop; cbn [length]; lia).
    destruct (IH n (set_buffer (P' ++ hexed rest ++ stale) (k + 1) s) P' stale (k + 1) count) as (b' & E & Hl & Ht); [lia|done|done|lia|lia|]. exists b'. split; [|split].
    + replace (Z.of_nat (length pre) + 2) with (Z.of_nat (length P')) by lia. rewrite E. done.
    + rewrite Hl. cbn [buffer set_buffer]. rewrite !length_app. lia.
    + rewrite Ht. cbn [buffer set_buffer]. rewrite !(take_app_le _ _ (Z.to_nat k)), !(take_app_le _ _ (Z.to_nat (k + 1))) by lia.
      replace (Z.to_nat (k + 1)) with (Z.to_nat k + 1)%nat by lia. unfold P'. rewrite take_app_add' by (rewrite length_take; lia). cbn [app take]. by rewrite <- app_assoc.
Qed.

Lemma bytes_check l : forallb (fun b => (0 <=? b) && (b <? 256)) l = true -> bytes l.
Proof. rewrite forallb_forall. intros H. apply Forall_forall. intros b Hb. apply list_elem_of_In, H, andb_true_iff in Hb as [H1 H2]. split; [by apply Z.leb_le|by apply Z.ltb_lt]. Qed.
Lemma text_OK : bytes (text "OK") /\ bytes err_denied /\ bytes err_invarg.
Proof. split_and!; by apply bytes_check. Qed.

(** A reply that is taken. *)
Lemma reply_spec str s r t : bytes str -> port s = Line (0x2B :: r) t -> reply str s = Ok (set_port (Line r (t ++ frame str)) s).
Proof.
  intros Hb Ep. unfold reply, send. rewrite Ep. pose proof (send_loop_spec str [] r t (S (length (rx (Line (0x2B :: r) t)))) Hb ltac:(constructor) ltac:(cbn; lia)) as E. cbn [app] in E. rewrite E.
  cbn [obind length replicate concat]. by rewrite app_nil_r.
Qed.
Lemma reply_bin_spec s d r t : bytes d -> take (Z.to_nat (len s)) (buffer s) = d -> port s = Line (0x2B :: r) t -> reply_bin s = Ok (set_port (Line r (t ++ bin_frame d)) s).
Proof.
  intros Hb Ed Ep. unfold reply_bin, send_bin. rewrite Ed, Ep. pose proof (send_bin_loop_spec d [] r t (S (length (rx (Line (0x2B :: r) t)))) Hb ltac:(constructor) ltac:(cbn; lia)) as E. cbn [app] in E. rewrite E.
  cbn [obind length replicate concat]. by rewrite app_nil_r.
Qed.

(** ** Reading memory *)
Lemma view_length sp v n f : 0 <= n -> Z.of_nat (length (view sp v n f)) = n.
Proof. intros Hn. unfold view. rewrite length_fmap, length_seqZ. lia. Qed.

Lemma blit_take k d b : 0 <= k -> (Z.to_nat k + length d <= length b)%nat -> exists b', blit k d b = Ok b' /\ length b' = length b /\ take (Z.to_nat k + length d) b' = take (Z.to_nat k) b ++ d.
Proof.
  intros Hk Hl. pose proof (blit_left k d b [] Hk Hl) as E. rewrite !app_nil_r in E. eexists. split; [exact E|]. split; [rewrite !length_app, length_take, length_drop; lia|].
  rewrite app_assoc. rewrite take_app_length' by (rewrite length_app, length_take; lia). done.
Qed.

Lemma read_loop_spec n : forall sp v count s k, len s = k -> count <= Z.of_nat (length (buffer s)) ->
  0 <= k <= count -> (k = 0 \/ v mod PAGE_SIZE = 0) -> 0 <= v -> v + (count - k) <= 2 ^ 64 -> v mod PAGE_SIZE + (count - k) <= Z.of_nat n * PAGE_SIZE ->
  let m := Z.of_nat (reach sp (Z.to_nat (count - k)) v) in
  exists b', read_loop peek (S n) sp v count s = Ok (set_buffer b' (k + m) s) /\ length b' = length (buffer s) /\ take (Z.to_nat (k + m)) b' = take (Z.to_nat k) (buffer s) ++ view sp v m (memory s).
Proof using peek_page.
  induction n as [|n IH]; intros sp v count s k Ek Hl Hk Ha Hv Hw Hp; [|remember (S n) as n1 eqn:En in |- *]; cbn [read_loop]; rewrite Ek.
  all: assert (Hend : reach sp (Z.to_nat (count - k)) v = 0%nat -> exists b', Ok s = Ok (set_buffer b' (k + Z.of_nat (reach sp (Z.to_nat (count - k)) v)) s) /\ length b' = length (buffer s) /\
      take (Z.to_nat (k + Z.of_nat (reach sp (Z.to_nat (count - k)) v))) b' = take (Z.to_nat k) (buffer s) ++ view sp v (Z.of_nat (reach sp (Z.to_nat (count - k)) v)) (memory s))
    by (intros ->; exists (buffer s); rewrite Z.add_0_r, app_nil_r; split; [destruct s; cbn in *; by subst|done]).
  all: destruct (Z.ltb_spec k count) as [Hlt|]; [|apply Hend; by replace (Z.to_nat (count - k)) with 0%nat by lia].
  { pose proof (page_step v k count 0 Hv Hlt Ha Hw ltac:(lia)). pose proof (Z.mod_pos_bound v PAGE_SIZE ltac:(done)). lia. }
  rewrite ensure_true by (rewrite land_PAGE_MASK; apply orb_true_iff; rewrite !Z.eqb_eq; done). cbn [obind]. rewrite land_PAGE_MASK.
  destruct (present (peek sp v)) eqn:Ep; cbn [negb]; [|apply Hend; destruct (Z.to_nat (count - k)); [done|cbn; by rewrite Ep]]. clear Hend.
  pose proof (page_step v k count (S n) Hv Hlt Ha Hw Hp) as Hstep. cbv zeta in Hstep. set (cur := Z.min (count - k) (PAGE_SIZE - v mod PAGE_SIZE)) in *. destruct Hstep as (H1 & H2 & H3 & H4).
  rewrite load_page by lia. pose proof (view_length sp v cur (memory s) ltac:(lia)) as Hvl. destruct (blit_take k (view sp v cur (memory s)) (buffer s)) as (b1 & -> & Hb1 & Ht1); [lia|lia|]. cbn [obind].
  replace (Z.to_nat (count - k)) with (Z.to_nat cur + Z.to_nat (count - (k + cur)))%nat by lia. rewrite reach_page by (done || lia). rewrite Z2Nat.id by lia.
  set (s1 := set_buffer b1 (k + cur) s). set (m2 := reach sp (Z.to_nat (count - (k + cur))) (v + cur)).
  assert (Hfin : exists b', read_loop peek n1 sp (w64 (v + cur)) count s1 = Ok (set_buffer b' (k + cur + Z.of_nat m2) s1) /\ length b' = length b1 /\
      take (Z.to_nat (k + cur + Z.of_nat m2)) b' = take (Z.to_nat (k + cur)) b1 ++ view sp (v + cur) (Z.of_nat m2) (memory s)).
  { destruct H4 as [[Hall _]|(Ew & Eal & Hp')].
    - unfold m2. replace (Z.to_nat (count - (k + cur))) with 0%nat by lia. exists b1. rewrite En. cbn [read_loop len s1 set_buffer]. rewrite (proj2 (Z.ltb_ge _ _)) by lia. cbn [reach Z.of_nat]. rewrite Z.add_0_r, app_nil_r. done.
    - rewrite Ew, En. apply (IH sp (v + cur) count s1 (k + cur)); [done|cbn; lia|lia|by right|lia|lia|lia]. }
  destruct Hfin as (b' & -> & Hb' & Ht'). exists b'. replace (k + Z.of_nat (Z.to_nat cur + m2)) with (k + cur + Z.of_nat m2) by lia. split; [done|]. split; [congruence|].
  rewrite Ht'. replace (Z.to_nat (k + cur)) with (Z.to_nat k + length (view sp v cur (memory s)))%nat by lia. rewrite Ht1, <- app_assoc. f_equal.
  replace (Z.of_nat (Z.to_nat cur + m2)) with (cur + Z.of_nat m2) by lia. by rewrite view_split by lia.
Qed.

(** Lists in one order of their parentheses. *)
Ltac flat := repeat (progress (rewrite <- ?app_assoc; cbn [app])).

(** ** The packets *)
Definition write_packet (a n d : list Z) : list Z := 0x4D :: a ++ 0x2C :: n ++ 0x3A :: hexed d.
Definition read_packet (a n : list Z) : list Z := 0x6D :: a ++ 0x2C :: n.

(** The packet has been received; what follows it in the buffer is older. *)
Definition received (p : list Z) (s : kdb_stub) : Prop :=
  feature_MEM s = true /\ Z.of_nat (length (buffer s)) = buffer_size /\ len s = Z.of_nat (length p) /\ exists stale, buffer s = p ++ stale.

Lemma received_length p s : received p s -> Z.of_nat (length p) <= 1024.
Proof. intros (_ & Hl & _ & stale & Eb). rewrite Eb, length_app in Hl. unfold buffer_size in Hl. lia. Qed.

Lemma cmd_write_vm_spec s a n d r t : received (write_packet a n d) s -> digits a -> digits n -> bytes d -> value n = Z.of_nat (length d) -> value a + Z.of_nat (length d) <= 2 ^ 64 ->
  port s = Line (0x2B :: r) t ->
  let sp := IS_HIGHADDR (value a) in let m := reach sp (length d) (value a) in
  exists b' mem', cmd_write_vm peek s = Ok (set_port (Line r (t ++ frame (if Z.of_nat m =? Z.of_nat (length d) then text "OK" else err_denied))) (set_buffer b' (Z.of_nat m) (set_memory mem' s))) /\
    length b' = length (buffer s) /\ forall x, mem' x = poke sp (value a) (take m d) (memory s) x.
Proof using peek_page.
  intros Hrec Ha Hn Hd Ev Hw Ep sp m. pose proof (received_length _ _ Hrec) as Hlen. destruct Hrec as (HM & Hbl & El & stale & Eb).
  unfold write_packet in *. rewrite app_comm_cons in *. cbn [length] in *. rewrite !length_app in *. cbn [length] in *. rewrite length_app in *. cbn [length] in *. rewrite hexed_length in *. pose proof Ha as [_ Hla]. pose proof Hn as [_ Hln]. pose proof (value_range a Ha) as Hva.
  unfold cmd_write_vm. rewrite HM. cbn [negb]. rewrite (proj2 (Z.ltb_ge (len s) 2)) by lia.
  assert (E1 : buffer s = [0x4D] ++ a ++ 0x2C :: n ++ 0x3A :: hexed d ++ stale) by (rewrite Eb; by flat).
  pose proof (number_then_spec s a [0x4D] 0x2C _ E1 Ha ltac:(vm_compute; reflexivity) ltac:(cbn [length]; lia)) as F1. cbn [length] in F1. change (Z.of_nat 1) with 1 in F1. rewrite F1. cbn [obind].
  assert (E2 : buffer s = ([0x4D] ++ a ++ [0x2C]) ++ n ++ 0x3A :: hexed d ++ stale) by (rewrite E1; by flat).
  assert (F2 : hex_to_num (buffer s) (Z.of_nat (1 + length a + 1)) (len s - Z.of_nat (1 + length a + 1)) = Ok (Z.of_nat (length n), value n)).
  { rewrite E2. replace (Z.of_nat (1 + length a + 1)) with (Z.of_nat (length ([0x4D] ++ a ++ [0x2C]))) by (rewrite !length_app; cbn; lia). apply hex_to_num_spec; [done|vm_compute; reflexivity|rewrite !length_app; cbn [length]; lia]. }
  rewrite F2. cbn [obind]. rewrite (proj2 (Z.eqb_neq (Z.of_nat (length n)) 0)) by lia. rewrite Ev. set (off := Z.of_nat (length n) + Z.of_nat (1 + length a + 1) + 1).
  rewrite wrap_small by lia. rewrite (proj2 (Z.ltb_ge (len s) _)) by lia.
  assert (E3 : buffer s = (([0x4D] ++ a ++ [0x2C]) ++ n) ++ 0x3A :: hexed d ++ stale) by (rewrite E2; by flat).
  unfold at_buffer. rewrite E3, list_lookup_middle by (rewrite !length_app; cbn [length]; lia). cbn [deref obind negb Z.eqb Pos.eqb]. rewrite <- E3.
  set (pre := (([0x4D] ++ a ++ [0x2C]) ++ n) ++ [0x3A]). assert (E4 : buffer s = pre ++ hexed d ++ stale) by (rewrite E3; unfold pre; by flat).
  replace off with (Z.of_nat (length pre)) by (unfold pre; rewrite !length_app; cbn [length]; lia).
  destruct (decode_loop_spec d Hd 1025 (set_buffer (buffer s) 0 s) pre stale 0 (Z.of_nat (length d))) as (b' & -> & Hb' & Ht); [lia|done|done|lia|lia|]. cbn [obind len set_buffer]. rewrite Z.eqb_refl. cbn [negb].
  cbn [buffer set_buffer take app] in Ht, Hb'. fold sp.
  destruct (write_loop_spec 2 sp (value a) (Z.of_nat (length d)) (set_buffer (buffer (set_buffer b' (Z.of_nat (length d)) (set_buffer (buffer s) 0 s))) 0 (set_buffer b' (Z.of_nat (length d)) (set_buffer (buffer s) 0 s))) 0 d) as (mem' & -> & Hmem);
    [done| |lia|lia|by left|lia|lia|pose proof (Z.mod_pos_bound (value a) PAGE_SIZE ltac:(done)); unfold PAGE_SIZE in *; lia|].
  { cbn [buffer set_buffer]. rewrite drop_0, Z.sub_0_r. done. }
  cbn [obind len set_buffer buffer]. rewrite Z.add_0_l. fold m. exists b', mem'. split; [|split; [done|exact Hmem]].
  destruct text_OK as (T1 & T2 & _). rewrite (reply_spec _ _ r t); [done|by case_match|done].
Qed.

Lemma num_loop_end ds : Forall (fun c => hex_to_bin c <= 15) ds -> forall pre post off i v, 0 <= v ->
  Z.of_nat (length pre) = off + i -> (v + 1) * 16 ^ Z.of_nat (length ds) <= 2 ^ 64 ->
  num_loop (length ds) (pre ++ ds ++ post) off i v = Ok (i + Z.of_nat (length ds), foldl (fun v c => v * 16 + hex_to_bin c) v ds).
Proof.
  induction 1 as [|d ds Hd _ IH]; intros pre post off i v Hv Hi Hb; cbn [num_loop length foldl app]; [by rewrite Z.add_0_r|].
  rewrite list_lookup_middle by lia. cbn [deref obind]. rewrite (proj2 (Z.ltb_ge 15 _)) by lia.
  cbn [length] in Hb. pose proof (hex_to_bin_range d) as H0. rewrite Nat2Z.inj_succ, Z.pow_succ_r in Hb by lia. assert (0 < 16 ^ Z.of_nat (length ds)) by (apply Z.pow_pos_nonneg; lia).
  rewrite lor_digit by lia. rewrite wrap_small by nia.
  replace (pre ++ d :: ds ++ post) with ((pre ++ [d]) ++ ds ++ post) by (by rewrite <- app_assoc). rewrite IH; [|lia|rewrite length_app; cbn; lia|nia]. f_equal. f_equal. lia.
Qed.

Lemma hex_to_num_end ds pre post lim : digits ds -> lim = Z.of_nat (length ds) -> hex_to_num (pre ++ ds ++ post) (Z.of_nat (length pre)) lim = Ok (Z.of_nat (length ds), value ds).
Proof.
  intros [Hd Hl] ->. unfold hex_to_num. replace (Z.to_nat (Z.min (Z.of_nat (length ds)) 16)) with (length ds) by lia. rewrite (num_loop_end ds Hd); [done|lia|lia|].
  change (2 ^ 64) with (16 ^ 16). rewrite Z.mul_1_l. apply Z.pow_le_mono_r; lia.
Qed.

Lemma cmd_read_vm_spec s a n r t : received (read_packet a n) s -> digits a -> digits n -> bytes_ok (memory s) -> value a + 1024 <= 2 ^ 64 -> port s = Line (0x2B :: r) t ->
  let sp := IS_HIGHADDR (value a) in let m := reach sp (Z.to_nat (Z.min (value n) 1024)) (value a) in
  exists b', cmd_read_vm peek s = Ok (set_port (Line r (t ++ if truth (Z.of_nat m) then bin_frame (view sp (value a) (Z.of_nat m) (memory s)) else frame err_denied)) (set_buffer b' (Z.of_nat m) s)) /\
    length b' = length (buffer s).
Proof using peek_page.
  intros Hrec Ha Hn Hmem Hw Ep sp m. pose proof (received_length _ _ Hrec) as Hlen. destruct Hrec as (HM & Hbl & El & stale & Eb).
  unfold read_packet in *. cbn [length] in *. rewrite length_app in *. cbn [length] in *. pose proof Ha as [_ Hla]. pose proof Hn as [_ Hln]. pose proof (value_range a Ha) as Hva. pose proof (value_range n Hn) as Hvn.
  unfold cmd_read_vm. rewrite HM. cbn [negb]. rewrite (proj2 (Z.ltb_ge (len s) 2)) by lia.
  assert (E1 : buffer s = [0x6D] ++ a ++ 0x2C :: n ++ stale) by (rewrite Eb; by flat).
  pose proof (number_then_spec s a [0x6D] 0x2C _ E1 Ha ltac:(vm_compute; reflexivity) ltac:(cbn [length]; lia)) as F1. cbn [length] in F1. change (Z.of_nat 1) with 1 in F1. rewrite F1. cbn [obind].
  assert (F2 : hex_to_num (buffer s) (Z.of_nat (1 + length a + 1)) (len s - Z.of_nat (1 + length a + 1)) = Ok (Z.of_nat (length n), value n)).
  { assert (E2 : buffer s = ([0x6D] ++ a ++ [0x2C]) ++ n ++ stale) by (rewrite E1; by flat). rewrite E2.
    replace (Z.of_nat (1 + length a + 1)) with (Z.of_nat (length ([0x6D] ++ a ++ [0x2C]))) by (rewrite !length_app; cbn; lia). apply hex_to_num_end; [done|rewrite !length_app; cbn [length]; lia]. }
  rewrite F2. cbn [obind]. rewrite (proj2 (Z.eqb_neq (Z.of_nat (length n)) 0)) by lia. change buffer_size with 1024. fold sp.
  destruct (read_loop_spec 2 sp (value a) (Z.min (value n) 1024) (set_buffer (buffer s) 0 s) 0) as (b' & -> & Hb' & Ht);
    [done|cbn [buffer set_buffer]; unfold buffer_size in Hbl; lia|lia|by left|lia|lia|pose proof (Z.mod_pos_bound (value a) PAGE_SIZE ltac:(done)); unfold PAGE_SIZE in *; lia|].
  cbn [obind len set_buffer buffer take app] in *. rewrite Z.add_0_l, Z.sub_0_r in *. fold m in Ht |- *. exists b'. split; [|done].
  destruct (truth (Z.of_nat m)).
  - rewrite (reply_bin_spec _ (view sp (value a) (Z.of_nat m) (memory s)) r t); [done| |done|done]. unfold view. apply Forall_fmap, Forall_forall. intros x _. apply Hmem.
  - rewrite (reply_spec _ _ r t); [done|apply text_OK|done].
Qed.

(** The bytes of a range that lie apart are read as they were written. *)
Lemma dbg_poke_out sp l : forall v f y, (forall i, 0 <= i < Z.of_nat (length l) -> place peek sp (v + i) <> y) -> poke sp v l f y = f y.
Proof.
  induction l as [|b l IH]; intros v f y Hy; [done|]. cbn [poke length] in *. rewrite IH by (intros i Hi; replace (v + 1 + i) with (v + (1 + i)) by lia; apply Hy; lia).
  destruct (Z.eqb_spec y (place peek sp v)) as [->|]; [|done]. exfalso. apply (Hy 0); [lia|]. by rewrite Z.add_0_r.
Qed.
Lemma dbg_view_poke sp l : forall v f, (forall i j, 0 <= i < Z.of_nat (length l) -> 0 <= j < Z.of_nat (length l) -> place peek sp (v + i) = place peek sp (v + j) -> i = j) ->
  view sp v (Z.of_nat (length l)) (poke sp v l f) = l.
Proof.
  induction l as [|b l IH]; intros v f Hd; [done|]. cbn [poke length] in *. replace (Z.of_nat (S (length l))) with (1 + Z.of_nat (length l)) by lia. rewrite view_split by lia.
  rewrite IH by (intros i j Hi Hj E; cut (1 + i = 1 + j); [lia|]; apply Hd; [lia..|]; by rewrite !Z.add_assoc).
  change (view sp v 1 ?g) with [g (place peek sp v)]. cbn [app]. f_equal. unfold view. cbn. rewrite dbg_poke_out, Z.eqb_refl; [done|]. intros i Hi E. assert (1 + i = 0); [|lia]. apply Hd; [lia..|]. by rewrite Z.add_assoc, Z.add_0_r.
Qed.

(** The packet that writes memory changes exactly the bytes of its range that are there, up to the first page that is not, and
    answers OK when that is all of them and a refusal otherwise; and where the bytes of the range lie apart, the packet that reads
    the same range afterwards, at whatever time before the memory changes again, sends exactly the bytes that were written. *)
Theorem debugger_memory s a n d r t : received (write_packet a n d) s -> digits a -> digits n -> bytes d -> value n = Z.of_nat (length d) -> value a + 1024 <= 2 ^ 64 ->
  bytes_ok (memory s) -> port s = Line (0x2B :: r) t ->
  let sp := IS_HIGHADDR (value a) in let m := reach sp (length d) (value a) in
  exists s1, cmd_write_vm peek s = Ok s1 /\
    port s1 = Line r (t ++ frame (if Z.of_nat m =? Z.of_nat (length d) then text "OK" else err_denied)) /\
    sw_bp s1 = sw_bp s /\ conx s1 = conx s /\ debug s1 = debug s /\ (forall x, memory s1 x = poke sp (value a) (take m d) (memory s) x) /\
    (forall s2 r2 t2, 0 < Z.of_nat m -> m = length d -> (forall i j, 0 <= i < Z.of_nat m -> 0 <= j < Z.of_nat m -> place peek sp (value a + i) = place peek sp (value a + j) -> i = j) ->
      received (read_packet a n) s2 -> memory s2 = memory s1 -> bytes_ok (memory s2) -> port s2 = Line (0x2B :: r2) t2 ->
      exists s3, cmd_read_vm peek s2 = Ok s3 /\ port s3 = Line r2 (t2 ++ bin_frame d) /\ memory s3 = memory s2).
Proof using peek_page.
  intros Hrec Ha Hn Hd Ev Hw Hmem Ep sp m. pose proof (received_length _ _ Hrec) as Hlen. unfold write_packet in Hlen. cbn [length] in Hlen. rewrite !length_app in Hlen. cbn [length] in Hlen. rewrite length_app in Hlen. cbn [length] in Hlen. rewrite hexed_length in Hlen.
  destruct (cmd_write_vm_spec s a n d r t Hrec Ha Hn Hd Ev ltac:(lia) Ep) as (b' & mem' & E & _ & Hm). fold sp m in E, Hm.
  eexists. split; [exact E|]. split; [done|]. do 3 (split; [done|]). split; [exact Hm|].
  intros s2 r2 t2 Hpos Hall Hdist Hrec2 Emem Hmem2 Ep2. destruct (cmd_read_vm_spec s2 a n r2 t2 Hrec2 Ha Hn Hmem2 Hw Ep2) as (b2 & E2 & _). rewrite E2. eexists. split; [done|]. split; [|done].
  cbn [port set_port]. fold sp. rewrite Ev. replace (Z.to_nat (Z.min (Z.of_nat (length d)) 1024)) with (length d) by lia. fold m. rewrite truth_pos by lia. do 3 f_equal.
  rewrite Emem. cbn [memory set_port set_buffer set_memory]. rewrite Hall in *. rewrite <- (dbg_view_poke sp d (value a) (memory s)) at 2 by done. unfold view. apply list_fmap_ext. intros _ x _. rewrite Hm. by rewrite take_ge by lia.
Qed.
End Memory.

Section Breakpoints.
Context (peek : bool -> Z -> PTE).
#[local] Set Default Proof Using "Type".

(** ** Breakpoints in memory *)

(** Where the byte of an address lies, and whether it can be exchanged. *)
Definition spot (v : Z) : Z := place peek (IS_HIGHADDR v) v.
Definition can_break (v : Z) : Prop := present (peek (IS_HIGHADDR v) v) = true /\ xd (peek (IS_HIGHADDR v) v) = false.

(** The slots against the memory as it would be without any breakpoint. *)
Record bp_ok (orig : Z -> Z) (s : kdb_stub) : Prop := {
  bo_on : feature_MEM s = true;
  bo_count : length (sw_bp s) = sw_bp_count;
  bo_active i x : sw_bp s !! i = Some x -> active x = true -> va x <> 0 /\ can_break (va x) /\ data x = orig (spot (va x)) /\ memory s (spot (va x)) = 0xCC;
  bo_apart i j x y : sw_bp s !! i = Some x -> sw_bp s !! j = Some y -> va x <> 0 -> va x = va y -> i = j;
  bo_spots i j x y : sw_bp s !! i = Some x -> sw_bp s !! j = Some y -> active x = true -> active y = true -> spot (va x) = spot (va y) -> i = j;
  bo_rest a : (forall i x, sw_bp s !! i = Some x -> active x = true -> spot (va x) <> a) -> memory s a = orig a
}.

Lemma modify_ok v d s : feature_MEM s = true -> can_break v ->
  modify_instruction peek v d s = Ok (true, memory s (spot v), set_memory (fun x => if x =? spot v then d else memory s x) s).
Proof. intros Hon [Hp Hx]. unfold modify_instruction. by rewrite Hon, Hp, Hx. Qed.

(** A slot whose breakpoint is taken out of the memory. *)
Lemma dbg_take_out orig s i x v' : bp_ok orig s -> sw_bp s !! i = Some x -> active x = true -> (v' = va x \/ v' = 0) ->
  bp_ok orig (set_slot i (Slot v' false 0xCC) (set_memory (fun a => if a =? spot (va x) then data x else memory s a) s)).
Proof.
  intros [Hon Hc Ha Hap Hsp Hre] Ei Eac Hv. destruct (Ha i x Ei Eac) as (Hnz & Hcb & Hd & Hm). assert (Hlt : (i < length (sw_bp s))%nat) by by eapply lookup_lt_Some.
  assert (Hs : forall j y, <[i := Slot v' false 0xCC]> (sw_bp s) !! j = Some y -> j = i /\ y = Slot v' false 0xCC \/ j <> i /\ sw_bp s !! j = Some y).
  { intros j y. rewrite list_lookup_insert. case_decide as Hd'; [intros [= <-]; left; by destruct Hd' as [-> _]|]. intros E. right. split; [|done]. intros ->. by destruct Hd'. }
  constructor; cbn [feature_MEM sw_bp set_slot set_sw_bp set_memory memory]; [done|by rewrite length_insert| | | |].
  - intros j y Ej Ey. destruct (Hs j y Ej) as [[-> ->]|[Hne Ej']]; [done|]. destruct (Ha j y Ej' Ey) as (? & ? & ? & Hmy). do 3 (split; [done|]). destruct (Z.eqb_spec (spot (va y)) (spot (va x))) as [Es|]; [|done]. by destruct Hne; apply (Hsp j i y x).
  - intros j k y z Ej Ek Hy E. destruct (Hs j y Ej) as [[-> ->]|[Hne Ej']], (Hs k z Ek) as [[-> ->]|[Hne' Ek']]; [done| | |by apply (Hap j k y z)]; cbn [va] in *.
    + destruct Hv as [->|]; [|done]. by apply (Hap i k x z).
    + destruct Hv as [->| ->]; [|congruence]. by apply (Hap j i y x).
  - intros j k y z Ej Ek Hy Hz E. destruct (Hs j y Ej) as [[-> ->]|[Hne Ej']], (Hs k z Ek) as [[-> ->]|[Hne' Ek']]; try done. by apply (Hsp j k y z).
  - intros a Hall. destruct (Z.eqb_spec a (spot (va x))) as [->|Hne]; [done|]. apply Hre. intros j y Ej Ey. destruct (decide (j = i)) as [->|Hji]; [rewrite Ei in Ej; injection Ej as <-; congruence|].
    apply (Hall j y); [by rewrite list_lookup_insert_ne|done].
Qed.

(** A slot that is taken into use. *)
Lemma put_in_memory orig s i x v : bp_ok orig s -> sw_bp s !! i = Some x -> va x = 0 -> active x = false -> v <> 0 -> can_break v ->
  (forall j y, sw_bp s !! j = Some y -> va y <> v) -> (forall j y, sw_bp s !! j = Some y -> active y = true -> spot (va y) <> spot v) ->
  bp_ok orig (set_slot i (Slot v true (memory s (spot v))) (set_memory (fun a => if a =? spot v then 0xCC else memory s a) s)).
Proof.
  intros [Hon Hc Ha Hap Hsp Hre] Ei Ev Eac Hnz Hcb Hnew Hspot. assert (Hlt : (i < length (sw_bp s))%nat) by by eapply lookup_lt_Some.
  set (new := Slot v true (memory s (spot v))). assert (Hs : forall j y, <[i := new]> (sw_bp s) !! j = Some y -> j = i /\ y = new \/ j <> i /\ sw_bp s !! j = Some y).
  { intros j y. rewrite list_lookup_insert. case_decide as Hd'; [intros [= <-]; left; by destruct Hd' as [-> _]|]. intros E. right. split; [|done]. intros ->. by destruct Hd'. }
  constructor; cbn [feature_MEM sw_bp set_slot set_sw_bp set_memory memory]; [done|by rewrite length_insert| | | |].
  - intros j y Ej Ey. destruct (Hs j y Ej) as [[-> ->]|[Hne Ej']].
    + cbn [va data]. rewrite Z.eqb_refl. split; [done|]. split; [done|]. split; [|done]. by apply Hre.
    + destruct (Ha j y Ej' Ey) as (? & ? & ? & Hmy). do 3 (split; [done|]). by destruct (Z.eqb_spec (spot (va y)) (spot v)).
  - intros j k y z Ej Ek Hy E. destruct (Hs j y Ej) as [[-> ->]|[Hne Ej']], (Hs k z Ek) as [[-> ->]|[Hne' Ek']]; [done| | |by apply (Hap j k y z)]; cbn [va new] in *.
    + by destruct (Hnew k z Ek').
    + by destruct (Hnew j y Ej').
  - intros j k y z Ej Ek Hy Hz E. destruct (Hs j y Ej) as [[-> ->]|[Hne Ej']], (Hs k z Ek) as [[-> ->]|[Hne' Ek']]; [done| | |by apply (Hsp j k y z)]; cbn [va new] in *.
    + by destruct (Hspot k z Ek' Hz).
    + by destruct (Hspot j y Ej' Hy).
  - intros a Hall. destruct (Z.eqb_spec a (spot v)) as [->|Hne].
    + exfalso. apply (Hall i new); [by apply list_lookup_insert_eq|done|done].
    + apply Hre. intros j y Ej Ey. destruct (decide (j = i)) as [->|Hji]; [congruence|]. apply (Hall j y); [by rewrite list_lookup_insert_ne|done].
Qed.

(** What the search answers: the last blank slot and the slot of the address. *)
Lemma find_slots_spec orig s v n : bp_ok orig s -> forall i blank found, (i + n = sw_bp_count)%nat ->
  (forall k, found = Some k -> (k < i)%nat /\ exists x, sw_bp s !! k = Some x /\ va x = v) ->
  (forall k, blank = Some k -> exists x, sw_bp s !! k = Some x /\ va x = 0 /\ active x = false) ->
  (found = None -> forall j x, (j < i)%nat -> sw_bp s !! j = Some x -> va x <> v) -> (blank = None -> v <> 0 -> forall j x, (j < i)%nat -> sw_bp s !! j = Some x -> va x <> 0) ->
  exists blank' found', find_slots n i v blank found s = Ok (blank', found') /\
    (forall k, found' = Some k -> exists x, sw_bp s !! k = Some x /\ va x = v) /\
    (forall k, blank' = Some k -> exists x, sw_bp s !! k = Some x /\ va x = 0 /\ active x = false) /\
    (found' = None -> forall j x, sw_bp s !! j = Some x -> va x <> v) /\ (blank' = None -> v <> 0 -> forall j x, sw_bp s !! j = Some x -> va x <> 0).
Proof.
  intros Hok. induction n as [|n IH]; intros i blank found Hi Hf Hb Hnf Hnb; cbn [find_slots].
  - pose proof (bo_count _ _ Hok) as Hc. assert (Hlt : forall j x, sw_bp s !! j = Some x -> (j < i)%nat) by (intros j x Ej; apply lookup_lt_Some in Ej; lia).
    exists blank, found. split; [done|]. split; [intros k E; destruct (Hf k E) as [_ ?]; done|]. split; [done|]. split; [intros E j x Ej; eauto|intros E Ev j x Ej; eauto].
  - destruct (lookup_lt_is_Some_2 (sw_bp s) i) as [x Ex]; [rewrite (bo_count _ _ Hok); lia|]. rewrite Ex. cbn [deref obind].
    assert (Hcase : forall j y, (j < S i)%nat -> sw_bp s !! j = Some y -> (j < i)%nat \/ y = x) by (intros j y Hj Ej; destruct (decide (j = i)) as [->|]; [right; congruence|left; lia]).
    destruct (Z.eqb_spec (va x) v) as [Ev|Hv]; [|destruct (Z.eqb_spec (va x) 0) as [E0|H0]].
    + apply IH; [lia|intros k [= <-]; split; [lia|by exists x]|done|done|]. intros E Hnz j y Hj Ej. destruct (Hcase j y Hj Ej) as [?| ->]; [by apply (Hnb E Hnz j)|congruence].
    + assert (Eac : active x = false) by (destruct (active x) eqn:Eac; [by destruct (bo_active _ _ Hok i x Ex Eac)|done]). rewrite Eac. cbn [negb ensure obind].
      apply IH; [lia| | | |done]; [intros k E; destruct (Hf k E); split; [lia|done]|intros k [= <-]; by exists x|]. intros E j y Hj Ej. destruct (Hcase j y Hj Ej) as [?| ->]; [by apply (Hnf E j)|done].
    + apply IH; [lia| |done| |]; [intros k E; destruct (Hf k E); split; [lia|done]| |]; intros E; [intros j y Hj Ej|intros Hnz j y Hj Ej]; (destruct (Hcase j y Hj Ej) as [?| ->]; [|done]); [by apply (Hnf E j)|by apply (Hnb E Hnz j)].
Qed.

Lemma find_all orig s v : bp_ok orig s -> exists blank found, find_slots sw_bp_count 0 v None None s = Ok (blank, found) /\
    (forall k, found = Some k -> exists x, sw_bp s !! k = Some x /\ va x = v) /\
    (forall k, blank = Some k -> exists x, sw_bp s !! k = Some x /\ va x = 0 /\ active x = false) /\
    (found = None -> forall j x, sw_bp s !! j = Some x -> va x <> v) /\ (blank = None -> v <> 0 -> forall j x, sw_bp s !! j = Some x -> va x <> 0).
Proof. intros Hok. apply (find_slots_spec orig s v sw_bp_count Hok); try done; intros _; [|intros _]; intros j x Hj; lia. Qed.

(** The slot in use at an address. *)
Definition breaks (s : kdb_stub) (v : Z) : Prop := exists i x, sw_bp s !! i = Some x /\ va x = v /\ active x = true.

Lemma set_ok orig s v : bp_ok orig s -> v <> 0 -> can_break v -> (forall w, breaks s w -> w <> v -> spot w <> spot v) ->
  exists b s', breakpoint_sw peek v 0x5A s = Ok (b, s') /\ bp_ok orig s' /\ port s' = port s /\
    (b = false -> s' = s /\ ((exists i x, sw_bp s !! i = Some x /\ va x = v) \/ forall i x, sw_bp s !! i = Some x -> va x <> 0)) /\
    (b = true -> forall w, breaks s' w <-> breaks s w \/ w = v).
Proof.
  intros Hok Hnz Hcb Hsp. destruct (find_all orig s v Hok) as (blank & found & E & Hf & Hb & Hnf & Hnb). unfold breakpoint_sw. rewrite E. cbn [obind Z.eqb Pos.eqb].
  destruct found as [k|]; [|destruct blank as [i|]].
  - exists false, s. split; [by destruct blank|]. split; [done|]. split; [done|]. split; [|done]. intros _. split; [done|]. left. exists k. by apply Hf.
  - destruct (Hb i eq_refl) as (x & Ex & Ev & Eac). rewrite Ex. cbn [deref obind]. rewrite modify_ok by (done || apply Hok). cbn [obind]. eexists true, _. split; [done|]. specialize (Hnf eq_refl).
    split; [|split; [done|split; [done|]]].
    + apply (put_in_memory orig s i x v); try done. intros j y Ej Ey. apply Hsp; [by exists j, y|by apply (Hnf j)].
    + intros _ w. unfold breaks. cbn [sw_bp set_slot set_sw_bp set_memory]. assert (Hlt : (i < length (sw_bp s))%nat) by by eapply lookup_lt_Some. split.
      * intros (j & y & Ej & Ew & Ey). destruct (decide (j = i)) as [->|Hne]; [rewrite list_lookup_insert_eq in Ej by done; injection Ej as <-; by right|]. rewrite list_lookup_insert_ne in Ej by done. left. by exists j, y.
      * intros [(j & y & Ej & Ew & Ey)| ->]; [|exists i; eexists; split; [by apply list_lookup_insert_eq|done]]. exists j, y. rewrite list_lookup_insert_ne; [done|]. intros ->. congruence.
  - exists false, s. split; [done|]. split; [done|]. split; [done|]. split; [|done]. intros _. split; [done|]. right. by apply Hnb.
Qed.

Lemma slot_out orig s i x : bp_ok orig s -> sw_bp s !! i = Some x -> active x = true -> forall v', v' = va x \/ v' = 0 ->
  forall w, breaks (set_slot i (Slot v' false 0xCC) (set_memory (fun a => if a =? spot (va x) then data x else memory s a) s)) w <-> breaks s w /\ w <> va x.
Proof.
  intros Hok Ei Eac v' _ w. assert (Hlt : (i < length (sw_bp s))%nat) by by eapply lookup_lt_Some. unfold breaks. cbn [sw_bp set_slot set_sw_bp set_memory]. destruct (bo_active _ _ Hok i x Ei Eac) as (Hnz & _). split.
  - intros (j & y & Ej & Ew & Ey). destruct (decide (j = i)) as [->|Hne]; [rewrite list_lookup_insert_eq in Ej by done; by injection Ej as <-|]. rewrite list_lookup_insert_ne in Ej by done. split; [by exists j, y|].
    intros ->. apply Hne. by apply (bo_apart _ _ Hok j i y x); try congruence.
  - intros [(j & y & Ej & Ew & Ey) Hne]. exists j, y. rewrite list_lookup_insert_ne; [done|]. intros ->. congruence.
Qed.

Lemma dbg_clear_ok orig s v : bp_ok orig s -> v <> 0 ->
  exists b s', breakpoint_sw peek v 0x7A s = Ok (b, s') /\ bp_ok orig s' /\ port s' = port s /\ (b = false <-> forall i x, sw_bp s !! i = Some x -> va x <> v) /\ (forall w, breaks s' w <-> breaks s w /\ w <> v).
Proof.
  intros Hok Hnz. destruct (find_all orig s v Hok) as (blank & found & E & Hf & _ & Hnf & _). unfold breakpoint_sw. rewrite E. cbn [obind Z.eqb Pos.eqb].
  destruct found as [k|].
  - destruct (Hf k eq_refl) as (x & Ex & Ev). rewrite Ex. cbn [deref obind]. destruct (active x) eqn:Eac.
    + destruct (bo_active _ _ Hok k x Ex Eac) as (_ & Hcb & _ & Hm). rewrite modify_ok by (done || apply Hok). cbn [obind]. rewrite Hm. eexists true, _. split; [done|]. split; [apply (dbg_take_out orig s k x 0); [done..|by right]|]. split; [done|].
      split; [split; [done|]; intros H; by destruct (H k x Ex)|]. rewrite <- Ev. apply (slot_out orig s k x Hok Ex Eac). by right.
    + cbn [obind]. eexists true, _. split; [done|]. assert (Hlt : (k < length (sw_bp s))%nat) by by eapply lookup_lt_Some.
      assert (Hs : forall j y, <[k := Slot 0 false (data x)]> (sw_bp s) !! j = Some y -> y = Slot 0 false (data x) \/ j <> k /\ sw_bp s !! j = Some y).
      { intros j y. rewrite list_lookup_insert. case_decide as Hd'; [intros [= <-]; by left|]. intros Ej. right. split; [|done]. intros ->. by destruct Hd'. }
      destruct Hok as [Hon Hc Ha Hap Hsp Hre]. split; [|split; [done|split]].
      * constructor; cbn [feature_MEM sw_bp set_slot set_sw_bp memory]; [done|by rewrite length_insert| | | |].
        -- intros j y Ej Ey. destruct (Hs j y Ej) as [->|[_ Ej']]; [done|by apply (Ha j)].
        -- intros j l y z Ej El Hy Eq. destruct (Hs j y Ej) as [->|[_ Ej']]; [done|]. destruct (Hs l z El) as [->|[_ El']]; [done|by apply (Hap j l y z)].
        -- intros j l y z Ej El Hy Hz Eq. destruct (Hs j y Ej) as [->|[_ Ej']]; [done|]. destruct (Hs l z El) as [->|[_ El']]; [done|by apply (Hsp j l y z)].
        -- intros a Hall. apply Hre. intros j y Ej Ey. apply (Hall j y); [|done]. rewrite list_lookup_insert_ne; [done|]. intros ->. congruence.
      * split; [done|]. intros H. by destruct (H k x Ex).
      * intros w. unfold breaks. cbn [sw_bp set_slot set_sw_bp]. split.
        -- intros (j & y & Ej & Ew & Ey). destruct (Hs j y Ej) as [->|[Hne Ej']]; [done|]. split; [by exists j, y|]. intros ->. apply Hne. by apply (Hap j k y x); try congruence.
        -- intros [(j & y & Ej & Ew & Ey) Hne]. exists j, y. rewrite list_lookup_insert_ne; [done|]. intros ->. congruence.
  - specialize (Hnf eq_refl). exists false, s. split; [done|]. split; [done|]. split; [done|]. split; [done|]. intros w. split; [|by intros [? _]]. intros Hw. split; [done|]. intros ->. destruct Hw as (i & x & Ex & Ev & _). by apply (Hnf i x).
Qed.

(** The trap at a breakpoint: the byte after it is where the processor has stopped. *)
Lemma match_ok orig s v n : bp_ok orig s -> forall i, (i + n = sw_bp_count)%nat -> (forall j x, (j < i)%nat -> sw_bp s !! j = Some x -> va x = v -> active x = false) ->
  exists b s', match_slot peek n i v s = Ok (b, s') /\ bp_ok orig s' /\ (b = true <-> breaks s v) /\ (forall w, breaks s' w <-> breaks s w /\ w <> v).
Proof.
  intros Hok. induction n as [|n IH]; intros i Hi Hpre; cbn [match_slot].
  - assert (Hno : ~ breaks s v) by (intros (j & x & Ej & Ev & Ea); pose proof (bo_count _ _ Hok); pose proof (lookup_lt_Some _ _ _ Ej); rewrite (Hpre j x) in Ea by (done || lia); done).
    exists false, s. split; [done|]. split; [done|]. split; [by split|]. intros w. split; [|by intros [? _]]. intros Hw. split; [done|]. by intros ->.
  - destruct (lookup_lt_is_Some_2 (sw_bp s) i) as [x Ex]; [rewrite (bo_count _ _ Hok); lia|]. rewrite Ex. cbn [deref obind]. destruct (Z.eqb_spec (va x) v) as [Ev|Hv]; cbn [andb]; [destruct (active x) eqn:Eac|].
    + destruct (bo_active _ _ Hok i x Ex Eac) as (_ & Hcb & _ & Hm). rewrite <- Ev. rewrite modify_ok by (done || apply Hok). cbn [obind]. rewrite Hm. cbn [Z.eqb Pos.eqb ensure obind]. eexists true, _. split; [done|].
      split; [apply (dbg_take_out orig s i x (va x)); [done..|by left]|]. split; [split; [intros _; by exists i, x|done]|]. apply (slot_out orig s i x Hok Ex Eac). by left.
    + apply IH; [lia|]. intros j y Hj Ej Ey. destruct (decide (j = i)) as [->|]; [congruence|]. apply (Hpre j y); [lia|done|done].
    + apply IH; [lia|]. intros j y Hj Ej Ey. destruct (decide (j = i)) as [->|]; [congruence|]. apply (Hpre j y); [lia|done|done].
Qed.

(** What a debugger and the program do to the breakpoints: [B] are the addresses with a breakpoint in memory. *)
Inductive bp_reach (orig : Z -> Z) : kdb_stub -> gset Z -> Prop :=
  | bp_start s : feature_MEM s = true -> sw_bp s = replicate sw_bp_count (Slot 0 false 0) -> memory s = orig -> bp_reach orig s ∅
  | bp_insert s B v b s' : bp_reach orig s B -> v <> 0 -> can_break v -> (forall w, w ∈ B -> w <> v -> spot w <> spot v) ->
      breakpoint_sw peek v 0x5A s = Ok (b, s') -> bp_reach orig s' (if b then {[v]} ∪ B else B)
  | bp_remove s B v b s' : bp_reach orig s B -> v <> 0 -> breakpoint_sw peek v 0x7A s = Ok (b, s') -> bp_reach orig s' (B ∖ {[v]})
  | bp_trap s B v b s' : bp_reach orig s B -> sw_bp_match peek v s = Ok (b, s') -> bp_reach orig s' (B ∖ {[w64 (v - 1)]}).

Lemma bp_reach_ok orig s B : bp_reach orig s B -> bp_ok orig s /\ forall w, breaks s w <-> w ∈ B.
Proof.
  induction 1 as [s Hon Es Em|s B v b s' _ [IH IHB] Hnz Hcb Hsp E|s B v b s' _ [IH IHB] Hnz E|s B v b s' _ [IH IHB] E].
  - assert (Hall : forall i x, sw_bp s !! i = Some x -> x = Slot 0 false 0) by (intros i x Ex; rewrite Es in Ex; by apply lookup_replicate in Ex as [-> _]). split.
    + constructor; [done|by rewrite Es, length_replicate| | | |].
      * intros i x Ex Ea. by rewrite (Hall i x Ex) in Ea.
      * intros i j x y Ex _ Hv. by rewrite (Hall i x Ex) in Hv.
      * intros i j x y Ex _ Ea. by rewrite (Hall i x Ex) in Ea.
      * intros a _. by rewrite Em.
    + intros w. split; [|by intros ?%elem_of_empty]. intros (i & x & Ex & _ & Ea). by rewrite (Hall i x Ex) in Ea.
  - destruct (set_ok orig s v IH Hnz Hcb) as (b0 & s0 & E0 & Hok & _ & Hfalse & Htrue); [intros w Hw; apply Hsp; by apply IHB|]. rewrite E in E0. injection E0 as <- <-. split; [done|].
    destruct b; intros w; [rewrite (Htrue eq_refl w), IHB; set_solver|by destruct (Hfalse eq_refl) as [-> _]].
  - destruct (dbg_clear_ok orig s v IH Hnz) as (b0 & s0 & E0 & Hok & _ & _ & Hw). rewrite E in E0. injection E0 as <- <-. split; [done|]. intros w. rewrite Hw, IHB. set_solver.
  - destruct (match_ok orig s (w64 (v - 1)) sw_bp_count IH 0) as (b0 & s0 & E0 & Hok & _ & Hw); [done|intros j x Hj; lia|]. unfold sw_bp_match in E. rewrite E in E0. injection E0 as <- <-. split; [done|]. intros w. rewrite Hw, IHB. set_solver.
Qed.

End Breakpoints.
Section Answers.
Context (peek : bool -> Z -> PTE).
#[local] Set Default Proof Using "Type".

(** ** What every packet is answered with *)

Record stub_ok (s : kdb_stub) : Prop := {
  so_buffer : length (buffer s) = 1024%nat;
  so_bytes : bytes (buffer s);
  so_len : 0 <= len s <= 1024;
  so_memory : bytes_ok (memory s);
  so_slots : length (sw_bp s) = sw_bp_count;
  so_blank i x : sw_bp s !! i = Some x -> va x = 0 -> active x = false;
  so_data i x : sw_bp s !! i = Some x -> 0 <= data x < 256;
  so_regs : length (dr (debug s)) = 4%nat
}.

(** The command answers with one packet, which is taken, and leaves the stub in order. *)
Definition replies (s : kdb_stub) (m : outcome kdb_stub) : Prop :=
  forall r t, port s = Line (0x2B :: r) t -> exists s' str, m = Ok s' /\ bytes str /\ port s' = Line r (t ++ frame str) /\ stub_ok s'.

Lemma stub_port l s : stub_ok s -> stub_ok (set_port l s).
Proof. by intros []. Qed.
Lemma stub_buffer b n s : stub_ok s -> length b = 1024%nat -> bytes b -> 0 <= n <= 1024 -> stub_ok (set_buffer b n s).
Proof. by intros [] ???; constructor. Qed.
Lemma stub_memory f s : stub_ok s -> bytes_ok f -> stub_ok (set_memory f s).
Proof. by intros [] ?; constructor. Qed.
Lemma stub_conx c s : stub_ok s -> stub_ok (set_conx c s).
Proof. by intros []. Qed.

Lemma reply_ok str s0 s : bytes str -> port s0 = port s -> stub_ok s -> replies s0 (reply str s).
Proof.
  intros Hb Ep Hok r t E. rewrite Ep in E. rewrite (reply_spec str s r t Hb E). eexists _, str. split; [done|]. split; [done|]. split; [done|]. by apply stub_port.
Qed.

Lemma reply_bin_ok s0 s : port s0 = port s -> stub_ok s -> replies s0 (reply_bin s).
Proof.
  intros Ep Hok r t E. rewrite Ep in E. assert (Hb : bytes (take (Z.to_nat (len s)) (buffer s))) by (apply Forall_take, Hok).
  rewrite (reply_bin_spec s _ r t Hb eq_refl E). eexists _, (hexed (take (Z.to_nat (len s)) (buffer s))). split; [done|]. split; [by apply hexed_bytes|]. split; [by rewrite <- bin_frame_eq|]. by apply stub_port.
Qed.

Lemma constant_bytes : bytes err_invarg /\ bytes err_denied /\ bytes feature_list /\ bytes (text "OK") /\ bytes (text "S05") /\ bytes (text "S07").
Proof. split_and!; by apply bytes_check. Qed.

Lemma invalid_ok s0 s : port s0 = port s -> stub_ok s -> replies s0 (reply err_invarg s).
Proof. intros. apply reply_ok; [apply constant_bytes|done|done]. Qed.
Lemma denied_ok s0 s (b : bool) : port s0 = port s -> stub_ok s -> replies s0 (reply (if b then text "OK" else err_denied) s).
Proof. intros. apply reply_ok; [destruct b; apply constant_bytes|done|done]. Qed.

Lemma at_buffer_ok s i : stub_ok s -> 0 <= i < 1024 -> exists c, at_buffer i s = Ok c /\ 0 <= c < 256 /\ buffer s !! Z.to_nat i = Some c.
Proof.
  intros Hok Hi. destruct (lookup_lt_is_Some_2 (buffer s) (Z.to_nat i)) as [c E]; [rewrite (so_buffer _ Hok); lia|]. exists c. unfold at_buffer. rewrite E. split; [done|]. split; [|done].
  by apply (Forall_lookup_1 _ _ _ _ (so_bytes _ Hok) E).
Qed.

Lemma num_loop_ok s n : stub_ok s -> forall off i v, 0 <= off -> 0 <= i -> off + i + Z.of_nat n <= 1024 -> 0 <= v < 2 ^ 64 ->
  exists j w, num_loop n (buffer s) off i v = Ok (j, w) /\ i <= j <= i + Z.of_nat n /\ 0 <= w < 2 ^ 64.
Proof.
  intros Hok. induction n as [|n IH]; intros off i v Ho Hi Hn Hv; cbn [num_loop]; [exists i, v; split; [done|lia]|].
  destruct (at_buffer_ok s (off + i) Hok ltac:(lia)) as (c & _ & _ & E). rewrite E. cbn [deref obind]. destruct (_ <? _); [exists i, v; split; [done|lia]|].
  destruct (IH off (i + 1) (w64 (Z.lor (Z.shiftl v 4) (hex_to_bin c)))) as (j & w & Ej & Hj & Hw); [lia..|apply wrap_range; lia|]. exists j, w. split; [done|lia].
Qed.

Lemma hex_to_num_ok s off lim : stub_ok s -> 0 <= off -> 0 <= lim -> off + lim <= 1024 -> exists j w, hex_to_num (buffer s) off lim = Ok (j, w) /\ 0 <= j <= lim /\ 0 <= w < 2 ^ 64.
Proof.
  intros Hok Ho Hl Hn. destruct (num_loop_ok s (Z.to_nat (Z.min lim 16)) Hok off 0 0) as (j & w & E & Hj & Hw); [lia..|]. exists j, w. split; [exact E|]. lia.
Qed.

Lemma number_then_ok s off ch : stub_ok s -> 0 <= off <= len s -> exists o, number_then off ch s = Ok o /\ (forall i v, o = Some (i, v) -> off < i < len s /\ 0 <= v < 2 ^ 64).
Proof.
  intros Hok Ho. pose proof (so_len _ Hok). unfold number_then. destruct (hex_to_num_ok s off (len s - off) Hok) as (j & w & -> & Hj & Hw); [lia..|]. cbn [obind].
  destruct (Z.eqb_spec j 0); [by exists None|]. destruct (Z.leb_spec (len s) (j + off + 1)); [by exists None|]. destruct (at_buffer_ok s (j + off + 1 - 1) Hok ltac:(lia)) as (c & -> & _). cbn [obind].
  eexists. split; [done|]. intros i v. destruct (c =? ch); [|done]. intros [= <- <-]. lia.
Qed.

Lemma blit_ok k d s : stub_ok s -> 0 <= k -> bytes d -> k + Z.of_nat (length d) <= 1024 -> exists b, blit k d (buffer s) = Ok b /\ length b = 1024%nat /\ bytes b.
Proof.
  intros Hok Hk Hd Hl. pose proof (so_buffer _ Hok) as Hbl. destruct (blit_take k d (buffer s) Hk ltac:(lia)) as (b & E & Hlb & _). exists b. split; [done|]. split; [lia|].
  unfold blit in E. destruct (ensure _); [|done..]. cbn [obind] in E. injection E as <-. pose proof (so_bytes _ Hok) as Hb. apply Forall_app. split; [by apply Forall_take|]. apply Forall_app. split; [done|by apply Forall_drop].
Qed.

(** The part of a copy in a page, wherever it lies. *)
Lemma part_step v k count n : k < count -> v mod PAGE_SIZE + (count - k) <= Z.of_nat n * PAGE_SIZE ->
  let cur := Z.min (count - k) (PAGE_SIZE - v mod PAGE_SIZE) in
  0 < cur <= count - k /\ (1 <= n)%nat /\ (k + cur = count \/ w64 (v + cur) mod PAGE_SIZE = 0 /\ w64 (v + cur) mod PAGE_SIZE + (count - (k + cur)) <= (Z.of_nat n - 1) * PAGE_SIZE).
Proof.
  intros Hk Hp cur. pose proof (Z.mod_pos_bound v PAGE_SIZE ltac:(done)) as Hm. split; [lia|]. split; [unfold PAGE_SIZE in *; lia|].
  destruct (Z.le_gt_cases (count - k) (PAGE_SIZE - v mod PAGE_SIZE)); [left; lia|]. right. assert (cur = PAGE_SIZE - v mod PAGE_SIZE) as -> by lia.
  assert (E : w64 (v + (PAGE_SIZE - v mod PAGE_SIZE)) mod PAGE_SIZE = 0).
  { unfold wrap. rewrite <- (Z.mod_mod_divide _ _ PAGE_SIZE) by (by exists (2 ^ 52)). unfold wrap. rewrite Z.mod_mod_divide by (by exists (2 ^ 52)).
    replace (v + (PAGE_SIZE - v mod PAGE_SIZE)) with ((v / PAGE_SIZE + 1) * PAGE_SIZE) by (pose proof (Z.div_mod v PAGE_SIZE ltac:(done)); lia). rewrite Z.mod_mod_divide by (by exists (2 ^ 52)). by apply Z.mod_mul. }
  rewrite E. lia.
Qed.

Lemma load_bytes_ok n f a : bytes_ok f -> 0 <= n -> bytes (load_bytes n f a) /\ Z.of_nat (length (load_bytes n f a)) = n.
Proof. intros Hf Hn. unfold load_bytes. split; [apply Forall_fmap, Forall_forall; intros x _; apply Hf|rewrite length_fmap, length_seqZ; lia]. Qed.

Lemma store_bytes_ok l f a : bytes_ok f -> bytes l -> bytes_ok (store_bytes l f a).
Proof.
  intros Hf Hl x. unfold store_bytes. destruct (_ && _); [|apply Hf]. destruct (l !! Z.to_nat (x - a)) as [b|] eqn:E; cbn; [|lia]. by apply (Forall_lookup_1 _ _ _ _ Hl E).
Qed.

Lemma dbg_read_loop_ok n : forall sp v count s, stub_ok s -> len s <= count -> count <= 1024 -> (len s = 0 \/ v mod PAGE_SIZE = 0) -> v mod PAGE_SIZE + (count - len s) <= Z.of_nat n * PAGE_SIZE ->
  exists s', read_loop peek (S n) sp v count s = Ok s' /\ stub_ok s' /\ port s' = port s.
Proof.
  induction n as [|n IH]; intros sp v count s Hok Hl Hc Ha Hp; [|remember (S n) as n1 eqn:En in |- *]; cbn [read_loop]; (destruct (Z.ltb_spec (len s) count) as [Hlt|]; [|by exists s]).
  { destruct (part_step v (len s) count 0 Hlt ltac:(lia)) as (_ & ? & _). lia. }
  rewrite ensure_true by (rewrite land_PAGE_MASK; apply orb_true_iff; rewrite !Z.eqb_eq; done). cbn [obind]. destruct (negb _); [by exists s|]. rewrite land_PAGE_MASK.
  destruct (part_step v (len s) count (S n) Hlt Hp) as (H1 & _ & H2). set (cur := Z.min (count - len s) (PAGE_SIZE - v mod PAGE_SIZE)) in *. pose proof (so_len _ Hok).
  destruct (load_bytes_ok cur (memory s) (place peek sp v) (so_memory _ Hok) ltac:(lia)) as [Hb1 Hb2]. destruct (blit_ok (len s) (load_bytes cur (memory s) (place peek sp v)) s Hok) as (b & -> & Hbl & Hbb); [lia|done|lia|]. cbn [obind].
  assert (Hok1 : stub_ok (set_buffer b (len s + cur) s)) by (apply stub_buffer; [done..|lia]).
  destruct H2 as [Hend|[Hal Hp']].
  - exists (set_buffer b (len s + cur) s). rewrite En. cbn [read_loop len set_buffer]. rewrite (proj2 (Z.ltb_ge _ _)) by lia. done.
  - rewrite En. destruct (IH sp (w64 (v + cur)) count (set_buffer b (len s + cur) s) Hok1) as (s' & E & Hs' & Ep); cbn [len set_buffer]; [lia|lia|by right|lia|]. by exists s'.
Qed.

Lemma dbg_write_loop_ok n : forall sp v count s, stub_ok s -> len s <= count -> count <= 1024 -> (len s = 0 \/ v mod PAGE_SIZE = 0) -> v mod PAGE_SIZE + (count - len s) <= Z.of_nat n * PAGE_SIZE ->
  exists s', write_loop peek (S n) sp v count s = Ok s' /\ stub_ok s' /\ port s' = port s.
Proof.
  induction n as [|n IH]; intros sp v count s Hok Hl Hc Ha Hp; [|remember (S n) as n1 eqn:En in |- *]; cbn [write_loop]; (destruct (Z.ltb_spec (len s) count) as [Hlt|]; [|by exists s]).
  { destruct (part_step v (len s) count 0 Hlt ltac:(lia)) as (_ & ? & _). lia. }
  rewrite ensure_true by (rewrite land_PAGE_MASK; apply orb_true_iff; rewrite !Z.eqb_eq; done). cbn [obind]. destruct (negb _); [by exists s|]. rewrite land_PAGE_MASK.
  destruct (part_step v (len s) count (S n) Hlt Hp) as (H1 & _ & H2). set (cur := Z.min (count - len s) (PAGE_SIZE - v mod PAGE_SIZE)) in *. pose proof (so_len _ Hok).
  match goal with |- context [write_loop _ _ _ _ _ ?x] => set (s1 := x) end.
  assert (Hok1 : stub_ok s1) by (unfold s1; apply stub_buffer; [apply stub_memory; [done|apply store_bytes_ok; [apply Hok|apply Forall_take, Forall_drop, Hok]]|apply Hok|apply Hok|lia]).
  destruct H2 as [Hend|[Hal Hp']].
  - exists s1. rewrite En. cbn [write_loop]. rewrite (proj2 (Z.ltb_ge (len s1) _)) by (cbn; lia). done.
  - rewrite En. destruct (IH sp (w64 (v + cur)) count s1 Hok1) as (s' & E & Hs' & Ep); cbn [len s1 set_buffer]; [lia|lia|by right|lia|]. by exists s'.
Qed.

Lemma decode_loop_ok n : forall s offset count, stub_ok s -> len s <= offset -> len s <= count -> offset + 2 * (count - len s) <= 1024 -> count - len s < Z.of_nat n ->
  exists s', decode_loop n offset count s = Ok s' /\ stub_ok s' /\ port s' = port s /\ len s' <= count.
Proof.
  induction n as [|n IH]; intros s offset count Hok Ho Hl Hr Hn; [lia|]; cbn [decode_loop]. destruct (Z.ltb_spec (len s) count) as [Hlt|]; [|by exists s]. pose proof (so_len _ Hok).
  destruct (at_buffer_ok s offset Hok ltac:(lia)) as (c1 & -> & R1 & _), (at_buffer_ok s (offset + 1) Hok ltac:(lia)) as (c2 & -> & R2 & _). cbn [obind].
  destruct (Z.ltb_spec 15 (hex_to_bin c1)), (Z.ltb_spec 15 (hex_to_bin c2)); cbn [orb]; [by exists s..|]. pose proof (hex_to_bin_range c1). pose proof (hex_to_bin_range c2).
  rewrite lor_digits by lia. destruct (blit_ok (len s) [hex_to_bin c1 * 16 + hex_to_bin c2] s Hok) as (b & -> & Hbl & Hbb); [lia|apply Forall_singleton; lia|cbn; lia|]. cbn [obind].
  destruct (IH (set_buffer b (len s + 1) s) (offset + 2) count) as (s' & E & Hs' & Ep & Hls); cbn [len set_buffer]; [apply stub_buffer; [done..|lia]|lia|lia|lia|lia|]. by exists s'.
Qed.

Lemma read_vm_ok s : stub_ok s -> replies s (cmd_read_vm peek s).
Proof.
  intros Hok. pose proof (so_len _ Hok) as Hlen. unfold cmd_read_vm. destruct (feature_MEM s); cbn [negb]; [|by apply invalid_ok]. destruct (Z.ltb_spec (len s) 2); [by apply invalid_ok|].
  destruct (number_then_ok s 1 0x2C Hok ltac:(lia)) as (o & -> & Ho). cbn [obind]. destruct o as [[i v]|]; [|by apply invalid_ok]. destruct (Ho i v eq_refl) as [Hi Hv].
  destruct (hex_to_num_ok s i (len s - i) Hok) as (j & c & -> & Hj & Hc); [lia..|]. cbn [obind]. destruct (j =? 0); [by apply invalid_ok|]. change buffer_size with 1024.
  destruct (dbg_read_loop_ok 2 (IS_HIGHADDR v) v (Z.min c 1024) (set_buffer (buffer s) 0 s)) as (s' & -> & Hs' & Ep);
    [apply stub_buffer; [done|apply Hok|apply Hok|lia]|cbn; lia|lia|by left|cbn [len set_buffer]; pose proof (Z.mod_pos_bound v PAGE_SIZE ltac:(done)); unfold PAGE_SIZE in *; lia|].
  cbn [obind]. destruct (truth (len s')); [by apply reply_bin_ok|apply reply_ok; [apply constant_bytes|done|done]].
Qed.

(** The count of a packet that writes is so large that its check wraps around. *)
Definition overflows (s : kdb_stub) : Prop :=
  exists i v j c, number_then 1 0x2C s = Ok (Some (i, v)) /\ hex_to_num (buffer s) i (len s - i) = Ok (j, c) /\ 2 ^ 63 - 1024 <= c.

Lemma write_vm_ok s : stub_ok s -> ~ overflows s -> replies s (cmd_write_vm peek s).
Proof.
  intros Hok Hno. pose proof (so_len _ Hok) as Hlen. unfold cmd_write_vm. destruct (feature_MEM s); cbn [negb]; [|by apply invalid_ok]. destruct (Z.ltb_spec (len s) 2); [by apply invalid_ok|].
  destruct (number_then_ok s 1 0x2C Hok ltac:(lia)) as (o & Eo & Ho). rewrite Eo. cbn [obind]. destruct o as [[i v]|]; [|by apply invalid_ok]. destruct (Ho i v eq_refl) as [Hi Hv].
  destruct (hex_to_num_ok s i (len s - i) Hok) as (j & c & Ej & Hj & Hc); [lia..|]. rewrite Ej. cbn [obind]. assert (Hsmall : c < 2 ^ 63 - 1024) by (destruct (Z.lt_ge_cases c (2 ^ 63 - 1024)); [done|destruct Hno; by exists i, v, j, c]).
  destruct (Z.eqb_spec j 0); [by apply invalid_ok|]. rewrite wrap_small by lia. destruct (Z.ltb_spec (len s) (j + i + 1 + 2 * c)); [by apply invalid_ok|].
  destruct (at_buffer_ok s (j + i + 1 - 1) Hok ltac:(lia)) as (ch & -> & _). cbn [obind]. destruct (negb _); [by apply invalid_ok|].
  assert (Hok0 : stub_ok (set_buffer (buffer s) 0 s)) by (apply stub_buffer; [done|apply Hok|apply Hok|lia]).
  destruct (decode_loop_ok 1025 (set_buffer (buffer s) 0 s) (j + i + 1) c Hok0) as (s1 & -> & Hok1 & Ep1 & _); cbn [len set_buffer]; [lia..|]. cbn [obind]. destruct (negb _); [by apply invalid_ok|].
  destruct (dbg_write_loop_ok 2 (IS_HIGHADDR v) v c (set_buffer (buffer s1) 0 s1)) as (s2 & -> & Hok2 & Ep2);
    [apply stub_buffer; [done|apply Hok1|apply Hok1|lia]|cbn; lia|lia|by left|cbn [len set_buffer]; pose proof (Z.mod_pos_bound v PAGE_SIZE ltac:(done)); unfold PAGE_SIZE in *; lia|].
  cbn [obind]. apply denied_ok; [|done]. rewrite Ep2. symmetry. exact Ep1.
Qed.

Lemma bytes_of_ok n v : bytes (bytes_of n v) /\ length (bytes_of n v) = n.
Proof. unfold bytes_of. split; [apply Forall_fmap, Forall_forall; intros x _; apply Z.mod_pos_bound; lia|rewrite length_fmap, length_seqZ; lia]. Qed.

Lemma encode_all_ok l : forall s, stub_ok s -> len s + Z.of_nat (sum_list (fst <$> l)) <= 1024 -> exists s', encode_all l s = Ok s' /\ stub_ok s' /\ port s' = port s.
Proof.
  induction l as [|[n v] l IH]; intros s Hok Hl; cbn [encode_all]; [by exists s|]. cbn [fmap list_fmap fst] in Hl. change (sum_list (n :: (fst <$> l))) with (n + sum_list (fst <$> l))%nat in Hl. pose proof (so_len _ Hok). destruct (bytes_of_ok n v) as [Hb Hbl].
  destruct (blit_ok (len s) (bytes_of n v) s Hok) as (b & -> & Hlb & Hbb); [lia|done|lia|]. cbn [obind].
  destruct (IH (set_buffer b (len s + Z.of_nat n) s)) as (s' & E & Hs' & Ep); cbn [len set_buffer]; [apply stub_buffer; [done..|lia]|lia|]. by exists s'.
Qed.

Lemma read_regs_ok s : stub_ok s -> replies s (cmd_read_regs s).
Proof.
  intros Hok. unfold cmd_read_regs. destruct (negb _); [by apply invalid_ok|]. destruct (encode_all_ok (registers (conx s)) (set_buffer (buffer s) 0 s)) as (s' & -> & Hs' & Ep);
    [apply stub_buffer; [done|apply Hok|apply Hok|lia]|cbn; lia|]. cbn [obind]. by apply reply_bin_ok.
Qed.

(** ** Breakpoints and going on *)
Lemma modify_total v d s : stub_ok s -> 0 <= d < 256 -> exists b d' s', modify_instruction peek v d s = Ok (b, d', s') /\ stub_ok s' /\ port s' = port s /\ sw_bp s' = sw_bp s /\ len s' = len s /\ buffer s' = buffer s /\ 0 <= d' < 256.
Proof.
  intros Hok Hd. unfold modify_instruction. destruct (negb (feature_MEM s)); [by exists false, d, s|]. destruct (_ || _); [by exists false, d, s|]. eexists true, _, _. split; [done|].
  split; [|split_and!; try done; apply (so_memory _ Hok)]. apply stub_memory; [done|]. intros x. destruct (_ =? _); [done|apply Hok].
Qed.

Lemma slot_ok s i x : stub_ok s -> (i < sw_bp_count)%nat -> (va x = 0 -> active x = false) -> 0 <= data x < 256 -> stub_ok (set_slot i x s).
Proof.
  intros [] Hi Hx Hd. constructor; try done; cbn [sw_bp set_slot set_sw_bp]; [by rewrite length_insert| |]; intros j y; rewrite list_lookup_insert; (case_decide; [intros [= <-]; done|]); eauto.
Qed.

Lemma find_total s v n : stub_ok s -> forall i blank found, (i + n = sw_bp_count)%nat -> (forall k, found = Some k -> (k < sw_bp_count)%nat) -> (forall k, blank = Some k -> (k < sw_bp_count)%nat /\ v <> 0 /\ exists x, sw_bp s !! k = Some x /\ va x = 0) ->
  exists blank' found', find_slots n i v blank found s = Ok (blank', found') /\ (forall k, found' = Some k -> (k < sw_bp_count)%nat) /\ (forall k, blank' = Some k -> (k < sw_bp_count)%nat /\ v <> 0 /\ exists x, sw_bp s !! k = Some x /\ va x = 0).
Proof.
  intros Hok. induction n as [|n IH]; intros i blank found Hi Hf Hb; cbn [find_slots]; [by exists blank, found|].
  destruct (lookup_lt_is_Some_2 (sw_bp s) i) as [x Ex]; [rewrite (so_slots _ Hok); lia|]. rewrite Ex. cbn [deref obind]. destruct (Z.eqb_spec (va x) v) as [Ev|Hv]; [|destruct (Z.eqb_spec (va x) 0) as [E0|]].
  - apply IH; [lia|intros k [= <-]; lia|done].
  - rewrite (so_blank _ Hok i x Ex E0). cbn [negb ensure obind]. apply IH; [lia|done|]. intros k [= <-]. split; [lia|]. split; [congruence|]. by exists x.
  - apply IH; [lia|done|done].
Qed.

Lemma breakpoint_sw_ok v op s : stub_ok s -> exists b s', breakpoint_sw peek v op s = Ok (b, s') /\ stub_ok s' /\ port s' = port s.
Proof.
  intros Hok. unfold breakpoint_sw. destruct (find_total s v sw_bp_count Hok 0 None None eq_refl) as (blank & found & -> & Hf & Hb); [done|done|]. cbn [obind].
  assert (Hlook : forall k, (k < sw_bp_count)%nat -> exists x, sw_bp s !! k = Some x) by (intros k Hk; apply lookup_lt_is_Some_2; rewrite (so_slots _ Hok); lia).
  destruct (op =? 0x5A); [|destruct (op =? 0x7A); [|by exists false, s]].
  - destruct found as [k|]; [exists false, s; by destruct blank|]. destruct blank as [i|]; [|by exists false, s]. destruct (Hb i eq_refl) as (Hi & Hnz & x & Ex & Ev). rewrite Ex. cbn [deref obind].
    pose proof (so_blank _ Hok i x Ex Ev) as Eac. destruct (modify_total v 0xCC s Hok ltac:(lia)) as ([] & d & s' & -> & Hok' & Ep & Es & _ & _ & Hd); cbn [obind]; eexists _, _; (split; [done|]); (split; [|done]); by apply slot_ok.
  - destruct found as [k|]; [|by exists false, s]. destruct (Hlook k (Hf k eq_refl)) as [x Ex]. rewrite Ex. cbn [deref obind]. pose proof (so_data _ Hok k x Ex) as Hx. destruct (active x).
    + destruct (modify_total (va x) (data x) s Hok Hx) as (b & d & s' & -> & Hok' & Ep & Es & _ & _ & Hd). cbn [obind]. eexists _, _. split; [done|]. split; [|done]. apply slot_ok; [done|by apply Hf|done|done].
    + cbn [obind]. eexists _, _. split; [done|]. split; [|done]. apply slot_ok; [done|by apply Hf|done|done].
Qed.

Lemma find_regs_ok d n : length (dr d) = 4%nat -> forall i mask addr blank found, (i + n = 4)%nat -> (forall k, blank = Some k -> (k < 4)%nat) -> exists blank' found', find_regs n i mask addr blank found d = Ok (blank', found') /\ (forall k, blank' = Some k -> (k < 4)%nat).
Proof.
  intros Hl. induction n as [|n IH]; intros i mask addr blank found Hi Hb; cbn [find_regs]; [by exists blank, found|]. destruct (truth _).
  - destruct (lookup_lt_is_Some_2 (dr d) i ltac:(lia)) as [a ->]. cbn [deref obind]. apply IH; [lia|done].
  - apply IH; [lia|]. intros k [= <-]. lia.
Qed.

Lemma debug_ok d s : stub_ok s -> length (dr d) = 4%nat -> stub_ok (set_debug d s).
Proof. by intros [] ?; constructor. Qed.

Lemma breakpoint_hw_ok addr op s : stub_ok s -> exists b s', breakpoint_hw addr op s = Ok (b, s') /\ stub_ok s' /\ port s' = port s.
Proof.
  intros Hok. pose proof (so_regs _ Hok) as Hl. unfold breakpoint_hw. destruct (find_regs_ok (debug s) 4 Hl 0 0x03 addr None None eq_refl) as (blank & found & -> & Hb); [done|]. cbn [obind].
  destruct (op =? 0x5A); [|destruct (op =? 0x7A); [|by exists false, s]].
  - destruct found as [k|]; [exists false, s; by destruct blank|]. destruct blank as [i|]; [|by exists false, s]. eexists _, _. split; [done|]. split; [|done]. apply debug_ok; [done|]. cbn [dr]. by rewrite length_insert.
  - destruct found as [k|]; [|by exists false, s]. eexists _, _. split; [done|]. split; [|done]. by apply debug_ok.
Qed.

Lemma cmd_breakpoint_ok s : stub_ok s -> replies s (cmd_breakpoint peek s).
Proof.
  intros Hok. pose proof (so_len _ Hok) as Hlen. unfold cmd_breakpoint. destruct (Z.ltb_spec (len s) 3); [by apply invalid_ok|].
  destruct (at_buffer_ok s 0 Hok ltac:(lia)) as (b0 & -> & _), (at_buffer_ok s 1 Hok ltac:(lia)) as (b1 & -> & _), (at_buffer_ok s 2 Hok ltac:(lia)) as (b2 & -> & _). cbn [obind].
  destruct (negb (b2 =? 0x2C)); [by apply invalid_ok|]. destruct (_ && _); [apply reply_ok; [constructor|done|done]|].
  destruct (number_then_ok s 3 0x2C Hok ltac:(lia)) as (o & -> & _). cbn [obind]. destruct o as [[i v]|]; [|by apply invalid_ok]. destruct (b1 =? 0x31).
  - destruct (breakpoint_hw_ok v b0 s Hok) as (b & s' & -> & Hs' & Ep). cbn [obind]. by apply denied_ok.
  - destruct (breakpoint_sw_ok v b0 s Hok) as (b & s' & -> & Hs' & Ep). cbn [obind]. by apply denied_ok.
Qed.

Lemma skip_signal_ok n s : stub_ok s -> forall off, 0 <= off -> len s - off < Z.of_nat n -> (0 < n)%nat -> exists k, skip_signal n off s = Ok k /\ off <= k.
Proof.
  intros Hok. pose proof (so_len _ Hok). induction n as [|n IH]; intros off Ho Hn Hp; cbn [skip_signal]; [lia|]. destruct (Z.ltb_spec off (len s)); [|by exists off].
  destruct (at_buffer_ok s off Hok ltac:(lia)) as (c & -> & _). cbn [obind]. destruct (c =? 0x3B); [exists (off + 1); split; [done|lia]|]. destruct (IH (off + 1)) as (k & E & Hk); [lia..|]. exists k. split; [done|lia].
Qed.

(** A command to go on either goes on without a word or is refused with one packet. *)
Lemma cmd_run_ok s : stub_ok s -> (exists s', cmd_run s = Ok (true, s') /\ stub_ok s' /\ port s' = port s) \/
  (forall r t, port s = Line (0x2B :: r) t -> exists s', cmd_run s = Ok (false, s') /\ port s' = Line r (t ++ frame err_invarg) /\ stub_ok s').
Proof.
  intros Hok. pose proof (so_len _ Hok) as Hlen.
  assert (Href : forall s0, stub_ok s0 -> port s0 = port s -> forall r t, port s = Line (0x2B :: r) t -> exists s', (let! s := reply err_invarg s0; Ok (false, s)) = Ok (false, s') /\ port s' = Line r (t ++ frame err_invarg) /\ stub_ok s').
  { intros s0 Hok0 Ep0 r t E. rewrite (reply_spec err_invarg s0 r t) by (apply constant_bytes || congruence). eexists. split; [done|]. split; [done|]. by apply stub_port. }
  unfold cmd_run. destruct (truth (len s)); cbn [negb]; [|right; by apply Href]. destruct (at_buffer_ok s 0 Hok ltac:(lia)) as (b0 & -> & _). cbn [obind].
  assert (Hoff : exists off, (if b0 =? 0x43 then skip_signal 1025 1 s else Ok 1) = Ok off /\ 1 <= off) by (destruct (b0 =? 0x43); [apply skip_signal_ok; [done|lia..]|by exists 1]).
  destruct Hoff as (off & -> & Hoff). cbn [obind]. destruct (_ && _); [right; by apply Href|]. set (s1 := if b0 =? 0x44 then set_GDB false s else s).
  assert (Hok1 : stub_ok s1) by (unfold s1; destruct (b0 =? 0x44); [by destruct Hok|done]). assert (Ep1 : port s1 = port s) by (unfold s1; by destruct (b0 =? 0x44)). assert (El1 : len s1 = len s) by (unfold s1; by destruct (b0 =? 0x44)).
  destruct (Z.ltb_spec off (len s1)) as [Hlt|].
  - destruct (hex_to_num_ok s1 off (len s1 - off) Hok1) as (j & w & -> & _); [lia..|]. cbn [obind]. destruct (j =? 0); cbn [obind]; [right; by apply Href|left; eexists; split; [done|]; split; [by apply stub_conx|done]].
  - cbn [obind]. left. eexists. split; [done|]. split; [by apply stub_conx|done].
Qed.

Lemma cmd_query_ok s : stub_ok s -> cmd_query s = Ok (false, s) \/ (forall r t, port s = Line (0x2B :: r) t -> exists s', cmd_query s = Ok (true, s') /\ port s' = Line r (t ++ frame feature_list) /\ stub_ok s').
Proof.
  intros Hok. unfold cmd_query. destruct (_ && _); [|by left]. right. intros r t E. rewrite (reply_spec feature_list s r t) by (apply constant_bytes || done). eexists. split; [done|]. split; [done|]. by apply stub_port.
Qed.

Definition goes_on (b0 : Z) : bool := (b0 =? 0x63) || (b0 =? 0x73) || (b0 =? 0x43) || (b0 =? 0x44).

(** C30. Every packet is served: whatever the buffer holds, and whatever state memory, slots and registers are in, the stub never
    leaves its buffer and fails no assertion, except for a write whose count is close to 2 to the 63 or above.  The program goes on
    or the machine is switched off without an answer, an empty packet has none, a refused command to go on is answered twice, and
    every other packet is answered with exactly one packet. *)
Theorem packets_answered s r t : stub_ok s -> port s = Line (0x2B :: 0x2B :: r) t -> (hd 0 (buffer s) = 0x4D -> ~ overflows s) ->
  exists e s' answers, serve peek s = Ok (e, s') /\ stub_ok s' /\ Forall bytes answers /\
    port s' = Line (drop (length answers) (0x2B :: 0x2B :: r)) (t ++ concat (frame <$> answers)) /\
    length answers = (if (len s =? 0)%Z then 0 else match e with Some _ => 0 | None => if goes_on (hd 0%Z (buffer s)) then 2 else 1 end)%nat.
Proof.
  intros Hok Ep Hno. unfold serve. destruct (Z.eqb_spec (len s) 0) as [|Hl]; [exists None, s, []; split; [done|]; split; [done|]; split; [constructor|]; split; [by rewrite Ep, app_nil_r|done]|].
  destruct (at_buffer_ok s 0 Hok ltac:(lia)) as (b0 & E0 & _ & Eb). rewrite E0. cbn [obind]. assert (Ehd : hd 0 (buffer s) = b0) by (destruct (buffer s); [done|by injection Eb as ->]). rewrite Ehd in Hno |- *.
  assert (Hone : forall m, replies s m -> goes_on b0 = false -> exists e s' answers, (let! s := m; Ok (None, s)) = Ok (e, s') /\ stub_ok s' /\ Forall bytes answers /\
    port s' = Line (drop (length answers) (0x2B :: 0x2B :: r)) (t ++ concat (frame <$> answers)) /\ length answers = (match (e : option ending) with Some _ => 0 | None => if goes_on b0 then 2 else 1 end)%nat).
  { intros m Hm ->. destruct (Hm _ _ Ep) as (s' & str & -> & Hb & Ep' & Hs'). exists None, s', [str]. split; [done|]. split; [done|]. split; [by apply Forall_singleton|]. split; [|done]. rewrite Ep'. cbn. by rewrite app_nil_r. }
  assert (Hempty : replies s (reply [] s)) by (apply reply_ok; [constructor|done|done]).
  destruct (Z.eqb_spec b0 0x3F) as [->|]; [apply Hone; [|done]; apply reply_ok; [destruct (_ || _); apply constant_bytes|done|done]|].
  destruct (Z.eqb_spec b0 0x67) as [->|]; [apply Hone; [by apply read_regs_ok|done]|].
  destruct (Z.eqb_spec b0 0x47) as [->|]; [apply Hone; [apply reply_ok; [apply constant_bytes|done|done]|done]|].
  destruct (Z.eqb_spec b0 0x6D) as [->|]; [apply Hone; [by apply read_vm_ok|done]|].
  destruct (Z.eqb_spec b0 0x4D) as [->|]; [apply Hone; [apply write_vm_ok; [done|by apply Hno]|done]|].
  destruct ((b0 =? 0x5A) || (b0 =? 0x7A)) eqn:E1; [apply orb_true_iff in E1; rewrite !Z.eqb_eq in E1; apply Hone; [by apply cmd_breakpoint_ok|by destruct E1 as [->| ->]]|].
  destruct ((b0 =? 0x63) || (b0 =? 0x73) || (b0 =? 0x43) || (b0 =? 0x44)) eqn:E2.
  - fold (goes_on b0) in E2. rewrite E2.
    destruct (cmd_run_ok s Hok) as [(s' & -> & Hs' & Ep')|Hrun]; cbn [obind].
    + exists (Some Resumed), s', []. split; [done|]. split; [done|]. split; [constructor|]. split; [by rewrite Ep', Ep, app_nil_r|done].
    + destruct (Hrun _ _ Ep) as (s1 & -> & Ep1 & Hs1). cbn [obind]. rewrite (reply_spec [] s1 r _ ltac:(constructor) Ep1). eexists None, _, [err_invarg; []]. split; [done|]. split; [by apply stub_port|].
      split; [apply Forall_cons; split; [apply constant_bytes|apply Forall_singleton; constructor]|]. split; [|done]. cbn [port set_port length drop]. f_equal. cbn [fmap list_fmap concat]. rewrite app_nil_r. by rewrite app_assoc.
  - destruct (Z.eqb_spec b0 0x6B) as [->|]; [exists (Some PowerOff), s, []; split; [done|]; split; [done|]; split; [constructor|]; split; [by rewrite Ep, app_nil_r|done]|].
    destruct (Z.eqb_spec b0 0x71) as [->|]; [|by apply Hone].
    destruct (cmd_query_ok s Hok) as [->|Hq]; cbn [obind]; [by apply Hone|]. destruct (Hq _ _ Ep) as (s1 & -> & Ep1 & Hs1). cbn [obind]. exists None, s1, [feature_list]. split; [done|]. split; [done|].
    split; [apply Forall_singleton, constant_bytes|]. split; [|done]. rewrite Ep1. cbn [length drop fmap list_fmap concat]. by rewrite app_nil_r.
Qed.
End Answers.
End KdbThm.

Module KdbWitness.
Import Bytes Packet PacketThm Kdb KdbThm.

(** A page of a process, at the second page of its space. *)
Definition w_pte : PTE := PageTable.PageTable.Pte true true true false false false false false false PageTable.PageTable.OFF false 7 0 true false false.
Definition w_peek (sp : bool) (v : Z) : PTE := if v / PAGE_SIZE =? 1 then w_pte else PageTable.PageTable.zero_pte.
Lemma w_peek_page sp a b : a / PAGE_SIZE = b / PAGE_SIZE -> w_peek sp a = w_peek sp b.
Proof. unfold w_peek. by intros ->. Qed.

Definition w_context : context := Context 0 0 0 0 0 0 0 0 0 0 0 0 0 0 0 0x1001 8 2 0 0x10.
Definition w_slots : list bp_slot := replicate sw_bp_count (Slot 0 false 0).
Definition w_stub (p : list Z) (answers : list Z) : kdb_stub :=
  Kdb (Line answers []) 3 0 w_context (Z.of_nat (length p)) w_slots (p ++ replicate (1024 - length p) 0x30) (fun _ => 0x90) (Dr [0; 0; 0; 0] 0x400) true true.

Definition w_addr : list Z := text "1000".
Definition w_count : list Z := text "2".
Lemma w_digits : digits w_addr /\ digits w_count.
Proof. split; (split; [repeat (apply Forall_cons; split; [vm_compute; discriminate|]); constructor|vm_compute; lia]). Qed.

Lemma w_received : received (write_packet w_addr w_count [0xCC; 0x41]) (w_stub (write_packet w_addr w_count [0xCC; 0x41]) [0x2B]).
Proof. split; [done|]. split; [vm_compute; reflexivity|]. split; [done|]. eexists. reflexivity. Qed.

Lemma debugger_memory_witness : exists s1, cmd_write_vm w_peek (w_stub (write_packet w_addr w_count [0xCC; 0x41]) [0x2B]) = Ok s1 /\ port s1 = Line [] (frame (text "OK")).
Proof.
  assert (Hm : bytes_ok (memory (w_stub (write_packet w_addr w_count [0xCC; 0x41]) [0x2B]))) by (intros x; cbn; lia).
  destruct (debugger_memory w_peek w_peek_page (w_stub (write_packet w_addr w_count [0xCC; 0x41]) [0x2B]) w_addr w_count [0xCC; 0x41] [] [] w_received (proj1 w_digits) (proj2 w_digits)
    (bytes_check [0xCC; 0x41] eq_refl) eq_refl ltac:(vm_compute; discriminate) Hm eq_refl) as (s1 & E & Ep & _).
  exists s1. split; [exact E|]. rewrite Ep. vm_compute. reflexivity.
Defined.

(** A breakpoint at the first byte of the page. *)
Definition w_broken : kdb_stub := match breakpoint_sw w_peek 0x1000 0x5A (w_stub [] []) with Ok (_, s) => s | _ => w_stub [] [] end.
Lemma w_reach : bp_reach w_peek (fun _ => 0x90) w_broken {[0x1000]}.
Proof.
  assert (E : breakpoint_sw w_peek 0x1000 0x5A (w_stub [] []) = Ok (true, w_broken)) by (unfold w_broken; reflexivity).
  assert (H0 : bp_reach w_peek (fun _ => 0x90) (w_stub [] []) ∅) by by constructor.
  pose proof (bp_insert w_peek (fun _ => 0x90) (w_stub [] []) ∅ 0x1000 true w_broken H0 ltac:(done) ltac:(done) ltac:(set_solver) E) as H. cbn [negb] in H. by rewrite right_id_L in H by apply _.
Qed.


Lemma w_stub_ok p answers : bytes p -> (length p <= 1024)%nat -> stub_ok (w_stub p answers).
Proof.
  intros Hp Hl. constructor; cbn [buffer len memory sw_bp debug dr w_stub].
  - rewrite length_app, length_replicate. lia.
  - apply Forall_app. split; [done|]. apply Forall_replicate. lia.
  - lia.
  - intros x. lia.
  - done.
  - intros i x Ex _. by apply lookup_replicate in Ex as [-> _].
  - intros i x Ex. by apply lookup_replicate in Ex as [-> _].
  - done.
Qed.

Lemma packets_answered_witness : exists e s' (answers : list (list Z)), serve w_peek (w_stub (text "c") [0x2B; 0x2B]) = Ok (e, s') /\ length answers = (match e with Some _ => 0 | None => 2 end)%nat.
Proof.
  assert (Hok : stub_ok (w_stub (text "c") [0x2B; 0x2B])) by (apply w_stub_ok; [by apply bytes_check|vm_compute; lia]).
  assert (Hno : hd 0 (buffer (w_stub (text "c") [0x2B; 0x2B])) = 0x4D -> ~ overflows (w_stub (text "c") [0x2B; 0x2B])) by (intros H; vm_compute in H; discriminate).
  destruct (packets_answered w_peek (w_stub (text "c") [0x2B; 0x2B]) [] [] Hok eq_refl Hno) as (e & s' & answers & E & _ & _ & _ & El). exists e, s', answers. split; [exact E|exact El].
Defined.

(** The exception of [packets_answered] is one: a count of 2 to the 63 passes the check, and the digits of older packets in the buffer
    are followed to its end and beyond. *)
Lemma write_overruns : serve w_peek (w_stub (text "M1000,8000000000000000:") [0x2B]) = Bug.
Proof. vm_compute. reflexivity. Qed.

(** A command to go on that is refused has two answers. *)
Lemma refused_twice : exists s', serve w_peek (w_stub (text "cx") [0x2B; 0x2B]) = Ok (None, s') /\ port s' = Line [] (frame err_invarg ++ frame []).
Proof. eexists. split; vm_compute; reflexivity. Qed.
End KdbWitness.
