(* ===== verification/Ps2.v ===== *)
(** * Keyboard and mouse (src/kernel/dev/ps_2.cpp)

    The interrupt handler puts the bytes of a device into a ring, and a thread per device takes them out: it finds out what the
    device is, and then turns scan codes into key codes.  What the thread sees is the bytes that are pending and what happens
    later: bytes that arrive together, or a time in which nothing arrives, after which bytes may still come in late. *)

From S2P Require Import Prelude.

Module Ps2.

(** ** The ring *)
Definition QUEUE_SIZE : Z := 0x100.
Record safe_queue := Queue { buffer : list Z; head : Z; tail : Z }.

Definition get (q : safe_queue) : outcome (Z * safe_queue) :=
  if head q =? tail q then Bug
  else
    let! val := deref (buffer q !! Z.to_nat (head q));
    Ok (val, Queue (buffer q) ((head q + 1) mod QUEUE_SIZE) (tail q)).

Definition put (val : Z) (q : safe_queue) : outcome safe_queue :=
  let new_tail := (tail q + 1) mod QUEUE_SIZE in
  if negb (new_tail =? head q) then
    let! _ := deref (buffer q !! Z.to_nat (tail q));
    Ok (Queue (<[Z.to_nat (tail q) := val]> (buffer q)) (head q) new_tail)
  else Ok q.

Definition clear (q : safe_queue) : safe_queue := Queue (buffer q) (tail q) (tail q).
Definition check (q : safe_queue) : bool := negb (head q =? tail q).

(** ** What a thread sees *)
Inductive event := Burst (b : Z) (l : list Z) | Silence (late : list Z).

(** What the thread sends, and the keys it hands to the handler. *)
Inductive out := Command (cmd : Z) | Write (data : Z) | Call (key : Z).

Record view := View { pending : list Z; future : list event; sent : list out }.
Definition send (o : out) (v : view) : view := View (pending v) (future v) (sent v ++ [o]).

(** Bytes beyond the size of the ring are lost. *)
Definition arrive (l : list Z) (p : list Z) : list Z := take 255 (p ++ l).

(** [queue.wait(us)]: [true] when the time is over. *)
Definition wait (v : view) : outcome (bool * view) :=
  match pending v with
  | _ :: _ => Ok (false, v)
  | [] =>
      match future v with
      | [] => NoFuel
      | Burst b l :: f => Ok (false, View (arrive (b :: l) []) f (sent v))
      | Silence late :: f => Ok (true, View (arrive late []) f (sent v))
      end
  end.
Definition take_byte (v : view) : outcome (Z * view) :=
  match pending v with
  | [] => Bug
  | b :: p => Ok (b, View p (future v) (sent v))
  end.
Definition drop_all (v : view) : view := View [] (future v) (sent v).

(** How often a thread can wait. *)
Definition event_size (e : event) : nat := match e with Burst _ l => 2 + length l | Silence late => 1 + length late end.
Definition size (v : view) : nat := length (pending v) + sum_list (event_size <$> future v).

(** [if (index) command(0xD4); write(data);]. *)
Definition to_device (index data : Z) (v : view) : view :=
  send (Write data) (if truth index then send (Command 0xD4) v else v).

Section Device.
(** The table of key codes, and whether somebody listens. *)
Context (keycode : Z -> Z) (func : bool).

Definition translate (code stat : Z) : Z :=
  let base := if (stat =? 0xC0) || (stat =? 0xE0) then 0x80 else 0 in
  let base := if truth (Z.land code 0x80) then 0 else base in
  let key := keycode (base + code) in
  if (stat =? 0xC0) || (stat =? 0xF0) then Z.lor key 0x80 else key.

(** ** The keyboard *)
Definition lost (data : Z) : bool := (data =? 0) || (data =? 0xAA) || (data =? 0xFC) || (data =? 0xFD) || (data =? 0xFE) || (data =? 0xFF).
Definition answer (data : Z) : bool := (data =? 0xEE) || (data =? 0xFA).

(** The switch over [state]: the next state, when the code is not complete. *)
Definition prefix (state data : Z) : option Z :=
  if state =? 0 then if (data =? 0xE0) || (data =? 0xF0) then Some data else None
  else if state =? 0xE0 then if data =? 0xF0 then Some 0xC0 else None
  else if (state =? 0xC0) || (state =? 0xF0) then None
  else Some 0.

Fixpoint keybd_loop (n : nat) (index state : Z) (probe : bool) (v : view) : outcome (bool * view) :=
  match n with
  | O => NoFuel
  | S n =>
      let! (timeout, v) := wait v;
      if timeout then
        if probe then Ok (true, v) else keybd_loop n index state true (to_device index 0xEE v)
      else
        let! (data, v) := take_byte v;
        if lost data then Ok (false, v)
        else if answer data then keybd_loop n index state false v
        else
          match prefix state data with
          | Some state => keybd_loop n index state false v
          | None =>
              let keycode := translate data state in
              let v := if truth (Z.land keycode 0x7F) && func then send (Call keycode) v else v in
              keybd_loop n index 0 false v
          end
  end.
Definition device_keybd (index : Z) (v : view) : outcome (bool * view) :=
  assert! index <? 2;
  keybd_loop (S (size v)) index 0 false v.

(** ** The mouse: after a time without a byte the next one is taken although there is none *)
Fixpoint mouse_loop (n : nat) (index len it : Z) (packet : list Z) (probe : bool) (v : view) : outcome (bool * view) :=
  match n with
  | O => NoFuel
  | S n =>
      if it <? len then
        let! (timeout, v) := wait v;
        if timeout && probe then Ok (true, v)
        else
          let probe := timeout || probe in
          let v := if timeout then to_device index 0xEB v else v in
          let! (data, v) := take_byte v;
          if probe && (data =? 0xFA) then mouse_loop n index len it packet false v
          else if truth it || truth (Z.land data 0x08) then
            let! _ := deref (packet !! Z.to_nat it);
            mouse_loop n index len (it + 1) (<[Z.to_nat it := data]> packet) probe v
          else mouse_loop n index len it packet probe v
      else mouse_loop n index len 0 packet probe v
  end.
Definition device_mouse (index mode : Z) (v : view) : outcome (bool * view) :=
  assert! index <? 2;
  mouse_loop (2 * S (size v)) index (if truth mode then 4 else 3) 0 [0; 0; 0; 0] false v.

(** ** Finding out what the device is *)

(** [DEV_CMD]: [false] is the jump to [restart]. *)
Fixpoint dev_cmd (n : nat) (index cmd : Z) (v : view) : outcome (bool * view) :=
  match n with
  | O => NoFuel
  | S n =>
      let v := to_device index cmd v in
      let! (timeout, v) := wait v;
      if timeout then Ok (false, v)
      else
        let! (data, v) := take_byte v;
        if data =? 0xFA then Ok (true, v) else if data =? 0xFE then dev_cmd n index cmd v else Ok (false, v)
  end.
Fixpoint dev_cmds (index : Z) (cmds : list Z) (v : view) : outcome (bool * view) :=
  match cmds with
  | [] => Ok (true, v)
  | cmd :: cmds =>
      let! (b, v) := dev_cmd (S (size v)) index cmd v;
      if b then dev_cmds index cmds v else Ok (false, v)
  end.

(** A byte that has to come in time. *)
Definition next_byte (v : view) : outcome (option Z * view) :=
  let! (timeout, v) := wait v;
  if timeout then Ok (None, v) else let! (b, v) := take_byte v; Ok (Some b, v).

(** [do { queue.wait(); data = queue.get(); } while (data != 0xAA)]: a wait without an end outlasts every silence. *)
Fixpoint wait_reset (n : nat) (v : view) : outcome view :=
  match n with
  | O => NoFuel
  | S n =>
      let! (timeout, v) := wait v;
      if timeout then wait_reset n v
      else let! (data, v) := take_byte v; if data =? 0xAA then Ok v else wait_reset n v
  end.

(** What a turn of the outer loop comes to: the device was recognised and has worked until it was gone ([true]) or until it sent
    nonsense ([false]), or the jump to [restart]. *)
Inductive turn := Worked (gone : bool) | Restart.

Definition identify (index : Z) (v : view) : outcome (turn * view) :=
  let! v := wait_reset (S (size v)) v;
  let! (_, v) := next_byte v;
  let! (b, v) := dev_cmds index [0xF5; 0xF2] v;
  if negb b then Ok (Restart, v)
  else
    let! (o, v) := next_byte v;
    match o with
    | None => Ok (Restart, v)
    | Some id =>
        if id =? 0 then
          let! (b, v) := dev_cmds index [0xF3; 200; 0xF3; 100; 0xF3; 80; 0xF2] v;
          if negb b then Ok (Restart, v)
          else
            let! (o, v) := next_byte v;
            match o with
            | None => Ok (Restart, v)
            | Some mode =>
                if negb ((mode =? 0) || (mode =? 3)) then Ok (Restart, v)
                else
                  let! (b, v) := dev_cmds index [0xF3; 40; 0xF4] v;
                  if negb b then Ok (Restart, v) else let! (gone, v) := device_mouse index mode v; Ok (Worked gone, v)
            end
        else if id =? 0xAB then
          let! (o, v) := next_byte v;
          if negb (bool_decide (o = Some 0x83)) then Ok (Restart, v)
          else
            let! (b, v) := dev_cmds index [0xF0; 2; 0xF3; 0x7F; 0xF4] v;
            if negb b then Ok (Restart, v) else let! (gone, v) := device_keybd index v; Ok (Worked gone, v)
        else Ok (Restart, v)
    end.

(** The thread, for [n] turns. *)
Fixpoint thread_ps2 (n : nat) (index fail_count : Z) (v : view) : outcome view :=
  match n with
  | O => Ok v
  | S n =>
      let! (t, v) := identify index v;
      match t with
      | Worked gone => thread_ps2 n index (if gone then 0 else fail_count) v
      | Restart =>
          let v := drop_all v in
          let fail_count := w32 (fail_count + 1) in
          thread_ps2 n index fail_count (if fail_count <? 5 then to_device index 0xFF v else v)
      end
  end.
End Device.
End Ps2.

Module Ps2Thm.
Import Ps2.

(** ** The ring is a queue of 255 bytes *)
Record ring_ok (q : safe_queue) : Prop := {
  ro_buffer : length (buffer q) = 256%nat;
  ro_head : 0 <= head q < 256;
  ro_tail : 0 <= tail q < 256
}.
Definition nth_byte (q : safe_queue) (i : Z) : Z := default 0 (buffer q !! Z.to_nat ((head q + i) mod 256)).
Definition contents (q : safe_queue) : list Z := nth_byte q <$> seqZ 0 ((tail q - head q) mod 256).

Lemma contents_length q : Z.of_nat (length (contents q)) = (tail q - head q) mod 256.
Proof. unfold contents. rewrite length_fmap, length_seqZ. pose proof (Z.mod_pos_bound (tail q - head q) 256 ltac:(lia)). lia. Qed.

Lemma ring_get q : ring_ok q -> match contents q with
  | [] => get q = Bug /\ check q = false
  | b :: r => check q = true /\ exists q', get q = Ok (b, q') /\ ring_ok q' /\ contents q' = r
  end.
Proof.
  intros [Hb Hh Ht]. pose proof (contents_length q) as Hl. destruct (contents q) as [|b r] eqn:E.
  - cbn [length] in Hl. assert (tail q = head q) by dlia. unfold get, check. by rewrite (proj2 (Z.eqb_eq _ _)) by done.
  - cbn [length] in Hl. assert (Hne : head q <> tail q) by (intros Heq; rewrite Heq, Z.sub_diag in Hl; rewrite Zmod_0_l in Hl; lia).
    unfold get, check. rewrite (proj2 (Z.eqb_neq _ _)) by done. split; [done|]. unfold contents in E.
    destruct (lookup_lt_is_Some_2 (buffer q) (Z.to_nat (head q))) as [x Ex]; [lia|]. rewrite Ex. cbn [deref obind]. rewrite seqZ_cons in E by dlia. cbn [fmap list_fmap] in E. injection E as Eb Er.
    unfold nth_byte at 1 in Eb. rewrite Z.add_0_r, Z.mod_small, Ex in Eb by lia. cbn in Eb. subst x. eexists. split; [done|]. unfold QUEUE_SIZE. split; [constructor; cbn; [done|apply Z.mod_pos_bound; lia|done]|].
    unfold contents. cbn [head tail]. rewrite <- Er. replace ((tail q - (head q + 1) mod 256) mod 256) with (Z.pred ((tail q - head q) mod 256)) by dlia.
    apply list_eq. intros i. rewrite !list_lookup_fmap. destruct (decide (Z.of_nat i < Z.pred ((tail q - head q) mod 256))); [|by rewrite !lookup_seqZ_ge by lia].
    rewrite !lookup_seqZ_lt by lia. cbn. f_equal. unfold nth_byte. cbn [head buffer]. do 3 f_equal. rewrite Zplus_mod_idemp_l. f_equal. lia.
Qed.

Lemma ring_put q b : ring_ok q -> exists q', put b q = Ok q' /\ ring_ok q' /\ contents q' = arrive [b] (contents q).
Proof.
  intros [Hb Hh Ht]. pose proof (contents_length q) as Hl. pose proof (Z.mod_pos_bound (tail q - head q) 256 ltac:(lia)) as Hm. unfold put, arrive, QUEUE_SIZE. destruct (Z.eqb_spec ((tail q + 1) mod 256) (head q)) as [Ef|Hf]; cbn [negb].
  - exists q. split; [done|]. split; [done|]. assert (E255 : (tail q - head q) mod 256 = 255) by dlia. rewrite E255 in Hl. rewrite take_app_le by lia. rewrite take_ge; [done|lia].
  - destruct (lookup_lt_is_Some_2 (buffer q) (Z.to_nat (tail q))) as [x Ex]; [lia|]. rewrite Ex. cbn [deref obind]. eexists. split; [done|].
    split; [constructor; cbn; [by rewrite length_insert|done|apply Z.mod_pos_bound; lia]|]. assert (Hn : (tail q - head q) mod 256 < 255) by dlia. assert (Hn1 : ((tail q + 1) mod 256 - head q) mod 256 = (tail q - head q) mod 256 + 1) by dlia.
    assert (Ht1 : (head q + (tail q - head q) mod 256) mod 256 = tail q) by dlia. assert (Hi1 : forall i, 0 <= i < (tail q - head q) mod 256 -> (head q + i) mod 256 <> tail q) by (intros i Hi; dlia).
    rewrite take_ge by (rewrite length_app; cbn [length]; lia). unfold contents. cbn [head tail]. rewrite Hn1. set (n := (tail q - head q) mod 256) in *. rewrite seqZ_app by lia. rewrite fmap_app. f_equal.
    + apply list_eq. intros i. rewrite !list_lookup_fmap. destruct (decide (Z.of_nat i < n)); [|by rewrite !lookup_seqZ_ge by lia].
      rewrite !lookup_seqZ_lt by lia. cbn. f_equal. unfold nth_byte. cbn [head buffer]. rewrite list_lookup_insert_ne; [done|]. intros E. apply Z2Nat.inj in E; [|lia|apply Z.mod_pos_bound; lia]. apply (Hi1 (0 + Z.of_nat i)); [lia|done].
    + replace (seqZ (0 + n) 1) with [n] by (rewrite seqZ_cons, seqZ_nil by lia; f_equal; lia). cbn [fmap list_fmap]. f_equal. unfold nth_byte. cbn [head buffer]. rewrite Ht1. rewrite list_lookup_insert_eq by lia. done.
Qed.

(** The ring between the interrupt handler and the thread of a device is a queue of at most 255 bytes: a byte that is put in goes
    to the end, and is lost exactly when there are 255 already; the first one is taken out, and an empty ring stops the machine;
    clearing forgets them all; [check] says whether there is one; no access leaves the buffer. *)
Theorem ring_refines q b : ring_ok q ->
  (exists q', put b q = Ok q' /\ ring_ok q' /\ contents q' = arrive [b] (contents q)) /\
  match contents q with
  | [] => get q = Bug /\ check q = false
  | b :: r => check q = true /\ exists q', get q = Ok (b, q') /\ ring_ok q' /\ contents q' = r
  end /\
  ring_ok (clear q) /\ contents (clear q) = [].
Proof.
  intros Hok. split; [by apply ring_put|]. split; [by apply ring_get|]. destruct Hok as [Hb Hh Ht]. split; [by constructor|]. unfold contents, clear. cbn [head tail]. by rewrite Z.sub_diag.
Qed.

(** ** The codes of a keyboard *)
Section Keyboard.
Context (keycode : Z -> Z) (func : bool).
#[local] Set Default Proof Using "Type".

(** The reference: one byte after the other, whenever they come. *)
Definition emit (key : Z) : list Z := if truth (Z.land key 0x7F) && func then [key] else [].
Fixpoint decode (state : Z) (bytes : list Z) : list Z :=
  match bytes with
  | [] => []
  | data :: bytes =>
      if answer data then decode state bytes
      else match prefix state data with Some state => decode state bytes | None => emit (translate keycode data state) ++ decode 0 bytes end
  end.

Definition bytes_of (f : list event) : list Z := concat ((fun e => match e with Burst b l => b :: l | Silence late => late end) <$> f).
Definition calls (l : list out) : list Z := omap (fun o => match o with Call k => Some k | _ => None end) l.

(** The device is never silent twice without a byte in between, and not at the end. *)
Fixpoint calm (probe : bool) (f : list event) : bool :=
  match f with
  | [] => negb probe
  | Burst _ _ :: f => calm false f
  | Silence late :: f => negb probe && calm (bool_decide (late = [])) f
  end.
Definition gone : list event := [Silence []; Silence []].

Lemma calls_app a b : calls (a ++ b) = calls a ++ calls b.
Proof. apply omap_app. Qed.
Lemma calls_device index d v : calls (sent (to_device index d v)) = calls (sent v).
Proof. unfold to_device, send. destruct (truth index); cbn [sent]; rewrite !calls_app; cbn; by rewrite !app_nil_r. Qed.
Lemma device_rest index d v : pending (to_device index d v) = pending v /\ future (to_device index d v) = future v.
Proof. unfold to_device, send. by destruct (truth index). Qed.

Lemma keybd_loop_spec n : forall index state probe p f s, Forall (fun b => lost b = false) (p ++ bytes_of f) -> (length (p ++ bytes_of f) <= 255)%nat ->
  calm (if p then probe else false) f = true -> (size (View p (f ++ gone) s) < n)%nat ->
  exists v', keybd_loop keycode func n index state probe (View p (f ++ gone) s) = Ok (true, v') /\ calls (sent v') = calls s ++ decode state (p ++ bytes_of f).
Proof.
  induction n as [|n IH]; intros index state probe p f s Hlost Hlen Hcalm Hn; [lia|]. cbn [keybd_loop].
  assert (Hbyte : forall b p' f' pr, Forall (fun b => lost b = false) (b :: p' ++ bytes_of f') -> (length (b :: p' ++ bytes_of f') <= 255)%nat -> calm false f' = true -> (size (View p' (f' ++ gone) s) < n)%nat ->
    pr = false -> exists v', (if lost b then Ok (false, View p' (f' ++ gone) s) else if answer b then keybd_loop keycode func n index state pr (View p' (f' ++ gone) s)
      else match prefix state b with Some state => keybd_loop keycode func n index state pr (View p' (f' ++ gone) s)
        | None => keybd_loop keycode func n index 0 pr (if truth (Z.land (translate keycode b state) 0x7F) && func then send (Call (translate keycode b state)) (View p' (f' ++ gone) s) else View p' (f' ++ gone) s) end) = Ok (true, v') /\
      calls (sent v') = calls s ++ decode state (b :: p' ++ bytes_of f')).
  { intros b p' f' pr Hl' Hln' Hc' Hn' ->. apply Forall_cons in Hl' as [Hb Hl']. rewrite Hb. cbn [length] in Hln'. assert (Hc2 : calm (if p' then false else false) f' = true) by (by destruct p').
    cbn [decode]. destruct (answer b); [apply IH; [done|lia|done|done]|]. destruct (prefix state b) as [state'|]; [apply IH; [done|lia|done|done]|].
    unfold emit. destruct (truth _ && func).
    - unfold send. cbn [pending future sent]. destruct (IH index 0 false p' f' (s ++ [Call (translate keycode b state)]) Hl' ltac:(lia) Hc2) as (v' & E & Ev); [exact Hn'|]. exists v'. split; [exact E|]. rewrite Ev, calls_app, <- app_assoc. done.
    - by apply IH; [done|lia|done|done]. }
  destruct p as [|b p].
  - destruct f as [|[b l|late] f]; cbn [wait pending future app gone sent].
    + cbn [calm] in Hcalm. apply negb_true_iff in Hcalm as ->. cbn [obind]. destruct n as [|n']; [cbn in Hn; lia|]. cbn [keybd_loop].
      set (v1 := to_device index 0xEE (View (arrive [] []) [Silence []] s)). assert (Ew : wait v1 = Ok (true, View [] [] (sent v1))).
      { unfold wait. destruct (device_rest index 0xEE (View (arrive [] []) [Silence []] s)) as [E1 E2]. fold v1 in E1, E2. rewrite E1, E2. done. }
      rewrite Ew. cbn [obind]. eexists. split; [done|]. cbn [sent]. unfold v1. rewrite calls_device. cbn. by rewrite app_nil_r.
    + cbn [obind take_byte]. unfold bytes_of in *. cbn [fmap list_fmap concat app] in *. unfold arrive. cbn [app].
      assert (Ht : take 255 (b :: l) = b :: l) by (apply take_ge; cbn in *; rewrite length_app in Hlen; lia). rewrite Ht. cbn [pending future sent].
      apply (Hbyte b l f false); try done. unfold size in *. cbn [pending future app fmap list_fmap event_size sum_list length] in *. cbn in Hn. lia.
    + cbn [calm] in Hcalm. apply andb_true_iff in Hcalm as [Hpr Hcalm]. apply negb_true_iff in Hpr as ->. cbn [obind]. unfold bytes_of in *. cbn [fmap list_fmap concat app] in *.
      assert (Ht : arrive late [] = late) by (unfold arrive; apply take_ge; cbn in *; rewrite length_app in Hlen; lia). rewrite Ht.
      set (v1 := to_device index 0xEE (View late (f ++ gone) s)). destruct (device_rest index 0xEE (View late (f ++ gone) s)) as [E1 E2]. fold v1 in E1, E2. cbn [pending future] in E1, E2.
      assert (Ev1 : v1 = View late (f ++ gone) (sent v1)) by (destruct v1; cbn in *; congruence).
      destruct (IH index state true late f (sent v1) Hlost Hlen) as (v' & E & Ev).
      { destruct late; [by rewrite bool_decide_true in Hcalm|by rewrite bool_decide_false in Hcalm]. }
      { unfold size in *. cbn [pending future app fmap list_fmap event_size sum_list length] in *. cbn in Hn. lia. }
      exists v'. split; [rewrite Ev1; exact E|]. rewrite Ev. f_equal. unfold v1. by rewrite calls_device.
  - cbn [wait pending obind take_byte future sent]. apply (Hbyte b p f false); try done. unfold size in *. cbn [pending future length] in *. lia.
Qed.

(** What a keyboard sends for a key that goes down or up, and what the handler is told. *)
Record key := Key { extended : bool; code : Z; up : bool }.
Definition encode (k : key) : list Z := (if extended k then [0xE0] else []) ++ (if up k then [0xF0] else []) ++ [code k].
Definition legal (k : key) : Prop := 0 < code k < 256 /\ lost (code k) = false /\ answer (code k) = false /\ code k <> 0xE0 /\ code k <> 0xF0.
Definition report (k : key) : list Z :=
  let c := keycode ((if extended k && (code k <? 0x80) then 0x80 else 0) + code k) in
  emit (if up k then Z.lor c 0x80 else c).

Lemma bit7 c : 0 <= c < 256 -> truth (Z.land c 0x80) = (0x80 <=? c).
Proof.
  intros Hc. assert (Hall : forallb (fun c => Bool.eqb (truth (Z.land c 0x80)) (0x80 <=? c)) (seqZ 0 256) = true) by (vm_compute; reflexivity).
  rewrite forallb_forall in Hall. apply eqb_prop, Hall, list_elem_of_In, elem_of_seqZ. lia.
Qed.

Lemma decode_noise l : forall state, decode state l = decode state (filter (fun b => answer b = false) l).
Proof.
  induction l as [|b l IH]; intros state; [done|]. cbn [decode]. destruct (answer b) eqn:Ea.
  - rewrite filter_cons_False by congruence. apply IH.
  - rewrite filter_cons_True by done. cbn [decode]. rewrite Ea. destruct (prefix state b); by rewrite IH.
Qed.

Lemma decode_key k l : legal k -> decode 0 (encode k ++ l) = report k ++ decode 0 l.
Proof.
  intros (Hc & Hlo & Ha & He0 & Hf0). destruct k as [e c u]. cbn [code] in *. unfold encode, report. cbn [extended up code].
  assert (E1 := proj2 (Z.eqb_neq c 0xE0) He0). assert (E2 := proj2 (Z.eqb_neq c 0xF0) Hf0).
  destruct e, u; cbn [app decode answer Z.eqb Pos.eqb orb prefix andb]; rewrite ?Ha; cbn [Z.eqb Pos.eqb orb]; rewrite ?E1, ?E2; cbn [orb]; do 2 f_equal; unfold translate; cbn [Z.eqb Pos.eqb orb];
    rewrite bit7 by lia; destruct (Z.leb_spec 0x80 c), (Z.ltb_spec c 0x80); try lia; done.
Qed.

(** C32. What a keyboard sends is what the handler gets: for keys that go down and up in any order, whose codes come in pieces of any
    size, with pauses, with answers to the probes of the driver in between and late, each key is reported once, in order, with the
    code the table has for it and the mark of its release; and the driver takes a keyboard for removed only when it is silent
    twice in a row. *)
Theorem keyboard_decodes index ks f : 0 <= index < 2 -> Forall legal ks -> calm false f = true -> (length (bytes_of f) <= 255)%nat ->
  filter (fun b => answer b = false) (bytes_of f) = concat (encode <$> ks) ->
  exists v, device_keybd keycode func index (View [] (f ++ gone) []) = Ok (true, v) /\ calls (sent v) = concat (report <$> ks).
Proof.
  intros Hi Hk Hc Hl Hb. unfold device_keybd. rewrite ensure_true by (apply Z.ltb_lt; lia). cbn [obind].
  assert (Hlost : Forall (fun b => lost b = false) (bytes_of f)).
  { assert (Hin : Forall (fun b => lost b = false) (concat (encode <$> ks))).
    { clear -Hk. induction Hk as [|k ks (_ & Hlo & _) _ IH]; [constructor|]. cbn [fmap list_fmap concat]. apply Forall_app. split; [|done]. unfold encode. destruct (extended k), (up k); cbn [app]; repeat (apply Forall_cons; split; [done|]); constructor. }
    rewrite <- Hb in Hin. apply Forall_forall. intros b Hin'. destruct (answer b) eqn:Ea.
    - unfold answer in Ea. rewrite orb_true_iff, !Z.eqb_eq in Ea. by destruct Ea as [->| ->].
    - rewrite Forall_forall in Hin. apply Hin. by apply list_elem_of_filter. }
  destruct (keybd_loop_spec (S (size (View [] (f ++ gone) []))) index 0 false [] f [] Hlost Hl Hc ltac:(lia)) as (v & E & Ev). exists v. split; [exact E|]. rewrite Ev. cbn [calls omap list_omap app]. rewrite decode_noise, Hb. clear -Hk.
  induction Hk as [|k ks Hk _ IH]; [done|]. cbn [fmap list_fmap concat]. by rewrite decode_key, IH.
Qed.
End Keyboard.

(** A mouse that is silent for a second, and does not answer at once, stops the machine: the driver asks it for a packet and takes a
    byte from the empty queue without waiting for it. *)
Theorem idle_mouse_stops index mode f s : 0 <= index < 2 -> device_mouse index mode (View [] (Silence [] :: f) s) = Bug.
Proof.
  intros Hi. unfold device_mouse. rewrite ensure_true by (apply Z.ltb_lt; lia). cbn [obind]. set (n := size _). replace (2 * S n)%nat with (S (S (2 * n))) by lia. cbn [mouse_loop].
  assert (Hlt : (0 <? (if truth mode then 4 else 3)) = true) by by destruct (truth mode). rewrite Hlt. cbn [wait pending future sent obind andb orb]. unfold to_device, send. by destruct (truth index).
Qed.

(** The keys A and F7, and the extended key of the code 6B, on a keyboard that answers a probe late. *)
Definition w_script : list event := [Burst 0x1C []; Silence [0xEE; 0xF0]; Burst 0x1C [0x83; 0xE0]; Silence []; Burst 0xEE [0xF0; 0x6B]].
Definition w_keys : list key := [Key false 0x1C false; Key false 0x1C true; Key false 0x83 false; Key true 0x6B true].

Lemma keyboard_decodes_witness : exists v, device_keybd (fun c => c mod 0x80) true 0 (View [] (w_script ++ gone) []) = Ok (true, v) /\ calls (sent v) = [0x1C; 0x9C; 0x03; 0xEB].
Proof.
  assert (Hk : Forall legal w_keys) by (repeat (apply Forall_cons; split; [unfold legal; cbn; split_and!; (lia || done)|]); constructor).
  destruct (keyboard_decodes (fun c => c mod 0x80) true 0 w_keys w_script ltac:(lia) Hk eq_refl ltac:(vm_compute; lia) eq_refl) as (v & E & Ev). exists v. split; [exact E|]. rewrite Ev. vm_compute. reflexivity.
Defined.

Lemma ring_refines_witness : exists q', put 7 (Queue (replicate 256 0) 255 255) = Ok q' /\ contents q' = [7].
Proof.
  assert (Hok : ring_ok (Queue (replicate 256 0) 255 255)) by (constructor; cbn [buffer head tail]; [by rewrite length_replicate|lia|lia]).
  destruct (ring_refines (Queue (replicate 256 0) 255 255) 7 Hok) as [(q' & E & _ & Ec) _]. exists q'. split; [exact E|exact Ec].
Defined.

Lemma idle_mouse_stops_witness : device_mouse 1 3 (View [] [Silence []; Burst 0x08 [0; 0; 0]] []) = Bug.
Proof. apply (idle_mouse_stops 1 3 [Burst 0x08 [0; 0; 0]] []). lia. Defined.

(** A keyboard that is plugged in, answers as it should, and is unplugged after one key. *)
Lemma keyboard_found : exists v, identify (fun c => c mod 0x80) true 0
  (View [] ([Burst 0xAA []; Silence []; Burst 0xFA []; Burst 0xFE []; Burst 0xFA [0xAB; 0x83]; Burst 0xFA []; Burst 0xFA []; Burst 0xFA []; Burst 0xFA []; Burst 0xFA []; Burst 0x1C []] ++ gone) []) = Ok (Worked true, v) /\ calls (sent v) = [0x1C].
Proof. eexists. split; vm_compute; reflexivity. Qed.
End Ps2Thm.
