(* ===== verification/Service.v ===== *)
(** * What services ask of the memory of their caller (src/kernel/interface/service.cpp)

    Before a service touches memory of the process that calls it, [check] goes over the pages of the buffer, with the lock of
    the address space held until the service is done.  A service that hands data out answers a status and a size.  The services
    of memory are the operations of the address space with their answers turned into a status. *)

From S2P Require Import Prelude Const Bytes Phys.
From S2P Require PM PageTable.
From S2P Require Import UserMem VSpace VSpaceInv VSpaceOps ProcSpace.

Module Service.
Import UserMem.

(** [enum STATUS], as far as it is used here. *)
Definition SUCCESS : Z := 0.
Definition FAILED : Z := 0x80000000.
Definition BAD_PARAM : Z := 0x80000001.
Definition BAD_BUFFER : Z := 0x80000002.
Definition TOO_SMALL : Z := 0x80000003.
Definition NO_RESOURCE : Z := 0x80000006.
Definition BAD_HANDLE : Z := 0x80000007.

Definition pack_qword (a b : Z) : Z := Z.lor (w32 a) (Z.shiftl (w32 b) 32).

(** [enum OBJTYPE]: what a handle may lead to when a type is asked for. *)
Definition OBJ_UNKNOWN : Z := 0.
Definition OBJ_STREAM : Z := 3.
Definition OBJ_FILE : Z := 4.
Definition OBJ_PIPE : Z := 5.
Definition get (table : Z -> option Z) (handle type : Z) : option Z :=
  if handle =? 0 then None
  else
    match table handle with
    | None => None
    | Some objtype =>
        if type =? OBJ_UNKNOWN then Some objtype
        else if negb (objtype =? type) then
          if negb (type =? OBJ_STREAM) || (negb (objtype =? OBJ_PIPE) && negb (objtype =? OBJ_FILE)) then None else Some objtype
        else Some objtype
    end.

Section Buffers.
Context `{UserSpace}.

Fixpoint check_loop (n : nat) (va tail : Z) (write : bool) : outcome bool :=
  match n with
  | O => NoFuel
  | S n =>
      if va <? tail then
        let pt := peek va in
        if negb (present pt) || negb (user pt) then Ok false
        else if write && negb (writable pt) then Ok false
        else check_loop n (w64 (va + PAGE_SIZE)) tail write
      else Ok true
  end.
Definition check (ptr length : Z) (write : bool) : outcome bool :=
  let tail := w64 (ptr + length) in
  let! b := check_loop (pages length) (align_down 64 ptr PAGE_SIZE) tail write;
  if b then assert! Z.land tail (HIGHADDR 0) =? 0; Ok true else Ok false.

(** The service stores to its caller's memory by the caller's addresses, through the tables of the processor: at a page that is
    not there or cannot be written the store faults, and the fault in the kernel stops the machine. *)
Definition store (ptr : Z) (data : list Z) (m : memory) : outcome memory :=
  assert! forallb (usable true) (seqZ ptr (Z.of_nat (length data)));
  Ok (set_phys (poke ptr data (phys m)) m).

(** ** Services that hand data out; the data itself is an argument *)

Definition os_info (info description : list Z) (buffer limit : Z) (m : memory) : outcome (Z * memory) :=
  let! b := check buffer limit true;
  if negb b then Ok (BAD_BUFFER, m)
  else
    let size := Z.of_nat (length info + length description) in
    if limit <? Z.of_nat (length info) then Ok (pack_qword TOO_SMALL size, m)
    else
      let! m := store buffer info m;
      if limit <? size then Ok (pack_qword SUCCESS (Z.of_nat (length info)), m)
      else
        let! m := store (buffer + Z.of_nat (length info)) description m;
        Ok (pack_qword SUCCESS size, m).

(** [info]: [None] when the handle leads to no process. *)
Definition process_info (info : option (list Z)) (buffer limit : Z) (m : memory) : outcome (Z * memory) :=
  match info with
  | None => Ok (BAD_HANDLE, m)
  | Some info =>
      let! b := check buffer limit true;
      if negb b then Ok (BAD_BUFFER, m)
      else if limit <? Z.of_nat (length info) then Ok (pack_qword TOO_SMALL (Z.of_nat (length info)), m)
      else let! m := store buffer info m; Ok (pack_qword SUCCESS (Z.of_nat (length info)), m)
  end.

Definition get_command (commandline : option (list Z)) (buffer limit : Z) (m : memory) : outcome (Z * memory) :=
  match commandline with
  | None => Ok (BAD_HANDLE, m)
  | Some str =>
      let! b := check buffer limit true;
      if negb b then Ok (BAD_BUFFER, m)
      else
        let size := Z.of_nat (length str) in
        if limit <? size then Ok (pack_qword TOO_SMALL size, m)
        else let! m := store buffer str m; Ok (pack_qword SUCCESS size, m)
  end.

Definition get_work_dir (wd : option (list Z)) (buffer limit : Z) (m : memory) : outcome (Z * memory) :=
  let! b := check buffer limit true;
  if negb b then Ok (BAD_BUFFER, m)
  else
    match wd with
    | Some str =>
        let size := Z.of_nat (length str) in
        if limit <? size then Ok (pack_qword TOO_SMALL size, m)
        else let! m := store buffer str m; Ok (pack_qword SUCCESS size, m)
    | None => Ok (pack_qword SUCCESS 0, m)
    end.

(** The buffer is looked at before the handle. *)
Definition file_path (path : option (list Z)) (buffer limit : Z) (m : memory) : outcome (Z * memory) :=
  let! b := check buffer limit true;
  if negb b then Ok (BAD_BUFFER, m)
  else
    match path with
    | None => Ok (BAD_HANDLE, m)
    | Some str =>
        let size := Z.of_nat (length str) in
        if limit <? size then Ok (pack_qword TOO_SMALL size, m)
        else let! m := store buffer str m; Ok (pack_qword SUCCESS size, m)
    end.

Definition file_tell (place : option (list Z)) (buffer : Z) (m : memory) : outcome (Z * memory) :=
  match place with
  | None => Ok (BAD_HANDLE, m)
  | Some info =>
      let! b := check buffer 16 true;
      if negb b then Ok (BAD_BUFFER, m) else let! m := store buffer info m; Ok (SUCCESS, m)
  end.
End Buffers.

(** ** The services of memory *)
Section Memory.
Context `{Phys}.

Definition status (b : bool) (otherwise : Z) : Z := if b then SUCCESS else otherwise.
Definition vm_protect (va count attrib : Z) (s : VSpace.vspace) : outcome (Z * VSpace.vspace) :=
  let! (b, s) := VSpace.user_protect va count attrib s; Ok (status b BAD_PARAM, s).
Definition vm_reserve (va count : Z) (s : VSpace.vspace) : outcome (Z * VSpace.vspace) := VSpace.user_reserve va count s.
Definition vm_release (va count : Z) (s : VSpace.vspace) : outcome (Z * VSpace.vspace) :=
  let! (b, s) := VSpace.user_release va count s; Ok (status b BAD_PARAM, s).
(** [used]: the pages in use or promised after the attempt. *)
Definition vm_commit (used critical_limit va count : Z) (s : VSpace.vspace) : outcome (Z * VSpace.vspace) :=
  let! (b, s) := VSpace.user_commit va count s;
  Ok (status b (if used <=? critical_limit then NO_RESOURCE else BAD_PARAM), s).

Definition stack_pages (stk_size stack_preserve : Z) : Z :=
  let stk_size := if stk_size =? 0 then stack_preserve else stk_size in
  Z.max 1 (w32 (align_up 64 stk_size PAGE_SIZE / PAGE_SIZE)).

(** [create_thread] up to the thread itself: the top page of the stack is committed, the others are reserved for it to grow.  The
    answer is a status, or the address the stack of the thread starts at. *)
Definition thread_stack (entry stk_size stack_preserve : Z) (s : VSpace.vspace) : outcome ((Z + Z) * VSpace.vspace) :=
  if negb (Z.land entry (HIGHADDR 0) =? 0) then Ok (inl BAD_PARAM, s)
  else
    let count := stack_pages stk_size stack_preserve in
    let! (stk_base, s) := VSpace.user_reserve 0 (w32 (count + 1)) s;
    if stk_base =? 0 then Ok (inl NO_RESOURCE, s)
    else
      let! (res, s) := VSpace.user_commit (w64 (stk_base + count * PAGE_SIZE)) 1 s;
      if negb res then let! (_, s) := VSpace.user_release stk_base (w32 (count + 1)) s; Ok (inl NO_RESOURCE, s)
      else Ok (inr (w64 (stk_base + (count + 1) * PAGE_SIZE)), s).
End Memory.
End Service.

Module ServiceThm.
Import UserMem UserMemThm Service.

Section Buffers.
Context `{UserSpace}.
#[local] Set Default Proof Using "Type".

Lemma guard_usable w va : (negb (present (peek va)) || negb (user (peek va))) || (w && negb (writable (peek va))) = negb (usable w va).
Proof. unfold usable. by destruct (present _), (user _), w, (writable _). Qed.

(** From a page on, the loop says whether every byte can be used. *)
Lemma check_loop_ok n : forall va tail w, 0 <= va -> va mod PAGE_SIZE = 0 -> tail < 2 ^ 64 -> tail - va <= Z.of_nat n * PAGE_SIZE ->
  check_loop (S n) va tail w = Ok (bool_decide (avail w (Z.to_nat (tail - va)) va = Z.to_nat (tail - va))).
Proof.
  induction n as [|n IH]; intros va tail w Hv Ha Ht Hn; [|remember (S n) as n1 eqn:En in |- *]; cbn [check_loop]; (destruct (Z.ltb_spec va tail) as [Hlt|]; [|replace (Z.to_nat (tail - va)) with 0%nat by lia; by rewrite bool_decide_true]).
  { unfold PAGE_SIZE in Hn. lia. }
  assert (Hcase : forall A (x y z : A), (if negb (present (peek va)) || negb (user (peek va)) then x else if w && negb (writable (peek va)) then x else z) = if negb (usable w va) then x else z).
  { intros A x _ z. rewrite <- guard_usable. by destruct (negb (present _) || negb (user _)), (w && negb _). }
  rewrite (Hcase _ _ (Ok true) _). destruct (usable w va) eqn:Eu; cbn [negb].
  2:{ rewrite bool_decide_false; [done|]. rewrite avail_none by done. lia. }
  pose proof (usable_low w va Eu) as Hlow. unfold size_512G in Hlow. rewrite wrap_small by (unfold PAGE_SIZE; lia). subst n1. destruct (Z.le_gt_cases tail (va + PAGE_SIZE)) as [Hend|Hmore].
  - rewrite IH; [|unfold PAGE_SIZE; lia|by rewrite <- (Z.mul_1_l PAGE_SIZE) at 1; rewrite Z_mod_plus_full|done|unfold PAGE_SIZE in *; lia]. replace (Z.to_nat (tail - (va + PAGE_SIZE))) with 0%nat by lia. cbn [avail]. rewrite !bool_decide_true; [done| |done].
    pose proof (avail_page w va (Z.to_nat (tail - va)) 0 ltac:(lia) Eu) as E. cbn [avail] in E. by rewrite Nat.add_0_r in E.
  - rewrite IH; [|unfold PAGE_SIZE; lia|by rewrite <- (Z.mul_1_l PAGE_SIZE) at 1; rewrite Z_mod_plus_full|done|unfold PAGE_SIZE in *; lia]. f_equal. apply bool_decide_ext.
    replace (Z.to_nat (tail - va)) with (Z.to_nat PAGE_SIZE + Z.to_nat (tail - (va + PAGE_SIZE)))%nat by (unfold PAGE_SIZE in *; lia). rewrite avail_page by (done || unfold PAGE_SIZE in *; lia). rewrite Z2Nat.id by done. lia.
Qed.

Lemma align_down_page ptr : 0 <= ptr < 2 ^ 64 -> align_down 64 ptr PAGE_SIZE = ptr - ptr mod PAGE_SIZE.
Proof. intros Hp. change PAGE_SIZE with (2 ^ 12). rewrite align_down_pow2 by lia. pose proof (Z.div_mod ptr (2 ^ 12) ltac:(lia)). lia. Qed.

Lemma low_tail t : 0 <= t < 2 ^ 47 -> Z.land t (HIGHADDR 0) = 0.
Proof.
  intros Ht. change (HIGHADDR 0) with (Z.shiftl 0x1FFFF 47). apply Z.bits_inj'. intros i Hi. rewrite Z.land_spec, Z.bits_0. destruct (Z.lt_ge_cases i 47).
  - by rewrite Z.shiftl_spec_low, andb_false_r by lia.
  - rewrite <- (wrap_small 47 t) by done. unfold wrap. by rewrite Z.mod_pow2_bits_high by lia.
Qed.

Lemma avail_iff w n va : avail w n va = n <-> forall i, 0 <= i < Z.of_nat n -> usable w (va + i) = true.
Proof. split; [intros E i Hi; apply (avail_usable w n va); lia|apply avail_all]. Qed.

(** Rounding the start down to its page adds bytes of a page that is looked at anyway. *)
Lemma check_span w ptr len : 0 < len -> let va := ptr - ptr mod PAGE_SIZE in
  avail w (Z.to_nat (ptr + len - va)) va = Z.to_nat (ptr + len - va) <-> forall i, 0 <= i < len -> usable w (ptr + i) = true.
Proof.
  intros Hl va. assert (Hr : 0 <= ptr mod PAGE_SIZE < PAGE_SIZE) by (unfold PAGE_SIZE; dlia). rewrite avail_iff. split; intros Hu.
  - intros i Hi. replace (ptr + i) with (va + (ptr mod PAGE_SIZE + i)) by (unfold va; lia). apply Hu. unfold va. lia.
  - intros i Hi. destruct (Z.le_gt_cases (ptr mod PAGE_SIZE) i) as [Hge|Hlt].
    + replace (va + i) with (ptr + (i - ptr mod PAGE_SIZE)) by (unfold va; lia). apply Hu. unfold va in Hi. lia.
    + assert (E : va mod PAGE_SIZE = 0) by (unfold va, PAGE_SIZE; dlia). rewrite usable_page by lia. rewrite <- (usable_page w va (ptr mod PAGE_SIZE)) by lia.
      replace (va + ptr mod PAGE_SIZE) with (ptr + 0) by (unfold va; lia). apply Hu. lia.
Qed.

(** The test of a buffer, with the assertion that no page of the kernel's half can be the caller's. *)
Lemma check_ok ptr len w : 0 <= ptr -> 0 < len < 2 ^ 32 -> ptr + len < 2 ^ 64 ->
  exists b, check ptr len w = Ok b /\ (b = true <-> forall i, 0 <= i < len -> usable w (ptr + i) = true).
Proof.
  intros Hp Hl Hs. unfold check. rewrite (wrap_small 64 (ptr + len)), align_down_page by lia. pose proof (check_span w ptr len ltac:(lia)) as Hspan. cbv zeta in Hspan.
  set (va := ptr - ptr mod PAGE_SIZE) in *. assert (Hva : 0 <= va /\ va mod PAGE_SIZE = 0 /\ ptr - PAGE_SIZE < va <= ptr) by (unfold va, PAGE_SIZE; dlia).
  replace (pages len) with (S (Z.to_nat (len / PAGE_SIZE + 2))) by (unfold pages, PAGE_SIZE; dlia). rewrite check_loop_ok; [|lia|apply Hva|lia|unfold PAGE_SIZE in *; dlia].
  case_bool_decide as Hd; cbn [obind]; [|by exists false; rewrite <- Hspan]. exists true. rewrite <- Hspan. split; [|done].
  assert (Hlow : usable w (ptr + (len - 1)) = true) by (apply (proj1 Hspan Hd); lia). apply usable_low in Hlow. unfold size_512G in Hlow. by rewrite low_tail by lia.
Qed.

(** C19. A buffer that does not wrap around the end of all addresses and is not empty is accepted exactly when its caller could use
    every byte of it, for writing where that is asked for, and the test always ends with an answer.  An empty buffer at the start of a
    page above the caller's half stops the machine, and a buffer that wraps around is accepted whatever is there. *)
Theorem check_correct ptr len w : 0 <= ptr < 2 ^ 64 -> 0 <= len < 2 ^ 32 ->
  (0 < len -> ptr + len < 2 ^ 64 -> exists b, check ptr len w = Ok b /\ (b = true <-> forall i, 0 <= i < len -> usable w (ptr + i) = true)) /\
  (len = 0 -> ptr mod PAGE_SIZE = 0 -> Z.land ptr (HIGHADDR 0) <> 0 -> check ptr len w = Bug) /\
  (2 ^ 64 <= ptr + len -> check ptr len w = Ok true).
Proof.
  intros Hp Hl. split; [intros; apply check_ok; lia|]. split.
  - intros -> Ha Hh. unfold check. rewrite Z.add_0_r, wrap_small, align_down_page, Ha, Z.sub_0_r by lia. cbn [pages Z.div Z.to_nat]. change (pages 0) with 3%nat. cbn [check_loop]. rewrite Z.ltb_irrefl. cbn [obind]. apply Z.eqb_neq in Hh. by rewrite Hh.
  - intros Hw. unfold check. rewrite align_down_page by lia. assert (Ht : w64 (ptr + len) = ptr + len - 2 ^ 64) by (unfold wrap; dlia). rewrite Ht.
    replace (pages len) with (S (Z.to_nat (len / PAGE_SIZE + 2))) by (unfold pages, PAGE_SIZE; dlia). cbn [check_loop].
    assert (Hm : 0 <= ptr mod PAGE_SIZE < PAGE_SIZE) by (unfold PAGE_SIZE; dlia). unfold PAGE_SIZE in Hm at 3. destruct (Z.ltb_spec (ptr - ptr mod PAGE_SIZE) (ptr + len - 2 ^ 64)); [lia|]. cbn [obind]. by rewrite low_tail by lia.
Qed.

(** ** Handing data out *)

(** The caller finds [data] in its buffer, and nothing else has changed. *)
Definition handed (ptr : Z) (data : list Z) (m m' : memory) : Prop :=
  view ptr (Z.of_nat (length data)) (phys m') = data /\ kern m' = kern m /\
  forall a, (forall i, 0 <= i < Z.of_nat (length data) -> phys_of (ptr + i) <> a) -> phys m' a = phys m a.

(** The answers of a service that hands out [data] to a buffer of at least [need] bytes. *)
Definition hands_out (ptr limit : Z) (data : list Z) (need refusal status : Z) (m : memory) (r : outcome (Z * memory)) : Prop :=
  let writable_all := forallb (usable true) (seqZ ptr limit) in
  if negb writable_all then r = Ok (BAD_BUFFER, m)
  else if limit <? need then r = Ok (refusal, m)
  else exists m', r = Ok (status, m') /\ handed ptr data m m'.

Lemma forallb_usable w ptr n : forallb (usable w) (seqZ ptr n) = true <-> forall i, 0 <= i < n -> usable w (ptr + i) = true.
Proof.
  rewrite forallb_forall. split.
  - intros Hu i Hi. apply Hu, list_elem_of_In, elem_of_seqZ. lia.
  - intros Hu a Ha. apply list_elem_of_In, elem_of_seqZ in Ha. replace a with (ptr + (a - ptr)) by lia. apply Hu. lia.
Qed.

Lemma check_bool ptr len w : 0 <= ptr -> 0 < len < 2 ^ 32 -> ptr + len < 2 ^ 64 -> check ptr len w = Ok (forallb (usable w) (seqZ ptr len)).
Proof.
  intros Hp Hl Hs. destruct (check_ok ptr len w Hp Hl Hs) as (b & -> & Hb). f_equal. rewrite <- forallb_usable in Hb. destruct b, (forallb _ _); try done; [by symmetry; apply Hb|by apply Hb].
Qed.

Lemma usable_prefix w ptr n k : k <= n -> forallb (usable w) (seqZ ptr n) = true -> forallb (usable w) (seqZ ptr k) = true.
Proof. rewrite !forallb_usable. intros Hk Hu i Hi. apply Hu. lia. Qed.

(** Two blocks that are stored one after the other are one block. *)
Lemma store_app ptr l1 l2 m : store ptr (l1 ++ l2) m = obind (store ptr l1 m) (fun m => store (ptr + Z.of_nat (length l1)) l2 m).
Proof.
  unfold store. rewrite length_app, Nat2Z.inj_add, seqZ_app, forallb_app by lia. destruct (forallb _ (seqZ ptr _)); cbn [andb obind]; [|done].
  destruct (forallb _ _); cbn [obind]; [|done]. unfold set_phys. cbn. by rewrite poke_app.
Qed.

(** No two bytes of the caller share a place in memory. *)
Hypothesis Hown : own_frames.
#[local] Set Default Proof Using "Type*".

Lemma handed_store ptr data m : forallb (usable true) (seqZ ptr (Z.of_nat (length data))) = true -> exists m', store ptr data m = Ok m' /\ handed ptr data m m'.
Proof.
  intros Hu. unfold store. rewrite Hu. cbn [obind]. eexists. split; [done|]. rewrite forallb_usable in Hu. split; [|split; [done|]].
  - cbn. apply view_poke. intros i j Hi Hj E. apply (Hown true) in E; [lia|by apply Hu..].
  - intros a Ha. cbn. by apply poke_out.
Qed.

(** The common end of the services that copy one block of data. *)
Lemma hand_out ptr limit data m : 0 <= ptr -> 0 < limit < 2 ^ 32 -> ptr + limit < 2 ^ 64 ->
  hands_out ptr limit data (Z.of_nat (length data)) (pack_qword TOO_SMALL (Z.of_nat (length data))) (pack_qword SUCCESS (Z.of_nat (length data))) m
    (let! b := check ptr limit true;
     if negb b then Ok (BAD_BUFFER, m)
     else if limit <? Z.of_nat (length data) then Ok (pack_qword TOO_SMALL (Z.of_nat (length data)), m)
     else let! m := store ptr data m; Ok (pack_qword SUCCESS (Z.of_nat (length data)), m)).
Proof.
  intros Hp Hl Hs. unfold hands_out. rewrite check_bool by lia. cbn [obind]. destruct (forallb _ _) eqn:Eu; cbn [negb]; [|done]. destruct (Z.ltb_spec limit (Z.of_nat (length data))) as [|Hle]; [done|].
  destruct (handed_store ptr data m (usable_prefix _ _ _ _ Hle Eu)) as (m' & -> & Hm). by exists m'.
Qed.

(** The description follows when there is room for it. *)
Lemma os_info_ok info description ptr limit m : 0 <= ptr -> 0 < limit < 2 ^ 32 -> ptr + limit < 2 ^ 64 ->
  let data := info ++ description in let size := Z.of_nat (length data) in let isize := Z.of_nat (length info) in
  hands_out ptr limit (if limit <? size then info else data) isize (pack_qword TOO_SMALL size) (pack_qword SUCCESS (if limit <? size then isize else size)) m
    (os_info info description ptr limit m).
Proof.
  intros Hp Hl Hs data size isize. unfold hands_out, os_info. rewrite check_bool by lia. cbn [obind]. destruct (forallb _ _) eqn:Eu; cbn [negb]; [|done]. fold isize.
  assert (Esize : Z.of_nat (length info + length description) = size) by (unfold size, data; by rewrite length_app). rewrite Esize.
  destruct (Z.ltb_spec limit isize) as [|Hi]; [done|]. destruct (Z.ltb_spec limit size) as [Hlt|Hge].
  - destruct (handed_store ptr info m (usable_prefix _ _ _ _ Hi Eu)) as (m' & -> & Hm). by exists m'.
  - destruct (handed_store ptr data m (usable_prefix _ _ _ _ Hge Eu)) as (m' & E & Hm). unfold data in E. rewrite store_app in E. fold isize in E.
    destruct (store ptr info m) as [m1| | ]; cbn [obind] in E |- *; [|done..]. rewrite E. cbn [obind]. by exists m'.
Qed.

(** C20. With a buffer of the caller that is not empty and does not wrap around, the services that hand data out stop the machine for
    no arguments: a buffer that cannot be written all over, a limit that is too small and a handle that leads to nothing are answered with their
    status, the size that is needed, and an unchanged memory; otherwise the caller finds the data in its buffer, and no other byte of memory has changed. *)
Theorem services_hand_out ptr limit data m : 0 <= ptr -> 0 < limit < 2 ^ 32 -> ptr + limit < 2 ^ 64 ->
  let size := Z.of_nat (length data) in
  let ok := hands_out ptr limit data size (pack_qword TOO_SMALL size) (pack_qword SUCCESS size) m in
  ok (process_info (Some data) ptr limit m) /\ ok (get_command (Some data) ptr limit m) /\ ok (get_work_dir (Some data) ptr limit m) /\ ok (file_path (Some data) ptr limit m) /\
  process_info None ptr limit m = Ok (BAD_HANDLE, m) /\ get_command None ptr limit m = Ok (BAD_HANDLE, m) /\
  file_path None ptr limit m = Ok (if forallb (usable true) (seqZ ptr limit) then BAD_HANDLE else BAD_BUFFER, m) /\
  (forall info description, data = info ++ description -> let isize := Z.of_nat (length info) in
    hands_out ptr limit (if limit <? size then info else data) isize (pack_qword TOO_SMALL size) (pack_qword SUCCESS (if limit <? size then isize else size)) m
      (os_info info description ptr limit m)).
Proof.
  intros Hp Hl Hs size ok. subst size ok. split; [by apply hand_out|]. split; [by apply hand_out|]. split; [|split; [|split; [done|split; [done|split]]]].
  - pose proof (hand_out ptr limit data m Hp Hl Hs) as E. exact E.
  - by apply hand_out.
  - unfold file_path. rewrite check_bool by lia. by destruct (forallb _ _).
  - intros info description -> isize. by apply os_info_ok.
Qed.
End Buffers.
End ServiceThm.

(** * The stack of a new thread *)
Module StackThm.
Import PageTable.PageTable VSpace VSpaceThm VSpaceInv VSpaceOps ProcSpace Service.

Section Stack.
Context `{Phys}.
#[local] Set Default Proof Using "Type".

Lemma stack_pages_bound size pre : 0 <= size < 2 ^ 32 -> 0 <= pre < 2 ^ 32 -> 1 <= stack_pages size pre <= 2 ^ 20.
Proof.
  intros Hs Hp. unfold stack_pages. set (z := if size =? 0 then pre else size). assert (Hz : 0 <= z < 2 ^ 32) by (unfold z; destruct (_ =? _); done). clearbody z.
  assert (Ha : 0 <= align_up 64 z PAGE_SIZE / PAGE_SIZE <= 2 ^ 20).
  { change PAGE_SIZE with (2 ^ 12). rewrite align_up_pow2, Z.div_mul by lia. change (2 ^ 12) with 4096. change (2 ^ 20) with 1048576. change (2 ^ 32) with 4294967296 in Hz. dlia. }
  change (2 ^ 20) with 1048576 in *. rewrite wrap_small; change (2 ^ 32) with 4294967296; lia.
Qed.

(** [commit] of one page of a living space. *)
Lemma commit_one others u a : lives others u -> 0 <= a -> exists b s, user_commit a 1 (low u) = Ok (b, s) /\ lives others (with_low s u) /\
  (b = true -> page_of a = a / PAGE_SIZE /\ forall q, is_pg q ->
     if decide (q = a / PAGE_SIZE) then exists x, look s q = commit_pte true x (look (low u) q) /\ x ∈ mapped_of s /\ x ∉ others else look s q = look (low u) q).
Proof.
  intros Hl Ha. pose proof (lives_inv _ _ Hl) as Hi. destruct (pr_order _ _ Hi) as [F Ho]. pose proof (pr_tame _ _ Hi) as Ht. pose proof Ho as [Hs Hh].
  destruct (user_commit_ok _ 2 F (low u) a 1 Ho Ha ltac:(lia)) as (b & F' & s & E & [Hs' Hh'] & Hcase). exists b, s. split; [done|]. split.
  { apply (lives_call others u (CallCommit a 1) (b2z b) s Hl); cbn [call_ok do_call]; [|by rewrite E]. by rewrite (proj2 (Z.leb_le 0 a)). }
  intros ->. destruct Hcase as (Hck & _ & _ & Hcm). destruct (user_range a 1 Ha ltac:(lia) Hck) as (_ & _ & _ & Epg & _). rewrite Epg in Hcm. split; [done|].
  assert (Ht' : tame s) by (apply (committed_tame _ _ _ _ _ _ F' Ht (mapped_not_zero _ _ _ _ Hh') Hcm)).
  intros q Hq. specialize (Hcm q Hq). case_decide as Hd; case_decide as Hd'; try lia; [|done]. destruct Hcm as (x & Hx & Hnx & El). exists x. split; [done|].
  rewrite <- (mapped_of_holds _ _ _ _ Hs' Ht' Hh'). split; [done|]. set_solver.
Qed.

End Stack.
End StackThm.

Module ServiceWitness.
Import PageTable.PageTable UserMem UserMemThm UserMemWitness VSpace ProcSpace ProcWitness Service ServiceThm StackThm.

Lemma w_own : own_frames.
Proof.
  intros w a b Ha Hb E. unfold usable in Ha, Hb. unfold phys_of in E. cbn [peek w_space] in *. unfold w_peek in *. pose proof (Z.div_mod a PAGE_SIZE ltac:(done)) as Da. pose proof (Z.div_mod b PAGE_SIZE ltac:(done)) as Db.
  assert (Hma : 0 <= a mod PAGE_SIZE < PAGE_SIZE) by (by apply Z.mod_pos_bound). assert (Hmb : 0 <= b mod PAGE_SIZE < PAGE_SIZE) by (by apply Z.mod_pos_bound).
  destruct (Z.eqb_spec (a / PAGE_SIZE) 1), (Z.eqb_spec (a / PAGE_SIZE) 2), (Z.eqb_spec (a / PAGE_SIZE) 3); try discriminate Ha; try lia;
    destruct (Z.eqb_spec (b / PAGE_SIZE) 1), (Z.eqb_spec (b / PAGE_SIZE) 2), (Z.eqb_spec (b / PAGE_SIZE) 3); try discriminate Hb; try lia;
    cbn [page_addr w_pte] in E; change (w64 (5 * PAGE_SIZE)) with 20480 in E; change (w64 (3 * PAGE_SIZE)) with 12288 in E; change (w64 (9 * PAGE_SIZE)) with 36864 in E; unfold PAGE_SIZE in *; lia.
Qed.

(** A buffer over the border of two pages, one that runs into a page that can only be read, and the two that are not judged by their pages. *)
Lemma check_correct_witness : check 0x1FFE 4 true = Ok true /\ check 0x2FFE 4 true = Ok false /\ check (HIGHADDR 0) 0 true = Bug /\ check 0xFFFFFFFFFFFFF000 0x2000 true = Ok true.
Proof.
  destruct (check_correct 0x1FFE 4 true ltac:(lia) ltac:(lia)) as (H1 & _). destruct (H1 ltac:(lia) ltac:(lia)) as (b1 & E1 & Hb1).
  destruct (check_correct 0x2FFE 4 true ltac:(lia) ltac:(lia)) as (H2 & _). destruct (H2 ltac:(lia) ltac:(lia)) as (b2 & E2 & Hb2).
  split; [rewrite E1; f_equal; apply Hb1; intros i Hi; assert (i = 0 \/ i = 1 \/ i = 2 \/ i = 3) as [-> | [-> | [-> | ->]]] by lia; reflexivity|].
  split; [rewrite E2; destruct b2; [exfalso; discriminate (proj1 Hb2 eq_refl 2 ltac:(lia))|done]|].
  split; [apply (check_correct (HIGHADDR 0) 0 true ltac:(vm_compute; split; [discriminate|reflexivity]) ltac:(lia)); [done|reflexivity|discriminate]|].
  apply (check_correct 0xFFFFFFFFFFFFF000 0x2000 true ltac:(lia) ltac:(lia)). lia.
Defined.

Lemma services_hand_out_witness : exists m', get_command (Some [7; 8; 9; 10]) 0x1FFE 16 w_mem = Ok (pack_qword SUCCESS 4, m') /\ handed 0x1FFE [7; 8; 9; 10] w_mem m'.
Proof.
  destruct (services_hand_out w_own 0x1FFE 16 [7; 8; 9; 10] w_mem ltac:(lia) ltac:(lia) ltac:(lia)) as (_ & Hg & _). exact Hg.
Defined.

#[local] Instance w_phys : Phys := phys_pm PM.PM.no_callback.

(** Three pages are reserved, one for a stack of 8K and its top. *)
Definition stack_checks (u : user_vspace) : bool :=
  answers (fun '(base, s1) => answers fst (user_commit (base + 2 * PAGE_SIZE) 1 s1)) (user_reserve 0 3 (low u)) && answers (fun '(r, s) => match r with inr top => top =? 0x3FD000 | inl _ => false end) (thread_stack 0x400000 0 0x2000 (low u)).

Lemma stack_calls : exists u, lives ∅ u /\ stack_checks u = true.
Proof. apply (some_life three). vm_compute. reflexivity. Qed.

End ServiceWitness.
